(* ===== verification/_CoqProject ===== *)
-Q . S2P
Prelude.v
GoFloat.v
GoStrings.v
GoTime.v
GoJson.v
GoPrint.v
Matcher.v
Policy.v
PolicyMerge.v
ErrorPolicy.v
Types.v
Context.v
Http.v
Translate.v
TranslateWire.v
TranslateStream.v
TranslateMessages.v
TranslateResponses.v
TranslateResponsesMessages.v
TranslateResponsesStream.v
ResponsesStreamChat.v
ResponsesStreamMessages.v
Filters.v
Compensation.v
Store.v
Limiter.v
Settlement.v
Sse.v
Breaker.v
BreakerLease.v
BreakerWindow.v
BreakerTime.v
BreakerManager.v
Events.v
EventFilter.v
Runtime.v
Balancers.v
BalancersSpec.v
Routers.v
Fallback.v
SmartRequest.v
Smart.v
Cache.v
ApiKeys.v
FloatInt.v
RedisStore.v
StatusCollector.v
Metrics.v
Kubernetes.v
PolicyService.v
RedisPolicies.v
Config.v
PolicyDecode.v
AccessLog.v
ConfigManager.v
Poller.v
Models.v
Discovery.v
Cluster.v
Hedging.v
Builder.v
Upstream.v
OpenAI.v
VersionReport.v
Engine.v
Providers.v
JoyCode.v
ProviderFactory.v
ProviderAttempt.v
WebSocket.v
FrontEnd.v
Gateway.v
