(* ===== verification/Prelude.v ===== *)
(** * A verification of the TokenLive gateway

    TokenLive is an LLM gateway: a request is authenticated, passes inbound filters (tags,
    validation, credits, rate limits), is routed to an upstream endpoint with retries,
    hedging, model fallback and optional judged escalation, is translated between the Chat,
    Messages and Responses protocols where client and endpoint disagree, and its usage is
    settled by outbound filters.  This library models the Go code under src/pkg and
    src/internal that decides what happens to a request, and proves the properties that
    make it correct.

    ** Parts and files

    Language and libraries
    - Prelude (this file): shared automation ([split_match], [zbool], [zauto], the hint
      database [gw]), functional record update [r <| f := v |>], 64-bit wrap-around,
      time and durations in nanoseconds, [go A] for code that may panic, list lemmas.
    - GoFloat, GoStrings, GoTime, GoPrint: what the source uses of Go's float64, strings,
      time, strconv and fmt, executable.  Floats are IEEE binary64 on the Standard
      Library's [spec_float].
    - GoJson: JSON documents as encoding/json decodes them into [any], with the accessors
      the source uses.  Http: headers and the response writer.

    Policies and data
    - Matcher (pkg/matcher): wildcards, conditions, the matcher registry; [RequestContext]
      is the class of request views, implemented in Context.
    - Policy, PolicyMerge (pkg/policy): the records and the merge by priority, on lists of
      possibly nil pointers.
    - PolicyDecode (UnmarshalJSON in pkg/policy, pkg/matcher): the JSON documents of policies.
    - ErrorPolicy (pkg/policy/error_policy.go, error_parser.go): which upstream errors
      retry or trip a breaker, with the process-wide regexp cache as threaded state.
    - Types, Context (pkg/core/types.go, context.go): endpoints, the request context, its
      per-attempt reset and the attempt history.

    Protocols
    - Translate (pkg/llm/translate: helpers, reasoning, tool names, schemas), TranslateWire
      (documents on the wire), TranslateMessages (messages_chat.go), TranslateStream
      (messages_chat_stream.go, chat_messages_stream.go), TranslateResponses
      (responses_chat.go), TranslateResponsesMessages (responses_messages.go),
      TranslateResponsesStream (chat_responses_stream.go, responses_messages_stream.go)
      with its proofs in ResponsesStreamChat and ResponsesStreamMessages.
    - Sse (pkg/llm: sse_parser.go, passthrough, token extraction): event framing, streams
      and their usage.
    - Upstream (pkg/llm/upstream/call.go, pkg/llm/idle_timeout_reader.go): one HTTP call
      with its timers and the body it hands on.  OpenAI (pkg/llm/providers/openai*.go): the
      provider and the relay of its streams.  Providers (openai_messages.go,
      openai_responses.go, anthropic*.go, gemini.go, pkg/llm/probe.go): the invokers that
      translate, the other providers, local answers to probes.  JoyCode (joycode.go): its
      wrapped streams and invokers.  ProviderFactory (pkg/llm/factory.go): all four behind
      the interface core.Provider.  ProviderAttempt: none of them touches the record of
      attempts.

    State and limits
    - Store (pkg/store/memory.go, the StateStore interface of pkg/core/invoker.go): the
      interface is the class [StateStore]; [WindowCounter] states the counter laws the
      limiter needs, and the memory store is an instance of both.
    - RedisStore (pkg/store/redis.go, pkg/store/lua): the shared store and its Lua scripts,
      over a class of Redis commands; FloatInt holds the facts on integers as Lua numbers.
    - Limiter (pkg/limiter, filters/inbound/limit.go), Settlement (filters/outbound/
      token_settlement.go), StatusCollector (filters/outbound/status_collector.go), Metrics
      (metrics.go, pkg/telemetry/registry.go), AccessLog
      (access_log.go, access_log_compensator.go): records, batches and their compensation.
    - Events (pkg/events, internal/bootstrap/registry.go): transports and the asynchronous
      publisher.  EventFilter (filters/outbound/event_publisher.go): the events of a request.
      Runtime (internal/bootstrap/runtime.go): background tasks and the order of closing.
      VersionReport (pkg/versionreport): the reports of a gateway's build.
    - Compensation (pkg/compensation): queue, retries and dead-letter queue, over a class
      of Redis operations.
    - Filters (pkg/filters/inbound, pkg/tagging): the other inbound filters and the tagging
      rules.

    Routing
    - Breaker (pkg/core/circuit_breaker.go, circuitBreakerEntry): one breaker.
      BreakerLease: its critical sections as an interleaving step relation.
      BreakerWindow, BreakerTime: its count and time windows against reference windows.
      BreakerManager: the keyed manager, attempts with leases on two breakers.
    - Balancers, BalancersSpec (pkg/lbs), Routers (pkg/routers), Discovery
      (pkg/core/discovery_*.go, provider_registry.go, engine_lifecycle.go), Kubernetes
      (discovery_kubernetes.go).
    - Fallback (pkg/core/invoker.go, pipeline.go, pkg/invoker/provider.go), Cluster
      (pkg/invoker/cluster.go, attempt_observer.go), Hedging (pkg/invoker/hedging.go), Builder
      (pkg/invoker/builder.go),
      SmartRequest and Smart (pkg/invoker/smart*.go, child_accounting.go).

    Configuration and services
    - Config (pkg/config/types.go, loader.go, smart_routing.go), ConfigManager
      (config_manager.go, redis_source.go), Poller (http_poller.go, http_provider.go), Cache (pkg/store/cache.go), ApiKeys
      (pkg/config key tables, internal/service/apikey.go), RedisPolicies
      (redis_provider.go), PolicyService (internal/service/policy.go), Models
      (internal/service/model.go, alias.go).

    The request
    - Engine (pkg/core/engine*.go, error_format.go, error_matcher.go): parsing, pipelines,
      the handler, responses and errors.  FrontEnd (internal/middleware/auth.go,
      internal/handler): authentication in front of the engine.  Gateway: the engine with
      its filters composed.
    - WebSocket (pkg/core/engine_websocket.go, ws_session.go): sessions of the Responses
      protocol, their turns and the three threads that work on them.

    ** How code becomes definitions

    Structs are records, enumerations inductive types or the strings the code uses, maps
    are [gmap]s or association lists where order matters, pointers that may be nil are
    options; where two holders of a pointer can see each other's writes (the policies of
    PolicyService) the heap is explicit.  A method is a function from its receiver's state
    to the new state and results; a loop is a fold or a structural fixpoint; early returns
    are branches; [int] and [int64] arithmetic that may overflow is wrapped with [wrap64].
    Clock readings, random draws, Redis answers and library calls (regexp, JSON text,
    JSONPath, tokenizer, hashes) are arguments.  A method that holds a mutex is one atomic
    step; where several critical sections of one request can interleave with those of
    others (breaker leases, hedged calls, key validation against deductions, the publisher
    and the access log against their workers), the interleavings are a step relation.
    Routers, balancers, discovery and providers are fields of the invoker the retry loop runs
    on, with the laws it relies on in [cluster_laws]; [cluster_of] fills them with the routers
    and balancers of the program, which meet the laws ([cluster_of_laws]), and so do its
    providers ([provider_invoker_keeps]).

    ** What the theorems show

    - Breakers: at most one half-open probe under every interleaving, and its permit comes
      back (C1, [attempt_completes]); both windows refine sliding windows over the history (C5, C12).
    - Limits and settlement: admission is all or nothing and thresholds hold
      (C4, C36), the filter terminates (C39), the Redis scripts count fixed windows (C28), a later settlement leaves the actual usage and happens once (C10), failed settlements
      are retried and are accepted or end in the dead-letter queue (C11).
    - Routing: retries are distinct and bounded (C3), hedged calls have one winner and
      return (C2, C8), the outlier cap keeps capacity ([outlier_cap_keeps_capacity]), weighted round robin is
      proportional (C35), fallback is guarded (C40), judged routing escalates upwards and
      accounts for every child (C29).
    - Protocols: framing round-trips under every chunking (C6, C27); requests, responses
      and streams survive translation there and back (C7, C26); produced streams
      and requests are well formed (C9, C14, C15, C13, [responses_messages_alternate], C38).
    - Upstream: a call hands on what the endpoint sent and leaks nothing when it fails (C16); relayed
      streams are passed on whole, unaltered and without error events (C17); a translated stream is well formed, and success
      means it is complete (C18); wrapped streams are restored (C20); a provider call leaves nothing
      open (C19).
    - Side effects: under every interleaving accepted events reach the transport once, in order, before it is closed (C22), and every
      access record is in exactly one place and none is left behind (C23); a refused batch is written later, record for record
      ([refused_batch_recovered]); failures, fallbacks and limits are reported (C24); shutting
      down waits for what is running and nothing is published after it ([shutdown_quiet]).
    - WebSocket: no turn is settled twice or forgotten, under every interleaving (C21).
    - Request and identity: every request is answered by what became of it (C25), nothing is forwarded
      before authorization ([auth_gate]), the identity the engine sees is the key's (C34).
    - Configuration and policy: policies are read alike in both spellings (C37), merge and effective policy equal their references ([merge_named_equiv],
      C31), key answers are fresh and a call is charged at most once, under every interleaving (C30), Redis and file settings never mix (C32), a polled version is applied once (C33).

    Theorems without an id record further behaviour, among it places where the code
    contradicts its comments or itself.

    ** Bounds and fuel

    [wait_loop] of Limiter runs on fuel; C39 proves [MaxWaitMs / 20 + 2] rounds enough.
    [parse_terms] of GoTime, [trim_left] of GoJson, [replace_all] of Filters and
    [cut_blocks] of Sse use the length of their input, each round consuming a byte; so does
    [probe_loop] of Upstream, where [probe_loop_fuel] proves that more changes nothing;
    [exchange_sort] of TranslateResponsesStream the length of its list; [first_free] of
    Translate the number of names in use, which is proved enough.  The retry loop is
    structural in the number of attempts.  The waiting call of a hedged race returns within
    a fixed number of steps of its sub-calls (C8).  Step counts below 2^64 keep the breakers'
    token counters from wrapping; sums of weights, latencies and charges are assumed within
    int64 where the code adds them.

    ** Not modelled

    The YAML decoders of the policies, the fields of log lines, reading configuration with
    viper, and start-up wiring are not modelled; the Redis server and the databases are code
    of other systems.  The Go context (deadlines, cancellation) appears only where
    a component observes it; network connections are the sequences of reads and writes
    they answer with. *)

From stdpp Require Export base tactics list gmap strings numbers sorting pretty.
From Stdlib Require Export ZArith Lia.

Global Open Scope Z_scope.

(** * Automation *)

Create HintDb gw discriminated.

(** Case analysis on the first [match] or [if] scrutinee of the goal (or of a
    hypothesis), with the equation kept. *)
Ltac split_match :=
  match goal with
  | |- context [match ?x with _ => _ end] =>
      lazymatch x with context [match _ with _ => _ end] => fail | _ => destruct x eqn:? end
  | H : context [match ?x with _ => _ end] |- _ =>
      lazymatch x with context [match _ with _ => _ end] => fail | _ => destruct x eqn:? end
  end.

(** Turn boolean comparisons on [Z] into propositions [lia] understands. *)
Ltac zbool :=
  repeat match goal with
  | H : (_ <=? _) = true |- _ => apply Z.leb_le in H
  | H : (_ <=? _) = false |- _ => apply Z.leb_gt in H
  | H : (_ <? _) = true |- _ => apply Z.ltb_lt in H
  | H : (_ <? _) = false |- _ => apply Z.ltb_ge in H
  | H : (_ =? _) = true |- _ => apply Z.eqb_eq in H
  | H : (_ =? _) = false |- _ => apply Z.eqb_neq in H
  | H : (_ && _) = true |- _ => apply andb_true_iff in H as [? ?]
  | H : (_ || _) = false |- _ => apply orb_false_iff in H as [? ?]
  | H : negb _ = true |- _ => apply negb_true_iff in H
  | H : negb _ = false |- _ => apply negb_false_iff in H
  end.

Ltac zauto := zbool; try lia; eauto with gw.

(** * Functional record update *)

(** [r <| f := v |>] is [r] with field [f] replaced.  A record type declares
    its eta expansion once ([Eta]); the setter of a field is computed from it by
    abstracting the projection. *)
Class Eta (R : Type) := eta_expand : R -> R.
Class Setter {R T : Type} (proj : R -> T) := update : (T -> T) -> R -> R.
Arguments update {R T} proj {_} _ _.

Ltac build_setter :=
  match goal with
  | |- @Setter ?R ?T ?proj =>
      let i := constr:(_ : Eta R) in
      let e := eval red in i in
      match (eval pattern proj in e) with
      | ?g _ => let t := eval cbv beta in (fun (f : T -> T) => g (fun r : R => f (proj r))) in
                exact t
      end
  end.

#[global] Hint Extern 0 (Setter _) => build_setter : typeclass_instances.

Notation "r <| f := v |>" := (update f (fun _ => v) r)
  (at level 1, left associativity, f at level 10, v at level 200).

Arguments update {R T} proj {_} _ _ /.

(** * Machine integers *)

Definition two63 : Z := 9223372036854775808.
Definition two64 : Z := 18446744073709551616.
Definition max_int64 : Z := 9223372036854775807.
Definition min_int64 : Z := -9223372036854775808.

(** Two's complement wrap-around of Go's [int], [int64] and [time.Duration]. *)
Definition wrap64 (z : Z) : Z := (z + two63) mod two64 - two63.

(** Wrap-around of [uint64]. *)
Definition uwrap64 (z : Z) : Z := z mod two64.

Definition in_int64 (z : Z) : Prop := min_int64 <= z <= max_int64.

Lemma wrap64_small z : in_int64 z -> wrap64 z = z.
Proof.
  unfold in_int64, wrap64, min_int64, max_int64, two63, two64. intros ?.
  rewrite Z.mod_small; lia.
Qed.

Lemma wrap64_in z : in_int64 (wrap64 z).
Proof.
  unfold in_int64, wrap64, min_int64, max_int64, two63, two64.
  pose proof (Z.mod_pos_bound (z + 9223372036854775808) 18446744073709551616). lia.
Qed.

Lemma uwrap64_small z : 0 <= z < two64 -> uwrap64 z = z.
Proof. apply Z.mod_small. Qed.

Lemma uwrap64_bound z : 0 <= uwrap64 z < two64.
Proof. apply Z.mod_pos_bound. reflexivity. Qed.

(** * Time

    [time.Time] is a number of nanoseconds since Go's zero time (January 1,
    year 1), so the zero value of the type is [0]; [time.Duration] is an int64
    number of nanoseconds. *)
Abbreviation Time := Z (only parsing).
Abbreviation Duration := Z (only parsing).

Definition zeroTime : Time := 0.
Definition Millisecond : Duration := 1000000.
Definition Second : Duration := 1000000000.
Definition Minute : Duration := 60000000000.

(** [t.Add(d)]. *)
Definition time_Add (t : Time) (d : Duration) : Time := t + d.

(** [t.Sub(u)] saturates at the bounds of [time.Duration]. *)
Definition time_Sub (t u : Time) : Duration :=
  Z.max min_int64 (Z.min max_int64 (t - u)).

(** [t.Truncate(time.Second)]. *)
Definition truncate_second (t : Time) : Time := t - t mod Second.

Definition time_Before (t u : Time) : bool := t <? u.
Definition time_After (t u : Time) : bool := u <? t.
Definition time_IsZero (t : Time) : bool := t =? zeroTime.

(** [time.Duration(n) * unit]: both factors are int64, the product wraps. *)
Definition duration_mul (n unit : Z) : Duration := wrap64 (n * unit).

Lemma time_Sub_ge t u d :
  in_int64 d -> 0 <= d -> (d <=? time_Sub t u) = true <-> u + d <= t.
Proof.
  unfold time_Sub, in_int64, min_int64, max_int64. intros. rewrite Z.leb_le. lia.
Qed.

(** * Go run-time outcomes *)

(** A function that can panic (nil dereference, index out of range). *)
Inductive go (A : Type) :=
| Ret (a : A)
| Panic.
Arguments Ret {A} a.
Arguments Panic {A}.

(** * Lists *)

Section lists.
Context {A : Type}.
Implicit Types l : list A.

(** Go's [for idx < len(l) && p(l[idx]) { idx++ }; l = l[idx:]]. *)
Fixpoint drop_while (p : A -> bool) l : list A :=
  match l with
  | [] => []
  | x :: r => if p x then drop_while p r else l
  end.

Lemma drop_while_suffix p l : exists k, l = k ++ drop_while p l /\ Forall (fun x => p x = true) k.
Proof.
  induction l as [|x l (k & Hk & Hp)]; cbn; [by exists []|].
  destruct (p x) eqn:E; [|by exists []].
  exists (x :: k); cbn; split; [by f_equal|by constructor].
Qed.

Lemma drop_while_head p l x r : drop_while p l = x :: r -> p x = false.
Proof. induction l as [|y l IH]; cbn; [done|]. destruct (p y) eqn:?; naive_solver. Qed.

(** What stands before the first, or after the last, separator is determined. *)
Lemma before_separator (c : A) x y u v : c ∉ x -> c ∉ y -> x ++ c :: u = y ++ c :: v -> x = y.
Proof.
  revert y. induction x as [|a x IH]; intros [|b y]; cbn; rewrite ?not_elem_of_cons; [done|naive_solver..|].
  intros [_ Nx] [_ Ny] [= -> E]. f_equal. by apply IH.
Qed.

Lemma after_separator (c : A) x y u v : c ∉ x -> c ∉ y -> u ++ c :: x = v ++ c :: y -> x = y.
Proof.
  intros Nx Ny E. apply (f_equal (@reverse A)) in E. rewrite !reverse_app, !reverse_cons, <- !app_assoc in E.
  apply before_separator in E; [|by rewrite elem_of_reverse..]. apply (f_equal (@reverse A)) in E. by rewrite !reverse_involutive in E.
Qed.

(** Induction on the length. *)
Lemma length_ind (P : list A -> Prop) :
  (forall l, (forall k, (length k < length l)%nat -> P k) -> P l) -> forall l, P l.
Proof.
  intros H l. remember (length l) as n eqn:E. revert l E.
  induction (lt_wf n) as [n _ IH]. intros l ->. apply H. intros k Hk. by apply (IH (length k)).
Qed.

(** Number of elements satisfying a boolean predicate. *)
Definition countb (p : A -> bool) l : Z :=
  fold_right (fun x n => (if p x then 1 else 0) + n) 0 l.

Lemma countb_app p l k : countb p (l ++ k) = countb p l + countb p k.
Proof. unfold countb. induction l as [|x l IH]; cbn; [done|]. rewrite IH. lia. Qed.

Lemma countb_bounds p l : 0 <= countb p l <= Z.of_nat (length l).
Proof. unfold countb. induction l as [|x l IH]; cbn -[Z.of_nat]; [done|]. destruct (p x); lia. Qed.

Lemma countb_negb p l : countb p l + countb (fun x => negb (p x)) l = Z.of_nat (length l).
Proof. unfold countb. induction l as [|x l IH]; cbn -[Z.of_nat]; [done|]. destruct (p x); cbn; lia. Qed.

Lemma countb_zero p l : countb p l = 0 <-> Forall (fun x => p x = false) l.
Proof.
  unfold countb. split.
  - induction l as [|x l IH]; cbn; [by constructor|].
    pose proof (countb_bounds p l) as Hb; unfold countb in Hb.
    destruct (p x) eqn:?; intros; [lia|]. constructor; [done|]. apply IH; lia.
  - induction 1 as [|x l Hx _ IH]; cbn; [done|]. by rewrite Hx.
Qed.

Lemma countb_pos p l x : x ∈ l -> p x = true -> 0 < countb p l.
Proof.
  intros Hin Hp. pose proof (countb_bounds p l).
  destruct (decide (countb p l = 0)) as [E|]; [|lia].
  apply countb_zero in E. rewrite Forall_forall in E. specialize (E _ Hin). congruence.
Qed.
End lists.

(** * Sorting

    [sort.Slice] is modelled by insertion sort, which is what it runs on slices of up to twelve
    elements, and [sort.SliceStable] on up to twenty; both are stable there. *)

Section sorting.
Context {A : Type} (lt : A -> A -> bool).

Fixpoint insert_by (x : A) (l : list A) : list A :=
  match l with
  | [] => [x]
  | y :: r => if lt x y then x :: y :: r else y :: insert_by x r
  end.

Definition sort_by (l : list A) : list A := fold_left (fun acc x => insert_by x acc) l [].

Lemma insert_by_perm x l : insert_by x l ≡ₚ x :: l.
Proof.
  induction l as [|y l IH]; cbn; [done|]. destruct (lt x y); [done|]. rewrite IH. apply perm_swap.
Qed.

Lemma sort_by_perm l : sort_by l ≡ₚ l.
Proof.
  unfold sort_by. assert (forall acc, fold_left (fun acc x => insert_by x acc) l acc ≡ₚ l ++ acc) as H.
  { induction l as [|x l IH]; intros acc; cbn; [done|]. rewrite IH, insert_by_perm.
    by rewrite Permutation_middle. }
  by rewrite H, app_nil_r.
Qed.
End sorting.

(** Sorting by an integer key: the result is ordered, and elements with the same key keep
    their order. *)
Section sorting_by_key.
Context {A : Type} (key : A -> Z).
Definition key_lt (x y : A) : bool := key x <? key y.

Lemma insert_by_sorted x l : StronglySorted (fun a b => key a <= key b) l ->
  StronglySorted (fun a b => key a <= key b) (insert_by key_lt x l).
Proof.
  induction l as [|y l IH]; intros S; cbn [insert_by]; [by repeat constructor|].
  apply StronglySorted_inv in S as [S F]. destruct (key_lt x y) eqn:L; [apply Z.ltb_lt in L|apply Z.ltb_ge in L].
  - constructor; [by constructor|]. constructor; [lia|]. eapply Forall_impl; [exact F|]. cbn. lia.
  - constructor; [by apply IH|]. rewrite insert_by_perm. by constructor.
Qed.

Lemma sort_by_sorted l : StronglySorted (fun a b => key a <= key b) (sort_by key_lt l).
Proof.
  unfold sort_by. assert (forall acc, StronglySorted (fun a b => key a <= key b) acc ->
    StronglySorted (fun a b => key a <= key b) (fold_left (fun acc x => insert_by key_lt x acc) l acc)) as H.
  { induction l as [|x l IH]; intros acc S; [done|]. by apply IH, insert_by_sorted. }
  apply H. constructor.
Qed.

Lemma insert_by_filter_key x k l : StronglySorted (fun a b => key a <= key b) l ->
  List.filter (fun a => key a =? k) (insert_by key_lt x l) =
  List.filter (fun a => key a =? k) l ++ List.filter (fun a => key a =? k) [x].
Proof.
  induction l as [|y l IH]; intros S; [done|]. apply StronglySorted_inv in S as [S F]. cbn [insert_by].
  destruct (key_lt x y) eqn:L; [apply Z.ltb_lt in L|apply Z.ltb_ge in L].
  - assert (key x = k -> List.filter (fun a => key a =? k) (y :: l) = []) as E.
    { intros <-. cbn [List.filter]. destruct (Z.eqb_spec (key y) (key x)); [lia|]. clear -F L.
      induction F as [|z l Hz F IH]; [done|]. cbn [List.filter]. destruct (Z.eqb_spec (key z) (key x)); [lia|done]. }
    change (List.filter (fun a => key a =? k) (x :: y :: l)) with
      (if key x =? k then x :: List.filter (fun a => key a =? k) (y :: l) else List.filter (fun a => key a =? k) (y :: l)).
    change (List.filter (fun a => key a =? k) [x]) with (if key x =? k then [x] else []).
    destruct (Z.eqb_spec (key x) k) as [Ek|]; [by rewrite E|by rewrite app_nil_r].
  - cbn [List.filter] in *. rewrite IH by done. by destruct (key y =? k).
Qed.

Lemma sort_by_stable k l : List.filter (fun a => key a =? k) (sort_by key_lt l) = List.filter (fun a => key a =? k) l.
Proof.
  unfold sort_by. assert (forall acc, StronglySorted (fun a b => key a <= key b) acc ->
    List.filter (fun a => key a =? k) (fold_left (fun acc x => insert_by key_lt x acc) l acc) =
    List.filter (fun a => key a =? k) acc ++ List.filter (fun a => key a =? k) l) as H.
  { induction l as [|x l IH]; intros acc S; cbn [fold_left]; [by rewrite app_nil_r|].
    rewrite IH by (by apply insert_by_sorted). rewrite insert_by_filter_key by done. rewrite <- app_assoc. f_equal.
    cbn [List.filter]. by destruct (key x =? k). }
  rewrite H by constructor. done.
Qed.
End sorting_by_key.
