(* ===== verification/GoFloat.v ===== *)
(** Go's [float64]: IEEE 754 binary64 arithmetic, executable, on the Standard
    Library's [spec_float] (precision 53, maximal exponent 1024), with the order
    laws of its comparisons.  NaN, the infinities and signed zeros are values. *)

From Stdlib Require Import SpecFloat.
From S2P Require Import Prelude.

Abbreviation float64 := spec_float (only parsing).

Definition fprec : Z := 53.
Definition femax : Z := 1024.

Definition fadd : float64 -> float64 -> float64 := SFadd fprec femax.
Definition fsub : float64 -> float64 -> float64 := SFsub fprec femax.
Definition fmul : float64 -> float64 -> float64 := SFmul fprec femax.
Definition fdiv : float64 -> float64 -> float64 := SFdiv fprec femax.

(** [x < y], [x <= y], [x == y]; all false when an operand is NaN. *)
Definition flt (x y : float64) : bool := SFltb x y.
Definition fle (x y : float64) : bool := SFleb x y.
Definition feq (x y : float64) : bool := SFeqb x y.

Definition fzero : float64 := S754_zero false.

(** [float64(n)] for an integer [n], rounded to nearest, ties to even. *)
Definition of_int (n : Z) : float64 := binary_normalize fprec femax n 0 false.

(** The integer part of a finite float, towards zero. *)
Definition ftrunc (x : float64) : option Z :=
  match x with
  | S754_zero _ => Some 0
  | S754_finite s m e =>
      let a := if 0 <=? e then Z.pos m * 2 ^ e else Z.pos m / 2 ^ (- e) in
      Some (if s then - a else a)
  | _ => None
  end.

(** [int64(x)].  Out of range (and for NaN) the Go specification leaves the
    value to the implementation; this is the amd64 one, the least int64. *)
Definition to_int64 (x : float64) : Z :=
  match ftrunc x with
  | Some z => if (min_int64 <=? z) && (z <=? max_int64) then z else min_int64
  | None => min_int64
  end.

(** [math.Ceil]. *)
Definition fceil (x : float64) : float64 :=
  match x with
  | S754_finite s m e =>
      if 0 <=? e then x
      else
        let p := 2 ^ (- e) in
        let z := if s then - (Z.pos m / p) else - ((- Z.pos m) / p) in
        binary_normalize fprec femax z 0 s
  | _ => x
  end.

Definition is_nan (x : float64) : bool :=
  match x with S754_nan => true | _ => false end.

(** [math.MaxFloat64]. *)
Definition MaxFloat64 : float64 := S754_finite false 9007199254740991 971.

Example of_int_exact : of_int 3 = S754_finite false 6755399441055744 (-51).
Proof. reflexivity. Qed.
Example float_add_rounds : feq (fadd (of_int 9007199254740992) (of_int 1)) (of_int 9007199254740992) = true.
Proof. reflexivity. Qed.
Example ceil_half : to_int64 (fceil (fdiv (of_int 3) (of_int 2))) = 2.
Proof. reflexivity. Qed.
Example trunc_negative : to_int64 (fdiv (of_int (-3)) (of_int 2)) = -1.
Proof. reflexivity. Qed.

(** * Order laws

    Every non-NaN float has a rank; comparison is the lexicographic comparison
    of ranks, which is what makes the selection loops of the balancers and the
    caps of the token bucket correct. *)

Definition frank (x : float64) : Z * Z * Z :=
  match x with
  | S754_infinity true => (-2, 0, 0)
  | S754_finite true m e => (-1, - e, - Z.pos m)
  | S754_zero _ => (0, 0, 0)
  | S754_finite false m e => (1, e, Z.pos m)
  | S754_infinity false => (2, 0, 0)
  | S754_nan => (3, 0, 0)
  end.

Definition lex_lt (p q : Z * Z * Z) : Prop :=
  let '(a, b, c) := p in
  let '(a', b', c') := q in
  a < a' \/ a = a' /\ (b < b' \/ b = b' /\ c < c').

Lemma compare_rank x y :
  is_nan x = false -> is_nan y = false ->
  match SFcompare x y with
  | Some Lt => lex_lt (frank x) (frank y)
  | Some Eq => frank x = frank y
  | Some Gt => lex_lt (frank y) (frank x)
  | None => False
  end.
Proof.
  destruct x as [|[]| |[] m e], y as [|[]| |[] m' e']; cbn; intros; try done; try lia;
    destruct (Z.compare_spec e e'); cbn; try lia; subst;
    fold (Pos.compare m m'); destruct (Pos.compare_spec m m'); cbn; subst; try done; lia.
Qed.

Lemma flt_nan x y : flt x y = true -> is_nan x = false /\ is_nan y = false.
Proof. by destruct x, y. Qed.

Lemma flt_rank x y :
  flt x y = true <-> is_nan x = false /\ is_nan y = false /\ lex_lt (frank x) (frank y).
Proof.
  split.
  - intros H. destruct (flt_nan _ _ H) as [Hx Hy]. split_and!; [done..|].
    pose proof (compare_rank x y Hx Hy). unfold flt, SFltb in H. by repeat split_match.
  - intros (Hx & Hy & H). pose proof (compare_rank x y Hx Hy) as C. unfold flt, SFltb.
    destruct (SFcompare x y) as [[]|]; [| |..]; try done;
      destruct (frank x) as [[]], (frank y) as [[]]; cbn in *; simplify_eq; lia.
Qed.

Lemma flt_trans x y z : flt x y = true -> flt y z = true -> flt x z = true.
Proof.
  rewrite !flt_rank. intros (? & ? & ?) (? & ? & ?). split_and!; [done..|].
  destruct (frank x) as [[]], (frank y) as [[]], (frank z) as [[]]; cbn in *; lia.
Qed.

Lemma flt_irrefl x : flt x x = false.
Proof.
  destruct (flt x x) eqn:E; [|done]. apply flt_rank in E as (_ & _ & E).
  destruct (frank x) as [[]]; cbn in *; lia.
Qed.

(** Among non-NaN floats, [not (x < y)] is transitive: a strict improvement over
    a running best is an improvement over everything the best has beaten. *)
Lemma flt_negtrans x y z :
  is_nan y = false -> flt x y = false -> flt y z = false -> flt x z = false.
Proof.
  intros Hy H1 H2. destruct (flt x z) eqn:E; [|done]. apply flt_rank in E as (Hx & Hz & E).
  apply not_true_iff_false in H1. apply not_true_iff_false in H2.
  rewrite flt_rank in H1. rewrite flt_rank in H2.
  assert (~ lex_lt (frank x) (frank y)) as N1 by tauto.
  assert (~ lex_lt (frank y) (frank z)) as N2 by tauto.
  clear H1 H2. destruct (frank x) as [[]], (frank y) as [[]], (frank z) as [[]]; cbn in *; lia.
Qed.

Lemma fle_flt x y : is_nan x = false -> is_nan y = false -> fle x y = negb (flt y x).
Proof.
  intros Hx Hy. pose proof (compare_rank x y Hx Hy) as C.
  destruct (flt y x) eqn:E; cbn.
  - apply flt_rank in E as (_ & _ & E). unfold fle, SFleb.
    destruct (SFcompare x y) as [[]|]; try done;
      destruct (frank x) as [[]], (frank y) as [[]]; cbn in *; simplify_eq; lia.
  - unfold fle, SFleb. destruct (SFcompare x y) as [[]|]; try done.
    apply not_true_iff_false in E. destruct E. by apply flt_rank.
Qed.
