(* ===== verification/GoStrings.v ===== *)
(** The parts of Go's [strings] package the gateway uses, on byte strings.
    Case mapping covers the ASCII letters, which are the only cased letters of
    the operator, level and type names the gateway compares. *)

From S2P Require Import Prelude.
From Stdlib Require Import Ascii.

Fixpoint string_drop (n : nat) (s : string) : string :=
  match n, s with
  | S n, String _ s => string_drop n s
  | _, _ => s
  end.

Fixpoint string_take (n : nat) (s : string) : string :=
  match n, s with
  | S n, String c s => String c (string_take n s)
  | _, _ => EmptyString
  end.

(** [strings.HasPrefix(s, p)]. *)
Fixpoint HasPrefix (s p : string) {struct p} : bool :=
  match p, s with
  | EmptyString, _ => true
  | String c p, String d s => bool_decide (c = d) && HasPrefix s p
  | String _ _, EmptyString => false
  end.

(** [strings.HasSuffix(s, p)]. *)
Definition HasSuffix (s p : string) : bool :=
  Nat.leb (String.length p) (String.length s) &&
  bool_decide (string_drop (String.length s - String.length p) s = p).

(** [strings.Contains(s, p)]. *)
Fixpoint Contains (s p : string) : bool :=
  HasPrefix s p || match s with EmptyString => false | String _ s => Contains s p end.

Definition ascii_lower (c : ascii) : ascii :=
  let n := N_of_ascii c in
  if ((65 <=? n) && (n <=? 90))%N then ascii_of_N (n + 32) else c.

Definition ascii_upper (c : ascii) : ascii :=
  let n := N_of_ascii c in
  if ((97 <=? n) && (n <=? 122))%N then ascii_of_N (n - 32) else c.

Fixpoint string_map (f : ascii -> ascii) (s : string) : string :=
  match s with EmptyString => EmptyString | String c s => String (f c) (string_map f s) end.

Definition ToLower (s : string) : string := string_map ascii_lower s.
Definition ToUpper (s : string) : string := string_map ascii_upper s.

(** [strings.EqualFold]. *)
Definition EqualFold (s t : string) : bool := bool_decide (ToLower s = ToLower t).

(** [strings.Join]. *)
Fixpoint Join (l : list string) (sep : string) : string :=
  match l with
  | [] => EmptyString
  | [x] => x
  | x :: r => x +:+ sep +:+ Join r sep
  end.

(** [strings.Split(s, sep)] for a one-byte separator. *)
Fixpoint SplitByte (s : string) (sep : ascii) : list string :=
  match s with
  | EmptyString => [EmptyString]
  | String c r =>
      if bool_decide (c = sep) then EmptyString :: SplitByte r sep
      else match SplitByte r sep with
           | [] => [String c EmptyString]
           | x :: l => String c x :: l
           end
  end.

(** [strconv.Itoa]. *)
Definition Itoa (z : Z) : string := pretty.pretty z.

(** Boolean string equality; [s == t]. *)
Definition seqb (s t : string) : bool := bool_decide (s = t).
Definition is_empty (s : string) : bool := seqb s "".

Lemma seqb_eq s t : seqb s t = true <-> s = t.
Proof. apply bool_decide_eq_true. Qed.
Lemma seqb_neq s t : seqb s t = false <-> s <> t.
Proof. apply bool_decide_eq_false. Qed.
Lemma seqb_refl s : seqb s s = true.
Proof. by apply seqb_eq. Qed.

(** Reflect string tests in hypotheses. *)
Ltac sbool :=
  repeat match goal with
  | H : seqb _ _ = true |- _ => apply seqb_eq in H
  | H : seqb _ _ = false |- _ => apply seqb_neq in H
  | H : is_empty _ = true |- _ => apply seqb_eq in H
  | H : is_empty _ = false |- _ => apply seqb_neq in H
  end.

(** Compute with concatenations of literal characters. *)
Ltac sapp := unfold String.app in *; cbn in *; simplify_eq; try done.

Lemma append_nil_r (s : string) : s +:+ "" = s.
Proof. induction s as [|c s IH]; [done|]. unfold String.app in *. cbn. by f_equal. Qed.

Lemma append_assoc (s t u : string) : (s +:+ t) +:+ u = s +:+ (t +:+ u).
Proof. induction s as [|c s IH]; [done|]. unfold String.app in *. cbn. by f_equal. Qed.

Lemma length_append (s t : string) :
  String.length (s +:+ t) = (String.length s + String.length t)%nat.
Proof. induction s as [|c s IH]; [done|]. unfold String.app in *. cbn. lia. Qed.

Lemma string_drop_append (s t : string) : string_drop (String.length s) (s +:+ t) = t.
Proof. induction s as [|c s IH]; [done|]. exact IH. Qed.

Lemma string_take_drop n (s : string) : string_take n s +:+ string_drop n s = s.
Proof.
  revert s. induction n as [|n IH]; intros s; [done|].
  destruct s as [|c s]; [done|]. unfold String.app in *. cbn. by f_equal.
Qed.

Lemma string_drop_length n (s : string) : String.length (string_drop n s) = (String.length s - n)%nat.
Proof. revert s. induction n; intros [|c s]; cbn; try done. Qed.

Lemma HasPrefix_spec (s p : string) : HasPrefix s p = true <-> exists r, s = p +:+ r.
Proof.
  revert s. induction p as [|c p IH]; intros s; cbn.
  - split; [intros _; by exists s|done].
  - destruct s as [|d s]; [split; [done|]; intros [? ?]; sapp|].
    rewrite andb_true_iff, bool_decide_eq_true, IH. split.
    + intros [-> [r ->]]. by exists r.
    + intros [r E]. sapp. eauto.
Qed.

Lemma HasSuffix_spec (s p : string) : HasSuffix s p = true <-> exists r, s = r +:+ p.
Proof.
  unfold HasSuffix. rewrite andb_true_iff, Nat.leb_le, bool_decide_eq_true. split.
  - intros [Hl E]. exists (string_take (String.length s - String.length p) s).
    rewrite <- (string_take_drop (String.length s - String.length p) s) at 1. by rewrite E.
  - intros [r ->]. rewrite length_append. split; [lia|].
    replace (_ + _ - _)%nat with (String.length r) by lia. apply string_drop_append.
Qed.

Lemma HasSuffix_not (s p r : string) : HasSuffix s p = false -> s <> r +:+ p.
Proof.
  intros H E. apply not_true_iff_false in H. destruct H. apply HasSuffix_spec. eauto.
Qed.

Lemma Contains_spec (s p : string) : Contains s p = true <-> exists a b, s = a +:+ p +:+ b.
Proof.
  induction s as [|c s IH]; cbn [Contains]; rewrite orb_true_iff, HasPrefix_spec.
  - split.
    + intros [[r E]|]; [|done]. by exists "", r.
    + intros (a & b & E). left. destruct a; [by exists b|sapp].
  - rewrite IH. split.
    + intros [[r ->]|(a & b & ->)]; [by exists "", r|by exists (String c a), b].
    + intros ([|d a] & b & E); [left; by exists b|right].
      sapp. eauto.
Qed.
