(* ===== verification/GoTime.v ===== *)
(** The formatting and parsing of [time.Duration], and [strconv.ParseBool]. *)

From Stdlib Require Import Ascii.
From S2P Require Import Prelude GoFloat GoStrings.

(** * Duration.String *)

(** [fmtFrac]: [v / 10^prec] with the trailing zeros of the fraction omitted; returns
    the printed fraction and the integer part. *)
Fixpoint fmtFrac (v : Z) (prec : nat) (acc : string) (print : bool) : string * Z :=
  match prec with
  | O => (if print then "." +:+ acc else acc, v)
  | S p =>
      let digit := v mod 10 in
      let print := print || negb (digit =? 0) in
      fmtFrac (v / 10) p (if print then Itoa digit +:+ acc else acc) print
  end.

(** The micro sign, U+00B5 in UTF-8. *)
Definition micro : string := String (ascii_of_nat 194) (String (ascii_of_nat 181) "").

Definition duration_String (d : Duration) : string :=
  let u := Z.abs d in
  let body :=
    if u <? Second then
      if u =? 0 then "0s"
      else
        let '(prec, unit) :=
          if u <? 1000 then (0%nat, "ns") else if u <? 1000000 then (3%nat, micro +:+ "s") else (6%nat, "ms") in
        let '(frac, n) := fmtFrac u prec "" false in Itoa n +:+ frac +:+ unit
    else
      let '(frac, secs) := fmtFrac u 9 "" false in
      let s := Itoa (secs mod 60) +:+ frac +:+ "s" in
      let mins := secs / 60 in
      if 0 <? mins then
        let m := Itoa (mins mod 60) +:+ "m" in
        let h := mins / 60 in
        (if 0 <? h then Itoa h +:+ "h" else "") +:+ m +:+ s
      else s in
  (if d <? 0 then "-" else "") +:+ body.

(** * ParseDuration *)

Definition digit_of (c : ascii) : option Z :=
  let n := Z.of_nat (nat_of_ascii c) in if (48 <=? n) && (n <=? 57) then Some (n - 48) else None.

(** Leading decimal digits; [None] on overflow past [1<<63]. *)
Fixpoint leadingInt (s : string) (x : Z) : option (Z * string) :=
  match s with
  | String c s' =>
      match digit_of c with
      | Some d =>
          if two63 / 10 <? x then None
          else let x' := x * 10 + d in if two63 <? x' then None else leadingInt s' x'
      | None => Some (x, s)
      end
  | EmptyString => Some (x, "")
  end.

(** Digits of a fraction: value, scale, rest; digits beyond the range are dropped. *)
Fixpoint leadingFraction (s : string) (f scale : Z) (overflow : bool) : Z * Z * string :=
  match s with
  | String c s' =>
      match digit_of c with
      | Some d =>
          if overflow || (max_int64 / 10 <? f) then leadingFraction s' f scale true
          else
            let y := f * 10 + d in
            if two63 <? y then leadingFraction s' f scale true else leadingFraction s' y (scale * 10) false
      | None => (f, scale, s)
      end
  | EmptyString => (f, scale, "")
  end.

(** The unit: everything up to the next digit or dot. *)
Fixpoint split_unit (s : string) : string * string :=
  match s with
  | String c s' =>
      if Ascii.eqb c "."%char || bool_decide (is_Some (digit_of c)) then ("", s)
      else let '(u, r) := split_unit s' in (String c u, r)
  | EmptyString => ("", "")
  end.

Definition unit_of (u : string) : option Z :=
  if seqb u "ns" then Some 1
  else if seqb u "us" || seqb u (micro +:+ "s") ||
          seqb u (String (ascii_of_nat 206) (String (ascii_of_nat 188) "s")) then Some 1000
  else if seqb u "ms" then Some Millisecond
  else if seqb u "s" then Some Second
  else if seqb u "m" then Some Minute
  else if seqb u "h" then Some (60 * Minute) else None.

Fixpoint parse_terms (fuel : nat) (s : string) (d : Z) : option Z :=
  match fuel with
  | O => None
  | S fuel =>
      if is_empty s then Some d
      else
        match leadingInt s 0 with
        | None => None
        | Some (v, s1) =>
            let pre := negb (seqb s s1) in
            let '(f, scale, s2, post) :=
              match s1 with
              | String "."%char r => let '(f, sc, r') := leadingFraction r 0 1 false in (f, sc, r', negb (seqb r r'))
              | _ => (0, 1, s1, false)
              end in
            if negb pre && negb post then None
            else
              let '(u, s3) := split_unit s2 in
              match unit_of u with
              | None => None
              | Some unit =>
                  if two63 / unit <? v then None
                  else
                    let v := v * unit in
                    let v := if 0 <? f
                             then v + to_int64 (fmul (of_int f) (fdiv (of_int unit) (of_int scale))) else v in
                    if (two63 <? v) || (two63 <? d + v) then None else parse_terms fuel s3 (d + v)
              end
        end
  end.

(** [None] is an error. *)
Definition ParseDuration (s : string) : option Duration :=
  let '(neg, s) := match s with
                   | String "-"%char r => (true, r)
                   | String "+"%char r => (false, r)
                   | _ => (false, s) end in
  if seqb s "0" then Some 0
  else if is_empty s then None
  else
    match parse_terms (S (String.length s)) s 0 with
    | None => None
    | Some d => if neg then Some (- d) else if max_int64 <? d then None else Some d
    end.

Example duration_examples :
  duration_String Minute = "1m0s" /\ duration_String 1500000000 = "1.5s" /\
  duration_String 100000000 = "100ms" /\ duration_String 90061000000000 = "25h1m1s".
Proof. vm_compute. auto. Qed.

Example parse_examples :
  ParseDuration "1h15m30.5s" = Some 4530500000000 /\ ParseDuration "300ms" = Some 300000000 /\
  ParseDuration "-1.5h" = Some (-5400000000000) /\ ParseDuration "5" = None /\ ParseDuration "" = None /\
  ParseDuration ".s" = None /\ ParseDuration "1m0s" = Some Minute.
Proof. vm_compute. auto 10. Qed.

(** * strconv.ParseBool *)

Definition ParseBool (s : string) : option bool :=
  if existsb (seqb s) ["1"; "t"; "T"; "true"; "TRUE"; "True"] then Some true
  else if existsb (seqb s) ["0"; "f"; "F"; "false"; "FALSE"; "False"] then Some false else None.
