(* ===== verification/GoJson.v ===== *)
(** Go's [encoding/json] and the parts of [unicode/utf8] the gateway relies on: a JSON
    document as a syntax tree, its parser (the grammar of the scanner, with its nesting
    limit), and the typed decoders [json.Unmarshal] runs for struct fields.

    Numbers keep their literal: an integer field parses it as such, a [json.RawMessage]
    copies it.  Objects keep their members in order with duplicates, because a later member
    is decoded over the value of an earlier one.  A decoder returns [None] where
    [Unmarshal] reports an error; the gateway never reads a value after an error. *)

From Stdlib Require Import Ascii.
From S2P Require Import Prelude GoStrings.

(** * UTF-8 *)

Definition byte_val (c : ascii) : Z := Z.of_nat (nat_of_ascii c).
Definition byte_of (z : Z) : ascii := ascii_of_nat (Z.to_nat z).

Definition in_range (lo hi z : Z) : bool := (lo <=? z) && (z <=? hi).
Definition is_cont (c : ascii) : bool := in_range 128 191 (byte_val c).

(** The number of continuation bytes of the well-formed sequence that starts with [c]
    and goes on with [r]; [None] for an invalid byte. *)
Definition utf8_extra (c : ascii) (r : list ascii) : option nat :=
  let n := byte_val c in
  let second lo hi := match r with d :: _ => in_range lo hi (byte_val d) | [] => false end in
  let cont k := match r !! k with Some d => is_cont d | None => false end in
  if n <? 128 then Some 0%nat
  else if in_range 194 223 n then if second 128 191 then Some 1%nat else None
  else if in_range 224 239 n then
    let '(lo, hi) := if n =? 224 then (160, 191) else if n =? 237 then (128, 159) else (128, 191) in
    if second lo hi && cont 1%nat then Some 2%nat else None
  else if in_range 240 244 n then
    let '(lo, hi) := if n =? 240 then (144, 191) else if n =? 244 then (128, 143) else (128, 191) in
    if second lo hi && cont 1%nat && cont 2%nat then Some 3%nat else None
  else None.

(** [utf8.EncodeRune] of a valid code point. *)
Definition utf8_encode (r : Z) : list ascii :=
  if r <? 128 then [byte_of r]
  else if r <? 2048 then [byte_of (192 + r / 64); byte_of (128 + r mod 64)]
  else if r <? 65536 then [byte_of (224 + r / 4096); byte_of (128 + r / 64 mod 64); byte_of (128 + r mod 64)]
  else [byte_of (240 + r / 262144); byte_of (128 + r / 4096 mod 64); byte_of (128 + r / 64 mod 64);
        byte_of (128 + r mod 64)].

(** U+FFFD. *)
Definition RuneError : list ascii := utf8_encode 65533.

(** * Documents *)

Inductive json :=
| JNull
| JBool (b : bool)
| JNum (lit : string)
| JStr (s : string)
| JArr (l : list json)
| JObj (m : list (string * json)).

(** * Scanner *)

Inductive token :=
| TLBrace | TRBrace | TLBrack | TRBrack | TColon | TComma
| TStr (s : string) | TNum (lit : string) | TWord (w : string).

Definition hex_digit (c : ascii) : option Z :=
  let n := byte_val c in
  if in_range 48 57 n then Some (n - 48)
  else if in_range 97 102 n then Some (n - 87)
  else if in_range 65 70 n then Some (n - 55) else None.

(** [getu4]. *)
Definition hex4 (a b c d : ascii) : option Z :=
  match hex_digit a, hex_digit b, hex_digit c, hex_digit d with
  | Some a, Some b, Some c, Some d => Some (((a * 16 + b) * 16 + c) * 16 + d)
  | _, _, _, _ => None
  end.

Definition simple_escape (c : ascii) : option ascii :=
  let n := byte_val c in
  if (n =? 34) || (n =? 92) || (n =? 47) then Some c
  else if n =? 98 then Some (byte_of 8)
  else if n =? 102 then Some (byte_of 12)
  else if n =? 110 then Some (byte_of 10)
  else if n =? 114 then Some (byte_of 13)
  else if n =? 116 then Some (byte_of 9)
  else None.

Definition backslash : ascii := byte_of 92.
Definition quote : ascii := byte_of 34.

(** [unquote]: the bytes between the quotes, escapes decoded, invalid UTF-8 and lone
    surrogates replaced. *)
Fixpoint unquote (l : list ascii) : option (list ascii) :=
  match l with
  | [] => Some []
  | c :: r =>
      if bool_decide (c = backslash) then
        match r with
        | e :: r1 =>
            if byte_val e =? 117 then
              match r1 with
              | a :: b :: c :: d :: r2 =>
                  match hex4 a b c d with
                  | None => None
                  | Some u =>
                      if in_range 55296 57343 u then
                        match r2 with
                        | b1 :: b2 :: a' :: b' :: c' :: d' :: r3 =>
                            match hex4 a' b' c' d' with
                            | Some u' =>
                                if bool_decide (b1 = backslash) && (byte_val b2 =? 117) && (u <? 56320) &&
                                   in_range 56320 57343 u'
                                then (fun t => utf8_encode (65536 + (u - 55296) * 1024 + (u' - 56320)) ++ t) <$> unquote r3
                                else (fun t => RuneError ++ t) <$> unquote r2
                            | None => (fun t => RuneError ++ t) <$> unquote r2
                            end
                        | _ => (fun t => RuneError ++ t) <$> unquote r2
                        end
                      else (fun t => utf8_encode u ++ t) <$> unquote r2
                  end
              | _ => None
              end
            else match simple_escape e with Some x => cons x <$> unquote r1 | None => None end
        | [] => None
        end
      else
        match utf8_extra c r, r with
        | Some 0%nat, _ => cons c <$> unquote r
        | Some 1%nat, a :: r1 => (fun t => c :: a :: t) <$> unquote r1
        | Some 2%nat, a :: b :: r2 => (fun t => c :: a :: b :: t) <$> unquote r2
        | Some 3%nat, a :: b :: d :: r3 => (fun t => c :: a :: b :: d :: t) <$> unquote r3
        | _, _ => (fun t => RuneError ++ t) <$> unquote r
        end
  end.

Fixpoint string_of (l : list ascii) : string :=
  match l with [] => "" | c :: r => String c (string_of r) end.
Fixpoint ascii_list (s : string) : list ascii :=
  match s with EmptyString => [] | String c r => c :: ascii_list r end.

Lemma string_of_list s : string_of (ascii_list s) = s.
Proof. induction s as [|c s IH]; [done|]. cbn. by f_equal. Qed.

Lemma ascii_list_of l : ascii_list (string_of l) = l.
Proof. induction l as [|c l IH]; [done|]. cbn. by f_equal. Qed.

Lemma ascii_list_app (s t : string) : ascii_list (s +:+ t) = ascii_list s ++ ascii_list t.
Proof. induction s as [|c s IH]; [done|]. unfold String.app in *. cbn. by rewrite IH. Qed.

Lemma string_of_app l k : string_of (l ++ k) = string_of l +:+ string_of k.
Proof. induction l as [|c l IH]; [done|]. unfold String.app in *. cbn. by rewrite IH. Qed.

Definition is_digit (c : ascii) : bool := in_range 48 57 (byte_val c).
Definition is_space (c : ascii) : bool := existsb (Z.eqb (byte_val c)) [32; 9; 10; 13].
Definition is_word (c : ascii) : bool := in_range 97 122 (byte_val c).
Definition is_number_byte (c : ascii) : bool :=
  is_digit c || existsb (Z.eqb (byte_val c)) [43; 45; 46; 69; 101].

(** The number grammar. *)
Definition digits1 (l : list ascii) : option (list ascii) :=
  match l with c :: r => if is_digit c then Some (drop_while is_digit r) else None | [] => None end.

Definition number_exp (l : list ascii) : bool :=
  match l with
  | [] => true
  | c :: r =>
      existsb (Z.eqb (byte_val c)) [69; 101] &&
      let r := match r with s :: r' => if existsb (Z.eqb (byte_val s)) [43; 45] then r' else r | [] => r end in
      bool_decide (digits1 r = Some [])
  end.

Definition number_frac (l : list ascii) : bool :=
  match l with
  | c :: r => if byte_val c =? 46 then match digits1 r with Some r' => number_exp r' | None => false end
              else number_exp l
  | [] => true
  end.

Definition valid_number (l : list ascii) : bool :=
  let l := match l with c :: r => if byte_val c =? 45 then r else l | [] => l end in
  match l with
  | c :: r =>
      if byte_val c =? 48 then number_frac r
      else is_digit c && number_frac (drop_while is_digit r)
  | [] => false
  end.

Inductive lex_state :=
| LNone
| LStr (acc : list ascii) (esc : bool)
| LNum (acc : list ascii)
| LWord (acc : list ascii).

(** What a byte does between tokens. *)
Definition lex_start (c : ascii) : option (lex_state * list token) :=
  let n := byte_val c in
  if is_space c then Some (LNone, [])
  else if n =? 34 then Some (LStr [] false, [])
  else if is_digit c || (n =? 45) then Some (LNum [c], [])
  else if is_word c then Some (LWord [c], [])
  else if n =? 123 then Some (LNone, [TLBrace])
  else if n =? 125 then Some (LNone, [TRBrace])
  else if n =? 91 then Some (LNone, [TLBrack])
  else if n =? 93 then Some (LNone, [TRBrack])
  else if n =? 58 then Some (LNone, [TColon])
  else if n =? 44 then Some (LNone, [TComma])
  else None.

(** The token a state holds when it ends. *)
Definition lex_flush (st : lex_state) : option (list token) :=
  match st with
  | LNone => Some []
  | LStr _ _ => None
  | LNum acc => if valid_number (rev acc) then Some [TNum (string_of (rev acc))] else None
  | LWord acc =>
      let w := string_of (rev acc) in
      if existsb (seqb w) ["true"; "false"; "null"] then Some [TWord w] else None
  end.

Fixpoint lex (st : lex_state) (s : list ascii) (out : list token) : option (list token) :=
  match s with
  | [] => (fun t => rev (t ++ out)) <$> lex_flush st
  | c :: r =>
      let restart := match lex_flush st, lex_start c with
                     | Some t, Some (st', t') => lex st' r (t' ++ t ++ out)
                     | _, _ => None end in
      match st with
      | LStr acc true => lex (LStr (c :: acc) false) r out
      | LStr acc false =>
          if bool_decide (c = quote) then
            match unquote (rev acc) with
            | Some t => lex LNone r (TStr (string_of t) :: out)
            | None => None
            end
          else if bool_decide (c = backslash) then lex (LStr (c :: acc) true) r out
          else if byte_val c <? 32 then None
          else lex (LStr (c :: acc) false) r out
      | LNum acc => if is_number_byte c then lex (LNum (c :: acc)) r out else restart
      | LWord acc => if is_word c then lex (LWord (c :: acc)) r out else restart
      | LNone => restart
      end
  end.

(** * Parser *)

(** The open containers, innermost first. *)
Inductive frame :=
| FArr (acc : list json)
| FObj (acc : list (string * json)) (key : string).

Inductive mode :=
| MValue                                     (* a value must follow *)
| MFirstElem                                 (* after [[]: a value or []] *)
| MFirstKey                                  (* after [{]: a key or [}] *)
| MKey (acc : list (string * json))          (* after [,] in an object *)
| MColon (acc : list (string * json)) (key : string)
| MAfter (v : json).                         (* a complete value *)

Definition maxNestingDepth : nat := 10000.

Definition word_value (w : string) : json :=
  if seqb w "true" then JBool true else if seqb w "false" then JBool false else JNull.

(** What starts a value. *)
Definition start_value (t : token) (stack : list frame) : option (mode * list frame) :=
  match t with
  | TStr s => Some (MAfter (JStr s), stack)
  | TNum n => Some (MAfter (JNum n), stack)
  | TWord w => Some (MAfter (word_value w), stack)
  | TLBrack => if (length stack <? maxNestingDepth)%nat then Some (MFirstElem, FArr [] :: stack) else None
  | TLBrace => if (length stack <? maxNestingDepth)%nat then Some (MFirstKey, FObj [] "" :: stack) else None
  | _ => None
  end.

(** A complete value meets the next token in its container. *)
Definition after_value (v : json) (t : token) (stack : list frame) : option (mode * list frame) :=
  match stack, t with
  | FArr acc :: st, TComma => Some (MValue, FArr (v :: acc) :: st)
  | FArr acc :: st, TRBrack => Some (MAfter (JArr (rev (v :: acc))), st)
  | FObj acc k :: st, TComma => Some (MKey ((k, v) :: acc), st)
  | FObj acc k :: st, TRBrace => Some (MAfter (JObj (rev ((k, v) :: acc))), st)
  | _, _ => None
  end.

Definition parse_step (m : mode) (t : token) (stack : list frame) : option (mode * list frame) :=
  match m with
  | MValue => start_value t stack
  | MFirstElem =>
      match t, stack with
      | TRBrack, FArr _ :: st => Some (MAfter (JArr []), st)
      | _, _ => start_value t stack
      end
  | MFirstKey =>
      match t, stack with
      | TRBrace, _ :: st => Some (MAfter (JObj []), st)
      | TStr k, _ :: st => Some (MColon [] k, st)
      | _, _ => None
      end
  | MKey acc => match t with TStr k => Some (MColon acc k, stack) | _ => None end
  | MColon acc k => match t with TColon => Some (MValue, FObj acc k :: stack) | _ => None end
  | MAfter v => after_value v t stack
  end.

Fixpoint parse_tokens (m : mode) (stack : list frame) (ts : list token) : option json :=
  match ts with
  | [] => match m, stack with MAfter v, [] => Some v | _, _ => None end
  | t :: r => match parse_step m t stack with Some (m, stack) => parse_tokens m stack r | None => None end
  end.

(** The document of a text, where it is valid JSON. *)
Definition json_parse (s : string) : option json :=
  match lex LNone (ascii_list s) [] with
  | Some ts => parse_tokens MValue [] ts
  | None => None
  end.

(** * Typed decoding *)

(** [strconv.ParseInt(lit, 10, 64)] of a number literal. *)
Fixpoint digits_value (l : list ascii) (acc : Z) : option Z :=
  match l with
  | [] => Some acc
  | c :: r => if is_digit c then digits_value r (acc * 10 + (byte_val c - 48)) else None
  end.

Definition ParseInt (lit : string) : option Z :=
  let bounded z := if in_range min_int64 max_int64 z then Some z else None in
  match ascii_list lit with
  | [] => None
  | c :: r =>
      if byte_val c =? 45 then match r with [] => None | _ => digits_value r 0 ≫= fun z => bounded (- z) end
      else digits_value (c :: r) 0 ≫= bounded
  end.

(** A decoder updates the value that is already there. *)
Definition decoder (T : Type) : Type := json -> T -> option T.

Definition dec_int : decoder Z := fun j old =>
  match j with JNull => Some old | JNum lit => ParseInt lit | _ => None end.
Definition dec_string : decoder string := fun j old =>
  match j with JNull => Some old | JStr s => Some s | _ => None end.
Definition dec_bool : decoder bool := fun j old =>
  match j with JNull => Some old | JBool b => Some b | _ => None end.
(** [interface{}] and [json.RawMessage]: any value. *)
Definition dec_any : decoder json := fun j _ => Some j.

Definition dec_ptr {T} (zero : T) (d : decoder T) : decoder (option T) := fun j old =>
  match j with JNull => Some None | _ => Some <$> d j (default zero old) end.

Definition dec_slice {T} (zero : T) (d : decoder T) : decoder (list T) := fun j _ =>
  match j with
  | JNull => Some []
  | JArr l => mapM (fun x => d x zero) l
  | _ => None
  end.

(** Field names match exactly or else up to case folding. *)
Definition field {T} : Type := (string * decoder T)%type.

Definition find_field {T} (fs : list (@field T)) (key : string) : option (decoder T) :=
  match List.find (fun f => seqb (fst f) key) fs with
  | Some f => Some (snd f)
  | None => snd <$> List.find (fun f => EqualFold (fst f) key) fs
  end.

Definition dec_member {T} (fs : list (@field T)) (old : option T) (m : string * json) : option T :=
  match old with
  | None => None
  | Some old => match find_field fs (fst m) with Some d => d (snd m) old | None => Some old end
  end.

Definition dec_struct {T} (fs : list (@field T)) : decoder T := fun j old =>
  match j with
  | JNull => Some old
  | JObj ms => fold_left (dec_member fs) ms (Some old)
  | _ => None
  end.

(** A field of a record, by its projection. *)
Definition dec_field {R T} (proj : R -> T) `{!Setter proj} (d : decoder T) : decoder R :=
  fun j r => (fun v => update proj (fun _ => v) r) <$> d j (proj r).

(** [json.Unmarshal([]byte(data), &v)] with a zero [v]. *)
Definition Unmarshal {T} (d : decoder T) (zero : T) (data : string) : option T :=
  json_parse data ≫= fun j => d j zero.

(** * strings.TrimSpace *)

(** The encodings of the white-space code points. *)
Definition space_runes : list (list ascii) :=
  map (fun r => utf8_encode r)
    ([9; 10; 11; 12; 13; 32; 133; 160; 5760] ++ map (fun i => 8192 + Z.of_nat i) (seq 0 11) ++
     [8232; 8233; 8239; 8287; 12288]).

Fixpoint strip_prefix (p l : list ascii) : option (list ascii) :=
  match p, l with
  | [], _ => Some l
  | c :: p, d :: l => if bool_decide (c = d) then strip_prefix p l else None
  | _ :: _, [] => None
  end.

Definition strip_space (runes : list (list ascii)) (l : list ascii) : option (list ascii) :=
  head (omap (fun p => strip_prefix p l) runes).

Fixpoint trim_left (fuel : nat) (runes : list (list ascii)) (l : list ascii) : list ascii :=
  match fuel with
  | O => l
  | S fuel => match strip_space runes l with Some r => trim_left fuel runes r | None => l end
  end.

Definition TrimSpace (s : string) : string :=
  let l := ascii_list s in
  let l := trim_left (length l) space_runes l in
  string_of (rev (trim_left (length l) (map (@rev ascii) space_runes) (rev l))).

(** * Examples *)

Definition q (s : string) : string := String quote s +:+ String quote "".

(** Text with single quotes for double ones. *)
Definition json_text (s : string) : string :=
  string_of (map (fun c => if bool_decide (c = byte_of 39) then quote else c) (ascii_list s)).

Example json_parse_object :
  json_parse ("{ " +:+ q "a" +:+ ": [1, -2.5e3, " +:+ q "x" +:+ "], " +:+ q "b" +:+ ":{}, " +:+ q "a" +:+ ":null}") =
  Some (JObj [("a", JArr [JNum "1"; JNum "-2.5e3"; JStr "x"]); ("b", JObj []); ("a", JNull)]).
Proof. vm_compute. reflexivity. Qed.

Example json_parse_errors :
  map json_parse [""; "{"; "[1,]"; "01"; "[1 2]"; "{1:2}"; "nul"; "1 1"; "[1}"; "+1"; "1."] = repeat None 11.
Proof. vm_compute. reflexivity. Qed.

Example TrimSpace_done : TrimSpace (" [DONE]" +:+ String (byte_of 13) (String (byte_of 10) "")) = "[DONE]".
Proof. vm_compute. reflexivity. Qed.
