(* ===== verification/GoPrint.v ===== *)
(** What Go prints: [encoding/json]'s encoder (HTML-safe strings, map keys in order) and
    the verb [%q].  The theorems relate the encoder to the parser of GoJson: an encoded
    document is read back as it was. *)

From Stdlib Require Import Ascii.
From S2P Require Import Prelude GoStrings GoJson.

(** * JSON strings *)

Definition hex_char (n : Z) : ascii := byte_of (if n <? 10 then 48 + n else 87 + n).

(** [\uXXXX]. *)
Definition u_escape (u : Z) : list ascii :=
  [backslash; byte_of 117; hex_char (u / 4096 mod 16); hex_char (u / 256 mod 16); hex_char (u / 16 mod 16);
   hex_char (u mod 16)].

(** One ASCII byte of a string. *)
Definition encode_ascii (c : ascii) : list ascii :=
  let n := byte_val c in
  if (n =? 34) || (n =? 92) then [backslash; c]
  else if n =? 8 then [backslash; byte_of 98]
  else if n =? 12 then [backslash; byte_of 102]
  else if n =? 10 then [backslash; byte_of 110]
  else if n =? 13 then [backslash; byte_of 114]
  else if n =? 9 then [backslash; byte_of 116]
  else if (n <? 32) || (n =? 60) || (n =? 62) || (n =? 38) then u_escape n
  else [c].

(** U+2028 and U+2029 as UTF-8. *)
Definition line_separator (c a b : ascii) : option Z :=
  if (byte_val c =? 226) && (byte_val a =? 128) then
    if byte_val b =? 168 then Some 8232 else if byte_val b =? 169 then Some 8233 else None
  else None.

(** The bytes between the quotes. *)
Fixpoint encode_body (l : list ascii) : list ascii :=
  match l with
  | [] => []
  | c :: r =>
      match utf8_extra c r, r with
      | Some 0%nat, _ => encode_ascii c ++ encode_body r
      | Some 1%nat, a :: r1 => [c; a] ++ encode_body r1
      | Some 2%nat, a :: b :: r2 =>
          match line_separator c a b with Some u => u_escape u | None => [c; a; b] end ++ encode_body r2
      | Some 3%nat, a :: b :: d :: r3 => [c; a; b; d] ++ encode_body r3
      | _, _ => u_escape 65533 ++ encode_body r
      end
  end.

Definition encode_string (s : string) : list ascii := [quote] ++ encode_body (ascii_list s) ++ [quote].

(** [utf8.ValidString]. *)
Fixpoint utf8_valid (l : list ascii) : bool :=
  match l with
  | [] => true
  | c :: r =>
      match utf8_extra c r, r with
      | Some 0%nat, _ => utf8_valid r
      | Some 1%nat, _ :: r1 => utf8_valid r1
      | Some 2%nat, _ :: _ :: r2 => utf8_valid r2
      | Some 3%nat, _ :: _ :: _ :: r3 => utf8_valid r3
      | _, _ => false
      end
  end.

(** * Documents *)

Definition comma : ascii := byte_of 44.
Definition colon : ascii := byte_of 58.

Fixpoint sep_by {A} (sep : A) (l : list (list A)) : list A :=
  match l with
  | [] => []
  | [x] => x
  | x :: r => x ++ [sep] ++ sep_by sep r
  end.

Fixpoint json_encode (j : json) : list ascii :=
  match j with
  | JNull => ascii_list "null"
  | JBool true => ascii_list "true"
  | JBool false => ascii_list "false"
  | JNum lit => ascii_list lit
  | JStr s => encode_string s
  | JArr l => [byte_of 91] ++ sep_by comma (map json_encode l) ++ [byte_of 93]
  | JObj m => [byte_of 123] ++ sep_by comma (map (fun f => encode_string (fst f) ++ [colon] ++ json_encode (snd f)) m)
                ++ [byte_of 125]
  end.

(** The members of a Go map are printed in the order of their keys. *)
Fixpoint insert_member (f : string * json) (m : list (string * json)) : list (string * json) :=
  match m with
  | [] => [f]
  | g :: r => if String.ltb (fst g) (fst f) then g :: insert_member f r else f :: m
  end.

Fixpoint sort_keys (j : json) : json :=
  match j with
  | JArr l => JArr (map sort_keys l)
  | JObj m => JObj (foldr insert_member [] (map (fun f => (fst f, sort_keys (snd f))) m))
  | _ => j
  end.

(** [json.Marshal] of nested maps. *)
Definition Marshal (j : json) : string := string_of (json_encode (sort_keys j)).

(** * %q *)

Section quote_verb.
(** [strconv.IsPrint] of a code point beyond ASCII (a table of the Unicode version). *)
Context (IsPrint : list ascii -> bool).

Definition x_escape (n : Z) : list ascii := [backslash; byte_of 120; hex_char (n / 16); hex_char (n mod 16)].

Definition quote_ascii (c : ascii) : list ascii :=
  let n := byte_val c in
  if (n =? 34) || (n =? 92) then [backslash; c]
  else if in_range 32 126 n then [c]
  else if n =? 7 then [backslash; byte_of 97]
  else if n =? 8 then [backslash; byte_of 98]
  else if n =? 12 then [backslash; byte_of 102]
  else if n =? 10 then [backslash; byte_of 110]
  else if n =? 13 then [backslash; byte_of 114]
  else if n =? 9 then [backslash; byte_of 116]
  else if n =? 11 then [backslash; byte_of 118]
  else x_escape n.

(** The code point of a well-formed sequence. *)
Definition rune_value (l : list ascii) : Z :=
  match map byte_val l with
  | [a] => a
  | [a; b] => (a - 192) * 64 + (b - 128)
  | [a; b; c] => (a - 224) * 4096 + (b - 128) * 64 + (c - 128)
  | [a; b; c; d] => (a - 240) * 262144 + (b - 128) * 4096 + (c - 128) * 64 + (d - 128)
  | _ => 65533
  end.

Definition quote_rune (l : list ascii) : list ascii :=
  if IsPrint l then l
  else let u := rune_value l in
       if u <? 65536 then u_escape u
       else [backslash; byte_of 85; byte_of 48; byte_of 48; hex_char (u / 1048576 mod 16); hex_char (u / 65536 mod 16)] ++
            drop 2 (u_escape (u mod 65536)).

Fixpoint quote_body (l : list ascii) : list ascii :=
  match l with
  | [] => []
  | c :: r =>
      match utf8_extra c r, r with
      | Some 0%nat, _ => quote_ascii c ++ quote_body r
      | Some 1%nat, a :: r1 => quote_rune [c; a] ++ quote_body r1
      | Some 2%nat, a :: b :: r2 => quote_rune [c; a; b] ++ quote_body r2
      | Some 3%nat, a :: b :: d :: r3 => quote_rune [c; a; b; d] ++ quote_body r3
      | _, _ => x_escape (byte_val c) ++ quote_body r
      end
  end.

(** [fmt.Sprintf("%q", s)]. *)
Definition Quote (s : string) : string := string_of ([quote] ++ quote_body (ascii_list s) ++ [quote]).
End quote_verb.

(** * Lemmas on the scanner *)

Lemma byte_val_range c : 0 <= byte_val c < 256.
Proof. unfold byte_val. pose proof (nat_ascii_bounded c). lia. Qed.

Lemma byte_of_val c : byte_of (byte_val c) = c.
Proof. unfold byte_of, byte_val. rewrite Nat2Z.id. apply ascii_nat_embedding. Qed.

(** Facts about a single byte, by trying all of them. *)
Lemma all_bytes (P : ascii -> bool) : forallb (fun n => P (ascii_of_nat n)) (seq 0 256) = true -> forall c, P c = true.
Proof.
  intros H c. rewrite <- (ascii_nat_embedding c). rewrite forallb_forall in H. apply H.
  apply in_seq. pose proof (nat_ascii_bounded c). lia.
Qed.

(** A piece of string text the scanner consumes without leaving the string. *)
Definition str_unit (u : list ascii) : Prop :=
  forall acc r out, lex (LStr acc false) (u ++ r) out = lex (LStr (rev u ++ acc) false) r out.

Lemma str_unit_nil : str_unit [].
Proof. done. Qed.

Lemma str_unit_app u v : str_unit u -> str_unit v -> str_unit (u ++ v).
Proof. intros U V acc r out. by rewrite <- app_assoc, U, V, rev_app_distr, <- app_assoc. Qed.

Definition plain (c : ascii) : bool :=
  negb (bool_decide (c = quote)) && negb (bool_decide (c = backslash)) && negb (byte_val c <? 32).

Lemma str_unit_plain c : plain c = true -> str_unit [c].
Proof.
  unfold plain. intros H acc r out. cbn [app lex].
  destruct (bool_decide (c = quote)), (bool_decide (c = backslash)), (byte_val c <? 32); done.
Qed.

Lemma str_unit_plains l : forallb plain l = true -> str_unit l.
Proof.
  induction l as [|c l IH]; [done|]. cbn [forallb]. rewrite andb_true_iff. intros [H Hl].
  apply (str_unit_app [c]); [by apply str_unit_plain|by apply IH].
Qed.

Lemma str_unit_escape e : str_unit [backslash; e].
Proof. intros acc r out. reflexivity. Qed.

Lemma hex_char_plain n : 0 <= n < 16 -> plain (hex_char n) = true.
Proof.
  intros H. assert (exists k : nat, (k < 16)%nat /\ n = Z.of_nat k) as (k & Hk & ->) by (exists (Z.to_nat n); lia).
  do 16 (destruct k as [|k]; [vm_compute; reflexivity|]). lia.
Qed.

Lemma hex_digit_char n : 0 <= n < 16 -> hex_digit (hex_char n) = Some n.
Proof.
  intros H. assert (exists k : nat, (k < 16)%nat /\ n = Z.of_nat k) as (k & Hk & ->) by (exists (Z.to_nat n); lia).
  do 16 (destruct k as [|k]; [vm_compute; reflexivity|]). lia.
Qed.

Lemma str_unit_u u : str_unit (u_escape u).
Proof.
  unfold u_escape. apply (str_unit_app [_; _]); [apply str_unit_escape|]. apply str_unit_plains. cbn [forallb].
  rewrite !hex_char_plain by (apply Z.mod_pos_bound; lia). done.
Qed.

Lemma str_unit_ascii c : byte_val c < 128 -> str_unit (encode_ascii c).
Proof.
  intros H. unfold encode_ascii.
  repeat match goal with |- context [if ?b then _ else _] => destruct b eqn:?; [first [apply str_unit_escape|apply str_unit_u]|] end.
  apply str_unit_plain. unfold plain. rewrite !orb_false_iff, !Z.eqb_neq in *.
  rewrite !bool_decide_false; [cbn; rewrite negb_true_iff; tauto| |]; intros ->; vm_compute in *; naive_solver.
Qed.

Lemma high_plain c : 128 <=? byte_val c = true -> plain c = true.
Proof.
  intros H. pose proof (all_bytes (fun c => implb (128 <=? byte_val c) (plain c)) ltac:(vm_compute; reflexivity) c) as P.
  cbn beta in P. by rewrite H in P.
Qed.

(** * Lemmas on UTF-8 *)

Lemma in_range_spec lo hi z : in_range lo hi z = true <-> lo <= z <= hi.
Proof. unfold in_range. rewrite andb_true_iff, !Z.leb_le. done. Qed.

Definition high (c : ascii) : bool := 128 <=? byte_val c.

Lemma in_range_high lo hi c : 128 <= lo -> in_range lo hi (byte_val c) = true -> high c = true.
Proof. rewrite in_range_spec. unfold high. rewrite Z.leb_le. lia. Qed.

(** A well-formed sequence: its continuation bytes [t], which alone decide. *)
Lemma utf8_extra_spec c r k : utf8_extra c r = Some k ->
  exists t r', r = t ++ r' /\ length t = k /\ (k <= 3)%nat /\
    (if (k =? 0)%nat then byte_val c < 128 else forallb high (c :: t) = true) /\
    forall r'', utf8_extra c (t ++ r'') = Some k.
Proof.
  unfold utf8_extra. destruct (Z.ltb_spec (byte_val c) 128) as [L|L].
  { intros [= <-]. exists [], r. split_and!; [done|done|lia|done|done]. }
  assert (high c = true) as Hc by (unfold high; lia).
  destruct (in_range 194 223 (byte_val c)) eqn:R1.
  { destruct r as [|a r]; [done|]. destruct (in_range 128 191 (byte_val a)) eqn:Ea; [|done]. intros [= <-].
    exists [a], r. cbn. rewrite Hc, (in_range_high _ _ a (Z.le_refl 128) Ea), Ea. split_and!; [done|done|lia|done|done]. }
  destruct (in_range 224 239 (byte_val c)) eqn:R2.
  { assert (exists lo hi, 128 <= lo /\ (if byte_val c =? 224 then (160, 191) else if byte_val c =? 237 then (128, 159) else (128, 191)) = (lo, hi))
      as (lo & hi & Hlo & ->) by (repeat case_match; eexists _, _; (split; [|reflexivity]); lia).
    destruct r as [|a [|b r]]; [done| |].
    { cbn [lookup list_lookup]. by rewrite andb_false_r. }
    cbn [lookup list_lookup]. destruct (in_range lo hi (byte_val a)) eqn:Ea; [|done].
    destruct (is_cont b) eqn:Eb; [|done]. intros [= <-]. exists [a; b], r.
    cbn [app length forallb lookup list_lookup Nat.eqb]. rewrite Hc, (in_range_high _ _ a Hlo Ea), Ea, Eb.
    rewrite (in_range_high _ _ b (Z.le_refl 128) Eb). split_and!; [done|done|lia|done|done]. }
  destruct (in_range 240 244 (byte_val c)) eqn:R3; [|done].
  assert (exists lo hi, 128 <= lo /\ (if byte_val c =? 240 then (144, 191) else if byte_val c =? 244 then (128, 143) else (128, 191)) = (lo, hi))
    as (lo & hi & Hlo & ->) by (repeat case_match; eexists _, _; (split; [|reflexivity]); lia).
  destruct r as [|a [|b [|d r]]]; [done| | |]; cbn [lookup list_lookup]; try by rewrite ?andb_false_r.
  destruct (in_range lo hi (byte_val a)) eqn:Ea; [|done].
  destruct (is_cont b) eqn:Eb; [|done]. destruct (is_cont d) eqn:Ed; [|done]. intros [= <-]. exists [a; b; d], r.
  cbn [app length forallb lookup list_lookup Nat.eqb]. rewrite Hc, (in_range_high _ _ a Hlo Ea), Ea, Eb, Ed.
  rewrite (in_range_high _ _ b (Z.le_refl 128) Eb), (in_range_high _ _ d (Z.le_refl 128) Ed).
  split_and!; [done|done|lia|done|done].
Qed.

Lemma unquote_ascii c r : byte_val c < 128 -> unquote (encode_ascii c ++ r) = cons c <$> unquote r.
Proof. intros H. destruct c as [[] [] [] [] [] [] [] []]; first [reflexivity|by vm_compute in H]. Qed.

Lemma unquote_rune c t r : (1 <= length t)%nat -> utf8_extra c (t ++ r) = Some (length t) -> forallb high (c :: t) = true ->
  unquote (c :: t ++ r) = (fun s => c :: t ++ s) <$> unquote r.
Proof.
  intros L E Hh. assert (bool_decide (c = backslash) = false) as Nb.
  { apply bool_decide_eq_false. intros ->. by vm_compute in Hh. }
  pose proof (utf8_extra_spec _ _ _ E) as (_ & _ & _ & _ & L3 & _).
  destruct t as [|a [|b [|d [|]]]]; cbn [length] in L, L3; try lia; cbn [app length] in E |- *; cbn [unquote];
    by rewrite Nb, E.
Qed.

Lemma line_separator_bytes c a b u : line_separator c a b = Some u -> utf8_encode u = [c; a; b] /\ (u = 8232 \/ u = 8233).
Proof.
  unfold line_separator. destruct (Z.eqb_spec (byte_val c) 226) as [Ec|]; [|done].
  destruct (Z.eqb_spec (byte_val a) 128) as [Ea|]; [|done]. cbn [andb].
  destruct (Z.eqb_spec (byte_val b) 168) as [Eb|]; [|destruct (Z.eqb_spec (byte_val b) 169) as [Eb|]; [|done]];
    intros [= <-]; rewrite <- (byte_of_val c), <- (byte_of_val a), <- (byte_of_val b), Ec, Ea, Eb;
    (split; [vm_compute; reflexivity|auto]).
Qed.

(** The encoded string reads back, and the scanner stays in it until its end. *)
Lemma encode_body_ok l : utf8_valid l = true -> str_unit (encode_body l) /\ unquote (encode_body l) = Some l.
Proof.
  induction l as [l IH] using length_ind. destruct l as [|c r]; [done|]. intros V.
  destruct (utf8_extra c r) as [k|] eqn:E; [|cbn [utf8_valid] in V; by rewrite E in V].
  destruct (utf8_extra_spec _ _ _ E) as (t & r' & -> & Hk & Hk3 & Hh & Hpre).
  assert (utf8_valid r' = true) as V'.
  { cbn [utf8_valid] in V. rewrite E in V. destruct k as [|[|[|[|k]]]]; try lia; destruct t as [|a [|b [|d [|]]]]; try done. }
  destruct (IH r' ltac:(cbn [length]; rewrite length_app; lia) V') as [U Q].
  destruct k as [|k].
  { destruct t; [|done]. cbn [app] in *. cbn [encode_body]. rewrite E. split.
    - apply str_unit_app; [by apply str_unit_ascii|done].
    - rewrite unquote_ascii by done. by rewrite Q. }
  cbn [Nat.eqb] in Hh.
  assert (encode_body (c :: t ++ r') = (c :: t) ++ encode_body r' \/
    exists a b u, t = [a; b] /\ line_separator c a b = Some u /\ encode_body (c :: t ++ r') = u_escape u ++ encode_body r')
    as [->|(a & b & u & -> & Hu & ->)].
  { cbn [encode_body]. rewrite E. destruct k as [|[|[|k]]]; try lia; destruct t as [|a [|b [|d [|]]]]; try done; cbn [app].
    - by left.
    - destruct (line_separator c a b) as [u|] eqn:Hu; [|by left]. right. by exists a, b, u.
    - by left. }
  - split.
    + apply str_unit_app; [|done]. apply str_unit_plains. revert Hh. clear. generalize (c :: t). intros l H.
      induction l as [|x l IH]; [done|]. cbn [forallb] in *. apply andb_true_iff in H as [Hx Hl].
      rewrite high_plain by done. auto.
    + cbn [app]. rewrite unquote_rune; [by rewrite Q|lia|rewrite Hpre; by f_equal|done].
  - split; [apply str_unit_app; [apply str_unit_u|done]|].
    destruct (line_separator_bytes _ _ _ _ Hu) as [Eu [->| ->]]; cbn [app].
    all: match goal with |- unquote (u_escape ?n ++ ?e) = _ =>
           change (unquote (u_escape n ++ e)) with ((fun s => utf8_encode n ++ s) <$> unquote e) end.
    all: by rewrite Q, Eu.
Qed.

(** * Lemmas on documents *)

Section json_ind.
Context (P : json -> Prop) (Hnull : P JNull) (Hbool : forall b, P (JBool b)) (Hnum : forall n, P (JNum n))
  (Hstr : forall s, P (JStr s)) (Harr : forall l, Forall P l -> P (JArr l))
  (Hobj : forall m, Forall (fun f => P (snd f)) m -> P (JObj m)).

Fixpoint json_nested_ind (j : json) : P j :=
  match j with
  | JNull => Hnull
  | JBool b => Hbool b
  | JNum n => Hnum n
  | JStr s => Hstr s
  | JArr l => Harr l ((fix go l : Forall P l := match l with [] => Forall_nil_2 _ | x :: r => Forall_cons_2 _ x r (json_nested_ind x) (go r) end) l)
  | JObj m => Hobj m ((fix go m : Forall (fun f => P (snd f)) m := match m with
                                   | [] => Forall_nil_2 _
                                   | f :: r => Forall_cons_2 _ f r (json_nested_ind (snd f)) (go r) end) m)
  end.
End json_ind.

(** A number literal the scanner accepts as one token. *)
Definition number_ok (lit : string) : bool :=
  match ascii_list lit with
  | c :: r => (is_digit c || (byte_val c =? 45)) && forallb is_number_byte r && valid_number (c :: r)
  | [] => false
  end.

(** Documents with valid text, valid numbers and at most [d] levels of nesting. *)
Fixpoint json_ok (d : nat) (j : json) {struct j} : bool :=
  match j with
  | JNull | JBool _ => true
  | JNum lit => number_ok lit
  | JStr s => utf8_valid (ascii_list s)
  | JArr l => match d with O => false | S d => forallb (json_ok d) l end
  | JObj m => match d with
              | O => false
              | S d => forallb (fun f => utf8_valid (ascii_list (fst f)) && json_ok d (snd f)) m end
  end.

Lemma json_ok_obj d m :
  json_ok (S d) (JObj m) = forallb (fun f => utf8_valid (ascii_list (fst f)) && json_ok d (snd f)) m.
Proof. done. Qed.

(** The tokens of a document. *)
Fixpoint toks (j : json) : list token :=
  match j with
  | JNull => [TWord "null"]
  | JBool b => [TWord (if b then "true" else "false")]
  | JNum lit => [TNum lit]
  | JStr s => [TStr s]
  | JArr l => TLBrack :: sep_by TComma (map toks l) ++ [TRBrack]
  | JObj m => TLBrace :: sep_by TComma (map (fun f => TStr (fst f) :: TColon :: toks (snd f)) m) ++ [TRBrace]
  end.

Lemma lex_string s r out : utf8_valid (ascii_list s) = true ->
  lex LNone (encode_string s ++ r) out = lex LNone r (TStr s :: out).
Proof.
  intros V. destruct (encode_body_ok _ V) as [U Q]. unfold encode_string.
  change (lex (LStr [] false) ((encode_body (ascii_list s) ++ [quote]) ++ r) out = lex LNone r (TStr s :: out)).
  rewrite <- app_assoc, U, app_nil_r. cbn [app lex]. rewrite bool_decide_true by done.
  by rewrite rev_involutive, Q, string_of_list.
Qed.

(** The next byte ends a number or a word. *)
Definition delim (r : list ascii) : Prop :=
  match r with [] => True | c :: _ => c = comma \/ c = byte_of 93 \/ c = byte_of 125 \/ c = byte_of 10 end.

Lemma lex_delim st t r out : lex_flush st = Some [t] -> (forall acc e, st <> LStr acc e) -> delim r ->
  (match r, st with c :: _, LNum _ => is_number_byte c = false | c :: _, LWord _ => is_word c = false | _, _ => True end) ->
  lex st r out = lex LNone r (t :: out).
Proof.
  intros F N D B. destruct r as [|c r].
  - cbn [lex]. rewrite F. done.
  - destruct st as [|acc e|acc|acc]; [done|by destruct (N acc e)| |]; cbn [lex]; rewrite B, F; cbn [lex_flush];
      destruct (lex_start c) as [[st' t']|]; done.
Qed.

Lemma delim_bytes c r : delim (c :: r) -> is_number_byte c = false /\ is_word c = false.
Proof. by intros [->|[->|[->| ->]]]. Qed.

Lemma lex_number lit r out : number_ok lit = true -> delim r ->
  lex LNone (ascii_list lit ++ r) out = lex LNone r (TNum lit :: out).
Proof.
  unfold number_ok. destruct (ascii_list lit) as [|c l] eqn:E; [done|]. rewrite !andb_true_iff. intros [[Hc Hl] Hv] D.
  assert (lex LNone ((c :: l) ++ r) out = lex (LNum [c]) (l ++ r) out) as ->.
  { cbn [app lex lex_flush]. unfold lex_start.
    pose proof (all_bytes (fun c => implb (is_digit c || (byte_val c =? 45)) (negb (is_space c) && negb (byte_val c =? 34)))
      ltac:(vm_compute; reflexivity) c) as P. cbn beta in P. rewrite Hc in P. cbn [implb] in P.
    apply andb_true_iff in P as [P1 P2]. apply negb_true_iff in P1, P2. by rewrite P1, P2, Hc. }
  assert (forall l acc, forallb is_number_byte l = true -> lex (LNum acc) (l ++ r) out = lex (LNum (rev l ++ acc)) r out) as A.
  { clear. intros l. induction l as [|x l IH]; intros acc H; [done|]. cbn [forallb] in H. apply andb_true_iff in H as [Hx H].
    cbn [app lex]. rewrite Hx, IH by done. cbn [rev]. by rewrite <- app_assoc. }
  rewrite A by done. apply lex_delim; [|done|done|].
  - cbn [lex_flush]. assert (rev (rev l ++ [c]) = c :: l) as -> by (by rewrite rev_app_distr, rev_involutive).
    by rewrite Hv, <- E, string_of_list.
  - destruct r as [|a r]; [done|]. apply (delim_bytes a r) in D. tauto.
Qed.

Lemma lex_word w r out : existsb (seqb w) ["true"; "false"; "null"] = true -> delim r ->
  lex LNone (ascii_list w ++ r) out = lex LNone r (TWord w :: out).
Proof.
  intros W D. assert (exists acc, lex LNone (ascii_list w ++ r) out = lex (LWord acc) r out /\ string_of (rev acc) = w) as (acc & -> & Ew).
  { cbn [existsb] in W. rewrite !orb_true_iff in W. destruct W as [W|[W|[W|W]]]; [| | |done]; sbool; subst w.
    - exists (rev (ascii_list "true")). split; [reflexivity|done].
    - exists (rev (ascii_list "false")). split; [reflexivity|done].
    - exists (rev (ascii_list "null")). split; [reflexivity|done]. }
  apply lex_delim; [|done|done|].
  - cbn [lex_flush]. by rewrite Ew, W.
  - destruct r as [|a r]; [done|]. apply (delim_bytes a r) in D. tauto.
Qed.

(** The scanner over a comma-separated list, item by item. *)
Lemma lex_items {A} (enc : A -> list ascii) (tk : A -> list token) (close : ascii) r :
  (close = byte_of 93 \/ close = byte_of 125) -> forall l out,
  Forall (fun x => forall r out, delim r -> lex LNone (enc x ++ r) out = lex LNone r (rev (tk x) ++ out)) l ->
  lex LNone (sep_by comma (map enc l) ++ close :: r) out =
  lex LNone (close :: r) (rev (sep_by TComma (map tk l)) ++ out).
Proof.
  intros Hc. induction l as [|x l IH]; intros out H; [done|]. apply Forall_cons in H as [Hx H].
  destruct l as [|y l].
  { cbn [map sep_by]. apply Hx. cbn. tauto. }
  set (l' := y :: l) in *. cbn [map]. change (sep_by comma (enc x :: map enc l')) with (enc x ++ [comma] ++ sep_by comma (map enc l')).
  change (sep_by TComma (tk x :: map tk l')) with (tk x ++ [TComma] ++ sep_by TComma (map tk l')).
  rewrite <- !app_assoc. rewrite Hx by (cbn; tauto). cbn [app].
  change (lex LNone (comma :: (sep_by comma (map enc l') ++ close :: r)) (rev (tk x) ++ out)) with
    (lex LNone (sep_by comma (map enc l') ++ close :: r) (TComma :: rev (tk x) ++ out)).
  rewrite IH by done. f_equal. rewrite rev_app_distr. cbn [rev]. by rewrite <- !app_assoc.
Qed.

Lemma lex_encode j : forall d r out, json_ok d j = true -> delim r ->
  lex LNone (json_encode j ++ r) out = lex LNone r (rev (toks j) ++ out).
Proof.
  induction j as [|b|n|s|l IH|m IH] using json_nested_ind; intros d r out Ok D.
  - by apply (lex_word "null").
  - destruct b; by apply lex_word.
  - by apply lex_number.
  - by apply lex_string.
  - destruct d as [|d]; [done|]. cbn [json_ok] in Ok. cbn [json_encode]. rewrite <- !app_assoc. cbn [app].
    change (lex LNone (byte_of 91 :: ?x) out) with (lex LNone x (TLBrack :: out)).
    rewrite (lex_items json_encode toks); [|auto|].
    + change (lex LNone (byte_of 93 :: r) ?o) with (lex LNone r (TRBrack :: o)). cbn [toks rev].
      rewrite rev_app_distr. cbn [rev app]. by rewrite <- app_assoc.
    + rewrite Forall_forall in IH |- *. intros x Hx r' out' D'. apply (IH x Hx d); [|done].
      rewrite forallb_forall in Ok. by apply Ok, list_elem_of_In.
  - destruct d as [|d]; [done|]. cbn [json_ok] in Ok. cbn [json_encode]. rewrite <- !app_assoc. cbn [app].
    change (lex LNone (byte_of 123 :: ?x) out) with (lex LNone x (TLBrace :: out)).
    rewrite (lex_items (fun f => encode_string (fst f) ++ colon :: json_encode (snd f))
               (fun f => TStr (fst f) :: TColon :: toks (snd f))); [|auto|].
    + change (lex LNone (byte_of 125 :: r) ?o) with (lex LNone r (TRBrace :: o)). cbn [toks rev].
      rewrite rev_app_distr. cbn [rev app]. by rewrite <- app_assoc.
    + rewrite Forall_forall in IH |- *. intros f Hf r' out' D'.
      rewrite forallb_forall in Ok. apply list_elem_of_In in Hf as Hf'. apply Ok in Hf' as Of. apply andb_true_iff in Of as [Ok1 Ok2].
      rewrite <- app_assoc, lex_string by done. cbn [app].
      change (lex LNone (colon :: ?x) ?o) with (lex LNone x (TColon :: o)).
      rewrite (IH f Hf d) by done. cbn [rev]. by rewrite <- !app_assoc.
Qed.

(** The parser reads one document where a value is expected. *)
Definition parses (j : json) (stack : list frame) : Prop :=
  forall ts, parse_tokens MValue stack (toks j ++ ts) = parse_tokens (MAfter j) stack ts.

Lemma toks_first j stack acc ts : parse_tokens MFirstElem (FArr acc :: stack) (toks j ++ ts) =
  parse_tokens MValue (FArr acc :: stack) (toks j ++ ts).
Proof. by destruct j. Qed.

Lemma sep_by_cons2 {A} (sep : A) x y l : sep_by sep (x :: y :: l) = x ++ [sep] ++ sep_by sep (y :: l).
Proof. done. Qed.

Lemma parse_elems l : forall x acc stack ts, (forall acc, Forall (fun y => parses y (FArr acc :: stack)) (x :: l)) ->
  parse_tokens MValue (FArr acc :: stack) (sep_by TComma (map toks (x :: l)) ++ TRBrack :: ts) =
  parse_tokens (MAfter (JArr (rev acc ++ x :: l))) stack ts.
Proof.
  induction l as [|y l IH]; intros x acc stack ts H; pose proof (H acc) as Hx; apply Forall_cons in Hx as [Hx _].
  - cbn [map sep_by]. rewrite Hx. done.
  - cbn [map]. rewrite sep_by_cons2, <- !app_assoc, Hx. cbn [app parse_tokens parse_step after_value].
    change (toks y :: map toks l) with (map toks (y :: l)). rewrite IH.
    + cbn [rev]. by rewrite <- app_assoc.
    + intros acc'. specialize (H acc'). by apply Forall_cons in H as [_ H].
Qed.

Definition member_toks (f : string * json) : list token := TStr (fst f) :: TColon :: toks (snd f).

Lemma parse_members m : forall f acc stack ts,
  (forall acc k, Forall (fun g => parses (snd g) (FObj acc k :: stack)) (f :: m)) ->
  parse_tokens (MKey acc) stack (sep_by TComma (map member_toks (f :: m)) ++ TRBrace :: ts) =
  parse_tokens (MAfter (JObj (rev acc ++ f :: m))) stack ts.
Proof.
  assert (forall f acc stack ts, parses (snd f) (FObj acc (fst f) :: stack) ->
    parse_tokens (MKey acc) stack (member_toks f ++ ts) = parse_tokens (MAfter (snd f)) (FObj acc (fst f) :: stack) ts) as One.
  { intros f acc stack ts Hf. unfold member_toks. cbn [app parse_tokens parse_step]. apply Hf. }
  induction m as [|g m IH]; intros f acc stack ts H; pose proof (H acc (fst f)) as Hf; apply Forall_cons in Hf as [Hf _].
  - cbn [map sep_by]. rewrite One by done. cbn [parse_tokens parse_step after_value rev]. by destruct f.
  - cbn [map]. rewrite sep_by_cons2, <- !app_assoc, One by done. cbn [app parse_tokens parse_step after_value].
    change (member_toks g :: map member_toks m) with (map member_toks (g :: m)). rewrite IH.
    + cbn [rev]. rewrite <- app_assoc. by destruct f.
    + intros acc' k'. specialize (H acc' k'). by apply Forall_cons in H as [_ H].
Qed.

Lemma depth_ok (stack : list frame) d : (length stack + S d <= maxNestingDepth)%nat -> (length stack <? maxNestingDepth)%nat = true.
Proof. intros. apply Nat.ltb_lt. lia. Qed.

Lemma parse_toks j : forall d stack, json_ok d j = true -> (length stack + d <= maxNestingDepth)%nat -> parses j stack.
Proof.
  induction j as [|b|n|s|l IH|m IH] using json_nested_ind; intros d stack Ok L ts; [done|by destruct b|done|done| |];
    (destruct d as [|d]; [done|]); cbn [json_ok] in Ok; rewrite forallb_forall in Ok; rewrite Forall_forall in IH;
    cbn [toks app parse_tokens parse_step start_value]; rewrite (depth_ok _ d) by done; rewrite <- app_assoc; cbn [app].
  - destruct l as [|x l]; [done|]. assert (forall acc, Forall (fun y => parses y (FArr acc :: stack)) (x :: l)) as H.
    { intros acc. apply Forall_forall. intros y Hy. apply (IH y Hy d); [by apply Ok, list_elem_of_In|cbn [length]; lia]. }
    assert (exists ts', sep_by TComma (map toks (x :: l)) ++ TRBrack :: ts = toks x ++ ts') as [ts' E].
    { destruct l; [by eexists|]. cbn [map]. rewrite sep_by_cons2, <- !app_assoc. by eexists. }
    rewrite E, toks_first, <- E. by apply (parse_elems l x []).
  - destruct m as [|f m]; [done|]. assert (forall acc k, Forall (fun g => parses (snd g) (FObj acc k :: stack)) (f :: m)) as H.
    { intros acc k. apply Forall_forall. intros g Hg. apply (IH g Hg d); [|cbn [length]; lia].
      apply list_elem_of_In, Ok, andb_true_iff in Hg. tauto. }
    change (map (fun g => TStr (fst g) :: TColon :: toks (snd g)) (f :: m)) with (map member_toks (f :: m)).
    change (JObj (f :: m)) with (JObj (rev [] ++ f :: m)). rewrite <- (parse_members m f [] stack ts H). by destruct m.
Qed.

(** Every document with valid text that nests no deeper than the decoder accepts is read
    back by the parser as it was printed. *)
Lemma encode_parse j : json_ok maxNestingDepth j = true -> json_parse (string_of (json_encode j)) = Some j.
Proof.
  intros Ok. unfold json_parse. rewrite ascii_list_of. rewrite <- (app_nil_r (json_encode j)).
  rewrite (lex_encode j maxNestingDepth) by done. cbn [lex lex_flush fmap option_fmap option_map].
  rewrite app_nil_r, app_nil_l, rev_involutive. rewrite <- (app_nil_r (toks j)).
  by rewrite (parse_toks j maxNestingDepth) by done.
Qed.

(** The same with the line feed an encoder writes after a document. *)
Lemma encode_parse_line j : json_ok maxNestingDepth j = true ->
  json_parse (string_of (json_encode j) +:+ String (byte_of 10) "") = Some j.
Proof.
  intros Ok. unfold json_parse.
  rewrite ascii_list_app, ascii_list_of. cbn [ascii_list]. rewrite (lex_encode j maxNestingDepth) by (done || cbn; tauto).
  change (lex LNone [byte_of 10] ?o) with (lex LNone [] o). cbn [lex lex_flush fmap option_fmap option_map].
  rewrite app_nil_r, app_nil_l, rev_involutive. rewrite <- (app_nil_r (toks j)).
  by rewrite (parse_toks j maxNestingDepth) by done.
Qed.

(** * Integers *)

Definition is_digit19 (c : ascii) : bool := is_digit c && negb (byte_val c =? 48).

Lemma pretty_char_digit x : (x < 10)%N -> is_digit (pretty.pretty_N_char x) = true /\
  byte_val (pretty.pretty_N_char x) - 48 = Z.of_N x /\ ((0 < x)%N -> is_digit19 (pretty.pretty_N_char x) = true).
Proof.
  intros H. assert (x = 0 \/ x = 1 \/ x = 2 \/ x = 3 \/ x = 4 \/ x = 5 \/ x = 6 \/ x = 7 \/ x = 8 \/ x = 9)%N as C by lia.
  repeat destruct C as [->|C]; try subst x; split_and!; try reflexivity; lia.
Qed.

(** The digits of a positive number, in front of a text. *)
Lemma pretty_go_digits x : (0 < x)%N -> forall s, exists d ds,
  ascii_list (pretty.pretty_N_go x s) = d :: ds ++ ascii_list s /\ is_digit19 d = true /\ forallb is_digit ds = true /\
  forall l acc, digits_value (d :: ds ++ l) acc = digits_value l (acc * 10 ^ Z.of_nat (S (length ds)) + Z.of_N x).
Proof.
  induction x as [x IH] using (well_founded_induction N.lt_wf_0). intros Hx s.
  rewrite pretty.pretty_N_go_step by done.
  pose proof (N.mod_lt x 10 ltac:(lia)) as Hm. pose proof (N.div_mod x 10 ltac:(lia)) as Hd.
  destruct (pretty_char_digit _ Hm) as (D1 & D2 & D3). set (c := pretty.pretty_N_char (x mod 10)) in *.
  destruct (decide (x / 10 = 0)%N) as [E|E].
  - rewrite E, pretty.pretty_N_go_0. exists c, []. rewrite E in Hd.
    split_and!; [done|apply D3; lia|done|]. intros l acc. cbn [app digits_value length]. rewrite D1, D2. f_equal. lia.
  - destruct (IH (x / 10)%N ltac:(apply N.div_lt; lia) ltac:(lia) (String c s)) as (d & ds & -> & Hd1 & Hds & Hv).
    exists d, (ds ++ [c]). split_and!; [cbn [ascii_list]; by rewrite <- app_assoc|done|by rewrite forallb_app, Hds; cbn; rewrite D1|].
    intros l acc. rewrite <- app_assoc. rewrite Hv. cbn [app digits_value]. rewrite D1, D2, length_app. cbn [length].
    f_equal. replace (Z.of_nat (S (length ds + 1))) with (Z.of_nat (S (length ds)) + 1) by lia.
    rewrite Z.pow_add_r by lia. lia.
Qed.

Lemma Itoa_pos p : exists d ds, ascii_list (Itoa (Zpos p)) = d :: ds /\ is_digit19 d = true /\ forallb is_digit ds = true /\
  digits_value (d :: ds) 0 = Some (Zpos p).
Proof.
  destruct (pretty_go_digits (Npos p) ltac:(lia) "") as (d & ds & E & H1 & H2 & H3). cbn [ascii_list] in E.
  rewrite app_nil_r in E. exists d, ds. split_and!; [exact E|done|done|].
  specialize (H3 [] 0). rewrite app_nil_r in H3. rewrite H3. done.
Qed.

Lemma Itoa_neg p : ascii_list (Itoa (Zneg p)) = byte_of 45 :: ascii_list (Itoa (Zpos p)).
Proof. done. Qed.

(** The characters of a printed integer. *)
Lemma Itoa_chars z c : c ∈ ascii_list (Itoa z) -> is_digit c = true \/ c = byte_of 45.
Proof.
  assert (forall p, c ∈ ascii_list (Itoa (Zpos p)) -> is_digit c = true) as P.
  { intros p. destruct (Itoa_pos p) as (d & ds & -> & H1 & H2 & _). intros I. assert (forallb is_digit (d :: ds) = true) as F.
    { cbn. rewrite H2. unfold is_digit19 in H1. apply andb_true_iff in H1 as [-> _]. done. }
    rewrite forallb_forall in F. apply list_elem_of_In in I. by apply F. }
  destruct z as [|p|p]; [|by left; apply (P p)|rewrite Itoa_neg; intros [->|I]%elem_of_cons; [by right|by left; apply (P p)]].
  intros I. left. change (ascii_list (Itoa 0)) with ["0"%char] in I. by apply list_elem_of_singleton in I as ->.
Qed.

Lemma ParseInt_Itoa z : in_int64 z -> ParseInt (Itoa z) = Some z.
Proof.
  intros Hz%in_range_spec. unfold ParseInt. destruct z as [|p|p]; [reflexivity| |].
  - destruct (Itoa_pos p) as (d & ds & -> & H1 & _ & H3).
    pose proof (all_bytes (fun c => implb (is_digit19 c) (negb (byte_val c =? 45))) ltac:(vm_compute; reflexivity) d) as P.
    cbn beta in P. rewrite H1 in P. apply negb_true_iff in P. rewrite P, H3.
    cbn [mbind option_bind]. by rewrite Hz.
  - rewrite Itoa_neg. destruct (Itoa_pos p) as (d & ds & -> & H1 & _ & H3).
    change (byte_val (byte_of 45) =? 45) with true. cbn iota. rewrite H3. cbn [mbind option_bind].
    change (- Zpos p) with (Zneg p). by rewrite Hz.
Qed.

Lemma drop_digits ds : forallb is_digit ds = true -> drop_while is_digit ds = [].
Proof. induction ds as [|c ds IH]; [done|]. cbn. destruct (is_digit c); [auto|done]. Qed.

Lemma digits_number_bytes ds : forallb is_digit ds = true -> forallb is_number_byte ds = true.
Proof.
  induction ds as [|c ds IH]; [done|]. cbn [forallb]. rewrite !andb_true_iff. intros [H1 H2]. split; [|auto].
  unfold is_number_byte. by rewrite H1.
Qed.

Lemma digits_valid d ds : is_digit19 d = true -> forallb is_digit ds = true -> valid_number (d :: ds) = true.
Proof.
  unfold is_digit19. rewrite andb_true_iff, negb_true_iff. intros [H1 H2] H3. unfold valid_number.
  pose proof (all_bytes (fun c => implb (is_digit c) (negb (byte_val c =? 45))) ltac:(vm_compute; reflexivity) d) as P.
  cbn beta in P. rewrite H1 in P. apply negb_true_iff in P. by rewrite P, H2, H1, drop_digits.
Qed.

Lemma number_ok_Itoa z : number_ok (Itoa z) = true.
Proof.
  unfold number_ok. destruct z as [|p|p]; [reflexivity| |].
  - destruct (Itoa_pos p) as (d & ds & -> & H1 & H2 & _). rewrite digits_valid, digits_number_bytes by done.
    unfold is_digit19 in H1. apply andb_true_iff in H1 as [-> _]. done.
  - rewrite Itoa_neg. destruct (Itoa_pos p) as (d & ds & -> & H1 & H2 & _).
    change (is_digit (byte_of 45) || (byte_val (byte_of 45) =? 45)) with true.
    change (valid_number (byte_of 45 :: d :: ds)) with
      (if byte_val d =? 48 then number_frac ds else is_digit d && number_frac (drop_while is_digit ds)).
    assert (is_digit19 d = true) as H1' by done. unfold is_digit19 in H1'. rewrite andb_true_iff, negb_true_iff in H1'.
    destruct H1' as [D1 D2]. rewrite D2, D1, drop_digits by done. cbn [forallb].
    rewrite digits_number_bytes by done. unfold is_number_byte. by rewrite D1.
Qed.

Lemma json_ok_mono j : forall d e, (d <= e)%nat -> json_ok d j = true -> json_ok e j = true.
Proof.
  induction j as [|b|n|s|l IH|m IH] using json_nested_ind; intros d e L; [done..| |];
    (destruct d as [|d]; [done|]); (destruct e as [|e]; [lia|]); cbn [json_ok]; rewrite !forallb_forall;
    rewrite Forall_forall in IH; intros H x Hx; specialize (H x Hx).
  - apply (IH x) with d; [by apply list_elem_of_In|lia|done].
  - apply andb_true_iff in H as [H1 H2]. rewrite H1. apply (IH x) with d; [by apply list_elem_of_In|lia|done].
Qed.

(** The usual way to use the round trip: a bound on the nesting that computes. *)
Lemma encode_parse_small d j : (d <= maxNestingDepth)%nat -> json_ok d j = true ->
  json_parse (string_of (json_encode j)) = Some j.
Proof. intros L Ok. apply encode_parse. by apply (json_ok_mono j d). Qed.

(** Plain ASCII text is valid. *)
Lemma utf8_valid_ascii l : forallb (fun c => byte_val c <? 128) l = true -> utf8_valid l = true.
Proof.
  induction l as [|c l IH]; [done|]. cbn [forallb]. rewrite andb_true_iff. intros [H Hl]. cbn [utf8_valid].
  assert (utf8_extra c l = Some 0%nat) as -> by (unfold utf8_extra; by rewrite H). auto.
Qed.

Lemma utf8_valid_digits l : forallb is_digit l = true -> utf8_valid l = true.
Proof.
  intros H. apply utf8_valid_ascii. induction l as [|c l IH]; [done|]. cbn [forallb] in *.
  apply andb_true_iff in H as [Hc Hl]. rewrite IH by done.
  pose proof (all_bytes (fun c => implb (is_digit c) (byte_val c <? 128)) ltac:(vm_compute; reflexivity) c) as P.
  cbn beta in P. rewrite Hc in P. cbn [implb] in P. by rewrite P.
Qed.

(** * %q on printable ASCII text *)

Definition printable (l : list ascii) : bool := forallb (fun c => in_range 32 126 (byte_val c)) l.

Lemma quote_ascii_printable c : in_range 32 126 (byte_val c) = true ->
  quote_ascii c = [backslash; c] /\ (c = quote \/ c = backslash) \/ quote_ascii c = [c] /\ plain c = true.
Proof.
  intros H. unfold quote_ascii. destruct ((byte_val c =? 34) || (byte_val c =? 92)) eqn:E.
  - left. split; [done|]. apply orb_true_iff in E as [E|E]; apply Z.eqb_eq in E; rewrite <- (byte_of_val c), E; auto.
  - right. rewrite H. split; [done|]. apply orb_false_iff in E as [E1 E2]. apply Z.eqb_neq in E1, E2.
    apply in_range_spec in H. unfold plain. rewrite !bool_decide_false by (intros ->; vm_compute in E1, E2; done).
    cbn. apply negb_true_iff, Z.ltb_ge. lia.
Qed.

Lemma quote_body_printable IsPrint l : printable l = true ->
  str_unit (quote_body IsPrint l) /\ unquote (quote_body IsPrint l) = Some l /\ printable (quote_body IsPrint l) = true.
Proof.
  induction l as [|c l IH]; [done|]. unfold printable at 1. cbn [forallb]. rewrite andb_true_iff. intros [Hc Hl].
  destruct (IH Hl) as (U & Q & P). cbn [quote_body].
  assert (byte_val c <? 128 = true) as Lc by (apply in_range_spec in Hc; lia).
  assert (utf8_extra c l = Some 0%nat) as -> by (unfold utf8_extra; by rewrite Lc).
  destruct (quote_ascii_printable c Hc) as [[-> Ec]|[-> Hp]].
  - split_and!; [apply str_unit_app; [apply str_unit_escape|done]| |].
    + destruct Ec as [->| ->]; cbn [app]; change (unquote (backslash :: ?c :: ?r)) with (cons c <$> unquote r); by rewrite Q.
    + unfold printable in *. cbn [app forallb]. by rewrite Hc, P.
  - split_and!; [apply str_unit_app; [by apply str_unit_plain|done]| |].
    + cbn [app unquote]. unfold plain in Hp. destruct (bool_decide (c = backslash)); [by rewrite andb_false_r in Hp|].
      assert (utf8_extra c (quote_body IsPrint l) = Some 0%nat) as -> by (unfold utf8_extra; by rewrite Lc). by rewrite Q.
    + unfold printable in *. cbn [app forallb]. by rewrite Hc, P.
Qed.

Lemma lex_quoted IsPrint m r out : printable (ascii_list m) = true ->
  lex LNone (ascii_list (Quote IsPrint m) ++ r) out = lex LNone r (TStr m :: out).
Proof.
  intros Hp. destruct (quote_body_printable IsPrint _ Hp) as (U & Q & _). unfold Quote. rewrite ascii_list_of.
  change (lex (LStr [] false) ((quote_body IsPrint (ascii_list m) ++ [quote]) ++ r) out = lex LNone r (TStr m :: out)).
  rewrite <- app_assoc, U, app_nil_r. cbn [app lex]. rewrite bool_decide_true by done.
  by rewrite rev_involutive, Q, string_of_list.
Qed.

(** * The order of members *)

Lemma ltb_compare s t : String.ltb s t = true <-> String.compare s t = Lt.
Proof. unfold String.ltb. by destruct (String.compare s t). Qed.

Lemma ltb_trans s : forall t u, String.ltb s t = true -> String.ltb t u = true -> String.ltb s u = true.
Proof.
  assert (forall a b, Ascii.compare a b = (N_of_ascii a ?= N_of_ascii b)%N) as C by reflexivity.
  assert (forall t u, String.compare s t = Lt -> String.compare t u = Lt -> String.compare s u = Lt) as T;
    [|intros t u; rewrite !ltb_compare; apply T].
  induction s as [|a s IH]; intros [|b t] [|c u]; cbn; try done. rewrite !C.
  destruct (N.compare_spec (N_of_ascii a) (N_of_ascii b)) as [E1|L1|L1], (N.compare_spec (N_of_ascii b) (N_of_ascii c)) as [E2|L2|L2]; try done.
  - rewrite E1, E2, N.compare_refl. apply IH.
  - by rewrite E1, (proj2 (N.compare_lt_iff _ _) L2).
  - by rewrite <- E2, (proj2 (N.compare_lt_iff _ _) L1).
  - by rewrite (proj2 (N.compare_lt_iff _ _) (N.lt_trans _ _ _ L1 L2)).
Qed.

Lemma ltb_total s t : s <> t -> String.ltb t s = negb (String.ltb s t).
Proof.
  intros Ne. unfold String.ltb. rewrite (String.compare_antisym t s). destruct (String.compare s t) eqn:E; try done.
  by apply String.compare_eq_iff in E.
Qed.
Lemma insert_member_comm f g m : fst f <> fst g -> insert_member f (insert_member g m) = insert_member g (insert_member f m).
Proof.
  intros Ne. induction m as [|h m IH]; cbn.
  - rewrite (ltb_total (fst f) (fst g)) by done. by destruct (String.ltb (fst f) (fst g)) eqn:E; cbn; rewrite ?E.
  - destruct (String.ltb (fst h) (fst g)) eqn:G, (String.ltb (fst h) (fst f)) eqn:F; cbn; rewrite ?G, ?F; [by rewrite IH| | |].
    + destruct (String.ltb (fst f) (fst g)) eqn:E; cbn; [by rewrite ?G|].
      rewrite (ltb_total (fst g) (fst f)) in E by done. apply negb_false_iff in E. by rewrite (ltb_trans _ _ _ G E) in F.
    + destruct (String.ltb (fst g) (fst f)) eqn:E; cbn; [by rewrite ?F|].
      rewrite (ltb_total (fst f) (fst g)) in E by done. apply negb_false_iff in E. by rewrite (ltb_trans _ _ _ F E) in G.
    + rewrite (ltb_total (fst f) (fst g)) by done. destruct (String.ltb (fst f) (fst g)) eqn:E; cbn; rewrite ?E, ?G, ?F; done.
Qed.

Notation sort_members := (foldr insert_member []).

Lemma insert_member_perm f m : insert_member f m ≡ₚ f :: m.
Proof. induction m as [|g m IH]; cbn; [done|]. destruct (String.ltb _ _); [|done]. rewrite IH. by constructor. Qed.
Lemma sort_members_perm m : sort_members m ≡ₚ m.
Proof. induction m as [|f m IH]; cbn; [done|]. by rewrite insert_member_perm, IH. Qed.

(** Members with distinct keys are printed the same in whatever order they were put in. *)
Lemma sort_members_proper m m' : m ≡ₚ m' -> NoDup (map fst m) -> sort_members m = sort_members m'.
Proof.
  induction 1 as [|f m m' P IH|f g m|m m' m'' P1 IH1 P2 IH2]; cbn; intros D; [done| | |].
  - apply NoDup_cons in D as [_ D]. by rewrite IH.
  - apply insert_member_comm. apply NoDup_cons in D as [D _]. intros E. apply D. rewrite E. left.
  - rewrite IH1 by done. apply IH2. by rewrite <- P1.
Qed.

Lemma sort_keys_obj m : sort_keys (JObj m) = JObj (sort_members (map (fun f => (fst f, sort_keys (snd f))) m)).
Proof. done. Qed.

(** Objects without two members of one name. *)
Fixpoint distinct_keys (j : json) : bool :=
  match j with
  | JArr l => forallb distinct_keys l
  | JObj m => bool_decide (NoDup (map fst m)) && forallb (fun f => distinct_keys (snd f)) m
  | _ => true
  end.

Lemma forallb_perm {A} (p : A -> bool) l k : l ≡ₚ k -> forallb p l = forallb p k.
Proof. induction 1; cbn; [done|by f_equal| |by etrans]. by rewrite !andb_assoc, (andb_comm (p x)). Qed.

Lemma forallb_map_compose {A B} (f : A -> B) (p : B -> bool) l : forallb p (map f l) = forallb (fun x => p (f x)) l.
Proof. induction l as [|x l IH]; cbn; [done|]. by rewrite IH. Qed.

Lemma map_sort_fst m : map fst (map (fun f : string * json => (fst f, sort_keys (snd f))) m) = map fst m.
Proof. by rewrite map_map. Qed.

Lemma distinct_sort j : distinct_keys j = true -> distinct_keys (sort_keys j) = true.
Proof.
  induction j as [| | | |l IH|m IH] using json_nested_ind; intros D; try done.
  - cbn in *. apply forallb_forall. intros x Hx. apply in_map_iff in Hx as (y & <- & Hy). rewrite Forall_forall in IH.
    apply IH; [by apply list_elem_of_In|]. rewrite forallb_forall in D. by apply D.
  - rewrite sort_keys_obj. cbn in D |- *. apply andb_true_iff in D as [D1 D2]. apply bool_decide_eq_true in D1. apply andb_true_iff. split.
    + apply bool_decide_eq_true. by rewrite sort_members_perm, map_sort_fst.
    + rewrite (forallb_perm _ _ _ (sort_members_perm _)), forallb_map_compose. apply forallb_forall. intros f Hf. rewrite Forall_forall in IH.
      apply IH; [by apply list_elem_of_In|]. rewrite forallb_forall in D2. by apply D2.
Qed.

Lemma sort_keys_idem j : distinct_keys j = true -> sort_keys (sort_keys j) = sort_keys j.
Proof.
  induction j as [| | | |l IH|m IH] using json_nested_ind; intros D; try done.
  - cbn in *. f_equal. rewrite map_map. apply map_ext_in. intros x Hx. rewrite Forall_forall in IH.
    apply IH; [by apply list_elem_of_In|]. rewrite forallb_forall in D. by apply D.
  - rewrite !sort_keys_obj. cbn in D. apply andb_true_iff in D as [D1 D2]. apply bool_decide_eq_true in D1. f_equal.
    transitivity (sort_members (map (fun f : string * json => (fst f, sort_keys (snd f))) (map (fun f => (fst f, sort_keys (snd f))) m))).
    + apply sort_members_proper; [by rewrite sort_members_perm|]. by rewrite map_sort_fst, sort_members_perm, map_sort_fst.
    + f_equal. rewrite map_map. apply map_ext_in. intros f Hf. cbn. f_equal. rewrite Forall_forall in IH.
      apply IH; [by apply list_elem_of_In|]. rewrite forallb_forall in D2. by apply D2.
Qed.
