(* ===== verification/Matcher.v ===== *)
(** pkg/matcher: wildcard patterns, tag conditions and the matcher registry.
    [RequestContext] is the interface a request offers to the matchers; the
    gateway context implements it in Context.v. *)

From S2P Require Import Prelude GoStrings.

(** * matcher.go *)

(** The read-only request view ([RequestContext] interface). *)
Class RequestContext (C : Type) := {
  GetHeader : C -> string -> list string;
  GetQuery : C -> string -> list string;
  GetCookie : C -> string -> string;
  GetSystemValue : C -> string -> string;
  GetTagValue : C -> string -> string
}.

Definition IsWildcard (pattern : string) : bool :=
  is_empty pattern || seqb pattern "*" || Contains pattern "*".

Definition MatchWildcard (pattern val : string) : bool :=
  if is_empty pattern || seqb pattern "*" then true
  else if Contains pattern "*" then
    if HasSuffix pattern "*" then
      HasPrefix val (string_take (String.length pattern - 1) pattern)
    else if HasPrefix pattern "*" then HasSuffix val (string_drop 1 pattern)
    else seqb pattern val
  else seqb pattern val.

(** * condition.go *)

Record TagCondition := mkTagCondition {
  tc_Type : string;
  tc_OpType : string;
  tc_Key : string;
  tc_Values : list string
}.

(** The nested loop shared by the three branches of [MatchValues]. *)
Definition any_value_matches (values actual : list string) : bool :=
  existsb (fun a => existsb (fun v => MatchWildcard v a) values) actual.

Definition MatchValues (c : TagCondition) (actual : list string) : bool :=
  match actual with
  | [] => seqb (tc_OpType c) "NOT_EQUAL" || seqb (tc_OpType c) "NOT_IN"
  | _ =>
      if seqb (tc_OpType c) "EQUAL" || seqb (tc_OpType c) "IN" then
        any_value_matches (tc_Values c) actual
      else if seqb (tc_OpType c) "NOT_EQUAL" || seqb (tc_OpType c) "NOT_IN" then
        negb (any_value_matches (tc_Values c) actual)
      else any_value_matches (tc_Values c) actual
  end.

(** * The registered matchers *)

Inductive TagMatcher :=
| HeaderTagMatcher
| QueryTagMatcher
| CookieTagMatcher
| SystemTagMatcher
| TagValueMatcher.

(** [DefaultTagMatcherFactory] after the [init] functions of the package. *)
Definition Register (t : string) (m : TagMatcher) (f : gmap string TagMatcher) :
  gmap string TagMatcher := <[t := m]> f.

Definition DefaultTagMatcherFactory : gmap string TagMatcher :=
  Register "tag" TagValueMatcher
    (Register "system" SystemTagMatcher
       (Register "query" QueryTagMatcher
          (Register "header" HeaderTagMatcher
             (Register "cookie" CookieTagMatcher ∅)))).

Definition Get (t : string) : option TagMatcher := DefaultTagMatcherFactory !! t.

Section matchers.
Context {C : Type} `{RequestContext C}.

(** Single-valued sources: the empty string is a missing value. *)
Definition match_single (cond : TagCondition) (val : string) : bool :=
  if is_empty val then MatchValues cond [] else MatchValues cond [val].

(** [m.Match(ctx, cond, reqCtx)]; a nil request never matches. *)
Definition Match (m : TagMatcher) (cond : TagCondition) (reqCtx : option C) : bool :=
  match reqCtx with
  | None => false
  | Some r =>
      match m with
      | HeaderTagMatcher => MatchValues cond (GetHeader r (tc_Key cond))
      | QueryTagMatcher => MatchValues cond (GetQuery r (tc_Key cond))
      | CookieTagMatcher => match_single cond (GetCookie r (tc_Key cond))
      | SystemTagMatcher => match_single cond (GetSystemValue r (tc_Key cond))
      | TagValueMatcher => match_single cond (GetTagValue r (tc_Key cond))
      end
  end.

(** [m != nil && m.Match(ctx, cond, gctx)] with [m] looked up by the
    lower-cased condition type: the test every policy evaluator performs. *)
Definition cond_matches (r : C) (cond : TagCondition) : bool :=
  match Get (ToLower (tc_Type cond)) with
  | None => false
  | Some m => Match m cond (Some r)
  end.
End matchers.

(** * Evaluation of condition lists under a relation

    The loop with early returns that [TagRouter.matchConditions],
    [TagRouter.matchEndpointMetadata] and [TaggingEngine.matchConditions]
    share: the first deciding condition ends it. *)
Section relation.
Context {A : Type} (matched : A -> bool).

Fixpoint match_loop (isAnd : bool) (conds : list A) : bool :=
  match conds with
  | [] => isAnd
  | c :: r =>
      if isAnd && negb (matched c) then false
      else if negb isAnd && matched c then true
      else match_loop isAnd r
  end.

Lemma match_loop_forallb conds : match_loop true conds = forallb matched conds.
Proof. induction conds as [|c r IH]; cbn; [done|]. by destruct (matched c). Qed.

Lemma match_loop_existsb conds : match_loop false conds = existsb matched conds.
Proof. induction conds as [|c r IH]; cbn; [done|]. by destruct (matched c). Qed.
End relation.

(** * Theorems *)

Lemma any_value_matches_spec values actual :
  any_value_matches values actual = true <->
  exists a v, a ∈ actual /\ v ∈ values /\ MatchWildcard v a = true.
Proof.
  unfold any_value_matches. rewrite existsb_exists. split.
  - intros (a & Ha & Hv). apply existsb_exists in Hv as (v & Hv & Hm).
    exists a, v. by rewrite !list_elem_of_In.
  - intros (a & v & Ha & Hv & Hm). exists a. rewrite <- list_elem_of_In. split; [done|].
    apply existsb_exists. exists v. by rewrite <- list_elem_of_In.
Qed.

Lemma string_take_init (p : string) (c : Ascii.ascii) :
  string_take (String.length (p +:+ String c "") - 1) (p +:+ String c "") = p.
Proof.
  rewrite length_append. cbn. replace (_ + 1 - 1)%nat with (String.length p) by lia.
  induction p as [|d p IH]; [done|]. unfold String.app in *. cbn. by rewrite IH.
Qed.

(** What a pattern with a star at one end accepts. *)
Lemma MatchWildcard_trailing p val : p <> "" ->
  MatchWildcard (p +:+ "*") val = true <-> exists r, val = p +:+ r.
Proof.
  intros Hp. unfold MatchWildcard.
  destruct (is_empty _ || seqb _ _) eqn:E.
  - apply orb_true_iff in E. destruct p as [|c p]; [done|].
    destruct E as [E|E]; sbool; sapp. destruct p; sapp.
  - replace (Contains _ _) with true
      by (symmetry; apply Contains_spec; exists p, ""; by rewrite append_nil_r).
    replace (HasSuffix _ _) with true by (symmetry; apply HasSuffix_spec; eauto).
    rewrite string_take_init. apply HasPrefix_spec.
Qed.

Lemma MatchWildcard_leading q val :
  q <> "" -> HasSuffix q "*" = false ->
  MatchWildcard ("*" +:+ q) val = true <-> exists r, val = r +:+ q.
Proof.
  intros Hq Hs. unfold MatchWildcard.
  replace (is_empty _ || seqb _ _) with false.
  2:{ symmetry. apply orb_false_iff. split; apply seqb_neq; intros E; sapp. }
  replace (Contains _ _) with true
    by (symmetry; apply Contains_spec; by exists "", q).
  replace (HasSuffix ("*" +:+ q) "*") with false.
  2:{ symmetry. destruct (HasSuffix ("*" +:+ q) "*") eqn:E; [|done].
      apply HasSuffix_spec in E as [r E]. destruct r as [|c r]; sapp.
      by destruct (HasSuffix_not _ _ r Hs). }
  replace (HasPrefix ("*" +:+ q) "*") with true by (symmetry; apply HasPrefix_spec; eauto).
  cbn -[HasSuffix]. change (string_drop 1 _) with q. apply HasSuffix_spec.
Qed.

Lemma MatchWildcard_exact pattern val :
  pattern <> "" -> HasPrefix pattern "*" = false -> HasSuffix pattern "*" = false ->
  MatchWildcard pattern val = true <-> pattern = val.
Proof.
  intros Hp H1 H2. unfold MatchWildcard. rewrite H1, H2.
  replace (is_empty pattern || seqb pattern "*") with false.
  - destruct (Contains pattern "*"); apply seqb_eq.
  - symmetry. apply orb_false_iff. split; apply seqb_neq; [done|]. by intros ->.
Qed.

(** [MatchWildcard] is an exact characterisation of the pattern language: the
    empty pattern and a lone star accept everything, a trailing star means
    prefix match (a star elsewhere is then literal), a leading star without a
    trailing one means suffix match, and every other pattern, a star in the
    middle included, is compared literally. *)
Theorem MatchWildcard_spec pattern val :
  MatchWildcard pattern val = true <->
  pattern = "" \/
  (exists p r, pattern = p +:+ "*" /\ val = p +:+ r) \/
  (exists q r, pattern = "*" +:+ q /\ HasSuffix q "*" = false /\ q <> "" /\ val = r +:+ q) \/
  (HasPrefix pattern "*" = false /\ HasSuffix pattern "*" = false /\ pattern = val).
Proof.
  destruct (decide (pattern = "")) as [->|Hne]; [split; [by left|done]|].
  destruct (HasSuffix pattern "*") eqn:Hs.
  - apply HasSuffix_spec in Hs as [p ->]. destruct (decide (p = "")) as [->|Hp].
    + split; [|done]. intros _. right; left. by exists "", val.
    + rewrite MatchWildcard_trailing by done. split.
      * intros [r ->]. right; left. eauto.
      * intros [?|[(p' & r & E & ->)|[(q & r & E & Hq & Hn & ->)|(_ & H & _)]]]; [done|..|done].
        -- exists r. f_equal. apply (f_equal (fun s => string_take (String.length s - 1) s)) in E.
           by rewrite !string_take_init in E.
        -- destruct p as [|c p]; sapp. by destruct (HasSuffix_not _ _ p Hq).
  - destruct (HasPrefix pattern "*") eqn:Hp.
    + apply HasPrefix_spec in Hp as [q ->].
      assert (q <> "") as Hq by by intros ->.
      assert (HasSuffix q "*" = false) as Hqs.
      { destruct (HasSuffix q "*") eqn:E; [|done]. apply HasSuffix_spec in E as [r ->].
        by destruct (HasSuffix_not _ _ ("*" +:+ r) Hs). }
      rewrite MatchWildcard_leading by done. split.
      * intros [r ->]. right; right; left. eauto 6.
      * intros [?|[(p & r & E & _)|[(q' & r & E & _ & _ & ->)|(H & _)]]]; [done|..|done].
        -- by destruct (HasSuffix_not _ _ p Hs).
        -- sapp. eauto.
    + rewrite MatchWildcard_exact by done. split; [by right; right; right|].
      intros [?|[(p & r & -> & _)|[(q & r & -> & _)|(_ & _ & ->)]]]; [done|..|done].
      * by destruct (HasSuffix_not _ _ p Hs).
      * done.
Qed.

(** Negated operators are the exact complement of the positive ones on a
    present value list, and on a missing value the negated operators hold while
    every other operator (unknown ones included) fails. *)
Theorem MatchValues_negation k vs actual op nop ty :
  op = "EQUAL" \/ op = "IN" -> nop = "NOT_EQUAL" \/ nop = "NOT_IN" ->
  MatchValues (mkTagCondition ty nop k vs) actual =
  negb (MatchValues (mkTagCondition ty op k vs) actual).
Proof. intros [-> | ->] [-> | ->]; destruct actual; done. Qed.

Lemma MatchValues_negation_witness :
  MatchValues (mkTagCondition "header" "NOT_IN" "X-Env" ["prod-*"; "canary"]) ["prod-eu"] =
  negb (MatchValues (mkTagCondition "header" "EQUAL" "X-Env" ["prod-*"; "canary"]) ["prod-eu"]).
Proof. apply MatchValues_negation; auto. Defined.

(** A positive operator holds exactly when some present value matches some
    configured pattern. *)
Lemma MatchValues_positive k vs actual op ty :
  op = "EQUAL" \/ op = "IN" ->
  MatchValues (mkTagCondition ty op k vs) actual = true <->
  exists a v, a ∈ actual /\ v ∈ vs /\ MatchWildcard v a = true.
Proof.
  intros Hop. destruct actual as [|a actual].
  - destruct Hop as [-> | ->]; (split; [done|]); intros (? & ? & H & _); inversion H.
  - rewrite <- any_value_matches_spec. by destruct Hop as [-> | ->].
Qed.
