(* ===== verification/Policy.v ===== *)
(** pkg/policy: the policy data model.  The merge is in PolicyMerge, the error-matching
    rules in ErrorPolicy. *)

From S2P Require Import Prelude GoFloat GoStrings Matcher.

(** * Data *)

(** A dynamically typed value of a policy parameter ([interface{}]). *)
Inductive gvalue :=
| VNil
| VBool (b : bool)
| VString (s : string)
| VFloat64 (f : float64)
| VFloat32 (f : float64)
| VInt (z : Z)
| VInt64 (z : Z)
| VOther.

Record LoadBalancePolicy := mkLoadBalancePolicy {
  lbp_ID : string;
  lbp_Name : string;
  lbp_Type : string;
  lbp_Version : Z;
  lbp_Params : option (gmap string gvalue)
}.

Record CaseInsensitiveSet := mkCaseInsensitiveSet { cis_data : option (gset string) }.

Record ErrorParserPolicy := mkErrorParserPolicy {
  epp_Parser : string;
  epp_Expression : string;
  epp_Statuses : list string;
  epp_ContentTypes : option CaseInsensitiveSet
}.

Record RetryPolicy := mkRetryPolicy {
  rp_Retry : Z;
  rp_BackoffType : string;
  rp_BaseMs : Z;
  rp_ErrorCodes : list string;
  rp_ErrorMessages : list string;
  rp_CodePolicy : option ErrorParserPolicy;
  rp_MessagePolicy : option ErrorParserPolicy;
  rp_ConnectTimeout : Z;
  rp_TtftTimeout : Z;
  rp_TotalTimeout : Z;
  rp_IdleTimeout : Z;
  rp_ExcludeFailedEndpoint : option bool;
  rp_Version : Z
}.

Record FallbackPolicy := mkFallbackPolicy { fp_Targets : list string }.

Record InvocationPolicy := mkInvocationPolicy {
  ip_ID : string;
  ip_Name : string;
  ip_Type : string;
  ip_RetryPolicy : option RetryPolicy;
  ip_FallbackPolicy : option FallbackPolicy
}.

Record EstimatorConfig := mkEstimatorConfig { ec_Type : string; ec_Ratio : float64 }.

Record SlidingWindow := mkSlidingWindow {
  sw_Threshold : Z;
  sw_TimeWindowInMs : Z;
  sw_BurstRatio : option float64
}.

Record LimitPolicy := mkLimitPolicy {
  lp_ID : string;
  lp_Name : string;
  lp_Version : Z;
  lp_Type : string;
  lp_SlidingWindows : list SlidingWindow;
  lp_MaxWaitMs : Z;
  lp_RelationType : string;
  lp_Conditions : list TagCondition;
  lp_Estimator : option EstimatorConfig;
  lp_LimitBy : list string
}.

Record Destination := mkDestination {
  d_Weight : Z;
  d_RelationType : string;
  d_Conditions : list TagCondition
}.

Record TagRule := mkTagRule {
  tr_Order : Z;
  tr_RelationType : string;
  tr_Conditions : list TagCondition;
  tr_Destinations : list Destination
}.

Record RoutePolicy := mkRoutePolicy {
  rt_ID : string;
  rt_Name : string;
  rt_Version : Z;
  rt_Order : Z;
  rt_TagRules : list TagRule
}.

Record DegradeConfig := mkDegradeConfig {
  dc_ResponseCode : Z;
  dc_Attributes : gmap string string;
  dc_ResponseBody : string
}.

Record CircuitBreakPolicy := mkCircuitBreakPolicy {
  cb_ID : string;
  cb_Name : string;
  cb_Level : string;
  cb_SlidingWindowType : string;
  cb_SlidingWindowSize : Z;
  cb_MinCallsThreshold : Z;
  cb_CodePolicy : option ErrorParserPolicy;
  cb_ErrorCodes : list string;
  cb_ErrorMessages : list string;
  cb_MessagePolicy : option ErrorParserPolicy;
  cb_FailureRateThreshold : float64;
  cb_SlowCallRateThreshold : float64;
  cb_SlowCallDurationThreshold : Z;
  cb_WaitDurationInOpenState : Z;
  cb_AllowedCallsInHalfOpenState : Z;
  cb_ForceOpen : Z;
  cb_OutlierMaxPercent : Z;
  cb_DegradeConfig : option DegradeConfig;
  cb_Version : Z;
  cb_SlowCallMetric : string
}.

#[global] Instance eta_CircuitBreakPolicy : Eta CircuitBreakPolicy := fun p =>
  mkCircuitBreakPolicy (cb_ID p) (cb_Name p) (cb_Level p) (cb_SlidingWindowType p)
    (cb_SlidingWindowSize p) (cb_MinCallsThreshold p) (cb_CodePolicy p) (cb_ErrorCodes p)
    (cb_ErrorMessages p) (cb_MessagePolicy p) (cb_FailureRateThreshold p)
    (cb_SlowCallRateThreshold p) (cb_SlowCallDurationThreshold p) (cb_WaitDurationInOpenState p)
    (cb_AllowedCallsInHalfOpenState p) (cb_ForceOpen p) (cb_OutlierMaxPercent p)
    (cb_DegradeConfig p) (cb_Version p) (cb_SlowCallMetric p).

Record TaggingAction := mkTaggingAction { ta_Type : string; ta_Key : string; ta_Value : string }.

Record TaggingPolicy := mkTaggingPolicy {
  tp_ID : string;
  tp_Name : string;
  tp_Version : Z;
  tp_Order : Z;
  tp_Relation : string;
  tp_Conditions : list TagCondition;
  tp_Actions : list TaggingAction
}.

Record BillingPolicy := mkBillingPolicy {
  b_InputPrice : float64;
  b_OutputPrice : float64;
  b_CachedPrice : float64;
  b_CacheCreationPrice : float64
}.

(** Lists of pointers keep [None] for a nil element. *)
Record Policy := mkPolicy {
  p_LoadBalancePolicy : option LoadBalancePolicy;
  p_InvocationPolicy : option InvocationPolicy;
  p_LimitPolicies : list (option LimitPolicy);
  p_RoutePolicies : list (option RoutePolicy);
  p_CircuitBreakPolicies : list (option CircuitBreakPolicy);
  p_TaggingPolicies : list (option TaggingPolicy);
  p_Permissions : option (list string);
  p_Billing : option BillingPolicy;
  p_EnableMetricsReporting : bool
}.

#[global] Instance eta_Policy : Eta Policy := fun p =>
  mkPolicy (p_LoadBalancePolicy p) (p_InvocationPolicy p) (p_LimitPolicies p) (p_RoutePolicies p)
    (p_CircuitBreakPolicies p) (p_TaggingPolicies p) (p_Permissions p) (p_Billing p)
    (p_EnableMetricsReporting p).

Definition emptyPolicy : Policy := mkPolicy None None [] [] [] [] None None false.
