(* ===== verification/PolicyMerge.v ===== *)
(** pkg/policy/policy.go: merging of policies from low to high priority.
    [merge_spec] is the reference definition of the name-based list merge;
    [merge_named] is the map-based loop of the code. *)

From S2P Require Import Prelude GoFloat GoStrings Matcher Policy.

(** [if len(source) > 0 { source } else { target }]. *)
Definition nonempty_or {A} (source target : list A) : list A :=
  match source with [] => target | _ => source end.
Definition nonempty_str (source target : string) : string :=
  if is_empty source then target else source.
Definition positive_or (source target : Z) : Z := if 0 <? source then source else target.
Definition some_or {A} (source target : option A) : option A :=
  match source with Some _ => source | None => target end.

(** * Field-level merges *)

Definition mergeLimitPolicy (target source : option LimitPolicy) : option LimitPolicy :=
  match target, source with
  | None, _ => source
  | _, None => target
  | Some t, Some s =>
      Some {| lp_ID := nonempty_str (lp_ID s) (lp_ID t);
              lp_Name := lp_Name t;
              lp_Version := positive_or (lp_Version s) (lp_Version t);
              lp_Type := nonempty_str (lp_Type s) (lp_Type t);
              lp_SlidingWindows := nonempty_or (lp_SlidingWindows s) (lp_SlidingWindows t);
              lp_MaxWaitMs := positive_or (lp_MaxWaitMs s) (lp_MaxWaitMs t);
              lp_RelationType := nonempty_str (lp_RelationType s) (lp_RelationType t);
              lp_Conditions := nonempty_or (lp_Conditions s) (lp_Conditions t);
              lp_Estimator := None;
              lp_LimitBy := nonempty_or (lp_LimitBy s) (lp_LimitBy t) |}
  end.

Definition mergeRoutePolicy (target source : option RoutePolicy) : option RoutePolicy :=
  match target, source with
  | None, _ => source
  | _, None => target
  | Some t, Some s =>
      Some {| rt_ID := nonempty_str (rt_ID s) (rt_ID t);
              rt_Name := rt_Name t;
              rt_Version := positive_or (rt_Version s) (rt_Version t);
              rt_Order := positive_or (rt_Order s) (rt_Order t);
              rt_TagRules := nonempty_or (rt_TagRules s) (rt_TagRules t) |}
  end.

(** [res := *target] and then field by field; [ErrorMessages], [MessagePolicy]
    and [SlowCallMetric] keep the target's value. *)
Definition mergeCircuitBreakPolicy (target source : option CircuitBreakPolicy) :
  option CircuitBreakPolicy :=
  match target, source with
  | None, _ => source
  | _, None => target
  | Some t, Some s =>
      Some (t <| cb_ID := nonempty_str (cb_ID s) (cb_ID t) |>
              <| cb_Level := nonempty_str (cb_Level s) (cb_Level t) |>
              <| cb_SlidingWindowType := nonempty_str (cb_SlidingWindowType s) (cb_SlidingWindowType t) |>
              <| cb_SlidingWindowSize := positive_or (cb_SlidingWindowSize s) (cb_SlidingWindowSize t) |>
              <| cb_MinCallsThreshold := positive_or (cb_MinCallsThreshold s) (cb_MinCallsThreshold t) |>
              <| cb_CodePolicy := some_or (cb_CodePolicy s) (cb_CodePolicy t) |>
              <| cb_ErrorCodes := nonempty_or (cb_ErrorCodes s) (cb_ErrorCodes t) |>
              <| cb_FailureRateThreshold :=
                   if flt fzero (cb_FailureRateThreshold s) then cb_FailureRateThreshold s
                   else cb_FailureRateThreshold t |>
              <| cb_SlowCallRateThreshold :=
                   if flt fzero (cb_SlowCallRateThreshold s) then cb_SlowCallRateThreshold s
                   else cb_SlowCallRateThreshold t |>
              <| cb_SlowCallDurationThreshold :=
                   positive_or (cb_SlowCallDurationThreshold s) (cb_SlowCallDurationThreshold t) |>
              <| cb_WaitDurationInOpenState :=
                   positive_or (cb_WaitDurationInOpenState s) (cb_WaitDurationInOpenState t) |>
              <| cb_AllowedCallsInHalfOpenState :=
                   positive_or (cb_AllowedCallsInHalfOpenState s) (cb_AllowedCallsInHalfOpenState t) |>
              <| cb_ForceOpen := if cb_ForceOpen s =? 0 then cb_ForceOpen t else cb_ForceOpen s |>
              <| cb_OutlierMaxPercent := positive_or (cb_OutlierMaxPercent s) (cb_OutlierMaxPercent t) |>
              <| cb_DegradeConfig := some_or (cb_DegradeConfig s) (cb_DegradeConfig t) |>
              <| cb_Version := positive_or (cb_Version s) (cb_Version t) |>)
  end.

Definition mergeTaggingPolicy (target source : option TaggingPolicy) : option TaggingPolicy :=
  match target, source with
  | None, _ => source
  | _, None => target
  | Some t, Some s =>
      Some {| tp_ID := nonempty_str (tp_ID s) (tp_ID t);
              tp_Name := tp_Name t;
              tp_Version := positive_or (tp_Version s) (tp_Version t);
              tp_Order := positive_or (tp_Order s) (tp_Order t);
              tp_Relation := nonempty_str (tp_Relation s) (tp_Relation t);
              tp_Conditions := nonempty_or (tp_Conditions s) (tp_Conditions t);
              tp_Actions := nonempty_or (tp_Actions s) (tp_Actions t) |}
  end.

(** * Name-based list merge *)

Section named.
Context {A : Type} (name : A -> string) (merge : option A -> option A -> option A).

(** [for _, item := range items { m[item.Name] = item }]. *)
Definition index_named (items : list A) (m : gmap string (option A)) : gmap string (option A) :=
  fold_left (fun m x => <[name x := Some x]> m) items m.

(** The second loop: merge into an existing entry or add a new one. *)
Definition merge_step (m : gmap string (option A)) (x : A) : gmap string (option A) :=
  match m !! name x with
  | Some old => <[name x := merge old (Some x)]> m
  | None => <[name x := Some x]> m
  end.

(** Indexing a Go map of pointers: a missing key yields nil. *)
Definition map_ptr (m : gmap string (option A)) (k : string) : option A := default None (m !! k).

Definition merge_named (old new : list A) : list (option A) :=
  let m := fold_left merge_step new (index_named old ∅) in
  let seen := list_to_set (C := gset string) (name <$> old) in
  ((fun x => map_ptr m (name x)) <$> old) ++
  ((fun x => map_ptr m (name x)) <$> filter (fun x => name x ∉ seen) new).

(** Ranging over a list that holds a nil pointer panics at [item.Name]. *)
Definition merge_pointers (old new : list (option A)) : go (list (option A)) :=
  match new with
  | [] => Ret old
  | _ => match mapM id old, mapM id new with
         | Some o, Some n => Ret (merge_named o n)
         | _, _ => Panic
         end
  end.
End named.

(** * MergePolicies *)

Definition go_bind {A B} (x : go A) (f : A -> go B) : go B :=
  match x with Ret a => f a | Panic => Panic end.

(** The loop body for one non-nil policy. *)
Definition merge_policy (result p : Policy) : go Policy :=
  go_bind (merge_pointers lp_Name mergeLimitPolicy (p_LimitPolicies result) (p_LimitPolicies p)) (fun limits =>
  go_bind (merge_pointers rt_Name mergeRoutePolicy (p_RoutePolicies result) (p_RoutePolicies p)) (fun routes =>
  go_bind (merge_pointers cb_Name mergeCircuitBreakPolicy (p_CircuitBreakPolicies result) (p_CircuitBreakPolicies p)) (fun cbs =>
  go_bind (merge_pointers tp_Name mergeTaggingPolicy (p_TaggingPolicies result) (p_TaggingPolicies p)) (fun tags =>
  Ret {| p_LoadBalancePolicy := some_or (p_LoadBalancePolicy p) (p_LoadBalancePolicy result);
         p_InvocationPolicy := some_or (p_InvocationPolicy p) (p_InvocationPolicy result);
         p_LimitPolicies := limits;
         p_RoutePolicies := routes;
         p_CircuitBreakPolicies := cbs;
         p_TaggingPolicies := tags;
         p_Permissions := some_or (p_Permissions p) (p_Permissions result);
         p_Billing := some_or (p_Billing p) (p_Billing result);
         p_EnableMetricsReporting := p_EnableMetricsReporting p || p_EnableMetricsReporting result |})))).

Definition merge_opt (acc : go Policy) (p : option Policy) : go Policy :=
  match p with None => acc | Some p => go_bind acc (fun r => merge_policy r p) end.

Definition MergePolicies (policies : list (option Policy)) : go Policy :=
  fold_left merge_opt policies (Ret emptyPolicy).

(** [PolicyMatcher.Match]: the error value when no policy is given. *)
Definition PolicyMatcher_Match (policies : list (option Policy)) : go (option Policy) :=
  let valid := filter (fun p => is_Some p) policies in
  match valid with
  | [] => Ret None
  | _ => go_bind (MergePolicies valid) (fun r => Ret (Some r))
  end.

(** * Theorems *)

Section named_facts.
Context {A : Type} (name : A -> string) (merge : option A -> option A -> option A).

Definition find_named (k : string) (l : list A) : option A := List.find (fun x => seqb (name x) k) l.

(** Reference definition: an old item is replaced by its merge with the new
    item of that name, if there is one; new names are appended in order. *)
Definition merge_spec (old new : list A) : list (option A) :=
  ((fun o => match find_named (name o) new with
             | Some n => merge (Some o) (Some n)
             | None => Some o
             end) <$> old) ++
  (Some <$> filter (fun x => name x ∉ name <$> old) new).

Arguments find_named : simpl never.

Lemma find_named_cons k x l :
  find_named k (x :: l) = if seqb (name x) k then Some x else find_named k l.
Proof. done. Qed.

Lemma find_named_None k l : k ∉ name <$> l -> find_named k l = None.
Proof.
  induction l as [|x l IH]; cbn; [done|]. rewrite not_elem_of_cons. intros [Hk Hl].
  rewrite find_named_cons. destruct (seqb (name x) k) eqn:E; sbool; [by subst|auto].
Qed.

Lemma find_named_in x l : NoDup (name <$> l) -> x ∈ l -> find_named (name x) l = Some x.
Proof.
  induction l as [|y l IH]; cbn; [by intros _ ?%elem_of_nil|].
  rewrite NoDup_cons, elem_of_cons, find_named_cons. intros [Hy Hl] [->|Hx].
  - by rewrite seqb_refl.
  - destruct (seqb (name y) (name x)) eqn:E; sbool; [|by auto].
    destruct Hy. rewrite E. by apply list_elem_of_fmap_2.
Qed.

Lemma index_named_lookup k l m :
  NoDup (name <$> l) ->
  index_named name l m !! k = match find_named k l with Some x => Some (Some x) | None => m !! k end.
Proof.
  unfold index_named. revert m. induction l as [|x l IH]; intros m; cbn; [done|].
  rewrite NoDup_cons. intros [Hx Hl]. rewrite IH, find_named_cons by done.
  destruct (seqb (name x) k) eqn:E; sbool.
  - subst. rewrite find_named_None by done. by rewrite lookup_insert_eq.
  - destruct (find_named k l); [done|]. by rewrite lookup_insert_ne.
Qed.

Lemma merge_steps_lookup k l m :
  NoDup (name <$> l) ->
  fold_left (merge_step name merge) l m !! k =
  match find_named k l with
  | Some x => Some (match m !! k with Some o => merge o (Some x) | None => Some x end)
  | None => m !! k
  end.
Proof.
  revert m. induction l as [|x l IH]; intros m; cbn; [done|].
  rewrite NoDup_cons. intros [Hx Hl]. rewrite IH, find_named_cons by done.
  unfold merge_step. destruct (seqb (name x) k) eqn:E; sbool.
  - subst. rewrite find_named_None by done. destruct (m !! name x); by rewrite lookup_insert_eq.
  - destruct (m !! name x); by rewrite lookup_insert_ne.
Qed.

Lemma merge_named_reference old new :
  NoDup (name <$> old) -> NoDup (name <$> new) ->
  merge_named name merge old new = merge_spec old new.
Proof.
  intros Ho Hn. unfold merge_named, merge_spec. f_equal.
  - apply list_fmap_ext. intros i x Hx. apply list_elem_of_lookup_2 in Hx. unfold map_ptr.
    rewrite merge_steps_lookup, index_named_lookup, (find_named_in x old) by done.
    by destruct (find_named (name x) new).
  - rewrite (list_filter_iff _ (fun x => name x ∉ name <$> old)).
    2:{ intros x. by rewrite elem_of_list_to_set. }
    apply list_fmap_ext. intros i x Hx. apply list_elem_of_lookup_2 in Hx.
    apply list_elem_of_filter in Hx as [Hx Hin]. unfold map_ptr.
    rewrite merge_steps_lookup, index_named_lookup, (find_named_in x new) by done.
    by rewrite find_named_None, lookup_empty.
Qed.

(** Without any uniqueness hypothesis: every output pointer is non-nil. *)
Hypothesis merge_some : forall a b, is_Some (merge (Some a) (Some b)).

Definition no_nil (m : gmap string (option A)) : Prop := map_Forall (fun _ v => is_Some v) m.

Lemma merge_steps_no_nil l m : no_nil m -> no_nil (fold_left (merge_step name merge) l m).
Proof.
  revert m. induction l as [|x l IH]; intros m Hm; cbn; [done|]. apply IH.
  unfold merge_step. destruct (m !! name x) as [o|] eqn:E.
  - destruct (Hm _ _ E) as [a ->]. by apply map_Forall_insert_2.
  - by apply map_Forall_insert_2.
Qed.

Lemma index_named_no_nil l m : no_nil m -> no_nil (index_named name l m).
Proof.
  unfold index_named. revert m. induction l as [|x l IH]; intros m Hm; cbn; [done|].
  apply IH. by apply map_Forall_insert_2.
Qed.

Lemma index_named_dom l m x : x ∈ l \/ is_Some (m !! name x) -> is_Some (index_named name l m !! name x).
Proof.
  unfold index_named. revert m. induction l as [|y l IH]; intros m H; cbn.
  - destruct H as [[]%elem_of_nil|]; done.
  - apply IH. rewrite elem_of_cons in H. destruct (decide (name y = name x)) as [E|N].
    + right. rewrite E. by rewrite lookup_insert_eq.
    + rewrite lookup_insert_ne by done. naive_solver.
Qed.

Lemma merge_steps_dom l m x :
  x ∈ l \/ is_Some (m !! name x) -> is_Some (fold_left (merge_step name merge) l m !! name x).
Proof.
  revert m. induction l as [|y l IH]; intros m H; cbn.
  - destruct H as [[]%elem_of_nil|]; done.
  - apply IH. rewrite elem_of_cons in H. unfold merge_step.
    destruct (m !! name y) as [o|] eqn:E; destruct (decide (name y = name x)) as [F|N];
      [right; rewrite F; by rewrite lookup_insert_eq
      |rewrite lookup_insert_ne by done; naive_solver
      |right; rewrite F; by rewrite lookup_insert_eq
      |rewrite lookup_insert_ne by done; naive_solver].
Qed.

Lemma merge_named_no_nil old new : Forall is_Some (merge_named name merge old new).
Proof.
  unfold merge_named.
  set (m := fold_left _ _ _).
  assert (no_nil m) as Hm.
  { apply merge_steps_no_nil, index_named_no_nil, map_Forall_empty. }
  assert (forall x, x ∈ old \/ x ∈ new -> is_Some (map_ptr m (name x))) as Hp.
  { intros x Hx. destruct (merge_steps_dom new (index_named name old ∅) x) as [v Hv].
    - destruct Hx as [Hx|]; [right|by left]. apply index_named_dom. by left.
    - unfold map_ptr. subst m. rewrite Hv. cbn. by eapply Hm. }
  apply Forall_app. split; apply Forall_fmap, Forall_forall; intros x Hx; apply Hp; [by left|].
  right. by apply list_elem_of_filter in Hx as [_ ?].
Qed.

Lemma merge_pointers_total old new :
  Forall is_Some old -> Forall is_Some new ->
  exists r, merge_pointers name merge old new = Ret r /\ Forall is_Some r.
Proof.
  intros Ho Hn. unfold merge_pointers. destruct new as [|y new]; [by eauto|].
  destruct (proj2 (mapM_is_Some id old) Ho) as [o ->].
  destruct (proj2 (mapM_is_Some id (y :: new)) Hn) as [n ->].
  eexists. split; [done|]. apply merge_named_no_nil.
Qed.
End named_facts.

(** With unique names on both sides, the map-based merge loop of
    [MergePolicies] computes the reference merge: old order kept, same-named
    items merged field by field, new names appended in their order. *)
Theorem merge_named_equiv {A} (name : A -> string) merge (old new : list A)
  (Hold : NoDup (name <$> old)) (Hnew : NoDup (name <$> new)) :
  merge_named name merge old new = merge_spec name merge old new.
Proof. by apply merge_named_reference. Qed.

Definition demo_limit (name : string) (wait : Z) : LimitPolicy :=
  mkLimitPolicy "" name 1 "request" [mkSlidingWindow 10 1000 None] wait "" [] None [].

Lemma merge_named_equiv_witness :
  merge_named lp_Name mergeLimitPolicy [demo_limit "a" 1; demo_limit "b" 2] [demo_limit "b" 7; demo_limit "c" 3] =
  merge_spec lp_Name mergeLimitPolicy [demo_limit "a" 1; demo_limit "b" 2] [demo_limit "b" 7; demo_limit "c" 3] /\
  merge_named lp_Name mergeLimitPolicy [demo_limit "a" 1; demo_limit "b" 2] [demo_limit "b" 7; demo_limit "c" 3] =
  [Some (demo_limit "a" 1); Some (demo_limit "b" 7); Some (demo_limit "c" 3)].
Proof.
  split; [|vm_compute; reflexivity].
  apply merge_named_equiv; apply (bool_decide_unpack _); vm_compute; exact I.
Defined.

(** The pointer lists of a policy hold no nil. *)
Definition policy_ok (p : Policy) : Prop :=
  Forall is_Some (p_LimitPolicies p) /\ Forall is_Some (p_RoutePolicies p) /\
  Forall is_Some (p_CircuitBreakPolicies p) /\ Forall is_Some (p_TaggingPolicies p).

Lemma merge_policy_total result p :
  policy_ok result -> policy_ok p -> exists r, merge_policy result p = Ret r /\ policy_ok r.
Proof.
  intros (?&?&?&?) (?&?&?&?). unfold merge_policy.
  destruct (merge_pointers_total lp_Name mergeLimitPolicy) with (old := p_LimitPolicies result) (new := p_LimitPolicies p) as (? & -> & ?); [done..|]. cbn.
  destruct (merge_pointers_total rt_Name mergeRoutePolicy) with (old := p_RoutePolicies result) (new := p_RoutePolicies p) as (? & -> & ?); [done..|]. cbn.
  destruct (merge_pointers_total cb_Name mergeCircuitBreakPolicy) with (old := p_CircuitBreakPolicies result) (new := p_CircuitBreakPolicies p) as (? & -> & ?); [done..|]. cbn.
  destruct (merge_pointers_total tp_Name mergeTaggingPolicy) with (old := p_TaggingPolicies result) (new := p_TaggingPolicies p) as (? & -> & ?); [done..|]. cbn.
  eexists. by split.
Qed.

Lemma merge_policies_total ps acc :
  policy_ok acc -> Forall (fun p => forall q, p = Some q -> policy_ok q) ps ->
  exists r, fold_left merge_opt ps (Ret acc) = Ret r /\ policy_ok r.
Proof.
  intros Hacc H. revert acc Hacc. induction H as [|p ps Hp _ IH]; intros acc Hacc; cbn; [by eauto|].
  destruct p as [p|]; cbn; [|by apply IH].
  destruct (merge_policy_total acc p Hacc (Hp p eq_refl)) as (r & -> & Hr). by apply IH.
Qed.

(** Merging never dereferences a nil pointer, and keeps the lists free of nil,
    whatever nil policies the input contains, provided the lists of the non-nil
    ones hold no nil item. *)
Theorem MergePolicies_total ps
  (Hps : Forall (fun p => forall q, p = Some q -> policy_ok q) ps) :
  exists r, MergePolicies ps = Ret r /\ policy_ok r.
Proof. apply merge_policies_total; [|done]. repeat split; constructor. Qed.

Lemma MergePolicies_total_witness :
  exists r, MergePolicies [None; Some (emptyPolicy <| p_LimitPolicies := [Some (demo_limit "a" 1)] |>)] = Ret r /\ policy_ok r.
Proof.
  apply MergePolicies_total. constructor; [by intros ?|]. constructor; [|constructor].
  intros q E. injection E as <-. repeat split; cbn; repeat constructor.
  by exists (demo_limit "a" 1).
Defined.

(** The pointer-valued fields that a higher priority policy overrides. *)
Inductive scalar := FLoadBalance | FInvocation | FPermissions | FBilling.

Definition scalar_type (s : scalar) : Type :=
  match s with
  | FLoadBalance => LoadBalancePolicy
  | FInvocation => InvocationPolicy
  | FPermissions => list string
  | FBilling => BillingPolicy
  end.

Definition scalar_get (s : scalar) : Policy -> option (scalar_type s) :=
  match s with
  | FLoadBalance => p_LoadBalancePolicy
  | FInvocation => p_InvocationPolicy
  | FPermissions => p_Permissions
  | FBilling => p_Billing
  end.

Lemma merge_policy_scalar s a b r :
  merge_policy a b = Ret r -> scalar_get s r = some_or (scalar_get s b) (scalar_get s a).
Proof.
  unfold merge_policy, go_bind. intros H. repeat split_match; try done. simplify_eq. by destruct s.
Qed.

Lemma merge_opt_panic ps : fold_left merge_opt ps Panic = Panic.
Proof. induction ps as [|[p|] ps IH]; cbn; done. Qed.

Lemma merge_policies_keep s ps acc r :
  fold_left merge_opt ps (Ret acc) = Ret r ->
  (forall q, Some q ∈ ps -> scalar_get s q = None) ->
  scalar_get s r = scalar_get s acc.
Proof.
  revert acc. induction ps as [|[p|] ps IH]; intros acc H Hq; cbn in *; [by simplify_eq|..].
  - destruct (merge_policy acc p) as [a|] eqn:E; [|by rewrite merge_opt_panic in H].
    rewrite (IH a) by (try done; intros; apply Hq; by right).
    rewrite (merge_policy_scalar _ _ _ _ E), (Hq p) by (by left). done.
  - apply IH; [done|]. intros; apply Hq; by right.
Qed.

(** Priority order: for the load-balance, invocation, permission and billing
    fields, the merged policy carries the value of the last (highest priority)
    policy that sets the field, whatever the policies before and the nil or
    unset ones after it. *)
Theorem MergePolicies_precedence s ps1 p ps2 r v
  (Hr : MergePolicies (ps1 ++ Some p :: ps2) = Ret r)
  (Hp : scalar_get s p = Some v)
  (Hq : forall q, Some q ∈ ps2 -> scalar_get s q = None) :
  scalar_get s r = Some v.
Proof.
  unfold MergePolicies in Hr. rewrite fold_left_app in Hr. cbn in Hr.
  destruct (fold_left merge_opt ps1 (Ret emptyPolicy)) as [a|]; cbn in Hr;
    [|by rewrite merge_opt_panic in Hr].
  destruct (merge_policy a p) as [b|] eqn:E; [|by rewrite merge_opt_panic in Hr].
  rewrite (merge_policies_keep s _ _ _ Hr Hq), (merge_policy_scalar _ _ _ _ E), Hp. done.
Qed.

Lemma MergePolicies_precedence_witness :
  exists r, MergePolicies ([Some (emptyPolicy <| p_Permissions := Some ["a"] |>)] ++
                  Some (emptyPolicy <| p_Permissions := Some ["gpt-*"] |>) :: [None; Some emptyPolicy]) = Ret r /\
  scalar_get FPermissions r = Some ["gpt-*"].
Proof.
  eexists. split; [reflexivity|].
  apply (MergePolicies_precedence FPermissions [Some (emptyPolicy <| p_Permissions := Some ["a"] |>)]
           (emptyPolicy <| p_Permissions := Some ["gpt-*"] |>) [None; Some emptyPolicy]); [reflexivity|reflexivity|].
  intros q Hq. repeat (apply elem_of_cons in Hq as [Hq|Hq]; [by simplify_eq|]). by apply elem_of_nil in Hq.
Defined.

(** A merge of two limit policies loses the token estimator of both. *)
Lemma mergeLimitPolicy_drops_estimator t s r :
  mergeLimitPolicy (Some t) (Some s) = Some r -> lp_Estimator r = None.
Proof. cbn. by intros [= <-]. Qed.

(** The override's error-message rules never reach the merged breaker policy. *)
Lemma mergeCircuitBreakPolicy_keeps_messages t s r :
  mergeCircuitBreakPolicy (Some t) (Some s) = Some r ->
  cb_ErrorMessages r = cb_ErrorMessages t /\ cb_MessagePolicy r = cb_MessagePolicy t /\
  cb_SlowCallMetric r = cb_SlowCallMetric t.
Proof. cbn. by intros [= <-]. Qed.
