(* ===== verification/ErrorPolicy.v ===== *)
(** pkg/policy/error_policy.go and error_parser.go: the rules that decide whether
    an upstream error triggers a retry or counts as a breaker failure.  Regular
    expressions, MIME parsing and JSONPath evaluation come from libraries and are
    arguments ([Libs]); the process-wide cache of compiled expressions is state
    that the functions thread. *)

From S2P Require Import Prelude GoStrings Policy.

(** A compiled expression: [FindStringSubmatch] (nil when there is no match). *)
Abbreviation regex := (string -> option (list string)).

Record Libs := mkLibs {
  (** [regexp.Compile]; [None] is an error. *)
  regexp_Compile : string -> option regex;
  (** Media type of [mime.ParseMediaType]; [None] is an error. *)
  mime_ParseMediaType : string -> option string;
  (** [json.Unmarshal] followed by [jsonpath.Read] and ["%v"] formatting: [None]
      is an error, [Some None] a nil value. *)
  jsonpath_Read : string -> string -> option (option string)
}.

Definition newline : string := String (Ascii.ascii_of_nat 10) "".

(** The contract shared by retry and circuit-break policies. *)
Class ErrorPolicy (P : Type) := {
  GetErrorCodes : P -> list string;
  GetErrorMessages : P -> list string;
  GetCodePolicy : P -> option ErrorParserPolicy;
  GetMessagePolicy : P -> option ErrorParserPolicy
}.

#[global] Instance RetryPolicy_ErrorPolicy : ErrorPolicy RetryPolicy := {|
  GetErrorCodes := rp_ErrorCodes;
  GetErrorMessages := rp_ErrorMessages;
  GetCodePolicy := rp_CodePolicy;
  GetMessagePolicy := rp_MessagePolicy |}.

#[global] Instance CircuitBreakPolicy_ErrorPolicy : ErrorPolicy CircuitBreakPolicy := {|
  GetErrorCodes := cb_ErrorCodes;
  GetErrorMessages := cb_ErrorMessages;
  GetCodePolicy := cb_CodePolicy;
  GetMessagePolicy := cb_MessagePolicy |}.

(** * CaseInsensitiveSet *)

(** The loop of [UnmarshalJSON]: lower-cased, empty strings dropped. *)
Definition cis_of_list (l : list string) : CaseInsensitiveSet :=
  mkCaseInsensitiveSet (Some (list_to_set (ToLower <$> filter (fun v => v <> "") l))).

Definition cis_Contains (s : option CaseInsensitiveSet) (val : string) : bool :=
  match s with
  | Some (mkCaseInsensitiveSet (Some d)) => bool_decide (ToLower val ∈ d)
  | _ => false
  end.

Definition cis_IsEmpty (s : option CaseInsensitiveSet) : bool :=
  match s with
  | Some (mkCaseInsensitiveSet (Some d)) => bool_decide (size d = 0%nat)
  | _ => true
  end.

Section libs.
Context (libs : Libs).

(** * ErrorParserPolicy *)

Definition epp_Match (p : ErrorParserPolicy) (status contentType okStatus : string) : bool :=
  let statusMatch :=
    if negb (is_empty status) && seqb status okStatus then true
    else match epp_Statuses p with
         | [] => true
         | ss => if is_empty status then false else existsb (fun s => seqb s status) ss
         end in
  let contentTypeMatch :=
    if cis_IsEmpty (epp_ContentTypes p) then true
    else if is_empty contentType then false
    else match mime_ParseMediaType libs contentType with
         | Some mediaType =>
             if is_empty mediaType then cis_Contains (epp_ContentTypes p) contentType
             else cis_Contains (epp_ContentTypes p) mediaType
         | None => cis_Contains (epp_ContentTypes p) contentType
         end in
  statusMatch && contentTypeMatch.

(** [None] is the error result. *)
Definition epp_ParseValue (p : ErrorParserPolicy) (body : string) : option string :=
  if is_empty (epp_Parser p) || is_empty (epp_Expression p) || is_empty body then Some ""
  else
    let parser := ToLower (epp_Parser p) in
    if seqb parser "jsonpath" || seqb parser "json_path" then
      match jsonpath_Read libs body (epp_Expression p) with
      | None => None
      | Some None => Some ""
      | Some (Some v) => Some v
      end
    else if seqb parser "regexp" || seqb parser "regex" then
      match regexp_Compile libs (epp_Expression p) with
      | None => None
      | Some re =>
          match re body with
          | Some (_ :: m1 :: _) => Some m1
          | Some [m0] => Some m0
          | _ => Some ""
          end
      end
    else None.

(** * Error codes and messages *)

Abbreviation cache := (gmap string (list (option regex))).

Definition find_substring (messages : list string) (errMsg : string) : option string :=
  List.find (fun em => Contains errMsg em) messages.

(** [for i, re := range regexps]: a compiled expression is tried, an entry
    that failed to compile falls back to a substring test; indexing
    [messages] beyond its end panics. *)
Fixpoint match_regexps (messages : list string) (errMsg : string) (i : nat)
  (regexps : list (option regex)) : go (bool * string) :=
  match regexps with
  | [] => Ret (false, "")
  | Some re :: rest =>
      match re errMsg with
      | Some _ => match messages !! i with Some em => Ret (true, em) | None => Panic end
      | None => match_regexps messages errMsg (S i) rest
      end
  | None :: rest =>
      match messages !! i with
      | None => Panic
      | Some em => if Contains errMsg em then Ret (true, em)
                   else match_regexps messages errMsg (S i) rest
      end
  end.

Definition compile_all (messages : list string) : list (option regex) :=
  regexp_Compile libs <$> messages.

(** [regexCache.Load] with the joined messages as key, or compile and [Store]. *)
Definition load_regexps (messages : list string) (c : cache) : list (option regex) * cache :=
  let key := Join messages newline in
  match c !! key with
  | Some regexps => (regexps, c)
  | None => (compile_all messages, <[key := compile_all messages]> c)
  end.

Definition FindMatchedErrorMessage (messages : list string) (errMsg : string) (c : cache) :
  go (bool * string) * cache :=
  if is_empty errMsg then (Ret (false, ""), c)
  else match messages with
       | [] => (Ret (false, ""), c)
       | _ =>
           match find_substring messages errMsg with
           | Some em => (Ret (true, em), c)
           | None =>
               let '(regexps, c') := load_regexps messages c in
               (match_regexps messages errMsg 0 regexps, c')
           end
       end.

Section policy.
Context {P : Type} `{ErrorPolicy P}.

Definition ContainsErrorCode (p : P) (errorCode : string) : bool :=
  existsb (fun ec => seqb ec errorCode) (GetErrorCodes p).

Definition parser_set (ep : option ErrorParserPolicy) : bool :=
  match ep with Some e => negb (is_empty (epp_Parser e)) | None => false end.

Definition parser_complete (ep : option ErrorParserPolicy) : bool :=
  match ep with
  | Some e => negb (is_empty (epp_Parser e)) && negb (is_empty (epp_Expression e))
  | None => false
  end.

Definition IsBodyRequired (p : P) : bool :=
  parser_complete (GetCodePolicy p) || parser_complete (GetMessagePolicy p).

(** The coarse filter [Match(p, status, contentType)]. *)
Definition policy_Match (p : P) (status : Z) (contentType : string) : bool :=
  let m ep := match ep with
              | Some e => negb (is_empty (epp_Parser e)) && epp_Match e (Itoa status) contentType "200"
              | None => false
              end in
  m (GetCodePolicy p) || m (GetMessagePolicy p).

(** A parsed, non-empty value of a complete parser policy that matches the
    response; [None] when there is none. *)
Definition parsed_value (ep : option ErrorParserPolicy) (statusStr contentType body : string) :
  option string :=
  match ep with
  | Some e =>
      if epp_Match e statusStr contentType "200" then
        match epp_ParseValue e body with
        | Some v => if is_empty v then None else Some v
        | None => None
        end
      else None
  | None => None
  end.

(** The message half of [MatchErrorWithReason]. *)
Definition match_message (p : P) (statusStr contentType errMsg body : string) (c : cache) :
  go (bool * string) * cache :=
  let '(r1, c1) :=
    if parser_complete (GetMessagePolicy p) then
      match parsed_value (GetMessagePolicy p) statusStr contentType body with
      | Some parsedMsg =>
          let '(r, c1) := FindMatchedErrorMessage (GetErrorMessages p) parsedMsg c in
          (match r with
           | Ret (true, pat) =>
               Ret (true, "matched parsed error message '" +:+ parsedMsg +:+
                          "' via message policy (pattern: '" +:+ pat +:+ "')")
           | Ret (false, _) => Ret (false, "")
           | Panic => Panic
           end, c1)
      | None => (Ret (false, ""), c)
      end
    else (Ret (false, ""), c) in
  match r1 with
  | Panic => (Panic, c1)
  | Ret (true, reason) => (Ret (true, reason), c1)
  | Ret (false, _) =>
      match GetErrorMessages p with
      | [] => (Ret (false, "no dynamic rule matched"), c1)
      | messages =>
          if is_empty errMsg then (Ret (false, "no dynamic rule matched"), c1)
          else
            let '(r, c2) := FindMatchedErrorMessage messages errMsg c1 in
            (match r with
             | Ret (true, pat) =>
                 Ret (true, "matched error message pattern '" +:+ pat +:+
                            "' (error: '" +:+ errMsg +:+ "')")
             | Ret (false, _) => Ret (false, "no dynamic rule matched")
             | Panic => Panic
             end, c2)
      end
  end.

Definition MatchErrorWithReason (p : option P) (statusCode : Z)
  (contentType errMsg body : string) (c : cache) : go (bool * string) * cache :=
  match p with
  | None => (Ret (false, "policy is nil"), c)
  | Some p =>
      if bool_decide (GetErrorCodes p = []) && bool_decide (GetErrorMessages p = []) &&
         negb (parser_set (GetCodePolicy p)) && negb (parser_set (GetMessagePolicy p))
      then (Ret (true, "no rules configured, matching all errors by default"), c)
      else
        let statusStr := Itoa statusCode in
        let code_hit :=
          if parser_complete (GetCodePolicy p) then
            match parsed_value (GetCodePolicy p) statusStr contentType body with
            | Some parsedCode =>
                if ContainsErrorCode p parsedCode then
                  Some ("matched parsed error code '" +:+ parsedCode +:+ "' via code policy")
                else None
            | None => None
            end
          else if ContainsErrorCode p statusStr then
            Some ("matched status code '" +:+ statusStr +:+ "' in error codes list")
          else None in
        match code_hit with
        | Some reason => (Ret (true, reason), c)
        | None => match_message p statusStr contentType errMsg body c
        end
  end.

Definition MatchError (p : option P) (statusCode : Z) (contentType errMsg body : string)
  (c : cache) : go bool * cache :=
  let '(r, c') := MatchErrorWithReason p statusCode contentType errMsg body c in
  (match r with Ret (b, _) => Ret b | Panic => Panic end, c').
End policy.
End libs.

(** * The cache of compiled expressions *)

Definition newline_free (s : string) : Prop := Contains s newline = false.

Lemma SplitByte_plain (s : string) c :
  Contains s (String c "") = false -> SplitByte s c = [s].
Proof.
  induction s as [|d s IH]; cbn; [done|]. rewrite orb_false_iff, andb_true_r.
  intros [Hd Hs]. apply bool_decide_eq_false in Hd. rewrite bool_decide_eq_false_2 by done.
  by rewrite IH.
Qed.

Lemma SplitByte_append (s t : string) c :
  Contains s (String c "") = false ->
  SplitByte (s +:+ String c "" +:+ t) c = s :: SplitByte t c.
Proof.
  induction s as [|d s IH]; intros H.
  - unfold String.app. cbn. by rewrite bool_decide_eq_true_2.
  - cbn in H. rewrite orb_false_iff, andb_true_r in H. destruct H as [Hd Hs].
    apply bool_decide_eq_false in Hd. unfold String.app in *. cbn -[SplitByte] in *.
    cbn [SplitByte]. rewrite bool_decide_eq_false_2 by done. cbn in IH. by rewrite IH.
Qed.

Lemma SplitByte_Join (l : list string) c :
  l <> [] -> Forall (fun s => Contains s (String c "") = false) l ->
  SplitByte (Join l (String c "")) c = l.
Proof.
  intros Hne Hl. induction Hl as [|s l Hs Hl IH]; [done|]. destruct l as [|t l].
  - by apply SplitByte_plain.
  - cbn [Join] in *. rewrite SplitByte_append by done. by rewrite IH.
Qed.

Section cache.
Context (libs : Libs).

(** What the rules mean, without a cache: the first message contained in the
    error, else the first whose expression matches it. *)
Definition regex_hits (errMsg em : string) : bool :=
  match regexp_Compile libs em with
  | Some re => bool_decide (is_Some (re errMsg))
  | None => Contains errMsg em
  end.

Definition match_message_spec (messages : list string) (errMsg : string) : bool * string :=
  if is_empty errMsg then (false, "")
  else match find_substring messages errMsg with
       | Some em => (true, em)
       | None => match List.find (regex_hits errMsg) messages with
                 | Some em => (true, em)
                 | None => (false, "")
                 end
       end.

(** Every cached entry was compiled from a list of newline-free messages whose
    join is its key. *)
Definition cache_coherent (c : gmap string (list (option regex))) : Prop :=
  forall k v, c !! k = Some v ->
    exists messages, messages <> [] /\ Forall newline_free messages /\
                     k = Join messages newline /\ v = compile_all libs messages.

Lemma match_regexps_compiled pre messages errMsg :
  match_regexps (pre ++ messages) errMsg (length pre) (compile_all libs messages) =
  Ret (match List.find (regex_hits errMsg) messages with
       | Some em => (true, em)
       | None => (false, "")
       end).
Proof.
  revert pre. induction messages as [|em messages IH]; intros pre; cbn; [done|].
  specialize (IH (pre ++ [em])). rewrite <- app_assoc, length_app in IH. cbn in IH.
  rewrite Nat.add_1_r in IH. rewrite list_lookup_middle by done.
  unfold regex_hits at 1. destruct (regexp_Compile libs em) as [re|].
  - destruct (re errMsg); cbn; [done|apply IH].
  - by destruct (Contains errMsg em).
Qed.

Lemma load_regexps_coherent messages c :
  messages <> [] -> Forall newline_free messages -> cache_coherent c ->
  fst (load_regexps libs messages c) = compile_all libs messages /\
  cache_coherent (snd (load_regexps libs messages c)).
Proof.
  intros Hne Hnl Hc. unfold load_regexps. destruct (c !! Join messages newline) as [v|] eqn:E; cbn.
  - split; [|done]. destruct (Hc _ _ E) as (ms & Hms & Hnl' & Hk & ->). f_equal.
    transitivity (SplitByte (Join messages newline) (Ascii.ascii_of_nat 10)).
    + rewrite Hk. symmetry. by apply SplitByte_Join.
    + by apply SplitByte_Join.
  - split; [done|]. intros k v Hk. apply lookup_insert_Some in Hk as [[<- <-]|[_ Hk]]; [|by apply Hc].
    by exists messages.
Qed.

Lemma find_matched_coherent messages errMsg c
  (Hnl : Forall newline_free messages) (Hc : cache_coherent c) :
  fst (FindMatchedErrorMessage libs messages errMsg c) = Ret (match_message_spec messages errMsg) /\
  cache_coherent (snd (FindMatchedErrorMessage libs messages errMsg c)).
Proof.
  unfold FindMatchedErrorMessage, match_message_spec. destruct (is_empty errMsg); [done|].
  destruct messages as [|m ms]; [done|].
  destruct (find_substring (m :: ms) errMsg); [done|].
  destruct (load_regexps_coherent (m :: ms) c) as [E1 E2]; [done..|].
  destruct (load_regexps libs (m :: ms) c) as [r c']. cbn in E1, E2 |- *. subst r. split; [|done].
  exact (match_regexps_compiled [] (m :: ms) errMsg).
Qed.

(** The process-wide cache is transparent: as long as the configured messages
    contain no newline, a lookup through the cache never panics, returns what
    a fresh compilation would, and keeps the cache coherent, for any sequence
    of earlier policies. *)
Theorem FindMatchedErrorMessage_cached messages errMsg c
  (Hnl : Forall newline_free messages) (Hc : cache_coherent c) :
  fst (FindMatchedErrorMessage libs messages errMsg c) = Ret (match_message_spec messages errMsg) /\
  cache_coherent (snd (FindMatchedErrorMessage libs messages errMsg c)).
Proof. by apply find_matched_coherent. Qed.
End cache.

(** A toy expression language for the witnesses: an expression compiles unless it
    starts with [(], and matches strings with that prefix. *)
Definition demo_libs : Libs := {|
  regexp_Compile e := if HasPrefix e "(" then None
                      else Some (fun s => if HasPrefix s e then Some [e] else None);
  mime_ParseMediaType s := Some s;
  jsonpath_Read _ _ := None |}.

Lemma FindMatchedErrorMessage_cached_witness :
  fst (FindMatchedErrorMessage demo_libs ["timeout"; "rate"] "upstream rate limited" ∅) =
    Ret (match_message_spec demo_libs ["timeout"; "rate"] "upstream rate limited") /\
  cache_coherent demo_libs (snd (FindMatchedErrorMessage demo_libs ["timeout"; "rate"] "upstream rate limited" ∅)).
Proof.
  apply FindMatchedErrorMessage_cached; [|intros k v H; by rewrite lookup_empty in H].
  repeat constructor.
Defined.

(** The cache key (messages joined by a newline) is ambiguous: after a policy
    with messages [p] and [q] has been evaluated, a policy whose only message is
    the two-line text finds a cached list of two expressions and indexes its
    one-element message list out of range. *)
Theorem regexCache_collision_panics :
  let c := snd (FindMatchedErrorMessage demo_libs ["p"; "q"] "x" ∅) in
  fst (FindMatchedErrorMessage demo_libs ["p" +:+ newline +:+ "q"] "quota" c) = Panic /\
  fst (FindMatchedErrorMessage demo_libs ["p" +:+ newline +:+ "q"] "quota" ∅) = Ret (false, "").
Proof. vm_compute. split; reflexivity. Qed.

(** * Functional behaviour without parser policies *)

(** For a policy without parser rules (status codes and message rules only),
    an error matches exactly when no rule is configured, or its status code is
    listed, or a message rule hits; in particular a policy that lists only codes
    ignores the message. *)
Theorem MatchError_plain {P} `{ErrorPolicy P} libs (p : P) status ct msg body c
  (Hcode : GetCodePolicy p = None) (Hmsg : GetMessagePolicy p = None)
  (Hnl : Forall newline_free (GetErrorMessages p)) (Hc : cache_coherent libs c) :
  fst (MatchError libs (Some p) status ct msg body c) =
  Ret ((bool_decide (GetErrorCodes p = []) && bool_decide (GetErrorMessages p = [])) ||
       ContainsErrorCode p (Itoa status) ||
       fst (match_message_spec libs (GetErrorMessages p) msg)).
Proof.
  unfold MatchError, MatchErrorWithReason. rewrite Hcode, Hmsg. cbn [parser_set parser_complete negb].
  rewrite !andb_true_r. destruct (_ && _) eqn:E; cbn [orb]; [done|].
  destruct (ContainsErrorCode p (Itoa status)) eqn:EC; cbn [orb]; [done|].
  unfold match_message. rewrite Hmsg. cbn [parser_complete].
  destruct (find_matched_coherent libs (GetErrorMessages p) msg c Hnl Hc) as [Hf _].
  destruct (GetErrorMessages p) as [|m ms] eqn:EM.
  { unfold match_message_spec. by destruct (is_empty msg). }
  destruct (is_empty msg) eqn:Em.
  { unfold match_message_spec. by rewrite Em. }
  destruct (FindMatchedErrorMessage libs (m :: ms) msg c) as [r c']. cbn in Hf. subst r.
  by destruct (match_message_spec libs (m :: ms) msg) as [[] ?].
Qed.

Definition demo_retry (codes messages : list string) : RetryPolicy :=
  mkRetryPolicy 2 "fixed" 100 codes messages None None 0 0 0 0 None 0.

Lemma MatchError_plain_witness :
  fst (MatchError demo_libs (Some (demo_retry ["503"] ["overloaded"])) 503 "" "boom" "" ∅) =
  Ret ((bool_decide (GetErrorCodes (demo_retry ["503"] ["overloaded"]) = []) &&
        bool_decide (GetErrorMessages (demo_retry ["503"] ["overloaded"]) = [])) ||
       ContainsErrorCode (demo_retry ["503"] ["overloaded"]) (Itoa 503) ||
       fst (match_message_spec demo_libs (GetErrorMessages (demo_retry ["503"] ["overloaded"])) "boom")).
Proof.
  apply (MatchError_plain demo_libs (demo_retry ["503"] ["overloaded"])); [reflexivity|reflexivity|repeat constructor|].
  intros k v H. by rewrite lookup_empty in H.
Defined.
