(* ===== verification/Types.v ===== *)
(** pkg/core/types.go: endpoints, request types and breaker states. *)

From S2P Require Import Prelude GoFloat GoStrings.

(** * Request types and protocol families ([string] enums) *)

Definition RequestTypeChatCompletion : string := "chat_completion".
Definition RequestTypeEmbedding : string := "embedding".
Definition RequestTypeImageGeneration : string := "image_generation".
Definition RequestTypeResponses : string := "responses".
Definition RequestTypeMessages : string := "messages".
Definition RequestTypeGeminiGenerateContent : string := "gemini_generate_content".

Definition ProtocolOpenAI : string := "openai".
Definition ProtocolAnthropic : string := "anthropic".
Definition ProtocolGemini : string := "gemini".
Definition ProtocolJoyCode : string := "joycode".

(** * Endpoint

    [ProviderImpl] is kept as a flag saying whether a provider is attached. *)
Record Endpoint := mkEndpoint {
  ep_ID : string;
  ep_Code : string;
  ep_URL : string;
  ep_Provider : string;
  ep_ProviderCode : string;
  ep_Model : string;
  ep_UpstreamModel : string;
  ep_Metadata : gmap string string;
  ep_Weight : Z;
  ep_Priority : Z;
  ep_RequestTypes : list string;
  ep_Healthy : bool;
  ep_HasProviderImpl : bool;
  ep_Headers : gmap string string;
  ep_APIKey : string;
  ep_AuthType : string;
  ep_ProviderProtocol : string;
  ep_ContextLength : Z;
  ep_MaxOutputTokens : Z;
  ep_InputPrice : option float64;
  ep_OutputPrice : option float64;
  ep_CachedPrice : option float64;
  ep_CacheCreationPrice : option float64
}.

#[global] Instance eta_Endpoint : Eta Endpoint := fun e =>
  mkEndpoint (ep_ID e) (ep_Code e) (ep_URL e) (ep_Provider e) (ep_ProviderCode e) (ep_Model e)
    (ep_UpstreamModel e) (ep_Metadata e) (ep_Weight e) (ep_Priority e) (ep_RequestTypes e)
    (ep_Healthy e) (ep_HasProviderImpl e) (ep_Headers e) (ep_APIKey e) (ep_AuthType e)
    (ep_ProviderProtocol e) (ep_ContextLength e) (ep_MaxOutputTokens e) (ep_InputPrice e)
    (ep_OutputPrice e) (ep_CachedPrice e) (ep_CacheCreationPrice e).

Definition Protocol (ep : Endpoint) : string := ep_ProviderProtocol ep.

Definition EffectiveModel (ep : Endpoint) : string :=
  if is_empty (ep_UpstreamModel ep) then ep_Model ep else ep_UpstreamModel ep.

Definition protocolSupportsRequestType (ep : Endpoint) (rt : string) : bool :=
  let p := Protocol ep in
  if seqb p ProtocolOpenAI then
    existsb (seqb rt) [RequestTypeChatCompletion; RequestTypeEmbedding; RequestTypeImageGeneration;
                       RequestTypeResponses; RequestTypeMessages]
  else if seqb p ProtocolAnthropic then seqb rt RequestTypeMessages || seqb rt RequestTypeResponses
  else if seqb p ProtocolGemini then seqb rt RequestTypeGeminiGenerateContent
  else if seqb p ProtocolJoyCode then
    existsb (seqb rt) [RequestTypeChatCompletion; RequestTypeResponses; RequestTypeMessages]
  else seqb p "".

Definition declaresRequestType (ep : Endpoint) (rt : string) : bool :=
  existsb (fun c => seqb c rt) (ep_RequestTypes ep).

Definition SupportsRequestType (ep : option Endpoint) (rt : string) : bool :=
  match ep with
  | None => false
  | Some ep =>
      if negb (protocolSupportsRequestType ep rt) then false
      else if existsb (fun c => seqb c rt) (ep_RequestTypes ep) then true
      else if declaresRequestType ep RequestTypeChatCompletion &&
              (seqb rt RequestTypeMessages || seqb rt RequestTypeResponses) then true
      else declaresRequestType ep RequestTypeMessages && seqb rt RequestTypeResponses
  end.

(** [fmt.Sscanf(v, "%f", &f)] is an argument: the scanned value, zero on failure. *)
Definition CostPerToken (Sscanf_f : string -> float64) (ep : Endpoint) : float64 :=
  match ep_Metadata ep !! "cost_per_token" with
  | Some v => Sscanf_f v
  | None => fzero
  end.

(** The breaker keys of an endpoint. *)
Definition service_key (ep : Endpoint) : string := ep_Provider ep +:+ ":" +:+ ep_Model ep.

(** * Breaker states *)

Inductive CircuitState := CircuitClosed | CircuitOpen | CircuitHalfOpen.

#[global] Instance CircuitState_eq_dec : EqDecision CircuitState.
Proof. solve_decision. Defined.

Definition CircuitState_String (s : CircuitState) : string :=
  match s with
  | CircuitClosed => "CLOSED"
  | CircuitOpen => "OPEN"
  | CircuitHalfOpen => "HALF_OPEN"
  end.
