(* ===== verification/Context.v ===== *)
(** pkg/core/context.go and the error values of pkg/core: the
    request context threaded through the pipeline, its per-attempt reset, the
    attempt history and the request view the matchers read.  The logger, the
    Go context and the response writer are not part of the record; the header,
    query and cookie tables are the ones net/http parsed. *)

From Stdlib Require Import Ascii.
From S2P Require Import Prelude GoFloat GoStrings Matcher Policy Types.

(** * Errors *)

(** The sentinel errors the gateway tests with [errors.Is]. *)
Inductive sentinel :=
| ErrNoAvailableEndpoint
| ErrFatalNoAvailableEndpoint
| ErrClientDisconnected
| ErrGatewayFirstByteTimeout.

#[global] Instance sentinel_eq_dec : EqDecision sentinel.
Proof. solve_decision. Defined.

(** An error value: its text, the sentinels on its chain, the answer of
    [Retryable()] where some error of the chain has that method, and the status the
    error itself carries ([Code()] or a field [Code]), where it does. *)
Record goerror := mkCodeError {
  Error_text : string;
  err_chain : list sentinel;
  err_Retryable : option bool;
  err_Code : option Z
}.

#[global] Instance goerror_eq_dec : EqDecision goerror.
Proof. solve_decision. Defined.

Definition mkError (text : string) (chain : list sentinel) (retryable : option bool) : goerror :=
  mkCodeError text chain retryable None.

Definition errors_Is (e : option goerror) (s : sentinel) : bool :=
  match e with Some e => bool_decide (s ∈ err_chain e) | None => false end.

Definition errNoAvailableEndpoint : goerror := mkError "no available endpoint" [ErrNoAvailableEndpoint] None.
Definition errFatalNoAvailableEndpoint : goerror :=
  mkError "fatal: no available endpoint" [ErrFatalNoAvailableEndpoint] None.

(** [errors.New] or [fmt.Errorf] without wrapping. *)
Definition errorf (text : string) : goerror := mkError text [] None.

Definition isExplicitlyNonRetryable (e : option goerror) : bool :=
  match e with Some e => bool_decide (err_Retryable e = Some false) | None => false end.

(** * net/http values *)

(** [http.Header] and [url.Values]: a missing key has no values. *)
Definition headers : Type := gmap string (list string).

(** Bytes of an HTTP token ([validHeaderFieldByte]). *)
Definition is_token_byte (c : ascii) : bool :=
  let n := nat_of_ascii c in
  ((48 <=? n)%nat && (n <=? 57)%nat) || ((65 <=? n)%nat && (n <=? 90)%nat) ||
  ((97 <=? n)%nat && (n <=? 122)%nat) ||
  existsb (Nat.eqb n) [33; 35; 36; 37; 38; 39; 42; 43; 45; 46; 94; 95; 96; 124; 126]%nat.

Definition upper_ascii (c : ascii) : ascii :=
  let n := nat_of_ascii c in if (97 <=? n)%nat && (n <=? 122)%nat then ascii_of_nat (n - 32) else c.
Definition lower_ascii (c : ascii) : ascii :=
  let n := nat_of_ascii c in if (65 <=? n)%nat && (n <=? 90)%nat then ascii_of_nat (n + 32) else c.

Fixpoint all_ascii (p : ascii -> bool) (s : string) : bool :=
  match s with String c s' => p c && all_ascii p s' | EmptyString => true end.

Fixpoint canonical_loop (upper : bool) (s : string) : string :=
  match s with
  | String c s' =>
      String (if upper then upper_ascii c else lower_ascii c)
             (canonical_loop (Ascii.eqb c "-"%char) s')
  | EmptyString => ""
  end.

(** [textproto.CanonicalMIMEHeaderKey]. *)
Definition CanonicalMIMEHeaderKey (s : string) : string :=
  if all_ascii is_token_byte s then canonical_loop true s else s.

(** [h[key]]. *)
Definition header_values (h : headers) (key : string) : list string := default [] (h !! key).

(** [h.Get(key)]. *)
Definition header_Get (h : headers) (key : string) : string :=
  match header_values h (CanonicalMIMEHeaderKey key) with v :: _ => v | [] => "" end.

(** [values.Get(key)] of [url.Values]. *)
Definition query_Get (q : headers) (key : string) : string :=
  match header_values q key with v :: _ => v | [] => "" end.

Record http_Request := mkRequest {
  req_Header : headers;
  req_URL : option headers;
  req_Cookies : list (string * string)
}.

(** [r.Cookie(name)]: the first cookie of that name. *)
Definition req_Cookie (r : http_Request) (name : string) : option string :=
  snd <$> List.find (fun c => seqb (fst c) name) (req_Cookies r).

Record http_Response := mkResponse { resp_StatusCode : Z; resp_Header : headers }.

(** * The request context *)

Record AttemptRecord := mkAttemptRecord {
  ar_Model : string;
  ar_EndpointID : string;
  ar_EndpointCode : string;
  ar_Provider : string;
  ar_ProviderCode : string;
  ar_Latency : Duration;
  ar_StatusCode : Z;
  ar_ContentType : string;
  ar_Body : string;
  ar_Error : string;
  ar_Success : bool;
  ar_Timestamp : Time
}.

Record LimitReservation := mkReservation {
  lr_Key : string;
  lr_Type : string;
  lr_Estimated : Z;
  lr_Window : Duration;
  lr_Rate : Z;
  lr_Capacity : Z;
  lr_Burst : bool;
  lr_Settled : bool
}.

#[global] Instance eta_reservation : Eta LimitReservation := fun r =>
  mkReservation (lr_Key r) (lr_Type r) (lr_Estimated r) (lr_Window r) (lr_Rate r) (lr_Capacity r)
    (lr_Burst r) (lr_Settled r).

(** A [ProviderInvoker] is identified with its endpoint. *)
Record GatewayContext := mkGctx {
  Request : option http_Request;
  GovernanceRequest : option http_Request;
  RawBody : string;
  RequestType : string;
  OriginalModel : string;
  IsStream : bool;
  APIKey : string;
  APIKeyID : string;
  APIKeyHash : string;
  UserID : string;
  Tenant : string;
  WorkspaceID : string;
  UserTenant : string;
  SessionID : string;
  Model : string;
  gPolicy : option Policy;
  TrackLimitReservations : bool;
  LimitReservations : list LimitReservation;
  LimitKeys : option (gset string);
  Sensitive : bool;
  MaxResponseBytes : Z;
  SelectedInvoker : option Endpoint;
  SelectedEndpoint : option Endpoint;
  UpstreamConnect : Time;
  UpstreamResponse : option http_Response;
  UpstreamBody : option string;
  UpstreamError : option goerror;
  TTFT : Duration;
  FatalErr : option goerror;
  AttemptCount : Z;
  FallbackChain : list string;
  History : list AttemptRecord;
  StartTime : Time;
  Tags : option (gmap string string);
  InjectedHeaders : option (gmap string string);
  InputTokens : Z;
  OutputTokens : Z;
  CachedTokens : Z;
  CacheCreationTokens : Z;
  TransmittedChars : Z;
  Cost : float64;
  Response : option string;
  Err : option goerror;
  ttfTimer : bool
}.

#[global] Instance eta_gctx : Eta GatewayContext := fun c =>
  mkGctx (Request c) (GovernanceRequest c) (RawBody c) (RequestType c) (OriginalModel c) (IsStream c)
    (APIKey c) (APIKeyID c) (APIKeyHash c) (UserID c) (Tenant c) (WorkspaceID c) (UserTenant c)
    (SessionID c) (Model c) (gPolicy c) (TrackLimitReservations c) (LimitReservations c) (LimitKeys c)
    (Sensitive c) (MaxResponseBytes c)
    (SelectedInvoker c) (SelectedEndpoint c) (UpstreamConnect c) (UpstreamResponse c) (UpstreamBody c)
    (UpstreamError c) (TTFT c) (FatalErr c) (AttemptCount c) (FallbackChain c) (History c) (StartTime c)
    (Tags c) (InjectedHeaders c) (InputTokens c) (OutputTokens c) (CachedTokens c)
    (CacheCreationTokens c) (TransmittedChars c) (Cost c) (Response c) (Err c) (ttfTimer c).

(** [GatewayContext{}]. *)
Definition emptyContext : GatewayContext :=
  mkGctx None None "" "" "" false "" "" "" "" "" "" "" "" "" None false [] None false 0 None None zeroTime None None
    None 0 None 0 [] [] zeroTime None None 0 0 0 0 0 fzero None None false.

Definition perAttemptTagKeys : list string :=
  ["response_id"; "response_model"; "response_completed_sent"; "message_stop_sent";
   "upstream_finish_reason"; "anthropic_stop_reason"; "stream_saw_done"; "transmitted_chars"].

Definition ResetAttempt (c : GatewayContext) : GatewayContext :=
  c <| SelectedInvoker := None |> <| SelectedEndpoint := None |> <| UpstreamConnect := zeroTime |>
    <| UpstreamResponse := None |> <| UpstreamBody := None |> <| UpstreamError := None |>
    <| InputTokens := 0 |> <| OutputTokens := 0 |> <| CachedTokens := 0 |> <| CacheCreationTokens := 0 |>
    <| TransmittedChars := 0 |> <| Cost := fzero |> <| Response := None |> <| Err := None |>
    <| Tags := (fun t => foldr delete t perAttemptTagKeys) <$> Tags c |>.

Definition getStatusCode (r : option http_Response) : Z :=
  match r with Some r => resp_StatusCode r | None => 0 end.

Definition getErrorString (e : option goerror) : string :=
  match e with Some e => Error_text e | None => "" end.

(** The bytes of a possibly nil slice. *)
Definition body_bytes (b : option string) : string := default "" b.

Definition content_type (r : option http_Response) : string :=
  match r with Some r => header_Get (resp_Header r) "Content-Type" | None => "" end.

Definition RecordAttempt (c : GatewayContext) (success : bool) (now : Time) : GatewayContext :=
  let ep (f : Endpoint -> string) := match SelectedEndpoint c with Some e => f e | None => "" end in
  let rec_ := mkAttemptRecord (Model c) (ep ep_ID) (ep ep_Code) (ep ep_Provider) (ep ep_ProviderCode)
                (time_Sub now (UpstreamConnect c)) (getStatusCode (UpstreamResponse c))
                (content_type (UpstreamResponse c)) (body_bytes (UpstreamBody c)) (getErrorString (UpstreamError c))
                success now in
  c <| History := History c ++ [rec_] |> <| AttemptCount := wrap64 (AttemptCount c + 1) |>.

(** [AcquireContext] initialises a pooled context; [ReleaseContext] zeroes it before
    it goes back, so a pooled context is always [emptyContext]. *)
Definition AcquireContext (pooled : GatewayContext) (r : http_Request) (now : Time) : GatewayContext :=
  pooled <| Request := Some r |> <| StartTime := now |> <| Tags := Some ∅ |> <| InjectedHeaders := Some ∅ |>.
Definition ReleaseContext (_ : GatewayContext) : GatewayContext := emptyContext.

Definition requestForGovernance (c : GatewayContext) : option http_Request :=
  match GovernanceRequest c with Some r => Some r | None => Request c end.

Definition ctx_GetHeader (c : GatewayContext) (key : string) : list string :=
  match requestForGovernance c with
  | None => []
  | Some r =>
      match header_values (req_Header r) key with
      | [] => let v := header_Get (req_Header r) key in if is_empty v then [] else [v]
      | actual => actual
      end
  end.

Definition ctx_GetQuery (c : GatewayContext) (key : string) : list string :=
  match requestForGovernance c with
  | Some r => match req_URL r with Some q => header_values q key | None => [] end
  | None => []
  end.

Definition ctx_GetCookie (c : GatewayContext) (key : string) : string :=
  match requestForGovernance c with Some r => default "" (req_Cookie r key) | None => "" end.

Definition ctx_GetSystemValue (c : GatewayContext) (key : string) : string :=
  if seqb key "model" then Model c else if seqb key "user" then UserID c else "".

Definition ctx_GetTagValue (c : GatewayContext) (key : string) : string :=
  match Tags c with Some t => default "" (t !! key) | None => "" end.

#[global] Instance gctx_RequestContext : RequestContext GatewayContext := {
  GetHeader := ctx_GetHeader;
  GetQuery := ctx_GetQuery;
  GetCookie := ctx_GetCookie;
  GetSystemValue := ctx_GetSystemValue;
  GetTagValue := ctx_GetTagValue
}.

(** First byte: the TTFT is set once, and the timer is cancelled with it. *)
Definition RegisterTTFTimer (c : GatewayContext) : GatewayContext := c <| ttfTimer := true |>.
Definition TriggerFirstByte (c : GatewayContext) (now : Time) : GatewayContext :=
  if TTFT c =? 0 then c <| TTFT := time_Sub now (StartTime c) |> <| ttfTimer := false |> else c.

(** * Policy shorthands *)

Definition lb_policy (c : GatewayContext) : option LoadBalancePolicy := gPolicy c ≫= p_LoadBalancePolicy.
Definition lb_params (c : GatewayContext) : option (gmap string gvalue) := lb_policy c ≫= lbp_Params.
Definition invocation_policy (c : GatewayContext) : option InvocationPolicy := gPolicy c ≫= p_InvocationPolicy.

(** * Theorems *)

Lemma delete_keys_lookup {V} (t : gmap string V) keys k :
  foldr delete t keys !! k = if bool_decide (k ∈ keys) then None else t !! k.
Proof.
  induction keys as [|x keys IH]; cbn [foldr]; [by rewrite bool_decide_false by apply not_elem_of_nil|].
  destruct (decide (x = k)) as [->|N].
  - rewrite lookup_delete_eq, bool_decide_true by left. done.
  - rewrite lookup_delete_ne, IH by done.
    rewrite (bool_decide_ext (k ∈ x :: keys) (k ∈ keys)); [done|]. rewrite elem_of_cons. naive_solver.
Qed.

(** Nothing of a failed attempt leaks into the next one: whatever an attempt wrote into
    the per-attempt fields, the token counters and the per-attempt tags, the reset
    context is the same; and the reset keeps the history, the attempt count, the
    first-byte time, the fatal error and every other tag. *)
Theorem reset_attempt_no_leak (c : GatewayContext) inv ep conn resp body uerr it ot ct cc tc cost r e (k v : string)
  (Hk : k ∈ perAttemptTagKeys) :
  let dirty := c <| SelectedInvoker := inv |> <| SelectedEndpoint := ep |> <| UpstreamConnect := conn |>
                 <| UpstreamResponse := resp |> <| UpstreamBody := body |> <| UpstreamError := uerr |>
                 <| InputTokens := it |> <| OutputTokens := ot |> <| CachedTokens := ct |>
                 <| CacheCreationTokens := cc |> <| TransmittedChars := tc |> <| Cost := cost |>
                 <| Response := r |> <| Err := e |> <| Tags := (fun t => <[k := v]> t) <$> Tags c |> in
  ResetAttempt dirty = ResetAttempt c /\
  History (ResetAttempt c) = History c /\ AttemptCount (ResetAttempt c) = AttemptCount c /\
  TTFT (ResetAttempt c) = TTFT c /\ FatalErr (ResetAttempt c) = FatalErr c /\
  (forall t, t ∉ perAttemptTagKeys -> GetTagValue (ResetAttempt c) t = GetTagValue c t).
Proof.
  intros dirty. split_and!; [|done..|].
  - assert (Tags (ResetAttempt dirty) = Tags (ResetAttempt c)) as E.
    { change (Tags (ResetAttempt dirty)) with
        ((fun t => foldr delete t perAttemptTagKeys) <$> ((fun t => <[k := v]> t) <$> Tags c)).
      change (Tags (ResetAttempt c)) with ((fun t => foldr delete t perAttemptTagKeys) <$> Tags c).
      destruct (Tags c) as [t|]; [|done]. apply (f_equal Some).
      apply map_eq. intros i. rewrite !delete_keys_lookup.
      destruct (bool_decide (i ∈ perAttemptTagKeys)) eqn:B; [done|].
      apply bool_decide_eq_false in B. apply lookup_insert_ne. naive_solver. }
    subst dirty. destruct c. revert E. vm_compute. intros E. rewrite E. reflexivity.
  - intros t Ht. cbn [GetTagValue gctx_RequestContext]. unfold ctx_GetTagValue.
    change (Tags (ResetAttempt c)) with ((fun t => foldr delete t perAttemptTagKeys) <$> Tags c).
    destruct (Tags c) as [m|]; [|done]. cbn [fmap option_fmap option_map].
    by rewrite delete_keys_lookup, bool_decide_false.
Qed.

Lemma reset_attempt_no_leak_witness :
  let c := emptyContext <| Tags := Some {["tenant_tier" := "gold"]} |> in
  let dirty := c <| InputTokens := 7 |> <| Tags := Some {["tenant_tier" := "gold"; "response_id" := "r1"]} |> in
  ResetAttempt dirty = ResetAttempt c.
Proof.
  intros c dirty.
  refine (proj1 (reset_attempt_no_leak c None None 0 None None None 7 0 0 0 0 fzero None None "response_id" "r1" _)).
  apply (bool_decide_unpack _). vm_compute. exact I.
Defined.
