(* ===== verification/Http.v ===== *)
(** net/http's [ResponseWriter] as the engine and the filters drive it: the header map, the
    committed status with the header as it was sent, and the body.  A status outside
    100..999 panics, as the server does; a second status is ignored; an
    informational one does not commit. *)

From S2P Require Import Prelude GoStrings Context.

Record ResponseWriter := mkWriterState {
  rw_Header : headers;
  rw_sent : option (Z * headers);
  rw_body : string
}.

Definition newResponse : ResponseWriter := mkWriterState ∅ None "".

(** [w.Header().Set(k, v)] and [w.Header().Add(k, v)]. *)
Definition rw_Set (k v : string) (w : ResponseWriter) : ResponseWriter :=
  mkWriterState (<[CanonicalMIMEHeaderKey k := [v]]> (rw_Header w)) (rw_sent w) (rw_body w).
Definition rw_Add (k v : string) (w : ResponseWriter) : ResponseWriter :=
  let key := CanonicalMIMEHeaderKey k in
  mkWriterState (<[key := header_values (rw_Header w) key ++ [v]]> (rw_Header w)) (rw_sent w) (rw_body w).

Definition rw_WriteHeader (code : Z) (w : ResponseWriter) : go ResponseWriter :=
  match rw_sent w with
  | Some _ => Ret w
  | None =>
      if (code <? 100) || (999 <? code) then Panic
      else if (code <=? 199) && negb (code =? 101) then Ret w
      else Ret (mkWriterState (rw_Header w) (Some (code, rw_Header w)) (rw_body w))
  end.

Definition bodyAllowedForStatus (code : Z) : bool :=
  negb ((100 <=? code) && (code <=? 199)) && negb (code =? 204) && negb (code =? 304).

(** The first write commits status 200. *)
Definition rw_Write (data : string) (w : ResponseWriter) : ResponseWriter :=
  let '(code, h) := default (200, rw_Header w) (rw_sent w) in
  mkWriterState (rw_Header w) (Some (code, h)) (if bodyAllowedForStatus code then rw_body w +:+ data else rw_body w).

(** * Errors with a status *)

(** [&HTTPError{Code: code, Message: message}] of the filters and limiters. *)
Definition httpError (code : Z) (message : string) : goerror := mkCodeError message [] None (Some code).

(** A chain of writer calls that may panic. *)
Definition go_bind {A B} (x : go A) (f : A -> go B) : go B := match x with Ret a => f a | Panic => Panic end.
Notation "'let!' x := e 'in' k" := (go_bind e (fun x => k))
  (at level 200, x pattern, e at level 100, k at level 200, right associativity).

Lemma go_bind_Ret {A B} (x : go A) (f : A -> go B) y : (let! a := x in f a) = Ret y -> exists a, x = Ret a /\ f a = Ret y.
Proof. destruct x; [eauto|done]. Qed.
