(* ===== verification/Translate.v ===== *)
(** pkg/llm/translate: the parts the protocol translators share - decoded JSON documents,
    tool names (tool_name_mapper.go), identifiers, schema and message clean-up (helpers.go)
    and reasoning settings (reasoning.go).

    A Go [map[string]interface{}] is a list of members with distinct keys: what reaches the
    wire is printed by [Marshal], which sorts them.  A nil slice prints as [null]. *)

From Stdlib Require Import Ascii.
From S2P Require Import Prelude GoFloat GoStrings GoTime GoJson GoPrint Matcher Policy Types Context Http.

(** * Documents in [interface{}] *)

(** Numbers are float64: the text a literal is printed with again ([None]: out of range, a
    decoding error) and its value. *)
Record JsonNum := mkJsonNum { num_text : string -> option string; num_float : string -> float64 }.

Notation obj := (list (string * json)).

Fixpoint get (k : string) (m : obj) : option json :=
  match m with [] => None | (k', v) :: r => if seqb k k' then Some v else get k r end.
Definition del (k : string) (m : obj) : obj := List.filter (fun f => negb (seqb k (fst f))) m.
Definition put (k : string) (v : json) (m : obj) : obj := (k, v) :: del k m.

(** Type assertions: [v.(string)] and the like on a member that may be missing. *)
Definition as_string (v : option json) : option string := match v with Some (JStr s) => Some s | _ => None end.
Definition as_list (v : option json) : option (list json) := match v with Some (JArr l) => Some l | _ => None end.
Definition as_map (v : option json) : option obj := match v with Some (JObj m) => Some m | _ => None end.
Definition as_float (N : JsonNum) (v : option json) : option float64 := match v with Some (JNum l) => Some (num_float N l) | _ => None end.
Definition str (v : option json) : string := default "" (as_string v).
Definition get_str (k : string) (m : obj) : string := str (get k m).
(** [m["k"].(map[string]interface{})] used without the ok: a nil map reads as empty. *)
Definition sub_map (k : string) (m : obj) : obj := default [] (as_map (get k m)).

(** A slice that was only appended to. *)
Definition slice (l : list json) : json := match l with [] => JNull | _ => JArr l end.
Definition num (n : Z) : json := JNum (Itoa n).

(** [json.Unmarshal] into [interface{}]: the last of equal members wins. *)
Fixpoint decode_any (N : JsonNum) (j : json) : option json :=
  match j with
  | JNum l => JNum <$> num_text N l
  | JArr l => JArr <$> (fix go l := match l with
                                    | [] => Some []
                                    | x :: r => y ← decode_any N x; ys ← go r; Some (y :: ys)
                                    end) l
  | JObj m => JObj <$> (fix go acc m := match m with
                                        | [] => Some acc
                                        | (k, x) :: r => y ← decode_any N x; go (put k y acc) r
                                        end) [] m
  | _ => Some j
  end.

(** [json.Unmarshal] whose error is ignored: a number out of range is left out as null. *)
Fixpoint decode_lenient (N : JsonNum) (j : json) : json :=
  match j with
  | JNum l => match num_text N l with Some t => JNum t | None => JNull end
  | JArr l => JArr (map (decode_lenient N) l)
  | JObj m => JObj ((fix go acc m := match m with [] => acc | (k, x) :: r => go (put k (decode_lenient N x) acc) r end) [] m)
  | _ => j
  end.

(** Into a [map[string]interface{}]: [Some None] is the nil map of the document [null]. *)
Definition decode_map (N : JsonNum) (data : string) : option (option obj) :=
  j ← json_parse data;
  match j with
  | JNull => Some None
  | JObj _ => match decode_any N j with Some (JObj m) => Some (Some m) | _ => None end
  | _ => None
  end.

(** * tool_name_mapper.go *)

Definition safe_char (c : ascii) : bool :=
  let n := byte_val c in in_range 97 122 n || in_range 65 90 n || in_range 48 57 n || (n =? 95) || (n =? 45).
Definition underscore : ascii := "_"%char.

(** One [_] for every code point that is not allowed; [skip] bytes belong to the last one. *)
Fixpoint sanitize_runes (skip : nat) (l : list ascii) : list ascii :=
  match l with
  | [] => []
  | c :: r =>
      match skip with
      | S k => sanitize_runes k r
      | O => if safe_char c then c :: sanitize_runes 0 r
             else underscore :: sanitize_runes (default 0%nat (utf8_extra c r)) r
      end
  end.
Definition sanitizeToolName (s : string) : string := string_of (sanitize_runes 0 (ascii_list s)).

Record ToolNameMapper := mkMapper {
  forward : gmap string string;
  rev_names : gmap string (string * string);
  used : gset string;
  customTools : gset string
}.
#[global] Instance eta_mapper : Eta ToolNameMapper := fun m => mkMapper (forward m) (rev_names m) (used m) (customTools m).

Definition NewToolNameMapper : ToolNameMapper := mkMapper ∅ ∅ ∅ ∅.

Definition nul : ascii := "000"%char.
Definition mapper_key (namespace name : string) : string := namespace +:+ String nul name.

(** The first free name among [base_i], [base_(i+1)], ... *)
Fixpoint first_free (taken : gset string) (base : string) (fuel : nat) (i : Z) : string :=
  let candidate := base +:+ "_" +:+ Itoa i in
  match fuel with
  | O => candidate
  | S f => if bool_decide (candidate ∈ taken) then first_free taken base f (i + 1) else candidate
  end.

Definition SanitizeAndRegister (m : ToolNameMapper) (namespace name : string) : ToolNameMapper * string :=
  let key := mapper_key namespace name in
  match forward m !! key with
  | Some s => (m, s)
  | None =>
      let full := if is_empty namespace then name else namespace +:+ "." +:+ name in
      let base := sanitizeToolName full in
      let s := if bool_decide (base ∈ used m) then first_free (used m) base (size (used m)) 2 else base in
      (mkMapper (<[key := s]> (forward m)) (<[s := (namespace, name)]> (rev_names m)) ({[s]} ∪ used m) (customTools m), s)
  end.

(** The last dot, neither first nor last. *)
Fixpoint last_dot (s : string) (i : nat) (found : option nat) : option nat :=
  match s with
  | "" => found
  | String c r => last_dot r (S i) (if ascii_dec c "."%char then Some i else found)
  end.
Definition splitChatToolName (name : string) : string * string :=
  match last_dot name 0 None with
  | Some i => if (0 <? i)%nat && (i <? String.length name - 1)%nat
              then (string_take i name, string_drop (S i) name) else ("", name)
  | None => ("", name)
  end.

Definition Restore (m : ToolNameMapper) (sanitized : string) : string * string :=
  match rev_names m !! sanitized with Some e => e | None => splitChatToolName sanitized end.

Definition RegisterCustom (m : ToolNameMapper) (name : string) : ToolNameMapper := m <| customTools := {[name]} ∪ customTools m |>.
(** [m] may be a nil pointer. *)
Definition IsCustom (m : option ToolNameMapper) (name : string) : bool :=
  seqb name "apply_patch" || match m with Some m => bool_decide (name ∈ customTools m) | None => false end.

(** * helpers.go *)

Definition TrimPrefix (s p : string) : string := if HasPrefix s p then string_drop (String.length p) s else s.

Definition chatResponsesID (id prefix : string) : string :=
  if HasPrefix id "chatcmpl-" then prefix +:+ string_drop 9 id
  else if is_empty id then prefix +:+ "mock"
  else if negb (HasPrefix id prefix) then prefix +:+ id else id.

Definition is_alnum (c : ascii) : bool :=
  let n := byte_val c in in_range 97 122 n || in_range 65 90 n || in_range 48 57 n.

Definition NormalizeAnthropicID (id : string) : string :=
  if is_empty id then "msg_mockprobe1234567890"
  else
    let orig := if HasPrefix id "chatcmpl-" then string_drop 9 id else if HasPrefix id "msg_" then string_drop 4 id else id in
    match List.filter is_alnum (ascii_list orig) with
    | [] => "msg_mockprobe1234567890"
    | l => "msg_" +:+ string_of l
    end.

Definition NormalizeToolUseID (id : string) : string :=
  if is_empty id then "toolu_mock"
  else if HasPrefix id "toolu_" then id
  else "toolu_" +:+ TrimPrefix (TrimPrefix id "call_") "toolu-".

Definition EnsureFunctionCallItemID (id : string) : string :=
  if is_empty id then "fc_mock"
  else if HasPrefix id "fc_" then id
  else let res := TrimPrefix (TrimPrefix (TrimPrefix id "call_") "toolu_") "toolu-" in
       if is_empty res then "fc_mock" else "fc_" +:+ res.

Definition EnsureCustomToolCallItemID (id : string) : string :=
  if is_empty id then "ctc_mock"
  else if HasPrefix id "ctc_" then id
  else let res := TrimPrefix (TrimPrefix (TrimPrefix (TrimPrefix id "call_") "fc_") "toolu_") "toolu-" in
       if is_empty res then "ctc_mock" else "ctc_" +:+ res.

Definition first_string (m : obj) (keys : list string) : option string :=
  match omap (fun k => as_string (get k m)) keys with s :: _ => Some s | [] => None end.

Definition ExtractPatchInput (N : JsonNum) (args : string) : string :=
  let trimmed := TrimSpace args in
  if HasPrefix trimmed "{" then
    match decode_map N trimmed with
    | Some (Some m) => default args (first_string m ["patch"; "diff"; "content"; "input"])
    | _ => args
    end
  else args.

(** ** JSON schemas *)

Definition dropped_keys : list string :=
  ["$schema"; "propertyNames"; "minItems"; "maxItems"; "minLength"; "maxLength"; "default"; "pattern"].
Definition dropped (removeAdditionalProps : bool) (f : string * json) : bool :=
  let '(k, v) := f in
  existsb (seqb k) dropped_keys || seqb k "additionalProperties" && removeAdditionalProps ||
  seqb k "required" && match v with JNull => true | _ => false end.

Definition isObjectSchema (m : obj) : bool :=
  match as_string (get "type" m) with
  | Some t => seqb t "object" || bool_decide (is_Some (get "properties" m))
  | None => bool_decide (is_Some (get "properties" m))
  end.

Definition with_required (m : obj) : obj :=
  if isObjectSchema m && negb (bool_decide (is_Some (as_list (get "required" m)))) then put "required" (JArr []) m else m.

(** Objects are cleaned, arrays item by item (only items that are objects), the rest is kept. *)
Fixpoint clean_schema (rm : bool) (j : json) : json :=
  match j with
  | JObj m =>
      JObj (with_required ((fix go m := match m with
        | [] => []
        | (k, v) :: r =>
            if dropped rm (k, v) then go r
            else (k, match v with JArr l => JArr (map (clean_schema rm) l) | _ => clean_schema rm v end) :: go r
        end) m))
  | _ => j
  end.
Definition cleanJSONSchema (m : obj) (removeAdditionalProps : bool) : json := clean_schema removeAdditionalProps (JObj m).

(** ** Messages *)

(** One message of the first pass; [first]: nothing was kept before it. *)
Definition historical (id content : string) : string :=
  "<historical_tool_result id=" +:+ String quote (id +:+ String quote (">" +:+ String "010"%char (content +:+ String "010"%char "</historical_tool_result>"))).
Definition degrade_message (first : bool) (m : json) : json :=
  match m with
  | JObj mm =>
      let role0 := get_str "role" mm in
      let moved := seqb role0 "system" && negb first in
      let role := if moved then "user" else role0 in
      let mm := if moved then put "role" (JStr "user") mm else mm in
      if seqb role "tool" then
        JObj [("role", JStr "user"); ("content", JStr (historical (get_str "tool_call_id" mm) (get_str "content" mm)))]
      else if seqb role "assistant" then JObj [("role", JStr "assistant"); ("content", JStr (get_str "content" mm))]
      else JObj mm
  | _ => m
  end.

(** Strings compare as Go interfaces do: equal if both are missing, or equal values of
    comparable types. *)
Definition scalar_eqb (a b : option json) : bool :=
  match a, b with
  | None, None | Some JNull, Some JNull | None, Some JNull | Some JNull, None => true
  | Some (JStr x), Some (JStr y) => seqb x y
  | Some (JBool x), Some (JBool y) => bool_decide (x = y)
  | Some (JNum x), Some (JNum y) => seqb x y
  | _, _ => false
  end.

(** The second pass: [acc] is the result so far, last message first. *)
Definition merge_message (acc : list json) (m : json) : list json :=
  match m, acc with
  | JObj mm, JObj last :: rest =>
      if scalar_eqb (get "role" last) (get "role" mm) then
        match as_string (get "content" last), as_string (get "content" mm) with
        | Some a, Some b => JObj (put "content" (JStr (a +:+ String "010"%char (String "010"%char b))) last) :: rest
        | _, _ => m :: acc
        end
      else m :: acc
  | _, _ => m :: acc
  end.

Definition degrade_all (msgs : list json) : list json :=
  match msgs with [] => [] | m :: r => degrade_message true m :: map (degrade_message false) r end.
Definition degradeMessagesToTextOnly (msgs : list json) : list json :=
  rev (fold_left merge_message (degrade_all msgs) []).

Definition cleanSystemPrompt (prompt : string) : string :=
  Join (List.filter (fun line => negb (HasPrefix (TrimSpace line) "x-anthropic-")) (SplitByte prompt "010"%char)) (String "010"%char "").

(** * reasoning.go *)

Definition DefaultMessagesMaxTokens : Z := 8192.
Definition MinThinkingBudget : Z := 1024.

Definition reasoningEffortBudget (effort : string) : option Z :=
  if seqb effort "minimal" || seqb effort "low" then Some MinThinkingBudget
  else if seqb effort "medium" then Some 4096
  else if seqb effort "high" then Some 16384 else None.

Fixpoint firstNonEmptyReasoning (values : list string) : string :=
  match values with [] => "" | v :: r => if is_empty v then firstNonEmptyReasoning r else v end.
Definition chatResponsesReasoning (reasoningContent reasoning : string) : string :=
  firstNonEmptyReasoning [reasoningContent; reasoning].
Definition chatMessagesStreamReasoning (reasoningContent thinking reasoning thought : string) : string :=
  firstNonEmptyReasoning [reasoningContent; thinking; reasoning; thought].

Definition responsesReasoningEffort (payload : obj) : string := get_str "effort" (sub_map "reasoning" payload).
Definition hasReasoningEffort (effort : string) : bool := negb (is_empty effort) && negb (seqb effort "none").

Definition applyAssistantReasoning (message : obj) (text : string) (enabled : bool) : obj :=
  if negb (seqb (get_str "role" message) "assistant") then message
  else if negb (is_empty text) then put "reasoning_content" (JStr text) message
  else if enabled && negb (bool_decide (is_Some (get "reasoning_content" message))) then put "reasoning_content" (JStr "") message
  else message.

(** A message that carries reasoning already. *)
Definition has_reasoning (m : json) : bool :=
  match m with
  | JObj mm => match get "reasoning_content" mm with None | Some JNull => false | Some _ => true end
  | _ => false
  end.

Definition EnsureChatReasoningHistory (payload : obj) : obj :=
  let kind := get_str "type" (sub_map "thinking" payload) in
  let asked := hasReasoningEffort (get_str "reasoning_effort" payload) || negb (is_empty kind) && negb (seqb kind "disabled") in
  match as_list (get "messages" payload) with
  | None => payload
  | Some msgs =>
      if asked || existsb has_reasoning msgs then
        put "messages" (JArr (map (fun m => match m with JObj mm => JObj (applyAssistantReasoning mm "" true) | _ => m end) msgs)) payload
      else payload
  end.

Definition reasoningPartsText (parts : list json) : string :=
  Join (map (fun p => match p with JObj m => get_str "text" m | JStr s => s | _ => "" end) parts) "".

Definition extractReasoningSummary (item : obj) : string :=
  let fromSummary := match as_list (get "summary" item) with Some l => reasoningPartsText l | None => "" end in
  if negb (is_empty fromSummary) then fromSummary
  else
    let text := firstNonEmptyReasoning [get_str "summary" item; get_str "reasoning_content" item; get_str "text" item] in
    if negb (is_empty text) then text
    else match as_list (get "content" item) with Some l => reasoningPartsText l | None => "" end.

Definition thinkingText (block : obj) : string := get_str "thinking" block.
Definition messagesThinkingBlock (text : string) : obj := [("type", JStr "thinking"); ("thinking", JStr text)].

Definition responsesReasoningToThinking (item : obj) : option obj :=
  let signature := get_str "encrypted_content" item in
  if is_empty signature then None
  else
    let parts := match as_list (get "summary" item) with
                 | Some l => omap (fun p => match p with JObj m => as_string (get "text" m) | _ => None end) l
                 | None => []
                 end in
    Some (put "signature" (JStr signature) (messagesThinkingBlock (Join parts (String "010"%char "")))).

Definition reasoningSummaryPart (text : string) : json := JObj [("type", JStr "summary_text"); ("text", JStr text)].
Definition reasoningSummary (text : string) : list json := [reasoningSummaryPart text].

Definition responsesReasoningItem (id : string) (summary : list json) (encryptedContent : string) : obj :=
  let item := [("id", JStr id); ("type", JStr "reasoning"); ("summary", JArr summary)] in
  if is_empty encryptedContent then item else put "encrypted_content" (JStr encryptedContent) item.

Definition completedChatReasoningItem (id text : string) : obj :=
  put "status" (JStr "completed") (responsesReasoningItem id (reasoningSummary text) "").

(** The thinking configuration, [max_tokens] and the warnings. *)
Definition thinking_config (budget : Z) : obj := [("type", JStr "enabled"); ("budget_tokens", num budget)].
Definition cap (limit n : Z) : Z := if (0 <? limit) && (limit <? n) then limit else n.

Definition resolveThinking (N : JsonNum) (payload : obj) (maxOutputTokens : option Z) : option obj * Z * list string :=
  let limit := match maxOutputTokens with Some n => if 0 <? n then n else 0 | None => 0 end in
  let defaultMax := if 0 <? limit then limit else DefaultMessagesMaxTokens in
  let clientMax := match as_float N (get "max_output_tokens" payload) with
                   | Some x => if flt fzero x then Some x else None
                   | None => None
                   end in
  match reasoningEffortBudget (responsesReasoningEffort payload) with
  | None => (None, match clientMax with Some x => cap limit (to_int64 x) | None => defaultMax end, [])
  | Some budget =>
      match clientMax with
      | None => (Some (thinking_config budget), cap limit (wrap64 (budget + defaultMax)), [])
      | Some x =>
          let maxTokens := cap limit (to_int64 x) in
          let room := wrap64 (maxTokens - MinThinkingBudget) in
          let budget := if room <? budget then room else budget in
          if budget <? MinThinkingBudget then
            (None, maxTokens, ["thinking disabled: max_output_tokens " +:+ Itoa maxTokens +:+ " cannot fit budget + " +:+ Itoa MinThinkingBudget +:+ " output tokens"])
          else (Some (thinking_config budget), maxTokens, [])
      end
  end.

(** * Tool names: theorems *)

Lemma sanitize_safe l : forall skip, forallb safe_char (sanitize_runes skip l) = true.
Proof.
  induction l as [|c l IH]; intros [|k]; cbn; [done..| |apply IH].
  destruct (safe_char c) eqn:E; cbn; [by rewrite E, IH|by rewrite IH].
Qed.

Definition safe_name (s : string) : bool := forallb safe_char (ascii_list s).

Lemma sanitizeToolName_safe s : safe_name (sanitizeToolName s) = true.
Proof. unfold safe_name, sanitizeToolName. rewrite ascii_list_of. apply sanitize_safe. Qed.

Lemma append_inj_r (s t u : string) : s +:+ t = s +:+ u -> t = u.
Proof. induction s as [|c s IH]; [done|]. intros [= E]. by apply IH. Qed.

Lemma candidate_inj base i j : base +:+ "_" +:+ Itoa i = base +:+ "_" +:+ Itoa j -> i = j.
Proof. intros E%append_inj_r%(append_inj_r "_"). by apply (inj pretty.pretty) in E. Qed.

Lemma first_free_candidate taken base fuel : forall i, exists j, i <= j /\ first_free taken base fuel i = base +:+ "_" +:+ Itoa j.
Proof.
  induction fuel as [|f IH]; intros i; cbn [first_free]; [by exists i; split; [lia|]|].
  case_bool_decide; [|by exists i; split; [lia|]]. destruct (IH (i + 1)) as (j & L & E). exists j. split; [lia|done].
Qed.

Lemma first_free_ext t1 t2 base fuel : forall i,
  (forall j, i <= j -> base +:+ "_" +:+ Itoa j ∈ t1 <-> base +:+ "_" +:+ Itoa j ∈ t2) ->
  first_free t1 base fuel i = first_free t2 base fuel i.
Proof.
  induction fuel as [|f IH]; intros i H; cbn [first_free]; [done|].
  rewrite (bool_decide_ext _ _ (H i ltac:(lia))). case_bool_decide; [|done]. apply IH. intros j L. apply H. lia.
Qed.

(** The search ends at a free name: there are more candidates than names in use. *)
Lemma first_free_free base fuel : forall taken i, (size taken <= fuel)%nat -> first_free taken base fuel i ∉ taken.
Proof.
  induction fuel as [|f IH]; intros taken i L; cbn [first_free].
  - apply Nat.le_0_r, size_empty_inv in L. set_solver.
  - case_bool_decide as C; [|done]. set (c := base +:+ "_" +:+ Itoa i) in *.
    assert (first_free taken base f (i + 1) = first_free (taken ∖ {[c]}) base f (i + 1)) as E.
    { apply first_free_ext. intros j Lj. rewrite elem_of_difference, elem_of_singleton. split; [|naive_solver].
      intros T. split; [done|]. intros Q%candidate_inj. lia. }
    rewrite E. destruct (first_free_candidate (taken ∖ {[c]}) base f (i + 1)) as (j & Lj & Ej).
    specialize (IH (taken ∖ {[c]}) (i + 1)). rewrite size_difference in IH by set_solver. rewrite size_singleton in IH.
    specialize (IH ltac:(lia)). intros T. apply IH. apply elem_of_difference. split; [done|].
    rewrite elem_of_singleton, Ej. intros Q%candidate_inj. lia.
Qed.

(** A namespace without the separator of the keys. *)
Definition nul_free (s : string) : Prop := nul ∉ ascii_list s.

Lemma mapper_key_inj a n b k : nul_free a -> nul_free b -> mapper_key a n = mapper_key b k -> a = b /\ n = k.
Proof.
  intros Na Nb E. unfold mapper_key in E. apply (f_equal ascii_list) in E as E'. rewrite !ascii_list_app in E'. cbn in E'.
  assert (ascii_list a = ascii_list b) as Q by (by eapply before_separator).
  apply (f_equal string_of) in Q. rewrite !string_of_list in Q. subst b. split; [done|].
  apply append_inj_r in E. congruence.
Qed.

Record mapper_inv (m : ToolNameMapper) : Prop := {
  mi_forward : forall k s, forward m !! k = Some s ->
    exists ns n, k = mapper_key ns n /\ nul_free ns /\ rev_names m !! s = Some (ns, n) /\ safe_name s = true;
  mi_used : forall s, is_Some (rev_names m !! s) -> s ∈ used m
}.

(** Names that were handed out keep their meaning. *)
Definition mapper_grows (m m' : ToolNameMapper) : Prop := rev_names m ⊆ rev_names m'.

Lemma candidate_safe base j : safe_name base = true -> 0 <= j -> safe_name (base +:+ "_" +:+ Itoa j) = true.
Proof.
  intros B J. unfold safe_name in *. rewrite !ascii_list_app, !forallb_app, B. cbn [ascii_list forallb andb].
  destruct j as [|p|p]; [reflexivity| |lia].
  destruct (Itoa_pos p) as (d & ds & -> & D1 & D2 & _). change (safe_char "_") with true. cbn [andb].
  assert (forall c, is_digit c = true -> safe_char c = true) as S.
  { intros c. pose proof (all_bytes (fun c => implb (is_digit c) (safe_char c)) ltac:(vm_compute; reflexivity) c) as Q.
    cbn beta in Q. by destruct (is_digit c). }
  cbn [forallb]. unfold is_digit19 in D1. apply andb_true_iff in D1 as [D1 _]. rewrite (S d D1).
  cbn [andb]. apply forallb_forall. rewrite forallb_forall in D2. intros c Hc. apply S. by apply D2.
Qed.

Lemma register_inv m ns n : mapper_inv m -> nul_free ns ->
  let '(m', s) := SanitizeAndRegister m ns n in
  mapper_inv m' /\ mapper_grows m m' /\ rev_names m' !! s = Some (ns, n) /\ safe_name s = true.
Proof.
  intros I Nf. unfold SanitizeAndRegister. destruct (forward m !! mapper_key ns n) as [s|] eqn:F.
  { destruct (mi_forward m I _ _ F) as (ns' & n' & K & Nf' & R & S). apply mapper_key_inj in K as [-> ->]; [|done..].
    split_and!; try done. apply map_subseteq_spec. naive_solver. }
  cbn zeta. set (base := sanitizeToolName _). pose proof (sanitizeToolName_safe (if is_empty ns then n else ns +:+ "." +:+ n)) as Sb. fold base in Sb.
  assert (exists s, (if bool_decide (base ∈ used m) then first_free (used m) base (size (used m)) 2 else base) = s /\ s ∉ used m /\ safe_name s = true)
    as (s & -> & Fresh & Safe).
  { case_bool_decide as C; [|by exists base]. eexists. split; [done|]. split; [by apply first_free_free|].
    destruct (first_free_candidate (used m) base (size (used m)) 2) as (j & Lj & ->). apply candidate_safe; [done|lia]. }
  assert (rev_names m !! s = None) as Rn by (apply eq_None_not_Some; intros Q; apply Fresh, (mi_used m I), Q).
  split_and!; [|by apply insert_subseteq|apply lookup_insert_eq|done]. split; cbn.
  - intros k t. destruct (decide (k = mapper_key ns n)) as [->|N].
    + rewrite lookup_insert_eq. intros [= <-]. exists ns, n. split_and!; [done|done|by rewrite lookup_insert_eq|done].
    + rewrite lookup_insert_ne by done. intros E. destruct (mi_forward m I k t E) as (ns' & n' & -> & Nf' & R & S).
      exists ns', n'. split_and!; [done|done| |done]. rewrite lookup_insert_ne; [done|]. intros <-. by rewrite Rn in R.
  - intros t. destruct (decide (t = s)) as [->|N]; [set_solver|]. rewrite lookup_insert_ne by done. intros Q%(mi_used m I). set_solver.
Qed.

(** The tools of a request, registered in order. *)
Fixpoint register_all (m : ToolNameMapper) (tools : list (string * string)) : ToolNameMapper * list string :=
  match tools with
  | [] => (m, [])
  | (ns, n) :: r => let '(m, s) := SanitizeAndRegister m ns n in let '(m, l) := register_all m r in (m, s :: l)
  end.

Lemma register_all_inv tools : forall m, mapper_inv m -> Forall (fun t => nul_free (fst t)) tools ->
  let '(m', names) := register_all m tools in
  mapper_grows m m' /\ Forall2 (fun t s => rev_names m' !! s = Some t /\ safe_name s = true) tools names.
Proof.
  induction tools as [|[ns n] tools IH]; intros m I Nf; cbn [register_all]; [by split; [apply map_subseteq_spec; naive_solver|constructor]|].
  apply Forall_cons in Nf as [N1 N2]. pose proof (register_inv m ns n I N1) as R.
  destruct (SanitizeAndRegister m ns n) as [m1 s]. destruct R as (I1 & G1 & E1 & S1). specialize (IH m1 I1 N2).
  destruct (register_all m1 tools) as [m2 l]. destruct IH as [G2 F]. split; [unfold mapper_grows in *; by transitivity (rev_names m1)|].
  constructor; [|done]. split; [|done]. by apply (lookup_weaken (rev_names m1)).
Qed.

(** tool names survive the trip through an upstream that only accepts plain names: the
    names handed out for the tools of a request consist of letters, digits, [_] and [-],
    and each of them is restored to exactly the namespace and name it was made for, so two
    different tools never share one - whatever they are called, as long as the
    namespaces contain no NUL. *)
Theorem tool_names_roundtrip (tools : list (string * string)) (m : ToolNameMapper) (names : list string)
  (Hns : Forall (fun t => nul_free (fst t)) tools) (Hrun : register_all NewToolNameMapper tools = (m, names)) :
  Forall2 (fun t s => Restore m s = t /\ safe_name s = true) tools names.
Proof.
  assert (mapper_inv NewToolNameMapper) as I by (split; [done|intros s []; done]).
  pose proof (register_all_inv tools NewToolNameMapper I Hns) as R. rewrite Hrun in R. destruct R as [_ F].
  eapply Forall2_impl; [exact F|]. intros t s [E S]. split; [|done]. unfold Restore. by rewrite E.
Qed.

Definition demo_tools : list (string * string) := [("fs", "read"); ("", "fs.read"); ("", "fs_read"); ("", "fs_read_2"); ("git", "log")].

Lemma tool_names_roundtrip_witness :
  snd (register_all NewToolNameMapper demo_tools) = ["fs_read"; "fs_read_2"; "fs_read_3"; "fs_read_2_2"; "git_log"] /\
  Restore (fst (register_all NewToolNameMapper demo_tools)) "fs_read_2" = ("", "fs.read").
Proof.
  split; [vm_compute; reflexivity|].
  assert (Forall (fun t => nul_free (fst t)) demo_tools) as H.
  { repeat constructor; unfold nul_free; cbn; intros E; repeat (apply elem_of_cons in E as [E|E]; [discriminate|]); by apply elem_of_nil in E. }
  pose proof (tool_names_roundtrip demo_tools _ _ H (surjective_pairing _)) as F.
  apply (Forall2_lookup_lr _ _ _ 1%nat ("", "fs.read") "fs_read_2") in F; [exact (proj1 F)|reflexivity|vm_compute; reflexivity].
Defined.

(** With a NUL in the namespace two tools share a key, and the second is restored as the first. *)
Lemma nul_namespace_confused :
  let m := fst (SanitizeAndRegister NewToolNameMapper (String nul "") "x") in
  Restore m (snd (SanitizeAndRegister m "" (String nul "x"))) <> ("", String nul "x").
Proof. vm_compute. discriminate. Qed.

(** * Schemas: theorems *)

(** The fixed points of the cleaning, in its own terms: a device of the proofs below. *)
Fixpoint fixed_form (rm : bool) (j : json) : bool :=
  match j with
  | JObj m =>
      forallb (fun f => negb (dropped rm f)) m &&
      (negb (isObjectSchema m) || bool_decide (is_Some (as_list (get "required" m)))) &&
      (fix go m := match m with
        | [] => true
        | (_, v) :: r => match v with JArr l => forallb (fixed_form rm) l | _ => fixed_form rm v end && go r
        end) m
  | _ => true
  end.

(** The member-wise part of both recursions. *)
Definition clean_value (rm : bool) (v : json) : json := match v with JArr l => JArr (map (clean_schema rm) l) | _ => clean_schema rm v end.
Definition value_ok (rm : bool) (v : json) : bool := match v with JArr l => forallb (fixed_form rm) l | _ => fixed_form rm v end.
Fixpoint clean_members (rm : bool) (m : obj) : obj :=
  match m with
  | [] => []
  | (k, v) :: r => if dropped rm (k, v) then clean_members rm r else (k, clean_value rm v) :: clean_members rm r
  end.
Definition members_ok (rm : bool) (m : obj) : bool := forallb (fun f => value_ok rm (snd f)) m.

Lemma clean_schema_obj rm m : clean_schema rm (JObj m) = JObj (with_required (clean_members rm m)).
Proof.
  cbn [clean_schema]. do 2 f_equal. induction m as [|[k v] m IH]; [done|]. cbn [clean_members].
  rewrite IH. by destruct (dropped rm (k, v)).
Qed.
Lemma fixed_form_obj rm m : fixed_form rm (JObj m) =
  forallb (fun f => negb (dropped rm f)) m && (negb (isObjectSchema m) || bool_decide (is_Some (as_list (get "required" m)))) && members_ok rm m.
Proof. cbn [fixed_form]. f_equal. induction m as [|[k v] m IH]; [done|]. cbn. by rewrite IH. Qed.

Lemma get_del_ne k k' m : k <> k' -> get k (del k' m) = get k m.
Proof.
  intros N. unfold del. induction m as [|[k0 v] m IH]; [done|]. cbn. destruct (seqb k' k0) eqn:E; cbn; rewrite IH; [|done].
  sbool. subst. by rewrite (proj2 (seqb_neq k k0) N).
Qed.
Lemma get_del_same k m : get k (del k m) = None.
Proof. induction m as [|[k' v] m IH]; cbn; [done|]. destruct (seqb k k') eqn:E; cbn; [done|]. by rewrite E. Qed.
Lemma get_put k k' v m : get k (put k' v m) = if seqb k k' then Some v else get k m.
Proof. unfold put. cbn. destruct (seqb k k') eqn:E; [done|]. sbool. by apply get_del_ne. Qed.

Lemma forallb_del {f : string * json -> bool} k m : forallb f m = true -> forallb f (del k m) = true.
Proof. rewrite !forallb_forall. intros H x [Hx _]%filter_In. auto. Qed.

Lemma isObjectSchema_required v m : isObjectSchema (put "required" v m) = isObjectSchema m.
Proof. unfold isObjectSchema. by rewrite !get_put. Qed.

(** Completing the required list keeps clean members clean. *)
Lemma with_required_ok rm m : forallb (fun f => negb (dropped rm f)) m = true -> members_ok rm m = true ->
  fixed_form rm (JObj (with_required m)) = true.
Proof.
  intros D M. rewrite fixed_form_obj. unfold with_required, members_ok in *. destruct (isObjectSchema m && _) eqn:E.
  - rewrite isObjectSchema_required, get_put, seqb_refl. cbn [as_list]. rewrite (bool_decide_eq_true_2 (is_Some (Some []))) by eauto.
    rewrite orb_true_r. unfold put. cbn [forallb snd]. rewrite !forallb_del by done. by vm_compute.
  - rewrite D, M. destruct (isObjectSchema m); [|done]. cbn in E. by destruct (bool_decide _).
Qed.

Lemma dropped_clean rm k v : dropped rm (k, clean_value rm v) = dropped rm (k, v).
Proof. unfold dropped. do 2 f_equal. by destruct v. Qed.

Lemma clean_members_ok rm m : Forall (fun f => value_ok rm (clean_value rm (snd f)) = true) m ->
  forallb (fun f => negb (dropped rm f)) (clean_members rm m) = true /\ members_ok rm (clean_members rm m) = true.
Proof.
  induction m as [|[k v] m IH]; [done|]. intros [V F]%Forall_cons. specialize (IH F) as [A B]. cbn [clean_members].
  destruct (dropped rm (k, v)) eqn:D; [done|]. unfold members_ok in *. cbn [forallb snd] in *. by rewrite dropped_clean, D, A, B, V.
Qed.

Lemma clean_fixed_form rm j : fixed_form rm (clean_schema rm j) = true /\ value_ok rm (clean_value rm j) = true.
Proof.
  induction j as [| | | |l IH|m IH] using json_nested_ind; try done.
  - split; [done|]. cbn. apply forallb_forall. intros x (y & <- & Hy)%in_map_iff. apply list_elem_of_In in Hy.
    rewrite Forall_forall in IH. by apply IH.
  - unfold clean_value, value_ok. rewrite clean_schema_obj.
    assert (fixed_form rm (JObj (with_required (clean_members rm m))) = true); [|done].
    destruct (clean_members_ok rm m) as [A B]; [eapply Forall_impl; [exact IH|]; by intros f []|]. by apply with_required_ok.
Qed.


(** ** What strict upstreams are sent, stated on the documents *)

Definition unsupported_keywords : list string :=
  ["$schema"; "propertyNames"; "minItems"; "maxItems"; "minLength"; "maxLength"; "default"; "pattern"].


(** A place in a document, and what is there. *)
Inductive place_step := Member (k : string) | Item (i : nat).
Fixpoint value_at (p : list place_step) (j : json) : option json :=
  match p with
  | [] => Some j
  | Member k :: p => match j with JObj m => get k m ≫= value_at p | _ => None end
  | Item i :: p => match j with JArr l => l !! i ≫= value_at p | _ => None end
  end.

(** A place that no unsupported keyword leads to; [required] lists are spoken of apart. *)
Definition supported_step (rm : bool) (x : place_step) : Prop :=
  match x with
  | Member k => k ∉ unsupported_keywords /\ k <> "required" /\ (rm = true -> k <> "additionalProperties")
  | Item _ => True
  end.

Lemma dropped_supported rm k v : supported_step rm (Member k) -> dropped rm (k, v) = false.
Proof.
  intros (U & R & A). unfold dropped. rewrite (proj2 (seqb_neq k "required") R), andb_false_l, orb_false_r. apply orb_false_iff. split.
  - apply not_true_iff_false. rewrite existsb_exists. intros (x & Hx & E). sbool. subst x. by apply U, list_elem_of_In.
  - destruct rm; [|apply andb_false_r]. by rewrite (proj2 (seqb_neq k _) (A eq_refl)).
Qed.

Lemma get_clean_members rm m k : (forall v, get k m = Some v -> dropped rm (k, v) = false) -> get k (clean_members rm m) = clean_value rm <$> get k m.
Proof.
  induction m as [|[k' v] m IH]; [done|]. cbn [get clean_members]. destruct (seqb k k') eqn:E.
  - intros D. sbool. subst k'. rewrite (D v eq_refl). cbn [get]. by rewrite seqb_refl.
  - intros D. destruct (dropped rm (k', v)); [by apply IH|]. cbn [get]. rewrite E. by apply IH.
Qed.
Lemma get_with_required k m : k <> "required" -> get k (with_required m) = get k m.
Proof. intros N. unfold with_required. destruct (_ && _); [|done]. rewrite get_put. by rewrite (proj2 (seqb_neq k _) N). Qed.

(** Cleaning moves nothing: at a supported place of the cleaned document is what was there, itself cleaned or as it was. *)
Lemma value_at_clean rm p : Forall (supported_step rm) p -> forall clean, (clean = clean_value rm \/ clean = clean_schema rm \/ clean = id) -> forall j,
  exists clean', (clean' = clean_value rm \/ clean' = clean_schema rm \/ clean' = id) /\ value_at p (clean j) = clean' <$> value_at p j.
Proof.
  induction 1 as [|x p S F IH]; intros clean C j; [by exists clean|].
  assert (exists clean', (clean' = clean_value rm \/ clean' = clean_schema rm \/ clean' = id) /\ @None json = clean' <$> @None json) as No by (exists id; auto).
  destruct x as [k|i].
  - destruct j as [| | | | |m]; try (destruct C as [->|[->| ->]]; exact No).
    assert (clean (JObj m) = JObj m \/ clean (JObj m) = clean_schema rm (JObj m)) as [-> | ->] by (destruct C as [->|[->| ->]]; auto).
    { exists id. split; [auto|]. by destruct (value_at (Member k :: p) (JObj m)). }
    rewrite clean_schema_obj. cbn [value_at]. rewrite get_with_required by apply S. rewrite get_clean_members by (intros; by apply dropped_supported).
    destruct (get k m) as [v|]; [|exact No]. cbn. apply IH. auto.
  - destruct j as [| | | |l|m]; try (destruct C as [->|[->| ->]]; exact No).
    destruct C as [->|[->| ->]]; [|exists id; split; [auto|]; cbn; by destruct (l !! i ≫= _)..]. cbn [clean_value value_at].
    change (map (clean_schema rm) l) with (clean_schema rm <$> l). rewrite list_lookup_fmap. destruct (l !! i) as [v|]; [|exact No]. cbn. apply IH. auto.
Qed.


(** What a fixed form is, object by object. *)
Definition strict_object (rm : bool) (o : list (string * json)) : Prop :=
  (forall k, k ∈ unsupported_keywords -> get k o = None) /\
  (rm = true -> get "additionalProperties" o = None) /\
  (get "type" o = Some (JStr "object") \/ is_Some (get "properties" o) -> exists l, get "required" o = Some (JArr l)).

Lemma get_none_forallb rm k m : (forall v, dropped rm (k, v) = true) -> forallb (fun f => negb (dropped rm f)) m = true -> get k m = None.
Proof.
  intros D. induction m as [|[k' v] m IH]; [done|]. cbn [forallb get]. rewrite andb_true_iff. intros [N F]. destruct (seqb k k') eqn:E; [|by apply IH].
  sbool. subst k'. by rewrite D in N.
Qed.
Lemma fixed_form_strict rm m : fixed_form rm (JObj m) = true -> strict_object rm m.
Proof.
  rewrite fixed_form_obj, !andb_true_iff. intros [[D R] _]. split_and!.
  - intros k Hk. eapply get_none_forallb; [|exact D]. intros v. unfold dropped. rewrite (proj2 (existsb_exists _ _)); [done|].
    exists k. split; [|apply seqb_refl]. change dropped_keys with unsupported_keywords. by apply list_elem_of_In.
  - intros ->. eapply get_none_forallb; [|exact D]. intros v. unfold dropped. by rewrite seqb_refl, orb_true_r.
  - intros O. assert (isObjectSchema m = true) as E.
    { unfold isObjectSchema. destruct O as [->|P]; [done|]. rewrite (bool_decide_eq_true_2 _ P). destruct (as_string _); [apply orb_true_r|done]. }
    rewrite E in R. cbn in R. apply bool_decide_eq_true in R. destruct (get "required" m) as [[]|]; cbn in R; destruct R as [? R]; try done. eauto.
Qed.

Lemma required_list_kept rm p m o names : Forall (supported_step rm) p -> value_at p (JObj m) = Some (JObj o) -> get "required" o = Some (JArr (map JStr names)) ->
  exists o', value_at p (cleanJSONSchema m rm) = Some (JObj o') /\ get "required" o' = Some (JArr (map JStr names)).
Proof.
  intros S V G. destruct (value_at_clean rm p S (clean_schema rm) (or_intror (or_introl eq_refl)) (JObj m)) as (clean & C & E). unfold cleanJSONSchema.
  rewrite E, V. destruct C as [->|[->| ->]]; cbn [fmap option_fmap option_map clean_value id]; [..|by eexists]; rewrite clean_schema_obj; (eexists; split; [done|]).
  all: assert (get "required" (clean_members rm o) = Some (JArr (map JStr names))) as R.
  1,3: rewrite get_clean_members; rewrite ?G; [cbn; do 2 f_equal; rewrite map_map; by apply map_ext|intros v [= <-]; unfold dropped; cbn; by destruct rm].
  all: unfold with_required; rewrite R; cbn [as_list]; by rewrite (bool_decide_eq_true_2 (is_Some (Some _))) by eauto; rewrite andb_false_r.
Qed.


(** A tool parameter with the name of such a keyword is deleted with it, while the [required] list still names it. *)
Lemma clean_schema_drops_parameter (m props : list (string * json)) (rm : bool) (k : string) (names : list string) :
  k ∈ unsupported_keywords -> get "properties" m = Some (JObj props) -> get "required" m = Some (JArr (map JStr names)) ->
  value_at [Member "properties"; Member k] (cleanJSONSchema m rm) = None /\ value_at [Member "required"] (cleanJSONSchema m rm) = Some (JArr (map JStr names)).
Proof.
  intros K P R. pose proof (proj1 (clean_fixed_form rm (JObj m))) as O. split.
  - unfold cleanJSONSchema in *. rewrite clean_schema_obj in *. cbn [value_at]. rewrite get_with_required by done.
    rewrite get_clean_members by (intros v _; destruct rm; reflexivity). rewrite P. cbn [fmap option_fmap option_map mbind option_bind clean_value].
    pose proof (proj1 (clean_fixed_form rm (JObj props))) as Op. rewrite clean_schema_obj in *. apply fixed_form_strict in Op as [Op _]. by rewrite (Op k K).
  - destruct (required_list_kept rm [] m m names) as (o' & E & G); [done..|]. cbn [value_at] in E. apply Some_inj in E. rewrite E. cbn. by rewrite G.
Qed.

(** * Thinking: theorems *)

Lemma to_int64_range x : in_int64 (to_int64 x).
Proof.
  unfold to_int64, in_int64. destruct (ftrunc x) as [z|]; [destruct (_ && _) eqn:E; zbool|]; unfold min_int64, max_int64 in *; lia.
Qed.

(** a client's own output cap leaves room for the answer: when a request names a positive
    [max_output_tokens] and thinking stays on, its budget is at least the provider's
    minimum and the answer keeps at least that many tokens of the resolved maximum. *)
Theorem thinking_budget_fits (N : JsonNum) (payload : list (string * json)) (limit : option Z) (th : list (string * json)) (max : Z)
  (warns : list string) (x : float64)
  (Hclient : as_float N (get "max_output_tokens" payload) = Some x) (Hpos : flt fzero x = true)
  (Hrun : resolveThinking N payload limit = (Some th, max, warns)) (Hmax : 0 <= max) :
  exists b, th = thinking_config b /\ MinThinkingBudget <= b /\ b + MinThinkingBudget <= max.
Proof.
  unfold resolveThinking in Hrun. rewrite Hclient, Hpos in Hrun. destruct (reasoningEffortBudget _) as [budget|]; [|done].
  set (lim := match limit with Some n => _ | None => 0 end) in *. set (m0 := cap lim (to_int64 x)) in *.
  assert (m0 <= max_int64) as Hm.
  { pose proof (to_int64_range x) as [_ R]. unfold m0, cap. destruct (_ && _) eqn:E; zbool; lia. }
  clearbody m0. destruct (_ <? MinThinkingBudget) eqn:B; [done|]. injection Hrun as <- <- <-. eexists. split; [done|].
  rewrite wrap64_small in * by (unfold in_int64, MinThinkingBudget, min_int64, max_int64 in *; lia).
  destruct (m0 - MinThinkingBudget <? budget) eqn:C; zbool; lia.
Qed.

Definition demo_num : JsonNum := mkJsonNum Some (fun l => match ParseInt l with Some z => of_int z | None => fzero end).

Lemma thinking_budget_fits_witness : exists b,
  resolveThinking demo_num [("reasoning", JObj [("effort", JStr "high")]); ("max_output_tokens", JNum "9000")] None =
    (Some (thinking_config b), 9000, []) /\ b + MinThinkingBudget <= 9000.
Proof.
  destruct (thinking_budget_fits demo_num [("reasoning", JObj [("effort", JStr "high")]); ("max_output_tokens", JNum "9000")]
    None (thinking_config 7976) 9000 [] (of_int 9000) eq_refl) as (b & E & _ & L); [by vm_compute|by vm_compute|lia|].
  exists b. split; [|exact L]. rewrite <- E. by vm_compute.
Defined.

(** Without a client cap the endpoint's limit is applied after the budget was chosen, so the
    budget can exceed the maximum it is part of. *)
Lemma thinking_budget_exceeds_limit :
  resolveThinking demo_num [("reasoning", JObj [("effort", JStr "high")])] (Some 8192) = (Some (thinking_config 16384), 8192, []).
Proof. by vm_compute. Qed.
