(* ===== verification/TranslateWire.v ===== *)
(** Documents of the translators on the wire: a Go map has no order, so a document that is
    printed and read again is the same up to the order of its members.  What the
    translators read of a document does not depend on that order. *)

From Stdlib Require Import Ascii.
From S2P Require Import Prelude GoFloat GoStrings GoTime GoJson GoPrint Matcher Policy Types Context Http Translate.

(** * The same document *)

Definition same (j j' : json) : Prop := sort_keys j = sort_keys j' /\ distinct_keys j = true /\ distinct_keys j' = true.

#[global] Instance same_symmetric : Symmetric same.
Proof. unfold same. intros j j'. naive_solver. Qed.
#[global] Instance same_transitive : Transitive same.
Proof. intros j1 j2 j3 (E1 & D1 & _) (E2 & _ & D3). split_and!; [by rewrite E1|done..]. Qed.
#[global] Instance Marshal_same : Proper (same ==> eq) Marshal.
Proof. intros j j' [E _]. unfold Marshal. by rewrite E. Qed.

Lemma distinct_obj m : distinct_keys (JObj m) = true <-> NoDup (map fst m) /\ Forall (fun f => distinct_keys (snd f) = true) m.
Proof.
  cbn. rewrite andb_true_iff, bool_decide_eq_true, forallb_forall, Forall_forall. apply and_iff_compat_l.
  split; intros H f Hf; apply H; by apply list_elem_of_In.
Qed.

Lemma get_elem k v m : NoDup (map fst m) -> get k m = Some v <-> (k, v) ∈ m.
Proof.
  induction m as [|[k' v'] m IH]; intros D; cbn in *; [split; [done|intros H; by apply not_elem_of_nil in H]|]. apply NoDup_cons in D as [D1 D].
  rewrite elem_of_cons. destruct (seqb k k') eqn:E; sbool.
  - subst k'. split; [intros [= ->]; by left|]. intros [[= ->]|H]; [done|]. destruct D1. apply list_elem_of_fmap. by exists (k, v).
  - rewrite IH by done. split; [by right|]. intros [[= -> ->]|H]; done.
Qed.

Lemma same_get_1 k v m m' : same (JObj m) (JObj m') -> get k m = Some v -> exists v', get k m' = Some v' /\ same v v'.
Proof.
  intros (E & D & D') G. apply distinct_obj in D as [D F], D' as [D' F']. rewrite !sort_keys_obj in E. injection E as E.
  apply get_elem in G; [|done].
  assert ((k, sort_keys v) ∈ map (fun f => (fst f, sort_keys (snd f))) m') as H.
  { rewrite <- sort_members_perm, <- E, sort_members_perm. apply list_elem_of_fmap. by exists (k, v). }
  apply list_elem_of_fmap in H as ([k' v'] & [= -> Ev] & H). exists v'. split; [by apply get_elem|]. rewrite Forall_forall in F, F'.
  split_and!; [done|apply (F _ G)|apply (F' _ H)].
Qed.

Lemma same_get k m m' : same (JObj m) (JObj m') -> option_Forall2 same (get k m) (get k m').
Proof.
  intros S. destruct (get k m) as [v|] eqn:G.
  - destruct (same_get_1 k v m m' S G) as (v' & -> & Sv). by constructor.
  - destruct (get k m') as [v'|] eqn:G'; [|constructor]. symmetry in S. destruct (same_get_1 k v' m' m S G') as (v & E & _). by rewrite E in G.
Qed.

Section accessors.
Context (k : string) (m m' : obj) (S : same (JObj m) (JObj m')).

Lemma same_as_string : as_string (get k m) = as_string (get k m').
Proof. destruct (same_get k m m' S) as [v v' [E _]|]; [|done]. destruct v, v'; try discriminate E; try done. by injection E as ->. Qed.
Lemma same_get_str : get_str k m = get_str k m'.
Proof. unfold get_str, str. by rewrite same_as_string. Qed.
Lemma same_as_float N : as_float N (get k m) = as_float N (get k m').
Proof. destruct (same_get k m m' S) as [v v' [E _]|]; [|done]. destruct v, v'; try discriminate E; try done. by injection E as ->. Qed.

Lemma same_as_map : option_Forall2 (fun m m' => same (JObj m) (JObj m')) (as_map (get k m)) (as_map (get k m')).
Proof.
  destruct (same_get k m m' S) as [v v' Sv|]; [|constructor]. pose proof (proj1 Sv) as E. destruct v, v'; try discriminate E; try constructor. exact Sv.
Qed.

Lemma same_as_list : option_Forall2 (Forall2 same) (as_list (get k m)) (as_list (get k m')).
Proof.
  destruct (same_get k m m' S) as [v v' [E [D D']]|]; [|constructor]. destruct v, v'; try discriminate E; try constructor.
  injection E as E. cbn in D, D'. revert l0 E D'. induction l as [|x l IH]; intros [|y l'] E D'; try discriminate E; [constructor|].
  cbn in *. injection E as E1 E. apply andb_true_iff in D as [D1 D], D' as [D1' D']. constructor; [done|]. by apply IH.
Qed.
End accessors.

(** * Printing and reading back *)

(** The numbers of a document are printed the way they were read. *)
Fixpoint stable_numbers (N : JsonNum) (j : json) : bool :=
  match j with
  | JNum l => bool_decide (num_text N l = Some l)
  | JArr l => forallb (stable_numbers N) l
  | JObj m => forallb (fun f => stable_numbers N (snd f)) m
  | _ => true
  end.

Lemma del_fresh k m : k ∉ map fst m -> del k m = m.
Proof.
  induction m as [|[k' v] m IH]; cbn; [done|]. intros H. apply not_elem_of_cons in H as [H1 H2].
  apply seqb_neq in H1. rewrite H1. cbn. f_equal. by apply IH.
Qed.

Section decode.
Context (N : JsonNum).

Definition lenient_members : obj -> obj -> obj :=
  fix go acc m := match m with [] => acc | (k, x) :: r => go (put k (decode_lenient N x) acc) r end.
Lemma decode_lenient_obj m : decode_lenient N (JObj m) = JObj (lenient_members [] m).
Proof. done. Qed.

Lemma lenient_members_perm m : forall acc, NoDup (map fst (m ++ acc)) ->
  lenient_members acc m ≡ₚ map (fun f => (fst f, decode_lenient N (snd f))) m ++ acc.
Proof.
  induction m as [|[k x] m IH]; intros acc D; [done|]. cbn [lenient_members map app fst snd]. cbn in D. apply NoDup_cons in D as [D1 D2].
  unfold put. rewrite del_fresh by (intros H; apply D1; rewrite map_app; apply elem_of_app; by right).
  rewrite IH; [by rewrite Permutation_middle|]. rewrite map_app in *. cbn. rewrite <- Permutation_middle. by constructor.
Qed.

(** Decoding changes the order of members only. *)
Lemma sort_decode j : distinct_keys j = true -> stable_numbers N j = true -> sort_keys (decode_lenient N j) = sort_keys j.
Proof.
  induction j as [| |l| |l IH|m IH] using json_nested_ind; intros D S; try done.
  - cbn in *. apply bool_decide_eq_true in S. by rewrite S.
  - cbn in *. f_equal. rewrite map_map. apply map_ext_in. intros x Hx. rewrite Forall_forall in IH. rewrite forallb_forall in D, S.
    apply IH; [by apply list_elem_of_In|by apply D|by apply S].
  - rewrite decode_lenient_obj, !sort_keys_obj. f_equal. cbn in S. apply distinct_obj in D as [D1 D2].
    pose proof (lenient_members_perm m []) as P. rewrite !app_nil_r in P. specialize (P D1).
    transitivity (foldr insert_member [] (map (fun f : string * json => (fst f, sort_keys (snd f))) (map (fun f => (fst f, decode_lenient N (snd f))) m))).
    + apply sort_members_proper; [by rewrite P|]. rewrite map_sort_fst, P, map_map. exact D1.
    + f_equal. rewrite map_map. apply map_ext_in. intros f Hf. cbn. f_equal. rewrite Forall_forall in IH, D2. rewrite forallb_forall in S.
      apply IH; [by apply list_elem_of_In|apply D2; by apply list_elem_of_In|by apply S].
Qed.

Lemma stable_sort j : stable_numbers N j = true -> stable_numbers N (sort_keys j) = true.
Proof.
  induction j as [| | | |l IH|m IH] using json_nested_ind; intros S; try done.
  - cbn in *. rewrite forallb_map_compose. apply forallb_forall. intros x Hx. rewrite Forall_forall in IH. rewrite forallb_forall in S.
    apply IH; [by apply list_elem_of_In|by apply S].
  - rewrite sort_keys_obj. cbn [stable_numbers] in *. rewrite (forallb_perm _ _ _ (sort_members_perm _)), forallb_map_compose.
    apply forallb_forall. intros f Hf. rewrite Forall_forall in IH. rewrite forallb_forall in S.
    apply IH; [by apply list_elem_of_In|by apply S].
Qed.

(** What decoding makes has distinct keys. *)
Lemma put_distinct k v m : distinct_keys v = true -> distinct_keys (JObj m) = true -> distinct_keys (JObj (put k v m)) = true.
Proof.
  intros V D. apply distinct_obj in D as [D F]. apply distinct_obj. unfold put, del. cbn [map fst]. split.
  - apply NoDup_cons. split.
    + intros H. apply list_elem_of_fmap in H as ([k' v'] & E & H). apply list_elem_of_In, filter_In in H as [_ H]. cbn in *. subst k'. by rewrite seqb_refl in H.
    + clear F. induction m as [|[k' v'] m IH]; cbn in *; [constructor|]. apply NoDup_cons in D as [D1 D]. destruct (seqb k k'); cbn; [by apply IH|].
      apply NoDup_cons. split; [|by apply IH]. intros H. apply D1. apply list_elem_of_fmap in H as (f & -> & H). apply list_elem_of_fmap.
      exists f. split; [done|]. apply list_elem_of_In, filter_In in H as [H _]. by apply list_elem_of_In.
  - constructor; [done|]. rewrite Forall_forall in F |- *. intros f Hf. apply list_elem_of_In, filter_In in Hf as [Hf _]. apply F. by apply list_elem_of_In.
Qed.

Lemma decode_distinct j : distinct_keys (decode_lenient N j) = true.
Proof.
  induction j as [| |l| |l IH|m IH] using json_nested_ind; try done.
  - cbn. by destruct (num_text N l).
  - cbn. rewrite forallb_map_compose. apply forallb_forall. intros x Hx. rewrite Forall_forall in IH. apply IH. by apply list_elem_of_In.
  - rewrite decode_lenient_obj. assert (distinct_keys (JObj []) = true) as D by done. revert D. generalize (@nil (string * json)) as acc.
    induction IH as [|[k x] m Hx _ IHm]; intros acc D; [done|]. cbn. apply IHm. by apply put_distinct.
Qed.

Lemma put_stable k v m : stable_numbers N v = true -> stable_numbers N (JObj m) = true -> stable_numbers N (JObj (put k v m)) = true.
Proof. cbn. intros -> S. by apply forallb_del. Qed.

Lemma decode_stable j : (forall l t, num_text N l = Some t -> num_text N t = Some t) -> stable_numbers N (decode_lenient N j) = true.
Proof.
  intros Hidem. induction j as [| |l| |l IH|m IH] using json_nested_ind; try done.
  - cbn. destruct (num_text N l) eqn:E; [|done]. cbn. apply bool_decide_eq_true. by eapply Hidem.
  - cbn. rewrite forallb_map_compose. apply forallb_forall. intros x Hx. rewrite Forall_forall in IH. apply IH. by apply list_elem_of_In.
  - rewrite decode_lenient_obj. assert (stable_numbers N (JObj []) = true) as D by done. revert D. generalize (@nil (string * json)) as acc.
    induction IH as [|[k x] m Hx _ IHm]; intros acc D; [done|]. cbn. apply IHm. by apply put_stable.
Qed.

(** Without numbers out of range the strict decoder does the same. *)
Lemma decode_any_stable j : stable_numbers N j = true -> decode_any N j = Some (decode_lenient N j).
Proof.
  induction j as [| |l| |l IH|m IH] using json_nested_ind; intros S; try done.
  - cbn in *. apply bool_decide_eq_true in S. by rewrite S.
  - cbn in *. induction IH as [|x l Hx _ IHl]; [done|]. cbn in *. apply andb_true_iff in S as [S1 S]. rewrite Hx by done. cbn.
    specialize (IHl S). destruct ((fix go l := match l with [] => Some [] | x :: r => y ← decode_any N x; ys ← go r; Some (y :: ys) end) l); [|done].
    cbn in *. by injection IHl as ->.
  - rewrite decode_lenient_obj. cbn in *. generalize (@nil (string * json)) as acc.
    induction IH as [|[k x] m Hx _ IHm]; intros acc; [done|]. cbn in *. apply andb_true_iff in S as [S1 S]. rewrite Hx by done. cbn. by apply IHm.
Qed.

(** A document that can be printed and read again. *)
Definition wire_ok (j : json) : bool := distinct_keys j && stable_numbers N j && json_ok maxNestingDepth (sort_keys j).

Lemma parse_Marshal j : wire_ok j = true -> json_parse (Marshal j) = Some (sort_keys j).
Proof. unfold wire_ok. rewrite !andb_true_iff. intros [_ Ok]. by apply encode_parse. Qed.

Lemma wire_same j : wire_ok j = true -> same (decode_lenient N (sort_keys j)) j.
Proof.
  unfold wire_ok. rewrite !andb_true_iff. intros [[D S] _]. split_and!; [|apply decode_distinct|done].
  rewrite sort_decode; [by apply sort_keys_idem|by apply distinct_sort|by apply stable_sort].
Qed.

Lemma decode_map_wire m : wire_ok (JObj m) = true -> exists m', decode_map N (Marshal (JObj m)) = Some (Some m') /\ same (JObj m') (JObj m).
Proof.
  intros W. unfold decode_map. rewrite parse_Marshal by done. cbn [mbind option_bind]. pose proof (wire_same _ W) as Sa. rewrite sort_keys_obj in *.
  rewrite decode_any_stable by (rewrite <- sort_keys_obj; apply stable_sort; unfold wire_ok in W; by rewrite !andb_true_iff in W; destruct W as [[]]).
  rewrite decode_lenient_obj in *. by eexists.
Qed.
End decode.
