(* ===== verification/TranslateStream.v ===== *)
(** pkg/llm/translate/chat_messages_stream.go, chat_stream_usage.go and
    messages_chat_stream.go: the state machines that turn a Chat stream into a Messages
    stream and back.  An event carries its document; its bytes are [json_encode] of it
    (structs print their fields in order, maps sorted). *)

From Stdlib Require Import Ascii.
From S2P Require Import Prelude GoFloat GoStrings GoTime GoJson GoPrint Matcher Policy Types Context Http Translate.

(** * Shared data *)

Record TokenUsage := mkUsage { tu_Input : Z; tu_Output : Z; tu_Cached : Z; tu_Created : Z }.
#[global] Instance eta_usage : Eta TokenUsage := fun u => mkUsage (tu_Input u) (tu_Output u) (tu_Cached u) (tu_Created u).
Definition no_usage : TokenUsage := mkUsage 0 0 0 0.

Record StreamChunkMeta := mkMeta {
  sm_InputTokens : Z; sm_OutputTokens : Z; sm_CachedTokens : Z; sm_CacheCreationTokens : Z; sm_TransmittedChars : Z;
  sm_ResponseID : string; sm_ResponseModel : string; sm_Completed : bool; sm_EmitDone : bool; sm_ErrorMessage : string;
  sm_FinishReason : string; sm_StopReason : string; sm_SawDone : bool; sm_TextChars : Z; sm_ThinkingChars : Z;
  sm_HasToolUse : bool; sm_Flush : bool
}.
#[global] Instance eta_meta : Eta StreamChunkMeta := fun m =>
  mkMeta (sm_InputTokens m) (sm_OutputTokens m) (sm_CachedTokens m) (sm_CacheCreationTokens m) (sm_TransmittedChars m)
    (sm_ResponseID m) (sm_ResponseModel m) (sm_Completed m) (sm_EmitDone m) (sm_ErrorMessage m) (sm_FinishReason m)
    (sm_StopReason m) (sm_SawDone m) (sm_TextChars m) (sm_ThinkingChars m) (sm_HasToolUse m) (sm_Flush m).
Definition no_meta : StreamChunkMeta := mkMeta 0 0 0 0 0 "" "" false false "" "" "" false 0 0 false false.

(** * chat_stream_usage.go *)

Record chat_usage := mkChatUsage { cu_prompt : Z; cu_completion : Z; cu_cached : option Z }.
#[global] Instance eta_chat_usage : Eta chat_usage := fun u => mkChatUsage (cu_prompt u) (cu_completion u) (cu_cached u).
Definition dec_chat_usage : decoder chat_usage :=
  dec_struct [("prompt_tokens", dec_field cu_prompt dec_int); ("completion_tokens", dec_field cu_completion dec_int);
              ("prompt_tokens_details", dec_field cu_cached (dec_ptr 0 (dec_struct [("cached_tokens", dec_int)])))].
Definition chatStreamUsage (data : string) : TokenUsage :=
  match Unmarshal (dec_struct [("usage", dec_ptr (mkChatUsage 0 0 None) dec_chat_usage)]) None data with
  | Some (Some u) => mkUsage (cu_prompt u) (cu_completion u) (default 0 (cu_cached u)) 0
  | _ => no_usage
  end.

(** * chat_messages_stream.go *)

Record MessagesStreamEvent := mkEvent { me_Event : string; me_Data : json; me_TransmittedChars : Z; me_Flush : bool }.
Definition plain_event (kind : string) (data : json) : MessagesStreamEvent := mkEvent kind data 0 false.
Definition with_flush (e : MessagesStreamEvent) : MessagesStreamEvent := mkEvent (me_Event e) (me_Data e) (me_TransmittedChars e) true.

(** ** Documents of the events *)

Definition message_start_doc (id model : string) (u : TokenUsage) : json :=
  JObj [("type", JStr "message_start");
        ("message", JObj [("id", JStr id); ("type", JStr "message"); ("role", JStr "assistant"); ("content", JArr []); ("model", JStr model);
           ("stop_reason", JNull); ("stop_sequence", JNull);
           ("usage", JObj [("input_tokens", num (tu_Input u)); ("output_tokens", num (tu_Output u))])])].
Definition block_doc (kind : string) (idx : Z) (rest : obj) : json := JObj ([("type", JStr kind); ("index", num idx)] ++ rest).
Definition block_start_doc (idx : Z) (block : obj) : json := block_doc "content_block_start" idx [("content_block", JObj block)].
Definition block_delta_doc (idx : Z) (kind field text : string) : json :=
  block_doc "content_block_delta" idx [("delta", JObj [("type", JStr kind); (field, JStr text)])].
Definition block_stop_doc (idx : Z) : json := block_doc "content_block_stop" idx [].
Definition message_delta_doc (stopReason : string) (outputTokens : Z) : json :=
  JObj [("type", JStr "message_delta"); ("delta", JObj [("stop_reason", JStr stopReason); ("stop_sequence", JNull)]);
        ("usage", JObj [("output_tokens", num outputTokens)])].
Definition message_stop_doc : json := JObj [("type", JStr "message_stop")].

(** ** Chunks *)

Record tool_delta := mkToolDelta { td_Index : Z; td_ID : string; td_Type : string; td_Name : string; td_Arguments : string }.
#[global] Instance eta_tool_delta : Eta tool_delta := fun t => mkToolDelta (td_Index t) (td_ID t) (td_Type t) (td_Name t) (td_Arguments t).
Definition dec_tool_delta : decoder tool_delta :=
  dec_struct [("index", dec_field td_Index dec_int); ("id", dec_field td_ID dec_string); ("type", dec_field td_Type dec_string);
              ("function", dec_struct [("name", dec_field td_Name dec_string); ("arguments", dec_field td_Arguments dec_string)])].

Record chat_choice := mkChoice {
  cc_Content : string; cc_ReasoningContent : string; cc_Thinking : string; cc_Reasoning : string; cc_Thought : string;
  cc_ToolCalls : list tool_delta; cc_FinishReason : option string
}.
#[global] Instance eta_choice : Eta chat_choice := fun c =>
  mkChoice (cc_Content c) (cc_ReasoningContent c) (cc_Thinking c) (cc_Reasoning c) (cc_Thought c) (cc_ToolCalls c) (cc_FinishReason c).
Definition dec_choice : decoder chat_choice :=
  dec_struct [("delta", dec_struct [("content", dec_field cc_Content dec_string); ("reasoning_content", dec_field cc_ReasoningContent dec_string);
                 ("thinking", dec_field cc_Thinking dec_string); ("reasoning", dec_field cc_Reasoning dec_string);
                 ("thought", dec_field cc_Thought dec_string);
                 ("tool_calls", dec_field cc_ToolCalls (dec_slice (mkToolDelta 0 "" "" "" "") dec_tool_delta))]);
              ("finish_reason", dec_field cc_FinishReason (dec_ptr "" dec_string))].

Record chat_chunk := mkChunk { ck_ID : string; ck_Model : string; ck_Choices : list chat_choice }.
#[global] Instance eta_chunk : Eta chat_chunk := fun c => mkChunk (ck_ID c) (ck_Model c) (ck_Choices c).
Definition dec_chunk : decoder chat_chunk :=
  dec_struct [("id", dec_field ck_ID dec_string); ("model", dec_field ck_Model dec_string);
              ("choices", dec_field ck_Choices (dec_slice (mkChoice "" "" "" "" "" [] None) dec_choice))].
Definition parse_chunk (data : string) : option chat_chunk := Unmarshal dec_chunk (mkChunk "" "" []) data.

(** ** The machine *)

Record ChatToMessagesStream := mkC2M {
  cm_model : string; cm_usage : TokenUsage; cm_started : bool; cm_finished : bool; cm_lastMessageID : string; cm_sawDone : bool;
  cm_finishReason : string; cm_textChars : Z; cm_thinkingChars : Z; cm_hasToolUse : bool; cm_activeBlocks : gset Z;
  cm_toolIndex : gmap Z Z; cm_nextBlockIndex : Z; cm_thinkingBlockIndex : Z; cm_textBlockIndex : Z
}.
#[global] Instance eta_c2m : Eta ChatToMessagesStream := fun s =>
  mkC2M (cm_model s) (cm_usage s) (cm_started s) (cm_finished s) (cm_lastMessageID s) (cm_sawDone s) (cm_finishReason s)
    (cm_textChars s) (cm_thinkingChars s) (cm_hasToolUse s) (cm_activeBlocks s) (cm_toolIndex s) (cm_nextBlockIndex s)
    (cm_thinkingBlockIndex s) (cm_textBlockIndex s).

Definition NewChatToMessagesStream (model : string) (initialUsage : TokenUsage) : ChatToMessagesStream :=
  mkC2M model initialUsage false false "" false "" 0 0 false ∅ ∅ 0 (-1) (-1).

Notation emits := (ChatToMessagesStream * list MessagesStreamEvent)%type.

Definition cm_diagnostics (s : ChatToMessagesStream) : StreamChunkMeta :=
  no_meta <| sm_ResponseID := cm_lastMessageID s |> <| sm_ResponseModel := cm_model s |> <| sm_FinishReason := cm_finishReason s |>
    <| sm_SawDone := cm_sawDone s |> <| sm_TextChars := cm_textChars s |> <| sm_ThinkingChars := cm_thinkingChars s |>
    <| sm_HasToolUse := cm_hasToolUse s |>.

Definition startMessage (s : ChatToMessagesStream) : emits :=
  if cm_started s then (s, [])
  else (s <| cm_started := true |>,
        [with_flush (plain_event "message_start" (message_start_doc (NormalizeAnthropicID (cm_lastMessageID s)) (cm_model s) (cm_usage s)))]).

Definition ensureBlock (s : ChatToMessagesStream) (thinking : bool) : emits * Z :=
  let known := if thinking then cm_thinkingBlockIndex s else cm_textBlockIndex s in
  if 0 <=? known then ((s, []), known)
  else
    let idx := cm_nextBlockIndex s in
    let s := s <| cm_nextBlockIndex := idx + 1 |> <| cm_activeBlocks := {[idx]} ∪ cm_activeBlocks s |> in
    let s := if thinking then s <| cm_thinkingBlockIndex := idx |> else s <| cm_textBlockIndex := idx |> in
    let kind := if thinking then "thinking" else "text" in
    ((s, [plain_event "content_block_start" (block_start_doc idx [("type", JStr kind); (kind, JStr "")])]), idx).

Definition len (s : string) : Z := Z.of_nat (String.length s).

Definition emitTextDelta (s : ChatToMessagesStream) (idx : Z) (text : string) : emits :=
  (s <| cm_textChars := cm_textChars s + len text |>,
   [mkEvent "content_block_delta" (block_delta_doc idx "text_delta" "text" text) (len text) true]).
Definition emitThinkingDelta (s : ChatToMessagesStream) (idx : Z) (text : string) : emits :=
  (s <| cm_thinkingChars := cm_thinkingChars s + len text |>,
   [mkEvent "content_block_delta" (block_delta_doc idx "thinking_delta" "thinking" text) (len text) true]).

(** Text of a block, after the start of message and block. *)
Definition emit_text (thinking : bool) (s : ChatToMessagesStream) (text : string) : emits :=
  if is_empty text then (s, [])
  else
    let '(s, e1) := startMessage s in
    let '((s, e2), idx) := ensureBlock s thinking in
    let '(s, e3) := if thinking then emitThinkingDelta s idx text else emitTextDelta s idx text in
    (s, e1 ++ e2 ++ e3).

Definition flush_last (es : list MessagesStreamEvent) : list MessagesStreamEvent :=
  match rev es with [] => [] | e :: r => rev (with_flush e :: r) end.

(** One tool call of a chunk; the flag asks for a flush when no event was made. *)
Definition tool_call (s : ChatToMessagesStream) (tc : tool_delta) : emits * bool :=
  let '(s, idx) :=
    match cm_toolIndex s !! td_Index tc with
    | Some idx => (s, idx)
    | None => let idx := cm_nextBlockIndex s in
              (s <| cm_toolIndex := <[td_Index tc := idx]> (cm_toolIndex s) |> <| cm_nextBlockIndex := idx + 1 |>, idx)
    end in
  let '(s, e1) :=
    if bool_decide (idx ∈ cm_activeBlocks s) then (s, [])
    else (s <| cm_activeBlocks := {[idx]} ∪ cm_activeBlocks s |>,
          [plain_event "content_block_start" (block_start_doc idx [("type", JStr "tool_use"); ("id", JStr (NormalizeToolUseID (td_ID tc)));
             ("name", JStr (td_Name tc)); ("input", JObj [])])]) in
  let s := s <| cm_hasToolUse := true |> in
  let e2 := if is_empty (td_Arguments tc) then []
            else [plain_event "content_block_delta" (block_delta_doc idx "input_json_delta" "partial_json" (td_Arguments tc))] in
  ((s, flush_last (e1 ++ e2)), match e1 ++ e2 with [] => true | _ => false end).

Fixpoint tool_calls (s : ChatToMessagesStream) (tcs : list tool_delta) : emits * bool :=
  match tcs with
  | [] => ((s, []), false)
  | tc :: r =>
      let '((s, e1), f1) := tool_call s tc in
      let '((s, e2), f2) := tool_calls s r in
      ((s, e1 ++ e2), f1 || f2)
  end.

Definition choice_thinking (c : chat_choice) : string :=
  chatMessagesStreamReasoning (cc_ReasoningContent c) (cc_Thinking c) (cc_Reasoning c) (cc_Thought c).

(** The first choice of a chunk: events, transmitted characters and the flush request. *)
Definition feed_choice (s : ChatToMessagesStream) (c : chat_choice) : emits * Z * bool :=
  let '(s, e1) := emit_text true s (choice_thinking c) in
  let '(s, e2) := emit_text false s (cc_Content c) in
  let '((s, e3), flush) :=
    match cc_ToolCalls c with
    | [] => ((s, []), false)
    | tcs => let '(s, e0) := startMessage s in let '((s, es), f) := tool_calls s tcs in ((s, e0 ++ es), f)
    end in
  let s := match cc_FinishReason c with Some r => if is_empty r then s else s <| cm_finishReason := r |> | None => s end in
  ((s, e1 ++ e2 ++ e3), len (choice_thinking c) + len (cc_Content c), flush).

Definition feed_chunk (s : ChatToMessagesStream) (data : string) : emits * Z * bool :=
  match parse_chunk data with
  | None => ((s, []), 0, false)
  | Some ck =>
      let s := if is_empty (ck_ID ck) then s else s <| cm_lastMessageID := ck_ID ck |> in
      match ck_Choices ck with
      | [] => ((s, []), 0, false)
      | c :: _ => feed_choice s c
      end
  end.

(** Positive counts replace known ones. *)
Definition update_usage (u new : TokenUsage) : TokenUsage :=
  let u := if 0 <? tu_Input new then u <| tu_Input := tu_Input new |> else u in
  let u := if 0 <? tu_Output new then u <| tu_Output := tu_Output new |> else u in
  if 0 <? tu_Cached new then u <| tu_Cached := tu_Cached new |> else u.

Definition C2M_FeedJSON (s : ChatToMessagesStream) (data : string) : ChatToMessagesStream * list MessagesStreamEvent * StreamChunkMeta :=
  if cm_finished s then (s, [], cm_diagnostics s)
  else if seqb data "[DONE]" then let s := s <| cm_sawDone := true |> in (s, [], cm_diagnostics s)
  else
    let u := chatStreamUsage data in
    let s := s <| cm_usage := update_usage (cm_usage s) u |> in
    let '((s, events), chars, flush) := feed_chunk s data in
    (s, events, (cm_diagnostics s) <| sm_InputTokens := tu_Input u |> <| sm_OutputTokens := tu_Output u |> <| sm_CachedTokens := tu_Cached u |>
                  <| sm_TransmittedChars := chars |> <| sm_Flush := flush |>).

Definition closeOpenBlocks (s : ChatToMessagesStream) : emits :=
  (s <| cm_activeBlocks := ∅ |>,
   map (fun idx => plain_event "content_block_stop" (block_stop_doc idx)) (merge_sort Z.le (elements (cm_activeBlocks s)))).

Definition finalizeSuccess (s : ChatToMessagesStream) (stopReason : string) : emits :=
  let '(s, e1) := startMessage s in
  let '(s, e2) := if bool_decide (cm_activeBlocks s = ∅) then fst (ensureBlock s false) else (s, []) in
  let '(s, e3) := closeOpenBlocks s in
  (s, e1 ++ e2 ++ e3 ++ [plain_event "message_delta" (message_delta_doc stopReason (tu_Output (cm_usage s)));
                         with_flush (plain_event "message_stop" message_stop_doc)]).

Definition mapOpenAIFinishReason (r : string) : string :=
  if seqb r "length" then "max_tokens" else if seqb r "tool_calls" || seqb r "function_call" then "tool_use" else "end_turn".

Definition with_usage (m : StreamChunkMeta) (u : TokenUsage) : StreamChunkMeta :=
  m <| sm_InputTokens := tu_Input u |> <| sm_OutputTokens := tu_Output u |> <| sm_CachedTokens := tu_Cached u |>
    <| sm_CacheCreationTokens := tu_Created u |>.

Definition C2M_Finish (s : ChatToMessagesStream) (latest : TokenUsage) : ChatToMessagesStream * list MessagesStreamEvent * StreamChunkMeta :=
  if cm_finished s then (s, [], cm_diagnostics s)
  else
    let s := s <| cm_finished := true |> <| cm_usage := latest |> in
    if negb (is_empty (cm_finishReason s)) || cm_sawDone s then
      let stopReason := mapOpenAIFinishReason (cm_finishReason s) in
      let '(s, events) := finalizeSuccess s stopReason in
      (s, events, with_usage ((cm_diagnostics s) <| sm_Completed := true |> <| sm_StopReason := stopReason |>) latest)
    else if cm_started s then
      let d := cm_diagnostics s in
      let '(s, events) := closeOpenBlocks s in
      (s, flush_last events, with_usage (d <| sm_ErrorMessage := "upstream stream closed prematurely without completion event" |>) latest)
    else (s, [], with_usage ((cm_diagnostics s) <| sm_ErrorMessage := "empty upstream stream: no content or completion signal received" |>) latest).

(** * What a Messages client accepts *)

(** Blocks are opened in order of their index, written while open, closed once; the end of
    the message comes when every block is closed and there was one. *)
Inductive phase := PNone | POpen (n : Z) (open : gset string) | PDelta | PStop.

Definition index_text (data : json) : option string :=
  match data with JObj m => match get "index" m with Some (JNum l) => Some l | _ => None end | _ => None end.

Definition accept (p : phase) (e : MessagesStreamEvent) : option phase :=
  match p with
  | PNone => if seqb (me_Event e) "message_start" then Some (POpen 0 ∅) else None
  | POpen n open =>
      if seqb (me_Event e) "message_delta" then if bool_decide (open = ∅) && (0 <? n) then Some PDelta else None
      else i ← index_text (me_Data e);
           if seqb (me_Event e) "content_block_start" then if seqb i (Itoa n) then Some (POpen (n + 1) ({[i]} ∪ open)) else None
           else if seqb (me_Event e) "content_block_delta" then if bool_decide (i ∈ open) then Some p else None
           else if seqb (me_Event e) "content_block_stop" then if bool_decide (i ∈ open) then Some (POpen n (open ∖ {[i]})) else None
           else None
  | PDelta => if seqb (me_Event e) "message_stop" then Some PStop else None
  | PStop => None
  end.

Fixpoint accept_all (p : phase) (es : list MessagesStreamEvent) : option phase :=
  match es with [] => Some p | e :: r => p ← accept p e; accept_all p r end.

Lemma accept_all_app p es es' : accept_all p (es ++ es') = (p ← accept_all p es; accept_all p es').
Proof. revert p. induction es as [|e es IH]; intros p; [done|]. cbn. destruct (accept p e); cbn; [apply IH|done]. Qed.

(** The block indices of the machine are those of the checker. *)
Definition texts (s : gset Z) : gset string := set_map Itoa s.

Record c2m_inv (s : ChatToMessagesStream) : Prop := {
  ci_active : forall i, i ∈ cm_activeBlocks s <-> 0 <= i < cm_nextBlockIndex s;
  ci_tools : forall k i, cm_toolIndex s !! k = Some i -> 0 <= i < cm_nextBlockIndex s;
  ci_text : cm_textBlockIndex s < cm_nextBlockIndex s;
  ci_thinking : cm_thinkingBlockIndex s < cm_nextBlockIndex s;
  ci_next : 0 <= cm_nextBlockIndex s;
  ci_started : cm_started s = false -> cm_nextBlockIndex s = 0
}.

Definition phase_of (s : ChatToMessagesStream) : phase :=
  if cm_started s then POpen (cm_nextBlockIndex s) (texts (cm_activeBlocks s)) else PNone.

(** A part of the machine that keeps the client satisfied. *)
Definition sound (s : ChatToMessagesStream) (r : emits) : Prop :=
  c2m_inv (fst r) /\ accept_all (phase_of s) (snd r) = Some (phase_of (fst r)).

Lemma texts_insert i s : texts ({[i]} ∪ s) = {[Itoa i]} ∪ texts s.
Proof. unfold texts. by rewrite set_map_union_L, set_map_singleton_L. Qed.
Lemma texts_elem i s : Itoa i ∈ texts s <-> i ∈ s.
Proof. unfold texts. rewrite elem_of_map. split; [|by exists i]. intros (j & E & H). by apply (inj pretty.pretty) in E as ->. Qed.
Lemma texts_empty s : texts s = ∅ <-> s = ∅.
Proof. unfold texts. split; [|by intros ->; rewrite set_map_empty]. intros E. apply set_eq. intros i. split; [|set_solver]. intros H. assert (Itoa i ∈ texts s) by by apply texts_elem. unfold texts in *. set_solver. Qed.

Lemma accept_start n open idx rest : idx = n ->
  accept (POpen n open) (plain_event "content_block_start" (block_doc "content_block_start" idx rest)) = Some (POpen (n + 1) ({[Itoa idx]} ∪ open)).
Proof.
  intros ->. transitivity (if seqb (Itoa n) (Itoa n) then Some (POpen (n + 1) ({[Itoa n]} ∪ open)) else None); [reflexivity|].
  by rewrite seqb_refl.
Qed.

Lemma accept_delta n open idx rest c f : Itoa idx ∈ open ->
  accept (POpen n open) (mkEvent "content_block_delta" (block_doc "content_block_delta" idx rest) c f) = Some (POpen n open).
Proof.
  intros H. transitivity (if bool_decide (Itoa idx ∈ open) then Some (POpen n open) else None); [reflexivity|].
  by rewrite bool_decide_eq_true_2.
Qed.

Lemma accept_stop n open idx : Itoa idx ∈ open ->
  accept (POpen n open) (plain_event "content_block_stop" (block_stop_doc idx)) = Some (POpen n (open ∖ {[Itoa idx]})).
Proof.
  intros H. transitivity (if bool_decide (Itoa idx ∈ open) then Some (POpen n (open ∖ {[Itoa idx]})) else None); [reflexivity|].
  by rewrite bool_decide_eq_true_2.
Qed.

Lemma accept_message_delta n data : 0 <? n = true -> accept (POpen n ∅) (plain_event "message_delta" data) = Some PDelta.
Proof.
  intros L. transitivity (if bool_decide ((∅ : gset string) = ∅) && (0 <? n) then Some PDelta else None); [reflexivity|].
  by rewrite L, bool_decide_eq_true_2.
Qed.

Lemma accept_flush p e : accept p (with_flush e) = accept p e.
Proof. destruct p; reflexivity. Qed.

Lemma flush_last_accept es : forall p, accept_all p (flush_last es) = accept_all p es.
Proof.
  intros p. unfold flush_last. destruct es as [|e es] using rev_ind; [done|]. rewrite rev_app_distr. cbn [rev app].
  rewrite rev_involutive, !accept_all_app. destruct (accept_all p es); [|done]. cbn. by rewrite accept_flush.
Qed.

Lemma startMessage_sound s : c2m_inv s -> sound s (startMessage s) /\ cm_started (fst (startMessage s)) = true.
Proof.
  intros I. unfold startMessage. destruct (cm_started s) eqn:St; [split; [by split|done]|]. split; [|done]. split; cbn [fst snd].
  - destruct I. split; cbn; auto.
  - unfold phase_of. rewrite St. cbn. rewrite (ci_started s I St).
    assert (cm_activeBlocks s = ∅) as -> by (apply set_eq; intros i; rewrite (ci_active s I), (ci_started s I St); set_solver by lia).
    by rewrite (proj2 (texts_empty ∅)).
Qed.

Lemma emit_block_sound s s1 idx rest c f data :
  c2m_inv s -> cm_started s = true ->
  (* a new block *)
  c2m_inv s1 -> cm_started s1 = true -> idx = cm_nextBlockIndex s -> cm_nextBlockIndex s1 = idx + 1 ->
  cm_activeBlocks s1 = {[idx]} ∪ cm_activeBlocks s ->
  accept_all (phase_of s) (plain_event "content_block_start" (block_doc "content_block_start" idx data) ::
    match f with Some fl => [mkEvent "content_block_delta" (block_doc "content_block_delta" idx rest) c fl] | None => [] end) = Some (phase_of s1).
Proof.
  intros I St I1 St1 Ei N1 A1. unfold phase_of. rewrite St, St1. cbn [accept_all]. rewrite (accept_start _ _ _ _ Ei). cbn [mbind option_bind].
  rewrite N1, A1, texts_insert, <- Ei. destruct f as [fl|]; [|done]. cbn [accept_all]. rewrite accept_delta; [done|set_solver].
Qed.

Lemma delta_sound s idx rest c f : cm_started s = true -> idx ∈ cm_activeBlocks s ->
  accept_all (phase_of s) [mkEvent "content_block_delta" (block_doc "content_block_delta" idx rest) c f] = Some (phase_of s).
Proof. intros St A. unfold phase_of. rewrite St. cbn [accept_all]. rewrite accept_delta; [done|by apply texts_elem]. Qed.

(** The state after a new block. *)
Lemma new_block_inv s s1 : c2m_inv s -> cm_nextBlockIndex s1 = cm_nextBlockIndex s + 1 ->
  cm_activeBlocks s1 = {[cm_nextBlockIndex s]} ∪ cm_activeBlocks s ->
  (forall k i, cm_toolIndex s1 !! k = Some i -> 0 <= i <= cm_nextBlockIndex s) ->
  cm_textBlockIndex s1 <= cm_nextBlockIndex s -> cm_thinkingBlockIndex s1 <= cm_nextBlockIndex s -> cm_started s1 = true -> c2m_inv s1.
Proof.
  intros I N A T X Y St. pose proof (ci_next s I). split; rewrite ?N; try lia; [| |congruence].
  - intros i. rewrite A, elem_of_union, elem_of_singleton, (ci_active s I). lia.
  - intros k i E. specialize (T k i E). lia.
Qed.

Lemma ensureBlock_sound s thinking : c2m_inv s -> cm_started s = true ->
  let '(r, idx) := ensureBlock s thinking in
  sound s r /\ cm_started (fst r) = true /\ idx ∈ cm_activeBlocks (fst r).
Proof.
  intros I St. pose proof (ci_text s I). pose proof (ci_thinking s I). unfold ensureBlock. cbn zeta. destruct (0 <=? _) eqn:K; zbool.
  - cbn [fst]. split_and!; [by split|done|]. apply (ci_active s I). by destruct thinking.
  - set (s1 := if thinking then _ else _). assert (c2m_inv s1) as I1.
    { apply (new_block_inv s); destruct thinking; cbn; try done; try lia. all: intros k i E; pose proof (ci_tools s I k i E); lia. }
    cbn [fst]. split_and!; [split; [done|]|by destruct thinking|destruct thinking; cbn; apply elem_of_union; left; by apply elem_of_singleton].
    cbn [snd]. by apply (emit_block_sound s s1 (cm_nextBlockIndex s) [] 0 None); destruct thinking.
Qed.

Lemma sound_trans s r1 r2 : sound s r1 -> sound (fst r1) r2 -> sound s (fst r2, snd r1 ++ snd r2).
Proof. intros [_ A1] [I2 A2]. split; [done|]. cbn [fst snd]. rewrite accept_all_app, A1. cbn. exact A2. Qed.

(** Changes of counters and of the bookkeeping that the client does not see. *)
Lemma c2m_inv_frame s s' : c2m_inv s -> cm_activeBlocks s' = cm_activeBlocks s -> cm_toolIndex s' = cm_toolIndex s ->
  cm_nextBlockIndex s' = cm_nextBlockIndex s -> cm_textBlockIndex s' = cm_textBlockIndex s ->
  cm_thinkingBlockIndex s' = cm_thinkingBlockIndex s -> cm_started s' = cm_started s -> c2m_inv s'.
Proof. intros [] A B C D E F. split; rewrite ?A, ?B, ?C, ?D, ?E, ?F; auto. Qed.

Lemma emit_text_sound thinking s text : c2m_inv s -> sound s (emit_text thinking s text).
Proof.
  intros I. unfold emit_text. destruct (is_empty text); [by split|].
  destruct (startMessage_sound s I) as [S1 St1]. destruct (startMessage s) as [s1 e1]. pose proof (ensureBlock_sound s1 thinking (proj1 S1) St1) as S2.
  destruct (ensureBlock s1 thinking) as [[s2 e2] idx]. destruct S2 as (S2 & St2 & A2). cbn [fst] in *.
  assert (sound s2 (if thinking then emitThinkingDelta s2 idx text else emitTextDelta s2 idx text)) as S3.
  { destruct thinking; (split; [by apply (c2m_inv_frame s2); [exact (proj1 S2)|..]|]).
    all: cbn [snd emitThinkingDelta emitTextDelta]; unfold block_delta_doc; rewrite delta_sound by done; unfold phase_of; cbn; by rewrite St2. }
  destruct (if thinking then _ else _) as [s3 e3].
  exact (sound_trans s (s1, e1) (s3, e2 ++ e3) S1 (sound_trans s1 (s2, e2) (s3, e3) S2 S3)).
Qed.

Lemma tool_call_sound s tc : c2m_inv s -> cm_started s = true ->
  sound s (fst (tool_call s tc)) /\ cm_started (fst (fst (tool_call s tc))) = true.
Proof.
  intros I St. unfold tool_call. destruct (cm_toolIndex s !! td_Index tc) as [idx|] eqn:T.
  - pose proof (ci_tools s I _ _ T) as R. rewrite bool_decide_eq_true_2 by (by apply (ci_active s I)). cbn [app fst]. split; [|done].
    split; [by apply (c2m_inv_frame s)|]. cbn [snd fst]. rewrite flush_last_accept. change (phase_of (s <| cm_hasToolUse := true |>)) with (phase_of s).
    destruct (is_empty (td_Arguments tc)); [done|]. apply delta_sound; [done|by apply (ci_active s I)].
  - set (idx := cm_nextBlockIndex s). cbn [cm_activeBlocks].
    rewrite bool_decide_eq_false_2 by (intros H%(ci_active s I); lia). cbn [fst app]. split; [|done].
    match goal with |- sound s (?x, _) => set (s1 := x) end.
    assert (c2m_inv s1) as I1.
    { apply (new_block_inv s); cbn; try done; [|pose proof (ci_text s I); lia|pose proof (ci_thinking s I); lia].
      intros k i. pose proof (ci_next s I). destruct (decide (k = td_Index tc)) as [->|N]; [rewrite lookup_insert_eq; intros [= <-]; lia|].
      rewrite lookup_insert_ne by done. intros E. pose proof (ci_tools s I k i E). lia. }
    split; [done|]. cbn [snd fst]. rewrite flush_last_accept.
    pose proof (fun f rest => emit_block_sound s s1 idx rest 0 f [("content_block", JObj [("type", JStr "tool_use"); ("id", JStr (NormalizeToolUseID (td_ID tc)));
             ("name", JStr (td_Name tc)); ("input", JObj [])])] I St I1 St eq_refl eq_refl eq_refl) as E.
    destruct (is_empty (td_Arguments tc)); [exact (E None [])|exact (E (Some false) _)].
Qed.

Lemma tool_calls_sound tcs : forall s, c2m_inv s -> cm_started s = true -> sound s (fst (tool_calls s tcs)).
Proof.
  induction tcs as [|tc tcs IH]; intros s I St; [by split|]. cbn [tool_calls].
  destruct (tool_call_sound s tc I St) as [S1 St1]. destruct (tool_call s tc) as [[s1 e1] f1]. cbn [fst] in *.
  specialize (IH s1 (proj1 S1) St1). destruct (tool_calls s1 tcs) as [[s2 e2] f2]. exact (sound_trans s (s1, e1) (s2, e2) S1 IH).
Qed.

Lemma feed_choice_sound s c : c2m_inv s -> sound s (fst (fst (feed_choice s c))).
Proof.
  intros I. unfold feed_choice. pose proof (emit_text_sound true s (choice_thinking c) I) as S1.
  destruct (emit_text true s (choice_thinking c)) as [s1 e1]. pose proof (emit_text_sound false s1 (cc_Content c) (proj1 S1)) as S2.
  destruct (emit_text false s1 (cc_Content c)) as [s2 e2].
  assert (exists s3 e3 f, (match cc_ToolCalls c with
    | [] => ((s2, []), false)
    | tcs => let '(s, e0) := startMessage s2 in let '((s, es), f) := tool_calls s tcs in ((s, e0 ++ es), f) end) = ((s3, e3), f) /\ sound s2 (s3, e3))
    as (s3 & e3 & f & -> & S3).
  { destruct (cc_ToolCalls c) as [|tc tcs]; [do 3 eexists; split; [done|split; [exact (proj1 S2)|done]]|].
    destruct (startMessage_sound s2 (proj1 S2)) as [Sa Sb]. destruct (startMessage s2) as [sa ea].
    pose proof (tool_calls_sound (tc :: tcs) sa (proj1 Sa) Sb) as Sc. destruct (tool_calls sa (tc :: tcs)) as [[sb eb] fb].
    do 3 eexists. split; [done|]. exact (sound_trans s2 (sa, ea) (sb, eb) Sa Sc). }
  cbn [fst]. pose proof (sound_trans s (s1, e1) (s3, e2 ++ e3) S1 (sound_trans s1 (s2, e2) (s3, e3) S2 S3)) as [I3 A3]. cbn [fst snd] in *.
  destruct (cc_FinishReason c) as [r|]; [destruct (is_empty r)|]; (split; [by apply (c2m_inv_frame s3)|exact A3]).
Qed.

Lemma feed_sound s data : c2m_inv s -> let '(s', es, _) := C2M_FeedJSON s data in sound s (s', es).
Proof.
  intros I. unfold C2M_FeedJSON. destruct (cm_finished s); [by split|]. destruct (seqb data "[DONE]"); [split; [by apply (c2m_inv_frame s)|done]|].
  set (s1 := s <| cm_usage := _ |>). assert (c2m_inv s1) as I1 by (by apply (c2m_inv_frame s)). change (phase_of s) with (phase_of s1).
  assert (sound s (fst (fst (feed_chunk s1 data)))) as S; [|by destruct (feed_chunk s1 data) as [[[]]]].
  unfold feed_chunk. destruct (parse_chunk data) as [ck|]; [|split; done].
  set (s2 := if is_empty (ck_ID ck) then _ else _).
  assert (c2m_inv s2) as I2 by (unfold s2; destruct (is_empty _); [done|by apply (c2m_inv_frame s1)]).
  assert (phase_of s2 = phase_of s) as P2 by (unfold s2; by destruct (is_empty _)).
  destruct (ck_Choices ck) as [|c cs]; [split; [done|by rewrite <- P2]|].
  destruct (feed_choice_sound s2 c I2) as [Ia Aa]. split; [done|by rewrite <- P2].
Qed.

(** ** Closing *)

Lemma accept_stops n l : forall open, NoDup l -> (forall i, i ∈ l -> Itoa i ∈ open) ->
  accept_all (POpen n open) (map (fun idx => plain_event "content_block_stop" (block_stop_doc idx)) l) = Some (POpen n (open ∖ texts (list_to_set l))).
Proof.
  induction l as [|i l IH]; intros open ND H; cbn [map accept_all].
  - do 2 f_equal. unfold texts. cbn. rewrite set_map_empty. set_solver.
  - apply NoDup_cons in ND as [N ND]. rewrite accept_stop by (apply H; left). cbn [mbind option_bind]. rewrite IH; [|done|].
    + do 2 f_equal. cbn [list_to_set]. rewrite texts_insert. set_solver.
    + intros j Hj. apply elem_of_difference. split; [apply H; by right|]. rewrite elem_of_singleton.
      intros E. apply (inj pretty.pretty) in E. by subst.
Qed.

Lemma close_accept s : accept_all (POpen (cm_nextBlockIndex s) (texts (cm_activeBlocks s))) (snd (closeOpenBlocks s)) = Some (POpen (cm_nextBlockIndex s) ∅).
Proof.
  unfold closeOpenBlocks. cbn [snd]. pose proof (merge_sort_Permutation Z.le (elements (cm_activeBlocks s))) as P.
  rewrite accept_stops.
  - do 2 f_equal. apply set_eq. intros t. rewrite elem_of_difference. split; [|set_solver]. intros [A B]. exfalso. apply B.
    unfold texts in *. apply elem_of_map in A as (i & -> & Hi). apply elem_of_map. exists i. split; [done|].
    rewrite elem_of_list_to_set, P. by apply elem_of_elements.
  - rewrite P. apply NoDup_elements.
  - intros i Hi. rewrite P in Hi. apply texts_elem. by apply elem_of_elements.
Qed.

Lemma finalize_accept s r : c2m_inv s -> accept_all (phase_of s) (snd (finalizeSuccess s r)) = Some PStop.
Proof.
  intros I. unfold finalizeSuccess. destruct (startMessage_sound s I) as [[I1 A1] St1]. destruct (startMessage s) as [s1 e1]. cbn [fst snd] in *.
  assert (exists s2 e2, (if bool_decide (cm_activeBlocks s1 = ∅) then fst (ensureBlock s1 false) else (s1, [])) = (s2, e2) /\
    c2m_inv s2 /\ cm_started s2 = true /\ cm_activeBlocks s2 <> ∅ /\ accept_all (phase_of s1) e2 = Some (phase_of s2)) as (s2 & e2 & -> & I2 & St2 & N2 & A2).
  { case_bool_decide as B; [|by exists s1, []]. pose proof (ensureBlock_sound s1 false I1 St1) as Q.
    destruct (ensureBlock s1 false) as [[s2 e2] idx]. destruct Q as ([Ia Aa] & Sa & Ha). exists s2, e2. split_and!; try done. set_solver. }
  pose proof (close_accept s2) as C. destruct (closeOpenBlocks s2) as [s3 e3] eqn:Ec. cbn [snd] in *.
  rewrite accept_all_app, A1. cbn [mbind option_bind]. rewrite accept_all_app, A2. cbn [mbind option_bind].
  unfold phase_of. rewrite St2, accept_all_app, C. cbn [mbind option_bind accept_all].
  assert (0 <? cm_nextBlockIndex s2 = true) as L.
  { apply Z.ltb_lt. destruct (decide (0 < cm_nextBlockIndex s2)); [done|]. exfalso. apply N2. apply set_eq. intros i. rewrite (ci_active s2 I2). set_solver by lia. }
  rewrite accept_message_delta by done. reflexivity.
Qed.

(** Everything a stream is fed, then its end. *)
Fixpoint c2m_feed_all (s : ChatToMessagesStream) (datas : list string) : ChatToMessagesStream * list MessagesStreamEvent :=
  match datas with
  | [] => (s, [])
  | d :: r => let '(s, e1, _) := C2M_FeedJSON s d in let '(s, e2) := c2m_feed_all s r in (s, e1 ++ e2)
  end.

Lemma c2m_feed_all_sound datas : forall s, c2m_inv s -> sound s (c2m_feed_all s datas).
Proof.
  induction datas as [|d datas IH]; intros s I; [by split|]. cbn [c2m_feed_all]. pose proof (feed_sound s d I) as S1.
  destruct (C2M_FeedJSON s d) as [[s1 e1] m1]. specialize (IH s1 (proj1 S1)). destruct (c2m_feed_all s1 datas) as [s2 e2].
  exact (sound_trans s (s1, e1) (s2, e2) S1 IH).
Qed.

Lemma c2m_not_finished datas : forall s, cm_finished s = false -> cm_finished (fst (c2m_feed_all s datas)) = false.
Proof.
  assert (forall s d, cm_finished (fst (fst (C2M_FeedJSON s d))) = cm_finished s) as F.
  { intros s d. unfold C2M_FeedJSON. destruct (cm_finished s) eqn:E; [done|]. destruct (seqb d "[DONE]"); [done|].
    set (s1 := s <| cm_usage := _ |>). assert (cm_finished s1 = false) as E1 by done. clearbody s1. clear E s.
    assert (cm_finished (fst (fst (fst (feed_chunk s1 d)))) = false) as Q; [|by destruct (feed_chunk s1 d) as [[[]]]].
    unfold feed_chunk. destruct (parse_chunk d) as [ck|]; [|done]. set (s2 := if is_empty (ck_ID ck) then _ else _).
    assert (cm_finished s2 = false) as E2 by (unfold s2; by destruct (is_empty _)). clearbody s2. clear E1 s1.
    destruct (ck_Choices ck) as [|c cs]; [done|]. unfold feed_choice.
    assert (forall s, cm_finished (fst (startMessage s)) = cm_finished s) as Fs by (intros s; unfold startMessage; by destruct (cm_started s)).
    assert (forall b s t, cm_finished (fst (emit_text b s t)) = cm_finished s) as Ft.
    { intros b s t. unfold emit_text. destruct (is_empty t); [done|]. specialize (Fs s). destruct (startMessage s) as [sa ea]. cbn [fst] in Fs.
      rewrite <- Fs. unfold ensureBlock. cbn zeta. destruct (0 <=? _); by destruct b. }
    assert (forall tcs s, cm_finished (fst (fst (tool_calls s tcs))) = cm_finished s) as Fc.
    { induction tcs as [|tc tcs IH]; intros s; [done|]. cbn [tool_calls].
      assert (cm_finished (fst (fst (tool_call s tc))) = cm_finished s) as Q.
      { unfold tool_call. destruct (cm_toolIndex s !! _); destruct (bool_decide _); done. }
      destruct (tool_call s tc) as [[sa ea] fa]. specialize (IH sa). destruct (tool_calls sa tcs) as [[]]. cbn [fst] in *. congruence. }
    pose proof (Ft true s2 (choice_thinking c)) as E3. destruct (emit_text true s2 (choice_thinking c)) as [s3 e3]. cbn [fst] in E3.
    pose proof (Ft false s3 (cc_Content c)) as E4. destruct (emit_text false s3 (cc_Content c)) as [s4 e4]. cbn [fst] in E4.
    destruct (cc_ToolCalls c) as [|tc tcs].
    - cbn. destruct (cc_FinishReason c) as [r|]; [destruct (is_empty r)|]; cbn; congruence.
    - pose proof (Fs s4) as E5. destruct (startMessage s4) as [s5 e5]. pose proof (Fc (tc :: tcs) s5) as E6.
      destruct (tool_calls s5 (tc :: tcs)) as [[s6 e6] f6]. cbn [fst] in *.
      destruct (cc_FinishReason c) as [r|]; [destruct (is_empty r)|]; cbn; congruence. }
  induction datas as [|d datas IH]; intros s H; [done|]. cbn [c2m_feed_all]. specialize (F s d). destruct (C2M_FeedJSON s d) as [[s1 e1] m1].
  cbn [fst] in F. specialize (IH s1 ltac:(congruence)). by destruct (c2m_feed_all s1 datas).
Qed.

Lemma new_inv model u : c2m_inv (NewChatToMessagesStream model u).
Proof. split; cbn; try done. intros i. split; [intros H; by apply not_elem_of_empty in H|lia]. Qed.

(** What [Finish] adds: the end of the message, or an error and no open block. *)
Lemma finish_accepted s latest : c2m_inv s -> cm_finished s = false -> let '(_, es, meta) := C2M_Finish s latest in
  exists p, accept_all (phase_of s) es = Some p /\
    if sm_Completed meta then p = PStop /\ sm_ErrorMessage meta = "" else (p = PNone \/ exists n, p = POpen n ∅) /\ sm_ErrorMessage meta <> "".
Proof.
  intros I Fi. unfold C2M_Finish. rewrite Fi. set (s1 := s <| cm_finished := true |> <| cm_usage := latest |>).
  assert (c2m_inv s1) as I1 by (by apply (c2m_inv_frame s)). change (phase_of s) with (phase_of s1). destruct (negb _ || _).
  - pose proof (finalize_accept s1 (mapOpenAIFinishReason (cm_finishReason s1)) I1) as Q.
    destruct (finalizeSuccess s1 _) as [s2 e2]. cbn [snd] in Q. exists PStop. by split.
  - change (cm_started s) with (cm_started s1). destruct (cm_started s1) eqn:St.
    + pose proof (close_accept s1) as Q. destruct (closeOpenBlocks s1) as [s2 e2]. cbn [snd] in Q.
      exists (POpen (cm_nextBlockIndex s1) ∅). rewrite flush_last_accept. unfold phase_of. rewrite St. split; [exact Q|]. split; [right; by eexists|done].
    + exists PNone. unfold phase_of. rewrite St. split; [done|]. split; [by left|done].
Qed.

(** C9: whatever an upstream sends - any sequence of frames, valid JSON or not, with text,
    reasoning and interleaved tool calls in any order - the Messages stream made of it is
    well formed: one message start, blocks numbered from zero that are opened once, written
    only while open and all closed, and for a stream that counts as completed exactly one
    message delta and stop at the end; an incomplete stream ends with no block open. *)
Theorem chat_stream_wellformed (model : string) (u latest : TokenUsage) (datas : list string) :
  let '(s, es) := c2m_feed_all (NewChatToMessagesStream model u) datas in
  let '(_, es', meta) := C2M_Finish s latest in
  exists p, accept_all PNone (es ++ es') = Some p /\
    (if sm_Completed meta then p = PStop else p = PNone \/ exists n, p = POpen n ∅).
Proof.
  pose proof (c2m_feed_all_sound datas _ (new_inv model u)) as [I A]. pose proof (c2m_not_finished datas (NewChatToMessagesStream model u) eq_refl) as Fi.
  destruct (c2m_feed_all _ datas) as [s es]. cbn [fst snd] in *. pose proof (finish_accepted s latest I Fi) as F. destruct (C2M_Finish s latest) as [[s' es'] meta].
  destruct F as (p & F & C). exists p. rewrite accept_all_app. change PNone with (phase_of (NewChatToMessagesStream model u)) at 1. rewrite A. split; [exact F|].
  destruct (sm_Completed meta); apply C.
Qed.

(** * The text that comes through *)

(** The text an event adds to a text or thinking block. *)
Definition delta_text (thinking : bool) (e : MessagesStreamEvent) : string :=
  match me_Data e with
  | JObj m => let d := sub_map "delta" m in
              if seqb (get_str "type" d) (if thinking then "thinking_delta" else "text_delta")
              then get_str (if thinking then "thinking" else "text") d else ""
  | _ => ""
  end.
Definition stream_text (thinking : bool) (es : list MessagesStreamEvent) : string := Join (map (delta_text thinking) es) "".

(** The text of a frame. *)
Definition frame_text (thinking : bool) (data : string) : string :=
  match parse_chunk data with
  | Some ck => match ck_Choices ck with c :: _ => if thinking then choice_thinking c else cc_Content c | [] => "" end
  | None => ""
  end.

Fixpoint cat (l : list string) : string := match l with [] => "" | x :: r => x +:+ cat r end.
Lemma Join_cat l : Join l "" = cat l.
Proof. induction l as [|x l IH]; [done|]. cbn. destruct l as [|y l]; [by rewrite append_nil_r|]. rewrite IH. done. Qed.
Lemma cat_app l k : cat (l ++ k) = cat l +:+ cat k.
Proof. induction l as [|x l IH]; [done|]. cbn. change ((l ++ k)%list) with (l ++ k). by rewrite IH, append_assoc. Qed.

Lemma stream_text_app b es es' : stream_text b (es ++ es') = stream_text b es +:+ stream_text b es'.
Proof. unfold stream_text. by rewrite !Join_cat, map_app, cat_app. Qed.

Lemma start_text b s : stream_text b (snd (startMessage s)) = "".
Proof. unfold startMessage. destruct (cm_started s); [done|]. by destruct b. Qed.

Lemma emit_text_text b b' s t : stream_text b' (snd (emit_text b s t)) = if bool_decide (b = b') then t else "".
Proof.
  unfold emit_text. destruct (is_empty t) eqn:E; [sbool; subst; by case_bool_decide|].
  pose proof (start_text b' s) as Q. destruct (startMessage s) as [s1 e1]. cbn [snd] in Q.
  unfold ensureBlock. cbn zeta. destruct (0 <=? _); destruct b; cbn [emitThinkingDelta emitTextDelta snd]; rewrite !stream_text_app, Q.
  all: destruct b'; cbn; rewrite ?append_nil_r; done.
Qed.

Lemma flush_text b es : stream_text b (flush_last es) = stream_text b es.
Proof.
  unfold flush_last. destruct es as [|e es] using rev_ind; [done|]. rewrite rev_app_distr. cbn [rev app]. by rewrite rev_involutive, !stream_text_app.
Qed.

Lemma tool_calls_text b tcs : forall s, stream_text b (snd (fst (tool_calls s tcs))) = "".
Proof.
  induction tcs as [|tc tcs IH]; intros s; [by destruct b|]. cbn [tool_calls].
  assert (stream_text b (snd (fst (tool_call s tc))) = "") as Q.
  { unfold tool_call. destruct (cm_toolIndex s !! _) as [idx|]; destruct (bool_decide _); cbn [fst snd]; rewrite flush_text, stream_text_app.
    all: destruct (is_empty (td_Arguments tc)), b; done. }
  destruct (tool_call s tc) as [[s1 e1] f1]. specialize (IH s1). destruct (tool_calls s1 tcs) as [[s2 e2] f2]. cbn [fst snd] in *.
  by rewrite stream_text_app, Q, IH.
Qed.

Lemma feed_chunk_text b s data : stream_text b (snd (fst (fst (feed_chunk s data)))) = frame_text b data.
Proof.
  unfold feed_chunk, frame_text. destruct (parse_chunk data) as [ck|]; [|by destruct b]. set (s0 := if is_empty (ck_ID ck) then _ else _). clearbody s0. clear s.
  destruct (ck_Choices ck) as [|c cs]; [by destruct b|]. unfold feed_choice.
  pose proof (emit_text_text true b s0 (choice_thinking c)) as T1. destruct (emit_text true s0 (choice_thinking c)) as [s1 e1].
  pose proof (emit_text_text false b s1 (cc_Content c)) as T2. destruct (emit_text false s1 (cc_Content c)) as [s2 e2]. cbn [snd] in *.
  assert (exists s3 e3 f, (match cc_ToolCalls c with
    | [] => ((s2, []), false)
    | tcs => let '(s, e0) := startMessage s2 in let '((s, es), f) := tool_calls s tcs in ((s, e0 ++ es), f) end) = ((s3, e3), f) /\ stream_text b e3 = "")
    as (s3 & e3 & f & -> & T3).
  { destruct (cc_ToolCalls c) as [|tc tcs]; [do 3 eexists; split; [done|by destruct b]|].
    pose proof (start_text b s2) as Q1. destruct (startMessage s2) as [sa ea]. pose proof (tool_calls_text b (tc :: tcs) sa) as Q2.
    destruct (tool_calls sa (tc :: tcs)) as [[sb eb] fb]. cbn [fst snd] in *. do 3 eexists. split; [done|]. by rewrite stream_text_app, Q1, Q2. }
  cbn [fst snd]. rewrite !stream_text_app, T1, T2, T3. destruct b; cbn; by rewrite ?append_nil_r.
Qed.

(** No character is lost or invented: the text deltas of the Messages stream, put
    together, are the contents of the frames in order, and the thinking deltas are the
    reasoning of the frames, whichever of its spellings the upstream uses. *)
Lemma chat_stream_text_exact (model : string) (u : TokenUsage) (datas : list string) (thinking : bool) :
  stream_text thinking (snd (c2m_feed_all (NewChatToMessagesStream model u) datas)) = Join (map (frame_text thinking) datas) "".
Proof.
  rewrite Join_cat. set (s0 := NewChatToMessagesStream model u). assert (cm_finished s0 = false) as F by done. clearbody s0.
  revert s0 F. induction datas as [|d datas IH]; intros s F; [by destruct thinking|]. cbn [c2m_feed_all map cat].
  pose proof (c2m_not_finished [d] s F) as F1. cbn [c2m_feed_all] in F1.
  assert (stream_text thinking (snd (fst (C2M_FeedJSON s d))) = frame_text thinking d) as Q.
  { unfold C2M_FeedJSON. rewrite F. destruct (seqb d "[DONE]") eqn:E; [sbool; subst d; destruct thinking; by vm_compute|].
    set (s1 := s <| cm_usage := _ |>). pose proof (feed_chunk_text thinking s1 d) as T. by destruct (feed_chunk s1 d) as [[[]]]. }
  destruct (C2M_FeedJSON s d) as [[s1 e1] m1]. cbn [fst snd] in *. specialize (IH s1 F1). destruct (c2m_feed_all s1 datas) as [s2 e2].
  cbn [snd] in *. by rewrite stream_text_app, Q, IH.
Qed.

(** * messages_chat_stream.go *)

Record MessagesToChatStream := mkM2C {
  mc_model : string; mc_id : string; mc_created : Z; mc_toolIndex : gmap Z Z; mc_nextTool : Z; mc_blockTypes : gmap Z string;
  mc_sawToolUse : bool; mc_finishSent : bool
}.
#[global] Instance eta_m2c : Eta MessagesToChatStream := fun s =>
  mkM2C (mc_model s) (mc_id s) (mc_created s) (mc_toolIndex s) (mc_nextTool s) (mc_blockTypes s) (mc_sawToolUse s) (mc_finishSent s).

Definition NewMessagesToChatStream (model : string) (now : Z) : MessagesToChatStream :=
  mkM2C model "chatcmpl-stream" now ∅ 0 ∅ false false.

Definition stripMsgPrefix (id : string) : string :=
  if (4 <? String.length id)%nat && HasPrefix id "msg_" then string_drop 4 id else id.

Definition mapStopReasonToFinish (sr : string) (sawTool : bool) : string :=
  if seqb sr "max_tokens" then "length"
  else if seqb sr "tool_use" then "tool_calls"
  else if sawTool then "tool_calls" else "stop".

Definition baseChunk (s : MessagesToChatStream) (choice : obj) : json :=
  JObj [("id", JStr (mc_id s)); ("object", JStr "chat.completion.chunk"); ("created", num (mc_created s)); ("model", JStr (mc_model s));
        ("choices", JArr [JObj choice])].
Definition delta_chunk (s : MessagesToChatStream) (delta : obj) : json := baseChunk s [("index", num 0); ("delta", JObj delta)].
Definition finish_chunk (s : MessagesToChatStream) (finish : string) : json :=
  baseChunk s [("index", num 0); ("delta", JObj []); ("finish_reason", JStr finish)].

Section m2c.
Context (N : JsonNum).

Definition intFrom (v : option json) : Z := match as_float N v with Some x => to_int64 x | None => 0 end.

(** Counts found in a usage object replace the ones known; [keepOutput]: an output count
    that is not zero stays. *)
Definition read_usage (keepOutput : bool) (m : StreamChunkMeta) (usage : obj) : StreamChunkMeta :=
  let m := match as_float N (get "input_tokens" usage) with Some x => m <| sm_InputTokens := to_int64 x |> | None => m end in
  let m := match as_float N (get "output_tokens" usage) with
           | Some x => if keepOutput && negb (sm_OutputTokens m =? 0) then m else m <| sm_OutputTokens := to_int64 x |>
           | None => m
           end in
  let m := match as_float N (get "cache_read_input_tokens" usage) with Some x => m <| sm_CachedTokens := to_int64 x |> | None => m end in
  match as_float N (get "cache_creation_input_tokens" usage) with Some x => m <| sm_CacheCreationTokens := to_int64 x |> | None => m end.

Definition read_usage_of (keepOutput : bool) (m : StreamChunkMeta) (holder : obj) : StreamChunkMeta :=
  match as_map (get "usage" holder) with Some u => read_usage keepOutput m u | None => m end.

(** Identifier and model of the message. *)
Definition read_message (s : MessagesToChatStream) (message : obj) : MessagesToChatStream :=
  let s := match as_string (get "id" message) with
           | Some id => if is_empty id then s else s <| mc_id := "chatcmpl-" +:+ stripMsgPrefix id |>
           | None => s
           end in
  match as_string (get "model" message) with Some m => if is_empty m then s else s <| mc_model := m |> | None => s end.

Notation m2c_result := (MessagesToChatStream * list json * StreamChunkMeta)%type.

Definition tool_start_delta (toolIdx : Z) (id name : string) : obj :=
  [("tool_calls", JArr [JObj [("index", num toolIdx); ("id", JStr id); ("type", JStr "function");
     ("function", JObj [("name", JStr name); ("arguments", JStr "")])]])].
Definition tool_args_delta (toolIdx : Z) (partial : string) : obj :=
  [("tool_calls", JArr [JObj [("index", num toolIdx); ("function", JObj [("arguments", JStr partial)])]])].

Definition on_block_start (s : MessagesToChatStream) (ev : obj) (meta : StreamChunkMeta) : m2c_result :=
  let idx := intFrom (get "index" ev) in
  match as_map (get "content_block" ev) with
  | None => (s, [], meta)
  | Some cb =>
      let cbType := get_str "type" cb in
      let s := s <| mc_blockTypes := <[idx := cbType]> (mc_blockTypes s) |> in
      if seqb cbType "tool_use" then
        let toolIdx := mc_nextTool s in
        let s := s <| mc_sawToolUse := true |> <| mc_toolIndex := <[idx := toolIdx]> (mc_toolIndex s) |> <| mc_nextTool := toolIdx + 1 |> in
        (s, [delta_chunk s (tool_start_delta toolIdx (get_str "id" cb) (get_str "name" cb))], meta)
      else (s, [], meta)
  end.

Definition on_delta (s : MessagesToChatStream) (ev : obj) (meta : StreamChunkMeta) : m2c_result :=
  let idx := intFrom (get "index" ev) in
  match as_map (get "delta" ev) with
  | None => (s, [], meta)
  | Some delta =>
      let dt := get_str "type" delta in
      let text key out :=
        let t := get_str key delta in
        if is_empty t then (s, [], meta)
        else (s, [delta_chunk s [(out, JStr t)]], meta <| sm_TransmittedChars := len t |>) in
      if seqb dt "thinking_delta" then text "thinking" "reasoning_content"
      else if seqb dt "text_delta" then text "text" "content"
      else if seqb dt "input_json_delta" then
        let partial := get_str "partial_json" delta in
        if is_empty partial then (s, [], meta)
        else
          let '(s, toolIdx) :=
            match mc_toolIndex s !! idx with
            | Some i => (s, i)
            | None => let i := mc_nextTool s in
                      (s <| mc_toolIndex := <[idx := i]> (mc_toolIndex s) |> <| mc_nextTool := i + 1 |> <| mc_sawToolUse := true |>, i)
            end in
          (s, [delta_chunk s (tool_args_delta toolIdx partial)], meta <| sm_TransmittedChars := len partial |>)
      else (s, [], meta)
  end.

Definition send_finish (s : MessagesToChatStream) (finish : string) : MessagesToChatStream * list json :=
  if mc_finishSent s then (s, []) else let s := s <| mc_finishSent := true |> in (s, [finish_chunk s finish]).

Definition on_message_delta (s : MessagesToChatStream) (ev : obj) (meta : StreamChunkMeta) : m2c_result :=
  let meta := read_usage_of false meta ev in
  let finish := match as_map (get "delta" ev) with
                | Some d => match as_string (get "stop_reason" d) with Some sr => mapStopReasonToFinish sr (mc_sawToolUse s) | None => "stop" end
                | None => "stop"
                end in
  let finish := if mc_sawToolUse s && seqb finish "stop" then "tool_calls" else finish in
  let '(s, chunks) := send_finish s finish in (s, chunks, meta).

Definition on_message_stop (s : MessagesToChatStream) (meta : StreamChunkMeta) : m2c_result :=
  let '(s, chunks) := send_finish s (if mc_sawToolUse s then "tool_calls" else "stop") in (s, chunks, meta <| sm_EmitDone := true |>).

Definition on_error (s : MessagesToChatStream) (ev : obj) (meta : StreamChunkMeta) : m2c_result :=
  let msg := let m := get_str "message" (sub_map "error" ev) in if is_empty m then "upstream anthropic error" else m in
  (s, [JObj [("error", JObj [("message", JStr msg); ("type", JStr "anthropic_error")])]], meta <| sm_ErrorMessage := msg |>).

Definition feed_event (s : MessagesToChatStream) (ev : obj) : m2c_result :=
  let meta := read_usage_of false no_meta ev in
  let '(s, meta) := match as_map (get "message" ev) with
                    | Some message => (read_message s message, read_usage_of true meta message)
                    | None => (s, meta)
                    end in
  let t := get_str "type" ev in
  if seqb t "content_block_start" then on_block_start s ev meta
  else if seqb t "content_block_delta" then on_delta s ev meta
  else if seqb t "message_delta" then on_message_delta s ev meta
  else if seqb t "message_stop" then on_message_stop s meta
  else if seqb t "error" then on_error s ev meta
  else (s, [], meta).

Definition M2C_FeedJSON (s : MessagesToChatStream) (data : string) : m2c_result :=
  if seqb data "[DONE]" then (s, [], no_meta <| sm_EmitDone := true |>)
  else match decode_map N data with
       | None => (s, [], no_meta)
       | Some m => feed_event s (default [] m)
       end.
End m2c.

(** ** Text of a Chat chunk *)

Definition chunk_choice (c : json) : obj :=
  match c with
  | JObj m => match as_list (get "choices" m) with Some (JObj ch :: _) => ch | _ => [] end
  | _ => []
  end.
Definition chunk_text (thinking : bool) (c : json) : string :=
  get_str (if thinking then "reasoning_content" else "content") (sub_map "delta" (chunk_choice c)).
Definition chunk_finish (c : json) : bool := bool_decide (is_Some (get "finish_reason" (chunk_choice c))).
Definition chunks_text (thinking : bool) (cs : list json) : string := Join (map (chunk_text thinking) cs) "".

Lemma chunks_text_app b cs cs' : chunks_text b (cs ++ cs') = chunks_text b cs +:+ chunks_text b cs'.
Proof. unfold chunks_text. by rewrite !Join_cat, map_app, cat_app. Qed.

(** The integers of a document are values of Go's [int]. *)
Fixpoint machine_numbers (j : json) : Prop :=
  match j with
  | JNum lit => exists z, lit = Itoa z /\ in_int64 z
  | JArr l => (fix go l := match l with [] => True | x :: r => machine_numbers x /\ go r end) l
  | JObj m => (fix go m := match m with [] => True | (_, x) :: r => machine_numbers x /\ go r end) m
  | _ => True
  end.

Section m2c_spec.
Context (N : JsonNum).

(** The text of a Messages event, read from its document. *)
Definition event_text (thinking : bool) (ev : obj) : string :=
  if seqb (get_str "type" ev) "content_block_delta" then delta_text thinking (plain_event "" (JObj ev)) else "".

Lemma on_delta_text b s ev meta : chunks_text b (snd (fst (on_delta N s ev meta))) = delta_text b (plain_event "" (JObj ev)).
Proof.
  unfold on_delta, delta_text, plain_event. cbn [me_Data]. cbn zeta. unfold sub_map.
  destruct (as_map (get "delta" ev)) as [d|]; [|by destruct b]. change (default [] (Some d)) with d.
  destruct (seqb (get_str "type" d) "thinking_delta") eqn:T1; [sbool; rewrite T1|destruct (seqb (get_str "type" d) "text_delta") eqn:T2; [sbool; rewrite T2|]].
  - destruct b; [|by destruct (is_empty _)]. destruct (is_empty (get_str "thinking" d)) eqn:E; [sbool; by rewrite E|]. reflexivity.
  - destruct b; [by destruct (is_empty _)|]. destruct (is_empty (get_str "text" d)) eqn:E; [sbool; by rewrite E|]. reflexivity.
  - assert ((if seqb (get_str "type" d) (if b then "thinking_delta" else "text_delta") then get_str (if b then "thinking" else "text") d else "") = "") as ->
      by (destruct b; by rewrite ?T1, ?T2).
    destruct (seqb _ "input_json_delta"); [|by destruct b]. destruct (is_empty _); [by destruct b|].
    destruct (mc_toolIndex s !! _); by destruct b.
Qed.

Lemma feed_event_text b s ev : chunks_text b (snd (fst (feed_event N s ev))) = event_text b ev.
Proof.
  unfold feed_event, event_text. set (meta0 := read_usage_of N false no_meta ev). clearbody meta0.
  destruct (match as_map (get "message" ev) with Some m => _ | None => _ end) as [s1 meta]. clear s meta0. cbn zeta.
  destruct (seqb (get_str "type" ev) "content_block_start") eqn:T1.
  { sbool. rewrite T1. unfold on_block_start. cbn zeta. destruct (as_map (get "content_block" ev)); [|by destruct b].
    destruct (seqb _ "tool_use"); by destruct b. }
  destruct (seqb (get_str "type" ev) "content_block_delta"); [apply on_delta_text|].
  destruct (seqb _ "message_delta"). { unfold on_message_delta, send_finish. destruct (mc_finishSent s1); by destruct b. }
  destruct (seqb _ "message_stop"). { unfold on_message_stop, send_finish. destruct (mc_finishSent s1); by destruct b. }
  destruct (seqb _ "error"); by destruct b.
Qed.

Fixpoint m2c_feed_all (s : MessagesToChatStream) (datas : list string) : MessagesToChatStream * list json :=
  match datas with
  | [] => (s, [])
  | d :: r => let '(s, c1, _) := M2C_FeedJSON N s d in let '(s, c2) := m2c_feed_all s r in (s, c1 ++ c2)
  end.

Lemma no_finish s d : length (List.filter chunk_finish [delta_chunk s d]) = 0%nat.
Proof. reflexivity. Qed.
Lemma one_finish s f : length (List.filter chunk_finish [finish_chunk s f]) = 1%nat.
Proof. reflexivity. Qed.
#[local] Opaque delta_chunk finish_chunk.

(** The finish chunks of one frame. *)
Lemma feed_finish s d : let '(s', cs, _) := M2C_FeedJSON N s d in
  (length (List.filter chunk_finish cs) + (if mc_finishSent s then 1 else 0) <= (if mc_finishSent s' then 1 else 0))%nat.
Proof.
  unfold M2C_FeedJSON. destruct (seqb d "[DONE]"); [done|]. destruct (decode_map N d) as [m|]; [|done].
  unfold feed_event. set (ev := default [] m). clearbody ev. set (meta0 := read_usage_of N false no_meta ev). clearbody meta0.
  assert (exists s1 meta, match as_map (get "message" ev) with
      | Some msg => (read_message s msg, read_usage_of N true meta0 msg) | None => (s, meta0) end = (s1, meta) /\
    mc_finishSent s1 = mc_finishSent s) as (s1 & meta & -> & R).
  { destruct (as_map _) as [msg|]; [|by do 2 eexists]. do 2 eexists. split; [done|]. unfold read_message. repeat split_match; done. }
  rewrite <- R. clear R s. cbn zeta.
  destruct (seqb _ "content_block_start").
  { unfold on_block_start. cbn zeta. destruct (as_map _); [destruct (seqb _ "tool_use")|]; rewrite ?no_finish; cbn; lia. }
  destruct (seqb _ "content_block_delta").
  { unfold on_delta. cbn zeta. destruct (as_map _) as [dl|]; [|done].
    destruct (seqb _ "thinking_delta"); [destruct (is_empty _); rewrite ?no_finish; cbn; lia|].
    destruct (seqb _ "text_delta"); [destruct (is_empty _); rewrite ?no_finish; cbn; lia|].
    destruct (seqb _ "input_json_delta"); [|done]. destruct (is_empty _); [done|].
    destruct (mc_toolIndex s1 !! _); rewrite no_finish; cbn; lia. }
  destruct (seqb _ "message_delta");
    [unfold on_message_delta, send_finish; destruct (mc_finishSent s1) eqn:F; rewrite ?one_finish; cbn; rewrite ?F; lia|].
  destruct (seqb _ "message_stop");
    [unfold on_message_stop, send_finish; destruct (mc_finishSent s1) eqn:F; rewrite ?one_finish; cbn; rewrite ?F; lia|].
  destruct (seqb _ "error"); exact (Nat.le_refl _).
Qed.

Lemma m2c_finish_once datas : forall s,
  (length (List.filter chunk_finish (snd (m2c_feed_all s datas))) + (if mc_finishSent s then 1 else 0) <= 1)%nat.
Proof.
  induction datas as [|d datas IH]; intros s; cbn [m2c_feed_all]; [destruct (mc_finishSent s); cbn; lia|].
  pose proof (feed_finish s d) as F. destruct (M2C_FeedJSON N s d) as [[s1 c1] m1]. specialize (IH s1).
  destruct (m2c_feed_all s1 datas) as [s2 c2]. cbn [snd] in *. rewrite List.filter_app, length_app. lia.
Qed.

(** ** There and back *)

(** The bytes of an event. *)
Definition event_bytes (e : MessagesStreamEvent) : string := string_of (json_encode (me_Data e)).

(** A Go [int] is decoded as a float64, printed in some way. *)
Context (Hnum : forall z, in_int64 z -> is_Some (num_text N (Itoa z))).

(** What the other side reads of an event. *)
Definition readable (e : MessagesStreamEvent) : Prop :=
  machine_numbers (me_Data e) -> exists m, decode_any N (me_Data e) = Some (JObj m) /\ forall b, event_text b m = delta_text b e.
Lemma machine_decoded lit : machine_numbers (JNum lit) -> is_Some (num_text N lit).
Proof. intros (z & -> & Hz). by apply Hnum. Qed.

Ltac read_doc :=
  unfold readable; cbn [me_Data plain_event with_flush]; cbn -[machine_numbers]; intros Hm; cbn in Hm; destruct_and? Hm;
  repeat match goal with H : exists z, ?lit = Itoa z /\ in_int64 z |- context [num_text N ?lit] => destruct (machine_decoded lit H) as [? ->]; cbn end;
  eexists; split; [reflexivity|]; intros []; reflexivity.

Lemma read_start id model u : readable (with_flush (plain_event "message_start" (message_start_doc id model u))).
Proof. read_doc. Qed.
Lemma read_block idx kind : readable (plain_event "content_block_start" (block_start_doc idx [("type", JStr kind); ("text", JStr "")])).
Proof. read_doc. Qed.
Lemma read_thinking idx kind : readable (plain_event "content_block_start" (block_start_doc idx [("type", JStr kind); ("thinking", JStr "")])).
Proof. read_doc. Qed.
Lemma read_tool idx id name : readable (plain_event "content_block_start"
  (block_start_doc idx [("type", JStr "tool_use"); ("id", JStr id); ("name", JStr name); ("input", JObj [])])).
Proof. read_doc. Qed.
Lemma read_text idx t c f : readable (mkEvent "content_block_delta" (block_delta_doc idx "text_delta" "text" t) c f).
Proof. read_doc. Qed.
Lemma read_thought idx t c f : readable (mkEvent "content_block_delta" (block_delta_doc idx "thinking_delta" "thinking" t) c f).
Proof. read_doc. Qed.
Lemma read_args idx t : readable (plain_event "content_block_delta" (block_delta_doc idx "input_json_delta" "partial_json" t)).
Proof. read_doc. Qed.
Lemma read_stop idx : readable (plain_event "content_block_stop" (block_stop_doc idx)).
Proof. read_doc. Qed.
Lemma read_message_delta r n : readable (plain_event "message_delta" (message_delta_doc r n)).
Proof. read_doc. Qed.
Lemma read_message_stop : readable (with_flush (plain_event "message_stop" message_stop_doc)).
Proof. read_doc. Qed.

Lemma read_flush es : Forall readable es -> Forall readable (flush_last es).
Proof.
  unfold flush_last. destruct es as [|e es] using rev_ind; [done|]. rewrite rev_app_distr. cbn [rev app]. rewrite rev_involutive, !Forall_app.
  intros [A B]. split; [done|]. apply Forall_cons in B as [B _]. apply Forall_singleton. exact B.
Qed.

Lemma startMessage_readable s : Forall readable (snd (startMessage s)).
Proof. unfold startMessage. destruct (cm_started s); [done|]. apply Forall_singleton, read_start. Qed.

Lemma ensureBlock_readable s b : Forall readable (snd (fst (ensureBlock s b))).
Proof. unfold ensureBlock. cbn zeta. destruct (0 <=? _); [done|]. apply Forall_singleton. destruct b; [apply read_thinking|apply read_block]. Qed.

Lemma emit_text_readable b s t : Forall readable (snd (emit_text b s t)).
Proof.
  unfold emit_text. destruct (is_empty t); [done|]. pose proof (startMessage_readable s) as R1. destruct (startMessage s) as [s1 e1].
  pose proof (ensureBlock_readable s1 b) as R2. destruct (ensureBlock s1 b) as [[s2 e2] idx]. cbn [fst snd] in *.
  destruct b; cbn [emitThinkingDelta emitTextDelta snd]; rewrite !Forall_app; (split_and!; [done|done|apply Forall_singleton]).
  - apply read_thought.
  - apply read_text.
Qed.

Lemma tool_calls_readable tcs : forall s, Forall readable (snd (fst (tool_calls s tcs))).
Proof.
  induction tcs as [|tc tcs IH]; intros s; [done|]. cbn [tool_calls].
  assert (Forall readable (snd (fst (tool_call s tc)))) as Q.
  { unfold tool_call. destruct (cm_toolIndex s !! _) as [idx|]; destruct (bool_decide _); cbn [fst snd]; apply read_flush, Forall_app.
    all: split; [first [done|apply Forall_singleton, read_tool]|]. all: destruct (is_empty _); [done|apply Forall_singleton, read_args]. }
  destruct (tool_call s tc) as [[s1 e1] f1]. specialize (IH s1). destruct (tool_calls s1 tcs) as [[s2 e2] f2]. by apply Forall_app.
Qed.

Lemma feed_readable s d : Forall readable (snd (fst (C2M_FeedJSON s d))).
Proof.
  unfold C2M_FeedJSON. destruct (cm_finished s); [done|]. destruct (seqb d "[DONE]"); [done|]. set (s1 := s <| cm_usage := _ |>). clearbody s1.
  assert (Forall readable (snd (fst (fst (feed_chunk s1 d))))) as Q; [|by destruct (feed_chunk s1 d) as [[[]]]].
  unfold feed_chunk. destruct (parse_chunk d) as [ck|]; [|done]. set (s2 := if is_empty (ck_ID ck) then _ else _). clearbody s2.
  destruct (ck_Choices ck) as [|c cs]; [done|]. unfold feed_choice.
  pose proof (emit_text_readable true s2 (choice_thinking c)) as R1. destruct (emit_text true s2 (choice_thinking c)) as [s3 e3].
  pose proof (emit_text_readable false s3 (cc_Content c)) as R2. destruct (emit_text false s3 (cc_Content c)) as [s4 e4].
  destruct (cc_ToolCalls c) as [|tc tcs]; [cbn; rewrite app_nil_r; by apply Forall_app|].
  pose proof (startMessage_readable s4) as R3. destruct (startMessage s4) as [s5 e5]. pose proof (tool_calls_readable (tc :: tcs) s5) as R4.
  destruct (tool_calls s5 (tc :: tcs)) as [[s6 e6] f6]. cbn [fst snd] in *. by rewrite !Forall_app.
Qed.

Lemma c2m_feed_all_readable datas : forall s, Forall readable (snd (c2m_feed_all s datas)).
Proof.
  induction datas as [|d datas IH]; intros s; [done|]. cbn [c2m_feed_all]. pose proof (feed_readable s d) as R. destruct (C2M_FeedJSON s d) as [[s1 e1] m1].
  specialize (IH s1). destruct (c2m_feed_all s1 datas) as [s2 e2]. by apply Forall_app.
Qed.

Lemma close_readable s : Forall readable (snd (closeOpenBlocks s)).
Proof. cbn. apply Forall_map, Forall_true. intros idx. apply read_stop. Qed.

Lemma finish_readable s latest : Forall readable (snd (fst (C2M_Finish s latest))).
Proof.
  unfold C2M_Finish. destruct (cm_finished s); [done|]. set (s1 := s <| cm_finished := true |> <| cm_usage := latest |>). clearbody s1.
  destruct (_ || _).
  - set (r := mapOpenAIFinishReason _). clearbody r.
    assert (Forall readable (snd (finalizeSuccess s1 r))) as Q; [|by destruct (finalizeSuccess s1 r)]. unfold finalizeSuccess.
    pose proof (startMessage_readable s1) as R1. destruct (startMessage s1) as [s2 e2].
    pose proof (ensureBlock_readable s2 false) as R2. destruct (if bool_decide _ then _ else _) as [s3 e3] eqn:E.
    assert (Forall readable e3) by (destruct (bool_decide _); [by rewrite E in R2|by simplify_eq]).
    pose proof (close_readable s3) as R3. destruct (closeOpenBlocks s3) as [s4 e4]. cbn [snd] in *. rewrite !Forall_app. split_and!; try done.
    repeat constructor; [apply read_message_delta|apply read_message_stop].
  - destruct (cm_started s1); [|done]. pose proof (close_readable s1) as R. destruct (closeOpenBlocks s1). by apply read_flush.
Qed.

Lemma m2c_reads es : forall s, Forall readable es -> Forall (fun e => json_ok maxNestingDepth (me_Data e) = true /\ machine_numbers (me_Data e)) es ->
  forall b, chunks_text b (snd (m2c_feed_all s (map event_bytes es))) = stream_text b es.
Proof.
  induction es as [|e es IH]; intros s R J b; [by destruct b|]. apply Forall_cons in R as [R1 R], J as [[J1 J2] J]. destruct (R1 J2) as (m & D & T). cbn [map m2c_feed_all].
  assert (chunks_text b (snd (fst (M2C_FeedJSON N s (event_bytes e)))) = delta_text b e) as Q.
  { unfold M2C_FeedJSON. pose proof (encode_parse (me_Data e) J1) as Pe. fold (event_bytes e) in Pe.
    destruct (seqb (event_bytes e) "[DONE]") eqn:E; [sbool; rewrite E in Pe; by vm_compute in Pe|].
    unfold decode_map. rewrite Pe. cbn [mbind option_bind]. destruct (me_Data e) eqn:Ed; try by cbn in D.
    1, 2: cbn [decode_any] in D; by apply fmap_Some in D as (? & _ & ?).
    rewrite D. cbn [default from_option id]. rewrite feed_event_text. apply T. }
  destruct (M2C_FeedJSON N s (event_bytes e)) as [[s1 c1] m1]. specialize (IH s1 R J b). destruct (m2c_feed_all s1 (map event_bytes es)) as [s2 c2].
  cbn [fst snd] in *. rewrite chunks_text_app, Q, IH. unfold stream_text. by rewrite !Join_cat.
Qed.
End m2c_spec.

Lemma finish_text b s latest : stream_text b (snd (fst (C2M_Finish s latest))) = "".
Proof.
  assert (forall s, stream_text b (snd (closeOpenBlocks s)) = "") as C.
  { intros s0. cbn. unfold stream_text. rewrite Join_cat, map_map. generalize (merge_sort Z.le (elements (cm_activeBlocks s0))) as l.
    induction l as [|x l IH]; [done|]. cbn [map cat]. rewrite IH. by destruct b. }
  unfold C2M_Finish. destruct (cm_finished s); [by destruct b|]. set (s1 := s <| cm_finished := true |> <| cm_usage := latest |>). clearbody s1.
  destruct (_ || _).
  - set (r := mapOpenAIFinishReason _). clearbody r.
    assert (stream_text b (snd (finalizeSuccess s1 r)) = "") as Q; [|by destruct (finalizeSuccess s1 r)]. unfold finalizeSuccess.
    pose proof (start_text b s1) as R1. destruct (startMessage s1) as [s2 e2].
    assert (exists s3 e3, (if bool_decide (cm_activeBlocks s2 = ∅) then fst (ensureBlock s2 false) else (s2, [])) = (s3, e3) /\ stream_text b e3 = "") as (s3 & e3 & -> & R2).
    { destruct (bool_decide _); [|do 2 eexists; split; [done|by destruct b]]. unfold ensureBlock. cbn zeta. destruct (0 <=? _); (do 2 eexists; split; [done|by destruct b]). }
    specialize (C s3). destruct (closeOpenBlocks s3) as [s4 e4]. cbn [snd] in *. rewrite !stream_text_app, R1, R2, C. by destruct b.
  - destruct (cm_started s1); [|by destruct b]. specialize (C s1). destruct (closeOpenBlocks s1). cbn [fst snd] in *. by rewrite flush_text.
Qed.

(** C26: a Chat stream translated to Messages and back says the same: the contents of the
    Chat chunks made from the bytes of the Messages events are, put together, the contents
    of the original frames, and likewise the reasoning; and the second translation
    ends with at most one finish reason. The events must survive printing: their texts are valid UTF-8 and their integers
    values of Go's [int], which encoding/json decodes as float64. *)
Theorem stream_roundtrip (N : JsonNum) (model model' : string) (u latest : TokenUsage) (now : Z) (datas : list string) (thinking : bool)
  (es es' : list MessagesStreamEvent) (s s' : ChatToMessagesStream) (meta : StreamChunkMeta)
  (Hnum : forall z, in_int64 z -> is_Some (num_text N (Itoa z)))
  (Hfeed : c2m_feed_all (NewChatToMessagesStream model u) datas = (s, es)) (Hfinish : C2M_Finish s latest = (s', es', meta))
  (Hok : Forall (fun e => json_ok maxNestingDepth (me_Data e) = true /\ machine_numbers (me_Data e)) (es ++ es')) :
  let chunks := snd (m2c_feed_all N (NewMessagesToChatStream model' now) (map event_bytes (es ++ es'))) in
  chunks_text thinking chunks = Join (map (frame_text thinking) datas) "" /\ (length (List.filter chunk_finish chunks) <= 1)%nat.
Proof.
  cbn zeta. split.
  - rewrite (m2c_reads N (es ++ es')); [| |done].
    + rewrite stream_text_app. pose proof (finish_text thinking s latest) as F. rewrite Hfinish in F. cbn [fst snd] in F. rewrite F, append_nil_r.
      pose proof (chat_stream_text_exact model u datas thinking) as T. rewrite Hfeed in T. exact T.
    + pose proof (c2m_feed_all_readable N Hnum datas (NewChatToMessagesStream model u)) as R1. rewrite Hfeed in R1.
      pose proof (finish_readable N Hnum s latest) as R2. rewrite Hfinish in R2. by apply Forall_app.
  - pose proof (m2c_finish_once N (map event_bytes (es ++ es')) (NewMessagesToChatStream model' now)) as F. cbn in F. lia.
Qed.

Definition demo_frames : list string :=
  [json_text "{'id':'chatcmpl-1','choices':[{'delta':{'reasoning':'hm'}}]}"; json_text "{'choices':[{'delta':{'content':'Hel'}}]}"; "not json";
   json_text "{'choices':[{'delta':{'content':'lo','tool_calls':[{'index':0,'id':'call_1','function':{'name':'f','arguments':'{}'}}]},'finish_reason':'stop'}]}";
   "[DONE]"].

(** A decoder that takes the integers of 64 bits and nothing else. *)
Definition int64_num : JsonNum := mkJsonNum (fun l => match ParseInt l with Some z => Some (Itoa z) | None => None end) (fun l => match ParseInt l with Some z => of_int z | None => fzero end).

Lemma stream_roundtrip_witness :
  let '(s, es) := c2m_feed_all (NewChatToMessagesStream "m" no_usage) demo_frames in
  let '(_, es', _) := C2M_Finish s no_usage in
  chunks_text false (snd (m2c_feed_all int64_num (NewMessagesToChatStream "m" 0) (map event_bytes (es ++ es')))) = "Hello".
Proof.
  destruct (c2m_feed_all (NewChatToMessagesStream "m" no_usage) demo_frames) as [s es] eqn:E1.
  destruct (C2M_Finish s no_usage) as [[s' es'] meta] eqn:E2.
  assert (Forall (fun e => json_ok 5 (me_Data e) = true /\ machine_numbers (me_Data e)) (es ++ es')) as H5.
  { vm_compute in E1. injection E1 as <- <-. vm_compute in E2. injection E2 as <- <- <-. repeat constructor.
    all: first [by exists 0|by exists 1|by exists 2]. }
  assert (Forall (fun e => json_ok maxNestingDepth (me_Data e) = true /\ machine_numbers (me_Data e)) (es ++ es')) as H.
  { eapply Forall_impl; [exact H5|]. intros e [A B]. split; [|exact B]. apply (json_ok_mono _ 5); [apply Nat.leb_le; vm_compute; reflexivity|exact A]. }
  exact (proj1 (stream_roundtrip int64_num "m" "m" no_usage no_usage 0 demo_frames false es es' s s' meta
    ltac:(intros z Hz; cbn; rewrite (ParseInt_Itoa z Hz); by eexists) E1 E2 H)).
Defined.
