(* ===== verification/TranslateMessages.v ===== *)
(** pkg/llm/translate/messages_chat.go: requests and complete responses between the Messages
    and the Chat protocol.  The translation proper works on decoded documents; the entry
    points decode and print. *)

From Stdlib Require Import Ascii.
From Stdlib Require Import SpecFloat.
From S2P Require Import Prelude GoFloat GoStrings GoTime GoJson GoPrint Matcher Policy Types Context Http Translate TranslateWire TranslateStream.

Definition newline : string := String "010"%char "".

(** * Messages request to Chat *)

(** The texts of the text parts of a list. *)
Definition text_parts (l : list json) : list string :=
  omap (fun p => match p with JObj m => if seqb (get_str "type" m) "text" then as_string (get "text" m) else None | _ => None end) l.

Definition system_prompt (payload : obj) : string :=
  match get "system" payload with
  | Some (JStr s) => s
  | Some (JArr l) => Join (text_parts l) newline
  | _ => ""
  end.

Definition anthropicImageToOpenAIURL (block : obj) : string :=
  match as_map (get "source" block) with
  | None => ""
  | Some source =>
      let t := get_str "type" source in
      if seqb t "base64" then
        let data := get_str "data" source in
        let mt := get_str "media_type" source in
        if is_empty data then "" else "data:" +:+ (if is_empty mt then "image/png" else mt) +:+ ";base64," +:+ data
      else if seqb t "url" then get_str "url" source else ""
  end.

Definition text_part (t : string) : json := JObj [("type", JStr "text"); ("text", JStr t)].
Definition image_part (url : string) : json := JObj [("type", JStr "image_url"); ("image_url", JObj [("url", JStr url)])].

Definition buildOpenAIContentMessage (role : string) (texts : list string) (images : list json) : obj :=
  let merged := Join texts newline in
  [("role", JStr role); ("content", slice ((if is_empty merged then [] else [text_part merged]) ++ images))].

Definition chat_tool_call (id name arguments : string) : json :=
  JObj [("id", JStr id); ("type", JStr "function"); ("function", JObj [("name", JStr name); ("arguments", JStr arguments)])].
Definition tool_message (id content : string) : json :=
  JObj [("role", JStr "tool"); ("tool_call_id", JStr id); ("content", JStr content)].

Definition result_text (block : obj) : string :=
  match get "content" block with
  | Some (JStr s) => s
  | Some (JArr l) => Join (text_parts l) newline
  | _ => ""
  end.

(** What the blocks of one message add up to. *)
Record block_sum := mkBlocks {
  bl_texts : list string; bl_tools : list json; bl_images : list json; bl_hasResult : bool; bl_results : list json
}.
Definition no_blocks : block_sum := mkBlocks [] [] [] false [].

Definition add_block (b : block_sum) (block : json) : block_sum :=
  match block with
  | JObj m =>
      let t := get_str "type" m in
      if seqb t "text" then
        match as_string (get "text" m) with
        | Some s => mkBlocks (bl_texts b ++ [s]) (bl_tools b) (bl_images b) (bl_hasResult b) (bl_results b)
        | None => b
        end
      else if seqb t "image" then
        let url := anthropicImageToOpenAIURL m in
        if is_empty url then b else mkBlocks (bl_texts b) (bl_tools b) (bl_images b ++ [image_part url]) (bl_hasResult b) (bl_results b)
      else if seqb t "tool_use" then
        mkBlocks (bl_texts b) (bl_tools b ++ [chat_tool_call (get_str "id" m) (get_str "name" m) (Marshal (default JNull (get "input" m)))])
          (bl_images b) (bl_hasResult b) (bl_results b)
      else if seqb t "tool_result" then
        mkBlocks (bl_texts b) (bl_tools b) (bl_images b) true (bl_results b ++ [tool_message (get_str "tool_use_id" m) (result_text m)])
      else b
  | _ => b
  end.

Definition with_tools (tools : list json) (m : obj) : obj := match tools with [] => m | _ => put "tool_calls" (JArr tools) m end.

Definition block_messages (role : string) (b : block_sum) : list json :=
  bl_results b ++
  if bl_hasResult b then
    match bl_texts b, bl_images b with [], [] => [] | _, _ => [JObj (buildOpenAIContentMessage role (bl_texts b) (bl_images b))] end
  else
    match bl_images b with
    | _ :: _ => [JObj (with_tools (bl_tools b) (buildOpenAIContentMessage role (bl_texts b) (bl_images b)))]
    | [] =>
        let merged := Join (bl_texts b) newline in
        let merged := if seqb role "user" && is_empty merged then " " else merged in
        [JObj (with_tools (bl_tools b) [("role", JStr role); ("content", JStr merged)])]
    end.

Definition chat_messages (m : json) : list json :=
  match m with
  | JObj mm =>
      let role := get_str "role" mm in
      match get "content" mm with
      | Some (JStr s) => [JObj [("role", JStr role); ("content", JStr s)]]
      | Some (JArr l) => block_messages role (fold_left add_block l no_blocks)
      | _ => []
      end
  | _ => []
  end.

Definition chat_tool (official : bool) (t : json) : option json :=
  match t with
  | JObj m =>
      let name := get_str "name" m in
      if is_empty name then None
      else
        let fn := [("name", JStr name)] in
        let fn := match as_string (get "description" m) with Some d => put "description" (JStr d) fn | None => fn end in
        let params := match get "input_schema" m with
                      | Some (JObj s) => cleanJSONSchema s (negb official)
                      | Some v => v
                      | None => JObj [("type", JStr "object"); ("properties", JObj [])]
                      end in
        Some (JObj [("type", JStr "function"); ("function", JObj (put "parameters" params fn))])
  | _ => None
  end.

Definition messages_of (payload : obj) : list json := default [] (as_list (get "messages" payload)).

Definition all_chat_messages (official : bool) (payload : obj) : list json :=
  let sys := system_prompt payload in
  let system := if is_empty sys then []
                else [JObj [("role", JStr "system"); ("content", JStr (if official then sys else cleanSystemPrompt sys))]] in
  let msgs := system ++ concat (map chat_messages (messages_of payload)) in
  if official then msgs else degradeMessagesToTextOnly msgs.

Definition tools_field (official : bool) (payload : obj) : obj :=
  match as_list (get "tools" payload) with
  | None => payload
  | Some tools =>
      match omap (chat_tool official) tools with
      | [] => del "tools" payload
      | l => put "tools" (JArr (if official then l else firstn 32 l)) payload
      end
  end.

Definition choice_field (payload : obj) : obj :=
  match as_map (get "tool_choice" payload) with
  | None => payload
  | Some tc =>
      let t := get_str "type" tc in
      if seqb t "auto" then put "tool_choice" (JStr "auto") payload
      else if seqb t "any" then put "tool_choice" (JStr "required") payload
      else if seqb t "tool" then
        put "tool_choice" (JObj [("type", JStr "function"); ("function", JObj [("name", JStr (get_str "name" tc))])]) payload
      else payload
  end.

(** The parameters between messages and tools. *)
Definition option_fields (official : bool) (payload : obj) : obj :=
  let payload := del "system" payload in
  let payload := match get "stop_sequences" payload with Some v => del "stop_sequences" (put "stop" v payload) | None => payload end in
  let payload := if official then payload else del "output_config" (del "metadata" (del "top_k" payload)) in
  let payload := match get "max_tokens" payload with
                 | Some v => if official then del "max_tokens" (put "max_completion_tokens" v payload) else payload
                 | None => payload
                 end in
  if official then
    match as_map (get "thinking" payload) with
    | Some th => if seqb (get_str "type" th) "adaptive" then put "thinking" (JObj (put "type" (JStr "auto") th)) payload else payload
    | None => payload
    end
  else del "thinking" payload.

Definition messages_to_chat (official : bool) (payload : obj) : obj :=
  choice_field (tools_field official (option_fields official (put "messages" (slice (all_chat_messages official payload)) payload))).

Definition parse_error (e : goerror) : goerror := mkError ("parse raw body: " +:+ Error_text e) (err_chain e) (err_Retryable e).
Definition json_error : goerror := errorf "invalid JSON".

(** The document [null] gives a nil map, which cannot be written to. *)
Definition MessagesRequestToChat (N : JsonNum) (rawBody : string) (official : bool) : go (string + goerror) :=
  match decode_map N rawBody with
  | None => Ret (inr (parse_error json_error))
  | Some None => Panic
  | Some (Some payload) => Ret (inl (Marshal (JObj (messages_to_chat official payload))))
  end.

(** * Chat request to Messages *)

(** [strings.Split(s, ";base64,")] with two parts. *)
Fixpoint cut_sep (sep : string) (acc : string) (s : string) : option (string * string) :=
  if HasPrefix s sep then Some (acc, string_drop (String.length sep) s)
  else match s with "" => None | String c r => cut_sep sep (acc +:+ String c "") r end.
Definition data_url (url : string) : option (string * string) :=
  if HasPrefix url "data:" then
    '(media, data) ← cut_sep ";base64," "" (string_drop 5 url);
    if Contains data ";base64," then None else Some (media, data)
  else None.

Definition user_block (block : json) : option json :=
  match block with
  | JObj m =>
      if seqb (get_str "type" m) "image_url" then
        match data_url (get_str "url" (sub_map "image_url" m)) with
        | Some (media, data) => Some (JObj [("type", JStr "image"); ("source", JObj [("type", JStr "base64"); ("media_type", JStr media); ("data", JStr data)])])
        | None => Some block
        end
      else Some block
  | _ => None
  end.

(** The arguments of a call; what cannot be read becomes an empty object. *)
Definition call_input (N : JsonNum) (args : string) : json :=
  match (if is_empty args then JNull else match json_parse args with Some j => decode_lenient N j | None => JNull end) with
  | JNull => JObj []
  | v => v
  end.

Definition tool_use_block (id name : string) (input : json) : json :=
  JObj [("type", JStr "tool_use"); ("id", JStr id); ("name", JStr name); ("input", input)].

Definition assistant_call (N : JsonNum) (tc : json) : option json :=
  match tc with
  | JObj m => let fn := sub_map "function" m in
              Some (tool_use_block (get_str "id" m) (get_str "name" fn) (call_input N (get_str "arguments" fn)))
  | _ => None
  end.

Definition assistant_blocks (N : JsonNum) (m : obj) : list json :=
  (match as_string (get "content" m) with Some s => if is_empty s then [] else [text_part s] | None => [] end) ++
  match as_list (get "tool_calls" m) with Some l => omap (assistant_call N) l | None => [] end.

Definition tool_result_block (id content : string) : json :=
  JObj [("type", JStr "tool_result"); ("tool_use_id", JStr id); ("content", JStr content)].

(** The content of a kept message as a slice; a nil one prints as null. *)
Definition content_list (m : obj) : option (list json) :=
  match get "content" m with Some (JArr l) => Some l | Some JNull => Some [] | _ => None end.

(** Prompts so far and messages so far, last first. *)
Notation conversation := (list string * list obj)%type.

Definition add_message (N : JsonNum) (c : conversation) (m : json) : conversation :=
  match m with
  | JObj mm =>
      let role := get_str "role" mm in
      let content := get "content" mm in
      let '(prompts, msgs) := c in
      if seqb role "system" then
        match as_string content with Some s => if is_empty s then c else (prompts ++ [s], msgs) | None => c end
      else if seqb role "tool" then
        let block := tool_result_block (get_str "tool_call_id" mm) (str content) in
        let fresh := (prompts, [("role", JStr "user"); ("content", JArr [block])] :: msgs) in
        match msgs with
        | last :: rest =>
            if seqb (get_str "role" last) "user" then
              match content_list last with Some l => (prompts, put "content" (JArr (l ++ [block])) last :: rest) | None => fresh end
            else fresh
        | [] => fresh
        end
      else
        let keep v := (prompts, [("role", JStr role); ("content", v)] :: msgs) in
        if seqb role "assistant" then keep (slice (assistant_blocks N mm))
        else match content with
             | None | Some JNull => c
             | Some (JArr l) => if seqb role "user" then keep (slice (omap user_block l)) else keep (JArr l)
             | Some v => keep v
             end
  | _ => c
  end.

Definition messages_tool (t : json) : option json :=
  match t with
  | JObj m =>
      if seqb (get_str "type" m) "function" then
        let fn := sub_map "function" m in
        let params := match get "parameters" fn with None | Some JNull => JObj [("type", JStr "object"); ("properties", JObj [])] | Some v => v end in
        Some (JObj [("name", JStr (get_str "name" fn)); ("description", JStr (get_str "description" fn)); ("input_schema", params)])
      else None
  | _ => None
  end.

Definition messages_choice (v : option json) (req : obj) : obj :=
  match v with
  | Some (JStr s) =>
      if seqb s "auto" then put "tool_choice" (JObj [("type", JStr "auto")]) req
      else if seqb s "required" then put "tool_choice" (JObj [("type", JStr "any")]) req else req
  | Some (JObj m) =>
      match as_map (get "function" m) with
      | Some fn => let name := get_str "name" fn in
                   if is_empty name then req else put "tool_choice" (JObj [("type", JStr "tool"); ("name", JStr name)]) req
      | None => req
      end
  | _ => req
  end.

Definition max_tokens (N : JsonNum) (req : obj) (maxOutputTokens : option Z) : Z :=
  let limit := match maxOutputTokens with Some n => if 0 <? n then n else 0 | None => 0 end in
  let n := match as_float N (get "max_tokens" req) with
           | Some x => to_int64 x
           | None => match as_float N (get "max_completion_tokens" req) with
                     | Some x => to_int64 x
                     | None => if 0 <? limit then limit else 4096
                     end
           end in
  cap limit n.

Definition copy_field (src : obj) (req : obj) (k : string) : obj := match get k src with Some v => put k v req | None => req end.

Definition chat_to_messages (N : JsonNum) (oai : obj) (model : string) (maxOutputTokens : option Z) : obj :=
  let '(prompts, msgs) := fold_left (add_message N) (messages_of oai) ([], []) in
  let req := [("model", JStr model)] in
  let req := match prompts with [] => req | _ => put "system" (JStr (Join prompts newline)) req end in
  let req := put "messages" (slice (map JObj (rev msgs))) req in
  let req := match as_list (get "tools" oai) with
             | Some tools => match omap messages_tool tools with [] => req | l => put "tools" (JArr l) req end
             | None => req
             end in
  let req := messages_choice (get "tool_choice" oai) req in
  let req := match get "stop" oai with Some v => put "stop_sequences" v req | None => req end in
  let req := put "max_tokens" (num (max_tokens N oai maxOutputTokens)) req in
  fold_left (copy_field oai) ["temperature"; "top_p"; "stream"] req.

Definition ChatRequestToMessages (N : JsonNum) (rawBody model : string) (maxOutputTokens : option Z) : string + goerror :=
  match decode_map N rawBody with
  | None => inr json_error
  | Some m => inl (Marshal (JObj (chat_to_messages N (default [] m) model maxOutputTokens)))
  end.

(** * Complete responses *)

Record completion_call := mkCall { fc_ID : string; fc_Type : string; fc_Name : string; fc_Arguments : string }.
#[global] Instance eta_call : Eta completion_call := fun c => mkCall (fc_ID c) (fc_Type c) (fc_Name c) (fc_Arguments c).
Definition dec_call : decoder completion_call :=
  dec_struct [("id", dec_field fc_ID dec_string); ("type", dec_field fc_Type dec_string);
              ("function", dec_struct [("name", dec_field fc_Name dec_string); ("arguments", dec_field fc_Arguments dec_string)])].

Record completion_choice := mkCompletionChoice {
  oc_Role : string; oc_Content : string; oc_ReasoningContent : string; oc_ToolCalls : list completion_call; oc_FinishReason : string
}.
#[global] Instance eta_completion_choice : Eta completion_choice := fun c =>
  mkCompletionChoice (oc_Role c) (oc_Content c) (oc_ReasoningContent c) (oc_ToolCalls c) (oc_FinishReason c).
Definition dec_completion_choice : decoder completion_choice :=
  dec_struct [("message", dec_struct [("role", dec_field oc_Role dec_string); ("content", dec_field oc_Content dec_string);
                 ("reasoning_content", dec_field oc_ReasoningContent dec_string);
                 ("tool_calls", dec_field oc_ToolCalls (dec_slice (mkCall "" "" "" "") dec_call))]);
              ("finish_reason", dec_field oc_FinishReason dec_string)].

Record completion := mkCompletion { co_ID : string; co_Model : string; co_Choices : list completion_choice; co_Prompt : Z; co_Completion : Z }.
#[global] Instance eta_completion : Eta completion := fun c => mkCompletion (co_ID c) (co_Model c) (co_Choices c) (co_Prompt c) (co_Completion c).
Definition dec_completion : decoder completion :=
  dec_struct [("id", dec_field co_ID dec_string); ("model", dec_field co_Model dec_string);
              ("choices", dec_field co_Choices (dec_slice (mkCompletionChoice "" "" "" [] "") dec_completion_choice));
              ("usage", dec_struct [("prompt_tokens", dec_field co_Prompt dec_int); ("completion_tokens", dec_field co_Completion dec_int)])].

(** Arguments as a map: what is not an object becomes an empty one. *)
Definition completion_input (N : JsonNum) (args : string) : json :=
  match (if is_empty args then None else json_parse args) with Some (JObj m) => decode_lenient N (JObj m) | _ => JObj [] end.

Definition completion_blocks (N : JsonNum) (ch : completion_choice) : list json :=
  (if is_empty (oc_ReasoningContent ch) then [] else [JObj (messagesThinkingBlock (oc_ReasoningContent ch))]) ++
  (if is_empty (oc_Content ch) then [] else [text_part (oc_Content ch)]) ++
  map (fun tc => tool_use_block (NormalizeToolUseID (fc_ID tc)) (fc_Name tc) (completion_input N (fc_Arguments tc))) (oc_ToolCalls ch).

Definition completion_content (N : JsonNum) (c : completion) : list json :=
  match match co_Choices c with [] => [] | ch :: _ => completion_blocks N ch end with
  | [] => [text_part ""]
  | l => l
  end.

Definition completion_stop (c : completion) : string :=
  match co_Choices c with
  | [] => "end_turn"
  | ch :: _ => if seqb (oc_FinishReason ch) "length" then "max_tokens"
               else if seqb (oc_FinishReason ch) "tool_calls" then "tool_use" else "end_turn"
  end.

Definition messages_response (N : JsonNum) (c : completion) (model : string) : json :=
  JObj [("id", JStr (NormalizeAnthropicID (co_ID c))); ("type", JStr "message"); ("role", JStr "assistant");
        ("model", JStr (if is_empty model then co_Model c else model)); ("content", JArr (completion_content N c));
        ("stop_reason", JStr (completion_stop c)); ("stop_sequence", JNull);
        ("usage", JObj [("input_tokens", num (co_Prompt c)); ("output_tokens", num (co_Completion c))])].

Definition ChatCompletionToMessages (N : JsonNum) (chatBody model : string) : (string * TokenUsage) + goerror :=
  match Unmarshal dec_completion (mkCompletion "" "" [] 0 0) chatBody with
  | None => inr json_error
  | Some c => inl (Marshal (messages_response N c model), mkUsage (co_Prompt c) (co_Completion c) 0 0)
  end.

(** Text, reasoning and calls of the blocks of a response. *)
Record answer := mkAnswer { an_text : string; an_thinking : string; an_calls : list json }.
Definition add_answer (a : answer) (block : json) : answer :=
  match block with
  | JObj m =>
      let t := get_str "type" m in
      if seqb t "text" then mkAnswer (an_text a +:+ get_str "text" m) (an_thinking a) (an_calls a)
      else if seqb t "thinking" then mkAnswer (an_text a) (an_thinking a +:+ thinkingText m) (an_calls a)
      else if seqb t "tool_use" then
        mkAnswer (an_text a) (an_thinking a)
          (an_calls a ++ [chat_tool_call (get_str "id" m) (get_str "name" m) (Marshal (default JNull (get "input" m)))])
      else a
  | _ => a
  end.

Definition response_usage (N : JsonNum) (usage : obj) : TokenUsage :=
  let count k := match as_float N (get k usage) with Some x => to_int64 x | None => 0 end in
  let cached := count "cache_read_input_tokens" in
  let created := count "cache_creation_input_tokens" in
  mkUsage (wrap64 (wrap64 (count "input_tokens" + cached) + created)) (count "output_tokens") cached created.

Definition answer_message (a : answer) : obj :=
  let m := [("role", JStr "assistant"); ("content", JStr (an_text a))] in
  let m := if is_empty (an_thinking a) then m else put "reasoning_content" (JStr (an_thinking a)) m in
  match an_calls a with
  | [] => m
  | calls => let m := put "tool_calls" (JArr calls) m in if is_empty (an_text a) then put "content" JNull m else m
  end.

Definition usage_doc (u : TokenUsage) : obj :=
  let m := [("prompt_tokens", num (tu_Input u)); ("completion_tokens", num (tu_Output u)); ("total_tokens", num (wrap64 (tu_Input u + tu_Output u)))] in
  if 0 <? tu_Cached u then put "prompt_tokens_details" (JObj [("cached_tokens", num (tu_Cached u))]) m else m.

Definition completion_doc (id model : string) (now : Z) (a : answer) (finish : string) (u : TokenUsage) : json :=
  JObj [("id", JStr id); ("object", JStr "chat.completion"); ("created", num now); ("model", JStr model);
        ("choices", JArr [JObj [("index", num 0); ("message", JObj (answer_message a)); ("finish_reason", JStr finish)]]);
        ("usage", JObj (usage_doc u))].

Definition error_doc (e : obj) : json :=
  JObj [("error", JObj [("message", JStr (get_str "message" e)); ("type", JStr (get_str "type" e)); ("code", default JNull (get "code" e))])].

Definition chat_response (N : JsonNum) (aResp : obj) (model : string) (now : Z) : json * TokenUsage :=
  match as_map (get "error" aResp) with
  | Some e => (error_doc e, no_usage)
  | None =>
      let modelName := let m := get_str "model" aResp in if is_empty m then model else m in
      let a := fold_left add_answer (default [] (as_list (get "content" aResp))) (mkAnswer "" "" []) in
      let u := match as_map (get "usage" aResp) with Some usage => response_usage N usage | None => no_usage end in
      let sawTool := match an_calls a with [] => false | _ => true end in
      (completion_doc (get_str "id" aResp) modelName now a (mapStopReasonToFinish (get_str "stop_reason" aResp) sawTool) u, u)
  end.

Definition MessagesToChatCompletion (N : JsonNum) (anthropicBody model : string) (now : Z) : (string * TokenUsage) + goerror :=
  match decode_map N anthropicBody with
  | None => inr json_error
  | Some m => let '(doc, u) := chat_response N (default [] m) model now in inl (Marshal doc, u)
  end.

(** * Endpoints *)

Definition IsOfficialOrTestBaseURL (baseURL : string) : bool :=
  Contains baseURL "api.openai.com" || Contains baseURL "127.0.0.1" || Contains baseURL "localhost".

(** The body as it came when no tool has a schema. *)
Definition clean_tool (t : json) : json :=
  match t with
  | JObj m => match get "input_schema" m with Some (JObj s) => JObj (put "input_schema" (cleanJSONSchema s true) m) | _ => t end
  | _ => t
  end.
Definition has_schema (t : json) : bool :=
  match t with JObj m => match get "input_schema" m with Some (JObj _) => true | _ => false end | _ => false end.
Definition CorrectNativeMessagesRequest (N : JsonNum) (rawBody : string) : string + goerror :=
  match decode_map N rawBody with
  | None => inr (parse_error json_error)
  | Some m =>
      let payload := default [] m in
      match as_list (get "tools" payload) with
      | Some tools => if existsb has_schema tools then inl (Marshal (JObj (put "tools" (JArr (map clean_tool tools)) payload))) else inl rawBody
      | None => inl rawBody
      end
  end.

(** * Arguments on the wire *)

Lemma call_input_wire N m : wire_ok N (JObj m) = true ->
  exists m', call_input N (Marshal (JObj m)) = JObj m' /\ sort_keys (JObj m') = sort_keys (JObj m).
Proof.
  intros W. pose proof (wire_same N _ W) as [S _]. unfold call_input. rewrite (parse_Marshal N _ W).
  destruct (is_empty (Marshal (JObj m))) eqn:E; [unfold Marshal in E; rewrite sort_keys_obj in E; by cbn in E|].
  rewrite sort_keys_obj, decode_lenient_obj in *. eexists. split; [done|exact S].
Qed.

(** * Conversations *)

Record tool_use := mkToolUse { tl_id : string; tl_name : string; tl_input : obj }.

(** The content blocks of the Messages protocol. The content of a tool result is a text or a
    list of text blocks; [OtherBlock] is a block of a further kind (thinking, a document). *)
Inductive block :=
  | TextBlock (text : string)
  | ImageBlock (media data : string)
  | ImageURLBlock (url : string)
  | UseBlock (call : tool_use)
  | ResultBlock (id : string) (content : string + list string)
  | OtherBlock (m : obj).

(** What an agent and its client say to each other: a text, or a list of blocks. *)
Inductive turn :=
  | UserTurn (content : string + list block)
  | AssistantTurn (content : string + list block).

Definition use_block (c : tool_use) : json := tool_use_block (tl_id c) (tl_name c) (JObj (tl_input c)).
Definition base64_block (media data : string) : json :=
  JObj [("type", JStr "image"); ("source", JObj [("type", JStr "base64"); ("media_type", JStr media); ("data", JStr data)])].
Definition block_doc (b : block) : json :=
  match b with
  | TextBlock s => text_part s
  | ImageBlock media data => base64_block media data
  | ImageURLBlock url => JObj [("type", JStr "image"); ("source", JObj [("type", JStr "url"); ("url", JStr url)])]
  | UseBlock c => use_block c
  | ResultBlock id (inl s) => tool_result_block id s
  | ResultBlock id (inr l) => JObj [("type", JStr "tool_result"); ("tool_use_id", JStr id); ("content", JArr (map text_part l))]
  | OtherBlock m => JObj m
  end.
Definition message_doc (role : string) (content : json) : obj := [("role", JStr role); ("content", content)].
Definition content_doc (c : string + list block) : json := match c with inl s => JStr s | inr l => JArr (map block_doc l) end.
Definition messages_doc (t : turn) : json :=
  JObj match t with UserTurn c => message_doc "user" (content_doc c) | AssistantTurn c => message_doc "assistant" (content_doc c) end.

(** The parts of a message. *)
Definition said (c : string + list block) : string :=
  match c with inl s => s | inr l => Join (omap (fun b => match b with TextBlock s => Some s | _ => None end) l) newline end.
Definition uses (c : string + list block) : list tool_use :=
  match c with inl _ => [] | inr l => omap (fun b => match b with UseBlock u => Some u | _ => None end) l end.
Definition results (l : list block) : list (string * string) :=
  omap (fun b => match b with ResultBlock id (inl s) => Some (id, s) | ResultBlock id (inr ts) => Some (id, Join ts newline) | _ => None end) l.
(** An image with its bytes comes back as it was, one by address in the form of the Chat
    protocol. *)
Definition images (l : list block) : list json :=
  omap (fun b => match b with ImageBlock media data => Some (base64_block media data) | ImageURLBlock u => Some (image_part u) | _ => None end) l.

Definition some {A} (l : list A) : bool := match l with [] => false | _ => true end.
Definition result_blocks (rs : list (string * string)) : list json := map (fun r => tool_result_block (fst r) (snd r)) rs.
Definition text_blocks (s : string) : list json := if is_empty s then [] else [text_part s].

(** What a turn is after the way through the Chat protocol, which has one text for a message,
    and tool results as messages of their own: results go ahead, texts are joined by
    newlines and put before images and calls. *)
Definition retold (t : turn) : list json :=
  match t with
  | AssistantTurn c => [JObj (message_doc "assistant" (JArr (text_blocks (said c) ++ map use_block (uses c))))]
  | UserTurn (inl s) => [JObj (message_doc "user" (JStr s))]
  | UserTurn (inr l) =>
      let parts := text_blocks (said (inr l)) ++ images l in
      (if some (results l) then [JObj (message_doc "user" (JArr (result_blocks (results l))))] else []) ++
      (if some (results l) || some (images l) then if some parts then [JObj (message_doc "user" (JArr parts))] else []
       else [JObj (message_doc "user" (JStr (if is_empty (said (inr l)) then " " else said (inr l))))])
  end.

(** Blocks where the protocol has them: images (with their type and data, or by a web address)
    and results from the user, calls from the assistant. *)
Definition has_semicolon (s : string) : bool := existsb (fun c => bool_decide (c = ";"%char)) (ascii_list s).
Definition other_kind (m : obj) : bool := negb (existsb (seqb (get_str "type" m)) ["text"; "image"; "tool_use"; "tool_result"]).
Definition user_block_ok (b : block) : bool :=
  match b with
  | TextBlock _ | ResultBlock _ _ => true
  | ImageBlock media data => negb (is_empty media) && negb (is_empty data) && negb (has_semicolon media) && negb (has_semicolon data)
  | ImageURLBlock url => negb (is_empty url) && negb (HasPrefix url "data:")
  | UseBlock _ => false
  | OtherBlock m => other_kind m
  end.
Definition assistant_block_ok (N : JsonNum) (b : block) : bool :=
  match b with
  | TextBlock _ => true
  | UseBlock c => wire_ok N (JObj (tl_input c))
  | OtherBlock m => other_kind m
  | _ => false
  end.
(** An assistant says something or calls a tool. *)
Definition turn_ok (N : JsonNum) (t : turn) : bool :=
  match t with
  | UserTurn (inl _) => true
  | UserTurn (inr l) => forallb user_block_ok l
  | AssistantTurn c =>
      (negb (is_empty (said c)) || some (uses c)) && match c with inl _ => true | inr l => forallb (assistant_block_ok N) l end
  end.

Definition brings_results (t : turn) : bool := match t with UserTurn (inr l) => some (results l) | _ => false end.
Definition user_blocks (t : turn) : bool := match t with UserTurn (inr _) => true | _ => false end.
(** Results do not come right after another list of blocks of the user. *)
Fixpoint results_follow (prev : bool) (ts : list turn) : bool :=
  match ts with [] => true | t :: r => negb (prev && brings_results t) && results_follow (user_blocks t) r end.

(** ** The blocks of a message *)

Definition use_call (c : tool_use) : json := chat_tool_call (tl_id c) (tl_name c) (Marshal (JObj (tl_input c))).
Definition image_url (b : block) : option string :=
  match b with ImageBlock media data => Some ("data:" +:+ media +:+ ";base64," +:+ data) | ImageURLBlock u => Some u | _ => None end.

Lemma text_parts_map l : text_parts (map text_part l) = l.
Proof. induction l as [|s l IH]; [done|]. change (text_parts (map text_part (s :: l))) with (s :: text_parts (map text_part l)). by rewrite IH. Qed.

Definition block_ok (N : JsonNum) (b : block) : bool := user_block_ok b || assistant_block_ok N b.

Lemma add_block_doc N s b : block_ok N b = true -> add_block s (block_doc b) =
  match b with
  | TextBlock t => mkBlocks (bl_texts s ++ [t]) (bl_tools s) (bl_images s) (bl_hasResult s) (bl_results s)
  | ImageBlock media data => mkBlocks (bl_texts s) (bl_tools s) (bl_images s ++ [image_part ("data:" +:+ media +:+ ";base64," +:+ data)]) (bl_hasResult s) (bl_results s)
  | ImageURLBlock u => mkBlocks (bl_texts s) (bl_tools s) (bl_images s ++ [image_part u]) (bl_hasResult s) (bl_results s)
  | UseBlock c => mkBlocks (bl_texts s) (bl_tools s ++ [use_call c]) (bl_images s) (bl_hasResult s) (bl_results s)
  | ResultBlock id c => mkBlocks (bl_texts s) (bl_tools s) (bl_images s) true
      (bl_results s ++ [tool_message id match c with inl t => t | inr ts => Join ts newline end])
  | OtherBlock m => s
  end.
Proof.
  unfold block_ok. destruct b as [t|media data|u|c|id [t|ts]|m]; intros Ok; try reflexivity.
  - cbn in Ok. rewrite orb_false_r, !andb_true_iff, !negb_true_iff in Ok. destruct Ok as [[[A B] _] _].
    transitivity (if is_empty data then s else mkBlocks (bl_texts s) (bl_tools s)
      (bl_images s ++ [image_part ("data:" +:+ (if is_empty media then "image/png" else media) +:+ ";base64," +:+ data)]) (bl_hasResult s) (bl_results s));
      [|by rewrite A, B].
    transitivity (let url := if is_empty data then "" else "data:" +:+ (if is_empty media then "image/png" else media) +:+ ";base64," +:+ data in
      if is_empty url then s else mkBlocks (bl_texts s) (bl_tools s) (bl_images s ++ [image_part url]) (bl_hasResult s) (bl_results s)); [reflexivity|].
    by rewrite B.
  - cbn in Ok. rewrite orb_false_r, andb_true_iff, !negb_true_iff in Ok. destruct Ok as [A _].
    transitivity (if is_empty u then s else mkBlocks (bl_texts s) (bl_tools s) (bl_images s ++ [image_part u]) (bl_hasResult s) (bl_results s)); [reflexivity|].
    by rewrite A.
  - transitivity (mkBlocks (bl_texts s) (bl_tools s) (bl_images s) true
      (bl_results s ++ [tool_message id (Join (text_parts (map text_part ts)) newline)])); [reflexivity|]. by rewrite text_parts_map.
  - cbn [user_block_ok assistant_block_ok] in Ok. rewrite orb_diag in Ok. unfold other_kind in Ok. cbn [existsb] in Ok.
    rewrite negb_true_iff, !orb_false_iff in Ok. destruct Ok as (A & B & C & D & _). unfold block_doc, add_block. by rewrite A, B, C, D.
Qed.

Lemma fold_blocks N l : forall s, forallb (block_ok N) l = true -> fold_left add_block (map block_doc l) s =
  mkBlocks (bl_texts s ++ omap (fun b => match b with TextBlock t => Some t | _ => None end) l) (bl_tools s ++ map use_call (uses (inr l)))
    (bl_images s ++ map image_part (omap image_url l)) (bl_hasResult s || some (results l))
    (bl_results s ++ map (fun r => tool_message (fst r) (snd r)) (results l)).
Proof.
  induction l as [|b l IH]; intros s; [destruct s; cbn; by rewrite !app_nil_r, orb_false_r|].
  cbn [forallb map fold_left]. intros [O1 O]%andb_true_iff. rewrite (add_block_doc N) by done. unfold results, uses in *.
  destruct b as [t|media data|u|c|id [t|ts]|m]; rewrite IH by done; cbn; rewrite <- ?app_assoc, ?orb_true_r; reflexivity.
Qed.

Lemma forallb_weaken {A} (p q : A -> bool) l : (forall x, p x = true -> q x = true) -> forallb p l = true -> forallb q l = true.
Proof. intros H. rewrite !forallb_forall. auto. Qed.

Lemma omap_none {A B} (f : A -> option B) (p : A -> bool) l : (forall x, p x = true -> f x = None) -> forallb p l = true -> omap f l = [].
Proof. intros H. induction l as [|x l IH]; cbn; [done|]. intros [O1 O]%andb_true_iff. by rewrite H, IH. Qed.

Lemma user_fold l : forallb user_block_ok l = true -> forall N : JsonNum, fold_left add_block (map block_doc l) no_blocks =
  mkBlocks (omap (fun b => match b with TextBlock t => Some t | _ => None end) l) [] (map image_part (omap image_url l)) (some (results l))
    (map (fun r => tool_message (fst r) (snd r)) (results l)).
Proof.
  intros O N. rewrite (fold_blocks N); [|revert O; apply forallb_weaken; intros b E; unfold block_ok; by rewrite E].
  cbn [bl_texts bl_tools bl_images bl_hasResult bl_results no_blocks app orb]. f_equal. unfold uses.
  rewrite (omap_none _ user_block_ok); [done| |done]. by intros [].
Qed.

Lemma assistant_fold N l : forallb (assistant_block_ok N) l = true -> fold_left add_block (map block_doc l) no_blocks =
  mkBlocks (omap (fun b => match b with TextBlock t => Some t | _ => None end) l) (map use_call (uses (inr l))) [] false [].
Proof.
  intros O. rewrite (fold_blocks N); [|revert O; apply forallb_weaken; intros b E; unfold block_ok; by rewrite E, orb_true_r].
  cbn [bl_texts bl_tools bl_images bl_hasResult bl_results no_blocks app orb]. unfold results.
  rewrite (omap_none image_url (assistant_block_ok N)) by (done || by intros []).
  by rewrite (omap_none (B:=string * string) _ (assistant_block_ok N)) by (done || by intros []).
Qed.

(** ** Images *)

Lemma sep_prefix c r : bool_decide (c = ";"%char) = false -> HasPrefix (String c r) ";base64," = false.
Proof. intros E. cbn [HasPrefix]. rewrite bool_decide_eq_false_2 by (intros <-; by rewrite bool_decide_eq_true_2 in E). done. Qed.

Lemma cut_sep_media data : forall media acc, has_semicolon media = false ->
  cut_sep ";base64," acc (media +:+ ";base64," +:+ data) = Some (acc +:+ media, data).
Proof.
  induction media as [|c r IH]; intros acc H.
  - rewrite append_nil_r. reflexivity.
  - unfold has_semicolon in H. cbn [ascii_list existsb] in H. apply orb_false_iff in H as [H1 H].
    change (String c r +:+ ?x) with (String c (r +:+ x)). cbn [cut_sep]. rewrite sep_prefix by done. rewrite IH by done.
    f_equal. f_equal. by rewrite append_assoc.
Qed.

Lemma contains_sep s : has_semicolon s = false -> Contains s ";base64," = false.
Proof.
  induction s as [|c r IH]; intros H; [done|]. unfold has_semicolon in H. cbn [ascii_list existsb] in H. apply orb_false_iff in H as [H1 H].
  cbn [Contains]. rewrite sep_prefix by done. by apply IH.
Qed.

Lemma omap_cons_eq {A B} (f : A -> option B) x l : omap f (x :: l) = match f x with Some y => y :: omap f l | None => omap f l end.
Proof. reflexivity. Qed.

Lemma images_back l : forallb user_block_ok l = true -> omap user_block (map image_part (omap image_url l)) = images l.
Proof.
  induction l as [|b l IH]; [done|]. cbn [forallb]. intros [O1 O]%andb_true_iff. unfold images in *.
  assert (forall u, user_block (image_part u) = match data_url u with Some (media, data) => Some (base64_block media data) | None => Some (image_part u) end)
    as U by reflexivity.
  destruct b as [t|media data|u|c|id [t|ts]|m]; rewrite !(omap_cons_eq _ _ l); cbn [image_url map]; try (by apply IH); rewrite omap_cons_eq, U, IH by done.
  - cbn in O1. rewrite !andb_true_iff, !negb_true_iff in O1. destruct O1 as [[_ A] B].
    assert (data_url ("data:" +:+ media +:+ ";base64," +:+ data) = Some (media, data)) as ->; [|done].
    unfold data_url. change (HasPrefix ("data:" +:+ ?x) "data:") with true. change (string_drop 5 ("data:" +:+ ?x)) with x. cbn match.
    rewrite cut_sep_media by done. cbn. by rewrite contains_sep.
  - cbn [user_block_ok] in O1. apply andb_true_iff in O1 as [_ B%negb_true_iff]. unfold data_url. by rewrite B.
Qed.

(** ** One turn, there *)

Definition assistant_chat (c : string + list block) : obj := with_tools (map use_call (uses c)) (message_doc "assistant" (JStr (said c))).
Definition rest_chat (l : list block) : list json :=
  if some (results l) || some (omap image_url l) then
    match omap (fun b => match b with TextBlock t => Some t | _ => None end) l, omap image_url l with
    | [], [] => []
    | _, _ => [JObj (message_doc "user" (slice (text_blocks (said (inr l)) ++ map image_part (omap image_url l))))]
    end
  else [JObj (message_doc "user" (JStr (if is_empty (said (inr l)) then " " else said (inr l))))].

Lemma chat_messages_turn N t : turn_ok N t = true -> chat_messages (messages_doc t) =
  match t with
  | UserTurn (inl s) => [JObj (message_doc "user" (JStr s))]
  | UserTurn (inr l) => map (fun r => tool_message (fst r) (snd r)) (results l) ++ rest_chat l
  | AssistantTurn c => [JObj (assistant_chat c)]
  end.
Proof.
  destruct t as [[s|l]|[s|l]]; intros Ok; [done| |done|].
  - change (chat_messages (messages_doc (UserTurn (inr l)))) with (block_messages "user" (fold_left add_block (map block_doc l) no_blocks)).
    rewrite (user_fold l Ok N). unfold block_messages, rest_chat, buildOpenAIContentMessage, message_doc, said, text_blocks. cbn [bl_texts bl_tools bl_images bl_hasResult bl_results].
    destruct (results l); cbn [some orb]; [|destruct (omap (fun b => match b with TextBlock t => Some t | _ => None end) l), (omap image_url l); done].
    destruct (omap image_url l); cbn [map some]; [done|]. by destruct (omap (fun b => match b with TextBlock t => Some t | _ => None end) l).
  - cbn in Ok. apply andb_true_iff in Ok as [_ Ok].
    change (chat_messages (messages_doc (AssistantTurn (inr l)))) with (block_messages "assistant" (fold_left add_block (map block_doc l) no_blocks)).
    by rewrite (assistant_fold N l Ok).
Qed.

Section back.
Context (N : JsonNum).

(** The last message does not take another result. *)
Definition closed_last (msgs : list obj) : Prop :=
  match msgs with [] => True | last :: _ => get_str "role" last = "user" -> content_list last = None end.

Lemma add_result ps msgs r : closed_last msgs ->
  add_message N (ps, msgs) (tool_message (fst r) (snd r)) = (ps, message_doc "user" (JArr (result_blocks [r])) :: msgs).
Proof.
  intros C. change (add_message N (ps, msgs) (tool_message (fst r) (snd r))) with
    (match msgs with
     | last :: rest => if seqb (get_str "role" last) "user" then
         match content_list last with
         | Some l => (ps, put "content" (JArr (l ++ [tool_result_block (fst r) (snd r)])) last :: rest)
         | None => (ps, message_doc "user" (JArr (result_blocks [r])) :: msgs) end
         else (ps, message_doc "user" (JArr (result_blocks [r])) :: msgs)
     | [] => (ps, message_doc "user" (JArr (result_blocks [r])) :: msgs)
     end).
  destruct msgs as [|last rest]; [done|]. destruct (seqb _ "user") eqn:E; [|done]. sbool. cbn in C. by rewrite C.
Qed.

(** A message of the user with the list [l], written at once or grown. *)
Definition user_list (l : list json) (m : obj) : Prop :=
  m = message_doc "user" (JArr l) \/ m = [("content", JArr l); ("role", JStr "user")].

Lemma add_results rs : forall ps l m msgs, user_list l m ->
  exists m', fold_left (add_message N) (map (fun r => tool_message (fst r) (snd r)) rs) (ps, m :: msgs) = (ps, m' :: msgs) /\
    user_list (l ++ result_blocks rs) m'.
Proof.
  induction rs as [|r rs IH]; intros ps l m msgs U; [exists m; split; [done|]; by rewrite app_nil_r|]. cbn [map fold_left].
  set (l1 := l ++ [tool_result_block (fst r) (snd r)]).
  assert (add_message N (ps, m :: msgs) (tool_message (fst r) (snd r)) = (ps, [("content", JArr l1); ("role", JStr "user")] :: msgs)) as -> by
    by destruct U as [-> | ->].
  destruct (IH ps l1 [("content", JArr l1); ("role", JStr "user")] msgs) as (m' & E & U'); [by right|].
  exists m'. split; [exact E|]. unfold l1 in U'. by rewrite <- app_assoc in U'.
Qed.

Lemma user_list_sorted l m : user_list l m -> sort_keys (JObj m) = sort_keys (JObj (message_doc "user" (JArr l))).
Proof. by intros [-> | ->]. Qed.

Lemma assistant_calls_back calls : forallb (fun c => wire_ok N (JObj (tl_input c))) calls = true ->
  exists bs, omap (assistant_call N) (map use_call calls) = bs /\ map sort_keys bs = map sort_keys (map use_block calls).
Proof.
  induction calls as [|c calls IH]; intros W; [by eexists|]. cbn [forallb] in W. apply andb_true_iff in W as [W1 W].
  destruct (IH W) as (bs & E & S), (call_input_wire N _ W1) as (m & I & Q).
  exists (tool_use_block (tl_id c) (tl_name c) (JObj m) :: bs). split.
  - change (tool_use_block (tl_id c) (tl_name c) (call_input N (Marshal (JObj (tl_input c)))) :: omap (assistant_call N) (map use_call calls) =
            tool_use_block (tl_id c) (tl_name c) (JObj m) :: bs). by rewrite I, E.
  - cbn [map]. rewrite S. f_equal. unfold use_block, tool_use_block. rewrite !(sort_keys_obj (_ :: _)). cbn [map fst snd]. by rewrite Q.
Qed.

Lemma slice_some l : l <> [] -> slice l = JArr l.
Proof. by destruct l. Qed.

(** One turn, there and back. *)
Lemma wire_uses c : (match c with inl _ => true | inr l => forallb (assistant_block_ok N) l end) = true ->
  forallb (fun c => wire_ok N (JObj (tl_input c))) (uses c) = true.
Proof.
  destruct c as [s|l]; [done|]. induction l as [|b l IH]; [done|]. cbn [forallb]. intros [O1 O]%andb_true_iff. specialize (IH O). unfold uses in *.
  destruct b as [t|media data|u|c|id [t|ts]|m]; cbn; rewrite ?IH; try done. cbn in O1. by rewrite O1.
Qed.

Lemma images_some l : some (images l) = some (omap image_url l).
Proof. unfold images. induction l as [|b l IH]; [done|]. by destruct b. Qed.

Lemma add_rest l ps msgs : forallb user_block_ok l = true ->
  exists ms, fold_left (add_message N) (rest_chat l) (ps, msgs) = (ps, rev ms ++ msgs) /\
    map JObj ms = if some (results l) || some (images l) then
      if some (text_blocks (said (inr l)) ++ images l) then [JObj (message_doc "user" (JArr (text_blocks (said (inr l)) ++ images l)))] else []
    else [JObj (message_doc "user" (JStr (if is_empty (said (inr l)) then " " else said (inr l))))].
Proof.
  intros Ok. pose proof (images_back l Ok) as Ib. unfold rest_chat. rewrite images_some.
  destruct (some (results l) || some (omap image_url l)); [|by eexists [_]].
  set (us := omap image_url l) in *. set (tb := text_blocks (said (inr l))).
  assert (omap user_block (tb ++ map image_part us) = tb ++ images l) as E.
  { rewrite omap_app, Ib. f_equal. unfold tb, text_blocks. by destruct (is_empty _). }
  assert (exists ms, fold_left (add_message N) [JObj (message_doc "user" (slice (tb ++ map image_part us)))] (ps, msgs) = (ps, rev ms ++ msgs) /\
    map JObj ms = if some (tb ++ images l) then [JObj (message_doc "user" (JArr (tb ++ images l)))] else []) as A.
  { rewrite <- E. destruct (tb ++ map image_part us) as [|x r] eqn:D; [by exists []|].
    assert (omap user_block (x :: r) <> []) as Ne.
    { rewrite E. intros F. apply app_nil in F as [F1 F2]. rewrite F1 in D. cbn in D.
      assert (some (images l) = false) as Z by by rewrite F2. rewrite images_some in Z. fold us in Z. by destruct us. }
    exists [message_doc "user" (JArr (omap user_block (x :: r)))]. destruct (omap user_block (x :: r)) eqn:F; [done|]. split; [|done].
    transitivity (ps, message_doc "user" (slice (omap user_block (x :: r))) :: msgs); [reflexivity|]. by rewrite F. }
  destruct (omap (fun b => match b with TextBlock t => Some t | _ => None end) l) eqn:T, us eqn:U; try exact A.
  exists []. split; [done|]. unfold tb, text_blocks, said. rewrite T. cbn. assert (images l = []) as ->; [|done].
  pose proof (images_some l) as Z. fold us in Z. rewrite U in Z. by destruct (images l).
Qed.

Lemma add_turn t ps msgs : turn_ok N t = true -> (brings_results t = true -> closed_last msgs) ->
  exists ms, fold_left (add_message N) (chat_messages (messages_doc t)) (ps, msgs) = (ps, rev ms ++ msgs) /\
    map sort_keys (map JObj ms) = map sort_keys (retold t) /\ (user_blocks t = false -> closed_last (rev ms ++ msgs)).
Proof.
  intros Ok C. rewrite (chat_messages_turn N t Ok). destruct t as [[s|l]|c].
  - by exists [message_doc "user" (JStr s)].
  - cbn [retold turn_ok brings_results user_blocks] in *. rewrite fold_left_app. destruct (results l) as [|r rs] eqn:Er.
    + destruct (add_rest l ps msgs Ok) as (ms & E & S). rewrite Er in S. exists ms. cbn [map fold_left some app orb] in *. by rewrite E, S.
    + cbn [map fold_left some]. rewrite add_result by by apply C.
      destruct (add_results rs ps (result_blocks [r]) (message_doc "user" (JArr (result_blocks [r]))) msgs) as (m & E & U); [by left|].
      rewrite E. destruct (add_rest l ps (m :: msgs) Ok) as (ms & E' & S). rewrite Er in S. rewrite E'. exists (m :: ms).
      split_and!; [cbn; by rewrite <- app_assoc| |done]. cbn [map app some orb] in *. rewrite S. f_equal. by apply user_list_sorted.
  - cbn [turn_ok retold] in *. apply andb_true_iff in Ok as [Ne W%wire_uses]. destruct (assistant_calls_back (uses c) W) as (bs & E & S).
    set (bl := text_blocks (said c) ++ bs). exists [message_doc "assistant" (JArr bl)]. split_and!; [| |done].
    + cbn [fold_left].
      assert (assistant_blocks N (assistant_chat c) = bl) as B.
      { unfold bl. rewrite <- E. unfold assistant_chat. by destruct (uses c). }
      transitivity (ps, message_doc "assistant" (slice (assistant_blocks N (assistant_chat c))) :: msgs); [unfold assistant_chat; by destruct (uses c)|].
      rewrite B, slice_some; [done|]. unfold bl, text_blocks. destruct (is_empty (said c)); [|done]. destruct (uses c); [done|]. by destruct bs.
    + cbn [map]. f_equal. unfold message_doc. rewrite !sort_keys_obj. cbn [map fst snd]. change (sort_keys (JArr ?l)) with (JArr (map sort_keys l)).
      unfold bl. by rewrite !map_app, S.
Qed.

Lemma add_turns ts : forall ps msgs prev, forallb (turn_ok N) ts = true -> results_follow prev ts = true -> (prev = false -> closed_last msgs) ->
  exists ms, fold_left (add_message N) (concat (map chat_messages (map messages_doc ts))) (ps, msgs) = (ps, rev ms ++ msgs) /\
    map sort_keys (map JObj ms) = map sort_keys (concat (map retold ts)).
Proof.
  induction ts as [|t ts IH]; intros ps msgs prev Ok A C; [by exists []|]. cbn [forallb results_follow map concat] in *.
  apply andb_true_iff in Ok as [Ok1 Ok], A as [A1 A]. rewrite fold_left_app.
  destruct (add_turn t ps msgs Ok1) as (m & E & S & L).
  { intros R. apply C. rewrite R, andb_true_r in A1. by destruct prev. }
  rewrite E. destruct (IH ps (rev m ++ msgs) (user_blocks t) Ok A L) as (ms & E' & S'). exists (m ++ ms).
  split; [by rewrite E', rev_app_distr, <- app_assoc|]. by rewrite !map_app, S, S'.
Qed.
End back.

(** ** Tools and the choice among them *)

(** A tool as it comes back: name, description and schema (cleaned), and nothing else. *)
Definition default_schema : json := JObj [("type", JStr "object"); ("properties", JObj [])].
Definition tool_retold (t : json) : option json :=
  match t with
  | JObj m =>
      if is_empty (get_str "name" m) then None
      else Some (JObj [("name", JStr (get_str "name" m)); ("description", JStr (get_str "description" m));
        ("input_schema", match get "input_schema" m with
                         | Some (JObj s) => cleanJSONSchema s false
                         | None | Some JNull => default_schema
                         | Some v => v
                         end)])
  | _ => None
  end.
Definition tools_retold (l : list json) : option json := match omap tool_retold l with [] => None | l => Some (JArr l) end.

Inductive tool_choice := ChoiceAuto | ChoiceAny | ChoiceTool (name : string).
Definition choice_doc (c : tool_choice) : json :=
  JObj match c with
       | ChoiceAuto => [("type", JStr "auto")]
       | ChoiceAny => [("type", JStr "any")]
       | ChoiceTool name => [("type", JStr "tool"); ("name", JStr name)]
       end.
(** The choice a request makes; that of no tool does not survive. *)
Definition choice_of (m : obj) : option tool_choice :=
  let t := get_str "type" m in
  if seqb t "auto" then Some ChoiceAuto else if seqb t "any" then Some ChoiceAny
  else if seqb t "tool" && negb (is_empty (get_str "name" m)) then Some (ChoiceTool (get_str "name" m)) else None.
(** It is an object, and not one of the Chat protocol. *)
Definition choice_ok (v : option json) : bool :=
  match v with None => true | Some (JObj m) => match get "function" m with None => true | Some _ => false end | Some _ => false end.

Lemma option_fields_get k official p :
  existsb (seqb k) ["system"; "stop_sequences"; "stop"; "top_k"; "metadata"; "output_config"; "max_tokens"; "max_completion_tokens"; "thinking"] = false ->
  get k (option_fields official p) = get k p.
Proof.
  cbn [existsb]. rewrite !orb_false_iff. intros (H1 & H2 & H3 & H4 & H5 & H6 & H7 & H8 & H9 & _).
  assert (forall k', seqb k k' = false -> forall v p, get k (put k' v p) = get k p) as P by (intros k' E v q; by rewrite get_put, E).
  assert (forall k', seqb k k' = false -> forall p, get k (del k' p) = get k p) as D by (intros k' E q; apply get_del_ne; by apply seqb_neq).
  unfold option_fields.
  repeat first [rewrite D by done | rewrite P by done | progress cbn zeta | split_match]; done.
Qed.

Lemma tools_field_get k official p : seqb k "tools" = false -> get k (tools_field official p) = get k p.
Proof.
  intros E. unfold tools_field. destruct (as_list _); [|done]. destruct (omap _ _); [|by rewrite get_put, E].
  apply get_del_ne. by apply seqb_neq.
Qed.
Lemma choice_field_get k p : seqb k "tool_choice" = false -> get k (choice_field p) = get k p.
Proof. intros E. unfold choice_field. destruct (as_map _); [|done]. cbn zeta. repeat split_match; rewrite ?get_put, ?E; done. Qed.

Lemma copy_field_get k src req k' : seqb k k' = false -> get k (copy_field src req k') = get k req.
Proof. intros E. unfold copy_field. destruct (get k' src); [by rewrite get_put, E|done]. Qed.
Lemma messages_choice_get k v req : seqb k "tool_choice" = false -> get k (messages_choice v req) = get k req.
Proof. intros E. unfold messages_choice. repeat split_match; rewrite ?get_put, ?E; done. Qed.
Lemma messages_choice_only v req : get "tool_choice" req = None -> get "tool_choice" (messages_choice v req) = get "tool_choice" (messages_choice v []).
Proof. intros E. unfold messages_choice. repeat split_match; rewrite ?get_put; done. Qed.

(** The parts of a translated request. *)
Lemma chat_to_messages_fields N oai model limit prompts msgs :
  fold_left (add_message N) (messages_of oai) ([], []) = (prompts, msgs) ->
  let req := chat_to_messages N oai model limit in
  get "system" req = (match prompts with [] => None | _ => Some (JStr (Join prompts newline)) end) /\
  get "messages" req = Some (slice (map JObj (rev msgs))) /\
  get "tools" req = (match omap messages_tool (default [] (as_list (get "tools" oai))) with [] => None | l => Some (JArr l) end) /\
  get "tool_choice" req = get "tool_choice" (messages_choice (get "tool_choice" oai) []).
Proof.
  intros E. unfold chat_to_messages. rewrite E. cbn zeta. cbn [fold_left].
  set (r1 := match prompts with [] => _ | _ => _ end).
  set (r2 := put "messages" _ r1). set (r3 := match as_list (get "tools" oai) with Some _ => _ | None => _ end).
  set (r4 := messages_choice _ r3). set (r5 := match get "stop" oai with Some _ => _ | None => _ end).
  assert (forall k, existsb (seqb k) ["temperature"; "top_p"; "stream"; "max_tokens"; "stop_sequences"] = false ->
    get k (copy_field oai (copy_field oai (copy_field oai (put "max_tokens" (num (max_tokens N oai limit)) r5) "temperature") "top_p") "stream") = get k r4) as Q.
  { cbn [existsb]. intros k. rewrite !orb_false_iff. intros (H1 & H2 & H3 & H4 & H5 & _). rewrite !copy_field_get, get_put, H4 by done.
    unfold r5. destruct (get "stop" oai); [by rewrite get_put, H5|done]. }
  rewrite !Q by done. unfold r4. rewrite !messages_choice_get by done.
  assert (forall k, seqb k "tools" = false -> get k r3 = get k r2) as Q3.
  { intros k K. unfold r3. destruct (as_list _); [|done]. destruct (omap _ _); [done|by rewrite get_put, K]. }
  split_and!.
  - rewrite Q3 by done. by destruct prompts.
  - by rewrite Q3 by done.
  - unfold r3. destruct (as_list _) as [tl|]; cbn [default from_option id omap list_omap]; [destruct (omap _ tl)|]; [|by rewrite get_put|]; by destruct prompts.
  - apply messages_choice_only. rewrite Q3 by done. by destruct prompts.
Qed.

Lemma messages_to_chat_fields official p :
  get "messages" (messages_to_chat official p) = Some (slice (all_chat_messages official p)) /\
  get "tools" (messages_to_chat official p) = get "tools" (tools_field official p) /\
  get "tool_choice" (messages_to_chat official p) = get "tool_choice" (choice_field p).
Proof.
  unfold messages_to_chat. set (p1 := put "messages" _ p).
  assert (forall k, seqb k "messages" = false -> existsb (seqb k) ["system"; "stop_sequences"; "stop"; "top_k"; "metadata"; "output_config";
    "max_tokens"; "max_completion_tokens"; "thinking"] = false -> get k (option_fields official p1) = get k p) as Q.
  { intros k M O. rewrite option_fields_get by done. unfold p1. by rewrite get_put, M. }
  split_and!.
  - rewrite choice_field_get, tools_field_get, option_fields_get by done. unfold p1. by rewrite get_put.
  - rewrite choice_field_get by done. unfold tools_field. rewrite Q by done. destruct (as_list _); [|by rewrite Q].
    destruct (omap _ _); rewrite ?get_put, ?get_del_same; done.
  - unfold choice_field. rewrite tools_field_get, Q by done. destruct (as_map (get "tool_choice" p)); [|by rewrite tools_field_get, Q].
    cbn zeta. repeat split_match; rewrite ?get_put; try done. by rewrite tools_field_get, Q.
Qed.

Lemma tool_back t : chat_tool true t ≫= messages_tool = tool_retold t.
Proof.
  destruct t as [| | | | |m]; try done. unfold chat_tool, tool_retold. destruct (is_empty (get_str "name" m)); [done|].
  cbn [mbind option_bind negb]. change (get_str "description" m) with (str (get "description" m)). set (name := get_str "name" m). clearbody name.
  destruct (get "description" m) as [[]|], (get "input_schema" m) as [[]|]; reflexivity.
Qed.

Lemma tools_back (l : list json) : omap messages_tool (omap (chat_tool true) l) = omap tool_retold l.
Proof.
  induction l as [|t l IH]; [done|]. rewrite !(omap_cons_eq _ t), <- tool_back, <- IH. destruct (chat_tool true t) as [c|]; [|done].
  cbn [mbind option_bind]. by rewrite omap_cons_eq.
Qed.

Lemma choice_back p : choice_ok (get "tool_choice" p) = true ->
  get "tool_choice" (messages_choice (get "tool_choice" (choice_field p)) []) =
  choice_doc <$> (as_map (get "tool_choice" p) ≫= choice_of).
Proof.
  intros Ok. unfold choice_field. destruct (get "tool_choice" p) as [[| | | | |m]|] eqn:E; try done; cbn [as_map mbind option_bind]; [|by rewrite E].
  cbn zeta. unfold choice_of. cbn in Ok. destruct (seqb (get_str "type" m) "auto"); [by rewrite get_put, seqb_refl|].
  destruct (seqb (get_str "type" m) "any"); [by rewrite get_put, seqb_refl|].
  destruct (seqb (get_str "type" m) "tool"); cbn [andb].
  - rewrite get_put, seqb_refl. cbn [messages_choice as_map get].
    transitivity (get "tool_choice" (if is_empty (get_str "name" m) then [] else put "tool_choice" (choice_doc (ChoiceTool (get_str "name" m))) [])); [reflexivity|].
    by destruct (is_empty (get_str "name" m)).
  - rewrite E. cbn [messages_choice]. by destruct (get "function" m).
Qed.

(** ** Options *)

Lemma messages_to_chat_copied k official p : existsb (seqb k) ["temperature"; "top_p"; "stream"] = true ->
  get k (messages_to_chat official p) = get k p.
Proof.
  cbn [existsb]. rewrite orb_false_r, !orb_true_iff. intros H.
  assert (forall k', existsb (seqb k') ["messages"; "system"; "stop_sequences"; "stop"; "top_k"; "metadata"; "output_config"; "max_tokens";
    "max_completion_tokens"; "thinking"; "tools"; "tool_choice"] = false -> get k' (messages_to_chat official p) = get k' p) as A.
  { cbn [existsb]. intros k'. rewrite !orb_false_iff. intros (H0 & H1 & H2 & H3 & H4 & H5 & H6 & H7 & H8 & H9 & H10 & H11 & _). unfold messages_to_chat.
    rewrite choice_field_get, tools_field_get, option_fields_get, get_put, H0; try done. cbn [existsb]. by rewrite H1, H2, H3, H4, H5, H6, H7, H8, H9. }
  destruct H as [H|[H|H]]; apply seqb_eq in H as ->; by apply A.
Qed.

Lemma stop_field official p : get "stop" (messages_to_chat official p) =
  match get "stop_sequences" p with Some v => Some v | None => get "stop" p end.
Proof.
  unfold messages_to_chat. rewrite choice_field_get, tools_field_get by done. unfold option_fields. cbn zeta. set (p1 := put "messages" _ p).
  assert (forall k, seqb k "messages" = false -> seqb k "system" = false -> get k (del "system" p1) = get k p) as A.
  { intros k M S. rewrite get_del_ne by (by apply seqb_neq). unfold p1. by rewrite get_put, M. }
  set (p2 := match get "stop_sequences" (del "system" p1) with Some _ => _ | None => _ end).
  assert (get "stop" p2 = match get "stop_sequences" p with Some v => Some v | None => get "stop" p end) as <-.
  { unfold p2. rewrite A by done. destruct (get "stop_sequences" p); [|by apply A]. rewrite get_del_ne by done. by rewrite get_put, seqb_refl. }
  clearbody p2. clear. repeat first [rewrite get_del_ne by done | rewrite get_put; cbn [seqb] | progress cbn zeta | split_match]; done.
Qed.

Lemma chat_to_messages_options N oai model limit :
  let req := chat_to_messages N oai model limit in
  Forall (fun k => get k req = get k oai) ["temperature"; "top_p"; "stream"] /\ get "stop_sequences" req = get "stop" oai /\
  get "model" req = Some (JStr model).
Proof.
  unfold chat_to_messages. destruct (fold_left _ _ _) as [prompts msgs]. cbn zeta. cbn [fold_left].
  set (r1 := match prompts with [] => _ | _ => _ end).
  set (r2 := put "messages" _ r1). set (r3 := match as_list (get "tools" oai) with Some _ => _ | None => _ end).
  set (r4 := messages_choice _ r3). set (r5 := match get "stop" oai with Some _ => _ | None => _ end). set (r6 := put "max_tokens" _ r5).
  assert (forall k, seqb k "system" = false -> seqb k "messages" = false -> seqb k "tools" = false -> seqb k "tool_choice" = false ->
    get k r4 = get k [("model", JStr model)]) as Q4.
  { intros k K1 K2 K3 K4. unfold r4. rewrite messages_choice_get by done. unfold r3.
    assert (get k r2 = get k [("model", JStr model)]) as Q2.
    { unfold r2. rewrite get_put, K2. unfold r1. destruct prompts; [done|]. by rewrite get_put, K1. }
    destruct (as_list _); [|done]. destruct (omap _ _); [done|by rewrite get_put, K3]. }
  assert (forall k, seqb k "max_tokens" = false -> seqb k "stop_sequences" = false -> get k r6 = get k r4) as Q6.
  { intros k K1 K2. unfold r6. rewrite get_put, K1. unfold r5. destruct (get "stop" oai); [by rewrite get_put, K2|done]. }
  assert (forall k, get k (copy_field oai r6 k) = match get k oai with Some v => Some v | None => get k r6 end) as C.
  { intros k. unfold copy_field. destruct (get k oai); [by rewrite get_put, seqb_refl|done]. }
  assert (forall k req, get k (copy_field oai req k) = match get k oai with Some v => Some v | None => get k req end) as C'.
  { intros k req. unfold copy_field. destruct (get k oai); [by rewrite get_put, seqb_refl|done]. }
  split_and!.
  - repeat constructor.
    + rewrite !(copy_field_get "temperature") by done. rewrite C', Q6, Q4 by done. by destruct (get "temperature" oai).
    + rewrite (copy_field_get "top_p") by done. rewrite C', copy_field_get, Q6, Q4 by done. by destruct (get "top_p" oai).
    + rewrite C', !copy_field_get, Q6, Q4 by done. by destruct (get "stream" oai).
  - rewrite !copy_field_get by done. unfold r6. rewrite get_put. cbn [seqb]. change (seqb "stop_sequences" "max_tokens") with false. cbn match.
    unfold r5. destruct (get "stop" oai); [by rewrite get_put, seqb_refl|by rewrite Q4].
  - rewrite !copy_field_get, Q6, Q4 by done. reflexivity.
Qed.

(** C7: a Messages request translated to Chat for an official endpoint and back is the request
    it was, up to what the Chat protocol can say. The system prompt, the sampling parameters,
    the streaming flag and the stop sequences are the same. The tools come back in order with
    name, description and schema (cleaned; an object schema where there was none; an unnamed
    tool is lost), and so does a choice of auto, any or one tool. Every message prints as
    [retold] says: a user's text is kept; of an assistant's blocks the texts are joined by
    newlines, then comes every tool call with its identifier, name and input (which travels
    as a printed string); of a user's blocks the tool results, with identifier and text,
    make a message of their own, followed by one with the joined texts and the images.
    Blocks of other kinds, such as thinking, are dropped, and an image by address is left in
    the form of the Chat protocol. Excluded are an assistant message without text or call,
    tool results right after another list of blocks of the user, calls in user messages and
    images or results in assistant messages, images without type or data or with a semicolon
    in them, and addresses of the scheme data:; the call inputs are documents that print
    the same after decoding. *)
Theorem request_roundtrip (N : JsonNum) (payload : list (string * json)) (model : string) (limit : option Z) (turns : list turn)
  (Hmessages : get "messages" payload = Some (JArr (map messages_doc turns)))
  (Hturns : forallb (turn_ok N) turns && results_follow false turns = true)
  (Hchoice : choice_ok (get "tool_choice" payload) = true) :
  let back := chat_to_messages N (messages_to_chat true payload) model limit in
  get "model" back = Some (JStr model) /\ system_prompt back = system_prompt payload /\
  map sort_keys (messages_of back) = map sort_keys (concat (map retold turns)) /\
  get "tools" back = tools_retold (default [] (as_list (get "tools" payload))) /\
  get "tool_choice" back = choice_doc <$> (as_map (get "tool_choice" payload) ≫= choice_of) /\
  Forall (fun k => get k back = get k payload) ["temperature"; "top_p"; "stream"] /\
  get "stop_sequences" back = (match get "stop_sequences" payload with Some v => Some v | None => get "stop" payload end).
Proof.
  apply andb_true_iff in Hturns as [Ok A].
  destruct (messages_to_chat_fields true payload) as (F1 & F2 & F3). pose proof (messages_to_chat_copied) as Cp.
  pose proof (stop_field true payload) as St. set (chat := messages_to_chat true payload) in *.
  set (ps := if is_empty (system_prompt payload) then [] else [system_prompt payload]).
  destruct (add_turns N turns ps [] false Ok A ltac:(done)) as (ms & E & S). rewrite app_nil_r in E.
  assert (fold_left (add_message N) (messages_of chat) ([], []) = (ps, rev ms)) as Fo.
  { unfold messages_of. rewrite F1. unfold all_chat_messages, messages_of. rewrite Hmessages. cbn [as_list default from_option id].
    transitivity (fold_left (add_message N) ((if is_empty (system_prompt payload) then [] else
      [JObj [("role", JStr "system"); ("content", JStr (system_prompt payload))]]) ++ concat (map chat_messages (map messages_doc turns))) ([], [])).
    { by destruct (_ ++ _). }
    rewrite fold_left_app, <- E. f_equal. unfold ps. destruct (is_empty (system_prompt payload)) eqn:Es; [done|].
    transitivity (if is_empty (system_prompt payload) then ([], []) else ([] ++ [system_prompt payload], @nil obj)); [reflexivity|]. by rewrite Es. }
  destruct (chat_to_messages_fields N chat model limit ps (rev ms) Fo) as (G1 & G2 & G3 & G4).
  destruct (chat_to_messages_options N chat model limit) as (O1 & O2 & O3). cbn zeta. split_and!.
  - done.
  - unfold system_prompt at 1. rewrite G1. unfold ps. destruct (is_empty (system_prompt payload)) eqn:Es; [sbool; by rewrite Es|done].
  - unfold messages_of. rewrite G2, rev_involutive, <- S. by destruct ms.
  - rewrite G3, F2. unfold tools_field, tools_retold. destruct (as_list (get "tools" payload)) as [l|] eqn:El; cbn [default from_option id].
    + rewrite <- tools_back. destruct (omap (chat_tool true) l) eqn:Et; [by rewrite get_del_same|]. rewrite get_put, seqb_refl. done.
    + by rewrite El.
  - rewrite G4, F3. by apply choice_back.
  - rewrite !Forall_cons, Forall_nil in *. destruct O1 as (-> & -> & -> & _). split_and!; [by apply Cp..|done].
  - by rewrite O2, St.
Qed.

Definition demo_turns : list turn :=
  [UserTurn (inr [TextBlock "weather?"; ImageBlock "image/png" "iVBORw0="; TextBlock "here"]);
   AssistantTurn (inr [OtherBlock [("type", JStr "thinking")]; TextBlock "let me";
     UseBlock (mkToolUse "toolu_1" "weather" [("days", JNum "2"); ("city", JStr "Oslo")]); TextBlock "look"]);
   UserTurn (inr [TextBlock "well?"; ResultBlock "toolu_1" (inr ["sunny"; "20 degrees"])]); AssistantTurn (inl "Sunny."); UserTurn (inl "thanks")].
Definition demo_request : obj :=
  [("system", JStr "be brief"); ("messages", JArr (map messages_doc demo_turns)); ("temperature", JNum "1");
   ("tools", JArr [JObj [("name", JStr "weather"); ("input_schema", JObj [("type", JStr "object")])]]); ("tool_choice", choice_doc ChoiceAny)].

Lemma request_roundtrip_witness :
  map sort_keys (messages_of (chat_to_messages demo_num (messages_to_chat true demo_request) "m" None)) =
  map sort_keys (concat (map retold demo_turns)).
Proof.
  refine (proj1 (proj2 (proj2 (request_roundtrip demo_num demo_request "m" None demo_turns eq_refl _ eq_refl)))).
  assert (wire_ok demo_num (JObj [("days", JNum "2"); ("city", JStr "Oslo")]) = true) as W.
  { unfold wire_ok. rewrite (json_ok_mono _ 5); [reflexivity|apply Nat.leb_le; vm_compute; reflexivity|reflexivity]. }
  cbn -[wire_ok]. by rewrite W.
Defined.

(** What the demonstration looks like after both translations. *)
Example demo_retold : concat (map retold demo_turns) =
  [JObj (message_doc "user" (JArr [text_part ("weather?" +:+ newline +:+ "here"); base64_block "image/png" "iVBORw0="]));
   JObj (message_doc "assistant" (JArr [text_part ("let me" +:+ newline +:+ "look"); use_block (mkToolUse "toolu_1" "weather" [("days", JNum "2"); ("city", JStr "Oslo")])]));
   JObj (message_doc "user" (JArr [tool_result_block "toolu_1" ("sunny" +:+ newline +:+ "20 degrees")])); JObj (message_doc "user" (JArr [text_part "well?"]));
   JObj (message_doc "assistant" (JArr [text_part "Sunny."])); JObj (message_doc "user" (JStr "thanks"))].
Proof. reflexivity. Qed.

(** An image by address does not come back as a Messages image. *)
Lemma image_url_untranslated (u : string) : is_empty u = false -> HasPrefix u "data:" = false ->
  retold (UserTurn (inr [ImageURLBlock u])) = [JObj (message_doc "user" (JArr [image_part u]))] /\
  chat_messages (messages_doc (UserTurn (inr [ImageURLBlock u]))) = [JObj (message_doc "user" (JArr [image_part u]))] /\
  user_block (image_part u) = Some (image_part u).
Proof.
  intros E H. split_and!; [reflexivity| |].
  - rewrite (chat_messages_turn demo_num); [reflexivity|]. cbn [turn_ok forallb user_block_ok]. by rewrite E, H.
  - transitivity (match data_url u with Some (media, data) => Some (base64_block media data) | None => Some (image_part u) end); [reflexivity|].
    unfold data_url. by rewrite H.
Qed.

(** * Responses there and back *)

Lemma completion_input_wire N m : wire_ok N (JObj m) = true -> Marshal (completion_input N (Marshal (JObj m))) = Marshal (JObj m).
Proof.
  intros W. pose proof (wire_same N _ W) as S. unfold completion_input. rewrite (parse_Marshal N _ W).
  destruct (is_empty (Marshal (JObj m))) eqn:E; [unfold Marshal in E; rewrite sort_keys_obj in E; by cbn in E|].
  rewrite sort_keys_obj in *. exact (Marshal_same _ _ S).
Qed.

Lemma completion_input_obj N args : exists m, completion_input N args = JObj m /\ distinct_keys (JObj m) = true /\
  ((forall l t, num_text N l = Some t -> num_text N t = Some t) -> stable_numbers N (JObj m) = true).
Proof.
  unfold completion_input. destruct (if is_empty args then None else json_parse args) as [[]|]; try by exists [].
  pose proof (decode_distinct N (JObj m)) as D. pose proof (decode_stable N (JObj m)) as S. rewrite decode_lenient_obj in *. by eexists.
Qed.

(** The reader of a response does not see the order of members. *)
Lemma add_answer_same a b b' : same b b' -> add_answer a b = add_answer a b'.
Proof.
  intros S. pose proof (proj1 S) as E. destruct b, b'; try discriminate E; try done. cbn zeta beta. unfold add_answer, thinkingText.
  rewrite !(same_get_str _ _ _ S). cbn zeta.
  destruct (same_get "input" _ _ S) as [v v' Sv|]; [|done]. cbn [default from_option id]. by rewrite (Marshal_same _ _ Sv).
Qed.

Lemma fold_answer_same l l' : Forall2 same l l' -> forall a, fold_left add_answer l a = fold_left add_answer l' a.
Proof. induction 1 as [|b b' l l' S _ IH]; intros a; [done|]. cbn [fold_left]. rewrite (add_answer_same a b b' S). apply IH. Qed.

Lemma error_doc_same e e' : same (JObj e) (JObj e') -> Marshal (error_doc e) = Marshal (error_doc e').
Proof.
  intros S. unfold error_doc. rewrite !(same_get_str _ _ _ S).
  assert (sort_keys (default JNull (get "code" e)) = sort_keys (default JNull (get "code" e'))) as E
    by by destruct (same_get "code" _ _ S) as [v v' [Ev _]|].
  unfold Marshal. rewrite !(sort_keys_obj [("error", _)]). cbn [map fst snd]. rewrite !(sort_keys_obj (("message", _) :: _)). cbn [map fst snd]. by rewrite E.
Qed.

Lemma chat_response_same N m m' model now : same (JObj m) (JObj m') ->
  Marshal (fst (chat_response N m model now)) = Marshal (fst (chat_response N m' model now)) /\
  snd (chat_response N m model now) = snd (chat_response N m' model now).
Proof.
  intros S. unfold chat_response. destruct (same_as_map "error" _ _ S) as [e e' Se|]; [split; [by apply error_doc_same|done]|].
  rewrite !(same_get_str _ _ _ S).
  assert (forall a, fold_left add_answer (default [] (as_list (get "content" m))) a = fold_left add_answer (default [] (as_list (get "content" m'))) a) as ->
    by (intros a; destruct (same_as_list "content" _ _ S) as [l l' Sl|]; [by apply fold_answer_same|done]).
  assert (match as_map (get "usage" m) with Some usage => response_usage N usage | None => no_usage end =
          match as_map (get "usage" m') with Some usage => response_usage N usage | None => no_usage end) as ->; [|done].
  destruct (same_as_map "usage" _ _ S) as [us us' Su|]; [|done]. unfold response_usage. by rewrite !(same_as_float _ _ _ Su).
Qed.

(** The calls of a choice as the client of a Chat endpoint sees them. *)
Definition relayed_calls (N : JsonNum) (ch : completion_choice) : list json :=
  map (fun tc => chat_tool_call (NormalizeToolUseID (fc_ID tc)) (fc_Name tc) (Marshal (completion_input N (fc_Arguments tc)))) (oc_ToolCalls ch).

Lemma answer_calls N tcs : forall a, fold_left add_answer
  (map (fun tc => tool_use_block (NormalizeToolUseID (fc_ID tc)) (fc_Name tc) (completion_input N (fc_Arguments tc))) tcs) a =
  mkAnswer (an_text a) (an_thinking a)
    (an_calls a ++ map (fun tc => chat_tool_call (NormalizeToolUseID (fc_ID tc)) (fc_Name tc) (Marshal (completion_input N (fc_Arguments tc)))) tcs).
Proof.
  induction tcs as [|tc tcs IH]; intros a; [cbn; rewrite app_nil_r; by destruct a|]. cbn [map fold_left].
  change (add_answer a (tool_use_block ?i ?n ?v)) with (mkAnswer (an_text a) (an_thinking a) (an_calls a ++ [chat_tool_call i n (Marshal v)])).
  rewrite IH. cbn. by rewrite <- app_assoc.
Qed.

Lemma answer_back N c ch chs : co_Choices c = ch :: chs ->
  fold_left add_answer (completion_content N c) (mkAnswer "" "" []) = mkAnswer (oc_Content ch) (oc_ReasoningContent ch) (relayed_calls N ch).
Proof.
  intros E. unfold completion_content. rewrite E.
  assert (fold_left add_answer (completion_blocks N ch) (mkAnswer "" "" []) = mkAnswer (oc_Content ch) (oc_ReasoningContent ch) (relayed_calls N ch)) as B.
  { unfold completion_blocks. rewrite !fold_left_app, answer_calls. unfold relayed_calls.
    destruct (is_empty (oc_ReasoningContent ch)) eqn:R, (is_empty (oc_Content ch)) eqn:T; sbool; rewrite ?R, ?T; reflexivity. }
  destruct (completion_blocks N ch) eqn:Bl; [|by rewrite <- B]. rewrite <- B. reflexivity.
Qed.

Lemma messages_response_wire N c model :
  (forall z, Z.abs z <= 2 ^ 53 -> num_text N (Itoa z) = Some (Itoa z)) -> (forall l t, num_text N l = Some t -> num_text N t = Some t) ->
  Z.abs (co_Prompt c) <= 2 ^ 53 -> Z.abs (co_Completion c) <= 2 ^ 53 -> json_ok maxNestingDepth (sort_keys (messages_response N c model)) = true ->
  wire_ok N (messages_response N c model) = true.
Proof.
  intros Hn Hi Hp Hc Ok. unfold wire_ok. rewrite Ok, andb_true_r.
  assert (Forall (fun b => distinct_keys b = true /\ stable_numbers N b = true) (completion_content N c)) as F.
  { unfold completion_content.
    assert (Forall (fun b => distinct_keys b = true /\ stable_numbers N b = true) match co_Choices c with [] => [] | ch :: _ => completion_blocks N ch end) as Q;
      [|destruct (match co_Choices c with [] => _ | _ => _ end); [by repeat constructor|done]].
    destruct (co_Choices c) as [|ch chs]; [constructor|]. unfold completion_blocks. rewrite !Forall_app. split_and!.
    - destruct (is_empty _); by repeat constructor.
    - destruct (is_empty _); by repeat constructor.
    - apply Forall_map, Forall_true. intros tc. destruct (completion_input_obj N (fc_Arguments tc)) as (m & -> & D & S). specialize (S Hi).
      unfold tool_use_block. split; [|cbn in *; by rewrite S]. apply distinct_obj. split; [by apply (bool_decide_eq_true_1 _)|]. by repeat constructor. }
  apply andb_true_iff. split.
  - unfold messages_response. apply distinct_obj. split; [by apply (bool_decide_eq_true_1 _)|]. repeat constructor.
    cbn. apply forallb_forall. intros b Hb. rewrite Forall_forall in F. apply F. by apply list_elem_of_In.
  - cbn. rewrite !Hn, !bool_decide_eq_true_2 by done. rewrite !andb_true_r. apply forallb_forall. intros b Hb. rewrite Forall_forall in F.
    apply F. by apply list_elem_of_In.
Qed.

Definition relayed_finish (ch : completion_choice) : string :=
  if seqb (oc_FinishReason ch) "length" then "length"
  else if seqb (oc_FinishReason ch) "tool_calls" || some (oc_ToolCalls ch) then "tool_calls" else "stop".

(** The Chat response read from the document of a Messages response. *)
Lemma chat_response_doc N c ch chs model model' now m : messages_response N c model = JObj m -> co_Choices c = ch :: chs ->
  (forall z, Z.abs z <= 2 ^ 53 -> to_int64 (num_float N (Itoa z)) = z) -> Z.abs (co_Prompt c) <= 2 ^ 53 -> Z.abs (co_Completion c) <= 2 ^ 53 ->
  let u := mkUsage (co_Prompt c) (co_Completion c) 0 0 in
  chat_response N m model' now =
    (completion_doc (NormalizeAnthropicID (co_ID c)) (firstNonEmptyReasoning [model; co_Model c; model']) now
       (mkAnswer (oc_Content ch) (oc_ReasoningContent ch) (relayed_calls N ch)) (relayed_finish ch) u, u).
Proof.
  intros [= <-] Hch Hf Hp Hc. cbn zeta. set (m1 := if is_empty model then co_Model c else model).
  transitivity (let a := fold_left add_answer (completion_content N c) (mkAnswer "" "" []) in
    let u := response_usage N [("input_tokens", num (co_Prompt c)); ("output_tokens", num (co_Completion c))] in
    (completion_doc (NormalizeAnthropicID (co_ID c)) (if is_empty m1 then model' else m1) now a
       (mapStopReasonToFinish (completion_stop c) match an_calls a with [] => false | _ => true end) u, u)); [reflexivity|].
  cbn zeta. rewrite (answer_back N c ch chs Hch).
  assert (response_usage N [("input_tokens", num (co_Prompt c)); ("output_tokens", num (co_Completion c))] = mkUsage (co_Prompt c) (co_Completion c) 0 0) as ->.
  { transitivity (mkUsage (wrap64 (wrap64 (to_int64 (num_float N (Itoa (co_Prompt c))) + 0) + 0)) (to_int64 (num_float N (Itoa (co_Completion c)))) 0 0); [reflexivity|].
    rewrite !Hf by done. rewrite !Z.add_0_r, !(wrap64_small (co_Prompt c)) by (unfold in_int64, min_int64, max_int64, two63; lia). done. }
  assert ((if is_empty m1 then model' else m1) = firstNonEmptyReasoning [model; co_Model c; model']) as ->.
  { unfold m1. cbn. destruct (is_empty model) eqn:E1; [|by rewrite E1]. destruct (is_empty (co_Model c)); [|done]. destruct (is_empty model') eqn:E2; [by sbool|done]. }
  assert (mapStopReasonToFinish (completion_stop c) match relayed_calls N ch with [] => false | _ => true end = relayed_finish ch) as Q; [|cbn [an_calls]; by rewrite Q].
  unfold completion_stop, relayed_finish, relayed_calls. rewrite Hch. destruct (seqb (oc_FinishReason ch) "length"); [done|].
  destruct (seqb (oc_FinishReason ch) "tool_calls"); [done|]. by destruct (oc_ToolCalls ch).
Qed.

(** a complete Chat response that travels as a Messages response is the answer it was:
    text, reasoning, every tool call with its name and arguments (printed again as
    one object, which leaves printed objects as they are), finish reason and token counts, on the
    bytes of both translations.  (Numbers up to 2^53 are exact as float64; printed numbers
    print the same; texts are valid UTF-8.) *)
Theorem response_roundtrip (N : JsonNum) (chatBody model model' : string) (now : Z) (c : completion) (ch : completion_choice) (chs : list completion_choice)
  (Htext : forall z, Z.abs z <= 2 ^ 53 -> num_text N (Itoa z) = Some (Itoa z))
  (Hfloat : forall z, Z.abs z <= 2 ^ 53 -> to_int64 (num_float N (Itoa z)) = z)
  (Hidem : forall l t, num_text N l = Some t -> num_text N t = Some t)
  (Hbody : Unmarshal dec_completion (mkCompletion "" "" [] 0 0) chatBody = Some c) (Hchoice : co_Choices c = ch :: chs)
  (Hprompt : Z.abs (co_Prompt c) <= 2 ^ 53) (Hcompletion : Z.abs (co_Completion c) <= 2 ^ 53)
  (Hok : json_ok maxNestingDepth (sort_keys (messages_response N c model)) = true) :
  let u := mkUsage (co_Prompt c) (co_Completion c) 0 0 in
  let name := firstNonEmptyReasoning [model; co_Model c; model'] in
  (exists body, ChatCompletionToMessages N chatBody model = inl (body, u) /\
    MessagesToChatCompletion N body model' now =
      inl (Marshal (completion_doc (NormalizeAnthropicID (co_ID c)) name now
                      (mkAnswer (oc_Content ch) (oc_ReasoningContent ch) (relayed_calls N ch)) (relayed_finish ch) u), u)) /\
  forall m, wire_ok N (JObj m) = true -> Marshal (completion_input N (Marshal (JObj m))) = Marshal (JObj m).
Proof.
  cbn zeta. split; [|apply completion_input_wire]. unfold ChatCompletionToMessages. rewrite Hbody. eexists. split; [done|].
  pose proof (messages_response_wire N c model Htext Hidem Hprompt Hcompletion Hok) as W.
  destruct (messages_response N c model) as [| | | | |doc] eqn:Ed; try discriminate Ed.
  destruct (decode_map_wire N _ W) as (m & E & S). unfold MessagesToChatCompletion. rewrite E. cbn [default from_option id].
  destruct (chat_response_same N _ _ model' now S) as [R1 R2]. destruct (chat_response N m model' now) as [d u]. cbn [fst snd] in R1, R2. rewrite R1, R2.
  by rewrite (chat_response_doc N c ch chs model model' now doc).
Qed.

Definition demo_completion : string :=
  json_text "{'id':'chatcmpl-7','model':'gpt','choices':[{'message':{'role':'assistant','content':'Hi','tool_calls':[{'id':'call_1','type':'function','function':{'name':'f','arguments':'{}'}}]},'finish_reason':'tool_calls'}],'usage':{'prompt_tokens':12,'completion_tokens':3}}".

(** Integers as floats, unrounded. *)
Definition exact_num : JsonNum :=
  mkJsonNum Some (fun l => match ParseInt l with Some (Zpos p) => S754_finite false p 0 | Some (Zneg p) => S754_finite true p 0 | _ => fzero end).

Lemma exact_num_float z : Z.abs z <= 2 ^ 53 -> to_int64 (num_float exact_num (Itoa z)) = z.
Proof.
  intros H. assert (in_int64 z) as I by (unfold in_int64, min_int64, max_int64, two63; lia). cbn [num_float exact_num]. rewrite ParseInt_Itoa by done.
  assert (forall x, ftrunc x = Some z -> to_int64 x = z) as T.
  { intros x E. unfold to_int64. rewrite E. destruct I as [I1 I2]. apply Z.leb_le in I1, I2. by rewrite I1, I2. }
  apply T. destruct z as [|p|p]; [done|..]; unfold ftrunc; change (0 <=? 0) with true; change (2 ^ 0) with 1; by rewrite Z.mul_1_r.
Qed.

Lemma response_roundtrip_witness : exists body out,
  ChatCompletionToMessages exact_num demo_completion "" = inl (body, mkUsage 12 3 0 0) /\
  MessagesToChatCompletion exact_num body "m" 1700000000 = inl (out, mkUsage 12 3 0 0).
Proof.
  destruct (Unmarshal dec_completion (mkCompletion "" "" [] 0 0) demo_completion) as [c|] eqn:E; [|vm_compute in E; discriminate E].
  pose proof E as E'. vm_compute in E'. injection E' as <-.
  match type of E with _ = Some ?c => assert (json_ok maxNestingDepth (sort_keys (messages_response exact_num c "")) = true) as Ok end;
    [apply (json_ok_mono _ 5); [apply Nat.leb_le; vm_compute; reflexivity|vm_compute; reflexivity]|].
  pose proof (response_roundtrip exact_num demo_completion "" "m" 1700000000 _ _ _ ltac:(done) exact_num_float ltac:(done) E eq_refl ltac:(done) ltac:(done) Ok) as R.
  cbn zeta in R. destruct R as [(body & B & R) _]. eexists _, _. split; [exact B|exact R].
Defined.

(** The document [null] makes the request translator write to a nil map. *)
Lemma null_request_panics N official : MessagesRequestToChat N "null" official = Panic.
Proof. reflexivity. Qed.
