(* ===== verification/TranslateResponses.v ===== *)
(** pkg/llm/translate/responses_chat.go: requests and complete responses between the
    Responses and the Chat protocol, and the clean-up of native Responses requests. *)

From Stdlib Require Import Ascii.
From S2P Require Import Prelude GoFloat GoStrings GoTime GoJson GoPrint Matcher Policy Types Context Http Translate TranslateWire TranslateStream TranslateMessages.

(** * Items of a conversation *)

Definition responseItemCallID (item : obj) : string :=
  let callID := get_str "call_id" item in if is_empty callID then get_str "id" item else callID.

(** The first of the three text fields that is not empty. *)
Definition part_text (p : json) : string :=
  match p with JObj m => firstNonEmptyReasoning [get_str "text" m; get_str "input_text" m; get_str "value" m] | _ => "" end.
Definition messageItemText (item : obj) : string :=
  match get "content" item with
  | Some (JStr s) => s
  | Some (JArr l) => cat (map part_text l)
  | _ => ""
  end.

Definition functionCallOutputText (item : obj) : string :=
  match get "output" item with
  | None => ""
  | Some (JStr s) => s
  | Some (JArr l) =>
      let text := cat (map (fun b => match b with JObj m => get_str "text" m | _ => "" end) l) in
      if is_empty text then Marshal (JArr l) else text
  | Some v => Marshal v
  end.

Definition call_id (tc : json) : string := match tc with JObj m => get_str "id" m | _ => "" end.
Definition pendingHasCallID (pending : list json) (callID : string) : bool := existsb (fun tc => seqb (call_id tc) callID) pending.

Definition is_output (t : string) : bool := seqb t "function_call_output" || seqb t "custom_tool_call_output".

(** The first pass: outputs by call, the last one of a call wins. *)
Definition index_output (outs : gmap string string) (item : json) : gmap string string :=
  match item with
  | JObj m => if is_output (get_str "type" m) && negb (is_empty (responseItemCallID m))
              then <[responseItemCallID m := functionCallOutputText m]> outs else outs
  | _ => outs
  end.
Definition tool_outputs (items : list json) : gmap string string := fold_left index_output items ∅.
Definition is_reasoning (item : json) : bool := match item with JObj m => seqb (get_str "type" m) "reasoning" | _ => false end.

(** * The second pass *)

Record round := mkRound {
  rn_messages : list json;      (* openAIMessages *)
  rn_calls : list json;         (* pendingToolCalls *)
  rn_text : string;             (* pendingToolText *)
  rn_answered : gset string;    (* pendingAnswered *)
  rn_reasoning : string;        (* pendingReasoning *)
  rn_mapper : ToolNameMapper
}.
#[global] Instance eta_round : Eta round := fun r =>
  mkRound (rn_messages r) (rn_calls r) (rn_text r) (rn_answered r) (rn_reasoning r) (rn_mapper r).

Section pass.
Context (outs : gmap string string) (thinking : bool).

(** A call with its output. *)
Definition answered_call (tc : json) : option (json * string * string) :=
  let id := call_id tc in
  if is_empty id then None else output ← outs !! id; Some (tc, id, output).

Definition flushPendingToolCalls (r : round) : round :=
  match rn_calls r with
  | [] => r
  | calls =>
      let answered := omap answered_call calls in
      let r := r <| rn_calls := [] |> <| rn_answered := list_to_set (map (fun a => snd (fst a)) answered) ∪ rn_answered r |> in
      match answered with
      | [] => r
      | _ =>
          let msg := [("role", JStr "assistant"); ("tool_calls", JArr (map (fun a => fst (fst a)) answered))] in
          let msg := if is_empty (rn_text r) then msg else put "content" (JStr (rn_text r)) msg in
          let msg := applyAssistantReasoning msg (rn_reasoning r) thinking in
          r <| rn_messages := rn_messages r ++ JObj msg :: map (fun a => tool_message (snd (fst a)) (snd a)) answered |>
            <| rn_text := "" |> <| rn_reasoning := "" |>
      end
  end.

(** The name of a call, qualified when it has a namespace. *)
Definition item_name (r : round) (item : obj) : round * string :=
  let name := get_str "name" item in
  let ns := get_str "namespace" item in
  if is_empty ns then (r, name)
  else let '(m, s) := SanitizeAndRegister (rn_mapper r) ns name in (r <| rn_mapper := m |>, s).

Definition add_function_call (r : round) (item : obj) : round :=
  let callID := responseItemCallID item in
  match outs !! callID with
  | None => r
  | Some _ =>
      let '(r, name) := item_name r item in
      r <| rn_calls := rn_calls r ++ [chat_tool_call callID name (get_str "arguments" item)] |>
  end.

Definition add_custom_call (r : round) (item : obj) : round :=
  let callID := responseItemCallID item in
  match outs !! callID with
  | None => r
  | Some _ =>
      let args := Marshal (JObj [("patch", JStr (get_str "input" item))]) in
      let '(r, name) := item_name r item in
      r <| rn_mapper := RegisterCustom (rn_mapper r) name |> <| rn_calls := rn_calls r ++ [chat_tool_call callID name args] |>
  end.

Definition add_output (r : round) (item : obj) : round :=
  let callID := responseItemCallID item in
  if is_empty callID || bool_decide (callID ∈ rn_answered r) || negb (pendingHasCallID (rn_calls r) callID)
  then flushPendingToolCalls r else r.

Definition openai_role (role : string) : string :=
  if seqb role "developer" || seqb role "system" then "system"
  else if seqb role "assistant" then "assistant"
  else if negb (is_empty role) then role else "user".

Definition copy_text (k : string) (item msg : obj) : obj :=
  match as_string (get k item) with Some s => if is_empty s then msg else put k (JStr s) msg | None => msg end.

(** A message that is not part of an open round. *)
Definition emit_message (r : round) (item : obj) : round :=
  let role := openai_role (get_str "role" item) in
  let text := messageItemText item in
  let no_calls := match get "tool_calls" item with None | Some JNull => true | Some _ => false end in
  if seqb role "assistant" && is_empty (TrimSpace text) && no_calls then r
  else
    let msg := [("role", JStr role); ("content", JStr text)] in
    let msg := copy_text "tool_call_id" item (copy_text "name" item msg) in
    let msg := match get "tool_calls" item with Some v => put "tool_calls" v msg | None => msg end in
    let '(msg, r) := if seqb role "assistant" then (applyAssistantReasoning msg (rn_reasoning r) thinking, r <| rn_reasoning := "" |>) else (msg, r) in
    r <| rn_messages := rn_messages r ++ [JObj msg] |>.

Definition add_message_item (r : round) (item : obj) : round :=
  let role := get_str "role" item in
  if bool_decide (is_Some (get "tool_calls" item)) || negb (seqb role "assistant") || match rn_calls r with [] => true | _ => false end
  then emit_message (flushPendingToolCalls r) item
  else
    let text := messageItemText item in
    if is_empty text then r
    else r <| rn_text := (if is_empty (rn_text r) then text else rn_text r +:+ newline +:+ text) |>.

Definition add_item (r : round) (item : json) : round :=
  match item with
  | JObj m =>
      let t := get_str "type" m in
      if seqb t "reasoning" then
        let text := extractReasoningSummary m in if is_empty text then r else r <| rn_reasoning := text |>
      else if seqb t "function_call" then add_function_call r m
      else if seqb t "custom_tool_call" then add_custom_call r m
      else if is_output t then add_output r m
      else add_message_item r m
  | _ => r
  end.
End pass.

(** The conversation of a request. *)
Definition system_messages (payload : obj) : list json :=
  match as_string (get "instructions" payload) with
  | Some s => if is_empty s then [] else [JObj [("role", JStr "system"); ("content", JStr s)]]
  | None => []
  end.

Definition input_messages (payload : obj) : list json * ToolNameMapper :=
  let base := system_messages payload in
  match get "input" payload with
  | Some (JStr s) => (base ++ (if is_empty s then [] else [JObj [("role", JStr "user"); ("content", JStr s)]]), NewToolNameMapper)
  | Some (JArr items) =>
      let outs := tool_outputs items in
      let thinking := hasReasoningEffort (responsesReasoningEffort payload) || existsb is_reasoning items in
      let r := fold_left (add_item outs thinking) items (mkRound base [] "" ∅ "" NewToolNameMapper) in
      let r := flushPendingToolCalls outs thinking r in
      (rn_messages r, rn_mapper r)
  | _ => (base, NewToolNameMapper)
  end.

(** * Tools *)

Definition builtinToolStandardFields (t : string) : list string :=
  if seqb t "web_search" || seqb t "web_search_preview" then ["search_context_size"; "user_location"; "filters"]
  else if seqb t "code_interpreter" then ["container"]
  else if seqb t "image_generation" then ["model"; "size"; "quality"; "background"; "output_format"]
  else if seqb t "file_search" then ["vector_store_ids"; "max_num_results"; "filters"; "ranking_options"]
  else if seqb t "computer_use_preview" then ["display_width"; "display_height"; "environment"]
  else if seqb t "tool_search" then ["query"; "max_num_results"; "filters"] else [].

Definition needs_name (t : string) : bool := seqb t "function" || seqb t "mcp" || seqb t "shell".

Definition put_all (src dst : obj) : obj := fold_left (fun m f => put (fst f) (snd f) m) src dst.
Definition put_new (src dst : obj) : obj :=
  fold_left (fun m f => if bool_decide (is_Some (get (fst f) m)) then m else put (fst f) (snd f) m) src dst.

Definition patch_schema : json :=
  JObj [("patch", JObj [("type", JStr "string"); ("description", JStr "The full patch or diff content to apply to files.")])].
(** The tool apply_patch always has a schema. *)
Definition with_patch_schema (tool : obj) : obj :=
  let params := sub_map "parameters" tool in
  let tool := if bool_decide (is_Some (as_map (get "parameters" tool))) then tool else put "parameters" (JObj params) tool in
  match sub_map "properties" params with
  | [] => put "parameters" (JObj (put "required" (JArr [JStr "patch"]) (put "properties" patch_schema (put "type" (JStr "object") params)))) tool
  | _ => tool
  end.

Definition BuildStandardTool (toolMap : obj) : option obj :=
  let t0 := get_str "type" toolMap in
  let toolType := if is_empty t0 then (if is_empty (get_str "name" toolMap) then None else Some "function") else Some t0 in
  match toolType with
  | None => None
  | Some toolType =>
      let targetType := if seqb toolType "custom" then "function" else toolType in
      if negb (needs_name targetType) then
        Some (fold_left (copy_field toolMap) (builtinToolStandardFields targetType) [("type", JStr targetType)])
      else
        match as_map (get toolType toolMap) with
        | Some inner =>
            let flat := put_new (List.filter (fun f => negb (seqb (fst f) "type") && negb (seqb (fst f) toolType)) toolMap)
                                (put_all inner [("type", JStr toolType)]) in
            if needs_name toolType && is_empty (get_str "name" flat) then None else Some flat
        | None =>
            let name := let n := get_str "name" toolMap in if is_empty n then targetType else n in
            let flat := put "name" (JStr name) (put "type" (JStr targetType) (del "name" (del "type" toolMap))) in
            Some (if seqb name "apply_patch" then with_patch_schema flat else flat)
        end
  end.

(** Registers what the Chat endpoint will not know: custom tools and namespaces. *)
Definition WrapFlatToolToNestedOpenAI (flatTool : obj) (mapper : ToolNameMapper) : ToolNameMapper * obj :=
  let t0 := get_str "type" flatTool in
  let toolType := if is_empty t0 then "function" else t0 in
  let inner := del "type" flatTool in
  let name := get_str "name" inner in
  let mapper := if negb (is_empty name) && (seqb name "apply_patch" || seqb toolType "custom") then RegisterCustom mapper name else mapper in
  let ns := get_str "namespace" inner in
  let '(mapper, inner) :=
    if is_empty ns then (mapper, inner)
    else
      let '(mapper, inner) :=
        if is_empty name then (mapper, inner)
        else let '(mapper, s) := SanitizeAndRegister mapper ns name in (mapper, put "name" (JStr s) inner) in
      (mapper, del "namespace" inner) in
  (mapper, put toolType (JObj inner) [("type", JStr toolType)]).

Definition is_function (tool : obj) : bool := match get "type" tool with Some (JStr t) => seqb t "function" | _ => false end.

(** One standard tool wrapped, if it is a function. *)
Definition wrap_tool (acc : ToolNameMapper * list json) (ns : string) (tool : obj) : ToolNameMapper * list json :=
  match BuildStandardTool tool with
  | Some std =>
      if is_function std then
        let std := if is_empty ns then std else put "namespace" (JStr ns) std in
        let '(mapper, w) := WrapFlatToolToNestedOpenAI std (fst acc) in (mapper, snd acc ++ [JObj w])
      else acc
  | None => acc
  end.

Definition add_tool (acc : ToolNameMapper * list json) (t : json) : ToolNameMapper * list json :=
  match t with
  | JObj m =>
      if seqb (get_str "type" m) "namespace" then
        fold_left (fun acc st => match st with JObj sm => wrap_tool acc (get_str "name" m) sm | _ => acc end)
          (default [] (as_list (get "tools" m))) acc
      else wrap_tool acc "" m
  | _ => acc
  end.

Definition responses_tools (payload : obj) (mapper : ToolNameMapper) : obj * ToolNameMapper :=
  match as_list (get "tools" payload) with
  | None => (payload, mapper)
  | Some tools =>
      let '(mapper, l) := fold_left add_tool tools (mapper, []) in
      (match l with [] => del "tool_choice" (del "tools" payload) | _ => put "tools" (JArr l) payload end, mapper)
  end.

Definition responses_only : list string := ["store"; "previous_response_id"; "include"; "background"; "truncation"; "text"; "reasoning"].

Definition responses_options (payload : obj) : obj :=
  let payload := del "instructions" (del "input" payload) in
  let effort := responsesReasoningEffort payload in
  let payload := if is_empty effort || bool_decide (is_Some (get "reasoning_effort" payload)) then payload
                 else put "reasoning_effort" (JStr effort) payload in
  let payload := fold_left (fun p k => del k p) responses_only payload in
  match get "max_output_tokens" payload with
  | Some v => del "max_output_tokens" (put "max_completion_tokens" v payload)
  | None => payload
  end.

Definition responses_to_chat (payload : obj) : obj * ToolNameMapper :=
  let '(msgs, mapper) := input_messages payload in
  responses_tools (responses_options (put "messages" (slice msgs) payload)) mapper.

Definition ResponsesRequestToChat (N : JsonNum) (rawBody : string) : go ((string * ToolNameMapper) + goerror) :=
  match decode_map N rawBody with
  | None => Ret (inr (parse_error json_error))
  | Some None => Panic
  | Some (Some payload) => let '(doc, mapper) := responses_to_chat payload in Ret (inl (Marshal (JObj doc), mapper))
  end.

(** * Complete responses *)

Record chat_answer := mkChatAnswer {
  ca_Role : string; ca_Content : string; ca_ReasoningContent : string; ca_Reasoning : string; ca_ToolCalls : list completion_call;
  ca_FinishReason : string
}.
#[global] Instance eta_chat_answer : Eta chat_answer := fun c =>
  mkChatAnswer (ca_Role c) (ca_Content c) (ca_ReasoningContent c) (ca_Reasoning c) (ca_ToolCalls c) (ca_FinishReason c).
Definition dec_chat_answer : decoder chat_answer :=
  dec_struct [("message", dec_struct [("role", dec_field ca_Role dec_string); ("content", dec_field ca_Content dec_string);
                 ("reasoning_content", dec_field ca_ReasoningContent dec_string); ("reasoning", dec_field ca_Reasoning dec_string);
                 ("tool_calls", dec_field ca_ToolCalls (dec_slice (mkCall "" "" "" "") dec_call))]);
              ("finish_reason", dec_field ca_FinishReason dec_string)].
Record chat_result := mkChatResult { cr_ID : string; cr_Model : string; cr_Choices : list chat_answer; cr_Prompt : Z; cr_Completion : Z; cr_Total : Z }.
#[global] Instance eta_chat_result : Eta chat_result := fun c =>
  mkChatResult (cr_ID c) (cr_Model c) (cr_Choices c) (cr_Prompt c) (cr_Completion c) (cr_Total c).
Definition dec_chat_result : decoder chat_result :=
  dec_struct [("id", dec_field cr_ID dec_string); ("model", dec_field cr_Model dec_string);
              ("choices", dec_field cr_Choices (dec_slice (mkChatAnswer "" "" "" "" [] "") dec_chat_answer));
              ("usage", dec_struct [("prompt_tokens", dec_field cr_Prompt dec_int); ("completion_tokens", dec_field cr_Completion dec_int);
                 ("total_tokens", dec_field cr_Total dec_int)])].

(** The original namespace and name; without a mapper the name is split at its last dot. *)
Definition restored_name (mapper : option ToolNameMapper) (name : string) : string * string :=
  match mapper with Some m => Restore m name | None => splitChatToolName name end.

Definition call_item (N : JsonNum) (mapper : option ToolNameMapper) (tc : completion_call) : json :=
  let '(ns, name) := restored_name mapper (fc_Name tc) in
  if IsCustom mapper name then
    JObj [("id", JStr (EnsureCustomToolCallItemID (fc_ID tc))); ("call_id", JStr (fc_ID tc)); ("type", JStr "custom_tool_call");
          ("status", JStr "completed"); ("name", JStr name); ("namespace", JStr ns); ("input", JStr (ExtractPatchInput N (fc_Arguments tc)))]
  else
    JObj [("id", JStr (EnsureFunctionCallItemID (fc_ID tc))); ("call_id", JStr (fc_ID tc)); ("type", JStr "function_call");
          ("status", JStr "completed"); ("name", JStr name); ("namespace", JStr ns); ("arguments", JStr (fc_Arguments tc))].

Definition message_output (id text : string) : json :=
  JObj [("type", JStr "message"); ("id", JStr id); ("status", JStr "completed"); ("role", JStr "assistant");
        ("content", JArr [JObj [("type", JStr "output_text"); ("text", JStr text); ("annotations", JArr [])]])].

Definition response_output (N : JsonNum) (mapper : option ToolNameMapper) (c : chat_result) : list json :=
  match cr_Choices c with
  | [] => []
  | ch :: _ =>
      let reasoning := chatResponsesReasoning (ca_ReasoningContent ch) (ca_Reasoning ch) in
      (if is_empty reasoning then [] else [JObj (completedChatReasoningItem (chatResponsesID (cr_ID c) "rs_") reasoning)]) ++
      match ca_ToolCalls ch with
      | [] => [message_output (chatResponsesID (cr_ID c) "msg_") (ca_Content ch)]
      | calls => map (call_item N mapper) calls
      end
  end.

Definition responses_response (N : JsonNum) (mapper : option ToolNameMapper) (c : chat_result) (model : string) (now : Z) : json :=
  let total := if cr_Total c =? 0 then wrap64 (cr_Prompt c + cr_Completion c) else cr_Total c in
  JObj [("id", JStr (chatResponsesID (cr_ID c) "resp_")); ("object", JStr "response"); ("created_at", num now); ("status", JStr "completed");
        ("completed_at", num (wrap64 (now + 1))); ("model", JStr (if is_empty model then cr_Model c else model));
        ("output", slice (response_output N mapper c));
        ("usage", JObj [("input_tokens", num (cr_Prompt c)); ("output_tokens", num (cr_Completion c)); ("total_tokens", num total)])].

Definition ChatCompletionToResponses (N : JsonNum) (chatBody model : string) (mapper : option ToolNameMapper) (now : Z) : (string * TokenUsage) + goerror :=
  match Unmarshal dec_chat_result (mkChatResult "" "" [] 0 0 0) chatBody with
  | None => inr json_error
  | Some c => inl (Marshal (responses_response N mapper c model now), mkUsage (cr_Prompt c) (cr_Completion c) 0 0)
  end.

(** * Native requests *)

(** The tools of a document that have a member [tools] themselves are cleaned too. *)
Fixpoint strip_description (t : json) : json :=
  match t with
  | JObj m =>
      let m := (fix go (m : obj) : obj := match m with
                 | [] => []
                 | (k, v) :: r => (k, if seqb k "tools" then match v with JArr l => JArr (map strip_description l) | _ => v end else v) :: go r
                 end) m in
      JObj (if seqb (get_str "type" m) "tool_search" then del "description" m else m)
  | _ => t
  end.
Fixpoint has_description (t : json) : bool :=
  match t with
  | JObj m =>
      seqb (get_str "type" m) "tool_search" && bool_decide (is_Some (get "description" m)) ||
      (fix go (m : obj) : bool := match m with
         | [] => false
         | (k, v) :: r => if seqb k "tools" then match v with JArr l => existsb has_description l | _ => false end else go r
         end) m
  | _ => false
  end.

Definition StripToolSearchDescription (N : JsonNum) (rawBody : string) : string * bool :=
  match decode_map N rawBody with
  | None => (rawBody, false)
  | Some m =>
      let payload := default [] m in
      match as_list (get "tools" payload) with
      | Some tools => if existsb has_description tools
                      then (Marshal (JObj (put "tools" (JArr (map strip_description tools)) payload)), true) else (rawBody, false)
      | None => (rawBody, false)
      end
  end.

Definition correct_part (p : json) : json :=
  match p with JObj m => if seqb (get_str "type" m) "text" then JObj (put "type" (JStr "input_text") m) else p | _ => p end.
Definition correct_item (item : json) : json :=
  match item with
  | JObj m =>
      let m := if seqb (get_str "role" m) "developer" then put "role" (JStr "system") m else m in
      let m := match get "content" m with Some (JArr l) => put "content" (JArr (map correct_part l)) m | _ => m end in
      JObj (if bool_decide (is_Some (get "role" m)) && bool_decide (is_Some (get "content" m)) then del "type" m else m)
  | _ => item
  end.
Definition correctInputForNativeResponses (payload : obj) : obj :=
  match get "input" payload with Some (JArr items) => put "input" (JArr (map correct_item items)) payload | _ => payload end.

(** The tools kept and whether one of them is loaded later. *)
Definition native_tool (acc : list obj * bool) (t : json) : list obj * bool :=
  match t with
  | JObj m =>
      if seqb (get_str "type" m) "namespace" then
        let subs := omap (fun st => match st with JObj sm => JObj <$> BuildStandardTool sm | _ => None end) (default [] (as_list (get "tools" m))) in
        (fst acc ++ [put "tools" (slice subs) (put "type" (JStr "namespace") (del "tools" m))], true)
      else
        match BuildStandardTool m with
        | Some std => (fst acc ++ [std], snd acc || match get "defer_loading" std with Some (JBool b) => b | _ => false end)
        | None => acc
        end
  | _ => acc
  end.

Definition is_tool_search (t : obj) : bool := match get "type" t with Some (JStr s) => seqb s "tool_search" | _ => false end.
Definition native_tools (tools : list json) : list obj :=
  let '(l, deferred) := fold_left native_tool tools ([], false) in
  if deferred then l else List.filter (fun t => negb (is_tool_search t)) l.

Definition tool_line (t : obj) : string :=
  let name := get_str "name" t in
  if seqb (get_str "type" t) "namespace"
  then "namespace:" +:+ name +:+ "(" +:+ Itoa (Z.of_nat (length (default [] (as_list (get "tools" t))))) +:+ "_tools)"
  else get_str "type" t +:+ ":" +:+ name.

Definition CorrectNativeResponsesRequest (N : JsonNum) (rawBody : string) : (string * Z * Z * list string) + goerror :=
  match decode_map N rawBody with
  | None => inr (parse_error json_error)
  | Some None => inl ("null", 0, 0, [])
  | Some (Some m) =>
      let payload := correctInputForNativeResponses m in
      match as_list (get "tools" payload) with
      | None => inl (Marshal (JObj payload), 0, 0, [])
      | Some tools =>
          let final := native_tools tools in
          let payload := match final with [] => del "tool_choice" (del "tools" payload) | _ => put "tools" (JArr (map JObj final)) payload end in
          inl (Marshal (JObj payload), Z.of_nat (length tools), Z.of_nat (length final), map tool_line final)
      end
  end.

(** * Every call is answered *)

Definition msg_role (m : json) : string := match m with JObj mm => get_str "role" mm | _ => "" end.
Definition msg_calls (m : json) : list string :=
  match m with JObj mm => map call_id (default [] (as_list (get "tool_calls" mm))) | _ => [] end.
Definition answers (m : json) (id : string) : bool :=
  match m with JObj mm => seqb (get_str "role" mm) "tool" && seqb (get_str "tool_call_id" mm) id | _ => false end.

(** What a strict upstream accepts: the calls of a message are answered, in order, by the
    messages right after it, and there are no other tool messages. *)
Fixpoint well_answered (open : list string) (msgs : list json) : bool :=
  match open, msgs with
  | [], [] => true
  | [], m :: r => negb (seqb (msg_role m) "tool") && well_answered (msg_calls m) r
  | id :: ids, m :: r => answers m id && well_answered ids r
  | _ :: _, [] => false
  end.

Lemma well_answered_cons m r : well_answered [] (m :: r) = negb (seqb (msg_role m) "tool") && well_answered (msg_calls m) r.
Proof. done. Qed.

Lemma well_answered_app ms ms' : forall open, well_answered open ms = true -> well_answered open (ms ++ ms') = well_answered [] ms'.
Proof.
  induction ms as [|m ms IH]; intros [|id ids] H; try done; cbn in *; apply andb_true_iff in H as [-> H]; cbn; by apply IH.
Qed.

(** An item that does not bring calls or answers of its own. *)
Definition plain_item (item : json) : bool :=
  match item with
  | JObj m => negb (bool_decide (is_Some (get "tool_calls" m))) && negb (seqb (get_str "role" m) "tool")
  | _ => true
  end.

(** The call an item asks for, if it has an output. *)
Definition item_call (outs : gmap string string) (item : json) : option string :=
  match item with
  | JObj m => let t := get_str "type" m in
              if seqb t "function_call" || seqb t "custom_tool_call" then
                let id := responseItemCallID m in if bool_decide (is_Some (outs !! id)) then Some id else None
              else None
  | _ => None
  end.

Section answered.
Context (outs : gmap string string) (thinking : bool) (Houts : outs !! "" = None).

Definition ids_of (r : round) : list string := concat (map msg_calls (rn_messages r)) ++ map call_id (rn_calls r).
Record round_inv (r : round) : Prop := {
  ri_messages : well_answered [] (rn_messages r) = true;
  ri_calls : Forall (fun tc => is_Some (outs !! call_id tc)) (rn_calls r)
}.

Lemma answered_calls calls : Forall (fun tc => is_Some (outs !! call_id tc)) calls ->
  exists outputs, omap (answered_call outs) calls = zip (zip calls (map call_id calls)) outputs /\ length outputs = length calls.
Proof.
  induction 1 as [|tc calls [o Ho] _ (os & E & L)]; [by exists []|]. exists (o :: os). split; [|cbn; by rewrite L].
  cbn [omap list_omap]. unfold answered_call at 1. destruct (is_empty (call_id tc)) eqn:Ei; [sbool; by rewrite Ei, Houts in Ho|].
  rewrite Ho. cbn. f_equal. exact E.
Qed.

Lemma reasoning_get k m text b : seqb k "reasoning_content" = false -> get k (applyAssistantReasoning m text b) = get k m.
Proof. intros K. unfold applyAssistantReasoning. repeat split_match; rewrite ?get_put, ?K; done. Qed.

Lemma answered_tools ids : forall outputs, length outputs = length ids ->
  well_answered ids (map (fun a => tool_message (fst a) (snd a)) (zip ids outputs)) = true.
Proof.
  induction ids as [|id ids IH]; intros [|o os] L; try done. cbn [zip zip_with map well_answered fst snd]. rewrite IH by (cbn in L; lia).
  rewrite andb_true_r. change (answers (tool_message id o) id) with (seqb id id). by rewrite seqb_refl.
Qed.

Lemma tools_no_calls (l : list (string * string)) : concat (map msg_calls (map (fun a => tool_message (fst a) (snd a)) l)) = [].
Proof. by induction l. Qed.

Lemma flush_spec r : round_inv r ->
  let r' := flushPendingToolCalls outs thinking r in round_inv r' /\ rn_calls r' = [] /\ ids_of r' = ids_of r.
Proof.
  intros [M C]. unfold flushPendingToolCalls. destruct (rn_calls r) as [|tc calls] eqn:Ec; [split_and!; [by split; rewrite ?Ec|by rewrite Ec|done]|].
  destruct (answered_calls (tc :: calls) C) as (os & -> & L). destruct os as [|o os]; [done|]. cbn zeta.
  set (z := zip (zip (tc :: calls) (map call_id (tc :: calls))) (o :: os)).
  assert (map (fun a => fst (fst a)) z = tc :: calls) as E1.
  { unfold z. clear z. revert L. generalize (tc :: calls) as cs, (o :: os) as l. induction cs as [|c cs IH]; intros [|x l] L; try done. cbn. f_equal. apply IH. cbn in L. lia. }
  assert (map (fun a => tool_message (snd (fst a)) (snd a)) z = map (fun a => tool_message (fst a) (snd a)) (zip (map call_id (tc :: calls)) (o :: os))) as E2.
  { unfold z. clear. generalize (tc :: calls) as cs, (o :: os) as l. induction cs as [|c cs IH]; intros [|x l]; try done. cbn. f_equal. apply IH. }
  destruct z as [|z0 zr] eqn:Ez; [done|]. rewrite <- Ez in *. clear Ez z0 zr. rewrite E1, E2. cbn [rn_messages rn_calls rn_text rn_reasoning rn_answered rn_mapper].
  set (msg := applyAssistantReasoning _ _ _).
  assert (get "role" msg = Some (JStr "assistant") /\ get "tool_calls" msg = Some (JArr (tc :: calls))) as [R T].
  { unfold msg. rewrite !reasoning_get by done. by destruct (is_empty _). }
  assert (msg_calls (JObj msg) = map call_id (tc :: calls)) as Mc by (unfold msg_calls; by rewrite T).
  split_and!.
  - split; cbn; [|constructor]. rewrite well_answered_app by done. rewrite well_answered_cons, Mc. unfold msg_role, get_str. rewrite R. cbn [str as_string default from_option id].
    refine (answered_tools (map call_id (tc :: calls)) (o :: os) _). by rewrite length_map.
  - done.
  - unfold ids_of. cbn. rewrite app_nil_r, map_app, concat_app. cbn [map concat]. by rewrite Mc, tools_no_calls, app_nil_r, Ec.
Qed.

Lemma emit_spec r m : plain_item (JObj m) = true -> round_inv r -> rn_calls r = [] ->
  let r' := emit_message thinking r m in round_inv r' /\ rn_calls r' = [] /\ ids_of r' = ids_of r.
Proof.
  intros P [M C] Ec. cbn in P. apply andb_true_iff in P as [P1 P2]. apply negb_true_iff in P1, P2. apply bool_decide_eq_false in P1.
  unfold emit_message. destruct (get "tool_calls" m) eqn:T; [by destruct P1|]. cbn zeta. destruct (_ && _ && _); [done|].
  set (role := openai_role (get_str "role" m)).
  assert (seqb role "tool" = false) as R.
  { unfold role, openai_role. destruct (_ || _); [done|]. destruct (seqb _ "assistant"); [done|]. by destruct (negb _). }
  set (msg0 := copy_text "tool_call_id" m _).
  assert (get "role" msg0 = Some (JStr role) /\ get "tool_calls" msg0 = None) as [R0 T0].
  { unfold msg0, copy_text. repeat split_match; rewrite ?get_put; done. }
  assert (exists msg r1, (if seqb role "assistant" then (applyAssistantReasoning msg0 (rn_reasoning r) thinking, r <| rn_reasoning := "" |>) else (msg0, r)) = (msg, r1) /\
    get "role" msg = Some (JStr role) /\ get "tool_calls" msg = None /\ rn_messages r1 = rn_messages r /\ rn_calls r1 = rn_calls r) as (msg & r1 & -> & R1 & T1 & M1 & C1).
  { destruct (seqb role "assistant").
    - exists (applyAssistantReasoning msg0 (rn_reasoning r) thinking), (r <| rn_reasoning := "" |>). by rewrite !reasoning_get.
    - by exists msg0, r. }
  assert (msg_calls (JObj msg) = []) as Mc by (unfold msg_calls; by rewrite T1).
  split_and!.
  - split; cbn; [|by rewrite C1]. rewrite M1, well_answered_app by done. rewrite well_answered_cons, Mc. unfold msg_role, get_str. rewrite R1.
    cbn [str as_string default from_option id]. by rewrite R.
  - cbn. by rewrite C1.
  - unfold ids_of. cbn. rewrite M1, C1, map_app, concat_app. cbn [map concat]. rewrite Mc. by rewrite !app_nil_r.
Qed.

Lemma add_call_spec r id name args : is_Some (outs !! id) -> round_inv r ->
  let r' := r <| rn_calls := rn_calls r ++ [chat_tool_call id name args] |> in round_inv r' /\ ids_of r' = ids_of r ++ [id].
Proof.
  intros H [M C]. split; [split; [done|]|].
  - cbn. apply Forall_app. split; [done|]. by apply Forall_singleton.
  - unfold ids_of. cbn. by rewrite map_app, app_assoc.
Qed.

Lemma inv_frame r r' : round_inv r -> rn_messages r' = rn_messages r -> rn_calls r' = rn_calls r -> round_inv r' /\ ids_of r' = ids_of r.
Proof. intros [M C] E1 E2. unfold ids_of. split; [split|]; by rewrite ?E1, ?E2. Qed.

Lemma item_name_frame r m : let '(r', _) := item_name r m in rn_messages r' = rn_messages r /\ rn_calls r' = rn_calls r.
Proof. unfold item_name. cbn zeta. destruct (is_empty _); [done|]. by destruct (SanitizeAndRegister _ _ _). Qed.

Lemma add_item_spec r item : plain_item item = true -> round_inv r ->
  round_inv (add_item outs thinking r item) /\ ids_of (add_item outs thinking r item) = ids_of r ++ match item_call outs item with Some id => [id] | None => [] end.
Proof.
  intros P I. destruct item as [| | | | |m]; try (cbn; by rewrite app_nil_r). unfold add_item, item_call. cbn zeta.
  destruct (seqb (get_str "type" m) "reasoning") eqn:T0.
  { sbool. rewrite T0. cbn. rewrite app_nil_r. destruct (is_empty _); [done|]. by apply inv_frame. }
  destruct (seqb (get_str "type" m) "function_call") eqn:T1; cbn [orb].
  { unfold add_function_call. destruct (outs !! responseItemCallID m) eqn:O; [|cbn; by rewrite app_nil_r].
    pose proof (item_name_frame r m) as F. destruct (item_name r m) as [r1 name]. destruct F as [F1 F2].
    destruct (inv_frame r r1 I F1 F2) as [I1 E1]. rewrite <- E1. cbn. by apply add_call_spec. }
  destruct (seqb (get_str "type" m) "custom_tool_call") eqn:T2.
  { unfold add_custom_call. generalize (Marshal (JObj [("patch", JStr (get_str "input" m))])) as args. intros args. destruct (outs !! responseItemCallID m) eqn:O; [|cbn; by rewrite app_nil_r].
    pose proof (item_name_frame r m) as F. destruct (item_name r m) as [r1 name]. destruct F as [F1 F2].
    set (r2 := r1 <| rn_mapper := RegisterCustom (rn_mapper r1) name |>). destruct (inv_frame r r2 I F1 F2) as [I1 E1]. rewrite <- E1.
    rewrite bool_decide_eq_true_2 by done. exact (add_call_spec r2 _ name args (mk_is_Some _ _ O) I1). }
  cbn. rewrite app_nil_r. destruct (is_output _).
  { unfold add_output. destruct (_ || _ || _); [|done]. pose proof (flush_spec r I) as (A & _ & B). done. }
  unfold add_message_item. destruct (_ || _ || _).
  - destruct (flush_spec r I) as (A & B & E). destruct (emit_spec _ m P A B) as (A' & _ & E'). split; [done|]. by rewrite E', E.
  - destruct (is_empty _); [done|]. by apply inv_frame.
Qed.
End answered.

Lemma tool_outputs_empty items : tool_outputs items !! "" = None.
Proof.
  unfold tool_outputs. assert ((∅ : gmap string string) !! "" = None) as E by done. revert E. generalize (∅ : gmap string string) as outs.
  induction items as [|it items IH]; intros outs E; [done|]. cbn [fold_left]. apply IH. destruct it as [| | | | |m]; try done. unfold index_output.
  destruct (is_output _); [|done]. destruct (is_empty (responseItemCallID m)) eqn:I; [done|]. cbn. sbool. by rewrite lookup_insert_ne.
Qed.

Lemma well_answered_system payload : well_answered [] (system_messages payload) = true /\ concat (map msg_calls (system_messages payload)) = [].
Proof. unfold system_messages. destruct (as_string _); [destruct (is_empty _)|]; done. Qed.

Lemma responses_options_messages v p : get "messages" (responses_options (put "messages" v p)) = Some v.
Proof.
  unfold responses_options. cbn zeta. cbn [fold_left responses_only].
  assert (forall k, seqb "messages" k = false -> forall p, get "messages" (del k p) = get "messages" p) as D by (intros k E q; apply get_del_ne; by apply seqb_neq).
  repeat first [rewrite D by done | rewrite get_put | split_match]; rewrite ?seqb_refl; try done.
Qed.

Lemma responses_tools_messages p m : get "messages" (fst (responses_tools p m)) = get "messages" p.
Proof.
  unfold responses_tools. destruct (as_list _); [|done]. destruct (fold_left _ _ _) as [m' tl]. cbn [fst].
  destruct tl; [by rewrite !get_del_ne|by rewrite get_put].
Qed.

(** C13: a Responses conversation reaches a Chat endpoint with every tool call answered: in
    the messages made from the input items, the calls of an assistant message are answered
    in order by the tool messages right after it and there are no other tool
    messages, and the calls sent are exactly the calls of the conversation that have an output, each
    once and in order - wherever the outputs, messages and reasoning items stand.
    (Items that bring Chat tool calls or tool messages of their own are passed on as they are and excluded.) *)
Theorem responses_calls_answered (payload : list (string * json)) (items : list json)
  (Hinput : get "input" payload = Some (JArr items)) (Hplain : forallb plain_item items = true) :
  let msgs := messages_of (fst (responses_to_chat payload)) in
  well_answered [] msgs = true /\ concat (map msg_calls msgs) = omap (item_call (tool_outputs items)) items.
Proof.
  assert (messages_of (fst (responses_to_chat payload)) = fst (input_messages payload)) as ->.
  { unfold responses_to_chat, messages_of. destruct (input_messages payload) as [ms mp]. cbn [fst].
    rewrite responses_tools_messages, responses_options_messages. by destruct ms. }
  unfold input_messages. rewrite Hinput. cbn zeta. set (outs := tool_outputs items).
  assert (outs !! "" = None) as Ho by apply tool_outputs_empty. clearbody outs. set (th := _ || _). clearbody th.
  set (r0 := mkRound _ _ _ _ _ _). destruct (well_answered_system payload) as [S0 S1].
  assert (round_inv outs r0) as I0 by (split; [done|constructor]).
  assert (forall its r, round_inv outs r -> forallb plain_item its = true ->
    round_inv outs (fold_left (add_item outs th) its r) /\ ids_of (fold_left (add_item outs th) its r) = ids_of r ++ omap (item_call outs) its) as F.
  { induction its as [|it its IH]; intros r I P; [cbn; by rewrite app_nil_r|]. cbn [forallb fold_left] in *. apply andb_true_iff in P as [P1 P].
    destruct (add_item_spec outs th Ho r it P1 I) as [I1 E1]. destruct (IH _ I1 P) as [I2 E2]. split; [done|]. rewrite E2, E1, <- app_assoc. f_equal.
    cbn [omap list_omap]. by destruct (item_call outs it). }
  destruct (F items r0 I0 Hplain) as [I1 E1]. set (r1 := fold_left _ _ _) in *. destruct (flush_spec outs th Ho r1 I1) as ([M _] & C & E).
  cbn [fst]. split; [exact M|]. rewrite E1 in E. unfold ids_of in E at 1. rewrite C in E. cbn in E. rewrite app_nil_r in E. rewrite E.
  unfold ids_of, r0. cbn. by rewrite S1.
Qed.

Definition demo_items : list json :=
  [JObj [("role", JStr "user"); ("content", JStr "fix it")]; JObj [("type", JStr "reasoning"); ("summary", JArr [JObj [("text", JStr "think")]])];
   JObj [("type", JStr "function_call"); ("call_id", JStr "c1"); ("name", JStr "read"); ("namespace", JStr "fs"); ("arguments", JStr "{}")];
   JObj [("role", JStr "assistant"); ("content", JStr "reading")];
   JObj [("type", JStr "function_call"); ("call_id", JStr "c2"); ("name", JStr "lost"); ("arguments", JStr "{}")];
   JObj [("type", JStr "custom_tool_call"); ("call_id", JStr "c3"); ("name", JStr "apply_patch"); ("input", JStr "+x")];
   JObj [("type", JStr "custom_tool_call_output"); ("call_id", JStr "c3"); ("output", JStr "done")];
   JObj [("type", JStr "function_call_output"); ("call_id", JStr "c1"); ("output", JStr "text")]].

Lemma responses_calls_answered_witness :
  concat (map msg_calls (messages_of (fst (responses_to_chat [("input", JArr demo_items)])))) = ["c1"; "c3"].
Proof. exact (proj2 (responses_calls_answered [("input", JArr demo_items)] demo_items eq_refl eq_refl)). Defined.

(** * Tools keep their names *)

(** Documents whose strings have no NUL. *)
Fixpoint nul_clean (j : json) : bool :=
  match j with
  | JStr s => bool_decide (nul ∉ ascii_list s)
  | JArr l => forallb nul_clean l
  | JObj m => forallb (fun f => nul_clean (snd f)) m
  | _ => true
  end.

Lemma clean_get k v m : nul_clean (JObj m) = true -> get k m = Some v -> nul_clean v = true.
Proof.
  induction m as [|[k' v'] m IH]; [done|]. cbn. intros C. apply andb_true_iff in C as [C1 C]. destruct (seqb k k'); [by intros [= <-]|by apply IH].
Qed.
Lemma clean_str k m : nul_clean (JObj m) = true -> nul_free (get_str k m).
Proof.
  intros C. unfold get_str, str. destruct (get k m) as [v|] eqn:G; [|apply not_elem_of_nil]. apply (clean_get k v m C) in G.
  destruct v; try apply not_elem_of_nil. cbn in *. by apply bool_decide_eq_true in G.
Qed.
Lemma clean_del k m : nul_clean (JObj m) = true -> nul_clean (JObj (del k m)) = true.
Proof. apply forallb_del. Qed.
Lemma clean_put k v m : nul_clean v = true -> nul_clean (JObj m) = true -> nul_clean (JObj (put k v m)) = true.
Proof. cbn. intros -> C. by apply forallb_del. Qed.
Lemma clean_list k l m : nul_clean (JObj m) = true -> as_list (get k m) = Some l -> Forall (fun j => nul_clean j = true) l.
Proof.
  intros C E. destruct (get k m) as [[]|] eqn:G; try done. injection E as ->. apply (clean_get k _ m C) in G. cbn in G.
  rewrite Forall_forall. rewrite forallb_forall in G. intros j Hj. apply G. by apply list_elem_of_In.
Qed.
#[local] Hint Resolve clean_del clean_put : gw.

Lemma clean_put_all src : forall dst, nul_clean (JObj src) = true -> nul_clean (JObj dst) = true -> nul_clean (JObj (put_all src dst)) = true.
Proof.
  induction src as [|[k v] src IH]; intros dst C D; [done|]. cbn in C. apply andb_true_iff in C as [C1 C]. apply IH; [done|]. by apply clean_put.
Qed.
Lemma clean_put_new src : forall dst, nul_clean (JObj src) = true -> nul_clean (JObj dst) = true -> nul_clean (JObj (put_new src dst)) = true.
Proof.
  induction src as [|[k v] src IH]; intros dst C D; [done|]. cbn in C. apply andb_true_iff in C as [C1 C]. cbn [put_new fold_left]. apply IH; [done|].
  destruct (bool_decide _); [done|]. by apply clean_put.
Qed.
Lemma clean_filter (p : string * json -> bool) m : nul_clean (JObj m) = true -> nul_clean (JObj (List.filter p m)) = true.
Proof. induction m as [|f m IH]; [done|]. cbn. intros C. apply andb_true_iff in C as [C1 C]. destruct (p f); [|by apply IH]. apply andb_true_iff. split; [done|by apply IH]. Qed.
Lemma clean_copy src ks : forall dst, nul_clean (JObj src) = true -> nul_clean (JObj dst) = true -> nul_clean (JObj (fold_left (copy_field src) ks dst)) = true.
Proof.
  induction ks as [|k ks IH]; intros dst C D; [done|]. cbn [fold_left]. apply IH; [done|]. unfold copy_field. destruct (get k src) eqn:G; [|done].
  apply clean_put; [by apply (clean_get k _ src)|done].
Qed.

Lemma nul_clean_str s : nul_free s -> nul_clean (JStr s) = true.
Proof. intros H. by apply bool_decide_eq_true_2. Qed.

Lemma clean_single k v : nul_clean v = true -> nul_clean (JObj [(k, v)]) = true.
Proof. intros C. apply andb_true_iff. done. Qed.

Lemma clean_patch_schema m : nul_clean (JObj m) = true -> nul_clean (JObj (with_patch_schema m)) = true.
Proof.
  intros C. unfold with_patch_schema.
  assert (nul_clean (JObj (sub_map "parameters" m)) = true) as P.
  { unfold sub_map. destruct (as_map (get "parameters" m)) as [p|] eqn:E; [|done]. destruct (get "parameters" m) as [[]|] eqn:G; try done.
    injection E as ->. by apply (clean_get _ _ m C) in G. }
  set (m1 := if bool_decide _ then m else _). assert (nul_clean (JObj m1) = true) as C1 by (unfold m1; destruct (bool_decide _); [done|by apply clean_put]).
  destruct (sub_map "properties" _); [|done]. apply clean_put; [|done]. repeat (apply clean_put; [reflexivity|]). done.
Qed.

Lemma clean_std tool std : nul_clean (JObj tool) = true -> BuildStandardTool tool = Some std -> nul_clean (JObj std) = true.
Proof.
  intros C. unfold BuildStandardTool. cbn zeta. pose proof (clean_str "type" tool C) as Ct. pose proof (clean_str "name" tool C) as Cn.
  assert (exists ot, (if is_empty (get_str "type" tool) then if is_empty (get_str "name" tool) then None else Some "function" else Some (get_str "type" tool)) = ot /\
    forall t, ot = Some t -> nul_free t) as (ot & -> & Ht).
  { eexists. split; [done|]. intros t. destruct (is_empty (get_str "type" tool)); [destruct (is_empty (get_str "name" tool)); [done|]|]; intros [= <-]; [|done]. by apply (bool_decide_eq_true_1 _). }
  destruct ot as [t|]; [|done]. specialize (Ht t eq_refl).
  assert (nul_free (if seqb t "custom" then "function" else t)) as Htt by (destruct (seqb t "custom"); [by apply (bool_decide_eq_true_1 _)|done]).
  apply nul_clean_str in Ht as Hts, Htt as Htts.
  destruct (negb _). { intros [= <-]. apply clean_copy; [done|]. by apply clean_single. }
  destruct (as_map (get t tool)) as [inner|] eqn:Ei.
  - assert (nul_clean (JObj inner) = true) as Ci. { destruct (get t tool) as [[]|] eqn:G; try done. injection Ei as ->. by apply (clean_get _ _ tool C) in G. }
    destruct (_ && _); [done|]. intros [= <-]. apply clean_put_new; [by apply clean_filter|]. apply clean_put_all; [done|]. by apply clean_single.
  - intros [= <-].
    set (flat := put "name" _ _). assert (nul_clean (JObj flat) = true) as Cf; [|destruct (seqb _ "apply_patch"); [by apply clean_patch_schema|done]].
    unfold flat. apply clean_put; [|apply clean_put; [done|auto with gw]]. apply nul_clean_str. by destruct (is_empty (get_str "name" tool)).
Qed.

(** ** The mapper only grows *)

Definition grown (m m' : ToolNameMapper) : Prop := mapper_inv m' /\ mapper_grows m m'.

Lemma grown_refl m : mapper_inv m -> grown m m.
Proof. intros I. split; [done|]. unfold mapper_grows. done. Qed.
Lemma grown_trans m1 m2 m3 : grown m1 m2 -> grown m2 m3 -> grown m1 m3.
Proof. intros [_ G1] [I G2]. split; [done|]. unfold mapper_grows in *. by transitivity (rev_names m2). Qed.

Lemma custom_grown m name : mapper_inv m -> grown m (RegisterCustom m name).
Proof. intros [F U]. split; [by split|]. unfold mapper_grows. done. Qed.
Lemma register_grown m ns n : mapper_inv m -> nul_free ns -> grown m (fst (SanitizeAndRegister m ns n)).
Proof. intros I N. pose proof (register_inv m ns n I N) as R. destruct (SanitizeAndRegister m ns n) as [m' s]. by destruct R as (? & ? & _). Qed.

Lemma wrap_flat_grown tool m : mapper_inv m -> nul_clean (JObj tool) = true -> grown m (fst (WrapFlatToolToNestedOpenAI tool m)).
Proof.
  intros I C. unfold WrapFlatToolToNestedOpenAI. cbn zeta. set (inner := del "type" tool).
  assert (nul_free (get_str "namespace" inner)) as Nf by by apply clean_str, clean_del.
  set (m1 := if _ && _ then RegisterCustom m _ else m).
  assert (grown m m1) as G1 by (unfold m1; destruct (_ && _); [by apply custom_grown|by apply grown_refl]).
  destruct (is_empty (get_str "namespace" inner)); [done|]. destruct (is_empty (get_str "name" inner)); [done|].
  pose proof (register_grown m1 (get_str "namespace" inner) (get_str "name" inner) (proj1 G1) Nf) as G2.
  destruct (SanitizeAndRegister m1 _ _) as [m2 s]. by eapply grown_trans.
Qed.

Notation tool_acc := (ToolNameMapper * list json)%type.
(** More tools, under names that were not given before. *)
Definition acc_grown (a a' : tool_acc) : Prop := grown (fst a) (fst a') /\ snd a ⊆ snd a'.
Lemma acc_grown_trans a b c : acc_grown a b -> acc_grown b c -> acc_grown a c.
Proof. intros [G1 S1] [G2 S2]. split; [by eapply grown_trans|set_solver]. Qed.

Lemma wrap_tool_grown acc ns tool : mapper_inv (fst acc) -> nul_free ns -> nul_clean (JObj tool) = true -> acc_grown acc (wrap_tool acc ns tool).
Proof.
  intros I N C. unfold wrap_tool. destruct (BuildStandardTool tool) as [std|] eqn:B; [|split; [by apply grown_refl|done]].
  destruct (is_function std); [|split; [by apply grown_refl|done]]. cbn zeta. set (std1 := if is_empty ns then std else _).
  assert (nul_clean (JObj std1) = true) as C1.
  { pose proof (clean_std tool std C B). unfold std1. destruct (is_empty ns); [done|]. apply clean_put; [by apply nul_clean_str|done]. }
  pose proof (wrap_flat_grown std1 (fst acc) I C1) as G. destruct (WrapFlatToolToNestedOpenAI std1 (fst acc)) as [m w]. split; [done|cbn; set_solver].
Qed.

Definition sub_tool (ns : string) (acc : tool_acc) (st : json) : tool_acc := match st with JObj sm => wrap_tool acc ns sm | _ => acc end.

Lemma fold_grown {A} (f : tool_acc -> A -> tool_acc) l : (forall acc x, x ∈ l -> mapper_inv (fst acc) -> acc_grown acc (f acc x)) ->
  forall acc, mapper_inv (fst acc) -> acc_grown acc (fold_left f l acc).
Proof.
  induction l as [|x l IH]; intros H acc I; [split; [by apply grown_refl|done]|]. cbn [fold_left].
  pose proof (H acc x ltac:(left) I) as G. eapply acc_grown_trans; [exact G|]. apply IH; [intros ???; apply H; by right|apply G].
Qed.

Lemma sub_tools_grown ns subs acc : mapper_inv (fst acc) -> nul_free ns -> Forall (fun j => nul_clean j = true) subs -> acc_grown acc (fold_left (sub_tool ns) subs acc).
Proof.
  intros I N F. apply fold_grown; [|done]. intros a x Hx Ia. rewrite Forall_forall in F. specialize (F x Hx).
  destruct x; try (split; [by apply grown_refl|done]). by apply wrap_tool_grown.
Qed.

Lemma nul_free_empty : nul_free "".
Proof. apply not_elem_of_nil. Qed.

Lemma add_tool_grown acc t : mapper_inv (fst acc) -> nul_clean t = true -> acc_grown acc (add_tool acc t).
Proof.
  intros I C. destruct t as [| | | | |m]; try (split; [by apply grown_refl|done]). unfold add_tool. destruct (seqb _ "namespace").
  - apply sub_tools_grown; [done|by apply clean_str|]. destruct (as_list (get "tools" m)) eqn:E; [by apply (clean_list "tools" _ m)|constructor].
  - apply wrap_tool_grown; [done|apply nul_free_empty|done].
Qed.

(** ** History *)

Lemma item_name_grown r m : mapper_inv (rn_mapper r) -> nul_clean (JObj m) = true -> grown (rn_mapper r) (rn_mapper (fst (item_name r m))).
Proof.
  intros I C. unfold item_name. cbn zeta. destruct (is_empty _); [by apply grown_refl|].
  pose proof (register_grown (rn_mapper r) (get_str "namespace" m) (get_str "name" m) I (clean_str _ _ C)) as G. by destruct (SanitizeAndRegister _ _ _).
Qed.

Lemma flush_mapper outs th r : rn_mapper (flushPendingToolCalls outs th r) = rn_mapper r.
Proof. unfold flushPendingToolCalls. destruct (rn_calls r); [done|]. cbn zeta. by destruct (omap _ _). Qed.

Lemma add_item_mapper outs th r item : mapper_inv (rn_mapper r) -> nul_clean item = true -> mapper_inv (rn_mapper (add_item outs th r item)).
Proof.
  intros I C. destruct item as [| | | | |m]; try done. unfold add_item. cbn zeta.
  destruct (seqb _ "reasoning"); [by destruct (is_empty _)|]. pose proof (item_name_grown r m I C) as [G _].
  destruct (seqb _ "function_call"). { unfold add_function_call. destruct (outs !! _); [|done]. by destruct (item_name r m). }
  destruct (seqb _ "custom_tool_call").
  { unfold add_custom_call. destruct (outs !! _); [|done]. destruct (item_name r m) as [r1 n]. exact (proj1 (custom_grown _ n G)). }
  destruct (is_output _). { unfold add_output. destruct (_ || _ || _); [by rewrite flush_mapper|done]. }
  unfold add_message_item. destruct (_ || _ || _); [|by destruct (is_empty _)]. unfold emit_message. cbn zeta.
  destruct (_ && _ && _); [by rewrite flush_mapper|]. destruct (seqb _ "assistant"); cbn; by rewrite flush_mapper.
Qed.

Lemma mapper_inv_new : mapper_inv NewToolNameMapper.
Proof. split; [done|intros s []; done]. Qed.

Lemma input_messages_mapper payload : nul_clean (JObj payload) = true -> mapper_inv (snd (input_messages payload)).
Proof.
  intros C. pose proof mapper_inv_new as I0. unfold input_messages. destruct (get "input" payload) as [[]|] eqn:G; try done.
  apply (clean_get _ _ payload C) in G. cbn in G. cbn zeta. cbn [snd]. rewrite flush_mapper.
  set (outs := tool_outputs l). clearbody outs. set (th := _ || _). clearbody th. set (r := mkRound _ _ _ _ _ _).
  assert (mapper_inv (rn_mapper r)) as I by done. clearbody r. clear I0. revert r I. rewrite forallb_forall in G.
  induction l as [|it l IH]; intros r I; [done|]. cbn [fold_left]. apply IH; [intros x Hx; apply G; by right|]. apply add_item_mapper; [done|]. apply G. by left.
Qed.

(** ** Declared tools *)

(** A flat function tool. *)
Definition plain_function (name : string) (tool : obj) : Prop :=
  get_str "type" tool = "function" /\ as_map (get "function" tool) = None /\ get_str "name" tool = name /\ is_empty name = false.

Lemma plain_function_std name tool : plain_function name tool ->
  exists std, BuildStandardTool tool = Some std /\ get "type" std = Some (JStr "function") /\ get "name" std = Some (JStr name).
Proof.
  intros (T & F & Nm & Ne). unfold BuildStandardTool. rewrite T. cbn zeta. cbn [is_empty]. change (is_empty "function") with false. cbn match.
  change (seqb "function" "custom") with false. cbn match. change (negb (needs_name "function")) with false. cbn match. rewrite F, Nm, Ne.
  set (flat := put "name" _ _).
  assert (get "type" flat = Some (JStr "function") /\ get "name" flat = Some (JStr name)) as [H1 H2] by (unfold flat; by rewrite !get_put).
  eexists. split; [done|]. destruct (seqb name "apply_patch"); [|done]. unfold with_patch_schema.
  destruct (sub_map "properties" _), (bool_decide _); by rewrite ?get_put.
Qed.

Definition declared (acc : tool_acc) (ns name : string) : Prop :=
  exists w s, JObj w ∈ snd acc /\ get_str "name" (sub_map "function" w) = s /\ safe_name s = true /\ rev_names (fst acc) !! s = Some (ns, name).

Lemma declared_grown a a' ns name : acc_grown a a' -> declared a ns name -> declared a' ns name.
Proof.
  intros [[_ G] S] (w & s & W & E & Sf & R). exists w, s. split_and!; [by apply S|done|done|]. by apply (lookup_weaken (rev_names (fst a))).
Qed.

Lemma wrap_tool_declares acc ns name tool : mapper_inv (fst acc) -> nul_free ns -> is_empty ns = false -> plain_function name tool ->
  declared (wrap_tool acc ns tool) ns name.
Proof.
  intros I N Ns P. destruct (plain_function_std name tool P) as (std & B & Ty & Nm). destruct P as (_ & _ & _ & Ne).
  unfold wrap_tool. rewrite B. unfold is_function. rewrite Ty. change (seqb "function" "function") with true. cbn match. rewrite Ns. cbn zeta.
  unfold WrapFlatToolToNestedOpenAI. cbn zeta. set (inner := del "type" (put "namespace" (JStr ns) std)).
  assert (get_str "type" (put "namespace" (JStr ns) std) = "function") as -> by (unfold get_str; by rewrite get_put, Ty).
  assert (get_str "name" inner = name) as -> by (unfold inner, get_str; by rewrite get_del_ne, get_put, Nm).
  assert (get_str "namespace" inner = ns) as -> by (unfold inner, get_str; by rewrite get_del_ne, get_put).
  change (is_empty "function") with false. cbn match. rewrite Ns, Ne.
  set (m1 := if _ && _ then RegisterCustom (fst acc) name else _).
  assert (mapper_inv m1) as I1 by (unfold m1; destruct (_ && _); [by apply custom_grown|done]).
  pose proof (register_inv m1 ns name I1 N) as R. destruct (SanitizeAndRegister m1 ns name) as [m2 s]. destruct R as (_ & _ & R & Sf).
  exists (put "function" (JObj (del "namespace" (put "name" (JStr s) inner))) [("type", JStr "function")]), s. split_and!; [|done..].
  cbn [snd]. apply elem_of_app. right. by apply list_elem_of_singleton.
Qed.

Lemma fold_declares {A} (f : tool_acc -> A -> tool_acc) l x ns name : x ∈ l ->
  (forall acc y, y ∈ l -> mapper_inv (fst acc) -> acc_grown acc (f acc y)) -> (forall acc, mapper_inv (fst acc) -> declared (f acc x) ns name) ->
  forall acc, mapper_inv (fst acc) -> declared (fold_left f l acc) ns name.
Proof.
  intros Hx G D acc I. apply list_elem_of_split in Hx as (l1 & l2 & ->). rewrite fold_left_app. cbn [fold_left].
  assert (acc_grown acc (fold_left f l1 acc)) as [[I1 _] _] by (apply fold_grown; [intros ???; apply G; set_solver|done]).
  assert (mapper_inv (fst (f (fold_left f l1 acc) x))) as I2 by (apply G; [set_solver|done]).
  apply (declared_grown (f (fold_left f l1 acc) x)); [|by apply D]. apply fold_grown; [intros ???; apply G; set_solver|done].
Qed.

Lemma responses_options_tools v p : get "tools" (responses_options (put "messages" v p)) = get "tools" p.
Proof.
  unfold responses_options. cbn zeta. cbn [fold_left responses_only].
  assert (forall k, seqb "tools" k = false -> forall p, get "tools" (del k p) = get "tools" p) as D by (intros k E q; apply get_del_ne; by apply seqb_neq).
  repeat first [rewrite D by done | rewrite get_put | split_match]; try done.
Qed.

(** the tools of a namespace survive the trip through a Chat endpoint: every function
    declared in a namespace of a Responses request is offered to the endpoint under a name
    of letters, digits, [_] and [-], and when the endpoint calls that name, the call
    given to the client carries the original namespace and name - whatever other tools and earlier calls
    the request contains.  (No string of the request contains NUL.) *)
Theorem namespaced_tools_restored (N : JsonNum) (payload : list (string * json)) (tools subs : list json)
  (tm sm : list (string * json)) (name : string)
  (Hclean : nul_clean (JObj payload) = true) (Htools : get "tools" payload = Some (JArr tools))
  (Hspace : JObj tm ∈ tools /\ get_str "type" tm = "namespace" /\ is_empty (get_str "name" tm) = false)
  (Hsub : get "tools" tm = Some (JArr subs) /\ JObj sm ∈ subs /\ plain_function name sm) :
  let '(doc, mapper) := responses_to_chat payload in
  exists w, JObj w ∈ default [] (as_list (get "tools" doc)) /\
    let s := get_str "name" (sub_map "function" w) in
    safe_name s = true /\
    forall id arguments, exists item, call_item N (Some mapper) (mkCall id "function" s arguments) = JObj item /\
      get_str "namespace" item = get_str "name" tm /\ get_str "name" item = name /\ get_str "call_id" item = id.
Proof.
  destruct Hspace as (Ht & Ty & Ns), Hsub as (Hs & Hm & P).
  unfold responses_to_chat. pose proof (input_messages_mapper payload Hclean) as I0. destruct (input_messages payload) as [msgs mp]. cbn [snd] in I0.
  unfold responses_tools. rewrite responses_options_tools, Htools. cbn [as_list].
  pose proof (clean_list "tools" tools payload Hclean ltac:(by rewrite Htools)) as Ct.
  assert (declared (fold_left add_tool tools (mp, [])) (get_str "name" tm) name) as D.
  { rewrite Forall_forall in Ct. apply (fold_declares add_tool tools (JObj tm)); [done| | |done].
    - intros acc y Hy I. apply add_tool_grown; [done|by apply Ct].
    - specialize (Ct _ Ht). intros acc I. unfold add_tool. rewrite Ty. change (seqb "namespace" "namespace") with true. cbn match. rewrite Hs. cbn [as_list default from_option id].
      pose proof (clean_list "tools" subs tm Ct ltac:(by rewrite Hs)) as Cs. rewrite Forall_forall in Cs. pose proof (clean_str "name" tm Ct) as Nf.
      apply (fold_declares (sub_tool (get_str "name" tm)) subs (JObj sm)); [done| | |done].
      + intros a y Hy Ia. specialize (Cs y Hy). destruct y; try (split; [by apply grown_refl|done]). by apply wrap_tool_grown.
      + intros a Ia. by apply wrap_tool_declares. }
  destruct (fold_left add_tool tools (mp, [])) as [m l]. destruct D as (w & s & W & E & Sf & R). cbn [fst snd] in *.
  destruct l as [|t0 l]; [by apply not_elem_of_nil in W|]. exists w. rewrite get_put. change (seqb "tools" "tools") with true. cbn [as_list default from_option id]. split; [done|].
  cbn zeta. rewrite E. split; [done|]. intros id arguments. unfold call_item, restored_name, Restore. cbn [fc_Name fc_ID]. rewrite R.
  destruct (IsCustom (Some m) name); eexists; (split; [done|]); done.
Qed.

Definition demo_namespace : obj :=
  [("type", JStr "namespace"); ("name", JStr "fs");
   ("tools", JArr [JObj [("type", JStr "function"); ("name", JStr "read file"); ("parameters", JObj [])]])].

Lemma namespaced_tools_restored_witness : exists w,
  JObj w ∈ default [] (as_list (get "tools" (fst (responses_to_chat [("tools", JArr [JObj demo_namespace])])))) /\
  safe_name (get_str "name" (sub_map "function" w)) = true.
Proof.
  pose proof (namespaced_tools_restored demo_num [("tools", JArr [JObj demo_namespace])] [JObj demo_namespace]
    [JObj [("type", JStr "function"); ("name", JStr "read file"); ("parameters", JObj [])]] demo_namespace
    [("type", JStr "function"); ("name", JStr "read file"); ("parameters", JObj [])] "read file" eq_refl eq_refl
    ltac:(split; [left|done]) ltac:(split; [done|split; [left|done]])) as H.
  destruct (responses_to_chat _) as [doc mapper]. destruct H as (w & W & S & _). exists w. split; [exact W|exact S].
Defined.

(** * What gets lost *)

(** A plain tool is not registered, so a tool of a namespace can be offered under its name;
    the call to the plain one is then given to the client as a call to the other. *)
Lemma plain_tool_confused :
  let '(doc, mapper) := responses_to_chat [("tools", JArr [JObj [("type", JStr "function"); ("name", JStr "fs_read")];
     JObj [("type", JStr "namespace"); ("name", JStr "fs"); ("tools", JArr [JObj [("type", JStr "function"); ("name", JStr "read")]])]])] in
  map (fun t => match t with JObj m => get_str "name" (sub_map "function" m) | _ => "" end) (default [] (as_list (get "tools" doc))) = ["fs_read"; "fs_read"] /\
  Restore mapper "fs_read" = ("fs", "read").
Proof. vm_compute. done. Qed.

(** A custom tool becomes a function and is not registered as custom, so its calls come back
    as function calls; written with an inner object it is dropped. *)
Lemma custom_tool_forgotten :
  IsCustom (Some (snd (responses_to_chat [("tools", JArr [JObj [("type", JStr "custom"); ("name", JStr "sed")]])]))) "sed" = false /\
  get "tools" (fst (responses_to_chat [("tools", JArr [JObj [("type", JStr "custom"); ("custom", JObj [("name", JStr "sed")])]])])) = None.
Proof. vm_compute. done. Qed.

(** The text of an answer that also calls tools does not reach the client. *)
Lemma answer_text_dropped N mapper id model text reasoning tc p q t :
  get "output" (match responses_response N mapper (mkChatResult id model [mkChatAnswer "assistant" text "" reasoning [tc] "tool_calls"] p q t) model 0 with JObj m => m | _ => [] end) =
  get "output" (match responses_response N mapper (mkChatResult id model [mkChatAnswer "assistant" "" "" reasoning [tc] "tool_calls"] p q t) model 0 with JObj m => m | _ => [] end).
Proof. reflexivity. Qed.
