(* ===== verification/TranslateResponsesMessages.v ===== *)
(** pkg/llm/translate/responses_messages.go: requests from the Responses to the Messages
    protocol and complete responses back. *)

From Stdlib Require Import Ascii.
From S2P Require Import Prelude GoFloat GoStrings GoTime GoJson GoPrint Matcher Policy Types Context Http Translate TranslateWire TranslateStream TranslateMessages TranslateResponses.

(** * Content *)

Definition extractResponsesText (v : option json) : string :=
  match v with
  | Some (JStr s) => s
  | Some (JArr l) => Join (omap (fun p => match p with JObj m => as_string (get "text" m) | _ => None end) l) newline
  | _ => ""
  end.

(** Blocks so far and warnings so far. *)
Notation noted := (list json * list string)%type.

Definition base64_source (media data : string) : json :=
  JObj [("type", JStr "image"); ("source", JObj [("type", JStr "base64"); ("media_type", JStr media); ("data", JStr data)])].
Definition url_source (url : string) : json := JObj [("type", JStr "image"); ("source", JObj [("type", JStr "url"); ("url", JStr url)])].

Section warnings.
(** [unicode.IsPrint], for the verb %q. *)
Context (IsPrint : list ascii -> bool).

Definition image_blocks (url : string) : noted :=
  if HasPrefix url "data:" then
    match cut_sep ";base64," "" (string_drop 5 url) with Some (media, data) => ([base64_source media data], []) | None => ([], []) end
  else if HasPrefix url "http://" || HasPrefix url "https://" then ([url_source url], [])
  else if is_empty url then ([], []) else ([], ["input_image with unsupported source dropped"]).

Definition part_blocks (p : json) : noted :=
  match p with
  | JObj m =>
      let t := get_str "type" m in
      if seqb t "input_text" || seqb t "output_text" || seqb t "text" then
        let s := get_str "text" m in if is_empty s then ([], []) else ([text_part s], [])
      else if seqb t "input_image" then image_blocks (get_str "image_url" m)
      else if is_empty t then ([], []) else ([], ["content part " +:+ Quote IsPrint t +:+ " dropped"])
  | _ => ([], [])
  end.

Definition responsesContentToBlocks (content : option json) : noted :=
  match content with
  | Some (JStr s) => (if is_empty s then [] else [text_part s], [])
  | Some (JArr l) => (concat (map (fun p => fst (part_blocks p)) l), concat (map (fun p => snd (part_blocks p)) l))
  | _ => ([], [])
  end.

(** * Items *)

(** A message: its role and its blocks. *)
Notation turn_blocks := (string * list json)%type.

Definition is_thinking (b : json) : bool := match b with JObj m => match get "type" m with Some (JStr t) => seqb t "thinking" | _ => false end | _ => false end.

(** [msgs]: the messages so far, last first. *)
Definition appendBlock (role : string) (msgs : list turn_blocks) (block : json) : list turn_blocks :=
  match msgs with
  | (r, content) :: rest =>
      if seqb r role then (r, if is_thinking block then block :: content else content ++ [block]) :: rest
      else (role, [block]) :: msgs
  | [] => [(role, [block])]
  end.

(** What an item adds: blocks for a role, a system text, warnings. *)
Definition item_blocks (N : JsonNum) (item : json) : string * list json * list string * list string :=
  match item with
  | JObj m =>
      let t0 := get_str "type" m in
      let role := get_str "role" m in
      let t := if is_empty t0 && negb (is_empty role) then "message" else t0 in
      if seqb t "message" then
        if seqb role "system" || seqb role "developer" then
          let text := extractResponsesText (get "content" m) in ("", [], if is_empty text then [] else [text], [])
        else if seqb role "user" || seqb role "assistant" then
          let '(blocks, warns) := responsesContentToBlocks (get "content" m) in (role, blocks, [], warns)
        else ("", [], [], ["message item with unknown role " +:+ Quote IsPrint role +:+ " dropped"])
      else if seqb t "function_call" then
        let name := get_str "name" m in
        if is_empty name then ("", [], [], ["function_call item without name dropped"])
        else
          let ns := get_str "namespace" m in
          let name := if is_empty ns then name else ns +:+ "." +:+ name in
          ("assistant", [tool_use_block (NormalizeToolUseID (responseItemCallID m)) name (call_input N (get_str "arguments" m))], [], [])
      else if seqb t "function_call_output" then
        ("user", [tool_result_block (NormalizeToolUseID (get_str "call_id" m)) (extractResponsesText (get "output" m))], [], [])
      else if seqb t "reasoning" then
        match responsesReasoningToThinking m with Some b => ("assistant", [JObj b], [], []) | None => ("", [], [], []) end
      else ("", [], [], ["input item type " +:+ Quote IsPrint t +:+ " dropped"])
  | _ => ("", [], [], [])
  end.

Record gathered := mkGathered { ga_messages : list turn_blocks; ga_system : list string; ga_warnings : list string }.

Definition gather (N : JsonNum) (g : gathered) (item : json) : gathered :=
  let '(role, blocks, sys, warns) := item_blocks N item in
  mkGathered (fold_left (appendBlock role) blocks (ga_messages g)) (ga_system g ++ sys) (ga_warnings g ++ warns).

Definition type_name (j : json) : string := match j with JBool _ => "bool" | JNum _ => "float64" | _ => "map[string]interface {}" end.

(** Messages in order, system texts and warnings. *)
Definition responsesInputToMessages (N : JsonNum) (input : option json) : (list turn_blocks * list string * list string) + goerror :=
  match input with
  | None | Some JNull => inr (errorf "missing input")
  | Some (JStr s) => if is_empty s then inr (errorf "empty input") else inl ([("user", [text_part s])], [], [])
  | Some (JArr items) => let g := fold_left (gather N) items (mkGathered [] [] []) in inl (rev (ga_messages g), ga_system g, ga_warnings g)
  | Some v => inr (errorf ("unsupported input type " +:+ type_name v))
  end.

(** * Tools *)

Definition standardFunctionToAnthropicTool (std : option obj) (namespace : string) : option json :=
  match std with
  | None => None
  | Some std =>
      if negb (seqb (get_str "type" std) "function") then None
      else
        let name := get_str "name" std in
        if is_empty name then None
        else
          let ns := if is_empty namespace then get_str "namespace" std else namespace in
          let name := if is_empty ns then name else ns +:+ "." +:+ name in
          let tool := [("name", JStr name)] in
          let tool := match as_string (get "description" std) with Some d => if is_empty d then tool else put "description" (JStr d) tool | None => tool end in
          let params := match as_map (get "parameters" std) with Some p => JObj p | None => JObj [("type", JStr "object"); ("properties", JObj [])] end in
          Some (JObj (put "input_schema" params tool))
  end.

(** The tools of one entry, and whether it was dropped. *)
Definition anthropic_tools (t : json) : list json * Z :=
  match t with
  | JObj m =>
      if seqb (get_str "type" m) "namespace" then
        (omap (fun st => match st with JObj sm => standardFunctionToAnthropicTool (BuildStandardTool sm) (get_str "name" m) | _ => None end)
           (default [] (as_list (get "tools" m))), 0)
      else
        match BuildStandardTool m with
        | None => ([], 0)
        | Some std => if negb (seqb (get_str "type" std) "function") then ([], 1)
                      else (match standardFunctionToAnthropicTool (Some std) "" with Some t => [t] | None => [] end, 0)
        end
  | _ => ([], 0)
  end.

Definition responsesToolsToMessages (v : option json) : list json * string :=
  match v with
  | Some (JArr l) =>
      let parts := map anthropic_tools l in
      let dropped := foldr (fun p n => snd p + n) 0 parts in
      (concat (map fst parts), if 0 <? dropped then Itoa dropped +:+ " built-in tool(s) dropped: not supported on anthropic upstream" else "")
  | _ => ([], "")
  end.

Definition chosen_tool (v : option json) : option obj * string :=
  match v with
  | Some (JStr s) =>
      (if seqb s "auto" then Some [("type", JStr "auto")]
       else if seqb s "required" then Some [("type", JStr "any")]
       else if seqb s "none" then Some [("type", JStr "none")] else None, "")
  | Some (JObj m) =>
      let t := get_str "type" m in
      if seqb t "function" then
        let name := get_str "name" m in
        if is_empty name then (None, "")
        else let ns := get_str "namespace" m in
             (Some [("type", JStr "tool"); ("name", JStr (if is_empty ns then name else ns +:+ "." +:+ name))], "")
      else if is_empty t then (None, "") else (None, "tool_choice type " +:+ Quote IsPrint t +:+ " dropped")
  | _ => (None, "")
  end.

Definition responsesToolChoiceToMessages (tcVal parallelVal : option json) (thinkingEnabled : bool) : option obj * string :=
  let '(choice, warning) := chosen_tool tcVal in
  let forced := match choice with Some c => seqb (get_str "type" c) "any" || seqb (get_str "type" c) "tool" | None => false end in
  let '(choice, warning) :=
    if thinkingEnabled && forced then (Some [("type", JStr "auto")], "tool_choice downgraded to auto: forced choice is incompatible with thinking")
    else (choice, warning) in
  match parallelVal with
  | Some (JBool false) =>
      let c := default [("type", JStr "auto")] choice in
      let t := get_str "type" c in
      (Some (if seqb t "auto" || seqb t "any" then put "disable_parallel_tool_use" (JBool true) c else c), warning)
  | _ => (choice, warning)
  end.

(** * Requests *)

Definition message_json (m : turn_blocks) : json := JObj [("role", JStr (fst m)); ("content", JArr (snd m))].

(** The first message is the user's. *)
Definition user_first (msgs : list turn_blocks) : list turn_blocks :=
  match msgs with
  | (r, _) :: _ => if seqb r "user" then msgs else ("user", [text_part " "]) :: msgs
  | [] => msgs
  end.

Definition optional_warning (w : string) : list string := if is_empty w then [] else [w].

(** Sampling parameters cannot go with thinking. *)
Definition sampling_fields (thinkingEnabled : bool) (payload out : obj) : obj * list string :=
  if thinkingEnabled then
    (out, omap (fun k => if bool_decide (is_Some (get k payload)) then Some (k +:+ " stripped: incompatible with thinking") else None) ["temperature"; "top_p"; "top_k"])
  else (fold_left (copy_field payload) ["temperature"; "top_p"] out, []).

Definition responses_to_messages (N : JsonNum) (payload : obj) (model : string) (maxOutputTokens : option Z) : (obj * bool * list string) + goerror :=
  let instructions := match as_string (get "instructions" payload) with Some s => optional_warning s | None => [] end in
  match responsesInputToMessages N (get "input" payload) with
  | inr e => inr e
  | inl ([], _, _) => inr (errorf "no convertible input messages")
  | inl (messages, sysParts, w1) =>
      let out := put "messages" (JArr (map message_json (user_first messages))) [("model", JStr model)] in
      let out := match instructions ++ sysParts with [] => out | l => put "system" (JStr (Join l newline)) out end in
      let '(tools, w2) := responsesToolsToMessages (get "tools" payload) in
      let out := match tools with [] => out | _ => put "tools" (JArr tools) out end in
      let '(thinking, maxTokens, w3) := resolveThinking N payload maxOutputTokens in
      let enabled := bool_decide (is_Some thinking) in
      let out := match thinking with Some th => put "thinking" (JObj th) out | None => out end in
      let out := put "max_tokens" (num maxTokens) out in
      let '(choice, w4) := responsesToolChoiceToMessages (get "tool_choice" payload) (get "parallel_tool_calls" payload) enabled in
      let out := match choice with Some c => put "tool_choice" (JObj c) out | None => out end in
      let '(out, w5) := sampling_fields enabled payload out in
      let uid := get_str "user_id" (sub_map "metadata" payload) in
      let out := if is_empty uid then out else put "metadata" (JObj [("user_id", JStr uid)]) out in
      let out := copy_field payload out "stream" in
      inl (out, enabled, w1 ++ optional_warning w2 ++ w3 ++ optional_warning w4 ++ w5)
  end.

Definition ResponsesRequestToMessages (N : JsonNum) (rawBody model : string) (maxOutputTokens : option Z) : (string * bool * list string) + goerror :=
  match decode_map N rawBody with
  | None => inr (parse_error json_error)
  | Some m => match responses_to_messages N (default [] m) model maxOutputTokens with
              | inr e => inr e
              | inl (out, enabled, warnings) => inl (Marshal (JObj out), enabled, warnings)
              end
  end.
End warnings.

(** * Complete responses *)

Definition normalizeResponsesID (id : string) : string :=
  if is_empty id then "resp_mock" else let s := stripMsgPrefix id in if is_empty s then "resp_mock" else "resp_" +:+ s.
Definition stripToolUsePrefix (id : string) : string := TrimPrefix id "toolu_".

Definition aRespUsage (aResp : obj) (field : string) : option json :=
  match as_map (get "usage" aResp) with Some u => get field u | None => None end.

(** The envelope of an error: the type of the document and, if present, type and message. *)
Definition dec_error_body : decoder (string * string) :=
  dec_struct [("type", fun j e => (fun t => (t, snd e)) <$> dec_string j (fst e)); ("message", fun j e => (fun m => (fst e, m)) <$> dec_string j (snd e))].
Definition dec_error_envelope : decoder (string * option (string * string)) :=
  dec_struct [("type", fun j e => (fun t => (t, snd e)) <$> dec_string j (fst e));
              ("error", fun j e => (fun p => (fst e, p)) <$> dec_ptr ("", "") dec_error_body j (snd e))].

Definition MessagesErrorToResponses (body : string) : option string :=
  match Unmarshal dec_error_envelope ("", None) body with
  | Some (_, Some (t, message)) =>
      let t := if seqb t "overloaded_error" || seqb t "api_error" then "server_error" else t in
      Some (Marshal (JObj [("error", JObj [("message", JStr message); ("type", JStr t); ("code", JNull)])]))
  | _ => None
  end.

Definition output_item (rawID : string) (i : nat) (block : json) : option json :=
  match block with
  | JObj m =>
      let t := get_str "type" m in
      let suffix := stripMsgPrefix rawID +:+ "_" +:+ Itoa (Z.of_nat i) in
      if seqb t "thinking" then
        Some (JObj (responsesReasoningItem ("rs_" +:+ suffix) (reasoningSummary (thinkingText m)) (get_str "signature" m)))
      else if seqb t "redacted_thinking" then Some (JObj (responsesReasoningItem ("rs_" +:+ suffix) [] (get_str "data" m)))
      else if seqb t "text" then Some (message_output ("msg_" +:+ suffix) (get_str "text" m))
      else if seqb t "tool_use" then
        let id := get_str "id" m in
        let '(ns, name) := splitChatToolName (get_str "name" m) in
        let item := [("id", JStr ("fc_" +:+ stripToolUsePrefix id)); ("call_id", JStr id); ("type", JStr "function_call"); ("status", JStr "completed");
                     ("name", JStr name); ("arguments", JStr (Marshal (default JNull (get "input" m))))] in
        Some (JObj (if is_empty ns then item else put "namespace" (JStr ns) item))
      else None
  | _ => None
  end.

Fixpoint output_items (rawID : string) (i : nat) (blocks : list json) : list json :=
  match blocks with
  | [] => []
  | b :: r => match output_item rawID i b with Some it => it :: output_items rawID (S i) r | None => output_items rawID (S i) r end
  end.

Definition messages_to_responses (N : JsonNum) (aResp : obj) (model : string) (now : Z) : obj * TokenUsage :=
  let rawID := get_str "id" aResp in
  let output := output_items rawID 0 (default [] (as_list (get "content" aResp))) in
  let incomplete := seqb (get_str "stop_reason" aResp) "max_tokens" in
  let count k := intFrom N (aRespUsage aResp k) in
  let cached := count "cache_read_input_tokens" in
  let created := count "cache_creation_input_tokens" in
  let total := wrap64 (wrap64 (count "input_tokens" + cached) + created) in
  let out := count "output_tokens" in
  let doc := [("id", JStr (normalizeResponsesID rawID)); ("object", JStr "response"); ("created_at", num now);
              ("status", JStr (if incomplete then "incomplete" else "completed"));
              ("model", JStr (if is_empty model then get_str "model" aResp else model)); ("output", slice output);
              ("usage", JObj [("input_tokens", num total); ("output_tokens", num out); ("total_tokens", num (wrap64 (total + out)));
                 ("input_tokens_details", JObj [("cached_tokens", num cached)])])] in
  (if incomplete then put "incomplete_details" (JObj [("reason", JStr "max_output_tokens")]) doc else doc, mkUsage total out cached created).

(** The counts of cached tokens are returned next to the usage; here they are part of it. *)
Definition MessagesResponseToResponses (N : JsonNum) (anthropicBody model : string) (now : Z) : (string * TokenUsage) + goerror :=
  match decode_map N anthropicBody with
  | None => inr (mkError ("parse anthropic response: " +:+ Error_text json_error) (err_chain json_error) (err_Retryable json_error))
  | Some m =>
      match MessagesErrorToResponses anthropicBody with
      | Some body => inl (body, no_usage)
      | None => let '(doc, u) := messages_to_responses N (default [] m) model now in inl (Marshal (JObj doc), u)
      end
  end.

(** * Alternating turns *)

Definition other_role (r : string) : string := if seqb r "user" then "assistant" else "user".
Definition two_roles (r : string) : bool := seqb r "user" || seqb r "assistant".

(** Thinking comes first. *)
Fixpoint thinking_leads (l : list json) : bool :=
  match l with
  | [] => true
  | b :: r => if is_thinking b then thinking_leads r else forallb (fun b => negb (is_thinking b)) r
  end.

(** What the Messages protocol asks of a conversation: the roles alternate, nobody says
    nothing, and thinking comes first in a message. *)
Fixpoint alternates (role : string) (msgs : list (string * list json)) : bool :=
  match msgs with
  | [] => true
  | (r, c) :: rest => seqb r role && some c && thinking_leads c && alternates (other_role role) rest
  end.

Fixpoint role_at (role : string) (n : nat) : string := match n with O => role | S k => role_at (other_role role) k end.

Lemma other_other r : two_roles r = true -> other_role (other_role r) = r.
Proof. unfold two_roles. intros [H|H]%orb_true_iff; sbool; by subst. Qed.
Lemma two_other r : two_roles (other_role r) = true.
Proof. unfold other_role. by destruct (seqb r "user"). Qed.
Lemma role_at_two s n : two_roles s = true -> two_roles (role_at s n) = true.
Proof. revert s. induction n as [|n IH]; intros s H; [done|]. apply IH, two_other. Qed.
Lemma role_at_S s n : role_at s (S n) = other_role (role_at s n).
Proof. revert s. induction n as [|n IH]; intros s; [done|]. cbn [role_at] in *. by rewrite IH. Qed.
Lemma other_of r s : two_roles r = true -> two_roles s = true -> r <> s -> s = other_role r.
Proof. unfold two_roles. intros [H|H]%orb_true_iff [K|K]%orb_true_iff; sbool; by subst. Qed.

Lemma alternates_snoc s msgs r c : alternates s (msgs ++ [(r, c)]) = alternates s msgs && (seqb r (role_at s (length msgs)) && some c && thinking_leads c).
Proof.
  revert s. induction msgs as [|[r' c'] msgs IH]; intros s; cbn [app alternates length role_at]; [by rewrite !andb_true_r|]. rewrite IH. by rewrite !andb_assoc.
Qed.

Lemma thinking_leads_cons b c : is_thinking b = true -> thinking_leads (b :: c) = thinking_leads c.
Proof. intros H. cbn. by rewrite H. Qed.
Lemma thinking_leads_snoc b c : is_thinking b = false -> thinking_leads c = true -> thinking_leads (c ++ [b]) = true.
Proof.
  intros H. induction c as [|x c IH]; cbn; [by rewrite H|]. destruct (is_thinking x); [done|]. intros F. by rewrite forallb_app, F; cbn; rewrite H.
Qed.

Definition spoken (msgs : list (string * list json)) : list json := concat (map snd msgs).
Definition not_thinking (b : json) : bool := negb (is_thinking b).

Record turns_ok (msgs : list (string * list json)) (said : list json) : Prop := {
  to_alternates : exists s, two_roles s = true /\ alternates s (rev msgs) = true;
  to_all : spoken (rev msgs) ≡ₚ said;
  to_order : List.filter not_thinking (spoken (rev msgs)) = List.filter not_thinking said
}.

Lemma spoken_snoc a r c : spoken (a ++ [(r, c)]) = spoken a ++ c.
Proof. unfold spoken. rewrite map_app, concat_app. cbn. by rewrite app_nil_r. Qed.

Lemma appendBlock_ok role msgs said b : two_roles role = true -> turns_ok msgs said -> turns_ok (appendBlock role msgs b) (said ++ [b]).
Proof.
  intros R [(s & Hs & A) P O]. destruct msgs as [|[r c] rest].
  { cbn in *. apply Permutation_nil_l in P as P'. clear P O. subst said. split; [|reflexivity|reflexivity]. exists role. split; [done|]. cbn. rewrite seqb_refl. cbn. by destruct (is_thinking b). }
  unfold appendBlock. cbn [rev] in *. rewrite alternates_snoc, length_rev in A. rewrite spoken_snoc in P, O.
  rewrite !andb_true_iff in A. destruct A as (A & (E & Nc) & Tc). destruct (seqb r role) eqn:Er; split; cbn [rev].
  - exists s. split; [done|]. rewrite alternates_snoc, length_rev, A, E. cbn [andb]. destruct (is_thinking b) eqn:T.
    + by rewrite thinking_leads_cons.
    + rewrite thinking_leads_snoc by done. rewrite andb_true_r. by destruct c.
  - rewrite spoken_snoc, <- P. destruct (is_thinking b); [|by rewrite app_assoc]. rewrite <- Permutation_cons_append. by rewrite <- Permutation_middle.
  - rewrite spoken_snoc. rewrite !List.filter_app in *. rewrite <- O. destruct (is_thinking b) eqn:T.
    + assert (not_thinking b = false) as Nb by (unfold not_thinking; by rewrite T). cbn [List.filter]. by rewrite Nb, app_nil_r.
    + by rewrite List.filter_app, app_assoc.
  - exists s. split; [done|]. cbn [rev]. rewrite !alternates_snoc, length_app, length_rev, A, E, Nc, Tc. cbn [andb length].
    replace (length rest + 1)%nat with (S (length rest)) by lia. rewrite role_at_S. sbool. subst r.
    rewrite <- (other_of (role_at s (length rest)) role); [|by apply role_at_two|done|done]. rewrite seqb_refl. cbn. by destruct (is_thinking b).
  - by rewrite !spoken_snoc, P.
  - by rewrite !spoken_snoc, List.filter_app, O, List.filter_app.
Qed.

Lemma appendBlocks_ok role bs : forall msgs said, (bs = [] \/ two_roles role = true) -> turns_ok msgs said ->
  turns_ok (fold_left (appendBlock role) bs msgs) (said ++ bs).
Proof.
  induction bs as [|b bs IH]; intros msgs said R I; [by rewrite app_nil_r|]. cbn [fold_left]. destruct R as [|R]; [done|].
  replace (said ++ b :: bs) with ((said ++ [b]) ++ bs) by by rewrite <- app_assoc. apply IH; [by right|]. by apply appendBlock_ok.
Qed.

Section gathering.
Context (IsPrint : list ascii -> bool) (N : JsonNum).

(** The blocks an item stands for. *)
Definition blocks_of (item : json) : list json := snd (fst (fst (item_blocks IsPrint N item))).

Lemma item_blocks_role item : let '(role, bs, _, _) := item_blocks IsPrint N item in bs = [] \/ two_roles role = true.
Proof.
  destruct item as [| | | | |m]; try by left. unfold item_blocks. cbn zeta. set (t := if _ && _ then "message" else _). clearbody t.
  destruct (seqb t "message").
  - destruct (seqb _ "system" || _); [by left|]. destruct (seqb _ "user" || _) eqn:R; [|by left]. destruct (responsesContentToBlocks _ _). by right.
  - destruct (seqb t "function_call"); [destruct (is_empty _); [by left|by right]|]. destruct (seqb t "function_call_output"); [by right|].
    destruct (seqb t "reasoning"); [destruct (responsesReasoningToThinking m); [by right|by left]|by left].
Qed.

Lemma gather_ok items : forall g said, turns_ok (ga_messages g) said ->
  turns_ok (ga_messages (fold_left (gather IsPrint N) items g)) (said ++ concat (map blocks_of items)).
Proof.
  induction items as [|it items IH]; intros g said I; [cbn; by rewrite app_nil_r|]. cbn [fold_left map concat]. rewrite app_assoc. apply IH.
  unfold gather, blocks_of. pose proof (item_blocks_role it) as R. destruct (item_blocks IsPrint N it) as [[[role bs] sys] w]. cbn. by apply appendBlocks_ok.
Qed.

Lemma turns_ok_nil : turns_ok [] [].
Proof. split; [by exists "user"|done|done]. Qed.

Lemma user_first_ok msgs said : turns_ok msgs said -> exists lead, (lead = [] \/ lead = [text_part " "]) /\
  let ms := user_first (rev msgs) in
  alternates "user" ms = true /\ spoken ms ≡ₚ lead ++ said /\ List.filter not_thinking (spoken ms) = lead ++ List.filter not_thinking said.
Proof.
  intros [(s & S & A) P O]. destruct (rev msgs) as [|[r c] ms] eqn:E; [exists []; by split; [left|]|]. cbn [user_first].
  cbn [alternates] in A. rewrite !andb_true_iff in A. destruct A as (((Er & Nc) & Tc) & A). sbool. subst r. destruct (seqb s "user") eqn:U.
  - exists []. split; [by left|]. sbool. subst s. cbn [alternates]. by rewrite Nc, Tc, A.
  - exists [text_part " "]. split; [by right|]. cbn zeta. assert (s = "assistant") as ->.
    { unfold two_roles in S. rewrite U in S. by apply seqb_eq in S. }
    split_and!; [cbn [alternates]; change (other_role "user") with "assistant"; cbn; by rewrite Nc, Tc, A|cbn; by rewrite P|].
    change (spoken (("user", [text_part " "]) :: ("assistant", c) :: ms)) with (text_part " " :: spoken (("assistant", c) :: ms)).
    cbn [List.filter]. change (not_thinking (text_part " ")) with true. cbn match. by rewrite O.
Qed.
End gathering.

Lemma sampling_messages th payload out : get "messages" (fst (sampling_fields th payload out)) = get "messages" out.
Proof. unfold sampling_fields. destruct th; [done|]. cbn [fst fold_left]. by rewrite !copy_field_get. Qed.

(** a Responses conversation reaches a Messages endpoint in the form the protocol asks
    for: whenever the translation succeeds, the messages alternate between user
    and assistant beginning with the user, none is empty, thinking leads every message,
    and they say what the items say: the same blocks, those that are not thinking in the same order, after
    at most one blank text of the user. *)
Theorem responses_messages_alternate (IsPrint : list ascii -> bool) (N : JsonNum) (payload : list (string * json)) (model : string) (limit : option Z)
  (items : list json) (out : list (string * json)) (enabled : bool) (warnings : list string)
  (Hinput : get "input" payload = Some (JArr items)) (Hrun : responses_to_messages IsPrint N payload model limit = inl (out, enabled, warnings)) :
  exists msgs lead, get "messages" out = Some (JArr (map message_json msgs)) /\ some msgs = true /\ alternates "user" msgs = true /\ (lead = [] \/ lead = [text_part " "]) /\ spoken msgs ≡ₚ lead ++ concat (map (blocks_of IsPrint N) items) /\ List.filter not_thinking (spoken msgs) = lead ++ List.filter not_thinking (concat (map (blocks_of IsPrint N) items)).
Proof.
  unfold responses_to_messages in Hrun. rewrite Hinput in Hrun. cbn [responsesInputToMessages] in Hrun.
  pose proof (gather_ok IsPrint N items (mkGathered [] [] []) [] turns_ok_nil) as G. rewrite app_nil_l in G.
  destruct (user_first_ok _ _ G) as (lead & L & A & P & O). cbn zeta in *.
  set (g := fold_left _ items _) in *. destruct (rev (ga_messages g)) as [|m0 ms] eqn:Er; [done|].
  exists (user_first (m0 :: ms)), lead. split; [|split_and!; [by destruct m0 as [r c]; cbn; destruct (seqb r "user")|done..]].
  destruct (responsesToolsToMessages _) as [tools w2]. destruct (resolveThinking _ _ _) as [[th mt] w3]. destruct (responsesToolChoiceToMessages _ _ _ _) as [ch w4].
  match type of Hrun with context [sampling_fields ?e ?p ?o] => pose proof (sampling_messages e p o) as Sm; destruct (sampling_fields e p o) as [out5 w5] end.
  injection Hrun as <- _ _. rewrite copy_field_get by done. cbn [fst] in Sm.
  assert (get "messages" out5 = Some (JArr (map message_json (user_first (m0 :: ms))))) as Q; [|by destruct (is_empty _); rewrite ?get_put].
  rewrite Sm. destruct ch, th, tools, (_ ++ ga_system g); by rewrite ?get_put.
Qed.

Definition demo_turn : list json :=
  [JObj [("type", JStr "reasoning"); ("encrypted_content", JStr "s1")]; JObj [("role", JStr "assistant"); ("content", JStr "looking")];
   JObj [("type", JStr "function_call"); ("call_id", JStr "call_1"); ("name", JStr "f"); ("arguments", JStr "{}")];
   JObj [("type", JStr "function_call_output"); ("call_id", JStr "call_1"); ("output", JStr "ok")];
   JObj [("role", JStr "user"); ("content", JStr "go on")]].

Lemma responses_messages_alternate_witness : exists out enabled warnings msgs,
  responses_to_messages (fun _ => true) demo_num [("input", JArr demo_turn)] "m" None = inl (out, enabled, warnings) /\ alternates "user" msgs = true.
Proof.
  destruct (responses_to_messages (fun _ => true) demo_num [("input", JArr demo_turn)] "m" None) as [[[out en] w]|e] eqn:E; [|vm_compute in E; discriminate E].
  destruct (responses_messages_alternate (fun _ => true) demo_num [("input", JArr demo_turn)] "m" None demo_turn out en w eq_refl E) as (msgs & _ & _ & _ & A & _).
  exists out, en, w, msgs. split; [reflexivity|exact A].
Defined.

(** * Names and identifiers *)

Lemma last_dot_app s t i found : last_dot (s +:+ t) i found = last_dot t (i + String.length s) (last_dot s i found).
Proof.
  revert i found. induction s as [|c s IH]; intros i found; [cbn; by rewrite Nat.add_0_r|]. unfold String.app in *. cbn. rewrite IH. f_equal. lia.
Qed.
Definition dot_free (s : string) : Prop := "."%char ∉ ascii_list s.
Lemma last_dot_free s i found : dot_free s -> last_dot s i found = found.
Proof.
  revert i found. induction s as [|c s IH]; intros i found H; [done|]. cbn in *. apply not_elem_of_cons in H as [H1 H2].
  destruct (ascii_dec c "."); [by subst|by apply IH].
Qed.

(** A qualified name is taken apart where it was put together, if the name has no dot. *)
Lemma splitChatToolName_join ns name : is_empty ns = false -> is_empty name = false -> dot_free name ->
  splitChatToolName (ns +:+ "." +:+ name) = (ns, name).
Proof.
  intros Ns Nm F. unfold splitChatToolName. rewrite last_dot_app. change ("." +:+ name) with (String "." name).
  cbn [last_dot]. destruct (ascii_dec "." "."); [|done]. rewrite last_dot_free by done. rewrite length_append. cbn [String.length].
  assert (1 <= String.length ns)%nat by (destruct ns; [done|cbn; lia]). assert (1 <= String.length name)%nat by (destruct name; [done|cbn; lia]).
  rewrite (proj2 (Nat.ltb_lt _ _)), (proj2 (Nat.ltb_lt _ _)) by lia. cbn [andb]. rewrite Nat.add_0_l.
  assert (string_take (String.length ns) (ns +:+ String "." name) = ns) as ->.
  { clear. induction ns as [|c ns IH]; [done|]. unfold String.app in *. cbn. by rewrite IH. }
  assert (string_drop (S (String.length ns)) (ns +:+ String "." name) = name) as ->; [|done].
  clear. induction ns as [|c ns IH]; [done|]. unfold String.app in *. cbn in *. exact IH.
Qed.

(** The thinking blocks of one turn are sent in reverse order. *)
Lemma thinking_order_reversed :
  rev (ga_messages (fold_left (gather (fun _ => true) demo_num)
    [JObj [("type", JStr "reasoning"); ("encrypted_content", JStr "s1")]; JObj [("type", JStr "reasoning"); ("encrypted_content", JStr "s2")]] (mkGathered [] [] []))) =
  [("assistant", map (fun s => JObj (put "signature" (JStr s) (messagesThinkingBlock ""))) ["s2"; "s1"])].
Proof. reflexivity. Qed.

(** An output that names its call in [id], as its call may, answers another call. *)
Lemma result_identifier_lost IsPrint N args out :
  map (fun it => match blocks_of IsPrint N it with [JObj m] => (get_str "id" m, get_str "tool_use_id" m) | _ => ("", "") end)
    [JObj [("type", JStr "function_call"); ("id", JStr "c1"); ("name", JStr "f"); ("arguments", JStr args)];
     JObj [("type", JStr "function_call_output"); ("id", JStr "c1"); ("output", JStr out)]] =
  [("toolu_c1", ""); ("", "toolu_mock")].
Proof. reflexivity. Qed.

(** * Answers that come back as history *)

Inductive answer_block :=
  | ABText (text : string)
  | ABThinking (text signature : string)
  | ABTool (id name : string) (input : obj).

Definition answer_doc (b : answer_block) : json :=
  match b with
  | ABText t => text_part t
  | ABThinking t s => JObj (put "signature" (JStr s) (messagesThinkingBlock t))
  | ABTool id name input => tool_use_block id name (JObj input)
  end.

Definition answer_ok (N : JsonNum) (b : answer_block) : bool :=
  match b with
  | ABText t => negb (is_empty t)
  | ABThinking _ s => negb (is_empty s)
  | ABTool id name input => HasPrefix id "toolu_" && negb (is_empty name) && wire_ok N (JObj input)
  end.

Lemma take_drop_dot name : forall i k found, last_dot name i found = Some k -> found <> Some k ->
  (i <= k)%nat /\ string_take (k - i) name +:+ String "." (string_drop (S (k - i)) name) = name.
Proof.
  induction name as [|c name IH]; intros i k found E Nf; [done|]. cbn in E. destruct (ascii_dec c ".") as [->|Nd].
  - destruct (decide (k = i)) as [->|Nk]; [split; [lia|]; rewrite Nat.sub_diag; cbn; by destruct name|].
    destruct (IH (S i) k (Some i) E ltac:(congruence)) as [L Q]. split; [lia|]. replace (k - i)%nat with (S (k - S i)) by lia. unfold String.app in *. cbn in *. by rewrite Q.
  - destruct (IH (S i) k found E Nf) as [L Q]. split; [lia|]. replace (k - i)%nat with (S (k - S i)) by lia. unfold String.app in *. cbn in *. by rewrite Q.
Qed.

Lemma splitChatToolName_name name : let '(ns, n) := splitChatToolName name in
  (if is_empty ns then n else ns +:+ "." +:+ n) = name /\ (is_empty name = false -> is_empty n = false).
Proof.
  unfold splitChatToolName. destruct (last_dot name 0 None) as [k|] eqn:E; [|done]. destruct (_ && _) eqn:B; [|done].
  apply andb_true_iff in B as [B1 B2]. apply Nat.ltb_lt in B1, B2. destruct (take_drop_dot name 0 k None E ltac:(done)) as [_ Q]. rewrite Nat.sub_0_r in Q.
  assert (forall j s, (j <= String.length s)%nat -> String.length (string_take j s) = j) as Lt by (induction j as [|j IH]; intros [|c s] L; cbn in *; try lia; rewrite IH; lia).
  assert (is_empty (string_take k name) = false) as -> by (pose proof (Lt k name ltac:(lia)); destruct (string_take k name); [cbn in *; lia|done]).
  split; [exact Q|]. intros _. destruct (string_drop (S k) name) eqn:D; [|done]. exfalso. apply (f_equal String.length) in Q. rewrite length_append in Q. cbn in Q.
  rewrite Lt in Q; lia.
Qed.

Definition is_thought (b : answer_block) : bool := match b with ABThinking _ _ => true | _ => false end.

Lemma function_call_blocks IsPrint N m : get_str "type" m = "function_call" -> is_empty (get_str "name" m) = false ->
  item_blocks IsPrint N (JObj m) = ("assistant", [tool_use_block (NormalizeToolUseID (responseItemCallID m))
    (if is_empty (get_str "namespace" m) then get_str "name" m else get_str "namespace" m +:+ "." +:+ get_str "name" m) (call_input N (get_str "arguments" m))], [], []).
Proof. intros T Nm. unfold item_blocks. cbn zeta. rewrite T, Nm. reflexivity. Qed.

(** An output item stands for one block, which prints as the block it was made from. *)
Lemma output_replayed IsPrint N rawID b i : answer_ok N b = true ->
  exists it block, output_item rawID i (answer_doc b) = Some it /\ item_blocks IsPrint N it = ("assistant", [block], [], []) /\
    sort_keys block = sort_keys (answer_doc b) /\ is_thinking block = is_thought b.
Proof.
  destruct b as [t|t s|id name input]; intros Ok; cbn [answer_ok] in Ok.
  - apply negb_true_iff in Ok. eexists _, (text_part t). split; [reflexivity|]. split; [|done].
    transitivity ("assistant", fst (if is_empty t then (@nil json, @nil string) else ([text_part t], [])) ++ [],
      @nil string, snd (if is_empty t then (@nil json, @nil string) else ([text_part t], [])) ++ []); [reflexivity|by rewrite Ok].
  - apply negb_true_iff in Ok. eexists _, (answer_doc (ABThinking t s)). split; [reflexivity|]. split; [|done].
    unfold responsesReasoningItem. change (get_str "signature" _) with s. rewrite Ok.
    unfold item_blocks. cbn zeta. cbn -[is_empty responsesReasoningToThinking].
    match goal with |- context [responsesReasoningToThinking ?m] =>
      change (responsesReasoningToThinking m) with (if is_empty s then None else Some (put "signature" (JStr s) (messagesThinkingBlock t))) end.
    by rewrite Ok.
  - rewrite !andb_true_iff, negb_true_iff in Ok. destruct Ok as [[Hid Hn] W].
    assert (is_empty id = false) as Ne by by destruct id.
    assert (NormalizeToolUseID id = id) as Nid by (unfold NormalizeToolUseID; by rewrite Ne, Hid).
    destruct (call_input_wire N input W) as (m & Ci & Sk).
    unfold output_item. change (answer_doc (ABTool id name input)) with (tool_use_block id name (JObj input)). cbn zeta.
    unfold tool_use_block at 1. cbn match. change (get_str "name" _) with name. change (get_str "id" _) with id.
    pose proof (splitChatToolName_name name) as Sp. destruct (splitChatToolName name) as [ns n]. destruct Sp as [Q Nn]. specialize (Nn Hn).
    set (item := [("id", JStr ("fc_" +:+ stripToolUsePrefix id)); ("call_id", JStr id); ("type", JStr "function_call"); ("status", JStr "completed");
      ("name", JStr n); ("arguments", JStr (Marshal (JObj input)))]).
    exists (JObj (if is_empty ns then item else put "namespace" (JStr ns) item)), (tool_use_block id name (JObj m)). split; [reflexivity|].
    set (it := if is_empty ns then item else _).
    assert (get_str "type" it = "function_call" /\ get_str "name" it = n /\ get_str "namespace" it = ns /\ get_str "call_id" it = id /\
      get_str "arguments" it = Marshal (JObj input)) as (E1 & E2 & E3 & E4 & E5).
    { unfold it. destruct (is_empty ns) eqn:En; [sbool; subst ns|]; done. }
    rewrite function_call_blocks by by rewrite ?E2. rewrite E2, E3, E5, Q, Ci. unfold responseItemCallID. cbn zeta. rewrite E4, Ne, Nid.
    split; [done|]. split; [|done]. unfold tool_use_block. rewrite !(sort_keys_obj (_ :: _)). cbn [map fst snd]. by rewrite Sk.
Qed.

(** Once a message of the assistant is open, further items extend it. *)
Lemma replay_more IsPrint N raw : forall answer g content rest i, forallb (answer_ok N) answer = true -> forallb (fun b => negb (is_thought b)) answer = true ->
  ga_messages g = ("assistant", content) :: rest ->
  exists blocks, fold_left (gather IsPrint N) (output_items raw i (map answer_doc answer)) g =
      mkGathered (("assistant", content ++ blocks) :: rest) (ga_system g) (ga_warnings g) /\ map sort_keys blocks = map sort_keys (map answer_doc answer).
Proof.
  induction answer as [|b answer IH]; intros g content rest i Ok Th Eg; [exists []; destruct g; cbn in *; by rewrite app_nil_r, Eg|].
  cbn [forallb] in Ok, Th. apply andb_true_iff in Ok as [H1 H2], Th as [T1 T2]. apply negb_true_iff in T1.
  destruct (output_replayed IsPrint N raw b i H1) as (it & block & E & Eb & Sk & Tb). cbn [map output_items]. rewrite E. cbn [fold_left].
  unfold gather at 2. rewrite Eb. cbn [fold_left]. rewrite Eg. cbn [appendBlock]. rewrite seqb_refl, Tb, T1, !app_nil_r.
  edestruct (IH (mkGathered (("assistant", content ++ [block]) :: rest) (ga_system g) (ga_warnings g))) as (blocks & -> & Q); [done..|].
  exists (block :: blocks). cbn [map ga_system ga_warnings]. by rewrite <- app_assoc, Sk, Q.
Qed.

(** an answer of a Messages endpoint that a Responses client sends back as history
    is the answer it was: its output items become one message of the assistant with the same
    blocks, in order - texts, the thinking with its signature, and calls with identifier,
    qualified name and input, which print the same - and nothing is added to the system
    prompt or to the warnings. (Only the first block thinks, texts and
    signatures are not empty, calls have an Anthropic identifier and a name.) *)
Theorem answer_replayed (IsPrint : list ascii -> bool) (N : JsonNum) (aResp : list (string * json)) (model : string) (now : Z) (first : answer_block) (answer : list answer_block)
  (g : gathered)
  (Hcontent : get "content" aResp = Some (JArr (map answer_doc (first :: answer)))) (Hanswer : forallb (answer_ok N) (first :: answer) = true)
  (Hthinking : forallb (fun b => negb (is_thought b)) answer = true)
  (Hturn : match ga_messages g with (role, _) :: _ => seqb role "assistant" = false | [] => True end) :
  let output := default [] (as_list (get "output" (fst (messages_to_responses N aResp model now)))) in
  exists blocks, fold_left (gather IsPrint N) output g = mkGathered (("assistant", blocks) :: ga_messages g) (ga_system g) (ga_warnings g) /\
    map sort_keys blocks = map sort_keys (map answer_doc (first :: answer)).
Proof.
  cbn zeta.
  assert (default [] (as_list (get "output" (fst (messages_to_responses N aResp model now)))) = output_items (get_str "id" aResp) 0 (map answer_doc (first :: answer))) as ->.
  { unfold messages_to_responses. rewrite Hcontent. cbn [as_list default from_option id fst]. set (o := output_items _ _ _). clearbody o.
    destruct (seqb _ "max_tokens"); rewrite ?get_put; by destruct o. }
  cbn [forallb] in Hanswer. apply andb_true_iff in Hanswer as [H1 H2].
  destruct (output_replayed IsPrint N (get_str "id" aResp) first 0 H1) as (it & block & E & Eb & Sk & _). cbn [map output_items]. rewrite E. cbn [fold_left].
  unfold gather at 2. rewrite Eb. cbn [fold_left]. rewrite !app_nil_r.
  edestruct (replay_more IsPrint N (get_str "id" aResp) answer (mkGathered (("assistant", [block]) :: ga_messages g) (ga_system g) (ga_warnings g))) as (blocks & R & Q); [done..|].
  exists (block :: blocks). cbn [map]. rewrite Sk, Q. split; [|done]. etransitivity; [|exact R]. do 2 f_equal.
  destruct (ga_messages g) as [|[r c] ms]; [done|]. cbn [appendBlock]. by rewrite Hturn.
Qed.

Definition demo_answer : list answer_block := [ABText "let me see"; ABTool "toolu_1" "fs.read" []].
Lemma answer_replayed_witness :
  let output := default [] (as_list (get "output" (fst (messages_to_responses exact_num [("content", JArr (map answer_doc (ABThinking "hm" "sig" :: demo_answer)))] "m" 0)))) in
  exists blocks, fold_left (gather (fun _ => true) exact_num) output (mkGathered [("user", [text_part "hi"])] [] []) =
      mkGathered [("assistant", blocks); ("user", [text_part "hi"])] [] [] /\
    map sort_keys blocks = map sort_keys (map answer_doc (ABThinking "hm" "sig" :: demo_answer)).
Proof.
  refine (answer_replayed (fun _ => true) exact_num [("content", JArr (map answer_doc (ABThinking "hm" "sig" :: demo_answer)))] "m" 0 (ABThinking "hm" "sig") demo_answer
    (mkGathered [("user", [text_part "hi"])] [] []) eq_refl _ eq_refl eq_refl).
  assert (wire_ok exact_num (JObj []) = true) as W.
  { unfold wire_ok. rewrite (json_ok_mono _ 5); [reflexivity|apply Nat.leb_le; vm_compute; reflexivity|reflexivity]. }
  cbn -[wire_ok]. by rewrite W.
Defined.
