(* ===== verification/TranslateResponsesStream.v ===== *)
(** pkg/llm/translate/chat_responses_stream.go and responses_messages_stream.go: the state
    machines that turn a Chat or a Messages stream into a Responses stream, and what a client
    of the Responses protocol accepts.  An event carries its document; its bytes are
    [json_encode] of it (structs print their fields in order, maps sorted). *)

From Stdlib Require Import Ascii.
From S2P Require Import Prelude GoFloat GoStrings GoTime GoJson GoPrint Matcher Policy Types Context Http Translate TranslateWire TranslateStream TranslateMessages TranslateResponses TranslateResponsesMessages.

(** * Events *)

Record ResponsesStreamEvent := mkREvent { re_Event : string; re_Data : json; re_TransmittedChars : Z; re_Flush : bool }.
(** A payload that is a struct, and one that is a map. *)
Definition struct_event (kind : string) (doc : obj) : ResponsesStreamEvent := mkREvent kind (JObj (("type", JStr kind) :: doc)) 0 false.
Definition map_event (kind : string) (doc : obj) : ResponsesStreamEvent := mkREvent kind (sort_keys (JObj (("type", JStr kind) :: doc))) 0 false.
Definition transmitted (n : Z) (e : ResponsesStreamEvent) : ResponsesStreamEvent := mkREvent (re_Event e) (re_Data e) n (re_Flush e).
Definition flushed (e : ResponsesStreamEvent) : ResponsesStreamEvent := mkREvent (re_Event e) (re_Data e) (re_TransmittedChars e) true.

Definition output_text_part (text : string) : obj := [("type", JStr "output_text"); ("text", JStr text); ("annotations", JArr [])].
(** The part as a map of the Go code, and as a member of a map. *)
Definition text_part_map (text : string) : json := sort_keys (JObj (output_text_part text)).

(** Start of a response. *)
Definition started_doc (id : string) (created : Z) (model : string) : obj :=
  [("id", JStr id); ("object", JStr "response"); ("created_at", num created); ("status", JStr "in_progress"); ("model", JStr model); ("output", JArr [])].

(** * chat_responses_stream.go *)

(** The fields this machine reads of a chunk; the finish reason is read on its own. *)
Definition dec_responses_choice : decoder chat_choice :=
  dec_struct [("delta", dec_struct [("content", dec_field cc_Content dec_string); ("reasoning_content", dec_field cc_ReasoningContent dec_string);
                 ("reasoning", dec_field cc_Reasoning dec_string);
                 ("tool_calls", dec_field cc_ToolCalls (dec_slice (mkToolDelta 0 "" "" "" "") dec_tool_delta))])].
Definition no_choice : chat_choice := mkChoice "" "" "" "" "" [] None.
Definition dec_responses_chunk : decoder chat_chunk :=
  dec_struct [("id", dec_field ck_ID dec_string); ("model", dec_field ck_Model dec_string);
              ("choices", dec_field ck_Choices (dec_slice no_choice dec_responses_choice))].
Definition dec_finish_chunk : decoder (list (option string)) :=
  dec_struct [("choices", dec_slice None (dec_struct [("finish_reason", dec_ptr "" dec_string)]))].

(** The last finish reason of a frame. *)
Definition frame_finish (data : string) : option string :=
  match Unmarshal dec_finish_chunk [] data with Some l => last (omap id l) | None => None end.

Record chatResponsesToolCall := mkRCall {
  rc_ID : string; rc_CallID : string; rc_Name : string; rc_Namespace : string; rc_Arguments : string; rc_OutputIndex : Z; rc_Added : bool; rc_IsCustom : bool
}.
#[global] Instance eta_rcall : Eta chatResponsesToolCall := fun c =>
  mkRCall (rc_ID c) (rc_CallID c) (rc_Name c) (rc_Namespace c) (rc_Arguments c) (rc_OutputIndex c) (rc_Added c) (rc_IsCustom c).

Record ChatToResponsesStream := mkC2R {
  cs_model : string; cs_mapper : option ToolNameMapper; cs_usage : TokenUsage; cs_started : bool; cs_finished : bool; cs_sawDone : bool;
  cs_finishReason : string; cs_lastResponseID : string; cs_lastModelName : string; cs_fullText : string; cs_fullReasoning : string;
  cs_messageAdded : bool; cs_textOutputIndex : Z; cs_currentOutputIndex : Z; cs_reasoningAdded : bool; cs_reasoningOutputIndex : Z;
  cs_localToolCalls : gmap Z chatResponsesToolCall
}.
#[global] Instance eta_c2r : Eta ChatToResponsesStream := fun s =>
  mkC2R (cs_model s) (cs_mapper s) (cs_usage s) (cs_started s) (cs_finished s) (cs_sawDone s) (cs_finishReason s) (cs_lastResponseID s)
    (cs_lastModelName s) (cs_fullText s) (cs_fullReasoning s) (cs_messageAdded s) (cs_textOutputIndex s) (cs_currentOutputIndex s)
    (cs_reasoningAdded s) (cs_reasoningOutputIndex s) (cs_localToolCalls s).

Definition NewChatToResponsesStream (model : string) (mapper : option ToolNameMapper) (initialUsage : TokenUsage) : ChatToResponsesStream :=
  mkC2R model mapper initialUsage false false false "" "" "" "" "" false (-1) 0 false (-1) ∅.

Notation remits := (ChatToResponsesStream * list ResponsesStreamEvent)%type.

Definition progressMeta (s : ChatToResponsesStream) (m : StreamChunkMeta) : StreamChunkMeta :=
  m <| sm_SawDone := cs_sawDone s |> <| sm_FinishReason := cs_finishReason s |> <| sm_TextChars := len (cs_fullText s) |>
    <| sm_ThinkingChars := len (cs_fullReasoning s) |> <| sm_HasToolUse := negb (bool_decide (cs_localToolCalls s = ∅)) |>.

Definition applyUsage (u new : TokenUsage) : TokenUsage :=
  let u := update_usage u new in if 0 <? tu_Created new then u <| tu_Created := tu_Created new |> else u.

(** Identifiers of the response, of its message and of its reasoning, and the name of the model. *)
Definition resp_id (s : ChatToResponsesStream) : string := chatResponsesID (cs_lastResponseID s) "resp_".
Definition msg_id (s : ChatToResponsesStream) : string := chatResponsesID (cs_lastResponseID s) "msg_".
Definition reasoning_id (s : ChatToResponsesStream) : string := chatResponsesID (cs_lastResponseID s) "rs_".
Definition model_name (s : ChatToResponsesStream) : string := if is_empty (cs_lastModelName s) then cs_model s else cs_lastModelName s.

Definition start_response (s : ChatToResponsesStream) (now : Z) : remits :=
  if cs_started s then (s, [])
  else (s <| cs_started := true |>,
        [struct_event "response.created" [("response", JObj (started_doc (resp_id s) now (model_name s)))];
         flushed (struct_event "response.in_progress" [("response", JObj (started_doc (resp_id s) now (model_name s)))])]).

(** ** Text and reasoning *)

Definition sendPlainResponsesText (s : ChatToResponsesStream) (text : string) : remits :=
  let '(s, e) :=
    if cs_messageAdded s then (s, [])
    else
      let i := cs_currentOutputIndex s in
      (s <| cs_messageAdded := true |> <| cs_textOutputIndex := i |> <| cs_currentOutputIndex := i + 1 |>,
       [struct_event "response.output_item.added" [("response_id", JStr (resp_id s)); ("output_index", num i);
          ("item", JObj [("id", JStr (msg_id s)); ("type", JStr "message"); ("status", JStr "in_progress"); ("role", JStr "assistant"); ("content", JArr [])])];
        struct_event "response.content_part.added" [("response_id", JStr (resp_id s)); ("item_id", JStr (msg_id s)); ("output_index", num i);
          ("content_index", num 0); ("part", JObj (output_text_part ""))]]) in
  (s, e ++ [transmitted (len text) (struct_event "response.output_text.delta" [("response_id", JStr (resp_id s)); ("item_id", JStr (msg_id s));
              ("output_index", num (cs_textOutputIndex s)); ("content_index", num 0); ("delta", JStr text)])]).

Definition sendResponsesReasoningDelta (s : ChatToResponsesStream) (delta : string) : remits :=
  let '(s, e) :=
    if cs_reasoningAdded s then (s, [])
    else
      let i := cs_currentOutputIndex s in
      (s <| cs_reasoningAdded := true |> <| cs_reasoningOutputIndex := i |> <| cs_currentOutputIndex := i + 1 |>,
       [map_event "response.output_item.added" [("response_id", JStr (resp_id s)); ("output_index", num i);
          ("item", JObj (responsesReasoningItem (reasoning_id s) [] ""))];
        map_event "response.reasoning_summary_part.added" [("response_id", JStr (resp_id s)); ("item_id", JStr (reasoning_id s)); ("output_index", num i);
          ("summary_index", num 0); ("part", reasoningSummaryPart "")]]) in
  (s, e ++ [transmitted (len delta) (map_event "response.reasoning_summary_text.delta" [("response_id", JStr (resp_id s)); ("item_id", JStr (reasoning_id s));
              ("output_index", num (cs_reasoningOutputIndex s)); ("summary_index", num 0); ("delta", JStr delta)])]).

Definition feed_reasoning (s : ChatToResponsesStream) (t : string) : remits :=
  if is_empty t then (s, [])
  else let '(s, e) := sendResponsesReasoningDelta s t in (s <| cs_fullReasoning := cs_fullReasoning s +:+ t |>, e).
Definition feed_text (s : ChatToResponsesStream) (t : string) : remits :=
  if is_empty t then (s, [])
  else let '(s, e) := sendPlainResponsesText s t in (s <| cs_fullText := cs_fullText s +:+ t |>, e).

(** ** Tool calls *)

(** A call seen for the first time. *)
Definition new_call (s : ChatToResponsesStream) (tc : tool_delta) : chatResponsesToolCall :=
  let callID := if is_empty (td_ID tc) then "call_" +:+ msg_id s +:+ "_" +:+ Itoa (td_Index tc) else td_ID tc in
  mkRCall (EnsureFunctionCallItemID callID) callID (td_Name tc) "" "" (cs_currentOutputIndex s) false false.

(** Identifier, name, namespace and kind of a call after a delta. *)
Definition identify_call (mapper : option ToolNameMapper) (l : chatResponsesToolCall) (tc : tool_delta) : chatResponsesToolCall :=
  let l := if negb (is_empty (td_ID tc)) && is_empty (rc_CallID l)
           then l <| rc_CallID := td_ID tc |> <| rc_ID := EnsureFunctionCallItemID (td_ID tc) |> else l in
  let l := if negb (is_empty (td_Name tc)) && is_empty (rc_Name l) then l <| rc_Name := td_Name tc |> else l in
  let l := if is_empty (rc_Namespace l)
           then let '(ns, name) := restored_name mapper (rc_Name l) in l <| rc_Namespace := ns |> <| rc_Name := name |> else l in
  if IsCustom mapper (rc_Name l) then l <| rc_IsCustom := true |> <| rc_ID := EnsureCustomToolCallItemID (rc_CallID l) |> else l.

(** The call as an item of a struct: an empty namespace is omitted. *)
Definition call_struct (l : chatResponsesToolCall) (status payload : string) : obj :=
  [("id", JStr (rc_ID l)); ("call_id", JStr (rc_CallID l)); ("type", JStr (if rc_IsCustom l then "custom_tool_call" else "function_call"));
   ("status", JStr status); ("name", JStr (rc_Name l)); (if rc_IsCustom l then "input" else "arguments", JStr payload)] ++
  if is_empty (rc_Namespace l) then [] else [("namespace", JStr (rc_Namespace l))].

Definition feed_call (s : ChatToResponsesStream) (tc : tool_delta) : remits :=
  let '(s, l) := match cs_localToolCalls s !! td_Index tc with
                 | Some l => (s, l)
                 | None => (s <| cs_currentOutputIndex := cs_currentOutputIndex s + 1 |>, new_call s tc)
                 end in
  let l := identify_call (cs_mapper s) l tc in
  let add := negb (is_empty (rc_Name l)) && negb (rc_Added l) in
  let e1 := if add then [struct_event "response.output_item.added" [("response_id", JStr (resp_id s)); ("output_index", num (rc_OutputIndex l));
                           ("item", JObj (call_struct l "in_progress" ""))]] else [] in
  let l := if add then l <| rc_Added := true |> else l in
  let l := l <| rc_Arguments := rc_Arguments l +:+ td_Arguments tc |> in
  let e2 := if rc_IsCustom l then []
            else [struct_event "response.function_call.arguments.delta" [("response_id", JStr (resp_id s)); ("item_id", JStr (rc_ID l));
                    ("call_id", JStr (rc_CallID l)); ("output_index", num (rc_OutputIndex l)); ("delta", JStr (td_Arguments tc))]] in
  (s <| cs_localToolCalls := <[td_Index tc := l]> (cs_localToolCalls s) |>, e1 ++ e2).

Fixpoint feed_calls (s : ChatToResponsesStream) (tcs : list tool_delta) : remits :=
  match tcs with
  | [] => (s, [])
  | tc :: r => let '(s, e1) := feed_call s tc in let '(s, e2) := feed_calls s r in (s, e1 ++ e2)
  end.

Definition delta_reasoning (c : chat_choice) : string := chatResponsesReasoning (cc_ReasoningContent c) (cc_Reasoning c).

Definition feed_delta (s : ChatToResponsesStream) (c : chat_choice) : remits :=
  let '(s, e1) := feed_reasoning s (delta_reasoning c) in
  let '(s, e2) := feed_text s (cc_Content c) in
  let '(s, e3) := feed_calls s (cc_ToolCalls c) in
  (s, e1 ++ e2 ++ e3).

Definition parse_responses_chunk (data : string) : option chat_chunk := Unmarshal dec_responses_chunk (mkChunk "" "" []) data.

(** Identifier and model of a chunk. *)
Definition note_chunk (s : ChatToResponsesStream) (ck : chat_chunk) : ChatToResponsesStream :=
  let s := if is_empty (ck_ID ck) then s else s <| cs_lastResponseID := ck_ID ck |> in
  if is_empty (ck_Model ck) then s else s <| cs_lastModelName := ck_Model ck |>.

Definition feed_responses_chunk (s : ChatToResponsesStream) (ck : chat_chunk) (now : Z) : remits :=
  let '(s, e1) := start_response (note_chunk s ck) now in
  let '(s, e2) := match ck_Choices ck with [] => (s, []) | c :: _ => feed_delta s c end in
  (s, e1 ++ e2).

Definition chunk_meta (m : StreamChunkMeta) (ck : chat_chunk) : StreamChunkMeta :=
  let m := if is_empty (ck_ID ck) then m else m <| sm_ResponseID := chatResponsesID (ck_ID ck) "resp_" |> in
  let m := if is_empty (ck_Model ck) then m else m <| sm_ResponseModel := ck_Model ck |> in
  match ck_Choices ck with
  | [] => m
  | c :: _ => m <| sm_Flush := true |> <| sm_TransmittedChars := len (delta_reasoning c) + len (cc_Content c) |>
  end.

Definition C2R_FeedJSON (s : ChatToResponsesStream) (data : string) (now : Z) : ChatToResponsesStream * list ResponsesStreamEvent * StreamChunkMeta :=
  if cs_finished s then (s, [], no_meta)
  else if seqb (TrimSpace data) "[DONE]" then let s := s <| cs_sawDone := true |> in (s, [], progressMeta s no_meta)
  else
    let u := chatStreamUsage data in
    let meta := no_meta <| sm_InputTokens := tu_Input u |> <| sm_OutputTokens := tu_Output u |> <| sm_CachedTokens := tu_Cached u |> in
    let s := s <| cs_usage := applyUsage (cs_usage s) u |> in
    let s := match frame_finish data with Some r => s <| cs_finishReason := r |> | None => s end in
    match parse_responses_chunk data with
    | None => (s, [], meta)
    | Some ck => let '(s, events) := feed_responses_chunk s ck now in (s, events, progressMeta s (chunk_meta meta ck))
    end.

(** ** The end *)

Definition reasoning_done (s : ChatToResponsesStream) : list ResponsesStreamEvent :=
  let i := num (cs_reasoningOutputIndex s) in
  [map_event "response.reasoning_summary_text.done" [("response_id", JStr (resp_id s)); ("item_id", JStr (reasoning_id s)); ("output_index", i);
     ("summary_index", num 0); ("text", JStr (cs_fullReasoning s))];
   map_event "response.reasoning_summary_part.done" [("response_id", JStr (resp_id s)); ("item_id", JStr (reasoning_id s)); ("output_index", i);
     ("summary_index", num 0); ("part", reasoningSummaryPart (cs_fullReasoning s))];
   map_event "response.output_item.done" [("response_id", JStr (resp_id s)); ("output_index", i);
     ("item", JObj (completedChatReasoningItem (reasoning_id s) (cs_fullReasoning s)))]].

Definition text_done (s : ChatToResponsesStream) : list ResponsesStreamEvent :=
  let i := num (cs_textOutputIndex s) in
  [struct_event "response.output_text.done" [("response_id", JStr (resp_id s)); ("item_id", JStr (msg_id s)); ("output_index", i);
     ("content_index", num 0); ("text", JStr (cs_fullText s))];
   struct_event "response.content_part.done" [("response_id", JStr (resp_id s)); ("item_id", JStr (msg_id s)); ("output_index", i);
     ("content_index", num 0); ("part", JObj (output_text_part (cs_fullText s)))];
   struct_event "response.output_item.done" [("response_id", JStr (resp_id s)); ("output_index", i);
     ("item", JObj [("id", JStr (msg_id s)); ("type", JStr "message"); ("status", JStr "completed"); ("role", JStr "assistant");
        ("content", JArr [text_part_map (cs_fullText s)])])]].

Section finish.
Context (N : JsonNum).

(** The argument of a call as the client sees it. *)
Definition call_payload (l : chatResponsesToolCall) : string := if rc_IsCustom l then ExtractPatchInput N (rc_Arguments l) else rc_Arguments l.

Definition call_done (respID : string) (l : chatResponsesToolCall) : list ResponsesStreamEvent :=
  (if rc_IsCustom l then []
   else [struct_event "response.function_call.arguments.done" [("response_id", JStr respID); ("item_id", JStr (rc_ID l)); ("call_id", JStr (rc_CallID l));
           ("output_index", num (rc_OutputIndex l)); ("arguments", JStr (rc_Arguments l))]]) ++
  [struct_event "response.output_item.done" [("response_id", JStr respID); ("output_index", num (rc_OutputIndex l));
     ("item", JObj (call_struct l "completed" (call_payload l)))]].

(** The call as an item of the final response, a map. *)
Definition call_output (l : chatResponsesToolCall) : json :=
  sort_keys (JObj [("id", JStr (rc_ID l)); ("call_id", JStr (rc_CallID l)); ("type", JStr (if rc_IsCustom l then "custom_tool_call" else "function_call"));
    ("status", JStr "completed"); ("name", JStr (rc_Name l)); ("namespace", JStr (rc_Namespace l));
    (if rc_IsCustom l then "input" else "arguments", JStr (call_payload l))]).

Definition sorted_calls (s : ChatToResponsesStream) : list chatResponsesToolCall :=
  omap (fun i => cs_localToolCalls s !! i) (merge_sort Z.le (map fst (map_to_list (cs_localToolCalls s)))).

Definition final_outputs (s : ChatToResponsesStream) : list json :=
  (if cs_reasoningAdded s then [sort_keys (JObj (completedChatReasoningItem (reasoning_id s) (cs_fullReasoning s)))] else []) ++
  (if cs_messageAdded s then [sort_keys (message_output (msg_id s) (cs_fullText s))] else []) ++ map call_output (sorted_calls s).

Definition final_doc (s : ChatToResponsesStream) (now : Z) : json :=
  JObj [("id", JStr (resp_id s)); ("object", JStr "response"); ("created_at", num (wrap64 (now - 1))); ("status", JStr "completed");
        ("model", JStr (model_name s)); ("output", slice (final_outputs s));
        ("usage", JObj [("input_tokens", num (tu_Input (cs_usage s))); ("output_tokens", num (tu_Output (cs_usage s)));
           ("total_tokens", num (wrap64 (tu_Input (cs_usage s) + tu_Output (cs_usage s))))])].

Definition C2R_Finish (s : ChatToResponsesStream) (latest : TokenUsage) (now : Z) : ChatToResponsesStream * list ResponsesStreamEvent * StreamChunkMeta :=
  if cs_finished s then (s, [], no_meta)
  else
    let s := s <| cs_finished := true |> <| cs_usage := applyUsage (cs_usage s) latest |> in
    let meta := progressMeta s no_meta in
    if negb (cs_started s) then (s, [], meta)
    else
      let events := (if cs_reasoningAdded s then reasoning_done s else []) ++ (if cs_messageAdded s then text_done s else []) ++
                    concat (map (call_done (resp_id s)) (sorted_calls s)) ++
                    [struct_event "response.done" [("response", final_doc s now)]; struct_event "response.completed" [("response", final_doc s now)]] in
      (s, events, with_usage (meta <| sm_Completed := true |> <| sm_EmitDone := true |>) (cs_usage s)).
End finish.

(** * responses_messages_stream.go *)

Inductive item_kind := KThinking | KRedacted | KText | KToolUse.

Record responsesStreamItem := mkRItem {
  ri_kind : item_kind; ri_outputIndex : Z; ri_itemID : string; ri_callID : string; ri_name : string; ri_text : string; ri_signature : string; ri_closed : bool
}.
#[global] Instance eta_ritem : Eta responsesStreamItem := fun i =>
  mkRItem (ri_kind i) (ri_outputIndex i) (ri_itemID i) (ri_callID i) (ri_name i) (ri_text i) (ri_signature i) (ri_closed i).

Record MessagesToResponsesStream := mkM2R {
  mr_model : string; mr_respID : string; mr_idBase : string; mr_createdAt : Z; mr_started : bool; mr_items : gmap Z responsesStreamItem;
  mr_nextOutput : Z; mr_completed : list json; mr_stopReason : string; mr_usageInput : Z; mr_usageOutput : Z; mr_usageCached : Z; mr_usageCreation : Z
}.
#[global] Instance eta_m2r : Eta MessagesToResponsesStream := fun s =>
  mkM2R (mr_model s) (mr_respID s) (mr_idBase s) (mr_createdAt s) (mr_started s) (mr_items s) (mr_nextOutput s) (mr_completed s) (mr_stopReason s)
    (mr_usageInput s) (mr_usageOutput s) (mr_usageCached s) (mr_usageCreation s).

Definition NewMessagesToResponsesStream (model : string) (now : Z) : MessagesToResponsesStream :=
  mkM2R model "resp_mock" "" now false ∅ 0 [] "" 0 0 0 0.

Notation memits := (MessagesToResponsesStream * list ResponsesStreamEvent)%type.

Definition emitStarted (s : MessagesToResponsesStream) : memits :=
  if mr_started s then (s, [])
  else (s <| mr_started := true |>,
        [map_event "response.created" [("response", JObj (started_doc (mr_respID s) (mr_createdAt s) (mr_model s)))];
         map_event "response.in_progress" [("response", JObj (started_doc (mr_respID s) (mr_createdAt s) (mr_model s)))]]).

Definition tool_item (it : responsesStreamItem) (status args : string) : obj :=
  let '(ns, name) := splitChatToolName (ri_name it) in
  let item := [("id", JStr (ri_itemID it)); ("call_id", JStr (ri_callID it)); ("type", JStr "function_call"); ("status", JStr status);
               ("name", JStr name); ("arguments", JStr args)] in
  if is_empty ns then item else put "namespace" (JStr ns) item.

Definition emitItemAdded (s : MessagesToResponsesStream) (it : responsesStreamItem) : memits :=
  let '(s, e0) := emitStarted s in
  let i := num (ri_outputIndex it) in
  let payload := match ri_kind it with
                 | KThinking | KRedacted => responsesReasoningItem (ri_itemID it) [] ""
                 | KText => [("id", JStr (ri_itemID it)); ("type", JStr "message"); ("status", JStr "in_progress"); ("role", JStr "assistant"); ("content", JArr [])]
                 | KToolUse => tool_item it "in_progress" ""
                 end in
  let part kind part := [map_event kind ([("response_id", JStr (mr_respID s)); ("item_id", JStr (ri_itemID it)); ("output_index", i)] ++ part)] in
  (s, e0 ++ map_event "response.output_item.added" [("response_id", JStr (mr_respID s)); ("output_index", i); ("item", JObj payload)] ::
      match ri_kind it with
      | KThinking => part "response.reasoning_summary_part.added" [("summary_index", num 0); ("part", reasoningSummaryPart "")]
      | KText => part "response.content_part.added" [("content_index", num 0); ("part", JObj (output_text_part ""))]
      | _ => []
      end).

(** The item when its block ends. *)
Definition done_item (it : responsesStreamItem) : json :=
  match ri_kind it with
  | KThinking | KRedacted =>
      JObj (responsesReasoningItem (ri_itemID it) (if is_empty (ri_text it) then [] else reasoningSummary (ri_text it)) (ri_signature it))
  | KText => message_output (ri_itemID it) (ri_text it)
  | KToolUse => JObj (tool_item it "completed" (ri_text it))
  end.

(** [k]: the index of the block the item stands for. *)
Definition closeItem (s : MessagesToResponsesStream) (k : Z) (it : responsesStreamItem) : memits :=
  if ri_closed it then (s, [])
  else
    let ids := [("response_id", JStr (mr_respID s)); ("item_id", JStr (ri_itemID it)); ("output_index", num (ri_outputIndex it))] in
    let parts := match ri_kind it with
                 | KThinking => [map_event "response.reasoning_summary_text.done" (ids ++ [("summary_index", num 0); ("text", JStr (ri_text it))]);
                                 map_event "response.reasoning_summary_part.done" (ids ++ [("summary_index", num 0); ("part", reasoningSummaryPart (ri_text it))])]
                 | KRedacted => []
                 | KText => [map_event "response.output_text.done" (ids ++ [("content_index", num 0); ("text", JStr (ri_text it))]);
                             map_event "response.content_part.done" (ids ++ [("content_index", num 0); ("part", JObj (output_text_part (ri_text it)))])]
                 | KToolUse => [map_event "response.function_call.arguments.done" (ids ++ [("arguments", JStr (ri_text it))])]
                 end in
    (s <| mr_items := <[k := it <| ri_closed := true |>]> (mr_items s) |> <| mr_completed := mr_completed s ++ [done_item it] |>,
     parts ++ [map_event "response.output_item.done" [("response_id", JStr (mr_respID s)); ("output_index", num (ri_outputIndex it)); ("item", done_item it)]]).

(** Items in order of their output index: each place takes the least of what is left, by
    exchanges. *)
Fixpoint exchange_pass (x : Z * responsesStreamItem) (l : list (Z * responsesStreamItem)) : (Z * responsesStreamItem) * list (Z * responsesStreamItem) :=
  match l with
  | [] => (x, [])
  | y :: r => if ri_outputIndex (snd y) <? ri_outputIndex (snd x) then let '(m, r) := exchange_pass y r in (m, x :: r)
              else let '(m, r) := exchange_pass x r in (m, y :: r)
  end.
Fixpoint exchange_sort (fuel : nat) (l : list (Z * responsesStreamItem)) : list (Z * responsesStreamItem) :=
  match fuel, l with
  | S fuel, x :: r => let '(m, r) := exchange_pass x r in m :: exchange_sort fuel r
  | _, _ => l
  end.
Definition sortedOpenItems (s : MessagesToResponsesStream) : list (Z * responsesStreamItem) :=
  let open := List.filter (fun x => negb (ri_closed (snd x))) (map_to_list (mr_items s)) in exchange_sort (length open) open.

Fixpoint close_items (s : MessagesToResponsesStream) (l : list (Z * responsesStreamItem)) : memits :=
  match l with
  | [] => (s, [])
  | (k, it) :: r => let '(s, e1) := closeItem s k it in let '(s, e2) := close_items s r in (s, e1 ++ e2)
  end.

Definition finalResponse (s : MessagesToResponsesStream) (status : string) : obj :=
  let totalInput := wrap64 (wrap64 (mr_usageInput s + mr_usageCached s) + mr_usageCreation s) in
  let resp := [("id", JStr (mr_respID s)); ("object", JStr "response"); ("created_at", num (mr_createdAt s)); ("status", JStr status); ("model", JStr (mr_model s));
               ("output", JArr (mr_completed s));
               ("usage", JObj [("input_tokens", num totalInput); ("output_tokens", num (mr_usageOutput s)); ("total_tokens", num (wrap64 (totalInput + mr_usageOutput s)));
                  ("input_tokens_details", JObj [("cached_tokens", num (mr_usageCached s))])])] in
  if seqb status "completed" && seqb (mr_stopReason s) "max_tokens"
  then put "incomplete_details" (JObj [("reason", JStr "max_output_tokens")]) (put "status" (JStr "incomplete") resp) else resp.

Definition finalEvents (s : MessagesToResponsesStream) (status : string) : list ResponsesStreamEvent :=
  [map_event "response.done" [("response", JObj (finalResponse s status))]; map_event "response.completed" [("response", JObj (finalResponse s status))]].
Definition finalEventsWithError (s : MessagesToResponsesStream) (message : string) : list ResponsesStreamEvent :=
  let response := put "error" (JObj [("message", JStr message); ("type", JStr "upstream_error")]) (finalResponse s "failed") in
  [map_event "response.failed" [("response", JObj response)]; map_event "response.completed" [("response", JObj response)]].

Section m2r.
Context (N : JsonNum).
Notation m2r_result := (MessagesToResponsesStream * list ResponsesStreamEvent * StreamChunkMeta)%type.

Definition start_usage (s : MessagesToResponsesStream) (message : obj) : MessagesToResponsesStream * StreamChunkMeta :=
  match as_map (get "usage" message) with
  | None => (s, no_meta)
  | Some u =>
      let s := s <| mr_usageInput := intFrom N (get "input_tokens" u) |> <| mr_usageCached := intFrom N (get "cache_read_input_tokens" u) |>
                 <| mr_usageCreation := intFrom N (get "cache_creation_input_tokens" u) |> in
      let m := no_meta <| sm_InputTokens := wrap64 (wrap64 (mr_usageInput s + mr_usageCached s) + mr_usageCreation s) |>
                       <| sm_CachedTokens := mr_usageCached s |> <| sm_CacheCreationTokens := mr_usageCreation s |> in
      let ot := intFrom N (get "output_tokens" u) in
      if 0 <? ot then (s <| mr_usageOutput := ot |>, m <| sm_OutputTokens := ot |>) else (s, m)
  end.

Definition start_message (s : MessagesToResponsesStream) (message : obj) : MessagesToResponsesStream * StreamChunkMeta :=
  let id := get_str "id" message in
  let s := if is_empty id then s else s <| mr_respID := normalizeResponsesID id |> <| mr_idBase := stripMsgPrefix id |> in
  let m := get_str "model" message in
  let s := if negb (is_empty m) && is_empty (mr_model s) then s <| mr_model := m |> else s in
  start_usage s message.

(** The item of a block, if its kind can be converted. *)
Definition new_item (s : MessagesToResponsesStream) (cb : obj) : option responsesStreamItem :=
  let i := mr_nextOutput s in
  let suffix := mr_idBase s +:+ "_" +:+ Itoa i in
  let t := get_str "type" cb in
  if seqb t "thinking" then Some (mkRItem KThinking i ("rs_" +:+ suffix) "" "" "" "" false)
  else if seqb t "redacted_thinking" then Some (mkRItem KRedacted i ("rs_" +:+ suffix) "" "" "" (get_str "data" cb) false)
  else if seqb t "text" then Some (mkRItem KText i ("msg_" +:+ suffix) "" "" "" "" false)
  else if seqb t "tool_use" then
    Some (mkRItem KToolUse i ("fc_" +:+ stripToolUsePrefix (get_str "id" cb)) (get_str "id" cb) (get_str "name" cb) "" "" false)
  else None.

Definition block_start (s : MessagesToResponsesStream) (ev : obj) : memits :=
  match as_map (get "content_block" ev) with
  | None => (s, [])
  | Some cb =>
      match new_item s cb with
      | None => (s, [])
      | Some it => emitItemAdded (s <| mr_nextOutput := mr_nextOutput s + 1 |> <| mr_items := <[intFrom N (get "index" ev) := it]> (mr_items s) |>) it
      end
  end.

(** Text of a delta, appended to its item: the event and its member besides the delta. *)
Definition item_delta (s : MessagesToResponsesStream) (k : Z) (it : responsesStreamItem) (kind : string) (extra : obj) (text : string) : m2r_result :=
  if is_empty text then (s, [], no_meta)
  else (s <| mr_items := <[k := it <| ri_text := ri_text it +:+ text |>]> (mr_items s) |>,
        [map_event kind ([("response_id", JStr (mr_respID s)); ("item_id", JStr (ri_itemID it)); ("output_index", num (ri_outputIndex it))] ++ extra ++ [("delta", JStr text)])],
        no_meta <| sm_TransmittedChars := len text |>).

Definition block_delta (s : MessagesToResponsesStream) (ev : obj) : m2r_result :=
  let k := intFrom N (get "index" ev) in
  match mr_items s !! k, as_map (get "delta" ev) with
  | Some it, Some d =>
      let t := get_str "type" d in
      if seqb t "thinking_delta" then item_delta s k it "response.reasoning_summary_text.delta" [("summary_index", num 0)] (thinkingText d)
      else if seqb t "signature_delta" then (s <| mr_items := <[k := it <| ri_signature := ri_signature it +:+ get_str "signature" d |>]> (mr_items s) |>, [], no_meta)
      else if seqb t "text_delta" then item_delta s k it "response.output_text.delta" [("content_index", num 0)] (get_str "text" d)
      else if seqb t "input_json_delta" then item_delta s k it "response.function_call.arguments.delta" [] (get_str "partial_json" d)
      else (s, [], no_meta)
  | _, _ => (s, [], no_meta)
  end.

Definition block_stop (s : MessagesToResponsesStream) (ev : obj) : memits :=
  let k := intFrom N (get "index" ev) in match mr_items s !! k with Some it => closeItem s k it | None => (s, []) end.

Definition message_delta (s : MessagesToResponsesStream) (ev : obj) : MessagesToResponsesStream * StreamChunkMeta :=
  let ot := intFrom N (get "output_tokens" (sub_map "usage" ev)) in
  let '(s, m) := if 0 <? ot then (s <| mr_usageOutput := ot |>, no_meta <| sm_OutputTokens := ot |>) else (s, no_meta) in
  (match as_string (get "stop_reason" (sub_map "delta" ev)) with Some sr => s <| mr_stopReason := sr |> | None => s end, m).

Definition m2r_event (s : MessagesToResponsesStream) (ev : obj) : m2r_result :=
  let t := get_str "type" ev in
  if seqb t "message_start" then
    let '(s, m) := match as_map (get "message" ev) with Some message => start_message s message | None => (s, no_meta) end in
    let '(s, e) := emitStarted s in (s, e, m)
  else if seqb t "content_block_start" then (block_start s ev, no_meta)
  else if seqb t "content_block_delta" then block_delta s ev
  else if seqb t "content_block_stop" then (block_stop s ev, no_meta)
  else if seqb t "message_delta" then let '(s, m) := message_delta s ev in (s, [], m)
  else if seqb t "message_stop" then
    let '(s, e) := close_items s (sortedOpenItems s) in (s, e ++ finalEvents s "completed", no_meta <| sm_EmitDone := true |>)
  else if seqb t "error" then
    let msg := let m := get_str "message" (sub_map "error" ev) in if is_empty m then "upstream anthropic error" else m in
    (s, finalEventsWithError s msg, no_meta <| sm_ErrorMessage := msg |> <| sm_EmitDone := true |>)
  else (s, [], no_meta).

Definition M2R_FeedJSON (s : MessagesToResponsesStream) (data : string) : m2r_result :=
  if seqb data "[DONE]" then (s, [], no_meta <| sm_EmitDone := true |>)
  else match decode_map N data with
       | None => (s, [], no_meta)
       | Some m => m2r_event s (default [] m)
       end.
End m2r.

(** * What a Responses client accepts *)

Inductive event_kind := EvCreated | EvProgress | EvAdded | EvPart | EvDelta | EvText (field : string) | EvItemDone | EvDone | EvFailed | EvCompleted.

Definition kind_of (event : string) : option event_kind :=
  if seqb event "response.created" then Some EvCreated
  else if seqb event "response.in_progress" then Some EvProgress
  else if seqb event "response.output_item.added" then Some EvAdded
  else if seqb event "response.content_part.added" || seqb event "response.reasoning_summary_part.added" ||
          seqb event "response.content_part.done" || seqb event "response.reasoning_summary_part.done" then Some EvPart
  else if seqb event "response.output_text.delta" || seqb event "response.reasoning_summary_text.delta" ||
          seqb event "response.function_call.arguments.delta" then Some EvDelta
  else if seqb event "response.output_text.done" || seqb event "response.reasoning_summary_text.done" then Some (EvText "text")
  else if seqb event "response.function_call.arguments.done" then Some (EvText "arguments")
  else if seqb event "response.output_item.done" then Some EvItemDone
  else if seqb event "response.done" then Some EvDone
  else if seqb event "response.failed" then Some EvFailed
  else if seqb event "response.completed" then Some EvCompleted
  else None.

(** Items of the response by output index: the text received so far, and whether the item is
    done; then the items done, in order. *)
Notation open_items := (gmap string (string * bool)).
(** The end keeps the output of the response. *)
Inductive rphase := RNew | RCreated | ROpen (items : open_items) (done : list json) | RFinal (output : list json) | REnd (output : list json).

(** An item as the client compares it: an empty namespace is none. *)
Definition item_text (item : json) : string :=
  Marshal (match item with JObj m => JObj (if is_empty (get_str "namespace" m) then del "namespace" m else m) | j => j end).

Definition closed_all (items : open_items) : bool := bool_decide (map_Forall (fun _ (x : string * bool) => snd x = true) items).

Definition on_item (items : open_items) (done : list json) (k : event_kind) (m : obj) : option rphase :=
  match get "output_index" m with
  | Some (JNum i) =>
      match k, items !! i with
      | EvAdded, None => Some (ROpen (<[i := ("", false)]> items) done)
      | EvPart, Some (_, false) => Some (ROpen items done)
      | EvDelta, Some (t, false) => Some (ROpen (<[i := (t +:+ get_str "delta" m, false)]> items) done)
      | EvText field, Some (t, false) => if seqb (get_str field m) t then Some (ROpen items done) else None
      | EvItemDone, Some (t, false) => Some (ROpen (<[i := (t, true)]> items) (done ++ [default JNull (get "item" m)]))
      | _, _ => None
      end
  | _ => None
  end.

(** The whole response repeats the items that were announced as done, in order. *)
Definition response_outputs (m : obj) : list json := default [] (as_list (get "output" (sub_map "response" m))).
Definition on_response_done (items : open_items) (done : list json) (m : obj) : option rphase :=
  if closed_all items && bool_decide (map item_text (response_outputs m) = map item_text done) then Some (RFinal (response_outputs m)) else None.

Definition raccept (p : rphase) (e : ResponsesStreamEvent) : option rphase :=
  match re_Data e with
  | JObj m =>
      if negb (seqb (get_str "type" m) (re_Event e)) then None
      else
        match p, kind_of (re_Event e) with
        | RNew, Some EvCreated => Some RCreated
        | RCreated, Some EvProgress => Some (ROpen ∅ [])
        | ROpen items done, Some EvDone => on_response_done items done m
        | ROpen _ _, Some EvFailed => Some (RFinal (response_outputs m))
        | ROpen items done, Some k => on_item items done k m
        | RFinal output, Some EvCompleted => Some (REnd output)
        | _, _ => None
        end
  | _ => None
  end.

Fixpoint raccept_all (p : rphase) (es : list ResponsesStreamEvent) : option rphase :=
  match es with [] => Some p | e :: r => p ← raccept p e; raccept_all p r end.

Lemma raccept_all_app p es es' : raccept_all p (es ++ es') = (p ← raccept_all p es; raccept_all p es').
Proof. revert p. induction es as [|e es IH]; intros p; [done|]. cbn. destruct (raccept p e); cbn; [apply IH|done]. Qed.

Lemma Itoa_injective i j : Itoa i = Itoa j -> i = j.
Proof. apply (inj pretty.pretty). Qed.

(** An event that belongs to an item, whichever way its payload is written. *)
Definition event_of (k : event_kind) (i : Z) (e : ResponsesStreamEvent) : Prop :=
  exists m, re_Data e = JObj m /\ get_str "type" m = re_Event e /\ kind_of (re_Event e) = Some k /\ get "output_index" m = Some (num i).

Lemma raccept_item items done k i e m : re_Data e = JObj m -> event_of k i e ->
  match k with EvAdded | EvPart | EvDelta | EvText _ | EvItemDone => True | _ => False end -> raccept (ROpen items done) e = on_item items done k m.
Proof.
  intros E (m' & E' & T & K & _) Hk. rewrite E in E'. injection E' as <-. unfold raccept. rewrite E, T, seqb_refl, K. cbn [negb]. by destruct k.
Qed.

Lemma raccept_added items done i e : event_of EvAdded i e -> items !! Itoa i = None -> raccept (ROpen items done) e = Some (ROpen (<[Itoa i := ("", false)]> items) done).
Proof. intros H L. pose proof H as (m & E & _ & _ & I). rewrite (raccept_item _ _ EvAdded i e m) by done. unfold on_item. rewrite I. unfold num. by rewrite L. Qed.
Lemma raccept_part items done i e t : event_of EvPart i e -> items !! Itoa i = Some (t, false) -> raccept (ROpen items done) e = Some (ROpen items done).
Proof. intros H L. pose proof H as (m & E & _ & _ & I). rewrite (raccept_item _ _ EvPart i e m) by done. unfold on_item. rewrite I. unfold num. by rewrite L. Qed.
Lemma raccept_delta items done i e m t : re_Data e = JObj m -> event_of EvDelta i e -> items !! Itoa i = Some (t, false) ->
  raccept (ROpen items done) e = Some (ROpen (<[Itoa i := (t +:+ get_str "delta" m, false)]> items) done).
Proof. intros E H L. pose proof H as (m' & E' & _ & _ & I). rewrite (raccept_item _ _ EvDelta i e m) by done. rewrite E in E'. injection E' as <-. unfold on_item. rewrite I. unfold num. by rewrite L. Qed.
Lemma raccept_text items done f i e m t : re_Data e = JObj m -> event_of (EvText f) i e -> get_str f m = t -> items !! Itoa i = Some (t, false) ->
  raccept (ROpen items done) e = Some (ROpen items done).
Proof. intros E H F L. pose proof H as (m' & E' & _ & _ & I). rewrite (raccept_item _ _ (EvText f) i e m) by done. rewrite E in E'. injection E' as <-. unfold on_item. rewrite I. unfold num. by rewrite L, F, seqb_refl. Qed.
Lemma raccept_item_done items done i e m t : re_Data e = JObj m -> event_of EvItemDone i e -> items !! Itoa i = Some (t, false) ->
  raccept (ROpen items done) e = Some (ROpen (<[Itoa i := (t, true)]> items) (done ++ [default JNull (get "item" m)])).
Proof. intros E H L. pose proof H as (m' & E' & _ & _ & I). rewrite (raccept_item _ _ EvItemDone i e m) by done. rewrite E in E'. injection E' as <-. unfold on_item. rewrite I. unfold num. by rewrite L. Qed.

(** Reads the members of an event that is written out. *)
Ltac event_fields := eexists; split_and!; [reflexivity|reflexivity|reflexivity|reflexivity].
