(* ===== verification/ResponsesStreamChat.v ===== *)
(** Chat streams as Responses streams: the machine of chat_responses_stream.go keeps a client
    satisfied, and says what the frames say. *)

From Stdlib Require Import Ascii.
From S2P Require Import Prelude GoFloat GoStrings GoTime GoJson GoPrint Matcher Policy Types Context Http Translate TranslateWire TranslateStream TranslateMessages TranslateResponses TranslateResponsesMessages TranslateResponsesStream.

(** The items of the machine: whose they are, where and with which text. *)
Inductive owner := OReasoning | OText | OCall (k : Z).
#[global] Instance owner_eq : EqDecision owner.
Proof. solve_decision. Defined.

Definition owner_index (s : ChatToResponsesStream) (o : owner) : option Z :=
  match o with
  | OReasoning => if cs_reasoningAdded s then Some (cs_reasoningOutputIndex s) else None
  | OText => if cs_messageAdded s then Some (cs_textOutputIndex s) else None
  | OCall k => rc_OutputIndex <$> cs_localToolCalls s !! k
  end.
Definition owner_text (s : ChatToResponsesStream) (o : owner) : string :=
  match o with
  | OReasoning => cs_fullReasoning s
  | OText => cs_fullText s
  | OCall k => match cs_localToolCalls s !! k with Some l => rc_Arguments l | None => "" end
  end.
(** Custom calls are not sent in pieces. *)
Definition owner_streamed (s : ChatToResponsesStream) (o : owner) : bool :=
  match o with OCall k => match cs_localToolCalls s !! k with Some l => negb (rc_IsCustom l) | None => true end | _ => true end.

Record c2r_inv (s : ChatToResponsesStream) (items : open_items) : Prop := {
  cv_range : forall o i, owner_index s o = Some i -> 0 <= i < cs_currentOutputIndex s;
  cv_inj : forall o o' i, owner_index s o = Some i -> owner_index s o' = Some i -> o = o';
  cv_open : forall o i, owner_index s o = Some i -> exists t, items !! Itoa i = Some (t, false) /\ (owner_streamed s o = true -> t = owner_text s o);
  cv_only : forall j x, items !! j = Some x -> exists o i, owner_index s o = Some i /\ j = Itoa i;
  cv_none : forall o, owner_index s o = None -> owner_text s o = "";
  cv_added : forall k l, cs_localToolCalls s !! k = Some l -> rc_Added l = true;
  cv_next : 0 <= cs_currentOutputIndex s
}.

Definition same_owner (s s' : ChatToResponsesStream) (o : owner) : Prop :=
  owner_index s' o = owner_index s o /\ owner_text s' o = owner_text s o /\ owner_streamed s' o = owner_streamed s o.

Lemma inv_fresh s items : c2r_inv s items -> items !! Itoa (cs_currentOutputIndex s) = None.
Proof.
  intros I. destruct (items !! _) as [x|] eqn:E; [|done]. apply (cv_only s items I) in E as (o & i & Ho & Ei). apply Itoa_injective in Ei.
  apply (cv_range s items I) in Ho. lia.
Qed.

(** A new item with its first text. *)
Lemma inv_new s s' items o t : c2r_inv s items -> owner_index s o = None -> (forall o', o' <> o -> same_owner s s' o') ->
  owner_index s' o = Some (cs_currentOutputIndex s) -> (owner_streamed s' o = true -> t = owner_text s' o) ->
  cs_currentOutputIndex s' = cs_currentOutputIndex s + 1 -> (forall k l, cs_localToolCalls s' !! k = Some l -> rc_Added l = true) ->
  c2r_inv s' (<[Itoa (cs_currentOutputIndex s) := (t, false)]> items).
Proof.
  intros I No Same Ix Tx Cur Ad. pose proof (inv_fresh s items I) as Fr. pose proof (cv_next s items I) as Nx. split; [| | | | |done|lia].
  - intros o' i H. destruct (decide (o' = o)) as [->|Ne]; [rewrite Ix in H; injection H as <-; lia|].
    destruct (Same o' Ne) as [E _]. rewrite E in H. apply (cv_range s items I) in H. lia.
  - assert (forall o' i, o' <> o -> owner_index s' o' = Some i -> owner_index s' o = Some i -> False) as D.
    { intros o' i Ne H1 H2. destruct (Same o' Ne) as [E _]. rewrite E in H1. apply (cv_range s items I) in H1. rewrite Ix in H2. injection H2 as <-. lia. }
    intros o1 o2 i H1 H2. destruct (decide (o1 = o)) as [->|N1], (decide (o2 = o)) as [->|N2]; [done|exfalso; by eapply D|exfalso; by eapply D|].
    destruct (Same o1 N1) as [E1 _], (Same o2 N2) as [E2 _]. rewrite E1 in H1. rewrite E2 in H2. by apply (cv_inj s items I o1 o2 i).
  - intros o' i H. destruct (decide (o' = o)) as [->|Ne].
    + rewrite Ix in H. injection H as <-. exists t. by rewrite lookup_insert_eq.
    + destruct (Same o' Ne) as (E & Et & Es). rewrite E in H. pose proof (cv_range s items I _ _ H).
      rewrite lookup_insert_ne by (intros Q%Itoa_injective; lia). rewrite Et, Es. by apply (cv_open s items I).
  - intros j x. destruct (decide (j = Itoa (cs_currentOutputIndex s))) as [->|Ne]; [by exists o, (cs_currentOutputIndex s)|].
    rewrite lookup_insert_ne by done. intros H. apply (cv_only s items I) in H as (o' & i & Ho & ->). exists o', i. split; [|done].
    destruct (decide (o' = o)) as [->|N']; [congruence|]. destruct (Same o' N') as [E _]. by rewrite E.
  - intros o' H. destruct (decide (o' = o)) as [->|Ne]; [congruence|]. destruct (Same o' Ne) as (E & Et & _). rewrite E in H. rewrite Et. by apply (cv_none s items I).
Qed.

(** New text of an item. *)
Lemma inv_write s s' items o i t : c2r_inv s items -> owner_index s o = Some i -> (forall o', o' <> o -> same_owner s s' o') ->
  owner_index s' o = Some i -> (owner_streamed s' o = true -> t = owner_text s' o) ->
  cs_currentOutputIndex s' = cs_currentOutputIndex s -> (forall k l, cs_localToolCalls s' !! k = Some l -> rc_Added l = true) ->
  c2r_inv s' (<[Itoa i := (t, false)]> items).
Proof.
  intros I Ho Same Ix Tx Cur Ad. pose proof (cv_next s items I) as Nx.
  assert (forall o', owner_index s' o' = owner_index s o') as Eq.
  { intros o'. destruct (decide (o' = o)) as [->|Ne]; [by rewrite Ix, Ho|]. by destruct (Same o' Ne). }
  split; [| | | | |done|lia].
  - intros o' j. rewrite Eq, Cur. apply (cv_range s items I).
  - intros o1 o2 j. rewrite !Eq. apply (cv_inj s items I).
  - intros o' j H. rewrite Eq in H. destruct (decide (o' = o)) as [->|Ne].
    + rewrite Ho in H. injection H as <-. exists t. by rewrite lookup_insert_eq.
    + destruct (Same o' Ne) as (_ & Et & Es). rewrite lookup_insert_ne, Et, Es; [by apply (cv_open s items I)|].
      intros Q%Itoa_injective. subst j. apply Ne. by apply (cv_inj s items I o' o i).
  - intros j x. destruct (decide (j = Itoa i)) as [->|Ne]; [intros _; exists o, i; by rewrite Ix|].
    rewrite lookup_insert_ne by done. intros H. apply (cv_only s items I) in H as (o' & i' & H' & ->). exists o', i'. by rewrite Eq.
  - intros o' H. rewrite Eq in H. destruct (decide (o' = o)) as [->|Ne]; [congruence|]. destruct (Same o' Ne) as (_ & Et & _). rewrite Et. by apply (cv_none s items I).
Qed.

(** A part of the machine that keeps the client satisfied. *)
Definition rsound (s : ChatToResponsesStream) (items : open_items) (r : remits) : Prop :=
  exists items', c2r_inv (fst r) items' /\ raccept_all (ROpen items []) (snd r) = Some (ROpen items' []) /\ cs_started (fst r) = cs_started s.

Lemma rsound_skip s items : c2r_inv s items -> rsound s items (s, []).
Proof. intros I. by exists items. Qed.

Definition delta_of (e : ResponsesStreamEvent) : string := match re_Data e with JObj m => get_str "delta" m | _ => "" end.

(** An item that is announced, filled and stays open. *)
Lemma raccept_opening items i e1 parts e2 : items !! Itoa i = None -> event_of EvAdded i e1 -> Forall (event_of EvPart i) parts -> event_of EvDelta i e2 ->
  raccept_all (ROpen items []) (e1 :: parts ++ [e2]) = Some (ROpen (<[Itoa i := (delta_of e2, false)]> items) []).
Proof.
  intros Fr H1 Hp H2. pose proof H2 as (m & E2 & _). unfold delta_of. rewrite E2. cbn [raccept_all]. rewrite (raccept_added _ _ i) by done. cbn [mbind option_bind].
  rewrite raccept_all_app. assert (raccept_all (ROpen (<[Itoa i := ("", false)]> items) []) parts = Some (ROpen (<[Itoa i := ("", false)]> items) [])) as ->.
  { induction Hp as [|e parts H Hp IH]; [done|]. cbn [raccept_all]. rewrite (raccept_part _ _ i _ ""); [exact IH|done|by rewrite lookup_insert_eq]. }
  cbn [mbind option_bind raccept_all]. rewrite (raccept_delta _ _ i _ m "") by (done || by rewrite lookup_insert_eq). cbn [mbind option_bind]. by rewrite insert_insert_eq.
Qed.

Lemma feed_text_sound s items t : c2r_inv s items -> rsound s items (feed_text s t).
Proof.
  intros I. unfold feed_text. destruct (is_empty t); [by apply rsound_skip|]. unfold sendPlainResponsesText. destruct (cs_messageAdded s) eqn:A.
  - assert (owner_index s OText = Some (cs_textOutputIndex s)) as Ho by (cbn; by rewrite A).
    destruct (cv_open s items I _ _ Ho) as (t0 & L & Et). specialize (Et eq_refl). cbn in Et. subst t0.
    eexists. cbn [app fst snd]. split_and!; [|cbn [raccept_all]; erewrite raccept_delta; [reflexivity|reflexivity|event_fields|exact L]|done].
    apply (inv_write s _ items OText); [done|done|intros [] ?; done|cbn; by rewrite A|done|done|exact (cv_added s items I)].
  - assert (owner_index s OText = None) as Ho by (cbn; by rewrite A). pose proof (cv_none s items I _ Ho) as Z. cbn in Z.
    eexists. cbn [app fst snd]. split_and!; [| |done].
    2: { refine (raccept_opening items (cs_currentOutputIndex s) _ [_] _ _ _ _ _); [by apply inv_fresh|event_fields| |event_fields].
         apply Forall_singleton. event_fields. }
    apply (inv_new s _ items OText); [done|done|intros [] ?; done|done| |done|exact (cv_added s items I)]. intros _. cbn. by rewrite Z.
Qed.

Lemma feed_reasoning_sound s items t : c2r_inv s items -> rsound s items (feed_reasoning s t).
Proof.
  intros I. unfold feed_reasoning. destruct (is_empty t); [by apply rsound_skip|]. unfold sendResponsesReasoningDelta. destruct (cs_reasoningAdded s) eqn:A.
  - assert (owner_index s OReasoning = Some (cs_reasoningOutputIndex s)) as Ho by (cbn; by rewrite A).
    destruct (cv_open s items I _ _ Ho) as (t0 & L & Et). specialize (Et eq_refl). cbn in Et. subst t0.
    eexists. cbn [app fst snd]. split_and!; [|cbn [raccept_all]; erewrite raccept_delta; [reflexivity|reflexivity|event_fields|exact L]|done].
    apply (inv_write s _ items OReasoning); [done|done|intros [] ?; done|cbn; by rewrite A|done|done|exact (cv_added s items I)].
  - assert (owner_index s OReasoning = None) as Ho by (cbn; by rewrite A). pose proof (cv_none s items I _ Ho) as Z. cbn in Z.
    eexists. cbn [app fst snd]. split_and!; [| |done].
    2: { refine (raccept_opening items (cs_currentOutputIndex s) _ [_] _ _ _ _ _); [by apply inv_fresh|event_fields| |event_fields].
         apply Forall_singleton. event_fields. }
    apply (inv_new s _ items OReasoning); [done|done|intros [] ?; done|done| |done|exact (cv_added s items I)]. intros _. cbn. by rewrite Z.
Qed.

(** ** Calls *)

(** The names a mapper gives back are not empty. *)
Definition names_ok (mapper : option ToolNameMapper) : Prop :=
  match mapper with Some m => map_Forall (fun _ (e : string * string) => is_empty (snd e) = false) (rev_names m) | None => True end.

Lemma split_nonempty name : is_empty name = false -> is_empty (snd (splitChatToolName name)) = false.
Proof. pose proof (splitChatToolName_name name) as H. destruct (splitChatToolName name) as [ns n]. apply H. Qed.

Lemma restored_nonempty mapper name : names_ok mapper -> is_empty name = false -> is_empty (snd (restored_name mapper name)) = false.
Proof.
  destruct mapper as [m|]; cbn; [|intros _; apply split_nonempty]. intros H Ne. unfold Restore. destruct (rev_names m !! name) as [e|] eqn:E; [by apply (H name)|by apply split_nonempty].
Qed.

Lemma identify_frame mapper l tc : let l' := identify_call mapper l tc in
  rc_OutputIndex l' = rc_OutputIndex l /\ rc_Arguments l' = rc_Arguments l /\ rc_Added l' = rc_Added l /\ (rc_IsCustom l' = false -> rc_IsCustom l = false).
Proof.
  unfold identify_call. cbn zeta.
  set (l1 := if negb (is_empty (td_ID tc)) && _ then _ else l).
  assert (rc_OutputIndex l1 = rc_OutputIndex l /\ rc_Arguments l1 = rc_Arguments l /\ rc_Added l1 = rc_Added l /\ rc_IsCustom l1 = rc_IsCustom l) as (A1 & A2 & A3 & A4)
    by (unfold l1; by destruct (_ && _)).
  rewrite <- A1, <- A2, <- A3, <- A4. clearbody l1. clear A1 A2 A3 A4 l. set (l2 := if _ && _ then _ else l1).
  assert (rc_OutputIndex l2 = rc_OutputIndex l1 /\ rc_Arguments l2 = rc_Arguments l1 /\ rc_Added l2 = rc_Added l1 /\ rc_IsCustom l2 = rc_IsCustom l1) as (A1 & A2 & A3 & A4)
    by (unfold l2; by destruct (_ && _)).
  rewrite <- A1, <- A2, <- A3, <- A4. clearbody l2. destruct (is_empty (rc_Namespace l2)).
  - destruct (restored_name mapper (rc_Name l2)) as [ns n]. destruct (IsCustom _ _); done.
  - by destruct (IsCustom _ _).
Qed.

Lemma identify_name mapper s tc : names_ok mapper -> is_empty (td_Name tc) = false -> is_empty (rc_Name (identify_call mapper (new_call s tc) tc)) = false.
Proof.
  intros Ok Ne. unfold identify_call. cbn zeta. set (l1 := if negb (is_empty (td_ID tc)) && _ then _ else _).
  assert (rc_Name l1 = td_Name tc /\ rc_Namespace l1 = "") as [A1 A2] by (unfold l1; by destruct (_ && _)). rewrite A1, Ne. cbn [negb andb]. rewrite A1, A2. cbn [is_empty].
  pose proof (restored_nonempty mapper (td_Name tc) Ok Ne) as R. destruct (restored_name mapper (td_Name tc)) as [ns n]. by destruct (IsCustom _ _).
Qed.

(** A call with a known place: other items are not touched. *)
Lemma same_calls s s' k : cs_reasoningAdded s' = cs_reasoningAdded s -> cs_reasoningOutputIndex s' = cs_reasoningOutputIndex s -> cs_fullReasoning s' = cs_fullReasoning s ->
  cs_messageAdded s' = cs_messageAdded s -> cs_textOutputIndex s' = cs_textOutputIndex s -> cs_fullText s' = cs_fullText s ->
  (forall k', k' <> k -> cs_localToolCalls s' !! k' = cs_localToolCalls s !! k') -> forall o, o <> OCall k -> same_owner s s' o.
Proof.
  intros A B C D E F G [| |k'] Ne; unfold same_owner; cbn; rewrite ?A, ?B, ?C, ?D, ?E, ?F; [done..|]. assert (k' <> k) by congruence. by rewrite !G.
Qed.

Lemma feed_call_sound s items tc : c2r_inv s items -> names_ok (cs_mapper s) -> (cs_localToolCalls s !! td_Index tc = None -> is_empty (td_Name tc) = false) ->
  rsound s items (feed_call s tc).
Proof.
  intros I Nm Hn. unfold feed_call. destruct (cs_localToolCalls s !! td_Index tc) as [l|] eqn:L.
  - destruct (identify_frame (cs_mapper s) l tc) as (A1 & A2 & A3 & A4). set (l' := identify_call (cs_mapper s) l tc) in *. clearbody l'.
    pose proof (cv_added s items I _ _ L) as Ad. rewrite Ad in A3. cbn zeta. rewrite A3, andb_false_r. cbn [negb app].
    set (l2 := l' <| rc_Arguments := rc_Arguments l' +:+ td_Arguments tc |>). set (s' := s <| cs_localToolCalls := _ |>).
    assert (owner_index s (OCall (td_Index tc)) = Some (rc_OutputIndex l)) as Ho by (cbn; by rewrite L).
    assert (owner_index s' (OCall (td_Index tc)) = Some (rc_OutputIndex l)) as Ho' by (cbn; rewrite lookup_insert_eq; cbn; by rewrite A1).
    assert (forall o, o <> OCall (td_Index tc) -> same_owner s s' o) as Same by (apply same_calls; try done; intros k' Nk; cbn; by rewrite lookup_insert_ne).
    assert (forall k l, cs_localToolCalls s' !! k = Some l -> rc_Added l = true) as Ads.
    { intros k l0. cbn. destruct (decide (k = td_Index tc)) as [->|Nk]; [rewrite lookup_insert_eq; intros [= <-]; exact A3|].
      rewrite lookup_insert_ne by done. apply (cv_added s items I). }
    destruct (cv_open s items I _ _ Ho) as (t & Lt & Et). cbn in Et. rewrite L in Et. change (rc_IsCustom l2) with (rc_IsCustom l').
    destruct (rc_IsCustom l') eqn:Cu.
    + exists items. split_and!; [|done|done]. rewrite <- (insert_id items (Itoa (rc_OutputIndex l)) (t, false)) by done.
      apply (inv_write s s' items (OCall (td_Index tc))); try done. cbn. rewrite lookup_insert_eq. cbn. by rewrite Cu.
    + eexists. split_and!; [|cbn [snd raccept_all]; erewrite raccept_delta; [reflexivity|reflexivity| |rewrite <- A1 in Lt; exact Lt]|done]; [|event_fields].
      cbn [fst]. rewrite A1. apply (inv_write s s' items (OCall (td_Index tc))); try done. cbn. rewrite lookup_insert_eq, Et by (by rewrite A4).
      intros _. cbn. by rewrite A2.
  - destruct (identify_frame (cs_mapper s) (new_call s tc) tc) as (A1 & A2 & A3 & A4). pose proof (identify_name (cs_mapper s) s tc Nm (Hn eq_refl)) as Ne.
    set (s1 := s <| cs_currentOutputIndex := _ |>). change (cs_mapper s1) with (cs_mapper s). set (l' := identify_call (cs_mapper s) (new_call s tc) tc) in *. clearbody l'.
    cbn [rc_OutputIndex rc_Arguments rc_Added new_call] in A1, A2, A3. cbn zeta. rewrite A3, Ne. cbn [negb andb].
    set (l2 := l' <| rc_Added := true |> <| rc_Arguments := _ |>). set (s' := s1 <| cs_localToolCalls := _ |>).
    assert (owner_index s (OCall (td_Index tc)) = None) as Ho by (cbn; by rewrite L).
    assert (owner_index s' (OCall (td_Index tc)) = Some (cs_currentOutputIndex s)) as Ho' by (cbn; rewrite lookup_insert_eq; cbn; by rewrite A1).
    assert (forall o, o <> OCall (td_Index tc) -> same_owner s s' o) as Same by (apply same_calls; try done; intros k' Nk; cbn; by rewrite lookup_insert_ne).
    assert (forall k l, cs_localToolCalls s' !! k = Some l -> rc_Added l = true) as Ads.
    { intros k l0. cbn. destruct (decide (k = td_Index tc)) as [->|Nk]; [rewrite lookup_insert_eq; by intros [= <-]|].
      rewrite lookup_insert_ne by done. apply (cv_added s items I). }
    pose proof (inv_fresh s items I) as Fr. change (rc_IsCustom l2) with (rc_IsCustom l'). rewrite A1.
    destruct (rc_IsCustom l') eqn:Cu.
    + eexists. split_and!; [|cbn [app snd raccept_all]; erewrite raccept_added; [reflexivity|event_fields|exact Fr]|done].
      apply (inv_new s s' items (OCall (td_Index tc))); try done. cbn. rewrite lookup_insert_eq. cbn. by rewrite Cu.
    + change (rc_OutputIndex l2) with (rc_OutputIndex l'). rewrite A1.
      eexists. split_and!; [|refine (raccept_opening items (cs_currentOutputIndex s) _ [] _ _ _ _ _); [exact Fr|event_fields|done|event_fields]|done].
      apply (inv_new s s' items (OCall (td_Index tc))); try done. cbn. rewrite lookup_insert_eq. intros _. cbn. by rewrite A2.
Qed.

(** Calls whose first piece has a name, as the Chat protocol sends them. *)
Fixpoint named_calls (seen : gset Z) (tcs : list tool_delta) : bool :=
  match tcs with
  | [] => true
  | tc :: r => (bool_decide (td_Index tc ∈ seen) || negb (is_empty (td_Name tc))) && named_calls ({[td_Index tc]} ∪ seen) r
  end.

Definition seen_after (seen : gset Z) (tcs : list tool_delta) : gset Z := fold_left (fun seen tc => {[td_Index tc]} ∪ seen) tcs seen.

Lemma named_app tcs tcs' : forall seen, named_calls seen (tcs ++ tcs') = named_calls seen tcs && named_calls (seen_after seen tcs) tcs'.
Proof. induction tcs as [|tc tcs IH]; intros seen; [done|]. cbn. by rewrite IH, andb_assoc. Qed.

Lemma feed_call_dom s tc : dom (cs_localToolCalls (fst (feed_call s tc))) = {[td_Index tc]} ∪ dom (cs_localToolCalls s) /\
  cs_mapper (fst (feed_call s tc)) = cs_mapper s /\ cs_finished (fst (feed_call s tc)) = cs_finished s.
Proof. unfold feed_call. destruct (cs_localToolCalls s !! _); cbn; by rewrite dom_insert_L. Qed.

Lemma feed_calls_sound tcs : forall s items, c2r_inv s items -> names_ok (cs_mapper s) -> named_calls (dom (cs_localToolCalls s)) tcs = true ->
  rsound s items (feed_calls s tcs) /\ dom (cs_localToolCalls (fst (feed_calls s tcs))) = seen_after (dom (cs_localToolCalls s)) tcs /\
  cs_mapper (fst (feed_calls s tcs)) = cs_mapper s /\ cs_finished (fst (feed_calls s tcs)) = cs_finished s.
Proof.
  induction tcs as [|tc tcs IH]; intros s items I Nm H; [split; [by apply rsound_skip|done]|]. cbn [named_calls] in H. apply andb_true_iff in H as [H1 H2].
  assert (cs_localToolCalls s !! td_Index tc = None -> is_empty (td_Name tc) = false) as Hn.
  { intros L. apply orb_true_iff in H1 as [H1|H1]; [|by apply negb_true_iff in H1]. apply bool_decide_eq_true in H1. by apply not_elem_of_dom in L. }
  destruct (feed_call_sound s items tc I Nm Hn) as (items1 & I1 & A1 & St1). destruct (feed_call_dom s tc) as (D1 & M1 & F1). cbn [feed_calls].
  destruct (feed_call s tc) as [s1 e1]. cbn [fst snd] in *. destruct (IH s1 items1 I1) as ((items2 & I2 & A2 & St2) & D2 & M2 & F2); [by rewrite M1|by rewrite D1|].
  destruct (feed_calls s1 tcs) as [s2 e2]. cbn [fst snd] in *. split_and!; [|by rewrite D2, D1|congruence|congruence].
  exists items2. cbn [fst snd]. split_and!; [done| |congruence]. rewrite raccept_all_app, A1. exact A2.
Qed.

Definition quiet (s s' : ChatToResponsesStream) : Prop :=
  cs_localToolCalls s' = cs_localToolCalls s /\ cs_mapper s' = cs_mapper s /\ cs_finished s' = cs_finished s.
Lemma feed_text_quiet s t : quiet s (fst (feed_text s t)).
Proof. unfold quiet, feed_text. destruct (is_empty t); [done|]. unfold sendPlainResponsesText. by destruct (cs_messageAdded s). Qed.
Lemma feed_reasoning_quiet s t : quiet s (fst (feed_reasoning s t)).
Proof. unfold quiet, feed_reasoning. destruct (is_empty t); [done|]. unfold sendResponsesReasoningDelta. by destruct (cs_reasoningAdded s). Qed.

Lemma feed_delta_sound s items c : c2r_inv s items -> names_ok (cs_mapper s) -> named_calls (dom (cs_localToolCalls s)) (cc_ToolCalls c) = true ->
  rsound s items (feed_delta s c) /\ dom (cs_localToolCalls (fst (feed_delta s c))) = seen_after (dom (cs_localToolCalls s)) (cc_ToolCalls c) /\
  cs_mapper (fst (feed_delta s c)) = cs_mapper s /\ cs_finished (fst (feed_delta s c)) = cs_finished s.
Proof.
  intros I Nm H. unfold feed_delta. destruct (feed_reasoning_sound s items (delta_reasoning c) I) as (i1 & I1 & A1 & St1).
  destruct (feed_reasoning_quiet s (delta_reasoning c)) as (C1 & M1 & F1). destruct (feed_reasoning s (delta_reasoning c)) as [s1 e1]. cbn [fst snd] in *.
  destruct (feed_text_sound s1 i1 (cc_Content c) I1) as (i2 & I2 & A2 & St2). destruct (feed_text_quiet s1 (cc_Content c)) as (C2 & M2 & F2).
  destruct (feed_text s1 (cc_Content c)) as [s2 e2]. cbn [fst snd] in *.
  destruct (feed_calls_sound (cc_ToolCalls c) s2 i2 I2) as ((i3 & I3 & A3 & St3) & D3 & M3 & F3); [by rewrite M2, M1|by rewrite C2, C1|].
  destruct (feed_calls s2 (cc_ToolCalls c)) as [s3 e3]. cbn [fst snd] in *. split_and!; [|by rewrite D3, C2, C1|congruence|congruence].
  exists i3. cbn [fst snd]. split_and!; [done| |congruence]. rewrite raccept_all_app, A1. cbn [mbind option_bind]. rewrite raccept_all_app, A2. exact A3.
Qed.

(** The client before and after the start. *)
Definition stage (s : ChatToResponsesStream) (p : rphase) : Prop :=
  exists items, c2r_inv s items /\ if cs_started s then p = ROpen items [] else p = RNew /\ items = ∅.

Lemma c2r_inv_frame s s' items : c2r_inv s items -> (forall o, same_owner s s' o) -> cs_currentOutputIndex s' = cs_currentOutputIndex s ->
  cs_localToolCalls s' = cs_localToolCalls s -> c2r_inv s' items.
Proof.
  intros I Same Cur L. split; [| | | | |rewrite L; exact (cv_added s items I)|rewrite Cur; exact (cv_next s items I)].
  - intros o i. rewrite (proj1 (Same o)), Cur. apply (cv_range s items I).
  - intros o o' i. rewrite (proj1 (Same o)), (proj1 (Same o')). apply (cv_inj s items I).
  - intros o i. destruct (Same o) as (-> & -> & ->). apply (cv_open s items I).
  - intros j x H. destruct (cv_only s items I j x H) as (o' & i & E & ->). exists o', i. by rewrite (proj1 (Same o')).
  - intros o. destruct (Same o) as (-> & -> & _). apply (cv_none s items I).
Qed.

Lemma start_sound s now p : stage s p -> let '(s', es) := start_response s now in exists items, c2r_inv s' items /\ cs_started s' = true /\
  raccept_all p es = Some (ROpen items []) /\ quiet s s'.
Proof.
  intros (items & I & P). unfold start_response. destruct (cs_started s) eqn:St; [by exists items; subst p|]. destruct P as [-> ->].
  exists ∅. split_and!; [|done|reflexivity|done]. by apply (c2r_inv_frame s).
Qed.

(** The calls of a frame. *)
Definition frame_choice (data : string) : chat_choice :=
  if seqb (TrimSpace data) "[DONE]" then no_choice
  else match parse_responses_chunk data with Some ck => match ck_Choices ck with c :: _ => c | [] => no_choice end | None => no_choice end.

Lemma feed_frame_sound s p data now : stage s p -> names_ok (cs_mapper s) -> cs_finished s = false ->
  named_calls (dom (cs_localToolCalls s)) (cc_ToolCalls (frame_choice data)) = true ->
  let '(s', es, _) := C2R_FeedJSON s data now in
  exists p', stage s' p' /\ raccept_all p es = Some p' /\ cs_mapper s' = cs_mapper s /\ cs_finished s' = false /\
    dom (cs_localToolCalls s') = seen_after (dom (cs_localToolCalls s)) (cc_ToolCalls (frame_choice data)).
Proof.
  intros S0 Nm Fi H. unfold C2R_FeedJSON, frame_choice in *. rewrite Fi. destruct (seqb (TrimSpace data) "[DONE]").
  { exists p. split; [|done]. destruct S0 as (items & I & P). exists items. split; [by apply (c2r_inv_frame s)|done]. }
  set (s1 := match frame_finish data with Some r => _ | None => _ end).
  assert (stage s1 p) as S1.
  { destruct S0 as (items & I & P). exists items. split; [apply (c2r_inv_frame s); unfold s1; by destruct (frame_finish data)|].
    unfold s1. by destruct (frame_finish data). }
  assert (quiet s s1) as Q1 by (unfold quiet, s1; by destruct (frame_finish data)).
  destruct (parse_responses_chunk data) as [ck|]; [|exists p; destruct Q1 as (Q1 & Q2 & Q3); split_and!; [done|done|done|congruence|by rewrite Q1]].
  assert (stage (note_chunk s1 ck) p /\ quiet s (note_chunk s1 ck)) as [S2 Q2].
  { unfold note_chunk, stage, quiet in *. destruct (is_empty (ck_ID ck)), (is_empty (ck_Model ck)); (split; [|exact Q1]); destruct S1 as (items & I & P); exists items;
      (split; [by apply (c2r_inv_frame s1)|exact P]). }
  unfold feed_responses_chunk. pose proof (start_sound (note_chunk s1 ck) now p S2) as Q. destruct (start_response _ now) as [s3 e3].
  destruct Q as (items & I3 & St3 & A3 & (C3 & M3 & F3)). destruct Q2 as (C2 & M2 & F2).
  destruct (ck_Choices ck) as [|c cs].
  - exists (ROpen items []). rewrite app_nil_r. split_and!; [|done|congruence|congruence|by rewrite C3, C2]. exists items. by rewrite St3.
  - destruct (feed_delta_sound s3 items c I3) as ((items4 & I4 & A4 & St4) & D4 & M4 & F4); [by rewrite M3, M2|by rewrite C3, C2|].
    destruct (feed_delta s3 c) as [s4 e4]. cbn [fst snd] in *. exists (ROpen items4 []). split_and!; [|by rewrite raccept_all_app, A3|congruence|congruence|by rewrite D4, C3, C2].
    exists items4. by rewrite St4, St3.
Qed.

(** Frames with the time each arrives. *)
Fixpoint c2r_feed_all (s : ChatToResponsesStream) (frames : list (string * Z)) : remits :=
  match frames with
  | [] => (s, [])
  | (d, now) :: r => let '(s, e1, _) := C2R_FeedJSON s d now in let '(s, e2) := c2r_feed_all s r in (s, e1 ++ e2)
  end.

Definition frames_calls (frames : list (string * Z)) : list tool_delta := concat (map (fun f => cc_ToolCalls (frame_choice (fst f))) frames).

Lemma feed_all_sound frames : forall s p, stage s p -> names_ok (cs_mapper s) -> cs_finished s = false ->
  named_calls (dom (cs_localToolCalls s)) (frames_calls frames) = true ->
  exists p', stage (fst (c2r_feed_all s frames)) p' /\ raccept_all p (snd (c2r_feed_all s frames)) = Some p' /\ cs_finished (fst (c2r_feed_all s frames)) = false.
Proof.
  induction frames as [|[d now] frames IH]; intros s p S0 Nm Fi H; [by exists p|]. unfold frames_calls in H. cbn [map concat fst] in H. rewrite named_app in H.
  apply andb_true_iff in H as [H1 H2]. pose proof (feed_frame_sound s p d now S0 Nm Fi H1) as F. cbn [c2r_feed_all].
  destruct (C2R_FeedJSON s d now) as [[s1 e1] m1]. destruct F as (p1 & S1 & A1 & M1 & F1 & D1).
  destruct (IH s1 p1 S1) as (p2 & S2 & A2 & F2); [by rewrite M1|done|by rewrite D1|].
  destruct (c2r_feed_all s1 frames) as [s2 e2]. cbn [fst snd] in *. exists p2. split_and!; [done| |done]. by rewrite raccept_all_app, A1.
Qed.

(** ** Closing *)

Section closing.
Context (N : JsonNum) (s : ChatToResponsesStream).

Definition call_keys : list Z := merge_sort Z.le (map fst (map_to_list (cs_localToolCalls s))).
Definition owners : list owner :=
  (if cs_reasoningAdded s then [OReasoning] else []) ++ (if cs_messageAdded s then [OText] else []) ++ map OCall call_keys.

Definition owner_done (o : owner) : list ResponsesStreamEvent :=
  match o with
  | OReasoning => reasoning_done s
  | OText => text_done s
  | OCall k => match cs_localToolCalls s !! k with Some l => call_done N (resp_id s) l | None => [] end
  end.
(** The item as its last event shows it, and as the whole response does. *)
Definition owner_item (o : owner) : json :=
  match o with
  | OReasoning => sort_keys (JObj (completedChatReasoningItem (reasoning_id s) (cs_fullReasoning s)))
  | OText => JObj [("id", JStr (msg_id s)); ("type", JStr "message"); ("status", JStr "completed"); ("role", JStr "assistant");
                   ("content", JArr [text_part_map (cs_fullText s)])]
  | OCall k => match cs_localToolCalls s !! k with Some l => JObj (call_struct l "completed" (call_payload N l)) | None => JNull end
  end.
Definition final_item (o : owner) : json :=
  match o with
  | OReasoning => sort_keys (JObj (completedChatReasoningItem (reasoning_id s) (cs_fullReasoning s)))
  | OText => sort_keys (message_output (msg_id s) (cs_fullText s))
  | OCall k => match cs_localToolCalls s !! k with Some l => call_output N l | None => JNull end
  end.

Lemma final_item_text o : item_text (final_item o) = item_text (owner_item o).
Proof.
  destruct o as [| |k]; [reflexivity|reflexivity|]. cbn [final_item owner_item]. destruct (cs_localToolCalls s !! k) as [l|]; [|done].
  unfold call_output, call_struct. generalize (call_payload N l) as p. intros p. destruct l as [id call name ns args i ad cu]. cbn [rc_ID rc_CallID rc_Name rc_Namespace rc_IsCustom].
  unfold item_text, Marshal. do 2 f_equal. destruct cu, ns as [|c ns]; reflexivity.
Qed.

Lemma call_keys_elem k : k ∈ call_keys <-> is_Some (cs_localToolCalls s !! k).
Proof.
  unfold call_keys. rewrite (merge_sort_Permutation Z.le _), list_elem_of_fmap. split.
  - intros ([k' l] & -> & H). apply elem_of_map_to_list in H. by exists l.
  - intros [l H]. exists (k, l). split; [done|]. by apply elem_of_map_to_list.
Qed.
Lemma call_keys_nodup : NoDup call_keys.
Proof. unfold call_keys. rewrite (merge_sort_Permutation Z.le _). apply NoDup_fst_map_to_list. Qed.

Lemma owners_elem o : o ∈ owners <-> is_Some (owner_index s o).
Proof.
  unfold owners. rewrite !elem_of_app, list_elem_of_fmap. destruct o as [| |k]; cbn [owner_index].
  - destruct (cs_reasoningAdded s), (cs_messageAdded s); split; try (by eexists); try (by intros [? ?]); set_solver.
  - destruct (cs_reasoningAdded s), (cs_messageAdded s); split; try (by eexists); try (by intros [? ?]); set_solver.
  - rewrite fmap_is_Some. rewrite <- call_keys_elem. split.
    + intros [H|[H|(k' & [= ->] & H)]]; [exfalso; destruct (cs_reasoningAdded s); set_solver|exfalso; destruct (cs_messageAdded s); set_solver|done].
    + intros H. right. right. by exists k.
Qed.
Lemma owners_nodup : NoDup owners.
Proof.
  unfold owners. apply NoDup_app. split_and!; [by destruct (cs_reasoningAdded s); repeat constructor; set_solver| |].
  - destruct (cs_reasoningAdded s); [|set_solver]. intros o ->%list_elem_of_singleton. rewrite elem_of_app, list_elem_of_fmap. intros [H|(k & [=] & _)]. destruct (cs_messageAdded s); set_solver.
  - apply NoDup_app. split_and!; [by destruct (cs_messageAdded s); repeat constructor; set_solver| |].
    + destruct (cs_messageAdded s); [|set_solver]. intros o ->%list_elem_of_singleton. rewrite list_elem_of_fmap. by intros (k & [=] & _).
    + apply NoDup_fmap_2; [intros ? ? [=]; done|apply call_keys_nodup].
Qed.

Lemma owners_events : concat (map owner_done owners) =
  (if cs_reasoningAdded s then reasoning_done s else []) ++ (if cs_messageAdded s then text_done s else []) ++ concat (map (call_done N (resp_id s)) (sorted_calls s)).
Proof.
  unfold owners, sorted_calls. fold call_keys. rewrite !map_app, !concat_app. f_equal; [destruct (cs_reasoningAdded s); cbn [map concat owner_done]; by rewrite ?app_nil_r|].
  f_equal; [destruct (cs_messageAdded s); cbn [map concat owner_done]; by rewrite ?app_nil_r|].
  induction call_keys as [|k ks IH]; [done|]. cbn [map concat omap list_omap owner_done]. rewrite IH. by destruct (cs_localToolCalls s !! k).
Qed.
Lemma owners_outputs : final_outputs N s = map final_item owners.
Proof.
  assert (forall k, k ∈ call_keys -> is_Some (cs_localToolCalls s !! k)) as E by (intros k; apply call_keys_elem).
  unfold final_outputs, owners, sorted_calls. fold call_keys. rewrite !map_app. f_equal; [by destruct (cs_reasoningAdded s)|]. f_equal; [by destruct (cs_messageAdded s)|].
  induction call_keys as [|k ks IH]; [done|]. cbn [map omap list_omap final_item]. destruct (E k ltac:(left)) as [l ->]. cbn [map]. rewrite <- IH; [done|].
  intros k' H. apply E. by right.
Qed.

(** The last events of an open item. *)
Lemma owner_closes o i t items done : owner_index s o = Some i -> items !! Itoa i = Some (t, false) -> (owner_streamed s o = true -> t = owner_text s o) ->
  raccept_all (ROpen items done) (owner_done o) = Some (ROpen (<[Itoa i := (t, true)]> items) (done ++ [owner_item o])).
Proof.
  intros Ho L Et. destruct o as [| |k]; cbn [owner_index owner_done owner_item] in *.
  - destruct (cs_reasoningAdded s); [|done]. injection Ho as <-. rewrite (Et eq_refl) in *. cbn [owner_text] in *. unfold reasoning_done. cbn [raccept_all].
    erewrite raccept_text; [|reflexivity|event_fields|reflexivity|exact L]. cbn [mbind option_bind].
    erewrite raccept_part; [|event_fields|exact L]. cbn [mbind option_bind].
    erewrite raccept_item_done; [|reflexivity|event_fields|exact L]. reflexivity.
  - destruct (cs_messageAdded s); [|done]. injection Ho as <-. rewrite (Et eq_refl) in *. cbn [owner_text] in *. unfold text_done. cbn [raccept_all].
    erewrite raccept_text; [|reflexivity|event_fields|reflexivity|exact L]. cbn [mbind option_bind].
    erewrite raccept_part; [|event_fields|exact L]. cbn [mbind option_bind].
    erewrite raccept_item_done; [|reflexivity|event_fields|exact L]. reflexivity.
  - cbn [owner_streamed owner_text] in Et. destruct (cs_localToolCalls s !! k) as [l|]; [|done]. injection Ho as <-. unfold call_done. destruct (rc_IsCustom l).
    + cbn [app raccept_all]. erewrite raccept_item_done; [|reflexivity|event_fields|exact L]. reflexivity.
    + rewrite (Et eq_refl) in *. cbn [app raccept_all]. erewrite raccept_text; [|reflexivity|event_fields|reflexivity|exact L]. cbn [mbind option_bind].
      erewrite raccept_item_done; [|reflexivity|event_fields|exact L]. reflexivity.
Qed.

Lemma owners_close os : forall items done, NoDup os -> (forall o o' i, owner_index s o = Some i -> owner_index s o' = Some i -> o = o') ->
  (forall o, o ∈ os -> exists i t, owner_index s o = Some i /\ items !! Itoa i = Some (t, false) /\ (owner_streamed s o = true -> t = owner_text s o)) ->
  exists items', raccept_all (ROpen items done) (concat (map owner_done os)) = Some (ROpen items' (done ++ map owner_item os)) /\
    forall j y, items' !! j = Some y -> snd y = true \/ items !! j = Some y /\ forall o i, o ∈ os -> owner_index s o = Some i -> j <> Itoa i.
Proof.
  induction os as [|o os IH]; intros items done ND Inj H.
  - exists items. cbn. rewrite app_nil_r. split; [done|]. intros j y E. right. split; [done|]. set_solver.
  - apply NoDup_cons in ND as [No ND]. destruct (H o ltac:(left)) as (i & t & Ho & L & Et). cbn [map concat]. rewrite raccept_all_app, (owner_closes o i t) by done.
    cbn [mbind option_bind]. destruct (IH (<[Itoa i := (t, true)]> items) (done ++ [owner_item o]) ND Inj) as (items' & A & C).
    { intros o' Ho'. destruct (H o' ltac:(by right)) as (i' & t' & Hi & L' & Et'). exists i', t'. split_and!; [done| |done].
      rewrite lookup_insert_ne; [done|]. intros Q%Itoa_injective. subst i'. rewrite (Inj o o' i Ho Hi) in No. done. }
    exists items'. split; [by rewrite A, <- app_assoc|]. intros j y E. destruct (C j y E) as [C1|[C1 C2]]; [by left|].
    destruct (decide (j = Itoa i)) as [->|Nj]; [rewrite lookup_insert_eq in C1; injection C1 as <-; by left|]. rewrite lookup_insert_ne in C1 by done. right. split; [done|].
    intros o' i' [->|Ho']%elem_of_cons Hi; [congruence|by apply (C2 o')].
Qed.

(** Everything is closed, and the whole response has the items that were sent. *)
Lemma finish_accept items now : c2r_inv s items ->
  raccept_all (ROpen items []) (concat (map owner_done owners) ++
    [struct_event "response.done" [("response", final_doc N s now)]; struct_event "response.completed" [("response", final_doc N s now)]]) = Some (REnd (final_outputs N s)).
Proof.
  intros I. destruct (owners_close owners items [] owners_nodup (cv_inj s items I)) as (items' & A & C).
  { intros o [i Ho]%owners_elem. destruct (cv_open s items I o i Ho) as (t & L & Et). by exists i, t. }
  rewrite raccept_all_app, A. cbn [mbind option_bind app raccept_all].
  assert (raccept (ROpen items' (map owner_item owners)) (struct_event "response.done" [("response", final_doc N s now)]) = Some (RFinal (final_outputs N s))) as ->; [|reflexivity].
  transitivity (on_response_done items' (map owner_item owners) [("type", JStr "response.done"); ("response", final_doc N s now)]); [reflexivity|].
  assert (response_outputs [("type", JStr "response.done"); ("response", final_doc N s now)] = final_outputs N s) as Out.
  { transitivity (default [] (as_list (Some (slice (final_outputs N s))))); [reflexivity|]. by destruct (final_outputs N s). }
  unfold on_response_done. rewrite Out, owners_outputs, !map_map, bool_decide_eq_true_2 by (apply map_ext; intros o; apply final_item_text).
  unfold closed_all. rewrite bool_decide_eq_true_2; [done|]. intros j y E. destruct (C j y E) as [Q|[Q1 Q2]]; [done|]. exfalso.
  destruct (cv_only s items I j y Q1) as (o & i & Ho & ->). apply (Q2 o i); [by apply owners_elem|done|done].
Qed.
End closing.

(** ** What the frames say *)

(** The text a frame adds to an item. *)
Definition said (o : owner) (c : chat_choice) : string :=
  match o with
  | OReasoning => delta_reasoning c
  | OText => cc_Content c
  | OCall k => cat (map td_Arguments (List.filter (fun tc => td_Index tc =? k) (cc_ToolCalls c)))
  end.

Lemma feed_text_said s t o : owner_text (fst (feed_text s t)) o = owner_text s o +:+ (if decide (o = OText) then t else "").
Proof.
  unfold feed_text. destruct (is_empty t) eqn:E; [sbool; subst t; case_decide; by rewrite append_nil_r|]. unfold sendPlainResponsesText.
  destruct (cs_messageAdded s); destruct o; cbn; by rewrite ?append_nil_r.
Qed.
Lemma feed_reasoning_said s t o : owner_text (fst (feed_reasoning s t)) o = owner_text s o +:+ (if decide (o = OReasoning) then t else "").
Proof.
  unfold feed_reasoning. destruct (is_empty t) eqn:E; [sbool; subst t; case_decide; by rewrite append_nil_r|]. unfold sendResponsesReasoningDelta.
  destruct (cs_reasoningAdded s); destruct o; cbn; by rewrite ?append_nil_r.
Qed.
Lemma feed_call_said s tc o : owner_text (fst (feed_call s tc)) o = owner_text s o +:+ (if decide (o = OCall (td_Index tc)) then td_Arguments tc else "").
Proof.
  unfold feed_call. destruct (cs_localToolCalls s !! td_Index tc) as [l|] eqn:L; cbn zeta; cbn [fst].
  - destruct (identify_frame (cs_mapper s) l tc) as (_ & A2 & _). set (l' := identify_call _ l tc) in *. clearbody l'.
    destruct o as [| |k]; [cbn; by rewrite append_nil_r..|]. cbn -[decide]. destruct (decide (k = td_Index tc)) as [->|Ne].
    + rewrite decide_True, lookup_insert_eq, L by done. destruct (_ && _); cbn; by rewrite A2.
    + rewrite decide_False, lookup_insert_ne, append_nil_r by congruence. done.
  - destruct (identify_frame (cs_mapper s) (new_call s tc) tc) as (_ & A2 & _). change (cs_mapper (s <| cs_currentOutputIndex := _ |>)) with (cs_mapper s).
    set (l' := identify_call _ (new_call s tc) tc) in *. clearbody l'. cbn in A2.
    destruct o as [| |k]; [cbn; by rewrite append_nil_r..|]. cbn -[decide]. destruct (decide (k = td_Index tc)) as [->|Ne].
    + rewrite decide_True, lookup_insert_eq, L by done. destruct (_ && _); cbn; by rewrite A2.
    + rewrite decide_False, lookup_insert_ne, append_nil_r by congruence. done.
Qed.

Lemma feed_calls_said tcs : forall s o, owner_text (fst (feed_calls s tcs)) o =
  owner_text s o +:+ (match o with OCall k => cat (map td_Arguments (List.filter (fun tc => td_Index tc =? k) tcs)) | _ => "" end).
Proof.
  induction tcs as [|tc tcs IH]; intros s o; [destruct o; by rewrite append_nil_r|]. cbn [feed_calls]. pose proof (feed_call_said s tc o) as Q.
  destruct (feed_call s tc) as [s1 e1]. specialize (IH s1 o). destruct (feed_calls s1 tcs) as [s2 e2]. cbn [fst] in *. rewrite IH, Q. destruct o as [| |k].
  - by rewrite decide_False, !append_nil_r by done.
  - by rewrite decide_False, !append_nil_r by done.
  - cbn [List.filter]. destruct (td_Index tc =? k) eqn:E; zbool.
    + rewrite decide_True by congruence. cbn [map cat]. by rewrite append_assoc.
    + rewrite decide_False, append_nil_r by congruence. done.
Qed.

Lemma feed_delta_said s c o : owner_text (fst (feed_delta s c)) o = owner_text s o +:+ said o c.
Proof.
  unfold feed_delta. pose proof (feed_reasoning_said s (delta_reasoning c) o) as Q1. destruct (feed_reasoning s _) as [s1 e1].
  pose proof (feed_text_said s1 (cc_Content c) o) as Q2. destruct (feed_text s1 _) as [s2 e2]. pose proof (feed_calls_said (cc_ToolCalls c) s2 o) as Q3.
  destruct (feed_calls s2 _) as [s3 e3]. cbn [fst] in *. rewrite Q3, Q2, Q1. destruct o; cbn [said]; repeat case_decide; try done; by rewrite ?append_nil_r.
Qed.

Lemma said_nothing o : said o no_choice = "".
Proof. by destruct o. Qed.

Lemma feed_frame_said s d now o : cs_finished s = false -> let s' := fst (fst (C2R_FeedJSON s d now)) in
  cs_finished s' = false /\ owner_text s' o = owner_text s o +:+ said o (frame_choice d).
Proof.
  intros Fi. cbn zeta. unfold C2R_FeedJSON, frame_choice. rewrite Fi. destruct (seqb (TrimSpace d) "[DONE]"); [rewrite said_nothing, append_nil_r; destruct o; done|].
  set (s1 := match frame_finish d with Some r => _ | None => _ end).
  assert (cs_finished s1 = false /\ owner_text s1 o = owner_text s o) as [F1 T1] by (unfold s1; destruct (frame_finish d); destruct o; done).
  rewrite <- T1. clearbody s1. clear Fi T1 s. destruct (parse_responses_chunk d) as [ck|]; [|rewrite said_nothing, append_nil_r; done].
  unfold feed_responses_chunk. set (s2 := note_chunk s1 ck).
  assert (cs_finished s2 = false /\ owner_text s2 o = owner_text s1 o) as [F2 T2] by (unfold s2, note_chunk; destruct (is_empty (ck_ID ck)), (is_empty (ck_Model ck)), o; done).
  rewrite <- T2. clearbody s2. assert (cs_finished (fst (start_response s2 now)) = false /\ owner_text (fst (start_response s2 now)) o = owner_text s2 o) as [F3 T3]
    by (unfold start_response; destruct (cs_started s2), o; done).
  destruct (start_response s2 now) as [s3 e3]. cbn [fst] in *. destruct (ck_Choices ck) as [|c cs]; [rewrite said_nothing, append_nil_r; done|].
  pose proof (feed_delta_said s3 c o) as Q. assert (cs_finished (fst (feed_delta s3 c)) = false) as F4.
  { unfold feed_delta. pose proof (feed_reasoning_quiet s3 (delta_reasoning c)) as (_ & _ & G1). destruct (feed_reasoning s3 _) as [s4 e4].
    pose proof (feed_text_quiet s4 (cc_Content c)) as (_ & _ & G2). destruct (feed_text s4 _) as [s5 e5]. cbn [fst] in *.
    assert (forall tcs s, cs_finished (fst (feed_calls s tcs)) = cs_finished s) as G3.
    { induction tcs as [|tc tcs IH]; intros s; [done|]. cbn [feed_calls]. pose proof (feed_call_dom s tc) as (_ & _ & G). destruct (feed_call s tc) as [s6 e6].
      specialize (IH s6). destruct (feed_calls s6 tcs). cbn [fst] in *. congruence. }
    specialize (G3 (cc_ToolCalls c) s5). destruct (feed_calls s5 _) as [s6 e6]. cbn [fst] in *. congruence. }
  destruct (feed_delta s3 c) as [s4 e4]. cbn [fst] in *. split; [done|]. by rewrite Q, T3.
Qed.

Lemma feed_all_said frames : forall s o, cs_finished s = false ->
  owner_text (fst (c2r_feed_all s frames)) o = owner_text s o +:+ cat (map (fun f => said o (frame_choice (fst f))) frames).
Proof.
  induction frames as [|[d now] frames IH]; intros s o Fi; [by rewrite append_nil_r|]. cbn [c2r_feed_all map cat fst].
  destruct (feed_frame_said s d now o Fi) as [F1 Q]. destruct (C2R_FeedJSON s d now) as [[s1 e1] m1]. cbn [fst] in *. specialize (IH s1 o F1).
  destruct (c2r_feed_all s1 frames) as [s2 e2]. cbn [fst] in *. by rewrite IH, Q, append_assoc.
Qed.

(** C14: whatever a Chat upstream streams, in any chunking of text, reasoning and interleaved
    tool calls, a client of the Responses protocol gets a well-formed stream: created and in
    progress once, every item announced before its parts, its text in pieces that put
    together are the text of its done event, every item closed, and a final response with exactly the
    items that were sent, in order. The texts, the reasoning and the arguments of each call are those of
    the frames, nothing lost or added. (The first piece of a call has its name, as the Chat
    protocol has it, and the tool-name mapper of the request gives back no empty name.) *)
Theorem responses_stream_wellformed (N : JsonNum) (model : string) (mapper : option ToolNameMapper) (u latest : TokenUsage) (frames : list (string * Z)) (now : Z)
  (Hmapper : names_ok mapper) (Hnamed : named_calls ∅ (frames_calls frames) = true) :
  let '(s, es) := c2r_feed_all (NewChatToResponsesStream model mapper u) frames in
  let '(_, es', meta) := C2R_Finish N s latest now in
  raccept_all RNew (es ++ es') = Some (if sm_Completed meta then REnd (final_outputs N s) else RNew) /\
  sm_Completed meta = cs_started s /\
  forall o, owner_text s o = cat (map (fun f => said o (frame_choice (fst f))) frames).
Proof.
  set (s0 := NewChatToResponsesStream model mapper u).
  assert (forall o, owner_index s0 o = None) as Z0 by (by intros []).
  assert (c2r_inv s0 ∅) as I0 by (split; try (intros *; rewrite ?Z0; done); by intros []).
  assert (stage s0 RNew) as S0 by (by exists ∅).
  destruct (feed_all_sound frames s0 RNew S0 Hmapper eq_refl) as (p & (items & I & P) & A & F); [exact Hnamed|].
  pose proof (fun o => feed_all_said frames s0 o eq_refl) as T. destruct (c2r_feed_all s0 frames) as [s es]. cbn [fst snd] in *.
  unfold C2R_Finish. rewrite F. set (s1 := s <| cs_finished := true |> <| cs_usage := _ |>).
  assert (c2r_inv s1 items) as I1 by (by apply (c2r_inv_frame s)). change (cs_started s1) with (cs_started s).
  destruct (cs_started s) eqn:St; cbn [negb].
  - subst p. split_and!; [|done|intros o; rewrite T; by destruct o]. rewrite raccept_all_app, A. cbn [mbind option_bind sm_Completed].
    pose proof (finish_accept N s1 items now I1) as Q. rewrite owners_events in Q. rewrite <- !app_assoc in Q. exact Q.
  - destruct P as [-> ->]. split_and!; [by rewrite app_nil_r|done|intros o; rewrite T; by destruct o].
Qed.

Definition demo_frame (delta : list (string * json)) : string :=
  string_of (json_encode (JObj [("id", JStr "chatcmpl-1"); ("choices", JArr [JObj [("delta", JObj delta)]])])).
Definition demo_call (name args : string) : json :=
  JObj [("index", num 0); ("id", JStr "call_7"); ("function", JObj [("name", JStr name); ("arguments", JStr args)])].
Definition demo_frames : list (string * Z) :=
  [(demo_frame [("reasoning_content", JStr "hm")], 1); (demo_frame [("content", JStr "let me")], 1); (demo_frame [("content", JStr " see")], 2);
   (demo_frame [("tool_calls", JArr [demo_call "fs.read" "{"])], 3); (demo_frame [("tool_calls", JArr [demo_call "" "}"])], 4); ("[DONE]", 5)].

Lemma responses_stream_wellformed_witness :
  let '(s, es) := c2r_feed_all (NewChatToResponsesStream "m" None no_usage) demo_frames in
  let '(_, es', _) := C2R_Finish exact_num s no_usage 6 in
  raccept_all RNew (es ++ es') = Some (REnd (final_outputs exact_num s)) /\ owner_text s OText = "let me see" /\ owner_text s (OCall 0) = "{}".
Proof.
  assert (named_calls ∅ (frames_calls demo_frames) = true) as Hn by (vm_compute; reflexivity).
  pose proof (responses_stream_wellformed exact_num "m" None no_usage no_usage demo_frames 6 I Hn) as W.
  assert (cs_started (fst (c2r_feed_all (NewChatToResponsesStream "m" None no_usage) demo_frames)) = true) as St by (vm_compute; reflexivity).
  destruct (c2r_feed_all (NewChatToResponsesStream "m" None no_usage) demo_frames) as [s es]. cbn [fst] in St.
  destruct (C2R_Finish exact_num s no_usage 6) as [[s' es'] meta]. destruct W as (A & B & T). rewrite St in B. rewrite B in A.
  split; [exact A|]. rewrite (T OText), (T (OCall 0)). split; vm_compute; reflexivity.
Defined.

(** The pieces of a call whose name comes late are sent before the item is announced. *)
Lemma nameless_call_early : exists frames,
  map re_Event (snd (c2r_feed_all (NewChatToResponsesStream "m" None no_usage) frames)) =
  ["response.created"; "response.in_progress"; "response.function_call.arguments.delta"; "response.output_item.added"; "response.function_call.arguments.delta"].
Proof.
  exists [(demo_frame [("tool_calls", JArr [demo_call "" "{"])], 1); (demo_frame [("tool_calls", JArr [demo_call "read" "}"])], 2)]. vm_compute. reflexivity.
Qed.

(** A stream without content ends with a response whose output is null, not a list. *)
Lemma empty_stream_output_null : exists frames s, fst (c2r_feed_all (NewChatToResponsesStream "m" None no_usage) frames) = s /\
  map (fun e => match re_Data e with JObj m => get "output" (sub_map "response" m) | _ => None end) (snd (fst (C2R_Finish exact_num s no_usage 2))) = [Some JNull; Some JNull].
Proof. eexists [(string_of (json_encode (JObj [("id", JStr "chatcmpl-1"); ("choices", JArr [])])), 1)], _. split; [reflexivity|]. vm_compute. reflexivity. Qed.
