(* ===== verification/ResponsesStreamMessages.v ===== *)
(** Messages streams as Responses streams: the machine of responses_messages_stream.go turns
    what a Messages client accepts into what a Responses client accepts, with the same content. *)

From Stdlib Require Import Ascii.
From S2P Require Import Prelude GoFloat GoStrings GoTime GoJson GoPrint Matcher Policy Types Context Http Translate TranslateWire TranslateStream TranslateMessages TranslateResponses TranslateResponsesMessages TranslateResponsesStream.

(** The client's items are those of the machine, with their texts; [n] blocks were opened and
    [open] are not yet closed. *)
Record m2r_inv (s : MessagesToResponsesStream) (items : open_items) (n : Z) (open : gset string) : Prop := {
  mv_started : mr_started s = true;
  mv_next : 0 <= mr_nextOutput s;
  mv_count : 0 <= n;
  mv_open : forall i, i ∈ open -> exists k, 0 <= k < n /\ i = Itoa k;
  mv_blocks : forall k it, mr_items s !! k = Some it -> 0 <= k < n /\ (ri_closed it = false <-> Itoa k ∈ open);
  mv_item : forall k it, mr_items s !! k = Some it -> 0 <= ri_outputIndex it < mr_nextOutput s /\ items !! Itoa (ri_outputIndex it) = Some (ri_text it, ri_closed it);
  mv_inj : forall k k' it it', mr_items s !! k = Some it -> mr_items s !! k' = Some it' -> ri_outputIndex it = ri_outputIndex it' -> k = k';
  mv_only : forall j x, items !! j = Some x -> exists k it, mr_items s !! k = Some it /\ j = Itoa (ri_outputIndex it)
}.

Lemma m2r_fresh s items n open : m2r_inv s items n open -> items !! Itoa (mr_nextOutput s) = None.
Proof.
  intros I. destruct (items !! _) as [x|] eqn:E; [|done]. apply (mv_only _ _ _ _ I) in E as (k & it & L & Q%Itoa_injective).
  apply (mv_item _ _ _ _ I) in L as [R _]. lia.
Qed.

(** A block that the machine does not show. *)
Lemma m2r_skip s items n open : m2r_inv s items n open -> m2r_inv s items (n + 1) ({[Itoa n]} ∪ open).
Proof.
  intros [A B C D E F G H]. split; try done; [lia| |].
  - intros i [->%elem_of_singleton|Hi]%elem_of_union; [exists n; split; [lia|done]|]. destruct (D i Hi) as (k & R & ->). exists k. split; [lia|done].
  - intros k it L. destruct (E k it L) as [R Q]. split; [lia|]. rewrite Q. split; [set_solver|]. intros [Z%elem_of_singleton%Itoa_injective|Z]%elem_of_union; [lia|done].
Qed.

(** A new item for the next block. *)
Lemma m2r_new s s' items n open it : m2r_inv s items n open -> mr_items s' = <[n := it]> (mr_items s) -> mr_started s' = true -> mr_nextOutput s' = mr_nextOutput s + 1 ->
  ri_outputIndex it = mr_nextOutput s -> ri_text it = "" -> ri_closed it = false ->
  m2r_inv s' (<[Itoa (mr_nextOutput s) := ("", false)]> items) (n + 1) ({[Itoa n]} ∪ open).
Proof.
  intros I Ei Es En Eo Et Ec. pose proof (m2r_skip _ _ _ _ I) as I'. pose proof (mv_next _ _ _ _ I) as Nx.
  assert (forall k it', k <> n -> mr_items s !! k = Some it' -> ri_outputIndex it' < mr_nextOutput s) as Lt by (intros k it' _ L; by destruct (mv_item _ _ _ _ I k it' L) as [[]]).
  split; rewrite ?Ei; [done|lia|exact (mv_count _ _ _ _ I')|exact (mv_open _ _ _ _ I')|..].
  - intros k it'. destruct (decide (k = n)) as [->|Ne]; [rewrite lookup_insert_eq; intros [= <-]|rewrite lookup_insert_ne by done; apply (mv_blocks _ _ _ _ I')].
    split; [pose proof (mv_count _ _ _ _ I); lia|]. split; [set_solver|done].
  - intros k it'. destruct (decide (k = n)) as [->|Ne]; [rewrite lookup_insert_eq; intros [= <-]; rewrite Eo, Et, Ec, lookup_insert_eq; split; [lia|done]|].
    rewrite lookup_insert_ne by done. intros L. destruct (mv_item _ _ _ _ I k it' L) as [R Q]. rewrite lookup_insert_ne by (intros Z%Itoa_injective; lia). split; [lia|done].
  - intros k k' i1 i2. destruct (decide (k = n)) as [->|N1], (decide (k' = n)) as [->|N2]; rewrite ?lookup_insert_eq, ?lookup_insert_ne by done; [done|..].
    + intros [= <-] L. pose proof (Lt _ _ N2 L). lia.
    + intros L [= <-]. pose proof (Lt _ _ N1 L). lia.
    + apply (mv_inj _ _ _ _ I).
  - intros j x. destruct (decide (j = Itoa (mr_nextOutput s))) as [->|Ne]; [intros _; exists n, it; by rewrite lookup_insert_eq, Eo|].
    rewrite lookup_insert_ne by done. intros H. destruct (mv_only _ _ _ _ I j x H) as (k & it' & L & ->). exists k, it'. split; [|done].
    rewrite lookup_insert_ne; [done|]. intros ->. destruct (mv_blocks _ _ _ _ I _ _ L). lia.
Qed.

(** A change of one item. *)
Lemma m2r_update s s' items n open open' k it it' : m2r_inv s items n open -> mr_items s !! k = Some it -> mr_items s' = <[k := it']> (mr_items s) ->
  mr_started s' = mr_started s -> mr_nextOutput s' = mr_nextOutput s -> ri_outputIndex it' = ri_outputIndex it ->
  open' ⊆ open -> (forall k', k' <> k -> Itoa k' ∈ open -> Itoa k' ∈ open') -> (ri_closed it' = false <-> Itoa k ∈ open') ->
  m2r_inv s' (<[Itoa (ri_outputIndex it) := (ri_text it', ri_closed it')]> items) n open'.
Proof.
  intros I L Ei Es En Eo Sub Keep Cl. destruct I as [A B C D E F G H]. split; rewrite ?Ei, ?Es, ?En; try done; [set_solver|..].
  - intros k1 i1. destruct (decide (k1 = k)) as [->|Ne]; [rewrite lookup_insert_eq; intros [= <-]; split; [by destruct (E _ _ L)|done]|].
    rewrite lookup_insert_ne by done. intros L1. destruct (E _ _ L1) as [R Q]. split; [done|]. rewrite Q. split; [by apply Keep|apply Sub].
  - intros k1 i1. destruct (decide (k1 = k)) as [->|Ne]; [rewrite lookup_insert_eq; intros [= <-]; rewrite Eo, lookup_insert_eq; split; [by destruct (F _ _ L)|done]|].
    rewrite lookup_insert_ne by done. intros L1. destruct (F _ _ L1) as [R Q]. split; [done|]. rewrite lookup_insert_ne; [done|].
    intros Z%Itoa_injective. by pose proof (G _ _ _ _ L L1 Z).
  - intros k1 k2 i1 i2. destruct (decide (k1 = k)) as [->|N1], (decide (k2 = k)) as [->|N2]; rewrite ?lookup_insert_eq, ?lookup_insert_ne by done; [done|..].
    + intros [= <-] L2 Z. rewrite Eo in Z. by eapply G.
    + intros L1 [= <-] Z. rewrite Eo in Z. by eapply G.
    + apply G.
  - intros j x. destruct (decide (j = Itoa (ri_outputIndex it))) as [->|Ne]; [intros _; exists k, it'; by rewrite lookup_insert_eq, Eo|].
    rewrite lookup_insert_ne by done. intros Hj. destruct (H j x Hj) as (k1 & i1 & L1 & ->). exists k1, i1. split; [|done].
    rewrite lookup_insert_ne; [done|]. intros ->. congruence.
Qed.

Lemma m2r_frame s s' items n open : m2r_inv s items n open -> mr_items s' = mr_items s -> mr_started s' = mr_started s -> mr_nextOutput s' = mr_nextOutput s ->
  m2r_inv s' items n open.
Proof. intros [] E1 E2 E3. split; by rewrite ?E1, ?E2, ?E3. Qed.

(** ** Events of an item *)

Lemma added_accept s items it done : mr_started s = true -> items !! Itoa (ri_outputIndex it) = None ->
  raccept_all (ROpen items done) (snd (emitItemAdded s it)) = Some (ROpen (<[Itoa (ri_outputIndex it) := ("", false)]> items) done).
Proof.
  intros St Fr. unfold emitItemAdded, emitStarted. rewrite St. cbn [app snd].
  destruct (ri_kind it); cbn [raccept_all]; rewrite (raccept_added _ _ (ri_outputIndex it)) by (event_fields || done); cbn [mbind option_bind]; try done.
  all: rewrite (raccept_part _ _ (ri_outputIndex it) _ "") by (event_fields || by rewrite lookup_insert_eq); done.
Qed.

Lemma get_item_sorted k r i d : get "item" (match sort_keys (JObj [("type", JStr k); ("response_id", JStr r); ("output_index", num i); ("item", d)]) with JObj m => m | _ => [] end) =
  Some (sort_keys d).
Proof. reflexivity. Qed.

Lemma closing_accept s k it items done : ri_closed it = false -> items !! Itoa (ri_outputIndex it) = Some (ri_text it, false) ->
  raccept_all (ROpen items done) (snd (closeItem s k it)) = Some (ROpen (<[Itoa (ri_outputIndex it) := (ri_text it, true)]> items) (done ++ [sort_keys (done_item it)])).
Proof.
  intros Cl L. unfold closeItem. rewrite Cl. cbn [snd].
  assert (forall p, p = ROpen items done -> raccept_all p [map_event "response.output_item.done" [("response_id", JStr (mr_respID s)); ("output_index", num (ri_outputIndex it)); ("item", done_item it)]] =
    Some (ROpen (<[Itoa (ri_outputIndex it) := (ri_text it, true)]> items) (done ++ [sort_keys (done_item it)]))) as Last.
  { intros p ->. cbn [raccept_all]. erewrite raccept_item_done; [|reflexivity|event_fields|exact L]. reflexivity. }
  rewrite raccept_all_app. destruct (ri_kind it); cbn [raccept_all].
  - erewrite raccept_text; [|reflexivity|event_fields|reflexivity|exact L]. cbn [mbind option_bind].
    erewrite raccept_part; [|event_fields|exact L]. cbn [mbind option_bind]. by apply Last.
  - by apply Last.
  - erewrite raccept_text; [|reflexivity|event_fields|reflexivity|exact L]. cbn [mbind option_bind].
    erewrite raccept_part; [|event_fields|exact L]. cbn [mbind option_bind]. by apply Last.
  - erewrite raccept_text; [|reflexivity|event_fields|reflexivity|exact L]. cbn [mbind option_bind]. by apply Last.
Qed.

(** ** One event *)

Section m2r_spec.
Context (N : JsonNum).
(** Small integers are read exactly. *)
Context (Hfloat : forall z, Z.abs z <= 2 ^ 53 -> to_int64 (num_float N (Itoa z)) = z).

Definition doc_event (m : obj) : MessagesStreamEvent := plain_event (get_str "type" m) (JObj m).

(** The client of the Messages protocol and that of the Responses protocol, in step. *)
Definition in_step (q : phase) (s : MessagesToResponsesStream) (p : rphase) : Prop :=
  match q with
  | PNone => s = NewMessagesToResponsesStream (mr_model s) (mr_createdAt s) /\ p = RNew
  | POpen n open => exists items, m2r_inv s items n open /\ p = ROpen items (map sort_keys (mr_completed s))
  | PDelta => exists items n, m2r_inv s items n ∅ /\ p = ROpen items (map sort_keys (mr_completed s))
  | PStop => p = REnd (map sort_keys (mr_completed s))
  end.

Lemma index_value m i k : index_text (JObj m) = Some i -> i = Itoa k -> 0 <= k <= 2 ^ 53 -> intFrom N (get "index" m) = k.
Proof.
  unfold index_text, intFrom. destruct (get "index" m) as [[]|]; try done. intros [= ->] -> R. cbn. apply Hfloat. lia.
Qed.

Lemma start_accept s m : mr_started s = false -> get_str "type" m = "message_start" -> s = NewMessagesToResponsesStream (mr_model s) (mr_createdAt s) ->
  let '(s', es, _) := m2r_event N s m in m2r_inv s' ∅ 0 ∅ /\ mr_completed s' = [] /\ raccept_all RNew es = Some (ROpen ∅ []).
Proof.
  intros St T E0. unfold m2r_event. rewrite T. cbn zeta. cbn [seqb]. change (seqb "message_start" "message_start") with true. cbn match.
  set (r := match as_map (get "message" m) with Some message => start_message N s message | None => (s, no_meta) end).
  assert (mr_started (fst r) = false /\ mr_items (fst r) = ∅ /\ mr_nextOutput (fst r) = 0 /\ mr_completed (fst r) = []) as (A & B & C & D).
  { unfold r. rewrite E0. destruct (as_map (get "message" m)) as [msg|]; [|done]. unfold start_message, start_usage. cbn zeta.
    destruct (is_empty (get_str "id" msg)), (negb _ && _), (as_map (get "usage" msg)); try done; by destruct (0 <? _). }
  destruct r as [s1 m1]. cbn [fst] in *. unfold emitStarted. rewrite A. cbn zeta. split_and!; [|done|reflexivity].
  split; cbn; rewrite ?B, ?C; done || lia.
Qed.

Lemma new_item_fields s cb it : new_item s cb = Some it -> ri_outputIndex it = mr_nextOutput s /\ ri_text it = "" /\ ri_closed it = false.
Proof. unfold new_item. cbn zeta. repeat (destruct (seqb _ _); [by intros [= <-]|]). done. Qed.

Lemma block_start_accept s m items n open i : m2r_inv s items n open -> index_text (JObj m) = Some i -> i = Itoa n -> n <= 2 ^ 53 ->
  exists items', m2r_inv (fst (block_start N s m)) items' (n + 1) ({[i]} ∪ open) /\ mr_completed (fst (block_start N s m)) = mr_completed s /\
    forall done, raccept_all (ROpen items done) (snd (block_start N s m)) = Some (ROpen items' done).
Proof.
  intros I Ei En B. pose proof (index_value m i n Ei En ltac:(pose proof (mv_count _ _ _ _ I); lia)) as K. unfold block_start. rewrite K, En.
  destruct (as_map (get "content_block" m)) as [cb|]; [|exists items; split; [by apply m2r_skip|done]].
  destruct (new_item s cb) as [it|] eqn:Nw; [|exists items; split; [by apply m2r_skip|done]]. destruct (new_item_fields s cb it Nw) as (Eo & Et & Ec).
  set (s1 := s <| mr_nextOutput := _ |> <| mr_items := _ |>). pose proof (mv_started _ _ _ _ I) as St.
  exists (<[Itoa (mr_nextOutput s) := ("", false)]> items). split_and!.
  - unfold emitItemAdded, emitStarted. change (mr_started s1) with (mr_started s). rewrite St. cbn [fst]. by apply (m2r_new s s1 items n open it).
  - unfold emitItemAdded, emitStarted. change (mr_started s1) with (mr_started s). by rewrite St.
  - intros done. rewrite added_accept, Eo; [done|done|]. rewrite Eo. by apply (m2r_fresh s items n open).
Qed.

Lemma item_delta_accept s items n open k it kind extra text : m2r_inv s items n open -> mr_items s !! k = Some it -> ri_closed it = false -> is_empty text = false ->
  (exists ms, event_of EvDelta (ri_outputIndex it) (mkREvent kind (JObj ms) 0 false) /\ get_str "delta" ms = text /\
    snd (fst (item_delta s k it kind extra text)) = [mkREvent kind (JObj ms) 0 false]) ->
  exists items', m2r_inv (fst (fst (item_delta s k it kind extra text))) items' n open /\
    mr_completed (fst (fst (item_delta s k it kind extra text))) = mr_completed s /\
    forall done, raccept_all (ROpen items done) (snd (fst (item_delta s k it kind extra text))) = Some (ROpen items' done).
Proof.
  intros I L Cl Ne (ms & Ev & Ed & Es). destruct (mv_item _ _ _ _ I k it L) as [_ Lt]. rewrite Cl in Lt. destruct (mv_blocks _ _ _ _ I k it L) as [_ Op].
  exists (<[Itoa (ri_outputIndex it) := (ri_text it +:+ text, false)]> items). rewrite Es. unfold item_delta. rewrite Ne. cbn [fst snd]. split_and!; [|done|].
  - set (it2 := it <| ri_text := ri_text it +:+ text |>). set (s2 := s <| mr_items := _ |>). change (ri_text it +:+ text) with (ri_text it2).
    assert (ri_closed it2 = false) as C2 by exact Cl. rewrite <- C2. apply (m2r_update s s2 items n open open k it it2); done.
  - intros done. cbn [raccept_all]. rewrite (raccept_delta _ _ (ri_outputIndex it) _ ms (ri_text it)) by done. by rewrite Ed.
Qed.

(** A part that sends events for an open message. *)
Definition keeps (s : MessagesToResponsesStream) (items : open_items) (n : Z) (open : gset string) (s' : MessagesToResponsesStream) (es : list ResponsesStreamEvent) : Prop :=
  exists items', m2r_inv s' items' n open /\ mr_completed s' = mr_completed s /\ forall done, raccept_all (ROpen items done) es = Some (ROpen items' done).

Lemma keeps_nothing s items n open : m2r_inv s items n open -> keeps s items n open s [].
Proof. intros I. by exists items. Qed.

Lemma block_delta_accept s m items n open i : m2r_inv s items n open -> n <= 2 ^ 53 -> index_text (JObj m) = Some i -> i ∈ open ->
  keeps s items n open (fst (fst (block_delta N s m))) (snd (fst (block_delta N s m))).
Proof.
  intros I B Ei Hi. destruct (mv_open _ _ _ _ I i Hi) as (k & R & Ek). pose proof (index_value m i k Ei Ek ltac:(lia)) as K. unfold block_delta. rewrite K. cbn zeta.
  destruct (mr_items s !! k) as [it|] eqn:L; [|by apply keeps_nothing]. destruct (as_map (get "delta" m)) as [d|]; [|by apply keeps_nothing].
  assert (ri_closed it = false) as Cl by (apply (mv_blocks _ _ _ _ I k it L); by rewrite <- Ek).
  assert (forall kind extra text, (is_empty text = false -> exists ms, event_of EvDelta (ri_outputIndex it) (mkREvent kind (JObj ms) 0 false) /\ get_str "delta" ms = text /\
    snd (fst (item_delta s k it kind extra text)) = [mkREvent kind (JObj ms) 0 false]) ->
    keeps s items n open (fst (fst (item_delta s k it kind extra text))) (snd (fst (item_delta s k it kind extra text)))) as Text.
  { intros kind extra text H. destruct (is_empty text) eqn:Em; [unfold item_delta; rewrite Em; by apply keeps_nothing|]. by apply item_delta_accept; [..|apply H]. }
  destruct (seqb _ "thinking_delta"); [apply Text; intros Em; unfold item_delta; rewrite Em; eexists; split; [|split; [|reflexivity]]; [event_fields|reflexivity]|].
  destruct (seqb _ "signature_delta").
  { exists items. cbn [fst snd]. split_and!; [|done|done]. destruct (mv_item _ _ _ _ I k it L) as [_ Lt].
    set (it2 := it <| ri_signature := _ |>). set (s2 := s <| mr_items := _ |>). rewrite <- (insert_id items _ _ Lt).
    change (ri_text it) with (ri_text it2). change (ri_closed it) with (ri_closed it2). apply (m2r_update s s2 items n open open k it it2); try done.
    apply (mv_blocks _ _ _ _ I k it L). }
  destruct (seqb _ "text_delta"); [apply Text; intros Em; unfold item_delta; rewrite Em; eexists; split; [|split; [|reflexivity]]; [event_fields|reflexivity]|].
  destruct (seqb _ "input_json_delta"); [apply Text; intros Em; unfold item_delta; rewrite Em; eexists; split; [|split; [|reflexivity]]; [event_fields|reflexivity]|].
  by apply keeps_nothing.
Qed.

Lemma block_stop_accept s m items n open i : m2r_inv s items n open -> n <= 2 ^ 53 -> index_text (JObj m) = Some i -> i ∈ open ->
  exists items', m2r_inv (fst (block_stop N s m)) items' n (open ∖ {[i]}) /\
    raccept_all (ROpen items (map sort_keys (mr_completed s))) (snd (block_stop N s m)) = Some (ROpen items' (map sort_keys (mr_completed (fst (block_stop N s m))))).
Proof.
  intros I B Ei Hi. destruct (mv_open _ _ _ _ I i Hi) as (k & R & Ek). pose proof (index_value m i k Ei Ek ltac:(lia)) as K. unfold block_stop. rewrite K.
  assert (forall k', k' <> k -> Itoa k' ∈ open -> Itoa k' ∈ open ∖ {[i]}) as Keep.
  { intros k' Nk H. apply elem_of_difference. split; [done|]. rewrite elem_of_singleton, Ek. by intros Z%Itoa_injective. }
  destruct (mr_items s !! k) as [it|] eqn:L.
  - assert (ri_closed it = false) as Cl by (apply (mv_blocks _ _ _ _ I k it L); by rewrite <- Ek). destruct (mv_item _ _ _ _ I k it L) as [_ Lt]. rewrite Cl in Lt.
    exists (<[Itoa (ri_outputIndex it) := (ri_text it, true)]> items). rewrite closing_accept by done. unfold closeItem. rewrite Cl. cbn [fst]. split.
    + set (it2 := it <| ri_closed := true |>). set (s2 := s <| mr_items := _ |> <| mr_completed := _ |>). change (ri_text it, true) with (ri_text it2, ri_closed it2).
      apply (m2r_update s s2 items n open _ k it it2); try done; [set_solver|]. split; [done|]. rewrite Ek. set_solver.
    + cbn. by rewrite map_app.
  - exists items. cbn [fst]. split; [|done]. destruct I as [A0 B0 C D E F G H]. split; try done; [set_solver|].
    intros k' it' L'. destruct (E k' it' L') as [R' Q]. split; [done|]. rewrite Q. assert (k' <> k) by (intros ->; congruence). split; [by apply Keep|set_solver].
Qed.

Lemma nothing_open s items n : m2r_inv s items n ∅ -> sortedOpenItems s = [] /\ closed_all items = true.
Proof.
  intros I. assert (forall k it, mr_items s !! k = Some it -> ri_closed it = true) as Cl.
  { intros k it L. destruct (mv_blocks _ _ _ _ I k it L) as [_ Q]. destruct (ri_closed it); [done|]. set_solver. }
  split.
  - unfold sortedOpenItems. replace (List.filter _ _) with (@nil (Z * responsesStreamItem)); [done|]. symmetry.
    destruct (List.filter _ _) as [|[k it] l] eqn:E; [done|]. exfalso. assert (In (k, it) ((k, it) :: l)) as Hin by by left. rewrite <- E in Hin.
    apply filter_In in Hin as [Hin Hc]. apply list_elem_of_In, elem_of_map_to_list in Hin. cbn in Hc. by rewrite (Cl k it Hin) in Hc.
  - unfold closed_all. apply bool_decide_eq_true_2. intros j x H. destruct (mv_only _ _ _ _ I j x H) as (k & it & L & ->).
    destruct (mv_item _ _ _ _ I k it L) as [_ Lt]. rewrite Lt in H. injection H as <-. by apply (Cl k).
Qed.

Lemma final_accept s items : closed_all items = true ->
  raccept_all (ROpen items (map sort_keys (mr_completed s))) (finalEvents s "completed") = Some (REnd (map sort_keys (mr_completed s))).
Proof.
  intros Cl. unfold finalEvents. cbn [raccept_all].
  assert (raccept (ROpen items (map sort_keys (mr_completed s))) (map_event "response.done" [("response", JObj (finalResponse s "completed"))]) = Some (RFinal (map sort_keys (mr_completed s)))) as ->; [|reflexivity].
  transitivity (on_response_done items (map sort_keys (mr_completed s)) [("response", sort_keys (JObj (finalResponse s "completed"))); ("type", JStr "response.done")]); [reflexivity|].
  assert (response_outputs [("response", sort_keys (JObj (finalResponse s "completed"))); ("type", JStr "response.done")] = map sort_keys (mr_completed s)) as Out.
  { unfold finalResponse. cbn zeta. destruct (seqb "completed" "completed" && seqb (mr_stopReason s) "max_tokens"); reflexivity. }
  unfold on_response_done. rewrite Out, Cl.
  by rewrite bool_decide_eq_true_2.
Qed.

Definition opened (q : phase) : Z := match q with POpen n _ => n | _ => 0 end.

(** What a Messages client reads of an event of an open message. *)
Inductive reads (m : obj) (n : Z) (open : gset string) : phase -> Prop :=
  | reads_delta : get_str "type" m = "message_delta" -> open = ∅ -> reads m n open PDelta
  | reads_start i : get_str "type" m = "content_block_start" -> index_text (JObj m) = Some i -> i = Itoa n -> reads m n open (POpen (n + 1) ({[i]} ∪ open))
  | reads_text i : get_str "type" m = "content_block_delta" -> index_text (JObj m) = Some i -> i ∈ open -> reads m n open (POpen n open)
  | reads_stop i : get_str "type" m = "content_block_stop" -> index_text (JObj m) = Some i -> i ∈ open -> reads m n open (POpen n (open ∖ {[i]})).

Lemma accept_reads m n open q : accept (POpen n open) (doc_event m) = Some q -> reads m n open q.
Proof.
  unfold accept, doc_event. cbn [me_Event me_Data plain_event]. destruct (seqb _ "message_delta") eqn:T1.
  { destruct (bool_decide (open = ∅) && _) eqn:B; [|done]. intros [= <-]. sbool. apply andb_true_iff in B as [B _]. apply bool_decide_eq_true in B. by apply reads_delta. }
  destruct (index_text (JObj m)) as [i|] eqn:Ei; [|done]. cbn [mbind option_bind]. destruct (seqb _ "content_block_start") eqn:T2.
  { destruct (seqb i (Itoa n)) eqn:B; [|done]. intros [= <-]. sbool. by apply reads_start. }
  destruct (seqb _ "content_block_delta") eqn:T3. { destruct (bool_decide (i ∈ open)) eqn:B; [|done]. intros [= <-]. sbool. apply bool_decide_eq_true in B. by apply (reads_text m n open i). }
  destruct (seqb _ "content_block_stop") eqn:T4; [|done]. destruct (bool_decide (i ∈ open)) eqn:B; [|done]. intros [= <-]. sbool. apply bool_decide_eq_true in B. by apply reads_stop.
Qed.

Lemma accept_opened q e q' : accept q e = Some q' -> opened q' <= opened q + 1.
Proof.
  destruct q as [|n open| |]; cbn; [destruct (seqb _ _); [intros [= <-]; cbn; lia|done]| |destruct (seqb _ _); [intros [= <-]; cbn; lia|done]|done].
  destruct (seqb _ "message_delta"); [destruct (bool_decide _ && _) eqn:B; [|done]; intros [= <-]; cbn; apply andb_true_iff in B as [_ B]; zbool; lia|].
  destruct (index_text _) as [i|]; [|done]. cbn. repeat (destruct (seqb _ _) || destruct (bool_decide _)); try done; intros [= <-]; cbn; lia.
Qed.

Lemma event_accept q s p m q' : in_step q s p -> opened q <= 2 ^ 53 -> accept q (doc_event m) = Some q' ->
  let '(s', es, _) := m2r_event N s m in exists p', raccept_all p es = Some p' /\ in_step q' s' p'.
Proof.
  intros St B A. destruct q as [|n open| |]; cbn [in_step opened] in St, B.
  - destruct St as [E0 ->]. unfold accept, doc_event in A. cbn [me_Event plain_event] in A. destruct (seqb (get_str "type" m) "message_start") eqn:T; [|done]. injection A as <-. sbool.
    pose proof (start_accept s m ltac:(by rewrite E0) T E0) as Q. destruct (m2r_event N s m) as [[s' es] mt]. destruct Q as (I & C & Q).
    exists (ROpen ∅ []). split; [done|]. exists ∅. by rewrite C.
  - destruct St as (items & I & ->). apply accept_reads in A. destruct A as [T Eo|i T Ei En|i T Ei Hi|i T Ei Hi]; unfold m2r_event; rewrite T; cbn zeta; [subst open|..].
    + change (seqb "message_delta" "message_delta") with true. cbn -[message_delta]. unfold message_delta. cbn zeta.
      set (o := intFrom N _). set (r := as_string _).
      assert (forall s', mr_items s' = mr_items s -> mr_started s' = mr_started s -> mr_nextOutput s' = mr_nextOutput s -> mr_completed s' = mr_completed s ->
        in_step PDelta s' (ROpen items (map sort_keys (mr_completed s)))) as Fr.
      { intros s' E1 E2 E3 E4. exists items, n. rewrite E4. split; [by apply (m2r_frame s)|done]. }
      destruct (0 <? o), r; exists (ROpen items (map sort_keys (mr_completed s))); (split; [done|by apply Fr]).
    + cbn -[block_start]. destruct (block_start_accept s m items n open i I Ei En B) as (items' & I' & C & Q). destruct (block_start N s m) as [s' es]. cbn [fst snd] in *.
      eexists. split; [apply Q|]. exists items'. by rewrite C.
    + cbn -[block_delta]. destruct (block_delta_accept s m items n open i I B Ei Hi) as (items' & I' & C & Q). destruct (block_delta N s m) as [[s' es] mt]. cbn [fst snd] in *.
      eexists. split; [apply Q|]. exists items'. by rewrite C.
    + cbn -[block_stop]. destruct (block_stop_accept s m items n open i I B Ei Hi) as (items' & I' & Q). destruct (block_stop N s m) as [s' es]. cbn [fst snd] in *.
      eexists. split; [exact Q|]. by exists items'.
  - destruct St as (items & n & I & ->). unfold accept, doc_event in A. cbn [me_Event plain_event] in A. destruct (seqb (get_str "type" m) "message_stop") eqn:T; [|done]. injection A as <-. sbool.
    unfold m2r_event. rewrite T. cbn zeta. cbn -[sortedOpenItems finalEvents]. destruct (nothing_open s items n I) as [-> Cl]. cbn [close_items app].
    eexists. split; [by apply final_accept|done].
  - done.
Qed.

(** ** What the blocks say *)

(** The type of the item a block becomes. *)
Definition shown_as (t : string) : option string :=
  if seqb t "thinking" || seqb t "redacted_thinking" then Some "reasoning"
  else if seqb t "text" then Some "message" else if seqb t "tool_use" then Some "function_call" else None.
Definition kind_type (k : item_kind) : string := match k with KThinking | KRedacted => "reasoning" | KText => "message" | KToolUse => "function_call" end.

Definition piece (d : obj) : string :=
  let t := get_str "type" d in
  if seqb t "thinking_delta" then get_str "thinking" d
  else if seqb t "text_delta" then get_str "text" d else if seqb t "input_json_delta" then get_str "partial_json" d else "".

(** Blocks by index with type and text, and the items told so far, read directly off the stream. *)
Notation told := (gmap string (string * string) * list (string * string))%type.
Definition tell (t : told) (m : obj) : told :=
  match index_text (JObj m) with
  | None => t
  | Some i =>
      let ty := get_str "type" m in
      if seqb ty "content_block_start" then
        match as_map (get "content_block" m) with Some cb => (<[i := (get_str "type" cb, "")]> (fst t), snd t) | None => t end
      else if seqb ty "content_block_delta" then
        match fst t !! i with Some (k, x) => (<[i := (k, x +:+ piece (sub_map "delta" m))]> (fst t), snd t) | None => t end
      else if seqb ty "content_block_stop" then
        match fst t !! i with
        | Some (k, x) => match shown_as k with Some ty => (fst t, snd t ++ [(ty, x)]) | None => t end
        | None => t
        end
      else t
  end.

(** Type and text of an output item. *)
Definition part_texts (l : option (list json)) : string := cat (map (fun p => match p with JObj m => get_str "text" m | _ => "" end) (default [] l)).
Definition item_view (item : json) : string * string :=
  match item with
  | JObj m =>
      let t := get_str "type" m in
      (t, if seqb t "message" then part_texts (as_list (get "content" m))
          else if seqb t "reasoning" then part_texts (as_list (get "summary" m)) else get_str "arguments" m)
  | _ => ("", "")
  end.

Lemma done_item_view it : item_view (sort_keys (done_item it)) = (kind_type (ri_kind it), ri_text it).
Proof.
  destruct it as [k i id call name text sig cl]. unfold done_item. cbn [ri_kind ri_itemID ri_text ri_signature]. destruct k; cbn [kind_type].
  - unfold responsesReasoningItem. destruct text as [|c text], sig as [|c' sig]; cbn [is_empty]; try reflexivity;
      (transitivity ("reasoning", String c text +:+ ""); [reflexivity|by rewrite append_nil_r]).
  - unfold responsesReasoningItem. destruct text as [|c text], sig as [|c' sig]; cbn [is_empty]; try reflexivity;
      (transitivity ("reasoning", String c text +:+ ""); [reflexivity|by rewrite append_nil_r]).
  - transitivity ("message", text +:+ ""); [reflexivity|by rewrite append_nil_r].
  - unfold tool_item. cbn [ri_name]. destruct (splitChatToolName name) as [ns n]. destruct (is_empty ns); reflexivity.
Qed.

Record told_ok (s : MessagesToResponsesStream) (t : told) (n : Z) : Prop := {
  to_item : forall k it, mr_items s !! k = Some it -> exists ty, fst t !! Itoa k = Some (ty, ri_text it) /\ shown_as ty = Some (kind_type (ri_kind it));
  to_shown : forall k ty x, fst t !! Itoa k = Some (ty, x) -> shown_as ty = None \/ is_Some (mr_items s !! k);
  to_count : forall k, is_Some (fst t !! Itoa k) -> k < n;
  to_done : snd t = map item_view (map sort_keys (mr_completed s))
}.

Lemma new_item_type s cb : match new_item s cb with Some it => shown_as (get_str "type" cb) = Some (kind_type (ri_kind it)) | None => shown_as (get_str "type" cb) = None end.
Proof.
  unfold new_item, shown_as. cbn zeta. destruct (seqb _ "thinking"); [done|]. destruct (seqb _ "redacted_thinking"); [done|]. destruct (seqb _ "text"); [done|]. by destruct (seqb _ "tool_use").
Qed.

Lemma told_start s m items n open i t : m2r_inv s items n open -> told_ok s t n -> get_str "type" m = "content_block_start" -> index_text (JObj m) = Some i -> i = Itoa n -> n <= 2 ^ 53 ->
  told_ok (fst (block_start N s m)) (tell t m) (n + 1).
Proof.
  intros I T Ty Ei En B. pose proof (index_value m i n Ei En ltac:(pose proof (mv_count _ _ _ _ I); lia)) as K. destruct T as [T1 T2 T3 T4].
  assert (fst t !! Itoa n = None) as Fn by (destruct (fst t !! Itoa n) eqn:E; [|done]; specialize (T3 n ltac:(by eexists)); lia).
  assert (mr_items s !! n = None) as Fi by (destruct (mr_items s !! n) eqn:E; [|done]; destruct (mv_blocks _ _ _ _ I _ _ E); lia).
  unfold tell. rewrite Ei, Ty. cbn zeta. change (seqb "content_block_start" "content_block_start") with true. cbn match. unfold block_start. rewrite K.
  destruct (as_map (get "content_block" m)) as [cb|]; [|split; [done|done|intros k H; specialize (T3 k H); lia|done]]. subst i.
  pose proof (new_item_type s cb) as Nt. destruct (new_item s cb) as [it|] eqn:Nw.
  - destruct (new_item_fields s cb it Nw) as (Eo & Et & Ec). pose proof (mv_started _ _ _ _ I) as St. unfold emitItemAdded, emitStarted.
    set (s1 := s <| mr_nextOutput := _ |> <| mr_items := _ |>). change (mr_started s1) with (mr_started s). rewrite St. cbn [fst snd]. split; cbn.
    + intros k it'. destruct (decide (k = n)) as [->|Ne]; [rewrite !lookup_insert_eq; intros [= <-]; rewrite Et; by eexists|].
      rewrite !lookup_insert_ne by (done || by intros Z%Itoa_injective). apply T1.
    + intros k ty x. destruct (decide (k = n)) as [->|Ne]; [rewrite !lookup_insert_eq; right; by eexists|].
      rewrite !lookup_insert_ne by (done || by intros Z%Itoa_injective). apply T2.
    + intros k. destruct (decide (k = n)) as [->|Ne]; [lia|]. rewrite lookup_insert_ne by (by intros Z%Itoa_injective). intros H. specialize (T3 k H). lia.
    + exact T4.
  - split; cbn.
    + intros k it' L. destruct (decide (k = n)) as [->|Ne]; [congruence|]. rewrite lookup_insert_ne by (by intros Z%Itoa_injective). by apply T1.
    + intros k ty x. destruct (decide (k = n)) as [->|Ne]; [rewrite lookup_insert_eq; intros [= <- <-]; by left|]. rewrite lookup_insert_ne by (by intros Z%Itoa_injective). apply T2.
    + intros k. destruct (decide (k = n)) as [->|Ne]; [lia|]. rewrite lookup_insert_ne by (by intros Z%Itoa_injective). intros H. specialize (T3 k H). lia.
    + exact T4.
Qed.

(** Text appended to a block whose item, if it has one, follows. *)
Lemma told_write s s' t n k ty x d : told_ok s t n -> fst t !! Itoa k = Some (ty, x) -> mr_completed s' = mr_completed s ->
  (forall k', k' <> k -> mr_items s' !! k' = mr_items s !! k') ->
  match mr_items s !! k with Some it => exists it', mr_items s' !! k = Some it' /\ ri_text it' = ri_text it +:+ d /\ ri_kind it' = ri_kind it | None => mr_items s' !! k = None end ->
  told_ok s' (<[Itoa k := (ty, x +:+ d)]> (fst t), snd t) n.
Proof.
  intros [T1 T2 T3 T4] L Ec Oth Own. split; cbn [fst snd].
  - intros k' it'. destruct (decide (k' = k)) as [->|Ne].
    + destruct (mr_items s !! k) as [it|] eqn:Li; [|congruence]. destruct Own as (it2 & E2 & Et & Ek). rewrite E2. intros [= <-]. rewrite lookup_insert_eq.
      destruct (T1 k it Li) as (ty' & Q1 & Q2). rewrite L in Q1. injection Q1 as <- ->. exists ty. by rewrite Et, Ek.
    + rewrite Oth, lookup_insert_ne by (done || by intros Z%Itoa_injective). apply T1.
  - intros k' ty' x'. destruct (decide (k' = k)) as [->|Ne].
    + rewrite lookup_insert_eq. intros [= <- <-]. destruct (T2 k ty x L) as [Q|[it Q]]; [by left|]. right. rewrite Q in Own. destruct Own as (it' & -> & _). by eexists.
    + rewrite Oth, lookup_insert_ne by (done || by intros Z%Itoa_injective). apply T2.
  - intros k'. destruct (decide (k' = k)) as [->|Ne]; [intros _; apply T3; by eexists|]. rewrite lookup_insert_ne by (by intros Z%Itoa_injective). apply T3.
  - by rewrite Ec.
Qed.

Lemma told_same s s' t n : told_ok s t n -> mr_items s' = mr_items s -> mr_completed s' = mr_completed s -> told_ok s' t n.
Proof. intros [T1 T2 T3 T4] E1 E2. split; by rewrite ?E1, ?E2. Qed.

Lemma item_delta_items s k it kind extra text : mr_items s !! k = Some it -> let s' := fst (fst (item_delta s k it kind extra text)) in
  mr_completed s' = mr_completed s /\ (forall k', k' <> k -> mr_items s' !! k' = mr_items s !! k') /\
  exists it', mr_items s' !! k = Some it' /\ ri_text it' = ri_text it +:+ text /\ ri_kind it' = ri_kind it.
Proof.
  intros L. unfold item_delta. destruct (is_empty text) eqn:E; cbn.
  - sbool. subst text. split_and!; [done|done|]. exists it. by rewrite append_nil_r.
  - split_and!; [done|intros k' Ne; by rewrite lookup_insert_ne|]. eexists. rewrite lookup_insert_eq. by split_and!.
Qed.

Lemma told_delta s m items n open i t : m2r_inv s items n open -> told_ok s t n -> get_str "type" m = "content_block_delta" -> n <= 2 ^ 53 -> index_text (JObj m) = Some i -> i ∈ open ->
  told_ok (fst (fst (block_delta N s m))) (tell t m) n.
Proof.
  intros I T Ty B Ei Hi. destruct (mv_open _ _ _ _ I i Hi) as (k & R & Ek). pose proof (index_value m i k Ei Ek ltac:(lia)) as K.
  unfold tell, block_delta. rewrite Ei, Ty, K. subst i. cbn zeta. cbn -[piece lookup insert item_delta sub_map].
  destruct (fst t !! Itoa k) as [[ty x]|] eqn:L.
  - destruct (mr_items s !! k) as [it|] eqn:Li.
    2: { apply (told_write s s t n k ty x _ T L eq_refl); [done|by rewrite Li]. }
    assert (forall s' d, mr_completed s' = mr_completed s /\ (forall k', k' <> k -> mr_items s' !! k' = mr_items s !! k') /\
      (exists it', mr_items s' !! k = Some it' /\ ri_text it' = ri_text it +:+ d /\ ri_kind it' = ri_kind it) -> told_ok s' (<[Itoa k := (ty, x +:+ d)]> (fst t), snd t) n) as W.
    { intros s' d (W1 & W2 & W3). apply (told_write s s' t n k ty x d T L W1 W2). by rewrite Li. }
    assert (mr_completed s = mr_completed s /\ (forall k', k' <> k -> mr_items s !! k' = mr_items s !! k') /\
      (exists it', mr_items s !! k = Some it' /\ ri_text it' = ri_text it +:+ "" /\ ri_kind it' = ri_kind it)) as Idle by (split_and!; [done|done|exists it; by rewrite append_nil_r]).
    unfold sub_map. destruct (as_map (get "delta" m)) as [d|]; [|by apply W]. cbn [default from_option id]. unfold piece. cbn zeta.
    destruct (seqb (get_str "type" d) "thinking_delta") eqn:D1; [apply W; by apply item_delta_items|].
    destruct (seqb (get_str "type" d) "signature_delta") eqn:D2.
    { sbool. rewrite D2. cbn [seqb]. apply W. cbn. split_and!; [done|intros k' Ne; by rewrite lookup_insert_ne|]. eexists. rewrite lookup_insert_eq. by rewrite append_nil_r. }
    destruct (seqb _ "text_delta"); [apply W; by apply item_delta_items|]. destruct (seqb _ "input_json_delta"); [apply W; by apply item_delta_items|by apply W].
  - destruct (mr_items s !! k) as [it|] eqn:Li; [|done]. destruct (to_item _ _ _ T k it Li) as (ty & Q & _). congruence.
Qed.

Lemma told_stop s m items n open i t : m2r_inv s items n open -> told_ok s t n -> get_str "type" m = "content_block_stop" -> n <= 2 ^ 53 -> index_text (JObj m) = Some i -> i ∈ open ->
  told_ok (fst (block_stop N s m)) (tell t m) n.
Proof.
  intros I T Ty B Ei Hi. destruct (mv_open _ _ _ _ I i Hi) as (k & R & Ek). pose proof (index_value m i k Ei Ek ltac:(lia)) as K.
  unfold tell, block_stop. rewrite Ei, Ty, K. cbn zeta. cbn -[lookup shown_as]. subst i. destruct (mr_items s !! k) as [it|] eqn:Li.
  - assert (ri_closed it = false) as Cl by by apply (mv_blocks _ _ _ _ I k it Li). destruct (to_item _ _ _ T k it Li) as (ty & -> & Es). rewrite Es.
    unfold closeItem. rewrite Cl. destruct T as [T1 T2 T3 T4]. split; cbn [fst snd].
    + intros k' it'. cbn. destruct (decide (k' = k)) as [->|Ne]; [rewrite lookup_insert_eq; intros [= <-]; cbn; by apply T1|]. rewrite lookup_insert_ne by done. apply T1.
    + intros k' ty' x' Q. cbn. destruct (decide (k' = k)) as [->|Ne]; [right; rewrite lookup_insert_eq; by eexists|]. rewrite lookup_insert_ne by done. by apply (T2 k' ty' x').
    + exact T3.
    + cbn. rewrite !map_app, T4. cbn [map]. by rewrite done_item_view.
  - cbn [fst]. destruct (fst t !! Itoa k) as [[ty x]|] eqn:L; [|done]. destruct (to_shown _ _ _ T k ty x L) as [-> |[? Q]]; [done|congruence].
Qed.

Definition told_at (q : phase) (s : MessagesToResponsesStream) (t : told) : Prop :=
  match q with
  | PNone => t = (∅, [])
  | POpen n _ => told_ok s t n
  | PDelta => exists n, told_ok s t n
  | PStop => snd t = map item_view (map sort_keys (mr_completed s))
  end.

Lemma tell_other t m : get_str "type" m ∈ ["message_start"; "message_delta"; "message_stop"] -> tell t m = t.
Proof.
  intros H. unfold tell. destruct (index_text (JObj m)); [|done]. cbn zeta. rewrite !elem_of_cons in H. destruct H as [->|[->|[->|H]]]; [done..|]. by apply not_elem_of_nil in H.
Qed.

Lemma event_told q s p m q' t : in_step q s p -> opened q <= 2 ^ 53 -> accept q (doc_event m) = Some q' -> told_at q s t ->
  told_at q' (fst (fst (m2r_event N s m))) (tell t m).
Proof.
  intros St B A T. destruct q as [|n open| |]; cbn [in_step opened told_at] in St, B, T.
  - destruct St as [E0 ->]. unfold accept, doc_event in A. cbn [me_Event plain_event] in A. destruct (seqb (get_str "type" m) "message_start") eqn:Ty; [|done]. injection A as <-. sbool.
    rewrite tell_other by (rewrite Ty; set_solver). pose proof (start_accept s m ltac:(by rewrite E0) Ty E0) as Q. destruct (m2r_event N s m) as [[s' es] mt]. destruct Q as (I & C & _). cbn [fst told_at]. subst t.
    split; cbn [fst snd]; [|intros *; by rewrite lookup_empty|intros k; rewrite lookup_empty; by intros [? ?]|by rewrite C].
    intros k it L. destruct (mv_blocks _ _ _ _ I k it L). lia.
  - destruct St as (items & I & ->). apply accept_reads in A. destruct A as [Ty Eo|i Ty Ei En|i Ty Ei Hi|i Ty Ei Hi]; unfold m2r_event; rewrite Ty; cbn zeta.
    + rewrite tell_other by (rewrite Ty; set_solver). cbn -[message_delta]. exists n. unfold message_delta. cbn zeta. destruct (0 <? _), (as_string _); by apply (told_same s).
    + cbn -[block_start tell]. by apply (told_start s m items n open i).
    + cbn -[block_delta tell]. by apply (told_delta s m items n open i).
    + cbn -[block_stop tell]. by apply (told_stop s m items n open i).
  - destruct St as (items & n & I & ->). unfold accept, doc_event in A. cbn [me_Event plain_event] in A. destruct (seqb (get_str "type" m) "message_stop") eqn:Ty; [|done]. injection A as <-. sbool.
    rewrite tell_other by (rewrite Ty; set_solver). unfold m2r_event. rewrite Ty. cbn zeta. cbn -[sortedOpenItems finalEvents]. destruct (nothing_open s items n I) as [-> _].
    destruct T as [n' T]. exact (to_done _ _ _ T).
  - done.
Qed.

Definition is_ping (m : obj) : bool := seqb (get_str "type" m) "ping".

Fixpoint m2r_feed_all (s : MessagesToResponsesStream) (datas : list string) : memits :=
  match datas with
  | [] => (s, [])
  | d :: r => let '(s, e1, _) := M2R_FeedJSON N s d in let '(s, e2) := m2r_feed_all s r in (s, e1 ++ e2)
  end.

Lemma feed_doc s d m : decode_map N d = Some (Some m) -> M2R_FeedJSON N s d = m2r_event N s m.
Proof.
  intros D. unfold M2R_FeedJSON. destruct (seqb d "[DONE]") eqn:E; [sbool; subst d|by rewrite D].
  assert (decode_map N "[DONE]" = None) as Z by reflexivity. congruence.
Qed.

Notation content docs := (List.filter (fun m => negb (is_ping m)) docs).

Lemma docs_accept docs : forall datas q s p t q', Forall2 (fun d m => decode_map N d = Some (Some m)) datas docs -> in_step q s p -> told_at q s t ->
  opened q + Z.of_nat (length docs) <= 2 ^ 53 -> accept_all q (map doc_event (content docs)) = Some q' ->
  exists p', raccept_all p (snd (m2r_feed_all s datas)) = Some p' /\ in_step q' (fst (m2r_feed_all s datas)) p' /\
    told_at q' (fst (m2r_feed_all s datas)) (fold_left tell (content docs) t).
Proof.
  induction docs as [|m docs IH]; intros datas q s p t q' F St T B A.
  { apply Forall2_nil_inv_r in F as ->. cbn in A. injection A as <-. by exists p. }
  apply Forall2_cons_inv_r in F as (d & datas' & D & F & ->). cbn [m2r_feed_all]. rewrite (feed_doc s d m D). cbn [List.filter] in *. destruct (is_ping m) eqn:P; cbn [negb] in *.
  - assert (m2r_event N s m = (s, [], no_meta)) as ->; [|destruct (IH datas' q s p t q' F St T ltac:(cbn in B; lia) A) as (p' & Q & R); destruct (m2r_feed_all s datas'); by exists p'].
    unfold is_ping in P. sbool. unfold m2r_event. by rewrite P.
  - cbn [map accept_all fold_left] in *. destruct (accept q (doc_event m)) as [q1|] eqn:A1; [|done]. cbn in A. cbn [length] in B.
    pose proof (event_accept q s p m q1 St ltac:(lia) A1) as Q. pose proof (event_told q s p m q1 t St ltac:(lia) A1 T) as T1.
    destruct (m2r_event N s m) as [[s1 e1] m1]. destruct Q as (p1 & Q1 & St1). cbn [fst] in T1.
    pose proof (accept_opened q _ q1 A1). destruct (IH datas' q1 s1 p1 _ q' F St1 T1 ltac:(lia) A) as (p' & Q & R). destruct (m2r_feed_all s1 datas') as [s2 e2]. cbn [fst snd] in *.
    exists p'. split; [|done]. rewrite raccept_all_app, Q1. exact Q.
Qed.
End m2r_spec.

(** C15: a well-formed Messages stream - blocks numbered from zero, opened once, written while
    open, closed, then the end of the message, with pings anywhere - becomes a well-formed
    Responses stream: every item announced, sent in pieces that are its final text, closed, and
    repeated in the final response. Its output has one item for each thinking, text and tool
    block, in the order in which they end, with the text of the block; other blocks are left out. A stream cut
    off early leaves a stream that is well formed so far. *)
Theorem messages_stream_wellformed (N : JsonNum) (model : string) (now : Z) (datas : list string) (docs : list (list (string * json))) (q : phase)
  (Hfloat : forall z, Z.abs z <= 2 ^ 53 -> to_int64 (num_float N (Itoa z)) = z)
  (Hdocs : Forall2 (fun d m => decode_map N d = Some (Some m)) datas docs) (Hlength : Z.of_nat (length docs) <= 2 ^ 53)
  (Hstream : accept_all PNone (map doc_event (List.filter (fun m => negb (is_ping m)) docs)) = Some q) :
  exists p, raccept_all RNew (snd (m2r_feed_all N (NewMessagesToResponsesStream model now) datas)) = Some p /\
    match q with
    | PNone => p = RNew
    | PStop => exists output, p = REnd output /\ map item_view output = snd (fold_left tell (List.filter (fun m => negb (is_ping m)) docs) (∅, []))
    | _ => exists items done, p = ROpen items done
    end.
Proof.
  destruct (docs_accept N Hfloat docs datas PNone (NewMessagesToResponsesStream model now) RNew (∅, []) q Hdocs) as (p & A & St & T); [done|done|exact Hlength|done|].
  exists p. split; [done|]. destruct q as [|n open| |]; cbn in St, T; [by destruct St|destruct St as (items & _ & ->); by do 2 eexists|destruct St as (items & ? & _ & ->); by do 2 eexists|].
  eexists. split; [exact St|done].
Qed.

Definition demo_docs : list (list (string * json)) :=
  [[("type", JStr "message_start"); ("message", JObj [("id", JStr "msg_1"); ("usage", JObj [("input_tokens", num 3)])])];
   [("type", JStr "content_block_start"); ("index", num 0); ("content_block", JObj [("type", JStr "text"); ("text", JStr "")])];
   [("type", JStr "ping")];
   [("type", JStr "content_block_delta"); ("index", num 0); ("delta", JObj [("type", JStr "text_delta"); ("text", JStr "hi")])];
   [("type", JStr "content_block_delta"); ("index", num 0); ("delta", JObj [("type", JStr "text_delta"); ("text", JStr " there")])];
   [("type", JStr "content_block_stop"); ("index", num 0)];
   [("type", JStr "message_delta"); ("delta", JObj [("stop_reason", JStr "end_turn")]); ("usage", JObj [("output_tokens", num 2)])];
   [("type", JStr "message_stop")]].

Definition demo_datas : list string := map (fun m => string_of (json_encode (JObj m))) demo_docs.
Definition decoded (d : string) : list (string * json) := match decode_map exact_num d with Some (Some m) => m | _ => [] end.

Lemma messages_stream_wellformed_witness :
  exists p, raccept_all RNew (snd (m2r_feed_all exact_num (NewMessagesToResponsesStream "m" 0) demo_datas)) = Some p /\
    exists output, p = REnd output /\ map item_view output = [("message", "hi there")].
Proof.
  assert (Forall2 (fun d m => decode_map exact_num d = Some (Some m)) demo_datas (map decoded demo_datas)) as Hd.
  { repeat (apply List.Forall2_cons; [vm_compute; reflexivity|]). apply List.Forall2_nil. }
  pose proof (messages_stream_wellformed exact_num "m" 0 demo_datas (map decoded demo_datas) PStop exact_num_float Hd ltac:(vm_compute; done) ltac:(vm_compute; reflexivity)) as (p & A & output & E & V).
  exists p. split; [exact A|]. exists output. split; [exact E|]. rewrite V. vm_compute. reflexivity.
Defined.

(** ** Order of the open items *)

Notation out_index x := (ri_outputIndex (snd x)).

Lemma exchange_pass_least l : forall x, let '(m, r) := exchange_pass x l in m :: r ≡ₚ x :: l /\ Forall (fun y => out_index m <= out_index y) r /\ out_index m <= out_index x.
Proof.
  induction l as [|y l IH]; intros x; cbn; [split_and!; [done|done|lia]|]. destruct (out_index y <? out_index x) eqn:C; zbool.
  - specialize (IH y). destruct (exchange_pass y l) as [m r]. destruct IH as (P & F & L). split_and!; [|constructor; [lia|done]|lia].
    by rewrite (Permutation_swap x m), P.
  - specialize (IH x). destruct (exchange_pass x l) as [m r]. destruct IH as (P & F & L). split_and!; [|constructor; [lia|done]|lia].
    rewrite (Permutation_swap y m), P. apply Permutation_swap.
Qed.

(** The exchanges sort, so the order in which the map is walked does not matter: the output
    indices of the items are distinct. *)
Lemma exchange_sort_sorted n : forall l, (length l <= n)%nat -> exchange_sort n l ≡ₚ l /\ StronglySorted (fun x y => out_index x <= out_index y) (exchange_sort n l).
Proof.
  induction n as [|n IH]; intros [|x l] Ln; cbn in *; try lia; [by split; [|constructor]..|].
  pose proof (exchange_pass_least l x) as Q. destruct (exchange_pass x l) as [m r]. destruct Q as (P & F & _).
  assert (length r = length l) as El by (apply Permutation_length in P; cbn in P; lia). destruct (IH r ltac:(lia)) as [P' S']. split; [by rewrite P'|].
  constructor; [done|]. by rewrite P'.
Qed.

(** An error before the start of a message is reported on a response that was never announced. *)
Lemma early_error_unannounced : exists data, map re_Event (snd (fst (M2R_FeedJSON exact_num (NewMessagesToResponsesStream "m" 0) data))) = ["response.failed"; "response.completed"].
Proof. exists (string_of (json_encode (JObj [("type", JStr "error"); ("error", JObj [("message", JStr "overloaded")])]))). vm_compute. reflexivity. Qed.
