(* ===== verification/Filters.v ===== *)
(** pkg/filters/inbound: authorization, credit check, session reader and validation, and
    pkg/tagging with its filter.  The rate limit filter is in Limiter.  What the filters
    ask other services (credits, the model registry) is an argument. *)

From Stdlib Require Import Ascii.
From S2P Require Import Prelude GoFloat GoStrings GoTime GoJson GoPrint Matcher Policy Types Context Http.

(** * auth.go *)

Definition Auth_OnRequest (g : GatewayContext) : option goerror :=
  if is_empty (UserID g) && is_empty (Tenant g) then Some (httpError 401 "missing authentication user or tenant")
  else match gPolicy g with
       | None => Some (httpError 403 "no policy matched")
       | Some p =>
           if existsb (fun perm => MatchWildcard perm (Model g)) (default [] (p_Permissions p)) then None
           else Some (httpError 403 ("access denied to model: " +:+ Model g))
       end.

(** * credits_check.go *)

(** [check]: the credits of an API key. *)
Definition CreditsCheck_OnRequest (check : string -> option goerror) (g : GatewayContext) : option goerror :=
  match gPolicy g ≫= p_Billing with
  | None => Some (httpError 403 "Model pricing not configured. Please contact your administrator.")
  | Some _ =>
      if is_empty (UserID g) then None
      else match check (APIKey g) with
           | Some _ => Some (httpError 429 "Credits exceeded. Please contact your administrator to recharge.")
           | None => None
           end
  end.

(** * session_reader.go *)

Definition param_string (v : gvalue) (dflt : string) : string :=
  match v with VString s => if is_empty s then dflt else s | _ => dflt end.

Definition session_header (headerName : string) (g : GatewayContext) : string :=
  match lb_params g with
  | None => headerName
  | Some ps =>
      match ps !! "session_header" with
      | Some v => param_string v headerName
      | None => match ps !! "session_header_name" with Some v => param_string v headerName | None => headerName end
      end
  end.

(** A context without a request panics. *)
Definition SessionReader_OnRequest (headerName : string) (g : GatewayContext) : go GatewayContext :=
  match Request g with
  | None => Panic
  | Some r =>
      let sessionID := header_Get (req_Header r) (session_header headerName g) in
      Ret (if negb (is_empty sessionID) then g <| SessionID := sessionID |>
           else if negb (is_empty (UserID g)) then g <| SessionID := UserID g |>
           else if negb (is_empty (Tenant g)) then g <| SessionID := Tenant g |>
           else g)
  end.

(** * validate.go *)

Definition invalid_json : goerror := httpError 400 "invalid JSON body".

Record anthropic_request := mkAnthropicRequest { arq_Messages : list json; arq_MaxTokens : option Z }.
#[global] Instance eta_anthropic_request : Eta anthropic_request := fun r =>
  mkAnthropicRequest (arq_Messages r) (arq_MaxTokens r).

Definition validateAnthropicMessages (body : string) : option goerror :=
  match Unmarshal (dec_struct [("messages", dec_field arq_Messages (dec_slice JNull dec_any));
                               ("max_tokens", dec_field arq_MaxTokens (dec_ptr 0 dec_int))])
          (mkAnthropicRequest [] None) body with
  | None => Some invalid_json
  | Some r =>
      match arq_Messages r, arq_MaxTokens r with
      | [], _ => Some (httpError 400 "messages is required and must not be empty")
      | _, None => Some (httpError 400 "max_tokens is required")
      | _, Some n => if n <=? 0 then Some (httpError 400 "max_tokens must be positive") else None
      end
  end.

(** The list field a request body must have. *)
Definition require_list (field body : string) : option goerror :=
  match Unmarshal (dec_struct [(field, dec_slice JNull dec_any)]) [] body with
  | None => Some invalid_json
  | Some [] => Some (httpError 400 (field +:+ " is required and must not be empty"))
  | Some _ => None
  end.

Definition validateGeminiGenerateContent (body : string) : option goerror := require_list "contents" body.

Definition validate_body (rt body : string) : option goerror :=
  if is_empty body then None
  else if seqb rt RequestTypeChatCompletion then require_list "messages" body
  else if seqb rt RequestTypeMessages then validateAnthropicMessages body
  else if seqb rt RequestTypeResponses then
    match json_parse body with None => Some invalid_json | Some _ => None end
  else if seqb rt RequestTypeGeminiGenerateContent then validateGeminiGenerateContent body
  else None.

(** [validate model tenant user]: the registry's answer. *)
Definition Validate_OnRequest (validate : string -> string -> string -> bool + goerror) (g : GatewayContext) :
  option goerror :=
  if is_empty (Model g) then Some (httpError 400 "model is required")
  else
    let tenant := if is_empty (Tenant g) then UserTenant g else Tenant g in
    match validate (Model g) tenant (UserID g) with
    | inr e => Some (httpError 400 ("failed to validate model: " +:+ Error_text e))
    | inl false => Some (httpError 400 ("unknown model: " +:+ Model g))
    | inl true => validate_body (RequestType g) (RawBody g)
    end.

(** * interpolator.go *)

Definition resolve (g : GatewayContext) (prefix key : string) : string :=
  let first (l : list string) := match l with v :: _ => v | [] => "" end in
  if seqb prefix "header" then first (GetHeader g key)
  else if seqb prefix "query" then first (GetQuery g key)
  else if seqb prefix "cookie" then GetCookie g key
  else if seqb prefix "system" then GetSystemValue g key
  else if seqb prefix "tag" then GetTagValue g key
  else "".

(** [\w]. *)
Definition is_word_byte (c : ascii) : bool :=
  let n := byte_val c in in_range 48 57 n || in_range 65 90 n || in_range 97 122 n || (n =? 95).

(** The longest prefix of bytes satisfying [p], and the rest. *)
Fixpoint span (p : ascii -> bool) (l : list ascii) : list ascii * list ascii :=
  match l with
  | [] => ([], [])
  | c :: r => if p c then let '(a, b) := span p r in (c :: a, b) else ([], l)
  end.

Definition rbrace : ascii := byte_of 125.

(** One match of [\$\{(\w+)\.([^}]+)\}] at the start: the groups and the rest. *)
Definition placeholder (l : list ascii) : option (list ascii * list ascii * list ascii) :=
  match l with
  | d :: b :: r =>
      if (byte_val d =? 36) && (byte_val b =? 123) then
        match span is_word_byte r with
        | ([], _) => None
        | (prefix, dot :: r) =>
            if byte_val dot =? 46 then
              match span (fun c => negb (bool_decide (c = rbrace))) r with
              | ([], _) | (_, []) => None
              | (key, _ :: rest) => Some (prefix, key, rest)
              end
            else None
        | (_, []) => None
        end
      else None
  | _ => None
  end.

(** [ReplaceAllStringFunc]: leftmost matches, from left to right. *)
Fixpoint replace_all (fuel : nat) (f : string -> string -> string) (l : list ascii) : list ascii :=
  match fuel, l with
  | O, _ | _, [] => l
  | S fuel, c :: r =>
      match placeholder l with
      | Some (prefix, key, rest) => ascii_list (f (string_of prefix) (string_of key)) ++ replace_all fuel f rest
      | None => c :: replace_all fuel f r
      end
  end.

Definition Interpolate (g : GatewayContext) (template : string) : string :=
  if negb (Contains template "${") then template
  else let l := ascii_list template in string_of (replace_all (length l) (resolve g) l).

(** * engine.go *)

(** What the tagging engine uses of net/http's cookies and of floating point JSON. *)
Record TagLibs := mkTagLibs {
  (** a cookie after it was printed into the header and parsed again *)
  resent_cookie : string * string -> option (string * string);
  (** the [Set-Cookie] text of a cookie with path [/]; empty for an invalid one *)
  cookie_String : string -> string -> string;
  (** [strconv.ParseFloat]: no number, or its JSON text ([None]: not a JSON number) *)
  float_json : string -> option (option string);
  (** a number literal decoded into an [interface{}] and printed again *)
  renumber : string -> string
}.

(** A document decoded into [interface{}] and printed: sorted members, the last of equal
    keys, numbers as float64. *)
Fixpoint any_json (renumber : string -> string) (j : json) : json :=
  match j with
  | JNum lit => JNum (renumber lit)
  | JArr l => JArr (map (any_json renumber) l)
  | JObj m => JObj (map_to_list (fold_left (fun acc f => <[fst f := snd f]> acc)
                                   (map (fun f => (fst f, any_json renumber (snd f))) m) (∅ : gmap string json)))
  | _ => j
  end.

(** The typed value of an action on the body. *)
Definition body_value (L : TagLibs) (value : string) : option json :=
  match ParseBool value with
  | Some b => Some (JBool b)
  | None =>
      match ParseInt value with
      | Some i => Some (JNum (Itoa i))
      | None =>
          match float_json L value with
          | Some (Some lit) => Some (JNum lit)
          | Some None => None
          | None => Some (JStr value)
          end
      end
  end.

(** [None] for the body: it is left as it is. A JSON null leaves the map nil, and writing
    to it panics. *)
Definition rewrite_body (L : TagLibs) (key value body : string) : go string :=
  match json_parse body with
  | Some JNull => Panic
  | Some (JObj m) =>
      match body_value L value with
      | None => Ret body
      | Some v => Ret (Marshal (any_json (renumber L) (JObj (m ++ [(key, v)]))))
      end
  | _ => Ret body
  end.

(** [Request.Header.Set] and the cookies of the request. *)
Definition req_set_header (k v : string) (r : http_Request) : http_Request :=
  mkRequest (<[CanonicalMIMEHeaderKey k := [v]]> (req_Header r)) (req_URL r) (req_Cookies r).

Fixpoint set_cookie (k v : string) (cs : list (string * string)) : option (list (string * string)) :=
  match cs with
  | [] => None
  | c :: r => if seqb (fst c) k then Some ((fst c, v) :: r) else cons c <$> set_cookie k v r
  end.

Definition req_set_cookie (L : TagLibs) (k v : string) (r : http_Request) : http_Request :=
  let cs := match set_cookie k v (req_Cookies r) with
            | Some cs => omap (resent_cookie L) cs
            | None => req_Cookies r ++ omap (resent_cookie L) [(k, v)]
            end in
  mkRequest (req_Header r) (req_URL r) cs.

Definition run_action (L : TagLibs) (a : TaggingAction) (w : ResponseWriter) (g : GatewayContext) :
  go (ResponseWriter * GatewayContext) :=
  let value := Interpolate g (ta_Value a) in
  let type := let t := ToUpper (ta_Type a) in if is_empty t then "TAG" else t in
  let key := ta_Key a in
  if seqb type "TAG" then Ret (w, g <| Tags := Some (<[key := value]> (default ∅ (Tags g))) |>)
  else if seqb type "REQ_HEADER" then
    let g := g <| InjectedHeaders := Some (<[key := value]> (default ∅ (InjectedHeaders g))) |> in
    Ret (w, g <| Request := req_set_header key value <$> Request g |>)
  else if seqb type "RSP_HEADER" then Ret (rw_Set key value w, g)
  else if seqb type "REQ_COOKIE" then Ret (w, g <| Request := req_set_cookie L key value <$> Request g |>)
  else if seqb type "RSP_COOKIE" then
    let c := cookie_String L key value in Ret (if is_empty c then w else rw_Add "Set-Cookie" c w, g)
  else if seqb type "REQ_BODY" then
    if is_empty (RawBody g) then Ret (w, g)
    else let! body := rewrite_body L key value (RawBody g) in Ret (w, g <| RawBody := body |>)
  else Ret (w, g).

Fixpoint run_actions (L : TagLibs) (l : list TaggingAction) (w : ResponseWriter) (g : GatewayContext) :
  go (ResponseWriter * GatewayContext) :=
  match l with
  | [] => Ret (w, g)
  | a :: r => let! wg := run_action L a w g in run_actions L r (fst wg) (snd wg)
  end.

Definition rule_matches (g : GatewayContext) (rule : TaggingPolicy) : bool :=
  match List.filter (fun c => negb (is_empty (tc_Type c))) (tp_Conditions rule) with
  | [] => true
  | valid => match_loop (cond_matches g) (negb (EqualFold (tp_Relation rule) "OR")) valid
  end.

Fixpoint run_rules (L : TagLibs) (rules : list TaggingPolicy) (w : ResponseWriter) (g : GatewayContext) :
  go (ResponseWriter * GatewayContext) :=
  match rules with
  | [] => Ret (w, g)
  | rule :: rest =>
      if rule_matches g rule then
        let! wg := run_actions L (tp_Actions rule) w g in run_rules L rest (fst wg) (snd wg)
      else run_rules L rest w g
  end.

(** A nil policy in the list panics, in the sort or in the loop. *)
Definition Process (L : TagLibs) (ps : list (option TaggingPolicy)) (w : ResponseWriter) (g : GatewayContext) :
  go (ResponseWriter * GatewayContext) :=
  match ps with
  | [] => Ret (w, g)
  | _ =>
      let g := g <| Tags := Some (default ∅ (Tags g)) |> in
      match mapM id ps with
      | None => Panic
      | Some rules => run_rules L (sort_by (key_lt tp_Order) rules) w g
      end
  end.

(** tagging.go. *)
Definition Tagging_OnRequest (L : TagLibs) (w : ResponseWriter) (g : GatewayContext) : go (ResponseWriter * GatewayContext) :=
  match gPolicy g with
  | None => Ret (w, g)
  | Some p => Process L (p_TaggingPolicies p) w g
  end.

(** * Authorization *)

(** The authorization filter lets a request through exactly when it carries a user or a tenant, has
    a policy, and one of the policy's permissions covers the model; everyone else gets 401 or
    403. *)
Theorem auth_exact (g : GatewayContext) :
  match Auth_OnRequest g with
  | None => (UserID g <> "" \/ Tenant g <> "") /\
      exists p perm, gPolicy g = Some p /\ perm ∈ default [] (p_Permissions p) /\ MatchWildcard perm (Model g) = true
  | Some e =>
      err_Code e = Some 401 /\ UserID g = "" /\ Tenant g = "" \/
      err_Code e = Some 403 /\ (UserID g <> "" \/ Tenant g <> "") /\
        forall p perm, gPolicy g = Some p -> perm ∈ default [] (p_Permissions p) -> MatchWildcard perm (Model g) = false
  end.
Proof.
  unfold Auth_OnRequest. destruct (is_empty (UserID g) && is_empty (Tenant g)) eqn:E.
  { apply andb_true_iff in E as [E1 E2]. sbool. by left. }
  assert (UserID g <> "" \/ Tenant g <> "") as Hid.
  { apply andb_false_iff in E as [E|E]; sbool; auto. }
  destruct (gPolicy g) as [p|] eqn:Ep; [|by right].
  destruct (existsb _ _) eqn:Ex.
  - apply existsb_exists in Ex as (perm & Hin & Hm). split; [done|]. exists p, perm. by rewrite list_elem_of_In.
  - right. split_and!; [done|done|]. intros p' perm [= <-] Hin. apply list_elem_of_In in Hin.
    destruct (MatchWildcard perm (Model g)) eqn:Em; [|done]. exfalso. apply not_true_iff_false in Ex. apply Ex, existsb_exists.
    by exists perm.
Qed.

(** * Interpolation *)

Lemma Contains_dollar l : Contains (string_of l) "${" = false ->
  match l with
  | [] => True
  | c :: r => placeholder l = None /\ Contains (string_of r) "${" = false
  end.
Proof.
  destruct l as [|c r]; [done|]. cbn [string_of Contains]. rewrite orb_false_iff. intros [H1 H2]. split; [|done].
  destruct r as [|b r]; [done|]. cbn [placeholder]. cbn [string_of HasPrefix] in H1.
  destruct (Z.eqb_spec (byte_val c) 36) as [E1|]; [|done]. destruct (Z.eqb_spec (byte_val b) 123) as [E2|]; [|done].
  rewrite <- (byte_of_val c), <- (byte_of_val b), E1, E2 in H1. done.
Qed.

Lemma replace_all_plain f l : forall fuel, Contains (string_of l) "${" = false -> replace_all fuel f l = l.
Proof.
  induction l as [|c l IH]; intros [|fuel] H; [done..|]. apply Contains_dollar in H as [H1 H2].
  cbn [replace_all]. rewrite H1. by rewrite IH.
Qed.

(** The shortcut for templates without an opener is sound. *)
Lemma Interpolate_general g template :
  Interpolate g template = string_of (replace_all (length (ascii_list template)) (resolve g) (ascii_list template)).
Proof.
  unfold Interpolate. destruct (Contains template "${") eqn:E; [done|]. cbn [negb].
  rewrite replace_all_plain by (by rewrite string_of_list). by rewrite string_of_list.
Qed.

Lemma span_length p l a b : span p l = (a, b) -> l = a ++ b /\ Forall (fun c => p c = true) a /\
  match b with c :: _ => p c = false | [] => True end.
Proof.
  revert a b. induction l as [|c l IH]; intros a b; cbn [span]; [by intros [= <- <-]|].
  destruct (p c) eqn:E; [|by intros [= <- <-]]. destruct (span p l) as [a' b'] eqn:Es. intros [= <- <-].
  destruct (IH a' b' eq_refl) as (-> & F & H). split_and!; [done|by constructor|done].
Qed.

Lemma span_app p a b : Forall (fun c => p c = true) a -> match b with c :: _ => p c = false | [] => True end ->
  span p (a ++ b) = (a, b).
Proof.
  induction 1 as [|c a Hc _ IH]; intros Hb; cbn [app span].
  - destruct b as [|c b]; [done|]. cbn [span]. by rewrite Hb.
  - rewrite Hc. by rewrite IH.
Qed.

Lemma placeholder_shorter l p k rest : placeholder l = Some (p, k, rest) -> (length rest < length l)%nat.
Proof.
  destruct l as [|d [|b r]]; cbn [placeholder]; [done|done|]. destruct (_ && _); [|done].
  destruct (span is_word_byte r) as [pre r1] eqn:E1. apply span_length in E1 as (-> & _ & _).
  destruct pre as [|c pre]; [done|]. destruct r1 as [|dot r1]; [done|]. destruct (byte_val dot =? 46); [|done].
  destruct (span _ r1) as [key r2] eqn:E2. apply span_length in E2 as (-> & _ & _).
  destruct key as [|c' key]; [done|]. destruct r2 as [|e r2]; [done|]. intros [= <- <- <-].
  cbn [length]. rewrite length_app. cbn [length]. rewrite length_app. cbn [length]. lia.
Qed.

(** More fuel than bytes makes no difference. *)
Lemma replace_all_fuel f l : forall n m, (length l <= n)%nat -> (length l <= m)%nat -> replace_all n f l = replace_all m f l.
Proof.
  induction l as [l IH] using length_ind. intros n m Hn Hm. destruct l as [|c r]; [by destruct n, m|].
  destruct n as [|n]; [cbn in Hn; lia|]. destruct m as [|m]; [cbn in Hm; lia|]. cbn [length] in *. cbn [replace_all].
  destruct (placeholder (c :: r)) as [[[p k] rest]|] eqn:E.
  - pose proof (placeholder_shorter _ _ _ _ E) as L. cbn [length] in L. f_equal. apply IH; [done|lia|lia].
  - f_equal. apply IH; lia.
Qed.

Definition word_name (s : string) : Prop := s <> "" /\ Forall (fun c => is_word_byte c = true) (ascii_list s).
Definition key_name (s : string) : Prop := s <> "" /\ Forall (fun c => c <> rbrace) (ascii_list s).

Definition placeholder_text (p k : string) : list ascii :=
  ascii_list "${" ++ ascii_list p ++ ascii_list "." ++ ascii_list k ++ [rbrace].

Lemma placeholder_text_match p k rest : word_name p -> key_name k ->
  placeholder (placeholder_text p k ++ rest) = Some (ascii_list p, ascii_list k, rest).
Proof.
  intros [Np Hp] [Nk Hk]. unfold placeholder_text. rewrite <- !app_assoc. cbn [ascii_list app placeholder].
  change ((byte_val "$" =? 36) && (byte_val "{" =? 123)) with true. cbn iota.
  rewrite span_app; [|done|done]. destruct (ascii_list p) as [|c l] eqn:Ep; [by destruct p|].
  change (byte_val "." =? 46) with true. cbn iota. rewrite span_app.
  - destruct (ascii_list k) as [|c' l'] eqn:Ek; [by destruct k|]. done.
  - eapply Forall_impl; [exact Hk|]. intros x Hx. cbn. by rewrite bool_decide_false.
  - cbn. by rewrite bool_decide_true.
Qed.


Lemma placeholder_skip c a rest : Contains (string_of (c :: a)) "${" = false ->
  placeholder ((c :: a) ++ byte_of 36 :: rest) = None /\ Contains (string_of a) "${" = false.
Proof.
  cbn [string_of Contains]. rewrite orb_false_iff. intros [H1 H2]. split; [|done]. destruct a as [|d a].
  - cbn [app placeholder]. change (byte_val (byte_of 36) =? 123) with false. by rewrite andb_false_r.
  - cbn [app placeholder]. cbn [string_of HasPrefix] in H1.
    destruct (Z.eqb_spec (byte_val c) 36) as [E1|]; [|done]. destruct (Z.eqb_spec (byte_val d) 123) as [E2|]; [|done].
    rewrite <- (byte_of_val c), <- (byte_of_val d), E1, E2 in H1. done.
Qed.

Lemma replace_all_prefix f a : forall rest n, Contains (string_of a) "${" = false ->
  (length (a ++ byte_of 36 :: rest) <= n)%nat ->
  replace_all n f (a ++ byte_of 36 :: rest) = a ++ replace_all (S (length rest)) f (byte_of 36 :: rest).
Proof.
  induction a as [|c a IH]; intros rest n H L.
  - cbn [app] in *. apply replace_all_fuel; [done|cbn; lia].
  - destruct n as [|n]; [cbn in L; lia|]. destruct (placeholder_skip c a rest H) as [P H'].
    cbn [app] in *. cbn [replace_all]. rewrite P. cbn [length] in L. f_equal. apply IH; [done|lia].
Qed.

(** A template is filled in from left to right: text before the first placeholder is kept, the placeholder
    is replaced by the value of its key for this request, and the text after it is
    treated the same way; values are not interpolated again. *)
Theorem interpolate_placeholder (g : GatewayContext) (before p k after : string)
  (Hbefore : Contains before "${" = false) (Hp : word_name p) (Hk : key_name k) :
  Interpolate g (before +:+ ("${" +:+ p +:+ "." +:+ k +:+ "}") +:+ after) =
  before +:+ resolve g p k +:+ Interpolate g after.
Proof.
  rewrite !Interpolate_general, !ascii_list_app.
  set (rest := ascii_list after).
  assert ((ascii_list "${" ++ ascii_list p ++ ascii_list "." ++ ascii_list k ++ ascii_list "}") ++ rest =
    placeholder_text p k ++ rest) as -> by done.
  assert (exists t, placeholder_text p k ++ rest = byte_of 36 :: t) as [t Et] by (by eexists).
  rewrite Et. rewrite replace_all_prefix by (rewrite ?string_of_list; done).
  rewrite <- Et at 1. assert (S (length t) = length (placeholder_text p k ++ rest)) as -> by (by rewrite Et).
  rewrite string_of_app, string_of_list. f_equal.
  pose proof (placeholder_text_match p k rest Hp Hk) as M. pose proof (placeholder_shorter _ _ _ _ M) as L.
  destruct (placeholder_text p k ++ rest) as [|c l] eqn:E; [done|]. cbn [length] in L |- *.
  cbn [replace_all]. rewrite M. rewrite string_of_app, !string_of_list. f_equal. f_equal.
  apply replace_all_fuel; lia.
Qed.

Lemma interpolate_placeholder_witness :
  let g := emptyContext <| Model := "gpt-4" |> in
  Interpolate g "m=${system.model};v1" = "m=gpt-4;v1".
Proof.
  intros g. apply (interpolate_placeholder g "m=" "system" "model" ";v1").
  - vm_compute. reflexivity.
  - split; [discriminate|]. repeat constructor.
  - split; [discriminate|]. repeat constructor; discriminate.
Defined.

(** * Tagging *)

(** Everything of a request but what tagging is meant to write. *)
Definition untagged (g : GatewayContext) : GatewayContext :=
  g <| Tags := None |> <| InjectedHeaders := None |> <| Request := None |> <| RawBody := "" |>.

Definition tag_scope (w w' : ResponseWriter) (g g' : GatewayContext) : Prop :=
  untagged g' = untagged g /\ req_URL <$> Request g' = req_URL <$> Request g /\
  rw_sent w' = rw_sent w /\ rw_body w' = rw_body w.

Lemma tag_scope_refl w g : tag_scope w w g g.
Proof. done. Qed.

Lemma tag_scope_trans w1 w2 w3 g1 g2 g3 : tag_scope w1 w2 g1 g2 -> tag_scope w2 w3 g2 g3 -> tag_scope w1 w3 g1 g3.
Proof. unfold tag_scope. intuition congruence. Qed.

Lemma run_action_scope L a w g w' g' : run_action L a w g = Ret (w', g') -> tag_scope w w' g g'.
Proof.
  unfold run_action. set (v := Interpolate g _). clearbody v. set (t := if is_empty _ then _ else _). clearbody t.
  destruct (seqb t "TAG"); [by intros [= <- <-]|].
  destruct (seqb t "REQ_HEADER"). { intros [= <- <-]. split_and!; [done| |done|done]. cbn. by destruct (Request g). }
  destruct (seqb t "RSP_HEADER"); [by intros [= <- <-]|].
  destruct (seqb t "REQ_COOKIE"). { intros [= <- <-]. split_and!; [done| |done|done]. cbn. by destruct (Request g). }
  destruct (seqb t "RSP_COOKIE"). { intros [= <- <-]. destruct (is_empty _); by split_and!. }
  destruct (seqb t "REQ_BODY"); [|by intros [= <- <-]]. destruct (is_empty (RawBody g)); [by intros [= <- <-]|].
  intros (b & _ & [= <- <-])%go_bind_Ret. done.
Qed.

Lemma run_actions_scope L l : forall w g w' g', run_actions L l w g = Ret (w', g') -> tag_scope w w' g g'.
Proof.
  induction l as [|a l IH]; intros w g w' g'; cbn [run_actions]; [by intros [= <- <-]|].
  intros ([w1 g1] & E & R)%go_bind_Ret. eapply tag_scope_trans; [by eapply run_action_scope|by eapply IH].
Qed.

Lemma run_rules_scope L rules : forall w g w' g', run_rules L rules w g = Ret (w', g') -> tag_scope w w' g g'.
Proof.
  induction rules as [|rule rules IH]; intros w g w' g'; cbn [run_rules]; [by intros [= <- <-]|].
  destruct (rule_matches g rule); [|apply IH]. intros ([w1 g1] & E & R)%go_bind_Ret.
  eapply tag_scope_trans; [by eapply run_actions_scope|by eapply IH].
Qed.

Lemma Process_scope L ps w g w' g' : Process L ps w g = Ret (w', g') -> tag_scope w w' g g'.
Proof.
  unfold Process. destruct ps as [|x l]; [by intros [= <- <-]|]. destruct (mapM id (x :: l)) as [rules|]; [|done].
  intros R. eapply tag_scope_trans; [|by eapply run_rules_scope]. done.
Qed.

(** Tagging writes only what it is meant to write: whatever the policies, identity, model, policy,
    limits, counters and every other field of the request keep their value, the
    request URL is untouched, and nothing is sent to the client; only tags, injected
    headers, request headers and cookies, the body and response headers may change. *)
Theorem tagging_scope (L : TagLibs) (w w' : ResponseWriter) (g g' : GatewayContext)
  (Hrun : Tagging_OnRequest L w g = Ret (w', g')) : tag_scope w w' g g'.
Proof.
  revert Hrun. unfold Tagging_OnRequest. destruct (gPolicy g); [apply Process_scope|by intros [= <- <-]].
Qed.

Definition demo_libs : TagLibs := mkTagLibs Some (fun k v => k +:+ "=" +:+ v +:+ "; Path=/") (fun _ => None) id.
Definition demo_tag_policy : TaggingPolicy :=
  mkTaggingPolicy "p" "p" 1 0 "AND" [mkTagCondition "header" "EQUAL" "X-Tier" ["gold"]]
    [mkTaggingAction "" "tier" "${header.X-Tier}"; mkTaggingAction "rsp_header" "X-Class" "${tag.tier}"].
Definition demo_tagged : GatewayContext :=
  emptyContext <| Request := Some (mkRequest {["X-Tier" := ["gold"]]} None []) |> <| UserID := "u1" |>
    <| gPolicy := Some (emptyPolicy <| p_TaggingPolicies := [Some demo_tag_policy] |>) |>.

Lemma tagging_scope_witness :
  exists w' g', Tagging_OnRequest demo_libs newResponse demo_tagged = Ret (w', g') /\
    GetTagValue g' "tier" = "gold" /\ rw_Header w' !! "X-Class" = Some ["gold"] /\
    tag_scope newResponse w' demo_tagged g'.
Proof.
  eexists _, _. split; [vm_compute; reflexivity|]. split; [vm_compute; reflexivity|].
  split; [vm_compute; reflexivity|]. apply (tagging_scope demo_libs). vm_compute. reflexivity.
Defined.

(** A body action with the value 1 or 0 writes a boolean, because [ParseBool] is tried before
    [ParseInt]. *)
Lemma body_value_one_is_bool L : body_value L "1" = Some (JBool true) /\ body_value L "0" = Some (JBool false) /\
  body_value L "2" = Some (JNum "2").
Proof. by vm_compute. Qed.

(** A body action on a request whose body is the JSON null panics. *)
Lemma rewrite_null_body_panics L key value : rewrite_body L key value "null" = Panic.
Proof. reflexivity. Qed.

(** The documented placeholder for the API key is always empty. *)
Lemma apikey_placeholder_empty g : Interpolate g "${system.apikey}" = "".
Proof. reflexivity. Qed.
