(* ===== verification/Compensation.v ===== *)
(** pkg/compensation: the queue that retries failed critical outbound filters, and
    its worker.  Redis is a class of the commands the code sends; what the code relies
    on is a second class of laws over the visible content of streams and sorted sets (a
    server that answers every command), with a store in memory as an instance.

    Stream entries and set members are JSON texts; the encoding of times inside
    them ([time.Time] in RFC 3339) is an argument.  Scores are milliseconds,
    which float64 holds exactly. *)

From Stdlib Require Import Ascii.
From S2P Require Import Prelude GoFloat GoStrings GoJson GoPrint Context.

(** * task.go *)

Record CompensationTask := mkTask {
  ct_ID : string;
  ct_FilterName : string;
  ct_Payload : gmap string json;
  ct_EnqueueAt : Time;
  ct_NextRetryAt : Time;
  ct_AttemptCount : Z;
  ct_LastError : string
}.
#[global] Instance eta_task : Eta CompensationTask := fun t =>
  mkTask (ct_ID t) (ct_FilterName t) (ct_Payload t) (ct_EnqueueAt t) (ct_NextRetryAt t) (ct_AttemptCount t) (ct_LastError t).

Section json_task.
(** [time.Time]'s JSON text (without the quotes) and its parser. *)
Context (time_text : Time -> string) (time_parse : string -> option Time).

Definition dec_time : decoder Time := fun j old =>
  match j with JNull => Some old | JStr s => time_parse s | _ => None end.

(** [map[string]any]: members are added to the map that is there. *)
Definition dec_map : decoder (gmap string json) := fun j old =>
  match j with
  | JNull => Some ∅
  | JObj ms => Some (fold_left (fun m f => <[fst f := snd f]> m) ms old)
  | _ => None
  end.

Definition payload_members (p : gmap string json) : list (string * json) := foldr insert_member [] (map_to_list p).

Definition task_json (t : CompensationTask) : json :=
  JObj [("id", JStr (ct_ID t)); ("filter_name", JStr (ct_FilterName t)); ("payload", JObj (payload_members (ct_Payload t)));
        ("enqueue_at", JStr (time_text (ct_EnqueueAt t))); ("next_retry_at", JStr (time_text (ct_NextRetryAt t)));
        ("attempt_count", JNum (Itoa (ct_AttemptCount t))); ("last_error", JStr (ct_LastError t))].

Definition task_Marshal (t : CompensationTask) : string := string_of (json_encode (task_json t)).

Definition emptyTask : CompensationTask := mkTask "" "" ∅ zeroTime zeroTime 0 "".

Definition task_Unmarshal (data : string) : option CompensationTask :=
  Unmarshal (dec_struct [("id", dec_field ct_ID dec_string); ("filter_name", dec_field ct_FilterName dec_string);
    ("payload", dec_field ct_Payload dec_map); ("enqueue_at", dec_field ct_EnqueueAt dec_time);
    ("next_retry_at", dec_field ct_NextRetryAt dec_time); ("attempt_count", dec_field ct_AttemptCount dec_int);
    ("last_error", dec_field ct_LastError dec_string)]) emptyTask data.
End json_task.

(** * Redis *)

(** A stream entry as [XReadGroup] returns it: its id, and the field [data] where it is
    there. *)
Definition XMessage : Type := (string * option string)%type.

Class Redis (R : Type) := {
  XAdd : R -> string -> string -> R * option goerror;
  ZAdd : R -> string -> Z -> string -> R * option goerror;
  ZRangeByScore : R -> string -> Z -> list string + goerror;
  ZRem : R -> string -> string -> R * option goerror;
  (** stream, group, count; the empty list is [redis.Nil] *)
  XReadGroup : R -> string -> string -> nat -> R * (list XMessage + goerror);
  XAck : R -> string -> string -> string -> R * option goerror;
  XGroupCreateMkStream : R -> string -> string -> R * option goerror
}.

(** * queue.go *)

Record RedisQueue := mkQueue {
  q_stream : string; q_delayed : string; q_dlq : string; q_consumer : string; q_group : string; q_maxRetry : Z
}.

Definition isBusyGroupErr (e : option goerror) : bool :=
  match e with Some e => Contains (Error_text e) "BUSYGROUP" | None => false end.

Definition or_default (s d : string) : string := if is_empty s then d else s.

Definition wrapf (prefix : string) (e : goerror) : goerror :=
  mkError (prefix +:+ Error_text e) (err_chain e) (err_Retryable e).

(** [math.Pow(n, 2)] seconds. *)
Definition backoff (attempt : Z) : Duration :=
  duration_mul (to_int64 (fmul (of_int attempt) (of_int attempt))) Second.

Definition UnixMilli (t : Time) : Z := (t - 62135596800 * Second) / Millisecond.

Section queue.
Context {R : Type} `{Redis R} (time_text : Time -> string) (time_parse : string -> option Time).

(** [cfg]: the configuration as a queue record with empty names and a zero retry count. *)
Definition NewRedisQueue (r : R) (cfg : option RedisQueue) : R * (RedisQueue + goerror) :=
  let c := default (mkQueue "" "" "" "" "" 0) cfg in
  let q := mkQueue (or_default (q_stream c) "aigw:compensation:stream") (or_default (q_delayed c) "aigw:compensation:delayed")
             (or_default (q_dlq c) "aigw:compensation:dlq") (or_default (q_consumer c) "compensation-worker-1")
             (or_default (q_group c) "compensation-group") (if q_maxRetry c =? 0 then 5 else q_maxRetry c) in
  let '(r, err) := XGroupCreateMkStream r (q_stream q) (q_group q) in
  match err with
  | Some e => if isBusyGroupErr err then (r, inl q) else (r, inr (wrapf "compensation: create consumer group: " e))
  | None => (r, inl q)
  end.

Definition Enqueue (q : RedisQueue) (r : R) (t : CompensationTask) : R * option goerror :=
  let '(r, err) := XAdd r (q_stream q) (task_Marshal time_text t) in
  (r, wrapf "compensation: xadd: " <$> err).

(** The loop of [ClaimDelayed]. *)
Fixpoint claim_loop (q : RedisQueue) (r : R) (members : list string) (claimed : Z) : R * (Z * option goerror) :=
  match members with
  | [] => (r, (claimed, None))
  | m :: rest =>
      match XAdd r (q_stream q) m with
      | (r, Some e) => (r, (claimed, Some (wrapf "compensation: xadd claimed task: " e)))
      | (r, None) =>
          match ZRem r (q_delayed q) m with
          | (r, Some e) => (r, (claimed, Some (wrapf "compensation: zrem delayed: " e)))
          | (r, None) => claim_loop q r rest (wrap64 (claimed + 1))
          end
      end
  end.

Definition ClaimDelayed (q : RedisQueue) (r : R) (now : Time) : R * (Z * option goerror) :=
  match ZRangeByScore r (q_delayed q) (UnixMilli now) with
  | inr e => (r, (0, Some (wrapf "compensation: zrangebyscore delayed: " e)))
  | inl members => claim_loop q r members 0
  end.

(** * worker.go *)

(** A compensator acts on the world it settles. *)
Context {W : Type} (compensators : gmap string (W -> gmap string json -> W * option goerror)).

Definition ack (q : RedisQueue) (r : R) (id : string) : R := fst (XAck r (q_stream q) (q_group q) id).

Definition scheduleDelayed (q : RedisQueue) (r : R) (t : CompensationTask) : R :=
  fst (ZAdd r (q_delayed q) (UnixMilli (ct_NextRetryAt t)) (task_Marshal time_text t)).

Definition moveToDLQ (q : RedisQueue) (r : R) (t : CompensationTask) : R :=
  fst (XAdd r (q_dlq q) (task_Marshal time_text t)).

Definition handleFailure (q : RedisQueue) (r : R) (id : string) (t : CompensationTask) (err : goerror) (now : Time) : R :=
  let t := t <| ct_AttemptCount := wrap64 (ct_AttemptCount t + 1) |> <| ct_LastError := Error_text err |> in
  if q_maxRetry q <=? ct_AttemptCount t then ack q (moveToDLQ q r t) id
  else ack q (scheduleDelayed q r (t <| ct_NextRetryAt := time_Add now (backoff (ct_AttemptCount t)) |>)) id.

Definition HandleMessage (q : RedisQueue) (r : R) (w : W) (msg : XMessage) (now : Time) : R * W :=
  match snd msg ≫= task_Unmarshal time_parse with
  | None => (ack q r (fst msg), w)
  | Some t =>
      match compensators !! ct_FilterName t with
      | None => (ack q r (fst msg), w)
      | Some c =>
          match c w (ct_Payload t) with
          | (w, Some err) => (handleFailure q r (fst msg) t err now, w)
          | (w, None) => (ack q r (fst msg), w)
          end
      end
  end.

Fixpoint handle_all (q : RedisQueue) (r : R) (w : W) (msgs : list XMessage) (now : Time) : R * W :=
  match msgs with
  | [] => (r, w)
  | m :: rest => let '(r, w) := HandleMessage q r w m now in handle_all q r w rest now
  end.

Definition ProcessBatch (q : RedisQueue) (r : R) (w : W) (now : Time) : R * W * option goerror :=
  match XReadGroup r (q_stream q) (q_group q) 10 with
  | (r, inr e) => (r, w, Some (wrapf "compensation: xreadgroup: " e))
  | (r, inl msgs) => let '(r, w) := handle_all q r w msgs now in (r, w, None)
  end.

(** One tick of [Run]; errors are logged. *)
Definition runCycle (q : RedisQueue) (r : R) (w : W) (now : Time) : R * W :=
  let '(r, _) := ClaimDelayed q r now in
  let '(r, w, _) := ProcessBatch q r w now in (r, w).

(** The ticks of [Run] until it is stopped. *)
Fixpoint Run (q : RedisQueue) (r : R) (w : W) (ticks : list Time) : R * W :=
  match ticks with
  | [] => (r, w)
  | now :: rest => let '(r, w) := runCycle q r w now in Run q r w rest
  end.
End queue.

(** * Encoding *)

Lemma payload_members_perm p : payload_members p ≡ₚ map_to_list p.
Proof.
  unfold payload_members. induction (map_to_list p) as [|f l IH]; [done|]. cbn [foldr]. by rewrite insert_member_perm, IH.
Qed.

Lemma fold_insert_union {V} (l : list (string * V)) : forall m : gmap string V, NoDup l.*1 ->
  fold_left (fun m f => <[fst f := snd f]> m) l m = list_to_map l ∪ m.
Proof.
  induction l as [|[k v] l IH]; intros m N; [symmetry; apply (left_id_L ∅ (∪))|]. cbn [fmap list_fmap fst snd] in N.
  apply NoDup_cons in N as [Nk N]. cbn [fold_left fst snd]. rewrite IH by done. rewrite list_to_map_cons.
  rewrite <- insert_union_l, insert_union_r; [done|]. by apply not_elem_of_list_to_map_1.
Qed.

Lemma payload_members_decode p : fold_left (fun m f => <[fst f := snd f]> m) (payload_members p) ∅ = p.
Proof.
  pose proof (payload_members_perm p) as E. assert (NoDup (payload_members p).*1) as N.
  { rewrite E. apply NoDup_fst_map_to_list. }
  rewrite fold_insert_union by done. rewrite map_union_empty.
  rewrite (list_to_map_proper _ (map_to_list p) N E). apply list_to_map_to_list.
Qed.

(** Payloads a JSON text can carry: valid text, nested no deeper than the decoder
    accepts inside a task. *)
Definition payload_ok (p : gmap string json) : Prop :=
  map_Forall (fun k v => utf8_valid (ascii_list k) = true /\ json_ok (maxNestingDepth - 2) v = true) p.

Definition task_ok (t : CompensationTask) : Prop :=
  utf8_valid (ascii_list (ct_ID t)) = true /\ utf8_valid (ascii_list (ct_FilterName t)) = true /\
  utf8_valid (ascii_list (ct_LastError t)) = true /\ in_int64 (ct_AttemptCount t) /\ payload_ok (ct_Payload t).

(** The format of times: what is printed parses back, in plain text. *)
Definition time_format_ok (time_text : Time -> string) (time_parse : string -> option Time) : Prop :=
  forall t, time_parse (time_text t) = Some t /\ utf8_valid (ascii_list (time_text t)) = true.

Lemma payload_json_ok p : payload_ok p -> json_ok (maxNestingDepth - 1) (JObj (payload_members p)) = true.
Proof.
  intros H. change (maxNestingDepth - 1)%nat with (S (maxNestingDepth - 2)). cbn [json_ok].
  apply forallb_forall. intros [k v] Hx. apply list_elem_of_In in Hx. rewrite payload_members_perm in Hx.
  apply elem_of_map_to_list in Hx. destruct (H k v Hx) as [H1 H2]. cbn [fst snd]. by rewrite H1, H2.
Qed.

Lemma task_decode tt tp t : time_format_ok tt tp -> task_ok t -> task_Unmarshal tp (task_Marshal tt t) = Some t.
Proof.
  intros T (O1 & O2 & O3 & O4 & O5). unfold task_Unmarshal, Unmarshal, task_Marshal. rewrite encode_parse.
  2:{ change maxNestingDepth with (S (maxNestingDepth - 1)). unfold task_json. rewrite json_ok_obj. cbn [forallb fst snd].
      rewrite payload_json_ok by done. cbn [json_ok].
      rewrite O1, O2, O3, number_ok_Itoa, (proj2 (T (ct_EnqueueAt t))), (proj2 (T (ct_NextRetryAt t))). reflexivity. }
  cbn [mbind option_bind]. unfold dec_struct, task_json. cbn [fold_left].
  set (ms := payload_members (ct_Payload t)). set (lit := Itoa (ct_AttemptCount t)).
  pose proof (payload_members_decode (ct_Payload t)) as Ep. fold ms in Ep.
  pose proof (ParseInt_Itoa (ct_AttemptCount t) O4) as Ei. fold lit in Ei. clearbody ms lit.
  set (fs := [_; _; _; _; _; _; _]).
  assert (forall r s, dec_member fs (Some r) ("id", JStr s) = Some (r <| ct_ID := s |>)) as -> by reflexivity.
  assert (forall r s, dec_member fs (Some r) ("filter_name", JStr s) = Some (r <| ct_FilterName := s |>)) as -> by reflexivity.
  assert (forall r m, dec_member fs (Some r) ("payload", JObj m) =
    Some (r <| ct_Payload := fold_left (fun m f => <[fst f := snd f]> m) m (ct_Payload r) |>)) as -> by reflexivity.
  assert (forall r s, dec_member fs (Some r) ("enqueue_at", JStr s) = (fun x => r <| ct_EnqueueAt := x |>) <$> tp s) as -> by reflexivity.
  rewrite (proj1 (T (ct_EnqueueAt t))). cbn [fmap option_fmap option_map].
  assert (forall r s, dec_member fs (Some r) ("next_retry_at", JStr s) = (fun x => r <| ct_NextRetryAt := x |>) <$> tp s) as -> by reflexivity.
  rewrite (proj1 (T (ct_NextRetryAt t))). cbn [fmap option_fmap option_map].
  assert (forall r l, dec_member fs (Some r) ("attempt_count", JNum l) = (fun x => r <| ct_AttemptCount := x |>) <$> ParseInt l) as -> by reflexivity.
  rewrite Ei. cbn [fmap option_fmap option_map].
  assert (forall r s, dec_member fs (Some r) ("last_error", JStr s) = Some (r <| ct_LastError := s |>)) as -> by reflexivity.
  cbn [ct_Payload emptyTask]. destruct t. cbn in *. by rewrite Ep.
Qed.

(** * What the code relies on: a server that answers, with one consumer *)

Class QueueLaws (R : Type) `{Redis R} (q : RedisQueue) := {
  (** entries not yet delivered, entries delivered and not acknowledged, dead letters, and
      the delayed set *)
  q_new : R -> list XMessage;
  q_pend : R -> list XMessage;
  q_dead : R -> list string;
  q_later : R -> gmap string Z;
  xadd_stream r v : exists r' id, XAdd r (q_stream q) v = (r', None) /\ id ∉ map fst (q_pend r ++ q_new r) /\
    q_new r' = q_new r ++ [(id, Some v)] /\ q_pend r' = q_pend r /\ q_dead r' = q_dead r /\ q_later r' = q_later r;
  xadd_dlq r v : exists r', XAdd r (q_dlq q) v = (r', None) /\
    q_new r' = q_new r /\ q_pend r' = q_pend r /\ q_dead r' = q_dead r ++ [v] /\ q_later r' = q_later r;
  zadd_law r score v : exists r', ZAdd r (q_delayed q) score v = (r', None) /\
    q_new r' = q_new r /\ q_pend r' = q_pend r /\ q_dead r' = q_dead r /\ q_later r' = <[v := score]> (q_later r);
  zrange_law r max : exists l, ZRangeByScore r (q_delayed q) max = inl l /\ NoDup l /\
    forall v, v ∈ l <-> exists score, q_later r !! v = Some score /\ score <= max;
  zrem_law r v : exists r', ZRem r (q_delayed q) v = (r', None) /\
    q_new r' = q_new r /\ q_pend r' = q_pend r /\ q_dead r' = q_dead r /\ q_later r' = delete v (q_later r);
  xread_law r n : exists r', XReadGroup r (q_stream q) (q_group q) n = (r', inl (take n (q_new r))) /\
    q_new r' = drop n (q_new r) /\ q_pend r' = q_pend r ++ take n (q_new r) /\ q_dead r' = q_dead r /\
    q_later r' = q_later r;
  xack_law r id : exists r', XAck r (q_stream q) (q_group q) id = (r', None) /\
    q_new r' = q_new r /\ q_pend r' = filter (fun m => fst m <> id) (q_pend r) /\ q_dead r' = q_dead r /\
    q_later r' = q_later r
}.

(** * Draining the queue *)

Section drain.
Context {R : Type} `{Redis R} (q : RedisQueue) `{!QueueLaws R q}.
Context (tt : Time -> string) (tp : string -> option Time) (Htime : time_format_ok tt tp).
Context {W : Type} (compensators : gmap string (W -> gmap string json -> W * option goerror)).
Context (Hmax : in_int64 (q_maxRetry q)).
Context (Herr : forall name c w p w' e, compensators !! name = Some c -> c w p = (w', Some e) ->
  utf8_valid (ascii_list (Error_text e)) = true).
(** What the world remembers of the tasks its compensators accepted. *)
Context (accepted : W -> CompensationTask -> Prop)
  (Haccept : forall c w w' t, compensators !! ct_FilterName t = Some c -> c w (ct_Payload t) = (w', None) -> accepted w' t)
  (Hkeep : forall name c w p t, compensators !! name = Some c -> accepted w t -> accepted (fst (c w p)) t).

(** A task the queue still has to work on. *)
Definition retriable (t : CompensationTask) : Prop :=
  task_ok t /\ 0 <= ct_AttemptCount t < q_maxRetry q /\ is_Some (compensators !! ct_FilterName t).

(** The same task after some attempts. *)
Definition same_task (t u : CompensationTask) : Prop :=
  ct_ID u = ct_ID t /\ ct_FilterName u = ct_FilterName t /\ ct_Payload u = ct_Payload t.

Definition dead_lettered (r : R) (t : CompensationTask) : Prop :=
  exists u, task_Marshal tt u ∈ q_dead r /\ same_task t u /\ ct_AttemptCount u = q_maxRetry q.

Definition held (r : R) (x : string) : Prop :=
  (exists id, (id, Some x) ∈ q_pend r ++ q_new r) \/ is_Some (q_later r !! x).

Definition accounted (r : R) (w : W) (t : CompensationTask) : Prop :=
  (exists u, held r (task_Marshal tt u) /\ same_task t u /\ task_ok u) \/ dead_lettered r t \/ accepted w t.

Definition good_text (x : string) : Prop := exists t, x = task_Marshal tt t /\ retriable t.

Definition good (r : R) : Prop :=
  NoDup (map fst (q_pend r ++ q_new r)) /\
  Forall (fun m => exists x, snd m = Some x /\ good_text x) (q_pend r ++ q_new r) /\
  map_Forall (fun x _ => good_text x) (q_later r).

(** The attempts left. *)
Definition weight (x : string) : nat :=
  match task_Unmarshal tp x with Some t => Z.to_nat (q_maxRetry q - ct_AttemptCount t) | None => 0 end.
Definition msg_weight (m : XMessage) : nat := match snd m with Some x => weight x | None => 0 end.
Definition potential (r : R) : nat :=
  sum_list_with msg_weight (q_pend r ++ q_new r) + sum_list_with weight (elements (dom (q_later r))).

Lemma weight_task t : task_ok t -> weight (task_Marshal tt t) = Z.to_nat (q_maxRetry q - ct_AttemptCount t).
Proof. intros Ok. unfold weight. by rewrite (task_decode tt tp). Qed.

Lemma same_task_trans t u v : same_task t u -> same_task u v -> same_task t v.
Proof. intros (? & ? & ?) (? & ? & ?). unfold same_task. split_and!; congruence. Qed.

Lemma sum_insert (m : gmap string Z) x s :
  (sum_list_with weight (elements (dom (<[x := s]> m))) <= weight x + sum_list_with weight (elements (dom m)))%nat.
Proof.
  rewrite dom_insert_L. destruct (decide (x ∈ dom m)) as [E|E].
  - replace ({[x]} ∪ dom m) with (dom m) by set_solver. lia.
  - rewrite elements_union_singleton by done. cbn. lia.
Qed.

Lemma sum_delete (m : gmap string Z) x s : m !! x = Some s ->
  sum_list_with weight (elements (dom m)) = (weight x + sum_list_with weight (elements (dom (delete x m))))%nat.
Proof.
  intros E. rewrite <- (insert_delete_id m x s E) at 1. rewrite dom_insert_L, dom_delete_L.
  rewrite elements_union_singleton by set_solver. done.
Qed.

(** One delivered message: it is settled, dead-lettered or scheduled again. *)
Lemma HandleMessage_step r w id x t rest now r' w' :
  q_pend r = (id, Some x) :: rest -> good r -> x = task_Marshal tt t -> retriable t ->
  HandleMessage tt tp compensators q r w (id, Some x) now = (r', w') ->
  q_pend r' = rest /\ q_new r' = q_new r /\ (forall t', accepted w t' -> accepted w' t') /\
  (q_later r' = q_later r /\ q_dead r' = q_dead r /\ (forall t', same_task t' t -> accepted w' t') \/
   exists u, same_task t u /\ task_ok u /\ ct_AttemptCount u = ct_AttemptCount t + 1 /\
     (ct_AttemptCount u = q_maxRetry q /\ q_later r' = q_later r /\ q_dead r' = q_dead r ++ [task_Marshal tt u] \/
      ct_AttemptCount u < q_maxRetry q /\ q_dead r' = q_dead r /\
      q_later r' = <[task_Marshal tt u := UnixMilli (time_Add now (backoff (ct_AttemptCount u)))]> (q_later r))).
Proof.
  intros Ep (Hn & _ & _) -> ((O1 & O2 & O3 & O4 & O5) & Ha & [c Hc]). unfold HandleMessage. cbn [snd fst mbind option_bind].
  rewrite (task_decode tt tp) by done. rewrite Hc.
  assert (filter (fun m : XMessage => fst m <> id) (q_pend r) = rest) as Hf.
  { rewrite Ep in *. cbn [app map fst] in Hn. apply NoDup_cons in Hn as [Hn _]. rewrite filter_cons_False by naive_solver.
    assert (id ∉ map fst rest) as Hr by (rewrite map_app, elem_of_app in Hn; tauto). clear -Hr.
    induction rest as [|m rest IH]; [done|]. cbn [map] in Hr. rewrite not_elem_of_cons in Hr. destruct Hr as [Hm Hr].
    rewrite filter_cons_True by congruence. by rewrite IH. }
  assert (forall s, q_pend s = q_pend r -> q_new s = q_new r ->
    q_pend (ack q s id) = rest /\ q_new (ack q s id) = q_new r /\ q_dead (ack q s id) = q_dead s /\
    q_later (ack q s id) = q_later s) as Hack.
  { intros s E1 E2. unfold ack. destruct (xack_law s id) as (s' & -> & A & B & C & D). cbn [fst].
    rewrite A, B, C, D, E1, E2. done. }
  pose proof (fun t' => Hkeep _ c w (ct_Payload t) t' Hc) as Keep.
  destruct (c w (ct_Payload t)) as [w1 [err|]] eqn:Ec; cbn [fst] in Keep; intros [= <- <-].
  2:{ destruct (Hack r eq_refl eq_refl) as (A & B & C & D). split_and!; [done|done|done|]. left. split_and!; [done|done|].
      intros t' (_ & E1 & E2). apply (Haccept c w); congruence. }
  unfold handleFailure.
  assert (wrap64 (ct_AttemptCount t + 1) = ct_AttemptCount t + 1) as ->.
  { apply wrap64_small. unfold in_int64 in *. lia. }
  set (u := t <| ct_AttemptCount := ct_AttemptCount t + 1 |> <| ct_LastError := Error_text err |>).
  change (ct_AttemptCount u) with (ct_AttemptCount t + 1).
  pose proof (Herr _ _ _ _ _ _ Hc Ec) as Ht. assert (in_int64 (ct_AttemptCount t + 1)) as Hi by (unfold in_int64 in *; lia).
  destruct (Z.leb_spec (q_maxRetry q) (ct_AttemptCount t + 1)).
  - unfold moveToDLQ. destruct (xadd_dlq r (task_Marshal tt u)) as (s & -> & A & B & C & D). cbn [fst].
    destruct (Hack s B A) as (A' & B' & C' & D'). rewrite A', B', C', D', C, D. split_and!; [done|done|done|]. right.
    exists u. split_and!; [done|done|done|]. left. split_and!; [|done|done]. change (ct_AttemptCount u) with (ct_AttemptCount t + 1). lia.
  - set (v := u <| ct_NextRetryAt := _ |>). unfold scheduleDelayed.
    destruct (zadd_law r (UnixMilli (ct_NextRetryAt v)) (task_Marshal tt v)) as (s & -> & A & B & C & D). cbn [fst].
    destruct (Hack s B A) as (A' & B' & C' & D'). rewrite A', B', C', D', C, D. split_and!; [done|done|done|]. right.
    exists v. split_and!; [done|done|done|]. right. split_and!; [done|done|done].
Qed.

Lemma retriable_next t u : retriable t -> same_task t u -> task_ok u -> ct_AttemptCount u = ct_AttemptCount t + 1 ->
  ct_AttemptCount u < q_maxRetry q -> retriable u.
Proof. intros (O & A & C) (_ & E & _) Ou Ea L. split_and!; [done|lia|lia|by rewrite E]. Qed.

(** What one handled message does to the state as a whole. *)
Lemma HandleMessage_good r w m rest now r' w' :
  q_pend r = m :: rest -> good r -> HandleMessage tt tp compensators q r w m now = (r', w') ->
  q_pend r' = rest /\ q_new r' = q_new r /\ good r' /\ (S (potential r') <= potential r)%nat /\
  (forall t, accounted r w t -> accounted r' w' t) /\
  (forall x s, q_later r' !! x = Some s -> q_later r !! x = Some s \/
     exists a, 0 < a < q_maxRetry q /\ s = UnixMilli (time_Add now (backoff a))).
Proof.
  intros Ep G HM. pose proof G as (Gn & Gm & Gl). rewrite Ep in Gm. apply Forall_cons in Gm as [(x & Ex & t & -> & Rt) Gm].
  destruct m as [id v]. cbn [snd] in Ex. subst v.
  destruct (HandleMessage_step r w id _ t rest now r' w' Ep G eq_refl Rt HM) as (P & N & K & D). pose proof Rt as (Ot & Ha & _).
  assert (forall y, held r y -> y = task_Marshal tt t \/ (exists i, (i, Some y) ∈ q_pend r' ++ q_new r') \/ is_Some (q_later r !! y)) as Hh.
  { intros y [[i Hi]|Hl]; [|by auto]. rewrite Ep in Hi. cbn [app] in Hi. apply elem_of_cons in Hi as [[= _ ->]|Hi]; [auto|].
    right. left. exists i. by rewrite P, N. }
  assert (NoDup (map fst (q_pend r' ++ q_new r'))) as Gn'.
  { rewrite P, N. rewrite Ep in Gn. cbn [app map] in Gn. by apply NoDup_cons in Gn as [_ Gn]. }
  assert (potential r = weight (task_Marshal tt t) + sum_list_with msg_weight (q_pend r' ++ q_new r') +
    sum_list_with weight (elements (dom (q_later r))))%nat as Ew.
  { unfold potential. rewrite Ep, P, N. cbn [app sum_list_with msg_weight snd]. lia. }
  rewrite weight_task in Ew by done. rewrite <- P, <- N in Gm.
  destruct D as [(L & Dd & C)|(u & S & Ou & Ea & [(Em & L & Dd)|(Lt & Dd & L)])].
  - split_and!; [done|done|by split_and!; [|done|rewrite L]|rewrite Ew; unfold potential; rewrite L; lia| |by rewrite L; auto].
    intros t' [(u & Hu & Su & Ou)|[(u & Hu & Su)|Ht]]; [|right; left; exists u; by rewrite Dd|right; right; by apply K].
    destruct (Hh _ Hu) as [E|[[i Hi]|Hl]].
    + apply (f_equal (task_Unmarshal tp)) in E. rewrite !(task_decode tt tp) in E by done. injection E as ->.
      right. right. by apply C.
    + left. exists u. split; [left; eauto|done].
    + left. exists u. split; [right; by rewrite L|done].
  - split_and!; [done|done|by split_and!; [|done|rewrite L]|rewrite Ew; unfold potential; rewrite L; lia| |by rewrite L; auto].
    intros t' [(v & Hv & Sv & Ov)|[(v & Hv & Sv)|Ht]]; [|right; left; exists v; rewrite Dd, elem_of_app; auto|right; right; by apply K].
    destruct (Hh _ Hv) as [E|[[i Hi]|Hl]].
    + apply (f_equal (task_Unmarshal tp)) in E. rewrite !(task_decode tt tp) in E by done. injection E as ->.
      right. left. exists u. rewrite Dd, elem_of_app, list_elem_of_singleton. split_and!; [auto|by eapply same_task_trans|done].
    + left. exists v. split; [left; eauto|done].
    + left. exists v. split; [right; by rewrite L|done].
  - pose proof (retriable_next t u Rt S Ou Ea Lt) as Ru. split_and!; [done|done| | | |].
    + split_and!; [done|done|]. rewrite L. apply map_Forall_insert_2; [by exists u|done].
    + rewrite Ew. unfold potential. rewrite L. pose proof (sum_insert (q_later r) (task_Marshal tt u)
        (UnixMilli (time_Add now (backoff (ct_AttemptCount u))))) as B. rewrite (weight_task u) in B by done. lia.
    + intros t' [(v & Hv & Sv & Ov)|[(v & Hv & Sv)|Ht]]; [|right; left; exists v; by rewrite Dd|right; right; by apply K].
      left. destruct (Hh _ Hv) as [E|[[i Hi]|Hl]].
      * apply (f_equal (task_Unmarshal tp)) in E. rewrite !(task_decode tt tp) in E by done. injection E as ->.
        exists u. split_and!; [|by eapply same_task_trans|done]. right. rewrite L, lookup_insert_eq. eauto.
      * exists v. split; [left; eauto|done].
      * exists v. split; [|done]. right. rewrite L. apply lookup_insert_is_Some'. auto.
    + intros y s. rewrite L. intros [[<- <-]|[_ Hy]]%lookup_insert_Some; [|by left]. right. eexists. split; [|reflexivity]. lia.
Qed.

Lemma handle_all_good msgs : forall r w now r' w',
  q_pend r = msgs -> good r -> handle_all tt tp compensators q r w msgs now = (r', w') ->
  q_pend r' = [] /\ q_new r' = q_new r /\ good r' /\ (length msgs + potential r' <= potential r)%nat /\
  (forall t, accounted r w t -> accounted r' w' t) /\
  (forall x s, q_later r' !! x = Some s -> q_later r !! x = Some s \/
     exists a, 0 < a < q_maxRetry q /\ s = UnixMilli (time_Add now (backoff a))).
Proof.
  induction msgs as [|m msgs IH]; intros r w now r' w' Ep G; cbn [handle_all].
  { intros [= <- <-]. split_and!; auto. }
  destruct (HandleMessage tt tp compensators q r w m now) as [r1 w1] eqn:E. intros Hr.
  destruct (HandleMessage_good r w m msgs now r1 w1 Ep G E) as (P & N & G1 & Pot & Acc & Lat).
  destruct (IH r1 w1 now r' w' P G1 Hr) as (P2 & N2 & G2 & Pot2 & Acc2 & Lat2).
  split_and!; [done|congruence|done|cbn [length]; lia|auto|].
  intros x s Hx. destruct (Lat2 x s Hx); auto.
Qed.

(** Moving due tasks back loses none and leaves the attempts as they are. *)
Lemma claim_loop_good members : forall r n r' res,
  NoDup members -> (forall x, x ∈ members -> is_Some (q_later r !! x)) -> good r ->
  claim_loop q r members n = (r', res) ->
  q_pend r' = q_pend r /\ good r' /\ potential r' = potential r /\
  (length (q_new r') = length members + length (q_new r))%nat /\
  (forall w t, accounted r w t -> accounted r' w t) /\ (forall x, q_later r' !! x = if bool_decide (x ∈ members) then None else q_later r !! x).
Proof.
  induction members as [|x members IH]; intros r n r' res Nd Hin G; cbn [claim_loop].
  { intros [= <- <-]. split_and!; auto. }
  apply NoDup_cons in Nd as [Nx Nd]. destruct (xadd_stream r x) as (r1 & id & -> & Hid & A1 & A2 & A3 & A4).
  destruct (zrem_law r1 x) as (r2 & -> & B1 & B2 & B3 & B4). intros Hr. rewrite A4 in B4.
  destruct (Hin x ltac:(left)) as [s Hs]. destruct G as (Gn & Gm & Gl). pose proof (Gl x s Hs) as Gx.
  assert (good r2) as G2.
  { unfold good. rewrite B1, B2, B4, A1, A2, app_assoc, map_app. split_and!.
    - apply NoDup_app. split_and!; [done| |apply NoDup_singleton]. intros i Hi. cbn. rewrite list_elem_of_singleton. naive_solver.
    - apply Forall_app. split; [done|]. apply Forall_singleton. by exists x.
    - by apply map_Forall_delete. }
  assert (potential r2 = potential r) as Ep.
  { unfold potential. rewrite B1, B2, B4, A1, A2, app_assoc, sum_list_with_app, (sum_delete (q_later r) x s Hs). cbn. lia. }
  destruct (IH r2 (wrap64 (n + 1)) r' res Nd) as (C1 & C2 & C3 & C4 & C5 & C6); [|done|done|].
  { intros y Hy. rewrite B4, lookup_delete_ne by set_solver. apply Hin. by right. }
  split_and!; [congruence|done|congruence|rewrite C4, B1, A1, length_app; cbn; lia| |].
  - intros w t [(u & Hu & Su)|[(u & Hu & Su)|Ht]]; apply C5; [left|right; left; exists u; by rewrite B3, A3|by right; right].
    exists u. split; [|done]. unfold held in *. rewrite B1, B2, B4, A1, A2, app_assoc.
    destruct Hu as [[i Hi]|Hl]; [left; exists i; rewrite elem_of_app; auto|].
    destruct (decide (task_Marshal tt u = x)) as [->|Ne].
    + left. exists id. rewrite elem_of_app, list_elem_of_singleton. auto.
    + right. by rewrite lookup_delete_ne.
  - intros y. rewrite C6, B4. destruct (decide (y = x)) as [->|Ne].
    + rewrite bool_decide_false, bool_decide_true, lookup_delete_eq by (done || left). done.
    + rewrite lookup_delete_ne by done. rewrite (bool_decide_ext (y ∈ x :: members) (y ∈ members)); [done|].
      rewrite elem_of_cons. naive_solver.
Qed.

(** All delayed tasks are due. *)
Definition all_due (r : R) (now : Time) : Prop := map_Forall (fun _ score => score <= UnixMilli now) (q_later r).

Lemma potential_zero r : good r -> potential r = 0%nat -> q_pend r = [] /\ q_new r = [] /\ q_later r = ∅.
Proof.
  intros (_ & Gm & Gl) E. unfold potential in E.
  assert (forall x, good_text x -> (0 < weight x)%nat) as Hw.
  { intros x (t & -> & Ot & Ha & _). rewrite weight_task by done. lia. }
  assert (q_pend r ++ q_new r = []) as E1.
  { destruct (q_pend r ++ q_new r) as [|m l]; [done|]. apply Forall_cons in Gm as [(x & Ex & Gx) _].
    apply Hw in Gx. cbn in E. unfold msg_weight in E. rewrite Ex in E. lia. }
  apply app_eq_nil in E1 as [-> ->]. split_and!; [done|done|]. apply map_empty. intros x.
  destruct (q_later r !! x) as [s|] eqn:Ex; [|done]. pose proof (Hw x (Gl x s Ex)) as P.
  assert (x ∈ elements (dom (q_later r))) as Hin by (apply elem_of_elements, elem_of_dom; eauto).
  apply (sum_list_with_in x weight) in Hin. lia.
Qed.

(** One tick: nothing is lost, every delivered task uses up an attempt, and a tick that finds nothing to do leaves the delayed tasks as they are. *)
Lemma runCycle_good r w now r' w' : good r -> q_pend r = [] ->
  runCycle tt tp compensators q r w now = (r', w') ->
  good r' /\ q_pend r' = [] /\ (forall t, accounted r w t -> accounted r' w' t) /\
  (forall x s, q_later r' !! x = Some s -> q_later r !! x = Some s \/ exists a, 0 < a < q_maxRetry q /\ s = UnixMilli (time_Add now (backoff a))) /\
  (forall x s, q_later r' !! x = Some s -> all_due r now -> exists a, 0 < a < q_maxRetry q /\ s = UnixMilli (time_Add now (backoff a))) /\
  ((S (potential r') <= potential r)%nat \/ potential r' = potential r /\ q_later r' = q_later r /\ (all_due r now -> potential r = 0%nat)).
Proof.
  intros G P0. unfold runCycle, ClaimDelayed.
  destruct (zrange_law r (UnixMilli now)) as (l & -> & Nd & Hl).
  destruct (claim_loop q r l 0) as [r1 res] eqn:E1.
  destruct (claim_loop_good l r 0 r1 res Nd) as (P1 & G1 & Pot1 & Len1 & Acc1 & Lat1); [|done|done|].
  { intros x (s & -> & _)%Hl. eauto. }
  assert (all_due r now -> forall x, q_later r1 !! x = None) as Lnone.
  { intros Due x. rewrite Lat1. case_bool_decide as B; [done|]. destruct (q_later r !! x) as [s|] eqn:Ex; [|done].
    destruct B. apply Hl. exists s. split; [done|]. by apply (Due x). }
  unfold ProcessBatch. destruct (xread_law r1 10) as (r2 & -> & R1 & R2 & R3 & R4). rewrite P1, P0 in R2. cbn [app] in R2.
  destruct (handle_all tt tp compensators q r2 w (take 10 (q_new r1)) now) as [r3 w3] eqn:E3. intros [= <- <-].
  assert (q_pend r2 ++ q_new r2 = q_pend r1 ++ q_new r1) as Eall by (by rewrite R1, R2, P1, P0, take_drop).
  assert (good r2) as G2 by (unfold good in *; by rewrite Eall, R4).
  destruct (handle_all_good _ r2 w now r3 w3 R2 G2 E3) as (P3 & N3 & G3 & Pot3 & Acc3 & Lat3).
  assert (potential r2 = potential r) as Pot2 by (rewrite <- Pot1; unfold potential; by rewrite Eall, R4).
  split_and!; [done|done| | | |].
  - intros t Ht. apply Acc3. apply Acc1 in Ht as [(u & Hu & Su)|[(u & Hu & Su)|Ht]]; [left|right; left; exists u; by rewrite R3|by right; right].
    exists u. split; [|done]. unfold held in *. by rewrite Eall, R4.
  - intros x s Hx. destruct (Lat3 x s Hx) as [Hx'|]; [|by right]. left. rewrite R4, Lat1 in Hx'. by case_bool_decide.
  - intros x s Hx Due. destruct (Lat3 x s Hx) as [Hx'|]; [|done]. by rewrite R4, Lnone in Hx'.
  - destruct (q_new r1) as [|m rest] eqn:En.
    + right. destruct l; [|cbn in Len1; lia]. cbn in E3. injection E3 as <- <-. split_and!; [done| |].
      * apply map_eq. intros x. by rewrite R4, Lat1, bool_decide_false by apply not_elem_of_nil.
      * intros Due. rewrite <- Pot2. unfold potential. rewrite Eall, R4, P1, P0, ?En. cbn [app].
        assert (q_later r1 = ∅) as -> by (apply map_empty; auto). by rewrite dom_empty_L, elements_empty.
    + left. rewrite length_take in Pot3. cbn [length] in Pot3. lia.
Qed.

(** Instants far enough apart for every backoff. *)
Fixpoint spaced (ticks : list Time) : Prop :=
  match ticks with
  | t :: ((u :: _) as rest) => (forall a, 0 < a < q_maxRetry q -> time_Add t (backoff a) <= u) /\ spaced rest
  | _ => True
  end.
Lemma spaced_tail t l : spaced (t :: l) -> spaced l.
Proof. destruct l; [done|]. by intros [_ ?]. Qed.

Lemma UnixMilli_mono t u : t <= u -> UnixMilli t <= UnixMilli u.
Proof. intros L. unfold UnixMilli. apply Z.div_le_mono; [done|lia]. Qed.
Lemma all_due_mono r t u : all_due r t -> t <= u -> all_due r u.
Proof. intros D L x s Hx. specialize (D x s Hx). pose proof (UnixMilli_mono t u L). cbn in *. lia. Qed.

Lemma sorted_sublist (l1 l2 : list Z) : sublist l1 l2 -> StronglySorted Z.le l2 -> StronglySorted Z.le l1.
Proof.
  induction 1 as [|x l1 l2 Sub IH|x l1 l2 Sub IH]; intros So; [done|..]; apply StronglySorted_inv in So as [So Fo]; [|by apply IH].
  constructor; [by apply IH|]. rewrite Forall_forall in *. intros y Hy. apply Fo. by eapply elem_of_sublist.
Qed.

(** Every instant of a spaced selection of the ticks uses up an attempt, there or at a tick before it. *)
Lemma Run_good ticks : forall picked r w r' w', good r -> q_pend r = [] -> StronglySorted Z.le ticks -> sublist picked ticks -> spaced picked ->
  (forall u, head picked = Some u -> all_due r u) -> Run tt tp compensators q r w ticks = (r', w') ->
  good r' /\ (potential r' <= potential r - length picked)%nat /\ (forall t, accounted r w t -> accounted r' w' t).
Proof.
  induction ticks as [|now ticks IH]; intros picked r w r' w' G P So Sub Sp Due; cbn [Run].
  { apply sublist_nil_r in Sub as ->. intros [= <- <-]. split_and!; [done|cbn; lia|done]. }
  destruct (runCycle tt tp compensators q r w now) as [r1 w1] eqn:E. intros Hr. apply StronglySorted_inv in So as [So Fo].
  destruct (runCycle_good r w now r1 w1 G P E) as (G1 & P1 & Acc1 & Lat1 & Lat2 & Pot1).
  assert (forall picked', sublist picked' ticks -> spaced picked' -> (forall u, head picked' = Some u -> all_due r1 u) ->
    good r' /\ (potential r' <= potential r1 - length picked')%nat /\ (forall t, accounted r w t -> accounted r' w' t)) as Next.
  { intros picked' S' Sp' D'. destruct (IH picked' r1 w1 r' w' G1 P1 So S' Sp' D' Hr) as (A & B & C). split_and!; auto. }
  apply sublist_cons_r in Sub as [Sub|(picked' & -> & Sub)].
  - destruct Pot1 as [Pot1|(Pot1 & L1 & _)].
    + assert (spaced (tail picked) /\ sublist (tail picked) ticks) as [Spt Subt].
      { destruct picked as [|u picked]; [done|]. split; [by eapply spaced_tail|]. cbn. etransitivity; [|exact Sub]. by apply sublist_cons. }
      destruct (Next (tail picked)) as (A & B & C); [done|done| |split_and!; [done|destruct picked; cbn in *; lia|done]].
      intros u2 Hu2. destruct picked as [|u [|u2' picked]]; [done..|]. injection Hu2 as ->. destruct Sp as [Gap _].
      assert (now <= u /\ u <= u2) as [L1 L2].
      { rewrite Forall_forall in Fo. split; [apply Fo; eapply elem_of_sublist; [|exact Sub]; by left|]. assert (StronglySorted Z.le (u :: u2 :: picked)) as S2 by (by eapply sorted_sublist).
        apply StronglySorted_inv in S2 as [_ S2]. by apply Forall_cons in S2 as [S2 _]. }
      intros x s Hx. destruct (Lat1 x s Hx) as [Ho|(a & Ha & ->)].
      * pose proof (Due u eq_refl x s Ho) as D. pose proof (UnixMilli_mono u u2 L2). cbn in *. lia.
      * apply UnixMilli_mono. specialize (Gap a Ha). unfold time_Add in *. lia.
    + destruct (Next picked) as (A & B & C); [done|done| |split_and!; [done|lia|done]]. intros u Hu. unfold all_due. rewrite L1. by apply Due.
  - destruct (Next picked') as (A & B & C); [done|by eapply spaced_tail| |].
    + intros u Hu x s Hx. destruct picked' as [|u' picked']; [done|]. injection Hu as ->. destruct Sp as [Gap _].
      destruct (Lat2 x s Hx (Due now eq_refl)) as (a & Ha & ->). apply UnixMilli_mono, Gap, Ha.
    + split_and!; [done| |done]. cbn [length]. destruct Pot1 as [Pot1|(Pot1 & _ & Z)]; [lia|]. rewrite (Z (Due now eq_refl)) in *. lia.
Qed.
End drain.

(** * What the compensators were asked *)

(** A world that remembers the calls of its compensators: name, payload and answer. *)
Abbreviation call_log := (list (string * gmap string json * option goerror)).
Definition logged {W} (compensators : gmap string (W -> gmap string json -> W * option goerror)) :
  gmap string (W * call_log -> gmap string json -> (W * call_log) * option goerror) :=
  map_imap (fun name c => Some (fun x p => let '(w, res) := c (fst x) p in ((w, snd x ++ [(name, p, res)]), res))) compensators.

Lemma logged_lookup {W} (cs : gmap string (W -> gmap string json -> W * option goerror)) name :
  logged cs !! name = (fun c x p => let '(w, res) := c (fst x) p in ((w, snd x ++ [(name, p, res)]), res)) <$> cs !! name.
Proof. unfold logged. rewrite map_lookup_imap. by destruct (cs !! name). Qed.

(** Remembering changes nothing else. *)
Lemma Run_logged {R : Type} `{Redis R} tt tp {W} (cs : gmap string (W -> gmap string json -> W * option goerror)) q ticks : forall (r : R) w log,
  let '(r', x) := Run tt tp (logged cs) q r (w, log) ticks in Run tt tp cs q r w ticks = (r', fst x).
Proof.
  assert (forall r w log m now, let '(r', x) := HandleMessage tt tp (logged cs) q r (w, log) m now in HandleMessage tt tp cs q r w m now = (r', fst x)) as Hm.
  { intros r w log m now. unfold HandleMessage. destruct (snd m ≫= _) as [t|]; [|done]. rewrite logged_lookup.
    destruct (cs !! ct_FilterName t) as [c|]; [|done]. cbn. destruct (c w (ct_Payload t)) as [w1 [e|]]; done. }
  assert (forall ms r w log now, let '(r', x) := handle_all tt tp (logged cs) q r (w, log) ms now in handle_all tt tp cs q r w ms now = (r', fst x)) as Ha.
  { induction ms as [|m ms IH]; intros r w log now; [done|]. cbn [handle_all]. specialize (Hm r w log m now).
    destruct (HandleMessage tt tp (logged cs) q r (w, log) m now) as [r1 [w1 log1]]. rewrite Hm. apply IH. }
  induction ticks as [|now ticks IH]; intros r w log; [done|]. cbn [Run].
  assert (let '(r', x) := runCycle tt tp (logged cs) q r (w, log) now in runCycle tt tp cs q r w now = (r', fst x)) as Hc.
  { unfold runCycle, ProcessBatch. destruct (ClaimDelayed q r now) as [r1 res]. destruct (XReadGroup r1 _ _ _) as [r2 [ms|e]]; [|done].
    specialize (Ha ms r2 w log now). destruct (handle_all tt tp (logged cs) q r2 (w, log) ms now) as [r3 x]. by rewrite Ha. }
  destruct (runCycle tt tp (logged cs) q r (w, log) now) as [r1 [w1 log1]]. rewrite Hc. apply IH.
Qed.

(** C11: Every compensation task is settled: with a Redis that answers and one worker, and a ticker that runs long enough - among its ticks, which may be as frequent as they like, are as
    many instants a backoff apart as there are attempts left - the worker empties stream and
    delayed set, and every task it was given was either accepted, in this run, by a call of its compensator with its payload, or
    rests in the dead-letter queue after exactly the maximum number of attempts. The calls of the run
    are what [logged] compensators remember; remembering changes nothing else. Error texts are valid UTF-8 and names of compensators are registered. *)
Theorem compensation_settles {R : Type} `{Redis R} (q : RedisQueue) `{!QueueLaws R q}
  (tt : Time -> string) (tp : string -> option Time)
  {W : Type} (compensators : gmap string (W -> gmap string json -> W * option goerror))
  (r : R) (w : W) (ts : list CompensationTask) (ticks picked : list Time)
  (Htime : time_format_ok tt tp) (Hmax : in_int64 (q_maxRetry q))
  (Herr : forall name c w p w' e, compensators !! name = Some c -> c w p = (w', Some e) ->
     utf8_valid (ascii_list (Error_text e)) = true)
  (Hstream : map snd (q_new r) = map (fun t => Some (task_Marshal tt t)) ts) (Hids : NoDup (map fst (q_new r)))
  (Hidle : q_pend r = [] /\ q_later r = ∅) (Htasks : Forall (retriable q compensators) ts)
  (Hticks : StronglySorted Z.le ticks) (Hpicked : sublist picked ticks) (Hspaced : spaced q picked)
  (Henough : Z.of_nat (length picked) >= foldr (fun t n => q_maxRetry q - ct_AttemptCount t + n) 0 ts) :
  let '(r', (w', calls)) := Run tt tp (logged compensators) q r (w, []) ticks in
  Run tt tp compensators q r w ticks = (r', w') /\
  q_new r' = [] /\ q_pend r' = [] /\ q_later r' = ∅ /\
  Forall (fun t => dead_lettered q tt r' t \/ (ct_FilterName t, ct_Payload t, None) ∈ calls) ts.
Proof.
  pose proof (Run_logged tt tp compensators q ticks r w []) as Lg.
  destruct Hidle as [P0 L0]. destruct (Run tt tp (logged compensators) q r (w, []) ticks) as [r' [w' calls]] eqn:E. cbn [fst] in Lg.
  assert (Forall (retriable q (logged compensators)) ts) as Htasks'.
  { eapply Forall_impl; [exact Htasks|]. intros t (A & B & C). split_and!; [done|lia|lia|]. rewrite logged_lookup. by apply fmap_is_Some. }
  assert (good q tt (logged compensators) r) as G.
  { unfold good. rewrite P0, L0. cbn [app]. split_and!; [done| |apply map_Forall_empty].
    revert Htasks' Hstream. clear. generalize (q_new r). induction ts as [|t ts IH]; intros [|m l] Ht; try done.
    cbn [map]. intros [= E1 E2]. apply Forall_cons in Ht as [Rt Ht]. constructor; [|by apply IH].
    exists (task_Marshal tt t). split; [done|]. by exists t. }
  assert (Z.of_nat (potential q tp r) = foldr (fun t n => q_maxRetry q - ct_AttemptCount t + n) 0 ts) as Pot.
  { unfold potential. rewrite P0, L0, dom_empty_L, elements_empty. cbn [app sum_list_with]. rewrite Nat.add_0_r.
    revert Htasks Hstream. clear -Htime. generalize (q_new r). induction ts as [|t ts IH]; intros [|m l] Ht; try done.
    cbn [map]. intros [= E1 E2]. apply Forall_cons in Ht as [Rt Ht]. cbn [sum_list_with foldr].
    assert (msg_weight q tp m = Z.to_nat (q_maxRetry q - ct_AttemptCount t)) as ->.
    { unfold msg_weight. rewrite E1. apply (weight_task q tt tp Htime). by destruct Rt. }
    rewrite Nat2Z.inj_add, (IH l) by done. destruct Rt as (_ & Ha & _). lia. }
  set (acc := fun (x : W * call_log) t => (ct_FilterName t, ct_Payload t, None : option goerror) ∈ snd x).
  assert (forall name c x p x' e, logged compensators !! name = Some c -> c x p = (x', Some e) -> utf8_valid (ascii_list (Error_text e)) = true) as Herr'.
  { intros name c x p x' e Hc. rewrite logged_lookup in Hc. apply fmap_Some in Hc as (c0 & Hc & ->). cbn. destruct (c0 _ _) as [w1 res] eqn:Ec. intros Eq. injection Eq as _ ->. by eapply Herr. }
  assert (forall c x x' t, logged compensators !! ct_FilterName t = Some c -> c x (ct_Payload t) = (x', None) -> acc x' t) as Hacc.
  { intros c x x' t Hc. rewrite logged_lookup in Hc. apply fmap_Some in Hc as (c0 & Hc & ->). cbn. destruct (c0 _ _) as [w1 res]. intros Eq. injection Eq as <- ->. unfold acc. cbn. set_solver. }
  assert (forall name c x p t, logged compensators !! name = Some c -> acc x t -> acc (fst (c x p)) t) as Hkeep.
  { intros name c x p t Hc. rewrite logged_lookup in Hc. apply fmap_Some in Hc as (c0 & Hc & ->). cbn. destruct (c0 _ _) as [w1 res]. unfold acc. cbn. set_solver. }
  destruct (Run_good q tt tp Htime (logged compensators) Hmax Herr' acc Hacc Hkeep ticks picked r (w, []) r' (w', calls)) as (G' & Pot' & Acc); [done|done|done|done|done| |done|].
  { intros now _. unfold all_due. rewrite L0. apply map_Forall_empty. }
  destruct (potential_zero q tt tp Htime (logged compensators) r' G' ltac:(lia)) as (P' & N' & L'). split_and!; [exact Lg|done|done|done|].
  apply Forall_forall. intros t Ht. rewrite Forall_forall in Htasks. destruct (Htasks t Ht) as (Ot & _).
  destruct (Acc t) as [(u & Hu & _)|D]; [|exfalso|done].
  - left. exists t. split_and!; [left|done|done].
    assert (Some (task_Marshal tt t) ∈ map snd (q_new r)) as Hin.
    { rewrite Hstream. apply list_elem_of_fmap. by exists t. }
    apply list_elem_of_fmap in Hin as ([id v] & Ev & Hin). cbn [snd] in Ev. subst v. exists id. rewrite elem_of_app. auto.
  - unfold held in Hu. rewrite N', P', L' in Hu. destruct Hu as [[i Hi]|[s Hs]]; [by apply elem_of_nil in Hi|done].
Qed.

(** * A Redis in memory *)

Record MemRedis := mkMemRedis {
  mr_new : gmap string (list XMessage);
  mr_pend : gmap string (list XMessage);
  mr_sets : gmap string (gmap string Z)
}.

Definition entries (m : gmap string (list XMessage)) (k : string) : list XMessage := default [] (m !! k).
Definition members (m : gmap string (gmap string Z)) (k : string) : gmap string Z := default ∅ (m !! k).

#[global] Instance memory_redis : Redis MemRedis := {
  XAdd r k v :=
    let id := fresh (map fst (entries (mr_pend r) k ++ entries (mr_new r) k)) in
    (mkMemRedis (<[k := entries (mr_new r) k ++ [(id, Some v)]]> (mr_new r)) (mr_pend r) (mr_sets r), None);
  ZAdd r k score v := (mkMemRedis (mr_new r) (mr_pend r) (<[k := <[v := score]> (members (mr_sets r) k)]> (mr_sets r)), None);
  ZRangeByScore r k max := inl (map fst (filter (fun p => snd p <= max) (map_to_list (members (mr_sets r) k))));
  ZRem r k v := (mkMemRedis (mr_new r) (mr_pend r) (<[k := delete v (members (mr_sets r) k)]> (mr_sets r)), None);
  XReadGroup r k _ n :=
    (mkMemRedis (<[k := drop n (entries (mr_new r) k)]> (mr_new r))
       (<[k := entries (mr_pend r) k ++ take n (entries (mr_new r) k)]> (mr_pend r)) (mr_sets r),
     inl (take n (entries (mr_new r) k)));
  XAck r k _ id :=
    (mkMemRedis (mr_new r) (<[k := filter (fun m => fst m <> id) (entries (mr_pend r) k)]> (mr_pend r)) (mr_sets r), None);
  XGroupCreateMkStream r _ _ := (r, None)
}.

(** The texts of a stream. *)
Definition texts (l : list XMessage) : list string := omap snd l.

#[global] Program Instance memory_queue (q : RedisQueue) (Hq : bool_decide (q_stream q <> q_dlq q) = true) :
  QueueLaws MemRedis q := {
  q_new r := entries (mr_new r) (q_stream q);
  q_pend r := entries (mr_pend r) (q_stream q);
  q_dead r := texts (entries (mr_new r) (q_dlq q));
  q_later r := members (mr_sets r) (q_delayed q)
}.
Next Obligation.
  intros q Hq r v. apply bool_decide_eq_true in Hq. eexists _, _. split; [reflexivity|]. cbn.
  unfold entries. rewrite lookup_insert_eq, lookup_insert_ne by done. split_and!; try done. apply infinite_is_fresh.
Qed.
Next Obligation.
  intros q Hq r v. apply bool_decide_eq_true in Hq. eexists _. split; [reflexivity|]. cbn.
  unfold entries. rewrite lookup_insert_eq, lookup_insert_ne by done. split_and!; try done. unfold texts. cbn [default from_option id]. by rewrite omap_app.
Qed.
Next Obligation.
  intros q Hq r score v. eexists _. split; [reflexivity|]. cbn. unfold members. rewrite lookup_insert_eq. done.
Qed.
Next Obligation.
  intros q Hq r max. eexists _. split; [reflexivity|]. split.
  - eapply (sublist_NoDup _ (map fst (map_to_list (members (mr_sets r) (q_delayed q))))).
    + apply NoDup_fst_map_to_list.
    + apply (fmap_sublist fst). apply sublist_filter.
  - intros v. rewrite list_elem_of_fmap. split.
    + intros ([v' s] & -> & Hs). apply list_elem_of_filter in Hs as [Hle Hs]. exists s. by rewrite <- elem_of_map_to_list.
    + intros (s & Hs & Hle). exists (v, s). split; [done|]. apply list_elem_of_filter. by rewrite elem_of_map_to_list.
Qed.
Next Obligation.
  intros q Hq r v. eexists _. split; [reflexivity|]. cbn. unfold members. by rewrite lookup_insert_eq.
Qed.
Next Obligation.
  intros q Hq r n. apply bool_decide_eq_true in Hq. eexists _. split; [reflexivity|]. cbn.
  unfold entries. by rewrite !lookup_insert_eq, lookup_insert_ne by done.
Qed.
Next Obligation.
  intros q Hq r id. eexists _. split; [reflexivity|]. cbn. unfold entries. by rewrite lookup_insert_eq.
Qed.

(** Times printed as numbers. *)
Definition demo_time_parse (s : string) : option Time :=
  match ascii_list s with
  | c :: r => if byte_val c =? 45 then Z.opp <$> digits_value r 0 else digits_value (c :: r) 0
  | [] => None
  end.

Lemma demo_time_format : time_format_ok Itoa demo_time_parse.
Proof.
  intros [|p|p]; [done| |]; unfold demo_time_parse.
  - destruct (Itoa_pos p) as (d & ds & -> & H1 & H2 & H3).
    pose proof (all_bytes (fun c => implb (is_digit19 c) (negb (byte_val c =? 45) && is_digit c)) ltac:(vm_compute; reflexivity) d) as P.
    cbn beta in P. rewrite H1 in P. cbn [implb] in P. apply andb_true_iff in P as [P D]. apply negb_true_iff in P.
    rewrite P. split; [done|]. apply utf8_valid_digits. cbn [forallb]. by rewrite D, H2.
  - rewrite Itoa_neg. destruct (Itoa_pos p) as (d & ds & -> & H1 & H2 & H3).
    change (byte_val (byte_of 45) =? 45) with true. cbn iota. rewrite H3. split; [done|].
    change (utf8_valid (byte_of 45 :: d :: ds)) with (utf8_valid (d :: ds)). apply utf8_valid_digits. cbn [forallb].
    unfold is_digit19 in H1. apply andb_true_iff in H1 as [-> _]. by rewrite H2.
Qed.

Definition demo_queue : RedisQueue := mkQueue "s" "d" "x" "c" "g" 2.
Definition demo_task : CompensationTask :=
  mkTask "t1" "token_settlement" {["model" := JStr "m"]} 7 zeroTime 0 "redis down".
Definition demo_compensators : gmap string (nat -> gmap string json -> nat * option goerror) :=
  {["token_settlement" := fun n _ => (S n, Some (errorf "still down"))]}.
Definition demo_redis : MemRedis := fst (Enqueue Itoa demo_queue (mkMemRedis ∅ ∅ ∅) demo_task).

(** The ticker of the worker: one tick a second. *)
Definition demo_ticks : list Time := map (fun i => Z.of_nat i * Second) (seq 10 8).

Lemma compensation_settles_witness :
  let r := fst (Run Itoa demo_time_parse demo_compensators demo_queue demo_redis 0%nat demo_ticks) in
  entries (mr_new r) "s" = [] /\ entries (mr_pend r) "s" = [] /\ members (mr_sets r) "d" = ∅ /\
  map (fun x => ct_AttemptCount <$> task_Unmarshal demo_time_parse x) (texts (entries (mr_new r) "x")) = [Some 2].
Proof.
  pose proof (@compensation_settles MemRedis _ demo_queue (memory_queue demo_queue eq_refl) Itoa demo_time_parse nat
    demo_compensators demo_redis 0%nat [demo_task] demo_ticks [12 * Second; 16 * Second]) as T.
  destruct (Run Itoa demo_time_parse (logged demo_compensators) demo_queue demo_redis (0%nat, []) demo_ticks) as [r' [w' calls]] eqn:E.
  destruct T as (F & A & B & C & _).
  - exact demo_time_format.
  - unfold in_int64, min_int64, max_int64; cbn; lia.
  - intros name c w p w1 e Hc. unfold demo_compensators in Hc. apply lookup_singleton_Some in Hc as [_ <-].
    intros [= _ <-]. vm_compute. reflexivity.
  - vm_compute. reflexivity.
  - apply (bool_decide_unpack _). vm_compute. exact I.
  - split; vm_compute; reflexivity.
  - constructor; [|constructor]. split_and!; [|cbn; lia|cbn; lia|by eexists].
    split_and!; [vm_compute; reflexivity..|unfold in_int64, min_int64, max_int64; cbn; lia|].
    apply map_Forall_singleton. split; vm_compute; reflexivity.
  - repeat constructor; vm_compute; discriminate.
  - vm_compute. repeat constructor.
  - cbn [spaced]. split; [|done]. intros a Ha. assert (a = 1) as -> by (cbn in Ha; lia). vm_compute. discriminate.
  - vm_compute. discriminate.
  - rewrite F. split_and!; [exact A|exact B|exact C|]. vm_compute in F. injection F as <- _. vm_compute. reflexivity.
Defined.

(** A failed command of the retry is only logged: when Redis refuses the delayed
    set, the message is acknowledged all the same and the task is gone. *)
Theorem failed_schedule_loses_task {R : Type} `{Redis R} (q : RedisQueue) (tt : Time -> string) (r : R) (id : string)
  (t : CompensationTask) (err e : goerror) (now : Time)
  (Hretry : wrap64 (ct_AttemptCount t + 1) < q_maxRetry q)
  (Hfail : forall score x, ZAdd r (q_delayed q) score x = (r, Some e)) :
  handleFailure tt q r id t err now = fst (XAck r (q_stream q) (q_group q) id).
Proof.
  unfold handleFailure, scheduleDelayed, ack.
  set (u := t <| ct_AttemptCount := _ |> <| ct_LastError := _ |>).
  change (ct_AttemptCount u) with (wrap64 (ct_AttemptCount t + 1)).
  destruct (Z.leb_spec (q_maxRetry q) (wrap64 (ct_AttemptCount t + 1))); [lia|]. by rewrite Hfail.
Qed.
