(* ===== verification/Store.v ===== *)
(** pkg/store/memory.go and the [StateStore] contract of pkg/core/invoker.go: window
    counters, token buckets, latency rings and moving averages of the in-memory
    store.  [time.Now()] is an argument of the operations that read the clock. *)

From S2P Require Import Prelude GoFloat GoStrings Types Matcher Policy Context.

(** * The store contract *)

(** [StateStore]: every operation threads the store and returns Go's value and error. *)
Class StateStore (S : Type) := {
  RateLimitIncr : S -> string -> Z -> Duration -> Time -> S * (Z * option goerror);
  RateLimitRefund : S -> string -> Z -> S * option goerror;
  RateLimitTake : S -> string -> Z -> Z -> Z -> Duration -> Time -> S * (bool * Z * option goerror);
  RateLimitAdjust : S -> string -> Z -> Z -> Z -> Duration -> Time -> S * (Z * option goerror);
  RecordLatency : S -> string -> Duration -> Time -> S * option goerror;
  GetAvgLatency : S -> string -> Duration -> Time -> S * (Duration * option goerror);
  RecordTTFT : S -> string -> Duration -> Time -> S * option goerror;
  GetAvgTTFT : S -> string -> Duration -> Time -> S * (Duration * option goerror);
  UpdateEMA : S -> string -> Z -> float64 -> S * (float64 * option goerror);
  GetEMA : S -> string -> S * (float64 * option goerror)
}.

(** * Window counters *)

Record rateLimitEntry := mkRateEntry { rl_count : Z; rl_window : Duration; rl_resetAt : Time }.

Definition rl_incr (e : rateLimitEntry) (tokens : Z) (now : Time) : rateLimitEntry :=
  let e := if time_After now (rl_resetAt e) || time_IsZero (rl_resetAt e)
           then mkRateEntry 0 (rl_window e) (time_Add now (rl_window e)) else e in
  mkRateEntry (wrap64 (rl_count e + tokens)) (rl_window e) (rl_resetAt e).

Definition rl_refund (e : rateLimitEntry) (tokens : Z) : rateLimitEntry :=
  let c := wrap64 (rl_count e - tokens) in
  mkRateEntry (if c <? 0 then 0 else c) (rl_window e) (rl_resetAt e).

(** * Token buckets *)

Record tokenBucketEntry := mkBucketEntry { tb_tokens : float64; tb_lastUpdated : Time }.

(** The refill part of [apply]: a fresh bucket is full, otherwise the elapsed time
    generates tokens up to the capacity. *)
Definition tb_refill (e : tokenBucketEntry) (rate capacity : Z) (window : Duration) (now : Time) :
  tokenBucketEntry :=
  let limitCap := of_int capacity in
  if time_IsZero (tb_lastUpdated e) then mkBucketEntry limitCap now
  else
    let delta := time_Sub now (tb_lastUpdated e) in
    if 0 <? delta then
      let gen := fmul (fdiv (of_int delta) (of_int window)) (of_int rate) in
      let t := fadd (tb_tokens e) gen in
      mkBucketEntry (if flt limitCap t then limitCap else t) now
    else e.

Definition tb_apply (e : tokenBucketEntry) (requested rate capacity : Z) (window : Duration) (now : Time)
  (adjustment : bool) : tokenBucketEntry * (bool * Z) :=
  let limitCap := of_int capacity in
  let e := tb_refill e rate capacity window now in
  let req := of_int requested in
  if adjustment || (requested <? 0) || fle req (tb_tokens e) then
    let t := fsub (tb_tokens e) req in
    let t := if flt limitCap t then limitCap else t in
    (mkBucketEntry t (tb_lastUpdated e), (true, to_int64 t))
  else (e, (false, to_int64 (tb_tokens e))).

Definition tb_take (e : tokenBucketEntry) (requested rate capacity : Z) (window : Duration) (now : Time) :=
  tb_apply e requested rate capacity window now false.

(** * Latency rings *)

Record latencySample := mkSample { sm_latency : Duration; sm_timestamp : Time }.

Record latencyRing := mkRing {
  rg_samples : list latencySample;
  rg_writePos : nat;
  rg_count : nat;
  rg_capacity : nat
}.

Definition zeroSample : latencySample := mkSample 0 zeroTime.
Definition latencyRingCapacity : nat := 1000.

Definition newLatencyRing (capacity : nat) : latencyRing := mkRing (replicate capacity zeroSample) 0 0 capacity.

Definition rg_add (r : latencyRing) (latency : Duration) (now : Time) : latencyRing :=
  mkRing (<[rg_writePos r := mkSample latency now]> (rg_samples r))
    (Nat.modulo (rg_writePos r + 1) (rg_capacity r))
    (if (rg_count r <? rg_capacity r)%nat then S (rg_count r) else rg_count r)
    (rg_capacity r).

(** The samples of the loop of [avg], oldest to newest. *)
Definition rg_read (r : latencyRing) : list latencySample :=
  let start := if (rg_count r =? rg_capacity r)%nat then rg_writePos r else 0%nat in
  map (fun i => nth (Nat.modulo (start + i) (rg_capacity r)) (rg_samples r) zeroSample) (seq 0 (rg_count r)).

(** One iteration: the running total and number of samples. *)
Definition avg_step (window : Duration) (since : Time) (acc : Z * Z) (s : latencySample) : Z * Z :=
  if (0 <? window) && time_Before (sm_timestamp s) since then acc
  else (wrap64 (fst acc + sm_latency s), wrap64 (snd acc + 1)).

Definition rg_avg (r : latencyRing) (window : Duration) (now : Time) : option Duration :=
  if (rg_count r =? 0)%nat then None
  else
    let since := time_Add now (wrap64 (- window)) in
    let '(total, n) := fold_left (avg_step window since) (rg_read r) (0, 0) in
    if n =? 0 then None else Some (wrap64 (Z.quot total n)).

(** * The store *)

Record MemoryStateStore := mkMemoryStore {
  rateLimits : gmap string rateLimitEntry;
  tokenBuckets : gmap string tokenBucketEntry;
  latencies : gmap string latencyRing;
  ttfts : gmap string latencyRing;
  emas : gmap string float64
}.

#[global] Instance eta_memory : Eta MemoryStateStore := fun s =>
  mkMemoryStore (rateLimits s) (tokenBuckets s) (latencies s) (ttfts s) (emas s).

Definition NewMemoryStateStore : MemoryStateStore := mkMemoryStore ∅ ∅ ∅ ∅ ∅.

Definition getOrCreateRateLimitEntry (s : MemoryStateStore) (key : string) (window : Duration) : rateLimitEntry :=
  default (mkRateEntry 0 window zeroTime) (rateLimits s !! key).

Definition mem_RateLimitIncr (s : MemoryStateStore) (key : string) (tokens : Z) (window : Duration) (now : Time) :
  MemoryStateStore * (Z * option goerror) :=
  let e := rl_incr (getOrCreateRateLimitEntry s key window) tokens now in
  (s <| rateLimits := <[key := e]> (rateLimits s) |>, (rl_count e, None)).

Definition mem_RateLimitRefund (s : MemoryStateStore) (key : string) (tokens : Z) :
  MemoryStateStore * option goerror :=
  let e := rl_refund (getOrCreateRateLimitEntry s key 0) tokens in
  (s <| rateLimits := <[key := e]> (rateLimits s) |>, None).

Definition getOrCreateTokenBucketEntry (s : MemoryStateStore) (key : string) : tokenBucketEntry :=
  default (mkBucketEntry fzero zeroTime) (tokenBuckets s !! key).

Definition mem_RateLimitTake (s : MemoryStateStore) (key : string) (tokens rate capacity : Z)
  (window : Duration) (now : Time) : MemoryStateStore * (bool * Z * option goerror) :=
  let '(e, r) := tb_take (getOrCreateTokenBucketEntry s key) tokens rate capacity window now in
  (s <| tokenBuckets := <[key := e]> (tokenBuckets s) |>, (r, None)).

Definition mem_RateLimitAdjust (s : MemoryStateStore) (key : string) (tokens rate capacity : Z)
  (window : Duration) (now : Time) : MemoryStateStore * (Z * option goerror) :=
  let '(e, r) := tb_apply (getOrCreateTokenBucketEntry s key) tokens rate capacity window now true in
  (s <| tokenBuckets := <[key := e]> (tokenBuckets s) |>, (snd r, None)).

Definition getOrCreateLatencyRing (m : gmap string latencyRing) (endpointID : string) : latencyRing :=
  default (newLatencyRing latencyRingCapacity) (m !! endpointID).

Definition mem_RecordLatency (s : MemoryStateStore) (endpointID : string) (latency : Duration) (now : Time) :
  MemoryStateStore * option goerror :=
  let r := rg_add (getOrCreateLatencyRing (latencies s) endpointID) latency now in
  (s <| latencies := <[endpointID := r]> (latencies s) |>, None).

Definition mem_GetAvgLatency (s : MemoryStateStore) (endpointID : string) (window : Duration) (now : Time) :
  MemoryStateStore * (Duration * option goerror) :=
  let r := getOrCreateLatencyRing (latencies s) endpointID in
  (s <| latencies := <[endpointID := r]> (latencies s) |>, (default 0 (rg_avg r window now), None)).

Definition mem_RecordTTFT (s : MemoryStateStore) (endpointID : string) (ttft : Duration) (now : Time) :
  MemoryStateStore * option goerror :=
  let r := rg_add (getOrCreateLatencyRing (ttfts s) endpointID) ttft now in
  (s <| ttfts := <[endpointID := r]> (ttfts s) |>, None).

Definition mem_GetAvgTTFT (s : MemoryStateStore) (endpointID : string) (window : Duration) (now : Time) :
  MemoryStateStore * (Duration * option goerror) :=
  let r := getOrCreateLatencyRing (ttfts s) endpointID in
  (s <| ttfts := <[endpointID := r]> (ttfts s) |>, (default 0 (rg_avg r window now), None)).

Definition mem_UpdateEMA (s : MemoryStateStore) (key : string) (actual : Z) (alpha : float64) :
  MemoryStateStore * (float64 * option goerror) :=
  let v := default fzero (emas s !! key) in
  let v' := if feq v fzero then of_int actual
            else fadd (fmul (of_int actual) alpha) (fmul v (fsub (of_int 1) alpha)) in
  (s <| emas := <[key := v']> (emas s) |>, (v', None)).

Definition mem_GetEMA (s : MemoryStateStore) (key : string) : MemoryStateStore * (float64 * option goerror) :=
  (s, (default fzero (emas s !! key), None)).

#[global] Instance memory_StateStore : StateStore MemoryStateStore := {
  RateLimitIncr := mem_RateLimitIncr;
  RateLimitRefund := mem_RateLimitRefund;
  RateLimitTake := mem_RateLimitTake;
  RateLimitAdjust := mem_RateLimitAdjust;
  RecordLatency := mem_RecordLatency;
  GetAvgLatency := mem_GetAvgLatency;
  RecordTTFT := mem_RecordTTFT;
  GetAvgTTFT := mem_GetAvgTTFT;
  UpdateEMA := mem_UpdateEMA;
  GetEMA := mem_GetEMA
}.

Arguments rl_incr : simpl never.
Arguments rl_refund : simpl never.
Arguments getOrCreateRateLimitEntry : simpl never.

(** * Window counters as an interface

    [usage s k now]: what is used of the current window of key [k] at time [now].
    Clients of the store reason with these laws only. *)
Class WindowCounter (S : Type) `{StateStore S} := {
  usage : S -> string -> Time -> Z;
  counters_ok : S -> Prop;
  usage_bound : forall s k now, counters_ok s -> 0 <= usage s k now <= max_int64;
  usage_later : forall s k now now', counters_ok s -> now <= now' ->
    usage s k now' = usage s k now \/ usage s k now' = 0;
  incr_law : forall s k n w now s' v err, counters_ok s -> 0 < now -> 0 <= n -> 0 <= w ->
    usage s k now + n <= max_int64 -> RateLimitIncr s k n w now = (s', (v, err)) ->
    err = None /\ v = usage s k now + n /\ usage s' k now = v /\ counters_ok s' /\
    (forall k' t, k' <> k -> usage s' k' t = usage s k' t);
  refund_law : forall s k n s' err, counters_ok s -> 0 <= n <= max_int64 -> RateLimitRefund s k n = (s', err) ->
    err = None /\ (forall now, usage s' k now = Z.max 0 (usage s k now - n)) /\ counters_ok s' /\
    (forall k' t, k' <> k -> usage s' k' t = usage s k' t);
  ema_law : forall s k s' r, counters_ok s -> GetEMA s k = (s', r) ->
    counters_ok s' /\ (forall k' t, usage s' k' t = usage s k' t)
}.

(** ** The in-memory store implements it *)

Definition rl_usage (e : rateLimitEntry) (now : Time) : Z :=
  if time_After now (rl_resetAt e) || time_IsZero (rl_resetAt e) then 0 else rl_count e.

Definition mem_usage (s : MemoryStateStore) (k : string) (now : Time) : Z :=
  match rateLimits s !! k with Some e => rl_usage e now | None => 0 end.

Definition rl_ok (e : rateLimitEntry) : Prop := 0 <= rl_count e <= max_int64 /\ 0 <= rl_window e.

Definition mem_ok (s : MemoryStateStore) : Prop := map_Forall (fun _ e => rl_ok e) (rateLimits s).

Lemma rl_usage_bound e now : rl_ok e -> 0 <= rl_usage e now <= max_int64.
Proof. unfold rl_ok, rl_usage, max_int64. intros [? ?]. destruct (_ || _); lia. Qed.

Lemma rl_incr_spec e n now :
  rl_ok e -> 0 < now -> 0 <= n -> rl_usage e now + n <= max_int64 ->
  rl_count (rl_incr e n now) = rl_usage e now + n /\ rl_usage (rl_incr e n now) now = rl_usage e now + n /\
  rl_ok (rl_incr e n now).
Proof.
  intros [Hc Hw] Hn H0 Hb. unfold rl_incr, rl_usage, rl_ok in *.
  destruct (time_After now (rl_resetAt e) || time_IsZero (rl_resetAt e)) eqn:E; cbn in *.
  - rewrite wrap64_small by (unfold in_int64, min_int64; lia).
    unfold time_After, time_IsZero, time_Add, zeroTime.
    destruct (now + rl_window e <? now) eqn:E1; [zbool; lia|].
    destruct (now + rl_window e =? 0) eqn:E2; [zbool; lia|]. cbn. lia.
  - rewrite E. rewrite wrap64_small by (unfold in_int64, min_int64; lia). lia.
Qed.

Lemma rl_refund_spec e n now :
  rl_ok e -> 0 <= n <= max_int64 ->
  rl_usage (rl_refund e n) now = Z.max 0 (rl_usage e now - n) /\ rl_ok (rl_refund e n).
Proof.
  intros [Hc Hw] Hn. unfold rl_refund, rl_usage, rl_ok in *. cbn.
  rewrite wrap64_small by (unfold in_int64, min_int64, max_int64 in *; lia).
  destruct (rl_count e - n <? 0) eqn:E; zbool; destruct (_ || _); lia.
Qed.

Lemma mem_usage_insert s k e k' t :
  mem_usage (s <| rateLimits := <[k := e]> (rateLimits s) |>) k' t =
  if seqb k k' then rl_usage e t else mem_usage s k' t.
Proof.
  unfold mem_usage. cbn. destruct (seqb k k') eqn:E; sbool.
  - subst. by rewrite lookup_insert_eq.
  - by rewrite lookup_insert_ne.
Qed.

Lemma mem_ok_insert s k e : mem_ok s -> rl_ok e -> mem_ok (s <| rateLimits := <[k := e]> (rateLimits s) |>).
Proof. intros Hs He. by apply map_Forall_insert_2. Qed.

(** The entry an operation works on, and its usage. *)
Lemma getOrCreate_ok s k w now :
  mem_ok s -> 0 <= w ->
  rl_ok (getOrCreateRateLimitEntry s k w) /\ rl_usage (getOrCreateRateLimitEntry s k w) now = mem_usage s k now.
Proof.
  intros Hs Hw. unfold getOrCreateRateLimitEntry, mem_usage.
  destruct (rateLimits s !! k) as [e|] eqn:E; cbn; [split; [by apply (Hs k)|done]|].
  split; [by unfold rl_ok, max_int64; cbn; lia|]. unfold rl_usage, time_IsZero. cbn. by rewrite orb_true_r.
Qed.

#[global] Program Instance memory_WindowCounter : WindowCounter MemoryStateStore := {
  usage := mem_usage;
  counters_ok := mem_ok
}.
Next Obligation.
  intros s k now H. unfold mem_usage. destruct (rateLimits s !! k) as [e|] eqn:E; [|by unfold max_int64].
  apply rl_usage_bound, (H k e E).
Qed.
Next Obligation.
  intros s k now now' H L. unfold mem_usage. destruct (rateLimits s !! k) as [e|]; [|by left].
  unfold rl_usage, time_After, time_IsZero. 
  destruct (rl_resetAt e <? now') eqn:E; [by right|]. cbn.
  destruct (rl_resetAt e =? zeroTime); [by right|].
  left. destruct (rl_resetAt e <? now) eqn:E'; [zbool; lia|done].
Qed.
Next Obligation.
  intros s k n w now s' v err H T Hn Hw Hb. cbn. intros [= <- <- <-].
  destruct (getOrCreate_ok s k w now H Hw) as [Ok U]. rewrite <- U in *.
  destruct (rl_incr_spec _ n now Ok T Hn Hb) as (C & U' & Ok').
  refine (conj eq_refl (conj C (conj _ (conj (mem_ok_insert s k _ H Ok') _)))).
  - etransitivity; [apply mem_usage_insert|]. rewrite seqb_refl.
    exact (eq_trans U' (eq_sym C)).
  - intros k' t N. etransitivity; [apply mem_usage_insert|].
    by rewrite (proj2 (seqb_neq k k')) by congruence.
Qed.
Next Obligation.
  intros s k n s' err H Hn. cbn. intros [= <- <-].
  destruct (getOrCreate_ok s k 0 0 H ltac:(lia)) as [Ok _].
  destruct (rl_refund_spec _ n 0 Ok Hn) as [_ Ok'].
  refine (conj eq_refl (conj _ (conj (mem_ok_insert s k _ H Ok') _))).
  - intros now. destruct (getOrCreate_ok s k 0 now H ltac:(lia)) as [_ U].
    etransitivity; [apply mem_usage_insert|]. rewrite seqb_refl, <- U. by apply rl_refund_spec.
  - intros k' t N. etransitivity; [apply mem_usage_insert|].
    by rewrite (proj2 (seqb_neq k k')) by congruence.
Qed.

Next Obligation. intros s k s' r H. cbn. by intros [= <- <-]. Qed.

Definition tokens_sum (l : list (Z * Time)) : Z := fold_right (fun p z => fst p + z) 0 l.

Lemma tokens_sum_nonneg l : Forall (fun p => 0 <= fst p) l -> 0 <= tokens_sum l.
Proof. unfold tokens_sum. induction 1; cbn; lia. Qed.

Lemma rl_incr_within c w r n t :
  0 <= c -> 0 <= n -> c + n <= max_int64 -> r <> 0 -> t <= r ->
  rl_incr (mkRateEntry c w r) n t = mkRateEntry (c + n) w r.
Proof.
  intros. unfold rl_incr, time_After, time_IsZero, zeroTime. cbn.
  destruct (r <? t) eqn:E1; [zbool; lia|]. destruct (r =? 0) eqn:E2; [zbool; lia|]. cbn.
  by rewrite wrap64_small by (unfold in_int64, min_int64; lia).
Qed.

Lemma rl_incr_restart c w r n t :
  0 <= n <= max_int64 -> r < t \/ r = 0 -> rl_incr (mkRateEntry c w r) n t = mkRateEntry n w (t + w).
Proof.
  intros Hn Hr. unfold rl_incr, time_After, time_IsZero, zeroTime, time_Add. cbn.
  replace (_ || _) with true by (symmetry; rewrite orb_true_iff, Z.ltb_lt, Z.eqb_eq; lia). cbn.
  by rewrite wrap64_small by (unfold in_int64, min_int64; lia).
Qed.

(** Increments inside the window of an existing entry add up. *)
Lemma incr_run_within key w r rest s c :
  rateLimits s !! key = Some (mkRateEntry c w r) -> 0 <= c -> 0 < r ->
  Forall (fun p => 0 <= fst p) rest -> Forall (fun p => snd p <= r) rest ->
  c + tokens_sum rest <= max_int64 ->
  rateLimits (fold_left (fun s p => fst (mem_RateLimitIncr s key (fst p) w (snd p))) rest s) !! key =
    Some (mkRateEntry (c + tokens_sum rest) w r).
Proof.
  intros Hs Hc Hr Hn. revert s c Hs Hc. unfold tokens_sum.
  induction Hn as [|[n t] rest Hn0 Hn IH]; intros s c Hs Hc Ht Hm; cbn [fold_left fold_right].
  - rewrite Hs. do 2 f_equal. lia.
  - apply Forall_cons in Ht as [Ht0 Ht]. cbn [fold_right fst snd] in *. pose proof (tokens_sum_nonneg rest Hn) as N.
    unfold tokens_sum in N.
    rewrite (IH _ (c + n)); [do 2 f_equal; lia| |lia|done|lia].
    cbn. rewrite lookup_insert_eq. unfold getOrCreateRateLimitEntry. rewrite Hs. cbn [from_option id].
    by rewrite rl_incr_within by lia.
Qed.

(** Inside one window the counter is exact: from a fresh key, increments made at
    times from the first one up to the end of its window add up, and the first
    increment after the end starts again from zero. *)
Theorem window_counter_exact (key : string) (w : Duration) (t0 n0 : Z) (rest : list (Z * Time))
  (late : Time) (n : Z) (Hw : 0 <= w) (Ht : 0 < t0) (Hn : Forall (fun p => 0 <= fst p) ((n0, t0) :: rest))
  (Hlate : 0 <= n <= max_int64) (Hin : Forall (fun p => snd p <= t0 + w) rest) (Hend : t0 + w < late)
  (Hsum : tokens_sum ((n0, t0) :: rest) <= max_int64) :
  let s := fold_left (fun s p => fst (mem_RateLimitIncr s key (fst p) w (snd p)))
             ((n0, t0) :: rest) NewMemoryStateStore in
  mem_usage s key (t0 + w) = tokens_sum ((n0, t0) :: rest) /\
  snd (mem_RateLimitIncr s key n w late) = (n, None).
Proof.
  apply Forall_cons in Hn as [Hn0 Hn]. cbn [fst] in Hn0. pose proof (tokens_sum_nonneg rest Hn) as N.
  assert (tokens_sum ((n0, t0) :: rest) = n0 + tokens_sum rest) as S by done. rewrite S in *.
  intros s. assert (rateLimits s !! key = Some (mkRateEntry (n0 + tokens_sum rest) w (t0 + w))) as E.
  { subst s. cbn [fold_left fst snd].
    apply incr_run_within; try done; try lia. cbn. rewrite lookup_insert_eq.
    unfold getOrCreateRateLimitEntry. cbn [rateLimits NewMemoryStateStore]. rewrite lookup_empty. cbn [from_option id].
    rewrite rl_incr_restart by (auto; lia). done. }
  clearbody s. split.
  - unfold mem_usage. rewrite E. unfold rl_usage, time_After, time_IsZero, zeroTime. cbn.
    destruct (t0 + w <? t0 + w) eqn:E1; [zbool; lia|]. destruct (t0 + w =? 0) eqn:E2; [zbool; lia|done].
  - unfold mem_RateLimitIncr, getOrCreateRateLimitEntry. rewrite E. cbn [from_option id snd].
    by rewrite rl_incr_restart by (auto; lia).
Qed.

Lemma window_counter_exact_witness :
  let s := fold_left (fun s p => fst (mem_RateLimitIncr s "k" (fst p) 60 (snd p)))
             [(5, 100); (2, 130); (1, 160)] NewMemoryStateStore in
  mem_usage s "k" 160 = 8 /\ snd (mem_RateLimitIncr s "k" 4 60 161) = (4, None).
Proof.
  apply (window_counter_exact "k" 60 100 5 [(2, 130); (1, 160)] 161 4); try (unfold max_int64, tokens_sum; cbn; lia);
    repeat constructor; cbn; lia.
Defined.

(** A refund of a key that was never charged creates its entry with a zero window,
    and the window is never corrected: from then on every increment at a later
    clock reading starts a new window, so the counter never accumulates. *)
Theorem early_refund_disables_window (key : string) (refund : Z) (charges : list (Z * Time)) (n w : Z) (t : Time)
  (Hr : 0 <= refund <= max_int64) (Hc : Forall (fun p => 0 <= fst p <= max_int64 /\ 0 < snd p) charges)
  (Hsorted : Sorted.StronglySorted (fun p q => snd p < snd q) charges)
  (Hlast : Forall (fun p => snd p < t) charges) (Hn : 0 <= n <= max_int64) (Ht : 0 < t) :
  let s := fold_left (fun s p => fst (mem_RateLimitIncr s key (fst p) w (snd p)))
             charges (fst (mem_RateLimitRefund NewMemoryStateStore key refund)) in
  snd (mem_RateLimitIncr s key n w t) = (n, None).
Proof.
  assert (forall s, (exists c r, rateLimits s !! key = Some (mkRateEntry c 0 r) /\ (r < t \/ r = 0) /\
                      Forall (fun p => r < snd p \/ r = 0) charges) ->
    exists c r, rateLimits (fold_left (fun s p => fst (mem_RateLimitIncr s key (fst p) w (snd p))) charges s) !! key
      = Some (mkRateEntry c 0 r) /\ (r < t \/ r = 0)) as F.
  { clear Hn. induction Hc as [|[m u] l [Hm Hu] Hc IH]; cbn [fold_left]; [naive_solver|].
    intros s (c & r & E & _ & Hl). apply Forall_cons in Hl as [Hl _]. cbn [fst snd] in *.
    apply Sorted.StronglySorted_inv in Hsorted as [Hs' Hf]. apply Forall_cons in Hlast as [Hu' Hlast].
    apply IH; [done..|]. exists m, u. cbn. rewrite lookup_insert_eq.
    unfold getOrCreateRateLimitEntry. rewrite E. cbn [from_option id].
    rewrite rl_incr_restart by done. split; [do 2 f_equal; lia|]. split; [by left|].
    eapply Forall_impl; [exact Hf|]. cbn. auto. }
  intros s. destruct (F (fst (mem_RateLimitRefund NewMemoryStateStore key refund))) as (c & r & E & Hr').
  { eexists _, 0. cbn. rewrite lookup_insert_eq. unfold getOrCreateRateLimitEntry. cbn.
    split; [reflexivity|]. split; [by right|]. apply Forall_forall. auto. }
  fold s in E. clearbody s. unfold mem_RateLimitIncr, getOrCreateRateLimitEntry. rewrite E. cbn [from_option id snd].
  by rewrite rl_incr_restart by done.
Qed.

Lemma early_refund_disables_window_witness :
  let s := fold_left (fun s p => fst (mem_RateLimitIncr s "k" (fst p) 60 (snd p)))
             [(5, 100); (2, 101)] (fst (mem_RateLimitRefund NewMemoryStateStore "k" 3)) in
  snd (mem_RateLimitIncr s "k" 1 60 102) = (1, None).
Proof.
  apply (early_refund_disables_window "k" 3 [(5, 100); (2, 101)] 1 60 102); try (unfold max_int64; lia);
    repeat constructor; cbn; unfold max_int64; lia.
Defined.

(** * Latency rings hold the most recent samples *)

(** The ring after the samples [h] were added to a new one. *)
Definition ring_of (cap : nat) (h : list latencySample) : latencyRing :=
  fold_left (fun r s => rg_add r (sm_latency s) (sm_timestamp s)) h (newLatencyRing cap).

(** Sample [j] of the history, if recent enough, is in slot [j mod cap]. *)
Record ring_holds (cap : nat) (h : list latencySample) (r : latencyRing) : Prop := {
  rh_cap : rg_capacity r = cap;
  rh_len : length (rg_samples r) = cap;
  rh_pos : rg_writePos r = (length h mod cap)%nat;
  rh_count : rg_count r = Nat.min (length h) cap;
  rh_slot : forall j, (length h - Nat.min (length h) cap <= j < length h)%nat ->
    nth (j mod cap) (rg_samples r) zeroSample = nth j h zeroSample
}.

Lemma mod_distinct (cap i j : nat) :
  (cap <> 0 -> i < j -> j - i < cap -> i mod cap <> j mod cap)%nat.
Proof.
  intros Hc Hij Hd E.
  pose proof (Nat.div_mod i cap Hc). pose proof (Nat.div_mod j cap Hc).
  assert (j / cap = i / cap \/ i / cap < j / cap)%nat as [|L] by nia; nia.
Qed.

Lemma nth_insert (l : list latencySample) i j x d :
  (i < length l)%nat -> nth j (<[i := x]> l) d = if (i =? j)%nat then x else nth j l d.
Proof.
  intros Hi. rewrite !nth_lookup. destruct (Nat.eqb_spec i j) as [->|N].
  - by rewrite list_lookup_insert_eq.
  - by rewrite list_lookup_insert_ne.
Qed.

Lemma ring_add_holds cap h r s :
  cap <> 0%nat -> ring_holds cap h r -> ring_holds cap (h ++ [s]) (rg_add r (sm_latency s) (sm_timestamp s)).
Proof.
  intros Hc [C L P N Sl]. pose proof (Nat.mod_upper_bound (length h) cap Hc) as B.
  split; unfold rg_add; cbn [rg_capacity rg_samples rg_writePos rg_count]; rewrite ?length_app; cbn [length].
  - done.
  - by rewrite length_insert.
  - rewrite P, C. rewrite Nat.Div0.add_mod_idemp_l. done.
  - rewrite N, C. destruct (Nat.ltb_spec (Nat.min (length h) cap) cap); lia.
  - intros j Hj. rewrite nth_insert by lia. rewrite P.
    destruct (Nat.eqb_spec (length h mod cap) (j mod cap)) as [E|E].
    + destruct (decide (j = length h)) as [->|Nj].
      * rewrite app_nth2, Nat.sub_diag by lia. by destruct s.
      * exfalso. apply (mod_distinct cap j (length h)); lia.
    + destruct (decide (j = length h)) as [->|Nj]; [done|].
      rewrite app_nth1 by lia. apply Sl. lia.
Qed.

Lemma ring_of_holds cap h : cap <> 0%nat -> ring_holds cap h (ring_of cap h).
Proof.
  intros Hc. induction h as [|s h IH] using rev_ind.
  - split; cbn; [done|apply length_replicate|by rewrite Nat.Div0.mod_0_l|lia|lia].
  - unfold ring_of. rewrite fold_left_app. cbn. by apply ring_add_holds.
Qed.

(** The loop of [avg] reads the last [cap] samples in order. *)
Lemma ring_read cap h r :
  cap <> 0%nat -> ring_holds cap h r -> rg_read r = drop (length h - cap) h.
Proof.
  intros Hc [C L P N Sl]. unfold rg_read.
  apply (nth_ext _ _ zeroSample zeroSample); rewrite length_map, length_seq, N.
  { rewrite length_drop. lia. }
  intros i Hi. rewrite (nth_indep _ _ (nth (((if (Nat.min (length h) cap =? rg_capacity r)%nat then rg_writePos r
    else 0) + 0) mod rg_capacity r) (rg_samples r) zeroSample)) by (rewrite length_map, length_seq; lia).
  rewrite (map_nth (fun i => nth _ (rg_samples r) zeroSample) (seq 0 _) 0%nat), seq_nth by lia. cbn [Nat.add].
  rewrite !nth_lookup, lookup_drop, <- !nth_lookup, C, P.
  destruct (Nat.eqb_spec (Nat.min (length h) cap) cap) as [E|E].
  - rewrite Nat.Div0.add_mod_idemp_l.
    replace (length h + i)%nat with (length h - cap + i + 1 * cap)%nat by lia.
    rewrite Nat.Div0.mod_add. apply Sl. lia.
  - cbn [Nat.add]. replace (length h - cap + i)%nat with i by lia. apply Sl. lia.
Qed.

(** The reference: the mean over the samples among the last [cap] that are not
    older than the window; [None] when there is none. *)
Definition recent (window : Duration) (now : Time) (s : latencySample) : bool :=
  negb ((0 <? window) && time_Before (sm_timestamp s) (time_Add now (wrap64 (- window)))).
Definition mean_latency (l : list latencySample) : option Duration :=
  match l with
  | [] => None
  | _ => Some (Z.quot (fold_right (fun s z => sm_latency s + z) 0 l) (Z.of_nat (length l)))
  end.

Definition latency_sum (l : list latencySample) : Z := fold_right (fun s z => sm_latency s + z) 0 l.

Lemma latency_sum_cons s l : latency_sum (s :: l) = sm_latency s + latency_sum l.
Proof. reflexivity. Qed.

Lemma latency_sum_nonneg l : Forall (fun s => 0 <= sm_latency s) l -> 0 <= latency_sum l.
Proof. unfold latency_sum. induction 1; cbn; lia. Qed.

Lemma recent_nonneg window now l :
  Forall (fun s => 0 <= sm_latency s) l -> Forall (fun s => 0 <= sm_latency s) (List.filter (recent window now) l).
Proof. rewrite !List.Forall_forall. intros H x [Hx _]%filter_In. auto. Qed.

Lemma avg_step_run window now l a n :
  0 <= a -> 0 <= n -> Forall (fun s => 0 <= sm_latency s) l ->
  let k := List.filter (recent window now) l in
  a + latency_sum k <= max_int64 -> n + Z.of_nat (length k) <= max_int64 ->
  fold_left (avg_step window (time_Add now (wrap64 (- window)))) l (a, n) =
    (a + latency_sum k, n + Z.of_nat (length k)).
Proof.
  intros Ha Hn Hl k. subst k. revert a n Ha Hn.
  induction Hl as [|s l Hs Hl IH]; intros a n Ha Hn; cbn [List.filter fold_left].
  - cbn. intros. f_equal; lia.
  - assert (avg_step window (time_Add now (wrap64 (- window))) (a, n) s =
      if recent window now s then (wrap64 (a + sm_latency s), wrap64 (n + 1)) else (a, n)) as ->.
    { unfold avg_step, recent. by destruct (_ && _). }
    destruct (recent window now s); [|intros; by apply IH].
    rewrite latency_sum_cons. cbn [length].
    pose proof (latency_sum_nonneg _ (recent_nonneg window now l Hl)). intros H1 H2.
    rewrite (wrap64_small (a + sm_latency s)), (wrap64_small (n + 1)) by (unfold in_int64, min_int64; lia).
    rewrite IH by lia. f_equal; lia.
Qed.

(** The latency average the balancers read is the mean of the samples inside the
    window among the last [cap] recorded, oldest overwritten first, for any number
    of recorded samples (sums within int64, where Go's additions do not wrap). *)
Theorem latency_ring_refinement (cap : nat) (h : list latencySample) (window : Duration) (now : Time)
  (Hcap : cap <> 0%nat) (Hpos : Forall (fun s => 0 <= sm_latency s) h)
  (Hsum : latency_sum (List.filter (recent window now) (drop (length h - cap) h)) <= max_int64)
  (Hlen : Z.of_nat cap <= max_int64) :
  rg_avg (ring_of cap h) window now =
  mean_latency (List.filter (recent window now) (drop (length h - cap) h)).
Proof.
  pose proof (ring_of_holds cap h Hcap) as R. pose proof (ring_read cap h _ Hcap R) as E.
  unfold rg_avg. rewrite E, (rh_count _ _ _ R).
  set (l := drop (length h - cap) h) in *.
  assert (Forall (fun s => 0 <= sm_latency s) l) as Hl by by apply Forall_drop.
  assert (length l <= cap)%nat as Ll by (subst l; rewrite length_drop; lia).
  assert (length (List.filter (recent window now) l) <= length l)%nat as Lf by apply filter_length_le.
  destruct (Nat.eqb_spec (Nat.min (length h) cap) 0) as [Z0|NZ].
  { subst l. destruct h; [done|cbn [length] in Z0; lia]. }
  rewrite (avg_step_run window now l 0 0) by (done || lia).
  pose proof (recent_nonneg window now l Hl) as Hf.
  destruct (List.filter (recent window now) l) as [|s k] eqn:F; [done|].
  destruct (0 + Z.of_nat (length (s :: k)) =? 0) eqn:E0; [zbool; cbn [length] in E0; lia|].
  unfold mean_latency. fold (latency_sum (s :: k)). rewrite !Z.add_0_l, wrap64_small; [done|].
  pose proof (latency_sum_nonneg _ Hf) as Hp.
  assert (1 <= Z.of_nat (length (s :: k))) as H1 by (cbn [length]; lia).
  pose proof (Z.quot_le_upper_bound (latency_sum (s :: k)) (Z.of_nat (length (s :: k))) max_int64
    ltac:(lia) ltac:(nia)).
  pose proof (Z.quot_pos _ (Z.of_nat (length (s :: k))) Hp ltac:(lia)).
  unfold in_int64, min_int64. lia.
Qed.

Lemma latency_ring_refinement_witness :
  rg_avg (ring_of 2 [mkSample 10 100; mkSample 20 200; mkSample 40 300]) 500 400 = Some 30.
Proof.
  rewrite (latency_ring_refinement 2 [mkSample 10 100; mkSample 20 200; mkSample 40 300] 500 400).
  - reflexivity.
  - lia.
  - repeat constructor; cbn; lia.
  - vm_compute. discriminate.
  - unfold max_int64. lia.
Defined.

(** * Token buckets *)

(** One operation on a bucket: tokens, rate, window, clock, adjustment or take. *)
Record bucket_op := mkBucketOp {
  bo_requested : Z; bo_rate : Z; bo_window : Duration; bo_now : Time; bo_adjustment : bool
}.

Definition run_bucket (capacity : Z) (e : tokenBucketEntry) (o : bucket_op) : tokenBucketEntry * (bool * Z) :=
  tb_apply e (bo_requested o) (bo_rate o) capacity (bo_window o) (bo_now o) (bo_adjustment o).

(** Not yet used, or within the capacity. *)
Definition bucket_ok (capacity : Z) (e : tokenBucketEntry) : Prop :=
  tb_lastUpdated e = zeroTime \/ flt (of_int capacity) (tb_tokens e) = false.

Lemma capped cap t : flt cap (if flt cap t then cap else t) = false.
Proof. destruct (flt cap t) eqn:E; [apply flt_irrefl|done]. Qed.

Lemma tb_refill_capped e rate capacity window now :
  bucket_ok capacity e -> flt (of_int capacity) (tb_tokens (tb_refill e rate capacity window now)) = false.
Proof.
  intros H. unfold tb_refill. destruct (time_IsZero (tb_lastUpdated e)) eqn:Z0; [apply flt_irrefl|].
  destruct (0 <? _); [apply capped|]. destruct H as [H|H]; [|done].
  unfold time_IsZero in Z0. zbool. done.
Qed.

Lemma run_bucket_capped capacity e o :
  bucket_ok capacity e -> flt (of_int capacity) (tb_tokens (fst (run_bucket capacity e o))) = false.
Proof.
  intros H. unfold run_bucket, tb_apply. destruct (_ || _); cbn [fst tb_tokens]; [apply capped|].
  by apply tb_refill_capped.
Qed.

(** Whatever sequence of takes, refunds and settlements a token bucket has served,
    the next operation leaves it at or below its capacity; when it refuses, the
    bucket is only refilled, and the refused amount was more than it held. *)
Theorem token_bucket_capped (capacity : Z) (ops : list bucket_op) (o : bucket_op) :
  let e := fold_left (fun e o => fst (run_bucket capacity e o)) ops (mkBucketEntry fzero zeroTime) in
  let '(e', (allowed, _)) := run_bucket capacity e o in
  flt (of_int capacity) (tb_tokens e') = false /\
  (allowed = false -> bo_adjustment o = false /\ 0 <= bo_requested o /\
     e' = tb_refill e (bo_rate o) capacity (bo_window o) (bo_now o) /\
     fle (of_int (bo_requested o)) (tb_tokens e') = false).
Proof.
  intros e. assert (bucket_ok capacity e) as H.
  { subst e. rewrite <- (rev_involutive ops).
    induction (rev ops) as [|x l IH]; [by left|]. cbn [rev]. rewrite fold_left_app. right.
    by apply run_bucket_capped. }
  pose proof (run_bucket_capped capacity e o H) as C.
  destruct (run_bucket capacity e o) as [e' [allowed n]] eqn:R. split; [done|]. intros ->.
  unfold run_bucket, tb_apply in R. destruct (_ || _) eqn:B; simplify_eq.
  apply orb_false_iff in B as [[B1 B2]%orb_false_iff B3]. zbool. split_and!; auto; lia.
Qed.
