(* ===== verification/Limiter.v ===== *)
(** pkg/limiter: request, token and cost limits over the windows of a policy, with
    the rollback of partly charged requests, token estimation and the
    reservations that settlement reads; and the rate-limit filter of
    pkg/filters/inbound/limit.go.  Everything is written against the [StateStore]
    contract; the admission theorems are proved against [WindowCounter]. *)

From S2P Require Import Prelude GoFloat GoStrings GoTime Matcher Policy Types Context Store.

(** * Errors and keys *)

(** [*HTTPError], or the error of the store. *)
Inductive limit_error :=
| HTTPError (code : Z) (message : string) (threshold current : float64)
| StoreError (e : goerror).

Definition GetLimitKey (g : GatewayContext) (lp : LimitPolicy) : string :=
  let policyKey := if is_empty (lp_ID lp) then lp_Name lp else lp_ID lp in
  match lp_LimitBy lp with
  | [] => (if is_empty (UserID g) then Tenant g else UserID g) +:+ ":" +:+ Model g +:+ ":" +:+ policyKey
  | fields =>
      let part field :=
        let v := if seqb field "tenant" then Tenant g
                 else if seqb field "user" then UserID g
                 else if seqb field "model" then Model g else "" in
        if is_empty v then [] else [v] in
      Join (List.concat (map part fields) ++ [policyKey]) ":"
  end.

(** * Windows *)

Definition window_of (sw : SlidingWindow) : Duration :=
  let w := duration_mul (sw_TimeWindowInMs sw) Millisecond in if w <=? 0 then Minute else w.

(** The capacity of a burst window, [None] for a plain window. *)
Definition burst_capacity (sw : SlidingWindow) : option Z :=
  match sw_BurstRatio sw with
  | Some r =>
      if flt fzero r then
        let c := to_int64 (fceil (fmul (of_int (sw_Threshold sw)) r)) in Some (if c <? 1 then 1 else c)
      else None
  | None => None
  end.

Definition window_key (limitKey : string) (sw : SlidingWindow) : string :=
  limitKey +:+ ":" +:+ duration_String (window_of sw).

Record chatMessage := mkChatMessage { cm_Role : string; cm_Content : string; cm_Name : string }.

(** Third-party code: [tiktoken] encodings (a tokenizer maps a text to its number of
    tokens) and the JSON decoding of the chat messages of a body. *)
Record LimLibs := mkLimLibs {
  tiktoken_EncodingForModel : string -> option (string -> Z);
  tiktoken_GetEncoding : string -> option (string -> Z);
  json_chatRequest : string -> option (list chatMessage)
}.

Section limiter.
Context {S : Type} `{StateStore S} (L : LimLibs).

(** * Estimation *)

Definition count_tokens (enc : string -> Z) (perMessage perName : Z) (msgs : list chatMessage) : Z :=
  fold_left (fun n m =>
    let n := n + perMessage + enc (cm_Content m) + enc (cm_Role m) in
    if is_empty (cm_Name m) then n else n + enc (cm_Name m) + perName) msgs 0 + 3.

Definition CountChatInputTokens (msgs : list chatMessage) (model : string) : Z :=
  let tkm := match tiktoken_EncodingForModel L model with
             | Some e => Some e
             | None => tiktoken_GetEncoding L "cl100k_base" end in
  match tkm with
  | None => 0
  | Some enc =>
      if seqb model "gpt-3.5-turbo-0301" || seqb model "gpt-3.5-turbo"
      then count_tokens enc 4 (-1) msgs else count_tokens enc 3 1 msgs
  end.

Definition body_len (g : GatewayContext) : Z := Z.of_nat (String.length (RawBody g)).

Definition EstimateInputTokens (g : GatewayContext) (lp : option LimitPolicy) : Z :=
  let plain := Z.quot (body_len g) 4 in
  match lp ≫= lp_Estimator with
  | None => plain
  | Some est =>
      if seqb (ec_Type est) "length_ratio" then
        if flt fzero (ec_Ratio est) then to_int64 (fmul (of_int (body_len g)) (ec_Ratio est)) else plain
      else if seqb (ec_Type est) "tiktoken" then
        if 0 <? body_len g then
          match json_chatRequest L (RawBody g) with
          | Some (m :: ms) => CountChatInputTokens (m :: ms) (Model g)
          | _ => plain
          end
        else plain
      else plain
  end.

Definition EstimateOutputTokens (s : S) (tenant userID model : string) : S * Z :=
  let tenantKey := if is_empty tenant then userID else tenant in
  let '(s, scoped) :=
    if is_empty tenantKey then (s, None)
    else
      let '(s, (v, err)) := GetEMA s ("tenant:" +:+ tenantKey +:+ ":" +:+ model) in
      (s, if bool_decide (is_Some err) then None else if flt fzero v then Some (to_int64 v) else None) in
  match scoped with
  | Some v => (s, v)
  | None =>
      let '(s, (v, err)) := GetEMA s ("model:global:" +:+ model) in
      (s, if bool_decide (is_Some err) then 200 else if flt fzero v then to_int64 v else 200)
  end.

(** * Charging the windows of a policy *)

(** Return [tokens] to one window. [rnow] is the clock reading of a burst refund. *)
Definition give_back (s : S) (limitKey : string) (sw : SlidingWindow) (tokens : Z) (rnow : Time) : S :=
  match burst_capacity sw with
  | Some capacity =>
      fst (RateLimitTake s (window_key limitKey sw) (wrap64 (- tokens)) (sw_Threshold sw) capacity
             (window_of sw) rnow)
  | None => fst (RateLimitRefund s (window_key limitKey sw) tokens)
  end.

(** [rollback] of the first windows, in order. *)
Definition rollback (s : S) (limitKey : string) (done : list SlidingWindow) (tokens : Z) (rnow : Time) : S :=
  fold_left (fun s sw => give_back s limitKey sw tokens rnow) done s.

(** The loop over the windows: [done] are the windows charged so far; [now] gives
    the clock reading of each round. *)
Fixpoint exec_windows (msg limitKey : string) (tokens : Z) (now : nat -> Time) (rnow : Time)
  (done todo : list SlidingWindow) (s : S) : S * option limit_error :=
  match todo with
  | [] => (s, None)
  | sw :: rest =>
      let key := window_key limitKey sw in
      let t := now (length done) in
      match burst_capacity sw with
      | Some capacity =>
          let '(s, (allowed, remaining, err)) :=
            RateLimitTake s key tokens (sw_Threshold sw) capacity (window_of sw) t in
          match err with
          | Some e => (rollback s limitKey done tokens rnow, Some (StoreError e))
          | None =>
              if allowed then exec_windows msg limitKey tokens now rnow (done ++ [sw]) rest s
              else (rollback s limitKey done tokens rnow,
                    Some (HTTPError 429 msg (of_int (sw_Threshold sw)) (of_int (wrap64 (capacity - remaining)))))
          end
      | None =>
          let '(s, (current, err)) := RateLimitIncr s key tokens (window_of sw) t in
          match err with
          | Some e => (rollback s limitKey done tokens rnow, Some (StoreError e))
          | None =>
              if sw_Threshold sw <? current then
                (rollback s limitKey (done ++ [sw]) tokens rnow,
                 Some (HTTPError 429 msg (of_int (sw_Threshold sw)) (of_int current)))
              else exec_windows msg limitKey tokens now rnow (done ++ [sw]) rest s
          end
      end
  end.

Definition reservation_of (lp : LimitPolicy) (key : string) (estimate : Z) (sw : SlidingWindow) :
  LimitReservation :=
  mkReservation (window_key key sw) (lp_Type lp) estimate (window_of sw) (sw_Threshold sw)
    (default 0 (burst_capacity sw)) (bool_decide (is_Some (burst_capacity sw))) false.

Definition recordReservations (g : GatewayContext) (lp : LimitPolicy) (key : string) (estimate : Z) :
  GatewayContext :=
  if TrackLimitReservations g then
    g <| LimitReservations := LimitReservations g ++ map (reservation_of lp key estimate) (lp_SlidingWindows lp) |>
  else g.

(** * The executors ([core.LimitExecutor]) *)

Inductive executor := RequestLimitExecutor | TokenLimitExecutor | CostLimitExecutor.

Definition rate_message : string := "rate limit exceeded".
Definition cost_message : string := "cost limit exceeded (daily budget blown)".

Definition estimate_tokens (s : S) (g : GatewayContext) (lp : LimitPolicy) : S * Z :=
  let '(s, out) := EstimateOutputTokens s (Tenant g) (UserID g) (Model g) in
  (s, wrap64 (EstimateInputTokens g (Some lp) + out)).

Definition estimate_cost (s : S) (g : GatewayContext) (lp : LimitPolicy) : S * Z :=
  let '(inputPrice, outputPrice) :=
    match gPolicy g ≫= p_Billing with
    | Some b => (b_InputPrice b, b_OutputPrice b)
    | None => (of_int 3, of_int 10)
    end in
  let input := EstimateInputTokens g (Some lp) in
  let '(s, out) := EstimateOutputTokens s (Tenant g) (UserID g) (Model g) in
  (s, to_int64 (fdiv (fadd (fmul (of_int input) inputPrice) (fmul (of_int out) outputPrice)) (of_int 1000))).

Definition Request_Execute (s : S) (g : GatewayContext) (lp : LimitPolicy) (now : nat -> Time) (rnow : Time) :
  S * GatewayContext * option limit_error :=
  let '(s, err) := exec_windows rate_message (GetLimitKey g lp) 1 now rnow [] (lp_SlidingWindows lp) s in
  (s, g, err).

Definition Token_Execute (s : S) (g : GatewayContext) (lp : LimitPolicy) (now : nat -> Time) (rnow : Time) :
  S * GatewayContext * option limit_error :=
  let key := GetLimitKey g lp in
  let '(s, estimate) := estimate_tokens s g lp in
  let '(s, err) := exec_windows rate_message key estimate now rnow [] (lp_SlidingWindows lp) s in
  (s, match err with None => recordReservations g lp key estimate | Some _ => g end, err).

Definition Cost_Execute (s : S) (g : GatewayContext) (lp : LimitPolicy) (now : nat -> Time) (rnow : Time) :
  S * GatewayContext * option limit_error :=
  let key := GetLimitKey g lp in
  let '(s, estimate) := estimate_cost s g lp in
  let '(s, err) := exec_windows cost_message key estimate now rnow [] (lp_SlidingWindows lp) s in
  (s, match err with None => recordReservations g lp key estimate | Some _ => g end, err).

Definition Execute (x : executor) :=
  match x with
  | RequestLimitExecutor => Request_Execute
  | TokenLimitExecutor => Token_Execute
  | CostLimitExecutor => Cost_Execute
  end.

Definition Request_Refund (s : S) (g : GatewayContext) (lp : LimitPolicy) (rnow : Time) : S :=
  rollback s (GetLimitKey g lp) (lp_SlidingWindows lp) 1 rnow.

Definition Token_Refund (s : S) (g : GatewayContext) (lp : LimitPolicy) (rnow : Time) : S :=
  let '(s, estimate) := estimate_tokens s g lp in
  rollback s (GetLimitKey g lp) (lp_SlidingWindows lp) estimate rnow.

Definition Cost_Refund (s : S) (g : GatewayContext) (lp : LimitPolicy) (rnow : Time) : S :=
  let '(s, estimate) := estimate_cost s g lp in
  rollback s (GetLimitKey g lp) (lp_SlidingWindows lp) estimate rnow.

(** [DefaultLimitExecutorFactory] after [NewRateLimitFilter] has registered them. *)
Definition executor_Get (limitType : string) : option executor :=
  if seqb limitType "request" then Some RequestLimitExecutor
  else if seqb limitType "token" then Some TokenLimitExecutor
  else if seqb limitType "cost" then Some CostLimitExecutor else None.

(** * The rate-limit filter *)

Definition MatchLimitPolicyConditions (g : GatewayContext) (lp : LimitPolicy) : bool :=
  forallb (fun c => if is_empty (tc_Type c) then true else cond_matches g c) (lp_Conditions lp).

Definition is_429 (e : limit_error) : bool :=
  match e with HTTPError code _ _ _ => code =? 429 | StoreError _ => false end.

(** The wait loop of a policy with [MaxWaitMs > 0]: [clock i] are the readings of
    round [i], [cancelled i] the context error seen in it; [fuel] bounds the rounds. *)
Fixpoint wait_loop (fuel : nat) (x : executor) (lp : LimitPolicy) (deadline : Time)
  (clock : nat -> Time) (cancelled : nat -> option goerror) (i : nat) (s : S) (g : GatewayContext) :
  option (S * GatewayContext * option limit_error) :=
  match fuel with
  | O => None
  | Datatypes.S fuel =>
      match Execute x s g lp (fun _ => clock i) (clock i) with
      | (s, g, None) => Some (s, g, None)
      | (s, g, Some e) =>
          if negb (is_429 e) then Some (s, g, Some e)
          else
            match cancelled i with
            | Some c => Some (s, g, Some (StoreError c))
            | None =>
                if time_After (time_Add (clock i) (20 * Millisecond)) deadline then Some (s, g, Some e)
                else wait_loop fuel x lp deadline clock cancelled (Datatypes.S i) s g
            end
      end
  end.

(** One limit policy of [OnRequest]: the continuation is [None] when the request is
    rejected. *)
Definition limit_one (fuel : nat) (clock : nat -> Time) (cancelled : nat -> option goerror) (lp : LimitPolicy)
  (s : S) (g : GatewayContext) : option (S * GatewayContext * option limit_error) :=
  if seqb (RequestType g) RequestTypeImageGeneration && (seqb (lp_Type lp) "token" || seqb (lp_Type lp) "cost")
  then Some (s, g, None)
  else if negb (MatchLimitPolicyConditions g lp) then Some (s, g, None)
  else
    let limitKey := GetLimitKey g lp in
    if TrackLimitReservations g && bool_decide (limitKey ∈ default ∅ (LimitKeys g)) then Some (s, g, None)
    else
      let g := if (seqb (lp_Type lp) "token" || seqb (lp_Type lp) "cost") && (InputTokens g =? 0)
               then g <| InputTokens := EstimateInputTokens g (Some lp) |> else g in
      match executor_Get (lp_Type lp) with
      | None => Some (s, g, None)
      | Some x =>
          let run :=
            if 0 <? lp_MaxWaitMs lp then
              wait_loop fuel x lp (time_Add (clock 0%nat) (duration_mul (lp_MaxWaitMs lp) Millisecond))
                clock cancelled 0 s g
            else Some (Execute x s g lp (fun _ => clock 0%nat) (clock 0%nat)) in
          match run with
          | None => None
          | Some (s, g, Some e) =>
              Some (s, if is_429 e then
                         g <| Tags := Some (<["rate_limit_policy_id" := lp_ID lp]>
                                             (<["rate_limit_policy_name" := lp_Name lp]> (default ∅ (Tags g)))) |>
                       else g, Some e)
          | Some (s, g, None) =>
              Some (s, if TrackLimitReservations g
                       then g <| LimitKeys := Some ({[limitKey]} ∪ default ∅ (LimitKeys g)) |> else g, None)
          end
      end.

(** [OnRequest]: the policies in order, the first rejection ends the filter; [clock k]
    and [cancelled k] belong to policy [k]. A nil policy of the list is dereferenced
    ([Panic]). The outer [None]: out of fuel. *)
Fixpoint OnRequest_loop (fuel k : nat) (clock : nat -> nat -> Time) (cancelled : nat -> nat -> option goerror)
  (lps : list (option LimitPolicy)) (s : S) (g : GatewayContext) :
  option (go (S * GatewayContext * option limit_error)) :=
  match lps with
  | [] => Some (Ret (s, g, None))
  | None :: _ => Some Panic
  | Some lp :: rest =>
      match limit_one fuel (clock k) (cancelled k) lp s g with
      | None => None
      | Some (s, g, Some e) => Some (Ret (s, g, Some e))
      | Some (s, g, None) => OnRequest_loop fuel (Datatypes.S k) clock cancelled rest s g
      end
  end.

Definition RateLimitFilter_OnRequest (fuel : nat) (clock : nat -> nat -> Time)
  (cancelled : nat -> nat -> option goerror) (s : S) (g : GatewayContext) :
  option (go (S * GatewayContext * option limit_error)) :=
  match gPolicy g with
  | None => Some (Ret (s, g, None))
  | Some p => OnRequest_loop fuel 0 clock cancelled (p_LimitPolicies p) s g
  end.

(** * Admission *)

Context `{!WindowCounter S}.

(** Plain windows, each with its own key. *)
Definition plain_windows (limitKey : string) (ws : list SlidingWindow) : Prop :=
  Forall (fun sw => burst_capacity sw = None) ws /\ NoDup (map (window_key limitKey) ws).

Lemma window_of_pos sw : 0 <= window_of sw.
Proof. unfold window_of. destruct (_ <=? 0) eqn:E; [by unfold Minute|zbool; lia]. Qed.

Lemma elem_of_cons_decide (k k' : string) l :
  k <> k' -> bool_decide (k ∈ k' :: l) = bool_decide (k ∈ l).
Proof. intros. apply bool_decide_ext. rewrite elem_of_cons. tauto. Qed.

(** Rolling back a charge of [tokens] on the windows [ws]. *)
Lemma rollback_usage ws limitKey tokens t s :
  plain_windows limitKey ws -> 0 <= tokens <= max_int64 -> counters_ok s ->
  counters_ok (rollback s limitKey ws tokens t) /\
  forall k now, usage (rollback s limitKey ws tokens t) k now =
    if bool_decide (k ∈ map (window_key limitKey) ws) then Z.max 0 (usage s k now - tokens) else usage s k now.
Proof.
  intros [P N] Ht. revert s. induction ws as [|sw ws IH]; intros s Ok; [done|].
  cbn [map] in N. apply NoDup_cons in N as [N1 N]. apply Forall_cons in P as [P1 P].
  unfold rollback. cbn [fold_left]. fold (rollback (give_back s limitKey sw tokens t) limitKey ws tokens t).
  unfold give_back. rewrite P1.
  destruct (RateLimitRefund s (window_key limitKey sw) tokens) as [s' err] eqn:E. cbn [fst].
  destruct (refund_law _ _ _ _ _ Ok Ht E) as (_ & U & Ok' & F).
  destruct (IH P N s' Ok') as [Ok2 U2]. split; [done|]. intros k now. rewrite U2. cbn [map].
  destruct (decide (k = window_key limitKey sw)) as [->|Nk].
  - rewrite bool_decide_false by done. rewrite U, bool_decide_true by left. done.
  - rewrite F by done. f_equal. by rewrite (elem_of_cons_decide k _ _ Nk).
Qed.
(** Charged on the windows [ws], on top of [s0], at time [t]. *)
Definition charged (s0 s : S) (keys : list string) (tokens : Z) (t : Time) : Prop :=
  forall k, usage s k t = usage s0 k t + if bool_decide (k ∈ keys) then tokens else 0.

Lemma charged_incr s0 s s' keys key tokens t v :
  key ∉ keys -> charged s0 s keys tokens t -> usage s' key t = v -> v = usage s key t + tokens ->
  (forall k' t, k' <> key -> usage s' k' t = usage s k' t) ->
  charged s0 s' (keys ++ [key]) tokens t.
Proof.
  intros N C U V F k. destruct (decide (k = key)) as [->|Nk].
  - rewrite (bool_decide_true (key ∈ _)) by set_solver. rewrite U, V, C. rewrite bool_decide_false by done. lia.
  - rewrite F, C by done. f_equal. rewrite (bool_decide_ext (k ∈ keys) (k ∈ keys ++ [key])); [done|set_solver].
Qed.

Lemma charged_rollback s0 s ws limitKey tokens t rnow :
  plain_windows limitKey ws -> 0 <= tokens <= max_int64 -> counters_ok s0 -> counters_ok s ->
  charged s0 s (map (window_key limitKey) ws) tokens t ->
  counters_ok (rollback s limitKey ws tokens rnow) /\
  forall k, usage (rollback s limitKey ws tokens rnow) k t = usage s0 k t.
Proof.
  intros P Ht Ok0 Ok C. destruct (rollback_usage ws limitKey tokens rnow s P Ht Ok) as [Ok' U].
  split; [done|]. intros k. rewrite U, C. pose proof (usage_bound s0 k t Ok0). destruct (bool_decide _); lia.
Qed.

(** The outcome of charging plain windows at one clock reading. *)
Lemma exec_windows_spec msg limitKey tokens t rnow s0 todo : forall done s s' err,
  plain_windows limitKey (done ++ todo) -> 0 <= tokens -> 0 < t -> counters_ok s0 -> counters_ok s ->
  Forall (fun sw => usage s0 (window_key limitKey sw) t + tokens <= max_int64) todo ->
  charged s0 s (map (window_key limitKey) done) tokens t ->
  exec_windows msg limitKey tokens (fun _ => t) rnow done todo s = (s', err) ->
  counters_ok s' /\
  match err with
  | None => charged s0 s' (map (window_key limitKey) (done ++ todo)) tokens t /\
            Forall (fun sw => usage s0 (window_key limitKey sw) t + tokens <= sw_Threshold sw) todo
  | Some e => is_429 e = true /\ forall k, usage s' k t = usage s0 k t
  end.
Proof.
  induction todo as [|sw todo IH]; intros done s s' err P Ht Hnow Ok0 Ok B C E; cbn [exec_windows] in E.
  { simplify_eq. rewrite app_nil_r. done. }
  replace (done ++ sw :: todo) with ((done ++ [sw]) ++ todo) in P |- * by by rewrite <- app_assoc.
  assert (burst_capacity sw = None) as Hsw.
  { destruct P as [P _]. rewrite !Forall_app in P. destruct P as [[_ P] _]. by inversion P. }
  assert (window_key limitKey sw ∉ map (window_key limitKey) done) as Nin.
  { destruct P as [_ N]. rewrite !map_app, <- app_assoc in N. apply NoDup_app in N as (_ & N & _).
    intros Hin. apply (N _ Hin). set_solver. }
  assert (plain_windows limitKey (done ++ [sw])) as Pd.
  { destruct P as [P N]. rewrite map_app in N. apply Forall_app in P as [P _]. by apply NoDup_app in N as [N _]. }
  rewrite Hsw in E. apply Forall_cons in B as [B0 B].
  destruct (RateLimitIncr s (window_key limitKey sw) tokens (window_of sw) t) as [s1 [v er]] eqn:I.
  assert (usage s (window_key limitKey sw) t = usage s0 (window_key limitKey sw) t) as U0.
  { rewrite C, bool_decide_false by done. lia. }
  destruct (incr_law _ _ _ _ _ _ _ _ Ok Hnow Ht (window_of_pos sw) ltac:(by rewrite U0) I)
    as (-> & Ev & Uv & Ok1 & F).
  assert (charged s0 s1 (map (window_key limitKey) (done ++ [sw])) tokens t) as C1.
  { rewrite map_app. by eapply charged_incr. }
  pose proof (usage_bound s0 (window_key limitKey sw) t Ok0).
  destruct (sw_Threshold sw <? v) eqn:T; zbool.
  - simplify_eq.
    destruct (charged_rollback s0 s1 (done ++ [sw]) limitKey tokens t rnow Pd ltac:(lia) Ok0 Ok1 C1). done.
  - destruct (IH (done ++ [sw]) s1 s' err P Ht Hnow Ok0 Ok1 B C1 E) as [Ok' R]. split; [done|].
    destruct err as [e|]; [done|]. destruct R as [R1 R2]. split; [done|]. constructor; [|done]. lia.
Qed.

(** * The amount an executor charges *)

Definition charge (x : executor) (s : S) (g : GatewayContext) (lp : LimitPolicy) : S * Z :=
  match x with
  | RequestLimitExecutor => (s, 1)
  | TokenLimitExecutor => estimate_tokens s g lp
  | CostLimitExecutor => estimate_cost s g lp
  end.

Lemma EstimateOutputTokens_frame s tenant user model :
  counters_ok s ->
  counters_ok (fst (EstimateOutputTokens s tenant user model)) /\
  forall k t, usage (fst (EstimateOutputTokens s tenant user model)) k t = usage s k t.
Proof.
  intros Ok. unfold EstimateOutputTokens.
  assert (forall s1 k, counters_ok s1 -> (forall k t, usage s1 k t = usage s k t) ->
    counters_ok (fst (GetEMA s1 k)) /\ forall k' t, usage (fst (GetEMA s1 k)) k' t = usage s k' t) as G.
  { intros s1 k Ok1 U1. destruct (GetEMA s1 k) as [s2 r] eqn:E. destruct (ema_law _ _ _ _ Ok1 E) as [? U2].
    split; [done|]. intros. cbn. by rewrite U2, U1. }
  destruct (is_empty _).
  - specialize (G s ("model:global:" +:+ model) Ok ltac:(done)).
    by destruct (GetEMA s _) as [s2 [v e]].
  - specialize (G s ("tenant:" +:+ (if is_empty tenant then user else tenant) +:+ ":" +:+ model) Ok ltac:(done)) as G1.
    destruct (GetEMA s ("tenant:" +:+ _)) as [s1 [v e]]. cbn [fst] in G1. destruct G1 as [Ok1 U1].
    specialize (G s1 ("model:global:" +:+ model) Ok1 U1).
    destruct (bool_decide (is_Some e)), (flt fzero v); try done; by destruct (GetEMA s1 _) as [s2 [v2 e2]].
Qed.

Lemma charge_frame x s g lp :
  counters_ok s ->
  counters_ok (fst (charge x s g lp)) /\ forall k t, usage (fst (charge x s g lp)) k t = usage s k t.
Proof.
  intros Ok. pose proof (EstimateOutputTokens_frame s (Tenant g) (UserID g) (Model g) Ok) as F.
  destruct x; [done|..]; cbn [charge]; unfold estimate_tokens, estimate_cost;
    destruct (EstimateOutputTokens s _ _ _); [done|]. destruct (gPolicy g ≫= p_Billing); done.
Qed.

(** Every executor is the window loop on its charge. *)
Lemma Execute_windows x s g lp now rnow :
  exists msg, fst (fst (Execute x s g lp now rnow)) = fst (exec_windows msg (GetLimitKey g lp)
      (snd (charge x s g lp)) now rnow [] (lp_SlidingWindows lp) (fst (charge x s g lp))) /\
    snd (Execute x s g lp now rnow) = snd (exec_windows msg (GetLimitKey g lp)
      (snd (charge x s g lp)) now rnow [] (lp_SlidingWindows lp) (fst (charge x s g lp))).
Proof.
  destruct x; [exists rate_message|exists rate_message|exists cost_message];
    cbn [Execute charge]; unfold Request_Execute, Token_Execute, Cost_Execute; cbn [fst snd].
  - by destruct (exec_windows _ _ _ _ _ _ _ _).
  - destruct (estimate_tokens s g lp); cbn [fst snd]. by destruct (exec_windows _ _ _ _ _ _ _ _).
  - destruct (estimate_cost s g lp); cbn [fst snd]. by destruct (exec_windows _ _ _ _ _ _ _ _).
Qed.

Lemma Execute_spec x s g lp t rnow s' g' err :
  counters_ok s -> plain_windows (GetLimitKey g lp) (lp_SlidingWindows lp) -> 0 < t ->
  0 <= snd (charge x s g lp) ->
  Forall (fun sw => usage s (window_key (GetLimitKey g lp) sw) t + snd (charge x s g lp) <= max_int64)
    (lp_SlidingWindows lp) ->
  Execute x s g lp (fun _ => t) rnow = (s', g', err) ->
  counters_ok s' /\
  match err with
  | None => charged s s' (map (window_key (GetLimitKey g lp)) (lp_SlidingWindows lp)) (snd (charge x s g lp)) t /\
            Forall (fun sw => usage s (window_key (GetLimitKey g lp) sw) t + snd (charge x s g lp)
                              <= sw_Threshold sw) (lp_SlidingWindows lp)
  | Some e => is_429 e = true /\ forall k, usage s' k t = usage s k t
  end.
Proof.
  intros Ok P Ht Hc B E. destruct (Execute_windows x s g lp (fun _ => t) rnow) as (msg & E1 & E2).
  rewrite E in E1, E2. cbn [fst snd] in E1, E2.
  destruct (charge_frame x s g lp Ok) as [Ok0 F].
  destruct (charge x s g lp) as [s0 n]; cbn [fst snd] in *.
  destruct (exec_windows msg _ n _ _ _ _ s0) as [s1 e1] eqn:W; cbn [fst snd] in *. subst.
  destruct (exec_windows_spec msg (GetLimitKey g lp) n t rnow s0 (lp_SlidingWindows lp) [] s0 s1 e1)
    as [Ok1 R]; try done.
  - eapply Forall_impl; [exact B|]. intros sw. cbn beta. by rewrite F.
  - intros k. rewrite bool_decide_false by apply not_elem_of_nil. lia.
  - split; [done|]. destruct e1 as [e|].
    + destruct R as [R1 R2]. split; [done|]. intros k. by rewrite R2, F.
    + destruct R as [R1 R2]. split; [intros k; by rewrite R1, F|].
      eapply Forall_impl; [exact R2|]. intros sw. cbn beta. by rewrite F.
Qed.
End limiter.

(** * Theorems *)

(** C4: Admission over plain windows is all or nothing. A rejected request (429) leaves
    the usage of every key exactly as it was: the windows charged before the one
    that overflowed are rolled back. An admitted request has charged each window of
    the policy, no other key, and every window is within its threshold. *)
Theorem limit_admission {S : Type} `{WindowCounter S} (L : LimLibs) (x : executor) (s s' : S)
  (g g' : GatewayContext) (lp : LimitPolicy) (t rnow : Time) (err : option limit_error)
  (Hok : counters_ok s) (Hplain : plain_windows (GetLimitKey g lp) (lp_SlidingWindows lp)) (Ht : 0 < t)
  (Hcharge : 0 <= snd (charge L x s g lp))
  (Hbound : Forall (fun sw => usage s (window_key (GetLimitKey g lp) sw) t + snd (charge L x s g lp) <= max_int64)
              (lp_SlidingWindows lp))
  (Hexec : Execute L x s g lp (fun _ => t) rnow = (s', g', err)) :
  match err with
  | Some e => is_429 e = true /\ forall k, usage s' k t = usage s k t
  | None =>
      let keys := map (window_key (GetLimitKey g lp)) (lp_SlidingWindows lp) in
      (forall k, k ∈ keys -> usage s' k t = usage s k t + snd (charge L x s g lp)) /\
      (forall k, k ∉ keys -> usage s' k t = usage s k t) /\
      Forall (fun sw => usage s' (window_key (GetLimitKey g lp) sw) t <= sw_Threshold sw) (lp_SlidingWindows lp)
  end.
Proof.
  destruct (Execute_spec L x s g lp t rnow s' g' err) as [_ R]; try done.
  destruct err as [e|]; [done|]. destruct R as [C F]. cbn zeta. split_and!.
  - intros k Hk. by rewrite C, bool_decide_true.
  - intros k Hk. rewrite C, bool_decide_false by done. lia.
  - apply Forall_forall. intros sw Hsw. rewrite Forall_forall in F.
    rewrite C, bool_decide_true by (apply list_elem_of_fmap; eauto). by apply F.
Qed.

(** A context and a policy for the witnesses. *)
Definition demo_limits : LimLibs := mkLimLibs (fun _ => None) (fun _ => None) (fun _ => None).
Definition demo_user : GatewayContext := emptyContext <| UserID := "u" |> <| Model := "m" |>.
Definition demo_limit (id : string) (windows : list SlidingWindow) : LimitPolicy :=
  mkLimitPolicy id "" 1 "request" windows 0 "" [] None [].

(** Three requests per second, one per minute: the second request passes the first
    window and is refused by the second. *)
Definition demo_windows : list SlidingWindow := [mkSlidingWindow 3 1000 None; mkSlidingWindow 1 60000 None].

Lemma demo_windows_plain : plain_windows (GetLimitKey demo_user (demo_limit "p" demo_windows)) demo_windows.
Proof. split; [repeat constructor|]. apply (bool_decide_unpack _). vm_compute. exact I. Qed.

Definition demo_charged : MemoryStateStore :=
  Eval vm_compute in fst (fst (Execute demo_limits RequestLimitExecutor NewMemoryStateStore demo_user
                                 (demo_limit "p" demo_windows) (fun _ => 5) 5)).

Lemma limit_admission_witness :
  let lp := demo_limit "p" demo_windows in
  snd (Execute demo_limits RequestLimitExecutor demo_charged demo_user lp (fun _ => 6) 6) =
    Some (HTTPError 429 "rate limit exceeded" (of_int 1) (of_int 2)) /\
  usage (fst (fst (Execute demo_limits RequestLimitExecutor demo_charged demo_user lp (fun _ => 6) 6))) "u:m:p:1s" 6
  = usage demo_charged "u:m:p:1s" 6.
Proof.
  intros lp. split; [vm_compute; reflexivity|].
  pose proof (limit_admission demo_limits RequestLimitExecutor demo_charged
    (fst (fst (Execute demo_limits RequestLimitExecutor demo_charged demo_user lp (fun _ => 6) 6)))
    demo_user demo_user lp 6 6 (Some (HTTPError 429 "rate limit exceeded" (of_int 1) (of_int 2)))) as A.
  cbn beta iota in A. apply A.
  - intros k e. change (rateLimits demo_charged !! k = Some e -> rl_ok e). revert k e.
    change (map_Forall (fun _ e => rl_ok e) (rateLimits demo_charged)).
    unfold rl_ok. apply (bool_decide_unpack _). vm_compute. exact I.
  - exact demo_windows_plain.
  - lia.
  - vm_compute. discriminate.
  - repeat constructor; vm_compute; discriminate.
  - vm_compute. reflexivity.
Defined.

(** One request of a sequence, at its clock reading. *)
Definition request_step {S : Type} `{StateStore S} (L : LimLibs) (lp : LimitPolicy) (s : S)
  (r : GatewayContext * Time) : S :=
  fst (fst (Execute L RequestLimitExecutor s (fst r) lp (fun _ => snd r) (snd r))).

(** C36: A request limit is never exceeded: whatever sequence of requests of one limit key
    is offered at non-decreasing times, accepted or not, the usage of each plain
    window of the policy stays within its threshold. *)
Theorem request_limit_never_exceeded {S : Type} `{WindowCounter S} (L : LimLibs) (lp : LimitPolicy) (key : string)
  (s : S) (t0 : Time) (reqs : list (GatewayContext * Time))
  (Hok : counters_ok s) (Ht0 : 0 < t0) (Hplain : plain_windows key (lp_SlidingWindows lp))
  (Hthr : Forall (fun sw => 0 <= sw_Threshold sw < max_int64) (lp_SlidingWindows lp))
  (Hstart : Forall (fun sw => usage s (window_key key sw) t0 <= sw_Threshold sw) (lp_SlidingWindows lp))
  (Hkey : Forall (fun r => GetLimitKey (fst r) lp = key) reqs)
  (Htimes : Sorted.StronglySorted Z.le (t0 :: map snd reqs)) :
  forall t, Forall (fun r => snd r <= t) reqs -> t0 <= t ->
  Forall (fun sw => usage (fold_left (request_step L lp) reqs s) (window_key key sw) t <= sw_Threshold sw)
    (lp_SlidingWindows lp).
Proof.
  revert s t0 Hok Ht0 Hstart Htimes. induction Hkey as [|[g u] reqs Hg Hkey IH];
    intros s t0 Hok Ht0 Hstart Htimes t Hlast Ht; cbn [fold_left].
  - rewrite Forall_forall in *. intros sw Hsw. specialize (Hstart sw Hsw). specialize (Hthr sw Hsw).
    destruct (usage_later s (window_key key sw) t0 t Hok Ht) as [->| ->]; lia.
  - cbn [fst snd map] in *. apply Forall_cons in Hlast as [Hu Hlast]. cbn in Hu.
    apply Sorted.StronglySorted_inv in Htimes as [Ss Sf].
    assert (t0 <= u) as Htu by (inversion Sf; done).
    assert (Forall (fun sw => usage s (window_key key sw) u <= sw_Threshold sw) (lp_SlidingWindows lp)) as Hs.
    { rewrite Forall_forall in *. intros sw Hsw. specialize (Hstart sw Hsw). specialize (Hthr sw Hsw).
      destruct (usage_later s (window_key key sw) t0 u Hok Htu) as [->| ->]; lia. }
    unfold request_step at 2. cbn [fst snd].
    destruct (Execute L RequestLimitExecutor s g lp (fun _ => u) u) as [[s1 g1] err] eqn:E. cbn [fst].
    destruct (Execute_spec L RequestLimitExecutor s g lp u u s1 g1 err) as [Ok1 R]; try done.
    + by rewrite Hg.
    + lia.
    + rewrite Hg. cbn [charge snd]. rewrite Forall_forall in *. intros sw Hsw.
      specialize (Hs sw Hsw). specialize (Hthr sw Hsw). lia.
    + apply (IH s1 u); try done; [lia|].
      rewrite Forall_forall in *. intros sw Hsw. specialize (Hs sw Hsw). destruct err as [e|].
      * destruct R as [_ U]. rewrite U. lia.
      * destruct R as [C F]. rewrite Hg in *. cbn [charge snd] in *.
        rewrite C, bool_decide_true by (apply list_elem_of_fmap; eauto).
        rewrite Forall_forall in F. by apply F.
Qed.

Lemma request_limit_never_exceeded_witness :
  Forall (fun sw => usage (fold_left (request_step demo_limits (demo_limit "p" demo_windows))
      [(demo_user, 5); (demo_user, 6); (demo_user, 7)] NewMemoryStateStore) (window_key "u:m:p" sw) 8
      <= sw_Threshold sw) demo_windows.
Proof.
  apply (request_limit_never_exceeded demo_limits (demo_limit "p" demo_windows) "u:m:p" NewMemoryStateStore 1
    [(demo_user, 5); (demo_user, 6); (demo_user, 7)]).
  - apply map_Forall_empty.
  - lia.
  - exact demo_windows_plain.
  - repeat constructor; vm_compute; discriminate || reflexivity.
  - repeat constructor; vm_compute; discriminate.
  - repeat constructor.
  - repeat constructor; vm_compute; discriminate.
  - repeat constructor; vm_compute; discriminate.
  - lia.
Defined.

(** ** The wait loop ends *)

(** Successive rounds are at least one sleep (20ms) apart. *)
Definition sleeps (clock : nat -> Time) : Prop := forall i, clock i + 20 * Millisecond <= clock (S i).

Lemma wait_loop_ends {S : Type} `{StateStore S} (L : LimLibs) fuel x lp deadline clock cancelled :
  sleeps clock -> forall i (s : S) g, (0 < fuel)%nat ->
  deadline < clock i + 20 * Millisecond * (Z.of_nat fuel - 1) + 20 * Millisecond ->
  wait_loop L fuel x lp deadline clock cancelled i s g <> None.
Proof.
  intros Hs. induction fuel as [|fuel IH]; intros i s g Hf Hd; [lia|]. cbn [wait_loop].
  destruct (Execute L x s g lp _ _) as [[s1 g1] [e|]]; [|done].
  destruct (negb (is_429 e)); [done|]. destruct (cancelled i); [done|].
  destruct (time_After (time_Add (clock i) (20 * Millisecond)) deadline) eqn:T; [done|].
  unfold time_After, time_Add in T. zbool. specialize (Hs i).
  destruct fuel as [|fuel]; [unfold Millisecond in *; lia|].
  apply IH; [lia|]. unfold Millisecond in *. lia.
Qed.

(** C39: The rate-limit filter always returns: a policy that may wait [MaxWaitMs] retries
    at most [MaxWaitMs / 20 + 2] times, because each retry sleeps 20 ms. *)
Theorem rate_limit_filter_terminates {S : Type} `{StateStore S} (L : LimLibs) (s : S) (g : GatewayContext)
  (p : Policy) (M : Z) (clock : nat -> nat -> Time) (cancelled : nat -> nat -> option goerror)
  (Hp : gPolicy g = Some p) (HM : 0 <= M <= 1000000000000)
  (Hwait : Forall (fun lp => match lp with Some lp => lp_MaxWaitMs lp <= M | None => True end) (p_LimitPolicies p))
  (Hclock : forall k, sleeps (clock k)) :
  RateLimitFilter_OnRequest L (Z.to_nat (M / 20 + 2)) clock cancelled s g <> None.
Proof.
  unfold RateLimitFilter_OnRequest. rewrite Hp. generalize 0%nat. clear Hp. revert s g.
  induction Hwait as [|[lp|] lps Hlp Hwait IH]; intros s g k; cbn [OnRequest_loop]; [done| |done].
  assert (limit_one L (Z.to_nat (M / 20 + 2)) (clock k) (cancelled k) lp s g <> None) as N.
  { unfold limit_one. destruct (_ && _); [done|]. destruct (negb _); [done|]. destruct (_ && _); [done|].
    destruct (executor_Get _) as [x|]; [|done]. destruct (0 <? lp_MaxWaitMs lp) eqn:W.
    - set (g1 := if _ && _ then _ else _). clearbody g1. zbool.
      match goal with |- match ?r with _ => _ end <> None => assert (r <> None) as R end.
      { pose proof (Z.div_pos M 20 ltac:(lia) ltac:(lia)). apply wait_loop_ends; [done|lia|].
        rewrite Z2Nat.id by lia.
        unfold time_Add, duration_mul. rewrite wrap64_small by (unfold in_int64, min_int64, max_int64, Millisecond; lia).
        pose proof (Z.div_mod M 20 ltac:(lia)). pose proof (Z.mod_pos_bound M 20 ltac:(lia)).
        unfold Millisecond in *. nia. }
      by destruct (wait_loop _ _ _ _ _ _ _ _ _ _) as [[[s1 g2] [e|]]|].
    - by destruct (Execute _ _ _ _ _ _ _) as [[s1 g2] [e|]]. }
  destruct (limit_one _ _ _ _ _ _ _) as [[[s1 g1] [e|]]|]; [done|apply IH|done].
Qed.

Lemma rate_limit_filter_terminates_witness :
  let lp := mkLimitPolicy "p" "" 1 "request" [mkSlidingWindow 0 1000 None] 50 "" [] None [] in
  let g := demo_user <| gPolicy := Some (emptyPolicy <| p_LimitPolicies := [Some lp] |>) |> in
  RateLimitFilter_OnRequest demo_limits (Z.to_nat (50 / 20 + 2)) (fun k i => 1 + Z.of_nat i * 20000000)
    (fun _ _ => None) NewMemoryStateStore g <> None.
Proof.
  intros lp g.
  apply (rate_limit_filter_terminates demo_limits NewMemoryStateStore g
    (emptyPolicy <| p_LimitPolicies := [Some lp] |>) 50).
  - reflexivity.
  - lia.
  - repeat constructor. cbn. lia.
  - intros k i. unfold Millisecond. lia.
Defined.

(** When a later policy rejects a request, the charges of the policies before it
    stay: the filter returns the error without refunding them, although the
    executors have a [Refund] for exactly that. *)
Theorem filter_rejection_keeps_earlier_charges :
  let open := demo_limit "a" [mkSlidingWindow 10 1000 None] in
  let closed := demo_limit "b" [mkSlidingWindow 0 1000 None] in
  let g := demo_user <| gPolicy := Some (emptyPolicy <| p_LimitPolicies := [Some open; Some closed] |>) |> in
  match RateLimitFilter_OnRequest demo_limits 1 (fun _ _ => 5) (fun _ _ => None) NewMemoryStateStore g with
  | Some (Ret (s, _, Some (HTTPError 429 _ _ _))) => mem_usage s "u:m:a:1s" 5 = 1 /\ mem_usage s "u:m:b:1s" 5 = 0
  | _ => False
  end.
Proof. vm_compute. auto. Qed.
