(* ===== verification/Settlement.v ===== *)
(** pkg/filters/outbound/token_settlement.go: prices, the split of prompt tokens, the
    actual cost, the credit deduction, and the settlement of the pre-charged limits
    against the actual usage. *)

From S2P Require Import Prelude GoFloat GoStrings Matcher Policy Types Context Store Limiter.

(** * Prices and cost *)

Record prices := mkPrices { pr_input : float64; pr_output : float64; pr_cached : float64; pr_creation : float64 }.

Definition billing_prices (b : option BillingPolicy) : prices :=
  match b with
  | None => mkPrices (of_int 2) (of_int 2) (of_int 2) (of_int 2)
  | Some b =>
      mkPrices (b_InputPrice b) (b_OutputPrice b)
        (if flt fzero (b_CachedPrice b) then b_CachedPrice b else b_InputPrice b)
        (if flt fzero (b_CacheCreationPrice b) then b_CacheCreationPrice b else b_InputPrice b)
  end.

Definition resolvePrices (g : GatewayContext) : prices :=
  let p := billing_prices (gPolicy g ≫= p_Billing) in
  match SelectedEndpoint g with
  | None => p
  | Some e =>
      mkPrices (default (pr_input p) (ep_InputPrice e)) (default (pr_output p) (ep_OutputPrice e))
        (default (pr_cached p) (ep_CachedPrice e)) (default (pr_creation p) (ep_CacheCreationPrice e))
  end.

(** Clamp the cache tokens to the input; returns (cached, creation, rest). *)
Definition clamp_tokens (input cached creation : Z) : Z * Z * Z :=
  let cached := if cached <? 0 then 0 else cached in
  let creation := if creation <? 0 then 0 else creation in
  let '(cached, creation) :=
    if input <? wrap64 (cached + creation) then
      let cached := if input <? cached then input else cached in
      let creation := wrap64 (input - cached) in
      (cached, if creation <? 0 then 0 else creation)
    else (cached, creation) in
  (cached, creation, wrap64 (wrap64 (input - cached) - creation)).

Definition clampAndSplitTokens (g : GatewayContext) : Z * Z * Z * Z :=
  (clamp_tokens (InputTokens g) (CachedTokens g) (CacheCreationTokens g), OutputTokens g).

(** [a*pa + b*pb + c*pc + d*pd], added left to right. *)
Definition weigh (rest cached creation output : Z) (p : prices) : float64 :=
  fadd (fadd (fadd (fmul (of_int rest) (pr_input p)) (fmul (of_int cached) (pr_cached p)))
          (fmul (of_int creation) (pr_creation p)))
    (fmul (of_int output) (pr_output p)).

(** CNY. *)
Definition computeActualCost (g : GatewayContext) (p : prices) : float64 :=
  let '(cached, creation, rest, output) := clampAndSplitTokens g in
  fdiv (weigh rest cached creation output p) (of_int 1000000).

(** [settleUsage]: success, or a client that went away. *)
Definition settle_usage (g : GatewayContext) : bool :=
  match Err g with None => true | Some _ => errors_Is (Err g) ErrClientDisconnected end.

Section settlement.
Context {S : Type} `{StateStore S} (L : LimLibs).

(** * Reservations (smart calls) *)

(** The adjustment of one counter by [diff]. *)
Definition settle_counter (s : S) (key : string) (diff : Z) (window : Duration) (now : Time) :
  S * option goerror :=
  if diff <? 0 then RateLimitRefund s key (wrap64 (- diff))
  else let '(s, (_, err)) := RateLimitIncr s key diff window now in (s, err).

(** The actual usage of a call for a limit type; nothing for a failed call. *)
Definition actual_usage (g : GatewayContext) (limitType : string) : Z :=
  if settle_usage g then
    if seqb limitType "token" then wrap64 (InputTokens g + OutputTokens g)
    else to_int64 (fmul (computeActualCost g (resolvePrices g)) (of_int 1000))
  else 0.

Definition settle_reservation (g : GatewayContext) (s : S) (r : LimitReservation) (now : Time) :
  S * option goerror :=
  let diff := wrap64 (actual_usage g (lr_Type r) - lr_Estimated r) in
  if diff =? 0 then (s, None)
  else if lr_Burst r then
    let '(s, (_, err)) := RateLimitAdjust s (lr_Key r) diff (lr_Rate r) (lr_Capacity r) (lr_Window r) now in
    (s, err)
  else settle_counter s (lr_Key r) diff (lr_Window r) now.

(** The loop over the reservations: settled ones are skipped, an error ends it. *)
Fixpoint settle_all (g : GatewayContext) (rs : list LimitReservation) (now : Time) (s : S) :
  S * list LimitReservation * option goerror :=
  match rs with
  | [] => (s, [], None)
  | r :: rest =>
      if lr_Settled r then
        let '(s, rest, err) := settle_all g rest now s in (s, r :: rest, err)
      else
        match settle_reservation g s r now with
        | (s, Some e) => (s, r :: rest, Some e)
        | (s, None) =>
            let '(s, rest, err) := settle_all g rest now s in (s, r <| lr_Settled := true |> :: rest, err)
        end
  end.

Definition SettleLimits (s : S) (g : GatewayContext) (now : Time) : S * GatewayContext * option goerror :=
  let '(s, rs, err) := settle_all g (LimitReservations g) now s in
  (s, g <| LimitReservations := rs |>, err).

(** * Ordinary calls *)

(** The pre-charge as settlement recomputes it, and the difference to the actual usage. *)
Definition settlement_diff (s : S) (g : GatewayContext) (lp : LimitPolicy) : S * Z :=
  let p := resolvePrices g in
  let input := EstimateInputTokens L g (Some lp) in
  let '(s, out) := EstimateOutputTokens s (Tenant g) (UserID g) (Model g) in
  if seqb (lp_Type lp) "token" then
    (s, wrap64 (wrap64 (InputTokens g + OutputTokens g) - wrap64 (input + out)))
  else
    let '(cached, creation, rest) := clamp_tokens input (CachedTokens g) (CacheCreationTokens g) in
    let estimated := to_int64 (fdiv (weigh rest cached creation out p) (of_int 1000)) in
    let actual := to_int64 (fmul (computeActualCost g p) (of_int 1000)) in
    (s, wrap64 (actual - estimated)).

Fixpoint settle_windows (key : string) (diff : Z) (ws : list SlidingWindow) (now : Time) (s : S) :
  S * option goerror :=
  match ws with
  | [] => (s, None)
  | sw :: rest =>
      match settle_counter s (window_key key sw) diff (window_of sw) now with
      | (s, Some e) => (s, Some e)
      | (s, None) => settle_windows key diff rest now s
      end
  end.

Definition settle_policy (g : GatewayContext) (lp : LimitPolicy) (now : Time) (s : S) : S * option goerror :=
  if negb (seqb (lp_Type lp) "token") && negb (seqb (lp_Type lp) "cost") then (s, None)
  else if negb (MatchLimitPolicyConditions g lp) then (s, None)
  else
    let '(s, diff) := settlement_diff s g lp in
    if diff =? 0 then (s, None)
    else settle_windows (GetLimitKey g lp) diff (lp_SlidingWindows lp) now s.

Fixpoint settle_policies (g : GatewayContext) (lps : list (option LimitPolicy)) (now : Time) (s : S) :
  go (S * option goerror) :=
  match lps with
  | [] => Ret (s, None)
  | None :: _ => Panic
  | Some lp :: rest =>
      match settle_policy g lp now s with
      | (s, Some e) => Ret (s, Some e)
      | (s, None) => settle_policies g rest now s
      end
  end.

(** * The filter *)

(** The estimator ratio used when a stream was cut: the first [length_ratio] one. A
    nil limit policy before it is dereferenced. *)
Fixpoint abort_ratio (lps : list (option LimitPolicy)) : go float64 :=
  match lps with
  | [] => Ret (fdiv (of_int 6) (of_int 10))
  | None :: _ => Panic
  | Some lp :: rest =>
      match lp_Estimator lp with
      | Some e => if seqb (ec_Type e) "length_ratio" && flt fzero (ec_Ratio e) then Ret (ec_Ratio e)
                  else abort_ratio rest
      | None => abort_ratio rest
      end
  end.

(** The first token or cost policy estimates the input of a cut stream. *)
Fixpoint abort_input (g : GatewayContext) (lps : list (option LimitPolicy)) : go Z :=
  match lps with
  | [] => Ret 0
  | None :: _ => Panic
  | Some lp :: rest =>
      if seqb (lp_Type lp) "token" || seqb (lp_Type lp) "cost"
      then Ret (EstimateInputTokens L g (Some lp)) else abort_input g rest
  end.

Definition set_tag (g : GatewayContext) (k v : string) : GatewayContext :=
  g <| Tags := Some (<[k := v]> (default ∅ (Tags g))) |>.

(** A stream that ended without usage: estimate from the transmitted characters. *)
Definition estimate_abort (g : GatewayContext) : go GatewayContext :=
  if IsStream g && (OutputTokens g =? 0) && (0 <? TransmittedChars g) then
    let lps := match gPolicy g with Some p => p_LimitPolicies p | None => [] end in
    match abort_ratio lps with
    | Panic => Panic
    | Ret ratio =>
        let out := to_int64 (fmul (of_int (TransmittedChars g)) ratio) in
        let g := g <| OutputTokens := if out <=? 0 then 1 else out |> in
        let g := set_tag g "completion_token_estimated" "true" in
        if (InputTokens g =? 0) && (0 <? body_len g) then
          match abort_input g lps with
          | Panic => Panic
          | Ret est =>
              let est := if est <=? 0 then EstimateInputTokens L g None else est in
              Ret (if 0 <? est then set_tag (g <| InputTokens := est |>) "input_token_estimated" "true" else g)
          end
        else Ret g
    end
  else Ret g.

(** The EMA update, a separate goroutine in the code, run at this point. *)
Definition update_emas (s : S) (g : GatewayContext) : S :=
  if 0 <? OutputTokens g then
    let tenantKey := if is_empty (Tenant g) then UserID g else Tenant g in
    let alpha := fdiv (of_int 1) (of_int 10) in
    let s := if is_empty tenantKey then s
             else fst (UpdateEMA s ("tenant:" +:+ tenantKey +:+ ":" +:+ Model g) (OutputTokens g) alpha) in
    fst (UpdateEMA s ("model:global:" +:+ Model g) (OutputTokens g) alpha)
  else s.

Definition credits_due (g : GatewayContext) : Z :=
  to_int64 (fadd (fmul (computeActualCost g (resolvePrices g)) (of_int 1000000)) (fdiv (of_int 1) (of_int 2))).

(** [deduct]: the credits service, where one is configured; [None] is success. A failed
    deduction is logged (where there is a logger) with [gctx.APIKey[:8]]. *)
Definition TokenSettlement_OnResponse (logger : bool) (deduct : option (string -> Z -> option goerror)) (s : S)
  (g : GatewayContext) (now : Time) : go (S * GatewayContext * option goerror) :=
  let p := resolvePrices g in
  let usage := settle_usage g in
  let credit_err :=
    match deduct with
    | Some d =>
        if negb (is_empty (UserID g)) && usage && (0 <? credits_due g) then d (APIKey g) (credits_due g) else None
    | None => None
    end in
  match credit_err with
  | Some e => if logger && (String.length (APIKey g) <? 8)%nat then Panic else Ret (s, g, Some e)
  | None =>
      match estimate_abort g with
      | Panic => Panic
      | Ret g =>
          let s := update_emas s g in
          let g := if usage then g <| Cost := computeActualCost g p |> else g in
          if TrackLimitReservations g then Ret (SettleLimits s g now)
          else
            match gPolicy g with
            | None => Ret (s, g, None)
            | Some pol =>
                match settle_policies g (p_LimitPolicies pol) now s with
                | Panic => Panic
                | Ret (s, err) => Ret (s, g, err)
                end
            end
      end
  end.
End settlement.

(** * Theorems *)

Lemma clamp_zero z : (if z <? 0 then 0 else z) = Z.max 0 z.
Proof. destruct (z <? 0) eqn:E; zbool; lia. Qed.
Lemma clamp_min a b : (if b <? a then b else a) = Z.min a b.
Proof. destruct (b <? a) eqn:E; zbool; lia. Qed.

(** The billing split is a partition: for a non-negative prompt, cached, cache-creation
    and full-price tokens are non-negative and add up to the prompt tokens, so no
    token is billed twice and none is lost. *)
Theorem split_tokens_partition (g : GatewayContext)
  (Hin : 0 <= InputTokens g <= max_int64)
  (Hcache : in_int64 (CachedTokens g) /\ in_int64 (CacheCreationTokens g))
  (Hsum : Z.max 0 (CachedTokens g) + Z.max 0 (CacheCreationTokens g) <= max_int64) :
  let '(cached, creation, rest, output) := clampAndSplitTokens g in
  0 <= cached /\ 0 <= creation /\ 0 <= rest /\ cached + creation + rest = InputTokens g /\
  cached <= Z.max 0 (CachedTokens g) /\ creation <= Z.max 0 (CacheCreationTokens g) /\
  (cached = Z.max 0 (CachedTokens g) \/ cached = InputTokens g).
Proof.
  unfold clampAndSplitTokens, clamp_tokens, in_int64, min_int64 in *.
  rewrite !clamp_zero. pose proof (Z.le_max_l 0 (CachedTokens g)) as Hc.
  pose proof (Z.le_max_l 0 (CacheCreationTokens g)) as Hk. destruct Hcache as [[_ H1] [_ H2]].
  set (c := Z.max 0 (CachedTokens g)) in *. set (k := Z.max 0 (CacheCreationTokens g)) in *.
  clearbody c k.
  rewrite (wrap64_small (c + k)) by (unfold in_int64, min_int64; lia).
  destruct (InputTokens g <? c + k) eqn:E; zbool.
  - rewrite clamp_min. assert (exists c', c' = Z.min c (InputTokens g)) as [c' Ec'] by eauto. rewrite <- Ec'.
    rewrite (wrap64_small (InputTokens g - c')) by (unfold in_int64, min_int64; lia).
    destruct (InputTokens g - c' <? 0) eqn:E3; zbool; [lia|].
    rewrite wrap64_small by (unfold in_int64, min_int64; lia). lia.
  - rewrite (wrap64_small (InputTokens g - c)), (wrap64_small (InputTokens g - c - k))
      by (unfold in_int64, min_int64; lia). lia.
Qed.

Lemma split_tokens_partition_witness :
  let g := emptyContext <| InputTokens := 100 |> <| CachedTokens := 70 |> <| CacheCreationTokens := 50 |> in
  let '(cached, creation, rest, output) := clampAndSplitTokens g in cached + creation + rest = 100.
Proof.
  intros g. pose proof (split_tokens_partition g) as P.
  destruct (clampAndSplitTokens g) as [[[c k] r] o]. apply P; cbn; unfold in_int64, min_int64, max_int64; lia.
Defined.






(** A tracked request with an estimate of 210 tokens that really used 42. *)
Definition demo_tracked : GatewayContext :=
  demo_user <| TrackLimitReservations := true |> <| RawBody := "0123456789012345678901234567890123456789" |>.
Definition demo_token_limit : LimitPolicy :=
  mkLimitPolicy "t" "" 1 "token" [mkSlidingWindow 1000 60000 None] 0 "" [] None [].
Definition demo_precharged : MemoryStateStore * GatewayContext * option limit_error :=
  Eval vm_compute in Execute demo_limits TokenLimitExecutor NewMemoryStateStore demo_tracked demo_token_limit
                       (fun _ => 5) 5.



(** When the window was reset in between, the estimate is no longer in it, and the refund of a failed call takes away what others used of the new one. *)
Lemma late_refund_takes_others :
  let s1 := fst (fst demo_precharged) in
  let s := fst (RateLimitIncr s1 "u:m:t:1m0s" 100 (60000 * Millisecond) (70 * Second)) in
  let failed := (snd (fst demo_precharged)) <| Err := Some (errorf "bad gateway") |> in
  usage s "u:m:t:1m0s" (70 * Second) = 100 /\ usage (fst (fst (SettleLimits s failed (70 * Second)))) "u:m:t:1m0s" (70 * Second) = 0.
Proof. vm_compute. auto. Qed.

(** ** What the settlement of untracked calls misses *)

Lemma settle_counter_buckets (s : MemoryStateStore) key diff w now :
  tokenBuckets (fst (settle_counter s key diff w now)) = tokenBuckets s.
Proof. unfold settle_counter. by destruct (diff <? 0). Qed.

Lemma settle_windows_buckets key diff ws now : forall s : MemoryStateStore,
  tokenBuckets (fst (settle_windows key diff ws now s)) = tokenBuckets s.
Proof.
  induction ws as [|sw ws IH]; intros s; cbn [settle_windows]; [done|].
  pose proof (settle_counter_buckets s (window_key key sw) diff (window_of sw) now) as E.
  destruct (settle_counter s _ _ _ _) as [s1 [e|]]; [done|]. cbn [fst] in E. by rewrite IH.
Qed.

(** Settlement of an untracked call never touches a token bucket. A burst window is
    pre-charged from its bucket, but the difference between estimate and actual is
    booked on a plain counter of the same key, which no admission reads: an
    over-estimate of a burst window is never returned to it. *)
Theorem untracked_settlement_skips_buckets (L : LimLibs) (g : GatewayContext) (lps : list (option LimitPolicy))
  (now : Time) (s s' : MemoryStateStore) (err : option goerror)
  (Hsettle : settle_policies L g lps now s = Ret (s', err)) :
  tokenBuckets s' = tokenBuckets s.
Proof.
  revert s Hsettle. induction lps as [|[lp|] lps IH]; intros s Hs; cbn [settle_policies] in Hs; simplify_eq; [done|].
  assert (tokenBuckets (fst (settle_policy L g lp now s)) = tokenBuckets s) as E.
  { unfold settle_policy. destruct (_ && _); [done|]. destruct (negb _); [done|].
    assert (fst (settlement_diff L s g lp) = s) as E.
    { unfold settlement_diff, EstimateOutputTokens. cbn.
      destruct (seqb (lp_Type lp) "token"), (is_empty _); cbn; repeat split_match; reflexivity. }
    destruct (settlement_diff L s g lp) as [s1 d]. cbn [fst] in E. subst s1.
    destruct (d =? 0); [done|]. apply settle_windows_buckets. }
  destruct (settle_policy L g lp now s) as [s1 [e|]]; simplify_eq; [done|]. cbn [fst] in E.
  by rewrite (IH s1).
Qed.

(** Half of the bucket of a burst token limit is pre-charged; the call fails and the
    settlement leaves the bucket as it is. *)
Definition demo_burst_limit : LimitPolicy :=
  mkLimitPolicy "t" "" 1 "token" [mkSlidingWindow 420 60000 (Some (of_int 1))] 0 "" [] None [].

Lemma untracked_settlement_skips_buckets_witness :
  let g := demo_tracked <| TrackLimitReservations := false |> in
  let s := fst (fst (Execute demo_limits TokenLimitExecutor NewMemoryStateStore g demo_burst_limit (fun _ => 5) 5)) in
  (tb_tokens <$> tokenBuckets s !! "u:m:t:1m0s") = Some (of_int 210) /\
  match settle_policies demo_limits g [Some demo_burst_limit] 6 s with
  | Ret (s', _) => tokenBuckets s' = tokenBuckets s
  | Panic => False
  end.
Proof.
  intros g s. split; [vm_compute; reflexivity|].
  pose proof (untracked_settlement_skips_buckets demo_limits g [Some demo_burst_limit] 6 s) as T.
  destruct (settle_policies demo_limits g [Some demo_burst_limit] 6 s) as [[s' err]|] eqn:E.
  - exact (T s' err eq_refl).
  - vm_compute in E. discriminate.
Defined.

(** Without a billing policy the pre-charge and its settlement use different default
    prices (3 and 10 CNY per million tokens against 2 and 2): a call whose real
    tokens equal the estimate ends at 5 li in its cost window although its actual
    cost is 2 li. *)
Theorem default_price_drift :
  let lp := mkLimitPolicy "c" "" 1 "cost" [mkSlidingWindow 1000 60000 None] 0 "" [] (Some (mkEstimatorConfig "length_ratio" (of_int 100))) [] in
  let g := demo_user <| RawBody := "0123456789" |> <| gPolicy := Some (emptyPolicy <| p_LimitPolicies := [Some lp] |>) |> in
  let '(s, g, _) := Execute demo_limits CostLimitExecutor NewMemoryStateStore g lp (fun _ => 5) 5 in
  let g := g <| InputTokens := 1000 |> <| OutputTokens := 200 |> in
  to_int64 (fmul (computeActualCost g (resolvePrices g)) (of_int 1000)) = 2 /\
  match TokenSettlement_OnResponse demo_limits true None s g 6 with
  | Ret (s', _, None) => mem_usage s' "u:m:c:1m0s" 6 = 5
  | _ => False
  end.
Proof. vm_compute. auto. Qed.

(** The settlement of an untracked call recomputes the estimate from the current
    moving average instead of the amount that was pre-charged: here the average moves
    from its default 200 to the call's own 50 output tokens, the difference comes out
    as zero, and the window keeps 202 tokens for a call that used 52. *)
Theorem moving_average_drift :
  let lp := mkLimitPolicy "t" "" 1 "token" [mkSlidingWindow 1000 60000 None] 0 "" [] None [] in
  let g := demo_user <| RawBody := "01234567" |> <| gPolicy := Some (emptyPolicy <| p_LimitPolicies := [Some lp] |>) |> in
  let '(s, g, _) := Execute demo_limits TokenLimitExecutor NewMemoryStateStore g lp (fun _ => 5) 5 in
  let g := g <| InputTokens := 2 |> <| OutputTokens := 50 |> in
  match TokenSettlement_OnResponse demo_limits true None s g 6 with
  | Ret (s', _, None) => mem_usage s' "u:m:t:1m0s" 6 = 202
  | _ => False
  end.
Proof. vm_compute. auto. Qed.
