(* ===== verification/Sse.v ===== *)
(** pkg/llm/sse_parser.go, token_extractors.go, sse_intercept_writer.go,
    passthrough_stream.go, pkg/llm/providers/sse_writer.go and
    pkg/llm/upstream/bounded_body.go: server-sent events in the byte stream between
    upstream and client, and the usage the gateway reads out of them.

    Byte streams are lists of bytes; the data of an event is a string. *)

From Stdlib Require Import Ascii.
From S2P Require Import Prelude GoFloat GoStrings GoJson Matcher Policy Types Context.
From S2P Require Import Store Limiter Settlement.

Abbreviation bytes := (list ascii) (only parsing).

Definition LF : ascii := byte_of 10.
Definition CR : ascii := byte_of 13.

(** * Token extraction (token_extractors.go) *)

(** Input, output, cached and cache-creation tokens. *)
Definition usage4 : Type := (Z * Z * Z * Z)%type.

Definition ApplyUsage (g : GatewayContext) (u : usage4) : GatewayContext :=
  let '(input, output, cached, created) := u in
  let g := if 0 <? input then g <| InputTokens := input |> else g in
  let g := if 0 <? output then g <| OutputTokens := output |> else g in
  let g := if 0 <? cached then g <| CachedTokens := cached |> else g in
  if 0 <? created then g <| CacheCreationTokens := created |> else g.

Record openai_usage := mkOpenAIUsage {
  ou_prompt : Z; ou_completion : Z; ou_details : option Z
}.
#[global] Instance eta_openai_usage : Eta openai_usage := fun u =>
  mkOpenAIUsage (ou_prompt u) (ou_completion u) (ou_details u).

Definition dec_openai_usage : decoder openai_usage :=
  dec_struct [("prompt_tokens", dec_field ou_prompt dec_int);
              ("completion_tokens", dec_field ou_completion dec_int);
              ("prompt_tokens_details", dec_field ou_details (dec_ptr 0 (dec_struct [("cached_tokens", dec_int)])))].

Definition OpenAITokenExtractor (data : string) : usage4 :=
  let zero := mkOpenAIUsage 0 0 None in
  match Unmarshal (dec_struct [("usage", dec_ptr zero dec_openai_usage)]) None data with
  | Some (Some u) => (ou_prompt u, ou_completion u, default 0 (ou_details u), 0)
  | _ => (0, 0, 0, 0)
  end.

Record anthropic_usage := mkAnthropicUsage {
  au_input : Z; au_output : Z; au_creation : Z; au_read : Z
}.
#[global] Instance eta_anthropic_usage : Eta anthropic_usage := fun u =>
  mkAnthropicUsage (au_input u) (au_output u) (au_creation u) (au_read u).

Definition zero_anthropic_usage : anthropic_usage := mkAnthropicUsage 0 0 0 0.

Definition dec_anthropic_usage : decoder (option anthropic_usage) :=
  dec_ptr zero_anthropic_usage
    (dec_struct [("input_tokens", dec_field au_input dec_int);
                 ("output_tokens", dec_field au_output dec_int);
                 ("cache_creation_input_tokens", dec_field au_creation dec_int);
                 ("cache_read_input_tokens", dec_field au_read dec_int)]).

Record anthropic_event := mkAnthropicEvent {
  ae_type : string;
  ae_message : option (option anthropic_usage);
  ae_usage : option anthropic_usage
}.
#[global] Instance eta_anthropic_event : Eta anthropic_event := fun e =>
  mkAnthropicEvent (ae_type e) (ae_message e) (ae_usage e).

Definition dec_anthropic_event : decoder anthropic_event :=
  dec_struct [("type", dec_field ae_type dec_string);
              ("message", dec_field ae_message (dec_ptr None (dec_struct [("usage", dec_anthropic_usage)])));
              ("usage", dec_field ae_usage dec_anthropic_usage)].

(** Input including cache reads and cache creation. *)
Definition total_input (u : anthropic_usage) : Z := wrap64 (wrap64 (au_input u + au_read u) + au_creation u).

Definition anthropic_counts (e : anthropic_event) : usage4 :=
  if seqb (ae_type e) "message_start" then
    match ae_message e with
    | Some (Some u) => (total_input u, 0, au_read u, au_creation u)
    | _ => (0, 0, 0, 0)
    end
  else if seqb (ae_type e) "message_delta" then
    match ae_usage e with
    | Some u =>
        (if (0 <? au_input u) || (0 <? au_read u) || (0 <? au_creation u) then total_input u else 0,
         au_output u, au_read u, au_creation u)
    | None => (0, 0, 0, 0)
    end
  else
    match ae_usage e with
    | Some u => (total_input u, au_output u, au_read u, au_creation u)
    | None => (0, 0, 0, 0)
    end.

Definition AnthropicTokenExtractor (data : string) : usage4 :=
  match Unmarshal dec_anthropic_event (mkAnthropicEvent "" None None) data with
  | Some e => anthropic_counts e
  | None => (0, 0, 0, 0)
  end.

Record responses_usage := mkResponsesUsage {
  ru_input : Z; ru_output : Z; ru_details : option Z
}.
#[global] Instance eta_responses_usage : Eta responses_usage := fun u =>
  mkResponsesUsage (ru_input u) (ru_output u) (ru_details u).

Definition dec_responses_usage : decoder (option responses_usage) :=
  dec_ptr (mkResponsesUsage 0 0 None)
    (dec_struct [("input_tokens", dec_field ru_input dec_int);
                 ("output_tokens", dec_field ru_output dec_int);
                 ("input_tokens_details", dec_field ru_details (dec_ptr 0 (dec_struct [("cached_tokens", dec_int)])))]).

(** The payload: top-level usage, and the usage of the nested response. *)
Definition dec_responses_payload : decoder (option responses_usage * option (option responses_usage)) :=
  dec_struct [("usage", fun j p => (fun u => (u, snd p)) <$> dec_responses_usage j (fst p));
              ("response", fun j p => (fun r => (fst p, r)) <$>
                 dec_ptr None (dec_struct [("usage", dec_responses_usage)]) j (snd p))].

Definition ResponsesTokenExtractor (data : string) : usage4 :=
  match Unmarshal dec_responses_payload (None, None) data with
  | None => (0, 0, 0, 0)
  | Some (top, nested) =>
      match (match top with Some u => Some u | None => default None nested end) with
      | None => (0, 0, 0, 0)
      | Some u => (ru_input u, ru_output u, default 0 (ru_details u), 0)
      end
  end.

Definition dec_gemini_usage : decoder (option (Z * Z)) :=
  dec_ptr (0, 0)
    (dec_struct [("promptTokenCount", fun j u => (fun p => (p, snd u)) <$> dec_int j (fst u));
                 ("candidatesTokenCount", fun j u => (fun c => (fst u, c)) <$> dec_int j (snd u))]).

Definition GeminiTokenExtractor (data : string) : usage4 :=
  match Unmarshal (dec_struct [("usageMetadata", dec_gemini_usage)]) None data with
  | Some (Some (p, c)) => (p, c, 0, 0)
  | _ => (0, 0, 0, 0)
  end.

Definition text_length (s : string) : Z := Z.of_nat (String.length s).

Definition ExtractContentLength (protocol data : string) : Z :=
  if is_empty data || seqb data "[DONE]" then 0
  else if seqb protocol "anthropic" then
    match Unmarshal (dec_struct [("delta", dec_ptr "" (dec_struct [("text", dec_string)]))]) None data with
    | Some (Some text) => text_length text
    | _ => 0
    end
  else if seqb protocol "gemini" then
    let part := dec_struct [("text", dec_string)] in
    let content := dec_struct [("parts", dec_slice "" part)] in
    let candidate := dec_struct [("content", content)] in
    match Unmarshal (dec_struct [("candidates", dec_slice [] candidate)]) [] data with
    | Some cs => fold_left (fun t texts => fold_left (fun t x => wrap64 (t + text_length x)) texts t) cs 0
    | None => 0
    end
  else
    let delta := dec_struct [("content", dec_string)] in
    let choice := dec_struct [("delta", delta)] in
    match Unmarshal (dec_struct [("choices", dec_slice "" choice)]) [] data with
    | Some (c :: _) => text_length c
    | _ => 0
    end.

(** * Parser (sse_parser.go) *)

Record SSEEvent := mkEvent { ev_Data : string; ev_Done : bool; ev_usage : usage4 }.

Record SSEParser := mkParser { buf : bytes; skipLeadingLF : bool }.

Definition NewSSEParser : SSEParser := mkParser [] false.

(** [strings.ReplaceAll(s, "\r\n", "\n")]. *)
Fixpoint replace_crlf (l : bytes) : bytes :=
  match l with
  | [] => []
  | c :: r =>
      match r with
      | d :: r' => if bool_decide (c = CR) && bool_decide (d = LF) then LF :: replace_crlf r' else c :: replace_crlf r
      | [] => [c]
      end
  end.

(** [strings.ReplaceAll(s, "\r", "\n")]. *)
Definition replace_cr (l : bytes) : bytes := map (fun c => if bool_decide (c = CR) then LF else c) l.

Definition normalize (l : bytes) : bytes := replace_cr (replace_crlf l).

(** [strings.Index(s, "\n\n")]: the text before and after the first empty line. *)
Fixpoint cut_block (l : bytes) : option (bytes * bytes) :=
  match l with
  | [] => None
  | c :: r =>
      match (if bool_decide (c = LF) then match r with d :: r' => if bool_decide (d = LF) then Some r' else None | [] => None end
             else None) with
      | Some r' => Some ([], r')
      | None => match cut_block r with Some (p, q) => Some (c :: p, q) | None => None end
      end
  end.

(** The loop over complete blocks: the blocks and the incomplete rest. *)
Fixpoint cut_blocks (fuel : nat) (l : bytes) : list bytes * bytes :=
  match fuel with
  | O => ([], l)
  | S fuel =>
      match cut_block l with
      | None => ([], l)
      | Some (p, q) => let '(bs, rest) := cut_blocks fuel q in (p :: bs, rest)
      end
  end.

(** [strings.TrimPrefix] and [strings.TrimSuffix]. *)
Definition TrimPrefix (s p : string) : string := if HasPrefix s p then string_drop (String.length p) s else s.
Definition TrimSuffix (s p : string) : string :=
  if HasSuffix s p then string_take (String.length s - String.length p) s else s.

(** The data lines of a block. *)
Definition data_line (line : string) : option string :=
  let line := TrimSuffix line (String CR "") in
  if is_empty line then None
  else if HasPrefix line "data:" then Some (TrimPrefix (TrimPrefix line "data:") " ") else None.

Definition parseBlock (block : bytes) : option SSEEvent :=
  match omap data_line (SplitByte (string_of block) LF) with
  | [] => None
  | lines =>
      let data := Join lines (String LF "") in
      if seqb (TrimSpace data) "[DONE]" then Some (mkEvent data true (0, 0, 0, 0))
      else Some (mkEvent data false (OpenAITokenExtractor data))
  end.

(** The part of [Feed] before the buffer: a line feed that completes a split CRLF is
    dropped. *)
Definition strip_lf (skip : bool) (data : bytes) : bytes :=
  match data with
  | c :: r => if skip && bool_decide (c = LF) then r else data
  | [] => []
  end.

Definition ends_with_cr (data : bytes) : bool := bool_decide (last data = Some CR).

Definition Feed (p : SSEParser) (data : bytes) : SSEParser * list SSEEvent :=
  let stripped := strip_lf (skipLeadingLF p) data in
  let skip := match data with [] => skipLeadingLF p | _ => ends_with_cr stripped end in
  let text := buf p ++ normalize stripped in
  let '(blocks, rest) := cut_blocks (length text) text in
  (mkParser rest skip, omap parseBlock blocks).

(** Several feeds. *)
Fixpoint feed_all (p : SSEParser) (chunks : list bytes) : SSEParser * list SSEEvent :=
  match chunks with
  | [] => (p, [])
  | c :: r => let '(p, evs) := Feed p c in let '(p, evs') := feed_all p r in (p, evs ++ evs')
  end.

(** * Frames the gateway writes (sse_writer.go) *)

Definition writeSSEEvent (event data : string) : bytes :=
  ascii_list ("event: " +:+ event) ++ [LF] ++ ascii_list ("data: " +:+ data) ++ [LF; LF].
Definition writeSSEData (data : string) : bytes := ascii_list ("data: " +:+ data) ++ [LF; LF].

(** * Intercepting writer (sse_intercept_writer.go) *)

Definition isAnthropicMessageStop (data : string) : bool :=
  let data := TrimSpace data in
  if is_empty data || seqb data "[DONE]" then false
  else if negb (Contains data "message_stop") then false
  else match Unmarshal (dec_struct [("type", dec_string)]) "" data with
       | Some t => seqb t "message_stop"
       | None => false
       end.

Record SSEInterceptWriter := mkWriter {
  iw_parser : SSEParser;
  iw_firstByte : bool;
  iw_extractor : option (string -> usage4)
}.

Definition NewSSEInterceptWriter (extractor : option (string -> usage4)) : SSEInterceptWriter :=
  mkWriter NewSSEParser false extractor.

Definition mark_first_byte (w : SSEInterceptWriter) (g : GatewayContext) (now : Time) :
  SSEInterceptWriter * GatewayContext :=
  if iw_firstByte w then (w, g)
  else (mkWriter (iw_parser w) true (iw_extractor w), TriggerFirstByte g now).

Definition on_event (extractor : option (string -> usage4)) (g : GatewayContext) (ev : SSEEvent) : GatewayContext :=
  let u := match extractor with Some te => te (ev_Data ev) | None => ev_usage ev end in
  let g := ApplyUsage g u in
  let protocol := match SelectedEndpoint g with Some e => ep_ProviderProtocol e | None => "" end in
  let g := g <| TransmittedChars := wrap64 (TransmittedChars g + ExtractContentLength protocol (ev_Data ev)) |> in
  if seqb (RequestType g) RequestTypeMessages && isAnthropicMessageStop (ev_Data ev)
  then g <| Tags := Some (<["message_stop_sent" := "true"]> (default ∅ (Tags g))) |> else g.

(** [Write]; the write to the client is appended by the caller. *)
Definition intercept_Write (w : SSEInterceptWriter) (g : GatewayContext) (p : bytes) (now : Time) :
  SSEInterceptWriter * GatewayContext :=
  let '(w, g) := mark_first_byte w g now in
  let '(parser, evs) := Feed (iw_parser w) p in
  (mkWriter parser (iw_firstByte w) (iw_extractor w), fold_left (on_event (iw_extractor w)) evs g).

Definition intercept_WriteHeader (w : SSEInterceptWriter) (g : GatewayContext) (now : Time) :
  SSEInterceptWriter * GatewayContext := mark_first_byte w g now.

(** * Relay of an upstream stream (passthrough_stream.go) *)

(** One [Read] of the body: the bytes it returned and how it ended. *)
Inductive read_end := ReadMore | ReadEOF | ReadErr (e : goerror).

(** The state of the contexts when a read fails: the client's request context is done;
    the cause of the gateway context, with whether it is a plain cancellation; whether the
    read error itself is a cancellation. *)
Record read_ctx := mkReadCtx {
  rc_request_done : bool;
  rc_cause : option (goerror * bool);
  rc_err_canceled : bool
}.

(** [fmt.Errorf("...: %w", err)]. *)
Definition wrap_error (prefix : string) (e : goerror) : goerror :=
  mkError (prefix +:+ Error_text e) (err_chain e) (err_Retryable e).

Definition classifyStreamReadError (c : read_ctx) (e : goerror) : goerror :=
  if rc_request_done c then wrap_error "client disconnected: " e
  else match rc_cause c with
       | Some (cause, false) => cause
       | _ => if rc_err_canceled c then wrap_error "context canceled: " e else e
       end.

(** [write] is the client connection: the error of writing a chunk. The reads are those
    the body performs, in order; [None]: they end without an end of the stream. *)
Fixpoint PassthroughStream (write : bytes -> option goerror) (c : read_ctx) (reads : list (bytes * read_end))
  (clock : nat -> Time) (w : SSEInterceptWriter) (g : GatewayContext) (out : bytes) :
  option (SSEInterceptWriter * GatewayContext * bytes * option goerror) :=
  match reads with
  | [] => None
  | (chunk, e) :: rest =>
      let '(w, g) := match chunk with [] => (w, g) | _ => intercept_Write w g chunk (clock (length rest)) end in
      match (match chunk with [] => None | _ => write chunk end) with
      | Some werr => Some (w, g, out, Some werr)
      | None =>
          let out := out ++ chunk in
          match e with
          | ReadMore => PassthroughStream write c rest clock w g out
          | ReadEOF => Some (w, g, out, None)
          | ReadErr err => Some (w, g, out, Some (wrap_error "read upstream stream: " (classifyStreamReadError c err)))
          end
      end
  end.

(** * Response size limit (bounded_body.go) *)

Definition errResponseLimit : goerror := errorf "upstream response exceeds byte limit".

Section bounded.
(** The underlying reader: [read r n] reads at most [n] bytes. *)
Context {R : Type} (read : R -> Z -> R * bytes * option goerror).

Record boundedBody := mkBounded { bb_reader : R; bb_remaining : Z }.

Definition bounded_Read (b : boundedBody) (len : Z) : boundedBody * bytes * option goerror :=
  if len =? 0 then (b, [], None)
  else if bb_remaining b =? 0 then
    let '(r, probe, err) := read (bb_reader b) 1 in
    let b := mkBounded r (bb_remaining b) in
    match probe with
    | _ :: _ => (b, [], Some errResponseLimit)
    | [] => (b, [], err)
    end
  else
    let len := if bb_remaining b <? len then bb_remaining b else len in
    let '(r, data, err) := read (bb_reader b) len in
    (mkBounded r (bb_remaining b - Z.of_nat (length data)), data, err).

(** Consecutive reads up to the first error, as [io.ReadAll] does them. *)
Fixpoint bounded_reads (b : boundedBody) (lens : list Z) : boundedBody * bytes * option goerror :=
  match lens with
  | [] => (b, [], None)
  | len :: rest =>
      match bounded_Read b len with
      | (b, data, Some err) => (b, data, Some err)
      | (b, data, None) => let '(b, more, err) := bounded_reads b rest in (b, data ++ more, err)
      end
  end.
End bounded.
Arguments mkBounded {R}.

(** * Lemmas *)

Lemma cut_block_app a b p q : cut_block a = Some (p, q) -> cut_block (a ++ b) = Some (p, q ++ b).
Proof.
  revert p q. induction a as [|c a IH]; intros p q; [done|]. cbn [cut_block app].
  destruct (bool_decide (c = LF)) eqn:Ec.
  - destruct a as [|d a]; [done|]. cbn [app]. destruct (bool_decide (d = LF)); [by intros [= <- <-]|].
    destruct (cut_block (d :: a)) as [[p' q']|]; [|done]. intros [= <- <-].
    change (d :: a ++ b) with ((d :: a) ++ b). by rewrite (IH _ _ eq_refl).
  - destruct (cut_block a) as [[p' q']|]; [|done]. intros [= <- <-]. by rewrite (IH _ _ eq_refl).
Qed.

Lemma cut_block_split l p q : cut_block l = Some (p, q) -> l = p ++ [LF; LF] ++ q.
Proof.
  revert p q. induction l as [|c l IH]; intros p q; [done|]. cbn [cut_block].
  destruct (bool_decide (c = LF)) eqn:Ec.
  - destruct l as [|d l]; [done|]. destruct (bool_decide (d = LF)) eqn:Ed.
    + intros [= <- <-]. apply bool_decide_eq_true in Ec as ->. apply bool_decide_eq_true in Ed as ->. done.
    + destruct (cut_block (d :: l)) as [[p' q']|]; [|done]. intros [= <- <-]. by rewrite (IH _ _ eq_refl).
  - destruct (cut_block l) as [[p' q']|]; [|done]. intros [= <- <-]. by rewrite (IH _ _ eq_refl).
Qed.

Lemma cut_block_shorter l p q : cut_block l = Some (p, q) -> (length q < length l)%nat.
Proof. intros ->%cut_block_split. rewrite length_app. cbn. lia. Qed.

Lemma cut_blocks_fuel n m l : (length l <= n)%nat -> (length l <= m)%nat -> cut_blocks n l = cut_blocks m l.
Proof.
  revert m l. induction n as [|n IH]; intros m l Hn Hm.
  - destruct l; [|cbn in Hn; lia]. by destruct m.
  - destruct m as [|m]; [destruct l; [done|cbn in Hm; lia]|]. cbn [cut_blocks].
    destruct (cut_block l) as [[p q]|] eqn:E; [|done].
    apply cut_block_shorter in E. rewrite (IH m q) by lia. done.
Qed.

(** All complete blocks of a text and the rest. *)
Definition blocks (l : bytes) : list bytes * bytes := cut_blocks (length l) l.

Lemma blocks_unfold l :
  blocks l = match cut_block l with
             | None => ([], l)
             | Some (p, q) => (p :: fst (blocks q), snd (blocks q))
             end.
Proof.
  unfold blocks at 1. destruct (cut_block l) as [[p q]|] eqn:E.
  - pose proof (cut_block_shorter _ _ _ E) as Hlt.
    destruct l as [|c l]; [done|]. cbn [length cut_blocks]. rewrite E.
    rewrite (cut_blocks_fuel _ (length q)) by (cbn in Hlt; lia). unfold blocks. by destruct (cut_blocks _ q).
  - destruct l as [|c l]; [done|]. cbn [length cut_blocks]. by rewrite E.
Qed.

Lemma blocks_rest l : cut_block (snd (blocks l)) = None.
Proof.
  induction l as [l IH] using length_ind. rewrite blocks_unfold.
  destruct (cut_block l) as [[p q]|] eqn:E; [|done]. apply IH. by eapply cut_block_shorter.
Qed.

(** Cutting is incremental. *)
Lemma blocks_app a b :
  blocks (a ++ b) =
  (fst (blocks a) ++ fst (blocks (snd (blocks a) ++ b)), snd (blocks (snd (blocks a) ++ b))).
Proof.
  induction a as [a IH] using length_ind. rewrite (blocks_unfold a).
  destruct (cut_block a) as [[p q]|] eqn:E; cbn [fst snd app]; [|by destruct (blocks (a ++ b))].
  rewrite (blocks_unfold (a ++ b)), (cut_block_app _ _ _ _ E).
  rewrite (IH q) by (by eapply cut_block_shorter). done.
Qed.

Lemma strip_lf_false l : strip_lf false l = l.
Proof. by destruct l. Qed.

Lemma strip_lf_app skip a b : a <> [] -> strip_lf skip (a ++ b) = strip_lf skip a ++ b.
Proof. destruct a as [|c a]; [done|]. cbn. by destruct (skip && _). Qed.

Lemma replace_crlf_cons2 c d r :
  replace_crlf (c :: d :: r) =
  if bool_decide (c = CR) && bool_decide (d = LF) then LF :: replace_crlf r else c :: replace_crlf (d :: r).
Proof. done. Qed.

(** A split between two bytes changes the normal form only when it separates a CRLF. *)
Lemma normalize_app a b : normalize (a ++ b) = normalize a ++ normalize (strip_lf (ends_with_cr a) b).
Proof.
  unfold normalize, replace_cr.
  enough (replace_crlf (a ++ b) = replace_crlf a ++ replace_crlf (strip_lf (ends_with_cr a) b) \/
          (ends_with_cr a = true /\ exists b', b = LF :: b' /\ exists a', replace_crlf a = a' ++ [CR] /\
           replace_crlf (a ++ b) = a' ++ LF :: replace_crlf b')) as [->|(Ha & b' & -> & a' & E1 & E2)].
  { by rewrite map_app. }
  { rewrite Ha, E1, E2. cbn [strip_lf andb]. rewrite bool_decide_true by done.
    by rewrite !map_app, <- app_assoc. }
  induction a as [a IH] using length_ind. destruct a as [|c [|d a]].
  - left. cbn. by destruct b.
  - destruct b as [|e b]; [left; cbn; by rewrite andb_false_r || done|].
    unfold ends_with_cr. cbn [last app replace_crlf strip_lf].
    destruct (bool_decide (c = CR)) eqn:Ec.
    + apply bool_decide_eq_true in Ec as ->. rewrite (bool_decide_true (Some CR = Some CR)) by done.
      destruct (bool_decide (e = LF)) eqn:Ee; cbn [andb]; [|by left].
      right. apply bool_decide_eq_true in Ee as ->. split; [done|]. exists b. split; [done|]. exists []. done.
    + rewrite (bool_decide_false (Some c = Some CR)) by (apply bool_decide_eq_false in Ec; congruence). by left.
  - change ((c :: d :: a) ++ b) with (c :: d :: (a ++ b)). rewrite !replace_crlf_cons2.
    destruct (bool_decide (c = CR) && bool_decide (d = LF)) eqn:E.
    + destruct a as [|x a].
      * left. cbn [app]. apply andb_true_iff in E as [_ ->%bool_decide_eq_true]. cbn. by destruct b.
      * change (ends_with_cr (c :: d :: x :: a)) with (ends_with_cr (x :: a)).
        destruct (IH (x :: a)) as [IH1|(Ha & b' & -> & a' & E1 & E2)]; [cbn; lia| |].
        -- left. cbn [app] in *. by rewrite IH1.
        -- right. split; [done|]. exists b'. split; [done|]. exists (LF :: a'). cbn [app] in *. by rewrite E1, E2.
    + change (ends_with_cr (c :: d :: a)) with (ends_with_cr (d :: a)).
      destruct (IH (d :: a)) as [IH1|(Ha & b' & -> & a' & E1 & E2)]; [cbn; lia| |].
      * left. change (d :: a ++ b) with ((d :: a) ++ b). by rewrite IH1.
      * right. split; [done|]. exists b'. split; [done|]. exists (c :: a').
        change (d :: a ++ LF :: b') with ((d :: a) ++ LF :: b'). by rewrite E1, E2.
Qed.

Definition clean (p : SSEParser) : Prop := cut_block (buf p) = None.

Lemma Feed_blocks p data :
  Feed p data =
  (mkParser (snd (blocks (buf p ++ normalize (strip_lf (skipLeadingLF p) data))))
     (match data with [] => skipLeadingLF p | _ => ends_with_cr (strip_lf (skipLeadingLF p) data) end),
   omap parseBlock (fst (blocks (buf p ++ normalize (strip_lf (skipLeadingLF p) data))))).
Proof. unfold Feed, blocks. by destruct (cut_blocks _ _). Qed.

Lemma Feed_clean p data : clean (fst (Feed p data)).
Proof. rewrite Feed_blocks. apply blocks_rest. Qed.

Lemma Feed_nil p : clean p -> Feed p [] = (p, []).
Proof.
  intros C. rewrite Feed_blocks. cbn [strip_lf]. change (normalize []) with (@nil ascii).
  rewrite app_nil_r, blocks_unfold, C. by destruct p.
Qed.

Lemma last_app_ne {A} (a b : list A) : b <> [] -> last (a ++ b) = last b.
Proof. intros N. rewrite last_app. destruct (last b) eqn:E; [done|]. apply last_None in E. done. Qed.

(** The carriage-return flag after two pieces is the one after their concatenation. *)
Lemma ends_with_cr_strip a b :
  b <> [] -> ends_with_cr (a ++ b) = ends_with_cr (strip_lf (ends_with_cr a) b).
Proof.
  intros N. unfold ends_with_cr at 1. rewrite (last_app_ne a b N). destruct b as [|c b]; [done|]. cbn [strip_lf].
  destruct (ends_with_cr a && bool_decide (c = LF)) eqn:E; [|done].
  apply andb_true_iff in E as [_ ->%bool_decide_eq_true]. destruct b as [|d b]; [done|].
  unfold ends_with_cr. by rewrite (last_cons_cons LF d b).
Qed.

(** Feeding two pieces one after the other is feeding them at once. *)
Lemma Feed_app p a b :
  clean p ->
  Feed p (a ++ b) = (fst (Feed (fst (Feed p a)) b), snd (Feed p a) ++ snd (Feed (fst (Feed p a)) b)).
Proof.
  intros C. destruct (decide (a = [])) as [->|Na]; [rewrite (Feed_nil p C); cbn [fst snd app]; by destruct (Feed p b)|].
  destruct (decide (b = [])) as [->|Nb].
  { rewrite app_nil_r, (Feed_nil (fst (Feed p a))) by apply Feed_clean. cbn [fst snd].
    rewrite app_nil_r. by destruct (Feed p a). }
  rewrite !Feed_blocks. cbn [fst snd buf skipLeadingLF]. rewrite strip_lf_app by done.
  set (a' := strip_lf (skipLeadingLF p) a).
  assert (match a with [] => skipLeadingLF p | _ => ends_with_cr a' end = ends_with_cr a') as -> by (by destruct a).
  rewrite normalize_app, app_assoc, blocks_app. cbn [fst snd]. rewrite omap_app.
  replace (match a ++ b with [] => skipLeadingLF p | _ => ends_with_cr (a' ++ b) end)
    with (ends_with_cr (a' ++ b)) by (by destruct a).
  rewrite ends_with_cr_strip by done. by destruct b.
Qed.

Lemma feed_all_concat p chunks : clean p -> feed_all p chunks = Feed p (concat chunks).
Proof.
  revert p. induction chunks as [|c chunks IH]; intros p C; cbn [feed_all concat]; [by rewrite Feed_nil|].
  rewrite (Feed_app p c (concat chunks) C). pose proof (Feed_clean p c) as C'.
  destruct (Feed p c) as [p' evs]. cbn [fst snd] in *. rewrite IH by done. by destruct (Feed p' _).
Qed.

(** C27: How the network cuts an event stream does not matter: feeding the parser any sequence
    of pieces yields the events, in order, and the state that feeding the whole stream at
    once yields, also when a piece ends inside a line, between the two line feeds of a block
    or between the bytes of a CRLF; and these events are those of the blocks of the
    stream with its line endings normalised. *)
Theorem sse_chunking_irrelevant (chunks : list bytes) :
  feed_all NewSSEParser chunks = Feed NewSSEParser (concat chunks) /\
  snd (feed_all NewSSEParser chunks) = omap parseBlock (fst (blocks (normalize (concat chunks)))).
Proof.
  rewrite feed_all_concat by done. split; [done|]. rewrite Feed_blocks. cbn [snd NewSSEParser buf skipLeadingLF app].
  by destruct (concat chunks).
Qed.

(** * Round trip of written frames *)

Definition line_safe (s : string) : Prop := Forall (fun c => c <> LF /\ c <> CR) (ascii_list s).

(** A written frame: an event with its name, or data only. *)
Definition write_frame (f : option string * string) : bytes :=
  match f with (Some event, data) => writeSSEEvent event data | (None, data) => writeSSEData data end.

Definition frame_safe (f : option string * string) : Prop :=
  match fst f with Some event => line_safe event | None => True end /\ line_safe (snd f).

(** The lines of a frame. *)
Definition frame_lines (f : option string * string) : list string :=
  match fst f with Some event => ["event: " +:+ event] | None => [] end ++ ["data: " +:+ snd f].

Lemma line_safe_app (a b : string) : line_safe a -> line_safe b -> line_safe (a +:+ b).
Proof. unfold line_safe. rewrite ascii_list_app. apply Forall_app_2. Qed.

Lemma SplitByte_line (s : string) : line_safe s -> SplitByte s LF = [s].
Proof.
  unfold line_safe. induction s as [|c s IH]; cbn; [done|]. intros [[N _] Hs]%Forall_cons.
  rewrite bool_decide_false by done. by rewrite IH.
Qed.

Lemma SplitByte_lines (s t : string) :
  line_safe s -> SplitByte (s +:+ String LF t) LF = s :: SplitByte t LF.
Proof.
  unfold line_safe. induction s as [|c s IH]; cbn [ascii_list].
  - done.
  - intros [[N _] Hs]%Forall_cons. unfold String.app in *. cbn. rewrite bool_decide_false by done. by rewrite IH.
Qed.

Lemma no_cr_suffix (s : string) : line_safe s -> HasSuffix s (String CR "") = false.
Proof.
  intros Hs. apply not_true_iff_false. intros [r ->]%HasSuffix_spec. unfold line_safe in Hs.
  rewrite ascii_list_app in Hs. apply Forall_app in Hs as [_ [[_ N] _]%Forall_cons]. done.
Qed.

Lemma data_line_spec (d : string) : line_safe d -> data_line ("data: " +:+ d) = Some d.
Proof.
  intros Hd. unfold data_line, TrimSuffix. rewrite no_cr_suffix; [done|].
  apply line_safe_app; [|done]. repeat constructor; done.
Qed.

Lemma event_line_spec (e : string) : line_safe e -> data_line ("event: " +:+ e) = None.
Proof.
  intros He. unfold data_line, TrimSuffix. rewrite no_cr_suffix; [done|].
  apply line_safe_app; [|done]. repeat constructor; done.
Qed.

(** The text of a frame up to its empty line. *)
Definition frame_body (f : option string * string) : bytes :=
  match fst f with Some event => ascii_list ("event: " +:+ event) ++ [LF] | None => [] end ++
  ascii_list ("data: " +:+ snd f).

Lemma write_frame_body f : write_frame f = frame_body f ++ [LF; LF].
Proof. destruct f as [[e|] d]; [|done]. unfold write_frame, writeSSEEvent, frame_body. cbn [fst snd]. by rewrite <- !app_assoc. Qed.

Lemma parse_frame f : frame_safe f -> exists ev, parseBlock (frame_body f) = Some ev /\ ev_Data ev = snd f.
Proof.
  destruct f as [o d]. intros [He Hd]. cbn [fst snd] in *. unfold parseBlock.
  assert (omap data_line (SplitByte (string_of (frame_body (o, d))) LF) = [d]) as ->.
  { assert (line_safe ("data: " +:+ d)) as Hl by (apply line_safe_app; [repeat constructor; done|done]).
    unfold frame_body. cbn [fst snd]. destruct o as [e|].
    - rewrite string_of_app, string_of_app, !string_of_list, append_assoc.
      change (string_of [LF] +:+ ("data: " +:+ d)) with (String LF ("data: " +:+ d)).
      rewrite SplitByte_lines by (apply line_safe_app; [repeat constructor; done|done]).
      rewrite SplitByte_line by done. cbn [omap list_omap]. by rewrite event_line_spec, data_line_spec.
    - cbn [app]. rewrite string_of_list, SplitByte_line by done. cbn [omap list_omap]. by rewrite data_line_spec. }
  cbn [Join]. destruct (seqb _ _); eexists; split; reflexivity.
Qed.

(** A byte sequence without two adjacent line feeds, nor one at its end. *)
Lemma cut_block_no_lf l rest :
  Forall (fun c => c <> LF) l -> cut_block (l ++ LF :: LF :: rest) = Some (l, rest).
Proof.
  induction l as [|c l IH]; intros H.
  - cbn. by rewrite !bool_decide_true.
  - apply Forall_cons in H as [N H]. cbn [app cut_block]. rewrite bool_decide_false by done. by rewrite IH.
Qed.

Lemma no_lf_of_safe (s : string) : line_safe s -> Forall (fun c => c <> LF) (ascii_list s).
Proof. intros H. eapply Forall_impl; [exact H|]. naive_solver. Qed.

Lemma cut_frame f rest : frame_safe f -> cut_block (write_frame f ++ rest) = Some (frame_body f, rest).
Proof.
  destruct f as [o d]. intros [He Hd]. cbn [fst snd] in *. rewrite write_frame_body, <- app_assoc. cbn [app].
  assert (Forall (fun c => c <> LF) (ascii_list ("data: " +:+ d))) as Fd.
  { apply no_lf_of_safe, line_safe_app; [repeat constructor; done|done]. }
  unfold frame_body. cbn [fst snd]. destruct o as [e|]; [|by apply cut_block_no_lf].
  assert (Forall (fun c => c <> LF) (ascii_list ("event: " +:+ e))) as Fe.
  { apply no_lf_of_safe, line_safe_app; [repeat constructor; done|done]. }
  revert Fe. generalize (ascii_list ("event: " +:+ e)) as l. intros l Fe. rewrite <- !app_assoc. cbn [app].
  induction Fe as [|c l N Fe IH].
  - cbn [app cut_block]. rewrite bool_decide_true by done.
    rewrite (cut_block_no_lf _ _ Fd). done.
  - cbn [app cut_block]. rewrite (bool_decide_false (c = LF)) by done. by rewrite IH.
Qed.

Lemma blocks_frames fs : Forall frame_safe fs -> blocks (concat (map write_frame fs)) = (map frame_body fs, []).
Proof.
  induction 1 as [|f fs Hf _ IH]; [done|]. cbn [map concat]. rewrite blocks_unfold, cut_frame by done. by rewrite IH.
Qed.

Lemma normalize_no_cr l : Forall (fun c => c <> CR) l -> normalize l = l.
Proof.
  intros H. unfold normalize, replace_cr.
  assert (replace_crlf l = l) as ->.
  { induction l as [l IH] using length_ind. destruct l as [|c [|d l]]; [done|done|].
    apply Forall_cons in H as [N H]. rewrite replace_crlf_cons2, bool_decide_false by done. cbn [andb].
    by rewrite IH; [|cbn; lia|done]. }
  induction H as [|c l N _ IH]; [done|]. cbn. rewrite bool_decide_false by done. by rewrite IH.
Qed.

Lemma write_frame_no_cr f : frame_safe f -> Forall (fun c => c <> CR) (write_frame f).
Proof.
  assert (forall s, line_safe s -> Forall (fun c => c <> CR) (ascii_list s)) as A
    by (intros s H; eapply Forall_impl; [exact H|]; naive_solver).
  destruct f as [o d]. intros [He Hd]. cbn [fst snd] in *. rewrite write_frame_body. unfold frame_body. cbn [fst snd].
  apply Forall_app_2; [|by repeat constructor]. apply Forall_app_2.
  - destruct o as [e|]; [|by constructor]. apply Forall_app_2; [|by repeat constructor].
    apply A, line_safe_app; [repeat constructor; done|done].
  - apply A, line_safe_app; [repeat constructor; done|done].
Qed.

(** C6: What the gateway writes as server-sent events is what a parser reads back: frames written with
    [writeSSEEvent] and [writeSSEData], cut by the network in any way, are parsed into exactly
    their payloads, in order, and nothing is left over (payloads and event names on one
    line, as JSON encodings are). *)
Theorem sse_roundtrip (fs : list (option string * string)) (chunks : list bytes)
  (Hsafe : Forall frame_safe fs) (Hcut : concat chunks = concat (map write_frame fs)) :
  map ev_Data (snd (feed_all NewSSEParser chunks)) = map snd fs /\ buf (fst (feed_all NewSSEParser chunks)) = [].
Proof.
  rewrite feed_all_concat, Hcut, Feed_blocks by done. cbn [fst snd NewSSEParser buf skipLeadingLF app].
  rewrite strip_lf_false, normalize_no_cr.
  2:{ apply Forall_concat, Forall_map. eapply Forall_impl; [exact Hsafe|]. exact write_frame_no_cr. }
  rewrite blocks_frames by done. cbn [fst snd]. split; [|done]. clear Hcut.
  induction Hsafe as [|f fs Hf Hsafe IH]; [done|]. cbn [map omap list_omap].
  destruct (parse_frame f Hf) as (ev & -> & Hd). cbn [map]. by rewrite Hd, IH.
Qed.

Lemma sse_roundtrip_witness :
  let fs := [(Some "message_start", "{}"); (None, "[DONE]")] in
  let all := concat (map write_frame fs) in
  map ev_Data (snd (feed_all NewSSEParser [take 9 all; drop 9 all])) = ["{}"; "[DONE]"] /\
  buf (fst (feed_all NewSSEParser [take 9 all; drop 9 all])) = [].
Proof.
  intros fs all. apply (sse_roundtrip fs [take 9 all; drop 9 all]).
  - repeat constructor; intros E; discriminate E.
  - vm_compute. reflexivity.
Defined.

(** * Intercepting writer *)

(** Consecutive writes, [clock i] being the time of the [i]-th. *)
Fixpoint intercept_all (clock : nat -> Time) (i : nat) (w : SSEInterceptWriter) (g : GatewayContext)
  (chunks : list bytes) : SSEInterceptWriter * GatewayContext :=
  match chunks with
  | [] => (w, g)
  | c :: r => let '(w, g) := intercept_Write w g c (clock i) in intercept_all clock (S i) w g r
  end.

Lemma intercept_marked w g chunks clock i :
  iw_firstByte w = true -> clean (iw_parser w) ->
  intercept_all clock i w g chunks =
  (mkWriter (fst (feed_all (iw_parser w) chunks)) true (iw_extractor w),
   fold_left (on_event (iw_extractor w)) (snd (feed_all (iw_parser w) chunks)) g).
Proof.
  revert i w g. induction chunks as [|c chunks IH]; intros i w g F C.
  - cbn. rewrite <- F. by destruct w.
  - cbn [intercept_all]. unfold intercept_Write, mark_first_byte. rewrite F.
    pose proof (Feed_clean (iw_parser w) c) as C'. cbn [feed_all].
    destruct (Feed (iw_parser w) c) as [p evs] eqn:E. cbn [fst] in C'.
    rewrite IH by done. cbn [iw_parser iw_extractor]. destruct (feed_all p chunks) as [p' evs'] eqn:E'.
    cbn [fst snd]. by rewrite fold_left_app.
Qed.

(** What the gateway learns from a stream does not depend on how the upstream cuts it: token counts, transmitted
    characters, completion tag and first-byte time after writing the pieces of a
    stream one by one are those after writing the whole stream at the time of the
    first piece. *)
Theorem stream_accounting_chunk_free (extractor : option (string -> usage4)) (g : GatewayContext)
  (c : bytes) (chunks : list bytes) (clock : nat -> Time) :
  intercept_all clock 0 (NewSSEInterceptWriter extractor) g (c :: chunks) =
  intercept_Write (NewSSEInterceptWriter extractor) g (concat (c :: chunks)) (clock 0%nat).
Proof.
  set (w1 := mkWriter NewSSEParser true extractor). set (g1 := TriggerFirstByte g (clock 0%nat)).
  assert (forall p, intercept_Write (NewSSEInterceptWriter extractor) g p (clock 0%nat) =
                    intercept_Write w1 g1 p (clock 0%nat)) as A by done.
  cbn [intercept_all]. rewrite !A.
  transitivity (intercept_all clock 0 w1 g1 (c :: chunks)); [done|].
  rewrite intercept_marked by done. rewrite feed_all_concat by done.
  unfold intercept_Write, mark_first_byte. cbn [w1 iw_firstByte iw_parser iw_extractor].
  by destruct (Feed NewSSEParser (concat (c :: chunks))).
Qed.

(** * Billing of an Anthropic stream *)

Lemma ApplyUsage_counts g i o c k :
  0 <= i -> 0 <= o -> 0 <= c -> 0 <= k ->
  let g' := ApplyUsage g (i, o, c, k) in
  InputTokens g' = (if 0 <? i then i else InputTokens g) /\
  OutputTokens g' = (if 0 <? o then o else OutputTokens g) /\
  CachedTokens g' = (if 0 <? c then c else CachedTokens g) /\
  CacheCreationTokens g' = (if 0 <? k then k else CacheCreationTokens g).
Proof.
  intros _ _ _ _. unfold ApplyUsage. destruct (0 <? i), (0 <? o), (0 <? c), (0 <? k); by destruct g.
Qed.

Lemma total_input_exact u :
  0 <= au_input u -> 0 <= au_read u -> 0 <= au_creation u -> au_input u + au_read u + au_creation u <= max_int64 ->
  total_input u = au_input u + au_read u + au_creation u.
Proof.
  intros. unfold total_input. rewrite !wrap64_small; [done| |]; rewrite ?wrap64_small; unfold in_int64, min_int64 in *; lia.
Qed.

(** An Anthropic stream is billed as the provider reports it: after [message_start]
    with the input counts and [message_delta] with the output count on a fresh
    attempt, the settlement bills exactly the cache reads, the cache creations, the
    uncached input and the output of the two events, although the input the gateway keeps
    is the sum of three of them. *)
Theorem anthropic_stream_billing (g : GatewayContext) (u v : anthropic_usage)
  (Hfresh : (InputTokens g, OutputTokens g, CachedTokens g, CacheCreationTokens g) = (0, 0, 0, 0))
  (Hu : 0 <= au_input u /\ 0 <= au_read u /\ 0 <= au_creation u)
  (Hsum : au_input u + au_read u + au_creation u <= max_int64)
  (Hv : au_input v = 0 /\ au_read v = 0 /\ au_creation v = 0 /\ 0 <= au_output v) :
  let start := mkAnthropicEvent "message_start" (Some (Some u)) None in
  let delta := mkAnthropicEvent "message_delta" None (Some v) in
  clampAndSplitTokens (ApplyUsage (ApplyUsage g (anthropic_counts start)) (anthropic_counts delta)) =
  (au_read u, au_creation u, au_input u, au_output v).
Proof.
  intros start delta. injection Hfresh as Hi Ho Hc Hk. destruct Hu as (U1 & U2 & U3), Hv as (V1 & V2 & V3 & V4).
  change (anthropic_counts start) with (total_input u, 0, au_read u, au_creation u).
  rewrite total_input_exact by done.
  assert (anthropic_counts delta = (0, au_output v, 0, 0)) as ->.
  { change (anthropic_counts delta) with
      (if (0 <? au_input v) || (0 <? au_read v) || (0 <? au_creation v) then total_input v else 0,
       au_output v, au_read v, au_creation v). by rewrite V1, V2, V3. }
  set (g1 := ApplyUsage g _).
  destruct (ApplyUsage_counts g (au_input u + au_read u + au_creation u) 0 (au_read u) (au_creation u)) as (A1 & A2 & A3 & A4);
    [lia..|].
  destruct (ApplyUsage_counts g1 0 (au_output v) 0 0) as (B1 & B2 & B3 & B4); [lia..|].
  fold g1 in A1, A2, A3, A4. unfold clampAndSplitTokens. rewrite B1, B2, B3, B4. cbn [Z.ltb Z.compare].
  rewrite A1, A2, A3, A4, Hi, Ho, Hc, Hk. clear -U1 U2 U3 V4 Hsum. cbn [Z.ltb Z.compare].
  assert (forall x, 0 <= x -> (if 0 <? x then x else 0) = x) as P
    by (intros x Hx; destruct (Z.ltb_spec 0 x); lia).
  rewrite !P by lia. unfold clamp_tokens. rewrite !clamp_zero, !Z.max_r by lia.
  rewrite (wrap64_small (au_read u + au_creation u)) by (unfold in_int64, min_int64; lia).
  destruct (Z.ltb_spec (au_input u + au_read u + au_creation u) (au_read u + au_creation u)); [lia|].
  rewrite !wrap64_small by (rewrite ?wrap64_small; unfold in_int64, min_int64; lia). repeat f_equal; lia.
Qed.

Lemma anthropic_stream_billing_witness :
  clampAndSplitTokens
    (ApplyUsage (ApplyUsage emptyContext
       (AnthropicTokenExtractor (json_text "{'type':'message_start','message':{'usage':{'input_tokens':10,'cache_read_input_tokens':70,'cache_creation_input_tokens':5}}}")))
       (AnthropicTokenExtractor (json_text "{'type':'message_delta','usage':{'output_tokens':42}}"))) = (70, 5, 10, 42).
Proof.
  apply (anthropic_stream_billing emptyContext (mkAnthropicUsage 10 0 5 70) (mkAnthropicUsage 0 42 0 0));
    cbn; unfold max_int64; [reflexivity|lia|lia|lia].
Defined.

(** A client that leaves while the upstream stream is read: the error does not wrap the
    sentinel [ErrClientDisconnected], so it counts as a failure of the
    upstream. *)
Theorem passthrough_disconnect_unrecognised (c : read_ctx) (e : goerror)
  (Hdone : rc_request_done c = true) (Hplain : errors_Is (Some e) ErrClientDisconnected = false) :
  errors_Is (Some (wrap_error "read upstream stream: " (classifyStreamReadError c e))) ErrClientDisconnected = false.
Proof. unfold classifyStreamReadError. by rewrite Hdone. Qed.

Lemma passthrough_disconnect_unrecognised_witness :
  errors_Is (Some (wrap_error "read upstream stream: "
    (classifyStreamReadError (mkReadCtx true None true) (errorf "context canceled")))) ErrClientDisconnected = false.
Proof. apply passthrough_disconnect_unrecognised; reflexivity. Defined.

(** * Size limit *)

Section bounded_facts.
Context {R : Type} (read : R -> Z -> R * bytes * option goerror) (pending : R -> bytes).
Hypothesis read_law : forall r n r' data err, 0 < n -> read r n = (r', data, err) ->
  pending r = data ++ pending r' /\ Z.of_nat (length data) <= n /\ err <> Some errResponseLimit.

Lemma bounded_Read_spec b len b' data err :
  0 <= bb_remaining b -> 0 <= len -> bounded_Read read b len = (b', data, err) ->
  0 <= bb_remaining b' /\ bb_remaining b' + Z.of_nat (length data) = bb_remaining b /\
  match err with
  | Some e => if bool_decide (e = errResponseLimit) then data = [] /\ bb_remaining b = 0 /\ pending (bb_reader b) <> []
              else pending (bb_reader b) = data ++ pending (bb_reader b')
  | None => pending (bb_reader b) = data ++ pending (bb_reader b')
  end.
Proof.
  intros Hr Hl. unfold bounded_Read. destruct (Z.eqb_spec len 0); [intros [= <- <- <-]; cbn [bb_remaining bb_reader length]; split_and!; [lia|lia|done]|].
  destruct (Z.eqb_spec (bb_remaining b) 0) as [E0|N0].
  - destruct (read (bb_reader b) 1) as [[r probe] e] eqn:E.
    destruct (read_law _ 1 _ _ _ eq_refl E) as (Hp & _ & Hne). destruct probe as [|x probe].
    + intros [= <- <- <-]. cbn [bb_remaining bb_reader length]. split_and!; [lia|lia|]. destruct e; [|done].
      rewrite bool_decide_false by congruence. done.
    + intros [= <- <- <-]. cbn [bb_remaining bb_reader length]. split_and!; [lia|lia|]. rewrite bool_decide_true by done.
      split_and!; [done|done|by rewrite Hp].
  - set (n' := if bb_remaining b <? len then bb_remaining b else len).
    assert (0 < n' <= bb_remaining b) as Hn' by (unfold n'; destruct (Z.ltb_spec (bb_remaining b) len); lia).
    destruct (read (bb_reader b) n') as [[r d] e] eqn:E. intros [= <- <- <-].
    destruct (read_law _ n' _ _ _ (proj1 Hn') E) as (Hp & Hd & Hne). cbn [bb_remaining bb_reader length]. split_and!; [lia|lia|].
    destruct e; [|done]. by rewrite bool_decide_false by congruence.
Qed.

Lemma bounded_reads_spec lens : forall b b' data err,
  0 <= bb_remaining b -> Forall (fun n => 0 <= n) lens -> bounded_reads read b lens = (b', data, err) ->
  Z.of_nat (length data) <= bb_remaining b /\
  if bool_decide (err = Some errResponseLimit)
  then bb_remaining b < Z.of_nat (length (pending (bb_reader b)))
  else pending (bb_reader b) = data ++ pending (bb_reader b').
Proof.
  induction lens as [|len lens IH]; intros b b' data err Hb Hl; cbn [bounded_reads].
  - intros [= <- <- <-]. cbn. split; [lia|]. done.
  - apply Forall_cons in Hl as [H0 Hl]. destruct (bounded_Read read b len) as [[b1 d] [e|]] eqn:E;
      destruct (bounded_Read_spec _ _ _ _ _ Hb H0 E) as (Hr & Hsum & Hcase).
    + intros [= <- <- <-]. split; [lia|]. destruct (bool_decide (e = errResponseLimit)) eqn:Ee.
      * apply bool_decide_eq_true in Ee as ->. rewrite bool_decide_true by done.
        destruct Hcase as (-> & -> & Hne). destruct (pending (bb_reader b)); [done|]. cbn [length]. lia.
      * rewrite bool_decide_false; [done|]. apply bool_decide_eq_false in Ee. congruence.
    + destruct (bounded_reads read b1 lens) as [[b2 more] err2] eqn:E2. intros [= <- <- <-].
      destruct (IH _ _ _ _ Hr Hl E2) as [Hlen Hif]. rewrite length_app. split; [lia|]. rewrite Hcase.
      destruct (bool_decide (err2 = Some errResponseLimit)).
      * rewrite length_app. lia.
      * by rewrite Hif, app_assoc.
Qed.
End bounded_facts.

(** The response limit truncates nothing silently: reading a body through the limiter delivers at
    most the allowed number of bytes, and either all delivered bytes are exactly the
    body's next bytes, or the limit error is reported, which happens only for a body longer
    than the limit. *)
Theorem bounded_body_exact {R : Type} (read : R -> Z -> R * bytes * option goerror) (pending : R -> bytes)
  (r : R) (limit : Z) (lens : list Z)
  (Hread : forall r n r' data err, 0 < n -> read r n = (r', data, err) ->
     pending r = data ++ pending r' /\ Z.of_nat (length data) <= n /\ err <> Some errResponseLimit)
  (Hlimit : 0 <= limit) (Hlens : Forall (fun n => 0 <= n) lens) :
  let '(b, data, err) := bounded_reads read (mkBounded r limit) lens in
  Z.of_nat (length data) <= limit /\
  (err = Some errResponseLimit -> limit < Z.of_nat (length (pending r))) /\
  (err <> Some errResponseLimit -> pending r = data ++ pending (bb_reader b)).
Proof.
  destruct (bounded_reads read (mkBounded r limit) lens) as [[b data] err] eqn:E.
  destruct (bounded_reads_spec read pending Hread lens (mkBounded r limit) _ _ _ Hlimit Hlens E) as [Hlen Hif].
  cbn [bb_remaining bb_reader] in *. split_and!; [done| |].
  - intros ->. by rewrite bool_decide_true in Hif.
  - intros N. by rewrite bool_decide_false in Hif.
Qed.

(** A reader over a byte list that serves at most two bytes at a time. *)
Definition demo_read (r : bytes) (n : Z) : bytes * bytes * option goerror :=
  let k := Z.to_nat (Z.min n 2) in
  (drop k r, take k r, match r with [] => Some (errorf "EOF") | _ => None end).

Lemma bounded_body_exact_witness :
  bounded_reads demo_read (mkBounded (ascii_list "hello") 4) [4096; 4096; 4096] =
    (mkBounded [] 0, ascii_list "hell", Some errResponseLimit) /\
  (Some errResponseLimit = Some errResponseLimit -> 4 < Z.of_nat (length (ascii_list "hello"))).
Proof.
  split; [vm_compute; reflexivity|].
  pose proof (bounded_body_exact demo_read id (ascii_list "hello") 4 [4096; 4096; 4096]) as H.
  assert (bounded_reads demo_read (mkBounded (ascii_list "hello") 4) [4096; 4096; 4096] =
    (mkBounded [] 0, ascii_list "hell", Some errResponseLimit)) as E by (vm_compute; reflexivity).
  rewrite E in H. apply H; [|lia|repeat constructor; lia].
  intros r n r' data err Hn [= <- <- <-]. split_and!.
  - symmetry. apply take_drop.
  - pose proof (length_take_le r (Z.to_nat (Z.min n 2))). rewrite length_take. lia.
  - destruct r; [|done]. intros [=].
Defined.
