(* ===== verification/Breaker.v ===== *)
(** pkg/core/circuit_breaker.go, entry level: the state machine of one circuit
    breaker with its count and time windows, half-open probe permits and
    attempt epochs.  [time.Now()] is an argument of every operation. *)

From S2P Require Import Prelude GoFloat GoStrings Types.

(** * State *)

Record timeBucket := mkBucket { bk_timestamp : Time; bk_successes : Z; bk_failures : Z }.

Record circuitBreakerEntry := mkEntry {
  state : CircuitState;
  windowType : string;
  results : list bool;
  buckets : list timeBucket;
  openSince : Time;
  recoveryTO : Duration;
  windowSize : Z;
  failThresh : Z;
  hoSuccessThr : Z;
  activeCalls : Z;
  attemptEpoch : Z;
  nextToken : Z;
  permitToken : Z;
  policyVersion : Z;
  modelCode : string;
  policyID : string;
  policyName : string;
  providerName : string;
  endpointCode : string;
  lastTenant : string;
  lastTraceID : string;
  lastRequestID : string;
  threshold : float64;
  currentVal : float64
}.

#[global] Instance eta_entry : Eta circuitBreakerEntry := fun e =>
  mkEntry (state e) (windowType e) (results e) (buckets e) (openSince e) (recoveryTO e)
    (windowSize e) (failThresh e) (hoSuccessThr e) (activeCalls e) (attemptEpoch e) (nextToken e)
    (permitToken e) (policyVersion e) (modelCode e) (policyID e) (policyName e) (providerName e)
    (endpointCode e) (lastTenant e) (lastTraceID e) (lastRequestID e) (threshold e) (currentVal e).

(** [&circuitBreakerEntry{state: CircuitClosed, modelCode: modelCode}]. *)
Definition newEntry (model : string) : circuitBreakerEntry :=
  mkEntry CircuitClosed "" [] [] zeroTime 0 0 0 0 0 0 0 0 0 model "" "" "" "" "" "" "" fzero fzero.

(** * Windows *)

Definition expireBuckets (e : circuitBreakerEntry) (now : Time) : circuitBreakerEntry :=
  if windowSize e <=? 0 then e
  else
    let limitTime := time_Add now (duration_mul (wrap64 (- windowSize e)) Second) in
    e <| buckets := drop_while (fun b => time_Before (bk_timestamp b) limitTime) (buckets e) |>.

Definition bucket_failures (bs : list timeBucket) : Z :=
  fold_right (fun b n => bk_failures b + n) 0 bs.
Definition bucket_calls (bs : list timeBucket) : Z :=
  fold_right (fun b n => bk_successes b + bk_failures b + n) 0 bs.
Definition result_failures (rs : list bool) : Z := countb negb rs.
Definition result_successes (rs : list bool) : Z := countb (fun r => r) rs.

(** * State computation *)

Definition invalidateAttempts (e : circuitBreakerEntry) : circuitBreakerEntry :=
  e <| attemptEpoch := uwrap64 (attemptEpoch e + 1) |> <| activeCalls := 0 |> <| permitToken := 0 |>.

Definition is_time (e : circuitBreakerEntry) : bool := seqb (windowType e) "time".

(** Failures seen by a closed breaker. *)
Definition window_failures (e : circuitBreakerEntry) : Z :=
  if is_time e then bucket_failures (buckets e) else result_failures (results e).

Definition computeState (e : circuitBreakerEntry) (now : Time) : circuitBreakerEntry :=
  let e := if is_time e then expireBuckets e now else e in
  match state e with
  | CircuitClosed =>
      if (0 <? failThresh e) && (failThresh e <=? window_failures e) then
        e <| state := CircuitOpen |> <| openSince := now |>
      else e
  | CircuitOpen =>
      if recoveryTO e <=? time_Sub now (openSince e) then
        (invalidateAttempts e) <| state := CircuitHalfOpen |> <| results := [] |> <| buckets := [] |>
      else e
  | CircuitHalfOpen =>
      if 0 <? result_failures (results e) then
        (invalidateAttempts e) <| state := CircuitOpen |> <| openSince := now |>
          <| results := [] |> <| buckets := [] |>
      else
        let thr := if hoSuccessThr e <=? 0 then 1 else hoSuccessThr e in
        if thr <=? result_successes (results e) then
          (invalidateAttempts e) <| state := CircuitClosed |>
        else e
  end.

(** * Recording an outcome *)

(** The configuration part of [recordLocked], defaults included. *)
Definition configure (e : circuitBreakerEntry) (wType : string) (wSize fThresh hoThr : Z)
  (recovery : Duration) : circuitBreakerEntry :=
  e <| windowType := if is_empty wType then "count" else wType |>
    <| windowSize := if wSize <=? 0 then 100 else wSize |>
    <| failThresh := if fThresh <=? 0 then 5 else fThresh |>
    <| hoSuccessThr := if hoThr <=? 0 then 1 else hoThr |>
    <| recoveryTO := if recovery <=? 0 then 30 * Second else recovery |>.

(** [append] then drop the oldest sample when the list exceeds [limit]. *)
Definition push_result (rs : list bool) (success : bool) (limit : Z) : list bool :=
  let rs' := rs ++ [success] in
  if limit <? Z.of_nat (length rs') then tail rs' else rs'.

(** Count one outcome in the bucket of second [sec], the last one or a new one. *)
Definition push_bucket (bs : list timeBucket) (success : bool) (sec : Time) : list timeBucket :=
  let fresh := mkBucket sec (if success then 1 else 0) (if success then 0 else 1) in
  match last bs with
  | Some b =>
      if bk_timestamp b =? sec then
        removelast bs ++ [if success then mkBucket (bk_timestamp b) (wrap64 (bk_successes b + 1)) (bk_failures b)
                          else mkBucket (bk_timestamp b) (bk_successes b) (wrap64 (bk_failures b + 1))]
      else bs ++ [fresh]
  | None => bs ++ [fresh]
  end.

Definition record_sample (e : circuitBreakerEntry) (success : bool) (now : Time) : circuitBreakerEntry :=
  match state e with
  | CircuitHalfOpen =>
      let limit := if hoSuccessThr e <=? 0 then 1 else hoSuccessThr e in
      e <| results := push_result (results e) success limit |>
  | _ =>
      if is_time e then
        expireBuckets (e <| buckets := push_bucket (buckets e) success (truncate_second now) |>) now
      else e <| results := push_result (results e) success (windowSize e) |>
  end.

(** The reported threshold and value when the breaker trips. *)
Definition trip_report (e : circuitBreakerEntry) (oldState : CircuitState) (rate : float64) :
  circuitBreakerEntry :=
  let rated := flt fzero rate in
  match oldState with
  | CircuitHalfOpen =>
      if rated then e <| threshold := rate |> <| currentVal := of_int 100 |>
      else e <| threshold := of_int (failThresh e) |> <| currentVal := of_int 1 |>
  | _ =>
      let failures := window_failures e in
      let totalCalls := if is_time e then bucket_calls (buckets e) else Z.of_nat (length (results e)) in
      if rated then
        e <| threshold := rate |>
          <| currentVal := if 0 <? totalCalls
                           then fmul (fdiv (of_int failures) (of_int totalCalls)) (of_int 100)
                           else fzero |>
      else e <| threshold := of_int (failThresh e) |> <| currentVal := of_int failures |>
  end.

Definition recordLocked (e : circuitBreakerEntry) (success : bool) (now : Time) (wType : string)
  (wSize fThresh hoThr : Z) (recovery : Duration) (rate : float64) : circuitBreakerEntry :=
  let oldState := state e in
  let e1 := computeState (configure e wType wSize fThresh hoThr recovery) now in
  let e2 := computeState (record_sample e1 success now) now in
  if bool_decide (state e2 = CircuitOpen) && negb (bool_decide (oldState = CircuitOpen))
  then trip_report e2 oldState rate else e2.

(** The legacy automatic release of a half-open permit. *)
Definition legacy_release (e : circuitBreakerEntry) : circuitBreakerEntry :=
  if bool_decide (state e = CircuitHalfOpen) && (0 <? activeCalls e) && (permitToken e =? 0)
  then e <| activeCalls := activeCalls e - 1 |> else e.

Definition record (e : circuitBreakerEntry) (success : bool) (now : Time) (wType : string)
  (wSize fThresh hoThr : Z) (recovery : Duration) (rate : float64) : circuitBreakerEntry :=
  recordLocked (legacy_release e) success now wType wSize fThresh hoThr recovery rate.

(** * Resets and permits *)

Definition reset (e : circuitBreakerEntry) : circuitBreakerEntry :=
  invalidateAttempts (e <| state := CircuitClosed |> <| results := [] |> <| buckets := [] |>
                        <| openSince := zeroTime |>).

Definition checkAndResetOnVersionChangeLocked (e : circuitBreakerEntry) (version : Z) :
  circuitBreakerEntry * bool :=
  if policyVersion e =? 0 then (e <| policyVersion := version |>, false)
  else if policyVersion e =? version then (e, false)
  else ((reset e) <| policyVersion := version |>, true).

Definition tryAcquireHalfOpenPermit (e : circuitBreakerEntry) (enableActive : bool) :
  circuitBreakerEntry * bool :=
  match state e with
  | CircuitHalfOpen =>
      if enableActive then (e, false)
      else if activeCalls e <? 1 then (e <| activeCalls := activeCalls e + 1 |>, true)
      else (e, false)
  | s => (e, bool_decide (s = CircuitClosed))
  end.

(** A lease on one entry ([attemptPermit], the entry being addressed by key). *)
Record attemptPermit := mkPermit { ap_key : string; ap_epoch : Z; ap_token : Z; ap_version : Z }.

#[global] Instance eta_permit : Eta attemptPermit := fun p =>
  mkPermit (ap_key p) (ap_epoch p) (ap_token p) (ap_version p).

(** The locked section of [AcquireAttempt] for one entry: the permit, or [None]
    when the call is refused. *)
Definition acquire_entry (e : circuitBreakerEntry) (key : string) (enableActive : bool) (now : Time) :
  circuitBreakerEntry * option attemptPermit :=
  let e := computeState e now in
  match state e with
  | CircuitClosed => (e, Some (mkPermit key (attemptEpoch e) 0 (policyVersion e)))
  | CircuitOpen => (e, None)
  | CircuitHalfOpen =>
      if negb enableActive && (activeCalls e <? 1) then
        let token := uwrap64 (nextToken e + 1) in
        (e <| nextToken := token |> <| permitToken := token |> <| activeCalls := activeCalls e + 1 |>,
         Some (mkPermit key (attemptEpoch e) token (policyVersion e)))
      else (e, None)
  end.

(** The locked section of [releasePermits] for one permit. *)
Definition release_entry (e : circuitBreakerEntry) (p : attemptPermit) : circuitBreakerEntry :=
  if negb (ap_token p =? 0) && (attemptEpoch e =? ap_epoch p) && (permitToken e =? ap_token p)
  then e <| activeCalls := activeCalls e - 1 |> <| permitToken := 0 |> else e.

Arguments result_failures : simpl never.
Arguments result_successes : simpl never.
Arguments bucket_failures : simpl never.
Arguments bucket_calls : simpl never.
Arguments push_result : simpl never.
Arguments push_bucket : simpl never.

(** * The permit invariant *)

(** At most one half-open call is in flight; only a half-open breaker has one;
    an outstanding lease token belongs to that call and is the last one issued. *)
Record entry_wf (e : circuitBreakerEntry) : Prop := {
  wf_active : 0 <= activeCalls e <= 1;
  wf_half_open : 0 < activeCalls e -> state e = CircuitHalfOpen;
  wf_permit : permitToken e <> 0 -> activeCalls e = 1 /\ permitToken e = nextToken e
}.

Lemma newEntry_wf m : entry_wf (newEntry m).
Proof. split; cbn; lia. Qed.

(** Operations that leave the five permit fields alone. *)
Lemma entry_wf_frame e e' :
  state e' = state e -> activeCalls e' = activeCalls e -> permitToken e' = permitToken e ->
  nextToken e' = nextToken e -> entry_wf e -> entry_wf e'.
Proof. intros E1 E2 E3 E4 [A B C]. split; rewrite ?E1, ?E2, ?E3, ?E4; auto. Qed.

(** Close an [entry_wf] goal after the operation has been unfolded. *)
Ltac solve_wf := zbool; split; cbn in *; intuition (try lia; try congruence).

(** [computeState] first drops expired buckets of a time window. *)
Definition expired (e : circuitBreakerEntry) (now : Time) : circuitBreakerEntry :=
  if is_time e then expireBuckets e now else e.

Lemma expired_wf e now : entry_wf e -> entry_wf (expired e now).
Proof.
  unfold expired, expireBuckets. intros H.
  repeat split_match; (eapply entry_wf_frame; [..|exact H]); done.
Qed.

Lemma computeState_wf e now : entry_wf e -> entry_wf (computeState e now).
Proof.
  intros H. apply (expired_wf e now) in H. unfold computeState. fold (expired e now).
  set (x := expired e now) in *. clearbody x. clear e. destruct H as [A B C].
  unfold invalidateAttempts. destruct (state x) eqn:S; repeat split_match; try (by split; auto); solve_wf.
Qed.

Lemma record_sample_wf e b now : entry_wf e -> entry_wf (record_sample e b now).
Proof.
  unfold record_sample, expireBuckets. intros H.
  repeat split_match; (eapply entry_wf_frame; [..|exact H]); done.
Qed.

Lemma trip_report_wf e old r : entry_wf e -> entry_wf (trip_report e old r).
Proof.
  unfold trip_report. intros H.
  repeat split_match; (eapply entry_wf_frame; [..|exact H]); done.
Qed.

Lemma recordLocked_wf e b now wt ws ft ht rto fr :
  entry_wf e -> entry_wf (recordLocked e b now wt ws ft ht rto fr).
Proof.
  intros H. unfold recordLocked. set (c := configure _ _ _ _ _ _).
  assert (entry_wf c) as Hc by (eapply entry_wf_frame; [..|exact H]; done).
  assert (entry_wf (computeState (record_sample (computeState c now) b now) now)) as Hr
    by auto using computeState_wf, record_sample_wf.
  destruct (_ && _); auto using trip_report_wf.
Qed.

Lemma legacy_release_wf e : entry_wf e -> entry_wf (legacy_release e).
Proof.
  unfold legacy_release. intros [A B C]. destruct (_ && _) eqn:E; [|done]. zbool.
  solve_wf.
Qed.

Lemma reset_wf e : entry_wf (reset e).
Proof. split; cbn; lia. Qed.

Lemma check_version_wf e v : entry_wf e -> entry_wf (fst (checkAndResetOnVersionChangeLocked e v)).
Proof.
  unfold checkAndResetOnVersionChangeLocked. intros H.
  repeat split_match; cbn; [eapply entry_wf_frame; [..|exact H]; done|done|].
  eapply entry_wf_frame; [..|exact (reset_wf e)]; done.
Qed.

Lemma tryAcquire_wf e act : entry_wf e -> entry_wf (fst (tryAcquireHalfOpenPermit e act)).
Proof.
  unfold tryAcquireHalfOpenPermit. intros H. destruct (state e) eqn:S; try done.
  destruct act; [done|]. destruct (activeCalls e <? 1) eqn:E; [|done]. zbool.
  destruct H as [A B C]. solve_wf.
Qed.

Lemma acquire_entry_wf e k act now : entry_wf e -> entry_wf (fst (acquire_entry e k act now)).
Proof.
  unfold acquire_entry. intros H. apply (computeState_wf e now) in H.
  destruct (state (computeState e now)) eqn:S; try done.
  destruct (_ && _) eqn:E; [|done]. zbool. destruct H as [A B C].
  solve_wf.
Qed.

Lemma release_entry_wf e p : entry_wf e -> entry_wf (release_entry e p).
Proof.
  unfold release_entry. intros [A B C]. destruct (_ && _ && _) eqn:E; [|done]. zbool.
  solve_wf.
Qed.

#[export] Hint Resolve newEntry_wf computeState_wf recordLocked_wf legacy_release_wf reset_wf
  check_version_wf tryAcquire_wf acquire_entry_wf release_entry_wf : gw.
