(* ===== verification/BreakerLease.v ===== *)
(** pkg/core/circuit_breaker.go, leases: the critical sections a call attempt runs
    on a breaker entry, as an interleaving step relation over one entry and all
    outstanding leases on it.  Every constructor is one section executed under
    the entry's mutex; leases of different requests interleave arbitrarily. *)

From S2P Require Import Prelude GoFloat GoStrings Types Breaker.

(** What [recordOutcome] passes to an entry: the label fields and the arguments
    of [recordLocked]. *)
Record outcome_args := mkOutcome {
  oa_policyID : string;
  oa_policyName : string;
  oa_providerName : string;
  oa_endpointCode : string;
  oa_tenant : string;
  oa_traceID : string;
  oa_requestID : string;
  oa_success : bool;
  oa_now : Time;
  oa_windowType : string;
  oa_windowSize : Z;
  oa_failThresh : Z;
  oa_hoSuccessThr : Z;
  oa_recovery : Duration;
  oa_rate : float64
}.

Definition label_entry (e : circuitBreakerEntry) (a : outcome_args) : circuitBreakerEntry :=
  e <| policyID := oa_policyID a |> <| policyName := oa_policyName a |>
    <| providerName := oa_providerName a |> <| endpointCode := oa_endpointCode a |>
    <| lastTenant := oa_tenant a |> <| lastTraceID := oa_traceID a |>
    <| lastRequestID := oa_requestID a |>.

Definition record_args (e : circuitBreakerEntry) (a : outcome_args) : circuitBreakerEntry :=
  recordLocked e (oa_success a) (oa_now a) (oa_windowType a) (oa_windowSize a) (oa_failThresh a)
    (oa_hoSuccessThr a) (oa_recovery a) (oa_rate a).

(** [entry.attemptEpoch != permit.epoch || entry.policyVersion != permit.version], negated. *)
Definition permit_matches (e : circuitBreakerEntry) (p : attemptPermit) : bool :=
  (attemptEpoch e =? ap_epoch p) && (policyVersion e =? ap_version p).

(** First section of the lease branch of [recordOutcome]: the version check; the
    boolean tells whether the entry was reset. [None]: the lease is stale. *)
Definition lease_version (e : circuitBreakerEntry) (p : attemptPermit) (version : Z) :
  circuitBreakerEntry * attemptPermit * option bool :=
  if permit_matches e p then
    let '(e', versionReset) := checkAndResetOnVersionChangeLocked e version in
    let p' := p <| ap_version := policyVersion e' |> in
    (e', if versionReset then p' <| ap_epoch := attemptEpoch e' |> <| ap_token := 0 |> else p',
     Some versionReset)
  else (e, p, None).

(** Second section: recheck, label and record; a state change of the entry caused
    by this very record moves the lease to the new epoch without its permit. *)
Definition lease_record (e : circuitBreakerEntry) (p : attemptPermit) (a : outcome_args) :
  circuitBreakerEntry * attemptPermit :=
  if permit_matches e p then
    let e' := record_args (label_entry e a) a in
    (e', if ap_epoch p =? attemptEpoch e' then p
         else p <| ap_epoch := attemptEpoch e' |> <| ap_token := 0 |>)
  else (e, p).

(** Recording without a lease: label, legacy release, record. *)
Definition legacy_record (e : circuitBreakerEntry) (a : outcome_args) : circuitBreakerEntry :=
  record_args (legacy_release (label_entry e a)) a.

Record sys := mkSys { s_entry : circuitBreakerEntry; s_leases : list attemptPermit }.

Inductive step : sys -> sys -> Prop :=
| step_acquire e ls key act now e' p :
    acquire_entry e key act now = (e', Some p) -> step (mkSys e ls) (mkSys e' (p :: ls))
| step_refused e ls key act now e' :
    acquire_entry e key act now = (e', None) -> step (mkSys e ls) (mkSys e' ls)
| step_release e ls1 p ls2 :
    step (mkSys e (ls1 ++ p :: ls2)) (mkSys (release_entry e p) (ls1 ++ ls2))
| step_lease_version e ls1 p ls2 v e' p' r :
    lease_version e p v = (e', p', r) ->
    step (mkSys e (ls1 ++ p :: ls2)) (mkSys e' (ls1 ++ p' :: ls2))
| step_lease_record e ls1 p ls2 a e' p' :
    lease_record e p a = (e', p') ->
    step (mkSys e (ls1 ++ p :: ls2)) (mkSys e' (ls1 ++ p' :: ls2))
| step_legacy_record e ls a : step (mkSys e ls) (mkSys (legacy_record e a) ls)
| step_legacy_acquire e ls act : step (mkSys e ls) (mkSys (fst (tryAcquireHalfOpenPermit e act)) ls)
| step_legacy_release e ls : step (mkSys e ls) (mkSys (legacy_release e) ls)
| step_version e ls v : step (mkSys e ls) (mkSys (fst (checkAndResetOnVersionChangeLocked e v)) ls)
| step_reset e ls : step (mkSys e ls) (mkSys (reset e) ls)
| step_tick e ls now : step (mkSys e ls) (mkSys (computeState e now) ls).

(** States reachable from a fresh entry in [n] steps. *)
Inductive reach : nat -> sys -> Prop :=
| reach_init m : reach 0 (mkSys (newEntry m) [])
| reach_step n s s' : reach n s -> step s s' -> reach (S n) s'.

(** A lease that still owns the half-open permit of its entry. *)
Definition live (e : circuitBreakerEntry) (p : attemptPermit) : Prop :=
  ap_token p <> 0 /\ ap_epoch p = attemptEpoch e /\ ap_token p = permitToken e.

#[global] Instance live_dec e p : Decision (live e p).
Proof. unfold live. apply _. Defined.

(** * Frames: what an operation may do to the permit fields *)

Definition permit_frame (e e' : circuitBreakerEntry) : Prop :=
  nextToken e' = nextToken e /\
  (permitToken e' = 0 \/ permitToken e' = permitToken e /\ attemptEpoch e' = attemptEpoch e).

Lemma permit_frame_refl e e' :
  nextToken e' = nextToken e -> permitToken e' = permitToken e -> attemptEpoch e' = attemptEpoch e ->
  permit_frame e e'.
Proof. by split; auto. Qed.

Lemma permit_frame_trans a b c : permit_frame a b -> permit_frame b c -> permit_frame a c.
Proof. intros [E [H|[H1 H2]]] [F [G|[G1 G2]]]; split; [congruence|..]; intuition congruence. Qed.

Lemma computeState_frame e now : permit_frame e (computeState e now).
Proof.
  apply permit_frame_trans with (expired e now).
  - unfold expired, expireBuckets. repeat split_match; by apply permit_frame_refl.
  - unfold computeState. fold (expired e now). set (x := expired e now). clearbody x.
    unfold invalidateAttempts. repeat split_match; (by apply permit_frame_refl) || (split; cbn; auto).
Qed.

Lemma label_entry_wf e a : entry_wf e -> entry_wf (label_entry e a).
Proof. intros H. unfold label_entry. eapply entry_wf_frame; [..|exact H]; reflexivity. Qed.

Lemma record_args_wf e a : entry_wf e -> entry_wf (record_args e a).
Proof. intros H. unfold record_args. by apply recordLocked_wf. Qed.

Lemma trip_report_frame e old r : permit_frame e (trip_report e old r).
Proof. unfold trip_report. repeat split_match; by apply permit_frame_refl. Qed.

Lemma record_args_frame e a : permit_frame e (record_args e a).
Proof.
  unfold record_args, recordLocked. set (c := configure _ _ _ _ _ _).
  apply permit_frame_trans with c; [by apply permit_frame_refl|].
  set (d := computeState c (oa_now a)).
  apply permit_frame_trans with d; [apply computeState_frame|].
  set (f := record_sample d _ _).
  apply permit_frame_trans with f.
  { subst f. unfold record_sample, expireBuckets. repeat split_match; by apply permit_frame_refl. }
  eapply permit_frame_trans; [apply (computeState_frame f (oa_now a))|].
  destruct (_ && _); [apply trip_report_frame|by apply permit_frame_refl].
Qed.

Lemma reset_frame e : permit_frame e (reset e).
Proof. split; cbn; auto. Qed.

Lemma check_version_frame e v : permit_frame e (fst (checkAndResetOnVersionChangeLocked e v)).
Proof.
  unfold checkAndResetOnVersionChangeLocked.
  repeat split_match; cbn; (by apply permit_frame_refl) || (split; cbn; auto).
Qed.

Lemma tryAcquire_frame e act : permit_frame e (fst (tryAcquireHalfOpenPermit e act)).
Proof. unfold tryAcquireHalfOpenPermit. repeat split_match; by apply permit_frame_refl. Qed.

Lemma legacy_release_frame e : permit_frame e (legacy_release e).
Proof. unfold legacy_release. repeat split_match; by apply permit_frame_refl. Qed.

Lemma legacy_record_frame e a : permit_frame e (legacy_record e a).
Proof.
  unfold legacy_record. eapply permit_frame_trans; [|apply record_args_frame].
  eapply permit_frame_trans; [|apply legacy_release_frame]. by apply permit_frame_refl.
Qed.

(** * The lease invariant *)

Definition tokens (ls : list attemptPermit) : list Z := filter (fun t => t <> 0) (ap_token <$> ls).

Record sys_inv (n : nat) (s : sys) : Prop := {
  inv_wf : entry_wf (s_entry s);
  inv_next : 0 <= nextToken (s_entry s) <= Z.of_nat n;
  inv_tokens : Forall (fun p => 0 <= ap_token p <= nextToken (s_entry s)) (s_leases s);
  inv_distinct : NoDup (tokens (s_leases s));
  inv_owner : permitToken (s_entry s) <> 0 -> Exists (live (s_entry s)) (s_leases s)
}.

Lemma tokens_perm ls ls' : ls ≡ₚ ls' -> tokens ls ≡ₚ tokens ls'.
Proof. intros H. unfold tokens. by rewrite H. Qed.

Lemma sys_inv_perm n e ls ls' : ls ≡ₚ ls' -> sys_inv n (mkSys e ls) -> sys_inv n (mkSys e ls').
Proof.
  intros HP [W N T D O]. cbn in *. split; cbn; [done|done|by rewrite <- HP|..].
  - by rewrite <- (tokens_perm ls ls').
  - intros H. specialize (O H). rewrite Exists_exists in *. destruct O as (p & Hp & L).
    exists p. by rewrite <- HP.
Qed.

Lemma sys_inv_frame n e e' ls :
  entry_wf e' -> permit_frame e e' -> sys_inv n (mkSys e ls) -> sys_inv (S n) (mkSys e' ls).
Proof.
  intros W' [EN EP] [W N T D O]. cbn in *. split; cbn; rewrite ?EN; [done|lia|done|done|].
  intros H. destruct EP as [?|[EP EE]]; [done|]. rewrite EP in H.
  eapply Exists_impl; [by apply O|]. unfold live. rewrite EP, EE. done.
Qed.

(** The lease of the acting request changes with the entry: it keeps its identity
    or loses its token together with the entry's permit. *)
Lemma sys_inv_lease n e e' p p' ls :
  entry_wf e' -> permit_frame e e' ->
  (ap_token p' = ap_token p /\ ap_epoch p' = ap_epoch p) \/ (ap_token p' = 0 /\ permitToken e' = 0) ->
  sys_inv n (mkSys e (p :: ls)) -> sys_inv (S n) (mkSys e' (p' :: ls)).
Proof.
  intros W' F HP H. pose proof (sys_inv_frame n e e' (p :: ls) W' F H) as [W N T D O]. cbn in *.
  inversion_clear T as [|? ? Tp Tls].
  destruct HP as [[ET EE]|[ET EP]]; split; cbn; try done.
  - constructor; [by rewrite ET|done].
  - unfold tokens in *. cbn in *. by rewrite ET.
  - intros Hp. specialize (O Hp). rewrite Exists_cons in *. unfold live in *. by rewrite ET, EE.
  - constructor; [lia|done].
  - unfold tokens in *. cbn in *. rewrite ET. rewrite decide_False by (intros HH; by apply HH).
    case_decide; [|done]. by apply NoDup_cons in D as [_ ?].
Qed.

Lemma acquire_entry_inv n e ls key act now e' p :
  Z.of_nat n < two64 - 1 ->
  sys_inv n (mkSys e ls) -> acquire_entry e key act now = (e', Some p) ->
  sys_inv (S n) (mkSys e' (p :: ls)).
Proof.
  intros Hn H E. pose proof (acquire_entry_wf e key act now (inv_wf _ _ H)) as W'. rewrite E in W'. cbn in W'.
  pose proof (sys_inv_frame n e _ ls (computeState_wf e now (inv_wf _ _ H)) (computeState_frame e now) H) as H1.
  pose proof (inv_next _ _ H) as Hnext. cbn in Hnext.
  assert (nextToken (computeState e now) = nextToken e) as EN by apply computeState_frame.
  unfold acquire_entry in E. set (x := computeState e now) in *. clearbody x. clear H.
  destruct H1 as [W N T D O]. cbn in *.
  destruct (state x) eqn:S; [simplify_eq|done|].
  - split; cbn; [done|lia| |done|].
    + constructor; cbn; [lia|done].
    + intros Hp. apply Exists_cons. right. auto.
  - destruct (_ && _) eqn:G; [|done]. simplify_eq. zbool.
    rewrite (uwrap64_small (nextToken x + 1)) in W' |- * by (rewrite EN; unfold two64 in *; lia).
    split; cbn; [done|lia| | |].
    + constructor; cbn; [lia|]. eapply Forall_impl; [exact T|]. cbn. lia.
    + unfold tokens. cbn. rewrite decide_True by lia. apply NoDup_cons. split; [|done].
      rewrite list_elem_of_filter, list_elem_of_fmap. intros [_ (q & Eq & Hq)].
      rewrite Forall_forall in T. specialize (T q Hq). lia.
    + intros _. apply Exists_cons. left. unfold live. cbn. split_and!; [lia|done|done].
Qed.

Lemma release_entry_inv n e p ls :
  sys_inv n (mkSys e (p :: ls)) -> sys_inv (S n) (mkSys (release_entry e p) ls).
Proof.
  intros [W N T D O]. cbn in *. pose proof (release_entry_wf e p W) as W'.
  inversion_clear T as [|? ? Tp Tls].
  assert (NoDup (tokens ls)) as D'.
  { unfold tokens in *. cbn in D. case_decide; [|done]. by apply NoDup_cons in D as [_ ?]. }
  unfold release_entry in *. destruct (_ && _ && _) eqn:E; split; cbn in *; try done; try lia.
  intros Hp. specialize (O Hp). apply Exists_cons in O as [(L1 & L2 & L3)|]; [|done].
  apply andb_false_iff in E as [E|E]; [apply andb_false_iff in E as [E|E]|]; zbool; congruence.
Qed.

Lemma lease_version_inv n e p v e' p' r ls :
  lease_version e p v = (e', p', r) ->
  sys_inv n (mkSys e (p :: ls)) -> sys_inv (S n) (mkSys e' (p' :: ls)).
Proof.
  unfold lease_version. intros E H. pose proof (check_version_wf e v (inv_wf _ _ H)) as W.
  pose proof (check_version_frame e v) as F.
  destruct (permit_matches e p).
  - assert (snd (checkAndResetOnVersionChangeLocked e v) = true ->
            permitToken (fst (checkAndResetOnVersionChangeLocked e v)) = 0) as HR.
    { unfold checkAndResetOnVersionChangeLocked. by repeat split_match. }
    destruct (checkAndResetOnVersionChangeLocked e v) as [e1 b]. cbn in *. simplify_eq.
    eapply sys_inv_lease; [done|exact F| |exact H]. destruct b; cbn; auto.
  - simplify_eq. eapply sys_inv_lease; [apply (inv_wf _ _ H)|by apply permit_frame_refl|by left|done].
Qed.

Lemma lease_record_inv n e p a ls :
  sys_inv n (mkSys e (p :: ls)) ->
  sys_inv (S n) (mkSys (fst (lease_record e p a)) (snd (lease_record e p a) :: ls)).
Proof.
  unfold lease_record. intros H. destruct (permit_matches e p) eqn:M; cbn [fst snd].
  - assert (permit_frame e (record_args (label_entry e a) a)) as F.
    { apply permit_frame_trans with (label_entry e a); [by apply permit_frame_refl|apply record_args_frame]. }
    assert (entry_wf (record_args (label_entry e a) a)) as W
      by (apply record_args_wf, label_entry_wf, (inv_wf _ _ H)).
    generalize dependent (record_args (label_entry e a) a). intros e' F W.
    eapply sys_inv_lease; [done|exact F| |exact H].
    unfold permit_matches in M. zbool.
    destruct F as [_ [F|[F1 F2]]]; destruct (ap_epoch p =? _) eqn:Q; cbn; auto. zbool. congruence.
  - eapply sys_inv_lease; [apply (inv_wf _ _ H)|by apply permit_frame_refl|by left|done].
Qed.

Lemma step_inv n s s' :
  Z.of_nat n < two64 - 1 -> step s s' -> sys_inv n s -> sys_inv (S n) s'.
Proof.
  intros Hn Hs H. destruct Hs.
  - by eapply acquire_entry_inv.
  - assert (e' = computeState e now) as ->.
    { unfold acquire_entry in *. by repeat split_match; simplify_eq. }
    eapply sys_inv_frame; [|apply computeState_frame|exact H]. apply computeState_wf, (inv_wf _ _ H).
  - apply (release_entry_inv n e p). eapply sys_inv_perm; [|exact H]. symmetry. apply Permutation_middle.
  - eapply sys_inv_perm; [apply Permutation_middle|]. eapply lease_version_inv; [done|].
    eapply sys_inv_perm; [|exact H]. symmetry. apply Permutation_middle.
  - eapply sys_inv_perm; [apply Permutation_middle|].
    eapply (sys_inv_perm _ _ _ (p :: ls1 ++ ls2)) in H; [|symmetry; apply Permutation_middle].
    apply (lease_record_inv n e p a) in H. 
    match goal with E : lease_record _ _ _ = _ |- _ => by rewrite E in H end.
  - eapply sys_inv_frame; [|apply legacy_record_frame|exact H].
    apply record_args_wf, legacy_release_wf, label_entry_wf, (inv_wf _ _ H).
  - eapply sys_inv_frame; [|apply tryAcquire_frame|exact H]. apply tryAcquire_wf, (inv_wf _ _ H).
  - eapply sys_inv_frame; [|apply legacy_release_frame|exact H]. apply legacy_release_wf, (inv_wf _ _ H).
  - eapply sys_inv_frame; [|apply check_version_frame|exact H]. apply check_version_wf, (inv_wf _ _ H).
  - eapply sys_inv_frame; [|apply reset_frame|exact H]. apply reset_wf.
  - eapply sys_inv_frame; [|apply computeState_frame|exact H]. apply computeState_wf, (inv_wf _ _ H).
Qed.

Lemma reach_inv n s : reach n s -> Z.of_nat n < two64 -> sys_inv n s.
Proof.
  induction 1 as [m|n s s' _ IH Hs]; intros Hn.
  - split; cbn; [apply newEntry_wf|lia|constructor|constructor|done].
  - eapply step_inv; [|exact Hs|apply IH]; lia.
Qed.

(** C1: Half-open probing is exclusive under every interleaving of requests,
    resets, policy version changes and clock ticks: in any run of fewer than 2^64
    steps at most one half-open call is in flight, at most one outstanding lease
    owns the permit, and only a half-open breaker has one. *)
Theorem half_open_probe_exclusive n s (Hn : Z.of_nat n < two64) (Hs : reach n s) :
  0 <= activeCalls (s_entry s) <= 1 /\
  (length (filter (live (s_entry s)) (s_leases s)) <= 1)%nat /\
  (0 < activeCalls (s_entry s) -> state (s_entry s) = CircuitHalfOpen).
Proof.
  destruct (reach_inv n s Hs Hn) as [W N T D O]. split; [apply W|]. split; [|apply W].
  clear - D. induction (s_leases s) as [|p ls IH]; [cbn; lia|].
  rewrite filter_cons. unfold tokens in D. cbn in D. destruct (decide (live (s_entry s) p)) as [L|L].
  - rewrite decide_True in D by apply L. apply NoDup_cons in D as [Hp D].
    cbn. enough (filter (live (s_entry s)) ls = []) as -> by done.
    destruct (filter _ ls) as [|q r] eqn:F; [done|].
    assert (q ∈ filter (live (s_entry s)) ls) as Hq by (rewrite F; by left).
    apply list_elem_of_filter in Hq as [Lq Hq].
    destruct Hp. apply list_elem_of_filter. split; [apply L|].
    apply list_elem_of_fmap. exists q. split; [|done]. destruct L as (_ & _ & ->). symmetry. apply Lq.
  - apply IH. case_decide; [|done]. by apply NoDup_cons in D as [_ ?].
Qed.

(** Permits do not leak: whenever an entry records an outstanding lease token,
    some lease that has not been released yet owns it, and releasing that lease
    returns the breaker to zero half-open calls. *)
Theorem half_open_permit_returns n s (Hn : Z.of_nat n < two64) (Hs : reach n s)
  (Hp : permitToken (s_entry s) <> 0) :
  exists p, p ∈ s_leases s /\ live (s_entry s) p /\
    activeCalls (release_entry (s_entry s) p) = 0 /\ permitToken (release_entry (s_entry s) p) = 0.
Proof.
  destruct (reach_inv n s Hs Hn) as [W N T D O]. apply O, Exists_exists in Hp as (p & Hin & L).
  exists p. split; [done|]. split; [done|]. unfold release_entry. destruct L as (L1 & L2 & L3).
  rewrite L2, L3, !Z.eqb_refl. destruct (permitToken (s_entry s) =? 0) eqn:E; zbool; [congruence|].
  cbn. destruct (wf_permit _ W); [done|]. split; [lia|done].
Qed.

(** A run that trips a breaker, waits, and probes it with a lease. *)
Definition demo_outcome (success : bool) (now : Time) : outcome_args :=
  mkOutcome "p" "p" "openai" "e1" "" "" "" success now "count" 10 1 1 (5 * Second) fzero.

Definition demo_tripped : circuitBreakerEntry :=
  Eval vm_compute in legacy_record (newEntry "gpt") (demo_outcome false (100 * Second)).
Definition demo_lease : attemptPermit := mkPermit "e1" 1 1 0.
Definition demo_probed : circuitBreakerEntry :=
  Eval vm_compute in fst (acquire_entry demo_tripped "e1" false (106 * Second)).

Lemma demo_trip : legacy_record (newEntry "gpt") (demo_outcome false (100 * Second)) = demo_tripped.
Proof. vm_compute. reflexivity. Qed.
Lemma demo_acquire :
  acquire_entry demo_tripped "e1" false (106 * Second) = (demo_probed, Some demo_lease).
Proof. vm_compute. reflexivity. Qed.

Lemma demo_reach : reach 2 (mkSys demo_probed [demo_lease]).
Proof.
  assert (reach 1 (mkSys demo_tripped [])) as H.
  { rewrite <- demo_trip. eapply reach_step; [apply (reach_init "gpt")|]. apply step_legacy_record. }
  eapply reach_step; [exact H|]. exact (step_acquire _ _ _ _ _ _ _ demo_acquire).
Qed.

Lemma half_open_probe_exclusive_witness :
  0 <= activeCalls demo_probed <= 1 /\
  (length (filter (live demo_probed) [demo_lease]) <= 1)%nat /\
  (0 < activeCalls demo_probed -> state demo_probed = CircuitHalfOpen).
Proof. apply (half_open_probe_exclusive 2 (mkSys demo_probed [demo_lease])); [reflexivity|exact demo_reach]. Defined.

Lemma half_open_permit_returns_witness :
  exists p, p ∈ [demo_lease] /\ live demo_probed p /\
    activeCalls (release_entry demo_probed p) = 0 /\ permitToken (release_entry demo_probed p) = 0.
Proof.
  apply (half_open_permit_returns 2 (mkSys demo_probed [demo_lease])); [reflexivity|exact demo_reach|].
  vm_compute. discriminate.
Defined.
