(* ===== verification/BreakerWindow.v ===== *)
(** Functional correctness of the breaker entry: the count window refines a
    sliding window over the recorded history, half-open recovery, the open
    period, and what the decision depends on. *)

From S2P Require Import Prelude GoFloat GoStrings Types Breaker.

(** * One step of [computeState] by state *)

Lemma computeState_closed e now :
  is_time e = false -> state e = CircuitClosed ->
  computeState e now =
  if (0 <? failThresh e) && (failThresh e <=? result_failures (results e))
  then e <| state := CircuitOpen |> <| openSince := now |> else e.
Proof. intros T S. unfold computeState, window_failures. by rewrite T, S, T. Qed.

(** Everything [computeState] reads of a half-open or open entry survives the
    expiry of time buckets. *)
Lemma computeState_expired e now : exists x,
  computeState e now = computeState x now /\ expired x now = x /\
  x = expired e now /\ state x = state e /\ results x = results e /\ hoSuccessThr x = hoSuccessThr e /\
  openSince x = openSince e /\ recoveryTO x = recoveryTO e /\ failThresh x = failThresh e.
Proof.
  exists (expired e now). unfold computeState, expired, expireBuckets.
  destruct (is_time e) eqn:T; [|by rewrite T].
  destruct (windowSize e <=? 0) eqn:W; [by rewrite T, W|].
  unfold is_time in *. cbn. rewrite T, W. cbn.
  assert (forall p (l : list timeBucket), drop_while p (drop_while p l) = drop_while p l) as DD.
  { intros p l. destruct (drop_while p l) as [|y r] eqn:D; [done|]. cbn.
    by rewrite (drop_while_head _ _ _ _ D). }
  rewrite DD. done.
Qed.

Definition ho_threshold (ho : Z) : Z := if ho <=? 0 then 1 else ho.

Lemma ho_threshold_pos ho : 0 < ho_threshold ho.
Proof. unfold ho_threshold. destruct (ho <=? 0) eqn:E; zauto. Qed.

(** * Configuration of an entry *)

Section configured.
Context (wType : string) (w thr ho : Z) (rto : Duration) (rate : float64).

Definition rec1 (e : circuitBreakerEntry) (x : bool * Time) : circuitBreakerEntry :=
  record e (fst x) (snd x) wType w thr ho rto rate.

Definition recs (e : circuitBreakerEntry) (h : list (bool * Time)) : circuitBreakerEntry :=
  fold_left rec1 h e.

Lemma recs_cons e x h : recs e (x :: h) = recs (rec1 e x) h.
Proof. reflexivity. Qed.

Lemma recs_snoc e x h : recs e (h ++ [x]) = rec1 (recs e h) x.
Proof. unfold recs. by rewrite fold_left_app. Qed.

Lemma legacy_release_not_half e : state e <> CircuitHalfOpen -> legacy_release e = e.
Proof. intros H. unfold legacy_release. by rewrite bool_decide_eq_false_2. Qed.

(** The report on tripping touches neither the machine nor its windows. *)
Lemma trip_report_machine e old r :
  state (trip_report e old r) = state e /\ results (trip_report e old r) = results e /\
  buckets (trip_report e old r) = buckets e /\ openSince (trip_report e old r) = openSince e /\
  activeCalls (trip_report e old r) = activeCalls e /\ permitToken (trip_report e old r) = permitToken e /\
  hoSuccessThr (trip_report e old r) = hoSuccessThr e.
Proof. unfold trip_report. by repeat split_match. Qed.

Lemma recordLocked_machine e b now :
  let x := computeState (record_sample (computeState (configure e wType w thr ho rto) now) b now) now in
  let r := recordLocked e b now wType w thr ho rto rate in
  state r = state x /\ results r = results x /\ buckets r = buckets x /\ openSince r = openSince x /\
  activeCalls r = activeCalls x /\ permitToken r = permitToken x /\ hoSuccessThr r = hoSuccessThr x.
Proof.
  cbn zeta. unfold recordLocked. set (x := computeState (record_sample _ _ _) _). clearbody x.
  destruct (_ && _); [apply trip_report_machine|done].
Qed.
End configured.

(** * The count window *)

Definition lastn {A} (n : nat) (l : list A) : list A := drop (length l - n) l.

Lemma push_result_lastn (h : list bool) b w :
  0 < w -> push_result (lastn (Z.to_nat w) h) b w = lastn (Z.to_nat w) (h ++ [b]).
Proof.
  intros Hw. unfold push_result, lastn. rewrite !length_app, length_drop. cbn.
  destruct (w <? _) eqn:E; zbool.
  - assert (Z.to_nat w <= length h)%nat by lia.
    rewrite drop_app_le by lia.
    replace (length h + 1 - Z.to_nat w)%nat with (S (length h - Z.to_nat w)) by lia.
    destruct (drop (length h - Z.to_nat w) h) as [|x l] eqn:D.
    + apply (f_equal length) in D. rewrite length_drop in D. cbn in D. lia.
    + cbn. f_equal. replace (S (length h - Z.to_nat w)) with ((length h - Z.to_nat w) + 1)%nat by lia.
      rewrite <- drop_drop, D. done.
  - rewrite drop_app_le by lia.
    replace (length h + 1 - Z.to_nat w)%nat with 0%nat by lia.
    by replace (length h - Z.to_nat w)%nat with 0%nat by lia.
Qed.

Section count_window.
Context (w thr ho : Z) (rto : Duration) (rate : float64).
Context (Hw : 0 < w) (Hthr : 0 < thr).

Lemma closed_count_record e b now :
  state e = CircuitClosed -> result_failures (results e) < thr ->
  let e' := rec1 "count" w thr ho rto rate e (b, now) in
  results e' = push_result (results e) b w /\
  state e' = (if thr <=? result_failures (push_result (results e) b w) then CircuitOpen else CircuitClosed) /\
  (state e' = CircuitOpen -> openSince e' = now).
Proof.
  intros S F. unfold rec1, record. cbn [fst snd].
  rewrite legacy_release_not_half by (rewrite S; done).
  destruct (recordLocked_machine "count" w thr ho rto rate e b now) as (E1 & E2 & _ & E4 & _).
  cbn zeta in *. rewrite E1, E2, E4. clear E1 E2 E4.
  assert (is_time (configure e "count" w thr ho rto) = false) as T by done.
  rewrite (computeState_closed _ _ T) by (cbn; done).
  assert ((failThresh (configure e "count" w thr ho rto) <=?
           result_failures (results (configure e "count" w thr ho rto))) = false) as G.
  { cbn. destruct (thr <=? 0) eqn:?; zbool; apply Z.leb_gt; lia. }
  rewrite G, andb_false_r.
  set (x := record_sample _ _ _).
  assert (is_time x = false /\ state x = CircuitClosed /\ failThresh x = thr /\
          results x = push_result (results e) b w) as (X1 & X2 & X3 & X4).
  { subst x. unfold record_sample. cbn. rewrite S. cbn.
    destruct (thr <=? 0) eqn:?, (w <=? 0) eqn:?; zbool; try lia. done. }
  clearbody x. rewrite (computeState_closed x now X1 X2), X3, X4.
  replace (0 <? thr) with true by (symmetry; by apply Z.ltb_lt).
  cbn [andb]. destruct (thr <=? result_failures _); cbn; auto. by rewrite X2.
Qed.

(** Abstract specification: the failures among the last [w] outcomes reach [thr]. *)
Definition trips (h : list bool) : bool := thr <=? result_failures (lastn (Z.to_nat w) h).

Lemma count_window_quiet m h :
  (forall h1 h2, fst <$> h = h1 ++ h2 -> trips h1 = false) ->
  state (recs "count" w thr ho rto rate (newEntry m) h) = CircuitClosed /\
  results (recs "count" w thr ho rto rate (newEntry m) h) = lastn (Z.to_nat w) (fst <$> h).
Proof.
  induction h as [|[b now] h IH] using rev_ind; intros Hq; [done|].
  rewrite fmap_app in Hq. cbn in Hq. rewrite recs_snoc.
  destruct IH as [S R].
  { intros h1 h2 E. apply (Hq h1 (h2 ++ [b])). by rewrite E, app_assoc. }
  set (e := recs _ _ _ _ _ _ _ h) in *. clearbody e.
  destruct (closed_count_record e b now S) as (E1 & E2 & _).
  { rewrite R. apply Z.leb_gt. apply (Hq (fst <$> h) [b]). done. }
  rewrite E1, E2, R, push_result_lastn by done. rewrite fmap_app. cbn.
  pose proof (Hq ((fst <$> h) ++ [b]) []) as Q. unfold trips in Q. rewrite Q by by rewrite app_nil_r. done.
Qed.
End count_window.

(** C5: The closed breaker with a count window refines a sliding window over the
    whole history: as long as no prefix of the outcomes had reached the failure
    threshold within its last [w] outcomes, the entry is closed and stores
    exactly those last [w] outcomes, and the next outcome opens it, at its own
    time, exactly when the threshold is reached within the window ending there. *)
Theorem count_window_refinement w thr ho rto rate m h b now
  (Hw : 0 < w) (Hthr : 0 < thr)
  (Hquiet : forall h1 h2, fst <$> h = h1 ++ h2 -> trips w thr h1 = false) :
  let e := recs "count" w thr ho rto rate (newEntry m) (h ++ [(b, now)]) in
  results e = lastn (Z.to_nat w) ((fst <$> h) ++ [b]) /\
  state e = (if trips w thr ((fst <$> h) ++ [b]) then CircuitOpen else CircuitClosed) /\
  (state e = CircuitOpen -> openSince e = now).
Proof.
  destruct (count_window_quiet w thr ho rto rate Hw Hthr m h Hquiet) as [S R].
  rewrite recs_snoc. set (e := recs _ _ _ _ _ _ _ h) in *. clearbody e.
  destruct (closed_count_record w thr ho rto rate Hw Hthr e b now S) as (E1 & E2 & E3).
  { rewrite R. apply Z.leb_gt. apply (Hquiet (fst <$> h) []). by rewrite app_nil_r. }
  unfold trips. rewrite <- push_result_lastn, <- R by done. auto.
Qed.

Lemma count_window_refinement_witness :
  let e := recs "count" 3 2 1 Second fzero (newEntry "m") ([(true, 1); (false, 2); (true, 3)] ++ [(false, 4)]) in
  results e = lastn (Z.to_nat 3) ((fst <$> [(true, 1); (false, 2); (true, 3)]) ++ [false]) /\
  state e = (if trips 3 2 ((fst <$> [(true, 1); (false, 2); (true, 3)]) ++ [false]) then CircuitOpen else CircuitClosed) /\
  (state e = CircuitOpen -> openSince e = 4).
Proof.
  apply (count_window_refinement 3 2 1 Second fzero "m" [(true, 1); (false, 2); (true, 3)] false 4); [lia|lia|].
  intros h1 h2 E. cbn in E.
  destruct h1 as [|? [|? [|? [|? ?]]]]; cbn in E; simplify_eq; reflexivity.
Defined.

(** * Half-open recovery *)

Lemma result_failures_true k : result_failures (replicate k true) = 0.
Proof. apply countb_zero, Forall_forall. by intros ? [-> _]%elem_of_replicate. Qed.

Lemma result_successes_true k : result_successes (replicate k true) = Z.of_nat k.
Proof. unfold result_successes, countb. induction k as [|k IH]; cbn -[Z.of_nat]; [done|]. rewrite IH. lia. Qed.

Lemma computeState_half_open e now :
  state e = CircuitHalfOpen ->
  if 0 <? result_failures (results e) then
    state (computeState e now) = CircuitOpen /\ openSince (computeState e now) = now /\
    results (computeState e now) = [] /\ activeCalls (computeState e now) = 0 /\ permitToken (computeState e now) = 0
  else if ho_threshold (hoSuccessThr e) <=? result_successes (results e) then
    state (computeState e now) = CircuitClosed /\ activeCalls (computeState e now) = 0 /\ permitToken (computeState e now) = 0
  else state (computeState e now) = CircuitHalfOpen /\ results (computeState e now) = results e /\
       hoSuccessThr (computeState e now) = hoSuccessThr e.
Proof.
  intros S. destruct (computeState_expired e now) as (x & -> & Ex & _ & S' & <- & <- & _).
  unfold computeState. fold (expired x now). rewrite Ex, S', S. fold (ho_threshold (hoSuccessThr x)).
  destruct (0 <? result_failures (results x)); [done|].
  destruct (ho_threshold _ <=? _); [done|]. by rewrite S', S.
Qed.

Section half_open.
Context (wType : string) (w thr ho : Z) (rto : Duration) (rate : float64).

(** Half-open with [k] successes recorded so far and the permit returned. *)
Definition probing (k : nat) (e : circuitBreakerEntry) : Prop :=
  state e = CircuitHalfOpen /\ results e = replicate k true.

Lemma half_open_record k e b now :
  probing k e -> Z.of_nat k < ho_threshold ho ->
  let e' := rec1 wType w thr ho rto rate e (b, now) in
  if b then
    if ho_threshold ho =? Z.of_nat (S k) then state e' = CircuitClosed /\ activeCalls e' = 0
    else probing (S k) e'
  else state e' = CircuitOpen /\ openSince e' = now /\ results e' = [] /\ activeCalls e' = 0.
Proof.
  intros [S R] Hk. unfold rec1, record. cbn [fst snd].
  assert (state (legacy_release e) = CircuitHalfOpen /\ results (legacy_release e) = replicate k true) as [S1 R1].
  { unfold legacy_release. by destruct (_ && _ && _). }
  destruct (recordLocked_machine wType w thr ho rto rate (legacy_release e) b now) as (E1 & E2 & _ & E4 & E5 & _).
  cbn zeta in *. unfold probing. rewrite E1, E2, E4, E5. clear E1 E2 E4 E5.
  set (c := configure _ _ _ _ _ _).
  assert (state c = CircuitHalfOpen /\ results c = replicate k true /\ ho_threshold (hoSuccessThr c) = ho_threshold ho)
    as (C1 & C2 & C3).
  { subst c. cbn. rewrite S1, R1. split_and!; [done|done|]. unfold ho_threshold.
    destruct (ho <=? 0) eqn:?; zbool; [done|]. destruct (ho <=? 0) eqn:?; zauto. }
  clearbody c. pose proof (computeState_half_open c now C1) as HC.
  rewrite C2, result_failures_true, result_successes_true, C3 in HC. cbn [Z.ltb Z.compare] in HC.
  destruct (ho_threshold ho <=? Z.of_nat k) eqn:G; zbool; [lia|]. destruct HC as (D1 & D2 & D3).
  set (d := computeState c now) in *. clearbody d.
  assert (results (record_sample d b now) = replicate k true ++ [b] /\
          state (record_sample d b now) = CircuitHalfOpen /\
          hoSuccessThr (record_sample d b now) = hoSuccessThr d) as (X1 & X2 & X3).
  { unfold record_sample. rewrite D1. cbn. rewrite D2. split_and!; [|done..].
    unfold push_result. fold (ho_threshold (hoSuccessThr d)). rewrite D3, C3, length_app, length_replicate. cbn [length].
    destruct (ho_threshold ho <? _) eqn:?; zbool; [lia|done]. }
  set (x := record_sample d b now) in *. clearbody x.
  pose proof (computeState_half_open x now X2) as HX. rewrite X1, X3, D3, C3 in HX.
  destruct b.
  - rewrite <- replicate_S_end, result_failures_true, result_successes_true in HX. cbn [Z.ltb Z.compare] in HX.
    destruct (ho_threshold ho =? Z.of_nat (Datatypes.S k)) eqn:Q; zbool.
    + rewrite Q, Z.leb_refl in HX. intuition.
    + destruct (ho_threshold ho <=? _) eqn:?; zbool; [lia|]. intuition.
  - unfold result_failures in HX. rewrite countb_app in HX.
    pose proof (countb_bounds negb (replicate k true)). destruct (0 <? _) eqn:?; zbool; [intuition|].
    cbn in *. lia.
Qed.

Lemma half_open_successes k e h :
  probing k e -> Forall (fun x => fst x = true) h -> Z.of_nat (k + length h) < ho_threshold ho ->
  probing (k + length h) (recs wType w thr ho rto rate e h).
Proof.
  intros He Hh. revert k e He. induction Hh as [|[b now] h Hb _ IH]; intros k e He Hk.
  - by rewrite Nat.add_0_r.
  - cbn in Hb, Hk. subst b. rewrite recs_cons. cbn [length].
    pose proof (half_open_record k e true now He) as HR. cbn zeta in HR.
    destruct (ho_threshold ho =? _) eqn:Q; [zbool; lia|].
    replace (k + S (length h))%nat with (S k + length h)%nat by lia.
    apply IH; [apply HR|]; lia.
Qed.
End half_open.

(** Half-open recovery: from a half-open breaker with no outcome yet, any run
    of successes shorter than the required number keeps it half-open, the run of
    exactly that length closes it, and a failure after any shorter run reopens
    it with a fresh open period, an empty window and no probe in flight. *)
Theorem half_open_recovery wType w thr ho rto rate e h now
  (He : probing 0 e) (Hh : Forall (fun x => fst x = true) h)
  (Hlen : Z.of_nat (length h) < ho_threshold ho) :
  probing (length h) (recs wType w thr ho rto rate e h) /\
  (Z.of_nat (S (length h)) = ho_threshold ho ->
   state (recs wType w thr ho rto rate e (h ++ [(true, now)])) = CircuitClosed) /\
  let f := recs wType w thr ho rto rate e (h ++ [(false, now)]) in
  state f = CircuitOpen /\ openSince f = now /\ results f = [] /\ activeCalls f = 0.
Proof.
  pose proof (half_open_successes wType w thr ho rto rate 0 e h He Hh Hlen) as P. cbn in P.
  split; [done|]. rewrite !recs_snoc.
  set (x := recs _ _ _ _ _ _ e h) in *. clearbody x. split.
  - intros E. pose proof (half_open_record wType w thr ho rto rate _ x true now P Hlen) as R. cbn zeta in R.
    rewrite E, Z.eqb_refl in R. apply R.
  - exact (half_open_record wType w thr ho rto rate _ x false now P Hlen).
Qed.

Definition demo_half_open : circuitBreakerEntry :=
  Eval vm_compute in computeState (rec1 "count" 10 1 2 Second fzero (newEntry "m") (false, 5 * Second)) (7 * Second).

Lemma half_open_recovery_witness :
  probing (length [(true, 8 * Second)]) (recs "count" 10 1 2 Second fzero demo_half_open [(true, 8 * Second)]) /\
  (Z.of_nat (S (length [(true, 8 * Second)])) = ho_threshold 2 ->
   state (recs "count" 10 1 2 Second fzero demo_half_open ([(true, 8 * Second)] ++ [(true, 9 * Second)])) = CircuitClosed) /\
  let f := recs "count" 10 1 2 Second fzero demo_half_open ([(true, 8 * Second)] ++ [(false, 9 * Second)]) in
  state f = CircuitOpen /\ openSince f = 9 * Second /\ results f = [] /\ activeCalls f = 0.
Proof.
  apply (half_open_recovery "count" 10 1 2 Second fzero demo_half_open [(true, 8 * Second)] (9 * Second)).
  - split; reflexivity.
  - repeat constructor.
  - vm_compute. reflexivity.
Defined.

(** * The open period *)

Lemma computeState_open e now :
  state e = CircuitOpen ->
  if recoveryTO e <=? time_Sub now (openSince e) then
    state (computeState e now) = CircuitHalfOpen /\ results (computeState e now) = [] /\
    buckets (computeState e now) = [] /\ activeCalls (computeState e now) = 0 /\ permitToken (computeState e now) = 0
  else computeState e now = expired e now.
Proof.
  intros S. unfold computeState. fold (expired e now).
  assert (state (expired e now) = state e /\ recoveryTO (expired e now) = recoveryTO e /\
          openSince (expired e now) = openSince e) as (E1 & E2 & E3).
  { unfold expired, expireBuckets. by repeat split_match. }
  rewrite E1, E2, E3, S. by destruct (recoveryTO e <=? _).
Qed.

Definition recovery_period (rto : Duration) : Duration := if rto <=? 0 then 30 * Second else rto.

(** An open breaker rejects until its recovery period has elapsed: before that,
    no recorded outcome, success or failure, changes the state or the start of
    the open period; once it has elapsed, the next observation finds the breaker
    half-open with empty windows and no probe in flight. *)
Theorem open_period wType w thr ho rto rate e b now (He : state e = CircuitOpen) :
  (time_Sub now (openSince e) < recovery_period rto ->
   state (rec1 wType w thr ho rto rate e (b, now)) = CircuitOpen /\
   openSince (rec1 wType w thr ho rto rate e (b, now)) = openSince e) /\
  (recoveryTO e <= time_Sub now (openSince e) ->
   state (computeState e now) = CircuitHalfOpen /\ results (computeState e now) = [] /\
   activeCalls (computeState e now) = 0).
Proof.
  split; intros Ht.
  - unfold rec1, record. cbn [fst snd]. rewrite legacy_release_not_half by (by rewrite He).
    destruct (recordLocked_machine wType w thr ho rto rate e b now) as (-> & _ & _ & -> & _).
    set (c := configure _ _ _ _ _ _).
    assert (state c = CircuitOpen /\ openSince c = openSince e /\ recoveryTO c = recovery_period rto)
      as (C1 & C2 & C3) by done.
    clearbody c. rewrite <- C2, <- C3 in Ht. rewrite <- C2. clear C2 C3.
    pose proof (computeState_open c now C1) as HC.
    destruct (recoveryTO c <=? _) eqn:G; zbool; [lia|]. rewrite HC. clear G HC.
    set (x := record_sample _ _ _).
    assert (state x = CircuitOpen /\ openSince x = openSince c /\ recoveryTO x = recoveryTO c) as (X1 & X2 & X3).
    { subst x. unfold record_sample, expired, expireBuckets. by repeat split_match; cbn in *. }
    clearbody x. rewrite <- X2, <- X3 in Ht. pose proof (computeState_open x now X1) as HX.
    destruct (recoveryTO x <=? _) eqn:G; zbool; [lia|]. rewrite HX.
    unfold expired, expireBuckets. by repeat split_match; cbn.
  - pose proof (computeState_open e now He) as H. apply Z.leb_le in Ht. rewrite Ht in H. intuition.
Qed.

Definition demo_open : circuitBreakerEntry :=
  Eval vm_compute in rec1 "count" 10 1 2 Second fzero (newEntry "m") (false, 5 * Second).

Lemma open_period_witness :
  (time_Sub (5 * Second + 1) (openSince demo_open) < recovery_period Second ->
   state (rec1 "count" 10 1 2 Second fzero demo_open (true, 5 * Second + 1)) = CircuitOpen /\
   openSince (rec1 "count" 10 1 2 Second fzero demo_open (true, 5 * Second + 1)) = openSince demo_open) /\
  (recoveryTO demo_open <= time_Sub (5 * Second + 1) (openSince demo_open) ->
   state (computeState demo_open (5 * Second + 1)) = CircuitHalfOpen /\
   results (computeState demo_open (5 * Second + 1)) = [] /\ activeCalls (computeState demo_open (5 * Second + 1)) = 0).
Proof. apply open_period. reflexivity. Defined.

(** * What the decision does not depend on *)

Definition without_report (e : circuitBreakerEntry) : circuitBreakerEntry :=
  e <| threshold := fzero |> <| currentVal := fzero |>.

Lemma without_trip_report e old rate1 rate2 :
  without_report (trip_report e old rate1) = without_report (trip_report e old rate2).
Proof. unfold trip_report, without_report. destruct old, (flt fzero rate1), (flt fzero rate2); reflexivity. Qed.

(** The configured failure-rate threshold never influences the breaker: two
    recordings that differ only in it lead to the same entry up to the reported
    threshold and value.  A closed breaker opens on the failure count alone. *)
Theorem failure_rate_only_reported e b now wType w thr ho rto rate1 rate2 :
  without_report (recordLocked e b now wType w thr ho rto rate1) =
  without_report (recordLocked e b now wType w thr ho rto rate2).
Proof.
  unfold recordLocked. generalize (computeState (record_sample (computeState (configure e wType w thr ho rto) now) b now) now).
  intros x. destruct (_ && _); [apply without_trip_report|reflexivity].
Qed.
