(* ===== verification/BreakerTime.v ===== *)
(** The time window of a breaker entry refines a sliding window in seconds over
    the recorded history. *)

From S2P Require Import Prelude GoFloat GoStrings Types Breaker BreakerWindow.

(** * Bucket lists *)

(** Failures in buckets not older than [L]. *)
Definition failures_since (L : Time) (bs : list timeBucket) : Z :=
  fold_right (fun b n => (if L <=? bk_timestamp b then bk_failures b else 0) + n) 0 bs.

(** Failures of a history in seconds not older than [L]. *)
Definition history_failures (L : Time) (h : list (bool * Time)) : Z :=
  countb (fun x => negb (fst x) && (L <=? truncate_second (snd x))) h.

Lemma failures_since_cons L b bs :
  failures_since L (b :: bs) = (if L <=? bk_timestamp b then bk_failures b else 0) + failures_since L bs.
Proof. reflexivity. Qed.

Lemma failures_since_app L bs bs' : failures_since L (bs ++ bs') = failures_since L bs + failures_since L bs'.
Proof. unfold failures_since. induction bs as [|b bs IH]; cbn; [done|]. rewrite IH. lia. Qed.

Lemma failures_since_all L bs :
  Forall (fun b => L <= bk_timestamp b) bs -> failures_since L bs = bucket_failures bs.
Proof.
  unfold failures_since, bucket_failures. induction 1 as [|b bs Hb _ IH]; cbn; [done|].
  apply Z.leb_le in Hb. by rewrite Hb, IH.
Qed.

Lemma history_failures_bound L h : 0 <= history_failures L h <= Z.of_nat (length h).
Proof. apply countb_bounds. Qed.

(** The buckets [bs] represent the history [h] from second [L] on, the latest
    bucket being no later than [hi]. *)
Record represents (L hi : Time) (bs : list timeBucket) (h : list (bool * Time)) : Prop := {
  rep_sorted : StronglySorted (fun a b => bk_timestamp a < bk_timestamp b) bs;
  rep_low : Forall (fun b => L <= bk_timestamp b) bs;
  rep_high : Forall (fun b => bk_timestamp b <= hi) bs;
  rep_nonneg : Forall (fun b => 0 <= bk_failures b) bs;
  rep_sum : forall L', L <= L' -> failures_since L' bs = history_failures L' h
}.

Definition older (L : Time) (b : timeBucket) : bool := time_Before (bk_timestamp b) L.

Lemma drop_while_failures L bs L' :
  L <= L' -> failures_since L' (drop_while (older L) bs) = failures_since L' bs.
Proof.
  intros H. induction bs as [|b bs IH]; [done|]. cbn [drop_while]. unfold older at 1, time_Before.
  destruct (bk_timestamp b <? L) eqn:E; [|done]. zbool. rewrite IH, failures_since_cons.
  replace (L' <=? bk_timestamp b) with false; [done|]. symmetry. apply Z.leb_gt. lia.
Qed.

Lemma represents_expire L L' hi bs h :
  L <= L' -> represents L hi bs h -> represents L' hi (drop_while (older L') bs) h.
Proof.
  intros HL [S Lo Hi N Sum]. destruct (drop_while_suffix (older L') bs) as (k & E & Hk).
  assert (StronglySorted (fun a b => bk_timestamp a < bk_timestamp b) (drop_while (older L') bs)) as S'.
  { rewrite E in S. clear - S. induction k as [|x k IH]; [done|]. cbn in S. inversion S. auto. }
  rewrite E in Hi, N. apply Forall_app in Hi as [_ Hi]. apply Forall_app in N as [_ N].
  split; [done| |done|done|].
  - clear E Hi N Sum. destruct (drop_while (older L') bs) as [|b r] eqn:D; [constructor|].
    apply drop_while_head in D. unfold older, time_Before in D. zbool.
    inversion S' as [|? ? ? F]; subst. constructor; [lia|].
    eapply Forall_impl; [exact F|]. cbn. lia.
  - intros L'' H. rewrite drop_while_failures by done. apply Sum. lia.
Qed.

Lemma last_snoc_inv {A} (l : list A) x : last l = Some x -> l = removelast l ++ [x].
Proof.
  induction l as [|y [|z l] IH]; intros H; [done|by injection H as ->|].
  change (y :: z :: l = y :: (removelast (z :: l) ++ [x])). f_equal. apply IH. exact H.
Qed.

Lemma StronglySorted_snoc_lt (bs : list timeBucket) b :
  StronglySorted (fun a b => bk_timestamp a < bk_timestamp b) bs ->
  Forall (fun a => bk_timestamp a < bk_timestamp b) bs ->
  StronglySorted (fun a b => bk_timestamp a < bk_timestamp b) (bs ++ [b]).
Proof.
  induction 1 as [|x bs S IH F]; intros Hb; cbn; [repeat constructor|].
  inversion_clear Hb. constructor; [auto|]. apply Forall_app. split; [done|]. by constructor.
Qed.

Lemma history_failures_snoc L h b t :
  history_failures L (h ++ [(b, t)]) =
  history_failures L h + (if negb b && (L <=? truncate_second t) then 1 else 0).
Proof. unfold history_failures. rewrite countb_app. cbn. lia. Qed.

(** All but the last bucket of a sorted list are strictly earlier. *)
Lemma sorted_init_lt (bs : list timeBucket) b :
  StronglySorted (fun a b => bk_timestamp a < bk_timestamp b) (bs ++ [b]) ->
  StronglySorted (fun a b => bk_timestamp a < bk_timestamp b) bs /\
  Forall (fun a => bk_timestamp a < bk_timestamp b) bs.
Proof.
  induction bs as [|x bs IH]; cbn; intros S; [split; constructor|].
  inversion_clear S as [|? ? S' F]. destruct (IH S') as [S1 F1].
  apply Forall_app in F as [Fa Fb]. split; constructor; try done. by inversion Fb.
Qed.

Lemma represents_push L hi bs h b now :
  represents L hi bs h -> hi <= truncate_second now ->
  Z.of_nat (length h) < max_int64 ->
  L <= truncate_second now ->
  represents L (truncate_second now) (push_bucket bs b (truncate_second now)) (h ++ [(b, now)]).
Proof.
  intros [S Lo Hi N Sum] Hhi Hlen HL. unfold push_bucket. set (sec := truncate_second now) in *.
  assert (forall L' f, L <= L' -> failures_since L' bs = history_failures L' h ->
            f = (if b then 0 else 1) ->
            failures_since L' (bs ++ [mkBucket sec (if b then 1 else 0) f]) = history_failures L' (h ++ [(b, now)])) as Snew.
  { intros L' f _ E ->. rewrite failures_since_app, history_failures_snoc, E. cbn. fold sec.
    destruct b, (L' <=? sec); cbn; lia. }
  assert (Forall (fun x => bk_timestamp x <= sec) bs) as Hi' by (eapply Forall_impl; [exact Hi|]; cbn; lia).
  assert (Forall (fun x => bk_timestamp x < sec) bs -> represents L sec
            (bs ++ [mkBucket sec (if b then 1 else 0) (if b then 0 else 1)]) (h ++ [(b, now)])) as Hnew.
  { intros Hlt. split.
    - by apply StronglySorted_snoc_lt.
    - apply Forall_app. split; [done|]. by constructor.
    - apply Forall_app. split; [done|]. constructor; [cbn; lia|constructor].
    - apply Forall_app. split; [done|]. constructor; [destruct b; cbn; lia|constructor].
    - intros L' H. apply Snew; auto. }
  destruct (last bs) as [l|] eqn:El.
  2:{ apply Hnew. apply last_None in El. subst. constructor. }
  apply last_snoc_inv in El. set (ini := removelast bs) in *. clearbody ini.
  rewrite El in S. destruct (sorted_init_lt ini l S) as [Sini Fini].
  destruct (bk_timestamp l =? sec) eqn:Q; zbool.
  - assert (failures_since L bs = failures_since L ini + bk_failures l) as Hl.
    { rewrite El, failures_since_app. unfold failures_since at 2. cbn.
      replace (L <=? bk_timestamp l) with true by (symmetry; apply Z.leb_le; lia). lia. }
    rewrite El in Lo, Hi', N. apply Forall_app in Lo as [Lo1 Lo2]. apply Forall_app in Hi' as [Hi1 Hi2]. apply Forall_app in N as [N1 N2].
    inversion_clear N2 as [|? ? Nl _].
    assert (0 <= failures_since L ini) as Hini.
    { clear - N1. unfold failures_since. induction N1; cbn; [lia|]. destruct (_ <=? _); lia. }
    pose proof (history_failures_bound L h) as HB. rewrite <- Sum in HB by lia.
    rewrite (wrap64_small (bk_failures l + 1)) by (unfold in_int64, min_int64, max_int64 in *; lia).
    split.
    + apply StronglySorted_snoc_lt; [done|]. by destruct b.
    + apply Forall_app. split; [done|]. constructor; [destruct b; cbn; lia|constructor].
    + apply Forall_app. split; [done|]. constructor; [destruct b; cbn; lia|constructor].
    + apply Forall_app. split; [done|]. constructor; [destruct b; cbn; lia|constructor].
    + intros L' H. rewrite history_failures_snoc, <- Sum, El, !failures_since_app by done. fold sec. unfold failures_since. cbn.
      rewrite Q. destruct b; cbn; rewrite ?Q; destruct (L' <=? sec); cbn; lia.
  - apply Hnew. rewrite El in Hi' |- *. apply Forall_app in Hi' as [Hi1 Hi2]. inversion_clear Hi2.
    apply Forall_app. split; [|constructor; [lia|constructor]].
    eapply Forall_impl; [exact Fini|]. cbn. lia.
Qed.

(** * The closed breaker with a time window *)

Lemma computeState_closed_time e now :
  is_time e = true -> state e = CircuitClosed ->
  computeState e now =
  (let x := expireBuckets e now in
   if (0 <? failThresh x) && (failThresh x <=? bucket_failures (buckets x))
   then x <| state := CircuitOpen |> <| openSince := now |> else x).
Proof.
  intros T S. unfold computeState, window_failures. rewrite T.
  assert (state (expireBuckets e now) = CircuitClosed /\ is_time (expireBuckets e now) = true) as [-> ->].
  { unfold expireBuckets. by destruct (windowSize e <=? 0). }
  done.
Qed.

Lemma expireBuckets_projections e now :
  state (expireBuckets e now) = state e /\ is_time (expireBuckets e now) = is_time e /\
  failThresh (expireBuckets e now) = failThresh e /\ windowSize (expireBuckets e now) = windowSize e.
Proof. unfold expireBuckets. by destruct (windowSize e <=? 0). Qed.

Section time_window.
Context (w thr ho : Z) (rto : Duration) (rate : float64).
Context (Hw : 0 < w <= 9223372036) (Hthr : 0 < thr).

(** Start of the window at [now]. *)
Definition window_start (now : Time) : Time := now - w * Second.

Lemma expireBuckets_window e now :
  windowSize e = w ->
  buckets (expireBuckets e now) = drop_while (older (window_start now)) (buckets e).
Proof.
  intros E. unfold expireBuckets. rewrite E. destruct (w <=? 0) eqn:?; zbool; [lia|]. cbn.
  assert (wrap64 (- w) = - w) as -> by (apply wrap64_small; unfold in_int64, min_int64, max_int64; lia).
  unfold duration_mul, time_Add. rewrite wrap64_small.
  - unfold older, window_start. by replace (now + - w * Second) with (now - w * Second) by lia.
  - unfold in_int64, min_int64, max_int64, Second. lia.
Qed.

Lemma closed_time_record e b now :
  let L := window_start now in
  let bs := drop_while (older L) (push_bucket (drop_while (older L) (buckets e)) b (truncate_second now)) in
  let e' := rec1 "time" w thr ho rto rate e (b, now) in
  state e = CircuitClosed -> bucket_failures (drop_while (older L) (buckets e)) < thr ->
  buckets e' = bs /\ state e' = (if thr <=? bucket_failures bs then CircuitOpen else CircuitClosed).
Proof.
  cbn zeta. intros S F. unfold rec1, record. cbn [fst snd].
  rewrite legacy_release_not_half by (by rewrite S).
  destruct (recordLocked_machine "time" w thr ho rto rate e b now) as (-> & _ & -> & _).
  set (c := configure _ _ _ _ _ _).
  assert (is_time c = true /\ state c = CircuitClosed /\ windowSize c = w /\ failThresh c = thr /\ buckets c = buckets e)
    as (C1 & C2 & C3 & C4 & C5).
  { subst c. cbn. destruct (w <=? 0) eqn:?, (thr <=? 0) eqn:?; zbool; try lia. done. }
  clearbody c. rewrite (computeState_closed_time c now C1 C2). cbn zeta.
  destruct (expireBuckets_projections c now) as (P1 & P2 & P3 & P4).
  pose proof (expireBuckets_window c now C3) as P5. rewrite C2 in P1. rewrite C1 in P2. rewrite C4 in P3. rewrite C3 in P4.
  rewrite C5 in P5. set (d := expireBuckets c now) in *. clearbody d.
  rewrite P3, P5. destruct (thr <=? bucket_failures _) eqn:G; zbool; [lia|]. rewrite andb_false_r.
  set (x := record_sample d b now).
  assert (is_time x = true /\ state x = CircuitClosed /\ windowSize x = w /\ failThresh x = thr /\
          buckets x = drop_while (older (window_start now)) (push_bucket (buckets d) b (truncate_second now)))
    as (X1 & X2 & X3 & X4 & X5).
  { subst x. unfold record_sample. rewrite P1, P2.
    set (y := d <| buckets := push_bucket (buckets d) b (truncate_second now) |>).
    destruct (expireBuckets_projections y now) as (-> & -> & -> & ->). rewrite expireBuckets_window by done.
    split_and!; done. }
  clearbody x. rewrite (computeState_closed_time x now X1 X2). cbn zeta.
  destruct (expireBuckets_projections x now) as (Q1 & _ & Q3 & _).
  pose proof (expireBuckets_window x now X3) as Q5. rewrite X2 in Q1. rewrite X4 in Q3.
  set (y := expireBuckets x now) in *. clearbody y. rewrite X5, P5 in Q5. clear X5.
  set (l := push_bucket _ _ _) in *. clearbody l.
  assert (drop_while (older (window_start now)) (drop_while (older (window_start now)) l) =
          drop_while (older (window_start now)) l) as DD.
  { destruct (drop_while _ l) as [|z r] eqn:D; [done|]. cbn. by rewrite (drop_while_head _ _ _ _ D). }
  rewrite DD in Q5. rewrite Q3, Q5.
  replace (0 <? thr) with true by (symmetry; by apply Z.ltb_lt). cbn [andb].
  destruct (thr <=? _); cbn; rewrite ?Q1, ?Q5; done.
Qed.

(** Abstract specification: the failures of the last [w] seconds reach [thr]. *)
Definition trips_time (h : list (bool * Time)) : bool :=
  match last h with
  | Some (_, t) => thr <=? history_failures (window_start t) h
  | None => false
  end.

Definition monotone (h : list (bool * Time)) : Prop :=
  StronglySorted (fun x y => snd x <= snd y) h.

Lemma truncate_second_mono t t' : t <= t' -> truncate_second t <= truncate_second t'.
Proof.
  unfold truncate_second, Second. intros.
  rewrite (Z.mod_eq t), (Z.mod_eq t') by lia.
  pose proof (Z.div_le_mono t t' 1000000000). lia.
Qed.

Lemma window_start_truncate t : window_start t <= truncate_second t.
Proof.
  unfold window_start, truncate_second, Second. pose proof (Z.mod_pos_bound t 1000000000). lia.
Qed.

Lemma history_failures_mono L L' h : L <= L' -> history_failures L' h <= history_failures L h.
Proof.
  intros H. unfold history_failures, countb. induction h as [|[b t] h IH]; cbn; [done|].
  destruct b; cbn; [done|]. destruct (L' <=? _) eqn:?, (L <=? truncate_second t) eqn:?; zbool; lia.
Qed.

Lemma monotone_snoc h x : monotone (h ++ [x]) -> monotone h /\ Forall (fun y => snd y <= snd x) h.
Proof.
  unfold monotone. induction h as [|y h IH]; cbn; intros S; [split; constructor|].
  inversion_clear S as [|? ? S' F]. destruct (IH S') as [S1 F1].
  apply Forall_app in F as [Fa Fb]. split; constructor; try done. by inversion Fb.
Qed.

Lemma time_record_represents e h b now L hi :
  represents L hi (buckets e) h -> L <= window_start now -> hi <= truncate_second now ->
  Z.of_nat (length h) < max_int64 ->
  let bs := drop_while (older (window_start now))
              (push_bucket (drop_while (older (window_start now)) (buckets e)) b (truncate_second now)) in
  represents (window_start now) (truncate_second now) bs (h ++ [(b, now)]).
Proof.
  intros R HL Hhi Hlen. cbn zeta. apply (represents_expire (window_start now)); [lia|].
  apply (represents_push _ hi); [by apply (represents_expire L)|done|done|apply window_start_truncate].
Qed.

(** A quiet history represented up to its last outcome is represented, and below
    the threshold, at the start of the window of any later time. *)
Lemma window_ready bs h now :
  match last h with
  | Some (_, t) => represents (window_start t) (truncate_second t) bs h
  | None => bs = []
  end ->
  Forall (fun x => snd x <= now) h -> trips_time h = false ->
  exists L hi, represents L hi bs h /\ L <= window_start now /\ hi <= truncate_second now /\
               history_failures (window_start now) h < thr.
Proof.
  intros R Hle Hh. unfold trips_time in Hh. destruct (last h) as [[b' t]|] eqn:El.
  - assert (t <= now) as Ht.
    { apply last_Some in El as [h' ->]. apply Forall_app in Hle as [_ Hle]. by inversion Hle. }
    exists (window_start t), (truncate_second t). zbool. split; [done|]. split; [unfold window_start; lia|].
    split; [by apply truncate_second_mono|].
    pose proof (history_failures_mono (window_start t) (window_start now) h). unfold window_start in *. lia.
  - apply last_None in El. subst h bs. exists (window_start now), (truncate_second now).
    split; [|unfold history_failures, countb; cbn; lia]. split; constructor || done.
Qed.

Lemma time_window_quiet m h :
  monotone h -> Z.of_nat (length h) < max_int64 ->
  (forall h1 h2, h = h1 ++ h2 -> trips_time h1 = false) ->
  let e := recs "time" w thr ho rto rate (newEntry m) h in
  state e = CircuitClosed /\
  match last h with
  | Some (_, t) => represents (window_start t) (truncate_second t) (buckets e) h
  | None => buckets e = []
  end.
Proof.
  cbn zeta. induction h as [|[b now] h IH] using rev_ind; intros Hm Hlen Hq; [done|].
  apply monotone_snoc in Hm as [Hm Hle]. rewrite length_app in Hlen. cbn in Hlen.
  destruct IH as [S R]; [done|lia|intros h1 h2 ->; apply (Hq h1 (h2 ++ [(b, now)])); by rewrite app_assoc|].
  rewrite recs_snoc, last_snoc. set (e := recs _ _ _ _ _ _ _ h) in *. clearbody e.
  destruct (window_ready (buckets e) h now R Hle (Hq h [(b, now)] eq_refl)) as (L & hi & RE & HL & Hhi & HF).
  assert (Z.of_nat (length h) < max_int64) as Hl by lia.
  pose proof (represents_expire L (window_start now) hi _ _ HL RE) as RX.
  pose proof (time_record_represents e h b now L hi RE HL Hhi Hl) as RN. cbn zeta in RN.
  destruct (closed_time_record e b now S) as [E1 E2].
  { rewrite <- failures_since_all with (L := window_start now) by apply RX. by rewrite (rep_sum _ _ _ _ RX) by lia. }
  rewrite E1, E2. split; [|done].
  rewrite <- failures_since_all with (L := window_start now) by apply RN. rewrite (rep_sum _ _ _ _ RN) by lia.
  pose proof (Hq (h ++ [(b, now)]) []) as Q. rewrite app_nil_r in Q. specialize (Q eq_refl).
  unfold trips_time in Q. rewrite last_snoc in Q. by rewrite Q.
Qed.
End time_window.

(** C12: The closed breaker with a time window refines a sliding window in seconds
    over the whole history, for non-decreasing clocks: as long as no outcome
    found the failure threshold reached among the outcomes of the last [w]
    seconds (counted by the second they fall in), the breaker is closed, and the
    next outcome opens it exactly when it finds the threshold reached. *)
Theorem time_window_refinement w thr ho rto rate m h b now
  (Hw : 0 < w <= 9223372036) (Hthr : 0 < thr)
  (Hmono : monotone (h ++ [(b, now)])) (Hlen : Z.of_nat (length h) < max_int64)
  (Hquiet : forall h1 h2, h = h1 ++ h2 -> trips_time w thr h1 = false) :
  state (recs "time" w thr ho rto rate (newEntry m) h) = CircuitClosed /\
  state (recs "time" w thr ho rto rate (newEntry m) (h ++ [(b, now)])) =
    (if trips_time w thr (h ++ [(b, now)]) then CircuitOpen else CircuitClosed).
Proof.
  apply monotone_snoc in Hmono as [Hm Hle].
  destruct (time_window_quiet w thr ho rto rate Hw Hthr m h Hm Hlen Hquiet) as [S R].
  split; [done|]. rewrite recs_snoc. set (e := recs _ _ _ _ _ _ _ h) in *. clearbody e.
  destruct (window_ready w thr Hthr (buckets e) h now R Hle) as (L & hi & RE & HL & Hhi & HF).
  { apply (Hquiet h []). by rewrite app_nil_r. }
  pose proof (represents_expire L (window_start w now) hi _ _ HL RE) as RX.
  pose proof (time_record_represents w Hw e h b now L hi RE HL Hhi Hlen) as RN. cbn zeta in RN.
  destruct (closed_time_record w thr ho rto rate Hw Hthr e b now S) as [_ E2].
  { rewrite <- failures_since_all with (L := window_start w now) by apply RX. by rewrite (rep_sum _ _ _ _ RX) by lia. }
  rewrite E2. rewrite <- failures_since_all with (L := window_start w now) by apply RN.
  rewrite (rep_sum _ _ _ _ RN) by lia. unfold trips_time. by rewrite last_snoc.
Qed.

Lemma time_window_refinement_witness :
  state (recs "time" 5 2 1 Second fzero (newEntry "m") [(false, 100 * Second); (true, 104 * Second)]) = CircuitClosed /\
  state (recs "time" 5 2 1 Second fzero (newEntry "m") ([(false, 100 * Second); (true, 104 * Second)] ++ [(false, 105 * Second)])) =
    (if trips_time 5 2 ([(false, 100 * Second); (true, 104 * Second)] ++ [(false, 105 * Second)]) then CircuitOpen else CircuitClosed).
Proof.
  apply time_window_refinement; [lia|lia| |reflexivity|].
  - repeat constructor; cbn; unfold Second; lia.
  - intros h1 h2 E. destruct h1 as [|? [|? [|? ?]]]; cbn in E; simplify_eq; reflexivity.
Defined.

(** At the edge: the first failure is still counted five seconds later, and no
    longer six seconds later. *)
Example time_window_edge :
  trips_time 5 2 [(false, 100 * Second); (false, 105 * Second)] = true /\
  trips_time 5 2 [(false, 100 * Second); (false, 106 * Second)] = false.
Proof. vm_compute. split; reflexivity. Qed.
