(* ===== verification/BreakerManager.v ===== *)
(** pkg/core/circuit_breaker.go, manager level: the map of breaker entries (service
    key and endpoint ID), the two-layer attempt with its leases, the recording of
    outcomes under the circuit-break policies, and the queries the routers use.
    Entries are created on demand and never removed or replaced, so an entry
    pointer is identified with its key. *)

From Stdlib Require Import Ascii.
From S2P Require Import Prelude GoFloat GoStrings Types Policy Breaker BreakerLease.

(** * State *)

Record CBEvent := mkCBEvent {
  ev_Key : string;
  ev_ModelCode : string;
  ev_PolicyID : string;
  ev_PolicyName : string;
  ev_TenantCode : string;
  ev_ProviderName : string;
  ev_EndpointCode : string;
  ev_RequestID : string;
  ev_TraceID : string;
  ev_Threshold : option float64;
  ev_CurrentValue : option float64;
  ev_OldState : string;
  ev_NewState : string
}.

(** What leaves the manager: the metric samples and the open events. *)
Inductive notification :=
| NMetric (key model : string) (st : CircuitState)
| NEvent (evt : CBEvent).

Record CircuitBreakerManager := mkManager {
  entries : gmap string circuitBreakerEntry;
  metricsSet : bool;
  handlerSet : bool;
  notifications : list notification
}.

#[global] Instance eta_manager : Eta CircuitBreakerManager := fun m =>
  mkManager (entries m) (metricsSet m) (handlerSet m) (notifications m).

Definition NewCircuitBreakerManager : CircuitBreakerManager := mkManager ∅ false false [].

Definition containsColon (s : string) : bool := Contains s ":".

(** * State changes *)

Definition onStateChange (m : CircuitBreakerManager) (key : string) (oldState newState : CircuitState) :
  CircuitBreakerManager :=
  let e := entries m !! key in
  let fld (f : circuitBreakerEntry -> string) := match e with Some e => f e | None => "" end in
  let model0 := fld modelCode in
  let model :=
    if is_empty model0 && containsColon key then
      match SplitByte key ":"%char with _ :: part1 :: _ => part1 | _ => model0 end
    else model0 in
  let metric := if metricsSet m then [NMetric key model newState] else [] in
  let event :=
    if bool_decide (newState = CircuitOpen) && handlerSet m then
      [NEvent (mkCBEvent key model (fld policyID) (fld policyName) (fld lastTenant) (fld providerName)
                 (fld endpointCode) (fld lastRequestID) (fld lastTraceID) (threshold <$> e) (currentVal <$> e)
                 (CircuitState_String oldState) (CircuitState_String newState))]
    else [] in
  m <| notifications := notifications m ++ metric ++ event |>.

Definition notify_change (m : CircuitBreakerManager) (key : string) (old new : CircuitState) :
  CircuitBreakerManager :=
  if bool_decide (old = new) then m else onStateChange m key old new.

(** Replace the entry of [key]. *)
Definition set_entry (m : CircuitBreakerManager) (key : string) (e : circuitBreakerEntry) :
  CircuitBreakerManager := m <| entries := <[key := e]> (entries m) |>.

Definition GetEntryWithModel (m : CircuitBreakerManager) (key model : string) :
  CircuitBreakerManager * circuitBreakerEntry :=
  match entries m !! key with
  | Some e =>
      if is_empty model then (m, e)
      else let e' := e <| modelCode := model |> in (set_entry m key e', e')
  | None => let e := newEntry model in (set_entry m key e, e)
  end.

Definition getEntry (m : CircuitBreakerManager) (key : string) := GetEntryWithModel m key "".

(** * Queries and direct operations *)

(** [e.stateVal(now)] followed by the notification. *)
Definition observe (m : CircuitBreakerManager) (key : string) (e : circuitBreakerEntry) (now : Time) :
  CircuitBreakerManager * circuitBreakerEntry :=
  let e' := computeState e now in
  (notify_change (set_entry m key e') key (state e) (state e'), e').

Definition IsServiceOpen (m : CircuitBreakerManager) (key : string) (now : Time) :
  CircuitBreakerManager * bool :=
  match entries m !! key with
  | None => (m, false)
  | Some e => let '(m', e') := observe m key e now in (m', bool_decide (state e' = CircuitOpen))
  end.

Definition IsInstanceOpen (m : CircuitBreakerManager) (endpointID : string) (now : Time) :
  CircuitBreakerManager * bool :=
  match entries m !! endpointID with
  | None => (m, false)
  | Some e => let '(m', e') := observe m endpointID e now in (m', bool_decide (state e' = CircuitOpen))
  end.

Definition GetState (m : CircuitBreakerManager) (key : string) (now : Time) :
  CircuitBreakerManager * CircuitState :=
  match entries m !! key with
  | None => (m, CircuitClosed)
  | Some e => let '(m', e') := observe m key e now in (m', state e')
  end.

Definition Reset (m : CircuitBreakerManager) (key : string) : CircuitBreakerManager :=
  let '(m, e) := getEntry m key in
  let e' := reset e in
  notify_change (set_entry m key e') key (state e) (state e').

Definition CheckAndResetOnVersionChange (m : CircuitBreakerManager) (key : string) (version : Z) :
  CircuitBreakerManager * bool :=
  let '(m, e) := getEntry m key in
  let '(e', changed) := checkAndResetOnVersionChangeLocked e version in
  let m := set_entry m key e' in
  if changed then (onStateChange m key CircuitOpen CircuitClosed, true) else (m, false).

Definition RecordRaw (m : CircuitBreakerManager) (key : string) (success : bool)
  (wSize minCalls allowed : Z) (recovery : Duration) (now : Time) : CircuitBreakerManager :=
  let '(m, e) := getEntry m key in
  let e' := record e success now "count" wSize minCalls allowed recovery fzero in
  notify_change (set_entry m key e') key (state e) (state e').

Definition AllowRequest (m : CircuitBreakerManager) (key : string) (enableActive : bool) (now : Time) :
  CircuitBreakerManager * bool :=
  match entries m !! key with
  | None => (m, true)
  | Some e =>
      let '(m', e') := observe m key e now in
      (m', match state e' with
           | CircuitClosed => true
           | CircuitOpen => false
           | CircuitHalfOpen => if enableActive then false else activeCalls e' <? 1
           end)
  end.

Definition AcquireHalfOpenPermit (m : CircuitBreakerManager) (key : string) (enableActive : bool) :
  CircuitBreakerManager * bool :=
  match entries m !! key with
  | None => (m, true)
  | Some e => let '(e', ok) := tryAcquireHalfOpenPermit e enableActive in (set_entry m key e', ok)
  end.

Definition ReleaseHalfOpenPermit (m : CircuitBreakerManager) (key : string) : CircuitBreakerManager :=
  match entries m !! key with
  | None => m
  | Some e => set_entry m key (legacy_release e)
  end.

Definition releasePermitsWithoutPolicy (m : CircuitBreakerManager) (ep : option Endpoint) :
  CircuitBreakerManager :=
  match ep with
  | None => m
  | Some ep => ReleaseHalfOpenPermit (ReleaseHalfOpenPermit m (service_key ep)) (ep_ID ep)
  end.

Definition GetOpenSince (m : CircuitBreakerManager) (key : string) : Time :=
  match entries m !! key with
  | None => zeroTime
  | Some e => if bool_decide (state e = CircuitClosed) then zeroTime else openSince e
  end.

(** Go ranges over the map in an unspecified order; the lists are in the order of
    [map_to_list].  States are recomputed without notification. *)
Definition GetOpenBreakers (m : CircuitBreakerManager) (now : Time) :
  CircuitBreakerManager * (list string * list string) :=
  let es := (fun e => computeState e now) <$> entries m in
  let opened := filter (fun ke => state (snd ke) = CircuitOpen) (map_to_list es) in
  let labelled ke := negb (is_empty (endpointCode (snd ke))) || negb (is_empty (providerName (snd ke))) in
  (m <| entries := es |>,
   (fst <$> filter (fun ke => labelled ke = true) opened,
    fst <$> filter (fun ke => labelled ke = false) opened)).

(** * Attempts *)

Record CircuitBreakerAttempt := mkAttempt {
  at_endpoint : option Endpoint;
  at_permits : list attemptPermit;
  at_done : bool
}.

Definition release_permit (m : CircuitBreakerManager) (p : attemptPermit) : CircuitBreakerManager :=
  match entries m !! ap_key p with
  | Some e => set_entry m (ap_key p) (release_entry e p)
  | None => m
  end.

Definition releasePermits (m : CircuitBreakerManager) (ps : list attemptPermit) : CircuitBreakerManager :=
  fold_left release_permit ps m.

(** [sync.Once]: only the first of [Release], [RecordSuccess], [RecordFailure] acts. *)
Definition Release (m : CircuitBreakerManager) (a : CircuitBreakerAttempt) :
  CircuitBreakerManager * CircuitBreakerAttempt :=
  if at_done a then (m, a)
  else (releasePermits m (at_permits a), mkAttempt (at_endpoint a) (at_permits a) true).

(** One round of the acquisition loop. *)
Definition acquire_key (m : CircuitBreakerManager) (key model : string) (enableActive : bool) (now : Time) :
  CircuitBreakerManager * option attemptPermit :=
  let '(m, e) := GetEntryWithModel m key model in
  let '(e', permit) := acquire_entry e key enableActive now in
  (notify_change (set_entry m key e') key (state e) (state e'), permit).

Definition acquire_error (level key : string) : string :=
  level +:+ " breaker half-open permit acquisition failed: " +:+ key.

(** [now0] and [now1] are the clock readings of the two rounds. *)
Definition AcquireAttempt (m : CircuitBreakerManager) (ep : option Endpoint) (enableActive : bool)
  (now0 now1 : Time) : CircuitBreakerManager * (CircuitBreakerAttempt + string) :=
  match ep with
  | None => (m, inl (mkAttempt None [] false))
  | Some e =>
      let '(m1, p0) := acquire_key m (service_key e) (ep_Model e) enableActive now0 in
      match p0 with
      | None => (m1, inr (acquire_error "service" (service_key e)))
      | Some p0 =>
          let '(m2, p1) := acquire_key m1 (ep_ID e) (ep_Model e) enableActive now1 in
          match p1 with
          | None => (releasePermits m2 [p0], inr (acquire_error "instance" (ep_ID e)))
          | Some p1 => (m2, inl (mkAttempt ep [p0; p1] false))
          end
      end
  end.

(** * Recording an outcome *)

Definition circuitPolicyApplies (level : string) (service : bool) : bool :=
  let level := ToUpper level in
  if service then is_empty level || seqb level "SERVICE"
  else is_empty level || seqb level "INSTANCE" || seqb level "ENDPOINT".

(** What [recordOutcome] reads of the gateway context. [oc_policies] is [None]
    when the context or its policy is nil; [oc_matches] is [p.MatchError] on the
    upstream status, content type, error text and body. *)
Record outcome_ctx := mkOutcomeCtx {
  oc_policies : option (list (option CircuitBreakPolicy));
  oc_matches : CircuitBreakPolicy -> bool;
  oc_tenant : string;
  oc_request : option (string * string);
  oc_writer_trace : option string;
  oc_now : Time
}.

(** The trace and request IDs of an outcome. *)
Definition trace_ids (c : outcome_ctx) : string * string :=
  let '(trace, request) := match oc_request c with Some tr => tr | None => ("", "") end in
  let trace := if is_empty trace then match oc_writer_trace c with Some t => t | None => trace end else trace in
  (trace, if is_empty request then trace else request).

Definition outcome_of (c : outcome_ctx) (ep : Endpoint) (p : CircuitBreakPolicy) (success : bool) : outcome_args :=
  mkOutcome (cb_ID p) (cb_Name p) (ep_Provider ep) (ep_Code ep) (oc_tenant c)
    (fst (trace_ids c)) (snd (trace_ids c)) success (oc_now c) (cb_SlidingWindowType p)
    (cb_SlidingWindowSize p) (cb_MinCallsThreshold p) (cb_AllowedCallsInHalfOpenState p)
    (duration_mul (cb_WaitDurationInOpenState p) Millisecond) (cb_FailureRateThreshold p).

(** Without an attempt: version check, entry lookup, legacy record. *)
Definition record_legacy (m : CircuitBreakerManager) (key model : string) (version : Z) (a : outcome_args) :
  CircuitBreakerManager :=
  let '(m, _) := CheckAndResetOnVersionChange m key version in
  let '(m, e) := GetEntryWithModel m key model in
  let e' := legacy_record e a in
  notify_change (set_entry m key e') key (state e) (state e').

(** Update of the first permit with the given key. *)
Fixpoint update_permit (ps : list attemptPermit) (key : string) (p' : attemptPermit) : list attemptPermit :=
  match ps with
  | [] => []
  | p :: r => if seqb (ap_key p) key then p' :: r else p :: update_permit r key p'
  end.

(** With an attempt: only a lease that is still current records. *)
Definition record_lease (m : CircuitBreakerManager) (ps : list attemptPermit) (key : string) (version : Z)
  (a : outcome_args) : CircuitBreakerManager * list attemptPermit :=
  match List.find (fun p => seqb (ap_key p) key) ps, entries m !! key with
  | Some p, Some e =>
      match lease_version e p version with
      | (_, _, None) => (m, ps)
      | (e1, p1, Some versionReset) =>
          let m1 := set_entry m key e1 in
          let m1 := if versionReset then onStateChange m1 key CircuitOpen CircuitClosed else m1 in
          let '(e2, p2) := lease_record e1 p1 a in
          (notify_change (set_entry m1 key e2) key (state e1) (state e2), update_permit ps key p2)
      end
  | _, _ => (m, ps)
  end.

(** One policy applied to one of the two keys. *)
Definition record_policy_key (c : outcome_ctx) (ep : Endpoint) (success : bool) (p : CircuitBreakPolicy)
  (st : CircuitBreakerManager * option (list attemptPermit)) (ik : bool * string) :
  CircuitBreakerManager * option (list attemptPermit) :=
  let '(m, attempt) := st in
  let '(service, key) := ik in
  if negb (circuitPolicyApplies (cb_Level p) service) then st
  else
    let a := outcome_of c ep p success in
    match attempt with
    | None => (record_legacy m key (ep_Model ep) (cb_Version p) a, None)
    | Some ps => let '(m', ps') := record_lease m ps key (cb_Version p) a in (m', Some ps')
    end.

Definition record_policy (c : outcome_ctx) (ep : Endpoint) (success : bool)
  (st : CircuitBreakerManager * option (list attemptPermit)) (p : option CircuitBreakPolicy) :
  CircuitBreakerManager * option (list attemptPermit) :=
  match p with
  | None => st
  | Some p =>
      if negb success && negb (oc_matches c p) then st
      else fold_left (record_policy_key c ep success p) [(true, service_key ep); (false, ep_ID ep)] st
  end.

Definition recordOutcome (m : CircuitBreakerManager) (c : outcome_ctx) (ep : option Endpoint) (success : bool)
  (attempt : option (list attemptPermit)) : CircuitBreakerManager * option (list attemptPermit) :=
  match ep with
  | None => (m, attempt)
  | Some e =>
      match oc_policies c with
      | None | Some [] =>
          (match attempt with None => releasePermitsWithoutPolicy m ep | Some _ => m end, attempt)
      | Some ps => fold_left (record_policy c e success) ps (m, attempt)
      end
  end.

Definition RecordSuccess (m : CircuitBreakerManager) (c : outcome_ctx) (ep : option Endpoint) :=
  fst (recordOutcome m c ep true None).
Definition RecordFailure (m : CircuitBreakerManager) (c : outcome_ctx) (ep : option Endpoint) :=
  fst (recordOutcome m c ep false None).

(** [finish]: record under the lease, then the deferred release of the permits as
    the recording left them. *)
Definition finish (m : CircuitBreakerManager) (a : CircuitBreakerAttempt) (c : outcome_ctx) (success : bool) :
  CircuitBreakerManager * CircuitBreakerAttempt :=
  if at_done a then (m, a)
  else
    let '(m', ps) := recordOutcome m c (at_endpoint a) success (Some (at_permits a)) in
    let ps := default (at_permits a) ps in
    (releasePermits m' ps, mkAttempt (at_endpoint a) ps true).

(** * Every entry of the manager is well formed *)

Definition manager_wf (m : CircuitBreakerManager) : Prop := map_Forall (fun _ e => entry_wf e) (entries m).

Lemma entries_onStateChange m k o n : entries (onStateChange m k o n) = entries m.
Proof. reflexivity. Qed.
Lemma entries_notify m k o n : entries (notify_change m k o n) = entries m.
Proof. unfold notify_change. by destruct (bool_decide _). Qed.
Lemma entries_set m k e : entries (set_entry m k e) = <[k := e]> (entries m).
Proof. reflexivity. Qed.

#[local] Hint Rewrite entries_onStateChange entries_notify entries_set : cbm.

Lemma manager_wf_new : manager_wf NewCircuitBreakerManager.
Proof. apply map_Forall_empty. Qed.

(** Only the entries matter. *)
Lemma manager_wf_entries m m' : entries m' = entries m -> manager_wf m -> manager_wf m'.
Proof. unfold manager_wf. by intros ->. Qed.

Lemma manager_wf_set m k e : manager_wf m -> entry_wf e -> manager_wf (set_entry m k e).
Proof. intros Hm He. by apply map_Forall_insert_2. Qed.

Lemma manager_wf_notify m k o n : manager_wf m -> manager_wf (notify_change m k o n).
Proof. apply manager_wf_entries, entries_notify. Qed.

Lemma manager_wf_onStateChange m k o n : manager_wf m -> manager_wf (onStateChange m k o n).
Proof. by apply manager_wf_entries. Qed.

Lemma manager_wf_lookup m k e : manager_wf m -> entries m !! k = Some e -> entry_wf e.
Proof. intros H. by apply H. Qed.

#[local] Hint Resolve manager_wf_set manager_wf_notify manager_wf_onStateChange manager_wf_lookup : gw.

(** The entry [GetEntryWithModel] returns, before it is stored. *)
Definition entry_at (m : CircuitBreakerManager) (k model : string) : circuitBreakerEntry :=
  match entries m !! k with
  | Some e => if is_empty model then e else e <| modelCode := model |>
  | None => newEntry model
  end.

Lemma GetEntryWithModel_spec m k model :
  snd (GetEntryWithModel m k model) = entry_at m k model /\
  entries (fst (GetEntryWithModel m k model)) = <[k := entry_at m k model]> (entries m).
Proof.
  unfold GetEntryWithModel, entry_at. destruct (entries m !! k) eqn:E; [|done].
  destruct (is_empty model); [|done]. cbn. by rewrite insert_id.
Qed.

Lemma entry_at_wf m k model : manager_wf m -> entry_wf (entry_at m k model).
Proof.
  intros H. unfold entry_at. destruct (entries m !! k) eqn:E; eauto with gw.
  pose proof (manager_wf_lookup _ _ _ H E) as W.
  destruct (is_empty model); [done|]. by eapply entry_wf_frame; [..|exact W].
Qed.
#[local] Hint Resolve entry_at_wf : gw.

(** Split a [GetEntryWithModel] in the goal into its manager and its entry. *)
Ltac get_entry m1 H :=
  match goal with
  | |- context [GetEntryWithModel ?m ?k ?mo] =>
      let S := fresh "S" in
      pose proof (GetEntryWithModel_spec m k mo) as [S H];
      destruct (GetEntryWithModel m k mo) as [m1 ?]; cbn [fst snd] in S, H; subst
  end.

Lemma get_entry_wf m k mo m1 :
  manager_wf m -> entries m1 = <[k := entry_at m k mo]> (entries m) -> manager_wf m1.
Proof. intros H E. eapply (manager_wf_entries (set_entry m k (entry_at m k mo))); eauto with gw. Qed.
#[local] Hint Resolve get_entry_wf : gw.

Lemma observe_wf m k e now : manager_wf m -> entry_wf e -> manager_wf (fst (observe m k e now)).
Proof. unfold observe. cbn. eauto with gw. Qed.

Lemma legacy_record_wf e a : entry_wf e -> entry_wf (legacy_record e a).
Proof. intros H. unfold legacy_record. by apply record_args_wf, legacy_release_wf, label_entry_wf. Qed.

Lemma lease_version_wf e p v : entry_wf e -> entry_wf (fst (fst (lease_version e p v))).
Proof.
  intros H. unfold lease_version. destruct (permit_matches e p); [|done].
  pose proof (check_version_wf e v H) as W.
  by destruct (checkAndResetOnVersionChangeLocked e v) as [e' b]; destruct b.
Qed.

Lemma lease_record_wf e p a : entry_wf e -> entry_wf (fst (lease_record e p a)).
Proof.
  intros H. unfold lease_record. destruct (permit_matches e p); [|done].
  by apply record_args_wf, label_entry_wf.
Qed.
#[local] Hint Resolve observe_wf legacy_record_wf lease_version_wf lease_record_wf : gw.

Lemma query_wf m k now (f : circuitBreakerEntry -> bool) d :
  manager_wf m ->
  manager_wf (fst (match entries m !! k with
                   | None => (m, d)
                   | Some e => let '(m', e') := observe m k e now in (m', f e') end)).
Proof. intros H. destruct (entries m !! k) eqn:E; cbn; eauto with gw. Qed.

Lemma Reset_wf m k : manager_wf m -> manager_wf (Reset m k).
Proof. intros H. unfold Reset, getEntry. get_entry m1 E. eauto with gw. Qed.

Lemma CheckVersion_wf m k v : manager_wf m -> manager_wf (fst (CheckAndResetOnVersionChange m k v)).
Proof.
  intros H. unfold CheckAndResetOnVersionChange, getEntry. get_entry m1 E.
  pose proof (check_version_wf _ v (entry_at_wf m k "" H)) as W.
  destruct (checkAndResetOnVersionChangeLocked _ v) as [e' b]; destruct b; cbn in *; eauto with gw.
Qed.
#[local] Hint Resolve CheckVersion_wf : gw.

Lemma RecordRaw_wf m k b ws mc al r now : manager_wf m -> manager_wf (RecordRaw m k b ws mc al r now).
Proof.
  intros H. unfold RecordRaw, getEntry. get_entry m1 E. unfold record.
  set (x := legacy_release _). assert (entry_wf x) by (subst x; eauto with gw). clearbody x.
  eauto with gw.
Qed.

Lemma release_permit_wf m p : manager_wf m -> manager_wf (release_permit m p).
Proof. intros H. unfold release_permit. destruct (entries m !! ap_key p) eqn:E; eauto with gw. Qed.

Lemma releasePermits_wf ps m : manager_wf m -> manager_wf (releasePermits m ps).
Proof.
  unfold releasePermits. revert m. induction ps as [|p ps IH]; intros m H; cbn; [done|].
  by apply IH, release_permit_wf.
Qed.
#[local] Hint Resolve releasePermits_wf : gw.

Lemma ReleaseHalfOpenPermit_wf m k : manager_wf m -> manager_wf (ReleaseHalfOpenPermit m k).
Proof. intros H. unfold ReleaseHalfOpenPermit. destruct (entries m !! k) eqn:E; eauto with gw. Qed.

Lemma AcquireHalfOpenPermit_wf m k act : manager_wf m -> manager_wf (fst (AcquireHalfOpenPermit m k act)).
Proof.
  intros H. unfold AcquireHalfOpenPermit. destruct (entries m !! k) as [e|] eqn:E; [|done].
  pose proof (tryAcquire_wf e act ltac:(eauto with gw)) as W.
  destruct (tryAcquireHalfOpenPermit e act); cbn in *. eauto with gw.
Qed.
#[local] Hint Resolve ReleaseHalfOpenPermit_wf AcquireHalfOpenPermit_wf : gw.

Lemma acquire_key_wf m k mo act now : manager_wf m -> manager_wf (fst (acquire_key m k mo act now)).
Proof.
  intros H. unfold acquire_key. get_entry m1 E.
  pose proof (acquire_entry_wf _ k act now (entry_at_wf m k mo H)) as W.
  destruct (acquire_entry _ k act now); cbn in *. eauto with gw.
Qed.

Lemma AcquireAttempt_wf m ep act n0 n1 : manager_wf m -> manager_wf (fst (AcquireAttempt m ep act n0 n1)).
Proof.
  intros H. unfold AcquireAttempt. destruct ep as [e|]; [|done].
  pose proof (acquire_key_wf m (service_key e) (ep_Model e) act n0 H) as W1.
  destruct (acquire_key m _ _ _ _) as [m1 [p0|]]; [|done]. cbn in W1.
  pose proof (acquire_key_wf m1 (ep_ID e) (ep_Model e) act n1 W1) as W2.
  destruct (acquire_key m1 _ _ _ _) as [m2 [p1|]]; cbn [fst] in *; [done|]. by apply releasePermits_wf.
Qed.

Lemma record_legacy_wf m k mo v a : manager_wf m -> manager_wf (record_legacy m k mo v a).
Proof.
  intros H. unfold record_legacy. pose proof (CheckVersion_wf m k v H) as W.
  destruct (CheckAndResetOnVersionChange m k v) as [m1 b]; cbn in W.
  get_entry m2 E. apply manager_wf_notify, manager_wf_set; eauto with gw.
Qed.

Lemma record_lease_wf m ps k v a : manager_wf m -> manager_wf (fst (record_lease m ps k v a)).
Proof.
  intros H. unfold record_lease. destruct (List.find _ ps) as [p|]; [|done].
  destruct (entries m !! k) as [e|] eqn:E; [|done].
  pose proof (lease_version_wf e p v ltac:(eauto with gw)) as W.
  destruct (lease_version e p v) as [[e1 p1] [r|]]; [|done]; cbn in W.
  pose proof (lease_record_wf e1 p1 a W) as W2.
  destruct (lease_record e1 p1 a) as [e2 p2]; cbn [fst] in *.
  apply manager_wf_notify, manager_wf_set; [destruct r|]; eauto with gw.
Qed.

(** Folds that preserve an invariant of the first component. *)
Lemma fold_left_inv {A B} (P : A -> Prop) (f : A -> B -> A) l :
  (forall a b, P a -> P (f a b)) -> forall a, P a -> P (fold_left f l a).
Proof. intros Hf. induction l; cbn; auto. Qed.

Lemma recordOutcome_wf m c ep b att : manager_wf m -> manager_wf (fst (recordOutcome m c ep b att)).
Proof.
  intros H. unfold recordOutcome. destruct ep as [e|]; [|done].
  assert (manager_wf (fst (match att with None => releasePermitsWithoutPolicy m (Some e) | Some _ => m end, att))).
  { destruct att; cbn [fst releasePermitsWithoutPolicy]; eauto with gw. }
  destruct (oc_policies c) as [[|p ps]|]; [done| |done].
  apply (fold_left_inv (fun st => manager_wf (fst st))); [|done].
  intros st [q|] W; cbn [record_policy]; [|done]. destruct (_ && _); [done|].
  apply (fold_left_inv (fun st => manager_wf (fst st))); [|done].
  intros [m' att'] [s k] W'. unfold record_policy_key. destruct (negb _); [done|].
  destruct att' as [l|]; cbn [fst] in W'; [|by apply record_legacy_wf].
  pose proof (record_lease_wf m' l k (cb_Version q) (outcome_of c e q b) W') as W2.
  by destruct (record_lease m' l k _ _).
Qed.

Lemma finish_wf m a c b : manager_wf m -> manager_wf (fst (finish m a c b)).
Proof.
  intros H. unfold finish. destruct (at_done a); [done|].
  pose proof (recordOutcome_wf m c (at_endpoint a) b (Some (at_permits a)) H) as W.
  destruct (recordOutcome m c (at_endpoint a) b (Some (at_permits a))) as [m' ps]. cbn [fst] in *.
  by apply releasePermits_wf.
Qed.

Lemma GetOpenBreakers_wf m now : manager_wf m -> manager_wf (fst (GetOpenBreakers m now)).
Proof.
  intros H. unfold GetOpenBreakers, manager_wf. cbn. intros k e.
  rewrite lookup_fmap. destruct (entries m !! k) eqn:E; cbn; intros [= <-]. eauto with gw.
Qed.

(** * Programs over the manager *)

(** The public operations of the manager and of its attempts. *)
Inductive mgr_op :=
| MIsServiceOpen (k : string) (now : Time)
| MIsInstanceOpen (k : string) (now : Time)
| MGetState (k : string) (now : Time)
| MAllowRequest (k : string) (act : bool) (now : Time)
| MReset (k : string)
| MCheckVersion (k : string) (v : Z)
| MRecordRaw (k : string) (ok : bool) (ws mc al : Z) (r : Duration) (now : Time)
| MAcquirePermit (k : string) (act : bool)
| MReleasePermit (k : string)
| MOpenBreakers (now : Time)
| MAcquireAttempt (ep : option Endpoint) (act : bool) (n0 n1 : Time)
| MReleaseAttempt (a : CircuitBreakerAttempt)
| MFinish (a : CircuitBreakerAttempt) (c : outcome_ctx) (ok : bool)
| MRecord (c : outcome_ctx) (ep : option Endpoint) (ok : bool).

Definition run_op (m : CircuitBreakerManager) (op : mgr_op) : CircuitBreakerManager :=
  match op with
  | MIsServiceOpen k now => fst (IsServiceOpen m k now)
  | MIsInstanceOpen k now => fst (IsInstanceOpen m k now)
  | MGetState k now => fst (GetState m k now)
  | MAllowRequest k act now => fst (AllowRequest m k act now)
  | MReset k => Reset m k
  | MCheckVersion k v => fst (CheckAndResetOnVersionChange m k v)
  | MRecordRaw k ok ws mc al r now => RecordRaw m k ok ws mc al r now
  | MAcquirePermit k act => fst (AcquireHalfOpenPermit m k act)
  | MReleasePermit k => ReleaseHalfOpenPermit m k
  | MOpenBreakers now => fst (GetOpenBreakers m now)
  | MAcquireAttempt ep act n0 n1 => fst (AcquireAttempt m ep act n0 n1)
  | MReleaseAttempt a => fst (Release m a)
  | MFinish a c ok => fst (finish m a c ok)
  | MRecord c ep ok => if ok then RecordSuccess m c ep else RecordFailure m c ep
  end.

Lemma run_op_wf m op : manager_wf m -> manager_wf (run_op m op).
Proof.
  intros H. destruct op; cbn [run_op].
  - apply (query_wf m k now (fun e => bool_decide (state e = CircuitOpen)) false H).
  - apply (query_wf m k now (fun e => bool_decide (state e = CircuitOpen)) false H).
  - unfold GetState. destruct (entries m !! k) eqn:E; cbn; eauto with gw.
  - unfold AllowRequest. destruct (entries m !! k) eqn:E; cbn; eauto with gw.
  - by apply Reset_wf.
  - eauto with gw.
  - by apply RecordRaw_wf.
  - eauto with gw.
  - eauto with gw.
  - by apply GetOpenBreakers_wf.
  - by apply AcquireAttempt_wf.
  - unfold Release. destruct (at_done a); [done|]. cbn [fst]. eauto with gw.
  - by apply finish_wf.
  - destruct ok; by apply recordOutcome_wf.
Qed.

(** Whatever sequence of public operations is run on a fresh manager, every
    breaker has at most one half-open call in flight, only a half-open breaker has
    one, and an outstanding probe token is the latest one issued. *)
Theorem manager_invariant (ops : list mgr_op) (k : string) :
  match entries (fold_left run_op ops NewCircuitBreakerManager) !! k with
  | Some e => 0 <= activeCalls e <= 1 /\ (0 < activeCalls e -> state e = CircuitHalfOpen) /\
              (permitToken e <> 0 -> activeCalls e = 1 /\ permitToken e = nextToken e)
  | None => True
  end.
Proof.
  assert (manager_wf (fold_left run_op ops NewCircuitBreakerManager)) as H.
  { apply fold_left_inv; [apply run_op_wf|apply manager_wf_new]. }
  destruct (entries _ !! k) as [e|] eqn:E; [|done]. by destruct (H k e E).
Qed.

(** * The life of an attempt *)

(** Half-open calls in flight on a key. *)
Definition active_at (m : CircuitBreakerManager) (k : string) : Z :=
  match entries m !! k with Some e => activeCalls e | None => 0 end.

(** The permit owns whatever half-open call is in flight on its entry. *)
Definition settled (e : circuitBreakerEntry) (p : attemptPermit) : Prop :=
  activeCalls e = 0 \/ live e p.

(** Either no call is left in flight, or the permit fields are untouched. *)
Definition call_frame (e e' : circuitBreakerEntry) : Prop :=
  activeCalls e' = 0 \/
  activeCalls e' = activeCalls e /\ permitToken e' = permitToken e /\ attemptEpoch e' = attemptEpoch e.

Lemma call_frame_trans a b c : call_frame a b -> call_frame b c -> call_frame a c.
Proof. unfold call_frame. intros [H|(H1&H2&H3)] [G|(G1&G2&G3)]; intuition congruence. Qed.

Lemma computeState_call_frame e now : call_frame e (computeState e now).
Proof.
  apply call_frame_trans with (expired e now).
  - unfold expired, expireBuckets. repeat split_match; by right.
  - unfold computeState. fold (expired e now). set (x := expired e now). clearbody x.
    unfold invalidateAttempts. repeat split_match; (by right) || (by left).
Qed.

Lemma record_args_call_frame e a : call_frame e (record_args e a).
Proof.
  unfold record_args, recordLocked. set (c := configure _ _ _ _ _ _).
  apply call_frame_trans with c; [by right|].
  set (d := computeState c (oa_now a)).
  apply call_frame_trans with d; [apply computeState_call_frame|].
  set (f := record_sample d _ _).
  apply call_frame_trans with f.
  { subst f. unfold record_sample, expireBuckets. repeat split_match; by right. }
  set (g := computeState f (oa_now a)).
  apply call_frame_trans with g; [apply computeState_call_frame|].
  clearbody g. unfold trip_report. repeat split_match; by right.
Qed.

Lemma lease_version_settled e p v :
  settled e p -> settled (fst (fst (lease_version e p v))) (snd (fst (lease_version e p v))).
Proof.
  intros H. unfold lease_version. destruct (permit_matches e p) eqn:M; [|done].
  unfold checkAndResetOnVersionChangeLocked. repeat split_match; [|exact H|by left].
  destruct H as [H|H]; [by left|by right].
Qed.

Lemma lease_record_settled e p a :
  settled e p -> settled (fst (lease_record e p a)) (snd (lease_record e p a)).
Proof.
  intros H. unfold lease_record. destruct (permit_matches e p) eqn:M; [|done]. cbn [fst snd].
  pose proof (record_args_call_frame (label_entry e a) a) as F.
  set (x := record_args (label_entry e a) a) in *. clearbody x.
  destruct F as [F|(F1&F2&F3)]; [by left|]. cbn in F1, F2, F3.
  destruct H as [H|(H1&H2&H3)]; [left; congruence|].
  destruct (ap_epoch p =? attemptEpoch x) eqn:E; zbool; [|congruence].
  right. unfold live. intuition congruence.
Qed.

(** Releasing a settled permit leaves no call in flight. *)
Lemma release_settled e p : entry_wf e -> settled e p -> activeCalls (release_entry e p) = 0.
Proof.
  intros W. unfold release_entry, settled, live. intros [H|(H1&H2&H3)].
  - destruct (_ && _ && _) eqn:E; [|done]. zbool. destruct W as [? ? C].
    assert (permitToken e <> 0) as N by congruence. apply C in N. lia.
  - replace (_ && _ && _) with true.
    + cbn. destruct W as [? ? C]. assert (permitToken e <> 0) as N by congruence. apply C in N. lia.
    + symmetry. rewrite !andb_true_iff, negb_true_iff, Z.eqb_neq, !Z.eqb_eq. auto.
Qed.

(** The permits of an attempt: the service permit and the instance permit, each
    settled in the manager. *)
Definition attempt_settled (m : CircuitBreakerManager) (ep : Endpoint) (ps : list attemptPermit) : Prop :=
  exists p0 p1 e0 e1, ps = [p0; p1] /\ ap_key p0 = service_key ep /\ ap_key p1 = ep_ID ep /\
    entries m !! service_key ep = Some e0 /\ entries m !! ep_ID ep = Some e1 /\
    settled e0 p0 /\ settled e1 p1.

(** Token counters that have not come to the last 64-bit value. *)
Definition tokens_left (m : CircuitBreakerManager) : Prop :=
  map_Forall (fun _ e => 0 <= nextToken e < two64 - 1) (entries m).

Lemma acquire_entry_settled e k act now e' p :
  entry_wf e -> 0 <= nextToken e < two64 - 1 ->
  acquire_entry e k act now = (e', Some p) -> ap_key p = k /\ settled e' p.
Proof.
  intros W T. unfold acquire_entry.
  pose proof (computeState_wf e now W) as W'. destruct (computeState_frame e now) as [N _].
  set (x := computeState e now) in *. clearbody x. destruct W' as [A B C].
  destruct (state x) eqn:S; [|done|].
  - intros [= <- <-]. split; [done|left]. destruct (Z.eq_dec (activeCalls x) 0); [done|].
    assert (0 < activeCalls x) as P by lia. by apply B in P.
  - destruct (_ && _) eqn:E; [|done]. rewrite uwrap64_small by lia. intros [= <- <-].
    split; [done|right]. unfold live. cbn. repeat split. lia.
Qed.

Lemma entry_at_tokens m k mo : tokens_left m -> 0 <= nextToken (entry_at m k mo) < two64 - 1.
Proof.
  intros H. unfold entry_at. destruct (entries m !! k) as [e|] eqn:E; [|by cbn].
  specialize (H k e E). by destruct (is_empty mo).
Qed.

(** One round of the acquisition loop: the entry of the key, alone, is replaced. *)
Lemma acquire_key_entries m k mo act now :
  entries (fst (acquire_key m k mo act now)) =
    <[k := fst (acquire_entry (entry_at m k mo) k act now)]> (entries m) /\
  snd (acquire_key m k mo act now) = snd (acquire_entry (entry_at m k mo) k act now).
Proof.
  unfold acquire_key. get_entry m1 E. destruct (acquire_entry _ k act now) as [e' o]; cbn.
  rewrite entries_notify, entries_set, E, insert_insert_eq. done.
Qed.

Lemma acquire_key_settled m k mo act now m' p :
  manager_wf m -> tokens_left m -> acquire_key m k mo act now = (m', Some p) ->
  exists e, entries m' = <[k := e]> (entries m) /\ entry_wf e /\ ap_key p = k /\ settled e p.
Proof.
  intros W T H. destruct (acquire_key_entries m k mo act now) as [E1 E2].
  rewrite H in E1, E2; cbn [fst snd] in E1, E2.
  pose proof (acquire_entry_wf _ k act now (entry_at_wf m k mo W)) as We.
  pose proof (acquire_entry_settled (entry_at m k mo) k act now) as S.
  destruct (acquire_entry (entry_at m k mo) k act now) as [e o]; cbn [fst snd] in *. subst o.
  exists e. destruct (S e p) as [? ?]; auto using entry_at_wf, entry_at_tokens.
Qed.

Lemma AcquireAttempt_settled m ep act n0 n1 m' a :
  manager_wf m -> tokens_left m -> service_key ep <> ep_ID ep ->
  AcquireAttempt m (Some ep) act n0 n1 = (m', inl a) ->
  at_endpoint a = Some ep /\ at_done a = false /\ attempt_settled m' ep (at_permits a).
Proof.
  intros W T N. unfold AcquireAttempt.
  destruct (acquire_key m _ _ _ _) as [m1 [p0|]] eqn:E0; [|done].
  destruct (acquire_key_settled _ _ _ _ _ _ _ W T E0) as (e0 & R0 & W0 & K0 & S0).
  destruct (acquire_key m1 _ _ _ _) as [m2 [p1|]] eqn:E1; [|done]. intros [= <- <-].
  pose proof (acquire_key_entries m1 (ep_ID ep) (ep_Model ep) act n1) as [R1 Q1].
  rewrite E1 in R1, Q1; cbn [fst snd] in R1, Q1.
  assert (entry_at m1 (ep_ID ep) (ep_Model ep) = entry_at m (ep_ID ep) (ep_Model ep)) as Eat.
  { unfold entry_at. by rewrite R0, lookup_insert_ne. }
  rewrite Eat in R1, Q1.
  pose proof (acquire_entry_settled (entry_at m (ep_ID ep) (ep_Model ep)) (ep_ID ep) act n1) as S.
  destruct (acquire_entry _ (ep_ID ep) act n1) as [e1 o]; cbn [fst snd] in *. subst o.
  destruct (S e1 p1) as [K1 S1]; auto using entry_at_wf, entry_at_tokens.
  repeat split; auto. exists p0, p1, e0, e1. cbn. repeat split; auto.
  - rewrite R1, lookup_insert_ne, R0, lookup_insert_eq by done. done.
  - by rewrite R1, lookup_insert_eq.
Qed.

Lemma update_permit_id ps key p :
  List.find (fun p => seqb (ap_key p) key) ps = Some p -> update_permit ps key p = ps.
Proof.
  induction ps as [|q ps IH]; cbn; [done|].
  destruct (seqb (ap_key q) key); [by intros [= ->]|]. intros. by rewrite IH.
Qed.

Lemma lease_keys e p v a :
  ap_key (snd (fst (lease_version e p v))) = ap_key p /\ ap_key (snd (lease_record e p a)) = ap_key p.
Proof.
  split.
  - unfold lease_version, checkAndResetOnVersionChangeLocked. by repeat split_match.
  - unfold lease_record. generalize (record_args (label_entry e a) a). intros x. by repeat split_match.
Qed.

(** Recording under the lease replaces one entry and the permit of its key. *)
Lemma record_lease_effect m ps key v a p e :
  List.find (fun p => seqb (ap_key p) key) ps = Some p -> entries m !! key = Some e ->
  exists e' p', entries (fst (record_lease m ps key v a)) = <[key := e']> (entries m) /\
    snd (record_lease m ps key v a) = update_permit ps key p' /\ ap_key p' = ap_key p /\
    (settled e p -> settled e' p').
Proof.
  intros F R. unfold record_lease. rewrite F, R.
  pose proof (lease_version_settled e p v) as S. destruct (lease_keys e p v a) as [K _].
  destruct (lease_version e p v) as [[e1 p1] [r|]]; cbn [fst snd] in *.
  2: { exists e, p. rewrite insert_id, update_permit_id by done. auto. }
  pose proof (lease_record_settled e1 p1 a) as S'. destruct (lease_keys e1 p1 v a) as [_ K'].
  destruct (lease_record e1 p1 a) as [e2 p2]; cbn [fst snd] in *.
  exists e2, p2. rewrite entries_notify, entries_set. split; [|split; [done|split; [congruence|auto]]].
  destruct r; [rewrite entries_onStateChange|]; by rewrite entries_set, insert_insert_eq.
Qed.

(** Recording under the lease keeps the permits settled. *)
Lemma record_lease_settled m ep ps key v a :
  service_key ep <> ep_ID ep -> key = service_key ep \/ key = ep_ID ep ->
  attempt_settled m ep ps ->
  attempt_settled (fst (record_lease m ps key v a)) ep (snd (record_lease m ps key v a)).
Proof.
  intros N K (p0 & p1 & e0 & e1 & -> & K0 & K1 & R0 & R1 & S0 & S1).
  assert (seqb (service_key ep) (ep_ID ep) = false) as NB by by apply seqb_neq.
  destruct K as [-> | ->].
  - destruct (record_lease_effect m [p0; p1] (service_key ep) v a p0 e0) as (e' & p' & E & P & K & S); [|done|].
    { cbn. by rewrite K0, seqb_refl. }
    exists p', p1, e', e1. rewrite E, P. cbn. rewrite K0, seqb_refl, lookup_insert_eq, lookup_insert_ne by done.
    repeat split; auto. congruence.
  - destruct (record_lease_effect m [p0; p1] (ep_ID ep) v a p1 e1) as (e' & p' & E & P & K & S); [|done|].
    { cbn. by rewrite K0, NB, K1, seqb_refl. }
    exists p0, p', e0, e'. rewrite E, P. cbn. rewrite K0, NB, K1, seqb_refl, lookup_insert_eq, lookup_insert_ne by done.
    repeat split; auto. congruence.
Qed.

Definition st_settled (ep : Endpoint) (st : CircuitBreakerManager * option (list attemptPermit)) : Prop :=
  exists ps, snd st = Some ps /\ attempt_settled (fst st) ep ps.

Lemma record_policy_key_settled c ep b p st ik :
  service_key ep <> ep_ID ep -> snd ik = service_key ep \/ snd ik = ep_ID ep ->
  st_settled ep st -> st_settled ep (record_policy_key c ep b p st ik).
Proof.
  destruct st as [m att], ik as [s k]. cbn [snd]. intros N K (ps & E & S). cbn [fst snd] in *. subst att.
  unfold record_policy_key. destruct (negb _); [by exists ps|].
  pose proof (record_lease_settled m ep ps k (cb_Version p) (outcome_of c ep p b) N K S) as H.
  destruct (record_lease m ps k _ _) as [m' ps']. by exists ps'.
Qed.

Lemma recordOutcome_settled m c ep b ps :
  service_key ep <> ep_ID ep -> attempt_settled m ep ps ->
  st_settled ep (recordOutcome m c (Some ep) b (Some ps)).
Proof.
  intros N S. assert (st_settled ep (m, Some ps)) as S' by by exists ps.
  unfold recordOutcome. destruct (oc_policies c) as [[|q qs]|]; [done| |done].
  apply (fold_left_inv (st_settled ep)); [|done]. intros st [p|] H; cbn [record_policy]; [|done].
  destruct (_ && _); [done|]. cbn [fold_left].
  apply record_policy_key_settled; [done|by right|].
  apply record_policy_key_settled; [done|by left|done].
Qed.

Lemma releasePermits_settled m ep ps k :
  manager_wf m -> service_key ep <> ep_ID ep -> attempt_settled m ep ps ->
  k = service_key ep \/ k = ep_ID ep -> active_at (releasePermits m ps) k = 0.
Proof.
  intros W N (p0 & p1 & e0 & e1 & -> & K0 & K1 & R0 & R1 & S0 & S1) K.
  unfold releasePermits. cbn [fold_left]. unfold release_permit.
  rewrite K0, K1, R0, entries_set, lookup_insert_ne, R1 by done.
  unfold active_at. rewrite !entries_set.
  pose proof (release_settled e0 p0 (W _ _ R0) S0). pose proof (release_settled e1 p1 (W _ _ R1) S1).
  destruct K as [-> | ->]; [rewrite lookup_insert_ne, lookup_insert_eq by done|rewrite lookup_insert_eq]; done.
Qed.

(** Ending a settled attempt leaves no call in flight on its two keys. *)
Lemma finish_settled m a ep c b k :
  manager_wf m -> service_key ep <> ep_ID ep -> at_done a = false -> at_endpoint a = Some ep ->
  attempt_settled m ep (at_permits a) -> k = service_key ep \/ k = ep_ID ep ->
  active_at (fst (finish m a c b)) k = 0 /\ active_at (fst (Release m a)) k = 0 /\ at_done (snd (finish m a c b)) = true.
Proof.
  intros W Hkeys D E S K. unfold finish, Release. rewrite D, E.
  pose proof (recordOutcome_wf m c (Some ep) b (Some (at_permits a)) W) as W2.
  destruct (recordOutcome_settled m c ep b (at_permits a) Hkeys S) as (ps & Eps & S2).
  destruct (recordOutcome m c (Some ep) b (Some (at_permits a))) as [m2 o]; cbn [fst snd default at_done] in *.
  subst o. split_and!; [by apply (releasePermits_settled m2 ep)|by apply (releasePermits_settled m ep)|done].
Qed.

(** An attempt that was admitted and then finished - with any outcome, under any
    set of policies, including policies that disappeared or changed version after
    the admission - leaves no half-open call in flight on either breaker: a probe
    permit can not leak. *)
Theorem attempt_completes (m m' : CircuitBreakerManager) (ep : Endpoint) (act : bool) (n0 n1 : Time)
  (a : CircuitBreakerAttempt) (Hwf : manager_wf m) (Htok : tokens_left m)
  (Hkeys : service_key ep <> ep_ID ep)
  (Hacq : AcquireAttempt m (Some ep) act n0 n1 = (m', inl a)) :
  forall (c : outcome_ctx) (success : bool) (k : string), k = service_key ep \/ k = ep_ID ep ->
    active_at (fst (finish m' a c success)) k = 0 /\ active_at (fst (Release m' a)) k = 0.
Proof.
  intros c b k K. pose proof (AcquireAttempt_wf m (Some ep) act n0 n1 Hwf) as W. rewrite Hacq in W.
  destruct (AcquireAttempt_settled _ _ _ _ _ _ _ Hwf Htok Hkeys Hacq) as (E & D & S).
  by destruct (finish_settled m' a ep c b k W Hkeys D E S K) as (? & ? & _).
Qed.

Lemma entry_at_active m k mo : activeCalls (entry_at m k mo) = active_at m k.
Proof. unfold entry_at, active_at. destruct (entries m !! k); [|done]. by destruct (is_empty mo). Qed.

Lemma active_at_insert m m' k e j :
  entries m' = <[k := e]> (entries m) ->
  active_at m' j = if seqb k j then activeCalls e else active_at m j.
Proof.
  unfold active_at. intros ->. destruct (seqb k j) eqn:E; sbool.
  - subst. by rewrite lookup_insert_eq.
  - by rewrite lookup_insert_ne.
Qed.

Lemma active_at_nonneg m k : manager_wf m -> 0 <= active_at m k.
Proof. intros W. unfold active_at. destruct (entries m !! k) eqn:E; [|lia]. destruct (W _ _ E). lia. Qed.

(** A refused round only lets time pass on its entry. *)
Lemma acquire_key_refused m k mo act now m' j :
  manager_wf m -> acquire_key m k mo act now = (m', None) -> active_at m' j <= active_at m j.
Proof.
  intros W H. destruct (acquire_key_entries m k mo act now) as [E1 E2].
  rewrite H in E1, E2; cbn [fst snd] in E1, E2. rewrite (active_at_insert m m' k _ j E1).
  destruct (seqb k j) eqn:K; [|lia]. apply seqb_eq in K as ->.
  assert (fst (acquire_entry (entry_at m j mo) j act now) = computeState (entry_at m j mo) now) as ->.
  { revert E2. unfold acquire_entry. by repeat split_match. }
  pose proof (active_at_nonneg m j W).
  destruct (computeState_call_frame (entry_at m j mo) now) as [->|(-> & _)]; [lia|].
  by rewrite entry_at_active.
Qed.

(** A refused attempt takes nothing: when the service or the instance breaker
    denies the call, no breaker has more half-open calls in flight than before (a
    service permit taken in the first round is rolled back). *)
Theorem refused_attempt_rolls_back (m m' : CircuitBreakerManager) (ep : Endpoint) (act : bool)
  (n0 n1 : Time) (err : string) (Hwf : manager_wf m) (Htok : tokens_left m)
  (Hkeys : service_key ep <> ep_ID ep)
  (Hacq : AcquireAttempt m (Some ep) act n0 n1 = (m', inr err)) :
  forall k : string, active_at m' k <= active_at m k.
Proof.
  intros k. unfold AcquireAttempt in Hacq.
  pose proof (acquire_key_wf m (service_key ep) (ep_Model ep) act n0 Hwf) as W1.
  destruct (acquire_key m _ _ _ _) as [m1 [p0|]] eqn:E0; simplify_eq; [|by eapply acquire_key_refused].
  destruct (acquire_key_settled _ _ _ _ _ _ _ Hwf Htok E0) as (e0 & R0 & We & K0 & S0).
  destruct (acquire_key m1 _ _ _ _) as [m2 [p1|]] eqn:E1; simplify_eq.
  pose proof (acquire_key_refused _ _ _ _ _ _ k W1 E1) as L.
  destruct (acquire_key_entries m1 (ep_ID ep) (ep_Model ep) act n1) as [R1 _].
  rewrite E1 in R1; cbn [fst] in R1.
  assert (entries m2 !! service_key ep = Some e0) as R2.
  { by rewrite R1, lookup_insert_ne, R0, lookup_insert_eq. }
  unfold releasePermits. cbn [fold_left]. unfold release_permit. rewrite K0, R2.
  rewrite (active_at_insert m2 _ (service_key ep) (release_entry e0 p0) k) by done.
  destruct (seqb (service_key ep) k) eqn:K; sbool.
  - subst k. rewrite release_settled by done. by apply active_at_nonneg.
  - rewrite (active_at_insert m m1 _ _ _ R0), (proj2 (seqb_neq _ _) K) in L. lia.
Qed.

(** A failure that no circuit-break policy classifies as an error does not count:
    finishing the attempt with it is exactly releasing the attempt. *)
Theorem unmatched_failure_not_counted (m : CircuitBreakerManager) (a : CircuitBreakerAttempt) (c : outcome_ctx)
  (Hnone : forall ps p, oc_policies c = Some ps -> Some p ∈ ps -> oc_matches c p = false) :
  finish m a c false = Release m a.
Proof.
  unfold finish, Release. destruct (at_done a); [done|].
  assert (recordOutcome m c (at_endpoint a) false (Some (at_permits a)) = (m, Some (at_permits a))) as ->; [|done].
  unfold recordOutcome. destruct (at_endpoint a) as [e|]; [|done].
  destruct (oc_policies c) as [[|q qs]|]; [done| |done].
  assert (forall l st, (forall p, Some p ∈ l -> oc_matches c p = false) ->
    fold_left (record_policy c e false) l st = st) as F.
  { induction l as [|[p|] l IH]; intros st H; cbn [fold_left record_policy]; [done| |].
    - rewrite (H p) by left. cbn. apply IH. intros. apply H. by right.
    - apply IH. intros. apply H. by right. }
  apply F. intros p. by apply Hnone.
Qed.

(** * Demonstrations *)

Definition demo_endpoint : Endpoint :=
  mkEndpoint "ep-1" "c1" "" "openai" "" "gpt" "" ∅ 1 0 [] true true ∅ "" "" "openai" 0 0 None None None None.

(** A service-level policy that opens on the first failure. *)
Definition demo_policy (level : string) : CircuitBreakPolicy :=
  mkCircuitBreakPolicy "p" "pol" level "count" 10 1 None [] [] None fzero fzero 0 1000 1 0 0 None 1 "".

Definition demo_ctx (level : string) (now : Time) : outcome_ctx :=
  mkOutcomeCtx (Some [Some (demo_policy level)]) (fun _ => true) "t" None None now.

(** The manager after one failure counted on both breakers. *)
Definition demo_open : CircuitBreakerManager :=
  Eval vm_compute in RecordFailure NewCircuitBreakerManager (demo_ctx "" 5) (Some demo_endpoint).

(** The same one second later, with both probe permits taken. *)
Definition demo_probing : CircuitBreakerManager * (CircuitBreakerAttempt + string) :=
  Eval vm_compute in AcquireAttempt demo_open (Some demo_endpoint) false 1000000005 1000000005.

Lemma demo_open_ok : manager_wf demo_open /\ tokens_left demo_open.
Proof.
  split; [exact (recordOutcome_wf _ (demo_ctx "" 5) (Some demo_endpoint) false None manager_wf_new)|].
  apply (bool_decide_unpack _). vm_compute. exact I.
Qed.

Lemma attempt_completes_witness :
  active_at (fst demo_probing) "openai:gpt" = 1 /\
  match snd demo_probing with
  | inl a => active_at (fst (finish (fst demo_probing) a (demo_ctx "" 2000000000) true)) "openai:gpt" = 0
  | inr _ => False
  end.
Proof.
  split; [vm_compute; reflexivity|].
  destruct demo_open_ok as [W T].
  refine (proj1 (attempt_completes demo_open (fst demo_probing) demo_endpoint false 1000000005 1000000005 _
    W T _ _ (demo_ctx "" 2000000000) true "openai:gpt" (or_introl eq_refl))).
  - discriminate.
  - vm_compute. reflexivity.
Defined.

(** Only the instance breaker is half-open with a probe in flight; the service
    breaker is half-open and free. *)
Definition demo_busy_instance : CircuitBreakerManager :=
  Eval vm_compute in
    fst (AcquireHalfOpenPermit (fst (GetState (fst (GetState demo_open "openai:gpt" 1000000005))
                                       "ep-1" 1000000005)) "ep-1" false).

Lemma demo_busy_ok : manager_wf demo_busy_instance /\ tokens_left demo_busy_instance.
Proof.
  split.
  - destruct demo_open_ok as [W _].
    exact (run_op_wf _ (MAcquirePermit "ep-1" false) (run_op_wf _ (MGetState "ep-1" 1000000005)
             (run_op_wf _ (MGetState "openai:gpt" 1000000005) W))).
  - apply (bool_decide_unpack _). vm_compute. exact I.
Qed.

Lemma refused_attempt_rolls_back_witness :
  active_at (fst (AcquireAttempt demo_busy_instance (Some demo_endpoint) false 1000000006 1000000006))
    "openai:gpt" <= active_at demo_busy_instance "openai:gpt" /\ active_at demo_busy_instance "ep-1" = 1.
Proof.
  split; [|vm_compute; reflexivity]. destruct demo_busy_ok as [W T].
  refine (refused_attempt_rolls_back demo_busy_instance _ demo_endpoint false 1000000006 1000000006
    (acquire_error "instance" "ep-1") W T _ _ "openai:gpt").
  - discriminate.
  - vm_compute. reflexivity.
Defined.

Lemma unmatched_failure_not_counted_witness :
  let a := mkAttempt (Some demo_endpoint) [mkPermit "openai:gpt" 0 0 0; mkPermit "ep-1" 0 0 0] false in
  let c := mkOutcomeCtx (Some [Some (demo_policy ""); None]) (fun _ => false) "t" None None 7 in
  finish demo_open a c false = Release demo_open a.
Proof. intros a c. apply (unmatched_failure_not_counted demo_open a c). reflexivity. Defined.

(** [GetOpenBreakers] files an open service breaker under the endpoints: recording an
    outcome labels the service entry with the provider name, and the listing takes
    any labelled entry for an endpoint. *)
Theorem open_service_listed_as_endpoint :
  snd (GetOpenBreakers
         (RecordFailure NewCircuitBreakerManager (demo_ctx "SERVICE" 5) (Some demo_endpoint)) 6) =
  (["openai:gpt"], []).
Proof. vm_compute. reflexivity. Qed.
