(* ===== verification/Events.v ===== *)
(** pkg/events: operational events, the transports that carry them, and the asynchronous
    publisher in front of a transport; internal/bootstrap/registry.go: the event of a breaker.

    The publisher has callers, one worker goroutine and one closing goroutine.  They meet at
    its mutex and its channel: [async_step] interleaves their critical sections, and the calls
    on the transport are recorded in the order in which they start. *)

From Stdlib Require Import Ascii.
From S2P Require Import Prelude GoFloat GoStrings GoTime GoJson GoPrint Types Context Compensation Breaker BreakerManager.

(** * Events (event.go) *)

Definition EventTypeCircuitBreak : string := "circuit_break".
Definition EventTypeRateLimit : string := "rate_limit".
Definition EventTypeInvocationFail : string := "invocation_fail".
Definition EventTypeModelFailover : string := "model_failover".
Definition EventTypeEndpointFailover : string := "endpoint_failover".
Definition EventTypeRetryError : string := "retry_error".
Definition EventTypeCircuitBreakerError : string := "circuit_breaker_error".

Record OpsEvent := mkOpsEvent {
  oe_EventType : string; oe_TenantCode : string; oe_ModelCode : string; oe_EndpointID : string; oe_EndpointCode : string;
  oe_ProviderName : string; oe_PolicyID : string; oe_PolicyName : string; oe_Threshold : option float64; oe_CurrentValue : option float64;
  oe_RequestID : string; oe_TraceID : string; oe_Message : string; oe_Timestamp : Z
}.
#[global] Instance eta_ops : Eta OpsEvent := fun e =>
  mkOpsEvent (oe_EventType e) (oe_TenantCode e) (oe_ModelCode e) (oe_EndpointID e) (oe_EndpointCode e) (oe_ProviderName e) (oe_PolicyID e)
    (oe_PolicyName e) (oe_Threshold e) (oe_CurrentValue e) (oe_RequestID e) (oe_TraceID e) (oe_Message e) (oe_Timestamp e).

Definition zero_event : OpsEvent := mkOpsEvent "" "" "" "" "" "" "" "" None None "" "" "" 0.

(** * Transports *)

(** [fmt.Sprintf("%.2f", x)]: the exact value to two decimals, halves to even. *)
Definition round_half_even (n d : Z) : Z :=
  let q := n / d in let r := n mod d in
  if 2 * r <? d then q else if d <? 2 * r then q + 1 else if Z.even q then q else q + 1.

Definition hundredths (m : positive) (e : Z) : Z :=
  if 0 <=? e then Zpos m * 2 ^ e * 100 else round_half_even (Zpos m * 100) (2 ^ (- e)).

Definition two_digits (n : Z) : string := (if n <? 10 then "0" else "") +:+ Itoa n.

Definition Sprintf_2f (x : float64) : string :=
  match x with
  | SpecFloat.S754_zero s => (if s then "-" else "") +:+ "0.00"
  | SpecFloat.S754_infinity s => if s then "-Inf" else "+Inf"
  | SpecFloat.S754_nan => "NaN"
  | SpecFloat.S754_finite s m e =>
      let h := hundredths m e in (if s then "-" else "") +:+ Itoa (h / 100) +:+ "." +:+ two_digits (h mod 100)
  end.

(** The fields of the entry that [RedisPublisher.Publish] adds to its stream. *)
Definition optional_number (key : string) (x : option float64) (m : gmap string string) : gmap string string :=
  match x with Some v => <[key := Sprintf_2f v]> m | None => m end.

Definition redis_values (e : OpsEvent) : gmap string string :=
  optional_number "current_value" (oe_CurrentValue e) (optional_number "threshold" (oe_Threshold e)
    (list_to_map
      [("event_type", oe_EventType e); ("tenant_code", oe_TenantCode e); ("model_code", oe_ModelCode e);
       ("endpoint_id", oe_EndpointID e); ("endpoint_code", oe_EndpointCode e); ("provider_name", oe_ProviderName e);
       ("policy_id", oe_PolicyID e); ("policy_name", oe_PolicyName e); ("request_id", oe_RequestID e);
       ("trace_id", oe_TraceID e); ("message", oe_Message e); ("ts", Itoa (oe_Timestamp e))])).

(** [if event.Timestamp == 0 { event.Timestamp = time.Now().Unix() }], on the shared event. *)
Definition stamp (now_unix : Z) (e : OpsEvent) : OpsEvent := if oe_Timestamp e =? 0 then e <| oe_Timestamp := now_unix |> else e.

Section transports.
(** [float_text]: the JSON text of a float64, [None] for those JSON cannot carry.
    [XAdd], [WriteMessages], [Do]: the Redis client, the Kafka writer and the HTTP client; [Do]
    answers with a status. *)
Context (float_text : float64 -> option string).
Context {W : Type} (XAdd : W -> string -> Z -> gmap string string -> W * option goerror)
  (WriteMessages : W -> string -> string -> string -> W * option goerror)
  (Do : W -> string -> list (string * string) -> string -> W * (Z + goerror)) (CloseWriter : W -> W * option goerror).

Definition number_member (key : string) (x : option float64) : option (list (string * json)) :=
  match x with None => Some [] | Some v => (fun t => [(key, JNum t)]) <$> float_text v end.

(** [json.Marshal(event)]: the struct's fields in order. *)
Definition event_Marshal (e : OpsEvent) : option string :=
  match number_member "threshold" (oe_Threshold e), number_member "current_value" (oe_CurrentValue e) with
  | Some t, Some c =>
      Some (string_of (json_encode (JObj (
        [("event_type", JStr (oe_EventType e)); ("tenant_code", JStr (oe_TenantCode e)); ("model_code", JStr (oe_ModelCode e));
         ("endpoint_id", JStr (oe_EndpointID e)); ("endpoint_code", JStr (oe_EndpointCode e)); ("provider_name", JStr (oe_ProviderName e));
         ("policy_id", JStr (oe_PolicyID e)); ("policy_name", JStr (oe_PolicyName e))] ++ t ++ c ++
        [("request_id", JStr (oe_RequestID e)); ("trace_id", JStr (oe_TraceID e)); ("message", JStr (oe_Message e));
         ("ts", JNum (Itoa (oe_Timestamp e)))]))))
  | _, _ => None
  end.

Definition marshal_error : goerror := errorf "json: unsupported value".

Inductive transport :=
| noopPublisher
| RedisPublisher (client : bool) (streamKey : string)
| KafkaPublisher (brokers : list string) (topic : string)
| HTTPPublisher (adminURL syncToken : string).

Definition NewRedisPublisher (client : bool) (streamKey : string) : transport :=
  RedisPublisher client (if is_empty streamKey then "aigw:events:policy" else streamKey).
Definition NewKafkaPublisher (brokers : list string) (topic : string) : transport :=
  KafkaPublisher brokers (if is_empty topic then "aigw-events-policy" else topic).
Definition NewHTTPPublisher (adminURL syncToken : string) : transport := HTTPPublisher adminURL syncToken.

Definition Redis_Publish (client : bool) (streamKey : string) (w : W) (now_unix : Z) (e : OpsEvent) : W * OpsEvent * option goerror :=
  if client then let e' := stamp now_unix e in let '(w', err) := XAdd w streamKey 100000 (redis_values e') in (w', e', err)
  else (w, e, None).

Definition Kafka_Publish (topic : string) (w : W) (now_unix : Z) (e : OpsEvent) : W * OpsEvent * option goerror :=
  let e' := stamp now_unix e in
  match event_Marshal e' with
  | None => (w, e', Some marshal_error)
  | Some value => let '(w', err) := WriteMessages w topic (oe_EventType e') value in (w', e', err)
  end.

(** A URL that [http.NewRequestWithContext] rejects is an error of [Do]. *)
Definition HTTP_Publish (adminURL syncToken : string) (w : W) (e : OpsEvent) : W * option goerror :=
  if is_empty adminURL then (w, None)
  else match event_Marshal e with
       | None => (w, Some (wrapf "failed to marshal event: " marshal_error))
       | Some body =>
           match Do w (adminURL +:+ "/api/v1/gateway/events") [("Content-Type", "application/json"); ("X-Sync-Token", syncToken)] body with
           | (w', inr err) => (w', Some (wrapf "failed to send event to admin: " err))
           | (w', inl status) => (w', if status =? 200 then None else Some (errorf ("admin returned non-ok status: " +:+ Itoa status)))
           end
       end.

Definition transport_Publish (t : transport) (w : W) (now_unix : Z) (e : OpsEvent) : W * OpsEvent * option goerror :=
  match t with
  | noopPublisher => (w, e, None)
  | RedisPublisher client key => Redis_Publish client key w now_unix e
  | KafkaPublisher _ topic => Kafka_Publish topic w now_unix e
  | HTTPPublisher url token => let '(w', err) := HTTP_Publish url token w e in (w', e, err)
  end.

Definition transport_Close (t : transport) (w : W) : W * option goerror :=
  match t with KafkaPublisher _ _ => CloseWriter w | _ => (w, None) end.

End transports.

(** * Configuration (publisher.go) *)

Record EventsConfig := mkEventsConfig {
  ec_CircuitBreak : option bool; ec_RateLimit : option bool; ec_InvocationFail : option bool; ec_ModelFailover : option bool;
  ec_EndpointFailover : option bool; ec_RetryError : option bool; ec_CircuitBreakerError : option bool
}.
Definition zero_events_config : EventsConfig := mkEventsConfig None None None None None None None.

Record PublisherConfig := mkPublisherConfig { pc_Enabled : bool; pc_Type : string; pc_Topic : string; pc_Brokers : list string; pc_Types : EventsConfig }.

Definition event_switch (cfg : EventsConfig) (eventType : string) : option bool :=
  if seqb eventType EventTypeCircuitBreak then ec_CircuitBreak cfg
  else if seqb eventType EventTypeRateLimit then ec_RateLimit cfg
  else if seqb eventType EventTypeInvocationFail then ec_InvocationFail cfg
  else if seqb eventType EventTypeModelFailover then ec_ModelFailover cfg
  else if seqb eventType EventTypeEndpointFailover then ec_EndpointFailover cfg
  else if seqb eventType EventTypeRetryError then ec_RetryError cfg
  else if seqb eventType EventTypeCircuitBreakerError then ec_CircuitBreakerError cfg
  else None.
Definition isEventEnabled (cfg : EventsConfig) (eventType : string) : bool := default true (event_switch cfg eventType).

(** * The asynchronous publisher (publisher_async.go) *)

(** [ap_ctx_done]: the publisher's own context has been cancelled. *)
Record AsyncPublisher := mkAsync {
  ap_delegate : transport; ap_eventCh : list OpsEvent; ap_size : nat; ap_chan_closed : bool;
  ap_ctx_done : bool; ap_cfg : EventsConfig; ap_closed : bool; ap_pending : option OpsEvent
}.
#[global] Instance eta_async : Eta AsyncPublisher := fun p =>
  mkAsync (ap_delegate p) (ap_eventCh p) (ap_size p) (ap_chan_closed p) (ap_ctx_done p) (ap_cfg p) (ap_closed p) (ap_pending p).

Definition NewAsyncPublisher (delegate : transport) (bufferSize : Z) : AsyncPublisher :=
  mkAsync delegate [] (Z.to_nat (if bufferSize <=? 0 then 1024 else bufferSize)) false false zero_events_config false None.

Definition SetEventsConfig (p : AsyncPublisher) (cfg : EventsConfig) : AsyncPublisher := p <| ap_cfg := cfg |>.

(** [NewPublisher]: disabled events have no queue. *)
Definition delegate_for (cfg : PublisherConfig) (redisClient : bool) (adminURL syncToken : string) : transport :=
  if seqb (pc_Type cfg) "kafka" then NewKafkaPublisher (pc_Brokers cfg) (pc_Topic cfg)
  else if seqb (pc_Type cfg) "http" then NewHTTPPublisher adminURL syncToken
  else if redisClient then NewRedisPublisher true (pc_Topic cfg)
  else if negb (is_empty adminURL) then NewHTTPPublisher adminURL syncToken
  else noopPublisher.

Definition NewPublisher (cfg : PublisherConfig) (redisClient : bool) (adminURL syncToken : string) : transport + AsyncPublisher :=
  if pc_Enabled cfg then inr (SetEventsConfig (NewAsyncPublisher (delegate_for cfg redisClient adminURL syncToken) 1024) (pc_Types cfg))
  else inl noopPublisher.

(** The queue has room for an event it lets through. *)
Definition event_admits (p : AsyncPublisher) (e : OpsEvent) : bool :=
  negb (ap_closed p) && isEventEnabled (ap_cfg p) (oe_EventType e) && (length (ap_eventCh p) <? ap_size p)%nat.

(** A send on a closed channel panics, also in a [select] with a default. *)
Definition Async_Publish (p : AsyncPublisher) (e : OpsEvent) : go AsyncPublisher :=
  if ap_closed p then Ret p
  else if negb (isEventEnabled (ap_cfg p) (oe_EventType e)) then Ret p
  else if ap_chan_closed p then Panic
  else if (length (ap_eventCh p) <? ap_size p)%nat then Ret (p <| ap_eventCh := ap_eventCh p ++ [e] |>)
  else Ret p.

(** The critical section of [Stop]; the caller then waits for the worker. *)
Definition Stop_admission (p : AsyncPublisher) : AsyncPublisher := p <| ap_closed := true |> <| ap_ctx_done := true |>.

(** Where the worker is: at its select, with an event in hand before it takes the mutex, in a
    call on the delegate, or gone. *)
Inductive worker_at := AtSelect | InHand (e : OpsEvent) | Publishing | WorkerDone.

(** Where the one execution of the body of [closeOnce] is. *)
Inductive closer_at := NotClosing | WaitingWorker | DrainingPending | DrainingQueue | CloseReturned.
#[global] Instance closer_at_eq_dec : EqDecision closer_at.
Proof. solve_decision. Defined.

Inductive delegate_call := CallPublish (e : OpsEvent) | CallClose.

(** [as_accepted]: every event that entered the queue, in order (an observer's record). *)
Record async_sys := mkAsyncSys {
  as_pub : AsyncPublisher; as_worker : worker_at; as_closer : closer_at; as_calls : list delegate_call; as_accepted : list OpsEvent
}.
#[global] Instance eta_async_sys : Eta async_sys := fun s =>
  mkAsyncSys (as_pub s) (as_worker s) (as_closer s) (as_calls s) (as_accepted s).

Definition async_start (delegate : transport) (bufferSize : Z) : async_sys :=
  mkAsyncSys (NewAsyncPublisher delegate bufferSize) AtSelect NotClosing [] [].

(** The worker's critical section with an event in hand. *)
Definition worker_admit (s : async_sys) (e : OpsEvent) : async_sys :=
  if ap_closed (as_pub s) then s <| as_pub := (as_pub s) <| ap_pending := Some e |> |> <| as_worker := WorkerDone |>
  else s <| as_calls := as_calls s ++ [CallPublish e] |> <| as_worker := Publishing |>.

(** [Close] retries the event in hand, if any, and closes the channel. *)
Definition drain_pending (s : async_sys) : async_sys :=
  s <| as_calls := as_calls s ++ match ap_pending (as_pub s) with Some e => [CallPublish e] | None => [] end |>
    <| as_pub := (as_pub s) <| ap_chan_closed := true |> |> <| as_closer := DrainingQueue |>.

(** What callers do. *)
Inductive caller_step : async_sys -> async_sys -> Prop :=
| CallerPublish s e p' : Async_Publish (as_pub s) e = Ret p' ->
    caller_step s (s <| as_pub := p' |> <| as_accepted := as_accepted s ++ if event_admits (as_pub s) e then [e] else [] |>)
| CallerConfig s cfg : caller_step s (s <| as_pub := SetEventsConfig (as_pub s) cfg |>)
| CallerStop s : caller_step s (s <| as_pub := Stop_admission (as_pub s) |>)
| CallerClose s : as_closer s = NotClosing ->
    caller_step s (s <| as_pub := Stop_admission (as_pub s) |> <| as_closer := WaitingWorker |>).

(** What the worker and the body of [Close] do. *)
Inductive internal_step : async_sys -> async_sys -> Prop :=
| WorkerCancelled s : as_worker s = AtSelect -> ap_ctx_done (as_pub s) = true -> internal_step s (s <| as_worker := WorkerDone |>)
| WorkerTakes s e q : as_worker s = AtSelect -> ap_eventCh (as_pub s) = e :: q ->
    internal_step s (s <| as_pub := (as_pub s) <| ap_eventCh := q |> |> <| as_worker := InHand e |>)
| WorkerEnds s : as_worker s = AtSelect -> ap_eventCh (as_pub s) = [] -> ap_chan_closed (as_pub s) = true ->
    internal_step s (s <| as_worker := WorkerDone |>)
| WorkerAdmits s e : as_worker s = InHand e -> internal_step s (worker_admit s e)
| WorkerPublished s : as_worker s = Publishing -> internal_step s (s <| as_worker := AtSelect |>)
| CloserWaited s : as_closer s = WaitingWorker -> as_worker s = WorkerDone -> internal_step s (s <| as_closer := DrainingPending |>)
| CloserPending s : as_closer s = DrainingPending -> internal_step s (drain_pending s)
| CloserDrains s e q : as_closer s = DrainingQueue -> ap_eventCh (as_pub s) = e :: q ->
    internal_step s (s <| as_pub := (as_pub s) <| ap_eventCh := q |> |> <| as_calls := as_calls s ++ [CallPublish e] |>)
| CloserCloses s : as_closer s = DrainingQueue -> ap_eventCh (as_pub s) = [] ->
    internal_step s (s <| as_calls := as_calls s ++ [CallClose] |> <| as_closer := CloseReturned |>).

Definition async_step (s s' : async_sys) : Prop := caller_step s s' \/ internal_step s s'.

(** * The event of a breaker (registry.go) *)

Definition findEndpointByID (all : option (list Endpoint)) (endpointID : string) : option Endpoint :=
  all ≫= fun eps => head (filter (fun ep => ep_ID ep = endpointID) eps).

Definition circuitBreakerOpsEvent (evt : CBEvent) (all : option (list Endpoint)) (now_unix : Z) : OpsEvent :=
  let colon := Contains (ev_Key evt) ":" in
  let provider := if is_empty (ev_ProviderName evt) && colon then default "" (head (SplitByte (ev_Key evt) ":"%char)) else ev_ProviderName evt in
  let transition :=
    if negb (is_empty (ev_OldState evt)) && negb (is_empty (ev_NewState evt)) then "[" +:+ ev_OldState evt +:+ "->" +:+ ev_NewState evt +:+ "] " else "" in
  let code :=
    if is_empty (ev_EndpointCode evt) then match findEndpointByID all (ev_Key evt) with Some ep => ep_Code ep | None => "" end else ev_EndpointCode evt in
  mkOpsEvent EventTypeCircuitBreak (ev_TenantCode evt) (ev_ModelCode evt) (if colon then "" else ev_Key evt) (if colon then "" else code) provider
    (ev_PolicyID evt) (ev_PolicyName evt) (ev_Threshold evt) (ev_CurrentValue evt) (ev_RequestID evt) (ev_TraceID evt)
    (transition +:+ "circuit breaker opened: " +:+ ev_Key evt) now_unix.

(** * Every accepted event is published once, in order, before the delegate is closed *)

Definition drained (c : closer_at) : bool := match c with DrainingQueue | CloseReturned => true | _ => false end.

(** Events accepted and not yet handed to the delegate: the one between the channel and the
    delegate, then the queue. *)
Definition in_transit (s : async_sys) : list OpsEvent :=
  match as_worker s with
  | InHand e => [e]
  | _ => if drained (as_closer s) then [] else option_list (ap_pending (as_pub s))
  end.
Definition waiting (s : async_sys) : list OpsEvent := in_transit s ++ ap_eventCh (as_pub s).

Definition closing_call (c : closer_at) : list delegate_call := match c with CloseReturned => [CallClose] | _ => [] end.

Record async_inv (size : nat) (s : async_sys) : Prop := mkAsyncInv {
  ai_calls : exists sent, as_calls s = map CallPublish sent ++ closing_call (as_closer s) /\ as_accepted s = sent ++ waiting s;
  ai_bound : (length (ap_eventCh (as_pub s)) <= size)%nat;
  ai_size : ap_size (as_pub s) = size;
  ai_done : ap_ctx_done (as_pub s) = ap_closed (as_pub s);
  ai_pending : ap_pending (as_pub s) <> None -> as_worker s = WorkerDone;
  ai_closing : as_closer s <> NotClosing -> ap_closed (as_pub s) = true;
  ai_worker : as_closer s <> NotClosing -> as_closer s <> WaitingWorker -> as_worker s = WorkerDone;
  ai_chan : ap_chan_closed (as_pub s) = drained (as_closer s);
  ai_end : as_closer s = CloseReturned -> ap_eventCh (as_pub s) = []
}.

Lemma async_inv_start d n : async_inv (ap_size (NewAsyncPublisher d n)) (async_start d n).
Proof. split; cbn; try done; [by exists []|lia]. Qed.

Lemma not_closing size s : async_inv size s -> ap_closed (as_pub s) = false -> as_closer s = NotClosing.
Proof. intros I E. destruct (as_closer s) eqn:N; [done|..]; by rewrite (ai_closing _ _ I) in E by (by rewrite N). Qed.

(** A publisher whose channel is closed has stopped admission. *)
Lemma publish_cases size s e : async_inv size s ->
  exists p', Async_Publish (as_pub s) e = Ret p' /\
    ((event_admits (as_pub s) e = false /\ p' = as_pub s) \/
     (event_admits (as_pub s) e = true /\ p' = (as_pub s) <| ap_eventCh := ap_eventCh (as_pub s) ++ [e] |> /\
      ap_closed (as_pub s) = false /\ (length (ap_eventCh (as_pub s)) < size)%nat)).
Proof.
  intros I. unfold Async_Publish, event_admits. pose proof (not_closing _ _ I) as C. pose proof (ai_chan _ _ I) as H. rewrite (ai_size _ _ I).
  destruct (ap_closed (as_pub s)) eqn:E; [by eexists; split; [|left]|]. cbn [negb andb].
  destruct (isEventEnabled _ _); cbn [negb andb]; [|by eexists; split; [|left]].
  rewrite H, (C eq_refl). cbn [drained].
  destruct (Nat.ltb_spec (length (ap_eventCh (as_pub s))) size); (eexists; split; [done|]); [by right|by left].
Qed.

Ltac async_parts I :=
  destruct I as [(sent & Ec & Ea) B Z D P C K H L]; unfold waiting, in_transit in Ea.

Lemma caller_preserves size s s' : async_inv size s -> caller_step s s' -> async_inv size s'.
Proof.
  intros I St. inversion St as [? e p' E| | |? N]; subst.
  - destruct (publish_cases _ _ e I) as (p & E' & [[A ->]|(A & -> & F & B')]); rewrite E in E'; injection E' as ->; rewrite A.
    + async_parts I. split; cbn; auto. exists sent. rewrite app_nil_r. unfold waiting, in_transit. cbn. auto.
    + pose proof (not_closing _ _ I F) as N. async_parts I. split; cbn; rewrite ?length_app; cbn; auto; [|lia|by rewrite N].
      exists sent. unfold waiting, in_transit. cbn. rewrite Ea, <- !app_assoc. auto.
  - async_parts I. split; cbn; auto. by exists sent.
  - async_parts I. split; cbn; auto. by exists sent.
  - async_parts I. rewrite N in *. split; cbn; auto; [|done]. exists sent. unfold waiting, in_transit. cbn. auto.
Qed.

Lemma internal_preserves size s s' : async_inv size s -> internal_step s s' -> async_inv size s'.
Proof.
  intros I St. async_parts I. inversion St as [? W X|? e q W Q|? W Q X|? e W|? W|? W X|? W|? e q W Q|? W Q]; subst; rewrite ?W in *.
  - split; cbn; auto. exists sent. unfold waiting, in_transit. cbn. auto.
  - assert (ap_pending (as_pub s) = None) as N by (destruct (ap_pending (as_pub s)); [by specialize (P ltac:(done))|done]).
    rewrite Q, N in *. cbn in B. split; cbn; auto; try done; try lia; [|intros A A'; by specialize (K A A')|by intros E%L].
    exists sent. unfold waiting, in_transit. cbn. rewrite Ea. by destruct (drained _).
  - split; cbn; auto. exists sent. unfold waiting, in_transit. cbn. auto.
  - assert (drained (as_closer s) = false /\ closing_call (as_closer s) = []) as [Dr Cl] by (destruct (as_closer s); try done; by specialize (K ltac:(done) ltac:(done))).
    unfold worker_admit. destruct (ap_closed (as_pub s)) eqn:F; split; cbn; auto; try done; try congruence.
    + exists sent. unfold waiting, in_transit. cbn. rewrite Dr. auto.
    + exists (sent ++ [e]). unfold waiting, in_transit. cbn. rewrite Dr, Cl, Ec, Cl, map_app, !app_nil_r, Ea, <- !app_assoc.
      split; [done|]. do 2 f_equal. by destruct (ap_pending (as_pub s)); [specialize (P ltac:(done))|].
    + intros Np. by specialize (P Np).
    + intros A. by rewrite (C A) in F.
    + intros A A'. by specialize (K A A').
  - assert (ap_pending (as_pub s) = None) as N by (destruct (ap_pending (as_pub s)); [by specialize (P ltac:(done))|done]).
    split; cbn; auto; [|by rewrite N|intros A A'; by specialize (K A A')].
    exists sent. unfold waiting, in_transit. cbn. auto.
  - split; cbn; auto; try done. exists sent. unfold waiting, in_transit. cbn. rewrite X in *. cbn in *. auto.
  - rewrite (K ltac:(done) ltac:(done)) in *. cbn in *. split; cbn; auto; try done.
    exists (sent ++ option_list (ap_pending (as_pub s))). unfold waiting, in_transit. cbn. rewrite (K ltac:(done) ltac:(done)), Ec, map_app, !app_nil_r, Ea, <- !app_assoc.
    by destruct (ap_pending (as_pub s)).
  - rewrite Q in *. rewrite (K ltac:(done) ltac:(done)) in *. cbn in *. split; cbn; auto; try done; try lia; [|by rewrite W|intros E; by rewrite E in W].
    exists (sent ++ [e]). unfold waiting, in_transit. cbn. rewrite W, (K ltac:(done) ltac:(done)), Ec, map_app, !app_nil_r, Ea, <- !app_assoc. done.
  - rewrite Q in *. rewrite (K ltac:(done) ltac:(done)) in *. cbn in *. split; cbn; auto; try done; [|rewrite Q; cbn; lia].
    exists sent. unfold waiting, in_transit. cbn. rewrite (K ltac:(done) ltac:(done)), Q, Ec, !app_nil_r, Ea. by rewrite !app_nil_r.
Qed.

Lemma async_reachable size s s' : async_inv size s -> rtc async_step s s' -> async_inv size s'.
Proof. intros I R. induction R as [|a b c [St|St] _ IH]; [done|..]; apply IH; [by eapply caller_preserves|by eapply internal_preserves]. Qed.

(** Steps the worker and [Close] can still take once [Close] has begun. *)
Definition worker_budget (w : worker_at) : nat := match w with Publishing => 4 | AtSelect => 3 | InHand _ => 2 | WorkerDone => 0 end.
Definition closer_budget (c : closer_at) : nat := match c with NotClosing => 4 | WaitingWorker => 3 | DrainingPending => 2 | DrainingQueue => 1 | CloseReturned => 0 end.
Definition close_budget (s : async_sys) : nat := length (ap_eventCh (as_pub s)) + worker_budget (as_worker s) + closer_budget (as_closer s).

Lemma close_advances size s s' : async_inv size s -> as_closer s <> NotClosing -> internal_step s s' ->
  (close_budget s' < close_budget s)%nat /\ as_closer s' <> NotClosing.
Proof.
  intros I N St. pose proof (ai_closing _ _ I N) as C.
  inversion St as [? W X|? e q W Q|? W Q X|? e W|? W|? W X|? W|? e q W Q|? W Q]; subst; unfold close_budget, worker_admit, drain_pending;
    rewrite ?C; cbn; rewrite ?W, ?Q; cbn; (split; [lia|by rewrite ?W in N]).
Qed.

Lemma close_not_stuck size s : async_inv size s -> as_closer s <> NotClosing -> as_closer s <> CloseReturned -> exists s', internal_step s s'.
Proof.
  intros I N R. pose proof (ai_closing _ _ I N) as C. rewrite <- (ai_done _ _ I) in C.
  destruct (as_closer s) eqn:E; [done| | | |done].
  - destruct (as_worker s) eqn:W; eexists; [by apply WorkerCancelled|by eapply WorkerAdmits|by apply WorkerPublished|by apply CloserWaited].
  - eexists. by apply CloserPending.
  - destruct (ap_eventCh (as_pub s)) eqn:Q; eexists; [by apply CloserCloses|by eapply CloserDrains].
Qed.

(** C22: The asynchronous publisher, under every interleaving of its callers, its worker and
    [Close]: no caller ever sends on the closed channel; the queue stays within its buffer;
    the delegate receives the accepted events once each and in the order of acceptance, the
    rest being in transit; when [Close] returns every accepted event has been handed over and
    the delegate was closed last; and once [Close] is called, no step of a caller is needed
    for it to return: some step is enabled until it does, and each one uses up a budget
    bounded by the buffer. *)
Theorem events_published_once (d : transport) (bufferSize : Z) (s : async_sys)
  (Hreach : rtc async_step (async_start d bufferSize) s) :
  let size := ap_size (NewAsyncPublisher d bufferSize) in
  (forall e, Async_Publish (as_pub s) e <> Panic) /\
  (length (ap_eventCh (as_pub s)) <= size)%nat /\
  (exists sent, as_calls s = map CallPublish sent ++ closing_call (as_closer s) /\ as_accepted s = sent ++ waiting s) /\
  (as_closer s = CloseReturned -> as_calls s = map CallPublish (as_accepted s) ++ [CallClose]) /\
  (as_closer s <> NotClosing ->
    (close_budget s <= size + 7)%nat /\
    (as_closer s = CloseReturned \/ exists s', internal_step s s') /\
    (forall s', internal_step s s' -> (close_budget s' < close_budget s)%nat /\ as_closer s' <> NotClosing)).
Proof.
  cbn zeta. set (size := ap_size _). assert (async_inv size s) as I by (eapply async_reachable; [apply async_inv_start|done]).
  pose proof (ai_bound _ _ I) as B. split; [|split; [done|split; [apply (ai_calls _ _ I)|split]]].
  - intros e. by destruct (publish_cases _ _ e I) as (p & -> & _).
  - intros R. destruct (ai_calls _ _ I) as (sent & Ec & Ea). rewrite R in Ec. rewrite Ec, Ea. unfold waiting, in_transit.
    by rewrite (ai_end _ _ I R), (ai_worker _ _ I), R, !app_nil_r by by rewrite R.
  - intros N. split; [|split; [|intros s'; by apply (close_advances size)]].
    + unfold close_budget. destruct (as_worker s), (as_closer s); cbn [worker_budget closer_budget]; solve [done|lia].
    + destruct (decide (as_closer s = CloseReturned)) as [|R]; [by left|right; by apply (close_not_stuck size)].
Qed.

(** One event taken from the queue just before [Close]: the worker hands it back. *)
Definition demo_event : OpsEvent := zero_event <| oe_EventType := EventTypeRateLimit |>.
Definition demo_closed : async_sys :=
  mkAsyncSys (mkAsync noopPublisher [] 1 true true zero_events_config true (Some demo_event)) WorkerDone CloseReturned
    [CallPublish demo_event; CallClose] [demo_event].

Ltac async_run t := eapply rtc_l; [first [left; t|right; t]|cbn].

Lemma demo_publish_run : rtc async_step (async_start noopPublisher 1) demo_closed.
Proof.
  async_run ltac:(apply (CallerPublish _ demo_event); reflexivity). async_run ltac:(by eapply WorkerTakes).
  async_run ltac:(by apply CallerClose). async_run ltac:(by eapply WorkerAdmits). async_run ltac:(by apply CloserWaited).
  async_run ltac:(by apply CloserPending). async_run ltac:(by apply CloserCloses). apply rtc_refl.
Qed.

Lemma events_published_once_witness : as_calls demo_closed = map CallPublish (as_accepted demo_closed) ++ [CallClose].
Proof. exact (proj1 (proj2 (proj2 (proj2 (events_published_once noopPublisher 1 demo_closed demo_publish_run)))) eq_refl). Defined.
