(* ===== verification/EventFilter.v ===== *)
(** pkg/filters/outbound/event_publisher.go: the filter that reads the outcome of a request off
    its context and publishes the policy events it finds. *)

From Stdlib Require Import Ascii.
From S2P Require Import Prelude GoFloat GoStrings GoTime GoJson GoPrint Matcher Policy ErrorPolicy Types Context Http Events.

(** [*limiter.HTTPError]: what [errors.As] finds on the chain of [gctx.Err]. *)
Record LimitError := mkLimitError { le_Code : Z; le_Message : string; le_Threshold : option float64; le_CurrentValue : option float64 }.

(** What the filter reads besides the context: the header of the response writer, the limiter
    error on the chain of the error, [PolicyEventEmitted], the answer of the discovery service
    where there is one, and the clock. *)
Record observed := mkObserved {
  ob_writer : option headers; ob_limit : option LimitError; ob_emitted : bool;
  ob_discovery : option (string -> list Endpoint + goerror); ob_unix : Z
}.

Section filter.
Context (libs : Libs).

(** A computation that goes through the process-wide cache of expressions and may panic. *)
Definition scan (A : Type) : Type := gmap string (list (option regex)) -> go A * gmap string (list (option regex)).
Definition scan_ret {A} (a : A) : scan A := fun c => (Ret a, c).
Definition scan_bind {A B} (m : scan A) (k : A -> scan B) : scan B := fun c =>
  match m c with (Ret a, c') => k a c' | (Panic, c') => (Panic, c') end.

Fixpoint scan_all {A} (f : A -> scan (list OpsEvent)) (l : list A) : scan (list OpsEvent) :=
  match l with
  | [] => scan_ret []
  | x :: r => scan_bind (f x) (fun here => scan_bind (scan_all f r) (fun rest => scan_ret (here ++ rest)))
  end.

Definition hasFailedAttempts (history : list AttemptRecord) : bool := existsb (fun r => negb (ar_Success r)) history.

(** [time.Time.Unix] on nanoseconds since the zero time. *)
Definition Unix (t : Time) : Z := (t - 62135596800 * Second) / Second.

Definition trace_of (g : GatewayContext) (o : observed) : string :=
  let fromRequest := match Request g with Some r => header_Get (req_Header r) "X-Trace-ID" | None => "" end in
  if is_empty fromRequest then match ob_writer o with Some h => header_Get h "X-Trace-Id" | None => "" end else fromRequest.

Definition request_of (g : GatewayContext) (o : observed) : string :=
  let id := match Request g with Some r => header_Get (req_Header r) "X-Request-ID" | None => "" end in
  if is_empty id then trace_of g o else id.

(** The endpoint, its code and its provider when none was selected. *)
Definition guessed_endpoint (g : GatewayContext) (o : observed) : option Endpoint :=
  if errors_Is (Err g) ErrNoAvailableEndpoint then None
  else match ob_discovery o with
       | Some list => if is_empty (Model g) then None else match list (Model g) with inl (ep :: _) => Some ep | _ => None end
       | None => None
       end.

Definition with_endpoint (e : OpsEvent) (ep : Endpoint) : OpsEvent :=
  e <| oe_EndpointID := ep_ID ep |> <| oe_EndpointCode := ep_Code ep |> <| oe_ProviderName := ep_Provider ep |>.

Definition base_event (g : GatewayContext) (o : observed) : OpsEvent :=
  let base := zero_event <| oe_TenantCode := Tenant g |> <| oe_ModelCode := (if is_empty (OriginalModel g) then Model g else OriginalModel g) |>
    <| oe_RequestID := request_of g o |> <| oe_TraceID := trace_of g o |> <| oe_Timestamp := ob_unix o |> in
  match SelectedEndpoint g with
  | Some ep => let e := with_endpoint base ep in if is_empty (ep_Model ep) then e else e <| oe_ModelCode := ep_Model ep |>
  | None => match guessed_endpoint g o with Some ep => with_endpoint base ep | None => base end
  end.

Definition with_policy (e : OpsEvent) (id name : string) : OpsEvent := e <| oe_PolicyID := id |> <| oe_PolicyName := name |>.

(** Reading a nil first policy panics. *)
Definition detectCircuitBreaker (g : GatewayContext) (base : OpsEvent) : go (list OpsEvent) :=
  match Err g with
  | Some err =>
      if errors_Is (Some err) ErrNoAvailableEndpoint then
        let evt := base <| oe_EventType := EventTypeCircuitBreak |> <| oe_Message := Error_text err |> in
        match gPolicy g ≫= fun p => head (p_CircuitBreakPolicies p) with
        | None => Ret [evt]
        | Some None => Panic
        | Some (Some cb) => Ret [with_policy evt (cb_ID cb) (cb_Name cb)]
        end
      else Ret []
  | None => Ret []
  end.

Definition invocationFailEventFromAttempt (base : OpsEvent) (rec : AttemptRecord) : OpsEvent :=
  base <| oe_EventType := EventTypeInvocationFail |> <| oe_ModelCode := (if is_empty (ar_Model rec) then oe_ModelCode base else ar_Model rec) |>
    <| oe_EndpointID := ar_EndpointID rec |> <| oe_EndpointCode := ar_EndpointCode rec |> <| oe_ProviderName := ar_Provider rec |>
    <| oe_Timestamp := (if time_IsZero (ar_Timestamp rec) then oe_Timestamp base else Unix (ar_Timestamp rec)) |>.

Definition matched_event (base : OpsEvent) (rec : AttemptRecord) (ty what reason id name : string) : OpsEvent :=
  let msg := what +:+ reason in
  with_policy ((invocationFailEventFromAttempt base rec) <| oe_EventType := ty |>
    <| oe_Message := (if is_empty (ar_Error rec) then msg else msg +:+ " (attempt error: " +:+ ar_Error rec +:+ ")") |>) id name.

Definition match_record {P} `{!ErrorPolicy P} (p : P) (rec : AttemptRecord) : scan (bool * string) :=
  MatchErrorWithReason libs (Some p) (ar_StatusCode rec) (ar_ContentType rec) (ar_Error rec) (ar_Body rec).

Definition retry_events (p : Policy) (base : OpsEvent) (rec : AttemptRecord) : scan (list OpsEvent) :=
  match p_InvocationPolicy p with
  | Some ip =>
      match ip_RetryPolicy ip with
      | Some rp =>
          if 0 <? rp_Retry rp then
            scan_bind (match_record rp rec) (fun '(matched, reason) =>
              scan_ret (if matched then [matched_event base rec EventTypeRetryError "retry policy matched: " reason (ip_ID ip) (ip_Name ip)] else []))
          else scan_ret []
      | None => scan_ret []
      end
  | None => scan_ret []
  end.

Definition breaker_event (base : OpsEvent) (rec : AttemptRecord) (cb : option CircuitBreakPolicy) : scan (list OpsEvent) :=
  match cb with
  | None => scan_ret []
  | Some cb =>
      scan_bind (match_record cb rec) (fun '(matched, reason) =>
        scan_ret (if matched then [matched_event base rec EventTypeCircuitBreakerError "circuit breaker policy matched: " reason (cb_ID cb) (cb_Name cb)] else []))
  end.

Definition attempt_events (p : Policy) (base : OpsEvent) (rec : AttemptRecord) : scan (list OpsEvent) :=
  if ar_Success rec then scan_ret []
  else scan_bind (retry_events p base rec) (fun retried =>
         scan_bind (scan_all (breaker_event base rec) (p_CircuitBreakPolicies p)) (fun broken => scan_ret (retried ++ broken))).

Definition detectInvocationFailuresFromHistory (g : GatewayContext) (base : OpsEvent) : scan (list OpsEvent) :=
  match gPolicy g with None => scan_ret [] | Some p => scan_all (attempt_events p base) (History g) end.

Definition with_invocation_policy (g : GatewayContext) (e : OpsEvent) : OpsEvent :=
  match invocation_policy g with Some ip => with_policy e (ip_ID ip) (ip_Name ip) | None => e end.

Definition model_failover (g : GatewayContext) (base : OpsEvent) : list OpsEvent :=
  match FallbackChain g with
  | first :: (_ :: _) as chain =>
      [with_invocation_policy g (base <| oe_EventType := EventTypeModelFailover |> <| oe_ModelCode := Model g |>
         <| oe_Message := "fallback from " +:+ first +:+ " to " +:+ default "" (last chain) |>)]
  | _ => []
  end.

Definition failover_step (i : nat) (rec : AttemptRecord) : string :=
  let at_ := "[" +:+ Itoa (Z.of_nat i + 1) +:+ "] " +:+ ar_EndpointID rec +:+ " (" +:+ ar_Provider rec +:+ ")" in
  if ar_Success rec then at_ +:+ " succeeded"
  else at_ +:+ " failed: " +:+ (if is_empty (ar_Error rec) then "status " +:+ Itoa (ar_StatusCode rec) else ar_Error rec).

Definition endpoint_failover (g : GatewayContext) (base : OpsEvent) : list OpsEvent :=
  if (1 <? length (History g))%nat && from_option ar_Success false (last (History g)) && hasFailedAttempts (History g) then
    [with_invocation_policy g (base <| oe_EventType := EventTypeEndpointFailover |>
       <| oe_Message := "endpoint failover: " +:+ Join (imap failover_step (History g)) " -> " |>)]
  else [].

(** The loop over the limit policies reads each one up to the first that fits. *)
Fixpoint find_limit (name id : string) (lps : list (option LimitPolicy)) : go (option LimitPolicy) :=
  match lps with
  | [] => Ret None
  | None :: _ => Panic
  | Some lp :: r => if seqb (lp_Name lp) name || seqb (lp_ID lp) id then Ret (Some lp) else find_limit name id r
  end.

Definition limit_event (g : GatewayContext) (base : OpsEvent) (le : LimitError) : go OpsEvent :=
  let evt := base <| oe_EventType := EventTypeRateLimit |> <| oe_Message := le_Message le |>
    <| oe_Threshold := le_Threshold le |> <| oe_CurrentValue := le_CurrentValue le |> in
  match default [] (p_LimitPolicies <$> gPolicy g) with
  | [] => Ret evt
  | (firstLP :: _) as lps =>
      let! found := find_limit (ctx_GetTagValue g "rate_limit_policy_name") (ctx_GetTagValue g "rate_limit_policy_id") lps in
      match (match found with Some lp => Some lp | None => firstLP end) with
      | None => Panic
      | Some lp =>
          let evt := with_policy evt (lp_ID lp) (lp_Name lp) in
          Ret (match oe_Threshold evt, lp_SlidingWindows lp with
               | None, w :: _ => evt <| oe_Threshold := Some (of_int (sw_Threshold w)) |>
               | _, _ => evt
               end)
      end
  end.

Definition upstream_attempted (g : GatewayContext) : bool :=
  (0 <? AttemptCount g) || match SelectedEndpoint g with Some _ => true | None => false end.

Definition invocation_failure (g : GatewayContext) (base : OpsEvent) (err : goerror) : OpsEvent :=
  let evt := base <| oe_EventType := EventTypeInvocationFail |> <| oe_Message := Error_text err |> in
  if negb (is_empty (OriginalModel g)) && negb (seqb (oe_ModelCode evt) (OriginalModel g)) then
    evt <| oe_Message := Error_text err +:+ " (original request model: " +:+ OriginalModel g +:+ ")" |>
  else evt.

(** Sections 4 and 5 of [analyzeEvents], with the events found so far. *)
Definition final_events (g : GatewayContext) (o : observed) (base : OpsEvent) (result : list OpsEvent) : go (list OpsEvent) :=
  match Err g with
  | None => Ret result
  | Some err =>
      let generic :=
        match result with
        | [] => if negb (ob_emitted o) && upstream_attempted g then [invocation_failure g base err] else []
        | _ => result
        end in
      match ob_limit o with
      | Some le => if le_Code le =? 429 then let! evt := limit_event g base le in Ret (result ++ [evt]) else Ret generic
      | None => Ret generic
      end
  end.

Definition quiet_request (g : GatewayContext) : bool :=
  match Err g with None => (length (FallbackChain g) <=? 1)%nat && negb (hasFailedAttempts (History g)) | Some _ => false end.

Definition scan_go {A} (x : go A) : scan A := fun c => (x, c).

Definition analyzeEvents (g : GatewayContext) (o : observed) : scan (list OpsEvent) :=
  if quiet_request g then scan_ret []
  else
    let base := base_event g o in
    scan_bind (scan_go (detectCircuitBreaker g base)) (fun blocked =>
    scan_bind (detectInvocationFailuresFromHistory g base) (fun failed =>
    scan_go (final_events g o base (blocked ++ failed ++ model_failover g base ++ endpoint_failover g base)))).

(** [OnResponse]: the publisher takes the events in turn; its errors are only logged. *)
Definition publish_all {Pub} (publish : Pub -> OpsEvent -> go Pub) (p : Pub) (evts : list OpsEvent) : go Pub :=
  fold_left (fun acc e => let! p := acc in publish p e) evts (Ret p).

Definition EventPublish_OnResponse {Pub} (publish : Pub -> OpsEvent -> go Pub) (publisher : option Pub) (g : GatewayContext) (o : observed) :
  scan (option Pub) :=
  match publisher with
  | None => scan_ret None
  | Some p =>
      if errors_Is (Err g) ErrClientDisconnected then scan_ret (Some p)
      else scan_bind (analyzeEvents g o) (fun evts => scan_go (let! p' := publish_all publish p evts in Ret (Some p')))
  end.

End filter.

(** * What is reported about a request *)

Section report.
Context (libs : Libs).

(** [m] returns from every coherent cache, leaves a coherent one, and its result satisfies [Q]. *)
Definition yields {A} (m : scan A) (Q : A -> Prop) : Prop :=
  forall c, cache_coherent libs c -> exists a c', m c = (Ret a, c') /\ cache_coherent libs c' /\ Q a.

Lemma yields_ret {A} (a : A) (Q : A -> Prop) : Q a -> yields (scan_ret a) Q.
Proof. intros H c Hc. by exists a, c. Qed.

Lemma yields_go {A} (x : go A) (Q : A -> Prop) a : x = Ret a -> Q a -> yields (scan_go x) Q.
Proof. intros -> H c Hc. by exists a, c. Qed.

Lemma yields_bind {A B} (m : scan A) (k : A -> scan B) (P : A -> Prop) (Q : B -> Prop) :
  yields m P -> (forall a, P a -> yields (k a) Q) -> yields (scan_bind m k) Q.
Proof. intros Hm Hk c Hc. unfold scan_bind. destruct (Hm c Hc) as (a & c' & -> & Hc' & Ha). by apply Hk. Qed.

Lemma yields_all {A} (f : A -> scan (list OpsEvent)) (Q : OpsEvent -> Prop) (n : nat) (l : list A) :
  (forall x, x ∈ l -> yields (f x) (fun es => Forall Q es /\ (length es <= n)%nat)) ->
  yields (scan_all f l) (fun es => Forall Q es /\ (length es <= length l * n)%nat).
Proof.
  induction l as [|x r IH]; intros H; cbn; [by apply yields_ret|].
  eapply yields_bind; [apply H; by left|]. intros here [Fh Lh].
  eapply yields_bind; [apply IH; intros y Hy; apply H; by right|]. intros rest [Fr Lr].
  apply yields_ret. rewrite Forall_app, length_app. split; [done|lia].
Qed.

(** Matching an error against a policy whose messages have no newline returns. *)
Lemma found_yields messages err : Forall newline_free messages -> yields (FindMatchedErrorMessage libs messages err) (fun _ => True).
Proof.
  intros Hn c Hc. destruct (find_matched_coherent libs messages err c Hn Hc) as [E Hc'].
  destruct (FindMatchedErrorMessage libs messages err c) as [r c']. cbn in E, Hc'. subst r. by eauto.
Qed.

Section matching.
Context {P : Type} `{!ErrorPolicy P} (p : P) (Hn : Forall newline_free (GetErrorMessages p)).

Lemma match_message_yields status ct err body : yields (match_message libs p status ct err body) (fun _ => True).
Proof.
  intros c Hc. unfold match_message.
  set (first := if parser_complete (GetMessagePolicy p) then _ else _).
  assert (exists b c1, first = (Ret b, c1) /\ cache_coherent libs c1) as ([hit reason] & c1 & -> & Hc1).
  { unfold first. destruct (parser_complete _); [|by eauto]. destruct (parsed_value _ _ _ _ _) as [v|]; [|by eauto].
    destruct (found_yields _ v Hn c Hc) as ([[] pat] & c1 & -> & Hc1 & _); by eauto. }
  destruct hit; [by eauto|]. destruct (GetErrorMessages p) as [|m ms]; [by eauto|]. destruct (is_empty err); [by eauto|].
  destruct (found_yields _ err Hn c1 Hc1) as ([[] pat] & c2 & -> & Hc2 & _); by eauto 6.
Qed.

Lemma match_record_yields rec : yields (match_record libs p rec) (fun _ => True).
Proof.
  intros c Hc. unfold match_record, MatchErrorWithReason. destruct (_ && _); [by eauto|].
  match goal with |- context [match ?hit with Some reason => (Ret (true, reason), c) | None => _ end] => destruct hit end; [by eauto 6|].
  by apply match_message_yields.
Qed.
End matching.

(** The policies of the request: no nil where the filter reads one, no newline in a message. *)
Record policies_ok (p : Policy) : Prop := mkPoliciesOk {
  po_retry : forall ip rp, p_InvocationPolicy p = Some ip -> ip_RetryPolicy ip = Some rp -> Forall newline_free (rp_ErrorMessages rp);
  po_break : forall cb, Some cb ∈ p_CircuitBreakPolicies p -> Forall newline_free (cb_ErrorMessages cb);
  po_first : head (p_CircuitBreakPolicies p) <> Some None;
  po_limit : Forall is_Some (p_LimitPolicies p)
}.

Definition event_types : list string :=
  [EventTypeCircuitBreak; EventTypeRateLimit; EventTypeInvocationFail; EventTypeModelFailover; EventTypeEndpointFailover;
   EventTypeRetryError; EventTypeCircuitBreakerError].

(** An event of the request: its tenant, its identifiers, one of the published types. *)
Definition same_request (g : GatewayContext) (o : observed) (e : OpsEvent) : Prop :=
  oe_TenantCode e = Tenant g /\ oe_RequestID e = request_of g o /\ oe_TraceID e = trace_of g o.
Definition event_of (g : GatewayContext) (o : observed) (e : OpsEvent) : Prop := same_request g o e /\ oe_EventType e ∈ event_types.

Context (g : GatewayContext) (o : observed) (Hok : forall p, gPolicy g = Some p -> policies_ok p).
Notation base := (base_event g o).

Lemma base_same : same_request g o base.
Proof.
  unfold base_event. destruct (SelectedEndpoint g) as [ep|]; [by destruct (is_empty (ep_Model ep))|by destruct (guessed_endpoint g o)].
Qed.

Lemma matched_event_of rec ty what reason id name : ty ∈ event_types -> event_of g o (matched_event base rec ty what reason id name).
Proof. clear Hok. intros H. split; [exact base_same|exact H]. Qed.

Lemma with_invocation_policy_of e : event_of g o e -> event_of g o (with_invocation_policy g e).
Proof. unfold with_invocation_policy. by destruct (invocation_policy g). Qed.

Lemma attempt_events_yield p rec : policies_ok p ->
  yields (attempt_events libs p base rec) (fun es => Forall (event_of g o) es /\ (length es <= 1 + length (p_CircuitBreakPolicies p))%nat).
Proof.
  clear Hok. intros Hp. unfold attempt_events. destruct (ar_Success rec); [by apply yields_ret; split; [|cbn; lia]|].
  eapply (yields_bind _ _ (fun es => Forall (event_of g o) es /\ (length es <= 1)%nat)).
  - unfold retry_events. destruct (p_InvocationPolicy p) as [ip|] eqn:Ei; [|apply yields_ret; split; [done|cbn; lia]].
    destruct (ip_RetryPolicy ip) as [rp|] eqn:Er; [|apply yields_ret; split; [done|cbn; lia]].
    destruct (0 <? rp_Retry rp); [|apply yields_ret; split; [done|cbn; lia]].
    eapply yields_bind; [apply match_record_yields, (po_retry _ Hp _ _ Ei Er)|]. intros [[] reason] _; apply yields_ret; split; cbn; try done; try lia.
    apply Forall_singleton, matched_event_of. set_solver.
  - intros retried [Fr Lr]. eapply yields_bind; [apply (yields_all _ (event_of g o) 1)|].
    + intros [cb|] Hcb; cbn; [|apply yields_ret; split; [done|cbn; lia]].
      eapply yields_bind; [apply match_record_yields, (po_break _ Hp _ Hcb)|]. intros [[] reason] _; apply yields_ret; split; cbn; try done; try lia.
      apply Forall_singleton, matched_event_of. set_solver.
    + intros broken [Fb Lb]. apply yields_ret. rewrite Forall_app, length_app. split; [done|lia].
Qed.

(** The policies the number of events depends on. *)
Definition breakers_of : nat := default 0%nat (length ∘ p_CircuitBreakPolicies <$> gPolicy g).

Lemma history_events_yield :
  yields (detectInvocationFailuresFromHistory libs g base)
    (fun es => Forall (event_of g o) es /\ (length es <= length (History g) * (1 + breakers_of))%nat).
Proof.
  unfold detectInvocationFailuresFromHistory, breakers_of. destruct (gPolicy g) as [p|] eqn:E; [|apply yields_ret; split; [done|cbn; lia]].
  apply yields_all. intros rec _. by apply attempt_events_yield, Hok.
Qed.

Lemma breaker_detected : exists es, detectCircuitBreaker g base = Ret es /\ Forall (event_of g o) es /\ (length es <= 1)%nat /\
  (errors_Is (Err g) ErrNoAvailableEndpoint = true -> EventTypeCircuitBreak ∈ map oe_EventType es).
Proof.
  unfold detectCircuitBreaker. destruct (Err g) as [err|]; [|by exists []; repeat split; cbn; [|lia|]].
  destruct (errors_Is _ _); [|by exists []; repeat split; cbn; [|lia|]].
  assert (forall e, same_request g o e -> oe_EventType e = EventTypeCircuitBreak -> exists es, Ret [e] = Ret es /\ Forall (event_of g o) es /\ (length es <= 1)%nat /\ (true = true -> EventTypeCircuitBreak ∈ map oe_EventType es)) as K.
  { intros e He Ht. exists [e]. repeat split; [|cbn; lia|intros _; cbn; rewrite Ht; by left]. apply Forall_singleton. split; [done|rewrite Ht; set_solver]. }
  destruct (gPolicy g) as [p|] eqn:Ep; cbn; [|by apply K; [exact base_same|]]. pose proof (po_first _ (Hok p eq_refl)) as H1.
  destruct (head (p_CircuitBreakPolicies p)) as [[cb|]|]; [|done|]; by apply K; [exact base_same|].
Qed.

Lemma find_limit_present name id lps : Forall is_Some lps -> exists f, find_limit name id lps = Ret f.
Proof. induction 1 as [|x r [lp ->] _ IH]; cbn; [by eauto|]. destruct (_ || _); by eauto. Qed.

Lemma limit_event_of le : exists e, limit_event g base le = Ret e /\ event_of g o e /\ oe_EventType e = EventTypeRateLimit /\ oe_Message e = le_Message le.
Proof.
  unfold limit_event. set (evt := base <| oe_EventType := EventTypeRateLimit |> <| oe_Message := _ |> <| oe_Threshold := _ |> <| oe_CurrentValue := _ |>).
  assert (event_of g o evt) as He by (split; [exact base_same|cbn; set_solver]).
  destruct (gPolicy g) as [p|] eqn:Ep; [|by eauto]. pose proof (po_limit _ (Hok p eq_refl)) as Hl.
  change (default [] (p_LimitPolicies <$> Some p)) with (p_LimitPolicies p).
  destruct (p_LimitPolicies p) as [|fst_lp r] eqn:El; [by eauto|]. destruct (find_limit_present (ctx_GetTagValue g "rate_limit_policy_name") (ctx_GetTagValue g "rate_limit_policy_id") _ Hl) as [found ->].
  cbn [go_bind]. assert (exists lp, match found with Some lp => Some lp | None => fst_lp end = Some lp) as [lp ->] by (destruct found; [by eauto|]; by inversion Hl as [|? ? []]; subst; eauto).
  destruct (le_Threshold le), (lp_SlidingWindows lp); by eexists.
Qed.

Lemma failovers_of : Forall (event_of g o) (model_failover g base ++ endpoint_failover g base) /\
  (length (model_failover g base ++ endpoint_failover g base) <= 2)%nat.
Proof.
  assert (forall e, same_request g o e -> oe_EventType e ∈ event_types -> Forall (event_of g o) [with_invocation_policy g e]) as K.
  { intros e H1 H2. apply Forall_singleton, with_invocation_policy_of. by split. }
  rewrite length_app, Forall_app. unfold model_failover, endpoint_failover. split; [split|].
  - destruct (FallbackChain g) as [|a [|b r]]; [done..|]. apply K; [exact base_same|cbn; set_solver].
  - destruct (_ && _); [|done]. apply K; [exact base_same|cbn; set_solver].
  - destruct (FallbackChain g) as [|a [|b r]], (_ && _); cbn; lia.
Qed.

Lemma final_extends result : Forall (event_of g o) result ->
  exists extra, final_events g o base result = Ret (result ++ extra) /\ Forall (event_of g o) extra /\ (length extra <= 1)%nat /\
    (Err g <> None -> upstream_attempted g = true -> ob_emitted o = false -> result ++ extra <> []) /\
    (forall le, Err g <> None -> ob_limit o = Some le -> le_Code le = 429 ->
      exists e, extra = [e] /\ oe_EventType e = EventTypeRateLimit /\ oe_Message e = le_Message le).
Proof.
  intros Hr. unfold final_events. destruct (Err g) as [err|]; [|by exists []; rewrite app_nil_r; repeat split; cbn; [|lia|..]].
  assert (event_of g o (invocation_failure g base err)) as Hf by (unfold invocation_failure; destruct (_ && _); (split; [exact base_same|cbn; set_solver])).
  set (generic := match result with [] => _ | _ => _ end).
  assert (exists extra, generic = result ++ extra /\ Forall (event_of g o) extra /\ (length extra <= 1)%nat /\
    (upstream_attempted g = true -> ob_emitted o = false -> result ++ extra <> [])) as (extra & -> & Fe & Le & Ne).
  { unfold generic. destruct result as [|r rs]; [|exists []; rewrite app_nil_r; repeat split; try done; cbn; lia].
    destruct (ob_emitted o), (upstream_attempted g); cbn; [exists []..|exists [invocation_failure g base err]|exists []]; repeat split; try done; try (cbn; lia). by apply Forall_singleton. }
  destruct (ob_limit o) as [le|]; [|by exists extra; repeat split; auto].
  destruct (Z.eqb_spec (le_Code le) 429) as [E|E]; [|exists extra; repeat split; auto; by intros ? _ [= <-]].
  destruct (limit_event_of le) as (e & -> & He & Ht & Hm). exists [e]. repeat split; [by apply Forall_singleton|cbn; lia|intros _ _ _; by destruct result|].
  intros le' _ [= <-] _. by exists e.
Qed.

Lemma model_failover_type : (1 < length (FallbackChain g))%nat -> EventTypeModelFailover ∈ map oe_EventType (model_failover g base).
Proof.
  clear Hok. unfold model_failover, with_invocation_policy. destruct (FallbackChain g) as [|a [|b r]]; cbn; [lia..|].
  destruct (invocation_policy g); cbn; set_solver.
Qed.

Lemma analysis_reports (c : gmap string (list (option regex))) (Hc : cache_coherent libs c) :
  exists evts c', analyzeEvents libs g o c = (Ret evts, c') /\ cache_coherent libs c' /\
    Forall (event_of g o) evts /\
    (length evts <= 4 + length (History g) * (1 + breakers_of))%nat /\
    (Err g = None -> (length (FallbackChain g) <= 1)%nat -> Forall (fun r => ar_Success r = true) (History g) -> evts = []) /\
    (Err g <> None -> upstream_attempted g = true -> ob_emitted o = false -> evts <> []) /\
    (errors_Is (Err g) ErrNoAvailableEndpoint = true -> EventTypeCircuitBreak ∈ map oe_EventType evts) /\
    ((1 < length (FallbackChain g))%nat -> EventTypeModelFailover ∈ map oe_EventType evts) /\
    (forall le, Err g <> None -> ob_limit o = Some le -> le_Code le = 429 ->
      exists e, last evts = Some e /\ oe_EventType e = EventTypeRateLimit /\ oe_Message e = le_Message le).
Proof.
  unfold analyzeEvents. destruct (quiet_request g) eqn:Q.
  { unfold quiet_request in Q. destruct (Err g) as [|]; [done|]. apply andb_true_iff in Q as [Q _]. apply Nat.leb_le in Q.
    exists [], c. repeat split; try done; cbn; try lia. }
  destruct breaker_detected as (blocked & Eb & Fb & Lb & Nb). destruct failovers_of as [Ff Lf].
  destruct (history_events_yield c Hc) as (failed & c' & Eh & Hc' & Fh & Lh).
  destruct (final_extends (blocked ++ failed ++ model_failover g base ++ endpoint_failover g base)) as (extra & Ee & Fe & Le & Ne & Nl); [by rewrite !Forall_app in *|].
  eexists _, c'. unfold scan_bind, scan_go. rewrite Eb, Eh, Ee. split; [done|]. split; [done|].
  split; [by rewrite !Forall_app in *|]. rewrite !length_app in *. split; [lia|]. split; [|split; [done|]].
  { intros E L F. exfalso. revert Q. unfold quiet_request, hasFailedAttempts. rewrite E, (proj2 (Nat.leb_le _ _) L). cbn. rewrite negb_false_iff, existsb_exists.
    intros (r & Hr & N). rewrite Forall_forall in F. rewrite (F r) in N by (by apply list_elem_of_In). done. }
  split; [intros E; rewrite !map_app, !elem_of_app; auto|]. split.
  - intros Hl%model_failover_type. rewrite !map_app. set_solver.
  - intros le H1 H2 H3. destruct (Nl le H1 H2 H3) as (e & -> & Ht & Hm). exists e. by rewrite last_snoc.
Qed.

(** A publisher that keeps what it is given. *)
Definition record_event (published : list OpsEvent) (e : OpsEvent) : go (list OpsEvent) := Ret (published ++ [e]).

Lemma publish_all_records evts : forall published, publish_all record_event published evts = Ret (published ++ evts).
Proof.
  induction evts as [|e evts IH]; intros published; [cbn; by rewrite app_nil_r|].
  change (publish_all record_event published (e :: evts)) with (publish_all record_event (published ++ [e]) evts). by rewrite IH, <- app_assoc.
Qed.

(** C24: what the event filter publishes about a request. For every request whose policies are well formed, and
    through any coherent state of the expression cache, [OnResponse] returns, leaves the cache coherent, and hands its publisher, in
    order and after what it had published before, some events of the request.  Each of
    them carries the tenant, request and trace identifiers of the request and one of the seven
    published types; there are at most four more than the attempts times the policies they are
    matched against.  A request whose client is gone is not reported at all, nor is one without error, fallback or failed attempt.  Of
    the others, one that failed after an attempt, with nothing reported elsewhere, yields at least one event; one
    without an available endpoint a [circuit_break] event; a fallback to another model a [model_failover]
    event; and a rate-limited request ends with a [rate_limit] event that carries the message of
    the limiter. *)
Theorem request_outcome_reported (c : gmap string (list (option regex))) (published : list OpsEvent) (Hc : cache_coherent libs c) :
  exists evts c', EventPublish_OnResponse libs record_event (Some published) g o c = (Ret (Some (published ++ evts)), c') /\ cache_coherent libs c' /\
    Forall (event_of g o) evts /\
    (length evts <= 4 + length (History g) * (1 + breakers_of))%nat /\
    (errors_Is (Err g) ErrClientDisconnected = true -> evts = []) /\
    (Err g = None -> (length (FallbackChain g) <= 1)%nat -> Forall (fun r => ar_Success r = true) (History g) -> evts = []) /\
    (errors_Is (Err g) ErrClientDisconnected = false ->
      (Err g <> None -> 0 < AttemptCount g \/ is_Some (SelectedEndpoint g) -> ob_emitted o = false -> evts <> []) /\
      (errors_Is (Err g) ErrNoAvailableEndpoint = true -> EventTypeCircuitBreak ∈ map oe_EventType evts) /\
      ((1 < length (FallbackChain g))%nat -> EventTypeModelFailover ∈ map oe_EventType evts) /\
      (forall le, Err g <> None -> ob_limit o = Some le -> le_Code le = 429 ->
        exists e, last evts = Some e /\ oe_EventType e = EventTypeRateLimit /\ oe_Message e = le_Message le)).
Proof.
  unfold EventPublish_OnResponse. destruct (errors_Is (Err g) ErrClientDisconnected) eqn:D.
  { exists [], c. rewrite app_nil_r. repeat split; try done. cbn. lia. }
  destruct (analysis_reports c Hc) as (evts & c' & E & Hc' & F & L & Qt & A & B & M & R). exists evts, c'.
  unfold scan_bind, scan_go. rewrite E, publish_all_records. split; [done|]. split; [done|]. split; [done|]. split; [done|]. split; [done|]. split; [done|].
  intros _. split; [|done]. intros Er At. apply A; [done|]. unfold upstream_attempted. destruct At as [At|[ep ->]]; [by rewrite (proj2 (Z.ltb_lt _ _) At)|apply orb_true_r].
Qed.
End report.

(** * Where the filter departs from its comments *)

(** The two loops over circuit-break policies disagree on a nil entry: one skips it, the other
    reads its fields. *)
Lemma nil_breaker_policy_panics libs (g : GatewayContext) (o : observed) (p : Policy) (err : goerror) c :
  Err g = Some err -> ErrNoAvailableEndpoint ∈ err_chain err -> gPolicy g = Some p -> head (p_CircuitBreakPolicies p) = Some None ->
  fst (analyzeEvents libs g o c) = Panic.
Proof.
  intros E C P H. unfold analyzeEvents, quiet_request, scan_bind, scan_go, detectCircuitBreaker. rewrite E. cbn [errors_Is].
  by rewrite bool_decide_eq_true_2, P by done; cbn; rewrite H.
Qed.

(** A model without endpoints is reported as a circuit break, whatever the breakers are. *)
Lemma no_endpoint_is_circuit_break (g : GatewayContext) (base : OpsEvent) :
  Err g = Some errNoAvailableEndpoint -> gPolicy g = None ->
  detectCircuitBreaker g base = Ret [base <| oe_EventType := EventTypeCircuitBreak |> <| oe_Message := "no available endpoint" |>].
Proof. intros E P. unfold detectCircuitBreaker. by rewrite E, P. Qed.

(** A request that the limiter stopped. *)
Definition demo_limited : GatewayContext := emptyContext <| Tenant := "acme" |> <| Model := "m" |> <| Err := Some (httpError 429 "too many requests") |>.
Definition demo_observed : observed := mkObserved None (Some (mkLimitError 429 "too many requests" None None)) false None 0.

Lemma request_outcome_reported_witness :
  exists e c', EventPublish_OnResponse demo_libs record_event (Some []) demo_limited demo_observed ∅ = (Ret (Some [e]), c') /\ oe_EventType e = EventTypeRateLimit /\ oe_TenantCode e = "acme".
Proof.
  destruct (request_outcome_reported demo_libs demo_limited demo_observed ltac:(intros p E; discriminate E) ∅ [] ltac:(intros k v E; by rewrite lookup_empty in E))
    as (evts & c' & E & _ & F & L & _ & _ & R). destruct (R eq_refl) as (_ & _ & _ & R').
  destruct (R' (mkLimitError 429 "too many requests" None None) ltac:(discriminate) eq_refl eq_refl) as (e & H & T & _).
  assert (evts = [e]) as ->. { vm_compute in E. injection E as E _. subst evts. vm_compute in H. by injection H as <-. }
  exists e, c'. split; [exact E|]. split; [exact T|]. apply Forall_cons in F as [[(Te & _) _] _]. exact Te.
Defined.
