(* ===== verification/Runtime.v ===== *)
(** internal/bootstrap/runtime.go: the background tasks of an assembled gateway, the
    publisher that stops with them, and the order in which everything is closed.

    Goroutines meet at the mutex, the wait group and the two [sync.Once] of a runtime and its
    publisher: [run_step] lets any of them make its next atomic step, and records the
    calls on the wrapped publisher in the order in which they start. *)

From S2P Require Import Prelude GoFloat GoStrings Types Context Events.

(** * gatewayRuntime *)

(** [sync.Once]: a second caller waits for the first. *)
Inductive once := OnceNew | OnceRunning | OnceDone.

Record gatewayRuntime := mkRuntime {
  rt_cancelled : bool;  (** [ctx.Err() != nil] *)
  rt_closed : bool;
  rt_wg : nat;
  rt_once : once
}.
#[global] Instance eta_runtime : Eta gatewayRuntime := fun r => mkRuntime (rt_cancelled r) (rt_closed r) (rt_wg r) (rt_once r).

Definition newGatewayRuntime (parent_cancelled : bool) : gatewayRuntime := mkRuntime parent_cancelled false 0 OnceNew.

(** [admit], under the mutex. *)
Definition rt_admit (r : gatewayRuntime) : gatewayRuntime * bool :=
  if rt_closed r || rt_cancelled r then (r, false) else (r <| rt_wg := S (rt_wg r) |>, true).

(** [wg.Done]. *)
Definition rt_done (r : gatewayRuntime) : gatewayRuntime := r <| rt_wg := pred (rt_wg r) |>.

(** The critical section of [stop]. *)
Definition rt_close (r : gatewayRuntime) : gatewayRuntime := r <| rt_closed := true |> <| rt_cancelled := true |>.

(** * The goroutines *)

(** What a goroutine does next.  A stop is followed by the rest of its caller. *)
Inductive after_stop :=
| StopReturns  (** [gatewayRuntime.stop] itself *)
| PublisherStops  (** [runtimePublisher.Stop] *)
| PublisherCloses.  (** [runtimePublisher.Close] *)

Inductive goroutine :=
| TaskStart | TaskRuns
| PublishStart (e : OpsEvent) | PublishAdmitted (e : OpsEvent) | PublishCalls (e : OpsEvent)
| CloseStart
| StopStart (k : after_stop) | StopSection (k : after_stop) | StopWaits (k : after_stop)
| DelegateStop (k : after_stop) | DelegateClose
| Returned.

Inductive inner_call := InnerPublish (e : OpsEvent) | InnerStop | InnerClose.

Record assembly := mkAssembly {
  as_runtime : gatewayRuntime;
  as_closeOnce : once;  (** the [once] of the publisher *)
  as_inner : list inner_call;
  as_threads : list goroutine
}.
#[global] Instance eta_assembly : Eta assembly := fun a =>
  mkAssembly (as_runtime a) (as_closeOnce a) (as_inner a) (as_threads a).

(** Where the caller of a stop goes on. *)
Definition stop_next (k : after_stop) : goroutine := match k with StopReturns => Returned | _ => DelegateStop k end.

(** The next atomic step of a goroutine and the state it leaves; [None] while it waits.
    [async]: the wrapped publisher is an [AsyncPublisher], which has a [Stop]. *)
Definition thread_step (async : bool) (a : assembly) (g : goroutine) : option (assembly * goroutine) :=
  let r := as_runtime a in
  match g with
  | TaskStart => let '(r', ok) := rt_admit r in Some (a <| as_runtime := r' |>, if ok : bool then TaskRuns else Returned)
  | TaskRuns => Some (a <| as_runtime := rt_done r |>, Returned)
  | PublishStart e =>
      let '(r', ok) := rt_admit r in Some (a <| as_runtime := r' |>, if ok : bool then PublishAdmitted e else Returned)
  | PublishAdmitted e =>
      if rt_cancelled r then Some (a <| as_runtime := rt_done r |>, Returned)
      else Some (a <| as_inner := as_inner a ++ [InnerPublish e] |>, PublishCalls e)
  | PublishCalls e => Some (a <| as_runtime := rt_done r |>, Returned)
  | CloseStart =>
      match as_closeOnce a with
      | OnceNew => Some (a <| as_closeOnce := OnceRunning |>, StopStart PublisherCloses)
      | OnceRunning => None
      | OnceDone => Some (a, Returned)
      end
  | StopStart k =>
      match rt_once r with
      | OnceNew => Some (a <| as_runtime := r <| rt_once := OnceRunning |> |>, StopSection k)
      | OnceRunning => None
      | OnceDone => Some (a, stop_next k)
      end
  | StopSection k => Some (a <| as_runtime := rt_close r |>, StopWaits k)
  | StopWaits k => match rt_wg r with O => Some (a <| as_runtime := r <| rt_once := OnceDone |> |>, stop_next k) | S _ => None end
  | DelegateStop k =>
      let a := if async then a <| as_inner := as_inner a ++ [InnerStop] |> else a in
      Some (a, match k with PublisherCloses => DelegateClose | _ => Returned end)
  | DelegateClose => Some (a <| as_inner := as_inner a ++ [InnerClose] |> <| as_closeOnce := OnceDone |>, Returned)
  | Returned => None
  end.

(** One step of the assembly: a goroutine moves, a new one starts, or the parent context is
    cancelled. *)
Inductive run_step (async : bool) : assembly -> assembly -> Prop :=
| step_thread a i g a' g' : as_threads a !! i = Some g -> thread_step async a g = Some (a', g') ->
    run_step async a (a' <| as_threads := <[i := g']> (as_threads a) |>)
| step_spawn a g : g ∈ [TaskStart; CloseStart; StopStart StopReturns; StopStart PublisherStops] \/ (exists e, g = PublishStart e) ->
    run_step async a (a <| as_threads := as_threads a ++ [g] |>)
| step_cancel a : run_step async a (a <| as_runtime := (as_runtime a) <| rt_cancelled := true |> |>).

Definition assembly_start (parent_cancelled : bool) : assembly := mkAssembly (newGatewayRuntime parent_cancelled) OnceNew [] [].

(** * What holds under every interleaving *)

(** Goroutines the wait group counts. *)
Definition registered (g : goroutine) : bool :=
  match g with TaskRuns | PublishAdmitted _ | PublishCalls _ => true | _ => false end.

(** The goroutine that holds the stop, and the one that closes the publisher. *)
Definition stopping (g : goroutine) : bool := match g with StopSection _ | StopWaits _ => true | _ => false end.
Definition waiting (g : goroutine) : bool := match g with StopWaits _ => true | _ => false end.
Definition closing (g : goroutine) : bool :=
  match g with
  | StopStart PublisherCloses | StopSection PublisherCloses | StopWaits PublisherCloses
  | DelegateStop PublisherCloses | DelegateClose => true
  | _ => false
  end.
(** Past its stop. *)
Definition past_stop (g : goroutine) : bool := match g with DelegateStop _ | DelegateClose => true | _ => false end.

Definition count (p : goroutine -> bool) (l : list goroutine) : nat := length (List.filter p l).

Arguments count : simpl never.

Lemma count_app p l l' : count p (l ++ l') = (count p l + count p l')%nat.
Proof. unfold count. by rewrite List.filter_app, length_app. Qed.

Lemma count_update p l i g g' : l !! i = Some g ->
  (count p (<[i := g']> l) + (if p g then 1 else 0) = count p l + (if p g' then 1 else 0))%nat.
Proof.
  intros E. rewrite (insert_take_drop l i g') by (by apply lookup_lt_Some in E).
  rewrite <- (take_drop_middle l i g E) at 3. rewrite !count_app. unfold count. cbn [List.filter].
  destruct (p g), (p g'); cbn [length]; lia.
Qed.

Lemma count_pos p l i g : l !! i = Some g -> p g = true -> (1 <= count p l)%nat.
Proof.
  intros E P. rewrite <- (take_drop_middle l i g E), count_app. unfold count. cbn [List.filter]. rewrite P. cbn [length]. lia.
Qed.

Definition is_close (c : inner_call) : bool := match c with InnerClose => true | _ => false end.

Definition is_publish (c : inner_call) : bool := match c with InnerPublish _ => true | _ => false end.
Definition closes (l : list inner_call) : nat := length (List.filter is_close l).

(** No publication starts after a close. *)
Definition quiet_after_close (l : list inner_call) : Prop :=
  forall pre post, l = pre ++ InnerClose :: post -> Forall (fun c => is_publish c = false) post.

Arguments closes : simpl never.

Lemma closes_app l l' : closes (l ++ l') = (closes l + closes l')%nat.
Proof. unfold closes. by rewrite List.filter_app, length_app. Qed.

Lemma closes_one c : closes [c] = if is_close c then 1%nat else 0%nat.
Proof. by destruct c. Qed.

Lemma quiet_snoc l c : quiet_after_close l -> (closes l = 0%nat \/ is_publish c = false) -> quiet_after_close (l ++ [c]).
Proof.
  intros Q H pre post E. destruct post as [|x post] using rev_ind; [constructor|].
  change (InnerClose :: post ++ [x]) with ((InnerClose :: post) ++ [x]) in E. rewrite app_assoc in E.
  apply app_inj_tail in E as [-> ->]. apply Forall_app. split; [by apply (Q pre)|]. constructor; [|constructor].
  destruct H as [H|H]; [|done]. rewrite closes_app in H. change (closes (InnerClose :: post)) with (S (closes post)) in H. lia.
Qed.

Record run_inv (a : assembly) : Prop := {
  ri_wg : rt_wg (as_runtime a) = count registered (as_threads a);
  ri_stop : count stopping (as_threads a) = match rt_once (as_runtime a) with OnceRunning => 1%nat | _ => 0%nat end;
  ri_close : count closing (as_threads a) = match as_closeOnce a with OnceRunning => 1%nat | _ => 0%nat end;
  ri_wait : (1 <= count waiting (as_threads a))%nat -> rt_closed (as_runtime a) = true;
  ri_done : rt_once (as_runtime a) = OnceDone -> rt_closed (as_runtime a) = true /\ rt_wg (as_runtime a) = 0%nat;
  ri_past : (1 <= count past_stop (as_threads a))%nat -> rt_once (as_runtime a) = OnceDone;
  ri_closes : closes (as_inner a) = match as_closeOnce a with OnceDone => 1%nat | _ => 0%nat end;
  ri_quiet : quiet_after_close (as_inner a);
  ri_shut : as_closeOnce a = OnceDone -> rt_once (as_runtime a) = OnceDone
}.

Lemma run_inv_start c : run_inv (assembly_start c).
Proof. split; cbn; try done; try (unfold count; cbn; lia). intros [|??] ? ?; done. Qed.

Ltac split_step T :=
  repeat match type of T with
  | context [match (if ?x then _ else _) with _ => _ end] => destruct x eqn:?; cbn in T
  | context [match ?x with _ => _ end] => destruct x eqn:?; cbn in T
  end.

(** Uses the hypotheses whose premises hold by computation. *)
Ltac satisfied :=
  repeat match goal with
  | H : ?x = ?x -> _ |- _ => specialize (H eq_refl)
  | H : _ /\ _ |- _ => destruct H
  end.

(** A goroutine's step, with the changes of the counts it makes. *)
Lemma thread_preserves async a i g a' g' :
  run_inv a -> as_threads a !! i = Some g -> thread_step async a g = Some (a', g') ->
  run_inv (a' <| as_threads := <[i := g']> (as_threads a) |>).
Proof.
  intros [W St C Wa D P Cl Q Sh] E T.
  pose proof (count_update registered _ _ _ g' E) as U1. pose proof (count_update stopping _ _ _ g' E) as U2.
  pose proof (count_update closing _ _ _ g' E) as U3. pose proof (count_update waiting _ _ _ g' E) as U4.
  pose proof (count_update past_stop _ _ _ g' E) as U5.
  pose proof (count_pos registered _ _ _ E) as P1. pose proof (count_pos stopping _ _ _ E) as P2.
  pose proof (count_pos closing _ _ _ E) as P3. pose proof (count_pos waiting _ _ _ E) as P4.
  pose proof (count_pos past_stop _ _ _ E) as P5.
  destruct a as [[ca cl wg on] co inner th]. cbn in *.
  destruct g; cbn in T; unfold rt_admit in T; try destruct k; cbn in T; split_step T; simplify_eq; cbn in *; satisfied.
  all: split; cbn; rewrite ?closes_app, ?closes_one; cbn; try (apply quiet_snoc; cbn); try done; try lia.
  all: intros; try destruct on; try destruct co; cbn in *; satisfied; try done; try lia.
  all: try (apply Wa; lia); try (apply P; lia); try (split; [done|lia]); try (split; [apply Wa; lia|done]); try (by simplify_eq).
  all: enough (OnceNew = OnceDone) by done; apply P; lia.
Qed.

Lemma spawn_preserves a g :
  g ∈ [TaskStart; CloseStart; StopStart StopReturns; StopStart PublisherStops] \/ (exists e, g = PublishStart e) ->
  run_inv a -> run_inv (a <| as_threads := as_threads a ++ [g] |>).
Proof.
  intros G [W St C Wa D P Cl Q Sh].
  assert (forall p, p ∈ [registered; stopping; closing; waiting; past_stop] -> count p [g] = 0%nat) as N.
  { intros p M. unfold count. destruct G as [G|[e ->]]; set_unfold; repeat destruct M as [->|M]; try done;
      repeat destruct G as [->|G]; done. }
  split; cbn; rewrite ?count_app, ?N, ?Nat.add_0_r by set_solver; auto.
Qed.

Lemma cancel_preserves a : run_inv a -> run_inv (a <| as_runtime := (as_runtime a) <| rt_cancelled := true |> |>).
Proof. by intros [W St C Wa D P Cl Q Sh]. Qed.

Lemma run_preserves async a a' : run_inv a -> run_step async a a' -> run_inv a'.
Proof.
  intros I S. destruct S; [by eapply thread_preserves|by apply spawn_preserves|by apply cancel_preserves].
Qed.

Lemma run_reachable async a a' : run_inv a -> rtc (run_step async) a a' -> run_inv a'.
Proof. intros I S. induction S; [done|]. eauto using run_preserves. Qed.

(** Once stopped, a runtime stays stopped. *)
Lemma stopped_stays async a a' :
  rt_once (as_runtime a) = OnceDone -> run_inv a -> run_step async a a' -> rt_once (as_runtime a') = OnceDone.
Proof.
  intros O I S. destruct S as [a i g a' g' E T|a g G|a]; [|done|done]. cbn.
  pose proof (count_pos stopping _ _ _ E) as P2. pose proof (ri_stop _ I) as St. rewrite O in St.
  destruct a as [[ca cl wg on] co inner th]. cbn in *. subst.
  destruct g; cbn in T; unfold rt_admit in T; try destruct k; cbn in T; split_step T; simplify_eq; cbn in *; try done;
    satisfied; lia.
Qed.

Lemma count_zero p l : count p l = 0%nat -> Forall (fun g => p g = false) l.
Proof.
  unfold count. intros Z. apply List.Forall_forall. intros g M. destruct (p g) eqn:E; [|done].
  assert (In g (List.filter p l)) as I by (by apply filter_In). by destruct (List.filter p l).
Qed.

(** Shutting down is complete and final under every interleaving of tasks, publications, stops
    and closes: the wrapped publisher is closed at most once, no publication on it starts after
    its close, and none is under way by then; once a stop has returned no task and no
    publication is running, and none ever runs again. *)
Theorem shutdown_quiet (async parent_cancelled : bool) (a b : assembly)
  (Hrun : rtc (run_step async) (assembly_start parent_cancelled) a) (Hlater : rtc (run_step async) a b) :
  (closes (as_inner a) <= 1)%nat /\ quiet_after_close (as_inner a) /\
  ((1 <= closes (as_inner a))%nat -> rt_once (as_runtime a) = OnceDone) /\
  (rt_once (as_runtime a) = OnceDone -> Forall (fun g => registered g = false) (as_threads b)).
Proof.
  pose proof (run_reachable async _ _ (run_inv_start parent_cancelled) Hrun) as I.
  assert (rt_once (as_runtime a) = OnceDone -> rt_once (as_runtime b) = OnceDone) as L.
  { clear Hrun. revert I. induction Hlater as [a|a b c S Hl IH]; intros I O; [done|].
    apply IH; [by eapply run_preserves|by eapply stopped_stays]. }
  pose proof (run_reachable async _ _ I Hlater) as J. pose proof (ri_closes _ I) as C. split_and!.
  - destruct (as_closeOnce a); lia.
  - apply (ri_quiet _ I).
  - intros H. apply (ri_shut _ I). destruct (as_closeOnce a); [lia|lia|done].
  - intros O. destruct (ri_done _ J (L O)) as [_ Z]. apply count_zero. by rewrite <- (ri_wg _ J).
Qed.

(** A task and a publication under way while the publisher is closed: the close waits for both. *)
Definition demo_publish : OpsEvent := zero_event <| oe_EventType := EventTypeRateLimit |>.

Definition demo_shut : assembly :=
  mkAssembly (mkRuntime true true 0 OnceDone) OnceDone [InnerPublish demo_publish; InnerStop; InnerClose]
    [Returned; Returned; Returned].

Ltac thread i := eapply rtc_l; [eapply (step_thread _ _ i); [reflexivity|reflexivity]|cbn].

Lemma demo_shutdown_run : rtc (run_step true) (assembly_start false) demo_shut.
Proof.
  eapply rtc_l; [apply step_spawn; left; apply (list_elem_of_here TaskStart)|cbn].
  eapply rtc_l; [apply step_spawn; right; by exists demo_publish|cbn].
  eapply rtc_l; [apply step_spawn; left; do 1 apply list_elem_of_further; apply (list_elem_of_here CloseStart)|cbn].
  thread 0%nat. thread 1%nat. thread 1%nat. thread 2%nat. thread 2%nat. thread 2%nat. thread 0%nat. thread 1%nat.
  thread 2%nat. thread 2%nat. thread 2%nat. apply rtc_refl.
Qed.

Lemma shutdown_quiet_witness : quiet_after_close (as_inner demo_shut) /\ Forall (fun g => registered g = false) (as_threads demo_shut).
Proof.
  pose proof (shutdown_quiet true false demo_shut demo_shut demo_shutdown_run (rtc_refl _ _)) as (_ & Q & _ & F).
  split; [exact Q|]. by apply F.
Defined.

(** A stop is never stuck: while one waits, it can return or a goroutine it waits for can move. *)
Lemma stop_not_stuck async a i k :
  run_inv a -> as_threads a !! i = Some (StopWaits k) ->
  exists j g, as_threads a !! j = Some g /\ (j = i \/ registered g = true) /\ is_Some (thread_step async a g).
Proof.
  intros I E. destruct (rt_wg (as_runtime a)) as [|n] eqn:Wg.
  - exists i, (StopWaits k). split_and!; [done|by left|]. cbn. rewrite Wg. by eexists.
  - pose proof (ri_wg _ I) as W. rewrite Wg in W.
    destruct (List.filter registered (as_threads a)) as [|g l] eqn:F; [unfold count in W; by rewrite F in W|].
    assert (In g (List.filter registered (as_threads a))) as M by (rewrite F; by left).
    apply filter_In in M as [M G]. apply list_elem_of_In, list_elem_of_lookup in M as [j M].
    exists j, g. split_and!; [done|by right|]. destruct g; try done; cbn; try case_match; by eexists.
Qed.

(** * gatewayLifetime *)

(** The calls of [close]. *)
Inductive close_call :=
| StopReporter | StopBackgroundTasks | StopTasks | StopPublisher | CloseWorker | CloseStatus | CloseAccessLog
| CleanupTelemetry | CloseEngine | CloseQueue | CloseStateStore | CloseDiscovery | ClosePublisher.

#[global] Instance close_call_eq_dec : EqDecision close_call.
Proof. solve_decision. Defined.

(** Which resources are there; [gl_publisher]: whether it is a [runtimePublisher], [gl_stateStore]:
    whether it is a [RedisStateStore], whose client is borrowed. *)
Record gatewayLifetime := mkLifetime {
  gl_once : bool;
  gl_engine : bool; gl_tasks : bool; gl_stateStore : option bool; gl_queue : bool; gl_discovery : bool;
  gl_worker : bool; gl_accessLog : bool; gl_status : bool; gl_publisher : option bool;
  gl_stopReporter : bool; gl_otelCleanup : bool; gl_initialized : bool
}.
#[global] Instance eta_lifetime : Eta gatewayLifetime := fun l =>
  mkLifetime (gl_once l) (gl_engine l) (gl_tasks l) (gl_stateStore l) (gl_queue l) (gl_discovery l) (gl_worker l)
    (gl_accessLog l) (gl_status l) (gl_publisher l) (gl_stopReporter l) (gl_otelCleanup l) (gl_initialized l).

Definition call_if (b : bool) (c : close_call) : list close_call := if b then [c] else [].

(** The owned resources: by the engine when construction succeeded, one by one otherwise. *)
Definition owned_calls (l : gatewayLifetime) : list close_call :=
  if gl_initialized l then [CloseEngine]
  else call_if (gl_queue l) CloseQueue ++ call_if (bool_decide (gl_stateStore l = Some false)) CloseStateStore ++
       call_if (gl_discovery l) CloseDiscovery.

Definition lifetime_calls (l : gatewayLifetime) : list close_call :=
  call_if (gl_stopReporter l) StopReporter ++ call_if (gl_engine l) StopBackgroundTasks ++ call_if (gl_tasks l) StopTasks ++
  call_if (bool_decide (gl_publisher l = Some true)) StopPublisher ++ call_if (gl_worker l) CloseWorker ++
  call_if (gl_status l) CloseStatus ++ call_if (gl_accessLog l) CloseAccessLog ++ call_if (gl_otelCleanup l) CleanupTelemetry ++
  owned_calls l ++ call_if (bool_decide (is_Some (gl_publisher l))) ClosePublisher.

Definition lifetime_close (l : gatewayLifetime) : gatewayLifetime * list close_call :=
  if gl_once l then (l, []) else (l <| gl_once := true |>, lifetime_calls l).

Lemma call_if_sub b c : call_if b c `sublist_of` [c].
Proof. destruct b; [done|]. apply sublist_nil_l. Qed.

Lemma owned_sub l : owned_calls l `sublist_of` ([CloseEngine] ++ [CloseQueue] ++ [CloseStateStore] ++ [CloseDiscovery]).
Proof.
  unfold owned_calls. destruct (gl_initialized l).
  - apply sublist_inserts_r. done.
  - apply sublist_inserts_l. repeat apply sublist_app; apply call_if_sub.
Qed.

(** Every resource is released by one call; a second close makes none. *)
Lemma lifetime_close_once l : gl_once l = false ->
  NoDup (snd (lifetime_close l)) /\ snd (lifetime_close (fst (lifetime_close l))) = [].
Proof.
  intros O. unfold lifetime_close. rewrite O. split; [|done]. cbn [snd]. unfold lifetime_calls.
  eapply sublist_NoDup; [|repeat apply sublist_app; first [apply call_if_sub|apply owned_sub]].
  apply (bool_decide_unpack _). vm_compute. exact I.
Qed.

(** The publisher is stopped before anything that publishes is closed, and closed last; what a
    failed construction borrowed (the client of the Redis store) is left open. *)
Lemma lifetime_publisher_last l p : gl_once l = false -> gl_publisher l = Some p ->
  exists calls, snd (lifetime_close l) = calls ++ [ClosePublisher] /\
    (gl_initialized l = false -> gl_stateStore l = Some true -> CloseStateStore ∉ calls).
Proof.
  intros O P. unfold lifetime_close, lifetime_calls. rewrite O, P. cbn [snd].
  rewrite (bool_decide_eq_true_2 (is_Some (Some p))) by done. cbn [call_if]. rewrite !app_assoc. eexists. split; [done|].
  intros N B. unfold owned_calls. rewrite N, B, (bool_decide_eq_false_2 (Some true = Some false)) by done.
  rewrite !not_elem_of_app. repeat split; unfold call_if; try case_match; set_solver.
Qed.
