(* ===== verification/Balancers.v ===== *)
(** pkg/lbs: the load balancers, each a selection over the routed candidates with its
    own state.  [Select] returns the endpoint of the [ProviderInvoker] it builds
    ([None]: a nil invoker); random numbers, the clock and the state store are
    arguments. *)

From S2P Require Import Prelude GoFloat GoStrings GoTime Matcher Policy Types Context Store.

(** * round_robin.go *)

Abbreviation RoundRobin := (gmap string Z) (only parsing).

Definition routePoolKey (g : option GatewayContext) (eps : list Endpoint) : string :=
  let gm := match g with Some g => Model g | None => "" end in
  let name :=
    if negb (is_empty gm) then gm
    else match eps with
         | e :: _ => if negb (is_empty (ep_Model e)) then ep_Model e else "__default__"
         | [] => "__default__"
         end in
  name +:+ "|" +:+ Join (map ep_ID eps) ",".

Definition counterFor (lb : RoundRobin) (key : string) : Z := default 0 (lb !! key).

Definition RoundRobin_Select (lb : RoundRobin) (g : option GatewayContext) (eps : list Endpoint) :
  RoundRobin * option Endpoint :=
  match eps with
  | [] => (lb, None)
  | _ =>
      let key := routePoolKey g eps in
      let counter := uwrap64 (counterFor lb key + 1) in
      let idx := uwrap64 (counter - 1) in
      (<[key := counter]> lb, eps !! Z.to_nat (idx mod Z.of_nat (length eps)))
  end.

(** * weighted_round_robin.go *)

(** A weight that is not positive counts as one. *)
Definition eff_weight (ep : Endpoint) : Z := if ep_Weight ep <=? 0 then 1 else ep_Weight ep.

Definition total_weight (eps : list Endpoint) : Z :=
  fold_left (fun t ep => wrap64 (t + eff_weight ep)) eps 0.

Abbreviation WeightedRR := (gmap string Z) (only parsing).

(** One iteration of the second loop: the weights, the running maximum, the choice. *)
Definition wrr_step (st : WeightedRR * Z * option Endpoint) (ep : Endpoint) : WeightedRR * Z * option Endpoint :=
  let '(ws, maxWeight, selected) := st in
  let w := wrap64 (default 0 (ws !! ep_ID ep) + eff_weight ep) in
  let ws := <[ep_ID ep := w]> ws in
  if (maxWeight <? 0) || (maxWeight <? w) then (ws, w, Some ep) else (ws, maxWeight, selected).

Definition WeightedRR_Select (ws : WeightedRR) (eps : list Endpoint) : WeightedRR * option Endpoint :=
  match eps with
  | [] => (ws, None)
  | _ =>
      let total := total_weight eps in
      let init := fold_left (fun m ep => match m !! ep_ID ep with Some _ => m | None => <[ep_ID ep := 0]> m end) eps ws in
      let '(ws, _, selected) := fold_left wrr_step eps (init, -1, None) in
      match selected with
      | None => (ws, None)
      | Some e => (<[ep_ID e := wrap64 (default 0 (ws !! ep_ID e) - total)]> ws, Some e)
      end
  end.

(** * least_connections.go *)

Abbreviation LeastConnections := (gmap string Z) (only parsing).

(** The selection loop over a measure, with the sentinel [-1]. *)
Definition min_step (measure : Endpoint -> Z) (st : Z * option Endpoint) (ep : Endpoint) : Z * option Endpoint :=
  let '(m, selected) := st in
  let v := measure ep in
  if (m <? 0) || (v <? m) then (v, Some ep) else st.

Definition LeastConnections_Select (cs : LeastConnections) (eps : list Endpoint) :
  LeastConnections * option Endpoint :=
  let cs := fold_left (fun m ep => match m !! ep_ID ep with Some _ => m | None => <[ep_ID ep := 0]> m end) eps cs in
  let '(_, selected) := fold_left (min_step (fun ep => default 0 (cs !! ep_ID ep))) eps (-1, None) in
  match selected with
  | None => (cs, None)
  | Some e => (<[ep_ID e := wrap64 (default 0 (cs !! ep_ID e) + 1)]> cs, Some e)
  end.

Definition IncrConnections (cs : LeastConnections) (id : string) : LeastConnections :=
  match cs !! id with Some c => <[id := wrap64 (c + 1)]> cs | None => <[id := 1]> cs end.

Definition Done (cs : LeastConnections) (id : string) : LeastConnections :=
  match cs !! id with Some c => if 0 <? c then <[id := c - 1]> cs else cs | None => cs end.

Definition ActiveConnections (cs : LeastConnections) (id : string) : Z := default 0 (cs !! id).

(** * least_latency.go *)

(** A duration parameter: a number of seconds or a duration text; non-positive values
    and other types leave the default. *)
Definition duration_param (v : option gvalue) (dflt : Duration) : Duration :=
  match v with
  | Some (VFloat64 x) => if flt fzero x then duration_mul (to_int64 x) Second else dflt
  | Some (VInt x) => if 0 <? x then duration_mul x Second else dflt
  | Some (VString s) => match ParseDuration s with Some d => if 0 <? d then d else dflt | None => dflt end
  | _ => dflt
  end.

Definition metric_param (v : option gvalue) : string :=
  match v with
  | Some (VString s) => if seqb s "ttft" || seqb s "total" then s else "total"
  | _ => "total"
  end.

Definition defaultLatencyWindow : Duration := 5 * Minute.

Definition resolveConfig (g : option GatewayContext) : Duration * string :=
  match g ≫= lb_params with
  | None => (defaultLatencyWindow, "total")
  | Some params =>
      (duration_param (params !! "latency_window") defaultLatencyWindow, metric_param (params !! "latency_metric"))
  end.

Section with_store.
Context {S : Type} `{StateStore S}.

Definition queryAvg (s : S) (metric : string) (window : Duration) (id : string) (now : Time) :
  S * (Duration * option goerror) :=
  if seqb metric "ttft" then GetAvgTTFT s id window now else GetAvgLatency s id window now.

(** One iteration: a failed query skips the endpoint. *)
Definition latency_step (metric : string) (window : Duration) (now : Time)
  (st : S * (Duration * option Endpoint)) (ep : Endpoint) : S * (Duration * option Endpoint) :=
  let '(s, best) := st in
  let '(s, (avg, err)) := queryAvg s metric window (ep_ID ep) now in
  match err with
  | Some _ => (s, best)
  | None => (s, min_step (fun _ => avg) best ep)
  end.

Definition LeastLatency_Select (s : S) (g : GatewayContext) (eps : list Endpoint) (now : Time) :
  S * option Endpoint :=
  match eps with
  | [] => (s, None)
  | first :: _ =>
      let '(window, metric) := resolveConfig (Some g) in
      let '(s, (_, selected)) := fold_left (latency_step metric window now) eps (s, (-1, None)) in
      (s, Some (default first selected))
  end.

(** * composite.go *)

Definition parseWeight (v : option gvalue) : option float64 :=
  match v with
  | Some (VFloat64 f) | Some (VFloat32 f) => Some f
  | Some (VInt z) | Some (VInt64 z) => Some (of_int z)
  | _ => None
  end.

(** Pass 1: cost and latency of every endpoint, with the maxima. *)
Definition collect_step (Sscanf_f : string -> float64) (now : Time)
  (st : S * (float64 * Duration) * list (Endpoint * float64 * Duration)) (ep : Endpoint) :=
  let '(s, (maxCost, maxLatency), rows) := st in
  let cost := CostPerToken Sscanf_f ep in
  let '(s, (latency, _)) := GetAvgLatency s (ep_ID ep) (5 * Minute) now in
  (s, (if flt maxCost cost then cost else maxCost, if maxLatency <? latency then latency else maxLatency),
   rows ++ [(ep, cost, latency)]).

(** Pass 2. *)
Definition composite_score (costWeight latencyWeight maxCost : float64) (maxLatency : Duration)
  (row : Endpoint * float64 * Duration) : Endpoint * float64 :=
  let '(ep, cost, latency) := row in
  let costScore := if flt fzero maxCost then fdiv cost maxCost else fzero in
  let latencyScore := if 0 <? maxLatency then fdiv (of_int latency) (of_int maxLatency) else fzero in
  (ep, fadd (fmul costScore costWeight) (fmul latencyScore latencyWeight)).

Definition best_score (best : Endpoint * float64) (row : Endpoint * float64) : Endpoint * float64 :=
  if flt (snd row) (snd best) then row else best.

Definition Composite_Select (costWeight0 latencyWeight0 : float64) (Sscanf_f : string -> float64) (s : S)
  (g : option GatewayContext) (eps : list Endpoint) (now : Time) : S * option Endpoint :=
  match eps with
  | [] => (s, None)
  | _ =>
      let param k d := match g ≫= lb_params with
                       | Some ps => default d (parseWeight (ps !! k)) | None => d end in
      let costWeight := param "cost_weight" costWeight0 in
      let latencyWeight := param "latency_weight" latencyWeight0 in
      let '(s, (maxCost, maxLatency), rows) := fold_left (collect_step Sscanf_f now) eps (s, (fzero, 0), []) in
      match map (composite_score costWeight latencyWeight maxCost maxLatency) rows with
      | [] => (s, None)
      | first :: rest => (s, Some (fst (fold_left best_score rest first)))
      end
  end.
End with_store.

(** * cost.go *)

Definition cost_step (Sscanf_f : string -> float64) (st : float64 * option Endpoint) (ep : Endpoint) :
  float64 * option Endpoint :=
  let '(bestCost, best) := st in
  let cost := CostPerToken Sscanf_f ep in
  if flt cost bestCost then (cost, Some ep) else st.

(** [best.ProviderImpl] with a nil [best] panics. *)
Definition Cost_Select (Sscanf_f : string -> float64) (eps : list Endpoint) : go (option Endpoint) :=
  match eps with
  | [] => Ret None
  | _ =>
      match snd (fold_left (cost_step Sscanf_f) eps (MaxFloat64, None)) with
      | Some e => Ret (Some e)
      | None => Panic
      end
  end.

(** * random.go and weighted_random.go *)

(** [randomInt(n)]: [rand n] is the number [crypto/rand] draws below [n], [None] its error. *)
Definition randomInt (rand : Z -> option Z) (n : Z) : Z := default 0 (rand n).

Definition Random_Select (rand : Z -> option Z) (eps : list Endpoint) : option Endpoint :=
  match eps with
  | [] => None
  | _ => eps !! Z.to_nat (randomInt rand (Z.of_nat (length eps)))
  end.

Fixpoint pick_cumulative (r cum : Z) (eps : list Endpoint) : option Endpoint :=
  match eps with
  | [] => None
  | ep :: rest =>
      let cum := wrap64 (cum + eff_weight ep) in
      if r <? cum then Some ep else pick_cumulative r cum rest
  end.

Definition WeightedRandom_Select (rand : Z -> option Z) (eps : list Endpoint) : option Endpoint :=
  match eps with
  | [] => None
  | _ =>
      let r := randomInt rand (total_weight eps) in
      match pick_cumulative r 0 eps with Some e => Some e | None => last eps end
  end.

(** * endpoint_affinity.go *)

Definition allow_degrade_param (v : option gvalue) : bool :=
  match v with
  | Some (VBool b) => b
  | Some (VString s) => default false (ParseBool s)
  | Some (VFloat64 f) => negb (feq f fzero)
  | _ => false
  end.

Definition string_param (v : option gvalue) (dflt : string) : string :=
  match v with Some (VString s) => if is_empty s then dflt else s | _ => dflt end.

(** Source type, source key and whether a miss may degrade. *)
Definition affinity_config (g : option GatewayContext) : string * string * bool :=
  match g ≫= lb_params with
  | None => ("header", "X-Endpoint-Code", false)
  | Some ps => (string_param (ps !! "source_type") "header", string_param (ps !! "source_key") "X-Endpoint-Code",
                allow_degrade_param (ps !! "allow_degrade"))
  end.

Definition affinity_target (g : option GatewayContext) (sourceType sourceKey : string) : string :=
  match g ≫= Request with
  | None => ""
  | Some r =>
      if seqb sourceType "header" then header_Get (req_Header r) sourceKey
      else if seqb sourceType "query" then match req_URL r with Some q => query_Get q sourceKey | None => "" end
      else if seqb sourceType "cookie" then default "" (req_Cookie r sourceKey)
      else ""
  end.

Definition Affinity_Select (lb : RoundRobin) (g : option GatewayContext) (eps : list Endpoint) :
  RoundRobin * option GatewayContext * option Endpoint :=
  match eps with
  | [] => (lb, g, None)
  | _ =>
      let '(sourceType, sourceKey, allowDegrade) := affinity_config g in
      let target := affinity_target g sourceType sourceKey in
      let fallback := let '(lb, e) := RoundRobin_Select lb g eps in (lb, g, e) in
      if is_empty target then fallback
      else
        match List.find (fun ep => seqb (ep_Code ep) target || seqb (ep_ID ep) target) eps with
        | Some e => (lb, g, Some e)
        | None =>
            if allowDegrade then fallback
            else (lb, (fun g => g <| FatalErr := Some errFatalNoAvailableEndpoint |>) <$> g, None)
        end
  end.

(** * session_hash.go *)

Definition fnv_offset : Z := 14695981039346656037.
Definition fnv_prime : Z := 1099511628211.

(** FNV-1a over bytes. *)
Definition fnv1a (h : Z) (bytes : list Z) : Z :=
  fold_left (fun h b => uwrap64 (Z.lxor h b * fnv_prime)) bytes h.

Fixpoint string_bytes (s : string) : list Z :=
  match s with
  | String c s' => Z.of_nat (Ascii.nat_of_ascii c) :: string_bytes s'
  | EmptyString => []
  end.

(** Eight bytes, most significant first. *)
Definition big_endian (n : Z) : list Z :=
  map (fun i => Z.land (Z.shiftr n (8 * i)) 255) [7; 6; 5; 4; 3; 2; 1; 0].

Definition mix64 (x : Z) : Z :=
  let x := Z.lxor x (Z.shiftr x 30) in
  let x := uwrap64 (x * 13787848793156543929) in
  let x := Z.lxor x (Z.shiftr x 27) in
  let x := uwrap64 (x * 10723151780598845931) in
  Z.lxor x (Z.shiftr x 31).

Definition rendezvousScore (sessionID endpointID : string) (replica : Z) : Z :=
  mix64 (fnv1a (fnv1a (fnv1a (fnv1a fnv_offset (string_bytes sessionID)) [124]) (string_bytes endpointID))
           (big_endian replica)).

Definition maxHashWeight : Z := 128.

Definition hash_weight (ep : Endpoint) : nat :=
  let w := if ep_Weight ep <? 1 then 1 else ep_Weight ep in
  Z.to_nat (if maxHashWeight <? w then maxHashWeight else w).

(** One replica of one endpoint. *)
Definition hash_step (sessionID : string) (ep : Endpoint) (st : Z * option Endpoint) (i : nat) : Z * option Endpoint :=
  let '(bestScore, best) := st in
  let score := rendezvousScore sessionID (ep_ID ep) (Z.of_nat i) in
  if bestScore <? score then (score, Some ep) else st.

Definition hash_endpoint (sessionID : string) (st : Z * option Endpoint) (ep : Endpoint) : Z * option Endpoint :=
  fold_left (hash_step sessionID ep) (seq 0 (hash_weight ep)) st.

(** The choice for a non-empty session. *)
Definition hash_select (sessionID : string) (eps : list Endpoint) : option Endpoint :=
  snd (fold_left (hash_endpoint sessionID) eps (0, None)).

(** [fallback]: the balancer for requests without a session, where one is set. *)
Definition SessionHash_Select {F : Type} (fallback : option (F -> list Endpoint -> F * option Endpoint)) (f : F)
  (g : GatewayContext) (eps : list Endpoint) : F * option Endpoint :=
  match eps with
  | [] => (f, None)
  | _ =>
      if is_empty (SessionID g) then
        match fallback with None => (f, None) | Some sel => sel f eps end
      else (f, hash_select (SessionID g) eps)
  end.
