(* ===== verification/BalancersSpec.v ===== *)
(** Properties of the load balancers of pkg/lbs: who is chosen, how often, and how a
    choice changes with the candidate set. *)

From S2P Require Import Prelude GoFloat GoStrings GoTime Matcher Policy Types Context Store Balancers.

(** * Round robin *)

(** The choices of [n] consecutive calls. *)
Fixpoint rr_run (n : nat) (lb : RoundRobin) (g : option GatewayContext) (eps : list Endpoint) :
  list (option Endpoint) :=
  match n with
  | O => []
  | S n => let '(lb, e) := RoundRobin_Select lb g eps in e :: rr_run n lb g eps
  end.

Lemma RoundRobin_Select_cursor lb g eps :
  eps <> [] -> let c := counterFor lb (routePoolKey g eps) in 0 <= c -> c + 1 < two64 ->
  snd (RoundRobin_Select lb g eps) = eps !! Z.to_nat (c mod Z.of_nat (length eps)) /\
  counterFor (fst (RoundRobin_Select lb g eps)) (routePoolKey g eps) = c + 1.
Proof.
  intros N c Hc Hb. unfold RoundRobin_Select. destruct eps as [|e eps]; [done|].
  cbn zeta. fold c. cbn [fst snd]. rewrite (uwrap64_small (c + 1)) by lia.
  rewrite uwrap64_small by lia. split; [by rewrite Z.add_simpl_r|].
  unfold counterFor. by rewrite lookup_insert_eq.
Qed.

Lemma rr_run_lookup n : forall lb g eps i c,
  eps <> [] -> counterFor lb (routePoolKey g eps) = c -> 0 <= c -> c + Z.of_nat n < two64 -> (i < n)%nat ->
  rr_run n lb g eps !! i = Some (eps !! Z.to_nat ((c + Z.of_nat i) mod Z.of_nat (length eps))).
Proof.
  induction n as [|n IH]; intros lb g eps i c N E Hc Hb Hi; [lia|]. cbn [rr_run].
  destruct (RoundRobin_Select_cursor lb g eps N) as [E1 E2]; [lia..|]. rewrite E in E1, E2.
  destruct (RoundRobin_Select lb g eps) as [lb' e]; cbn [fst snd] in *. destruct i as [|i].
  - cbn. by rewrite E1, Z.add_0_r.
  - etransitivity; [apply (IH lb' g eps i (c + 1)); done || lia|]. do 4 f_equal. lia.
Qed.

Lemma rr_run_length n lb g eps : length (rr_run n lb g eps) = n.
Proof. revert lb. induction n as [|n IH]; intros lb; cbn; [done|]. destruct (RoundRobin_Select _ _ _). cbn. by rewrite IH. Qed.

(** Round robin is fair: as many consecutive choices from one pool as it has
    endpoints visit every endpoint exactly once, from any cursor (64-bit counter not
    about to wrap). *)
Theorem round_robin_fair (lb : RoundRobin) (g : option GatewayContext) (eps : list Endpoint)
  (Hne : eps <> []) (Hc : 0 <= counterFor lb (routePoolKey g eps))
  (Hb : counterFor lb (routePoolKey g eps) + Z.of_nat (length eps) < two64) :
  rr_run (length eps) lb g eps ≡ₚ map Some eps.
Proof.
  set (c := counterFor lb (routePoolKey g eps)) in *.
  assert (rr_run (length eps) lb g eps = map Some (rotate (Z.to_nat c) eps)) as ->.
  { apply list_eq. intros i. destruct (decide (i < length eps)%nat) as [Hi|Hi].
    - rewrite (rr_run_lookup (length eps) lb g eps i c) by done. rewrite list_lookup_fmap, lookup_rotate_r by done.
      unfold rotate_nat_add.
      assert (is_Some (eps !! Z.to_nat ((c + Z.of_nat i) mod Z.of_nat (length eps)))) as [x Hx].
      { apply lookup_lt_is_Some. pose proof (Z.mod_pos_bound (c + Z.of_nat i) (Z.of_nat (length eps))). lia. }
      rewrite Z2Nat.id by lia. by rewrite Hx.
    - rewrite !lookup_ge_None_2; [done| |]; rewrite ?length_fmap, ?rr_run_length; [rewrite length_rotate|]; lia. }
  apply Permutation_map. unfold rotate. rewrite Permutation_app_comm. by rewrite take_drop.
Qed.

Definition mk_ep (id : string) (weight : Z) : Endpoint :=
  mkEndpoint id id "" "p" "" "m" "" ∅ weight 0 [] true true ∅ "" "" "openai" 0 0 None None None None.

Lemma round_robin_fair_witness :
  rr_run 3 {["m|a,b,c" := 4]} None [mk_ep "a" 1; mk_ep "b" 1; mk_ep "c" 1] ≡ₚ
  map Some [mk_ep "a" 1; mk_ep "b" 1; mk_ep "c" 1].
Proof.
  apply (round_robin_fair {["m|a,b,c" := 4]} None [mk_ep "a" 1; mk_ep "b" 1; mk_ep "c" 1]);
    [done|vm_compute; discriminate|vm_compute; reflexivity].
Defined.

(** * Smooth weighted round robin *)

Section wrr.
Context (eps : list Endpoint) (HN : NoDup (map ep_ID eps)) (Hne : eps <> []).

Definition sum_over (f : Endpoint -> Z) (l : list Endpoint) : Z := fold_right (fun e z => f e + z) 0 l.
Definition cw (ws : gmap string Z) (e : Endpoint) : Z := default 0 (ws !! ep_ID e).
Definition T : Z := sum_over eff_weight eps.
Context (HT : T <= 2147483648).

Lemma eff_weight_pos e : 1 <= eff_weight e.
Proof. unfold eff_weight. destruct (_ <=? 0) eqn:E; zbool; lia. Qed.

Lemma sum_over_app f l k : sum_over f (l ++ k) = sum_over f l + sum_over f k.
Proof. unfold sum_over. induction l as [|x l IH]; cbn; [done|]. rewrite IH. lia. Qed.

Lemma sum_over_ext f h l : (forall e, e ∈ l -> f e = h e) -> sum_over f l = sum_over h l.
Proof.
  unfold sum_over. induction l as [|x l IH]; cbn; [done|]. intros E.
  rewrite (E x) by left. rewrite IH; [done|]. intros. apply E. by right.
Qed.

Lemma sum_over_add f h l : sum_over (fun e => f e + h e) l = sum_over f l + sum_over h l.
Proof. unfold sum_over. induction l as [|x l IH]; cbn; [done|]. rewrite IH. lia. Qed.

Lemma sum_over_nonneg f l : (forall e, e ∈ l -> 0 <= f e) -> 0 <= sum_over f l.
Proof.
  unfold sum_over. induction l as [|x l IH]; cbn; [done|]. intros E.
  pose proof (E x ltac:(left)). assert (0 <= fold_right (fun e z => f e + z) 0 l); [|lia].
  apply IH. intros. apply E. by right.
Qed.

Lemma sum_over_nonpos f l : (forall e, e ∈ l -> f e <= 0) -> sum_over f l <= 0.
Proof.
  unfold sum_over. induction l as [|x l IH]; cbn; [done|]. intros E.
  pose proof (E x ltac:(left)). assert (fold_right (fun e z => f e + z) 0 l <= 0); [|lia].
  apply IH. intros. apply E. by right.
Qed.

Lemma sum_over_le_elem f l e : (forall e, e ∈ l -> 0 <= f e) -> e ∈ l -> f e <= sum_over f l.
Proof.
  intros Hf [l1 [l2 ->]]%list_elem_of_split. rewrite sum_over_app. cbn.
  assert (0 <= sum_over f l1) by (apply sum_over_nonneg; intros; apply Hf; set_solver).
  assert (0 <= sum_over f l2) by (apply sum_over_nonneg; intros; apply Hf; set_solver).
  unfold sum_over in *. lia.
Qed.

Lemma weight_le_T e : e ∈ eps -> eff_weight e <= T.
Proof. apply sum_over_le_elem. intros x _. pose proof (eff_weight_pos x). lia. Qed.

Lemma total_weight_T : total_weight eps = T.
Proof.
  unfold total_weight, T.
  assert (forall l a, 0 <= a -> a + sum_over eff_weight l <= 2147483648 ->
    fold_left (fun t ep => wrap64 (t + eff_weight ep)) l a = a + sum_over eff_weight l) as F.
  { unfold sum_over. induction l as [|x l IH]; intros a Ha Hb; cbn in *; [lia|].
    pose proof (eff_weight_pos x).
    assert (0 <= sum_over eff_weight l).
    { apply sum_over_nonneg. intros y _. pose proof (eff_weight_pos y). lia. }
    unfold sum_over in *.
    rewrite wrap64_small by (unfold in_int64, min_int64, max_int64; lia). rewrite IH by lia. lia. }
  rewrite F; unfold T in HT; lia.
Qed.

Lemma ID_inj e1 e2 : e1 ∈ eps -> e2 ∈ eps -> ep_ID e1 = ep_ID e2 -> e1 = e2.
Proof.
  clear HT Hne. intros H1 H2 E. apply list_elem_of_lookup in H1 as [i Hi], H2 as [j Hj].
  assert (i = j) as ->; [|congruence].
  eapply (NoDup_lookup (map ep_ID eps) i j (ep_ID e1)); [done|..]; rewrite list_lookup_fmap;
    [by rewrite Hi|by rewrite Hj, E].
Qed.

(** The first loop only adds zero entries. *)
Lemma init_cw l : forall ws e,
  cw (fold_left (fun m ep => match m !! ep_ID ep with Some _ => m | None => <[ep_ID ep := 0]> m end) l ws) e = cw ws e.
Proof.
  induction l as [|x l IH]; intros ws e; cbn [fold_left]; [done|]. rewrite IH.
  destruct (ws !! ep_ID x) eqn:E; [done|]. unfold cw.
  destruct (decide (ep_ID x = ep_ID e)) as [<-|N]; [by rewrite lookup_insert_eq, E|by rewrite lookup_insert_ne].
Qed.

(** The second loop over a part of the candidates. *)
Lemma wrr_loop ws l :
  (forall e, e ∈ l -> e ∈ eps) -> NoDup (map ep_ID l) -> l <> [] ->
  (forall e, e ∈ eps -> in_int64 (cw ws e + eff_weight e)) ->
  exists ws' sel, fold_left wrr_step l (ws, -1, None) = (ws', cw ws' sel, Some sel) /\ sel ∈ l /\
    (forall e, e ∈ l -> cw ws' e = cw ws e + eff_weight e) /\
    (forall e, e ∈ eps -> e ∉ l -> cw ws' e = cw ws e) /\
    (cw ws' sel < 0 /\ (forall e, e ∈ l -> cw ws' e < 0) \/
     0 <= cw ws' sel /\ forall e, e ∈ l -> cw ws' e <= cw ws' sel).
Proof.
  intros Hin HNl Hl0 Hb. revert Hin HNl Hl0. induction l as [|x l IH] using rev_ind; [done|].
  intros Hin HNl _. rewrite map_app in HNl. apply NoDup_app in HNl as (HNl & Hx & _).
  assert (x ∈ eps) as Hxe by (apply Hin; set_solver).
  assert (x ∉ l) as Nx.
  { intros H. apply (Hx (ep_ID x)); [apply list_elem_of_fmap; eauto|]. cbn. set_solver. }
  assert (forall e, e ∈ eps -> e <> x -> ep_ID x <> ep_ID e) as NID.
  { intros e He Ne E. apply Ne. symmetry. by apply ID_inj. }
  rewrite fold_left_app. cbn [fold_left].
  destruct (decide (l = [])) as [->|Nl].
  - cbn [fold_left wrr_step]. change (default 0 (ws !! ep_ID x)) with (cw ws x).
    rewrite wrap64_small by auto. cbn. set (w := cw ws x + eff_weight x).
    assert (cw (<[ep_ID x := w]> ws) x = w) as Ew by (unfold cw; by rewrite lookup_insert_eq).
    exists (<[ep_ID x := w]> ws), x. rewrite Ew. split_and!; [done|set_solver|..].
    + intros e He. apply list_elem_of_singleton in He as ->. by rewrite Ew.
    + intros e He Hne'. unfold cw. rewrite lookup_insert_ne; [done|]. apply NID; [done|set_solver].
    + destruct (Z.lt_ge_cases w 0); [left|right]; (split; [done|]); intros e He;
        apply list_elem_of_singleton in He as ->; rewrite Ew; lia.
  - destruct IH as (ws' & sel & E & Hs & H1 & H2 & H3); [intros; apply Hin; set_solver|done..|].
    rewrite E. cbn [wrr_step]. change (default 0 (ws' !! ep_ID x)) with (cw ws' x).
    assert (cw ws' x = cw ws x) as Ex by auto. rewrite Ex, wrap64_small by auto.
    set (w := cw ws x + eff_weight x).
    assert (cw (<[ep_ID x := w]> ws') x = w) as Ew by (unfold cw; by rewrite lookup_insert_eq).
    assert (forall e, e ∈ eps -> e <> x -> cw (<[ep_ID x := w]> ws') e = cw ws' e) as Fr.
    { intros e He Ne. unfold cw. rewrite lookup_insert_ne; [done|]. by apply NID. }
    assert (forall e, e ∈ l -> e ∈ eps /\ e <> x) as Hl.
    { intros e He. split; [apply Hin; set_solver|]. intros ->. done. }
    assert (forall e, e ∈ l ++ [x] -> cw (<[ep_ID x := w]> ws') e = cw ws e + eff_weight e) as A1.
    { intros e He. apply elem_of_app in He as [He|He].
      - destruct (Hl e He). rewrite Fr by done. auto.
      - apply list_elem_of_singleton in He as ->. done. }
    assert (forall e, e ∈ eps -> e ∉ l ++ [x] -> cw (<[ep_ID x := w]> ws') e = cw ws e) as A2.
    { intros e He Ne. rewrite Fr by (set_solver). apply H2; [done|set_solver]. }
    destruct (Hl sel Hs) as [Hs1 Hs2]. pose proof (Fr sel Hs1 Hs2) as Es.
    destruct ((cw ws' sel <? 0) || (cw ws' sel <? w)) eqn:B.
    + exists (<[ep_ID x := w]> ws'), x. rewrite Ew. split_and!; [done|set_solver|done|done|].
      apply orb_true_iff in B. destruct (Z.lt_ge_cases w 0) as [W|W]; [left|right]; (split; [done|]);
        intros e He; apply elem_of_app in He as [He|He];
        try (apply list_elem_of_singleton in He as ->; rewrite Ew; lia);
        destruct (Hl e He); rewrite Fr by done; destruct H3 as [[H3 H4]|[H3 H4]]; specialize (H4 e He);
        destruct B as [B|B]; zbool; lia.
    + apply orb_false_iff in B as [B1 B2]. zbool. destruct H3 as [[H3 _]|[H3 H4]]; [lia|].
      exists (<[ep_ID x := w]> ws'), sel. rewrite Es. split_and!; [done|set_solver|done|done|].
      right. split; [done|]. intros e He. apply elem_of_app in He as [He|He].
      * destruct (Hl e He). rewrite Fr by done. auto.
      * apply list_elem_of_singleton in He as ->. rewrite Ew. lia.
Qed.
(** What the choice takes off. *)
Definition off (sel e : Endpoint) : Z := if seqb (ep_ID e) (ep_ID sel) then - T else 0.

Lemma sum_off sel : sel ∈ eps -> sum_over (off sel) eps = - T.
Proof.
  intros Hs. pose proof Hs as [l1 [l2 E]]%list_elem_of_split.
  assert (forall l, (forall e, e ∈ l -> ep_ID e <> ep_ID sel) -> sum_over (off sel) l = 0) as Zr.
  { intros l Hl. rewrite (sum_over_ext _ (fun _ => 0)).
    - unfold sum_over. by induction l; cbn; [|rewrite IHl by (intros; apply Hl; by right)].
    - intros e He. unfold off. by rewrite (proj2 (seqb_neq _ _) (Hl e He)). }
  pose proof HN as HN'. rewrite E, map_app in HN'. cbn in HN'.
  apply NoDup_app in HN' as (_ & D1 & D2). apply NoDup_cons in D2 as [D2 _].
  rewrite E, sum_over_app. cbn. fold (sum_over (off sel) l2).
  rewrite !Zr; [unfold off; rewrite seqb_refl; lia|..]; intros e He Eq.
  - apply D2. rewrite <- Eq. apply list_elem_of_fmap. eauto.
  - apply (D1 (ep_ID e)); [apply list_elem_of_fmap; eauto|]. rewrite Eq. left.
Qed.

(** Weights are balanced: they add up to zero and none is a whole round behind. *)
Definition balanced (ws : gmap string Z) : Prop :=
  sum_over (cw ws) eps = 0 /\ forall e, e ∈ eps -> - T < cw ws e.

Lemma T_pos : 1 <= T.
Proof.
  assert (exists e, e ∈ eps) as [e He] by (clear -Hne; destruct eps; [done|eexists; left]).
  pose proof (weight_le_T e He). pose proof (eff_weight_pos e). lia.
Qed.

Lemma WeightedRR_Select_spec ws :
  balanced ws -> (forall e, e ∈ eps -> cw ws e <= T * T) ->
  exists ws' sel, WeightedRR_Select ws eps = (ws', Some sel) /\ sel ∈ eps /\
    (forall e, e ∈ eps -> cw ws' e = cw ws e + eff_weight e + off sel e) /\ balanced ws'.
Proof.
  intros [Hs Hlow] Hup. pose proof T_pos as HT1.
  set (w0 := fold_left (fun m ep => match m !! ep_ID ep with Some _ => m | None => <[ep_ID ep := 0]> m end) eps ws).
  assert (forall e, cw w0 e = cw ws e) as E0 by (intros; apply init_cw).
  destruct (wrr_loop w0 eps) as (w1 & sel & E1 & Hsel & H1 & _ & H3); [done..| |].
  { intros e He. rewrite E0. pose proof (Hlow e He). pose proof (Hup e He). pose proof (weight_le_T e He).
    pose proof (eff_weight_pos e). unfold in_int64, min_int64, max_int64. nia. }
  assert (forall e, e ∈ eps -> cw w1 e = cw ws e + eff_weight e) as Hw1 by (intros; rewrite H1, E0; done).
  assert (sum_over (cw w1) eps = T) as S1.
  { rewrite (sum_over_ext _ (fun e => cw ws e + eff_weight e)) by done. by rewrite sum_over_add, Hs. }
  assert (1 <= cw w1 sel /\ forall e, e ∈ eps -> cw w1 e <= cw w1 sel) as [Hpos Hmax].
  { destruct H3 as [[_ Hneg]|[Hp Hm]].
    - exfalso. assert (sum_over (cw w1) eps <= 0); [|lia].
      apply sum_over_nonpos. intros e He. specialize (Hneg e He). lia.
    - split; [|done]. destruct (Z.eq_dec (cw w1 sel) 0) as [Zs|]; [|lia]. exfalso.
      assert (sum_over (cw w1) eps <= 0); [|lia].
      apply sum_over_nonpos. intros e He. specialize (Hm e He). lia. }
  set (w2 := <[ep_ID sel := wrap64 (cw w1 sel - T)]> w1).
  assert (forall e, e ∈ eps -> cw w2 e = cw ws e + eff_weight e + off sel e) as Hw2.
  { intros e He. unfold off. destruct (seqb (ep_ID e) (ep_ID sel)) eqn:Eq; sbool.
    - assert (e = sel) as -> by (by apply ID_inj). unfold w2, cw at 1. rewrite lookup_insert_eq. cbn.
      pose proof (Hup sel Hsel). pose proof (Hlow sel Hsel). pose proof (weight_le_T sel Hsel).
      rewrite Hw1 by done. rewrite wrap64_small; [unfold id; lia|]. unfold in_int64, min_int64, max_int64.
      pose proof (eff_weight_pos sel). nia.
    - unfold w2, cw at 1. rewrite lookup_insert_ne by done. fold (cw w1 e). rewrite Hw1 by done. lia. }
  exists w2, sel. split_and!; [|done|done|].
  - unfold WeightedRR_Select. rewrite total_weight_T. fold w0. destruct eps; [done|]. by rewrite E1.
  - split.
    + rewrite (sum_over_ext _ (fun e => (cw ws e + eff_weight e) + off sel e)) by done.
      rewrite !sum_over_add, Hs, sum_off by done. unfold T. lia.
    + intros e He. rewrite Hw2 by done. pose proof (Hlow e He). pose proof (eff_weight_pos e). unfold off.
      destruct (seqb (ep_ID e) (ep_ID sel)) eqn:Eq; sbool; [|lia].
      assert (e = sel) as -> by (by apply ID_inj). rewrite Hw1 in Hpos by done. lia.
Qed.
(** Choices of [n] consecutive calls. *)
Fixpoint wrr_run (n : nat) (ws : gmap string Z) (l : list Endpoint) : list (option Endpoint) :=
  match n with
  | O => []
  | S n => let '(ws, e) := WeightedRR_Select ws l in e :: wrr_run n ws l
  end.

(** How often an ID was chosen. *)
Definition chosen (id : string) (l : list (option Endpoint)) : Z :=
  countb (fun o => match o with Some e => seqb (ep_ID e) id | None => false end) l.

Lemma chosen_cons id e l : chosen id (Some e :: l) = (if seqb (ep_ID e) id then 1 else 0) + chosen id l.
Proof. reflexivity. Qed.

Lemma wrr_run_balance n : forall k ws,
  balanced ws -> (forall e, e ∈ eps -> cw ws e <= Z.of_nat k * eff_weight e) -> Z.of_nat (k + n) <= T ->
  exists ws', balanced ws' /\
    forall e, e ∈ eps -> cw ws' e = cw ws e + Z.of_nat n * eff_weight e - T * chosen (ep_ID e) (wrr_run n ws eps).
Proof.
  induction n as [|n IH]; intros k ws B Hup Hk.
  - exists ws. split; [done|]. intros. cbn. lia.
  - destruct (WeightedRR_Select_spec ws B) as (ws1 & sel & E & Hsel & H1 & B1).
    { intros e He. specialize (Hup e He). pose proof (weight_le_T e He). pose proof (eff_weight_pos e).
      pose proof T_pos. nia. }
    destruct (IH (S k) ws1 B1) as (ws' & B' & H'); [|lia|].
    { intros e He. rewrite H1 by done. specialize (Hup e He). unfold off. pose proof T_pos.
      rewrite Nat2Z.inj_succ. destruct (seqb _ _); lia. }
    exists ws'. split; [done|]. intros e He. rewrite H', H1 by done. cbn [wrr_run]. rewrite E, Nat2Z.inj_succ.
    rewrite chosen_cons. unfold off.
    destruct (seqb (ep_ID e) (ep_ID sel)) eqn:Eq; sbool.
    + rewrite Eq, seqb_refl. lia.
    + rewrite (proj2 (seqb_neq (ep_ID sel) (ep_ID e))) by congruence. lia.
Qed.

Lemma wrr_period e : e ∈ eps -> chosen (ep_ID e) (wrr_run (Z.to_nat T) ∅ eps) = eff_weight e.
Proof.
  intros He. pose proof T_pos as HT1.
  assert (forall x, cw ∅ x = 0) as C0 by (intros; unfold cw; by rewrite lookup_empty).
  destruct (wrr_run_balance (Z.to_nat T) 0 ∅) as (ws' & [S' L'] & H').
  - split; [|intros; rewrite C0; lia]. rewrite (sum_over_ext _ (fun _ => 0)) by done.
    unfold sum_over. clear. induction eps; cbn; lia.
  - intros. rewrite C0. lia.
  - lia.
  - assert (forall x, x ∈ eps -> 0 <= eff_weight x - chosen (ep_ID x) (wrr_run (Z.to_nat T) ∅ eps)) as Nn.
    { intros x Hx. pose proof (L' x Hx) as Lx. rewrite H', C0, Z2Nat.id in Lx by (done || lia). nia. }
    rewrite (sum_over_ext _ (fun x => T * (eff_weight x - chosen (ep_ID x) (wrr_run (Z.to_nat T) ∅ eps)))) in S'.
    2: { intros x Hx. rewrite H', C0, Z2Nat.id by (done || lia). lia. }
    pose proof (sum_over_le_elem (fun x => T * (eff_weight x - chosen (ep_ID x) (wrr_run (Z.to_nat T) ∅ eps))) eps e)
      as Le. cbn beta in Le. pose proof (Nn e He).
    assert (T * (eff_weight e - chosen (ep_ID e) (wrr_run (Z.to_nat T) ∅ eps)) <= 0); [|nia].
    rewrite <- S'. apply Le; [|done]. intros x Hx. pose proof (Nn x Hx). nia.
Qed.
End wrr.

(** C35: Smooth weighted round robin is exactly proportional: over one period of as many
    choices as the weights add up to, every endpoint is chosen as many times as its
    weight (a weight that is not positive counts as one). This is for a fresh balancer and
    endpoints with different identifiers whose weights add up to at most 2^31. *)
Theorem weighted_round_robin_proportional (eps : list Endpoint) (HN : NoDup (map ep_ID eps)) (Hne : eps <> [])
  (HT : sum_over eff_weight eps <= 2147483648) :
  Forall (fun e => chosen (ep_ID e) (wrr_run (Z.to_nat (sum_over eff_weight eps)) ∅ eps) = eff_weight e) eps.
Proof. apply Forall_forall. intros e He. by apply (wrr_period eps HN Hne HT). Qed.

Lemma weighted_round_robin_proportional_witness :
  Forall (fun e => chosen (ep_ID e) (wrr_run 7 ∅ [mk_ep "a" 5; mk_ep "b" 1; mk_ep "c" 0]) = eff_weight e)
    [mk_ep "a" 5; mk_ep "b" 1; mk_ep "c" 0].
Proof.
  apply (weighted_round_robin_proportional [mk_ep "a" 5; mk_ep "b" 1; mk_ep "c" 0]).
  - apply (bool_decide_unpack _). vm_compute. exact I.
  - done.
  - vm_compute. discriminate.
Defined.

(** * Session hashing *)

(** Two scans that agree, or of which the first is ahead with [x] as its choice. *)
Definition ahead (x : Endpoint) (a b : Z * option Endpoint) : Prop :=
  a = b \/ fst b <= fst a /\ snd a = Some x.

Lemma hash_step_ahead sid x ep a b i : ahead x a b -> ahead x (hash_step sid ep a i) (hash_step sid ep b i).
Proof.
  destruct a as [a oa], b as [b ob]. intros [E|[L E]]; [left; by rewrite E|]. cbn [fst snd] in *. unfold hash_step.
  set (c := rendezvousScore _ _ _).
  destruct (a <? c) eqn:A, (b <? c) eqn:B; zbool; [by left|lia|right; cbn; split; [lia|done]..].
Qed.

Lemma fold_ahead {B} (x : Endpoint) (f : Z * option Endpoint -> B -> Z * option Endpoint) l :
  (forall a b y, ahead x a b -> ahead x (f a y) (f b y)) ->
  forall a b, ahead x a b -> ahead x (fold_left f l a) (fold_left f l b).
Proof. intros Hf. induction l as [|y l IH]; cbn; auto. Qed.

(** Scanning the replicas of [x] keeps the state or puts [x] ahead. *)
Lemma hash_endpoint_self sid x st : ahead x (hash_endpoint sid st x) st.
Proof.
  unfold hash_endpoint. generalize (seq 0 (hash_weight x)) as l. intros l. revert st.
  induction l as [|i l IH]; intros st; cbn [fold_left]; [by left|].
  destruct (IH (hash_step sid x st i)) as [->|[L E]].
  - destruct st as [b o]. unfold hash_step. destruct (b <? _) eqn:B; zbool; [right; cbn; split; [lia|done]|by left].
  - right. split; [|done]. etransitivity; [|exact L]. destruct st as [b o]. unfold hash_step.
    destruct (b <? _) eqn:B; zbool; cbn; lia.
Qed.

(** Rendezvous hashing disturbs as few sessions as possible: adding an endpoint to a
    pool, or removing it, either concerns a session bound to that very endpoint or
    leaves the session where it was. *)
Theorem session_hash_minimal_disruption (sessionID : string) (l1 l2 : list Endpoint) (x : Endpoint) :
  hash_select sessionID (l1 ++ x :: l2) = Some x \/
  hash_select sessionID (l1 ++ x :: l2) = hash_select sessionID (l1 ++ l2).
Proof.
  unfold hash_select. rewrite !fold_left_app. cbn [fold_left].
  set (st := fold_left (hash_endpoint sessionID) l1 (0, None)). clearbody st.
  destruct (fold_ahead x (hash_endpoint sessionID) l2) with (a := hash_endpoint sessionID st x) (b := st)
    as [E|[_ E]]; [|apply hash_endpoint_self|right; by rewrite E|by left].
  intros a b y. unfold hash_endpoint. apply fold_ahead. intros. by apply hash_step_ahead.
Qed.

(** * Weighted random *)

Definition zrange (a : Z) (n : nat) : list Z := map (fun i => a + Z.of_nat i) (seq 0 n).

Lemma zrange_app a n m : zrange a (n + m) = zrange a n ++ zrange (a + Z.of_nat n) m.
Proof.
  unfold zrange. rewrite seq_app, map_app. f_equal. cbn [Nat.add].
  rewrite <- (Nat.add_0_r n) at 1. rewrite <- fmap_add_seq. 
  change (map ?f (?g <$> ?l)) with (map f (map g l)). rewrite map_map. apply map_ext. intros. lia.
Qed.

Lemma countb_ext {A} (p q : A -> bool) l : (forall x, x ∈ l -> p x = q x) -> countb p l = countb q l.
Proof.
  unfold countb. induction l as [|x l IH]; intros H; cbn; [done|]. rewrite (H x) by left.
  rewrite IH; [done|]. intros. apply H. by right.
Qed.

Lemma countb_const {A} (b : bool) (l : list A) : countb (fun _ => b) l = if b then Z.of_nat (length l) else 0.
Proof. unfold countb. induction l as [|x l IH]; cbn -[Z.of_nat]; [by destruct b|]. rewrite IH. destruct b; lia. Qed.

Lemma zrange_elem a n r : r ∈ zrange a n -> a <= r < a + Z.of_nat n.
Proof. unfold zrange. intros [i [-> Hi]]%list_elem_of_fmap. apply elem_of_seq in Hi. lia. Qed.

(** Draws in [[cum, cum + total)] that land on the endpoint [id]. *)
Definition hits (id : string) (l : list Endpoint) (cum : Z) (r : Z) : bool :=
  match pick_cumulative r cum l with Some e => seqb (ep_ID e) id | None => false end.

Lemma hits_count id l : forall cum,
  NoDup (map ep_ID l) -> 0 <= cum -> cum + sum_over eff_weight l <= max_int64 ->
  countb (hits id l cum) (zrange cum (Z.to_nat (sum_over eff_weight l))) =
  match List.find (fun e => seqb (ep_ID e) id) l with Some e => eff_weight e | None => 0 end.
Proof.
  induction l as [|x l IH]; intros cum HN Hc Hb; [done|]. cbn [map] in HN. apply NoDup_cons in HN as [Hx HN].
  assert (sum_over eff_weight (x :: l) = eff_weight x + sum_over eff_weight l) as Es by done.
  pose proof (eff_weight_pos x) as Wx.
  assert (0 <= sum_over eff_weight l) as Sl
    by (apply sum_over_nonneg; intros e _; pose proof (eff_weight_pos e); lia).
  rewrite Es in *. rewrite Z2Nat.inj_add, zrange_app, countb_app, Z2Nat.id by lia. cbn [List.find].
  assert (forall r, hits id (x :: l) cum r = if r <? cum + eff_weight x then seqb (ep_ID x) id
                                              else hits id l (cum + eff_weight x) r) as Hh.
  { intros r. unfold hits. cbn [pick_cumulative].
    rewrite wrap64_small by (unfold in_int64, min_int64; lia). by destruct (r <? _). }
  rewrite (countb_ext _ (fun _ => seqb (ep_ID x) id)).
  2: { intros r Hr%zrange_elem. rewrite Hh. destruct (r <? _) eqn:E; [done|zbool; lia]. }
  rewrite (countb_ext (hits id (x :: l) cum) (hits id l (cum + eff_weight x))).
  2: { intros r Hr%zrange_elem. rewrite Hh. destruct (r <? _) eqn:E; [zbool; lia|done]. }
  rewrite countb_const, IH by (done || lia). unfold zrange. rewrite length_map, length_seq, Z2Nat.id by lia.
  destruct (seqb (ep_ID x) id) eqn:E; [|lia].
  assert (List.find (fun e => seqb (ep_ID e) id) l = None) as ->; [|lia].
  apply seqb_eq in E as <-. destruct (List.find _ l) as [y|] eqn:F; [|done]. exfalso.
  apply find_some in F as [F1 F2]. apply seqb_eq in F2. apply Hx. rewrite <- F2.
  apply list_elem_of_fmap. exists y. split; [done|]. by apply list_elem_of_In.
Qed.

(** Weighted random is proportional: of the numbers below the total weight that can be
    drawn, exactly as many select an endpoint as its weight. *)
Theorem weighted_random_proportional (eps : list Endpoint) (HN : NoDup (map ep_ID eps)) (Hne : eps <> [])
  (HT : sum_over eff_weight eps <= 2147483648) :
  let draws := zrange 0 (Z.to_nat (sum_over eff_weight eps)) in
  Forall (fun e => countb (fun r => match WeightedRandom_Select (fun _ => Some r) eps with
                                    | Some x => seqb (ep_ID x) (ep_ID e) | None => false end) draws = eff_weight e) eps.
Proof.
  intros draws. apply Forall_forall. intros e He.
  assert (forall r, r ∈ draws -> pick_cumulative r 0 eps <> None) as Hp.
  { assert (forall l cum r, 0 <= cum -> cum + sum_over eff_weight l <= max_int64 -> r < cum + sum_over eff_weight l ->
      cum <= r -> pick_cumulative r cum l <> None) as F.
    { induction l as [|x l IH]; intros cum r H1 H2 H3 H4; [cbn in *; lia|]. cbn [pick_cumulative].
      assert (sum_over eff_weight (x :: l) = eff_weight x + sum_over eff_weight l) as Es by done.
      pose proof (eff_weight_pos x).
      assert (0 <= sum_over eff_weight l) by (apply sum_over_nonneg; intros y _; pose proof (eff_weight_pos y); lia).
      rewrite wrap64_small by (unfold in_int64, min_int64; lia). destruct (r <? _) eqn:E; [done|]. zbool.
      apply IH; lia. }
    intros r Hr%zrange_elem. apply F; unfold max_int64; lia. }
  rewrite (countb_ext _ (hits (ep_ID e) eps 0)).
  - rewrite hits_count by (done || (unfold max_int64; lia)).
    destruct (List.find _ eps) as [y|] eqn:F.
    + apply find_some in F as [F1 F2]. apply seqb_eq in F2. f_equal.
      apply (ID_inj eps HN); [by apply list_elem_of_In|done|done].
    + pose proof (find_none _ _ F e (proj1 (list_elem_of_In _ _) He)) as C. cbn in C. by rewrite seqb_refl in C.
  - intros r Hr. unfold hits, WeightedRandom_Select. specialize (Hp r Hr). cbn [randomInt default].
    destruct eps as [|x l]; [done|]. unfold randomInt. cbn [from_option id].
    by destruct (pick_cumulative r 0 (x :: l)).
Qed.

Lemma weighted_random_proportional_witness :
  Forall (fun e => countb (fun r => match WeightedRandom_Select (fun _ => Some r) [mk_ep "a" 3; mk_ep "b" 0] with
                                    | Some x => seqb (ep_ID x) (ep_ID e) | None => false end) (zrange 0 4) = eff_weight e)
    [mk_ep "a" 3; mk_ep "b" 0].
Proof.
  apply (weighted_random_proportional [mk_ep "a" 3; mk_ep "b" 0]).
  - apply (bool_decide_unpack _). vm_compute. exact I.
  - done.
  - vm_compute. discriminate.
Defined.

(** * Least connections and cost *)

(** The scan with a sentinel finds a minimum of a non-negative measure. *)
Lemma min_scan (f : Endpoint -> Z) l :
  l <> [] -> (forall e, e ∈ l -> 0 <= f e) ->
  exists e, fold_left (min_step f) l (-1, None) = (f e, Some e) /\ e ∈ l /\ forall x, x ∈ l -> f e <= f x.
Proof.
  induction l as [|x l IH] using rev_ind; intros Hl Hf; [done|]. rewrite fold_left_app. cbn [fold_left].
  destruct (decide (l = [])) as [->|N].
  - exists x. cbn. split_and!; [done|set_solver|]. intros y Hy. apply list_elem_of_singleton in Hy as ->. lia.
  - destruct IH as (e & E & He & Hm); [done|intros; apply Hf; set_solver|]. rewrite E. cbn [min_step].
    pose proof (Hf e ltac:(set_solver)). destruct ((f e <? 0) || (f x <? f e)) eqn:B.
    + apply orb_true_iff in B as [B|B]; zbool; [lia|]. exists x. split_and!; [done|set_solver|].
      intros y Hy. apply elem_of_app in Hy as [Hy|Hy]; [specialize (Hm y Hy); lia|].
      apply list_elem_of_singleton in Hy as ->. lia.
    + apply orb_false_iff in B as [_ B]. zbool. exists e. split_and!; [done|set_solver|].
      intros y Hy. apply elem_of_app in Hy as [Hy|Hy]; [auto|]. apply list_elem_of_singleton in Hy as ->. lia.
Qed.

(** Every counter is a number of calls in flight. *)
Definition conns_ok (cs : gmap string Z) : Prop := map_Forall (fun _ c => 0 <= c) cs.

Lemma conns_nonneg cs id : conns_ok cs -> 0 <= ActiveConnections cs id.
Proof. intros H. unfold ActiveConnections. destruct (cs !! id) eqn:E; cbn; [by apply (H id)|lia]. Qed.

(** Least-connections picks a candidate with the fewest calls in flight and counts the
    call on it alone; [Done] undoes exactly that, and counters never go negative. *)
Theorem least_connections_minimal (cs : gmap string Z) (eps : list Endpoint)
  (Hok : conns_ok cs) (Hne : eps <> []) (Hb : forall id, ActiveConnections cs id < max_int64) :
  exists cs' e, LeastConnections_Select cs eps = (cs', Some e) /\ e ∈ eps /\ conns_ok cs' /\
    (forall x, x ∈ eps -> ActiveConnections cs (ep_ID e) <= ActiveConnections cs (ep_ID x)) /\
    (forall id, ActiveConnections cs' id = ActiveConnections cs id + if seqb (ep_ID e) id then 1 else 0) /\
    (forall id, ActiveConnections (Done cs' (ep_ID e)) id = ActiveConnections cs id).
Proof.
  unfold LeastConnections_Select.
  set (cs0 := fold_left _ eps cs).
  assert (forall x, ActiveConnections cs0 x = ActiveConnections cs x) as A0.
  { intros x. exact (init_cw eps cs (mk_ep x 0)). }
  assert (conns_ok cs0) as Ok0.
  { subst cs0. clear -Hok. revert cs Hok. induction eps as [|e l IH]; intros cs Hok; cbn [fold_left]; [done|].
    apply IH. destruct (cs !! ep_ID e); [done|]. by apply map_Forall_insert_2. }
  destruct (min_scan (fun ep => default 0 (cs0 !! ep_ID ep)) eps Hne) as (e & E & He & Hm).
  { intros x _. by apply conns_nonneg. }
  rewrite E. pose proof (conns_nonneg cs (ep_ID e) Hok) as Pe. pose proof (Hb (ep_ID e)) as Be.
  change (default 0 (cs0 !! ep_ID e)) with (ActiveConnections cs0 (ep_ID e)).
  rewrite A0, wrap64_small by (unfold in_int64, min_int64; lia).
  set (c := ActiveConnections cs (ep_ID e)) in *.
  exists (<[ep_ID e := c + 1]> cs0), e. split_and!; [done|done|..].
  - apply map_Forall_insert_2; [lia|done].
  - intros x Hx. specialize (Hm x Hx). 
    change (ActiveConnections cs0 (ep_ID e) <= ActiveConnections cs0 (ep_ID x)) in Hm. by rewrite !A0 in Hm.
  - intros id. rewrite <- (A0 id). unfold ActiveConnections. destruct (seqb (ep_ID e) id) eqn:Q; sbool.
    + subst id. rewrite lookup_insert_eq. cbn. fold (ActiveConnections cs0 (ep_ID e)). by rewrite A0.
    + rewrite lookup_insert_ne by done. lia.
  - intros id. unfold Done. rewrite lookup_insert_eq. destruct (0 <? c + 1) eqn:P; [|zbool; lia].
    rewrite insert_insert_eq, Z.add_simpl_r, <- (A0 id). unfold ActiveConnections.
    destruct (decide (ep_ID e = id)) as [<-|N].
    + rewrite lookup_insert_eq. cbn. fold (ActiveConnections cs0 (ep_ID e)). by rewrite A0.
    + by rewrite lookup_insert_ne.
Qed.

Lemma least_connections_minimal_witness :
  exists cs' e, LeastConnections_Select {["a" := 2; "b" := 1]} [mk_ep "a" 1; mk_ep "b" 1] = (cs', Some e) /\
    ep_ID e = "b".
Proof.
  destruct (least_connections_minimal {["a" := 2; "b" := 1]} [mk_ep "a" 1; mk_ep "b" 1])
    as (cs' & e & E & He & _ & M & _).
  - intros k c. rewrite lookup_insert_Some, lookup_singleton_Some. intros [[<- <-]|[_ [<- <-]]]; lia.
  - done.
  - intros id. destruct (decide (id = "a")) as [->|Na]; [vm_compute; reflexivity|].
    destruct (decide (id = "b")) as [->|Nb]; [vm_compute; reflexivity|]. unfold ActiveConnections.
    rewrite lookup_insert_ne, lookup_singleton_ne by done. reflexivity.
  - exists cs', e. split; [exact E|]. vm_compute in E. by simplify_eq.
Defined.

(** Cost-based balancing picks a candidate no other one undercuts. If no candidate
    has a cost below the largest float (all infinite or not a number), it dereferences
    a nil endpoint. *)
Theorem cost_select_cheapest (Sscanf_f : string -> float64) (eps : list Endpoint) :
  match Cost_Select Sscanf_f eps with
  | Ret None => eps = []
  | Ret (Some e) => e ∈ eps /\ Forall (fun x => flt (CostPerToken Sscanf_f x) (CostPerToken Sscanf_f e) = false) eps
  | Panic => eps <> [] /\ Forall (fun x => flt (CostPerToken Sscanf_f x) MaxFloat64 = false) eps
  end.
Proof.
  set (cost := CostPerToken Sscanf_f).
  assert (forall l, let '(b, o) := fold_left (cost_step Sscanf_f) l (MaxFloat64, None) in
    is_nan b = false /\ Forall (fun x => flt (cost x) b = false) l /\
    match o with Some e => e ∈ l /\ b = cost e | None => b = MaxFloat64 end) as F.
  { induction l as [|x l IH] using rev_ind; [done|]. rewrite fold_left_app. cbn [fold_left].
    destruct (fold_left (cost_step Sscanf_f) l (MaxFloat64, None)) as [b o]. destruct IH as (Nb & Fl & Ho).
    cbn [cost_step]. fold cost. destruct (flt (cost x) b) eqn:E.
    - split_and!; [by apply flt_nan in E as [? _]| |set_solver|done].
      apply Forall_app. split; [|constructor; [apply flt_irrefl|done]].
      eapply Forall_impl; [exact Fl|]. cbn. intros y Hy.
      apply (flt_negtrans _ b); [done|done|]. destruct (flt b (cost x)) eqn:E2; [|done].
      pose proof (flt_trans _ _ _ E E2) as C. by rewrite flt_irrefl in C.
    - split_and!; [done|apply Forall_app; split; [done|by constructor]|].
      destruct o as [e|]; [|done]. destruct Ho as [? ->]. split; [set_solver|done]. }
  unfold Cost_Select. destruct eps as [|x l] eqn:Q; [done|]. rewrite <- Q. specialize (F eps).
  destruct (fold_left (cost_step Sscanf_f) eps (MaxFloat64, None)) as [b [e|]]; cbn [snd].
  - destruct F as (_ & Fl & He & ->). done.
  - destruct F as (_ & Fl & ->). split; [by rewrite Q|done].
Qed.

(** An affinity miss is final unless the policy allows degradation: with an affinity
    value that no candidate carries, the balancer picks nothing, marks the request
    with the fatal error, and leaves the round-robin cursor alone; a candidate that
    carries the value (as code or ID) is picked whatever the cursor. *)
Theorem affinity_is_sticky (lb : gmap string Z) (g : GatewayContext) (eps : list Endpoint)
  (sourceType sourceKey : string) (allow : bool) (Hne : eps <> [])
  (Hcfg : affinity_config (Some g) = (sourceType, sourceKey, allow))
  (Htarget : affinity_target (Some g) sourceType sourceKey <> "") :
  let target := affinity_target (Some g) sourceType sourceKey in
  match Affinity_Select lb (Some g) eps with
  | (lb', Some g', Some e) =>
      e ∈ eps /\ g' = g /\ ((ep_Code e = target \/ ep_ID e = target) /\ lb' = lb \/
                            allow = true /\ Forall (fun x => ep_Code x <> target /\ ep_ID x <> target) eps)
  | (lb', Some g', None) =>
      allow = false -> lb' = lb /\ FatalErr g' = Some errFatalNoAvailableEndpoint /\
                       Forall (fun x => ep_Code x <> target /\ ep_ID x <> target) eps
  | (_, None, _) => False
  end.
Proof.
  intros target. unfold Affinity_Select. destruct eps as [|x0 l0] eqn:Q; [done|]. rewrite <- Q. rewrite Hcfg.
  fold target. destruct (is_empty target) eqn:T; [by apply seqb_eq in T|].
  destruct (List.find _ eps) as [e|] eqn:F.
  - apply find_some in F as [F1 F2]. split_and!; [by apply list_elem_of_In|done|].
    left. split; [|done]. apply orb_true_iff in F2 as [F2|F2]; apply seqb_eq in F2; auto.
  - assert (Forall (fun x => ep_Code x <> target /\ ep_ID x <> target) eps) as Fn.
    { apply Forall_forall. intros x Hx. pose proof (find_none _ _ F x (proj1 (list_elem_of_In _ _) Hx)) as C.
      cbn in C. apply orb_false_iff in C as [C1 C2]. by split; apply seqb_neq. }
    destruct allow; [|by intros _].
    unfold RoundRobin_Select. rewrite Q. rewrite <- Q. destruct (eps !! _) as [e|] eqn:L; [|done].
    split_and!; [by eapply list_elem_of_lookup_2|done|]. right. done.
Qed.

Lemma affinity_is_sticky_witness :
  let r := mkRequest {["X-Endpoint-Code" := ["zzz"]]} None [] in
  let g := emptyContext <| Request := Some r |> in
  match Affinity_Select ∅ (Some g) [mk_ep "a" 1] with
  | (_, Some g', None) => FatalErr g' = Some errFatalNoAvailableEndpoint
  | _ => False
  end.
Proof.
  intros r g.
  pose proof (affinity_is_sticky ∅ g [mk_ep "a" 1] "header" "X-Endpoint-Code" false ltac:(done) eq_refl) as A.
  destruct (Affinity_Select ∅ (Some g) [mk_ep "a" 1]) as [[lb' [g'|]] [e|]] eqn:E; vm_compute in E; try discriminate.
  destruct A as (_ & A & _); [vm_compute; discriminate|reflexivity|exact A].
Defined.
