(* ===== verification/Routers.v ===== *)
(** pkg/routers: the hard filters on the endpoint candidates - request capability,
    circuit breakers with the outlier cap, priority, tag rules and the tenant
    whitelist.  The breaker router drives the breaker manager; random numbers, the
    clock, the cache and Redis answers are arguments. *)

From S2P Require Import Prelude GoFloat GoStrings Matcher Policy Types Context Breaker BreakerManager.

(** * capability.go *)

Definition Capability_Route (g : GatewayContext) (eps : list Endpoint) : list Endpoint :=
  List.filter (fun ep => SupportsRequestType (Some ep) (RequestType g)) eps.

(** * priority.go *)

Definition Priority_Route (eps : list Endpoint) : list Endpoint :=
  match eps with
  | [] => eps
  | first :: rest =>
      let minPriority := fold_left (fun m ep => if ep_Priority ep <? m then ep_Priority ep else m) rest
                           (ep_Priority first) in
      List.filter (fun ep => ep_Priority ep =? minPriority) eps
  end.

(** * circuit_breaker.go *)

Definition bind_models (m : CircuitBreakerManager) (eps : list Endpoint) : CircuitBreakerManager :=
  fold_left (fun m ep => fst (GetEntryWithModel (fst (GetEntryWithModel m (service_key ep) (ep_Model ep)))
                                (ep_ID ep) (ep_Model ep))) eps m.

Definition reset_all (m : CircuitBreakerManager) (eps : list Endpoint) : CircuitBreakerManager :=
  fold_left (fun m ep => Reset (Reset m (service_key ep)) (ep_ID ep)) eps m.

(** Version check of one policy on the keys of its level. *)
Definition check_policy (eps : list Endpoint) (m : CircuitBreakerManager) (p : option CircuitBreakPolicy) :
  CircuitBreakerManager :=
  match p with
  | None => m
  | Some p =>
      let m := if circuitPolicyApplies (cb_Level p) true then
                 fold_left (fun m ep => fst (CheckAndResetOnVersionChange m (service_key ep) (cb_Version p))) eps m
               else m in
      if circuitPolicyApplies (cb_Level p) false then
        fold_left (fun m ep => fst (CheckAndResetOnVersionChange m (ep_ID ep) (cb_Version p))) eps m
      else m
  end.

(** Split by [AllowRequest] on a key: the allowed and the refused endpoints. *)
Fixpoint allow_split (key : Endpoint -> string) (act : bool) (now : Time) (eps : list Endpoint)
  (m : CircuitBreakerManager) : CircuitBreakerManager * (list Endpoint * list Endpoint) :=
  match eps with
  | [] => (m, ([], []))
  | ep :: rest =>
      let '(m, ok) := AllowRequest m (key ep) act now in
      let '(m, (yes, no)) := allow_split key act now rest m in
      (m, if ok then (ep :: yes, no) else (yes, ep :: no))
  end.

(** Keys of the groups in order of first appearance. *)
Definition group_keys (eps : list Endpoint) : list string :=
  fold_left (fun ks ep => if existsb (seqb (service_key ep)) ks then ks else ks ++ [service_key ep]) eps [].

(** Whether an instance policy exists, and the least positive [OutlierMaxPercent]. *)
Definition outlier_step (acc : bool * Z) (p : option CircuitBreakPolicy) : bool * Z :=
  let '(has, pct) := acc in
  match p with
  | None => acc
  | Some p =>
      if circuitPolicyApplies (cb_Level p) false then
        (true, if (0 <? cb_OutlierMaxPercent p) && ((pct =? 0) || (cb_OutlierMaxPercent p <? pct))
               then cb_OutlierMaxPercent p else pct)
      else acc
  end.
Definition outlier_cap (ps : list (option CircuitBreakPolicy)) : bool * Z := fold_left outlier_step ps (false, 0).

(** How many endpoints of a group of [n] may be ejected. *)
Definition max_ejected (n pct : Z) : Z :=
  let a := Z.quot (wrap64 (n * pct)) 100 in if (a =? 0) && (1 <? n) then 1 else a.

(** The comparison of the ejection order: opening time, then ID. *)
Definition opened_before (m : CircuitBreakerManager) (a b : Endpoint) : bool :=
  let ta := GetOpenSince m (ep_ID a) in
  let tb := GetOpenSince m (ep_ID b) in
  if ta =? tb then String.ltb (ep_ID a) (ep_ID b) else time_Before ta tb.

(** The endpoints of one group that stay ejected. *)
Definition group_ejected (m : CircuitBreakerManager) (hasInstancePolicy : bool) (pct : Z)
  (groupSize : Z) (blocked : list Endpoint) : list Endpoint :=
  if hasInstancePolicy && (0 <? pct) then
    let maxAllowed := max_ejected groupSize pct in
    if maxAllowed <? Z.of_nat (length blocked)
    then take (Z.to_nat maxAllowed) (sort_by (opened_before m) blocked) else blocked
  else blocked.

Fixpoint eject_groups (act : bool) (now : Time) (has : bool) (pct : Z) (passed : list Endpoint)
  (keys : list string) (m : CircuitBreakerManager) : CircuitBreakerManager * list Endpoint :=
  match keys with
  | [] => (m, [])
  | k :: rest =>
      let group := List.filter (fun ep => seqb (service_key ep) k) passed in
      let '(m, (_, blocked)) := allow_split ep_ID act now group m in
      let ejected := group_ejected m has pct (Z.of_nat (length group)) blocked in
      let '(m, more) := eject_groups act now has pct passed rest m in
      (m, ejected ++ more)
  end.

Definition CircuitBreaker_Route (m : CircuitBreakerManager) (act : bool) (now : Time) (g : GatewayContext)
  (eps : list Endpoint) : CircuitBreakerManager * list Endpoint :=
  match eps with
  | [] => (m, eps)
  | _ =>
      let m := bind_models m eps in
      match match gPolicy g with Some p => p_CircuitBreakPolicies p | None => [] end with
      | [] => (reset_all m eps, eps)
      | ps =>
          let m := fold_left (check_policy eps) ps m in
          let '(m, (passed, _)) := allow_split service_key act now eps m in
          match passed with
          | [] => (m, [])
          | _ =>
              let '(has, pct) := outlier_cap ps in
              let '(m, ejected) := eject_groups act now has pct passed (group_keys passed) m in
              (m, List.filter (fun ep => negb (existsb (fun b => seqb (ep_ID b) (ep_ID ep)) ejected)) passed)
          end
      end
  end.

(** * tag.go *)

Definition matchConditions (g : GatewayContext) (conds : list TagCondition) (relation : string) : bool :=
  match List.filter (fun c => negb (is_empty (tc_Type c))) conds with
  | [] => true
  | valid => match_loop (cond_matches g) (negb (seqb relation "OR")) valid
  end.

Fixpoint pick_destination (val curr : Z) (ds : list Destination) : option Destination :=
  match ds with
  | [] => None
  | d :: rest => let curr := wrap64 (curr + d_Weight d) in if val <? curr then Some d else pick_destination val curr rest
  end.

(** [intn n]: [rand.Intn(n)]. *)
Definition selectDestination (intn : Z -> Z) (ds : list Destination) : option Destination :=
  match ds with
  | [] => None
  | first :: _ =>
      let total := fold_left (fun t d => wrap64 (t + d_Weight d)) ds 0 in
      if total <=? 0 then Some first
      else match pick_destination (intn total) 0 ds with Some d => Some d | None => Some first end
  end.

Definition metadata_matches (ep : Endpoint) (cond : TagCondition) : bool :=
  let val := default "" (ep_Metadata ep !! tc_Key cond) in
  if is_empty val then MatchValues cond [] else MatchValues cond [val].

Definition matchEndpointMetadata (ep : Endpoint) (conds : list TagCondition) (relation : string) : bool :=
  match conds with
  | [] => true
  | _ => match_loop (metadata_matches ep) (negb (seqb relation "OR")) conds
  end.

Definition filterEndpoints (eps : list Endpoint) (conds : list TagCondition) (relation : string) : list Endpoint :=
  List.filter (fun ep => matchEndpointMetadata ep conds relation) eps.

(** The rules of one policy: the first non-empty subset wins. *)
Fixpoint route_rules (intn : nat -> Z -> Z) (i : nat) (g : GatewayContext) (eps : list Endpoint) (rules : list TagRule) :
  option (list Endpoint) :=
  match rules with
  | [] => None
  | rule :: rest =>
      let next := route_rules intn (S i) g eps rest in
      if matchConditions g (tr_Conditions rule) (tr_RelationType rule) then
        match selectDestination (intn i) (tr_Destinations rule) with
        | None => next
        | Some d =>
            match filterEndpoints eps (d_Conditions d) (d_RelationType d) with
            | [] => next
            | filtered => Some filtered
            end
        end
      else next
  end.

(** [intn p r] are the draws of rule [r] of the [p]-th policy in order. *)
Fixpoint route_policies (intn : nat -> nat -> Z -> Z) (i : nat) (g : GatewayContext) (eps : list Endpoint)
  (rps : list RoutePolicy) : list Endpoint :=
  match rps with
  | [] => eps
  | rp :: rest =>
      match route_rules (intn i) 0 g eps (sort_by (fun a b => tr_Order a <? tr_Order b) (rt_TagRules rp)) with
      | Some filtered => filtered
      | None => route_policies intn (S i) g eps rest
      end
  end.

(** A nil route policy of the list is dereferenced. *)
Definition Tag_Route (intn : nat -> nat -> Z -> Z) (g : GatewayContext) (eps : list Endpoint) : go (list Endpoint) :=
  match match gPolicy g with Some p => p_RoutePolicies p | None => [] end with
  | [] => Ret eps
  | rps =>
      if existsb (fun rp => match rp with None => true | Some _ => false end) rps then Panic
      else Ret (route_policies intn 0 g eps (sort_by (fun a b => rt_Order a <? rt_Order b) (omap id rps)))
  end.

(** * tenant_endpoint.go *)

Definition RedisKeyTenantEndpoints (tenant model : string) : string :=
  "aigw:tenant:" +:+ tenant +:+ ":model:" +:+ model +:+ ":endpoints".

(** What the router writes to its cache. *)
Inductive cache_write := AddValid (key : string) (ids : list string) | AddInvalid (key : string) (err : string).

Definition tenant_filter (eps : list Endpoint) (allowed : list string) : list Endpoint :=
  match allowed with
  | [] => eps
  | _ => List.filter (fun ep => existsb (seqb (ep_ID ep)) allowed) eps
  end.

(** [cache]: the lookup in the two-level cache ([inr]: a cached error); [smembers]: the
    Redis answer, where a client is configured ([inr]: an error). *)
Definition Tenant_Route (smembers : option (string -> list string + string))
  (cache : string -> option (list string + string)) (g : GatewayContext) (eps : list Endpoint) :
  option cache_write * list Endpoint :=
  match smembers with
  | None => (None, eps)
  | Some query =>
      if is_empty (Tenant g) then (None, eps)
      else
        let key := RedisKeyTenantEndpoints (Tenant g) (Model g) in
        match cache key with
        | Some (inr err) => (None, if is_empty err then tenant_filter eps [] else eps)
        | Some (inl allowed) => (None, tenant_filter eps allowed)
        | None =>
            match query key with
            | inr err => (Some (AddInvalid key err), eps)
            | inl allowed => (Some (AddValid key allowed), tenant_filter eps allowed)
            end
        end
  end.

(** * Theorems *)

Lemma elem_of_filter_bool {A} (f : A -> bool) x l : x ∈ List.filter f l <-> f x = true /\ x ∈ l.
Proof. rewrite !list_elem_of_In, filter_In. tauto. Qed.

Lemma priority_min rest m0 :
  let m := fold_left (fun m ep => if ep_Priority ep <? m then ep_Priority ep else m) rest m0 in
  m <= m0 /\ Forall (fun e => m <= ep_Priority e) rest /\ (m = m0 \/ exists e, e ∈ rest /\ ep_Priority e = m).
Proof.
  revert m0. induction rest as [|e rest IH]; intros m0; cbn [fold_left]; [split_and!; [lia|done|by left]|].
  destruct (IH (if ep_Priority e <? m0 then ep_Priority e else m0)) as (L & F & D).
  destruct (ep_Priority e <? m0) eqn:E; zbool; (split_and!; [lia|constructor; [lia|done]|]).
  - right. destruct D as [D|(x & Hx & D)]; [exists e|exists x]; (split; [|done]); [left|by right].
  - destruct D as [D|(x & Hx & D)]; [by left|right]. exists x. split; [by right|done].
Qed.

(** The priority router keeps exactly the candidates of the best (lowest) priority,
    in order, and never empties a non-empty pool. *)
Theorem priority_route_best (eps : list Endpoint) :
  let kept := Priority_Route eps in
  (eps <> [] -> kept <> []) /\
  Forall (fun e => Forall (fun x => ep_Priority e <= ep_Priority x) eps) kept /\
  Forall (fun x => Forall (fun y => ep_Priority x <= ep_Priority y) eps -> x ∈ kept) eps.
Proof.
  destruct eps as [|e0 rest]; [split_and!; [done|constructor..]|]. unfold Priority_Route.
  destruct (priority_min rest (ep_Priority e0)) as (L & F & D).
  set (m := fold_left _ rest _) in *. clearbody m. cbn zeta.
  assert (Forall (fun x => m <= ep_Priority x) (e0 :: rest)) as Fm by (constructor; [lia|done]).
  assert (exists e, e ∈ e0 :: rest /\ ep_Priority e = m) as (w & Hw & Ew).
  { destruct D as [->|(x & Hx & D)]; [exists e0; split; [left|done]|exists x; split; [by right|done]]. }
  split_and!.
  - intros _ E. apply (not_elem_of_nil w). rewrite <- E. apply elem_of_filter_bool. by rewrite Z.eqb_eq.
  - apply Forall_forall. intros e [He _]%elem_of_filter_bool. zbool. by rewrite He.
  - apply Forall_forall. intros x Hx Hmin. apply elem_of_filter_bool. split; [|done]. rewrite Z.eqb_eq.
    rewrite Forall_forall in Hmin, Fm. specialize (Hmin w Hw). specialize (Fm x Hx). lia.
Qed.

(** ** Tag rules *)

Lemma route_rules_subset intn g eps rules : forall i f, route_rules intn i g eps rules = Some f -> f <> [] /\ sublist f eps.
Proof.
  induction rules as [|rule rules IH]; intros i f; cbn [route_rules]; [done|].
  destruct (matchConditions _ _ _); [|by apply IH].
  destruct (selectDestination _ _) as [d|]; [|by apply IH].
  destruct (filterEndpoints _ _ _) as [|y ys] eqn:E; [by apply IH|]. intros [= <-]. split; [done|].
  rewrite <- E. clear. unfold filterEndpoints. induction eps as [|x l IH]; cbn; [constructor|].
  destruct (matchEndpointMetadata _ _ _); by constructor.
Qed.

(** Tag routing escapes rather than starve: whatever the route policies and the random
    draws, the result is a sub-list of the candidates in their order, and it is not
    empty unless there was no candidate. *)
Theorem tag_route_never_starves (intn : nat -> nat -> Z -> Z) (g : GatewayContext) (eps kept : list Endpoint)
  (Hroute : Tag_Route intn g eps = Ret kept) : sublist kept eps /\ (eps <> [] -> kept <> []).
Proof.
  revert Hroute. unfold Tag_Route.
  destruct (match gPolicy g with Some p => p_RoutePolicies p | None => [] end) as [|rp rps].
  { intros [= ->]. split; [reflexivity|done]. }
  destruct (existsb _ _); [done|]. intros [= <-]. generalize 0%nat.
  induction (sort_by _ _) as [|p ps IH]; intros i; cbn [route_policies]; [split; [reflexivity|done]|].
  destruct (route_rules _ _ _ _ _) as [f|] eqn:E; [|apply IH].
  apply route_rules_subset in E as [? ?]. done.
Qed.

Definition demo_ep (id provider : string) (priority : Z) (meta : gmap string string) : Endpoint :=
  mkEndpoint id id "" provider "" "m" "" meta 1 priority ["chat_completion"] true true ∅ "" "" "openai" 0 0
    None None None None.

Lemma tag_route_never_starves_witness :
  let rule := mkTagRule 1 "AND" [] [mkDestination 1 "AND" [mkTagCondition "metadata" "EQUAL" "zone" ["cn"]]] in
  let g := emptyContext <| gPolicy := Some (emptyPolicy <| p_RoutePolicies := [Some (mkRoutePolicy "r" "r" 1 1 [rule])] |>) |> in
  let eps := [demo_ep "a" "p" 0 ∅; demo_ep "b" "p" 0 {["zone" := "cn"]}] in
  match Tag_Route (fun _ _ _ => 0) g eps with
  | Ret kept => kept <> []
  | Panic => False
  end.
Proof.
  intros rule g eps. pose proof (tag_route_never_starves (fun _ _ _ => 0) g eps) as T.
  destruct (Tag_Route (fun _ _ _ => 0) g eps) as [kept|] eqn:E; [|vm_compute in E; discriminate].
  exact (proj2 (T kept eq_refl) ltac:(discriminate)).
Defined.

(** ** The outlier cap *)

Lemma allow_split_subset key act now eps : forall m,
  let '(_, (yes, no)) := allow_split key act now eps m in sublist yes eps /\ sublist no eps.
Proof.
  induction eps as [|e eps IH]; intros m; cbn [allow_split]; [split; constructor|].
  destruct (AllowRequest m (key e) act now) as [m1 ok]. specialize (IH m1).
  destruct (allow_split key act now eps m1) as [m2 [yes no]]. destruct IH. destruct ok; split; by constructor.
Qed.

(** The ejections of one group: members of the group, within the cap. *)
Definition within_cap (has : bool) (pct : Z) (passed : list Endpoint) (k : string) (ej : list Endpoint) : Prop :=
  let group := List.filter (fun ep => seqb (service_key ep) k) passed in
  (forall e, e ∈ ej -> e ∈ group) /\
  (has && (0 <? pct) = true -> Z.of_nat (length ej) <= Z.max 0 (max_ejected (Z.of_nat (length group)) pct)).

Lemma group_ejected_within m has pct n blocked :
  (forall e, e ∈ group_ejected m has pct n blocked -> e ∈ blocked) /\
  (has && (0 <? pct) = true -> Z.of_nat (length (group_ejected m has pct n blocked)) <= Z.max 0 (max_ejected n pct)).
Proof.
  unfold group_ejected. destruct (has && (0 <? pct)); [|done].
  destruct (max_ejected n pct <? Z.of_nat (length blocked)) eqn:E; zbool.
  - split; [|intros _; rewrite length_take; lia]. intros e He.
    rewrite <- (sort_by_perm (opened_before m) blocked). apply elem_of_take in He as (i & Hi & _).
    by eapply list_elem_of_lookup_2.
  - split; [done|lia].
Qed.

Lemma eject_groups_within act now has pct passed keys : forall m,
  exists ej : list (string * list Endpoint),
    map fst ej = keys /\ snd (eject_groups act now has pct passed keys m) = List.concat (map snd ej) /\
    Forall (fun ke => within_cap has pct passed (fst ke) (snd ke)) ej.
Proof.
  induction keys as [|k keys IH]; intros m; cbn [eject_groups]; [by exists []|].
  pose proof (allow_split_subset ep_ID act now (List.filter (fun ep => seqb (service_key ep) k) passed) m) as Sub.
  destruct (allow_split ep_ID act now _ m) as [m1 [yes blocked]]. destruct Sub as [_ Sub].
  destruct (IH m1) as (ej & E1 & E2 & E3).
  destruct (eject_groups act now has pct passed keys m1) as [m2 more]. cbn [snd] in *.
  set (n := Z.of_nat (length (List.filter (fun ep => seqb (service_key ep) k) passed))).
  exists ((k, group_ejected m1 has pct n blocked) :: ej). cbn. split_and!; [by f_equal|by rewrite E2|].
  constructor; [|done]. cbn. destruct (group_ejected_within m1 has pct n blocked) as [W1 W2].
  split; [|exact W2]. intros e He. eapply elem_of_sublist; [by apply W1|done].
Qed.

Lemma group_keys_complete eps : NoDup (group_keys eps) /\ forall e, e ∈ eps -> service_key e ∈ group_keys eps.
Proof.
  unfold group_keys. induction eps as [|x l IH] using rev_ind; [split; [constructor|by intros ? ?%elem_of_nil]|].
  rewrite fold_left_app. cbn [fold_left]. set (ks := fold_left _ l []) in *. clearbody ks. destruct IH as [N C].
  destruct (existsb (seqb (service_key x)) ks) eqn:E.
  - split; [done|]. intros e He. apply elem_of_app in He as [He|He]; [auto|]. apply list_elem_of_singleton in He as ->.
    apply existsb_exists in E as (y & Hy & Ey). apply seqb_eq in Ey. rewrite Ey. by apply list_elem_of_In.
  - split.
    + apply NoDup_app. split_and!; [done| |apply NoDup_singleton]. intros y Hy ->%list_elem_of_singleton.
      assert (existsb (seqb (service_key x)) ks = true); [|congruence]. apply existsb_exists.
      exists (service_key x). rewrite seqb_refl. split; [by apply list_elem_of_In|done].
    + intros e He. apply elem_of_app in He as [He|He]; [set_solver|]. set_solver.
Qed.

Definition has_id (ids : list Endpoint) (e : Endpoint) : bool := existsb (fun b => seqb (ep_ID b) (ep_ID e)) ids.

Lemma has_id_spec ids e : has_id ids e = true <-> exists b, b ∈ ids /\ ep_ID b = ep_ID e.
Proof.
  unfold has_id. rewrite existsb_exists. split; intros (b & Hb & E); exists b.
  - apply seqb_eq in E. by rewrite list_elem_of_In.
  - rewrite seqb_eq. by rewrite <- list_elem_of_In.
Qed.

(** Removing the IDs of [ej] removes at most [length ej] endpoints. *)
Lemma survivors_count l ej :
  NoDup (map ep_ID l) -> (length l <= length (List.filter (fun e => negb (has_id ej e)) l) + length ej)%nat.
Proof.
  intros N. assert (length l = length (List.filter (has_id ej) l) + length (List.filter (fun e => negb (has_id ej e)) l))%nat
    as E by (symmetry; apply filter_length).
  assert (length (List.filter (has_id ej) l) <= length ej)%nat; [|lia].
  rewrite <- (length_map ep_ID), <- (length_map ep_ID ej).
  apply NoDup_incl_length.
  - apply NoDup_ListNoDup. clear E. induction l as [|x l IH]; cbn; [constructor|]. cbn in N.
    apply NoDup_cons in N as [Nx N]. destruct (has_id ej x); [|auto]. cbn. apply NoDup_cons. split; [|auto].
    intros (y & E & [_ Hy]%elem_of_filter_bool)%list_elem_of_fmap. apply Nx. rewrite E. apply list_elem_of_fmap. eauto.
  - intros id (x & <- & [_ Hx]%filter_In)%in_map_iff. apply has_id_spec in Hx as (b & Hb & Eb).
    rewrite <- Eb. apply in_map. by apply list_elem_of_In.
Qed.

Lemma max_ejected_below n pct : 1 <= n <= 1099511627776 -> 0 < pct < 100 -> 0 <= max_ejected n pct < n.
Proof.
  intros Hn Hp. unfold max_ejected. rewrite wrap64_small by (unfold in_int64, min_int64, max_int64; nia).
  rewrite Z.quot_div_nonneg by nia.
  pose proof (Z.div_le_upper_bound (n * pct) 100 (n - 1)). pose proof (Z.div_pos (n * pct) 100 ltac:(nia) ltac:(lia)).
  assert (n * pct / 100 < n) by (apply Z.div_lt_upper_bound; nia).
  destruct ((_ =? 0) && (1 <? n)) eqn:E; zbool; lia.
Qed.

Lemma filter_comm {A} (f h : A -> bool) l : List.filter f (List.filter h l) = List.filter h (List.filter f l).
Proof. induction l as [|x l IH]; cbn; [done|]. destruct (f x) eqn:F, (h x) eqn:H; cbn; rewrite ?F, ?H, IH; done. Qed.

Lemma NoDup_ID_inj l e1 e2 : NoDup (map ep_ID l) -> e1 ∈ l -> e2 ∈ l -> ep_ID e1 = ep_ID e2 -> e1 = e2.
Proof.
  intros N H1 H2 E. apply list_elem_of_lookup in H1 as [i Hi], H2 as [j Hj]. assert (i = j) as ->; [|congruence].
  eapply (NoDup_lookup (map ep_ID l) i j (ep_ID e1)); [done|..]; rewrite list_lookup_fmap; [by rewrite Hi|by rewrite Hj, E].
Qed.

(** On the group of [k], only the ejections of that group count. *)
Lemma group_survivors has pct passed (ej : list (string * list Endpoint)) k :
  NoDup (map ep_ID passed) -> NoDup (map fst ej) ->
  Forall (fun ke => within_cap has pct passed (fst ke) (snd ke)) ej ->
  (forall e, e ∈ passed -> service_key e ∈ map fst ej) ->
  let group := List.filter (fun ep => seqb (service_key ep) k) passed in
  group <> [] ->
  exists ejk, within_cap has pct passed k ejk /\
    List.filter (fun e => negb (has_id (List.concat (map snd ej)) e)) group =
    List.filter (fun e => negb (has_id ejk e)) group.
Proof.
  intros N Nk W C group Hg.
  assert (exists x, x ∈ group) as [x Hx] by (destruct group; [done|eexists; left]).
  apply elem_of_filter_bool in Hx as [Kx Hx]. apply seqb_eq in Kx.
  specialize (C x Hx). rewrite Kx in C. apply list_elem_of_fmap in C as ([k' ejk] & Ek & Hk). cbn in Ek. subst k'.
  exists ejk. rewrite Forall_forall in W. split; [exact (W _ Hk)|]. apply filter_ext_in. intros e He. f_equal.
  apply list_elem_of_In, elem_of_filter_bool in He as [Ke He]. apply seqb_eq in Ke.
  apply eq_true_iff_eq. rewrite !has_id_spec. split; intros (b & Hb & Eb).
  - exists b. split; [|done]. apply list_elem_of_In, in_concat in Hb as (l & Hl & Hb).
    apply in_map_iff in Hl as ([k2 l2] & El & Hl). cbn in El. subst l2. apply list_elem_of_In in Hl, Hb.
    destruct (W _ Hl) as [W2 _]. cbn in W2. specialize (W2 b Hb). apply elem_of_filter_bool in W2 as [K2 Hb2].
    apply seqb_eq in K2. assert (b = e) as -> by (eapply NoDup_ID_inj; eauto).
    assert (k2 = k) as -> by congruence.
    assert ((k, l) = (k, ejk)) as [= ->]; [|done]. 
    apply list_elem_of_lookup in Hl as [i Hi], Hk as [j Hj]. assert (i = j) as ->; [|congruence].
    eapply (NoDup_lookup (map fst ej) i j k); [done|..]; rewrite list_lookup_fmap; [by rewrite Hi|by rewrite Hj].
  - exists b. split; [|done]. apply list_elem_of_In, in_concat. exists ejk.
    split; [|by apply list_elem_of_In]. apply in_map_iff. exists (k, ejk). split; [done|by apply list_elem_of_In].
Qed.

Lemma sublist_map_NoDup {A B} (f : A -> B) l k : sublist l k -> NoDup (map f k) -> NoDup (map f l).
Proof.
  intros S N. eapply sublist_NoDup; [exact N|]. clear N. induction S; cbn; by constructor.
Qed.

(** The outlier cap protects capacity: with an instance policy of [OutlierMaxPercent]
    below 100, the breaker router ejects from each service at most
    [n * percent / 100] of its [n] candidates (at least one when there are several),
    so a service that passed its own breaker keeps at least one endpoint, however many
    instance breakers are open. *)
Theorem outlier_cap_keeps_capacity (m : CircuitBreakerManager) (act : bool) (now : Time) (g : GatewayContext)
  (eps : list Endpoint) (p : Policy) (pct : Z) (k : string)
  (Hp : gPolicy g = Some p) (Hps : p_CircuitBreakPolicies p <> [])
  (Hcap : outlier_cap (p_CircuitBreakPolicies p) = (true, pct)) (Hpct : 0 < pct < 100)
  (HN : NoDup (map ep_ID eps)) (Hlen : Z.of_nat (length eps) <= 1099511627776) :
  let passed := fst (snd (allow_split service_key act now eps
                            (fold_left (check_policy eps) (p_CircuitBreakPolicies p) (bind_models m eps)))) in
  let group := List.filter (fun ep => seqb (service_key ep) k) passed in
  let kept := List.filter (fun ep => seqb (service_key ep) k) (snd (CircuitBreaker_Route m act now g eps)) in
  group <> [] ->
  Z.of_nat (length group) - max_ejected (Z.of_nat (length group)) pct <= Z.of_nat (length kept) /\ kept <> [].
Proof.
  intros passed group kept. subst passed group kept. intros Hg. unfold CircuitBreaker_Route.
  destruct eps as [|e0 eps0] eqn:Eeps; [by destruct Hg|]. rewrite <- Eeps in *. rewrite Hp.
  destruct (p_CircuitBreakPolicies p) as [|q qs] eqn:Eq; [done|]. rewrite <- Eq in *.
  pose proof (allow_split_subset service_key act now eps
    (fold_left (check_policy eps) (p_CircuitBreakPolicies p) (bind_models m eps))) as Sub.
  revert Sub Hg. destruct (allow_split service_key act now eps _) as [m1 [passed no]].
  cbn [fst snd]. intros [Sub _] Hg.
  destruct passed as [|x0 xs] eqn:Ep; [by destruct Hg|]. rewrite <- Ep in *. rewrite Hcap.
  destruct (eject_groups_within act now true pct passed (group_keys passed) m1) as (ej & E1 & E2 & E3).
  destruct (eject_groups act now true pct passed (group_keys passed) m1) as [m2 ejected]. cbn [snd] in *. subst ejected.
  change (fun ep => negb (existsb _ (List.concat (map snd ej)))) with (fun e => negb (has_id (List.concat (map snd ej)) e)).
  rewrite filter_comm. destruct (group_keys_complete passed) as [Nk Ck]. rewrite <- E1 in Nk, Ck.
  assert (NoDup (map ep_ID passed)) as Np by by eapply sublist_map_NoDup.
  destruct (group_survivors true pct passed ej k Np Nk E3 Ck Hg) as (ejk & [W1 W2] & ->).
  set (group := List.filter (fun ep => seqb (service_key ep) k) passed) in *.
  assert (NoDup (map ep_ID group)) as Ng.
  { eapply sublist_map_NoDup; [|exact Np]. subst group. clear. induction passed as [|y l IH]; cbn; [constructor|].
    destruct (seqb _ _); by constructor. }
  assert (1 <= Z.of_nat (length group) <= 1099511627776) as Lg.
  { split; [destruct group; [done|cbn [length]; lia]|]. apply sublist_length in Sub.
    pose proof (filter_length_le (fun ep => seqb (service_key ep) k) passed). subst group. lia. }
  pose proof (max_ejected_below _ pct Lg Hpct) as M.
  pose proof (survivors_count group ejk Ng) as S. specialize (W2 ltac:(cbn; apply Z.ltb_lt; lia)).
  assert (Z.of_nat (length group) - max_ejected (Z.of_nat (length group)) pct <=
    Z.of_nat (length (List.filter (fun e => negb (has_id ejk e)) group))) by lia.
  split; [done|]. intros Z0. rewrite Z0 in *. cbn in *. lia.
Qed.

(** Two of three instances open, a cap of 50 percent: one of them is released. *)
Definition demo_pool : list Endpoint := [demo_ep "a" "p" 0 ∅; demo_ep "b" "p" 0 ∅; demo_ep "c" "p" 0 ∅].
Definition demo_two_open : CircuitBreakerManager :=
  Eval vm_compute in RecordRaw (RecordRaw NewCircuitBreakerManager "a" false 10 1 1 1000000000 5) "b" false 10 1 1
                       1000000000 6.
Definition demo_capped : GatewayContext :=
  emptyContext <| gPolicy := Some (emptyPolicy <| p_CircuitBreakPolicies :=
    [Some ((demo_policy "INSTANCE") <| cb_OutlierMaxPercent := 50 |>)] |>) |>.

Lemma outlier_cap_keeps_capacity_witness :
  map ep_ID (snd (CircuitBreaker_Route demo_two_open false 7 demo_capped demo_pool)) = ["b"; "c"] /\
  List.filter (fun ep => seqb (service_key ep) "p:m")
    (snd (CircuitBreaker_Route demo_two_open false 7 demo_capped demo_pool)) <> [].
Proof.
  split; [vm_compute; reflexivity|].
  destruct (gPolicy demo_capped) as [p|] eqn:E; [|discriminate].
  refine (proj2 (outlier_cap_keeps_capacity demo_two_open false 7 demo_capped demo_pool p 50 "p:m" E _ _ _ _ _ _)).
  - injection E as <-. discriminate.
  - injection E as <-. vm_compute. reflexivity.
  - lia.
  - apply (bool_decide_unpack _). vm_compute. exact I.
  - vm_compute. discriminate.
  - injection E as <-. vm_compute. discriminate.
Defined.

(** ** Recovery when the policies are gone *)

Definition closed_at (m : CircuitBreakerManager) (k : string) : Prop :=
  exists e, entries m !! k = Some e /\ state e = CircuitClosed /\ activeCalls e = 0 /\ results e = [] /\ buckets e = [].

Lemma Reset_closes m k k' : closed_at m k' \/ k' = k -> closed_at (Reset m k) k'.
Proof.
  intros H. unfold Reset, getEntry.
  pose proof (GetEntryWithModel_spec m k "") as [S E]. destruct (GetEntryWithModel m k "") as [m1 e]; cbn [fst snd] in *.
  unfold closed_at. rewrite entries_notify, entries_set, E, insert_insert_eq.
  destruct (decide (k' = k)) as [->|N].
  - rewrite lookup_insert_eq. by eexists.
  - rewrite lookup_insert_ne by done. destruct H as [H|]; done.
Qed.

Lemma reset_all_closes eps : forall m k,
  closed_at m k \/ (exists e, e ∈ eps /\ (k = service_key e \/ k = ep_ID e)) -> closed_at (reset_all m eps) k.
Proof.
  unfold reset_all. induction eps as [|x eps IH]; intros m k H; cbn [fold_left].
  - destruct H as [H|(e & He & _)]; [done|by apply elem_of_nil in He].
  - apply IH. destruct H as [H|(e & He & Hk)].
    + left. apply Reset_closes. left. apply Reset_closes. by left.
    + apply elem_of_cons in He as [->|He]; [left|by right; exists e].
      destruct Hk as [->| ->]; apply Reset_closes; [left; apply Reset_closes|]; by right.
Qed.

(** When the circuit-break policies have been removed, the breaker router filters
    nothing and recovers every breaker the old policies left open or half-open: both
    breakers of each candidate are closed with empty windows and no call in flight. *)
Theorem no_policy_recovers_breakers (m : CircuitBreakerManager) (act : bool) (now : Time) (g : GatewayContext)
  (eps : list Endpoint) (Hnone : forall p, gPolicy g = Some p -> p_CircuitBreakPolicies p = []) :
  snd (CircuitBreaker_Route m act now g eps) = eps /\
  Forall (fun e => closed_at (fst (CircuitBreaker_Route m act now g eps)) (service_key e) /\
                   closed_at (fst (CircuitBreaker_Route m act now g eps)) (ep_ID e)) eps.
Proof.
  unfold CircuitBreaker_Route. destruct eps as [|x l] eqn:E; [by split|]. rewrite <- E.
  assert (match gPolicy g with Some p => p_CircuitBreakPolicies p | None => [] end = []) as ->.
  { destruct (gPolicy g); [by apply Hnone|done]. }
  split; [done|]. apply Forall_forall. intros e He. cbn [fst].
  split; apply reset_all_closes; right; exists e; auto.
Qed.

Lemma no_policy_recovers_breakers_witness :
  closed_at (fst (CircuitBreaker_Route demo_two_open false 7 emptyContext demo_pool)) "a".
Proof.
  destruct (no_policy_recovers_breakers demo_two_open false 7 emptyContext demo_pool) as [_ F]; [done|].
  apply Forall_cons in F as [[_ F] _]. exact F.
Defined.
