(* ===== verification/Fallback.v ===== *)
(** pkg/core/invoker.go and pipeline.go: the choice of the invoker by policy, the
    request-level model fallback and its guards; pkg/invoker/provider.go: the leaf call
    with the upstream model name.  An invoker is a function on a world [W] (whatever
    state the call reads and writes) and the request context. *)

From S2P Require Import Prelude GoFloat GoStrings GoTime Matcher Policy Types Context Balancers.

(** [core.Invoker]. *)
Definition Invoker (W : Type) : Type := W -> GatewayContext -> W * GatewayContext * option goerror.

(** * pipeline.go *)

(** The default invoker and the registry by type ([None]: a nil entry). *)
Record Pipeline (W : Type) := mkPipeline {
  pl_Invoker : Invoker W;
  pl_Invokers : gmap string (option (Invoker W))
}.
Arguments mkPipeline {W}.
Arguments pl_Invoker {W}.
Arguments pl_Invokers {W}.

Definition SelectInvoker {W} (p : Pipeline W) (g : GatewayContext) : Invoker W :=
  match invocation_policy g with
  | Some ip => match pl_Invokers p !! ip_Type ip with Some (Some i) => i | _ => pl_Invoker p end
  | None => pl_Invoker p
  end.

(** * invoker.go *)

Definition getFallbackPolicy (g : option GatewayContext) : option FallbackPolicy :=
  (g ≫= invocation_policy) ≫= ip_FallbackPolicy.

(** The value of an [allow_degrade] parameter as the fallback guard reads it. *)
Definition degrade_value (v : gvalue) : bool :=
  match v with
  | VBool b => b
  | VString s => seqb s "true"
  | VFloat64 f => negb (feq f fzero)
  | VInt z => negb (z =? 0)
  | _ => false
  end.

Definition isAffinityNoDegrade (g : option GatewayContext) : bool :=
  match g ≫= lb_policy with
  | None => false
  | Some lb =>
      if seqb (lbp_Type lb) "endpoint_affinity" then
        match lbp_Params lb with
        | None => false
        | Some ps =>
            let allow := match ps !! "allow_degrade" with
                         | Some v => degrade_value v
                         | None => match ps !! "allowDegrade" with Some v => degrade_value v | None => false end
                         end in
            negb allow
        end
      else false
  end.

Definition CanFallbackModel (g : option GatewayContext) (err : option goerror) : bool :=
  match err with
  | None => false
  | Some _ =>
      if errors_Is err ErrFatalNoAvailableEndpoint then false
      else
        let protected :=
          match g with
          | Some c => bool_decide (is_Some (FatalErr c)) || (0 <? TTFT c) || isAffinityNoDegrade g
          | None => false
          end in
        if protected then false else errors_Is err ErrNoAvailableEndpoint
  end.

(** The loop over the models; the error is that of the last model tried. *)
Fixpoint fallback_loop {W} (invoke : Invoker W) (models : list string) (err : option goerror) (w : W)
  (g : GatewayContext) : W * GatewayContext * option goerror :=
  match models with
  | [] => (w, g, err)
  | model :: rest =>
      let g := g <| Model := model |> <| FallbackChain := FallbackChain g ++ [model] |> in
      let '(w, g, err) := invoke w g in
      if CanFallbackModel (Some g) err then fallback_loop invoke rest err w g else (w, g, err)
  end.

Definition FallbackInvoker_Invoke {W} (p : Pipeline W) : Invoker W := fun w g =>
  let invoke := SelectInvoker p g in
  match getFallbackPolicy (Some g) with
  | Some fp =>
      match fp_Targets fp with
      | [] => invoke w g
      | targets => fallback_loop invoke (Model g :: targets) None w g
      end
  | None => invoke w g
  end.

(** * provider.go *)

(** [encoding/json] on an object: the fields in order ([Some None]: the value null, which
    leaves the map nil), and back. *)
Record JsonLib := mkJsonLib {
  json_Unmarshal : string -> option (option (list (string * string)));
  json_Marshal : list (string * string) -> option string;
  json_quote : string -> string
}.

Fixpoint set_field (k v : string) (fs : list (string * string)) : list (string * string) :=
  match fs with
  | [] => [(k, v)]
  | (k', v') :: r => if seqb k' k then (k, v) :: r else (k', v') :: set_field k v r
  end.

(** Writing to a nil map panics. *)
Definition replaceModelInBody (J : JsonLib) (body newModel : string) : go string :=
  match json_Unmarshal J body with
  | None => Ret body
  | Some None => Panic
  | Some (Some fs) => Ret (default body (json_Marshal J (set_field "model" (json_quote J newModel) fs)))
  end.

(** Whether the upstream model name has to be written into the request. *)
Definition needs_rewrite (g : GatewayContext) (ep : Endpoint) : bool :=
  let effective := EffectiveModel ep in
  negb (is_empty effective) &&
  (negb (seqb effective (Model g)) ||
   negb (is_empty (OriginalModel g)) && negb (seqb effective (OriginalModel g))).

(** [provider]: the provider attached to the endpoint, where there is one. The body of a
    request is the non-nil slice the server read. *)
Definition ProviderInvoker_Invoke {W} (J : JsonLib) (provider : option (Invoker W)) (ep : Endpoint) (now : Time)
  (w : W) (g : GatewayContext) : go (W * GatewayContext * option goerror) :=
  let g := g <| SelectedInvoker := Some ep |> <| SelectedEndpoint := Some ep |> <| UpstreamConnect := now |> in
  match provider with
  | None => Ret (w, g, None)
  | Some call =>
      if needs_rewrite g ep then
        match replaceModelInBody J (RawBody g) (EffectiveModel ep) with
        | Panic => Panic
        | Ret body =>
            let '(w, g', err) := call w (g <| Model := EffectiveModel ep |> <| RawBody := body |>) in
            Ret (w, g' <| Model := Model g |> <| RawBody := RawBody g |>, err)
        end
      else
        let '(w, g', err) := call w g in Ret (w, g' <| Model := Model g |>, err)
  end.

(** * Theorems *)

(** An invoker that leaves the list of tried models to the fallback. *)
Definition keeps_chain {W} (i : Invoker W) : Prop :=
  forall w g, FallbackChain (snd (fst (i w g))) = FallbackChain g.

Lemma fallback_loop_chain {W} (i : Invoker W) models : keeps_chain i -> forall err w g w' g' err',
  fallback_loop i models err w g = (w', g', err') ->
  exists k, (k <= length models)%nat /\ FallbackChain g' = FallbackChain g ++ take k models /\
    (k = length models \/ CanFallbackModel (Some g') err' = false).
Proof.
  intros Hi. induction models as [|m models IH]; intros err w g w' g' err' E; cbn [fallback_loop] in E.
  - simplify_eq. exists 0%nat. rewrite app_nil_r. auto.
  - set (g0 := g <| Model := m |> <| FallbackChain := FallbackChain g ++ [m] |>) in *.
    pose proof (Hi w g0) as C. destruct (i w g0) as [[w1 g1] e1]. cbn [fst snd] in C.
    assert (FallbackChain g0 = FallbackChain g ++ [m]) as E0 by done. rewrite E0 in C.
    destruct (CanFallbackModel (Some g1) e1) eqn:F.
    + destruct (IH e1 w1 g1 w' g' err' E) as (k & Hk & Ck & D). exists (S k). cbn [length take].
      split_and!; [lia|by rewrite Ck, C, <- app_assoc|]. destruct D as [->|D]; auto.
    + simplify_eq. exists 1%nat. cbn [length take]. rewrite take_0. split_and!; [lia|done|by right].
Qed.

(** Model fallback tries the requested model and then the targets, in order, each at
    most once; it goes past a model only while the error is a fallback-able one, and
    what it returns is the outcome of the last model tried. *)
Theorem fallback_tries_in_order {W : Type} (p : Pipeline W) (w w' : W) (g g' : GatewayContext)
  (err : option goerror) (fp : FallbackPolicy)
  (Hfp : getFallbackPolicy (Some g) = Some fp) (Htargets : fp_Targets fp <> [])
  (Hkeep : keeps_chain (SelectInvoker p g))
  (Hrun : FallbackInvoker_Invoke p w g = (w', g', err)) :
  let models := Model g :: fp_Targets fp in
  exists k, (1 <= k <= length models)%nat /\ FallbackChain g' = FallbackChain g ++ take k models /\
    ((k < length models)%nat -> CanFallbackModel (Some g') err = false).
Proof.
  cbn zeta. unfold FallbackInvoker_Invoke in Hrun. rewrite Hfp in Hrun.
  destruct (fp_Targets fp) as [|t ts] eqn:E; [done|]. rewrite <- E in *.
  pose proof Hrun as Hrun'. apply fallback_loop_chain in Hrun' as (k & Hk & C & D); [|done].
  destruct k as [|k].
  - exfalso. cbn [fallback_loop] in Hrun.
    set (g0 := g <| Model := Model g |> <| FallbackChain := FallbackChain g ++ [Model g] |>) in *.
    pose proof (Hkeep w g0) as K. destruct (SelectInvoker p g w g0) as [[w1 g1] e1]. cbn [fst snd] in K.
    assert (FallbackChain g0 = FallbackChain g ++ [Model g]) as E0 by done. rewrite E0 in K.
    rewrite app_nil_r in C.
    assert (exists l, FallbackChain g' = FallbackChain g1 ++ l) as [l El].
    { destruct (CanFallbackModel (Some g1) e1); [|simplify_eq; exists []; by rewrite app_nil_r].
      apply fallback_loop_chain in Hrun as (j & _ & Cj & _); [eauto|done]. }
    apply (f_equal length) in El. rewrite C, K, !length_app in El. cbn in El. lia.
  - exists (S k). split_and!; [lia|done|done|]. intros L. destruct D as [D|D]; [|done]. rewrite D in L. lia.
Qed.

(** An invoker that always reports that no endpoint is available. *)
Definition demo_none : Invoker unit := fun w g => (w, g, Some errNoAvailableEndpoint).
Definition demo_fallback : GatewayContext :=
  emptyContext <| Model := "m0" |>
    <| gPolicy := Some (emptyPolicy <| p_InvocationPolicy :=
         Some (mkInvocationPolicy "" "" "fallback" None (Some (mkFallbackPolicy ["m1"; "m2"]))) |>) |>.

Lemma fallback_tries_in_order_witness :
  exists k, (1 <= k <= 3)%nat /\
    FallbackChain (snd (fst (FallbackInvoker_Invoke (mkPipeline demo_none ∅) tt demo_fallback))) =
    [] ++ take k ["m0"; "m1"; "m2"].
Proof.
  destruct (FallbackInvoker_Invoke (mkPipeline demo_none ∅) tt demo_fallback) as [[w' g'] err] eqn:E.
  destruct (fallback_tries_in_order (mkPipeline demo_none ∅) tt w' demo_fallback g' err (mkFallbackPolicy ["m1"; "m2"]))
    as (k & Hk & C & _).
  - reflexivity.
  - discriminate.
  - intros w g. reflexivity.
  - exact E.
  - exists k. split; [exact Hk|exact C].
Defined.

(** C40: Fallback respects the guards: after the first byte has reached the client, after a
    fatal error, or under an affinity policy without degradation, no further model is
    tried, whatever the error. *)
Theorem fallback_guarded {W : Type} (invoke : Invoker W) (model : string) (rest : list string) (w w1 : W)
  (g g1 : GatewayContext) (err err0 : option goerror)
  (Hinvoke : invoke w (g <| Model := model |> <| FallbackChain := FallbackChain g ++ [model] |>) = (w1, g1, err))
  (Hguard : 0 < TTFT g1 \/ is_Some (FatalErr g1) \/ isAffinityNoDegrade (Some g1) = true \/ err = None \/
            errors_Is err ErrNoAvailableEndpoint = false) :
  fallback_loop invoke (model :: rest) err0 w g = (w1, g1, err).
Proof.
  cbn [fallback_loop]. rewrite Hinvoke.
  assert (CanFallbackModel (Some g1) err = false) as ->; [|done].
  unfold CanFallbackModel. destruct err as [e|]; [|done].
  destruct (errors_Is (Some e) ErrFatalNoAvailableEndpoint); [done|].
  destruct Hguard as [H|[H|[H|[H|H]]]]; [..|rewrite H; by repeat split_match].
  - rewrite (proj2 (Z.ltb_lt _ _) H), orb_true_r. done.
  - by rewrite bool_decide_true.
  - by rewrite H, orb_true_r.
  - done.
Qed.

Lemma fallback_guarded_witness :
  let started : Invoker unit := fun w g => (w, g <| TTFT := 5 |>, Some errNoAvailableEndpoint) in
  FallbackChain (snd (fst (fallback_loop started ["m0"; "m1"] None tt emptyContext))) = ["m0"].
Proof.
  intros started. rewrite (fallback_guarded started "m0" ["m1"] tt tt emptyContext
    (emptyContext <| Model := "m0" |> <| FallbackChain := ["m0"] |> <| TTFT := 5 |>) (Some errNoAvailableEndpoint) None).
  - reflexivity.
  - reflexivity.
  - left. cbn. lia.
Defined.

(** The affinity balancer and the fallback guard disagree on [allow_degrade]: the text
    "1" (or "t", "TRUE") lets the balancer degrade but forbids the model fallback; the
    key [allowDegrade], the integer 1 and absent parameters go the other way, allowing
    the fallback while the balancer refuses. *)
Theorem degrade_settings_disagree :
  let ctx ps := emptyContext <| gPolicy := Some (emptyPolicy <| p_LoadBalancePolicy :=
                  Some (mkLoadBalancePolicy "" "" "endpoint_affinity" 1 ps) |>) |> in
  let balancer ps := snd (affinity_config (Some (ctx ps))) in
  let fallback ps := negb (isAffinityNoDegrade (Some (ctx ps))) in
  (balancer (Some {["allow_degrade" := VString "1"]}) = true /\
   fallback (Some {["allow_degrade" := VString "1"]}) = false) /\
  (balancer (Some {["allowDegrade" := VBool true]}) = false /\
   fallback (Some {["allowDegrade" := VBool true]}) = true) /\
  (balancer (Some {["allow_degrade" := VInt 1]}) = false /\
   fallback (Some {["allow_degrade" := VInt 1]}) = true) /\
  balancer None = false /\ fallback None = true.
Proof. vm_compute. auto 10. Qed.

(** The provider call is transparent: whatever the provider does to the model name and
    the body it was given, after the call the context has the client's model again, and
    the client's body if the model name had been rewritten in it; the attempt fields
    name the endpoint that was called. *)
Theorem provider_invoke_transparent {W : Type} (J : JsonLib) (provider : option (Invoker W)) (ep : Endpoint)
  (now : Time) (w w' : W) (g g' : GatewayContext) (err : option goerror)
  (Hsel : forall call, provider = Some call -> forall w c, SelectedEndpoint (snd (fst (call w c))) = SelectedEndpoint c)
  (Hrun : ProviderInvoker_Invoke J provider ep now w g = Ret (w', g', err)) :
  Model g' = Model g /\ (needs_rewrite g ep = true -> provider <> None -> RawBody g' = RawBody g) /\
  SelectedEndpoint g' = Some ep.
Proof.
  revert Hrun. unfold ProviderInvoker_Invoke.
  set (g0 := g <| SelectedInvoker := Some ep |> <| SelectedEndpoint := Some ep |> <| UpstreamConnect := now |>).
  assert (Model g0 = Model g /\ RawBody g0 = RawBody g /\ SelectedEndpoint g0 = Some ep /\
          needs_rewrite g0 ep = needs_rewrite g ep) as (EM & EB & ES & ER) by done.
  clearbody g0. destruct provider as [call|]; [|by intros [= <- <- <-]]. rewrite ER.
  specialize (Hsel call eq_refl). destruct (needs_rewrite g ep).
  - destruct (replaceModelInBody J (RawBody g0) (EffectiveModel ep)) as [body|]; [|done].
    set (g1 := g0 <| Model := EffectiveModel ep |> <| RawBody := body |>).
    assert (SelectedEndpoint g1 = Some ep) as E1 by done. clearbody g1.
    pose proof (Hsel w g1) as S. destruct (call w g1) as [[w2 g2] e2]. cbn [fst snd] in S.
    intros [= <- <- <-]. rewrite <- EM, <- EB. cbn [Model RawBody SelectedEndpoint update]. 
    split; [done|split; [done|]]. by rewrite S.
  - pose proof (Hsel w g0) as S. destruct (call w g0) as [[w2 g2] e2]. cbn [fst snd] in S.
    intros [= <- <- <-]. rewrite <- EM. split; [done|split; [done|]].
    transitivity (SelectedEndpoint g2); [done|]. by rewrite S.
Qed.

Lemma provider_invoke_transparent_witness :
  let ep := mkEndpoint "a" "a" "" "p" "" "m" "up-m" ∅ 1 0 [] true true ∅ "" "" "openai" 0 0 None None None None in
  let J := mkJsonLib (fun _ => Some (Some [])) (fun fs => Some "{...}") (fun s => s) in
  let call : Invoker unit := fun w c => (w, c <| Model := "x" |>, None) in
  let g := emptyContext <| Model := "m" |> <| RawBody := "{}" |> in
  match ProviderInvoker_Invoke J (Some call) ep 5 tt g with
  | Ret (_, g', _) => Model g' = "m"
  | Panic => False
  end.
Proof.
  intros ep J call g.
  pose proof (provider_invoke_transparent J (Some call) ep 5 tt) as T.
  destruct (ProviderInvoker_Invoke J (Some call) ep 5 tt g) as [[[w' g'] err]|] eqn:E.
  - refine (proj1 (T w' g g' err _ E)). intros c [= <-] w0 c0. reflexivity.
  - vm_compute in E. discriminate.
Defined.
