(* ===== verification/Smart.v ===== *)
(** Smart routing, the router: pkg/invoker/smart.go and child_accounting.go.  A request to a
    smart model is scored by a judge model and sent to the target of its range; children
    run with their own context, response buffer, limits and settlement.

    The collaborators - configuration source, model validator, policies, discovery, auth filter,
    limit and settlement filters, invokers and the Go contexts - act on a world [W]. *)

From Stdlib Require Import Ascii.
From S2P Require Import Prelude GoFloat GoStrings GoTime GoJson GoPrint Matcher Policy Types Context Http Translate TranslateMessages Fallback SmartRequest.

(** * Data *)

Record SmartEscalation := mkEscalation { se_Model : string; se_Reason : string }.
Record SmartJudgeUsage := mkJudgeUsage { ju_Input : Z; ju_Output : Z; ju_Cached : Z }.
#[global] Instance eta_judge_usage : Eta SmartJudgeUsage := fun u => mkJudgeUsage (ju_Input u) (ju_Output u) (ju_Cached u).

Record SmartRoutingRecord := mkSmartRecord {
  rr_Model : string; rr_Version : Z; rr_PromptVersion : string; rr_JudgeModel : string; rr_Score : option Z; rr_Reason : string; rr_MatchedModel : string;
  rr_ExecutedModel : string; rr_Escalations : list SmartEscalation; rr_JudgeDurationMs : Z; rr_DurationMs : Z; rr_JudgeUsage : option SmartJudgeUsage
}.
#[global] Instance eta_smart_record : Eta SmartRoutingRecord := fun r =>
  mkSmartRecord (rr_Model r) (rr_Version r) (rr_PromptVersion r) (rr_JudgeModel r) (rr_Score r) (rr_Reason r) (rr_MatchedModel r) (rr_ExecutedModel r)
    (rr_Escalations r) (rr_JudgeDurationMs r) (rr_DurationMs r) (rr_JudgeUsage r).

Section smart.
Context {W : Type}.

Notation filter := (W -> GatewayContext -> W * GatewayContext * option goerror).
Notation router := (W -> GatewayContext -> list Endpoint -> W * GatewayContext * list Endpoint).
(** A call of a child: context and response buffer. *)
Notation child_call := (W -> GatewayContext -> smartResponseBuffer -> W * GatewayContext * smartResponseBuffer * option goerror).

(** The invokers a pipeline may hold: the two whose router chain can be extended. *)
Inductive target :=
  | TCluster (routers : list router) (call : list router -> child_call)
  | THedging (routers : list router) (call : list router -> child_call -> child_call) (fallback : target)
  | TOther.

Definition smartCapacityRouter : router := fun w g eps =>
  match parseSmartRequest (RequestType g) (RawBody g) with
  | inr _ => (w, g, [])
  | inl req => (w, g, List.filter (fun ep => smartEndpointCompatible (Some ep) req) eps)
  end.

Fixpoint capacityCheckedInvoker (t : target) : child_call + goerror :=
  match t with
  | TCluster routers call => inl (call (smartCapacityRouter :: routers))
  | THedging routers call fallback =>
      match capacityCheckedInvoker fallback with inl fb => inl (call (smartCapacityRouter :: routers) fb) | inr e => inr e end
  | TOther => inr (errorf "unsupported smart target invoker")
  end.

Record SmartRouterDeps := mkSmartDeps {
  sd_source : W -> string -> W * (option SmartRoutingConfig + goerror);
  sd_validate : W -> string -> string -> string -> W * (bool + goerror);
  sd_policies : option (W -> string -> string -> string -> W * (option Policy + goerror));
  sd_discovery : W -> string -> W * (list Endpoint + goerror);
  sd_judge : target;
  sd_limits : option filter;
  sd_settler : option filter;
  (** [Err()] of the context of the request, and of the context of the judge with its timeout *)
  sd_ctx_err : W -> option goerror;
  sd_judge_err : W -> option goerror
}.

(** What the router takes from the pipeline: the filter named auth, the first limit and
    settlement filters, and the invoker for a context. *)
Record SmartPipeline := mkSmartPipeline {
  sp_auth : option filter;
  sp_limits : option filter;
  sp_settler : option filter;
  sp_SelectInvoker : GatewayContext -> target
}.

Context (r : SmartRouterDeps) (J : JsonLib) (marshal : string -> string + goerror).

(** * child_accounting.go *)

Record childCallResult := mkCallResult { cl_admission : option goerror; cl_invoke_err : option goerror; cl_settlement : option goerror }.
Definition result_err (c : childCallResult) : option goerror :=
  match cl_settlement c with
  | Some e => Some e
  | None => match cl_admission c with Some e => Some e | None => cl_invoke_err c end
  end.

Definition childAccounting (pipe : SmartPipeline) : (filter * filter) + goerror :=
  let first (own pipe : option filter) := match own with Some f => Some f | None => pipe end in
  match first (sd_limits r) (sp_limits pipe), first (sd_settler r) (sp_settler pipe) with
  | Some l, Some s => inl (l, s)
  | _, _ => inr (errorf "smart child quota filters not configured")
  end.

(** [ctx_err]: [Err()] of the context of the child. *)
Definition accounting_invoke (acc : filter * filter) (ctx_err : W -> option goerror) (w : W) (g : GatewayContext) (b : smartResponseBuffer) (t : target) :
  W * GatewayContext * smartResponseBuffer * childCallResult :=
  let '(w, g, admission) := fst acc w g in
  let '(w, g, b, err) :=
    match admission with
    | Some _ => (w, g, b, None)
    | None =>
        match ctx_err w with
        | Some e => (w, g, b, Some e)
        | None => match capacityCheckedInvoker t with inr e => (w, g, b, Some e) | inl call => call w g b end
        end
    end in
  let g := g <| Err := result_err (mkCallResult admission err None) |> in
  let '(w, g, settlement) := snd acc w g in
  (w, g, b, mkCallResult admission err settlement).

(** * smart.go *)

Definition Prepare (w : W) (g : GatewayContext) : W * GatewayContext * option (SmartRoutingConfig * SmartRoutingRecord) * option goerror :=
  match sd_source r w (Model g) with
  | (w, inr _) => (w, g, None, Some (smart_error 503 "smart routing configuration unavailable"))
  | (w, inl None) => (w, g, None, None)
  | (w, inl (Some cfg)) =>
      let cfg := ApplyDefaults cfg in
      match Smart_Validate (Some cfg) (Model g) with
      | Some _ => (w, g, None, Some (smart_error 503 "invalid smart routing configuration"))
      | None =>
          match parseSmartRequest (RequestType g) (RawBody g) with
          | inr e => (w, g, None, Some e)
          | inl _ =>
              (w, g <| TrackLimitReservations := true |> <| Sensitive := true |>,
               Some (cfg, mkSmartRecord (Model g) (sc_Version cfg) smartPromptVersion (sc_JudgeModel cfg) None "" "" "" [] 0 0 None), None)
          end
      end
  end.

Definition smartRetryable (ctx : option goerror) (g : GatewayContext) (err : goerror) : bool :=
  if bool_decide (is_Some ctx) || errors_Is (Some err) ErrClientDisconnected || bool_decide (is_Some (FatalErr g)) || isExplicitlyNonRetryable (Some err) then false
  else match UpstreamResponse g with
       | Some resp => (resp_StatusCode resp =? 429) || (500 <=? resp_StatusCode resp)
       | None => true
       end.

Definition copySmartAnswer (parent child : GatewayContext) (b : smartResponseBuffer) : GatewayContext :=
  let nonempty s := if is_empty s then None else Some s in
  let body := nonempty (body_bytes (UpstreamBody child)) in
  let p := parent <| SelectedInvoker := SelectedInvoker child |> <| SelectedEndpoint := SelectedEndpoint child |>
    <| UpstreamConnect := UpstreamConnect child |> <| UpstreamResponse := UpstreamResponse child |> <| UpstreamBody := body |>
    <| InputTokens := InputTokens child |> <| OutputTokens := OutputTokens child |> <| CachedTokens := CachedTokens child |>
    <| CacheCreationTokens := CacheCreationTokens child |> <| Response := Response child |> in
  match Response p, body with
  | None, None => match smartResponseBytes marshal child b with inl data => p <| UpstreamBody := nonempty data |> | inr _ => p end
  | _, _ => p
  end.

(** The policy of a child: a copy without model fallback. *)
Definition child_policy (p : Policy) : Policy :=
  match p_InvocationPolicy p with
  | Some ip => p <| p_InvocationPolicy := Some (mkInvocationPolicy (ip_ID ip) (ip_Name ip) (ip_Type ip) (ip_RetryPolicy ip) None) |>
  | None => p
  end.

Definition smart_child_context (parent : GatewayContext) (model body : string) (p : Policy) (now : Time) : GatewayContext :=
  let g := AcquireContext emptyContext (mkRequest ∅ (Some ∅) []) now in
  g <| GovernanceRequest := requestForGovernance parent |> <| Model := model |> <| OriginalModel := model |>
    <| RequestType := RequestTypeChatCompletion |> <| RawBody := body |> <| gPolicy := Some (child_policy p) |>
    <| APIKey := APIKey parent |> <| APIKeyID := APIKeyID parent |> <| APIKeyHash := APIKeyHash parent |>
    <| Tenant := Tenant parent |> <| UserID := UserID parent |> <| UserTenant := UserTenant parent |> <| WorkspaceID := WorkspaceID parent |>
    <| SessionID := SessionID parent |> <| Sensitive := true |> <| TrackLimitReservations := true |>
    <| LimitKeys := Some (default ∅ (LimitKeys parent)) |> <| Tags := Some (default ∅ (Tags parent)) |>.

(** A child, or the reason and the error of the refusal. *)
Notation maybe_child := (GatewayContext + (string * goerror))%type.


Definition newChild (w : W) (parent : GatewayContext) (model body : string) (req : smartRequest) (auth : option filter) (now : Time) : go (W * maybe_child) :=
  let refuse w reason status text := Ret (w, inr (reason, smart_error status text)) in
  let tenant := if is_empty (Tenant parent) then UserTenant parent else Tenant parent in
  match sd_validate r w model tenant (UserID parent) with
  | (w, inl true) =>
      match sd_source r w model with
      | (w, inl None) =>
          match sd_discovery r w model with
          | (w, inr _) => refuse w "target_unavailable" 503 "smart routing target unavailable"
          | (w, inl eps) =>
              if negb (existsb (fun ep => smartEndpointCompatible (Some ep) req) eps) then refuse w "target_incompatible" 503 "no compatible smart routing endpoint"
              else
                let '(w, p) := match sd_policies r with
                               | None => (w, Some emptyPolicy)
                               | Some get => match get w (Tenant parent) (UserID parent) model with (w, inl p) => (w, p) | (w, inr _) => (w, None) end
                               end in
                match p with
                | None => refuse w "target_policy_unavailable" 403 "smart routing target policy unavailable"
                | Some p =>
                    let! body := replaceModelInBody J body model in
                    let child := smart_child_context parent model body p now in
                    match auth with
                    | None => Ret (w, inl child)
                    | Some f => match f w child with
                                | (w, child, None) => Ret (w, inl child)
                                | (w, _, Some e) => Ret (w, inr ("target_not_authorized", e))
                                end
                    end
                end
          end
      | (w, _) => refuse w "invalid_target" 503 "smart target must be an ordinary model"
      end
  | (w, _) => refuse w "target_not_authorized" 403 "smart routing target unavailable or not authorized"
  end.

(** ** The judge *)

(** The errors of the judge; a terminal one ends the request. *)
Inductive judge_error := JudgeFailed (e : goerror) | JudgeTerminal (cause : goerror).

Record judge_choice := mkJudgeChoice { jc_Content : string; jc_FinishReason : string }.
#[local] Instance eta_judge_choice : Eta judge_choice := fun c => mkJudgeChoice (jc_Content c) (jc_FinishReason c).
Record judge_reply := mkJudgeReply { jr_Choices : list judge_choice; jr_Usage : option SmartJudgeUsage }.
#[local] Instance eta_judge_reply : Eta judge_reply := fun c => mkJudgeReply (jr_Choices c) (jr_Usage c).
Definition dec_judge_reply : decoder judge_reply :=
  dec_struct [("choices", dec_field jr_Choices (dec_slice (mkJudgeChoice "" "") (dec_struct [("message", dec_struct [("content", dec_field jc_Content dec_string)]);
                 ("finish_reason", dec_field jc_FinishReason dec_string)])));
              ("usage", dec_field jr_Usage (dec_ptr (mkJudgeUsage 0 0 0) (dec_struct [("prompt_tokens", dec_field ju_Input dec_int);
                 ("completion_tokens", dec_field ju_Output dec_int); ("prompt_tokens_details", dec_struct [("cached_tokens", dec_field ju_Cached dec_int)])])))].

Definition judge_bytes : Z := 64 * 1024.

(** The answer of the judge: score or error, the reason and the usage. *)
Notation verdict_of := ((Z + judge_error) * string * option SmartJudgeUsage)%type.

Definition read_judgment (g : GatewayContext) (b : smartResponseBuffer) : verdict_of :=
  let invalid text usage := (inr (JudgeFailed (errorf text)), "judge_invalid_response", usage) in
  match smartResponseBytes marshal g b with
  | inr _ => invalid "invalid judge response" None
  | inl data =>
      if judge_bytes <? Z.of_nat (String.length data) then invalid "invalid judge response" None
      else
        match Unmarshal dec_judge_reply (mkJudgeReply [] None) data with
        | Some rep =>
            match jr_Choices rep with
            | [c] =>
                if seqb (jc_FinishReason c) "length" then invalid "truncated judge completion" (jr_Usage rep)
                else match parseSmartScore (jc_Content c) with
                     | inr e => (inr (JudgeFailed e), "judge_invalid_score", jr_Usage rep)
                     | inl (score, reason) => (inl score, reason, jr_Usage rep)
                     end
            | _ => invalid "invalid judge completion" None
            end
        | None => invalid "invalid judge completion" None
        end
  end.

Definition judge_retry (cfg : SmartRoutingConfig) : RetryPolicy := mkRetryPolicy 0 "" 0 [] [] None None 0 0 (sc_JudgeTimeoutMs cfg) 0 None 0.
(** The policy of the judge: one attempt with the timeout of the judge. *)
Definition judge_policy (cfg : SmartRoutingConfig) (p : Policy) : Policy :=
  p <| p_InvocationPolicy := Some (mkInvocationPolicy "" "" "cluster" (Some (judge_retry cfg)) None) |>.

Definition classify (w : W) (parent : GatewayContext) (cfg : SmartRoutingConfig) (req : smartRequest) (auth : option filter) (acc : filter * filter) (now : Time) :
  go (W * verdict_of) :=
  match buildSmartJudgeRequest req cfg with
  | inr e => Ret (w, (inr (JudgeFailed e), "judge_input_limit", None))
  | inl body =>
      match parseSmartRequest RequestTypeChatCompletion body with
      | inr e => Ret (w, (inr (JudgeFailed e), "judge_invalid_request", None))
      | inl judgeReq =>
          let! res := newChild w parent (sc_JudgeModel cfg) body judgeReq auth now in
          match res with
          | (w, inr (_, e)) => Ret (w, (inr (JudgeFailed e), "judge_unavailable", None))
          | (w, inl child) =>
              let child := child <| MaxResponseBytes := judge_bytes |> <| gPolicy := judge_policy cfg <$> gPolicy child |> in
              let '(w, child, b, res) := accounting_invoke acc (sd_judge_err r) w child (newSmartResponseBuffer <| sb_limit := judge_bytes |>) (sd_judge r) in
              match cl_settlement res, cl_admission res, cl_invoke_err res with
              | Some e, _, _ => Ret (w, (inr (JudgeTerminal e), "judge_quota_error", None))
              | None, Some e, _ => Ret (w, (inr (JudgeTerminal e), "judge_limit_rejected", None))
              | None, None, Some e => Ret (w, (inr (JudgeFailed e), if bool_decide (is_Some (sd_judge_err r w)) then "judge_timeout" else "judge_unavailable", None))
              | None, None, None => Ret (w, read_judgment child b)
              end
          end
      end
  end.

(** ** The targets *)

Definition add_escalation (rec : SmartRoutingRecord) (model reason : string) : SmartRoutingRecord :=
  rec <| rr_Escalations := rr_Escalations rec ++ [mkEscalation model reason] |>.

(** The models in the order they are tried; [judged]: there is a score. *)
Fixpoint smart_loop (pipe : SmartPipeline) (acc : filter * filter) (req : smartRequest) (judged : bool) (models : list string) (seen : gset string)
  (lastErr : goerror) (now : Time) (w : W) (g : GatewayContext) (rec : SmartRoutingRecord) : go (W * GatewayContext * SmartRoutingRecord * option goerror) :=
  match models with
  | [] => Ret (w, g, rec, Some lastErr)
  | model :: rest =>
      match sd_ctx_err r w with
      | Some e => Ret (w, g, rec, Some e)
      | None =>
          if bool_decide (model ∈ seen) then smart_loop pipe acc req judged rest seen lastErr now w g rec
          else
            let seen := {[model]} ∪ seen in
            let! res := newChild w g model (RawBody g) req (sp_auth pipe) now in
            match res with
            | (w, inr (reason, e)) => smart_loop pipe acc req judged rest seen e now w g (add_escalation rec model reason)
            | (w, inl child) =>
                let rec := if is_empty (rr_MatchedModel rec) then rec <| rr_MatchedModel := model |> else rec in
                let '(w, child, b, res) := accounting_invoke acc (sd_ctx_err r) w child newSmartResponseBuffer (sp_SelectInvoker pipe child) in
                if bool_decide (is_Some (cl_admission res)) || bool_decide (is_Some (cl_settlement res)) then Ret (w, g, rec, result_err res)
                else
                  let rec := rec <| rr_ExecutedModel := model |> in
                  let g := g <| History := History g ++ History child |> <| AttemptCount := wrap64 (AttemptCount g + AttemptCount child) |>
                             <| FallbackChain := FallbackChain g ++ [model] |> in
                  match result_err res with
                  | None => Ret (w, copySmartAnswer g child b, rec, None)
                  | Some err =>
                      let rec := add_escalation rec model "target_unavailable" in
                      if negb judged || negb (smartRetryable (sd_ctx_err r w) child err) then Ret (w, g, rec, Some err)
                      else smart_loop pipe acc req judged rest seen err now w g rec
                  end
            end
      end
  end.

Definition millis (d : Duration) : Z := Z.quot d Millisecond.

(** The targets from a range on, or all of them from the top. *)
Definition targets (cfg : SmartRoutingConfig) (start : option nat) : list string :=
  match start with
  | Some i => drop i (map sg_Model (sc_Ranges cfg))
  | None => rev (map sg_Model (sc_Ranges cfg))
  end.

(** After the verdict of the judge. *)
Definition dispatch (pipe : SmartPipeline) (acc : filter * filter) (req : smartRequest) (cfg : SmartRoutingConfig) (verdict : Z + judge_error) (now : Time)
  (w : W) (g : GatewayContext) (rec : SmartRoutingRecord) : go (W * GatewayContext * SmartRoutingRecord * option goerror) :=
  let none_available := smart_error 503 "no available smart routing target" in
  match verdict with
  | inr (JudgeTerminal cause) => Ret (w, g, rec, Some cause)
  | inr (JudgeFailed _) => smart_loop pipe acc req false (targets cfg None) ∅ none_available now w g rec
  | inl score =>
      let rec := rec <| rr_Score := Some score |> in
      match smartRangeIndex (sc_Ranges cfg) score with
      | None => Ret (w, g, rec, Some (smart_error 503 "invalid smart routing partition"))
      | Some i =>
          let rec := rec <| rr_MatchedModel := default "" (map sg_Model (sc_Ranges cfg) !! i) |> in
          smart_loop pipe acc req true (targets cfg (Some i)) ∅ none_available now w g rec
      end
  end.

(** [clock 0..2]: around the judge and at the end. The flag: the request was handled. *)
Definition Smart_Invoke (clock : nat -> Time) (w : W) (g : GatewayContext) (st : option (SmartRoutingConfig * SmartRoutingRecord)) (pipe : SmartPipeline) :
  go (W * GatewayContext * option (SmartRoutingConfig * SmartRoutingRecord) * (bool * option goerror)) :=
  match st with
  | None => Ret (w, g, None, (false, None))
  | Some (cfg, rec) =>
      let finish (w : W) (g : GatewayContext) (rec : SmartRoutingRecord) (err : option goerror) :=
        Ret (w, g, Some (cfg, rec <| rr_DurationMs := millis (time_Sub (clock 2%nat) (StartTime g)) |>), (true, err)) in
      match sd_ctx_err r w with
      | Some e => finish w g rec (Some e)
      | None =>
          match parseSmartRequest (RequestType g) (RawBody g) with
          | inr e => finish w g rec (Some e)
          | inl req =>
              match childAccounting pipe with
              | inr e => finish w g rec (Some e)
              | inl acc =>
                  let! res := classify w g cfg req (sp_auth pipe) acc (clock 0%nat) in
                  let '(w, (verdict, reason, usage)) := res in
                  let rec := rec <| rr_JudgeDurationMs := millis (time_Sub (clock 1%nat) (clock 0%nat)) |> <| rr_JudgeUsage := usage |> in
                  match sd_ctx_err r w with
                  | Some e => finish w g rec (Some e)
                  | None =>
                      let! res := dispatch pipe acc req cfg verdict (clock 1%nat) w g (rec <| rr_Reason := reason |>) in
                      let '(w, g, rec, err) := res in finish w g rec err
                  end
              end
          end
      end
  end.
End smart.

(** * Which models are called *)

Section escalation.
Context {W : Type} (r : @SmartRouterDeps W) (J : JsonLib) (marshal : string -> string + goerror) (pipe : @SmartPipeline W).
(** The models a user may call, as the validator sees it. *)
Context (allowed : string -> string -> string -> bool)
  (Hallowed : forall w m t u, snd (sd_validate r w m t u) = inl true -> allowed m t u = true).

Definition smart_tenant (g : GatewayContext) : string := if is_empty (Tenant g) then UserTenant g else Tenant g.

Lemma newChild_allowed w g model body req auth now w' child :
  newChild r J w g model body req auth now = Ret (w', inl child) -> allowed model (smart_tenant g) (UserID g) = true.
Proof.
  unfold newChild. fold (smart_tenant g). pose proof (Hallowed w model (smart_tenant g) (UserID g)) as H.
  destruct (sd_validate r w model (smart_tenant g) (UserID g)) as [w1 [[|]|]]; [intros _; by apply H|done|done].
Qed.

Lemma go_bind_ret {A B} (e : go A) (k : A -> go B) b : go_bind e k = Ret b -> exists a, e = Ret a /\ k a = Ret b.
Proof. destruct e as [a|]; [|done]. intros H. by exists a. Qed.

Definition same_user (g g' : GatewayContext) : Prop := Tenant g' = Tenant g /\ UserTenant g' = UserTenant g /\ UserID g' = UserID g.

Lemma copySmartAnswer_keeps g child b : FallbackChain (copySmartAnswer marshal g child b) = FallbackChain g.
Proof. unfold copySmartAnswer. repeat split_match; done. Qed.

Lemma smart_loop_spec acc req judged now : forall models seen lastErr w g rec w' g' rec' err,
  smart_loop r J marshal pipe acc req judged models seen lastErr now w g rec = Ret (w', g', rec', err) ->
  exists tried, FallbackChain g' = FallbackChain g ++ tried /\ sublist tried models /\ NoDup tried /\
    Forall (fun m => m ∉ seen /\ allowed m (smart_tenant g) (UserID g) = true) tried /\ (judged = false -> (length tried <= 1)%nat) /\
    rr_Score rec' = rr_Score rec /\ (err = None -> last tried = Some (rr_ExecutedModel rec')).
Proof.
  assert (forall g models, exists tried, FallbackChain g = FallbackChain g ++ tried /\ sublist tried models /\ NoDup tried /\ tried = []) as Stop.
  { intros g models. exists []. rewrite app_nil_r. split_and!; [done|apply sublist_nil_l|constructor|done]. }
  induction models as [|model models IH]; intros seen lastErr w g rec w' g' rec' err; cbn [smart_loop].
  { intros [= <- <- <- <-]. destruct (Stop g []) as (tried & E1 & E2 & E3 & ->). exists []. split_and!; try done. intros _. cbn. lia. }
  destruct (sd_ctx_err r w) as [e|]. { intros [= <- <- <- <-]. destruct (Stop g (model :: models)) as (tried & E1 & E2 & E3 & ->). exists []. split_and!; try done. intros _. cbn. lia. }
  destruct (bool_decide (model ∈ seen)) eqn:Sn.
  { intros H. apply IH in H as (tried & H1 & H2 & H). exists tried. split_and!; [done|by apply sublist_cons|apply H..]. }
  apply bool_decide_eq_false in Sn. intros H. apply go_bind_ret in H as ([w1 [child|[reason e]]] & Nc & H).
  2: { apply IH in H as (tried & H1 & H2 & H3 & H4 & H5 & H6 & H7). exists tried. split_and!; [done|by apply sublist_cons|done| |done|done|done].
       eapply Forall_impl; [exact H4|]. cbn. intros m [A B]. split; [set_solver|done]. }
  apply newChild_allowed in Nc as Al. cbn zeta in H.
  set (rec1 := if is_empty (rr_MatchedModel rec) then _ else rec) in H. assert (rr_Score rec1 = rr_Score rec) as S1 by (unfold rec1; by destruct (is_empty _)).
  destruct (accounting_invoke acc (sd_ctx_err r) w1 child newSmartResponseBuffer (sp_SelectInvoker pipe child)) as [[[w2 child2] b] res].
  destruct (_ || _) eqn:Adm.
  { injection H as <- <- <- <-. destruct (Stop g (model :: models)) as (tried & E1 & E2 & E3 & ->). exists []. split_and!; try done; [intros _; cbn; lia|].
    unfold result_err. apply orb_true_iff in Adm as [Q|Q]; apply bool_decide_eq_true in Q as [e Q]; destruct (cl_settlement res), (cl_admission res); done. }
  destruct (result_err res) as [e|].
  - destruct (negb judged || _) eqn:Nr.
    + injection H as <- <- <- <-. exists [model]. split_and!; [done|apply sublist_skip, sublist_nil_l|apply NoDup_singleton|by apply Forall_singleton|intros _; cbn; lia|done|done].
    + apply orb_false_iff in Nr as [Jd _]. apply negb_false_iff in Jd.
      apply IH in H as (tried & H1 & H2 & H3 & H4 & H5 & H6 & H7). exists (model :: tried). split_and!; [by rewrite H1; cbn; rewrite <- app_assoc|by apply sublist_skip| |constructor; [done|]| | |].
      * apply NoDup_cons. split; [|done]. intros Hin. rewrite Forall_forall in H4. destruct (H4 _ Hin) as [Q _]. set_solver.
      * eapply Forall_impl; [exact H4|]. cbn. intros m [A B]. split; [set_solver|done].
      * intros ->. done.
      * by rewrite H6.
      * intros Q. specialize (H7 Q). rewrite last_cons. by rewrite H7.
  - injection H as <- <- <- <-. exists [model]. rewrite copySmartAnswer_keeps. split_and!; [done|apply sublist_skip, sublist_nil_l|apply NoDup_singleton|by apply Forall_singleton|intros _; cbn; lia|done|done].
Qed.

Lemma classify_score w g cfg req auth acc now w' score reason usage :
  classify r J marshal w g cfg req auth acc now = Ret (w', (inl score, reason, usage)) -> 0 <= score <= 100.
Proof.
  unfold classify. destruct (buildSmartJudgeRequest req cfg) as [body|]; [|done]. destruct (parseSmartRequest _ body) as [jreq|]; [|done].
  intros H. apply go_bind_ret in H as ([w1 [child|[reason' e]]] & _ & H); [|done]. cbn zeta in H.
  destruct (accounting_invoke _ _ _ _ _ _) as [[[w2 child2] b] res]. destruct (cl_settlement res), (cl_admission res), (cl_invoke_err res); try done.
  injection H as _ H. unfold read_judgment in H. destruct (smartResponseBytes marshal child2 b) as [data|]; [|done]. destruct (_ <? _); [done|].
  destruct (Unmarshal _ _ data) as [rep|]; [|done]. destruct (jr_Choices rep) as [|c [|? ?]]; [done| |done]. destruct (seqb _ "length"); [done|].
  destruct (parseSmartScore (jc_Content c)) as [[s rs]|] eqn:P; [|done]. injection H as <- _ _. by apply smart_score_safe in P as [? _].
Qed.
End escalation.

Lemma range_index_valid cfg model score : Smart_Validate (Some cfg) model = None -> 0 <= score <= 100 -> exists i, smartRangeIndex (sc_Ranges cfg) score = Some i.
Proof.
  intros Hv Hs. destruct (validate_chain cfg model Hv) as [C L]. destruct (range_index_total (sc_Ranges cfg) 0 score 0 C) as (i & ? & E & _); [by intros Q; rewrite Q in L; cbn in L; lia|lia|].
  by exists i.
Qed.

(** What [Prepare] leaves for [Smart_Invoke]: a valid configuration and a fresh record. *)
Lemma Prepare_ready {W} (r : @SmartRouterDeps W) w g w' g' cfg rec err : Prepare r w g = (w', g', Some (cfg, rec), err) ->
  Smart_Validate (Some cfg) (Model g') = None /\ rr_Score rec = None /\ Sensitive g' = true /\ TrackLimitReservations g' = true.
Proof.
  unfold Prepare. destruct (sd_source r w (Model g)) as [w1 [[c|]|]]; [|done|done]. destruct (Smart_Validate _ _) eqn:V; [done|].
  destruct (parseSmartRequest _ _); [|done]. by intros [= <- <- <- <- <-].
Qed.

(** C29: a request to a smart model is answered by models the caller may use, each called
    at most once, and never by a weaker one than needed: with a score, the models called are
    targets of the matched range or above, in ascending order; without one (the judge failed) at most one target is
    called. The answer recorded as executed is the last model called. (The models called are those of
    the fallback chain; a model whose settlement failed is not entered there.) *)
Theorem smart_escalates_upwards {W : Type} (r : @SmartRouterDeps W) (J : JsonLib) (marshal : string -> string + goerror) (pipe : @SmartPipeline W)
  (allowed : string -> string -> string -> bool) (clock : nat -> Time) (w w' : W) (g g' : GatewayContext) (cfg : SmartRoutingConfig) (rec : SmartRoutingRecord)
  (st' : option (SmartRoutingConfig * SmartRoutingRecord)) (handled : bool) (err : option goerror)
  (Hallowed : forall w m t u, snd (sd_validate r w m t u) = inl true -> allowed m t u = true)
  (Hvalid : Smart_Validate (Some cfg) (Model g) = None) (Hfresh : rr_Score rec = None)
  (Hrun : Smart_Invoke r J marshal clock w g (Some (cfg, rec)) pipe = Ret (w', g', st', (handled, err))) :
  handled = true /\ exists rec' tried, st' = Some (cfg, rec') /\ FallbackChain g' = FallbackChain g ++ tried /\ NoDup tried /\
    Forall (fun m => allowed m (smart_tenant g) (UserID g) = true) tried /\
    match rr_Score rec' with
    | Some score => exists i, smartRangeIndex (sc_Ranges cfg) score = Some i /\ sublist tried (drop i (map sg_Model (sc_Ranges cfg)))
    | None => (length tried <= 1)%nat /\ forall m, m ∈ tried -> m ∈ map sg_Model (sc_Ranges cfg)
    end /\ (err = None -> last tried = Some (rr_ExecutedModel rec')).
Proof.
  unfold Smart_Invoke in Hrun.
  assert (forall w1 rec1 e, Ret (w1, g, Some (cfg, rec1 <| rr_DurationMs := millis (time_Sub (clock 2%nat) (StartTime g)) |>), (true, Some e)) = Ret (w', g', st', (handled, err)) ->
    rr_Score rec1 = None -> handled = true /\ exists rec' tried, st' = Some (cfg, rec') /\ FallbackChain g' = FallbackChain g ++ tried /\ NoDup tried /\
    Forall (fun m => allowed m (smart_tenant g) (UserID g) = true) tried /\
    match rr_Score rec' with
    | Some score => exists i, smartRangeIndex (sc_Ranges cfg) score = Some i /\ sublist tried (drop i (map sg_Model (sc_Ranges cfg)))
    | None => (length tried <= 1)%nat /\ forall m, m ∈ tried -> m ∈ map sg_Model (sc_Ranges cfg)
    end /\ (err = None -> last tried = Some (rr_ExecutedModel rec'))) as Early.
  { intros w1 rec1 e [= <- <- <- <- <-] S1. split; [done|]. eexists _, []. rewrite app_nil_r. split_and!; [done|done|constructor|done| |done]. cbn. rewrite S1. split; [lia|set_solver]. }
  destruct (sd_ctx_err r w) as [e|]; [by apply (Early _ _ _ Hrun)|]. destruct (parseSmartRequest (RequestType g) (RawBody g)) as [req|e]; [|by apply (Early _ _ _ Hrun)].
  destruct (childAccounting r pipe) as [acc|e]; [|by apply (Early _ _ _ Hrun)]. apply go_bind_ret in Hrun as ([w1 [[verdict reason] usage]] & Cl & Hrun).
  destruct (sd_ctx_err r w1) as [e|]; [by apply (Early _ _ _ Hrun)|]. apply go_bind_ret in Hrun as ([[[w2 g2] rec2] err2] & Di & Hrun). injection Hrun as <- <- <- <- <-.
  split; [done|]. unfold dispatch in Di. destruct verdict as [score|[e|cause]].
  - apply classify_score in Cl. destruct (range_index_valid cfg (Model g) score Hvalid Cl) as [i Ei]. rewrite Ei in Di.
    destruct (smart_loop_spec r J marshal pipe allowed Hallowed _ _ _ _ _ _ _ _ _ _ _ _ _ _ Di) as (tried & H1 & H2 & H3 & H4 & _ & H6 & H7).
    eexists _, tried. split_and!; [done|done|done|eapply Forall_impl; [exact H4|]; by intros m []| |done]. cbn [rr_Score]. cbn in H6. rewrite H6. by exists i.
  - destruct (smart_loop_spec r J marshal pipe allowed Hallowed _ _ _ _ _ _ _ _ _ _ _ _ _ _ Di) as (tried & H1 & H2 & H3 & H4 & H5 & H6 & H7).
    eexists _, tried. split_and!; [done|done|done|eapply Forall_impl; [exact H4|]; by intros m []| |done]. cbn in H6. rewrite Hfresh in H6. cbn. rewrite H6. split; [by apply H5|].
    intros m Hm. apply (elem_of_sublist _ _ _ Hm) in H2 as Hm'. clear Hm. rename Hm' into Hm. unfold targets in Hm. by rewrite list_elem_of_In, <- in_rev, <- list_elem_of_In in Hm.
  - injection Di as <- <- <- <-. eexists _, []. rewrite app_nil_r. split_and!; [done|done|constructor|done| |done]. cbn. rewrite Hfresh. split; [lia|set_solver].
Qed.

(** A request that scores 50; the first target called is down, the next one answers. *)
Definition demo_target : target := TCluster [] (fun _ (w : unit) g b =>
  if seqb (Model g) "judge" then
    (w, g, fst (Buffer_Write b (json_text "{'choices':[{'message':{'content':'{\'score\':50,\'uncertain\':false,\'reason_code\':\'multi_step\'}'},'finish_reason':'stop'}]}")), None)
  else if seqb (Model g) "medium" then (w, g, b, Some (errorf "connection refused"))
  else (w, g, fst (Buffer_Write b "answer"), None)).
Definition demo_smart_ep : Endpoint := mkEndpoint "e" "e" "" "p" "" "m" "" ∅ 1 0 ["chat_completion"] true true ∅ "" "" "openai" 0 0 None None None None.
Definition demo_deps : @SmartRouterDeps unit :=
  let ok : unit -> GatewayContext -> unit * GatewayContext * option goerror := fun w g => (w, g, None) in
  mkSmartDeps (fun w _ => (w, inl None)) (fun w _ _ u => (w, inl (seqb u "alice"))) None (fun w _ => (w, inl [demo_smart_ep])) demo_target (Some ok) (Some ok)
    (fun _ => None) (fun _ => None).
Definition demo_smart_ctx : GatewayContext :=
  (AcquireContext emptyContext (mkRequest ∅ (Some ∅) []) zeroTime) <| Model := "smart" |> <| UserID := "alice" |> <| RequestType := RequestTypeChatCompletion |>
    <| RawBody := json_text "{'model':'smart','messages':[{'role':'user','content':'prove it'}]}" |>.
Definition demo_pipe : @SmartPipeline unit := mkSmartPipeline None None None (fun _ => demo_target).
Definition demo_json : JsonLib := mkJsonLib (fun _ => None) (fun _ => None) (fun s => s).
Definition demo_record : SmartRoutingRecord := mkSmartRecord "smart" 1 smartPromptVersion "judge" None "" "" "" [] 0 0 None.
Definition demo_smart_run := Smart_Invoke demo_deps demo_json inl (fun _ => zeroTime) tt demo_smart_ctx (Some (ApplyDefaults demo_smart, demo_record)) demo_pipe.
Definition demo_smart_out := match demo_smart_run with Ret x => x | Panic => (tt, demo_smart_ctx, None, (false, None)) end.
Lemma smart_escalates_upwards_witness :
  let '(_, g', st', (handled, err)) := demo_smart_out in
  FallbackChain g' = ["medium"; "large"] /\
  handled = true /\ exists rec' tried, st' = Some (ApplyDefaults demo_smart, rec') /\ FallbackChain g' = FallbackChain demo_smart_ctx ++ tried /\ NoDup tried /\
    Forall (fun m => seqb "alice" "alice" = true) tried /\
    match rr_Score rec' with
    | Some score => exists i, smartRangeIndex (sc_Ranges (ApplyDefaults demo_smart)) score = Some i /\ sublist tried (drop i (map sg_Model (sc_Ranges (ApplyDefaults demo_smart))))
    | None => (length tried <= 1)%nat /\ forall m, m ∈ tried -> m ∈ map sg_Model (sc_Ranges (ApplyDefaults demo_smart))
    end /\ (err = None -> last tried = Some (rr_ExecutedModel rec')).
Proof.
  assert (demo_smart_run = Ret demo_smart_out) as Hrun by (vm_compute; reflexivity).
  assert (FallbackChain (demo_smart_out.1.1.2) = ["medium"; "large"]) as Hc by (vm_compute; reflexivity).
  revert Hc Hrun. generalize demo_smart_out. intros [[[w' g'] st'] [handled err]] Hc Hrun. split; [exact Hc|].
  exact (smart_escalates_upwards demo_deps demo_json inl demo_pipe (fun _ _ u => seqb u "alice") (fun _ => zeroTime) tt w' demo_smart_ctx g' (ApplyDefaults demo_smart)
    demo_record st' handled err ltac:(intros w m t u H; cbn in H; injection H as H; exact H) ltac:(vm_compute; reflexivity) eq_refl Hrun).
Defined.
