(* ===== verification/Cache.v ===== *)
(** The two-level cache of pkg/store/cache.go: answers that are valid, and refusals, each in an
    LRU cache whose entries expire.

    The LRU cache is the library hashicorp/golang-lru: the class [ExpirableLRU] states what the
    callers rely on, the instance [assoc_lru] (an association list, the last used entry in front) shows that it can be met. *)

From S2P Require Import Prelude.

(** * The LRU cache of the library *)

(** Keys are strings, as everywhere in the program.  A lookup moves the entry to the front,
    so it returns the cache too. *)
Class ExpirableLRU (L : Type -> Type) := {
  lru_New {V} : Z -> Duration -> L V;
  lru_Get {V} : L V -> Time -> string -> L V * option V;
  lru_Add {V} : L V -> Time -> string -> V -> L V;
  lru_Remove {V} : L V -> string -> L V;
  lru_Purge {V} : L V -> L V;
  lru_ttl {V} : L V -> Duration;
  (** [lru_entry c k v t]: the cache holds [v] for [k], added at [t] *)
  lru_entry {V} : L V -> string -> V -> Time -> Prop
}.

(** The library may drop an entry at any addition (capacity), never change or invent one. *)
Class ExpirableLRULaws (L : Type -> Type) `{ExpirableLRU L} := {
  lru_New_entry {V} cap ttl k (v : V) t : ~ lru_entry (lru_New cap ttl) k v t;
  lru_New_ttl {V} cap ttl : lru_ttl (lru_New (V := V) cap ttl) = ttl;
  lru_Get_some {V} (c : L V) now k v : snd (lru_Get c now k) = Some v -> exists t, lru_entry c k v t /\ now <= t + lru_ttl c;
  lru_Get_entry {V} (c : L V) now k k' v t : lru_entry (fst (lru_Get c now k)) k' v t -> lru_entry c k' v t;
  lru_Get_ttl {V} (c : L V) now k : lru_ttl (fst (lru_Get c now k)) = lru_ttl c;
  lru_Add_entry {V} (c : L V) now k v k' v' t : lru_entry (lru_Add c now k v) k' v' t -> k' = k /\ v' = v /\ t = now \/ k' <> k /\ lru_entry c k' v' t;
  lru_Add_ttl {V} (c : L V) now k v : lru_ttl (lru_Add c now k v) = lru_ttl c;
  lru_Add_Get {V} (c : L V) now now' k v : now <= now' <= now + lru_ttl c -> snd (lru_Get (lru_Add c now k v) now' k) = Some v;
  lru_Remove_entry {V} (c : L V) k k' v t : lru_entry (lru_Remove c k) k' v t -> k' <> k /\ lru_entry c k' v t;
  lru_Remove_ttl {V} (c : L V) k : lru_ttl (lru_Remove c k) = lru_ttl c;
  lru_Purge_entry {V} (c : L V) k v t : ~ lru_entry (lru_Purge c) k v t;
  lru_Purge_ttl {V} (c : L V) : lru_ttl (lru_Purge c) = lru_ttl c
}.

(** ** An instance *)

Record assoc_lru (V : Type) := mkAssoc { al_cap : Z; al_ttl : Duration; al_items : list (string * (V * Time)) }.
Arguments mkAssoc {V}. Arguments al_cap {V}. Arguments al_ttl {V}. Arguments al_items {V}.

Section assoc.
Context {V : Type}.
Implicit Types (c : assoc_lru V) (l : list (string * (V * Time))).

Definition al_drop (k : string) l : list (string * (V * Time)) := List.filter (fun x => negb (bool_decide (fst x = k))) l.
Definition al_find (k : string) l : option (V * Time) := snd <$> List.find (fun x => bool_decide (fst x = k)) l.
(** A capacity of 0 is no limit. *)
Definition al_cut (cap : Z) l : list (string * (V * Time)) := if 0 <? cap then take (Z.to_nat cap) l else l.
Definition al_with c l : assoc_lru V := mkAssoc (al_cap c) (al_ttl c) l.

Definition al_Get c (now : Time) (k : string) : assoc_lru V * option V :=
  match al_find k (al_items c) with
  | Some (v, t) => if now <=? t + al_ttl c then (al_with c ((k, (v, t)) :: al_drop k (al_items c)), Some v) else (c, None)
  | None => (c, None)
  end.
Definition al_Add c (now : Time) (k : string) (v : V) : assoc_lru V := al_with c (al_cut (al_cap c) ((k, (v, now)) :: al_drop k (al_items c))).

Lemma al_find_in k l x : al_find k l = Some x -> (k, x) ∈ l.
Proof.
  unfold al_find. destruct (List.find _ l) as [[k' x']|] eqn:F; [|done]. intros [= <-]. apply find_some in F as [F E].
  apply bool_decide_eq_true in E. cbn in E. subst k'. by apply list_elem_of_In.
Qed.

Lemma al_drop_in k l k' x : (k', x) ∈ al_drop k l -> k' <> k /\ (k', x) ∈ l.
Proof.
  unfold al_drop. rewrite !list_elem_of_In. intros I. apply filter_In in I as [I E]. split; [|done].
  apply negb_true_iff, bool_decide_eq_false in E. done.
Qed.

Lemma al_cut_in cap l x : x ∈ al_cut cap l -> x ∈ l.
Proof. unfold al_cut. destruct (0 <? cap); [|done]. intros I. by apply (elem_of_sublist _ _ _ I), sublist_take. Qed.
End assoc.

#[global] Instance assoc_ops : ExpirableLRU assoc_lru := {
  lru_New V cap ttl := mkAssoc cap ttl [];
  lru_Get V := al_Get;
  lru_Add V := al_Add;
  lru_Remove V c k := al_with c (al_drop k (al_items c));
  lru_Purge V c := al_with c [];
  lru_ttl V := al_ttl;
  lru_entry V c k v t := (k, (v, t)) ∈ al_items c
}.

#[global] Instance assoc_laws : ExpirableLRULaws assoc_lru.
Proof.
  split; cbn; intros V.
  - set_solver.
  - done.
  - intros c now k v. unfold al_Get. destruct (al_find k (al_items c)) as [[v' t]|] eqn:F; [|done]. destruct (now <=? t + al_ttl c) eqn:L; [|done].
    intros [= <-]. exists t. apply Z.leb_le in L. split; [by apply al_find_in|done].
  - intros c now k k' v t. unfold al_Get. destruct (al_find k (al_items c)) as [[v' t']|] eqn:F; [|done]. destruct (now <=? _); [|done]. cbn.
    intros I. apply elem_of_cons in I as [[= -> -> ->]|I]; [by apply al_find_in|by apply al_drop_in in I as [_ I]].
  - intros c now k. unfold al_Get. by repeat split_match.
  - intros c now k v k' v' t I. apply al_cut_in, elem_of_cons in I as [[= -> -> ->]|I]; [by left|]. right. by apply al_drop_in.
  - done.
  - intros c now now' k v [L1 L2]. unfold al_Get, al_Add. cbn [al_items al_with al_ttl].
    assert (exists r, al_cut (al_cap c) ((k, (v, now)) :: al_drop k (al_items c)) = (k, (v, now)) :: r) as [r ->].
    { unfold al_cut. destruct (0 <? al_cap c) eqn:Z0; [|by eexists]. apply Z.ltb_lt in Z0. destruct (Z.to_nat (al_cap c)) eqn:N; [lia|]. by eexists. }
    unfold al_find. cbn [List.find fst]. rewrite bool_decide_eq_true_2 by done. cbn. destruct (now' <=? now + al_ttl c) eqn:L; [done|]. apply Z.leb_gt in L. lia.
  - intros c k k' v t I. by apply al_drop_in in I.
  - done.
  - set_solver.
  - done.
Qed.

(** * cache.go *)

Section cache.
Context {L : Type -> Type} `{!ExpirableLRU L}.

Record ExpirableCache (V : Type) := mkCache { validCache : L V; invalidCache : L string }.
Arguments mkCache {V}. Arguments validCache {V}. Arguments invalidCache {V}.

Context {V : Type}.
Implicit Type c : ExpirableCache V.

Definition NewExpirableCache (validCap : Z) (validTTL : Duration) (invalidCap : Z) (invalidTTL : Duration) : ExpirableCache V :=
  mkCache (lru_New validCap validTTL) (lru_New invalidCap invalidTTL).

(** A refusal, a value, or nothing. *)
Definition cache_Get c (now : Time) (key : string) : ExpirableCache V * option (V + string) :=
  match lru_Get (invalidCache c) now key with
  | (i, Some msg) => (mkCache (validCache c) i, Some (inr msg))
  | (i, None) => let '(v, x) := lru_Get (validCache c) now key in (mkCache v i, inl <$> x)
  end.

Definition cache_AddValid c (now : Time) (key : string) (val : V) : ExpirableCache V := mkCache (lru_Add (validCache c) now key val) (invalidCache c).
Definition cache_AddInvalid c (now : Time) (key msg : string) : ExpirableCache V := mkCache (validCache c) (lru_Add (invalidCache c) now key msg).
Definition cache_Remove c (key : string) : ExpirableCache V := mkCache (lru_Remove (validCache c) key) (lru_Remove (invalidCache c) key).
Definition cache_Purge c : ExpirableCache V := mkCache (lru_Purge (validCache c)) (lru_Purge (invalidCache c)).

(** * What the cache answers *)

(** The answers in the cache were given: [ok t k v] - the value [v] for [k] was right at [t]
    - and [refused t k msg]. *)
Context `{!ExpirableLRULaws L}.

Record cache_inv (vttl ittl : Duration) (ok : Time -> string -> V -> Prop) (refused : Time -> string -> string -> Prop) c : Prop := mkCacheInv {
  ci_ok k v t : lru_entry (validCache c) k v t -> ok t k v;
  ci_refused k m t : lru_entry (invalidCache c) k m t -> refused t k m;
  ci_vttl : lru_ttl (validCache c) = vttl;
  ci_ittl : lru_ttl (invalidCache c) = ittl
}.

Context {vttl ittl : Duration} {ok : Time -> string -> V -> Prop} {refused : Time -> string -> string -> Prop}.
#[local] Abbreviation inv := (cache_inv vttl ittl ok refused).

Lemma New_inv vc ic : inv (NewExpirableCache vc vttl ic ittl).
Proof. split; cbn; intros; [exfalso; by eapply lru_New_entry|exfalso; by eapply lru_New_entry|apply lru_New_ttl|apply lru_New_ttl]. Qed.

Lemma Get_inv c now k : inv c -> inv (fst (cache_Get c now k)).
Proof.
  intros [A B C D]. unfold cache_Get. pose proof (fun k' v t => lru_Get_entry (invalidCache c) now k k' v t) as Ei. pose proof (lru_Get_ttl (invalidCache c) now k) as Ti.
  destruct (lru_Get (invalidCache c) now k) as [i [msg|]]; cbn in *; [by split; cbn; eauto; congruence|].
  pose proof (fun k' v t => lru_Get_entry (validCache c) now k k' v t) as Ev. pose proof (lru_Get_ttl (validCache c) now k) as Tv.
  destruct (lru_Get (validCache c) now k) as [v x]. cbn in *. split; cbn; eauto; congruence.
Qed.

(** A cached answer is at most as old as its time to live. *)
Lemma Get_valid c now k v : inv c -> snd (cache_Get c now k) = Some (inl v) -> exists t, ok t k v /\ now <= t + vttl.
Proof.
  intros [A B C D]. unfold cache_Get. destruct (lru_Get (invalidCache c) now k) as [i [msg|]]; [done|].
  pose proof (lru_Get_some (validCache c) now k) as Ev. destruct (lru_Get (validCache c) now k) as [c' [x|]]; [|done]. cbn. intros [= ->].
  destruct (Ev v eq_refl) as (t & E & L1). exists t. rewrite C in L1. eauto.
Qed.

Lemma Get_refused c now k m : inv c -> snd (cache_Get c now k) = Some (inr m) -> exists t, refused t k m /\ now <= t + ittl.
Proof.
  intros [A B C D]. unfold cache_Get. pose proof (lru_Get_some (invalidCache c) now k) as Ev. destruct (lru_Get (invalidCache c) now k) as [i [msg|]].
  - cbn. intros [= ->]. destruct (Ev m eq_refl) as (t & E & L1). exists t. rewrite D in L1. eauto.
  - by destruct (lru_Get (validCache c) now k) as [c' [x|]].
Qed.

Lemma AddValid_inv c now k v : inv c -> ok now k v -> inv (cache_AddValid c now k v).
Proof.
  intros [A B C D] O. split; cbn; eauto; [|by rewrite lru_Add_ttl].
  intros k' v' t E. apply lru_Add_entry in E as [(-> & -> & ->)|[_ E]]; eauto.
Qed.

Lemma AddInvalid_inv c now k m : inv c -> refused now k m -> inv (cache_AddInvalid c now k m).
Proof.
  intros [A B C D] O. split; cbn; eauto; [|by rewrite lru_Add_ttl].
  intros k' v' t E. apply lru_Add_entry in E as [(-> & -> & ->)|[_ E]]; eauto.
Qed.

Lemma Purge_inv c : inv c -> inv (cache_Purge c).
Proof. intros [A B C D]. split; cbn; try by rewrite lru_Purge_ttl. all: intros ??? E; by apply lru_Purge_entry in E. Qed.
End cache.
Arguments ExpirableCache L V : clear implicits.
Arguments mkCache {L V}. Arguments validCache {L V}. Arguments invalidCache {L V}.

(** After a key is removed, what is said of it holds again only of answers that are added
    from then on; the other keys keep theirs. *)
Section removal.
Context {L : Type -> Type} `{!ExpirableLRU L} `{!ExpirableLRULaws L} {V : Type}.

Lemma Remove_inv vttl ittl (ok ok' : Time -> string -> V -> Prop) (refused refused' : Time -> string -> string -> Prop) (c : ExpirableCache L V) k :
  cache_inv vttl ittl ok refused c -> (forall k' t v, k' <> k -> ok t k' v -> ok' t k' v) -> (forall k' t m, k' <> k -> refused t k' m -> refused' t k' m) ->
  cache_inv vttl ittl ok' refused' (cache_Remove c k).
Proof.
  intros [A B C D] Ho Hr. split; cbn; try by rewrite lru_Remove_ttl. all: intros ??? E; apply lru_Remove_entry in E as [N E]; eauto.
Qed.

Lemma cache_inv_mono vttl ittl (ok ok' : Time -> string -> V -> Prop) (refused refused' : Time -> string -> string -> Prop) (c : ExpirableCache L V) :
  cache_inv vttl ittl ok refused c -> (forall k t v, ok t k v -> ok' t k v) -> (forall k t m, refused t k m -> refused' t k m) -> cache_inv vttl ittl ok' refused' c.
Proof. intros [A B C D] Ho Hr. split; eauto. Qed.
End removal.
