(* ===== verification/ApiKeys.v ===== *)
(** API keys: internal/service/apikey.go, the in-memory key table of pkg/config/http_provider.go and the
    key records of pkg/config/redis_provider.go.

    [ValidateKey] and the calls built on it are given twice: as functions, for a caller that is alone, with a provider that
    is a function of the time; and as threads that go through the same code one access to the shared
    caches or to the provider at a time, in any interleaving ([key_thread_step]). *)

From Stdlib Require Import Ascii.
From S2P Require Import Prelude GoFloat GoStrings GoTime GoJson GoPrint Matcher Policy Types Context Http Cache.

(** * Data *)

Record HTTPApiKeyItem := mkKeyItem {
  hk_APIKey : string; hk_KeyID : string; hk_KeyHash : string; hk_UserID : string; hk_Tenant : string; hk_WorkspaceID : string; hk_UserTenant : string;
  hk_Status : Z; hk_Credits : Z; hk_ExpiresAt : Z
}.
#[global] Instance eta_key_item : Eta HTTPApiKeyItem := fun i =>
  mkKeyItem (hk_APIKey i) (hk_KeyID i) (hk_KeyHash i) (hk_UserID i) (hk_Tenant i) (hk_WorkspaceID i) (hk_UserTenant i) (hk_Status i) (hk_Credits i) (hk_ExpiresAt i).

Record ApiKeyInfo := mkKeyInfo {
  ki_KeyID : string; ki_KeyHash : string; ki_UserID : string; ki_Tenant : string; ki_WorkspaceID : string; ki_UserTenant : string; ki_Status : Z; ki_Credits : Z; ki_ExpiresAt : Z
}.

Definition info_of (i : HTTPApiKeyItem) : ApiKeyInfo :=
  mkKeyInfo (hk_KeyID i) (hk_KeyHash i) (hk_UserID i) (hk_Tenant i) (hk_WorkspaceID i) (hk_UserTenant i) (hk_Status i) (hk_Credits i) (hk_ExpiresAt i).

(** [time.Time.Unix]. *)
Definition Unix (t : Time) : Z := (t - 62135596800 * Second) / Second.

(** * apikey.go *)

Section service.
Context {L : Type -> Type} `{!ExpirableLRU L}.
Context (GetApiKey : Time -> string -> HTTPApiKeyItem + goerror) (Deduct : Time -> string -> Z -> Z + goerror).

Definition ApiKeyService : Type := ExpirableCache L ApiKeyInfo.
Implicit Type s : ApiKeyService.

Definition NewApiKeyService : ApiKeyService := NewExpirableCache 10000 (30 * Second) 5000 (10 * Second).

(** [apiKey[:8]] panics on a shorter key. *)
Definition key_prefix (apiKey : string) : go string := if (String.length apiKey <? 8)%nat then Panic else Ret (string_take 8 apiKey).

(** What [ValidateKey] does with the answer of the provider. *)
Definition keep_answer s (now : Time) (apiKey : string) (answer : HTTPApiKeyItem + goerror) : go (ApiKeyService * (ApiKeyInfo + goerror)) :=
  let refuse errMsg := Ret (cache_AddInvalid s now apiKey errMsg, inr (errorf errMsg)) in
  match answer with
  | inr _ => go_bind (key_prefix apiKey) (fun _ => refuse "invalid API key")
  | inl item =>
      let info := info_of item in
      if negb (ki_Status info =? 1) then refuse "API key has been disabled"
      else if (0 <? ki_ExpiresAt info) && (ki_ExpiresAt info <? Unix now) then refuse "API key has expired"
      else Ret (cache_AddValid s now apiKey info, inl info)
  end.

(** A refusal without a message would be a nil record, which every caller dereferences. *)
Definition cached_refusal (errMsg : string) : go (ApiKeyInfo + goerror) := if is_empty errMsg then Panic else Ret (inr (errorf errMsg)).

(** A call with nothing in between: cache, provider and cache again at one instant. *)
Definition ValidateKey s (now : Time) (apiKey : string) : go (ApiKeyService * (ApiKeyInfo + goerror)) :=
  match cache_Get s now apiKey with
  | (s, Some (inr errMsg)) => go_bind (cached_refusal errMsg) (fun res => Ret (s, res))
  | (s, Some (inl info)) => Ret (s, inl info)
  | (s, None) => keep_answer s now apiKey (GetApiKey now apiKey)
  end.

(** The identity of a key. *)
Record key_identity := mkIdentity { id_User : string; id_Tenant : string; id_Workspace : string; id_UserTenant : string; id_KeyID : string; id_KeyHash : string }.

Definition VerifyKey s (now : Time) (apiKey : string) : go (ApiKeyService * (key_identity + goerror)) :=
  go_bind (ValidateKey s now apiKey) (fun '(s, res) =>
    Ret (s, match res with
            | inr e => inr e
            | inl i => inl (mkIdentity (ki_UserID i) (ki_Tenant i) (ki_WorkspaceID i) (ki_UserTenant i) (ki_KeyID i) (ki_KeyHash i))
            end)).

Definition CheckCredits s (now : Time) (apiKey : string) : go (ApiKeyService * option goerror) :=
  go_bind (ValidateKey s now apiKey) (fun '(s, res) =>
    Ret (s, match res with
            | inr e => Some e
            | inl info =>
                if is_empty (ki_UserID info) then None
                else if ki_Credits info =? -1 then None
                else if ki_Credits info <=? 0 then Some (errorf "credits exceeded") else None
            end)).

(** What is not charged: tenants, and users without a limit. *)
Definition free_of_charge (info : ApiKeyInfo) : option Z :=
  if is_empty (ki_UserID info) then Some 0 else if ki_Credits info =? -1 then Some (-1) else None.

(** A call with nothing in between. *)
Definition DeductCredits s (now : Time) (apiKey : string) (credits : Z) : go (ApiKeyService * (Z + goerror)) :=
  if credits <=? 0 then Ret (s, inl 0)
  else
    go_bind (ValidateKey s now apiKey) (fun '(s, res) =>
      match res with
      | inr e => Ret (s, inr e)
      | inl info =>
          match free_of_charge info with
          | Some z => Ret (s, inl z)
          | None =>
              match Deduct now apiKey credits with
              | inr e => go_bind (key_prefix apiKey) (fun _ => Ret (s, inr e))
              | inl newCredits => Ret (cache_Remove s apiKey, inl newCredits)
              end
          end
      end).

Definition PurgeCache s : ApiKeyService := cache_Purge s.
End service.
Arguments ApiKeyService L : clear implicits.

(** * Calls that overlap *)

(** A call, as far as the service knows it: [VerifyKey] and [CheckCredits] are [ValidateKey] and code that touches nothing shared. *)
Inductive key_call := CallValidate (k : string) | CallDeduct (k : string) (credits : Z) | CallPurge.
Definition call_key (c : key_call) : string := match c with CallValidate k | CallDeduct k _ => k | CallPurge => "" end.

(** The next shared access of a call. *)
Inductive key_pc :=
| AskRefused                                            (* cache.Get: the refusals *)
| AskValid                                              (* cache.Get: the answers *)
| AskProvider                                           (* provider.GetApiKey *)
| KeepAnswer (answer : HTTPApiKeyItem + goerror)        (* the checks and AddValid or AddInvalid *)
| Charge                                                (* provider.DeductCredits *)
| RemoveValid (newCredits : Z) | RemoveRefused (newCredits : Z)   (* cache.Remove *)
| PurgeValid | PurgeRefused                             (* cache.Purge *)
| Returned (out : Z + goerror)
| Crashed.

(** A call under way: when it began, and what [ValidateKey] told it. *)
Record key_thread := mkKeyThread { kt_call : key_call; kt_begin : Time; kt_pc : key_pc; kt_res : option (ApiKeyInfo + goerror) }.
#[global] Instance eta_key_thread : Eta key_thread := fun t => mkKeyThread (kt_call t) (kt_begin t) (kt_pc t) (kt_res t).

(** What the provider was asked and when an answer left the cache. *)
Inductive key_event :=
| LogRead (t : Time) (k : string) (answer : HTTPApiKeyItem + goerror)
| LogCharged (i : nat) (t : Time) (k : string) (credits : Z)
| LogRemoved (t : Time) (k : string).

Section threads.
Context {L : Type -> Type} `{!ExpirableLRU L} {W : Type}.
Context (GetApiKey : Time -> W -> string -> W * (HTTPApiKeyItem + goerror)) (Deduct : Time -> W -> string -> Z -> W * (Z + goerror)).
Implicit Types (s : ApiKeyService L) (th : key_thread).

Definition start_call (now : Time) (c : key_call) : key_thread :=
  mkKeyThread c now (match c with CallDeduct _ n => if n <=? 0 then Returned (inl 0) else AskRefused | CallPurge => PurgeValid | CallValidate _ => AskRefused end) None.

(** [ValidateKey] returned. *)
Definition validated th (res : ApiKeyInfo + goerror) : key_thread :=
  th <| kt_res := Some res |> <| kt_pc := match kt_call th, res with
    | CallDeduct _ _, inl info => match free_of_charge info with Some z => Returned (inl z) | None => Charge end
    | _, inr e => Returned (inr e)
    | _, inl _ => Returned (inl 0)
    end |>.

Definition crashed th : key_thread := th <| kt_pc := Crashed |>.

(** One access of the call [i]. *)
Definition key_thread_step (now : Time) (i : nat) s (w : W) th : ApiKeyService L * W * list key_event * key_thread :=
  let k := call_key (kt_call th) in
  match kt_pc th with
  | AskRefused =>
      let '(c, x) := lru_Get (invalidCache s) now k in
      (mkCache (validCache s) c, w, [], match x with
        | Some msg => match cached_refusal msg with Ret res => validated th res | Panic => crashed th end
        | None => th <| kt_pc := AskValid |>
        end)
  | AskValid =>
      let '(c, x) := lru_Get (validCache s) now k in
      (mkCache c (invalidCache s), w, [], match x with Some info => validated th (inl info) | None => th <| kt_pc := AskProvider |> end)
  | AskProvider => let '(w, answer) := GetApiKey now w k in (s, w, [LogRead now k answer], th <| kt_pc := KeepAnswer answer |>)
  | KeepAnswer answer =>
      match keep_answer s now k answer with
      | Ret (s, res) => (s, w, [], validated th res)
      | Panic => (s, w, [], crashed th)
      end
  | Charge =>
      let n := match kt_call th with CallDeduct _ n => n | _ => 0 end in
      let '(w, res) := Deduct now w k n in
      (s, w, [LogCharged i now k n], match res with
        | inl newCredits => th <| kt_pc := RemoveValid newCredits |>
        | inr e => match key_prefix k with Ret _ => th <| kt_pc := Returned (inr e) |> | Panic => crashed th end
        end)
  | RemoveValid n => (mkCache (lru_Remove (validCache s) k) (invalidCache s), w, [LogRemoved now k], th <| kt_pc := RemoveRefused n |>)
  | RemoveRefused n => (mkCache (validCache s) (lru_Remove (invalidCache s) k), w, [], th <| kt_pc := Returned (inl n) |>)
  | PurgeValid => (mkCache (lru_Purge (validCache s)) (invalidCache s), w, [], th <| kt_pc := PurgeRefused |>)
  | PurgeRefused => (mkCache (validCache s) (lru_Purge (invalidCache s)), w, [], th <| kt_pc := Returned (inl 0) |>)
  | Returned _ | Crashed => (s, w, [], th)
  end.

(** The service with its calls; the log is kept for what is said of it. *)
Record key_world := mkKeyWorld { kw_cache : ApiKeyService L; kw_provider : W; kw_threads : list key_thread; kw_log : list key_event }.

Inductive key_action := Begin (c : key_call) | Step (i : nat).
Definition key_act (now : Time) (x : key_world) (a : key_action) : key_world :=
  match a with
  | Begin c => mkKeyWorld (kw_cache x) (kw_provider x) (kw_threads x ++ [start_call now c]) (kw_log x)
  | Step i => match kw_threads x !! i with
              | None => x
              | Some th => let '(s, w, evs, th) := key_thread_step now i (kw_cache x) (kw_provider x) th in
                           mkKeyWorld s w (<[i := th]> (kw_threads x)) (evs ++ kw_log x)
              end
  end.

Inductive key_reach (w : W) : Time -> key_world -> Prop :=
| reach_new t : key_reach w t (mkKeyWorld NewApiKeyService w [] [])
| reach_act t x now a : key_reach w t x -> t <= now -> key_reach w now (key_act now x a).

Definition key_acts (l : list (Time * key_action)) (x : key_world) : key_world := fold_left (fun x a => key_act (fst a) x (snd a)) l x.
End threads.
Arguments key_world L W : clear implicits.

(** ** Alone, a thread is the function *)

Section solo.
Context {L : Type -> Type} `{!ExpirableLRU L}.
Context (GetApiKey : Time -> string -> HTTPApiKeyItem + goerror) (Deduct : Time -> string -> Z -> Z + goerror).

(** A call that takes all its steps at one instant. *)
Fixpoint solo (n : nat) (now : Time) (s : ApiKeyService L) (th : key_thread) : ApiKeyService L * key_thread :=
  match n with
  | O => (s, th)
  | S n => let '(s, _, _, th) := key_thread_step (fun t (_ : unit) k => (tt, GetApiKey t k)) (fun t _ k c => (tt, Deduct t k c)) now 0 s tt th in solo n now s th
  end.

(** The call ended as the function did. *)
Definition ends_as {A} (r : go (ApiKeyService L * A)) (out : A -> key_thread -> Prop) (x : ApiKeyService L * key_thread) : Prop :=
  match r with
  | Ret (s, a) => fst x = s /\ out a (snd x)
  | Panic => kt_pc (snd x) = Crashed
  end.

Lemma solo_validate now s k : ends_as (ValidateKey GetApiKey s now k) (fun res th => kt_res th = Some res /\ exists out, kt_pc th = Returned out)
  (solo 4 now s (start_call now (CallValidate k))).
Proof.
  unfold ValidateKey, cache_Get, start_call. cbn -[keep_answer cached_refusal]. destruct (lru_Get (invalidCache s) now k) as [c [msg|]]; cbn -[keep_answer cached_refusal].
  { destruct (cached_refusal msg) as [[info|e]|]; cbn; eauto. }
  destruct (lru_Get (validCache s) now k) as [v [info|]]; cbn -[keep_answer]; [eauto|].
  destruct (keep_answer _ now k (GetApiKey now k)) as [[s' [info|e]]|]; cbn; eauto.
Qed.

Lemma solo_deduct now s k n : ends_as (DeductCredits GetApiKey Deduct s now k n) (fun out th => kt_pc th = Returned out) (solo 7 now s (start_call now (CallDeduct k n))).
Proof.
  unfold DeductCredits, ValidateKey, cache_Get, start_call. destruct (n <=? 0); cbn -[keep_answer cached_refusal free_of_charge key_prefix]; [done|].
  destruct (lru_Get (invalidCache s) now k) as [c [msg|]]; cbn -[keep_answer cached_refusal free_of_charge key_prefix].
  { unfold cached_refusal. by destruct (is_empty msg). }
  destruct (lru_Get (validCache s) now k) as [v [info|]]; cbn -[keep_answer free_of_charge key_prefix].
  - unfold validated; cbn -[free_of_charge key_prefix]; destruct (free_of_charge info); cbn -[key_prefix]; [done|]. destruct (Deduct now k n); cbn -[key_prefix]; [done|]. by destruct (key_prefix k).
  - destruct (keep_answer _ now k (GetApiKey now k)) as [[s' [info|e]]|]; cbn -[free_of_charge key_prefix]; [|done|done].
    unfold validated; cbn -[free_of_charge key_prefix]; destruct (free_of_charge info); cbn -[key_prefix]; [done|]. destruct (Deduct now k n); cbn -[key_prefix]; [done|]. by destruct (key_prefix k).
Qed.
End solo.

(** ** What the answers are worth *)

Section freshness.
Context {L : Type -> Type} `{!ExpirableLRU L} `{!ExpirableLRULaws L} {W : Type}.
Context (GetApiKey : Time -> W -> string -> W * (HTTPApiKeyItem + goerror)) (Deduct : Time -> W -> string -> Z -> W * (Z + goerror)).

(** The record of a key that the provider gave at [r], and that was good when it was kept, at [c]. *)
Definition accepted_of (log : list key_event) (k : string) (r c : Time) (info : ApiKeyInfo) : Prop :=
  exists item, LogRead r k (inl item) ∈ log /\ r <= c /\ hk_Status item = 1 /\ ~ (0 < hk_ExpiresAt item < Unix c) /\
    info = mkKeyInfo (hk_KeyID item) (hk_KeyHash item) (hk_UserID item) (hk_Tenant item) (hk_WorkspaceID item) (hk_UserTenant item) (hk_Status item) (hk_Credits item) (hk_ExpiresAt item).

Definition refused_of (log : list key_event) (k : string) (r c : Time) (msg : string) : Prop :=
  exists answer, LogRead r k answer ∈ log /\ r <= c /\
    match answer with
    | inr _ => msg = "invalid API key"
    | inl item => hk_Status item <> 1 /\ msg = "API key has been disabled" \/ hk_Status item = 1 /\ 0 < hk_ExpiresAt item < Unix c /\ msg = "API key has expired"
    end.

(** The answer of a call that began at [b]. *)
Definition answer_ok (now : Time) (log : list key_event) (k : string) (b : Time) (res : ApiKeyInfo + goerror) : Prop :=
  match res with
  | inl info => exists r c, accepted_of log k r c info /\ c <= now /\ b <= c + 30 * Second /\ forall td, LogRemoved td k ∈ log -> td < b -> td <= c
  | inr e => exists r c m, refused_of log k r c m /\ e = errorf m /\ c <= now /\ b <= c + 10 * Second
  end.

Definition cached_ok (now : Time) (log : list key_event) : ApiKeyService L -> Prop :=
  cache_inv (30 * Second) (10 * Second)
    (fun c k info => c <= now /\ (exists r, accepted_of log k r c info) /\ forall td, LogRemoved td k ∈ log -> td <= c)
    (fun c k m => c <= now /\ exists r, refused_of log k r c m).

Definition event_time (e : key_event) : Time := match e with LogRead t _ _ | LogCharged _ t _ _ | LogRemoved t _ => t end.

Record thread_ok (now : Time) (log : list key_event) (th : key_thread) : Prop := mkThreadOk {
  to_begin : kt_begin th <= now;
  to_keep answer : kt_pc th = KeepAnswer answer -> exists r, LogRead r (call_key (kt_call th)) answer ∈ log /\ r <= now;
  to_res res : kt_res th = Some res -> answer_ok now log (call_key (kt_call th)) (kt_begin th) res
}.

Lemma accepted_mono evs log k r c info : accepted_of log k r c info -> accepted_of (evs ++ log) k r c info.
Proof. intros (item & A & B). exists item. split; [set_solver|done]. Qed.
Lemma refused_mono evs log k r c m : refused_of log k r c m -> refused_of (evs ++ log) k r c m.
Proof. intros (item & A & B). exists item. split; [set_solver|done]. Qed.

Lemma thread_ok_mono now now' evs log th : thread_ok now log th -> now <= now' -> Forall (fun e => event_time e = now') evs -> thread_ok now' (evs ++ log) th.
Proof.
  intros [B K R] Hn F. split; [lia|intros answer E; destruct (K answer E) as (r & H & Hr); exists r; split; [set_solver|lia]|].
  intros res E. specialize (R res E). destruct res as [info|e]; cbn in *.
  - destruct R as (r & c & A & C & T & D). exists r, c. split_and!; [by apply accepted_mono|lia|done|]. intros td [H|H]%elem_of_app Lt; [|by apply D].
    rewrite Forall_forall in F. specialize (F _ H). cbn in F. lia.
  - destruct R as (r & c & m & A & C & T & D). exists r, c, m. split_and!; [by apply refused_mono|done|lia|done].
Qed.

(** Looking up keeps the entries. *)
Lemma cached_ok_sub now log s v i : cached_ok now log s -> (forall k x t, lru_entry v k x t -> lru_entry (validCache s) k x t) -> lru_ttl v = lru_ttl (validCache s) ->
  (forall k x t, lru_entry i k x t -> lru_entry (invalidCache s) k x t) -> lru_ttl i = lru_ttl (invalidCache s) -> cached_ok now log (mkCache v i).
Proof. intros [A B C D] Hv Tv Hi Ti. split; cbn; eauto; congruence. Qed.

Lemma cached_ok_mono now now' evs log s : cached_ok now log s -> now <= now' -> (forall t k, LogRemoved t k ∉ evs) -> cached_ok now' (evs ++ log) s.
Proof.
  intros I Hn N. eapply cache_inv_mono; [exact I|..].
  - intros k t v (A & [r B] & C). split_and!; [lia|exists r; by apply accepted_mono|]. intros td [H|H]%elem_of_app; [by apply N in H|by apply C].
  - intros k t m (A & [r B]). split; [lia|]. exists r. by apply refused_mono.
Qed.

Lemma keep_answer_ok now log s k answer r s' res : cached_ok now log s -> Forall (fun e => event_time e <= now) log -> LogRead r k answer ∈ log ->
  keep_answer s now k answer = Ret (s', res) -> cached_ok now log s' /\ forall b, b <= now -> answer_ok now log k b res.
Proof.
  intros I F H. assert (r <= now) as Hr. { rewrite Forall_forall in F. exact (F _ H). }
  assert (forall m, refused_of log k r now m -> Ret (cache_AddInvalid s now k m, inr (errorf m)) = Ret (s', res) ->
    cached_ok now log s' /\ forall b, b <= now -> answer_ok now log k b res) as Ref.
  { intros m Hm [= <- <-]. split; [apply AddInvalid_inv; [done|split; [lia|by eexists]]|]. intros b Hb. exists r, now, m. split_and!; try done; unfold Second; lia. }
  unfold keep_answer. destruct answer as [item|e].
  2: { destruct (key_prefix k); cbn [go_bind]; [|done]. apply Ref. by exists (inr e). }
  cbn [ki_Status ki_ExpiresAt info_of]. destruct (Z.eqb_spec (hk_Status item) 1) as [St|St]; cbn [negb].
  2: { apply Ref. exists (inl item). split_and!; auto. }
  destruct (_ && _) eqn:X; zbool.
  { apply Ref. exists (inl item). split_and!; auto. }
  intros [= <- <-]. assert (accepted_of log k r now (info_of item)) as A.
  { exists item. split_and!; try done. intros [Q1 Q2]. apply andb_false_iff in X as [X|X]; zbool; lia. }
  rewrite Forall_forall in F. assert (forall td, LogRemoved td k ∈ log -> td <= now) as Rm by (intros td Htd; exact (F _ Htd)).
  split; [apply AddValid_inv; [done|]; split_and!; [lia|by eexists|done]|]. intros b Hb. exists r, now. split_and!; try done; [unfold Second; lia|auto].
Qed.

(** ** Deductions *)

(** The deductions the call [i] asked the provider for. *)
Definition charges (i : nat) (log : list key_event) : list (string * Z) :=
  omap (fun e => match e with LogCharged j _ k n => if decide (j = i) then Some (k, n) else None | _ => None end) log.

Definition chargeable (th : key_thread) (k : string) (n : Z) : Prop :=
  kt_call th = CallDeduct k n /\ 0 < n /\ exists info, kt_res th = Some (inl info) /\ ki_UserID info <> "" /\ ki_Credits info <> -1.

Definition charge_ok (log : list key_event) (i : nat) (th : key_thread) : Prop :=
  match kt_pc th with
  | AskRefused | AskValid | AskProvider | KeepAnswer _ => charges i log = [] /\ match kt_call th with CallDeduct _ n => 0 < n | _ => True end
  | Charge => charges i log = [] /\ exists k n, chargeable th k n
  | _ => charges i log = [] \/ exists k n, chargeable th k n /\ charges i log = [(k, n)]
  end.

Lemma charges_app i evs log : charges i (evs ++ log) = charges i evs ++ charges i log.
Proof. apply omap_app. Qed.

Lemma free_of_charge_none info : free_of_charge info = None -> ki_UserID info <> "" /\ ki_Credits info <> -1.
Proof.
  unfold free_of_charge. destruct (is_empty (ki_UserID info)) eqn:E; [done|]. destruct (Z.eqb_spec (ki_Credits info) (-1)); [done|]. intros _. split; [|done].
  intros U. by rewrite U in E.
Qed.

Lemma validated_charge_ok log i th res : charges i log = [] -> match kt_call th with CallDeduct _ n => 0 < n | _ => True end -> charge_ok log i (validated th res).
Proof.
  intros C N. unfold charge_ok, validated. cbn. destruct (kt_call th) as [k|k n|] eqn:E, res as [info|e]; cbn; auto.
  destruct (free_of_charge info) eqn:F; [by left|]. split; [done|]. exists k, n. split_and!; [done|done|]. exists info. split; [done|]. by apply free_of_charge_none.
Qed.

(** One access: the events are of this instant and of this call, and a call charges once. *)
Lemma thread_step_charges now i s w th s' w' evs th' log : key_thread_step GetApiKey Deduct now i s w th = (s', w', evs, th') -> charge_ok log i th ->
  charge_ok (evs ++ log) i th' /\ (forall j, j <> i -> charges j evs = []) /\ Forall (fun e => event_time e = now) evs.
Proof.
  unfold key_thread_step. intros E C. unfold charge_ok in C. destruct (kt_pc th) eqn:P.
  - destruct C as [C N]. destruct (lru_Get _ _ _) as [c [msg|]]; [destruct (cached_refusal msg) as [res|]|]; injection E as <- <- <- <-; (split; [|done]);
      [by apply validated_charge_ok|by left|done].
  - destruct C as [C N]. destruct (lru_Get _ _ _) as [c [info|]]; injection E as <- <- <- <-; (split; [|done]); [by apply validated_charge_ok|done].
  - destruct (GetApiKey now w _) as [w1 answer]. injection E as <- <- <- <-. split; [|split; [done|by constructor]]. exact C.
  - destruct C as [C N]. destruct (keep_answer _ _ _ _) as [[s1 res]|]; injection E as <- <- <- <-; (split; [|done]); [by apply validated_charge_ok|by left].
  - destruct C as [C (k & n & Ch)]. pose proof Ch as [Ec _]. rewrite Ec in E. cbn [call_key] in E. destruct (Deduct now w k n) as [w1 res].
    assert (charges i ([LogCharged i now k n] ++ log) = [(k, n)]) as Cs by (rewrite charges_app, C; cbn; by rewrite decide_True by done).
    assert (forall j, j <> i -> charges j [LogCharged i now k n] = []) as Cj by (intros j Hj; cbn; by rewrite decide_False by done).
    assert (forall pc, chargeable (th <| kt_pc := pc |>) k n) as Cp by (intros pc; exact Ch).
    destruct res as [z|e]; [|destruct (key_prefix k)]; injection E as <- <- <- <-; (split; [|split; [done|by constructor]]); right; exists k, n; (split; [apply Cp|done]).
  - injection E as <- <- <- <-. split; [exact C|split; [done|by constructor]].
  - injection E as <- <- <- <-. by split; [exact C|].
  - injection E as <- <- <- <-. by split; [exact C|].
  - injection E as <- <- <- <-. by split; [exact C|].
  - injection E as <- <- <- <-. split; [|done]. unfold charge_ok. by rewrite P.
  - injection E as <- <- <- <-. split; [|done]. unfold charge_ok. by rewrite P.
Qed.

(** ** All interleavings *)

Lemma validated_ok now log th res : kt_begin th <= now -> answer_ok now log (call_key (kt_call th)) (kt_begin th) res -> thread_ok now log (validated th res).
Proof.
  intros B A. split; [exact B| |by intros res' [= <-]]. intros answer. unfold validated. cbn.
  destruct (kt_call th), res as [info|e]; cbn; try done. by destruct (free_of_charge info).
Qed.

Lemma thread_step_ok now i s w th s' w' evs th' log : key_thread_step GetApiKey Deduct now i s w th = (s', w', evs, th') ->
  cached_ok now log s -> Forall (fun e => event_time e <= now) log -> thread_ok now log th -> cached_ok now (evs ++ log) s' /\ thread_ok now (evs ++ log) th'.
Proof.
  intros E I F T. pose proof (to_begin _ _ _ T) as B.
  assert (forall pc log', (forall a, pc <> KeepAnswer a) -> thread_ok now log' th -> thread_ok now log' (th <| kt_pc := pc |>)) as Move.
  { intros pc log' N [? ? ?]. split; [done| |done]. intros a. cbn. intros ->. by destruct (N a). }
  assert (forall evs', Forall (fun e => event_time e = now) evs' -> thread_ok now (evs' ++ log) th) as Grow by (intros; by eapply thread_ok_mono).
  unfold key_thread_step in E. set (k := call_key (kt_call th)) in *. destruct (kt_pc th) eqn:P.
  - pose proof (fun k' v t => lru_Get_entry (invalidCache s) now k k' v t) as En. pose proof (lru_Get_ttl (invalidCache s) now k) as Tt. pose proof (fun m => lru_Get_some (invalidCache s) now k m) as Gs.
    destruct (lru_Get (invalidCache s) now k) as [c x]. cbn in *. injection E as <- <- <- <-. split; [by eapply cached_ok_sub; eauto|].
    destruct x as [msg|]; [|by apply Move]. destruct (cached_refusal msg) as [res|] eqn:Cr; [|by apply Move]. apply validated_ok; [done|].
    destruct (Gs msg eq_refl) as (t & He & Ht). rewrite (ci_ittl _ _ _ _ _ I) in Ht. destruct (ci_refused _ _ _ _ _ I _ _ _ He) as [Hn [r Hr]].
    unfold cached_refusal in Cr. destruct (is_empty msg); [done|]. injection Cr as <-. exists r, t, msg. split_and!; try done. lia.
  - pose proof (fun k' v t => lru_Get_entry (validCache s) now k k' v t) as En. pose proof (lru_Get_ttl (validCache s) now k) as Tt. pose proof (fun m => lru_Get_some (validCache s) now k m) as Gs.
    destruct (lru_Get (validCache s) now k) as [c x]. cbn in *. injection E as <- <- <- <-. split; [by eapply cached_ok_sub; eauto|].
    destruct x as [info|]; [|by apply Move]. apply validated_ok; [done|].
    destruct (Gs info eq_refl) as (t & He & Ht). rewrite (ci_vttl _ _ _ _ _ I) in Ht. destruct (ci_ok _ _ _ _ _ I _ _ _ He) as (Hn & [r Hr] & Hd).
    exists r, t. split_and!; try done; [lia|]. intros td H _. by apply Hd.
  - destruct (GetApiKey now w k) as [w1 answer]. injection E as <- <- <- <-. split; [apply (cached_ok_mono now); [done|lia|set_solver]|].
    pose proof (Grow [LogRead now k answer] ltac:(by constructor)) as [B' K' R']. split; [done| |done]. cbn. intros a [= <-]. exists now. split; [set_solver|lia].
  - destruct (to_keep _ _ _ T _ P) as (r & Hl & Hr). fold k in Hl. destruct (keep_answer s now k answer) as [[s1 res]|] eqn:Ka; injection E as <- <- <- <-.
    + destruct (keep_answer_ok now log s k answer r s1 res I F Hl Ka) as [I' A]. split; [done|]. apply validated_ok; [done|]. by apply A.
    + split; [done|]. by apply Move.
  - set (n := match kt_call th with CallDeduct _ n => n | _ => 0 end) in *. destruct (Deduct now w k n) as [w1 res].
    assert (cached_ok now ([LogCharged i now k n] ++ log) s) as I' by (apply (cached_ok_mono now); [done|lia|set_solver]).
    pose proof (Grow [LogCharged i now k n] ltac:(by constructor)) as G.
    destruct res as [z|e]; [|destruct (key_prefix k)]; injection E as <- <- <- <-; (split; [done|by apply Move]).
  - injection E as <- <- <- <-. split; [|apply Move; [done|]; by apply (Grow [LogRemoved now k]); constructor]. destruct I as [A1 A2 A3 A4]. split; cbn; [|..|by rewrite lru_Remove_ttl|done].
    + intros k' v t [N He]%lru_Remove_entry. destruct (A1 _ _ _ He) as (C1 & [r C2] & C3). split_and!; [done|exists r; by apply (accepted_mono [_])|]. set_solver.
    + intros k' m t He. destruct (A2 _ _ _ He) as (C1 & [r C2]). split; [done|]. exists r. by apply (refused_mono [_]).
  - injection E as <- <- <- <-. split; [|by apply Move]. eapply cached_ok_sub; [exact I|done|done|by intros ??? [_ ?]%lru_Remove_entry|by rewrite lru_Remove_ttl].
  - injection E as <- <- <- <-. split; [|by apply Move]. eapply cached_ok_sub; [exact I|by intros ??? ?%lru_Purge_entry|by rewrite lru_Purge_ttl|done|done].
  - injection E as <- <- <- <-. split; [|by apply Move]. eapply cached_ok_sub; [exact I|done|done|by intros ??? ?%lru_Purge_entry|by rewrite lru_Purge_ttl].
  - by injection E as <- <- <- <-.
  - by injection E as <- <- <- <-.
Qed.

Record key_inv (now : Time) (x : key_world L W) : Prop := mkKeyInv {
  kv_cache : cached_ok now (kw_log x) (kw_cache x);
  kv_log : Forall (fun e => event_time e <= now) (kw_log x);
  kv_threads : Forall (thread_ok now (kw_log x)) (kw_threads x);
  kv_charges i : match kw_threads x !! i with Some th => charge_ok (kw_log x) i th | None => charges i (kw_log x) = [] end
}.

Lemma key_inv_time now now' x : key_inv now x -> now <= now' -> key_inv now' x.
Proof.
  intros [A B C D] Hn. split; [apply (cached_ok_mono now now' []); [done|done|set_solver]|eapply Forall_impl; [exact B|]; cbn; lia|eapply Forall_impl; [exact C|]|done].
  intros th T. by apply (thread_ok_mono now now' []).
Qed.

Lemma key_act_inv now x a : key_inv now x -> key_inv now (key_act GetApiKey Deduct now x a).
Proof.
  intros [A B C D]. destruct a as [c|i]; cbn [key_act].
  - split; cbn; try done.
    + apply Forall_app. split; [done|]. apply Forall_singleton. split; [cbn; lia| |done]. intros a. unfold start_call. cbn. destruct c; try done. by destruct (_ <=? _).
    + intros i. specialize (D i). destruct (decide (i < length (kw_threads x))%nat) as [Hi|Hi]; [by rewrite lookup_app_l|].
      assert (charges i (kw_log x) = []) as Ch by (by rewrite lookup_ge_None_2 in D by lia). rewrite lookup_app_r by lia.
      destruct (i - length (kw_threads x))%nat; [|done]. cbn. unfold charge_ok, start_call. cbn. destruct c as [k|k n|]; auto. destruct (Z.leb_spec n 0); auto.
  - destruct (kw_threads x !! i) as [th|] eqn:Ei; [|done]. destruct (key_thread_step _ _ now i _ _ th) as [[[s w] evs] th'] eqn:E.
    pose proof (D i) as Di. rewrite Ei in Di. apply (thread_step_charges _ _ _ _ _ _ _ _ _ (kw_log x)) in E as Ch; [|done]. destruct Ch as (Ch & Cj & Ev).
    pose proof (Forall_lookup_1 _ _ _ _ C Ei) as T. destruct (thread_step_ok _ _ _ _ _ _ _ _ _ (kw_log x) E A B T) as [A' T']. split; cbn [kw_cache kw_log kw_threads kw_provider]; [done| | |].
    + apply Forall_app. split; [|done]. eapply Forall_impl; [exact Ev|]. cbn. lia.
    + apply Forall_insert; [|done]. eapply Forall_impl; [exact C|]. intros th0 T0. apply (thread_ok_mono now); [done|lia|done].
    + intros j. destruct (decide (j = i)) as [->|N].
      * rewrite list_lookup_insert_eq by (by eapply lookup_lt_Some). done.
      * rewrite list_lookup_insert_ne by done. specialize (D j). destruct (kw_threads x !! j) as [thj|]; [|by rewrite charges_app, Cj, D].
        unfold charge_ok in *. rewrite charges_app, Cj by done. exact D.
Qed.

Lemma key_reach_inv w now x : key_reach GetApiKey Deduct w now x -> key_inv now x.
Proof.
  induction 1 as [t|t x now a _ IH Hn]; [|by apply key_act_inv, (key_inv_time t)].
  split; cbn; [apply New_inv|done|done|by intros i; rewrite lookup_nil].
Qed.
End freshness.

(** C30: what an answer about an API key is worth, and how often a call deducts. Calls of [ValidateKey], [DeductCredits] and [PurgeCache] overlap in any
    way, each access to a cache or to the provider being one step. A key that a call accepts was
    read from the provider as active, with the record that is returned, and was not expired when it was kept, at most thirty
    seconds before the call began; if a deduction ended before the call began, the record was kept after that end, so it is older
    than the deduction only where its own reader was under way when the deduction ended. A refusal was read likewise, and kept at
    most ten seconds before. And a call asks the provider for a deduction at most once, for its own key and amount,
    and only when the key was accepted as one of a user with a limited balance. *)
Theorem api_key_answers_fresh {L : Type -> Type} `{!ExpirableLRU L} `{!ExpirableLRULaws L} {W : Type}
  (GetApiKey : Time -> W -> string -> W * (HTTPApiKeyItem + goerror)) (Deduct : Time -> W -> string -> Z -> W * (Z + goerror))
  (w : W) (now : Time) (x : key_world L W) (i : nat) (th : key_thread)
  (Hreach : key_reach GetApiKey Deduct w now x) (Hth : kw_threads x !! i = Some th) :
  let k := call_key (kt_call th) in
  match kt_res th with
  | Some (inl info) => exists r c, accepted_of (kw_log x) k r c info /\ c <= now /\ kt_begin th <= c + 30 * Second /\
      forall td, LogRemoved td k ∈ kw_log x -> td < kt_begin th -> td <= c
  | Some (inr e) => exists r c m, refused_of (kw_log x) k r c m /\ e = errorf m /\ c <= now /\ kt_begin th <= c + 10 * Second
  | None => True
  end /\
  (charges i (kw_log x) = [] \/
   exists n info, kt_call th = CallDeduct k n /\ 0 < n /\ charges i (kw_log x) = [(k, n)] /\ kt_res th = Some (inl info) /\ ki_UserID info <> "" /\ ki_Credits info <> -1).
Proof.
  apply key_reach_inv in Hreach as [_ _ T C]. specialize (C i). rewrite Hth in C. pose proof (Forall_lookup_1 _ _ _ _ T Hth) as [_ _ R]. split.
  - destruct (kt_res th) as [res|]; [|done]. specialize (R res eq_refl). by destruct res.
  - unfold charge_ok in C. destruct (kt_pc th); try (left; by apply C).
    all: destruct C as [C|(k & n & (Ec & Hn & info & Hi & Hu & Hc) & Cs)]; [by left|right]; exists n, info; rewrite Ec in *; cbn; split_and!; done.
Qed.

(** ** A run with an overlap *)

(** A provider whose table holds one key, with the balance of the world. *)
Definition demo_keys (t : Time) (balance : Z) (k : string) : Z * (HTTPApiKeyItem + goerror) :=
  (balance, if seqb k "sk-alice-0001" then inl (mkKeyItem k "id" "hash" "alice" "" "" "" 1 balance 0) else inr (errorf "not found")).
Definition demo_deduct (t : Time) (balance : Z) (k : string) (n : Z) : Z * (Z + goerror) := (balance - n, inl (balance - n)).

(** The first call reads the balance, the second deducts and clears the cache, and then the first keeps what it read. *)
Definition demo_overlap : list (Time * key_action) :=
  [(10 * Second, Begin (CallValidate "sk-alice-0001")); (10 * Second, Step 0); (10 * Second, Step 0); (10 * Second, Step 0);
   (11 * Second, Begin (CallDeduct "sk-alice-0001" 9)); (11 * Second, Step 1); (11 * Second, Step 1); (11 * Second, Step 1); (11 * Second, Step 1); (12 * Second, Step 1); (12 * Second, Step 1); (12 * Second, Step 1);
   (13 * Second, Step 0); (20 * Second, Begin (CallValidate "sk-alice-0001")); (20 * Second, Step 2); (20 * Second, Step 2)].
Definition demo_key_world : key_world assoc_lru Z := key_acts demo_keys demo_deduct demo_overlap (mkKeyWorld NewApiKeyService 9 [] []).

Lemma key_acts_reach {L : Type -> Type} `{!ExpirableLRU L} {W} GetApiKey Deduct (w : W) l : forall t (x : key_world L W),
  key_reach GetApiKey Deduct w t x -> Forall (fun a => t <= fst a) l -> StronglySorted (fun a b => fst a <= fst b) l -> exists now, key_reach GetApiKey Deduct w now (key_acts GetApiKey Deduct l x).
Proof.
  induction l as [|[u a] l IH]; intros t x R F S; [by exists t|]. apply Forall_cons in F as [Hu F]. apply StronglySorted_inv in S as [S Su].
  cbn [key_acts fold_left]. apply (IH u); [by eapply reach_act|done|done].
Qed.

Lemma demo_overlap_reached : exists now, key_reach demo_keys demo_deduct 9 now demo_key_world.
Proof. apply (key_acts_reach _ _ _ _ 0); [constructor|repeat constructor; vm_compute; discriminate|repeat constructor; vm_compute; discriminate]. Qed.

(** The deduction asked the provider once, ... *)
Lemma api_key_answers_fresh_witness : exists th, kw_threads demo_key_world !! 1%nat = Some th /\ kt_res th = Some (inl (info_of (mkKeyItem "" "id" "hash" "alice" "" "" "" 1 9 0))) /\
  charges 1 (kw_log demo_key_world) = [("sk-alice-0001", 9)].
Proof.
  destruct demo_overlap_reached as [now R]. destruct (kw_threads demo_key_world !! 1%nat) as [th|] eqn:E; [|vm_compute in E; discriminate E].
  pose proof (api_key_answers_fresh demo_keys demo_deduct 9 now demo_key_world 1 th R E) as [_ C].
  exists th. split; [reflexivity|]. vm_compute in E. injection E as <-. split; [reflexivity|].
  destruct C as [C|(n & info & Ec & _ & C & _)]; [vm_compute in C; discriminate C|]. cbn in Ec. injection Ec as <-. exact C.
Defined.

(** ... but a reader that overlaps a deduction puts the old balance back into the cache: the user, whose balance is spent, is accepted with it, by a call that begins eight seconds after the deduction ended. *)
Lemma overlapping_read_stale : exists th info, kw_provider demo_key_world = 0 /\ LogRemoved (12 * Second) "sk-alice-0001" ∈ kw_log demo_key_world /\
  kw_threads demo_key_world !! 2%nat = Some th /\ kt_begin th = 20 * Second /\ kt_res th = Some (inl info) /\ ki_Credits info = 9.
Proof.
  destruct (kw_threads demo_key_world !! 2%nat) as [th|] eqn:E; [|vm_compute in E; discriminate E]. exists th. vm_compute in E. injection E as <-.
  eexists. split_and!; try reflexivity. vm_compute. set_solver.
Qed.

(** A short key the provider does not know crashes the call, before the refusal is cached. *)
Lemma short_key_panics {L : Type -> Type} `{!ExpirableLRU L} `{!ExpirableLRULaws L} (GetApiKey : Time -> string -> HTTPApiKeyItem + goerror) (now : Time) (k : string) (e : goerror) :
  (String.length k < 8)%nat -> GetApiKey now k = inr e -> ValidateKey (L := L) GetApiKey NewApiKeyService now k = Panic.
Proof.
  intros Hk G. unfold ValidateKey. pose proof (fun x => Get_valid (vttl := 30 * Second) (ittl := 10 * Second) (ok := fun _ _ _ => False) (refused := fun _ _ _ => False)
    NewApiKeyService now k x ltac:(apply New_inv)) as Gv. pose proof (fun x => Get_refused (vttl := 30 * Second) (ittl := 10 * Second) (ok := fun _ _ _ => False)
    (refused := fun _ _ _ => False) (L := L) (V := ApiKeyInfo) NewApiKeyService now k x ltac:(apply New_inv)) as Gr.
  destruct (cache_Get NewApiKeyService now k) as [s [[x|x]|]].
  - by destruct (Gv x eq_refl) as (? & [] & _).
  - by destruct (Gr x eq_refl) as (? & [] & _).
  - rewrite G. unfold keep_answer, key_prefix. by destruct (Nat.ltb_spec (String.length k) 8); [|lia].
Qed.

(** * The key table of http_provider.go *)

Abbreviation key_table := (gmap string HTTPApiKeyItem).

Definition UpdateApiKeys (apiKeys : list HTTPApiKeyItem) : key_table := fold_left (fun m i => <[hk_APIKey i := i]> m) apiKeys ∅.

(** [admin]: the answer of the admin console for a key that is not in the table. *)
Definition http_GetApiKey (admin : string -> list HTTPApiKeyItem + goerror) (m : key_table) (apiKey : string) : key_table * (HTTPApiKeyItem + goerror) :=
  if is_empty apiKey then (m, inr (errorf "api key cannot be empty"))
  else match m !! apiKey with
       | Some item => (m, inl item)
       | None => match admin apiKey with
                 | inr e => (m, inr e)
                 | inl [] => (m, inr (errorf "api key not found on admin console"))
                 | inl (item :: _) => (<[apiKey := item]> m, inl item)
                 end
       end.

Definition http_DeductCredits (m : key_table) (apiKey : string) (credits : Z) : key_table * (Z + goerror) :=
  match m !! apiKey with
  | None => (m, inr (errorf "api key not found in memory"))
  | Some item =>
      if hk_Credits item =? -1 then (m, inl (-1))
      else let c := wrap64 (hk_Credits item - credits) in (<[apiKey := item <| hk_Credits := c |>]> m, inl c)
  end.

(** ** redis_provider.go *)

(** [strconv.ParseUint]: the number and whether it is in range, or nothing for a text that is no number. *)
Fixpoint scan_uint (l : list ascii) (n : Z) : option (Z * bool) :=
  match l with
  | [] => Some (n, true)
  | c :: r =>
      if is_digit c then let n' := n * 10 + (byte_val c - 48) in if two64 <=? n' then Some (two64 - 1, false) else scan_uint r n'
      else None
  end.

(** [strconv.ParseInt(s, 10, 64)]: the value, which is 0 for a text that is no number and the
    nearest bound for one out of range, and whether there is no error. *)
Definition ParseInt64 (s : string) : Z * bool :=
  let '(neg, digits) := match ascii_list s with
                        | c :: r => if byte_val c =? 45 then (true, r) else if byte_val c =? 43 then (false, r) else (false, c :: r)
                        | [] => (false, [])
                        end in
  match digits with
  | [] => (0, false)
  | _ => match scan_uint digits 0 with
         | None => (0, false)
         | Some (u, ok) => if neg : bool then (Z.max min_int64 (- u), ok && (u <=? two63)) else (Z.min max_int64 u, ok && (u <=? max_int64))
         end
  end.
Definition int_value (s : string) : Z := fst (ParseInt64 s).

Definition parseRedisApiKeyItem (apiKey keyHash : string) (fields : gmap string string) : option HTTPApiKeyItem :=
  let f k := default "" (fields !! k) in
  if bool_decide (fields = ∅) || is_empty (f "user_id") && is_empty (f "tenant") && is_empty (f "workspace_id") then None
  else Some (mkKeyItem apiKey (f "key_id") keyHash (f "user_id") (f "tenant") (f "workspace_id") (f "user_tenant")
               (int_value (f "status")) (int_value (f "credits")) (int_value (f "expires_at"))).

(** The Redis commands of the key records: [HGETALL] and [HINCRBY]; [hash]: the keyed digest of an API key. *)
Definition redis_GetApiKey (hash : string -> string -> string) (pepper : string) (hgetall : string -> gmap string string + goerror) (apiKey : string) :
  (HTTPApiKeyItem * string) + goerror :=
  if is_empty pepper then inr (errorf "llm.api_key_pepper is required for redis api key lookup")
  else
    let keyHash := hash apiKey pepper in
    let redisKey := "aigw:apikey_hash:" +:+ keyHash in
    match hgetall redisKey with
    | inr e => inr e
    | inl fields => match parseRedisApiKeyItem apiKey keyHash fields with
                    | Some item => inl (item, redisKey)
                    | None => inr (errorf "api key not found in redis")
                    end
    end.

Definition redis_DeductCredits {W} (hash : string -> string -> string) (pepper : string) (hgetall : string -> gmap string string + goerror)
  (hincrby : W -> string -> string -> Z -> W * (Z + goerror)) (w : W) (apiKey : string) (credits : Z) : W * (Z + goerror) :=
  match redis_GetApiKey hash pepper hgetall apiKey with
  | inr e => (w, inr e)
  | inl (_, redisKey) => hincrby w redisKey "credits" (wrap64 (- credits))
  end.

(** Without the pepper no key is accepted, whatever the table holds. *)
Lemma no_pepper_no_key hash hgetall k : exists e, redis_GetApiKey hash "" hgetall k = inr e.
Proof. by eexists. Qed.

Example int_values : map int_value ["1"; "-1"; "+7"; ""; "12a"; "99999999999999999999"; "-99999999999999999999"; "9223372036854775808"] =
  [1; -1; 7; 0; 0; max_int64; min_int64; max_int64].
Proof. vm_compute. reflexivity. Qed.

(** A balance of -1 stands for no limit, and a deduction can arrive there: a user who
    overdraws by exactly one unit is never stopped again. *)
Lemma overdraft_unlimited {L : Type -> Type} `{!ExpirableLRU L} `{!ExpirableLRULaws L} (m : key_table) (k : string) (item : HTTPApiKeyItem) (n : Z) (admin : string -> list HTTPApiKeyItem + goerror) (now : Time) :
  m !! k = Some item -> k <> "" -> hk_Status item = 1 -> hk_ExpiresAt item = 0 -> hk_UserID item <> "" -> 0 <= hk_Credits item -> in_int64 n -> hk_Credits item - n = -1 ->
  let m' := fst (http_DeductCredits m k n) in
  exists s, CheckCredits (L := L) (fun _ k => snd (http_GetApiKey admin m' k)) NewApiKeyService now k = Ret (s, None) /\
    forall d, fst (http_DeductCredits m' k d) = m'.
Proof.
  intros Hm Hk St Ex Us Cr In Hn m'. assert (m' = <[k := item <| hk_Credits := -1 |>]> m) as Em.
  { unfold m', http_DeductCredits. rewrite Hm. destruct (Z.eqb_spec (hk_Credits item) (-1)); [lia|]. cbn zeta. by rewrite Hn. }
  clearbody m'. subst m'. unfold CheckCredits, ValidateKey.
  pose proof (fun x => Get_valid (vttl := 30 * Second) (ittl := 10 * Second) (ok := fun _ _ _ => False) (refused := fun _ _ _ => False)
    NewApiKeyService now k x ltac:(apply New_inv)) as Gv. pose proof (fun x => Get_refused (vttl := 30 * Second) (ittl := 10 * Second) (ok := fun _ _ _ => False)
    (refused := fun _ _ _ => False) (L := L) (V := ApiKeyInfo) NewApiKeyService now k x ltac:(apply New_inv)) as Gr.
  destruct (cache_Get NewApiKeyService now k) as [s [[x|x]|]]; [by destruct (Gv x eq_refl) as (? & [] & _)|by destruct (Gr x eq_refl) as (? & [] & _)|].
  assert (is_empty k = false) as Ek by (unfold is_empty, seqb; by apply bool_decide_eq_false).
  assert (is_empty (hk_UserID item) = false) as Eu by (unfold is_empty, seqb; by apply bool_decide_eq_false).
  assert (snd (http_GetApiKey admin (<[k:=item <| hk_Credits := -1 |>]> m) k) = inl (item <| hk_Credits := -1 |>)) as -> by (unfold http_GetApiKey; by rewrite Ek, lookup_insert_eq).
  eexists. split; [cbn; rewrite St, Ex; cbn; by rewrite Eu|]. intros d. unfold http_DeductCredits. by rewrite lookup_insert_eq.
Qed.
