(* ===== verification/FloatInt.v ===== *)
(** Integers in [float64]: below 2^53 in absolute value the conversion is exact, its
    comparisons are those of the integers, and the conversion back returns the integer.
    Lua numbers are such floats. *)

From Stdlib Require Import SpecFloat.
From S2P Require Import Prelude GoFloat.

(** Integers a float64 holds exactly. *)
Definition exact_int (z : Z) : Prop := - 2 ^ 53 < z < 2 ^ 53.

Lemma digits2_bounds p : 2 ^ (Z.pos (digits2_pos p) - 1) <= Z.pos p < 2 ^ Z.pos (digits2_pos p).
Proof.
  induction p as [p IH|p IH|]; cbn [digits2_pos]; [| |done];
    rewrite Pos2Z.inj_succ, <- Z.add_1_r, Z.add_simpl_r, Z.pow_add_r, Z.pow_1_r by lia;
    rewrite Z.pow_sub_r, Z.pow_1_r in IH by lia;
    assert (2 ^ Z.pos (digits2_pos p) = 2 * (2 ^ Z.pos (digits2_pos p) / 2)) as E
      by (rewrite <- (Z.pow_sub_r 2 _ 1) by lia; rewrite <- Z.pow_succ_r by lia; f_equal; lia); lia.
Qed.

Lemma digits2_small p n : Z.pos p < 2 ^ n -> 0 <= n -> Z.pos (digits2_pos p) <= n.
Proof.
  intros H Hn. pose proof (digits2_bounds p) as [L _]. destruct (Z.le_gt_cases (Z.pos (digits2_pos p)) n); [done|].
  pose proof (Z.pow_le_mono_r 2 n (Z.pos (digits2_pos p) - 1) ltac:(lia) ltac:(lia)). lia.
Qed.

Lemma iter_xO p d :
  Z.pos (Pos.iter xO p d) = Z.pos p * 2 ^ Z.pos d /\
  Z.pos (digits2_pos (Pos.iter xO p d)) = Z.pos (digits2_pos p) + Z.pos d.
Proof.
  induction d as [|d [IH1 IH2]] using Pos.peano_ind.
  - split; [change (Pos.iter xO p 1) with (xO p); lia|]. change (Pos.iter xO p 1) with (xO p). cbn [digits2_pos]. lia.
  - rewrite Pos.iter_succ. cbn [digits2_pos]. rewrite Pos2Z.inj_xO, IH1, !Pos2Z.inj_succ, IH2, Z.pow_succ_r by lia. lia.
Qed.

(** The rounding steps do nothing on a mantissa of 53 bits. *)
Lemma round_aux_exact s m e :
  Z.pos (digits2_pos m) = 53 -> -52 <= e <= 0 -> binary_round_aux fprec femax s (Z.pos m) e loc_Exact = S754_finite s m e.
Proof.
  intros Hd He. assert (forall l, shr_fexp fprec femax (Z.pos m) e l = (shr_record_of_loc (Z.pos m) l, e)) as S.
  { intros l. unfold shr_fexp, shr. cbn [Zdigits2]. rewrite Hd. unfold fexp, emin, fprec, femax.
    replace (Z.max (53 + e - 53) (3 - 1024 - 53) - e) with 0 by lia. done. }
  unfold binary_round_aux. rewrite S. cbn [shr_record_of_loc loc_of_shr_record shr_m round_nearest_even].
  rewrite S. cbn [shr_record_of_loc shr_m]. unfold fprec, femax. destruct (Z.leb_spec e (1024 - 53)); [done|lia].
Qed.

Lemma round_exact s p :
  Z.pos p < 2 ^ 53 ->
  exists m d, binary_round fprec femax s p 0 = S754_finite s m (- d) /\ 0 <= d <= 52 /\ Z.pos m = Z.pos p * 2 ^ d.
Proof.
  intros Hp. pose proof (digits2_small p 53 Hp ltac:(lia)) as D. unfold binary_round, shl_align, fexp, emin.
  replace (Z.max (Z.pos (digits2_pos p) + 0 - fprec) (3 - femax - fprec) - 0) with (Z.pos (digits2_pos p) - 53)
    by (unfold fprec, femax; lia).
  replace (Z.max (Z.pos (digits2_pos p) + 0 - fprec) (3 - femax - fprec)) with (Z.pos (digits2_pos p) - 53)
    by (unfold fprec, femax; lia).
  destruct (Z.pos (digits2_pos p) - 53) as [|q|q] eqn:E; [|lia|].
  - exists p, 0. rewrite round_aux_exact by lia. split; [done|]. lia.
  - exists (Pos.iter xO p q), (Z.pos q). destruct (iter_xO p q) as [V Dg].
    rewrite round_aux_exact by lia. split; [done|]. lia.
Qed.

(** The float of a non-zero exact integer. *)
Lemma of_int_finite z :
  exact_int z -> z <> 0 ->
  exists m d, of_int z = S754_finite (z <? 0) m (- d) /\ 0 <= d <= 52 /\ Z.pos m = Z.abs z * 2 ^ d.
Proof.
  unfold exact_int, of_int, binary_normalize. intros H N. destruct z as [|p|p]; [done| |]; cbn [Z.ltb Z.compare Z.abs].
  - apply round_exact. lia.
  - apply round_exact. lia.
Qed.

Lemma to_int64_of_int z : exact_int z -> to_int64 (of_int z) = z.
Proof.
  intros H. destruct (decide (z = 0)) as [->|N]; [done|].
  destruct (of_int_finite z H N) as (m & d & -> & Hd & Hm). unfold to_int64, ftrunc.
  assert (0 < 2 ^ d) as P2 by (apply Z.pow_pos_nonneg; lia).
  assert ((if 0 <=? - d then Z.pos m * 2 ^ (- d) else Z.pos m / 2 ^ (- - d)) = Z.abs z) as ->.
  { rewrite Z.opp_involutive. destruct (Z.leb_spec 0 (- d)).
    - assert (d = 0) as -> by lia. change (- 0) with 0. rewrite Z.pow_0_r in *. lia.
    - by rewrite Hm, Z.div_mul by lia. }
  assert ((if z <? 0 then - Z.abs z else Z.abs z) = z) as -> by (destruct (Z.ltb_spec z 0); lia).
  unfold exact_int in H. unfold min_int64, max_int64. destruct (Z.leb_spec (-9223372036854775808) z); [|lia].
  destruct (Z.leb_spec z 9223372036854775807); [done|lia].
Qed.

Lemma of_int_not_nan z : exact_int z -> is_nan (of_int z) = false.
Proof.
  intros H. destruct (decide (z = 0)) as [->|N]; [done|]. by destruct (of_int_finite z H N) as (m & d & -> & _).
Qed.

(** Equality of floats is equality of the integers. *)
Lemma feq_of_int x y : exact_int x -> exact_int y -> feq (of_int x) (of_int y) = (x =? y).
Proof.
  intros Hx Hy. destruct (Z.eqb_spec x y) as [->|N].
  - unfold feq, SFeqb. pose proof (compare_rank (of_int y) (of_int y)) as C.
    rewrite of_int_not_nan in C by done. specialize (C eq_refl eq_refl).
    destruct (SFcompare (of_int y) (of_int y)) as [[]|]; try done; destruct (frank (of_int y)) as [[]]; cbn in C; lia.
  - destruct (feq (of_int x) (of_int y)) eqn:E; [|done]. destruct N.
    rewrite <- (to_int64_of_int x), <- (to_int64_of_int y) by done.
    unfold feq, SFeqb in E. pose proof (compare_rank (of_int x) (of_int y) (of_int_not_nan x Hx) (of_int_not_nan y Hy)) as C.
    destruct (SFcompare (of_int x) (of_int y)) as [[]|]; try done. clear E.
    destruct (of_int x) as [[]|[]| |[] ? ?], (of_int y) as [[]|[]| |[] ? ?]; cbn in C; simplify_eq; try done; do 2 f_equal; lia.
Qed.

(** [x < 0] on the float is [x < 0] on the integer. *)
Lemma flt_of_int_zero x : exact_int x -> flt (of_int x) fzero = (x <? 0).
Proof.
  intros H. destruct (decide (x = 0)) as [->|N]; [done|].
  destruct (of_int_finite x H N) as (m & d & -> & _). unfold flt, SFltb. cbn. by destruct (x <? 0).
Qed.
