(* ===== verification/RedisStore.v ===== *)
(** pkg/store/redis.go and its five Lua scripts (pkg/store/lua): the state store of
    several gateway instances.  The Redis server is a class with one operation, the
    execution of a command at the server clock; what the scripts rely on is a second
    class of laws over the visible entries (value and expiry of a key), with a server
    in memory as an instance.  A script runs at one server time, as Redis freezes its
    clock for a script.  Lua numbers are [float64]: integer replies of commands and
    integer results of scripts pass through them. *)

From Stdlib Require Import Ascii SpecFloat.
From S2P Require Import Prelude GoFloat FloatInt GoStrings GoJson GoPrint Context Compensation Store ApiKeys.

(** * The server *)

(** The commands of the scripts and of the store; numbers are the Lua numbers given.
    [HSET] with one field is [HMSET] of that field: only the reply differs, which the
    script ignores. *)
Inductive Cmd :=
  | INCRBY (key : string) (n : float64)
  | DECRBY (key : string) (n : float64)
  | PTTL (key : string)
  | PEXPIRE (key : string) (ms : float64)
  | PERSIST (key : string)
  | EXISTS (key : string)
  | GET (key : string)
  | SET_KEEPTTL (key : string) (v : float64)
  | SET_EX (key : string) (v : float64) (seconds : float64)
  | HMGET (key : string) (fields : list string)
  | HMSET (key : string) (fields : list (string * float64))
  | ZADD (key : string) (score : float64) (member : string)
  | ZCARD (key : string)
  | ZREMRANGEBYRANK (key : string) (start stop : float64)
  | ZRANGEBYSCORE (key : string) (min max : string).

Inductive Reply :=
  | RInt (z : Z)
  | RStatus
  | RBulk (s : option string)
  | RArray (l : list (option string)).

Class RedisServer (R : Type) := {
  (** server, its clock in milliseconds, command *)
  redis_call : R -> Z -> Cmd -> R * (goerror + Reply)
}.

(** What happens to a request of the client: it arrives and is answered, it never
    arrives, or its answer is lost. *)
Inductive link := Answered | NotSent (e : goerror) | ReplyLost (e : goerror).

(** * Lua *)

Definition lua_error : goerror := errorf "ERR Error running script".

(** [math.floor], [math.ceil], [math.min], [math.max]. *)
Definition math_floor (x : float64) : float64 := SFopp (fceil (SFopp x)).
Definition math_ceil (x : float64) : float64 := fceil x.
Definition math_min (x y : float64) : float64 := if flt y x then y else x.
Definition math_max (x y : float64) : float64 := if flt x y then y else x.

Section scripts.
Context {R : Type} `{RedisServer R}.
(** [tonumber] of a text, and [tostring] of a number (14 digits). *)
Context (tonumber : string -> option float64) (tostring : float64 -> string).

(** A script runs at a server time; an error of a command ends it and keeps what the
    earlier commands did. *)
Definition Script (A : Type) : Type := Z -> R -> R * (goerror + A).

Definition sret {A} (x : A) : Script A := fun _ r => (r, inr x).
Definition sfail {A} (e : goerror) : Script A := fun _ r => (r, inl e).
Definition sbind {A B} (m : Script A) (f : A -> Script B) : Script B := fun t r =>
  match m t r with
  | (r, inl e) => (r, inl e)
  | (r, inr x) => f x t r
  end.
Definition redis_do (c : Cmd) : Script Reply := fun t r => redis_call r t c.

Notation "'let!' x := m 'in' k" := (sbind m (fun x => k)) (at level 200, x pattern, m at level 99, k at level 200).
Notation "'do!' m ;; k" := (sbind m (fun _ => k)) (at level 200, m at level 99, k at level 200).

(** An integer reply as a Lua number. *)
Definition as_number (r : Reply) : Script float64 :=
  match r with RInt z => sret (of_int z) | _ => sfail lua_error end.

(** [rate_limit_incr.lua] *)
Definition rate_limit_incr (key : string) (tokens window_ms : float64) : Script Z :=
  let! reply := redis_do (INCRBY key tokens) in
  let! current := as_number reply in
  let! reply := redis_do (PTTL key) in
  let! ttl := as_number reply in
  do! (if feq ttl (of_int (-1)) then redis_do (PEXPIRE key window_ms) else sret RStatus) ;;
  sret (to_int64 current).

(** [rate_limit_refund.lua] *)
Definition rate_limit_refund (key : string) (tokens : float64) : Script Z :=
  let! reply := redis_do (EXISTS key) in
  let! exists_ := as_number reply in
  if feq exists_ (of_int 0) then sret 0
  else
    let! reply := redis_do (DECRBY key tokens) in
    let! after := as_number reply in
    if flt after (of_int 0) then do! redis_do (SET_KEEPTTL key (of_int 0)) ;; sret 0
    else sret (to_int64 after).

(** A field of [HMGET] as a number; a missing field and a text that is none are [nil]. *)
Definition hash_number (o : option string) : option float64 := o ≫= tonumber.

(** The refill of [rate_limit_take.lua]: new tokens for the time passed, when the
    clock moved forward. *)
Definition refill_tokens (tokens last_updated rate capacity window_ms now_ms : float64) : float64 * float64 :=
  let delta := fsub now_ms last_updated in
  if flt fzero delta then
    let gen_tokens := fmul delta (fdiv rate window_ms) in
    (math_min capacity (fadd tokens gen_tokens), now_ms)
  else (tokens, last_updated).

(** The expiry it sets on a consumption. *)
Definition bucket_expiry (key : string) (debt_aware : bool) (tokens rate capacity window_ms : float64) : Cmd :=
  if negb debt_aware then PEXPIRE key (math_floor (fmul window_ms (of_int 2)))
  else if flt fzero rate then
    let refill_ms := math_ceil (fdiv (fmul (fsub capacity tokens) window_ms) rate) in
    PEXPIRE key (math_max (math_floor (fmul window_ms (of_int 2))) refill_ms)
  else PERSIST key.

(** The decision once the tokens are known: refuse, or write and set the expiry. *)
Definition take_decide (key : string) (requested rate capacity window_ms : float64) (adjustment debt_aware : bool)
  (tokens last_updated : float64) : Script (list Z) :=
  if adjustment || flt requested fzero || fle requested tokens then
    let tokens := math_min capacity (fsub tokens requested) in
    do! redis_do (HMSET key [("tokens", tokens); ("last_updated", last_updated)]) ;;
    do! (if adjustment then redis_do (HMSET key [("settlement", of_int 1)]) else sret RStatus) ;;
    do! (if flt fzero requested then redis_do (bucket_expiry key debt_aware tokens rate capacity window_ms)
         else sret RStatus) ;;
    sret [1; to_int64 (math_floor tokens)]
  else sret [0; to_int64 (math_floor tokens)].

(** [rate_limit_take.lua] *)
Definition rate_limit_take (key : string) (requested rate capacity window_ms now_ms : float64) (adjustment : bool) :
  Script (list Z) :=
  let! reply := redis_do (HMGET key ["tokens"; "last_updated"; "settlement"]) in
  match reply with
  | RArray [d1; d2; d3] =>
      let debt_aware := adjustment ||
        match hash_number d3 with Some x => feq x (of_int 1) | None => false end in
      match hash_number d1 with
      | None =>
          if flt requested fzero then sret [1; to_int64 (math_floor capacity)]
          else take_decide key requested rate capacity window_ms adjustment debt_aware capacity now_ms
      | Some tokens =>
          match hash_number d2 with
          | None => sfail lua_error
          | Some last_updated =>
              let '(tokens, last_updated) := refill_tokens tokens last_updated rate capacity window_ms now_ms in
              take_decide key requested rate capacity window_ms adjustment debt_aware tokens last_updated
          end
      end
  | _ => sfail lua_error
  end.

(** [record_latency.lua] *)
Definition record_latency (key : string) (score : float64) (member : string) (max_samples ttl_ms : float64) : Script Z :=
  do! redis_do (ZADD key score member) ;;
  do! redis_do (PEXPIRE key ttl_ms) ;;
  let! reply := redis_do (ZCARD key) in
  let! count := as_number reply in
  do! (if flt max_samples count
       then redis_do (ZREMRANGEBYRANK key (of_int 0) (fsub (fsub count max_samples) (of_int 1)))
       else sret RStatus) ;;
  sret 1.

(** [update_ema.lua] *)
Definition update_ema (key : string) (actual alpha ttl_sec : float64) : Script string :=
  let! reply := redis_do (GET key) in
  let! new_ema :=
    match reply with
    | RBulk None => sret actual
    | RBulk (Some old) =>
        match tonumber old with
        | Some o => sret (fadd (fmul actual alpha) (fmul o (fsub (of_int 1) alpha)))
        | None => sfail lua_error
        end
    | _ => sfail lua_error
    end in
  do! redis_do (SET_EX key new_ema ttl_sec) ;;
  sret (tostring new_ema).

(** * redis.go *)

(** One request of the client. *)
Definition Eval {A} (l : link) (s : Script A) : Script A := fun t r =>
  match l with
  | Answered => s t r
  | NotSent e => (r, inl e)
  | ReplyLost e => (fst (s t r), inl e)
  end.

Record RedisStateStoreConfig := mkRedisConfig { rc_KeyPrefix : string; rc_LatencyMaxSamples : Z }.

(** The client is the state the operations thread. *)
Record RedisStateStore := mkRedisStore { rs_prefix : string; rs_latencyMax : Z }.

Definition redisLatencyMaxSamples : Z := 1000.
Definition redisLatencyKeyTTL : Duration := 7 * 24 * 3600 * Second.

(** [strings.TrimRight(s, ":")]. *)
Definition trim_colons (s : string) : string :=
  string_of (rev (drop_while (fun c => bool_decide (c = ":"%char)) (rev (ascii_list s)))).

Definition NewRedisStateStore (cfg : option RedisStateStoreConfig) : RedisStateStore :=
  let cfg := default (mkRedisConfig "" 0) cfg in
  mkRedisStore (or_default (trim_colons (rc_KeyPrefix cfg)) "aigw")
    (if rc_LatencyMaxSamples cfg =? 0 then redisLatencyMaxSamples else rc_LatencyMaxSamples cfg).

Definition redis_key (s : RedisStateStore) (parts : list string) : string :=
  fold_left (fun key p => key +:+ ":" +:+ p) parts (rs_prefix s).

(** [Duration.Milliseconds]. *)
Definition window_ms (window : Duration) : Z := Z.quot window Millisecond.

(** The link of the request, the server clock and the server are explicit in every operation. *)
Definition redis_RateLimitIncr (s : RedisStateStore) (l : link) (key : string) (tokens : Z) (window : Duration)
  (t : Z) (r : R) : R * (Z * option goerror) :=
  match Eval l (rate_limit_incr (redis_key s ["rl"; key]) (of_int tokens) (of_int (window_ms window))) t r with
  | (r, inr v) => (r, (v, None))
  | (r, inl e) => (r, (0, Some (wrapf "redis rate limit incr: " e)))
  end.

Definition redis_RateLimitRefund (s : RedisStateStore) (l : link) (key : string) (tokens : Z) (t : Z) (r : R) :
  R * option goerror :=
  match Eval l (rate_limit_refund (redis_key s ["rl"; key]) (of_int tokens)) t r with
  | (r, inr _) => (r, None)
  | (r, inl e) => (r, Some (wrapf "redis rate limit refund: " e))
  end.

(** [fmt]'s text of a reply of integers. *)
Definition reply_text (l : list Z) : string := "[" +:+ Join (map Itoa l) " " +:+ "]".

Definition redis_RateLimitTake (s : RedisStateStore) (l : link) (key : string) (tokens rate capacity : Z)
  (window : Duration) (now : Time) (t : Z) (r : R) : R * (bool * Z * option goerror) :=
  match Eval l (rate_limit_take (redis_key s ["tb"; key]) (of_int tokens) (of_int rate) (of_int capacity)
                  (of_int (window_ms window)) (of_int (UnixMilli now)) false) t r with
  | (r, inl e) => (r, (false, 0, Some (wrapf "redis rate limit take: " e)))
  | (r, inr (a :: b :: _)) => (r, (a =? 1, b, None))
  | (r, inr res) => (r, (false, 0, Some (errorf ("redis rate limit take invalid response: " +:+ reply_text res))))
  end.

Definition redis_RateLimitAdjust (s : RedisStateStore) (l : link) (key : string) (tokens rate capacity : Z)
  (window : Duration) (now : Time) (t : Z) (r : R) : R * (Z * option goerror) :=
  match Eval l (rate_limit_take (redis_key s ["tb"; key]) (of_int tokens) (of_int rate) (of_int capacity)
                  (of_int (window_ms window)) (of_int (UnixMilli now)) true) t r with
  | (r, inl e) => (r, (0, Some (wrapf "redis rate limit adjust: " e)))
  | (r, inr res) =>
      match res with
      | 1 :: b :: _ => (r, (b, None))
      | _ => (r, (0, Some (errorf ("redis rate limit adjust invalid response: " +:+ reply_text res))))
      end
  end.

(** [rnd]: the draw of [rand.Int63]. *)
Definition sample_member (latency : Duration) (rnd : Z) : string := Itoa latency +:+ ":" +:+ Itoa rnd.

Definition recordLatencyTo (s : RedisStateStore) (l : link) (redisKey : string) (latency : Duration) (rnd : Z)
  (now : Time) (t : Z) (r : R) : R * option goerror :=
  match Eval l (record_latency redisKey (of_int (UnixMilli now)) (sample_member latency rnd)
                  (of_int (rs_latencyMax s)) (of_int (window_ms redisLatencyKeyTTL))) t r with
  | (r, inr _) => (r, None)
  | (r, inl e) => (r, Some (wrapf "redis record latency: " e))
  end.

(** The latency of a member [<latency_ns>:<rand>]. *)
Definition member_latency (member : string) : option Z :=
  let l := ascii_list member in
  match drop_while (fun c => negb (bool_decide (c = ":"%char))) l with
  | [] => None
  | rest => let '(v, ok) := ParseInt64 (string_of (take (length l - length rest) l)) in if ok then Some v else None
  end.

(** One iteration of the loop: the total and the number of valid samples. *)
Definition add_sample (acc : Z * Z) (member : string) : Z * Z :=
  match member_latency member with
  | Some ns => (wrap64 (fst acc + ns), wrap64 (snd acc + 1))
  | None => acc
  end.

(** The average of the members the range query returned. *)
Definition average_members (samples : list string) : Duration :=
  let '(total, valid) := fold_left add_sample samples (0, 0) in
  if valid =? 0 then 0 else wrap64 (Z.quot total valid).

(** A float without fraction as [FormatFloat(x, 'f', 0, 64)] prints it: the scores are
    milliseconds of a time, far below 2^53. *)
Definition score_text (ms : Z) : string := Itoa (to_int64 (of_int ms)).

Definition range_members (reply : Reply) : goerror + list string :=
  match reply with
  | RArray l => inr (map (default "") l)
  | _ => inl (errorf "redis: unexpected reply")
  end.

Definition getAvgLatencyFrom (s : RedisStateStore) (l : link) (redisKey : string) (window : Duration)
  (now : Time) (t : Z) (r : R) : R * (Duration * option goerror) :=
  let since := UnixMilli (time_Add now (wrap64 (- window))) in
  let to := UnixMilli now in
  let '(r, res) := Eval l (redis_do (ZRANGEBYSCORE redisKey (score_text since) (score_text to))) t r in
  match (match res with inl e => inl e | inr reply => range_members reply end) with
  | inl e => (r, (0, Some (wrapf "redis get avg latency: " e)))
  | inr samples => (r, (average_members samples, None))
  end.

Definition redis_RecordLatency (s : RedisStateStore) (l : link) (endpointID : string) :=
  recordLatencyTo s l (redis_key s ["latency"; endpointID]).
Definition redis_GetAvgLatency (s : RedisStateStore) (l : link) (endpointID : string) :=
  getAvgLatencyFrom s l (redis_key s ["latency"; endpointID]).
Definition redis_RecordTTFT (s : RedisStateStore) (l : link) (endpointID : string) :=
  recordLatencyTo s l (redis_key s ["latency_ttft"; endpointID]).
Definition redis_GetAvgTTFT (s : RedisStateStore) (l : link) (endpointID : string) :=
  getAvgLatencyFrom s l (redis_key s ["latency_ttft"; endpointID]).

(** [strconv.ParseFloat]: the number, or the error of a text that is none. *)
Context (ParseFloat : string -> goerror + float64).

Definition parsed (res : goerror + float64) : float64 * option goerror :=
  match res with inr v => (v, None) | inl e => (fzero, Some e) end.

(** [Run] sends the digest of the script and, where the server does not know it, its
    text; the script runs once. *)
Definition redis_UpdateEMA (s : RedisStateStore) (l : link) (key : string) (actual : Z) (alpha : float64) (t : Z) (r : R) :
  R * (float64 * option goerror) :=
  match Eval l (update_ema (redis_key s ["ema"; key]) (of_int actual) alpha (of_int (7 * 24 * 3600))) t r with
  | (r, inl e) => (r, (fzero, Some e))
  | (r, inr valStr) => (r, parsed (ParseFloat valStr))
  end.

Definition redis_GetEMA (s : RedisStateStore) (l : link) (key : string) (t : Z) (r : R) : R * (float64 * option goerror) :=
  match Eval l (redis_do (GET (redis_key s ["ema"; key]))) t r with
  | (r, inl e) => (r, (fzero, Some e))
  | (r, inr (RBulk None)) => (r, (fzero, None))
  | (r, inr (RBulk (Some valStr))) => (r, parsed (ParseFloat valStr))
  | (r, inr _) => (r, (fzero, Some (errorf "redis: unexpected reply")))
  end.
End scripts.

Arguments Script : clear implicits.
Arguments sbind {R A B} m f t r /.
Arguments sret {R A} x t r /.
Arguments sfail {R A} e t r /.
Arguments redis_do {R _} c t r /.

#[local] Arguments of_int : simpl never.

(** * What the scripts rely on *)

Inductive rvalue := RString (s : string) | RHash (h : gmap string string) | RZset (l : list (float64 * string)).

(** A live entry: its value and the server time it expires at, if it does. *)
Definition rentry : Type := (rvalue * option Z)%type.

(** Redis drops a key once the clock is past its expiry. *)
Definition live_at (t : Z) (e : option rentry) : option rentry :=
  match e with
  | Some (v, Some d) => if d <? t then None else Some (v, Some d)
  | _ => e
  end.

(** The integer a key counts from: a missing key is 0 without expiry. *)
Definition counter_of (e : option rentry) : option (Z * option Z) :=
  match e with
  | None => Some (0, None)
  | Some (RString s, d) => (fun v => (v, d)) <$> ParseInt s
  | Some _ => None
  end.

Definition deadline_of (e : option rentry) : option Z := e ≫= snd.

(** The fields of a hash: a missing key is the empty hash. *)
Definition hash_of (e : option rentry) : option (gmap string string) :=
  match e with
  | None => Some ∅
  | Some (RHash h, _) => Some h
  | Some _ => None
  end.

Class RedisEntries (R : Type) := { entry : R -> Z -> string -> option rentry }.

Section laws.
Context {R : Type} `{RedisServer R, RedisEntries R}.

(** From time [t] on, [r'] has the entries of [r] except at key [k], where it has [e]. *)
Definition stores (r r' : R) (t : Z) (k : string) (e : option rentry) : Prop :=
  forall t' k', t <= t' -> entry r' t' k' = if seqb k k' then live_at t' e else entry r t' k'.

(** The documented behaviour of the commands, where the arguments have the right type. *)
Class RedisLaws (num_text : float64 -> string) := {
  (** integers are printed in full *)
  num_text_int z : exact_int z -> num_text (of_int z) = Itoa z;
  entry_live (r : R) t t' k : t <= t' -> entry r t' k = live_at t' (entry r t k);
  incrby_law (r : R) t k n v d : exact_int n -> counter_of (entry r t k) = Some (v, d) -> in_int64 (v + n) ->
    exists r', redis_call r t (INCRBY k (of_int n)) = (r', inr (RInt (v + n))) /\
      stores r r' t k (Some (RString (Itoa (v + n)), d));
  decrby_law (r : R) t k n v d : exact_int n -> counter_of (entry r t k) = Some (v, d) -> in_int64 (v - n) ->
    exists r', redis_call r t (DECRBY k (of_int n)) = (r', inr (RInt (v - n))) /\
      stores r r' t k (Some (RString (Itoa (v - n)), d));
  pttl_law (r : R) t k v d : entry r t k = Some (v, d) ->
    exists r', redis_call r t (PTTL k) = (r', inr (RInt (match d with Some x => x - t | None => -1 end))) /\
      stores r r' t k (Some (v, d));
  pexpire_law (r : R) t k v d ms : entry r t k = Some (v, d) -> exact_int ms -> 0 < ms ->
    exists r', redis_call r t (PEXPIRE k (of_int ms)) = (r', inr (RInt 1)) /\ stores r r' t k (Some (v, Some (t + ms)));
  persist_law (r : R) t k v d : entry r t k = Some (v, d) ->
    exists r' n, redis_call r t (PERSIST k) = (r', inr (RInt n)) /\ stores r r' t k (Some (v, None));
  exists_law (r : R) t k : exists r', redis_call r t (EXISTS k) = (r', inr (RInt (if entry r t k then 1 else 0))) /\
    stores r r' t k (entry r t k);
  set_keepttl_law (r : R) t k f : exists r', redis_call r t (SET_KEEPTTL k f) = (r', inr RStatus) /\
    stores r r' t k (Some (RString (num_text f), deadline_of (entry r t k)));
  hmget_law (r : R) t k fields h : hash_of (entry r t k) = Some h ->
    exists r', redis_call r t (HMGET k fields) = (r', inr (RArray (map (fun f => h !! f) fields))) /\
      stores r r' t k (entry r t k);
  hmset_law (r : R) t k fields h : hash_of (entry r t k) = Some h -> fields <> [] ->
    exists r', redis_call r t (HMSET k fields) = (r', inr RStatus) /\
      stores r r' t k (Some (RHash (fold_left (fun h p => <[fst p := num_text (snd p)]> h) fields h),
                             deadline_of (entry r t k)))
}.
End laws.
Arguments RedisLaws R {_ _} num_text.

(** * Fixed windows: the abstract counter *)

(** The operations of the limiter on one key, at a server time. *)
Inductive window_op := OpIncr (tokens : Z) (window : Duration) | OpRefund (tokens : Z).

(** A counter with the end of its window, both absent outside of a window. *)
Definition window_state : Type := option (Z * Z).

Definition window_live (t : Z) (w : window_state) : window_state :=
  match w with Some (c, d) => if d <? t then None else Some (c, d) | None => None end.

(** The reference: an increment outside of a window opens one that lasts [window]; a
    refund never goes below zero, never moves the end, and does nothing outside of a
    window. The result of an increment is what is used of the window. *)
Definition window_step (t : Z) (o : window_op) (w : window_state) : window_state * Z :=
  match o, window_live t w with
  | OpIncr n win, Some (c, d) => (Some (c + n, d), c + n)
  | OpIncr n win, None => (Some (n, t + window_ms win), n)
  | OpRefund n, Some (c, d) => (Some (Z.max 0 (c - n), d), 0)
  | OpRefund n, None => (None, 0)
  end.

Fixpoint window_run (ops : list (Z * window_op)) (w : window_state) : window_state * list Z :=
  match ops with
  | [] => (w, [])
  | (t, o) :: rest =>
      let '(w, v) := window_step t o w in
      let '(w, vs) := window_run rest w in (w, v :: vs)
  end.

(** ** The store on a run of operations *)

Section window.
Context {R : Type} `{RedisServer R}.

Definition redis_window_step (s : RedisStateStore) (key : string) (t : Z) (o : window_op) (r : R) :
  R * (Z * option goerror) :=
  match o with
  | OpIncr n win => redis_RateLimitIncr s Answered key n win t r
  | OpRefund n => let '(r, err) := redis_RateLimitRefund s Answered key n t r in (r, (0, err))
  end.

Fixpoint redis_window_run (s : RedisStateStore) (key : string) (ops : list (Z * window_op)) (r : R) :
  R * list (Z * option goerror) :=
  match ops with
  | [] => (r, [])
  | (t, o) :: rest =>
      let '(r, v) := redis_window_step s key t o r in
      let '(r, vs) := redis_window_run s key rest r in (r, v :: vs)
  end.
End window.

(** Clock order, non-negative amounts, windows of a millisecond or more. *)
Definition op_ok (o : window_op) : Prop :=
  match o with
  | OpIncr n win => 0 <= n < 2 ^ 53 /\ Millisecond <= win <= max_int64
  | OpRefund n => 0 <= n < 2 ^ 53
  end.

(** The clock readings of a run do not go back; its last reading. *)
Fixpoint clocked (t0 : Z) (ops : list (Z * window_op)) : Prop :=
  match ops with [] => True | (t, _) :: rest => t0 <= t /\ clocked t rest end.
Fixpoint last_reading (t0 : Z) (ops : list (Z * window_op)) : Z :=
  match ops with [] => t0 | (t, _) :: rest => last_reading t rest end.

Definition op_tokens (o : window_op) : Z := match o with OpIncr n _ => n | OpRefund _ => 0 end.
Definition ops_tokens (ops : list (Z * window_op)) : Z := fold_right (fun p z => op_tokens (snd p) + z) 0 ops.

Section refinement.
Context {R : Type} `{RedisServer R, RedisEntries R} (num_text : float64 -> string) `{!RedisLaws R num_text}.

(** How a window is kept on the server. *)
Definition window_entry (w : window_state) : option rentry :=
  match w with Some (c, d) => Some (RString (Itoa c), Some d) | None => None end.

Lemma window_entry_live t w : live_at t (window_entry w) = window_entry (window_live t w).
Proof. destruct w as [[c d]|]; cbn; [|done]. by destruct (d <? t). Qed.

Lemma window_live_twice t t' w : t <= t' -> window_live t' (window_live t w) = window_live t' w.
Proof.
  intros L. destruct w as [[c d]|]; cbn; [|done]. destruct (Z.ltb_spec d t); cbn; [|done].
  destruct (Z.ltb_spec d t'); [done|lia].
Qed.

Lemma stores_trans r r1 r2 t k e1 e2 : stores r r1 t k e1 -> stores r1 r2 t k e2 -> stores r r2 t k e2.
Proof.
  intros H1 H2 t' k' L. rewrite (H2 t' k' L). destruct (seqb k k') eqn:E; [done|].
  rewrite (H1 t' k' L). by rewrite E.
Qed.

Lemma stores_at r r' t k e : stores r r' t k e -> entry r' t k = live_at t e.
Proof. intros S. rewrite (S t k ltac:(lia)). by rewrite seqb_refl. Qed.

(** The counter stays within what a Lua number holds, and its window ends in reach. *)
Definition window_ok (t : Z) (w : window_state) (room : Z) : Prop :=
  match window_live t w with Some (c, d) => 0 <= c /\ c + room < 2 ^ 53 /\ d - t < 2 ^ 53 | None => 0 <= room < 2 ^ 53 end.

Lemma window_ms_exact win : Millisecond <= win <= max_int64 -> 0 < window_ms win /\ exact_int (window_ms win).
Proof.
  unfold window_ms, Millisecond, max_int64, exact_int. intros [H1 H2].
  rewrite Z.quot_div_nonneg by lia.
  pose proof (Z.div_le_lower_bound win 1000000 1 ltac:(lia) ltac:(lia)).
  pose proof (Z.div_le_upper_bound win 1000000 9223372036855 ltac:(lia) ltac:(lia)). lia.
Qed.

Lemma exact_in_int64 z : exact_int z -> in_int64 z.
Proof. unfold exact_int, in_int64, min_int64, max_int64. lia. Qed.

Lemma live_counter t c d : counter_of (live_at t (Some (RString c, d))) =
  match live_at t (Some (RString c, d)) with Some _ => (fun v => (v, d)) <$> ParseInt c | None => Some (0, None) end.
Proof. destruct d as [d|]; cbn; [|done]. by destruct (d <? t). Qed.

(** The increment script is the increment of the reference. *)
Lemma incr_script_spec r t k n win w :
  entry r t k = window_entry (window_live t w) -> op_ok (OpIncr n win) -> window_ok t w n ->
  exists r', rate_limit_incr k (of_int n) (of_int (window_ms win)) t r =
      (r', inr (snd (window_step t (OpIncr n win) w))) /\
    stores r r' t k (window_entry (fst (window_step t (OpIncr n win) w))).
Proof.
  intros E [Hn Hw] Ok. destruct (window_ms_exact win Hw) as [Pw Ew].
  assert (exact_int n) as En by (unfold exact_int; lia).
  unfold window_ok in Ok. unfold window_step, rate_limit_incr, as_number, sbind, redis_do, sret.
  destruct (window_live t w) as [[c d]|] eqn:L; cbn [window_entry fst snd] in *.
  - assert (~ d < t) as Ld.
    { destruct w as [[c' d']|]; cbn in L; [|done]. destruct (Z.ltb_spec d' t); simplify_eq. lia. }
    assert (exact_int (c + n)) as Ec by (unfold exact_int; lia).
    destruct (incrby_law r t k n c (Some d)) as (r1 & C1 & S1); [done|rewrite E; cbn; rewrite ParseInt_Itoa; [done|]|by apply exact_in_int64|].
    { apply exact_in_int64. unfold exact_int. lia. }
    rewrite C1. pose proof (stores_at _ _ _ _ _ S1) as E1. cbn in E1.
    destruct (Z.ltb_spec d t); [lia|]. destruct (pttl_law r1 t k _ _ E1) as (r2 & C2 & S2). rewrite C2.
    rewrite feq_of_int by (unfold exact_int; lia). destruct (Z.eqb_spec (d - t) (-1)); [lia|].
    rewrite to_int64_of_int by done. exists r2. split; [done|]. by eapply stores_trans.
  - destruct (incrby_law r t k n 0 None) as (r1 & C1 & S1); [done|by rewrite E|by apply exact_in_int64|].
    rewrite C1. pose proof (stores_at _ _ _ _ _ S1) as E1. cbn in E1. rewrite Z.add_0_l in *.
    destruct (pttl_law r1 t k _ _ E1) as (r2 & C2 & S2). rewrite C2.
    rewrite feq_of_int by (unfold exact_int; lia). cbn [Z.eqb Pos.eqb].
    pose proof (stores_at _ _ _ _ _ S2) as E2. cbn in E2.
    destruct (pexpire_law r2 t k _ _ (window_ms win) E2 Ew Pw) as (r3 & C3 & S3). rewrite C3.
    rewrite to_int64_of_int by done. exists r3. split; [done|]. eapply stores_trans; [|exact S3]. by eapply stores_trans.
Qed.

(** The refund script is the refund of the reference. *)
Lemma refund_script_spec r t k n w :
  entry r t k = window_entry (window_live t w) -> op_ok (OpRefund n) -> window_ok t w 0 ->
  exists r' v, rate_limit_refund k (of_int n) t r = (r', inr v) /\
    stores r r' t k (window_entry (fst (window_step t (OpRefund n) w))).
Proof.
  intros E Hn Ok. cbn in Hn. assert (exact_int n) as En by (unfold exact_int; lia).
  unfold window_ok in Ok. unfold window_step, rate_limit_refund, as_number, sbind, redis_do, sret.
  destruct (exists_law r t k) as (r1 & C1 & S1). rewrite C1, feq_of_int by (destruct (entry r t k); done).
  destruct (window_live t w) as [[c d]|] eqn:L; cbn [window_entry fst snd] in *; rewrite E in *.
  - assert (~ d < t) as Ld.
    { destruct w as [[c' d']|]; cbn in L; [|done]. destruct (Z.ltb_spec d' t); simplify_eq. lia. }
    cbn [Z.eqb]. pose proof (stores_at _ _ _ _ _ S1) as E1. cbn in E1. destruct (Z.ltb_spec d t); [lia|].
    assert (exact_int (c - n)) as Ec by (unfold exact_int; lia).
    destruct (decrby_law r1 t k n c (Some d)) as (r2 & C2 & S2); [done|rewrite E1; cbn; rewrite ParseInt_Itoa; [done|]|by apply exact_in_int64|].
    { apply exact_in_int64. unfold exact_int. lia. }
    rewrite C2. change (of_int 0) with fzero. rewrite flt_of_int_zero by done.
    pose proof (stores_trans _ _ _ _ _ _ _ S1 S2) as S12.
    destruct (Z.ltb_spec (c - n) 0).
    + pose proof (stores_at _ _ _ _ _ S2) as E2. cbn in E2. destruct (Z.ltb_spec d t); [lia|].
      destruct (set_keepttl_law r2 t k fzero) as (r3 & C3 & S3). rewrite C3. exists r3, 0. split; [done|].
      rewrite E2, (num_text_int 0 ltac:(done) : num_text fzero = _) in S3. cbn in S3.
      replace (Z.max 0 (c - n)) with 0 by lia. by eapply stores_trans.
    + exists r2, (to_int64 (of_int (c - n))). split; [done|]. by replace (Z.max 0 (c - n)) with (c - n) by lia.
  - exists r1, 0. by split.
Qed.

Definition window_room (t : Z) (w : window_state) (room : Z) : Prop :=
  0 <= room < 2 ^ 53 /\ match w with Some (c, d) => 0 <= c /\ c + room < 2 ^ 53 /\ d - t < 2 ^ 53 | None => True end.

Lemma window_room_ok t t' w room n : window_room t w room -> t <= t' -> 0 <= n <= room -> window_ok t' w n.
Proof.
  unfold window_room, window_ok. intros [Hr Hw] L Hn. destruct w as [[c d]|]; cbn; [|lia].
  destruct (Z.ltb_spec d t'); lia.
Qed.

Lemma window_room_step t t' o w room :
  window_room t w (op_tokens o + room) -> 0 <= room -> op_ok o -> t <= t' ->
  window_room t' (fst (window_step t' o w)) room.
Proof.
  intros [Hr Hw] Hroom Ho L. destruct o as [n win|n]; cbn [op_tokens op_ok] in *.
  - destruct Ho as [Hn Hwin]. destruct (window_ms_exact win Hwin) as [P E]. unfold exact_int in E.
    unfold window_step, window_live. destruct w as [[c d]|]; [destruct (Z.ltb_spec d t')|]; cbn; unfold window_room; cbn; lia.
  - unfold window_step, window_live. destruct w as [[c d]|]; [destruct (Z.ltb_spec d t')|]; cbn; unfold window_room; cbn; lia.
Qed.

(** [r] keeps window [w] at [k] from [t] on. *)
Definition keeps (r : R) (t : Z) (k : string) (w : window_state) : Prop :=
  forall t', t <= t' -> entry r t' k = window_entry (window_live t' w).

Lemma stores_keeps r r' t k w : stores r r' t k (window_entry w) -> keeps r' t k w.
Proof. intros S t' L. rewrite (S t' k L), seqb_refl. apply window_entry_live. Qed.

Lemma redis_window_step_spec s key t o r w :
  let k := redis_key s ["rl"; key] in
  keeps r t k w -> op_ok o -> window_ok t w (op_tokens o) ->
  exists r', redis_window_step s key t o r = (r', (snd (window_step t o w), None)) /\
    stores r r' t k (window_entry (fst (window_step t o w))).
Proof.
  intros k K Ho Ok. destruct o as [n win|n]; cbn [redis_window_step].
  - destruct (incr_script_spec r t k n win w (K t ltac:(lia)) Ho Ok) as (r' & E & S).
    exists r'. split; [|done]. unfold redis_RateLimitIncr, Eval. fold k. by rewrite E.
  - destruct (refund_script_spec r t k n w (K t ltac:(lia)) Ho Ok) as (r' & v & E & S).
    exists r'. split; [|done]. unfold redis_RateLimitRefund, Eval. fold k. rewrite E.
    unfold window_step. by destruct (window_live t w) as [[]|].
Qed.

Lemma ops_tokens_nonneg ops : Forall (fun p => op_ok (snd p)) ops -> 0 <= ops_tokens ops.
Proof. unfold ops_tokens. induction 1 as [|[t []] l H1 _ IH]; cbn in *; lia. Qed.

Lemma clocked_last t ops : clocked t ops -> t <= last_reading t ops.
Proof.
  revert t. induction ops as [|[u o] l IH]; cbn; intros t H1; [lia|]. destruct H1 as [H1 H2]. specialize (IH u H2). lia.
Qed.

Lemma redis_window_run_spec s key ops t0 r w :
  let k := redis_key s ["rl"; key] in
  keeps r t0 k w -> clocked t0 ops -> Forall (fun p => op_ok (snd p)) ops -> window_room t0 w (ops_tokens ops) ->
  exists r', redis_window_run s key ops r = (r', map (fun v => (v, None)) (snd (window_run ops w))) /\
    keeps r' (last_reading t0 ops) k (fst (window_run ops w)) /\
    forall t k', last_reading t0 ops <= t -> k' <> k -> entry r' t k' = entry r t k'.
Proof.
  intros k. revert t0 r w. induction ops as [|[t o] ops IH]; intros t0 r w K Hc Ho Hr; [by exists r|].
  destruct Hc as [L Hc]. apply Forall_cons in Ho as [Ho1 Ho]. cbn [snd] in Ho1.
  pose proof (ops_tokens_nonneg ops Ho) as N. change (ops_tokens ((t, o) :: ops)) with (op_tokens o + ops_tokens ops) in Hr.
  destruct (redis_window_step_spec s key t o r w) as (r1 & E1 & S1); [intros t' L'; apply K; lia|done| |].
  { eapply window_room_ok; [exact Hr|done|]. destruct o; cbn in *; lia. }
  pose proof (window_room_step t0 t o w (ops_tokens ops) Hr N Ho1 L) as Hr1.
  cbn [redis_window_run window_run]. rewrite E1. destruct (window_step t o w) as [w1 v] eqn:W. cbn [fst snd] in *.
  destruct (IH t r1 w1 (stores_keeps _ _ _ _ _ S1) Hc Ho Hr1) as (r2 & E2 & K2 & F2). rewrite E2.
  destruct (window_run ops w1) as [w2 vs]. cbn [fst snd] in *. exists r2. split; [done|]. split; [done|].
  intros t' k' L' Nk. cbn [last_reading] in L'. rewrite F2 by done.
  pose proof (clocked_last t ops Hc) as Lt.
  rewrite (S1 t' k' ltac:(lia)). fold k. destruct (seqb k k') eqn:E; [sbool; congruence|done].
Qed.

(** C28: The Redis store counts fixed windows: on any server that executes the commands of
    its scripts as documented, a run of increments and refunds of a key, in clock order,
    returns exactly what the reference counter returns and no error. The reference opens a
    window at the first increment, adds inside it without moving its end, starts again from
    zero after it, clamps refunds at zero and ignores a refund outside of a window. The key
    afterwards holds the counter of the reference with its expiry, and no other key changed.
    The increments of the run stay below 2^53, where Lua numbers are exact. *)
Theorem redis_window_refinement (s : RedisStateStore) (key : string) (ops : list (Z * window_op)) (t0 : Z) (r : R)
  (Hfresh : entry r t0 (redis_key s ["rl"; key]) = None) (Hclock : clocked t0 ops)
  (Hops : Forall (fun p => op_ok (snd p)) ops) (Hsum : ops_tokens ops < 2 ^ 53) :
  let '(r', results) := redis_window_run s key ops r in
  let '(w, values) := window_run ops None in
  results = map (fun v => (v, None)) values /\
  forall t, last_reading t0 ops <= t ->
    entry r' t (redis_key s ["rl"; key]) = window_entry (window_live t w) /\
    forall k, k <> redis_key s ["rl"; key] -> entry r' t k = entry r t k.
Proof.
  destruct (redis_window_run_spec s key ops t0 r None) as (r' & E & K & F); [|done..| |].
  - intros t L. by rewrite (entry_live r t0 t _ L), Hfresh.
  - split; [|done]. pose proof (ops_tokens_nonneg ops Hops). lia.
  - rewrite E. destruct (window_run ops None) as [w vs]. cbn in *. auto.
Qed.

End refinement.

(** * A server in memory *)

(** The keys of a server; an expired key stays until it is read past its expiry. *)
Abbreviation mem_redis := (gmap string rentry) (only parsing).

Section mem_redis.
(** How a number is printed as an argument, and read as an integer. *)
Context (num_text : float64 -> string).

Definition mem_entry (m : mem_redis) (t : Z) (k : string) : option rentry := live_at t (m !! k).

Definition wrong_type : goerror := errorf "WRONGTYPE Operation against a key holding the wrong kind of value".
Definition not_integer : goerror := errorf "ERR value is not an integer or out of range".

Definition mem_put (m : mem_redis) (k : string) (e : rentry) (reply : Reply) : mem_redis * (goerror + Reply) :=
  (<[k := e]> m, inr reply).

Definition mem_add (m : mem_redis) (t : Z) (k : string) (n : option Z) : mem_redis * (goerror + Reply) :=
  match n, counter_of (mem_entry m t k) with
  | Some n, Some (v, d) =>
      if bool_decide (in_int64 (v + n)) then mem_put m k (RString (Itoa (v + n)), d) (RInt (v + n))
      else (m, inl (errorf "ERR increment or decrement would overflow"))
  | None, _ => (m, inl not_integer)
  | _, None => (m, inl wrong_type)
  end.

Fixpoint zset_insert (x : float64 * string) (l : list (float64 * string)) : list (float64 * string) :=
  match l with
  | [] => [x]
  | y :: r => if flt (fst x) (fst y) || feq (fst x) (fst y) && String.ltb (snd x) (snd y) then x :: l
              else y :: zset_insert x r
  end.

Definition zset_of (e : option rentry) : option (list (float64 * string)) :=
  match e with None => Some [] | Some (RZset l, _) => Some l | Some _ => None end.

(** Ranks count from the end when negative. *)
Definition rank_of (z : Z) (n : nat) : Z := if z <? 0 then z + Z.of_nat n else z.

Definition mem_call (m : mem_redis) (t : Z) (c : Cmd) : mem_redis * (goerror + Reply) :=
  match c with
  | INCRBY k n => mem_add m t k (ParseInt (num_text n))
  | DECRBY k n => mem_add m t k (Z.opp <$> ParseInt (num_text n))
  | PTTL k => (m, inr (RInt match mem_entry m t k with
                            | None => -2
                            | Some (_, None) => -1
                            | Some (_, Some d) => d - t
                            end))
  | PEXPIRE k ms =>
      match ParseInt (num_text ms), mem_entry m t k with
      | None, _ => (m, inl not_integer)
      | _, None => (m, inr (RInt 0))
      | Some z, Some (v, _) => if z <=? 0 then (delete k m, inr (RInt 1)) else mem_put m k (v, Some (t + z)) (RInt 1)
      end
  | PERSIST k =>
      match mem_entry m t k with
      | Some (v, Some _) => mem_put m k (v, None) (RInt 1)
      | _ => (m, inr (RInt 0))
      end
  | EXISTS k => (m, inr (RInt (if mem_entry m t k then 1 else 0)))
  | GET k =>
      match mem_entry m t k with
      | None => (m, inr (RBulk None))
      | Some (RString s, _) => (m, inr (RBulk (Some s)))
      | Some _ => (m, inl wrong_type)
      end
  | SET_KEEPTTL k v => mem_put m k (RString (num_text v), deadline_of (mem_entry m t k)) RStatus
  | SET_EX k v seconds =>
      match ParseInt (num_text seconds) with
      | Some z => if z <=? 0 then (m, inl (errorf "ERR invalid expire time in 'set' command"))
                  else mem_put m k (RString (num_text v), Some (t + z * 1000)) RStatus
      | None => (m, inl not_integer)
      end
  | HMGET k fields =>
      match hash_of (mem_entry m t k) with
      | Some h => (m, inr (RArray (map (fun f => h !! f) fields)))
      | None => (m, inl wrong_type)
      end
  | HMSET k fields =>
      match hash_of (mem_entry m t k) with
      | Some h => mem_put m k (RHash (fold_left (fun h p => <[fst p := num_text (snd p)]> h) fields h),
                               deadline_of (mem_entry m t k)) RStatus
      | None => (m, inl wrong_type)
      end
  | ZADD k score member =>
      match zset_of (mem_entry m t k) with
      | Some l => let rest := List.filter (fun y => negb (seqb (snd y) member)) l in
          mem_put m k (RZset (zset_insert (score, member) rest), deadline_of (mem_entry m t k))
            (RInt (if (length rest =? length l)%nat then 1 else 0))
      | None => (m, inl wrong_type)
      end
  | ZCARD k =>
      match zset_of (mem_entry m t k) with
      | Some l => (m, inr (RInt (Z.of_nat (length l))))
      | None => (m, inl wrong_type)
      end
  | ZREMRANGEBYRANK k start stop =>
      match zset_of (mem_entry m t k), ParseInt (num_text start), ParseInt (num_text stop) with
      | Some l, Some a, Some b =>
          let a := Z.to_nat (rank_of a (length l)) in
          let b := Z.to_nat (rank_of b (length l) + 1) in
          let kept := take a l ++ drop (Nat.max a b) l in
          let removed := RInt (Z.of_nat (length l - length kept)) in
          match kept with
          | [] => (delete k m, inr removed)
          | _ => mem_put m k (RZset kept, deadline_of (mem_entry m t k)) removed
          end
      | None, _, _ => (m, inl wrong_type)
      | _, _, _ => (m, inl not_integer)
      end
  | ZRANGEBYSCORE k min max =>
      match zset_of (mem_entry m t k), ParseInt min, ParseInt max with
      | Some l, Some a, Some b =>
          (m, inr (RArray (map (fun y => Some (snd y))
            (List.filter (fun y => fle (of_int a) (fst y) && fle (fst y) (of_int b)) l))))
      | None, _, _ => (m, inl wrong_type)
      | _, _, _ => (m, inl (errorf "ERR min or max is not a float"))
      end
  end.
End mem_redis.

(** Whole numbers as text: what a script that counts passes. *)
Definition whole_text (f : float64) : string := Itoa (to_int64 f).

#[global] Instance mem_RedisServer : RedisServer mem_redis := { redis_call := mem_call whole_text }.
#[global] Instance mem_RedisEntries : RedisEntries mem_redis := { entry := mem_entry }.

Lemma whole_int z : exact_int z -> ParseInt (whole_text (of_int z)) = Some z.
Proof. intros E. unfold whole_text. rewrite to_int64_of_int by done. by apply ParseInt_Itoa, exact_in_int64. Qed.

Lemma live_twice t t' e : t <= t' -> live_at t' (live_at t e) = live_at t' e.
Proof.
  intros L. destruct e as [[v [d|]]|]; cbn; try done. destruct (Z.ltb_spec d t); cbn; [|done].
  destruct (Z.ltb_spec d t'); [done|lia].
Qed.

Lemma mem_same (m : mem_redis) t k : stores m m t k (mem_entry m t k).
Proof.
  intros t' k' L. cbn. unfold mem_entry. destruct (seqb k k') eqn:E; [|done]. sbool. subst. by rewrite live_twice.
Qed.

Lemma mem_insert (m : mem_redis) t k e : stores m (<[k := e]> m) t k (Some e).
Proof.
  intros t' k' L. cbn. unfold mem_entry. destruct (seqb k k') eqn:E; sbool.
  - subst. by rewrite lookup_insert_eq.
  - by rewrite lookup_insert_ne.
Qed.

Lemma mem_add_spec (m : mem_redis) t k n v d :
  counter_of (mem_entry m t k) = Some (v, d) -> in_int64 (v + n) ->
  mem_add m t k (Some n) = (<[k := (RString (Itoa (v + n)), d)]> m, inr (RInt (v + n))).
Proof. intros C I. unfold mem_add. rewrite C. by rewrite bool_decide_eq_true_2. Qed.

#[global] Program Instance mem_RedisLaws : RedisLaws mem_redis whole_text.
Next Obligation. intros z E. unfold whole_text. by rewrite to_int64_of_int. Qed.
Next Obligation. intros r t t' k L. cbn. unfold mem_entry. by rewrite live_twice. Qed.
Next Obligation.
  intros r t k n v d E C I. cbn in *. rewrite whole_int by done. rewrite (mem_add_spec _ _ _ _ _ _ C I).
  eexists. split; [done|]. apply mem_insert.
Qed.
Next Obligation.
  intros r t k n v d E C I. cbn in *. rewrite whole_int by done. cbn [fmap option_fmap option_map].
  rewrite (mem_add_spec _ _ _ (- n) _ _ C) by (by replace (v + - n) with (v - n) by lia). rewrite Z.add_opp_r.
  eexists. split; [done|]. apply mem_insert.
Qed.
Next Obligation. intros r t k v d E. cbn in *. rewrite E. eexists. split; [done|]. rewrite <- E. apply mem_same. Qed.
Next Obligation.
  intros r t k v d ms E X P. cbn in *. rewrite whole_int, E by done. destruct (Z.leb_spec ms 0); [lia|].
  eexists. split; [done|]. apply mem_insert.
Qed.
Next Obligation.
  intros r t k v d E. cbn in *. rewrite E. destruct d as [d|].
  - eexists _, _. split; [done|]. apply mem_insert.
  - eexists _, _. split; [done|]. rewrite <- E. apply mem_same.
Qed.
Next Obligation. intros r t k. cbn. eexists. split; [done|]. apply mem_same. Qed.
Next Obligation. intros r t k f. cbn. eexists. split; [done|]. apply mem_insert. Qed.
Next Obligation. intros r t k fields h E. cbn in *. rewrite E. eexists. split; [done|]. apply mem_same. Qed.
Next Obligation. intros r t k fields h E N. cbn in *. rewrite E. eexists. split; [done|]. apply mem_insert. Qed.

Definition demo_store : RedisStateStore := NewRedisStateStore None.

(** Two charges and a refund inside a window of one second, and a charge after its end. *)
Definition demo_ops : list (Z * window_op) :=
  [(1000, OpIncr 5 Second); (1400, OpIncr 2 Second); (1900, OpRefund 3); (2001, OpIncr 4 Second)].

Lemma redis_window_refinement_witness :
  snd (redis_window_run demo_store "k" demo_ops (∅ : mem_redis)) = [(5, None); (7, None); (0, None); (4, None)].
Proof.
  pose proof (redis_window_refinement whole_text demo_store "k" demo_ops 1000 (∅ : mem_redis)) as T.
  destruct (redis_window_run demo_store "k" demo_ops (∅ : mem_redis)) as [r' res].
  destruct T as [E _]; [done|cbn; lia|repeat constructor; cbn; unfold Second, Millisecond, max_int64; lia|done|].
  exact E.
Defined.

(** * Latency samples *)

Lemma digit_ge c : is_digit c = true -> 48 <= byte_val c.
Proof. unfold is_digit, in_range. intros [H _]%andb_true_iff. lia. Qed.

Lemma digits_value_ge l n v : 0 <= n -> digits_value l n = Some v -> n <= v.
Proof.
  revert n. induction l as [|c l IH]; cbn; intros n Hn E; [by simplify_eq|]. destruct (is_digit c) eqn:D; [|done].
  pose proof (digit_ge c D). apply IH in E; lia.
Qed.

Lemma scan_uint_value l n v : 0 <= n -> v < two64 -> digits_value l n = Some v -> scan_uint l n = Some (v, true).
Proof.
  revert n. induction l as [|c l IH]; cbn; intros n Hn Hv E; [by simplify_eq|]. destruct (is_digit c) eqn:D; [|done].
  pose proof (digit_ge c D). pose proof (digits_value_ge l (n * 10 + (byte_val c - 48)) v ltac:(lia) E).
  destruct (Z.leb_spec two64 (n * 10 + (byte_val c - 48))); [lia|]. apply IH; [lia|done|done].
Qed.

Lemma ParseInt64_Itoa z : in_int64 z -> ParseInt64 (Itoa z) = (z, true).
Proof.
  unfold in_int64, min_int64, max_int64. intros Hz. unfold ParseInt64. destruct z as [|p|p]; [reflexivity| |].
  - destruct (Itoa_pos p) as (d & ds & -> & H1 & _ & H3).
    pose proof (all_bytes (fun c => implb (is_digit19 c) (negb (byte_val c =? 45) && negb (byte_val c =? 43))) ltac:(vm_compute; reflexivity) d) as P.
    cbn beta in P. rewrite H1 in P. apply andb_true_iff in P as [P1%negb_true_iff P2%negb_true_iff]. rewrite P1, P2.
    rewrite (scan_uint_value (d :: ds) 0 (Z.pos p) ltac:(lia) ltac:(unfold two64; lia) H3). unfold max_int64.
    destruct (Z.leb_spec (Z.pos p) 9223372036854775807); [|lia]. f_equal. lia.
  - rewrite Itoa_neg. destruct (Itoa_pos p) as (d & ds & -> & H1 & _ & H3).
    change (byte_val (byte_of 45) =? 45) with true. cbn iota.
    rewrite (scan_uint_value (d :: ds) 0 (Z.pos p) ltac:(lia) ltac:(unfold two64; lia) H3). unfold min_int64, two63.
    destruct (Z.leb_spec (Z.pos p) 9223372036854775808); [|lia]. f_equal. lia.
Qed.

(** A member gives back the latency it was made from. *)
Lemma member_latency_back latency rnd : in_int64 latency -> member_latency (sample_member latency rnd) = Some latency.
Proof.
  intros I. unfold member_latency, sample_member.
  rewrite !ascii_list_app. change (ascii_list ":") with [":"%char].
  assert (forall l r, (forall c, c ∈ l -> c <> ":"%char) ->
    drop_while (fun c => negb (bool_decide (c = ":"%char))) (l ++ ":"%char :: r) = ":"%char :: r) as D.
  { intros l r. induction l as [|c l IH]; intros N; [done|]. cbn. rewrite bool_decide_eq_false_2 by (apply N; left).
    cbn. apply IH. intros c' M. apply N. by right. }
  cbn [app]. rewrite D.
  - cbn [length]. rewrite length_app. cbn [length]. rewrite Nat.add_sub, take_app_length, string_of_list.
    by rewrite ParseInt64_Itoa.
  - intros c M ->. by destruct (Itoa_chars latency _ M).
Qed.

Lemma add_samples_run l a n :
  Forall (fun p => 0 <= sm_latency (fst p)) l -> 0 <= a -> 0 <= n ->
  a + latency_sum (map fst l) <= max_int64 -> n + Z.of_nat (length l) <= max_int64 ->
  fold_left add_sample (map (fun p => sample_member (sm_latency (fst p)) (snd p)) l) (a, n) =
    (a + latency_sum (map fst l), n + Z.of_nat (length l)).
Proof.
  intros F. revert a n. induction F as [|[x rnd] l Hx F IH]; intros a n Ha Hn; cbn [map fold_left].
  - cbn. intros. f_equal; lia.
  - cbn [fst snd length]. rewrite latency_sum_cons. cbn [fst] in Hx.
    assert (0 <= latency_sum (map fst l)) by (apply latency_sum_nonneg, Forall_map; exact F).
    intros H1 H2. unfold add_sample at 2. rewrite member_latency_back by (unfold in_int64, min_int64; lia). cbn [fst snd].
    rewrite !wrap64_small by (unfold in_int64, min_int64; lia). rewrite IH by lia. f_equal; lia.
Qed.

(** The average over the members of a range query is the mean the in-memory store
    computes from the same samples. *)
Lemma average_members_mean (l : list (latencySample * Z)) :
  Forall (fun p => 0 <= sm_latency (fst p)) l -> latency_sum (map fst l) <= max_int64 -> Z.of_nat (length l) <= max_int64 ->
  average_members (map (fun p => sample_member (sm_latency (fst p)) (snd p)) l) = default 0 (mean_latency (map fst l)).
Proof.
  intros F S N. unfold average_members. rewrite (add_samples_run l 0 0) by (done || lia).
  destruct l as [|x l]; [done|]. destruct (Z.eqb_spec (0 + Z.of_nat (length (x :: l))) 0); [cbn [length] in *; lia|].
  cbn [mean_latency map default from_option id]. fold (latency_sum (map fst (x :: l))). rewrite !Z.add_0_l.
  change (fst x :: map fst l) with (map fst (x :: l)). rewrite length_map. fold (latency_sum (map fst (x :: l))).
  assert (0 <= latency_sum (map fst (x :: l))) by (apply latency_sum_nonneg, Forall_map; exact F).
  rewrite wrap64_small; [done|].
  pose proof (Z.quot_le_upper_bound (latency_sum (map fst (x :: l))) (Z.of_nat (length (x :: l))) max_int64
    ltac:(cbn [length]; lia) ltac:(cbn [length] in *; nia)).
  pose proof (Z.quot_pos (latency_sum (map fst (x :: l))) (Z.of_nat (length (x :: l))) ltac:(done) ltac:(cbn [length]; lia)).
  unfold in_int64, min_int64. lia.
Qed.

(** * Token buckets *)

Lemma math_min_capped c x : flt c (math_min c x) = false.
Proof.
  unfold math_min. destruct (flt x c) eqn:E; [|apply flt_irrefl]. destruct (flt c x) eqn:E'; [|done].
  pose proof (flt_trans _ _ _ E E') as X. by rewrite flt_irrefl in X.
Qed.

Section buckets.
Context {R : Type} `{RedisServer R, RedisEntries R} (num_text : float64 -> string) `{!RedisLaws R num_text}.
Context (tonumber : string -> option float64).

(** The bucket of a key after the refill of a request; a missing one is full. *)
Definition refilled_of (h : gmap string string) (rate capacity win now_ms : float64) : option (float64 * float64) :=
  match hash_number tonumber (h !! "tokens") with
  | None => Some (capacity, now_ms)
  | Some tokens => (fun l => refill_tokens tokens l rate capacity win now_ms) <$> hash_number tonumber (h !! "last_updated")
  end.

(** What the script does once the hash is read. *)
Lemma take_reads r t k h requested rate capacity win now_ms adj tokens last :
  hash_of (entry r t k) = Some h -> refilled_of h rate capacity win now_ms = Some (tokens, last) ->
  flt requested fzero = false ->
  exists r1, stores r r1 t k (entry r t k) /\
    rate_limit_take tonumber k requested rate capacity win now_ms adj t r =
    take_decide k requested rate capacity win adj
      (adj || match hash_number tonumber (h !! "settlement") with Some x => feq x (of_int 1) | None => false end)
      tokens last t r1.
Proof.
  intros Hh Hb Hn. destruct (hmget_law r t k ["tokens"; "last_updated"; "settlement"] h Hh) as (r1 & C1 & S1).
  exists r1. split; [done|]. unfold rate_limit_take, sbind, redis_do. rewrite C1. cbn [map]. unfold refilled_of in Hb.
  destruct (hash_number tonumber (h !! "tokens")) as [tk|]; [|by simplify_eq; rewrite Hn].
  destruct (hash_number tonumber (h !! "last_updated")) as [l|]; [|done]. cbn in Hb.
  by injection Hb as ->.
Qed.

(** A refused request leaves the bucket as it is: the tokens, the refill time and the expiry. *)
Lemma take_refused_unchanged r t k h requested rate capacity win now_ms tokens last :
  hash_of (entry r t k) = Some h -> refilled_of h rate capacity win now_ms = Some (tokens, last) ->
  flt requested fzero = false -> fle requested tokens = false ->
  exists r', rate_limit_take tonumber k requested rate capacity win now_ms false t r =
      (r', inr [0; to_int64 (math_floor tokens)]) /\ stores r r' t k (entry r t k).
Proof.
  intros Hh Hb Hn Hle. destruct (take_reads r t k h requested rate capacity win now_ms false _ _ Hh Hb Hn) as (r1 & S1 & ->).
  exists r1. unfold take_decide. by rewrite Hn, Hle.
Qed.

Lemma live_now t k (r : R) : live_at t (entry r t k) = entry r t k.
Proof. symmetry. apply entry_live. lia. Qed.

(** A deadline that is not yet past: a hash written now is there. *)
Lemma stored_hash r r' t k h :
  stores r r' t k (Some (RHash h, deadline_of (entry r t k))) ->
  entry r' t k = Some (RHash h, deadline_of (entry r t k)).
Proof.
  intros S. rewrite (stores_at _ _ _ _ _ S). pose proof (live_now t k r) as L.
  destruct (entry r t k) as [[v [d|]]|]; cbn in *; try done. by destruct (d <? t).
Qed.

(** The settlement of a used amount on the bucket of a key always succeeds, writes the
    reduced balance (negative when the use was more than the bucket held, never above the
    capacity) and marks the bucket as settled. With no refill the debt never expires; otherwise it expires at
    the end [ttl] of [bucket_expiry], which is the time the refill needs where that is
    longer than two windows. *)
Lemma adjust_keeps_debt r t k h requested rate capacity win now_ms tokens last :
  hash_of (entry r t k) = Some h -> refilled_of h rate capacity win now_ms = Some (tokens, last) ->
  flt requested fzero = false -> flt fzero requested = true ->
  let balance := math_min capacity (fsub tokens requested) in
  let h' := <["settlement" := num_text (of_int 1)]> (<["last_updated" := num_text last]> (<["tokens" := num_text balance]> h)) in
  forall expiry,
    (flt fzero rate = false /\ expiry = None \/
     exists ttl, flt fzero rate = true /\ exact_int ttl /\ 0 < ttl /\ expiry = Some (t + ttl) /\
       math_max (math_floor (fmul win (of_int 2))) (math_ceil (fdiv (fmul (fsub capacity balance) win) rate)) = of_int ttl) ->
  exists r', rate_limit_take tonumber k requested rate capacity win now_ms true t r =
      (r', inr [1; to_int64 (math_floor balance)]) /\
    stores r r' t k (Some (RHash h', expiry)) /\ flt capacity balance = false.
Proof.
  intros Hh Hb Hn Hp balance h' expiry Hx.
  destruct (take_reads r t k h requested rate capacity win now_ms true _ _ Hh Hb Hn) as (r1 & S1 & ->).
  pose proof (stores_at _ _ _ _ _ S1) as E1. rewrite live_now in E1.
  unfold take_decide, sbind, redis_do. cbn [orb]. rewrite Hp. fold balance.
  destruct (hmset_law r1 t k [("tokens", balance); ("last_updated", last)] h) as (r2 & C2 & S2); [by rewrite E1|done|]. rewrite C2.
  pose proof (stored_hash _ _ _ _ _ S2) as E2. cbn [fold_left fst snd] in E2.
  destruct (hmset_law r2 t k [("settlement", of_int 1)] _ ltac:(by rewrite E2) ltac:(done)) as (r3 & C3 & S3). rewrite C3.
  pose proof (stored_hash _ _ _ _ _ S3) as E3. cbn [fold_left fst snd] in E3. fold h' in E3.
  assert (forall r4 e, stores r3 r4 t k e -> stores r r4 t k e) as T by (intros r4 e S4; do 3 (eapply stores_trans; [eassumption|]); done).
  unfold bucket_expiry. cbn [negb]. destruct Hx as [[-> ->]|(ttl & -> & Et & Pt & -> & ->)].
  - destruct (persist_law r3 t k _ _ E3) as (r4 & n & -> & S4). exists r4. split; [done|]. split; [by apply T|apply math_min_capped].
  - destruct (pexpire_law r3 t k _ _ ttl E3 Et Pt) as (r4 & -> & S4). exists r4. split; [done|]. split; [by apply T|apply math_min_capped].
Qed.
End buckets.

(** ** Where the two stores differ *)

Definition whole_number (s : string) : option float64 := of_int <$> ParseInt s.

(** A bucket of 10 that refills 1 a second and was never settled: emptied, it is full again
    on Redis once its key expired after two idle seconds, while the in-memory store has
    refilled 2 and refuses. *)
Definition redis_take_at (ms : Z) (tokens : Z) (m : mem_redis) :=
  redis_RateLimitTake whole_number demo_store Answered "k" tokens 1 10 Second (62135596800 * Second + ms * Millisecond) ms m.
Definition mem_take_at (ms : Z) (tokens : Z) (s : MemoryStateStore) :=
  mem_RateLimitTake s "k" tokens 1 10 Second (62135596800 * Second + ms * Millisecond).

Lemma plain_bucket_expires_full :
  snd (redis_take_at 2001 10 (fst (redis_take_at 0 10 ∅))) = (true, 0, None) /\
  snd (mem_take_at 2001 10 (fst (mem_take_at 0 10 NewMemoryStateStore))) = (false, 2, None).
Proof. vm_compute. split; reflexivity. Qed.

(** A refund before the first charge: ignored by Redis, while the in-memory store keeps an
    entry with an empty window and never accumulates. *)
Lemma early_refund_ignored :
  snd (redis_window_run demo_store "k" [(1000, OpRefund 3); (1001, OpIncr 5 Second); (1002, OpIncr 2 Second)] (∅ : mem_redis))
    = [(0, None); (5, None); (7, None)].
Proof. vm_compute. reflexivity. Qed.

(** A window below a millisecond: the key is deleted as soon as it is counted. *)
Lemma short_window_never_counts :
  snd (redis_window_run demo_store "k" [(1000, OpIncr 5 999999); (1000, OpIncr 2 999999)] (∅ : mem_redis))
    = [(5, None); (2, None)].
Proof. vm_compute. reflexivity. Qed.
