(* ===== verification/StatusCollector.v ===== *)
(** The status collector, pkg/filters/outbound/status_collector.go: per-request metrics, counted in
    Redis by minute and by day, or queued and reported in batches to the admin console.

    [day] is the date of a time in the local time zone; the channel of metrics is a list. *)

From S2P Require Import Prelude GoFloat GoStrings GoTime GoJson GoPrint Matcher Policy Types Context Http Cache ApiKeys.

(** * Metrics *)

Record AttemptMetric := mkAttemptMetric { am_EndpointID : string; am_Provider : string; am_ProviderCode : string; am_Success : bool }.
Record RequestMetric := mkRequestMetric {
  rm_Time : Z; rm_Model : string; rm_Provider : string; rm_Success : bool; rm_InputTokens : Z; rm_OutputTokens : Z; rm_CachedTokens : Z; rm_CacheCreationTokens : Z;
  rm_Cost : float64; rm_EndpointID : string; rm_TTFTMs : Z; rm_DurationMs : Z; rm_Attempts : list AttemptMetric
}.
Record endpointPerfWrite := mkPerf { pw_EndpointID : string; pw_TTFTMs : Z; pw_Output : Z; pw_DurationMs : Z }.

Definition Millis (d : Duration) : Z := Z.quot d Millisecond.

Definition winningEndpointID (g : GatewayContext) : string :=
  let from_history := default "" (List.find (fun id => negb (is_empty id)) (rev (map ar_EndpointID (History g)))) in
  match SelectedEndpoint g with
  | Some ep => if is_empty (ep_ID ep) then from_history else ep_ID ep
  | None => from_history
  end.

Definition collectEndpointPerfWrite (g : GatewayContext) (now : Time) : endpointPerfWrite :=
  let id := winningEndpointID g in
  if is_empty id then mkPerf "" 0 0 0
  else
    let ttft := if 0 <? TTFT g then Millis (TTFT g) else 0 in
    let dur := Millis (time_Sub now (StartTime g)) in
    let usable := (negb (bool_decide (is_Some (Err g))) || errors_Is (Err g) ErrClientDisconnected) && (0 <? OutputTokens g) && negb (time_IsZero (StartTime g)) && (0 <? dur) in
    if usable then mkPerf id ttft (OutputTokens g) dur else mkPerf id ttft 0 0.

(** What [OnResponse] takes from a context. *)
Record sample := mkSample {
  sa_model : string; sa_provider : string; sa_failed : bool; sa_input : Z; sa_output : Z; sa_cached : Z; sa_creation : Z; sa_cost : float64; sa_perf : endpointPerfWrite;
  sa_endpoints : list (string * bool); sa_providers : list (string * bool); sa_attempts : list AttemptMetric
}.

Definition chosen_provider (g : GatewayContext) : string :=
  let selected := match SelectedEndpoint g with Some ep => ep_Provider ep | None => "" end in
  if is_empty selected then default "" (List.find (fun p => negb (is_empty p)) (rev (map ar_Provider (History g)))) else selected.

Definition provider_code (r : AttemptRecord) : string := if is_empty (ar_ProviderCode r) then ar_Provider r else ar_ProviderCode r.

(** The attempts per provider; without one, the outcome of the request for its provider. *)
Definition provider_attempts (g : GatewayContext) (failed : bool) : list (string * bool) :=
  let seen := List.filter (fun x => negb (is_empty (fst x))) (map (fun r => (provider_code r, ar_Success r)) (History g)) in
  let provider := chosen_provider g in
  match seen with
  | [] => if is_empty provider then []
          else [(match SelectedEndpoint g with Some ep => if is_empty (ep_ProviderCode ep) then provider else ep_ProviderCode ep | None => provider end, negb failed)]
  | _ => seen
  end.

(** Cached tokens are a part of the input. *)
Definition cut_cached (input cached creation : Z) : Z * Z := if input <? wrap64 (cached + creation) then (input, 0) else (cached, creation).

Definition take_sample (g : GatewayContext) (now : Time) : sample :=
  let failed := bool_decide (is_Some (Err g)) && negb (errors_Is (Err g) ErrClientDisconnected) in
  let '(cached, creation) := cut_cached (InputTokens g) (CachedTokens g) (CacheCreationTokens g) in
  mkSample (Model g) (chosen_provider g) failed (InputTokens g) (OutputTokens g) cached creation (Cost g) (collectEndpointPerfWrite g now)
    (List.filter (fun x => negb (is_empty (fst x))) (map (fun r => (ar_EndpointID r, ar_Success r)) (History g))) (provider_attempts g failed)
    (map (fun r => mkAttemptMetric (ar_EndpointID r) (ar_Provider r) (ar_ProviderCode r) (ar_Success r))
       (List.filter (fun r => negb (is_empty (ar_EndpointID r)) || negb (is_empty (ar_Provider r)) || negb (is_empty (ar_ProviderCode r))) (History g))).

(** A client that went away counts only if that is configured, or the answer was complete. *)
Definition counts (includeClientDisconnect : bool) (g : GatewayContext) : bool :=
  negb (is_empty (Model g)) &&
  negb (errors_Is (Err g) ErrClientDisconnected && negb includeClientDisconnect && negb (seqb (ctx_GetTagValue g "response_completed_sent") "true")).

Definition to_metric (s : sample) (now : Time) : RequestMetric :=
  mkRequestMetric (Unix now) (sa_model s) (sa_provider s) (negb (sa_failed s)) (sa_input s) (sa_output s) (sa_cached s) (sa_creation s) (sa_cost s)
    (pw_EndpointID (sa_perf s)) (pw_TTFTMs (sa_perf s)) (pw_DurationMs (sa_perf s)) (sa_attempts s).

(** * The counters in Redis *)

Inductive amount := Count (n : Z) | Money (x : float64).
(** [INCRBY] (or [INCRBYFLOAT]) and [EXPIRE] of a key. *)
Record counter_write := mkWrite { cw_key : string; cw_amount : amount; cw_ttl : Duration }.

Definition status_ttl : Duration := 7200 * Second.
Definition daily_ttl : Duration := 172800 * Second.
Definition minute_of (now : Time) : Z := Z.quot (Unix now) 60.

Definition status_key (kind id : string) (minute : Z) (field : string) : string := "aigw:status:" +:+ kind +:+ ":" +:+ id +:+ ":" +:+ Itoa minute +:+ ":" +:+ field.
Definition global_key (minute : Z) (field : string) : string := "aigw:status:global:" +:+ Itoa minute +:+ ":" +:+ field.
Definition daily_key (what date : string) : string := "aigw:status:daily:" +:+ what +:+ ":" +:+ date.

Definition outcome_field (success : bool) : string := if success then "s" else "f".
Definition status_write (kind id : string) (minute : Z) (field : string) (n : Z) : counter_write := mkWrite (status_key kind id minute field) (Count n) status_ttl.

Definition perf_writes (kind id : string) (minute : Z) (p : endpointPerfWrite) : list counter_write :=
  (if 0 <? pw_TTFTMs p then [status_write kind id minute "ttft_sum" (pw_TTFTMs p); status_write kind id minute "ttft_cnt" 1] else []) ++
  (if (0 <? pw_Output p) && (0 <? pw_DurationMs p) then [status_write kind id minute "out" (pw_Output p); status_write kind id minute "dur_ms" (pw_DurationMs p)] else []).

Definition daily_writes (s : sample) (date : string) : list counter_write :=
  let tokens what n := if 0 <? n then [mkWrite (daily_key what date) (Count n) daily_ttl] else [] in
  mkWrite (daily_key "req" date) (Count 1) daily_ttl ::
  tokens "input_tokens" (sa_input s) ++ tokens "output_tokens" (sa_output s) ++ tokens "cached_tokens" (sa_cached s) ++ tokens "cache_creation_tokens" (sa_creation s) ++
  (if flt fzero (sa_cost s) then [mkWrite (daily_key "cost" date) (Money (sa_cost s)) daily_ttl] else []).

Definition redis_writes (s : sample) (minute : Z) (date : string) : list counter_write :=
  [status_write "model" (sa_model s) minute (outcome_field (negb (sa_failed s))) 1; mkWrite (global_key minute (outcome_field (negb (sa_failed s)))) (Count 1) status_ttl] ++
  perf_writes "model" (sa_model s) minute (sa_perf s) ++
  map (fun '(id, ok) => status_write "endpoint" id minute (outcome_field ok) 1) (sa_endpoints s) ++
  map (fun '(id, ok) => status_write "provider" id minute (outcome_field ok) 1) (sa_providers s) ++
  (if is_empty (pw_EndpointID (sa_perf s)) then [] else perf_writes "endpoint" (pw_EndpointID (sa_perf s)) minute (sa_perf s)) ++
  daily_writes s date.

(** * The filter *)

Definition queue_capacity : Z := 5000.
Definition batch_size : Z := 100.

Record StatusCollector := mkCollector { sc_redis : bool; sc_include : bool; sc_closed : bool; sc_queue : option (list RequestMetric); sc_batch : list RequestMetric }.
#[global] Instance eta_collector : Eta StatusCollector := fun c => mkCollector (sc_redis c) (sc_include c) (sc_closed c) (sc_queue c) (sc_batch c).

Definition NewStatusCollectorFilter (rdb : bool) (adminURL : string) : StatusCollector :=
  mkCollector rdb false false (if negb rdb && negb (is_empty adminURL) then Some [] else None) [].
Definition SetIncludeClientDisconnect (c : StatusCollector) (enabled : bool) : StatusCollector := c <| sc_include := enabled |>.

(** The counters to write, or a metric put on the queue unless it is full. *)
Definition OnResponse (day : Time -> string) (c : StatusCollector) (now : Time) (g : GatewayContext) : StatusCollector * list counter_write :=
  if sc_closed c || negb (counts (sc_include c) g) then (c, [])
  else
    let s := take_sample g now in
    if sc_redis c then (c, redis_writes s (minute_of now) (day now))
    else match sc_queue c with
         | Some q => (if Z.of_nat (length q) <? queue_capacity then c <| sc_queue := Some (q ++ [to_metric s now]) |> else c, [])
         | None => (c, [])
         end.

Definition Close (c : StatusCollector) : StatusCollector := c <| sc_closed := true |>.

(** A step of the worker: it takes a metric, or its ticker fires; the batch it flushes. *)
Inductive worker_event := Receive | Tick.
Definition worker_step (c : StatusCollector) (e : worker_event) : StatusCollector * option (list RequestMetric) :=
  match e with
  | Receive =>
      match sc_queue c with
      | Some (m :: q) =>
          let batch := sc_batch c ++ [m] in
          if batch_size <=? Z.of_nat (length batch) then (c <| sc_queue := Some q |> <| sc_batch := [] |>, Some batch)
          else (c <| sc_queue := Some q |> <| sc_batch := batch |>, None)
      | _ => (c, None)
      end
  | Tick => (c <| sc_batch := [] |>, Some (sc_batch c))
  end.

(** The payload of a flush. *)
Record MetricsBatch := mkMetricsBatch { mb_Metrics : list RequestMetric; mb_OpenEndpoints : list string; mb_OpenServices : list string }.
Definition flush (openBreakers : option (list string * list string)) (batch : list RequestMetric) : MetricsBatch :=
  let '(eps, svcs) := default ([], []) openBreakers in mkMetricsBatch batch eps svcs.

(** * What the counters say *)

Definition count_of (a : amount) : Z := match a with Count n => n | Money _ => 0 end.
(** What a list of writes adds to an integer counter. *)
Definition total (key : string) (l : list counter_write) : Z := fold_right (fun w n => (if seqb (cw_key w) key then count_of (cw_amount w) else 0) + n) 0 l.

Lemma total_app key l k : total key (l ++ k) = total key l + total key k.
Proof. unfold total. induction l as [|w l IH]; cbn; [done|]. rewrite IH. lia. Qed.

Lemma total_none key l : Forall (fun w => cw_key w <> key) l -> total key l = 0.
Proof.
  unfold total. induction 1 as [|w l Hw _ IH]; cbn; [done|]. assert (seqb (cw_key w) key = false) as -> by (unfold seqb; by apply bool_decide_eq_false). by rewrite IH.
Qed.

Lemma Itoa_no_colon z : byte_of 58 ∉ ascii_list (Itoa z).
Proof. by intros [H|H]%Itoa_chars. Qed.

Lemma minute_field_inj a f b g : Itoa a +:+ ":" +:+ f = Itoa b +:+ ":" +:+ g -> a = b /\ f = g.
Proof.
  intros E. apply (f_equal ascii_list) in E. rewrite !ascii_list_app in E. change (ascii_list ":") with [byte_of 58] in E. cbn [app] in E.
  assert (ascii_list (Itoa a) = ascii_list (Itoa b)) as Ei by (eapply before_separator; [apply Itoa_no_colon..|exact E]).
  rewrite Ei in E. apply app_inv_head in E. injection E as E. split.
  - apply (inj pretty). change (Itoa a = Itoa b). rewrite <- (string_of_list (Itoa a)), Ei. apply string_of_list.
  - rewrite <- (string_of_list f), E. apply string_of_list.
Qed.

Lemma global_key_inj a f b g : global_key a f = global_key b g -> a = b /\ f = g.
Proof. unfold global_key. cbn. intros [= E]. by apply minute_field_inj. Qed.

Lemma global_key_other minute f kind id b g : kind = "model" \/ kind = "endpoint" \/ kind = "provider" -> status_key kind id b g <> global_key minute f.
Proof. by intros [->|[->| ->]]. Qed.

Lemma perf_other minute f kind id b p : kind = "model" \/ kind = "endpoint" \/ kind = "provider" -> Forall (fun w => cw_key w <> global_key minute f) (perf_writes kind id b p).
Proof. intros Hk. unfold perf_writes. destruct (0 <? pw_TTFTMs p), (_ && _); repeat constructor; by apply global_key_other. Qed.

Lemma daily_other minute f s date : Forall (fun w => cw_key w <> global_key minute f) (daily_writes s date).
Proof. unfold daily_writes. constructor; [done|]. repeat apply Forall_app_2; (destruct (_ <? _) || destruct (flt _ _)); repeat constructor; done. Qed.

Lemma map_other minute f kind b (l : list (string * bool)) : kind = "model" \/ kind = "endpoint" \/ kind = "provider" ->
  Forall (fun w => cw_key w <> global_key minute f) (map (fun '(id, ok) => status_write kind id b (outcome_field ok) 1) l).
Proof. intros Hk. apply Forall_forall. intros w Hw. apply list_elem_of_fmap in Hw as ([id ok] & -> & _). by apply global_key_other. Qed.

Lemma global_total s minute date m success : total (global_key m (outcome_field success)) (redis_writes s minute date) =
  if (minute =? m) && Bool.eqb success (negb (sa_failed s)) then 1 else 0.
Proof.
  unfold redis_writes. rewrite !total_app. rewrite (total_none _ (perf_writes "model" _ _ _)) by (apply perf_other; auto).
  rewrite (total_none _ (map _ (sa_endpoints s))) by (apply map_other; auto). rewrite (total_none _ (map _ (sa_providers s))) by (apply map_other; auto).
  rewrite (total_none _ (if is_empty _ then _ else _)) by (destruct (is_empty _); [constructor|apply perf_other; auto]). rewrite (total_none _ (daily_writes s date)) by apply daily_other.
  cbn [total fold_right cw_key cw_amount count_of status_write]. unfold seqb at 1. rewrite bool_decide_eq_false_2 by (apply global_key_other; auto). unfold seqb.
  case_bool_decide as E.
  - apply global_key_inj in E as [-> E]. rewrite Z.eqb_refl. cbn [andb]. destruct success, (sa_failed s); try done.
  - destruct (Z.eqb_spec minute m) as [->|]; [|done]. cbn [andb]. destruct (Bool.eqb _ _) eqn:B; [|done]. apply Bool.eqb_prop in B. subst success. by destruct E.
Qed.

Definition failed_request (g : GatewayContext) : bool := bool_decide (is_Some (Err g)) && negb (errors_Is (Err g) ErrClientDisconnected).

Lemma take_sample_failed g now : sa_failed (take_sample g now) = failed_request g.
Proof. unfold take_sample. by destruct (cut_cached _ _ _). Qed.

(** the traffic of a minute, as the dashboard reads it from Redis, is exact: after any requests, the success
    and failure counters of a minute are the numbers of counted requests that ended in it
    with and without an error; nothing else touches these counters. A client that goes away is no failure, and is left out unless
    that is configured or its answer was complete. *)
Theorem status_counts_exact (day : Time -> string) (include : bool) (q : option (list RequestMetric)) (batch : list RequestMetric)
  (responses : list (Time * GatewayContext)) (minute : Z) (success : bool) :
  total (global_key minute (outcome_field success)) (concat (map (fun '(now, g) => snd (OnResponse day (mkCollector true include false q batch) now g)) responses)) =
  countb (fun '(now, g) => counts include g && (minute_of now =? minute) && Bool.eqb success (negb (failed_request g))) responses.
Proof.
  induction responses as [|[now g] l IH]; [done|]. cbn [map concat]. rewrite total_app, IH. cbn [countb fold_right]. fold (countb (fun '(now, g) => counts include g && (minute_of now =? minute) && Bool.eqb success (negb (failed_request g))) l).
  f_equal. unfold OnResponse. cbn [sc_closed sc_include sc_redis orb]. destruct (counts include g); cbn [negb andb]; [|done]. cbn [snd]. by rewrite global_total, take_sample_failed.
Qed.

(** Cached tokens never exceed the input they are part of. *)
Lemma cached_within_input input cached creation : in_int64 (cached + creation) -> 0 <= cached -> 0 <= creation -> 0 <= input ->
  let '(a, b) := cut_cached input cached creation in 0 <= a /\ 0 <= b /\ a + b <= input.
Proof. intros Hw Hc Hk Hi. unfold cut_cached. rewrite wrap64_small by done. destruct (Z.ltb_spec input (cached + creation)); lia. Qed.

(** * What the admin console gets *)

Inductive collector_event := Responded (now : Time) (g : GatewayContext) | Worker (e : worker_event).

(** There is room on the queue for the metric of a request that counts. *)
Definition accepts (c : StatusCollector) (g : GatewayContext) : bool :=
  negb (sc_closed c) && counts (sc_include c) g && negb (sc_redis c) && match sc_queue c with Some q => Z.of_nat (length q) <? queue_capacity | None => false end.

(** The metrics accepted and the batches flushed in a step. *)
Definition collector_step (day : Time -> string) (c : StatusCollector) (e : collector_event) : StatusCollector * list RequestMetric * list (list RequestMetric) :=
  match e with
  | Responded now g => (fst (OnResponse day c now g), if accepts c g then [to_metric (take_sample g now) now] else [], [])
  | Worker e => let '(c, b) := worker_step c e in (c, [], match b with Some b => [b] | None => [] end)
  end.

Fixpoint collector_run (day : Time -> string) (c : StatusCollector) (es : list collector_event) : StatusCollector * list RequestMetric * list (list RequestMetric) :=
  match es with
  | [] => (c, [], [])
  | e :: r => let '(c, a, f) := collector_step day c e in let '(c, a', f') := collector_run day c r in (c, a ++ a', f ++ f')
  end.

Definition queued (c : StatusCollector) : list RequestMetric := default [] (sc_queue c).
Definition collector_ok (c : StatusCollector) : Prop := Z.of_nat (length (queued c)) <= queue_capacity /\ Z.of_nat (length (sc_batch c)) < batch_size.

#[local] Ltac stays := cbn; rewrite ?app_nil_r; split_and!; first [done | lia | constructor].

Lemma collector_step_spec day c e c' a f : collector_ok c -> collector_step day c e = (c', a, f) ->
  collector_ok c' /\ concat f ++ sc_batch c' ++ queued c' = sc_batch c ++ queued c ++ a /\ Forall (fun b => Z.of_nat (length b) <= batch_size) f.
Proof.
  unfold collector_ok, queued, queue_capacity, batch_size. intros [Hq Hb]. destruct e as [now g|[|]]; cbn [collector_step worker_step].
  - unfold OnResponse, accepts, queue_capacity. intros [= <- <- <-]. destruct (sc_closed c); cbn [orb negb andb fst]; [stays|].
    destruct (counts (sc_include c) g); cbn [orb negb andb fst]; [|stays]. destruct (sc_redis c); cbn [fst negb andb]; [stays|].
    destruct (sc_queue c) as [q|] eqn:Q; cbn [fst default] in *; [|rewrite Q; stays]. destruct (Z.ltb_spec (Z.of_nat (length q)) 5000); [|cbn; rewrite Q; stays].
    cbn. rewrite length_app. cbn [length]. stays.
  - unfold batch_size. destruct (sc_queue c) as [[|m q]|] eqn:Q; cbn [default id] in *; [intros [= <- <- <-]; cbn; rewrite Q; stays| |intros [= <- <- <-]; cbn; rewrite Q; stays].
    destruct (Z.leb_spec 100 (Z.of_nat (length (sc_batch c ++ [m])))) as [H|H]; rewrite length_app in H; cbn [length] in *; intros [= <- <- <-]; cbn; rewrite ?app_nil_r, <- ?app_assoc.
    + split; [lia|]. split; [done|]. constructor; [|constructor]. rewrite length_app. cbn [length]. lia.
    + rewrite length_app. cbn [length]. split; [lia|]. split; [done|constructor].
  - intros [= <- <- <-]. cbn. rewrite !app_nil_r. split; [lia|]. split; [done|]. constructor; [lia|constructor].
Qed.

Lemma New_collector_ok adminURL include : collector_ok (SetIncludeClientDisconnect (NewStatusCollectorFilter false adminURL) include).
Proof. unfold NewStatusCollectorFilter, SetIncludeClientDisconnect, collector_ok, queued, queue_capacity, batch_size. cbn. destruct (is_empty adminURL); cbn; lia. Qed.

(** every metric that is accepted for the admin console is reported once, in order: at any point of any
    interleaving of requests with the worker, the batches that were flushed, the batch in the making and the queue hold exactly the accepted
    metrics, in the order of the requests. A batch has at most a hundred metrics, the queue at most five thousand. *)
Theorem metrics_reported_once (day : Time -> string) (adminURL : string) (include : bool) (es : list collector_event) (c : StatusCollector) (accepted : list RequestMetric) (flushed : list (list RequestMetric))
  (Hrun : collector_run day (SetIncludeClientDisconnect (NewStatusCollectorFilter false adminURL) include) es = (c, accepted, flushed)) :
  concat flushed ++ sc_batch c ++ queued c = accepted /\ Forall (fun b => Z.of_nat (length b) <= batch_size) flushed /\ Z.of_nat (length (queued c)) <= queue_capacity.
Proof.
  assert (forall c0 c accepted flushed, collector_ok c0 -> collector_run day c0 es = (c, accepted, flushed) ->
    collector_ok c /\ concat flushed ++ sc_batch c ++ queued c = sc_batch c0 ++ queued c0 ++ accepted /\ Forall (fun b => Z.of_nat (length b) <= batch_size) flushed) as G.
  { clear. induction es as [|e es IH]; intros c0 c accepted flushed O; cbn [collector_run]; [intros [= <- <- <-]; cbn; rewrite app_nil_r; split_and!; [done|done|constructor]|].
    destruct (collector_step day c0 e) as [[c1 a] f] eqn:E. apply collector_step_spec in E as (O1 & E1 & F1); [|done].
    destruct (collector_run day c1 es) as [[c2 a'] f'] eqn:E'. intros [= <- <- <-]. destruct (IH _ _ _ _ O1 E') as (O2 & E2 & F2). split; [done|]. split; [|by apply Forall_app].
    rewrite concat_app, <- app_assoc, E2, !app_assoc. rewrite <- (app_assoc _ (sc_batch c1)), E1. by rewrite <- !app_assoc. }
  destruct (G _ _ _ _ (New_collector_ok adminURL include) Hrun) as ([Oq Ob] & E & F). split_and!; [|done|done].
  rewrite E. unfold NewStatusCollectorFilter, queued. cbn. by destruct (is_empty adminURL).
Qed.

Definition demo_response : GatewayContext := emptyContext <| Model := "m" |> <| InputTokens := 3 |>.
Lemma metrics_reported_once_witness :
  let es := [Responded 0 demo_response; Worker Receive; Responded 0 demo_response; Worker Tick; Worker Receive] in
  exists c accepted flushed, collector_run (fun _ => "") (SetIncludeClientDisconnect (NewStatusCollectorFilter false "http://admin") false) es = (c, accepted, flushed) /\
    length accepted = 2%nat /\ concat flushed ++ sc_batch c ++ queued c = accepted /\ Forall (fun b => Z.of_nat (length b) <= batch_size) flushed /\ Z.of_nat (length (queued c)) <= queue_capacity.
Proof.
  intros es. eexists _, _, _. split; [vm_compute; reflexivity|]. split; [reflexivity|].
  exact (metrics_reported_once (fun _ => "") "http://admin" false es _ _ _ ltac:(vm_compute; reflexivity)).
Defined.
