(* ===== verification/Metrics.v ===== *)
(** pkg/filters/outbound/metrics.go, metrics_extractor.go and pkg/telemetry/registry.go: the
    measurements a request leaves, with their labels.

    An instrument only records; a measurement is the name of the instrument, the value and the
    attributes it is recorded with.  The instruments return no error, so the early returns on
    an error of [recordMetric] are never taken. *)

From Stdlib Require Import Ascii.
From S2P Require Import Prelude GoFloat GoStrings GoTime Matcher Policy Types Context Cache StatusCollector.

(** * Labels (registry.go) *)

(** [lc_attrs]: the attributes [ToAttributes] keeps after its first call. *)
Record LabelContract := mkLabels {
  lc_Model : string; lc_Provider : string; lc_Status : string; lc_Stream : string; lc_Tenant : string; lc_Type : string; lc_Endpoint : string;
  lc_attrs : option (list (string * string))
}.
#[global] Instance eta_labels : Eta LabelContract := fun l =>
  mkLabels (lc_Model l) (lc_Provider l) (lc_Status l) (lc_Stream l) (lc_Tenant l) (lc_Type l) (lc_Endpoint l) (lc_attrs l).

Definition ToAttributesWithoutType (l : LabelContract) : list (string * string) :=
  [("model", lc_Model l); ("provider", lc_Provider l); ("status", lc_Status l); ("stream", lc_Stream l); ("tenant", lc_Tenant l)].

Definition ToAttributes (l : LabelContract) : LabelContract * list (string * string) :=
  match lc_attrs l with
  | Some attrs => (l, attrs)
  | None =>
      let attrs := ToAttributesWithoutType l ++ (if is_empty (lc_Type l) then [] else [("type", lc_Type l)]) in
      (l <| lc_attrs := Some attrs |>, attrs)
  end.

Definition ToRequestTotalAttributes (l : LabelContract) : list (string * string) := ToAttributesWithoutType l ++ [("endpoint", lc_Endpoint l)].

(** * Extraction (metrics_extractor.go) *)

Definition ExtractLabels (g : GatewayContext) : LabelContract :=
  let status := if errors_Is (Err g) ErrClientDisconnected then "canceled" else match Err g with Some _ => "error" | None => "success" end in
  let tenant := match gPolicy g with Some p => if p_EnableMetricsReporting p && negb (is_empty (Tenant g)) then Tenant g else "others" | None => "others" end in
  mkLabels (Model g) (from_option ep_Provider "" (SelectedEndpoint g)) status (if IsStream g then "true" else "false") tenant "" (winningEndpointID g) None.

Definition ExtractTokenLabels (g : GatewayContext) (tokenType : string) : LabelContract := (ExtractLabels g) <| lc_Type := tokenType |>.

(** * The filter (metrics.go) *)

Inductive measured := MInt (n : Z) | MFloat (x : float64).
Record measurement := mkMeasurement { ms_instrument : string; ms_value : measured; ms_attrs : list (string * string) }.

(** [Duration.Seconds]. *)
Definition Seconds (d : Duration) : float64 := fadd (of_int (Z.quot d Second)) (fdiv (of_int (Z.rem d Second)) (of_int 1000000000)).

Definition token_metric (g : GatewayContext) (tokenType : string) (n : Z) : list measurement :=
  if 0 <? n then [mkMeasurement "gateway_tokens_total" (MInt n) (snd (ToAttributes (ExtractTokenLabels g tokenType)))] else [].

(** [custom]: an extractor other than the default one, which has no token labels. *)
Definition recordTokenMetrics (custom : option (GatewayContext -> LabelContract)) (g : GatewayContext) : list measurement :=
  match custom with
  | Some _ => []
  | None => token_metric g "input" (InputTokens g) ++ token_metric g "output" (OutputTokens g) ++ token_metric g "cached" (CachedTokens g) ++
            token_metric g "cache_creation" (CacheCreationTokens g)
  end.

Definition Metrics_OnResponse (registry : bool) (custom : option (GatewayContext -> LabelContract)) (g : GatewayContext) (now : Time) : list measurement :=
  if registry then
    let labels := default ExtractLabels custom g in
    let common := ToAttributesWithoutType labels in
    [mkMeasurement "gateway_request_duration_seconds" (MFloat (Seconds (time_Sub now (StartTime g)))) common;
     mkMeasurement "gateway_request_total" (MInt 1) (ToRequestTotalAttributes labels)] ++
    (if IsStream g && (0 <? TTFT g) then [mkMeasurement "gateway_ttft_seconds" (MFloat (Seconds (TTFT g))) common] else []) ++
    recordTokenMetrics custom g ++
    (if flt fzero (Cost g) then [mkMeasurement "gateway_cost_total" (MFloat (Cost g)) common] else [])
  else [].

(** * What the measurements say *)

Definition attr (key : string) (m : measurement) : option string := snd <$> List.find (fun kv => seqb (fst kv) key) (ms_attrs m).
Definition counted (instrument key value : string) (ms : list measurement) : Z :=
  foldr (fun m acc => if seqb (ms_instrument m) instrument && bool_decide (attr key m = Some value) then match ms_value m with MInt n => n + acc | MFloat _ => acc end else acc) 0 ms.

(** Every measurement of the default extractor carries the tenant label of the policy: a tenant
    that did not opt in never appears. *)
Lemma tenant_label g now m : m ∈ Metrics_OnResponse true None g now -> attr "tenant" m = Some (lc_Tenant (ExtractLabels g)).
Proof.
  unfold Metrics_OnResponse, recordTokenMetrics, token_metric. cbn [default]. rewrite !elem_of_app, !elem_of_cons.
  repeat match goal with |- context [if ?b then _ else _] => lazymatch type of b with bool => destruct b end end; set_solver.
Qed.

Lemma tenant_hidden g now m : (forall p, gPolicy g = Some p -> p_EnableMetricsReporting p = false) -> m ∈ Metrics_OnResponse true None g now -> attr "tenant" m = Some "others".
Proof. intros H I. rewrite (tenant_label g now m I). unfold ExtractLabels. cbn. destruct (gPolicy g) as [p|]; [|done]. by rewrite (H p eq_refl). Qed.
