(* ===== verification/Kubernetes.v ===== *)
(** pkg/core/discovery_kubernetes.go: endpoints from the pods of a namespace.

    The API server is an argument: the pods it lists for the options of the configuration, and
    the events of a watch.  A watch runs until its event channel closes or its context ends. *)

From Stdlib Require Import Ascii.
From S2P Require Import Prelude GoFloat GoStrings GoTime GoJson Types Context Cache ApiKeys Compensation.

(** * State *)

Record KubernetesDiscoveryConfig := mkKubeConfig {
  kc_Namespace : string; kc_LabelSelector : string; kc_FieldSelector : string; kc_Port : Z; kc_Scheme : string; kc_KubeConfig : string
}.

(** What the code reads of a pod; [pod_Created]: [CreationTimestamp.String()]. *)
Record Pod := mkPod {
  pod_UID : string; pod_Name : string; pod_Namespace : string; pod_NodeName : string; pod_Created : string; pod_Phase : string; pod_IP : string;
  pod_Annotations : gmap string string; pod_Labels : gmap string string
}.

(** [kd_watchers]: the models with a cancel function. *)
Record KubernetesDiscovery := mkKube { kd_config : KubernetesDiscoveryConfig; kd_endpoints : gmap string (list Endpoint); kd_watchers : gset string }.
#[global] Instance eta_kube : Eta KubernetesDiscovery := fun k => mkKube (kd_config k) (kd_endpoints k) (kd_watchers k).

(** [client]: what [NewForConfig] answers for the configuration found. *)
Definition NewKubernetesDiscovery (cfg : KubernetesDiscoveryConfig) (rest_config : option goerror) (client : option goerror) : KubernetesDiscovery + goerror :=
  match rest_config with
  | Some e => inr (wrapf "failed to create k8s config: " e)
  | None => match client with Some e => inr (wrapf "failed to create k8s client: " e) | None => inl (mkKube cfg ∅ ∅) end
  end.

(** * Pods to endpoints *)

Definition pod_usable (p : Pod) : bool := seqb (pod_Phase p) "Running" && negb (is_empty (pod_IP p)).

Definition pod_URL (cfg : KubernetesDiscoveryConfig) (p : Pod) : string :=
  let scheme := if is_empty (kc_Scheme cfg) then "http" else kc_Scheme cfg in
  if kc_Port cfg <=? 0 then scheme +:+ "://" +:+ pod_IP p else scheme +:+ "://" +:+ pod_IP p +:+ ":" +:+ Itoa (kc_Port cfg).

(** [strconv.Atoi]; a value that is no positive number leaves the weight 1. *)
Definition pod_Weight (p : Pod) : Z :=
  match pod_Annotations p !! "load-balancer.weight" with
  | Some s => let '(w, ok) := ParseInt64 s in if ok && (0 <? w) then w else 1
  | None => 1
  end.

Definition annotation (p : Pod) (name : string) : string := default "" (pod_Annotations p !! ("github.com/tokenlive/tokenlive-gateway." +:+ name)).

Definition base_metadata (p : Pod) : gmap string string :=
  list_to_map [("pod_name", pod_Name p); ("namespace", pod_Namespace p); ("node_name", pod_NodeName p); ("creation_time", pod_Created p)].

(** The labels are added one by one under their prefixed names. *)
Definition pod_Metadata (p : Pod) : gmap string string :=
  map_fold (fun k v m => <["label." +:+ k := v]> m) (base_metadata p) (pod_Labels p).

Definition pod_endpoint (cfg : KubernetesDiscoveryConfig) (model : string) (p : Pod) : Endpoint :=
  mkEndpoint (pod_UID p) "" (pod_URL cfg p) (annotation p "provider") "" model (annotation p "upstream-model") (pod_Metadata p) (pod_Weight p) 0
    [RequestTypeChatCompletion; RequestTypeEmbedding] true false ∅ (annotation p "api-key") "" (annotation p "provider-protocol") 0 0 None None None None.

(** * Discovery *)

Section discovery.
Context {W : Type} (ListPods : W -> string -> string -> string -> W * (list Pod + goerror)).

Definition Kube_List (w : W) (kd : KubernetesDiscovery) (model : string) : W * KubernetesDiscovery * (list Endpoint + goerror) :=
  let cfg := kd_config kd in
  match ListPods w (kc_Namespace cfg) (kc_LabelSelector cfg) (kc_FieldSelector cfg) with
  | (w, inr e) => (w, kd, inr (wrapf "failed to list pods: " e))
  | (w, inl pods) =>
      let eps := map (pod_endpoint cfg model) (filter (fun p => pod_usable p = true) pods) in
      (w, kd <| kd_endpoints := <[model := eps]> (kd_endpoints kd) |>, inl eps)
  end.

(** An event of a watch: a change of a pod, or another kind (bookmark, error). *)
Inductive watch_event := PodChanged | OtherEvent.

(** The lists that [watchPods] pushes for a sequence of events; a list that fails is skipped. *)
Fixpoint watchPods (w : W) (kd : KubernetesDiscovery) (model : string) (events : list watch_event) : W * KubernetesDiscovery * list (list Endpoint) :=
  match events with
  | [] => (w, kd, [])
  | OtherEvent :: r => watchPods w kd model r
  | PodChanged :: r =>
      match Kube_List w kd model with
      | (w, kd, inr _) => watchPods w kd model r
      | (w, kd, inl eps) => let '(w, kd, pushed) := watchPods w kd model r in (w, kd, eps :: pushed)
      end
  end.

(** [Watch]: the current list, then what the watches push. *)
Definition Kube_Watch (w : W) (kd : KubernetesDiscovery) (model : string) (watches : list (list watch_event)) : W * KubernetesDiscovery * (list (list Endpoint) + goerror) :=
  match Kube_List w kd model with
  | (w, kd, inr e) => (w, kd, inr e)
  | (w, kd, inl eps) =>
      let '(w, kd, pushed) := fold_left (fun acc es => let '(w, kd, out) := acc in let '(w, kd, more) := watchPods w kd model es in (w, kd, out ++ more)) watches (w, kd, []) in
      (w, kd, inl (eps :: pushed))
  end.

(** The models whose watch [Close] cancels. *)
Definition Kube_Close (kd : KubernetesDiscovery) : KubernetesDiscovery * gset string := (kd <| kd_watchers := ∅ |>, kd_watchers kd).

(** * What is discovered *)

(** The list is the usable pods in the order of the server, each with a positive weight and the
    requested model, and it is what the cache holds; an error leaves the cache. *)
Lemma Kube_List_spec w kd model :
  match Kube_List w kd model with
  | (_, kd', inl eps) =>
      kd_endpoints kd' !! model = Some eps /\ Forall (fun ep => 1 <= ep_Weight ep /\ ep_Model ep = model /\ ep_Healthy ep = true) eps /\
      exists pods, map ep_ID eps = map pod_UID pods /\ Forall (fun p => pod_Phase p = "Running" /\ pod_IP p <> "") pods
  | (_, kd', inr _) => kd' = kd
  end.
Proof.
  unfold Kube_List. destruct (ListPods _ _ _ _) as [w' [pods|e]]; [|done]. cbn. rewrite lookup_insert_eq. split; [done|]. split.
  - apply Forall_map. apply Forall_true. intros p. cbn. split; [|done]. unfold pod_Weight. destruct (pod_Annotations p !! _) as [s|]; [|lia].
    destruct (ParseInt64 s) as [n ok]. destruct ok, (Z.ltb_spec 0 n); cbn; lia.
  - exists (filter (fun p => pod_usable p = true) pods). split; [by rewrite map_map|]. apply Forall_forall. intros p Hp. apply list_elem_of_filter in Hp as [Hu _].
    unfold pod_usable in Hu. apply andb_true_iff in Hu as [H1 H2]. apply seqb_eq in H1. apply negb_true_iff in H2. by apply seqb_neq in H2.
Qed.

(** Every list of a watch is a list of the discovery. *)
Lemma watchPods_weights w kd model events : Forall (Forall (fun ep => 1 <= ep_Weight ep /\ ep_Model ep = model)) (snd (watchPods w kd model events)).
Proof.
  revert w kd. induction events as [|[|] r IH]; intros w kd; cbn; [done| |apply IH].
  pose proof (Kube_List_spec w kd model) as S. destruct (Kube_List w kd model) as [[w' kd'] [eps|e]]; [|apply IH]. destruct S as (_ & F & _).
  specialize (IH w' kd'). destruct (watchPods w' kd' model r) as [[w2 kd2] pushed]. cbn in *. constructor; [|done]. eapply Forall_impl; [exact F|]. cbn. tauto.
Qed.

(** No operation records a cancel function, so [Close] cancels no watch. *)
Lemma watchers_never_recorded w kd model : kd_watchers kd = ∅ ->
  kd_watchers (snd (fst (Kube_List w kd model))) = ∅ /\ (forall events, kd_watchers (snd (fst (watchPods w kd model events))) = ∅) /\ snd (Kube_Close kd) = ∅.
Proof.
  assert (forall w kd, kd_watchers kd = ∅ -> kd_watchers (snd (fst (Kube_List w kd model))) = ∅) as L.
  { intros w1 kd1 E. unfold Kube_List. by destruct (ListPods _ _ _ _) as [w' [pods|e]]. }
  intros E. split; [by apply L|]. split; [|done]. intros events. revert w kd E. induction events as [|[|] r IH]; intros w kd E; cbn; [done| |by apply IH].
  specialize (L w kd E). destruct (Kube_List w kd model) as [[w' kd'] [eps|e]]; cbn in L; [|by apply IH]. specialize (IH w' kd' L).
  by destruct (watchPods w' kd' model r) as [[w2 kd2] pushed].
Qed.
End discovery.

(** The weight annotation is read as a number. *)
Definition demo_pod : Pod := mkPod "u1" "p1" "ns" "n1" "" "Running" "10.0.0.7" {["load-balancer.weight" := "3"]} ∅.
Example demo_pod_endpoint : ep_URL (pod_endpoint (mkKubeConfig "ns" "" "" 8080 "" "") "m" demo_pod) = "http://10.0.0.7:8080" /\ pod_Weight demo_pod = 3.
Proof. by vm_compute. Qed.
