(* ===== verification/PolicyService.v ===== *)
(** The policy of a request: internal/service/policy.go, over the policies a provider holds
    (pkg/config/redis_provider.go, http_provider.go) or the static ones of the gateway.

    A merged policy points to the invocation policy of the last candidate that has one, and the
    service completes that object in place: invocation policies live on a heap
    and a policy holds the address of its own. *)

From S2P Require Import Prelude GoFloat GoStrings GoTime GoJson GoPrint Matcher Policy PolicyMerge Types Context Http Cache.

(** * Policies and the objects they point to *)

Abbreviation loc := positive (only parsing).
Definition zero_invocation : InvocationPolicy := mkInvocationPolicy "" "" "" None None.
#[global] Instance eta_invocation : Eta InvocationPolicy := fun i => mkInvocationPolicy (ip_ID i) (ip_Name i) (ip_Type i) (ip_RetryPolicy i) (ip_FallbackPolicy i).
Abbreviation heap := (gmap positive InvocationPolicy).

Record policy_obj := mkObj { po_policy : Policy; po_inv : option loc }.
#[global] Instance eta_obj : Eta policy_obj := fun o => mkObj (po_policy o) (po_inv o).

Definition load (h : heap) (l : loc) : InvocationPolicy := default zero_invocation (h !! l).
(** What a policy is, with the heap. *)
Definition deref (h : heap) (o : policy_obj) : Policy := (po_policy o) <| p_InvocationPolicy := load h <$> po_inv o |>.

(** [PolicyMatcher.Match] on objects: pointers are copied. *)
Definition last_inv (l : list (option policy_obj)) : option loc := fold_left (fun acc o => some_or (o ≫= po_inv) acc) l None.
Definition match_objects (l : list (option policy_obj)) : go (option policy_obj) :=
  match PolicyMatcher_Match (map (fmap (fun o => (po_policy o) <| p_InvocationPolicy := None |>)) l) with
  | Panic => Panic
  | Ret None => Ret None
  | Ret (Some m) => Ret (Some (mkObj m (last_inv l)))
  end.

Definition go_fmap {A B} (f : A -> B) (x : go A) : go B := match x with Ret a => Ret (f a) | Panic => Panic end.

Section merge.
Context (h : heap).
#[local] Abbreviation bare := (fun o : policy_obj => (po_policy o) <| p_InvocationPolicy := None |>).

Lemma merge_policy_deref m ml o :
  merge_policy (m <| p_InvocationPolicy := load h <$> ml |>) (deref h o) =
  go_fmap (fun m' => m' <| p_InvocationPolicy := load h <$> some_or (po_inv o) ml |>) (merge_policy m (bare o)).
Proof.
  destruct m, o as [[] i]. unfold merge_policy, deref. cbn -[merge_pointers load PolicyMerge.go_bind some_or].
  repeat (match goal with |- PolicyMerge.go_bind ?x _ = _ => destruct x; cbn [PolicyMerge.go_bind go_fmap]; [|done] end). do 2 f_equal. by destruct i, ml.
Qed.

Lemma merge_deref l : forall m ml,
  fold_left merge_opt (map (fmap (deref h)) l) (Ret (m <| p_InvocationPolicy := load h <$> ml |>)) =
  go_fmap (fun m' => m' <| p_InvocationPolicy := load h <$> fold_left (fun acc o => some_or (o ≫= po_inv) acc) l ml |>)
    (fold_left merge_opt (map (fmap bare) l) (Ret m)).
Proof.
  assert (forall l, fold_left merge_opt l Panic = Panic) as Pn. { clear. induction l as [|[p|] l' IH]; [done|exact IH..]. }
  induction l as [|[o|] l IH]; intros m ml; [done| |by apply IH].
  assert (forall r p, merge_opt (Ret r) (Some p) = merge_policy r p) as Mo by done.
  cbn [map fmap option_fmap option_map fold_left]. rewrite !Mo, merge_policy_deref.
  destruct (merge_policy m ((po_policy o) <| p_InvocationPolicy := None |>)) as [m'|]; cbn [go_fmap]; [|by rewrite !Pn]. by rewrite IH.
Qed.

Lemma filter_some_map {A B} (f : A -> B) (l : list (option A)) : filter (fun p => is_Some p) (map (fmap f) l) = map (fmap f) (filter (fun p => is_Some p) l).
Proof.
  induction l as [|[x|] l IH]; [done| |]; cbn [map fmap option_fmap option_map].
  - rewrite !filter_cons_True by eauto. cbn. by rewrite IH.
  - rewrite !filter_cons_False by (by intros [? ?]). done.
Qed.

Lemma last_inv_filter l : forall acc, fold_left (fun acc o => some_or (o ≫= po_inv) acc) (filter (fun p => is_Some p) l) acc = fold_left (fun acc o => some_or (o ≫= po_inv) acc) l acc.
Proof.
  induction l as [|[o|] l IH]; intros acc; [done| |].
  - rewrite filter_cons_True by eauto. apply IH.
  - rewrite filter_cons_False by (by intros [? ?]). apply IH.
Qed.

(** Merging the objects is merging the policies they stand for. *)
Lemma match_objects_deref l : go_fmap (fmap (deref h)) (match_objects l) = PolicyMatcher_Match (map (fmap (deref h)) l).
Proof.
  unfold match_objects, PolicyMatcher_Match. rewrite !filter_some_map. destruct (filter (fun p => is_Some p) l) as [|o ol] eqn:F; [done|]. cbn [map].
  change (fmap (deref h) o :: map (fmap (deref h)) ol) with (map (fmap (deref h)) (o :: ol)). change (fmap bare o :: map (fmap bare) ol) with (map (fmap bare) (o :: ol)).
  rewrite <- F. unfold MergePolicies. pose proof (merge_deref (filter (fun p => is_Some p) l) emptyPolicy None) as M. cbn [fmap option_fmap option_map] in M.
  change (emptyPolicy <| p_InvocationPolicy := None |>) with emptyPolicy in M. rewrite M, last_inv_filter.
  by destruct (fold_left merge_opt (map (fmap bare) (filter (fun p => is_Some p) l)) (Ret emptyPolicy)).
Qed.
End merge.

(** * policy.go *)

Record HTTPPolicyItem := mkItem { pi_Scope : string; pi_Model : string; pi_Value : option policy_obj }.

(** The dimension of an item for a request: the cases of the switch, in order. *)
Definition dimension (tenant user model : string) (it : HTTPPolicyItem) : option string :=
  let scope s := seqb (pi_Scope it) s in
  let on m := seqb (pi_Model it) m in
  if negb (is_empty user) && scope ("user:" +:+ user) && on model then Some "user_model"
  else if negb (is_empty user) && scope ("user:" +:+ user) && on "*" then Some "user"
  else if negb (is_empty tenant) && scope ("tenant:" +:+ tenant) && on model then Some "tenant_model"
  else if negb (is_empty tenant) && scope ("tenant:" +:+ tenant) && on "*" then Some "tenant"
  else if scope ("model:" +:+ model) && on "*" || scope "global" && on model then Some "model"
  else if scope "global" && on "*" then Some "global"
  else None.

Definition policy_map (tenant user model : string) (items : list HTTPPolicyItem) : gmap string policy_obj :=
  fold_left (fun m it => match pi_Value it, dimension tenant user model it with Some v, Some d => <[d := v]> m | _, _ => m end) items ∅.

Definition default_chain : list string := ["global"; "tenant"; "user"; "model"; "tenant_model"; "user_model"].

Definition policy_candidates (chain : list string) (localPolicies : list (option policy_obj)) (m : gmap string policy_obj) : list (option policy_obj) :=
  match omap (fun d => m !! d) chain with
  | [] => localPolicies
  | l => map Some l
  end.

Definition policy_cache_key (tenant user model : string) : string := tenant +:+ ":" +:+ user +:+ ":" +:+ model.

Section service.
Context {L : Type -> Type} `{!ExpirableLRU L} {W : Type}.

(** The provider; [GetConfig]: the static model fallbacks of the gateway configuration, if there is one. *)
Record PolicyProvider := mkPolicyProvider {
  GetPolicies : W -> heap -> string -> string -> string -> W * heap * (list HTTPPolicyItem + goerror);
  GetUserModels : W -> string -> W * list string;
  GetTenantModels : W -> string -> W * list string;
  GetConfig : W -> string -> W * option (gmap string (list string))
}.

Record PolicyService := mkPolicyService { ps_local : list (option policy_obj); ps_chain : list string; ps_cache : ExpirableCache L policy_obj }.
#[global] Instance eta_service : Eta PolicyService := fun s => mkPolicyService (ps_local s) (ps_chain s) (ps_cache s).

Definition NewPolicyService (localPolicies : list (option policy_obj)) (priorityChain : list string) : PolicyService :=
  mkPolicyService localPolicies (match priorityChain with [] => default_chain | _ => priorityChain end) (NewExpirableCache 10000 (30 * Second) 5000 (10 * Second)).

Context (P : PolicyProvider).

Definition permitted_models (w : W) (tenant user : string) : W * list string :=
  let '(w, models) := if is_empty user then (w, []) else GetUserModels P w user in
  match models with
  | [] => if is_empty tenant then (w, []) else GetTenantModels P w tenant
  | _ => (w, models)
  end.

Definition fill_permissions (w : W) (tenant user : string) (m : Policy) : W * Policy :=
  match default [] (p_Permissions m) with
  | [] => let '(w, models) := permitted_models w tenant user in (w, m <| p_Permissions := Some (match models with [] => ["*"] | _ => models end) |>)
  | _ => (w, m)
  end.

(** The invocation policy is created, or completed where it is. *)
Definition fill_fallback (w : W) (h : heap) (model : string) (o : policy_obj) : W * heap * policy_obj :=
  let '(h, l) := match po_inv o with Some l => (h, l) | None => let l := fresh (dom h) in (<[l := zero_invocation]> h, l) end in
  let o := o <| po_inv := Some l |> in
  match ip_FallbackPolicy (load h l) with
  | Some _ => (w, h, o)
  | None =>
      let '(w, cfg) := GetConfig P w model in
      match cfg ≫= (.!! model) with
      | Some (t :: ts) => (w, <[l := (load h l) <| ip_FallbackPolicy := Some (mkFallbackPolicy (t :: ts)) |>]> h, o)
      | _ => (w, h, o)
      end
  end.

Definition GetPolicy (s : PolicyService) (w : W) (h : heap) (now : Time) (tenant user model : string) : go (PolicyService * W * heap * (policy_obj + goerror)) :=
  let key := policy_cache_key tenant user model in
  let '(c, hit) := cache_Get (ps_cache s) now key in
  let s := s <| ps_cache := c |> in
  match hit with
  | Some (inr msg) => Ret (s, w, h, inr (errorf msg))
  | Some (inl o) => Ret (s, w, h, inl o)
  | None =>
      match GetPolicies P w h model user tenant with
      | (w, h, inr e) => Ret (s, w, h, inr e)
      | (w, h, inl items) =>
          match match_objects (policy_candidates (ps_chain s) (ps_local s) (policy_map tenant user model items)) with
          | Panic => Panic
          | Ret None => Ret (s <| ps_cache := cache_AddInvalid c now key "no dynamic policy matched" |>, w, h, inr (errorf "no dynamic policy matched"))
          | Ret (Some merged) =>
              let '(w, m) := fill_permissions w tenant user (po_policy merged) in
              let '(w, h, o) := fill_fallback w h model (merged <| po_policy := m |>) in
              Ret (s <| ps_cache := cache_AddValid c now key o |>, w, h, inl o)
          end
      end
  end.

Definition Policy_PurgeCache (s : PolicyService) : PolicyService := s <| ps_cache := cache_Purge (ps_cache s) |>.
End service.
Arguments PolicyProvider W : clear implicits.
Arguments PolicyService L : clear implicits.

(** The provider of the HTTP mode: the policies of the last poll, the same objects for every request. *)
Definition http_PolicyProvider (cachedPolicies : list HTTPPolicyItem) (fallbacks : option (gmap string (list string))) : PolicyProvider unit :=
  mkPolicyProvider (fun w h _ _ _ => (w, h, inl cachedPolicies)) (fun w _ => (w, ["*"])) (fun w _ => (w, ["*"])) (fun w _ => (w, fallbacks)).

(** * The effective policy *)

(** ** The reference: which policies address a request, what it may use and where it falls back to *)

(** The scope and model columns that address a request, with the name of the dimension in a priority chain. *)
Definition addresses (tenant user model : string) : list (string * (string * string)) :=
  [("global", ("global", "*")); ("model", ("global", model)); ("model", ("model:" +:+ model, "*"))] ++
  (if decide (tenant = "") then [] else [("tenant", ("tenant:" +:+ tenant, "*")); ("tenant_model", ("tenant:" +:+ tenant, model))]) ++
  (if decide (user = "") then [] else [("user", ("user:" +:+ user, "*")); ("user_model", ("user:" +:+ user, model))]).

(** The last policy of the provider that addresses the request in a dimension. *)
Definition addressed (tenant user model : string) (items : list HTTPPolicyItem) (d : string) : option policy_obj :=
  last (omap pi_Value (filter (fun it => (d, (pi_Scope it, pi_Model it)) ∈ addresses tenant user model) items)).

(** One policy per dimension, in the order of the chain, or the static policies. *)
Definition reference_candidates (chain : list string) (local : list (option policy_obj)) (tenant user model : string) (items : list HTTPPolicyItem) : list (option policy_obj) :=
  let found := filter (fun o => is_Some o) (map (addressed tenant user model items) chain) in
  if decide (found = []) then local else found.

Section reference.
Context {W : Type} (P : PolicyProvider W).

(** The models a request may use where the policies say nothing: those of the user, failing that those of the tenant, failing that all. *)
Inductive granted (tenant user : string) (w : W) : W -> list string -> Prop :=
| granted_user w' models : user <> "" -> GetUserModels P w user = (w', models) -> models <> [] -> granted tenant user w w' models
| granted_tenant w1 w' models : (user = "" /\ w1 = w \/ user <> "" /\ GetUserModels P w user = (w1, [])) ->
    tenant <> "" -> GetTenantModels P w1 tenant = (w', models) -> models <> [] -> granted tenant user w w' models
| granted_all w1 w' : (user = "" /\ w1 = w \/ user <> "" /\ GetUserModels P w user = (w1, [])) ->
    (tenant = "" /\ w' = w1 \/ tenant <> "" /\ GetTenantModels P w1 tenant = (w', [])) -> granted tenant user w w' ["*"].

(** The permissions of the request, and the provider after they were read. *)
Definition permissions_of (tenant user : string) (w : W) (m : Policy) (w' : W) (perms : list string) : Prop :=
  match p_Permissions m with
  | Some (x :: xs) => w' = w /\ perms = x :: xs
  | _ => granted tenant user w w' perms
  end.

(** The invocation policy of the request: the merged one, with the static fallbacks of the model where it names none. *)
Definition invocation_of (w : W) (model : string) (m : Policy) (inv : InvocationPolicy) : Prop :=
  let i := default (mkInvocationPolicy "" "" "" None None) (p_InvocationPolicy m) in
  match ip_FallbackPolicy i, snd (GetConfig P w model) ≫= (.!! model) with
  | None, Some (t :: ts) => inv = mkInvocationPolicy (ip_ID i) (ip_Name i) (ip_Type i) (ip_RetryPolicy i) (Some (mkFallbackPolicy (t :: ts)))
  | _, _ => inv = i
  end.
End reference.

(** ** The service follows the reference *)

Lemma is_empty_decide x : is_empty x = bool_decide (x = "").
Proof. done. Qed.

(** The switch puts an item in a dimension exactly when its columns address it. *)
Lemma dimension_addresses tenant user model it d : model <> "*" ->
  dimension tenant user model it = Some d <-> (d, (pi_Scope it, pi_Model it)) ∈ addresses tenant user model.
Proof.
  intros Hm. unfold dimension, addresses. rewrite !is_empty_decide. destruct it as [sc mo v]. cbn [pi_Scope pi_Model].
  rewrite !elem_of_app. split.
  - repeat case_match; intros [= <-]; repeat match goal with H : _ && _ = true |- _ => apply andb_true_iff in H as [? ?] | H : _ || _ = true |- _ => apply orb_true_iff in H as [H|H] end;
      sbool; subst; rewrite ?negb_true_iff, ?bool_decide_eq_false in *; try done; set_solver.
  - intros H. assert (Some d = dimension tenant user model (mkItem sc mo v)); [|done]. unfold dimension. cbn [pi_Scope pi_Model]. rewrite !is_empty_decide.
    destruct (decide (tenant = "")), (decide (user = "")); rewrite ?(bool_decide_eq_true_2 (tenant = "")), ?(bool_decide_eq_false_2 (tenant = "")), ?(bool_decide_eq_true_2 (user = "")), ?(bool_decide_eq_false_2 (user = "")) by done;
    repeat match goal with H : _ \/ _ |- _ => destruct H as [H|H] | H : _ ∈ _ :: _ |- _ => apply elem_of_cons in H | H : _ ∈ [] |- _ => by apply elem_of_nil in H | H : (_, _) = (_, _) |- _ => injection H as -> -> -> end;
    rewrite ?seqb_refl; repeat match goal with |- context [seqb ?a ?b] => rewrite (proj2 (seqb_neq a b)) by (discriminate || congruence) end; done.
Qed.

Lemma policy_map_addressed tenant user model items : model <> "*" -> forall d, policy_map tenant user model items !! d = addressed tenant user model items d.
Proof.
  intros Hm d. unfold policy_map, addressed. induction items as [|it items IH] using rev_ind; [done|]. rewrite fold_left_app, filter_app, omap_app. cbn [fold_left].
  rewrite filter_cons, filter_nil. pose proof (dimension_addresses tenant user model it d Hm) as D. destruct (decide (_ ∈ _)) as [A|A]; cbn [omap list_omap].
  - rewrite (proj2 D A). destruct (pi_Value it) as [v|]; [by rewrite last_snoc, lookup_insert_eq|by rewrite app_nil_r].
  - rewrite app_nil_r. destruct (pi_Value it) as [v|]; [|done]. destruct (dimension tenant user model it) as [d'|]; [|done].
    rewrite lookup_insert_ne; [done|]. intros ->. by apply A, D.
Qed.

Lemma filter_map_omap {A B} (f : A -> option B) l : filter (fun o => is_Some o) (map f l) = map Some (omap f l).
Proof.
  induction l as [|x l IH]; [done|]. cbn [map omap list_omap]. rewrite filter_cons. destruct (f x) as [y|]; [rewrite decide_True by eauto; cbn; by rewrite IH|].
  rewrite decide_False by (by intros [? ?]). done.
Qed.
Lemma candidates_reference chain local tenant user model items : model <> "*" ->
  policy_candidates chain local (policy_map tenant user model items) = reference_candidates chain local tenant user model items.
Proof.
  intros Hm. unfold policy_candidates, reference_candidates. rewrite filter_map_omap.
  assert (omap (fun d => policy_map tenant user model items !! d) chain = omap (addressed tenant user model items) chain) as ->.
  { clear local. induction chain as [|d chain IH]; [done|]. cbn [omap list_omap]. by rewrite IH, policy_map_addressed. }
  by destruct (omap _ chain).
Qed.

(** The pointer of the merge is that of the last candidate that has one. *)
Lemma last_inv_last l : last_inv l = last (omap (fun o => o ≫= po_inv) l).
Proof.
  unfold last_inv. induction l as [|o l IH] using rev_ind; [done|]. rewrite fold_left_app, omap_app. cbn [fold_left]. rewrite IH. cbn [omap list_omap].
  destruct (o ≫= po_inv); cbn; [by rewrite last_snoc|by rewrite app_nil_r].
Qed.

Section completions.
Context {W : Type} (P : PolicyProvider W).

Lemma fill_permissions_spec w tenant user m w' m' : fill_permissions P w tenant user m = (w', m') ->
  exists perms, permissions_of P tenant user w m w' perms /\ m' = m <| p_Permissions := Some perms |>.
Proof.
  unfold fill_permissions, permissions_of. assert (forall w' models, permitted_models P w tenant user = (w', models) -> granted P tenant user w w' (match models with [] => ["*"] | _ => models end)) as G.
  { intros w1 models. unfold permitted_models. rewrite !is_empty_decide. destruct (bool_decide_reflect (user = "")) as [Eu|Eu].
    - destruct (bool_decide_reflect (tenant = "")) as [Et|Et]; [intros [= <- <-]; eapply granted_all; eauto|]. intros Gt.
      destruct models; [eapply granted_all; eauto|eapply granted_tenant; eauto].
    - destruct (GetUserModels P w user) as [w2 [|x xs]] eqn:Gu; [|intros [= <- <-]; by eapply granted_user].
      destruct (bool_decide_reflect (tenant = "")) as [Et|Et]; [intros [= <- <-]; eapply granted_all; eauto|]. intros Gt.
      destruct models; [eapply granted_all; eauto|eapply granted_tenant; eauto]. }
  destruct (p_Permissions m) as [[|x xs]|] eqn:Ep; cbn [default].
  2: { intros [= <- <-]. exists (x :: xs). split; [done|]. destruct m; cbn in *. by rewrite Ep. }
  all: destruct (permitted_models P w tenant user) as [w1 models] eqn:Pm; intros [= <- <-]; eexists; split; [by apply G|done].
Qed.

Lemma deref_insert h l i o : po_inv o = Some l -> deref (<[l := i]> h) o = (po_policy o) <| p_InvocationPolicy := Some i |>.
Proof. intros E. unfold deref, load. rewrite E. cbn. by rewrite lookup_insert_eq. Qed.

Lemma fill_fallback_spec w h model o w' h' o' : fill_fallback P w h model o = (w', h', o') ->
  exists inv, invocation_of P w model (deref h o) inv /\ deref h' o' = (deref h o) <| p_InvocationPolicy := Some inv |> /\
  (forall l i, h !! l = Some i -> h' !! l = Some i \/ po_inv o = Some l /\ ip_FallbackPolicy i = None /\ h' !! l = Some inv).
Proof.
  unfold fill_fallback, invocation_of. fold zero_invocation. set (hl := match po_inv o with Some l => (h, l) | None => _ end).
  assert (exists h1 l, hl = (h1, l) /\ load h1 l = default zero_invocation (load h <$> po_inv o) /\ (forall l' i, h !! l' = Some i -> h1 !! l' = Some i) /\
    (po_inv o = Some l \/ h !! l = None)) as (h1 & l & -> & Hl & Hk & Ho).
  { unfold hl. destruct (po_inv o) as [l|]; [by exists h, l; split_and!; eauto|]. set (l := fresh (dom h)). assert (h !! l = None) as F by (apply not_elem_of_dom, is_fresh). clearbody l.
    exists (<[l := zero_invocation]> h), l. split_and!; [done|unfold load; by rewrite lookup_insert_eq| |by right]. intros l' i E. rewrite lookup_insert_ne; [done|]. intros Q. subst l'. by rewrite F in E. }
  assert (default zero_invocation (p_InvocationPolicy (deref h o)) = load h1 l) as -> by (unfold deref; cbn; by rewrite Hl).
  assert (forall w' h' o', (w, h1, o <| po_inv := Some l |>) = (w', h', o') \/ (exists w1, (w1, h1, o <| po_inv := Some l |>) = (w', h', o')) ->
    deref h' o' = (deref h o) <| p_InvocationPolicy := Some (load h1 l) |> /\ (forall l' i, h !! l' = Some i -> h' !! l' = Some i)) as Same.
  { intros ??? [E|[w1 E]]; injection E as <- <- <-; by split. }
  destruct (ip_FallbackPolicy (load h1 l)) as [f|] eqn:Ef.
  { intros R. exists (load h1 l). split; [done|]. destruct (Same _ _ _ (or_introl R)) as [-> K]. split; [done|]. eauto. }
  destruct (GetConfig P w model) as [w1 cfg]. cbn [snd]. destruct (cfg ≫= _) as [[|t ts]|].
  1,3: intros R; exists (load h1 l); split; [done|]; destruct (Same _ _ _ (or_intror (ex_intro _ _ R))) as [-> K]; split; [done|]; eauto.
  intros [= <- <- <-]. eexists. split; [done|]. split; [by rewrite deref_insert with (l := l) by done|].
  intros l' i E. destruct (decide (l' = l)) as [->|N]; [|left; rewrite lookup_insert_ne by done; eauto]. right. split_and!;
    [by destruct Ho; [|congruence]| |by rewrite lookup_insert_eq]. apply Hk in E. unfold load in Ef. by rewrite E in Ef.
Qed.

End completions.

(** C31: the policy of a request. A cached answer is returned as it is and asks nobody. Otherwise the policies of the provider decide (its
    error is passed on and not cached): for every dimension of the priority chain (global, tenant, user,
    model, tenant and model, user and model, unless configured) the last one whose scope and
    model columns address the request, merged in that order, or the static policies where there is none; a merge of nothing is an error that
    is cached. The result has the permissions of the merge, or failing that the models
    of the user, or failing that those of the tenant, or all; and the invocation policy
    of the merge, with the static fallbacks of the model where it names none; it is cached. No
    object of the provider changes but the invocation policy that wins the merge, where a static fallback is filled in. The model is not the
    wildcard itself, and all reads of one call see the provider one after the other. *)
Theorem effective_policy {L : Type -> Type} `{!ExpirableLRU L} {W : Type} (P : PolicyProvider W) (s : PolicyService L) (chain : list string) (w : W) (h : heap) (now : Time)
  (tenant user model : string) (Hchain : ps_chain s = ps_chain (NewPolicyService (L := L) (ps_local s) chain)) (Hmodel : model <> "*") :
  let key := tenant +:+ ":" +:+ user +:+ ":" +:+ model in
  let '(c, hit) := cache_Get (ps_cache s) now key in
  match hit, GetPolicies P w h model user tenant with
  | Some (inl o), _ => GetPolicy P s w h now tenant user model = Ret (s <| ps_cache := c |>, w, h, inl o)
  | Some (inr msg), _ => GetPolicy P s w h now tenant user model = Ret (s <| ps_cache := c |>, w, h, inr (errorf msg))
  | None, (w1, h1, inr e) => GetPolicy P s w h now tenant user model = Ret (s <| ps_cache := c |>, w1, h1, inr e)
  | None, (w1, h1, inl items) =>
      let order := match chain with [] => ["global"; "tenant"; "user"; "model"; "tenant_model"; "user_model"] | _ => chain end in
      let cands := reference_candidates order (ps_local s) tenant user model items in
      match PolicyMatcher_Match (map (fmap (deref h1)) cands) with
      | Panic => GetPolicy P s w h now tenant user model = Panic
      | Ret None => GetPolicy P s w h now tenant user model =
          Ret (s <| ps_cache := cache_AddInvalid c now key "no dynamic policy matched" |>, w1, h1, inr (errorf "no dynamic policy matched"))
      | Ret (Some m) => exists w2 w' h' o perms inv,
          GetPolicy P s w h now tenant user model = Ret (s <| ps_cache := cache_AddValid c now key o |>, w', h', inl o) /\
          permissions_of P tenant user w1 m w2 perms /\ invocation_of P w2 model m inv /\
          deref h' o = m <| p_Permissions := Some perms |> <| p_InvocationPolicy := Some inv |> /\
          forall l i, h1 !! l = Some i ->
            h' !! l = Some i \/ last (omap (fun o => o ≫= po_inv) cands) = Some l /\ ip_FallbackPolicy i = None /\ h' !! l = Some inv
      end
  end.
Proof.
  intros key. unfold GetPolicy. change (policy_cache_key tenant user model) with key. destruct (cache_Get (ps_cache s) now key) as [c [[o|msg]|]]; [done..|].
  destruct (GetPolicies P w h model user tenant) as [[w1 h1] [items|e]]; [|done]. set (order := match chain with [] => _ | _ => _ end). set (cands := reference_candidates order _ _ _ _ _).
  change (ps_local (s <| ps_cache := c |>)) with (ps_local s). change (ps_chain (s <| ps_cache := c |>)) with (ps_chain s). rewrite Hchain.
  change (ps_chain (NewPolicyService (ps_local s) chain)) with order. rewrite candidates_reference by done. fold cands.
  rewrite <- (match_objects_deref h1 cands). destruct (match_objects cands) as [[merged|]|] eqn:Mo; [|done|done]. cbn [go_fmap fmap option_fmap option_map].
  assert (po_inv merged = last (omap (fun o => o ≫= po_inv) cands)) as Ei.
  { rewrite <- last_inv_last. unfold match_objects in Mo. destruct (PolicyMatcher_Match _) as [[m|]|]; [|done|done]. by injection Mo as <-. }
  destruct (fill_permissions P w1 tenant user (po_policy merged)) as [w2 m2] eqn:Fp. destruct (fill_fallback P w2 h1 model (merged <| po_policy := m2 |>)) as [[w3 h3] o3] eqn:Ff.
  apply fill_permissions_spec in Fp as (perms & Hp & ->). apply fill_fallback_spec in Ff as (inv & Hi & Hd & Hh).
  exists w2, w3, h3, o3, perms, inv. split_and!; [done|exact Hp|exact Hi|exact Hd|]. rewrite <- Ei. exact Hh.
Qed.

(** ** Examples *)

(** A global policy with an invocation policy, and static fallbacks for two models. *)
Definition demo_global : policy_obj := mkObj emptyPolicy (Some 1%positive).
Definition demo_heap : heap := {[1%positive := mkInvocationPolicy "" "" "cluster" None None]}.
Definition demo_fallbacks : gmap string (list string) := {["a" := ["a2"]; "b" := ["b2"]]}.
Definition demo_provider : PolicyProvider unit := http_PolicyProvider [mkItem "global" "*" (Some demo_global)] (Some demo_fallbacks).
Definition demo_service : PolicyService assoc_lru := NewPolicyService [] [].

Lemma effective_policy_witness : exists s' w' h' o, GetPolicy demo_provider demo_service tt demo_heap 0 "t" "" "a" = Ret (s', w', h', inl o) /\
  p_Permissions (deref h' o) = Some ["*"] /\ p_InvocationPolicy (deref h' o) = Some (mkInvocationPolicy "" "" "cluster" None (Some (mkFallbackPolicy ["a2"]))).
Proof.
  destruct (effective_policy (ExpirableLRU0 := assoc_ops) demo_provider demo_service [] tt demo_heap 0 "t" "" "a" eq_refl ltac:(discriminate))
    as (w2 & w' & h' & o & perms & inv & E & Hp & Hi & Hd & _).
  eexists _, w', h', o. split; [exact E|]. rewrite Hd. cbn. split.
  - inversion Hp as [? ? N|? ? ? _ _ G _|? ? _ G]; [done| |reflexivity]. injection G as _ <-. reflexivity.
  - rewrite Hi. reflexivity.
Defined.

(** The targets of the policy of a model, after the policies of other models were asked for. *)
Fixpoint targets_after (earlier : list string) (model : string) (s : PolicyService assoc_lru) (h : heap) : option (list string) :=
  match earlier with
  | [] => match GetPolicy demo_provider s tt h 0 "t" "" model with
          | Ret (_, _, h', inl o) => fp_Targets <$> (p_InvocationPolicy (deref h' o) ≫= ip_FallbackPolicy)
          | _ => None
          end
  | m :: rest => match GetPolicy demo_provider s tt h 0 "t" "" m with Ret (s', _, h', _) => targets_after rest model s' h' | Panic => None end
  end.

(** The static fallbacks of the first model a policy is asked for are written into the shared
    object, and every other model falls back to them from then on. *)
Theorem static_fallback_leaks : targets_after [] "b" demo_service demo_heap = Some ["b2"] /\ targets_after ["a"] "b" demo_service demo_heap = Some ["a2"].
Proof. split; vm_compute; reflexivity. Qed.

(** * Cache keys *)

Definition colon_free (s : string) : Prop := byte_of 58 ∉ ascii_list s.

(** Two requests share a cached policy only if they are of the same tenant, user and model ... *)
Lemma policy_cache_key_inj t u m t' u' m' : colon_free t -> colon_free u -> colon_free t' -> colon_free u' ->
  policy_cache_key t u m = policy_cache_key t' u' m' -> t = t' /\ u = u' /\ m = m'.
Proof.
  intros Ct Cu Ct' Cu' E. apply (f_equal ascii_list) in E. unfold policy_cache_key in E. rewrite !ascii_list_app in E.
  change (ascii_list ":") with [byte_of 58] in E. cbn [app] in E. assert (ascii_list t = ascii_list t') as Et by (by eapply before_separator).
  rewrite Et in E. apply app_inv_head in E. injection E as E. assert (ascii_list u = ascii_list u') as Eu by (by eapply before_separator).
  rewrite Eu in E. apply app_inv_head in E. injection E as E.
  split_and!; rewrite <- string_of_list; symmetry; rewrite <- string_of_list; by f_equal.
Qed.

(** ... where tenants and users have no colon in their codes; otherwise they can collide. *)
Example policy_cache_key_collides : policy_cache_key "a:b" "c" "m" = policy_cache_key "a" "b:c" "m".
Proof. reflexivity. Qed.
