(* ===== verification/RedisPolicies.v ===== *)
(** The policies of the Redis mode: [RedisGatewayProvider.GetPolicies] of pkg/config/redis_provider.go,
    and what [PolicyService] makes of them.

    The Redis commands and the JSON decoders of policies are arguments; every
    call decodes anew, so the invocation policies are fresh objects. *)

From S2P Require Import Prelude GoFloat GoStrings GoTime GoJson GoPrint Matcher Policy PolicyMerge Types Context Http Cache PolicyService.

(** * redis_provider.go *)

Section redis.
(** [HMGET] (a value or nil per field), [HGETALL]; [json.Unmarshal] into a nil pointer, an error of which is ignored, and into a value, where an error counts. *)
Context (hmget : string -> list string -> list (option string) + goerror) (hgetall : string -> gmap string string + goerror)
  (policy_ptr : string -> option Policy) (billing_ptr : string -> option BillingPolicy)
  (policy_val : string -> option Policy) (billing_val : string -> option BillingPolicy).

(** Scope, model and policy. *)
Abbreviation entry := (string * string * Policy)%type.

Definition nonempty_value (v : option string) : option string := v ≫= fun s => if is_empty s then None else Some s.

(** The policy of a field and the billing policy of its companion. *)
Definition read_pair (v b : option string) : option Policy :=
  let p := nonempty_value v ≫= policy_ptr in
  match nonempty_value b ≫= billing_ptr with
  | Some b => Some ((default emptyPolicy p) <| p_Billing := Some b |>)
  | None => p
  end.

Definition to_entry (scope model : string) (p : option Policy) : list entry := match p with Some p => [(scope, model, p)] | None => [] end.

Definition two_pairs (scope model : string) (res : list (option string) + goerror) : list entry :=
  match res with
  | inl [v0; v1; v2; v3] => to_entry scope model (read_pair v0 v1) ++ to_entry scope "*" (read_pair v2 v3)
  | _ => []
  end.

Definition one_pair (scope : string) (res : list (option string) + goerror) : list entry :=
  match res with inl [v0; v1] => to_entry scope "*" (read_pair v0 v1) | _ => [] end.

Definition billing_suffix : string := ":billing".
Definition trim_billing (m : string) : string := string_take (String.length m - String.length billing_suffix) m.

(** A whole hash: policies and billing policies by model, then joined. *)
Definition hash_policies (fields : gmap string string) : gmap string Policy :=
  let '(ps, bs) := fold_left (fun (acc : gmap string Policy * gmap string BillingPolicy) '(m, val) =>
      let '(ps, bs) := acc in
      if is_empty val then acc
      else if HasSuffix m billing_suffix then match billing_val val with Some b => (ps, <[trim_billing m := b]> bs) | None => acc end
      else match policy_val val with Some p => (<[m := p]> ps, bs) | None => acc end) (map_to_list fields) (∅, ∅) in
  fold_left (fun ps '(m, b) => <[m := (default emptyPolicy (ps !! m)) <| p_Billing := Some b |>]> ps) (map_to_list bs) ps.

Definition all_models (scope : string) (res : gmap string string + goerror) : list entry :=
  match res with inl fields => map (fun '(m, p) => (scope, m, p)) (map_to_list (hash_policies fields)) | inr _ => [] end.

Definition model_fields (model : string) : list string := [model; model +:+ billing_suffix; "*"; "*" +:+ billing_suffix].

(** The policies of an owner: those of the model asked for, or of every model. *)
Definition owner_policies (hash scope model : string) : list entry :=
  if negb (is_empty model) && negb (seqb model "*") then two_pairs scope model (hmget hash (model_fields model)) else all_models scope (hgetall hash).

(** The policies of the gateway, for the model and for every model. *)
Definition global_policies (model : string) : list entry :=
  let res := hmget "aigw:policies:global" (if negb (is_empty model) && negb (seqb model "*") then model_fields model else ["*"; "*" +:+ billing_suffix]) in
  match res with
  | inl [_; _; _; _] => two_pairs "global" model res
  | _ => one_pair "global" res
  end.

Definition redis_GetPolicies (model user tenant : string) : list entry :=
  (if is_empty user then [] else owner_policies ("aigw:policies:user:" +:+ user) ("user:" +:+ user) model) ++
  (if is_empty tenant then [] else owner_policies ("aigw:policies:tenant:" +:+ tenant) ("tenant:" +:+ tenant) model) ++
  (if is_empty model then [] else one_pair ("model:" +:+ model) (hmget ("aigw:policies:model:" +:+ model) ["*"; "*" +:+ billing_suffix])) ++
  global_policies model.

(** ** Objects *)

(** A decoded policy: its invocation policy is a new object. *)
Definition new_object (h : heap) (p : Policy) : heap * policy_obj :=
  match p_InvocationPolicy p with
  | Some i => let l := fresh (dom h) in (<[l := i]> h, mkObj p (Some l))
  | None => (h, mkObj p None)
  end.

Fixpoint new_items (h : heap) (l : list entry) : heap * list HTTPPolicyItem :=
  match l with
  | [] => (h, [])
  | (scope, model, p) :: r => let '(h, o) := new_object h p in let '(h, items) := new_items h r in (h, mkItem scope model (Some o) :: items)
  end.

(** [smembers]: the members of a set, none on an error. *)
Definition redis_PolicyProvider (smembers : string -> list string) : PolicyProvider unit :=
  mkPolicyProvider (fun w h model user tenant => let '(h, items) := new_items h (redis_GetPolicies model user tenant) in (w, h, inl items))
    (fun w u => (w, smembers ("aigw:user:" +:+ u +:+ ":models"))) (fun w t => (w, smembers ("aigw:tenant:" +:+ t +:+ ":models"))) (fun w _ => (w, None)).
End redis.

(** * Values *)

(** The same selection on the decoded policies. *)
Definition value_map (tenant user model : string) (l : list (string * string * Policy)) (m : gmap string Policy) : gmap string Policy :=
  fold_left (fun m '(scope, mo, p) => match dimension tenant user model (mkItem scope mo None) with Some d => <[d := p]> m | None => m end) l m.

Definition stored (h h' : heap) : Prop := forall l i, h !! l = Some i -> h' !! l = Some i.

Lemma new_object_spec h p h' o : new_object h p = (h', o) -> stored h h' /\ forall h'', stored h' h'' -> deref h'' o = p.
Proof.
  unfold new_object. destruct (p_InvocationPolicy p) as [i|] eqn:E; intros [= <- <-].
  - split. { intros l j Hl. rewrite lookup_insert_ne; [done|]. intros Q. pose proof (is_fresh (dom h)) as F. rewrite Q in F. apply F, elem_of_dom. by exists j. }
    intros h'' S. unfold deref, load. cbn [po_inv po_policy fmap option_fmap option_map]. rewrite (S _ i) by apply lookup_insert_eq. destruct p. cbn in *. by subst.
  - split; [by intros l j|]. intros h'' _. unfold deref. destruct p. cbn in *. by subst.
Qed.

Lemma new_items_stored l : forall h h' items, new_items h l = (h', items) -> stored h h'.
Proof.
  induction l as [|[[scope model] p] l IH]; intros h h' items; cbn [new_items]; [intros [= <- <-]; by intros ??|].
  destruct (new_object h p) as [h1 o] eqn:O. destruct (new_items h1 l) as [h2 its] eqn:N. intros [= <- <-].
  apply new_object_spec in O as [O _]. apply IH in N. intros x i E. by apply N, O.
Qed.

Lemma policy_map_values tenant user model l : forall h h' items (m : gmap string policy_obj) v, new_items h l = (h', items) ->
  (forall h'', stored h h'' -> deref h'' <$> m = v) ->
  deref h' <$> fold_left (fun m it => match pi_Value it, dimension tenant user model it with Some v, Some d => <[d := v]> m | _, _ => m end) items m =
  value_map tenant user model l v.
Proof.
  induction l as [|[[scope mo] p] l IH]; intros h h' items m v; cbn [new_items]; [intros [= <- <-] H; apply H; by intros ??|].
  destruct (new_object h p) as [h1 o] eqn:O. destruct (new_items h1 l) as [h2 its] eqn:N. intros [= <- <-] H. apply new_object_spec in O as [O1 O2].
  cbn [fold_left pi_Value value_map]. change (dimension tenant user model (mkItem scope mo (Some o))) with (dimension tenant user model (mkItem scope mo None)).
  assert (forall h'', stored h1 h'' -> stored h h'') as T. { intros h'' S x i E. by apply S, O1. }
  destruct (dimension tenant user model (mkItem scope mo None)) as [d|]; apply (IH h1 h2 its); try done; intros h'' S; [|by apply H, T].
  rewrite fmap_insert, H, O2; [done|done|by apply T].
Qed.

Lemma value_map_app tenant user model l k m : value_map tenant user model (l ++ k) m = value_map tenant user model k (value_map tenant user model l m).
Proof. unfold value_map. apply fold_left_app. Qed.

Lemma seqb_ne s t : s <> t -> seqb s t = false.
Proof. unfold seqb. by apply bool_decide_eq_false. Qed.

Lemma value_map_entry tenant user model scope mo (p : option Policy) m d : dimension tenant user model (mkItem scope mo None) = Some d ->
  value_map tenant user model (to_entry scope mo p) m = match p with Some p => <[d := p]> m | None => m end.
Proof. intros E. destruct p; [|done]. cbn. by rewrite E. Qed.

Lemma some_or_None {A} (x : option A) : some_or x None = x.
Proof. by destruct x. Qed.

Lemma lookup_maybe {A} (m : gmap string A) k (p : option A) d :
  (match p with Some p => <[k := p]> m | None => m end) !! d = if seqb d k then some_or p (m !! d) else m !! d.
Proof. unfold seqb. destruct p; case_bool_decide; subst; [apply lookup_insert_eq|by apply lookup_insert_ne|done|done]. Qed.

(** ** The dimensions of the entries *)

Section dimensions.
Context (tenant user model : string) (Hmodel : model <> "") (Hstar : model <> "*").

#[local] Ltac scopes := unfold dimension, is_empty; cbn [pi_Scope pi_Model]; repeat first [rewrite seqb_refl | match goal with |- context [seqb ?a ?b] => rewrite (seqb_ne a b) by (done || congruence) end];
  rewrite ?andb_false_r, ?andb_true_r, ?orb_false_r, ?orb_true_r; cbn [andb orb negb].

Lemma dim_user mo : user <> "" -> mo = model \/ mo = "*" ->
  dimension tenant user model (mkItem ("user:" +:+ user) mo None) = Some (if seqb mo "*" then "user" else "user_model").
Proof. intros Hu [-> | ->]; scopes; done. Qed.

Lemma dim_tenant mo : tenant <> "" -> mo = model \/ mo = "*" ->
  dimension tenant user model (mkItem ("tenant:" +:+ tenant) mo None) = Some (if seqb mo "*" then "tenant" else "tenant_model").
Proof. intros Ht [-> | ->]; scopes; done. Qed.

Lemma dim_model : dimension tenant user model (mkItem ("model:" +:+ model) "*" None) = Some "model".
Proof. scopes; done. Qed.

Lemma dim_global mo : mo = model \/ mo = "*" -> dimension tenant user model (mkItem "global" mo None) = Some (if seqb mo "*" then "global" else "model").
Proof. intros [-> | ->]; scopes; done. Qed.
End dimensions.

(** in the Redis mode the six dimensions of the policy of a request are read from four hashes: the
    policies of the user, the tenant, the model and the gateway, for the model asked for and
    for every model, each with the billing policy stored next to it. A gateway policy for the model wins over
    the policy of the model; a dimension without an owner or an entry is empty. *)
Theorem redis_dimensions (hget : string -> string -> option string)
  (hmget : string -> list string -> list (option string) + goerror) (hgetall : string -> gmap string string + goerror)
  (pp : string -> option Policy) (bp : string -> option BillingPolicy) (pv : string -> option Policy) (bv : string -> option BillingPolicy)
  (tenant user model : string) (h h' : heap) (items : list HTTPPolicyItem)
  (Hhmget : forall key fields, hmget key fields = inl (map (hget key) fields)) (Hmodel : model <> "") (Hstar : model <> "*")
  (Hitems : new_items h (redis_GetPolicies hmget hgetall pp bp pv bv model user tenant) = (h', items)) :
  let pair key m := read_pair pp bp (hget key m) (hget key (m +:+ ":billing")) in
  let owned owner key m := if is_empty owner then None else pair key m in
  let get d := deref h' <$> (policy_map tenant user model items !! d) in
  get "user_model" = owned user ("aigw:policies:user:" +:+ user) model /\ get "user" = owned user ("aigw:policies:user:" +:+ user) "*" /\
  get "tenant_model" = owned tenant ("aigw:policies:tenant:" +:+ tenant) model /\ get "tenant" = owned tenant ("aigw:policies:tenant:" +:+ tenant) "*" /\
  get "model" = some_or (pair "aigw:policies:global" model) (pair ("aigw:policies:model:" +:+ model) "*") /\
  get "global" = pair "aigw:policies:global" "*".
Proof.
  intros pair owned get. assert (forall d, get d = value_map tenant user model (redis_GetPolicies hmget hgetall pp bp pv bv model user tenant) ∅ !! d) as Eg.
  { intros d. unfold get, policy_map. by rewrite <- lookup_fmap, (policy_map_values tenant user model _ h h' items ∅ ∅ Hitems) by (intros; apply fmap_empty). }
  rewrite !Eg. clear get Eg Hitems. unfold redis_GetPolicies, global_policies, owner_policies, model_fields, billing_suffix. rewrite !Hhmget. cbn [map]. unfold owned, is_empty.
  rewrite (seqb_ne model "") by done. rewrite (seqb_ne model "*") by done. cbn [negb andb map two_pairs one_pair].
  destruct (decide (user = "")) as [Eu|Eu], (decide (tenant = "")) as [Et|Et]; rewrite ?Eu, ?Et, ?seqb_refl, ?(seqb_ne user ""), ?(seqb_ne tenant "") by done; cbn [app]; rewrite ?value_map_app.
  all: repeat (erewrite value_map_entry by first [apply dim_model; by auto|apply dim_global; by auto|apply dim_user; by auto|apply dim_tenant; by auto]).
  all: rewrite ?seqb_refl, ?(seqb_ne model "*") by done; rewrite !lookup_maybe.
  all: repeat match goal with |- context [seqb ?a ?b] => match eval vm_compute in (seqb a b) with true => change (seqb a b) with true | false => change (seqb a b) with false end end.
  all: cbn iota; rewrite !lookup_empty, ?some_or_None; split_and!; reflexivity.
Qed.

(** A user with a policy for the model, a gateway policy for every model with its billing. *)
Definition demo_hget (key field : string) : option string :=
  if seqb key "aigw:policies:user:u" && seqb field "m" then Some "{}"
  else if seqb key "aigw:policies:global" && seqb field "*:billing" then Some "{}" else None.
Definition demo_hmget (key : string) (fields : list string) : list (option string) + goerror := inl (map (demo_hget key) fields).
Definition demo_policy_val (s : string) : option Policy := Some (emptyPolicy <| p_EnableMetricsReporting := true |>).

Lemma redis_dimensions_witness : exists h' items,
  new_items ∅ (redis_GetPolicies demo_hmget (fun _ => inl ∅) demo_policy_val (fun _ => None) demo_policy_val (fun _ => None) "m" "u" "") = (h', items) /\
  let pair key m := read_pair demo_policy_val (fun _ => None) (demo_hget key m) (demo_hget key (m +:+ ":billing")) in
  let get d := deref h' <$> (policy_map "" "u" "m" items !! d) in
  get "user_model" = pair "aigw:policies:user:u" "m" /\ pair "aigw:policies:user:u" "m" = Some (emptyPolicy <| p_EnableMetricsReporting := true |>) /\ get "tenant" = None.
Proof.
  eexists _, _. split; [vm_compute; reflexivity|].
  match goal with |- let pair := _ in let get := (fun d => deref ?h' <$> (policy_map _ _ _ ?items !! d)) in _ =>
    pose proof (redis_dimensions demo_hget demo_hmget (fun _ => inl ∅) demo_policy_val (fun _ => None) demo_policy_val (fun _ => None) "" "u" "m" ∅ h' items
      (fun _ _ => eq_refl) ltac:(discriminate) ltac:(discriminate) ltac:(vm_compute; reflexivity)) as (H1 & _ & _ & H2 & _) end.
  split_and!; [exact H1|reflexivity|exact H2].
Defined.
