(* ===== verification/Config.v ===== *)
(** The model configuration of the gateway: pkg/config types.go (data), loader.go (validation and flattening of
    the static configuration) and smart_routing.go (smart models in it).

    [Pipelines] of the configuration is only handed on and left out. *)

From Stdlib Require Import Ascii.
From S2P Require Import Prelude GoFloat GoStrings GoTime GoJson GoPrint Matcher Policy Types Context Http Sse Translate SmartRequest.

(** * types.go *)

Abbreviation string_map := (gmap string string).

Record ProviderConfig := mkProviderConfig { pc_Protocol : string; pc_APIKey : string; pc_Timeout : Duration; pc_MaxRetries : Z }.
Definition zeroProvider : ProviderConfig := mkProviderConfig "" "" 0 0.

Record EndpointConfig := mkEndpointConfig {
  ec_ID : string; ec_Code : string; ec_Provider : string; ec_URL : string; ec_RealModel : string; ec_APIKey : string; ec_AuthType : string; ec_Protocol : string;
  ec_Timeout : Duration; ec_Priority : Z; ec_Weight : Z; ec_Headers : option string_map; ec_Metadata : option string_map; ec_ContextLength : Z; ec_MaxOutputTokens : Z
}.

Record ModelConfig := mkModelConfig {
  mc_ModelType : string; mc_SmartRouting : option SmartRoutingConfig; mc_RequestTypes : list string; mc_ContextLength : Z; mc_MaxOutputTokens : Z; mc_Endpoints : list EndpointConfig
}.
#[global] Instance eta_model_config : Eta ModelConfig := fun m =>
  mkModelConfig (mc_ModelType m) (mc_SmartRouting m) (mc_RequestTypes m) (mc_ContextLength m) (mc_MaxOutputTokens m) (mc_Endpoints m).

Record GatewayConfig := mkGatewayConfig {
  gc_Models : gmap string ModelConfig; gc_Providers : gmap string ProviderConfig; gc_Fallbacks : gmap string (list string); gc_Aliases : option string_map
}.

Record ResolvedEndpoint := mkResolved {
  re_ID : string; re_Code : string; re_Description : string; re_RealModel : string; re_ProviderName : string; re_ProviderCode : string; re_ProviderProtocol : string;
  re_APIKey : string; re_AuthType : string; re_URL : string; re_Timeout : Z; re_MaxRetries : Z; re_Priority : Z; re_Weight : Z; re_Headers : option string_map;
  re_Metadata : option string_map; re_RequestTypes : list string; re_ContextLength : Z; re_MaxOutputTokens : Z;
  re_InputPrice : option float64; re_OutputPrice : option float64; re_CachedPrice : option float64; re_CacheCreationPrice : option float64
}.
#[global] Instance eta_resolved : Eta ResolvedEndpoint := fun r =>
  mkResolved (re_ID r) (re_Code r) (re_Description r) (re_RealModel r) (re_ProviderName r) (re_ProviderCode r) (re_ProviderProtocol r) (re_APIKey r) (re_AuthType r)
    (re_URL r) (re_Timeout r) (re_MaxRetries r) (re_Priority r) (re_Weight r) (re_Headers r) (re_Metadata r) (re_RequestTypes r) (re_ContextLength r)
    (re_MaxOutputTokens r) (re_InputPrice r) (re_OutputPrice r) (re_CachedPrice r) (re_CacheCreationPrice r).
Definition zeroResolved : ResolvedEndpoint := mkResolved "" "" "" "" "" "" "" "" "" "" 0 0 0 0 None None [] 0 0 None None None None.

(** ** [ResolvedEndpoint.UnmarshalJSON] *)

(** A map is decoded into the one that is there. *)
Definition dec_string_map : decoder (option string_map) := fun j old =>
  match j with
  | JNull => Some None
  | JObj ms => Some <$> fold_left (fun acc '(k, v) => acc ≫= fun m => (fun s => <[k := s]> m) <$> dec_string v "") ms (Some (default ∅ old))
  | _ => None
  end.

(** The struct the method decodes into: the aliases of the two codes, and the endpoint. *)
Record endpoint_aux := mkAux { ax_IDSnake : string; ax_IDCamel : string; ax_CodeSnake : string; ax_CodeCamel : string; ax_Endpoint : ResolvedEndpoint }.
#[global] Instance eta_aux : Eta endpoint_aux := fun a => mkAux (ax_IDSnake a) (ax_IDCamel a) (ax_CodeSnake a) (ax_CodeCamel a) (ax_Endpoint a).

Section decode.
(** [dec_float]: the decoder of a number. *)
Context (dec_float : decoder float64) (zero : float64).

Definition on_endpoint {T} (proj : ResolvedEndpoint -> T) `{!Setter proj} (d : decoder T) : decoder endpoint_aux := dec_field ax_Endpoint (dec_field proj d).
Definition dec_price : decoder (option float64) := dec_ptr zero dec_float.

Definition dec_aux : decoder endpoint_aux :=
  dec_struct [("endpoint_id", dec_field ax_IDSnake dec_string); ("endpointId", dec_field ax_IDCamel dec_string); ("endpoint_code", dec_field ax_CodeSnake dec_string);
    ("endpointCode", dec_field ax_CodeCamel dec_string); ("id", on_endpoint re_ID dec_string); ("code", on_endpoint re_Code dec_string);
    ("description", on_endpoint re_Description dec_string); ("real_model", on_endpoint re_RealModel dec_string); ("provider_name", on_endpoint re_ProviderName dec_string);
    ("provider_code", on_endpoint re_ProviderCode dec_string); ("provider_protocol", on_endpoint re_ProviderProtocol dec_string); ("api_key", on_endpoint re_APIKey dec_string);
    ("auth_type", on_endpoint re_AuthType dec_string); ("url", on_endpoint re_URL dec_string); ("timeout", on_endpoint re_Timeout dec_int);
    ("max_retries", on_endpoint re_MaxRetries dec_int); ("priority", on_endpoint re_Priority dec_int); ("weight", on_endpoint re_Weight dec_int);
    ("headers", on_endpoint re_Headers dec_string_map); ("metadata", on_endpoint re_Metadata dec_string_map);
    ("request_types", on_endpoint re_RequestTypes (dec_slice "" dec_string)); ("context_length", on_endpoint re_ContextLength dec_int);
    ("max_output_tokens", on_endpoint re_MaxOutputTokens dec_int); ("input_price", on_endpoint re_InputPrice dec_price); ("output_price", on_endpoint re_OutputPrice dec_price);
    ("cached_price", on_endpoint re_CachedPrice dec_price); ("cache_creation_price", on_endpoint re_CacheCreationPrice dec_price)].

Definition first_of (a b c : string) : string := if is_empty a then if is_empty b then c else b else a.

Definition dec_resolved : decoder ResolvedEndpoint := fun j old =>
  (fun a => (ax_Endpoint a) <| re_ID := first_of (re_ID (ax_Endpoint a)) (ax_IDSnake a) (ax_IDCamel a) |>
                            <| re_Code := first_of (re_Code (ax_Endpoint a)) (ax_CodeSnake a) (ax_CodeCamel a) |>) <$> dec_aux j (mkAux "" "" "" "" old).

Definition decode_endpoints (data : string) : option (list ResolvedEndpoint) := Unmarshal (dec_slice zeroResolved dec_resolved) [] data.
End decode.

(** * smart_routing.go *)

Section routing.
(** [strconv.IsPrint] of runes beyond ASCII. *)
Context (IsPrint : list ascii -> bool).

Definition smart_deps (c : SmartRoutingConfig) : list string := sc_JudgeModel c :: map sg_Model (sc_Ranges c).

(** A dependency that is a smart model itself. *)
Definition is_smart_name (cfg : GatewayConfig) (dep : string) : bool :=
  existsb (fun '(name, m) => EqualFold name dep && seqb (mc_ModelType m) "smart") (map_to_list (gc_Models cfg)).

Definition modelSmartRouting (cfg : GatewayConfig) (code : string) (model : ModelConfig) : option SmartRoutingConfig + goerror :=
  let err text := inr (errorf ("model " +:+ code +:+ ": " +:+ text)) in
  if is_empty (mc_ModelType model) || seqb (mc_ModelType model) "normal" then
    match mc_SmartRouting model with Some _ => err "normal model cannot contain smart_routing" | None => inl None end
  else if negb (seqb (mc_ModelType model) "smart") then err ("unknown model_type " +:+ Quote IsPrint (mc_ModelType model))
  else if (0 <? length (mc_Endpoints model))%nat then err "smart model cannot have direct endpoints"
  else if negb (bool_decide (mc_RequestTypes model = ["chat_completion"])) then err "smart model only supports chat_completion"
  else
    match Smart_Validate (mc_SmartRouting model) code, mc_SmartRouting model with
    | Some e, _ => inr (wrap_error ("model " +:+ code +:+ ": ") e)
    | None, None => inl None
    | None, Some c =>
        let smart := ApplyDefaults c in
        match List.find (is_smart_name cfg) (smart_deps smart) with
        | Some dep => err ("dependency " +:+ dep +:+ " must be ordinary")
        | None => inl (Some smart)
        end
    end.

Definition clone_model (m : ModelConfig) : ModelConfig :=
  m <| mc_ModelType := if is_empty (mc_ModelType m) then "normal" else mc_ModelType m |> <| mc_SmartRouting := ApplyDefaults <$> mc_SmartRouting m |>.
Definition cloneGatewayConfig (cfg : GatewayConfig) : GatewayConfig :=
  mkGatewayConfig (clone_model <$> gc_Models cfg) (gc_Providers cfg) (gc_Fallbacks cfg) (gc_Aliases cfg).

(** * loader.go *)

Definition endpoint_error (cfg : GatewayConfig) (modelCode : string) (i : nat) (ep : EndpointConfig) : option goerror :=
  let err text := Some (errorf ("model " +:+ modelCode +:+ " endpoint[" +:+ Itoa (Z.of_nat i) +:+ "]: " +:+ text)) in
  if is_empty (ec_Provider ep) then err "provider is required"
  else if is_empty (ec_URL ep) then err "url is required"
  else match gc_Providers cfg !! ec_Provider ep with
       | None => err ("references unknown provider: " +:+ ec_Provider ep)
       | Some _ => None
       end.

Fixpoint endpoint_errors (cfg : GatewayConfig) (modelCode : string) (i : nat) (eps : list EndpointConfig) : option goerror :=
  match eps with
  | [] => None
  | ep :: r => match endpoint_error cfg modelCode i ep with Some e => Some e | None => endpoint_errors cfg modelCode (S i) r end
  end.

Definition model_error (cfg : GatewayConfig) (modelCode : string) (m : ModelConfig) : option goerror :=
  match modelSmartRouting cfg modelCode m with
  | inr e => Some e
  | inl _ => match mc_RequestTypes m with
             | [] => Some (errorf ("model " +:+ modelCode +:+ ": requestTypes are required and cannot be empty"))
             | _ => endpoint_errors cfg modelCode 0 (mc_Endpoints m)
             end
  end.

(** The models in some order; the first error is returned. *)
Fixpoint first_error (cfg : GatewayConfig) (ms : list (string * ModelConfig)) : option goerror :=
  match ms with
  | [] => None
  | (code, m) :: r => match model_error cfg code m with Some e => Some e | None => first_error cfg r end
  end.
Definition Config_Validate (cfg : GatewayConfig) : option goerror := first_error cfg (map_to_list (gc_Models cfg)).

Definition defaultTimeout : Duration := 60 * Second.
Definition defaultMaxRetries : Z := 3.
Definition defaultWeight : Z := 1.
Definition Milliseconds (d : Duration) : Z := Z.quot d Millisecond.

Definition resolve_endpoint (cfg : GatewayConfig) (m : ModelConfig) (ep : EndpointConfig) : ResolvedEndpoint :=
  let p := default zeroProvider (gc_Providers cfg !! ec_Provider ep) in
  mkResolved (ec_ID ep) (ec_Code ep) "" (ec_RealModel ep) (ec_Provider ep) (ec_Provider ep)
    (if is_empty (ec_Protocol ep) then pc_Protocol p else ec_Protocol ep)
    (if is_empty (ec_APIKey ep) then pc_APIKey p else ec_APIKey ep)
    (if is_empty (ec_AuthType ep) then "api_key" else ec_AuthType ep)
    (ec_URL ep)
    (if 0 <? ec_Timeout ep then Milliseconds (ec_Timeout ep) else if 0 <? pc_Timeout p then Milliseconds (pc_Timeout p) else Milliseconds defaultTimeout)
    (if 0 <? pc_MaxRetries p then pc_MaxRetries p else defaultMaxRetries)
    (ec_Priority ep)
    (if 0 <? ec_Weight ep then ec_Weight ep else defaultWeight)
    (ec_Headers ep) (ec_Metadata ep) (mc_RequestTypes m)
    (default_limit (ec_ContextLength ep) (mc_ContextLength m)) (default_limit (ec_MaxOutputTokens ep) (mc_MaxOutputTokens m))
    None None None None.

Definition resolve_model (cfg : GatewayConfig) (code : string) (m : ModelConfig) : option (list ResolvedEndpoint) :=
  match modelSmartRouting cfg code m with inr _ => None | inl _ => Some (map (resolve_endpoint cfg m) (mc_Endpoints m)) end.
Definition Resolve (cfg : option GatewayConfig) : gmap string (list ResolvedEndpoint) :=
  match cfg with None => ∅ | Some cfg => map_imap (resolve_model cfg) (gc_Models cfg) end.

(** The models without an error: those [Resolve] lists. *)
Definition KnownModels (cfg : option GatewayConfig) : gset string := dom (Resolve cfg).
End routing.

(** * Properties *)

(** A smart configuration as requests see it: valid for its model, with every limit set. *)
Definition smart_ready (code : string) (c : SmartRoutingConfig) : Prop :=
  Smart_Validate (Some c) code = None /\ 0 < sc_JudgeTimeoutMs c /\ 0 < sc_JudgeMaxInputBytes c /\ 0 < sc_JudgeMaxOutputTokens c.

Lemma default_limit_nonneg n d : 0 <= d -> (default_limit n d <? 0) = (n <? 0).
Proof. unfold default_limit. intros Hd. destruct (Z.eqb_spec n 0) as [->|]; [|done]. destruct (Z.ltb_spec d 0); [lia|]. cbn. done. Qed.

Lemma ApplyDefaults_validate c code : Smart_Validate (Some (ApplyDefaults c)) code = Smart_Validate (Some c) code.
Proof. unfold Smart_Validate. cbn [ApplyDefaults sc_Version sc_JudgeModel sc_JudgeTimeoutMs sc_JudgeMaxInputBytes sc_JudgeMaxOutputTokens sc_Ranges update]. by rewrite !default_limit_nonneg by lia. Qed.

Lemma ApplyDefaults_ready c code : Smart_Validate (Some c) code = None -> smart_ready code (ApplyDefaults c).
Proof.
  intros V. split; [by rewrite ApplyDefaults_validate|]. unfold Smart_Validate in V.
  do 3 (match type of V with (if ?b then _ else _) = None => destruct b eqn:?; [discriminate V|] end). zbool. cbn. unfold default_limit. split_and!; repeat (match goal with |- context [?a =? 0] => destruct (Z.eqb_spec a 0) end); lia.
Qed.

Lemma modelSmartRouting_ready IsPrint cfg code m c : modelSmartRouting IsPrint cfg code m = inl (Some c) ->
  mc_ModelType m = "smart" /\ mc_Endpoints m = [] /\ smart_ready code c /\ forall dep, dep ∈ smart_deps c -> is_smart_name cfg dep = false.
Proof.
  unfold modelSmartRouting. destruct (_ || _); [by destruct (mc_SmartRouting m)|]. destruct (negb (seqb _ _)) eqn:T; [done|]. apply negb_false_iff in T.
  destruct (_ <? _)%nat eqn:Ne; [done|]. destruct (negb _); [done|]. destruct (Smart_Validate _ _) eqn:V; [done|]. destruct (mc_SmartRouting m) as [d|]; [|done].
  destruct (List.find _ _) eqn:F; [done|]. intros [= <-]. split_and!; [|by destruct (mc_Endpoints m)|by apply ApplyDefaults_ready|].
  - unfold seqb in T. by apply bool_decide_eq_true in T.
  - intros dep I. apply list_elem_of_In in I. by apply (find_none _ _ F).
Qed.

Lemma first_error_none IsPrint cfg ms : first_error IsPrint cfg ms = None -> forall code m, (code, m) ∈ ms -> model_error IsPrint cfg code m = None.
Proof.
  induction ms as [|[c x] ms IH]; cbn [first_error]; [set_solver|]. destruct (model_error IsPrint cfg c x) eqn:E; [done|]. intros H code m I.
  apply elem_of_cons in I as [[= -> ->]|I]; eauto.
Qed.

Lemma endpoint_errors_none cfg code eps : forall i, endpoint_errors cfg code i eps = None -> forall ep, ep ∈ eps -> ec_URL ep <> "" /\ is_Some (gc_Providers cfg !! ec_Provider ep).
Proof.
  induction eps as [|x eps IH]; intros i; cbn [endpoint_errors]; [set_solver|]. destruct (endpoint_error cfg code i x) eqn:E; [done|]. intros H ep I.
  apply elem_of_cons in I as [->|I]; [|by apply (IH (S i))]. unfold endpoint_error in E. destruct (is_empty (ec_Provider x)); [done|].
  destruct (is_empty (ec_URL x)) eqn:U; [done|]. destruct (gc_Providers cfg !! ec_Provider x); [|done]. split; [|done]. intros Q. by rewrite Q in U.
Qed.

(** a configuration that passes validation resolves to endpoints that can be called: every model is listed, each
    endpoint has an address, a known provider, at least one request type, positive weight
    and retries, and the settings of the endpoint where it has them, else those of its provider or its model; a timeout of
    at least a millisecond stays positive. Smart models have no endpoints and depend on ordinary models only. *)
Theorem validated_config_resolves (IsPrint : list ascii -> bool) (cfg : GatewayConfig) (code : string) (m : ModelConfig)
  (Hvalid : Config_Validate IsPrint cfg = None) (Hm : gc_Models cfg !! code = Some m) :
  exists eps, Resolve IsPrint (Some cfg) !! code = Some eps /\
    (forall e, e ∈ eps -> exists ep p, ep ∈ mc_Endpoints m /\ gc_Providers cfg !! ec_Provider ep = Some p /\ re_URL e = ec_URL ep /\ re_URL e <> "" /\ re_RequestTypes e <> [] /\
       0 < re_Weight e /\ 0 < re_MaxRetries e /\ (Millisecond <= ec_Timeout ep \/ ec_Timeout ep <= 0 /\ (Millisecond <= pc_Timeout p \/ pc_Timeout p <= 0) -> 0 < re_Timeout e) /\
       re_ProviderProtocol e = (if is_empty (ec_Protocol ep) then pc_Protocol p else ec_Protocol ep) /\ re_APIKey e = (if is_empty (ec_APIKey ep) then pc_APIKey p else ec_APIKey ep)) /\
    (mc_ModelType m = "smart" -> eps = [] /\ exists c, modelSmartRouting IsPrint cfg code m = inl (Some c) /\ smart_ready code c /\ forall dep, dep ∈ smart_deps c -> is_smart_name cfg dep = false).
Proof.
  assert (model_error IsPrint cfg code m = None) as E by (apply (first_error_none _ _ _ Hvalid); by apply elem_of_map_to_list). unfold model_error in E.
  destruct (modelSmartRouting IsPrint cfg code m) as [sm|] eqn:S; [|done]. destruct (mc_RequestTypes m) as [|rt rts] eqn:Rt; [done|].
  exists (map (resolve_endpoint cfg m) (mc_Endpoints m)). split_and!.
  - cbn [Resolve]. rewrite map_lookup_imap, Hm. cbn. unfold resolve_model. by rewrite S.
  - intros e I. apply list_elem_of_fmap in I as (ep & -> & I). destruct (endpoint_errors_none _ _ _ _ E ep I) as [U [p P]]. exists ep, p. unfold resolve_endpoint. rewrite P. cbn.
    split_and!; try done; [by rewrite Rt|by destruct (Z.ltb_spec 0 (ec_Weight ep)); [|unfold defaultWeight]|by destruct (Z.ltb_spec 0 (pc_MaxRetries p)); [|unfold defaultMaxRetries]|].
    unfold Millisecond, Milliseconds. intros H. assert (forall d, 1000000 <= d -> 0 < Z.quot d 1000000) as Q by (intros d Hd; apply Z.quot_str_pos; lia).
    destruct (Z.ltb_spec 0 (ec_Timeout ep)); [apply Q; lia|]. destruct (Z.ltb_spec 0 (pc_Timeout p)); [apply Q; lia|]. apply Q. by vm_compute.
  - intros T. assert (exists c, sm = Some c) as [c ->].
    { clear -S T. unfold modelSmartRouting in S. rewrite T in S. change (is_empty "smart" || seqb "smart" "normal") with false in S. change (negb (seqb "smart" "smart")) with false in S.
      cbn iota in S. destruct (_ <? _)%nat; [done|]. destruct (negb _); [done|]. destruct (Smart_Validate _ _) eqn:V; [done|]. destruct (mc_SmartRouting m); [|done].
      destruct (List.find _ _); [done|]. injection S as <-. by eexists. }
    pose proof (modelSmartRouting_ready _ _ _ _ _ S) as (_ & Ne & R & D). split; [by rewrite Ne|]. by exists c.
Qed.

(** Two ordinary models and a smart one. *)
Definition demo_endpoint_config (url : string) : EndpointConfig := mkEndpointConfig "" "" "p" url "" "" "" "" 0 0 0 None None 0 0.
Definition demo_config : GatewayConfig := mkGatewayConfig
  {["small" := mkModelConfig "" None ["chat_completion"] 0 0 [demo_endpoint_config "http://a"];
    "large" := mkModelConfig "normal" None ["chat_completion"] 0 0 [demo_endpoint_config "http://b"];
    "smart" := mkModelConfig "smart" (Some (mkSmartConfig 1 "judge" 0 0 0 [mkRange 0 50 "small"; mkRange 50 100 "large"])) ["chat_completion"] 0 0 []]}
  {["p" := mkProviderConfig "openai" "key" 0 0]} ∅ None.

Lemma validated_config_resolves_witness : exists eps, Resolve (fun _ => true) (Some demo_config) !! "smart" = Some eps /\ eps = [] /\
  exists c, modelSmartRouting (fun _ => true) demo_config "smart" (mkModelConfig "smart" (Some (mkSmartConfig 1 "judge" 0 0 0 [mkRange 0 50 "small"; mkRange 50 100 "large"])) ["chat_completion"] 0 0 [])
    = inl (Some c) /\ smart_ready "smart" c.
Proof.
  destruct (validated_config_resolves (fun _ => true) demo_config "smart" (mkModelConfig "smart" (Some (mkSmartConfig 1 "judge" 0 0 0 [mkRange 0 50 "small"; mkRange 50 100 "large"]))
    ["chat_completion"] 0 0 []) ltac:(vm_compute; reflexivity) ltac:(vm_compute; reflexivity)) as (eps & R & _ & S).
  destruct (S eq_refl) as (E & c & M & Rd & _). exists eps. split; [exact R|]. split; [exact E|]. exists c. split; [exact M|exact Rd].
Defined.
