(* ===== verification/PolicyDecode.v ===== *)
(** The JSON decoders of the policies (UnmarshalJSON in pkg/policy and pkg/matcher): each field
    under its own name and, where the administration writes another one, under its alias. A
    document that does not fit gives [None]; what such a document leaves in the value is not
    modelled, and neither are null entries in the lists of windows, conditions, rules and
    destinations, whose records have no nil pointers. *)

From Stdlib Require Import Ascii.
From S2P Require Import Prelude GoFloat GoStrings GoJson GoPrint Matcher Policy Translate SmartRequest Types Context Cache Config PolicyService.

(** * Records with updates *)

#[global] Instance eta_epp : Eta ErrorParserPolicy := fun p => mkErrorParserPolicy (epp_Parser p) (epp_Expression p) (epp_Statuses p) (epp_ContentTypes p).
#[global] Instance eta_rp : Eta RetryPolicy := fun p =>
  mkRetryPolicy (rp_Retry p) (rp_BackoffType p) (rp_BaseMs p) (rp_ErrorCodes p) (rp_ErrorMessages p) (rp_CodePolicy p) (rp_MessagePolicy p) (rp_ConnectTimeout p)
    (rp_TtftTimeout p) (rp_TotalTimeout p) (rp_IdleTimeout p) (rp_ExcludeFailedEndpoint p) (rp_Version p).
#[global] Instance eta_fp : Eta FallbackPolicy := fun p => mkFallbackPolicy (fp_Targets p).
#[global] Instance eta_ec : Eta EstimatorConfig := fun p => mkEstimatorConfig (ec_Type p) (ec_Ratio p).
#[global] Instance eta_sw : Eta SlidingWindow := fun p => mkSlidingWindow (sw_Threshold p) (sw_TimeWindowInMs p) (sw_BurstRatio p).
#[global] Instance eta_tc : Eta TagCondition := fun p => mkTagCondition (tc_Type p) (tc_OpType p) (tc_Key p) (tc_Values p).
#[global] Instance eta_lp : Eta LimitPolicy := fun p =>
  mkLimitPolicy (lp_ID p) (lp_Name p) (lp_Version p) (lp_Type p) (lp_SlidingWindows p) (lp_MaxWaitMs p) (lp_RelationType p) (lp_Conditions p) (lp_Estimator p) (lp_LimitBy p).
#[global] Instance eta_dest : Eta Destination := fun p => mkDestination (d_Weight p) (d_RelationType p) (d_Conditions p).
#[global] Instance eta_tagrule : Eta TagRule := fun p => mkTagRule (tr_Order p) (tr_RelationType p) (tr_Conditions p) (tr_Destinations p).
#[global] Instance eta_rt : Eta RoutePolicy := fun p => mkRoutePolicy (rt_ID p) (rt_Name p) (rt_Version p) (rt_Order p) (rt_TagRules p).
#[global] Instance eta_dc : Eta DegradeConfig := fun p => mkDegradeConfig (dc_ResponseCode p) (dc_Attributes p) (dc_ResponseBody p).
#[global] Instance eta_ta : Eta TaggingAction := fun p => mkTaggingAction (ta_Type p) (ta_Key p) (ta_Value p).
#[global] Instance eta_tp : Eta TaggingPolicy := fun p => mkTaggingPolicy (tp_ID p) (tp_Name p) (tp_Version p) (tp_Order p) (tp_Relation p) (tp_Conditions p) (tp_Actions p).
#[global] Instance eta_billing : Eta BillingPolicy := fun p => mkBillingPolicy (b_InputPrice p) (b_OutputPrice p) (b_CachedPrice p) (b_CacheCreationPrice p).
#[global] Instance eta_lbp : Eta LoadBalancePolicy := fun p => mkLoadBalancePolicy (lbp_ID p) (lbp_Name p) (lbp_Type p) (lbp_Version p) (lbp_Params p).

(** * Parts *)

Section decoders.
(** [dec_float], [zero]: the decoder of a number into a float64, and the value 0. [FormatFloat]:
    a number literal read and printed with 'f' and -1 ([None]: out of range). [raw_text]: the
    text of a value as the document has it. *)
Context (dec_float : decoder float64) (zero : float64) (FormatFloat : string -> option string) (raw_text : json -> string).

(** A list of pointers none of which is nil. *)
Definition dec_items {T} (zero : T) (d : decoder T) : decoder (list T) := fun j _ =>
  match j with
  | JNull => Some []
  | JArr l => mapM (fun x => match x with JNull => None | _ => d x zero end) l
  | _ => None
  end.

(** [if aux.X != ""], [if aux.X > 0], [if aux.X != nil] and [if len(aux.X) > 0]. *)
Definition or_text (camel snake : string) : string := if is_empty camel then snake else camel.
Definition or_positive (camel snake : Z) : Z := if 0 <? camel then camel else snake.
Definition or_given {T} (camel snake : option T) : option T := match camel with Some _ => camel | None => snake end.
Definition or_list {T} (camel snake : list T) : list T := match camel with [] => snake | _ => camel end.

(** [CaseInsensitiveSet.UnmarshalJSON]: a list or a single text. *)
Definition lower_set (l : list string) : CaseInsensitiveSet := mkCaseInsensitiveSet (Some (list_to_set (map ToLower (List.filter (fun s => negb (is_empty s)) l)))).
Definition dec_set : decoder CaseInsensitiveSet := fun j _ =>
  match dec_slice "" dec_string j [] with
  | Some l => Some (lower_set l)
  | None => (fun s => lower_set [s]) <$> dec_string j ""
  end.

(** What a method decodes into: the value under its own names, and one that holds the aliases. *)
Record aliased (R : Type) := mkAliased { own : R; alias : R }.
Arguments mkAliased {R} _ _.
Arguments own {R} _.
Arguments alias {R} _.
#[local] Instance eta_aliased {R} : Eta (aliased R) := fun a => mkAliased (own a) (alias a).
Definition on_own {R T} (proj : R -> T) `{!Setter proj} (d : decoder T) : decoder (aliased R) := dec_field own (dec_field proj d).
Definition on_alias {R T} (proj : R -> T) `{!Setter proj} (d : decoder T) : decoder (aliased R) := dec_field alias (dec_field proj d).
Definition dec_strings : decoder (list string) := dec_slice "" dec_string.

Definition zero_parser : ErrorParserPolicy := mkErrorParserPolicy "" "" [] None.
Definition dec_ErrorParserPolicy : decoder ErrorParserPolicy := fun j old =>
  (fun a => (own a) <| epp_ContentTypes := or_given (epp_ContentTypes (alias a)) (epp_ContentTypes (own a)) |>) <$>
  dec_struct [("parser", on_own epp_Parser dec_string); ("expression", on_own epp_Expression dec_string); ("statuses", on_own epp_Statuses dec_strings);
    ("content_types", on_own epp_ContentTypes (dec_ptr (lower_set []) dec_set)); ("contentTypes", on_alias epp_ContentTypes (dec_ptr (lower_set []) dec_set))]
    j (mkAliased old zero_parser).
Definition dec_parser : decoder (option ErrorParserPolicy) := dec_ptr zero_parser dec_ErrorParserPolicy.

(** [TagCondition.UnmarshalJSON]. *)
Definition zero_condition : TagCondition := mkTagCondition "" "" "" [].
Definition dec_TagCondition : decoder TagCondition := fun j old =>
  (fun a => (own a) <| tc_OpType := or_text (tc_OpType (alias a)) (tc_OpType (own a)) |>) <$>
  dec_struct [("type", on_own tc_Type dec_string); ("op_type", on_own tc_OpType dec_string); ("key", on_own tc_Key dec_string); ("values", on_own tc_Values dec_strings);
    ("opType", on_alias tc_OpType dec_string)] j (mkAliased old zero_condition).
Definition dec_conditions : decoder (list TagCondition) := dec_items zero_condition dec_TagCondition.

(** [decodeErrorCodes], and the loop of the retry policy. *)
Definition decode_code (raw : json) : string :=
  match raw with
  | JNull => ""
  | JStr s => s
  | JNum l => default (raw_text raw) (FormatFloat l)
  | _ => raw_text raw
  end.
Definition decodeErrorCodes (raw : list json) : list string := map decode_code raw.

(** [decodeForceOpen]. *)
Definition decodeForceOpen (raw : json) : Z :=
  match dec_int raw 0 with
  | Some i => i
  | None => match dec_bool raw false with Some true => 1 | _ => 0 end
  end.

(** * Retry and invocation (invocation.go) *)

Definition zero_retry : RetryPolicy := mkRetryPolicy 0 "" 0 [] [] None None 0 0 0 0 None 0.

(** Error codes are kept as they are written, under both names. *)
Record with_codes (R : Type) := mkWithCodes { wc : aliased R; codesCamel : list json; codesSnake : list json }.
Arguments mkWithCodes {R} _ _ _.
Arguments wc {R} _.
Arguments codesCamel {R} _.
Arguments codesSnake {R} _.
#[local] Instance eta_with_codes {R} : Eta (with_codes R) := fun a => mkWithCodes (wc a) (codesCamel a) (codesSnake a).
Definition code_fields {R} : list (@field (with_codes R)) :=
  [("errorCodes", dec_field codesCamel (dec_slice JNull dec_any)); ("error_codes", dec_field codesSnake (dec_slice JNull dec_any))].
Definition lift_field {R} (f : @field (aliased R)) : @field (with_codes R) := (fst f, dec_field wc (snd f)).
Definition chosen_codes {R} (a : with_codes R) : list json := or_list (codesCamel a) (codesSnake a).

(** Values below 1000 are seconds. *)
Definition in_ms (t : Z) : Z := if (0 <? t) && (t <? 1000) then t * 1000 else t.

Definition retry_fields : list (@field (aliased RetryPolicy)) :=
  [("retry", on_own rp_Retry dec_int); ("backoff_type", on_own rp_BackoffType dec_string); ("base_ms", on_own rp_BaseMs dec_int);
   ("error_messages", on_own rp_ErrorMessages dec_strings); ("code_policy", on_own rp_CodePolicy dec_parser); ("message_policy", on_own rp_MessagePolicy dec_parser);
   ("connect_timeout", on_own rp_ConnectTimeout dec_int); ("ttft_timeout", on_own rp_TtftTimeout dec_int); ("total_timeout", on_own rp_TotalTimeout dec_int);
   ("idle_timeout", on_own rp_IdleTimeout dec_int); ("exclude_failed_endpoint", on_own rp_ExcludeFailedEndpoint (dec_ptr false dec_bool)); ("version", on_own rp_Version dec_int);
   ("errorMessages", on_alias rp_ErrorMessages dec_strings); ("codePolicy", on_alias rp_CodePolicy dec_parser); ("messagePolicy", on_alias rp_MessagePolicy dec_parser);
   ("connectTimeout", on_alias rp_ConnectTimeout dec_int); ("ttftTimeout", on_alias rp_TtftTimeout dec_int); ("totalTimeout", on_alias rp_TotalTimeout dec_int);
   ("idleTimeout", on_alias rp_IdleTimeout dec_int); ("backoffType", on_alias rp_BackoffType dec_string); ("baseMs", on_alias rp_BaseMs dec_int);
   ("excludeFailedEndpoint", on_alias rp_ExcludeFailedEndpoint (dec_ptr false dec_bool))].

Definition merge_retry (a : with_codes RetryPolicy) : RetryPolicy :=
  let o := own (wc a) in let c := alias (wc a) in
  mkRetryPolicy (rp_Retry o) (or_text (rp_BackoffType c) (rp_BackoffType o)) (or_positive (rp_BaseMs c) (rp_BaseMs o))
    (match chosen_codes a with [] => rp_ErrorCodes o | raw => decodeErrorCodes raw end) (or_list (rp_ErrorMessages c) (rp_ErrorMessages o))
    (or_given (rp_CodePolicy c) (rp_CodePolicy o)) (or_given (rp_MessagePolicy c) (rp_MessagePolicy o))
    (or_positive (rp_ConnectTimeout c) (rp_ConnectTimeout o)) (or_positive (rp_TtftTimeout c) (rp_TtftTimeout o))
    (in_ms (or_positive (rp_TotalTimeout c) (rp_TotalTimeout o))) (in_ms (or_positive (rp_IdleTimeout c) (rp_IdleTimeout o)))
    (or_given (rp_ExcludeFailedEndpoint c) (rp_ExcludeFailedEndpoint o)) (rp_Version o).

Definition retry_aux_fields : list (@field (with_codes RetryPolicy)) := code_fields ++ map lift_field retry_fields.
Definition dec_RetryPolicy : decoder RetryPolicy := fun j old =>
  merge_retry <$> dec_struct retry_aux_fields j (mkWithCodes (mkAliased old zero_retry) [] []).

Definition dec_FallbackPolicy : decoder FallbackPolicy := dec_struct [("targets", dec_field fp_Targets dec_strings)].

Definition zero_invocation : InvocationPolicy := mkInvocationPolicy "" "" "" None None.
Definition dec_InvocationPolicy : decoder InvocationPolicy := fun j old =>
  (fun a => (own a) <| ip_RetryPolicy := or_given (ip_RetryPolicy (alias a)) (ip_RetryPolicy (own a)) |>
                    <| ip_FallbackPolicy := or_given (ip_FallbackPolicy (alias a)) (ip_FallbackPolicy (own a)) |>) <$>
  dec_struct [("id", on_own ip_ID dec_string); ("name", on_own ip_Name dec_string); ("type", on_own ip_Type dec_string);
    ("retry_policy", on_own ip_RetryPolicy (dec_ptr zero_retry dec_RetryPolicy)); ("fallback_policy", on_own ip_FallbackPolicy (dec_ptr (mkFallbackPolicy []) dec_FallbackPolicy));
    ("retryPolicy", on_alias ip_RetryPolicy (dec_ptr zero_retry dec_RetryPolicy)); ("fallbackPolicy", on_alias ip_FallbackPolicy (dec_ptr (mkFallbackPolicy []) dec_FallbackPolicy))]
    j (mkAliased old zero_invocation).

(** * Circuit breaking (circuit_break.go) *)

Definition zero_degrade : DegradeConfig := mkDegradeConfig 0 ∅ "".
Definition dec_attributes : decoder (gmap string string) := fun j old => default ∅ <$> dec_string_map j (Some old).
Definition dec_DegradeConfig : decoder DegradeConfig := fun j old =>
  (fun a => (own a) <| dc_ResponseCode := or_positive (dc_ResponseCode (alias a)) (dc_ResponseCode (own a)) |>
                    <| dc_ResponseBody := or_text (dc_ResponseBody (alias a)) (dc_ResponseBody (own a)) |>) <$>
  dec_struct [("response_code", on_own dc_ResponseCode dec_int); ("attributes", on_own dc_Attributes dec_attributes); ("response_body", on_own dc_ResponseBody dec_string);
    ("responseCode", on_alias dc_ResponseCode dec_int); ("responseBody", on_alias dc_ResponseBody dec_string)] j (mkAliased old zero_degrade).
Definition dec_degrade : decoder (option DegradeConfig) := dec_ptr zero_degrade dec_DegradeConfig.

Definition zero_break : CircuitBreakPolicy := mkCircuitBreakPolicy "" "" "" "" 0 0 None [] [] None zero zero 0 0 0 0 0 None 0 "".

(** The aliases whose absence differs from their zero. *)
Record break_aux := mkBreakAux { ba : with_codes CircuitBreakPolicy; failureRate : option float64; slowCallRate : option float64; forceOpen : option json }.
#[local] Instance eta_break_aux : Eta break_aux := fun a => mkBreakAux (ba a) (failureRate a) (slowCallRate a) (forceOpen a).

Definition break_fields : list (@field (aliased CircuitBreakPolicy)) :=
  [("id", on_alias cb_ID dec_string); ("name", on_own cb_Name dec_string); ("level", on_own cb_Level dec_string); ("sliding_window_type", on_own cb_SlidingWindowType dec_string);
   ("sliding_window_size", on_own cb_SlidingWindowSize dec_int); ("min_calls_threshold", on_own cb_MinCallsThreshold dec_int); ("code_policy", on_own cb_CodePolicy dec_parser);
   ("error_messages", on_own cb_ErrorMessages dec_strings); ("message_policy", on_own cb_MessagePolicy dec_parser);
   ("failure_rate_threshold", on_own cb_FailureRateThreshold dec_float); ("slow_call_rate_threshold", on_own cb_SlowCallRateThreshold dec_float);
   ("slow_call_duration_threshold", on_own cb_SlowCallDurationThreshold dec_int); ("wait_duration_in_open_state", on_own cb_WaitDurationInOpenState dec_int);
   ("allowed_calls_in_half_open_state", on_own cb_AllowedCallsInHalfOpenState dec_int); ("force_open", on_own cb_ForceOpen dec_int);
   ("outlier_max_percent", on_own cb_OutlierMaxPercent dec_int); ("degrade_config", on_own cb_DegradeConfig dec_degrade); ("version", on_own cb_Version dec_int);
   ("slow_call_metric", on_own cb_SlowCallMetric dec_string);
   ("slidingWindowType", on_alias cb_SlidingWindowType dec_string); ("slidingWindowSize", on_alias cb_SlidingWindowSize dec_int);
   ("minCallsThreshold", on_alias cb_MinCallsThreshold dec_int); ("codePolicy", on_alias cb_CodePolicy dec_parser); ("errorMessages", on_alias cb_ErrorMessages dec_strings);
   ("messagePolicy", on_alias cb_MessagePolicy dec_parser); ("slowCallDurationThreshold", on_alias cb_SlowCallDurationThreshold dec_int);
   ("waitDurationInOpenState", on_alias cb_WaitDurationInOpenState dec_int); ("allowedCallsInHalfOpenState", on_alias cb_AllowedCallsInHalfOpenState dec_int);
   ("outlierMaxPercent", on_alias cb_OutlierMaxPercent dec_int); ("degradeConfig", on_alias cb_DegradeConfig dec_degrade); ("slowCallMetric", on_alias cb_SlowCallMetric dec_string)].

Definition break_aux_fields : list (@field break_aux) :=
  [("failureRateThreshold", dec_field failureRate (dec_ptr zero dec_float)); ("slowCallRateThreshold", dec_field slowCallRate (dec_ptr zero dec_float));
   ("forceOpen", dec_field forceOpen (fun j _ => Some (Some j)))] ++ map (fun f => (fst f, dec_field ba (snd f))) (code_fields ++ map lift_field break_fields).

Definition merge_break (a : break_aux) : CircuitBreakPolicy :=
  let o := own (wc (ba a)) in let c := alias (wc (ba a)) in
  mkCircuitBreakPolicy (or_text (cb_ID c) (cb_ID o)) (cb_Name o) (cb_Level o) (or_text (cb_SlidingWindowType c) (cb_SlidingWindowType o))
    (or_positive (cb_SlidingWindowSize c) (cb_SlidingWindowSize o)) (or_positive (cb_MinCallsThreshold c) (cb_MinCallsThreshold o))
    (or_given (cb_CodePolicy c) (cb_CodePolicy o)) (match chosen_codes (ba a) with [] => cb_ErrorCodes o | raw => decodeErrorCodes raw end)
    (or_list (cb_ErrorMessages c) (cb_ErrorMessages o)) (or_given (cb_MessagePolicy c) (cb_MessagePolicy o))
    (default (cb_FailureRateThreshold o) (failureRate a)) (default (cb_SlowCallRateThreshold o) (slowCallRate a))
    (or_positive (cb_SlowCallDurationThreshold c) (cb_SlowCallDurationThreshold o)) (or_positive (cb_WaitDurationInOpenState c) (cb_WaitDurationInOpenState o))
    (or_positive (cb_AllowedCallsInHalfOpenState c) (cb_AllowedCallsInHalfOpenState o)) (match forceOpen a with Some raw => decodeForceOpen raw | None => cb_ForceOpen o end)
    (or_positive (cb_OutlierMaxPercent c) (cb_OutlierMaxPercent o)) (or_given (cb_DegradeConfig c) (cb_DegradeConfig o)) (cb_Version o)
    (or_text (cb_SlowCallMetric c) (cb_SlowCallMetric o)).

Definition dec_CircuitBreakPolicy : decoder CircuitBreakPolicy := fun j old =>
  merge_break <$> dec_struct break_aux_fields j (mkBreakAux (mkWithCodes (mkAliased old zero_break) [] []) None None None).

(** * Load balancing (load_balance.go) *)

(** A parameter decoded into [interface{}]; every number must fit. *)
Fixpoint numbers_fit (j : json) : bool :=
  match j with
  | JNum _ => bool_decide (is_Some (dec_float j zero))
  | JArr l => forallb numbers_fit l
  | JObj ms => forallb (fun m => numbers_fit (snd m)) ms
  | _ => true
  end.
Definition dec_value (j : json) : option gvalue :=
  match j with
  | JNull => Some VNil
  | JBool b => Some (VBool b)
  | JStr s => Some (VString s)
  | JNum _ => VFloat64 <$> dec_float j zero
  | JArr _ | JObj _ => if numbers_fit j then Some VOther else None
  end.
Definition dec_params (j : json) : option (option (gmap string gvalue)) :=
  match j with
  | JNull => Some None
  | JObj ms => Some <$> fold_left (fun acc '(k, v) => acc ≫= fun m => (fun v => <[k := v]> m) <$> dec_value v) ms (Some ∅)
  | _ => None
  end.

(** An object, or the text of one. *)
Definition set_params (raw : json) (old : option (gmap string gvalue)) : option (gmap string gvalue) :=
  match dec_params raw with
  | Some m => m
  | None =>
      match raw with
      | JStr s => if is_empty s then old else match json_parse s ≫= dec_params with Some m => m | None => old end
      | _ => old
      end
  end.

Definition zero_balance : LoadBalancePolicy := mkLoadBalancePolicy "" "" "" 0 None.
Definition dec_LoadBalancePolicy : decoder LoadBalancePolicy := fun j old =>
  (fun '(p, raw) => match raw with Some raw => p <| lbp_Params := set_params raw (lbp_Params p) |> | None => p end) <$>
  dec_struct [("params", fun j '(p, _) => Some (p, Some j)); ("id", fun j '(p, raw) => (fun p => (p, raw)) <$> dec_field lbp_ID dec_string j p);
    ("name", fun j '(p, raw) => (fun p => (p, raw)) <$> dec_field lbp_Name dec_string j p); ("type", fun j '(p, raw) => (fun p => (p, raw)) <$> dec_field lbp_Type dec_string j p);
    ("version", fun j '(p, raw) => (fun p => (p, raw)) <$> dec_field lbp_Version dec_int j p)] j (old, None).

(** * Limits, routes and tags (limit.go, route.go, tagging.go): one name per field *)

Definition dec_SlidingWindow : decoder SlidingWindow :=
  dec_struct [("threshold", dec_field sw_Threshold dec_int); ("time_window_in_ms", dec_field sw_TimeWindowInMs dec_int); ("burst_ratio", dec_field sw_BurstRatio (dec_ptr zero dec_float))].
Definition dec_EstimatorConfig : decoder EstimatorConfig := dec_struct [("type", dec_field ec_Type dec_string); ("ratio", dec_field ec_Ratio dec_float)].
Definition zero_limit : LimitPolicy := mkLimitPolicy "" "" 0 "" [] 0 "" [] None [].
Definition dec_LimitPolicy : decoder LimitPolicy :=
  dec_struct [("id", dec_field lp_ID dec_string); ("name", dec_field lp_Name dec_string); ("version", dec_field lp_Version dec_int); ("type", dec_field lp_Type dec_string);
    ("sliding_windows", dec_field lp_SlidingWindows (dec_items (mkSlidingWindow 0 0 None) dec_SlidingWindow)); ("max_wait_ms", dec_field lp_MaxWaitMs dec_int);
    ("relation_type", dec_field lp_RelationType dec_string); ("conditions", dec_field lp_Conditions dec_conditions);
    ("estimator", dec_field lp_Estimator (dec_ptr (mkEstimatorConfig "" zero) dec_EstimatorConfig)); ("limit_by", dec_field lp_LimitBy dec_strings)].

Definition dec_Destination : decoder Destination :=
  dec_struct [("weight", dec_field d_Weight dec_int); ("relation_type", dec_field d_RelationType dec_string); ("conditions", dec_field d_Conditions dec_conditions)].
Definition dec_TagRule : decoder TagRule :=
  dec_struct [("order", dec_field tr_Order dec_int); ("relation_type", dec_field tr_RelationType dec_string); ("conditions", dec_field tr_Conditions dec_conditions);
    ("destinations", dec_field tr_Destinations (dec_items (mkDestination 0 "" []) dec_Destination))].
Definition zero_route : RoutePolicy := mkRoutePolicy "" "" 0 0 [].
Definition dec_RoutePolicy : decoder RoutePolicy :=
  dec_struct [("id", dec_field rt_ID dec_string); ("name", dec_field rt_Name dec_string); ("version", dec_field rt_Version dec_int); ("order", dec_field rt_Order dec_int);
    ("details", dec_field rt_TagRules (dec_items (mkTagRule 0 "" [] []) dec_TagRule))].

Definition dec_TaggingAction : decoder TaggingAction := dec_struct [("type", dec_field ta_Type dec_string); ("key", dec_field ta_Key dec_string); ("value", dec_field ta_Value dec_string)].
Definition zero_tagging : TaggingPolicy := mkTaggingPolicy "" "" 0 0 "" [] [].
Definition dec_TaggingPolicy : decoder TaggingPolicy :=
  dec_struct [("id", dec_field tp_ID dec_string); ("name", dec_field tp_Name dec_string); ("version", dec_field tp_Version dec_int); ("order", dec_field tp_Order dec_int);
    ("relation", dec_field tp_Relation dec_string); ("conditions", dec_field tp_Conditions dec_conditions);
    ("actions", dec_field tp_Actions (dec_slice (mkTaggingAction "" "" "") dec_TaggingAction))].

(** * Prices and the policy (policy.go) *)

Definition zero_billing : BillingPolicy := mkBillingPolicy zero zero zero zero.
Record billing_aux := mkBillingAux { ba_own : BillingPolicy; ba_input : option float64; ba_output : option float64; ba_cached : option float64; ba_created : option float64 }.
#[local] Instance eta_billing_aux : Eta billing_aux := fun a => mkBillingAux (ba_own a) (ba_input a) (ba_output a) (ba_cached a) (ba_created a).
Definition merge_billing (a : billing_aux) : BillingPolicy :=
  mkBillingPolicy (default (b_InputPrice (ba_own a)) (ba_input a)) (default (b_OutputPrice (ba_own a)) (ba_output a))
    (default (b_CachedPrice (ba_own a)) (ba_cached a)) (default (b_CacheCreationPrice (ba_own a)) (ba_created a)).
Definition dec_BillingPolicy : decoder BillingPolicy := fun j old =>
  merge_billing <$>
  dec_struct [("input_price", dec_field ba_own (dec_field b_InputPrice dec_float)); ("output_price", dec_field ba_own (dec_field b_OutputPrice dec_float));
    ("cached_price", dec_field ba_own (dec_field b_CachedPrice dec_float)); ("cache_creation_price", dec_field ba_own (dec_field b_CacheCreationPrice dec_float));
    ("inputPrice", dec_field ba_input (dec_ptr zero dec_float)); ("outputPrice", dec_field ba_output (dec_ptr zero dec_float));
    ("cachedPrice", dec_field ba_cached (dec_ptr zero dec_float)); ("cacheCreationPrice", dec_field ba_created (dec_ptr zero dec_float))]
    j (mkBillingAux old None None None None).

Definition pointers {T} (zero : T) (d : decoder T) : decoder (list (option T)) := dec_slice None (dec_ptr zero d).
Definition dec_permissions : decoder (option (list string)) := fun j _ => match j with JNull => Some None | _ => Some <$> dec_strings j [] end.

Record policy_aux := mkPolicyAux { pa : aliased Policy; metricsReporting : option bool }.
#[local] Instance eta_policy_aux : Eta policy_aux := fun a => mkPolicyAux (pa a) (metricsReporting a).

Definition policy_fields : list (@field (aliased Policy)) :=
  [("load_balance_policy", on_own p_LoadBalancePolicy (dec_ptr zero_balance dec_LoadBalancePolicy)); ("invocation_policy", on_own p_InvocationPolicy (dec_ptr zero_invocation dec_InvocationPolicy));
   ("limit_policies", on_own p_LimitPolicies (pointers zero_limit dec_LimitPolicy)); ("route_policies", on_own p_RoutePolicies (pointers zero_route dec_RoutePolicy));
   ("circuit_break_policies", on_own p_CircuitBreakPolicies (pointers zero_break dec_CircuitBreakPolicy)); ("tagging_policies", on_own p_TaggingPolicies (pointers zero_tagging dec_TaggingPolicy));
   ("permissions", on_own p_Permissions dec_permissions); ("billing", on_own p_Billing (dec_ptr zero_billing dec_BillingPolicy));
   ("enable_metrics_reporting", on_own p_EnableMetricsReporting dec_bool);
   ("loadBalancePolicy", on_alias p_LoadBalancePolicy (dec_ptr zero_balance dec_LoadBalancePolicy)); ("invocationPolicy", on_alias p_InvocationPolicy (dec_ptr zero_invocation dec_InvocationPolicy));
   ("limitPolicies", on_alias p_LimitPolicies (pointers zero_limit dec_LimitPolicy)); ("routePolicies", on_alias p_RoutePolicies (pointers zero_route dec_RoutePolicy));
   ("circuitBreakPolicies", on_alias p_CircuitBreakPolicies (pointers zero_break dec_CircuitBreakPolicy));
   ("taggingPolicies", on_alias p_TaggingPolicies (pointers zero_tagging dec_TaggingPolicy))].

Definition merge_policy_aliases (a : policy_aux) : Policy :=
  let o := own (pa a) in let c := alias (pa a) in
  mkPolicy (or_given (p_LoadBalancePolicy c) (p_LoadBalancePolicy o)) (or_given (p_InvocationPolicy c) (p_InvocationPolicy o)) (or_list (p_LimitPolicies c) (p_LimitPolicies o))
    (or_list (p_RoutePolicies c) (p_RoutePolicies o)) (or_list (p_CircuitBreakPolicies c) (p_CircuitBreakPolicies o)) (or_list (p_TaggingPolicies c) (p_TaggingPolicies o))
    (p_Permissions o) (p_Billing o) (default (p_EnableMetricsReporting o) (metricsReporting a)).

Definition policy_aux_fields : list (@field policy_aux) :=
  ("enableMetricsReporting", dec_field metricsReporting (dec_ptr false dec_bool)) :: map (fun f => (fst f, dec_field pa (snd f))) policy_fields.
Definition dec_Policy : decoder Policy := fun j old =>
  merge_policy_aliases <$> dec_struct policy_aux_fields j (mkPolicyAux (mkAliased old emptyPolicy) None).

Definition decode_policy (data : string) : option Policy := Unmarshal dec_Policy emptyPolicy data.
End decoders.

(** * Documents of policies *)

Section documents.
Context (dec_float : decoder float64) (zero : float64) (FormatFloat : string -> option string) (raw_text : json -> string).
(** The text of a float64 in a document; [camel]: the spelling of the administration. *)
Context (float_text : float64 -> string) (camel : bool).

Definition key (snake camelCase : string) : string := if camel then camelCase else snake.
Definition texts_doc (l : list string) : json := JArr (map JStr l).
Definition ptr_doc {T} (doc : T -> json) (x : option T) : json := match x with Some x => doc x | None => JNull end.
Definition list_doc {T} (doc : T -> json) (l : list T) : json := JArr (map doc l).
Definition float_doc (f : float64) : json := JNum (float_text f).
Definition map_doc {T} (doc : T -> json) (m : gmap string T) : json := JObj (map (fun kv => (fst kv, doc (snd kv))) (map_to_list m)).

Definition set_doc (s : CaseInsensitiveSet) : json := texts_doc (elements (default ∅ (cis_data s))).
Definition parser_doc (p : ErrorParserPolicy) : json :=
  JObj [("parser", JStr (epp_Parser p)); ("expression", JStr (epp_Expression p)); ("statuses", texts_doc (epp_Statuses p));
        (key "content_types" "contentTypes", ptr_doc set_doc (epp_ContentTypes p))].
Definition condition_doc (c : TagCondition) : json :=
  JObj [("type", JStr (tc_Type c)); (key "op_type" "opType", JStr (tc_OpType c)); ("key", JStr (tc_Key c)); ("values", texts_doc (tc_Values c))].

Definition retry_doc (p : RetryPolicy) : json :=
  JObj [("retry", num (rp_Retry p)); (key "backoff_type" "backoffType", JStr (rp_BackoffType p)); (key "base_ms" "baseMs", num (rp_BaseMs p));
        (key "error_codes" "errorCodes", texts_doc (rp_ErrorCodes p)); (key "error_messages" "errorMessages", texts_doc (rp_ErrorMessages p));
        (key "code_policy" "codePolicy", ptr_doc parser_doc (rp_CodePolicy p)); (key "message_policy" "messagePolicy", ptr_doc parser_doc (rp_MessagePolicy p));
        (key "connect_timeout" "connectTimeout", num (rp_ConnectTimeout p)); (key "ttft_timeout" "ttftTimeout", num (rp_TtftTimeout p));
        (key "total_timeout" "totalTimeout", num (rp_TotalTimeout p)); (key "idle_timeout" "idleTimeout", num (rp_IdleTimeout p));
        (key "exclude_failed_endpoint" "excludeFailedEndpoint", ptr_doc JBool (rp_ExcludeFailedEndpoint p)); ("version", num (rp_Version p))].
Definition fallback_doc (p : FallbackPolicy) : json := JObj [("targets", texts_doc (fp_Targets p))].
Definition invocation_doc (p : InvocationPolicy) : json :=
  JObj [("id", JStr (ip_ID p)); ("name", JStr (ip_Name p)); ("type", JStr (ip_Type p)); (key "retry_policy" "retryPolicy", ptr_doc retry_doc (ip_RetryPolicy p));
        (key "fallback_policy" "fallbackPolicy", ptr_doc fallback_doc (ip_FallbackPolicy p))].

Definition degrade_doc (d : DegradeConfig) : json :=
  JObj [(key "response_code" "responseCode", num (dc_ResponseCode d)); ("attributes", map_doc JStr (dc_Attributes d)); (key "response_body" "responseBody", JStr (dc_ResponseBody d))].
Definition break_doc (p : CircuitBreakPolicy) : json :=
  JObj [("id", JStr (cb_ID p)); ("name", JStr (cb_Name p)); ("level", JStr (cb_Level p)); (key "sliding_window_type" "slidingWindowType", JStr (cb_SlidingWindowType p));
        (key "sliding_window_size" "slidingWindowSize", num (cb_SlidingWindowSize p)); (key "min_calls_threshold" "minCallsThreshold", num (cb_MinCallsThreshold p));
        (key "code_policy" "codePolicy", ptr_doc parser_doc (cb_CodePolicy p)); (key "error_codes" "errorCodes", texts_doc (cb_ErrorCodes p));
        (key "error_messages" "errorMessages", texts_doc (cb_ErrorMessages p)); (key "message_policy" "messagePolicy", ptr_doc parser_doc (cb_MessagePolicy p));
        (key "failure_rate_threshold" "failureRateThreshold", float_doc (cb_FailureRateThreshold p)); (key "slow_call_rate_threshold" "slowCallRateThreshold", float_doc (cb_SlowCallRateThreshold p));
        (key "slow_call_duration_threshold" "slowCallDurationThreshold", num (cb_SlowCallDurationThreshold p));
        (key "wait_duration_in_open_state" "waitDurationInOpenState", num (cb_WaitDurationInOpenState p));
        (key "allowed_calls_in_half_open_state" "allowedCallsInHalfOpenState", num (cb_AllowedCallsInHalfOpenState p)); (key "force_open" "forceOpen", num (cb_ForceOpen p));
        (key "outlier_max_percent" "outlierMaxPercent", num (cb_OutlierMaxPercent p)); (key "degrade_config" "degradeConfig", ptr_doc degrade_doc (cb_DegradeConfig p));
        ("version", num (cb_Version p)); (key "slow_call_metric" "slowCallMetric", JStr (cb_SlowCallMetric p))].

Definition value_doc (v : gvalue) : json :=
  match v with VBool b => JBool b | VString s => JStr s | VFloat64 f => float_doc f | _ => JNull end.
Definition balance_doc (p : LoadBalancePolicy) : json :=
  JObj [("id", JStr (lbp_ID p)); ("name", JStr (lbp_Name p)); ("type", JStr (lbp_Type p)); ("version", num (lbp_Version p)); ("params", ptr_doc (map_doc value_doc) (lbp_Params p))].

Definition window_doc (w : SlidingWindow) : json :=
  JObj [("threshold", num (sw_Threshold w)); ("time_window_in_ms", num (sw_TimeWindowInMs w)); ("burst_ratio", ptr_doc float_doc (sw_BurstRatio w))].
Definition estimator_doc (e : EstimatorConfig) : json := JObj [("type", JStr (ec_Type e)); ("ratio", float_doc (ec_Ratio e))].
Definition limit_doc (p : LimitPolicy) : json :=
  JObj [("id", JStr (lp_ID p)); ("name", JStr (lp_Name p)); ("version", num (lp_Version p)); ("type", JStr (lp_Type p)); ("sliding_windows", list_doc window_doc (lp_SlidingWindows p));
        ("max_wait_ms", num (lp_MaxWaitMs p)); ("relation_type", JStr (lp_RelationType p)); ("conditions", list_doc condition_doc (lp_Conditions p));
        ("estimator", ptr_doc estimator_doc (lp_Estimator p)); ("limit_by", texts_doc (lp_LimitBy p))].
Definition destination_doc (d : Destination) : json :=
  JObj [("weight", num (d_Weight d)); ("relation_type", JStr (d_RelationType d)); ("conditions", list_doc condition_doc (d_Conditions d))].
Definition rule_doc (r : TagRule) : json :=
  JObj [("order", num (tr_Order r)); ("relation_type", JStr (tr_RelationType r)); ("conditions", list_doc condition_doc (tr_Conditions r)); ("destinations", list_doc destination_doc (tr_Destinations r))].
Definition route_doc (p : RoutePolicy) : json :=
  JObj [("id", JStr (rt_ID p)); ("name", JStr (rt_Name p)); ("version", num (rt_Version p)); ("order", num (rt_Order p)); ("details", list_doc rule_doc (rt_TagRules p))].
Definition action_doc (a : TaggingAction) : json := JObj [("type", JStr (ta_Type a)); ("key", JStr (ta_Key a)); ("value", JStr (ta_Value a))].
Definition tagging_doc (p : TaggingPolicy) : json :=
  JObj [("id", JStr (tp_ID p)); ("name", JStr (tp_Name p)); ("version", num (tp_Version p)); ("order", num (tp_Order p)); ("relation", JStr (tp_Relation p));
        ("conditions", list_doc condition_doc (tp_Conditions p)); ("actions", list_doc action_doc (tp_Actions p))].
Definition billing_doc (b : BillingPolicy) : json :=
  JObj [(key "input_price" "inputPrice", float_doc (b_InputPrice b)); (key "output_price" "outputPrice", float_doc (b_OutputPrice b));
        (key "cached_price" "cachedPrice", float_doc (b_CachedPrice b)); (key "cache_creation_price" "cacheCreationPrice", float_doc (b_CacheCreationPrice b))].
Definition policy_doc (p : Policy) : json :=
  JObj [(key "load_balance_policy" "loadBalancePolicy", ptr_doc balance_doc (p_LoadBalancePolicy p)); (key "invocation_policy" "invocationPolicy", ptr_doc invocation_doc (p_InvocationPolicy p));
        (key "limit_policies" "limitPolicies", list_doc (ptr_doc limit_doc) (p_LimitPolicies p)); (key "route_policies" "routePolicies", list_doc (ptr_doc route_doc) (p_RoutePolicies p));
        (key "circuit_break_policies" "circuitBreakPolicies", list_doc (ptr_doc break_doc) (p_CircuitBreakPolicies p));
        (key "tagging_policies" "taggingPolicies", list_doc (ptr_doc tagging_doc) (p_TaggingPolicies p)); ("permissions", ptr_doc texts_doc (p_Permissions p));
        ("billing", ptr_doc billing_doc (p_Billing p)); (key "enable_metrics_reporting" "enableMetricsReporting", JBool (p_EnableMetricsReporting p))].
End documents.

(** * Reading the documents back *)

Section roundtrip.
Context (dec_float : decoder float64) (zero : float64) (FormatFloat : string -> option string) (raw_text : json -> string) (float_text : float64 -> string) (camel : bool).

(** What a document can carry: int64 values, not negative where an alias exists; floats with a
    text; sets as they are stored. *)
Definition float_ok (f : float64) : Prop := forall old, dec_float (float_doc float_text f) old = Some f.
Definition count_ok (z : Z) : Prop := 0 <= z <= max_int64.
Definition timeout_ok (z : Z) : Prop := count_ok z /\ (z = 0 \/ 1000 <= z).
Definition set_ok (s : CaseInsensitiveSet) : Prop := lower_set (elements (default ∅ (cis_data s))) = s.
Definition parser_ok (p : ErrorParserPolicy) : Prop := from_option set_ok True (epp_ContentTypes p).

Lemma dec_int_num z old : in_int64 z -> dec_int (num z) old = Some z.
Proof. apply ParseInt_Itoa. Qed.
Lemma count_int64 z : count_ok z -> in_int64 z.
Proof. unfold count_ok, in_int64, min_int64, max_int64, two63. lia. Qed.
Lemma dec_texts l old : dec_strings (texts_doc l) old = Some l.
Proof. unfold dec_strings, texts_doc, dec_slice. rewrite mapM_fmap_Some; [done|]. by induction l. Qed.

Lemma mapM_docs {T} (d : json -> option T) (doc : T -> json) l : Forall (fun x => d (doc x) = Some x) l -> mapM d (map doc l) = Some l.
Proof. induction 1 as [|x l H _ IH]; [done|]. cbn. rewrite H. cbn. by rewrite IH. Qed.

Lemma dec_ptr_doc {T} (z : T) (d : decoder T) (doc : T -> json) x :
  (forall y, x = Some y -> doc y <> JNull /\ d (doc y) z = Some y) -> dec_ptr z d (ptr_doc doc x) None = Some x.
Proof. intros H. destruct x as [y|]; [|done]. destruct (H y eq_refl) as [N E]. unfold dec_ptr, ptr_doc. cbn [default]. rewrite E. by destruct (doc y). Qed.

Lemma dec_items_doc {T} (z : T) (d : decoder T) (doc : T -> json) l old : Forall (fun x => doc x <> JNull /\ d (doc x) z = Some x) l -> dec_items z d (list_doc doc l) old = Some l.
Proof. intros H. apply mapM_docs. eapply Forall_impl; [exact H|]. intros x [N E]. cbn. by destruct (doc x). Qed.

Lemma pointers_doc {T} (z : T) (d : decoder T) (doc : T -> json) l old :
  Forall (fun x => forall y, x = Some y -> doc y <> JNull /\ d (doc y) z = Some y) l -> pointers z d (list_doc (ptr_doc doc) l) old = Some l.
Proof. intros H. apply mapM_docs. eapply Forall_impl; [exact H|]. intros x Hx. by apply dec_ptr_doc. Qed.

(** The members of a document, read one after the other. *)
Definition reads {T} (fs : list (@field T)) (ms : list (string * json)) (old new : T) : Prop := fold_left (dec_member fs) ms (Some old) = Some new.
Lemma reads_nil {T} (fs : list (@field T)) old : reads fs [] old old.
Proof. done. Qed.
Lemma reads_cons {T} (fs : list (@field T)) k j ms old d mid new : find_field fs k = Some d -> d j old = Some mid -> reads fs ms mid new -> reads fs ((k, j) :: ms) old new.
Proof. intros F D R. unfold reads. cbn [fold_left]. unfold dec_member at 2. cbn [fst snd]. rewrite F, D. exact R. Qed.
Lemma struct_reads {R T} (merge : T -> R) (fs : list (@field T)) ms old new v : reads fs ms old new -> merge new = v -> merge <$> dec_struct fs (JObj ms) old = Some v.
Proof. intros H <-. unfold dec_struct. unfold reads in H. by rewrite H. Qed.

Lemma plain_reads {T} (fs : list (@field T)) ms old v : reads fs ms old v -> dec_struct fs (JObj ms) old = Some v.
Proof. done. Qed.

Lemma dec_field_doc {R T} (proj : R -> T) `{!Setter proj} (d : decoder T) j r v : d j (proj r) = Some v -> dec_field proj d j r = Some (update proj (fun _ => v) r).
Proof. intros E. unfold dec_field. by rewrite E. Qed.
End roundtrip.

Create HintDb policy_doc.
#[local] Hint Resolve dec_int_num count_int64 dec_texts dec_ptr_doc : policy_doc.

#[local] Arguments decodeErrorCodes : simpl never.
#[local] Arguments decodeForceOpen : simpl never.
#[local] Arguments num : simpl never.
Ltac read_leaf := repeat eapply dec_field_doc; solve [reflexivity | eauto with policy_doc].
Ltac read_member := eapply reads_cons; [reflexivity|read_leaf|];
  match goal with |- reads ?fs ?ms ?mid ?new => let m := eval cbn in mid in change (reads fs ms m new) end.
Ltac read_struct := eapply struct_reads; [repeat read_member; apply reads_nil|].
Ltac plain_struct := eapply plain_reads; repeat read_member; apply reads_nil.

Section parts.
Context (dec_float : decoder float64) (zero : float64) (FormatFloat : string -> option string) (raw_text : json -> string) (float_text : float64 -> string).

Lemma set_doc_ok s : set_ok s -> set_doc s <> JNull /\ forall old, dec_set (set_doc s) old = Some s.
Proof. intros H. split; [done|]. intros old. unfold dec_set, set_doc. change (dec_slice "" dec_string) with dec_strings. rewrite dec_texts. by rewrite H. Qed.

Lemma parser_doc_ok camel p : parser_ok p -> parser_doc camel p <> JNull /\ dec_ErrorParserPolicy (parser_doc camel p) zero_parser = Some p.
Proof.
  intros H. split; [done|]. unfold dec_ErrorParserPolicy, parser_doc.
  assert (dec_ptr (lower_set []) dec_set (ptr_doc set_doc (epp_ContentTypes p)) None = Some (epp_ContentTypes p)) as Ec.
  { apply dec_ptr_doc. intros y E. unfold parser_ok in H. rewrite E in H. by destruct (set_doc_ok y H). }
  destruct p as [a b c d]. cbn [epp_Parser epp_Expression epp_Statuses epp_ContentTypes] in *. destruct camel; read_struct; by destruct d.
Qed.

Lemma parser_ptr_ok camel o : from_option parser_ok True o -> dec_parser (ptr_doc (parser_doc camel) o) None = Some o.
Proof. intros H. apply dec_ptr_doc. intros y ->. by apply parser_doc_ok. Qed.

Lemma condition_doc_ok camel c : condition_doc camel c <> JNull /\ dec_TagCondition (condition_doc camel c) zero_condition = Some c.
Proof.
  split; [done|]. unfold dec_TagCondition, condition_doc. destruct c as [a b c d]. cbn [tc_Type tc_OpType tc_Key tc_Values]. destruct camel; read_struct; [|done].
  unfold or_text. cbn. by destruct (is_empty b) eqn:E; [apply seqb_eq in E as ->|].
Qed.
Lemma conditions_ok camel l old : dec_conditions (list_doc (condition_doc camel) l) old = Some l.
Proof. apply dec_items_doc. apply Forall_true. apply condition_doc_ok. Qed.

Lemma or_text_nil s : or_text s "" = s.
Proof. unfold or_text. destruct (is_empty s) eqn:E; [by apply seqb_eq in E as ->|done]. Qed.
Lemma or_positive_zero z : 0 <= z -> or_positive z 0 = z.
Proof. intros H. unfold or_positive. destruct (0 <? z) eqn:E; [done|]. apply Z.ltb_ge in E. lia. Qed.
Lemma or_list_nil {T} (l : list T) : or_list l [] = l.
Proof. by destruct l. Qed.
Lemma or_given_none {T} (o : option T) : or_given o None = o.
Proof. by destruct o. Qed.
Lemma in_ms_ok z : timeout_ok z -> in_ms z = z.
Proof. intros [_ H]. unfold in_ms. destruct (0 <? z) eqn:A, (z <? 1000) eqn:B; cbn; try done. apply Z.ltb_lt in A, B. lia. Qed.
Lemma codes_doc l old : dec_slice JNull dec_any (texts_doc l) old = Some (map JStr l).
Proof. unfold dec_slice, texts_doc. by induction l as [|x l IH]; [|cbn; rewrite IH]. Qed.
Lemma codes_back l : match map JStr l with [] => [] | raw => decodeErrorCodes FormatFloat raw_text raw end = l.
Proof.
  assert (forall l, decodeErrorCodes FormatFloat raw_text (map JStr l) = l) as E by (intros k; induction k as [|y k IH]; [done|exact (f_equal (cons y) IH)]).
  destruct l as [|x l]; [done|]. exact (E (x :: l)).
Qed.

(** A value read under one spelling, the other being absent. *)
Ltac merged := cbn; rewrite ?or_text_nil, ?or_list_nil, ?or_given_none, ?or_positive_zero by (assumption || lia).

Record retry_ok (p : RetryPolicy) : Prop := {
  ro_retry : in_int64 (rp_Retry p); ro_base : count_ok (rp_BaseMs p); ro_connect : count_ok (rp_ConnectTimeout p); ro_ttft : count_ok (rp_TtftTimeout p);
  ro_total : timeout_ok (rp_TotalTimeout p); ro_idle : timeout_ok (rp_IdleTimeout p); ro_version : in_int64 (rp_Version p);
  ro_code : from_option parser_ok True (rp_CodePolicy p); ro_message : from_option parser_ok True (rp_MessagePolicy p)
}.
#[local] Hint Resolve parser_ptr_ok conditions_ok codes_doc : policy_doc.

Lemma bool_ptr o : dec_ptr false dec_bool (ptr_doc JBool o) None = Some o.
Proof. by destruct o. Qed.
#[local] Hint Resolve bool_ptr : policy_doc.

Lemma retry_doc_ok camel p : retry_ok p -> retry_doc camel p <> JNull /\ dec_RetryPolicy FormatFloat raw_text (retry_doc camel p) zero_retry = Some p.
Proof.
  intros [H1 H2 H3 H4 [H5 H5'] [H6 H6'] H7 H8 H9]. split; [done|]. unfold dec_RetryPolicy, retry_doc. destruct p as [a1 a2 a3 a4 a5 a6 a7 a8 a9 a10 a11 a12 a13].
  cbn [rp_Retry rp_BackoffType rp_BaseMs rp_ErrorCodes rp_ErrorMessages rp_CodePolicy rp_MessagePolicy rp_ConnectTimeout rp_TtftTimeout rp_TotalTimeout rp_IdleTimeout rp_ExcludeFailedEndpoint rp_Version] in *.
  pose proof (in_ms_ok _ (conj H5 H5')) as M5. pose proof (in_ms_ok _ (conj H6 H6')) as M6.
  pose proof H2 as [P2 _]. pose proof H3 as [P3 _]. pose proof H4 as [P4 _]. pose proof H5 as [P5 _]. pose proof H6 as [P6 _].
  destruct camel; read_struct; unfold merge_retry, chosen_codes; merged; rewrite ?M5, ?M6; f_equal; apply codes_back.
Qed.

Lemma fallback_doc_ok p : fallback_doc p <> JNull /\ dec_FallbackPolicy (fallback_doc p) (mkFallbackPolicy []) = Some p.
Proof. split; [done|]. destruct p as [l]. unfold dec_FallbackPolicy, fallback_doc. plain_struct. Qed.

Definition invocation_ok (p : InvocationPolicy) : Prop := from_option retry_ok True (ip_RetryPolicy p).
Lemma invocation_doc_ok camel p : invocation_ok p -> invocation_doc camel p <> JNull /\ dec_InvocationPolicy FormatFloat raw_text (invocation_doc camel p) zero_invocation = Some p.
Proof.
  intros H. split; [done|]. unfold dec_InvocationPolicy, invocation_doc. destruct p as [a b c r f]. unfold invocation_ok in H. cbn [ip_ID ip_Name ip_Type ip_RetryPolicy ip_FallbackPolicy] in *.
  assert (dec_ptr zero_retry (dec_RetryPolicy FormatFloat raw_text) (ptr_doc (retry_doc camel) r) None = Some r) as Er by (apply dec_ptr_doc; intros y ->; by apply retry_doc_ok).
  assert (dec_ptr (mkFallbackPolicy []) dec_FallbackPolicy (ptr_doc fallback_doc f) None = Some f) as Ef by (apply dec_ptr_doc; intros y ->; apply fallback_doc_ok).
  destruct camel; read_struct; by merged.
Qed.

Lemma insert_all {V} (l : list (string * V)) : NoDup l.*1 -> forall acc : gmap string V, fold_left (fun m kv => <[fst kv := snd kv]> m) l acc = list_to_map l ∪ acc.
Proof.
  induction l as [|[k v] l IH]; intros N acc; [cbn; by rewrite (left_id_L ∅ (∪))|]. apply NoDup_cons in N as [Nk N]. cbn [fold_left fst snd list_to_map]. cbn. rewrite (IH N).
  rewrite <- insert_union_l. by rewrite insert_union_r by by apply not_elem_of_list_to_map_1.
Qed.

(** Maps are read member by member. *)
Lemma read_map {V} (d : json -> option V) (doc : V -> json) (m : gmap string V) : map_Forall (fun _ v => d (doc v) = Some v) m ->
  fold_left (fun acc '(k, v) => acc ≫= fun m => (fun v => <[k := v]> m) <$> d v) (map (fun kv => (fst kv, doc (snd kv))) (map_to_list m)) (Some ∅) = Some m.
Proof.
  intros H. assert (forall l (acc : gmap string V), Forall (fun kv => d (doc (snd kv)) = Some (snd kv)) l ->
    fold_left (fun acc '(k, v) => acc ≫= fun m => (fun v => <[k := v]> m) <$> d v) (map (fun kv => (fst kv, doc (snd kv))) l) (Some acc) =
    Some (fold_left (fun m kv => <[fst kv := snd kv]> m) l acc)) as F.
  { induction l as [|[k v] l IH]; intros acc Fl; [done|]. apply Forall_cons in Fl as [Hv Fl]. cbn in Hv. cbn [map fold_left fst snd]. cbn [mbind option_bind]. rewrite Hv. by apply IH. }
  rewrite F.
  - f_equal. rewrite insert_all by apply NoDup_fst_map_to_list. by rewrite list_to_map_to_list, (right_id_L ∅ (∪)).
  - apply Forall_forall. intros [k v] Hin%elem_of_map_to_list. exact (H k v Hin).
Qed.

Lemma attributes_ok m : dec_attributes (map_doc JStr m) ∅ = Some m.
Proof.
  pose proof (read_map (fun v => dec_string v "") JStr m) as E. unfold dec_attributes, map_doc, dec_string_map. cbn [default].
  etransitivity; [apply (f_equal (fun x => default ∅ <$> (Some <$> x))), E; by intros k v _|]. done.
Qed.
#[local] Hint Resolve attributes_ok : policy_doc.

Definition degrade_ok (d : DegradeConfig) : Prop := count_ok (dc_ResponseCode d).
Lemma degrade_doc_ok camel d : degrade_ok d -> degrade_doc camel d <> JNull /\ dec_DegradeConfig (degrade_doc camel d) zero_degrade = Some d.
Proof.
  intros H. split; [done|]. unfold dec_DegradeConfig, degrade_doc. destruct d as [a b c]. unfold degrade_ok in H. cbn [dc_ResponseCode dc_Attributes dc_ResponseBody] in *. pose proof H as [P _].
  destruct camel; read_struct; by merged.
Qed.

Record break_ok (p : CircuitBreakPolicy) : Prop := {
  bo_size : count_ok (cb_SlidingWindowSize p); bo_calls : count_ok (cb_MinCallsThreshold p); bo_slow : count_ok (cb_SlowCallDurationThreshold p); bo_wait : count_ok (cb_WaitDurationInOpenState p);
  bo_half : count_ok (cb_AllowedCallsInHalfOpenState p); bo_force : in_int64 (cb_ForceOpen p); bo_outlier : count_ok (cb_OutlierMaxPercent p); bo_version : in_int64 (cb_Version p);
  bo_code : from_option parser_ok True (cb_CodePolicy p); bo_message : from_option parser_ok True (cb_MessagePolicy p); bo_degrade : from_option degrade_ok True (cb_DegradeConfig p);
  bo_failure : float_ok dec_float float_text (cb_FailureRateThreshold p); bo_slowrate : float_ok dec_float float_text (cb_SlowCallRateThreshold p)
}.

Lemma float_ptr_ok f : float_ok dec_float float_text f -> dec_ptr zero dec_float (float_doc float_text f) None = Some (Some f).
Proof. intros H. unfold dec_ptr. cbn [default]. change (float_doc float_text f) with (JNum (float_text f)) at 1. cbn iota. by rewrite H. Qed.
#[local] Hint Resolve float_ptr_ok : policy_doc.

Lemma break_doc_ok camel p : break_ok p -> break_doc float_text camel p <> JNull /\
  dec_CircuitBreakPolicy dec_float zero FormatFloat raw_text (break_doc float_text camel p) (zero_break zero) = Some p.
Proof.
  intros [H1 H2 H3 H4 H5 H6 H7 H8 H9 H10 H11 H12 H13]. split; [done|]. unfold dec_CircuitBreakPolicy, break_doc.
  assert (dec_degrade (ptr_doc (degrade_doc camel) (cb_DegradeConfig p)) None = Some (cb_DegradeConfig p)) as Ed
    by (apply dec_ptr_doc; intros y E; apply degrade_doc_ok; by rewrite E in H11).
  assert (decodeForceOpen (num (cb_ForceOpen p)) = cb_ForceOpen p) as Ff by (unfold decodeForceOpen; by rewrite dec_int_num).
  pose proof H1 as [P1 _]. pose proof H2 as [P2 _]. pose proof H3 as [P3 _]. pose proof H4 as [P4 _]. pose proof H5 as [P5 _]. pose proof H7 as [P7 _].
  destruct p as [a1 a2 a3 a4 a5 a6 a7 a8 a9 a10 a11 a12 a13 a14 a15 a16 a17 a18 a19 a20].
  cbn [cb_ID cb_Name cb_Level cb_SlidingWindowType cb_SlidingWindowSize cb_MinCallsThreshold cb_CodePolicy cb_ErrorCodes cb_ErrorMessages cb_MessagePolicy cb_FailureRateThreshold
    cb_SlowCallRateThreshold cb_SlowCallDurationThreshold cb_WaitDurationInOpenState cb_AllowedCallsInHalfOpenState cb_ForceOpen cb_OutlierMaxPercent cb_DegradeConfig cb_Version cb_SlowCallMetric] in *.
  destruct camel; read_struct; unfold merge_break, chosen_codes; merged; f_equal; (apply codes_back || exact Ff).
Qed.

(** Parameters a document can carry: nothing that was made in the process. *)
Definition value_ok (v : gvalue) : Prop :=
  match v with VNil | VBool _ | VString _ => True | VFloat64 f => float_ok dec_float float_text f | _ => False end.
Lemma value_doc_ok v : value_ok v -> dec_value dec_float zero (value_doc float_text v) = Some v.
Proof. destruct v; try done. intros H. exact (f_equal (fmap VFloat64) (H zero)). Qed.

Definition balance_ok (p : LoadBalancePolicy) : Prop := in_int64 (lbp_Version p) /\ from_option (map_Forall (fun _ v => value_ok v)) True (lbp_Params p).
Lemma params_ok o old : from_option (map_Forall (fun _ v => value_ok v)) True o -> set_params dec_float zero (ptr_doc (map_doc (value_doc float_text)) o) old = o.
Proof.
  intros H. destruct o as [m|]; [|done]. unfold set_params, ptr_doc, map_doc, dec_params. cbn iota. cbn in H.
  rewrite (read_map (dec_value dec_float zero) (value_doc float_text) m); [done|]. intros k v Hv. apply value_doc_ok. exact (H k v Hv).
Qed.

Lemma balance_doc_ok p : balance_ok p -> balance_doc float_text p <> JNull /\ dec_LoadBalancePolicy dec_float zero (balance_doc float_text p) zero_balance = Some p.
Proof.
  intros [H1 H2]. split; [done|]. unfold dec_LoadBalancePolicy, balance_doc. destruct p as [a b c d e]. cbn [lbp_ID lbp_Name lbp_Type lbp_Version lbp_Params] in *.
  assert (forall (raw : option json) r, (fun p => (p, raw)) <$> dec_field lbp_Version dec_int (num d) r = Some (r <| lbp_Version := d |>, raw)) as Ev by (intros; unfold dec_field; by rewrite dec_int_num).
  eapply struct_reads; [repeat (eapply reads_cons; [reflexivity|first [reflexivity|apply Ev]|]; match goal with |- reads ?fs ?ms ?mid ?new => let m := eval cbn in mid in change (reads fs ms m new) end); apply reads_nil|].
  cbn. by rewrite params_ok.
Qed.

Definition window_ok (w : SlidingWindow) : Prop := in_int64 (sw_Threshold w) /\ in_int64 (sw_TimeWindowInMs w) /\ from_option (float_ok dec_float float_text) True (sw_BurstRatio w).
Lemma ratio_ptr_ok o : from_option (float_ok dec_float float_text) True o -> dec_ptr zero dec_float (ptr_doc (float_doc float_text) o) None = Some o.
Proof. destruct o as [f|]; [|done]. apply float_ptr_ok. Qed.
#[local] Hint Resolve ratio_ptr_ok : policy_doc.
Lemma window_doc_ok w : window_ok w -> window_doc float_text w <> JNull /\ dec_SlidingWindow dec_float zero (window_doc float_text w) (mkSlidingWindow 0 0 None) = Some w.
Proof. intros (H1 & H2 & H3). split; [done|]. unfold dec_SlidingWindow, window_doc. destruct w as [a b c]. cbn [sw_Threshold sw_TimeWindowInMs sw_BurstRatio] in *. plain_struct. Qed.

Lemma estimator_doc_ok e : float_ok dec_float float_text (ec_Ratio e) -> estimator_doc float_text e <> JNull /\ dec_EstimatorConfig dec_float (estimator_doc float_text e) (mkEstimatorConfig "" zero) = Some e.
Proof. intros H. split; [done|]. unfold dec_EstimatorConfig, estimator_doc. destruct e as [a b]. cbn [ec_Type ec_Ratio] in *. plain_struct. Qed.

Record limit_ok (p : LimitPolicy) : Prop := {
  lo_version : in_int64 (lp_Version p); lo_wait : in_int64 (lp_MaxWaitMs p); lo_windows : Forall window_ok (lp_SlidingWindows p);
  lo_estimator : from_option (fun e => float_ok dec_float float_text (ec_Ratio e)) True (lp_Estimator p)
}.
Lemma limit_doc_ok camel p : limit_ok p -> limit_doc float_text camel p <> JNull /\ dec_LimitPolicy dec_float zero (limit_doc float_text camel p) zero_limit = Some p.
Proof.
  intros [H1 H2 H3 H4]. split; [done|]. unfold dec_LimitPolicy, limit_doc. destruct p as [a b c d e f g h i j].
  cbn [lp_ID lp_Name lp_Version lp_Type lp_SlidingWindows lp_MaxWaitMs lp_RelationType lp_Conditions lp_Estimator lp_LimitBy] in *.
  assert (forall old, dec_items (mkSlidingWindow 0 0 None) (dec_SlidingWindow dec_float zero) (list_doc (window_doc float_text) e) old = Some e) as Ew
    by (intros old; apply dec_items_doc; eapply Forall_impl; [exact H3|apply window_doc_ok]).
  assert (dec_ptr (mkEstimatorConfig "" zero) (dec_EstimatorConfig dec_float) (ptr_doc (estimator_doc float_text) i) None = Some i) as Ee
    by (apply dec_ptr_doc; intros y ->; by apply estimator_doc_ok).
  plain_struct.
Qed.

Definition destination_ok (d : Destination) : Prop := in_int64 (d_Weight d).
Lemma destination_doc_ok camel d : destination_ok d -> destination_doc camel d <> JNull /\ dec_Destination (destination_doc camel d) (mkDestination 0 "" []) = Some d.
Proof. intros H. split; [done|]. unfold dec_Destination, destination_doc. destruct d as [a b c]. unfold destination_ok in H. cbn [d_Weight d_RelationType d_Conditions] in *. plain_struct. Qed.

Definition rule_ok (r : TagRule) : Prop := in_int64 (tr_Order r) /\ Forall destination_ok (tr_Destinations r).
Lemma rule_doc_ok camel r : rule_ok r -> rule_doc camel r <> JNull /\ dec_TagRule (rule_doc camel r) (mkTagRule 0 "" [] []) = Some r.
Proof.
  intros [H1 H2]. split; [done|]. unfold dec_TagRule, rule_doc. destruct r as [a b c d]. cbn [tr_Order tr_RelationType tr_Conditions tr_Destinations] in *.
  assert (forall old, dec_items (mkDestination 0 "" []) dec_Destination (list_doc (destination_doc camel) d) old = Some d) as Ed
    by (intros old; apply dec_items_doc; eapply Forall_impl; [exact H2|apply destination_doc_ok]).
  plain_struct.
Qed.

Definition route_ok (p : RoutePolicy) : Prop := in_int64 (rt_Version p) /\ in_int64 (rt_Order p) /\ Forall rule_ok (rt_TagRules p).
Lemma route_doc_ok camel p : route_ok p -> route_doc camel p <> JNull /\ dec_RoutePolicy (route_doc camel p) zero_route = Some p.
Proof.
  intros (H1 & H2 & H3). split; [done|]. unfold dec_RoutePolicy, route_doc. destruct p as [a b c d e]. cbn [rt_ID rt_Name rt_Version rt_Order rt_TagRules] in *.
  assert (forall old, dec_items (mkTagRule 0 "" [] []) dec_TagRule (list_doc (rule_doc camel) e) old = Some e) as Er
    by (intros old; apply dec_items_doc; eapply Forall_impl; [exact H3|apply rule_doc_ok]).
  plain_struct.
Qed.

Lemma action_doc_ok a : dec_TaggingAction (action_doc a) (mkTaggingAction "" "" "") = Some a.
Proof. unfold dec_TaggingAction, action_doc. destruct a as [a b c]. cbn [ta_Type ta_Key ta_Value]. plain_struct. Qed.
Definition tagging_ok (p : TaggingPolicy) : Prop := in_int64 (tp_Version p) /\ in_int64 (tp_Order p).
Lemma tagging_doc_ok camel p : tagging_ok p -> tagging_doc camel p <> JNull /\ dec_TaggingPolicy (tagging_doc camel p) zero_tagging = Some p.
Proof.
  intros [H1 H2]. split; [done|]. unfold dec_TaggingPolicy, tagging_doc. destruct p as [a b c d e f g]. cbn [tp_ID tp_Name tp_Version tp_Order tp_Relation tp_Conditions tp_Actions] in *.
  assert (forall old, dec_slice (mkTaggingAction "" "" "") dec_TaggingAction (list_doc action_doc g) old = Some g) as Ea
    by (intros old; apply mapM_docs; apply Forall_true; apply action_doc_ok).
  plain_struct.
Qed.

Record billing_ok (b : BillingPolicy) : Prop := {
  io_input : float_ok dec_float float_text (b_InputPrice b); io_output : float_ok dec_float float_text (b_OutputPrice b);
  io_cached : float_ok dec_float float_text (b_CachedPrice b); io_created : float_ok dec_float float_text (b_CacheCreationPrice b)
}.
Lemma billing_doc_ok camel b : billing_ok b -> billing_doc float_text camel b <> JNull /\ dec_BillingPolicy dec_float zero (billing_doc float_text camel b) (zero_billing zero) = Some b.
Proof.
  intros [H1 H2 H3 H4]. split; [done|]. unfold dec_BillingPolicy, billing_doc. destruct b as [a b c d]. cbn [b_InputPrice b_OutputPrice b_CachedPrice b_CacheCreationPrice] in *.
  destruct camel; read_struct; done.
Qed.

(** A policy a document can carry. *)
Definition entry {T} (ok : T -> Prop) (x : option T) : Prop := from_option ok True x.
Record policy_ok (p : Policy) : Prop := {
  po_balance : entry balance_ok (p_LoadBalancePolicy p); po_invocation : entry invocation_ok (p_InvocationPolicy p); po_limits : Forall (entry limit_ok) (p_LimitPolicies p);
  po_routes : Forall (entry route_ok) (p_RoutePolicies p); po_breaks : Forall (entry break_ok) (p_CircuitBreakPolicies p); po_tags : Forall (entry tagging_ok) (p_TaggingPolicies p);
  po_billing : entry billing_ok (p_Billing p)
}.

Lemma entry_doc {T} (ok : T -> Prop) (z : T) (d : decoder T) (doc : T -> json) x : (forall y, ok y -> doc y <> JNull /\ d (doc y) z = Some y) -> entry ok x ->
  dec_ptr z d (ptr_doc doc x) None = Some x.
Proof. intros H Hx. apply dec_ptr_doc. intros y ->. by apply H. Qed.
Lemma entries_doc {T} (ok : T -> Prop) (z : T) (d : decoder T) (doc : T -> json) l old : (forall y, ok y -> doc y <> JNull /\ d (doc y) z = Some y) -> Forall (entry ok) l ->
  pointers z d (list_doc (ptr_doc doc) l) old = Some l.
Proof. intros H Hl. apply pointers_doc. eapply Forall_impl; [exact Hl|]. intros x Hx y ->. by apply H. Qed.

Lemma permissions_ok o old : dec_permissions (ptr_doc texts_doc o) old = Some o.
Proof. destruct o as [l|]; [|done]. unfold dec_permissions, ptr_doc. change (Some <$> dec_strings (texts_doc l) [] = Some (Some l)). by rewrite dec_texts. Qed.
#[local] Hint Resolve permissions_ok : policy_doc.

Lemma policy_doc_ok camel p : policy_ok p -> dec_Policy dec_float zero FormatFloat raw_text (policy_doc float_text camel p) emptyPolicy = Some p.
Proof.
  intros [H1 H2 H3 H4 H5 H6 H7]. unfold dec_Policy, policy_doc. destruct p as [a b c d e f g h i].
  cbn [p_LoadBalancePolicy p_InvocationPolicy p_LimitPolicies p_RoutePolicies p_CircuitBreakPolicies p_TaggingPolicies p_Permissions p_Billing p_EnableMetricsReporting] in *.
  pose proof (entry_doc _ _ _ _ _ balance_doc_ok H1) as E1. pose proof (entry_doc _ _ _ _ _ (invocation_doc_ok camel) H2) as E2.
  pose proof (fun old => entries_doc _ _ _ _ _ old (limit_doc_ok camel) H3) as E3. pose proof (fun old => entries_doc _ _ _ _ _ old (route_doc_ok camel) H4) as E4.
  pose proof (fun old => entries_doc _ _ _ _ _ old (break_doc_ok camel) H5) as E5. pose proof (fun old => entries_doc _ _ _ _ _ old (tagging_doc_ok camel) H6) as E6.
  pose proof (entry_doc _ _ _ _ _ (billing_doc_ok camel) H7) as E7.
  destruct camel; read_struct; unfold merge_policy_aliases; by merged.
Qed.
End parts.

(** C37: policies as documents. A policy written under the names of the code and one written under
    the names of the administration (camel case, down to the error parsers, conditions and
    prices inside it) are read as the same policy, the one that was written, provided its
    counts are not negative, its timeouts are zero or at least a second and its content
    types are stored in lower case. *)
Theorem policy_spelling_roundtrip (dec_float : decoder float64) (zero : float64) (FormatFloat : string -> option string) (raw_text : json -> string)
  (float_text : float64 -> string) (camel : bool) (p : Policy) (Hok : policy_ok dec_float float_text p) :
  dec_Policy dec_float zero FormatFloat raw_text (policy_doc float_text camel p) emptyPolicy = Some p.
Proof. by apply policy_doc_ok. Qed.

(** * Examples *)

Definition demo_float : decoder float64 := fun j old => match j with JNull => Some old | JNum l => of_int <$> ParseInt l | _ => None end.
Definition demo_retry : RetryPolicy := mkRetryPolicy 2 "fixed" 100 ["429"; "5xx"] [] (Some (mkErrorParserPolicy "jsonpath" "$.code" [] None)) None 0 0 30000 0 (Some false) 1.
Definition demo_policy_doc : Policy :=
  mkPolicy (Some (mkLoadBalancePolicy "l" "" "cost" 1 (Some {["w" := VFloat64 (of_int 1)]}))) (Some (mkInvocationPolicy "i" "" "failover" (Some demo_retry) None))
    [Some (mkLimitPolicy "r" "" 1 "request" [mkSlidingWindow 10 1000 None] 0 "AND" [mkTagCondition "header" "EQUAL" "k" ["v"]] None ["user"]); None] []
    [Some (mkCircuitBreakPolicy "b" "" "SERVICE" "count" 10 5 None ["500"] [] None (of_int 1) (of_int 1) 0 1000 1 0 50 None 3 "")] [] (Some ["m"])
    (Some (mkBillingPolicy (of_int 1) (of_int 1) (of_int 1) (of_int 1))) true.

Lemma policy_spelling_roundtrip_witness :
  dec_Policy demo_float fzero (fun l => Some l) (fun _ => "") (policy_doc (fun _ => "1") true demo_policy_doc) emptyPolicy = Some demo_policy_doc.
Proof.
  apply (policy_spelling_roundtrip demo_float fzero (fun l => Some l) (fun _ => "") (fun _ => "1") true demo_policy_doc).
  assert (float_ok demo_float (fun _ => "1") (of_int 1)) as F by (intros old; reflexivity).
  assert (timeout_ok 30000) as T by (unfold timeout_ok, count_ok, max_int64, two63; cbn; lia).
  repeat first [exact T | split | constructor]; cbn; try (exact F); try (unfold in_int64, count_ok, min_int64, max_int64, two63; cbn; lia).
  intros k v [<- <-]%lookup_singleton_Some. exact F.
Defined.

(** A timeout of half a second is read as 500 seconds, unless it is a connection timeout. *)
Lemma short_timeout_in_seconds :
  (fun r => (rp_TotalTimeout r, rp_ConnectTimeout r)) <$> Unmarshal (dec_RetryPolicy (fun l => Some l) (fun _ => "")) zero_retry (json_text "{'total_timeout':500,'connect_timeout':500}") =
    Some (500000, 500).
Proof. vm_compute. reflexivity. Qed.

(** A breaker is forced open with [forceOpen] true, while the same under the name of the code
    makes the document unreadable. *)
Lemma force_open_spellings_differ :
  let read text := cb_ForceOpen <$> Unmarshal (dec_CircuitBreakPolicy demo_float fzero (fun l => Some l) (fun _ => "")) (zero_break fzero) (json_text text) in
  read "{'forceOpen':true}" = Some 1 /\ read "{'force_open':true}" = None.
Proof. vm_compute. split; reflexivity. Qed.

(** A negative value is dropped under its alias and kept under the name of the code. *)
Lemma negative_alias_dropped :
  let read text := rp_BaseMs <$> Unmarshal (dec_RetryPolicy (fun l => Some l) (fun _ => "")) zero_retry (json_text text) in
  read "{'baseMs':-5}" = Some 0 /\ read "{'base_ms':-5}" = Some (-5).
Proof. vm_compute. split; reflexivity. Qed.
