(* ===== verification/AccessLog.v ===== *)
(** pkg/filters/outbound/access_log.go and access_log_compensator.go: the record of a request, the
    batches that carry the records to ClickHouse, and the compensation of a refused batch.

    The batch loop is one goroutine; requests and [Close] meet it at the channel and at the
    stop signal.  [log_step] interleaves them; the channel [logChan] is never closed, so the
    branches for a closed channel are left out. *)

From Stdlib Require Import Ascii.
From S2P Require Import Prelude GoFloat GoStrings GoTime GoJson GoPrint Matcher Policy Types Context Http Translate Compensation PolicyDecode.

(** * Records *)

(** [len(key) <= 8] hides the key altogether. *)
Definition redactKey (key : string) : string :=
  if (String.length key <=? 8)%nat then "***" else String.substring 0 4 key +:+ "***" +:+ String.substring (String.length key - 4) 4 key.

Record AccessLogItem := mkItem {
  al_RequestID : string; al_Time : Time; al_TenantID : string; al_UserID : string; al_SessionID : string; al_APIKey : string;
  al_WorkspaceID : string; al_APIKeyID : string; al_APIKeyHash : string; al_ClientIP : string; al_OriginalModel : string; al_Model : string;
  al_Provider : string; al_EndpointID : string; al_IsStream : Z; al_Attempts : Z; al_FallbackChain : list string; al_StatusCode : Z;
  al_LatencyMs : Z; al_TtftMs : Z; al_ErrorMessage : string; al_InputTokens : Z; al_OutputTokens : Z; al_CachedTokens : Z;
  al_CacheCreationTokens : Z; al_Cost : float64
}.
#[global] Instance eta_item : Eta AccessLogItem := fun i =>
  mkItem (al_RequestID i) (al_Time i) (al_TenantID i) (al_UserID i) (al_SessionID i) (al_APIKey i) (al_WorkspaceID i) (al_APIKeyID i)
    (al_APIKeyHash i) (al_ClientIP i) (al_OriginalModel i) (al_Model i) (al_Provider i) (al_EndpointID i) (al_IsStream i) (al_Attempts i)
    (al_FallbackChain i) (al_StatusCode i) (al_LatencyMs i) (al_TtftMs i) (al_ErrorMessage i) (al_InputTokens i) (al_OutputTokens i)
    (al_CachedTokens i) (al_CacheCreationTokens i) (al_Cost i).

(** Conversions to [uint8] and [uint32] keep the low bits. *)
Definition uint8 (z : Z) : Z := z mod 256.
Definition uint32 (z : Z) : Z := z mod 4294967296.
(** [Duration.Milliseconds]. *)
Definition Milliseconds (d : Duration) : Z := Z.quot d Millisecond.

(** [ex_writer]: the header of the response writer; [ex_remote]: [Request.RemoteAddr];
    [ex_uuid]: the next [uuid.NewString()]. *)
Record extras := mkExtras { ex_writer : option headers; ex_remote : string; ex_uuid : string; ex_now : Time }.

Definition log_RequestID (g : GatewayContext) (x : extras) : string :=
  match ctx_GetHeader g "X-Request-ID", ctx_GetHeader g "X-Correlation-ID", ctx_GetHeader g "X-Trace-ID" with
  | id :: _, _, _ => id
  | [], id :: _, _ => id
  | [], [], id :: _ => id
  | [], [], [] =>
      match ex_writer x with
      | Some h => let t := header_Get h "X-Trace-Id" in if is_empty t then ex_uuid x else t
      | None => ex_uuid x
      end
  end.

Definition log_ClientIP (g : GatewayContext) (x : extras) : string :=
  match ctx_GetHeader g "X-Forwarded-For", ctx_GetHeader g "X-Real-IP" with
  | ip :: _, _ => ip
  | [], ip :: _ => ip
  | [], [] => match Request g with Some _ => ex_remote x | None => "" end
  end.

Definition log_status (g : GatewayContext) : string * Z :=
  match Err g with
  | None => ("", 200)
  | Some err => (Error_text err, if errors_Is (Err g) ErrClientDisconnected then 499 else 500)
  end.

Definition buildAccessLogItem (g : GatewayContext) (x : extras) : AccessLogItem :=
  let '(errMsg, statusCode) := log_status g in
  mkItem (log_RequestID g x) (StartTime g) (if is_empty (Tenant g) then UserTenant g else Tenant g) (UserID g) (SessionID g) (redactKey (APIKey g))
    (WorkspaceID g) (APIKeyID g) (APIKeyHash g) (log_ClientIP g x) (OriginalModel g) (Model g)
    (from_option ep_Provider "" (SelectedEndpoint g)) (from_option ep_ID "" (SelectedEndpoint g))
    (if IsStream g then 1 else 0) (uint8 (AttemptCount g)) (FallbackChain g) statusCode
    (uint32 (Milliseconds (time_Sub (ex_now x) (StartTime g)))) (uint32 (Milliseconds (TTFT g))) errMsg
    (uint32 (InputTokens g)) (uint32 (OutputTokens g)) (uint32 (CachedTokens g)) (uint32 (CacheCreationTokens g)) (Cost g).

(** The level and the message of the local log line. *)
Definition log_line (g : GatewayContext) : string * string :=
  if errors_Is (Err g) ErrClientDisconnected then ("info", "request canceled by client")
  else match Err g with Some _ => ("error", "request completed with error") | None => ("info", "request completed") end.

(** * JSON *)

Section codec.
(** Times and floats in JSON: a float that JSON cannot carry has no text. *)
Context (time_text : Time -> string) (time_parse : string -> option Time) (float_text : float64 -> option string) (dec_float : decoder float64).

(** A slice that was never appended to is nil. *)
Definition chain_json (l : list string) : json := match l with [] => JNull | _ => JArr (map JStr l) end.

Definition item_json (i : AccessLogItem) : option json :=
  (fun cost => JObj
    [("request_id", JStr (al_RequestID i)); ("time", JStr (time_text (al_Time i))); ("tenant_id", JStr (al_TenantID i)); ("user_id", JStr (al_UserID i));
     ("session_id", JStr (al_SessionID i)); ("api_key", JStr (al_APIKey i)); ("workspace_id", JStr (al_WorkspaceID i)); ("api_key_id", JStr (al_APIKeyID i));
     ("api_key_hash", JStr (al_APIKeyHash i)); ("client_ip", JStr (al_ClientIP i)); ("original_model", JStr (al_OriginalModel i)); ("model", JStr (al_Model i));
     ("provider", JStr (al_Provider i)); ("endpoint_id", JStr (al_EndpointID i)); ("is_stream", num (al_IsStream i)); ("attempts", num (al_Attempts i));
     ("fallback_chain", chain_json (al_FallbackChain i)); ("status_code", num (al_StatusCode i)); ("latency_ms", num (al_LatencyMs i)); ("ttft_ms", num (al_TtftMs i));
     ("error_message", JStr (al_ErrorMessage i)); ("input_tokens", num (al_InputTokens i)); ("output_tokens", num (al_OutputTokens i));
     ("cached_tokens", num (al_CachedTokens i)); ("cache_creation_tokens", num (al_CacheCreationTokens i)); ("cost", JNum cost)]) <$> float_text (al_Cost i).

(** A number outside the range of its field is an error. *)
Definition dec_bounded (lo hi : Z) : decoder Z := fun j old =>
  match dec_int j old with Some z => if (lo <=? z) && (z <=? hi) then Some z else None | None => None end.
Definition dec_uint8 : decoder Z := dec_bounded 0 255.
Definition dec_uint32 : decoder Z := dec_bounded 0 4294967295.
Definition dec_int16 : decoder Z := dec_bounded (-32768) 32767.

Definition item_fields : list (@field AccessLogItem) :=
  [("request_id", dec_field al_RequestID dec_string); ("time", dec_field al_Time (dec_time time_parse)); ("tenant_id", dec_field al_TenantID dec_string);
   ("user_id", dec_field al_UserID dec_string); ("session_id", dec_field al_SessionID dec_string); ("api_key", dec_field al_APIKey dec_string);
   ("workspace_id", dec_field al_WorkspaceID dec_string); ("api_key_id", dec_field al_APIKeyID dec_string); ("api_key_hash", dec_field al_APIKeyHash dec_string);
   ("client_ip", dec_field al_ClientIP dec_string); ("original_model", dec_field al_OriginalModel dec_string); ("model", dec_field al_Model dec_string);
   ("provider", dec_field al_Provider dec_string); ("endpoint_id", dec_field al_EndpointID dec_string); ("is_stream", dec_field al_IsStream dec_uint8);
   ("attempts", dec_field al_Attempts dec_uint8); ("fallback_chain", dec_field al_FallbackChain dec_strings); ("status_code", dec_field al_StatusCode dec_int16);
   ("latency_ms", dec_field al_LatencyMs dec_uint32); ("ttft_ms", dec_field al_TtftMs dec_uint32); ("error_message", dec_field al_ErrorMessage dec_string);
   ("input_tokens", dec_field al_InputTokens dec_uint32); ("output_tokens", dec_field al_OutputTokens dec_uint32); ("cached_tokens", dec_field al_CachedTokens dec_uint32);
   ("cache_creation_tokens", dec_field al_CacheCreationTokens dec_uint32); ("cost", dec_field al_Cost dec_float)].

Definition zero_item : AccessLogItem := mkItem "" zeroTime "" "" "" "" "" "" "" "" "" "" "" "" 0 0 [] 0 0 0 "" 0 0 0 0 fzero.
Definition dec_log_items : decoder (list AccessLogItem) := dec_slice zero_item (dec_struct item_fields).

(** * ClickHouse *)

Context {C : Type} (PrepareBatch : C -> C * option goerror) (batch_Append : C -> AccessLogItem -> C * option goerror)
  (batch_Abort : C -> C) (batch_Send : C -> C * option goerror).

Fixpoint append_all (c : C) (items : list AccessLogItem) : C * option goerror :=
  match items with
  | [] => (c, None)
  | i :: r => match batch_Append c i with (c, None) => append_all c r | (c, Some e) => (batch_Abort c, Some (wrapf "append to batch: " e)) end
  end.

Definition writeBatchToClickHouse (c : C) (items : list AccessLogItem) : C * option goerror :=
  match PrepareBatch c with
  | (c, Some e) => (c, Some (wrapf "prepare clickhouse batch: " e))
  | (c, None) =>
      match append_all c items with
      | (c, Some e) => (c, Some e)
      | (c, None) => let '(c, err) := batch_Send c in (c, wrapf "send clickhouse batch: " <$> err)
      end
  end.

(** [AccessLogCompensator.Compensate]: the payload goes through its JSON text. The number
    literals of a payload stand for float64 values. *)
Definition Compensate (c : C) (payload : gmap string json) : C * option goerror :=
  match payload !! "logs" with
  | None => (c, None)
  | Some logs =>
      match Unmarshal dec_log_items [] (Marshal logs) with
      | None => (c, Some (errorf "unmarshal logs in compensation payload"))
      | Some [] => (c, None)
      | Some items => writeBatchToClickHouse c items
      end
  end.

(** * The batcher *)

Context {R : Type} `{Redis R}.

Definition log_task (items : list AccessLogItem) (logs : json) (err : goerror) (now : Time) : CompensationTask :=
  mkTask ("access_log-" +:+ Itoa (now - 62135596800 * Second) +:+ "-" +:+ Itoa (Z.of_nat (length items))) "access_log" {["logs" := logs]} now zeroTime 0 (Error_text err).

(** Whether the records are in the queue; a record that JSON cannot carry fails the task. *)
Definition AccessLog_enqueueCompensation (q : option RedisQueue) (r : R) (items : list AccessLogItem) (err : goerror) (now : Time) : R * bool :=
  match q with
  | None => (r, false)
  | Some q =>
      match mapM item_json items with
      | None => (r, false)
      | Some js => let '(r, qerr) := Enqueue time_text q r (log_task items (JArr js) err now) in (r, match qerr with None => true | Some _ => false end)
      end
  end.

Record AccessLogFilter := mkLogFilter {
  lf_enabled : bool; lf_compQueue : option RedisQueue; lf_logChan : list AccessLogItem; lf_batchSize : Z; lf_flushInterval : Duration;
  lf_closed : bool; lf_stopped : bool
}.
#[global] Instance eta_log_filter : Eta AccessLogFilter := fun f =>
  mkLogFilter (lf_enabled f) (lf_compQueue f) (lf_logChan f) (lf_batchSize f) (lf_flushInterval f) (lf_closed f) (lf_stopped f).

(** The settings that are set; [enabled] also says that there is a connection. A channel of
    negative size panics, and so does the ticker of the loop without a positive interval. *)
Definition NewAccessLogFilter (q : option RedisQueue) (enabled : option bool) (batch_size : option Z) (flush_interval : option Duration) (conn : bool) : go AccessLogFilter :=
  let size := default 2000 batch_size in
  let every := default (2 * Second) flush_interval in
  let on := default false enabled && conn in
  if wrap64 (size * 2) <? 0 then Panic else if on && (every <=? 0) then Panic else Ret (mkLogFilter on q [] size every false false).

Definition buffer_size (f : AccessLogFilter) : nat := Z.to_nat (lf_batchSize f * 2).

(** Where the batch loop is: at its select, in the drain that follows the stop signal, or gone. *)
Inductive loop_at := LoopSelect | LoopDrain | LoopDone.

(** The system: the filter, the loop with its batch, and where the records went: written, handed
    to the compensation queue, or lost with a log line. *)
Record log_sys := mkLogSys {
  ls_filter : AccessLogFilter; ls_loop : loop_at; ls_batch : list AccessLogItem; ls_conn : C; ls_redis : R;
  ls_written : list (list AccessLogItem); ls_queued : list (list AccessLogItem); ls_lost : list (list AccessLogItem); ls_accepted : list AccessLogItem
}.
#[global] Instance eta_log_sys : Eta log_sys := fun s =>
  mkLogSys (ls_filter s) (ls_loop s) (ls_batch s) (ls_conn s) (ls_redis s) (ls_written s) (ls_queued s) (ls_lost s) (ls_accepted s).

Definition log_start (f : AccessLogFilter) (c : C) (r : R) : log_sys :=
  mkLogSys f (if lf_enabled f then LoopSelect else LoopDone) [] c r [] [] [] [].

(** Records that go to the compensation queue. *)
Definition compensate_later (s : log_sys) (items : list AccessLogItem) (err : goerror) (now : Time) : log_sys :=
  let '(r, queued) := AccessLog_enqueueCompensation (lf_compQueue (ls_filter s)) (ls_redis s) items err now in
  if queued then s <| ls_redis := r |> <| ls_queued := ls_queued s ++ [items] |>
  else s <| ls_redis := r |> <| ls_lost := ls_lost s ++ [items] |>.

Definition AccessLog_flush (s : log_sys) (now : Time) : log_sys :=
  match ls_batch s with
  | [] => s
  | batch =>
      let '(c, err) := writeBatchToClickHouse (ls_conn s) batch in
      let s := s <| ls_conn := c |> <| ls_batch := [] |> in
      match err with
      | None => s <| ls_written := ls_written s ++ [batch] |>
      | Some e => compensate_later s batch e now
      end
  end.

(** One record of the channel joins the batch. *)
Definition receive_item (s : log_sys) (item : AccessLogItem) (rest : list AccessLogItem) (now : Time) : log_sys :=
  let s := s <| ls_filter := (ls_filter s) <| lf_logChan := rest |> |> <| ls_batch := ls_batch s ++ [item] |> in
  if lf_batchSize (ls_filter s) <=? Z.of_nat (length (ls_batch s)) then AccessLog_flush s now else s.

(** The third part of [OnResponse]; without a connection the record is only logged. *)
Definition offer_item (s : log_sys) (item : AccessLogItem) (now : Time) : log_sys :=
  let f := ls_filter s in
  if lf_enabled f then
    if lf_closed f then s
    else
      let s := s <| ls_accepted := ls_accepted s ++ [item] |> in
      if (length (lf_logChan f) <? buffer_size f)%nat then s <| ls_filter := f <| lf_logChan := lf_logChan f ++ [item] |> |>
      else compensate_later s [item] (errorf "buffer channel overflow") now
  else s.

Definition AccessLog_OnResponse (s : log_sys) (g : GatewayContext) (x : extras) : log_sys := offer_item s (buildAccessLogItem g x) (ex_now x).

Definition AccessLog_Close (s : log_sys) : log_sys := s <| ls_filter := (ls_filter s) <| lf_closed := true |> <| lf_stopped := true |> |>.

Inductive request_step : log_sys -> log_sys -> Prop :=
| LogResponse s g x : request_step s (AccessLog_OnResponse s g x)
| LogClose s : request_step s (AccessLog_Close s).

Inductive loop_step : log_sys -> log_sys -> Prop :=
| LoopReceive s item rest now : ls_loop s = LoopSelect -> lf_logChan (ls_filter s) = item :: rest -> loop_step s (receive_item s item rest now)
| LoopTick s now : ls_loop s = LoopSelect -> loop_step s (AccessLog_flush s now)
| LoopStop s : ls_loop s = LoopSelect -> lf_stopped (ls_filter s) = true -> loop_step s (s <| ls_loop := LoopDrain |>)
| LoopDrains s item rest now : ls_loop s = LoopDrain -> lf_logChan (ls_filter s) = item :: rest -> loop_step s (receive_item s item rest now)
| LoopEnds s now : ls_loop s = LoopDrain -> lf_logChan (ls_filter s) = [] -> loop_step s ((AccessLog_flush s now) <| ls_loop := LoopDone |>).

Definition log_step (s s' : log_sys) : Prop := request_step s s' \/ loop_step s s'.
End codec.

(** * No record is lost on the way *)

Section batches.
Context (time_text : Time -> string) (float_text : float64 -> option string).
Context {C : Type} (PrepareBatch : C -> C * option goerror) (batch_Append : C -> AccessLogItem -> C * option goerror)
  (batch_Abort : C -> C) (batch_Send : C -> C * option goerror) {R : Type} `{Redis R}.
Notation log_sys := (@log_sys C R).
Notation compensate_later := (compensate_later time_text float_text).
Notation AccessLog_flush := (AccessLog_flush time_text float_text PrepareBatch batch_Append batch_Abort batch_Send).
Notation receive_item := (receive_item time_text float_text PrepareBatch batch_Append batch_Abort batch_Send).
Notation request_step := (request_step time_text float_text).
Notation loop_step := (loop_step time_text float_text PrepareBatch batch_Append batch_Abort batch_Send).
Notation log_step := (log_step time_text float_text PrepareBatch batch_Append batch_Abort batch_Send).
Implicit Types s : log_sys.

(** The records that have left the filter. *)
Definition settled s : list AccessLogItem := concat (ls_written s) ++ concat (ls_queued s) ++ concat (ls_lost s).

(** The compensation queue takes whatever records with the property [P] the filter hands it
    (a record whose cost JSON cannot print is refused by the encoder). *)
Definition queue_answers (P : AccessLogItem -> Prop) (q : option RedisQueue) : Prop :=
  forall (r : R) items err now, Forall P items -> snd (AccessLog_enqueueCompensation time_text float_text q r items err now) = true.

(** What settling records leaves alone; batches written are not empty and within the limit. *)
Record settles (size : Z) s s' (items : list AccessLogItem) : Prop := mkSettles {
  st_filter : ls_filter s' = ls_filter s;
  st_loop : ls_loop s' = ls_loop s;
  st_accepted : ls_accepted s' = ls_accepted s;
  st_settled : settled s' ≡ₚ settled s ++ items;
  st_written : Forall (fun b => b <> [] /\ Z.of_nat (length b) <= size) (ls_written s) ->
    Forall (fun b => b <> [] /\ Z.of_nat (length b) <= size) (ls_written s');
  st_lost : forall P, queue_answers P (lf_compQueue (ls_filter s)) -> Forall P items -> ls_lost s = [] -> ls_lost s' = []
}.

Lemma compensate_later_settles size s items err now :
  settles size s (compensate_later s items err now) items /\ ls_batch (compensate_later s items err now) = ls_batch s.
Proof.
  unfold AccessLog.compensate_later. pose proof (fun P (A : queue_answers P (lf_compQueue (ls_filter s))) => A (ls_redis s) items err now) as A.
  destruct (AccessLog_enqueueCompensation _ _ _ _ _ _ _) as [r [|]]; (split; [|done]); split; try done; unfold settled; cbn.
  - rewrite concat_app. cbn. rewrite app_nil_r. solve_Permutation.
  - rewrite concat_app. cbn. rewrite app_nil_r. solve_Permutation.
  - intros P Q F _. by specialize (A P Q F).
Qed.

Lemma flush_settles size s now : Z.of_nat (length (ls_batch s)) <= size ->
  settles size s (AccessLog_flush s now) (ls_batch s) /\ ls_batch (AccessLog_flush s now) = [].
Proof.
  intros L. unfold AccessLog.AccessLog_flush. destruct (ls_batch s) as [|i b] eqn:E; [split; [split; try done; by rewrite app_nil_r|done]|].
  destruct (writeBatchToClickHouse _ _ _ _ _ _) as [c [e|]].
  - destruct (compensate_later_settles size (s <| ls_conn := c |> <| ls_batch := [] |>) (i :: b) e now) as [[F1 F2 F3 F4 F5 F6] B].
    cbn in F1, F2, F3, F4, F5, F6. split; [by split|done].
  - split; [|done]. split; try done; unfold settled; cbn.
    + rewrite concat_app. cbn. rewrite app_nil_r. solve_Permutation.
    + intros Fa. apply Forall_app_2; [done|]. by apply Forall_singleton.
Qed.

(** The filter the system started with stays what it was, but for its channel and its flags. *)
Record log_inv (f : AccessLogFilter) s : Prop := mkLogInv {
  li_enabled : lf_enabled (ls_filter s) = lf_enabled f;
  li_queue : lf_compQueue (ls_filter s) = lf_compQueue f;
  li_size : lf_batchSize (ls_filter s) = lf_batchSize f;
  li_places : settled s ++ ls_batch s ++ lf_logChan (ls_filter s) ≡ₚ ls_accepted s;
  li_chan : (length (lf_logChan (ls_filter s)) <= buffer_size f)%nat;
  li_batch : Z.of_nat (length (ls_batch s)) < lf_batchSize f;
  li_stopped : lf_stopped (ls_filter s) = lf_closed (ls_filter s);
  li_drain : ls_loop s = LoopDrain -> lf_stopped (ls_filter s) = true;
  li_done : ls_loop s = LoopDone -> ls_batch s = [] /\ lf_logChan (ls_filter s) = [] /\ (lf_enabled f = true -> lf_stopped (ls_filter s) = true);
  li_written : Forall (fun b => b <> [] /\ Z.of_nat (length b) <= lf_batchSize f) (ls_written s);
  li_lost : forall P, queue_answers P (lf_compQueue f) -> Forall P (ls_accepted s) -> ls_lost s = []
}.

Lemma log_inv_start f c r : lf_logChan f = [] -> lf_closed f = false -> lf_stopped f = false -> 0 < lf_batchSize f -> log_inv f (log_start f c r).
Proof.
  intros E1 E2 E3 P. split; cbn; rewrite ?E1, ?E2, ?E3; try done; [cbn; lia|by destruct (lf_enabled f)..].
Qed.

(** Receiving a record keeps the batch below its limit: a full batch is flushed. *)
Lemma receive_preserves f s item rest now : log_inv f s -> ls_loop s <> LoopDone -> lf_logChan (ls_filter s) = item :: rest -> log_inv f (receive_item s item rest now).
Proof.
  intros [I1 I2 I3 I4 I5 I6 I7 I8 I9 I10 I11] N E. unfold AccessLog.receive_item.
  set (t := s <| ls_filter := (ls_filter s) <| lf_logChan := rest |> |> <| ls_batch := ls_batch s ++ [item] |>).
  assert (Z.of_nat (length (ls_batch t)) <= lf_batchSize f) as L by (cbn; rewrite length_app; cbn; lia).
  assert (settled s ++ ls_batch t ++ rest ≡ₚ ls_accepted s) as Pm by (rewrite <- I4, E; cbn; solve_Permutation).
  rewrite E in I5. cbn in I5.
  destruct (lf_batchSize (ls_filter t) <=? Z.of_nat (length (ls_batch t))) eqn:B.
  - destruct (flush_settles _ t now L) as [[F1 F2 F3 F4 F5 F6] Fb]. cbn in F1, F2, F3, F5, F6.
    split; rewrite ?Fb, ?F1, ?F2, ?F3; cbn; auto; try lia; try done.
    + rewrite F4. rewrite <- Pm. unfold settled. cbn. solve_Permutation.
    + intros P Q Fa. eapply F6; [rewrite I2; exact Q| |by eapply I11]. rewrite <- Pm, !Forall_app in Fa. by destruct Fa as (_ & Fa & _).
  - apply Z.leb_gt in B. cbn in B, L. split; cbn; auto; try lia; try done.
Qed.

Lemma flush_preserves f s now : log_inv f s -> log_inv f (AccessLog_flush s now).
Proof.
  intros [I1 I2 I3 I4 I5 I6 I7 I8 I9 I10 I11]. destruct (flush_settles (lf_batchSize f) s now) as [[F1 F2 F3 F4 F5 F6] Fb]; [lia|].
  split; rewrite ?Fb, ?F1, ?F2, ?F3; cbn; auto; try lia.
  - rewrite F4, <- I4. solve_Permutation.
  - intros D. destruct (I9 D) as (_ & ? & ?). auto.
  - intros P Q Fa. eapply F6; [rewrite I2; exact Q| |by eapply I11]. rewrite <- I4, !Forall_app in Fa. by destruct Fa as (_ & Fa & _).
Qed.

Lemma loop_preserves f s s' : log_inv f s -> loop_step s s' -> log_inv f s'.
Proof.
  intros I St. inversion St as [? i r now W E|? now W|? W E|? i r now W E|? now W E]; subst.
  - apply receive_preserves; [done|by rewrite W|done].
  - by apply flush_preserves.
  - destruct I as [I1 I2 I3 I4 I5 I6 I7 I8 I9 I10 I11]. by split.
  - apply receive_preserves; [done|by rewrite W|done].
  - pose proof (li_drain _ _ I W) as D. destruct (flush_settles (lf_batchSize f) s now) as [[F1 _ _ _ _ _] Fb]; [pose proof (li_batch _ _ I); lia|].
    destruct (flush_preserves f s now I) as [I1 I2 I3 I4 I5 I6 I7 I8 I9 I10 I11]. split; cbn; auto; [done|]. intros _. by rewrite F1, D.
Qed.

Lemma request_preserves f s s' : log_inv f s -> request_step s s' -> log_inv f s'.
Proof.
  intros I St. inversion St as [? g x|?]; subst; [|destruct I as [I1 I2 I3 I4 I5 I6 I7 I8 I9 I10 I11]; split; cbn; auto].
  2:{ intros D. destruct (I9 D) as (? & ? & ?). auto. }
  unfold AccessLog_OnResponse, offer_item. destruct (lf_enabled (ls_filter s)) eqn:En; [|done]. destruct (lf_closed (ls_filter s)) eqn:Cl; [done|].
  set (i := buildAccessLogItem g x). destruct I as [I1 I2 I3 I4 I5 I6 I7 I8 I9 I10 I11]. rewrite Cl in I7.
  assert (ls_loop s <> LoopDone) as N by (intros D; destruct (I9 D) as (_ & _ & X); rewrite I7 in X; discriminate X; congruence).
  assert (buffer_size (ls_filter s) = buffer_size f) as Eb by (unfold buffer_size; by rewrite I3).
  destruct (Nat.ltb_spec (length (lf_logChan (ls_filter s))) (buffer_size (ls_filter s))) as [L|L].
  - split; cbn; auto; try done; [rewrite <- I4; unfold settled; cbn; solve_Permutation|rewrite length_app; cbn; lia|congruence|intros P Q [Fa _]%Forall_app; by eapply I11].
  - destruct (compensate_later_settles (lf_batchSize f) (s <| ls_accepted := ls_accepted s ++ [i] |>) [i] (errorf "buffer channel overflow") (ex_now x)) as [[F1 F2 F3 F4 F5 F6] Fb].
    change (settled (s <| ls_accepted := ls_accepted s ++ [i] |>)) with (settled s) in F4.
    match type of Fb with ls_batch ?t = _ => set (u := t) in *; clearbody u end. cbn in F1, F2, F3, F5, F6. split; rewrite ?Fb, ?F1, ?F2, ?F3; cbn; auto; try done; try congruence.
    + rewrite F4, <- I4. solve_Permutation.
    + intros P Q Fa. apply Forall_app in Fa as [Fa Fi]. eapply F6; [rewrite I2; exact Q|exact Fi|by eapply I11].
Qed.

Lemma log_reachable f s s' : log_inv f s -> rtc log_step s s' -> log_inv f s'.
Proof. intros I Rn. induction Rn as [|a b c [St|St] _ IH]; [done|..]; apply IH; [by eapply request_preserves|by eapply loop_preserves]. Qed.

(** Steps left in the drain. *)
Definition drain_budget s : nat := length (lf_logChan (ls_filter s)) + match ls_loop s with LoopDone => 0 | _ => 1 end.

Lemma drain_advances f s s' : log_inv f s -> ls_loop s = LoopDrain -> loop_step s s' -> (drain_budget s' < drain_budget s)%nat /\ ls_loop s' <> LoopSelect.
Proof.
  intros I D St. pose proof (li_batch _ _ I) as B. inversion St as [? i r now W E|? now W|? W E|? i r now W E|? now W E]; subst; try congruence; unfold drain_budget.
  - unfold AccessLog.receive_item. set (t := s <| ls_filter := _ |> <| ls_batch := _ |>).
    assert (Z.of_nat (length (ls_batch t)) <= lf_batchSize f) as L by (cbn; rewrite length_app; cbn; lia).
    destruct (flush_settles _ t now L) as [[F1 F2 _ _ _ _] _]. destruct (_ <=? _); [rewrite F1, F2|]; cbn; rewrite D, E; cbn; (split; [lia|done]).
  - destruct (flush_settles (lf_batchSize f) s now) as [[F1 _ _ _ _ _] _]; [lia|]. cbn. rewrite F1, D. split; [lia|done].
Qed.

(** C23: The access log filter, started with a batch size of at least one, under every
    interleaving of requests, [Close] and the batch loop: each record it accepted is in
    exactly one place - written, handed to the compensation queue, reported lost, in the
    batch, or in the channel; the channel stays within twice the batch size, the batch below
    its size, and every batch written is non-empty and within it. When the loop has ended
    nothing is left behind; nothing is lost if the compensation queue takes records of some
    kind (those with a cost JSON can print, say) and all that were accepted are of it;
    after [Close] a request changes nothing; and the drain after the stop signal always has
    a step until it ends, each one using up a budget bounded by the channel. *)
Theorem access_log_accounted (q : option RedisQueue) (enabled : option bool) (size : option Z) (every : option Duration) (conn : bool)
  (f : AccessLogFilter) (c : C) (r : R) s
  (Hnew : NewAccessLogFilter q enabled size every conn = Ret f) (Hsize : 0 < lf_batchSize f) (Hrun : rtc log_step (log_start f c r) s) :
  settled s ++ ls_batch s ++ lf_logChan (ls_filter s) ≡ₚ ls_accepted s /\
  (length (lf_logChan (ls_filter s)) <= buffer_size f)%nat /\ Z.of_nat (length (ls_batch s)) < lf_batchSize f /\
  Forall (fun b => b <> [] /\ Z.of_nat (length b) <= lf_batchSize f) (ls_written s) /\
  (ls_loop s = LoopDone -> settled s ≡ₚ ls_accepted s) /\
  (forall P, queue_answers P q -> Forall P (ls_accepted s) -> ls_lost s = []) /\
  (lf_closed (ls_filter s) = true -> forall g x, AccessLog_OnResponse time_text float_text s g x = s) /\
  (ls_loop s = LoopDrain ->
    (drain_budget s <= S (buffer_size f))%nat /\ (exists s', loop_step s s') /\
    (forall s', loop_step s s' -> (drain_budget s' < drain_budget s)%nat /\ ls_loop s' <> LoopSelect)).
Proof.
  unfold NewAccessLogFilter in Hnew. destruct (_ <? 0); [done|]. destruct (_ && (_ <=? 0)); [done|]. injection Hnew as Ef.
  assert (log_inv f s) as I by (eapply log_reachable; [apply log_inv_start; subst f; done|done]).
  pose proof (li_places _ _ I) as Pl. pose proof (li_chan _ _ I) as Ch.
  split; [done|]. split; [done|]. split; [apply (li_batch _ _ I)|]. split; [apply (li_written _ _ I)|]. split; [|split; [|split]].
  - intros D. destruct (li_done _ _ I D) as (E1 & E2 & _). by rewrite E1, E2, !app_nil_r in Pl.
  - intros P Q. apply (li_lost _ _ I). by subst f.
  - intros Cl g x. unfold AccessLog_OnResponse, offer_item. rewrite Cl. by destruct (lf_enabled _).
  - intros D. split; [unfold drain_budget; rewrite D; lia|]. split; [|intros s'; by apply (drain_advances f)].
    destruct (lf_logChan (ls_filter s)) as [|i rest] eqn:E; eexists; [by apply (LoopEnds _ _ _ _ _ _ _ zeroTime)|by eapply (LoopDrains _ _ _ _ _ _ _ _ _ zeroTime)].
Qed.
End batches.

(** * A refused batch is written later, record for record *)

Section compensation.
Context (time_text : Time -> string) (time_parse : string -> option Time) (float_text : float64 -> option string) (dec_float : decoder float64).
Context (Htime : time_format_ok time_text time_parse).

Definition text_ok (s : string) : Prop := utf8_valid (ascii_list s) = true.

(** What a record can carry: valid text, numbers in the range of their fields, a cost that JSON can carry. *)
Record item_ok (i : AccessLogItem) : Prop := mkItemOk {
  io_texts : Forall text_ok [al_RequestID i; al_TenantID i; al_UserID i; al_SessionID i; al_APIKey i; al_WorkspaceID i; al_APIKeyID i; al_APIKeyHash i;
    al_ClientIP i; al_OriginalModel i; al_Model i; al_Provider i; al_EndpointID i; al_ErrorMessage i];
  io_chain : Forall text_ok (al_FallbackChain i);
  io_bytes : Forall (fun z => 0 <= z <= 255) [al_IsStream i; al_Attempts i];
  io_words : Forall (fun z => 0 <= z <= 4294967295) [al_LatencyMs i; al_TtftMs i; al_InputTokens i; al_OutputTokens i; al_CachedTokens i; al_CacheCreationTokens i];
  io_status : -32768 <= al_StatusCode i <= 32767;
  io_cost : exists t, float_text (al_Cost i) = Some t /\ number_ok t = true /\ forall old, dec_float (JNum t) old = Some (al_Cost i)
}.

Lemma chain_sorted l : sort_keys (chain_json l) = chain_json l.
Proof. destruct l as [|x l]; [done|]. cbn. f_equal. f_equal. induction l as [|y l IH]; [done|]. cbn. by rewrite IH. Qed.

Lemma chain_back l old : dec_strings (chain_json l) old = Some l.
Proof. destruct l as [|x l]; [done|]. exact (dec_texts (x :: l) old). Qed.

Lemma chain_json_ok d l : Forall text_ok l -> json_ok (S d) (chain_json l) = true.
Proof. intros F. destruct F as [|x l Hx F]; [done|]. cbn. rewrite Hx. induction F as [|y l Hy F IH]; [done|]. cbn. by rewrite Hy. Qed.

(** Sorting the members of objects keeps a document valid. *)
Lemma json_ok_sort j : forall d, json_ok d (sort_keys j) = json_ok d j.
Proof.
  induction j as [| | | |l IH|m IH] using json_nested_ind; intros [|d]; try done.
  - cbn. rewrite forallb_map_compose. induction IH as [|x l Hx _ IHl]; [done|]. cbn. by rewrite Hx, IHl.
  - rewrite sort_keys_obj. cbn [json_ok]. rewrite (forallb_perm _ _ _ (sort_members_perm _)), forallb_map_compose.
    induction IH as [|x l Hx _ IHl]; [done|]. cbn in IHl |- *. by rewrite Hx, IHl.
Qed.

Lemma bounded_back lo hi z old : lo <= z <= hi -> in_int64 z -> dec_bounded lo hi (num z) old = Some z.
Proof.
  intros L Hz. unfold dec_bounded. rewrite dec_int_num by done. by rewrite (proj2 (Z.leb_le lo z)), (proj2 (Z.leb_le z hi)) by lia.
Qed.

Lemma time_back t old : dec_time time_parse (JStr (time_text t)) old = Some t.
Proof. apply (Htime t). Qed.

Lemma small_int64 z : -32768 <= z <= 4294967295 -> in_int64 z.
Proof. unfold in_int64, min_int64, max_int64. lia. Qed.

Lemma item_json_ok i j : item_ok i -> item_json time_text float_text i = Some j -> json_ok 3 j = true.
Proof.
  intros [T Ch B W St (t & Et & Nt & Dt)]. unfold item_json. rewrite Et. cbn [fmap option_fmap option_map]. intros [= <-].
  rewrite json_ok_obj. cbn [forallb fst snd]. rewrite (chain_json_ok 1) by done. unfold num. cbn [json_ok]. rewrite !number_ok_Itoa, Nt, (proj2 (Htime (al_Time i))).
  unfold text_ok in T. rewrite !Forall_cons in T. destruct T as (-> & -> & -> & -> & -> & -> & -> & -> & -> & -> & -> & -> & -> & -> & _).
  reflexivity.
Qed.

Ltac item_leaf := apply dec_field_doc; first [reflexivity|apply chain_back|apply time_back|apply bounded_back; [done|apply small_int64; lia]|auto].
Ltac item_member := eapply reads_cons; [reflexivity|item_leaf|];
  match goal with |- reads ?fs ?ms ?mid ?new => let m := eval cbn in mid in change (reads fs ms m new) end.

(** The members of a record, read back in the order of their names. *)
Lemma item_back i j : item_ok i -> item_json time_text float_text i = Some j ->
  dec_struct (item_fields time_parse dec_float) (sort_keys j) zero_item = Some i.
Proof.
  intros [T Ch B W St (t & Et & Nt & Dt)]. unfold item_json. rewrite Et. cbn [fmap option_fmap option_map]. intros [= <-].
  rewrite !Forall_cons in B. rewrite !Forall_cons in W. destruct B as (B1 & B2 & _), W as (W1 & W2 & W3 & W4 & W5 & W6 & _).
  rewrite sort_keys_obj. cbn [map fst snd]. rewrite chain_sorted. destruct i as [f1 f2 f3 f4 f5 f6 f7 f8 f9 f10 f11 f12 f13 f14 f15 f16 f17 f18 f19 f20 f21 f22 f23 f24 f25 f26].
  cbn [al_RequestID al_Time al_TenantID al_UserID al_SessionID al_APIKey al_WorkspaceID al_APIKeyID al_APIKeyHash al_ClientIP al_OriginalModel al_Model al_Provider
    al_EndpointID al_IsStream al_Attempts al_FallbackChain al_StatusCode al_LatencyMs al_TtftMs al_ErrorMessage al_InputTokens al_OutputTokens al_CachedTokens
    al_CacheCreationTokens al_Cost] in *.
  unfold num. cbn [sort_keys].
  match goal with |- dec_struct _ (JObj ?l) _ = _ => let k := eval cbv -[Itoa chain_json] in l in change l with k end.
  eapply plain_reads. repeat item_member. apply reads_nil.
Qed.

Lemma items_encode items : Forall item_ok items -> exists js, mapM (item_json time_text float_text) items = Some js /\ json_ok 4 (JArr js) = true /\
  Unmarshal (dec_log_items time_parse dec_float) [] (Marshal (JArr js)) = Some items.
Proof.
  intros F. assert (exists js, mapM (item_json time_text float_text) items = Some js /\ forallb (json_ok 3) js = true /\
    mapM (fun x => dec_struct (item_fields time_parse dec_float) x zero_item) (map sort_keys js) = Some items) as (js & E & Ok & D).
  { induction F as [|i items Hi F (js & E & Ok & D)]; [by exists []|].
    assert (exists j, item_json time_text float_text i = Some j) as [j Ej] by (destruct (io_cost _ Hi) as (t & Et & _); unfold item_json; rewrite Et; by eexists).
    exists (j :: js). cbn. rewrite Ej, E, (item_json_ok i j Hi Ej), Ok, (item_back i j Hi Ej). cbn. by rewrite D. }
  exists js. split; [done|]. split; [done|]. unfold Unmarshal, Marshal. rewrite (encode_parse_small 4); [exact D|apply Nat.leb_le; reflexivity|].
  rewrite json_ok_sort. exact Ok.
Qed.

Lemma task_id_ok items logs err now : text_ok (ct_ID (log_task items logs err now)).
Proof.
  assert (forall z, forallb (fun c => byte_val c <? 128) (ascii_list (Itoa z)) = true) as K.
  { intros z. apply forallb_forall. intros c Hc. apply list_elem_of_In, Itoa_chars in Hc as [Hd| ->]; [|done].
    pose proof (all_bytes (fun c => implb (is_digit c) (byte_val c <? 128)) ltac:(vm_compute; reflexivity) c) as P. cbn beta in P. by rewrite Hd in P. }
  unfold text_ok, log_task. cbn [ct_ID]. apply utf8_valid_ascii. rewrite !ascii_list_app, !forallb_app, !K. reflexivity.
Qed.

Context {C : Type} (PrepareBatch : C -> C * option goerror) (batch_Append : C -> AccessLogItem -> C * option goerror)
  (batch_Abort : C -> C) (batch_Send : C -> C * option goerror) {R : Type} `{Redis R}.
Notation writeBatch := (writeBatchToClickHouse PrepareBatch batch_Append batch_Abort batch_Send).
Notation compensators := ({["access_log" := Compensate time_parse dec_float PrepareBatch batch_Append batch_Abort batch_Send]}).

(** A batch that ClickHouse refuses comes back record for record: the filter puts one
    task on the stream, and the worker that reads its text writes exactly the records of
    the batch, in order, and acknowledges the task when the write succeeds; when it fails again the task is
    retried or dead-lettered by the rules of the queue. *)
Theorem refused_batch_recovered (items : list AccessLogItem) (err : goerror) (now later : Time) (id : string) (q : RedisQueue) (r r' : R) (c : C)
  (Hitems : Forall item_ok items) (Hne : items <> []) (Herr : text_ok (Error_text err)) :
  exists t, ct_FilterName t = "access_log" /\
    AccessLog_enqueueCompensation time_text float_text (Some q) r items err now =
      (fst (XAdd r (q_stream q) (task_Marshal time_text t)), match snd (XAdd r (q_stream q) (task_Marshal time_text t)) with None => true | Some _ => false end) /\
    HandleMessage time_text time_parse compensators q r' c (id, Some (task_Marshal time_text t)) later =
      match writeBatch c items with
      | (c', None) => (ack q r' id, c')
      | (c', Some e) => (handleFailure time_text q r' id t e later, c')
      end.
Proof.
  destruct (items_encode items Hitems) as (js & Ej & Ok & Back). exists (log_task items (JArr js) err now). split; [done|]. split.
  - unfold AccessLog_enqueueCompensation, Enqueue. rewrite Ej. destruct (XAdd _ _ _) as [r1 [e|]]; done.
  - unfold HandleMessage. cbn [snd fst mbind option_bind]. rewrite task_decode; [|exact Htime|].
    + cbn [ct_FilterName log_task]. rewrite lookup_singleton_eq. unfold Compensate. cbn [ct_Payload log_task]. rewrite lookup_singleton_eq, Back.
      destruct items as [|i items]; [done|]. by destruct (writeBatch c (i :: items)) as [c' [e|]].
    + split; [apply task_id_ok|]. split; [done|]. split; [exact Herr|]. split; [done|]. cbn [ct_Payload log_task].
      intros k v E. apply lookup_singleton_Some in E as [<- <-]. split; [done|]. apply (json_ok_mono _ 4); [apply Nat.leb_le; reflexivity|done].
Qed.
End compensation.

(** * Where records are lost or altered *)

(** Without a compensation queue a record that finds the channel full is gone. *)
Lemma overflow_without_queue_loses {C R} `{Redis R} time_text float_text (s : @log_sys C R) (item : AccessLogItem) now :
  lf_enabled (ls_filter s) = true -> lf_closed (ls_filter s) = false -> lf_compQueue (ls_filter s) = None ->
  (buffer_size (ls_filter s) <= length (lf_logChan (ls_filter s)))%nat ->
  ls_lost (offer_item time_text float_text s item now) = ls_lost s ++ [[item]].
Proof.
  intros En Cl Q L. unfold offer_item. rewrite En, Cl, (proj2 (Nat.ltb_ge _ _) L). unfold compensate_later. cbn. by rewrite Q.
Qed.

(** The recorded status does not depend on the status the error carries. *)
Lemma status_ignores_error_code (g : GatewayContext) (x : extras) (err : goerror) :
  Err g = Some err -> errors_Is (Err g) ErrClientDisconnected = false -> al_StatusCode (buildAccessLogItem g x) = 500.
Proof. intros E D. unfold buildAccessLogItem, log_status. by rewrite D, E. Qed.

(** Attempts are counted modulo 256. *)
Lemma attempts_wrap (g : GatewayContext) (x : extras) : AttemptCount g = 256 -> al_Attempts (buildAccessLogItem g x) = 0.
Proof. intros E. unfold buildAccessLogItem. destruct (log_status g). cbn. by rewrite E. Qed.

(** A flush interval of zero in the configuration stops the process. *)
Lemma zero_interval_panics q size : NewAccessLogFilter q (Some true) size (Some 0) true = Panic.
Proof. unfold NewAccessLogFilter. by destruct (_ <? 0). Qed.

(** * A ClickHouse in memory: committed rows and the open batch *)

Definition MemHouse : Type := list AccessLogItem * list AccessLogItem.
Definition mem_prepare (c : MemHouse) : MemHouse * option goerror := ((fst c, []), None).
Definition mem_append (c : MemHouse) (i : AccessLogItem) : MemHouse * option goerror := ((fst c, snd c ++ [i]), None).
Definition mem_abort (c : MemHouse) : MemHouse := (fst c, []).
Definition mem_send (c : MemHouse) : MemHouse * option goerror := ((fst c ++ snd c, []), None).

Definition demo_filter : AccessLogFilter := mkLogFilter true None [] 1 (2 * Second) false false.
Definition demo_request : GatewayContext := emptyContext <| Model := "m" |>.
Definition demo_extras : extras := mkExtras None "" "u-1" Second.
Definition demo_item : AccessLogItem := buildAccessLogItem demo_request demo_extras.
Notation demo_step := (log_step Itoa (fun _ => None) mem_prepare mem_append mem_abort mem_send (R := MemRedis)).
Definition demo_stopped : @log_sys MemHouse MemRedis :=
  mkLogSys (mkLogFilter true None [] 1 (2 * Second) true true) LoopDone [] ([demo_item], []) (mkMemRedis ∅ ∅ ∅) [[demo_item]] [] [] [demo_item].

Ltac log_run t := eapply rtc_l; [first [left; t|right; t]|].

Lemma demo_log_run : rtc demo_step (log_start demo_filter ([], []) (mkMemRedis ∅ ∅ ∅)) demo_stopped.
Proof.
  log_run ltac:(apply (LogResponse _ _ _ demo_request demo_extras)). log_run ltac:(by eapply (LoopReceive _ _ _ _ _ _ _ demo_item [] zeroTime)).
  log_run ltac:(by apply LogClose). log_run ltac:(by apply LoopStop). log_run ltac:(by apply (LoopEnds _ _ _ _ _ _ _ zeroTime)). apply rtc_refl.
Qed.

Lemma access_log_accounted_witness : settled demo_stopped ≡ₚ ls_accepted demo_stopped.
Proof.
  destruct (access_log_accounted Itoa (fun _ => None) mem_prepare mem_append mem_abort mem_send None (Some true) (Some 1) None true demo_filter ([], [])
    (mkMemRedis ∅ ∅ ∅) demo_stopped eq_refl ltac:(reflexivity) demo_log_run) as (_ & _ & _ & _ & H & _). exact (H eq_refl).
Defined.

(** A float whose text is always [0.5]. *)
Definition half : float64 := SpecFloat.S754_finite false 4503599627370496 (-53).
Definition half_text (x : float64) : option string := Some "0.5".
Definition dec_half : decoder float64 := fun _ _ => Some half.
Definition demo_row : AccessLogItem := demo_item <| al_Cost := half |>.

Lemma refused_batch_recovered_witness : exists t, ct_FilterName t = "access_log" /\
  HandleMessage Itoa demo_time_parse {["access_log" := Compensate demo_time_parse dec_half mem_prepare mem_append mem_abort mem_send]} demo_queue
    (mkMemRedis ∅ ∅ ∅) ([], []) ("1-0", Some (task_Marshal Itoa t)) zeroTime = (ack demo_queue (mkMemRedis ∅ ∅ ∅) "1-0", ([demo_row], [])).
Proof.
  destruct (refused_batch_recovered Itoa demo_time_parse half_text dec_half demo_time_format mem_prepare mem_append mem_abort mem_send
    [demo_row] (errorf "down") zeroTime zeroTime "1-0" demo_queue (mkMemRedis ∅ ∅ ∅) (mkMemRedis ∅ ∅ ∅) ([], [])) as (t & Hn & _ & Hh).
  - apply Forall_singleton.
    split; [repeat (apply Forall_cons_2; [reflexivity|]); apply Forall_nil_2|apply Forall_nil_2| | |vm_compute; split; discriminate|by exists "0.5"].
    + repeat (apply Forall_cons_2; [vm_compute; split; discriminate|]); apply Forall_nil_2.
    + repeat (apply Forall_cons_2; [vm_compute; split; discriminate|]); apply Forall_nil_2.
  - done.
  - reflexivity.
  - exists t. split; [exact Hn|exact Hh].
Defined.
