(* ===== verification/ConfigManager.v ===== *)
(** The live model configuration: pkg/config/redis_source.go (documents of the admin console in Redis,
    cached with their versions) over config_manager.go (Redis first, the static configuration otherwise).

    A call sees one state of Redis, given by the answers of its commands. *)

From Stdlib Require Import Ascii.
From S2P Require Import Prelude GoFloat GoStrings GoTime GoJson GoPrint Matcher Policy Types Context Http Sse Translate SmartRequest ApiKeys Config.

(** * Redis *)

Inductive cmd (A : Type) := Val (a : A) | Nil | Failed (e : goerror).
Arguments Val {A} a. Arguments Nil {A}. Arguments Failed {A} e.

(** The error of a pipeline is that of its first command that has one. *)
Inductive outcome := Fine | IsNil | Broken (e : goerror).
Definition result {A} (c : cmd A) : outcome := match c with Val _ => Fine | Nil => IsNil | Failed e => Broken e end.
Fixpoint exec (l : list outcome) : outcome := match l with [] => Fine | Fine :: r => exec r | o :: _ => o end.

Definition cmd_val {A} (zero : A) (c : cmd A) : A := match c with Val a => a | _ => zero end.

Record Redis := mkRedis {
  r_Get : string -> cmd string; r_HGet : string -> string -> cmd string; r_Exists : list string -> cmd Z;
  r_HMGet : string -> list string -> list (option string) + goerror; r_HKeys : string -> list string + goerror
}.

Definition RedisKeySmartRouting (model : string) : string := "aigw:config:smart_routing:" +:+ model.
Definition RedisKeyConfigEndpoints (model : string) : string := "aigw:config:endpoints:" +:+ model.
Definition RedisKeyConfigModelVersions : string := "aigw:config:model_versions".

(** * redis_source.go *)

Record RedisConfigSource := mkSource {
  rs_cache : gmap string (list ResolvedEndpoint); rs_lastVersions : gmap string Z; rs_smartCache : gmap string SmartRoutingConfig;
  rs_smartErrors : gmap string goerror; rs_managedSmart : gset string
}.
#[global] Instance eta_source : Eta RedisConfigSource := fun s => mkSource (rs_cache s) (rs_lastVersions s) (rs_smartCache s) (rs_smartErrors s) (rs_managedSmart s).
Definition NewRedisConfigSource : RedisConfigSource := mkSource ∅ ∅ ∅ ∅ ∅.

Definition dec_range : decoder SmartRoutingRange := fun j old =>
  (fun '(mn, mx, m) => mkRange mn mx m) <$>
  dec_struct [("min", fun j '(mn, mx, m) => (fun x => (x, mx, m)) <$> dec_int j mn); ("max", fun j '(mn, mx, m) => (fun x => (mn, x, m)) <$> dec_int j mx);
              ("model", fun j '(mn, mx, m) => (fun x => (mn, mx, x)) <$> dec_string j m)] j (sg_Min old, sg_Max old, sg_Model old).
Definition dec_smart : decoder SmartRoutingConfig :=
  dec_struct [("version", dec_field sc_Version dec_int); ("judge_model", dec_field sc_JudgeModel dec_string); ("judge_timeout_ms", dec_field sc_JudgeTimeoutMs dec_int);
    ("judge_max_input_bytes", dec_field sc_JudgeMaxInputBytes dec_int); ("judge_max_output_tokens", dec_field sc_JudgeMaxOutputTokens dec_int);
    ("ranges", dec_field sc_Ranges (dec_slice (mkRange 0 0 "") dec_range))].

Section source.
Context (decode_endpoints : string -> option (list ResolvedEndpoint)) (R : Redis).
Implicit Type s : RedisConfigSource.

Definition source_validateDeps (c : SmartRoutingConfig) : option goerror :=
  let cmds := map (fun dep => (dep, r_Exists R [RedisKeySmartRouting dep])) (smart_deps c) in
  match exec (map (fun x => result (snd x)) cmds) with
  | Broken e => Some e
  | IsNil => Some (errorf "redis: nil")
  | Fine => match List.find (fun x => 0 <? cmd_val 0 (snd x)) cmds with
            | Some (dep, _) => Some (errorf ("dependency " +:+ dep +:+ " must be ordinary"))
            | None => None
            end
  end.

(** The document of a model: decoded, checked, completed. *)
Definition read_smart (modelCode data : string) : SmartRoutingConfig + goerror :=
  match Unmarshal dec_smart (mkSmartConfig 0 "" 0 0 0 []) data with
  | None => inr (errorf "json: cannot unmarshal smart_routing")
  | Some c =>
      match Smart_Validate (Some c) modelCode with
      | Some e => inr e
      | None => let c := ApplyDefaults c in match source_validateDeps c with Some e => inr e | None => inl c end
      end
  end.

(** The configuration, whether Redis owns the model, and the error. *)
Abbreviation smart_answer := (option SmartRoutingConfig * bool * option goerror)%type.

Definition source_GetSmartRouting s (modelCode : string) : RedisConfigSource * smart_answer :=
  let smartCmd := r_Get R (RedisKeySmartRouting modelCode) in
  let versionCmd := r_HGet R RedisKeyConfigModelVersions modelCode in
  let endpointCmd := r_Exists R [RedisKeyConfigEndpoints modelCode] in
  let managed := bool_decide (modelCode ∈ rs_managedSmart s) in
  match exec [result smartCmd; result versionCmd; result endpointCmd] with
  | Broken _ =>
      (s, match rs_smartCache s !! modelCode, rs_smartErrors s !! modelCode with
          | Some c, _ => (Some c, true, None)
          | None, Some e => (None, true, Some e)
          | None, None => (None, managed, None)
          end)
  | _ =>
      match smartCmd with
      | Nil => (s <| rs_smartCache := delete modelCode (rs_smartCache s) |> <| rs_smartErrors := delete modelCode (rs_smartErrors s) |>,
                (None, (0 <? cmd_val 0 endpointCmd) || managed, None))
      | Failed e => (s, (None, true, Some (wrap_error ("model " +:+ modelCode +:+ ": read smart_routing: ") e)))
      | Val data =>
          let s := s <| rs_managedSmart := {[modelCode]} ∪ rs_managedSmart s |> <| rs_lastVersions := <[modelCode := int_value (cmd_val "" versionCmd)]> (rs_lastVersions s) |>
                     <| rs_cache := delete modelCode (rs_cache s) |> in
          match read_smart modelCode data with
          | inr e =>
              let e := wrap_error ("model " +:+ modelCode +:+ ": invalid smart_routing: ") e in
              (s <| rs_smartCache := delete modelCode (rs_smartCache s) |> <| rs_smartErrors := <[modelCode := e]> (rs_smartErrors s) |>, (None, true, Some e))
          | inl c => (s <| rs_smartErrors := delete modelCode (rs_smartErrors s) |> <| rs_smartCache := <[modelCode := c]> (rs_smartCache s) |>, (Some c, true, None))
          end
      end
  end.

Definition fetchFromRedis (modelCode : string) : (list ResolvedEndpoint * Z) + goerror :=
  let endpointsCmd := r_Get R (RedisKeyConfigEndpoints modelCode) in
  let versionCmd := r_HGet R RedisKeyConfigModelVersions modelCode in
  match exec [result endpointsCmd; result versionCmd] with
  | Broken e => inr e
  | _ =>
      match endpointsCmd with
      | Failed e => inr e
      | Nil => inr (errorf "redis: nil")
      | Val data =>
          match (if is_empty data then Some [] else decode_endpoints data) with
          | None => inr (errorf "json: cannot unmarshal endpoints")
          | Some eps => inl (eps, match versionCmd with Val v => let '(n, ok) := ParseInt64 v in if ok : bool then n else 0 | _ => 0 end)
          end
      end
  end.

Definition source_GetEndpoints s (modelCode : string) : RedisConfigSource * option (list ResolvedEndpoint) :=
  match rs_cache s !! modelCode with
  | Some eps => (s, Some eps)
  | None =>
      match fetchFromRedis modelCode with
      | inr _ => (s, None)
      | inl (eps, version) => (s <| rs_cache := <[modelCode := eps]> (rs_cache s) |> <| rs_lastVersions := <[modelCode := version]> (rs_lastVersions s) |>, Some eps)
      end
  end.

(** The version of a model in the answer of [HMGET]. *)
Definition remote_version (versions : list (option string)) (i : nat) : Z := match versions !! i with Some (Some v) => int_value v | _ => 0 end.

Definition evict_if_changed (versions : list (option string)) s (im : nat * string) : RedisConfigSource :=
  let '(i, model) := im in
  if remote_version versions i =? default 0 (rs_lastVersions s !! model) then s
  else mkSource (delete model (rs_cache s)) (delete model (rs_lastVersions s)) (delete model (rs_smartCache s)) (delete model (rs_smartErrors s)) (rs_managedSmart s).

Definition KnownModelsList s : list string := map fst (map_to_list (rs_lastVersions s)).

Definition checkVersion s : RedisConfigSource :=
  match KnownModelsList s with
  | [] => s
  | activeModels =>
      match r_HMGet R RedisKeyConfigModelVersions activeModels with
      | inr _ => s
      | inl versions => fold_left (evict_if_changed versions) (imap pair activeModels) s
      end
  end.

Definition known_step (acc : RedisConfigSource * gset string) (code : string) : RedisConfigSource * gset string :=
  let '(s, known) := acc in
  if 0 <? cmd_val 0 (r_Exists R [RedisKeyConfigEndpoints code; RedisKeySmartRouting code]) then
    match source_GetSmartRouting s code with
    | (s, (_, _, None)) => (s, {[code]} ∪ known)
    | (s, _) => (s, known)
    end
  else (s, known).

Definition source_KnownModels s : RedisConfigSource * gset string :=
  match r_HKeys R RedisKeyConfigModelVersions with
  | inr _ => (s, dom (rs_cache s) ∪ dom (rs_smartCache s))
  | inl codes => fold_left known_step codes (s, ∅)
  end.

Definition ClearCache s : RedisConfigSource := mkSource ∅ ∅ ∅ ∅ (rs_managedSmart s).
End source.

(** * config_manager.go *)

Record ConfigManager := mkManager {
  cm_yamlEndpoints : gmap string (list ResolvedEndpoint); cm_fallbacks : gmap string (list string); cm_aliases : string_map;
  cm_yamlSmart : gmap string SmartRoutingConfig; cm_yamlSmartErrors : gmap string goerror; cm_redisSrc : option RedisConfigSource
}.
#[global] Instance eta_manager : Eta ConfigManager := fun m =>
  mkManager (cm_yamlEndpoints m) (cm_fallbacks m) (cm_aliases m) (cm_yamlSmart m) (cm_yamlSmartErrors m) (cm_redisSrc m).

Section manager.
Context (decode_endpoints : string -> option (list ResolvedEndpoint)) (IsPrint : list ascii -> bool).
Implicit Type m : ConfigManager.

Definition yaml_smart (cfg : GatewayConfig) (code : string) (mc : ModelConfig) : option SmartRoutingConfig :=
  match modelSmartRouting IsPrint cfg code mc with inl r => r | inr _ => None end.
Definition yaml_smart_error (cfg : GatewayConfig) (code : string) (mc : ModelConfig) : option goerror :=
  match modelSmartRouting IsPrint cfg code mc with inl _ => None | inr e => Some e end.

Definition UpdateYAMLConfig m (cfg : option GatewayConfig) : ConfigManager :=
  let cfg := cloneGatewayConfig <$> cfg in
  let from {A} (f : GatewayConfig -> gmap string A) : gmap string A := match cfg with Some c => f c | None => ∅ end in
  mkManager (Resolve IsPrint cfg) (from gc_Fallbacks) (from (fun c => default ∅ (gc_Aliases c))) (from (fun c => map_imap (yaml_smart c) (gc_Models c)))
    (from (fun c => map_imap (yaml_smart_error c) (gc_Models c))) (cm_redisSrc m).

Definition NewConfigManager (cfg : option GatewayConfig) (src : option RedisConfigSource) : ConfigManager :=
  UpdateYAMLConfig (mkManager ∅ ∅ ∅ ∅ ∅ src) cfg.

Context (R : Redis).

(** Redis also comes to own a static smart model it redefines. *)
Definition redisSmartRouting m (s : RedisConfigSource) (model : string) : ConfigManager * (option SmartRoutingConfig * bool * option goerror) :=
  let '(s, (smart, configured, err)) := source_GetSmartRouting R s model in
  let s := if (configured : bool) && bool_decide (is_Some (cm_yamlSmart m !! model)) then s <| rs_managedSmart := {[model]} ∪ rs_managedSmart s |> else s in
  (m <| cm_redisSrc := Some s |>, (smart, configured, err)).

Fixpoint check_deps m (deps : list string) : ConfigManager * option goerror :=
  match deps with
  | [] => (m, None)
  | dep :: rest =>
      let nested := Some (errorf ("smart routing dependency " +:+ dep +:+ " must be ordinary")) in
      let static m := if bool_decide (is_Some (cm_yamlSmart m !! dep)) then (m, nested) else check_deps m rest in
      match cm_redisSrc m with
      | None => static m
      | Some s =>
          let '(m, (smart, configured, err)) := redisSmartRouting m s dep in
          if configured : bool then match smart, err with None, None => check_deps m rest | _, _ => (m, nested) end
          else static m
      end
  end.

Definition validateSmartDependencies m (smart : option SmartRoutingConfig) : ConfigManager * (option SmartRoutingConfig + goerror) :=
  match smart with
  | None => (m, inl None)
  | Some c => match check_deps m (smart_deps c) with (m, None) => (m, inl (Some c)) | (m, Some e) => (m, inr e) end
  end.

Definition GetSmartRouting m (model : string) : ConfigManager * (option SmartRoutingConfig + goerror) :=
  let static m := match cm_yamlSmartErrors m !! model with
                  | Some e => (m, inr e)
                  | None => validateSmartDependencies m (cm_yamlSmart m !! model)
                  end in
  match cm_redisSrc m with
  | None => static m
  | Some s =>
      let '(m, (smart, configured, err)) := redisSmartRouting m s model in
      match err with
      | Some e => (m, inr e)
      | None => if configured : bool then validateSmartDependencies m smart else static m
      end
  end.

Definition is_managed m (model : string) : bool := match cm_redisSrc m with Some s => bool_decide (model ∈ rs_managedSmart s) | None => false end.

Definition HasModel m (model : string) : ConfigManager * bool :=
  match GetSmartRouting m model with
  | (m, inr _) => (m, false)
  | (m, inl (Some _)) => (m, true)
  | (m, inl None) =>
      let known := bool_decide (is_Some (cm_yamlEndpoints m !! model)) in
      (m, match cm_redisSrc m with
          | None => known
          | Some _ => if 0 <? cmd_val 0 (r_Exists R [RedisKeyConfigEndpoints model]) then true else if is_managed m model then false else known
          end)
  end.

Definition GetEndpoints m (modelCode : string) : ConfigManager * list ResolvedEndpoint :=
  match GetSmartRouting m modelCode with
  | (m, inr _) | (m, inl (Some _)) => (m, [])
  | (m, inl None) =>
      let static m := default [] (cm_yamlEndpoints m !! modelCode) in
      match cm_redisSrc m with
      | None => (m, static m)
      | Some s =>
          let '(s, eps) := source_GetEndpoints decode_endpoints R s modelCode in
          let m := m <| cm_redisSrc := Some s |> in
          match eps with
          | Some (e :: es) => (m, e :: es)
          | _ => (m, if is_managed m modelCode then [] else static m)
          end
      end
  end.

Definition drop_unknown (acc : ConfigManager * gset string) (name : string) : ConfigManager * gset string :=
  let '(m, known) := acc in let '(m, has) := HasModel m name in (m, if has : bool then known else known ∖ {[name]}).

Definition AllKnownModels m : ConfigManager * gset string :=
  let known := dom (cm_yamlEndpoints m) in
  match cm_redisSrc m with
  | None => (m, known)
  | Some s =>
      let '(s, names) := source_KnownModels R s in
      let known := known ∪ names in
      fold_left drop_unknown (elements known) (m <| cm_redisSrc := Some s |>, known)
  end.

Definition OwnerOf m (model : string) : ConfigManager * string :=
  let '(m, eps) := GetEndpoints m model in (m, match eps with [] => "" | e :: _ => re_ProviderName e end).
Definition ModelCapacityOf m (model : string) : ConfigManager * (Z * Z) :=
  let '(m, eps) := GetEndpoints m model in (m, match eps with [] => (0, 0) | e :: _ => (re_ContextLength e, re_MaxOutputTokens e) end).

(** The first entry of the list that matches, whose target exists. *)
Fixpoint find_alias m (matches : string -> bool) (l : list (string * string)) : ConfigManager * option string :=
  match l with
  | [] => (m, None)
  | (k, target) :: rest =>
      if matches k && negb (is_empty target) then
        match HasModel m target with (m, true) => (m, Some target) | (m, false) => find_alias m matches rest end
      else find_alias m matches rest
  end.

Definition GetAlias m (alias : string) : ConfigManager * option string :=
  if is_empty alias then (m, None)
  else
    let exact := match cm_aliases m !! alias with Some t => [(alias, t)] | None => [] end in
    match find_alias m (seqb alias) exact with
    | (m, Some t) => (m, Some t)
    | (m, None) => find_alias m (fun k => EqualFold k alias) (map_to_list (cm_aliases m))
    end.

Definition GetAliasesForModel m (modelCode : string) : list string :=
  if is_empty modelCode then [] else map fst (List.filter (fun '(_, t) => seqb t modelCode || EqualFold t modelCode) (map_to_list (cm_aliases m))).

Definition NormalizeModelCode m (name : string) : ConfigManager * option string :=
  if is_empty name then (m, None)
  else match HasModel m name with
       | (m, true) => (m, Some name)
       | (m, false) => let '(m, known) := AllKnownModels m in (m, List.find (fun k => EqualFold k name) (elements known))
       end.
End manager.

(** * How the state evolves *)

Section evolution.
Context (decode : string -> option (list ResolvedEndpoint)).

(** What a read does to the Redis source. *)
Inductive src_prim (R : Redis) (s : RedisConfigSource) : RedisConfigSource -> Prop :=
  | prim_smart k : src_prim R s (fst (source_GetSmartRouting R s k))
  | prim_manage k : src_prim R s (s <| rs_managedSmart := {[k]} ∪ rs_managedSmart s |>)
  | prim_endpoints k : src_prim R s (fst (source_GetEndpoints decode R s k)).

(** The static part stays, the Redis source evolves. *)
Definition evolves (R : Redis) (m m' : ConfigManager) : Prop :=
  m' = m <| cm_redisSrc := cm_redisSrc m' |> /\
  match cm_redisSrc m, cm_redisSrc m' with Some s, Some s' => rtc (src_prim R) s s' | None, None => True | _, _ => False end.

#[global] Instance evolves_preorder R : PreOrder (evolves R).
Proof.
  split.
  - intros [a b c d e [s|]]; (split; [done|]); [apply rtc_refl|done].
  - intros [a b c d e s] [a1 b1 c1 d1 e1 s1] [a2 b2 c2 d2 e2 s2] [E1 H1] [E2 H2]. cbn in *. injection E1 as -> -> -> -> ->. injection E2 as -> -> -> -> ->. split; [done|].
    cbn. destruct s, s1, s2; try done. by etransitivity.
Qed.

Lemma evolves_source R m s s' : cm_redisSrc m = Some s -> rtc (src_prim R) s s' -> evolves R m (m <| cm_redisSrc := Some s' |>).
Proof. destruct m. cbn. intros -> H. by split. Qed.

Lemma redisSmartRouting_evolves R m s k : cm_redisSrc m = Some s -> evolves R m (fst (redisSmartRouting R m s k)).
Proof.
  intros E. unfold redisSmartRouting. pose proof (prim_smart R s k) as P. destruct (source_GetSmartRouting R s k) as [s1 [[sm cf] er]]. cbn [fst] in *.
  apply (evolves_source R m s); [done|]. eapply rtc_l; [exact P|]. destruct (_ && _); [apply rtc_once, prim_manage|done].
Qed.

Lemma check_deps_evolves R deps : forall m, evolves R m (fst (check_deps R m deps)).
Proof.
  induction deps as [|dep deps IH]; intros m; cbn [check_deps]; [done|].
  assert (forall m1, evolves R m1 (fst (if bool_decide (is_Some (cm_yamlSmart m1 !! dep)) then (m1, Some (errorf ("smart routing dependency " +:+ dep +:+ " must be ordinary"))) else check_deps R m1 deps))) as S
    by (intros m1; destruct (bool_decide _); [done|apply IH]).
  destruct (cm_redisSrc m) as [s|] eqn:E; [|apply S]. pose proof (redisSmartRouting_evolves R m s dep E) as P. destruct (redisSmartRouting R m s dep) as [m1 [[sm cf] er]]. cbn [fst] in P.
  etransitivity; [exact P|]. destruct cf; [|apply S]. destruct sm, er; [done|done|done|apply IH].
Qed.

Lemma validate_evolves R m c : evolves R m (fst (validateSmartDependencies R m c)).
Proof.
  unfold validateSmartDependencies. destruct c as [c|]; [|done]. pose proof (check_deps_evolves R (smart_deps c) m) as P. by destruct (check_deps R m (smart_deps c)) as [m1 [e|]].
Qed.

Lemma GetSmartRouting_evolves R m k : evolves R m (fst (GetSmartRouting R m k)).
Proof.
  unfold GetSmartRouting. assert (forall m1, evolves R m1 (fst (match cm_yamlSmartErrors m1 !! k with Some e => (m1, inr e) | None => validateSmartDependencies R m1 (cm_yamlSmart m1 !! k) end))) as S
    by (intros m1; destruct (_ !! k); [done|apply validate_evolves]).
  destruct (cm_redisSrc m) as [s|] eqn:E; [|apply S]. pose proof (redisSmartRouting_evolves R m s k E) as P. destruct (redisSmartRouting R m s k) as [m1 [[sm cf] er]]. cbn [fst] in P.
  etransitivity; [exact P|]. destruct er; [done|]. destruct cf; [apply validate_evolves|apply S].
Qed.

Lemma HasModel_evolves R m k : evolves R m (fst (HasModel R m k)).
Proof. unfold HasModel. pose proof (GetSmartRouting_evolves R m k) as P. by destruct (GetSmartRouting R m k) as [m1 [[c|]|]]. Qed.

Lemma GetEndpoints_evolves R m k : evolves R m (fst (GetEndpoints decode R m k)).
Proof.
  unfold GetEndpoints. pose proof (GetSmartRouting_evolves R m k) as P. destruct (GetSmartRouting R m k) as [m1 [[c|]|]]; [done| |done]. cbn [fst] in P.
  destruct (cm_redisSrc m1) as [s|] eqn:E; [|done]. pose proof (prim_endpoints R s k) as Q. destruct (source_GetEndpoints decode R s k) as [s1 eps]. cbn [fst] in Q.
  etransitivity; [exact P|]. assert (evolves R m1 (m1 <| cm_redisSrc := Some s1 |>)) as T by (apply (evolves_source R m1 s); [done|by apply rtc_once]). by destruct eps as [[|e es]|].
Qed.

Lemma find_alias_evolves R f l : forall m, evolves R m (fst (find_alias R m f l)).
Proof.
  induction l as [|[k t] l IH]; intros m; cbn [find_alias]; [done|]. destruct (_ && _); [|apply IH]. pose proof (HasModel_evolves R m t) as P.
  destruct (HasModel R m t) as [m1 [|]]; [done|]. etransitivity; [exact P|apply IH].
Qed.

Lemma GetAlias_evolves R m k : evolves R m (fst (GetAlias R m k)).
Proof.
  unfold GetAlias. destruct (is_empty k); [done|]. match goal with |- context [find_alias R m ?f ?l] => pose proof (find_alias_evolves R f l m) as P; destruct (find_alias R m f l) as [m1 [t|]] end; [done|].
  etransitivity; [exact P|apply find_alias_evolves].
Qed.

Lemma known_step_evolves R l : forall acc, rtc (src_prim R) (fst acc) (fst (fold_left (known_step R) l acc)).
Proof.
  induction l as [|k l IH]; intros acc; [done|]. cbn [fold_left]. etransitivity; [|apply IH]. destruct acc as [s known]. unfold known_step. destruct (0 <? _); [|done].
  pose proof (prim_smart R s k) as P. destruct (source_GetSmartRouting R s k) as [s1 [[sm cf] [e|]]]; by apply rtc_once.
Qed.

Lemma drop_unknown_evolves R l : forall acc, evolves R (fst acc) (fst (fold_left (drop_unknown R) l acc)).
Proof.
  induction l as [|k l IH]; intros acc; [done|]. cbn [fold_left]. etransitivity; [|apply IH]. destruct acc as [m known]. unfold drop_unknown. pose proof (HasModel_evolves R m k) as P.
  by destruct (HasModel R m k).
Qed.

Lemma AllKnownModels_evolves R m : evolves R m (fst (AllKnownModels R m)).
Proof.
  unfold AllKnownModels. destruct (cm_redisSrc m) as [s|] eqn:E; [|done]. assert (rtc (src_prim R) s (fst (source_KnownModels R s))) as P.
  { unfold source_KnownModels. destruct (r_HKeys R _); [|done]. apply (known_step_evolves R _ (s, ∅)). }
  destruct (source_KnownModels R s) as [s1 names]. cbn [fst] in P. etransitivity; [apply (evolves_source R m s s1); [done|exact P]|].
  apply (drop_unknown_evolves R _ (_, _)).
Qed.

Lemma NormalizeModelCode_evolves R m k : evolves R m (fst (NormalizeModelCode R m k)).
Proof.
  unfold NormalizeModelCode. destruct (is_empty k); [done|]. pose proof (HasModel_evolves R m k) as P. destruct (HasModel R m k) as [m1 [|]]; [done|].
  etransitivity; [exact P|]. pose proof (AllKnownModels_evolves R m1) as Q. by destruct (AllKnownModels R m1).
Qed.
End evolution.

(** * Invariants *)

Record src_ok (s : RedisConfigSource) : Prop := mkSrcOk {
  so_ready k c : rs_smartCache s !! k = Some c -> smart_ready k c;
  so_versions : dom (rs_cache s) ⊆ dom (rs_lastVersions s)
}.

Record manager_ok (m : ConfigManager) : Prop := mkManagerOk {
  mo_yaml k c : cm_yamlSmart m !! k = Some c -> smart_ready k c;
  mo_source s : cm_redisSrc m = Some s -> src_ok s
}.

Section invariants.
Context (decode : string -> option (list ResolvedEndpoint)) (IsPrint : list ascii -> bool).

Lemma read_smart_ready R k data c : read_smart R k data = inl c -> smart_ready k c.
Proof.
  unfold read_smart. destruct (Unmarshal _ _ data) as [d|]; [|done]. destruct (Smart_Validate _ _) eqn:V; [done|]. destruct (source_validateDeps _ _); [done|].
  intros [= <-]. by apply ApplyDefaults_ready.
Qed.

Lemma lookup_delete_sub {A} (x : gmap string A) k k' a : delete k x !! k' = Some a -> x !! k' = Some a.
Proof. intros H. by apply lookup_delete_Some in H as [_ H]. Qed.

Lemma prim_ok R s s' : src_prim decode R s s' -> src_ok s -> src_ok s' /\ rs_managedSmart s ⊆ rs_managedSmart s'.
Proof.
  intros P [Rd Vs]. destruct P as [k|k|k].
  - unfold source_GetSmartRouting. destruct (exec _).
    3: by split; [split|].
    all: destruct (r_Get R _) as [data| |e]; cbn [fst]; [|split; [split; cbn; [intros ?? H; apply lookup_delete_sub in H; eauto|done]|done]|by split; [split|]].
    all: destruct (read_smart R k data) as [c|e] eqn:Rs; cbn [fst]; (split; [split; cbn|cbn; set_solver]).
    all: try (rewrite dom_delete_L, dom_insert_L; set_solver).
    all: intros k' c' H; first [apply lookup_delete_sub in H; by eauto|apply lookup_insert_Some in H as [[<- <-]|[_ H]]; [by eapply read_smart_ready|by eauto]].
  - split; [by split|cbn; set_solver].
  - unfold source_GetEndpoints. destruct (rs_cache s !! k); [by split; [split|]|]. destruct (fetchFromRedis _ _ k) as [[eps v]|]; [|by split; [split|]]. cbn [fst].
    split; [split; cbn; [done|rewrite !dom_insert_L; set_solver]|done].
Qed.

Lemma rtc_ok R s s' : rtc (src_prim decode R) s s' -> src_ok s -> src_ok s' /\ rs_managedSmart s ⊆ rs_managedSmart s'.
Proof.
  induction 1 as [s|s s1 s2 P _ IH]; intros O; [done|]. destruct (prim_ok R s s1 P O) as [O1 M1]. destruct (IH O1) as [O2 M2]. split; [done|set_solver].
Qed.

Lemma evolves_ok R m m' : evolves decode R m m' -> manager_ok m -> manager_ok m'.
Proof.
  intros [E H] [Y S]. rewrite E. split; cbn; [done|]. intros s' Es. rewrite Es in H. destruct (cm_redisSrc m) as [s|]; [|done]. by apply (rtc_ok R s s'); [|apply S].
Qed.

Lemma UpdateYAML_ok m cfg : manager_ok m -> manager_ok (UpdateYAMLConfig IsPrint m cfg).
Proof.
  intros [Y S]. split; cbn; [|done]. intros k c. destruct cfg as [cfg|]; cbn; [|by rewrite lookup_empty]. rewrite map_lookup_imap, lookup_fmap. destruct (gc_Models cfg !! k) as [mc|]; [|done].
  cbn. unfold yaml_smart. destruct (modelSmartRouting _ _ _ _) as [r|] eqn:E; [|done]. intros ->. by apply modelSmartRouting_ready in E as (_ & _ & ? & _).
Qed.

(** ** Calls *)

Inductive config_op := CSmart (k : string) | CHas (k : string) | CEndpoints (k : string) | CKnown | CAlias (k : string) | CNormalize (k : string) | CPoll | CClear | CReload (cfg : option GatewayConfig).

Definition config_step (m : ConfigManager) (o : Redis * config_op) : ConfigManager :=
  let R := fst o in
  match snd o with
  | CSmart k => fst (GetSmartRouting R m k)
  | CHas k => fst (HasModel R m k)
  | CEndpoints k => fst (GetEndpoints decode R m k)
  | CKnown => fst (AllKnownModels R m)
  | CAlias k => fst (GetAlias R m k)
  | CNormalize k => fst (NormalizeModelCode R m k)
  | CPoll => m <| cm_redisSrc := checkVersion R <$> cm_redisSrc m |>
  | CClear => m <| cm_redisSrc := ClearCache <$> cm_redisSrc m |>
  | CReload cfg => UpdateYAMLConfig IsPrint m cfg
  end.
Definition config_run (ops : list (Redis * config_op)) (m : ConfigManager) : ConfigManager := fold_left config_step ops m.

Lemma evict_ok versions l : forall s, src_ok s -> src_ok (fold_left (evict_if_changed versions) l s) /\ rs_managedSmart (fold_left (evict_if_changed versions) l s) = rs_managedSmart s.
Proof.
  induction l as [|[i k] l IH]; intros s O; [done|]. cbn [fold_left]. assert (src_ok (evict_if_changed versions s (i, k)) /\ rs_managedSmart (evict_if_changed versions s (i, k)) = rs_managedSmart s) as [O1 M1].
  { unfold evict_if_changed. destruct (_ =? _); [done|]. destruct O as [Rd Vs]. split; [split; cbn|done]; [intros ?? H; apply lookup_delete_sub in H; eauto|rewrite !dom_delete_L; set_solver]. }
  destruct (IH _ O1) as [O2 M2]. split; [done|congruence].
Qed.

Lemma checkVersion_ok R s : src_ok s -> src_ok (checkVersion R s) /\ rs_managedSmart (checkVersion R s) = rs_managedSmart s.
Proof. intros O. unfold checkVersion. destruct (KnownModelsList s); [done|]. destruct (r_HMGet R _ _); [|done]. by apply evict_ok. Qed.

Lemma config_step_ok m o : manager_ok m -> manager_ok (config_step m o) /\
  forall k, is_managed m k = true -> is_managed (config_step m o) k = true.
Proof.
  intros O. destruct o as [R o]. assert (forall m', evolves decode R m m' -> manager_ok m' /\ forall k, is_managed m k = true -> is_managed m' k = true) as Ev.
  { intros m' E. split; [by apply (evolves_ok R m)|]. intros k. destruct E as [_ E]. unfold is_managed. destruct (cm_redisSrc m) as [s|] eqn:Es; [|done].
    destruct (cm_redisSrc m') as [s'|]; [|done]. rewrite !bool_decide_eq_true. destruct (rtc_ok R s s' E (mo_source m O s Es)) as [_ M]. set_solver. }
  unfold config_step. cbn [fst snd].
  destruct o; [apply Ev, GetSmartRouting_evolves|apply Ev, HasModel_evolves|apply Ev, GetEndpoints_evolves|apply Ev, AllKnownModels_evolves|apply Ev, GetAlias_evolves|apply Ev, NormalizeModelCode_evolves| | |].
  - destruct O as [Y S]. split; [split; cbn; [done|]|unfold is_managed; cbn]; destruct (cm_redisSrc m) as [s|]; try done; cbn; destruct (checkVersion_ok R s (S s eq_refl)) as [O1 M1].
    + by intros ? [= <-].
    + intros k. by rewrite M1.
  - destruct O as [Y S]. split; [split; cbn; [done|]|unfold is_managed; cbn]; destruct (cm_redisSrc m) as [s|]; try done; cbn.
    intros ? [= <-]. split; cbn; [intros ??; by rewrite lookup_empty|set_solver].
  - split; [by apply UpdateYAML_ok|done].
Qed.

Lemma config_run_ok ops : forall m, manager_ok m -> manager_ok (config_run ops m) /\ forall k, is_managed m k = true -> is_managed (config_run ops m) k = true.
Proof.
  induction ops as [|o ops IH]; intros m O; [done|]. destruct (config_step_ok m o O) as [O1 M1]. destruct (IH _ O1) as [O2 M2]. split; [done|]. intros k H. by apply M2, M1.
Qed.

Lemma New_ok cfg src : src = None \/ src = Some NewRedisConfigSource -> manager_ok (NewConfigManager IsPrint cfg src).
Proof.
  intros Hs. apply UpdateYAML_ok. split; cbn; [intros ??; by rewrite lookup_empty|]. intros s E. destruct Hs as [-> | ->]; [done|]. injection E as <-.
  split; cbn; [intros ??; by rewrite lookup_empty|set_solver].
Qed.
End invariants.

(** * Smart models *)

Implicit Type decode : string -> option (list ResolvedEndpoint).

(** No command fails. *)
Definition healthy (R : Redis) : Prop :=
  (forall k e, r_Get R k <> Failed e) /\ (forall k f e, r_HGet R k f <> Failed e) /\ (forall ks e, r_Exists R ks <> Failed e).

Lemma healthy_exec R k : healthy R -> forall e, exec [result (r_Get R (RedisKeySmartRouting k)); result (r_HGet R RedisKeyConfigModelVersions k);
  result (r_Exists R [RedisKeyConfigEndpoints k])] <> Broken e.
Proof.
  intros (A & B & C) e. specialize (A (RedisKeySmartRouting k)). specialize (B RedisKeyConfigModelVersions k). specialize (C [RedisKeyConfigEndpoints k]).
  destruct (r_Get R _), (r_HGet R _ _), (r_Exists R _); cbn; try done; intros [= <-]; naive_solver.
Qed.

(** The model is an ordinary one: Redis has no smart document for it, and a static one only if it owns the model. *)
Definition ordinary (R : Redis) (m : ConfigManager) (dep : string) : Prop :=
  match cm_redisSrc m with
  | None => cm_yamlSmart m !! dep = None
  | Some _ => r_Get R (RedisKeySmartRouting dep) = Nil /\
      (cm_yamlSmart m !! dep = None \/ 0 < cmd_val 0 (r_Exists R [RedisKeyConfigEndpoints dep]) \/ is_managed m dep = true)
  end.

Lemma source_ordinary R s dep s' cf : healthy R -> source_GetSmartRouting R s dep = (s', (None, cf, None)) ->
  r_Get R (RedisKeySmartRouting dep) = Nil /\ cf = (0 <? cmd_val 0 (r_Exists R [RedisKeyConfigEndpoints dep])) || bool_decide (dep ∈ rs_managedSmart s).
Proof.
  intros Hh. unfold source_GetSmartRouting. pose proof (healthy_exec R dep Hh) as X. destruct (exec _); [| |by edestruct X].
  all: destruct (r_Get R (RedisKeySmartRouting dep)) as [data| |e]; [destruct (read_smart R dep data); done|by intros [= <- <-]|done].
Qed.

Lemma evolves_managed decode R m m' k : evolves decode R m m' -> manager_ok m -> is_managed m k = true -> is_managed m' k = true.
Proof.
  intros [_ E] O. unfold is_managed. destruct (cm_redisSrc m) as [s|] eqn:Es; [|done]. destruct (cm_redisSrc m') as [s'|]; [|done].
  rewrite !bool_decide_eq_true. destruct (rtc_ok decode R s s' E (mo_source m O s Es)) as [_ M]. set_solver.
Qed.

Lemma ordinary_evolves decode R m m' dep : evolves decode R m m' -> manager_ok m -> ordinary R m dep -> ordinary R m' dep.
Proof.
  intros Ev O. pose proof (evolves_managed decode R m m' dep Ev O) as M. destruct Ev as [E H]. unfold ordinary. rewrite E in M |- *. cbn in *.
  destruct (cm_redisSrc m), (cm_redisSrc m'); try done. intros [A [B|[B|B]]]; split; eauto.
Qed.

Lemma check_deps_ordinary decode R deps : forall m m', healthy R -> manager_ok m -> check_deps R m deps = (m', None) -> forall dep, dep ∈ deps -> ordinary R m' dep.
Proof.
  induction deps as [|d deps IH]; intros m m' Hh O; [set_solver|]. cbn [check_deps]. intros H dep Hd. rewrite elem_of_cons in Hd.
  assert (forall m1, manager_ok m1 -> check_deps R m1 deps = (m', None) -> ordinary R m1 d -> ordinary R m' dep) as Go.
  { intros m1 O1 H1 Od. destruct Hd as [->|Hd]; [|by apply (IH m1 m')]. pose proof (check_deps_evolves decode R deps m1) as Ev. rewrite H1 in Ev. by apply (ordinary_evolves decode R m1). }
  assert (forall m1, manager_ok m1 -> (cm_yamlSmart m1 !! d = None -> ordinary R m1 d) ->
    (if bool_decide (is_Some (cm_yamlSmart m1 !! d)) then (m1, Some (errorf ("smart routing dependency " +:+ d +:+ " must be ordinary"))) else check_deps R m1 deps) = (m', None) -> ordinary R m' dep) as St.
  { intros m1 O1 Od. destruct (bool_decide (is_Some (cm_yamlSmart m1 !! d))) eqn:B; [intros Q; discriminate Q|]. intros H1. apply (Go m1 O1 H1), Od. apply bool_decide_eq_false in B. destruct (cm_yamlSmart m1 !! d) as [x|]; [|done]. destruct B. by exists x. }
  destruct (cm_redisSrc m) as [s|] eqn:Es. 2: { apply (St m O); [|exact H]. intros Q. unfold ordinary. by rewrite Es. }
  pose proof (redisSmartRouting_evolves decode R m s d Es) as Ev. destruct (redisSmartRouting R m s d) as [m1 [[sm cf] er]] eqn:Rr. cbn [fst] in Ev.
  pose proof (evolves_ok decode R m m1 Ev O) as O1. unfold redisSmartRouting in Rr. pose proof (rtc_ok decode R s) as Mono.
  destruct (source_GetSmartRouting R s d) as [s1 [[sm' cf'] er']] eqn:Gs. injection Rr as <- <- <- <-.
  destruct cf'.
  - destruct sm' as [c|], er' as [e|]; try done. apply (Go _ O1 H). destruct (source_ordinary R s d s1 true Hh Gs) as [N C]. unfold ordinary. cbn [cm_redisSrc update]. cbn. split; [exact N|].
    symmetry in C. apply orb_true_iff in C as [C|C]; [apply Z.ltb_lt in C; by right; left|]. right. right. apply (evolves_managed decode R m _ d Ev O). unfold is_managed. by rewrite Es.
  - apply (St _ O1); [|exact H]. intros Q. assert (sm' = None /\ er' = None) as [-> ->].
    { revert Gs. unfold source_GetSmartRouting. pose proof (healthy_exec R d Hh) as X. destruct (exec _); [| |by edestruct X].
      all: destruct (r_Get R _) as [data| |e]; [destruct (read_smart R d data); done|intros Gq; by simplify_eq|done]. }
    destruct (source_ordinary R s d s1 false Hh Gs) as [N _]. unfold ordinary. cbn [cm_redisSrc update]. cbn. split; [exact N|]. by left.
Qed.

(** C32: the smart routing configuration a request gets is a consistent snapshot. Whatever was read, polled,
    cleared or reloaded before, a configuration that is returned is valid for its model and has every limit set, and (with Redis
    answering) its judge and its targets are ordinary models: Redis holds no smart document for them and a
    static one is only there for a model that Redis has taken over. *)
Theorem smart_snapshot_consistent (decode : string -> option (list ResolvedEndpoint)) (IsPrint : list ascii -> bool) (cfg : option GatewayConfig) (src : option RedisConfigSource)
  (ops : list (Redis * config_op)) (R : Redis) (model : string) (m' : ConfigManager) (c : SmartRoutingConfig)
  (Hsrc : src = None \/ src = Some NewRedisConfigSource)
  (Hget : GetSmartRouting R (config_run decode IsPrint ops (NewConfigManager IsPrint cfg src)) model = (m', inl (Some c))) :
  smart_ready model c /\ (healthy R -> forall dep, dep ∈ smart_deps c -> ordinary R m' dep).
Proof.
  set (m := config_run _ _ _ _) in Hget. assert (manager_ok m) as O by (apply config_run_ok, New_ok, Hsrc). clearbody m. clear Hsrc ops cfg src.
  assert (forall m1 sm, manager_ok m1 -> (forall d, sm = Some d -> smart_ready model d) -> validateSmartDependencies R m1 sm = (m', inl (Some c)) ->
    smart_ready model c /\ (healthy R -> forall dep, dep ∈ smart_deps c -> ordinary R m' dep)) as V.
  { intros m1 sm O1 Sr. unfold validateSmartDependencies. destruct sm as [d|]; [|done]. destruct (check_deps R m1 (smart_deps d)) as [m2 [e|]] eqn:Cd; [done|]. intros [= <- <-].
    split; [by apply Sr|]. intros Hh. by apply (check_deps_ordinary decode R _ m1). }
  unfold GetSmartRouting in Hget.
  assert (forall m1, manager_ok m1 -> (match cm_yamlSmartErrors m1 !! model with Some e => (m1, inr e) | None => validateSmartDependencies R m1 (cm_yamlSmart m1 !! model) end) = (m', inl (Some c)) ->
    smart_ready model c /\ (healthy R -> forall dep, dep ∈ smart_deps c -> ordinary R m' dep)) as St.
  { intros m1 O1. destruct (cm_yamlSmartErrors m1 !! model); [done|]. apply V; [done|]. intros d. by apply (mo_yaml m1). }
  destruct (cm_redisSrc m) as [s|] eqn:Es; [|by apply (St m)]. pose proof (redisSmartRouting_evolves decode R m s model Es) as Ev.
  destruct (redisSmartRouting R m s model) as [m1 [[sm cf] er]] eqn:Rr. cbn [fst] in Ev. pose proof (evolves_ok decode R m m1 Ev O) as O1.
  destruct er; [done|]. destruct cf; [|by apply (St m1)]. apply (V m1 sm O1); [|exact Hget]. intros d ->. unfold redisSmartRouting in Rr.
  assert (src_ok s) as Os by (by apply (mo_source m)). destruct (source_GetSmartRouting R s model) as [s1 [[sm' cf'] er']] eqn:Gs. injection Rr as _ -> _ _.
  revert Gs. unfold source_GetSmartRouting. destruct (exec _).
  3: { destruct (rs_smartCache s !! model) as [d'|] eqn:Sc; [|by destruct (rs_smartErrors s !! model)]. intros [= _ <- _ _]. by apply (so_ready s Os). }
  all: destruct (r_Get R _) as [data| |e]; [|done|done]; destruct (read_smart R model data) as [d'|] eqn:Rs; [|done]; intros [= _ <- _ _]; by eapply read_smart_ready.
Qed.

(** A smart model in Redis over ordinary static ones. *)
Definition demo_redis : Redis := mkRedis
  (fun k => if seqb k "aigw:config:smart_routing:smart" then
     Val (json_text "{'version':1,'judge_model':'judge','ranges':[{'min':0,'max':50,'model':'small'},{'min':50,'max':100,'model':'large'}]}") else Nil)
  (fun _ _ => Nil) (fun ks => Val 0) (fun _ ks => inl (map (fun _ => None) ks)) (fun _ => inl ["smart"]).

Lemma smart_snapshot_consistent_witness : exists m' c,
  GetSmartRouting demo_redis (config_run (fun _ => None) (fun _ => true) [(demo_redis, CKnown)] (NewConfigManager (fun _ => true) None (Some NewRedisConfigSource))) "smart" = (m', inl (Some c)) /\
  smart_ready "smart" c /\ ordinary demo_redis m' "large".
Proof.
  eexists _, _. split; [vm_compute; reflexivity|].
  match goal with |- smart_ready _ ?c /\ ordinary _ ?m' _ =>
    pose proof (smart_snapshot_consistent (fun _ => None) (fun _ => true) None (Some NewRedisConfigSource) [(demo_redis, CKnown)] demo_redis "smart" m' c (or_intror eq_refl) ltac:(vm_compute; reflexivity)) as [A B] end.
  split; [exact A|]. apply B; [|right; right; left].
  split; [|split]; cbn; intros; try discriminate. destruct (seqb k _); discriminate.
Defined.

(** * Models Redis has taken over *)

Lemma GetEndpoints_managed decode R m k m' eps : manager_ok m -> is_managed m k = true -> GetEndpoints decode R m k = (m', eps) ->
  eps = [] \/ exists s', cm_redisSrc m' = Some s' /\ rs_cache s' !! k = Some eps.
Proof.
  intros O Mg. unfold GetEndpoints. pose proof (GetSmartRouting_evolves decode R m k) as Ev. destruct (GetSmartRouting R m k) as [m1 [[c|]|]]; [by intros [= <- <-]; left| |by intros [= <- <-]; left].
  cbn [fst] in Ev. pose proof (evolves_managed decode R m m1 k Ev O Mg) as Mg1. destruct (cm_redisSrc m1) as [s|] eqn:Es; [|unfold is_managed in Mg1; by rewrite Es in Mg1].
  assert (bool_decide (k ∈ rs_managedSmart s) = true) as Ms by (unfold is_managed in Mg1; by rewrite Es in Mg1).
  unfold source_GetEndpoints. destruct (rs_cache s !! k) as [ce|] eqn:Ce.
  - destruct ce as [|e es]; intros [= <- <-].
    + left. unfold is_managed. cbn. by rewrite Ms.
    + right. exists s. done.
  - destruct (fetchFromRedis decode R k) as [[[|e es] v]|]; intros [= <- <-]; [left; unfold is_managed; cbn; by rewrite Ms| |left; unfold is_managed; cbn; by rewrite Ms].
    right. eexists. split; [done|]. cbn. apply lookup_insert_eq.
Qed.

Lemma GetSmartRouting_manages decode R m k data s : cm_redisSrc m = Some s -> healthy R -> manager_ok m -> r_Get R (RedisKeySmartRouting k) = Val data ->
  is_managed (fst (GetSmartRouting R m k)) k = true.
Proof.
  intros Es Hh O Hd. unfold GetSmartRouting. rewrite Es. assert (is_managed (fst (redisSmartRouting R m s k)) k = true) as Mg.
  { unfold redisSmartRouting, source_GetSmartRouting. pose proof (healthy_exec R k Hh) as X. destruct (exec _); [| |by edestruct X].
    all: rewrite Hd; destruct (read_smart R k data); cbn zeta; destruct (_ && _); unfold is_managed; cbn; apply bool_decide_eq_true; set_solver. }
  pose proof (redisSmartRouting_evolves decode R m s k Es) as Ev. destruct (redisSmartRouting R m s k) as [m1 [[sm cf] er]]. cbn [fst] in *.
  pose proof (evolves_ok decode R m m1 Ev O) as O1. destruct er; [done|]. destruct cf.
  - by apply (evolves_managed decode R m1); [apply validate_evolves|..].
  - destruct (cm_yamlSmartErrors m1 !! k); [done|]. by apply (evolves_managed decode R m1); [apply validate_evolves|..].
Qed.

(** a model that Redis has once defined as a smart model stays with Redis. Whatever happens afterwards - the document is
    deleted, the caches are cleared, Redis fails, the static configuration is reloaded - the endpoints of the model are those
    read from Redis or none: stale static endpoints never come back. *)
Theorem redis_takes_over (decode : string -> option (list ResolvedEndpoint)) (IsPrint : list ascii -> bool) (cfg : option GatewayConfig)
  (ops1 ops2 : list (Redis * config_op)) (R0 R : Redis) (k data : string) (m' : ConfigManager) (eps : list ResolvedEndpoint)
  (Hh : healthy R0) (Hdoc : r_Get R0 (RedisKeySmartRouting k) = Val data)
  (Hget : GetEndpoints decode R (config_run decode IsPrint (ops1 ++ (R0, CSmart k) :: ops2) (NewConfigManager IsPrint cfg (Some NewRedisConfigSource))) k = (m', eps)) :
  eps = [] \/ exists s', cm_redisSrc m' = Some s' /\ rs_cache s' !! k = Some eps.
Proof.
  assert (forall ops m, is_Some (cm_redisSrc m) -> is_Some (cm_redisSrc (config_run decode IsPrint ops m))) as Keep.
  { induction ops as [|o ops IH]; intros m Hs; [done|]. apply IH. destruct o as [Ro o]. assert (forall m1, evolves decode Ro m m1 -> is_Some (cm_redisSrc m1)) as Ev.
    { intros m1 [_ E]. destruct (cm_redisSrc m); [|by destruct Hs]. by destruct (cm_redisSrc m1). }
    unfold config_step. cbn [fst snd]. destruct o; [apply Ev, GetSmartRouting_evolves|apply Ev, HasModel_evolves|apply Ev, GetEndpoints_evolves|apply Ev, AllKnownModels_evolves|
      apply Ev, GetAlias_evolves|apply Ev, NormalizeModelCode_evolves|cbn; by destruct (cm_redisSrc m)..]. }
  unfold config_run in Hget. rewrite fold_left_app in Hget. cbn [fold_left] in Hget. fold (config_run decode IsPrint ops1 (NewConfigManager IsPrint cfg (Some NewRedisConfigSource))) in Hget.
  set (m := config_run decode IsPrint ops1 _) in Hget. assert (manager_ok m) as O by (apply config_run_ok, New_ok; by right).
  assert (is_Some (cm_redisSrc m)) as [s Es] by (by apply Keep). clearbody m.
  pose proof (GetSmartRouting_manages decode R0 m k data s Es Hh O Hdoc) as Mg. unfold config_step in Hget at 2. cbn [fst snd] in Hget.
  assert (manager_ok (fst (GetSmartRouting R0 m k))) as O1 by (apply (evolves_ok decode R0 m); [apply GetSmartRouting_evolves|done]).
  destruct (config_run_ok decode IsPrint ops2 _ O1) as [O2 M2]. by apply (GetEndpoints_managed decode R _ k m' eps O2 (M2 k Mg)).
Qed.

(** The static model "small" becomes a smart model of Redis, and is deleted there. *)
Definition demo_takeover : Redis := mkRedis
  (fun k => if seqb k "aigw:config:smart_routing:small" then
     Val (json_text "{'version':1,'judge_model':'judge','ranges':[{'min':0,'max':50,'model':'a'},{'min':50,'max':100,'model':'b'}]}") else Nil)
  (fun _ _ => Nil) (fun ks => Val 0) (fun _ ks => inl (map (fun _ => None) ks)) (fun _ => inl []).
Definition demo_empty : Redis := mkRedis (fun _ => Nil) (fun _ _ => Nil) (fun _ => Val 0) (fun _ ks => inl (map (fun _ => None) ks)) (fun _ => inl []).

Lemma redis_takes_over_witness :
  let start := NewConfigManager (fun _ => true) (Some demo_config) (Some NewRedisConfigSource) in
  map re_URL (snd (GetEndpoints (fun _ => None) demo_empty start "small")) = ["http://a"] /\
  exists m' eps, GetEndpoints (fun _ => None) demo_empty (config_run (fun _ => None) (fun _ => true) ([] ++ (demo_takeover, CSmart "small") :: [(demo_empty, CClear)]) start) "small" = (m', eps) /\
    (eps = [] \/ exists s', cm_redisSrc m' = Some s' /\ rs_cache s' !! "small" = Some eps).
Proof.
  intros start. split; [vm_compute; reflexivity|]. eexists _, _. split; [vm_compute; reflexivity|].
  match goal with |- ?e = [] \/ (exists s', cm_redisSrc ?m' = _ /\ _) =>
    refine (redis_takes_over (fun _ => None) (fun _ => true) (Some demo_config) [] [(demo_empty, CClear)] demo_takeover demo_empty "small" _ m' e _ eq_refl _); [|vm_compute; reflexivity] end.
  split; [|split]; cbn; intros; try discriminate. destruct (seqb k _); discriminate.
Defined.

(** * Polling *)

Lemma evict_spec (hget : string -> option string) l : forall s i versions, NoDup l -> (forall j k, l !! j = Some k -> versions !! (i + j)%nat = Some (hget k)) ->
  let s' := fold_left (evict_if_changed versions) (imap (fun j k => ((i + j)%nat, k)) l) s in
  forall k, (k ∉ l -> rs_cache s' !! k = rs_cache s !! k /\ rs_lastVersions s' !! k = rs_lastVersions s !! k) /\
    (k ∈ l -> forall eps, rs_cache s' !! k = Some eps -> rs_cache s !! k = Some eps /\ match hget k with Some v => int_value v | None => 0 end = default 0 (rs_lastVersions s !! k)).
Proof.
  induction l as [|x l IH]; intros s i versions Nd Hv s' k; [split; [done|set_solver]|]. apply NoDup_cons in Nd as [Nx Nd].
  subst s'. cbn [imap fold_left]. rewrite Nat.add_0_r.
  assert (imap ((fun j k => ((i + j)%nat, k)) ∘ S) l = imap (fun j k => ((S i + j)%nat, k)) l) as -> by (apply imap_ext; intros j y _; cbn; f_equal; lia).
  set (s1 := evict_if_changed versions s (i, x)).
  assert (forall j y, l !! j = Some y -> versions !! (S i + j)%nat = Some (hget y)) as Hv1 by (intros j y H; rewrite <- (Hv (S j) y H); f_equal; lia).
  destruct (IH s1 (S i) versions Nd Hv1 k) as [A B]. assert (remote_version versions i = match hget x with Some v => int_value v | None => 0 end) as Rv.
  { unfold remote_version. specialize (Hv 0%nat x eq_refl). rewrite Nat.add_0_r in Hv. rewrite Hv. by destruct (hget x). }
  assert (k <> x -> rs_cache s1 !! k = rs_cache s !! k /\ rs_lastVersions s1 !! k = rs_lastVersions s !! k) as Ne.
  { intros N. unfold s1, evict_if_changed. destruct (_ =? _); [done|]. cbn. by rewrite !lookup_delete_ne. }
  split.
  - intros N. apply not_elem_of_cons in N as [N1 N2]. destruct (A N2) as [-> ->]. by apply Ne.
  - intros I eps. apply elem_of_cons in I as [->|I].
    + destruct (A Nx) as [E1 _]. rewrite E1. unfold s1, evict_if_changed. destruct (Z.eqb_spec (remote_version versions i) (default 0 (rs_lastVersions s !! x))) as [Q|Q].
      * intros Hc. split; [done|]. by rewrite <- Rv.
      * cbn. by rewrite lookup_delete_eq.
    + intros Hc. destruct (Ne ltac:(intros ->; done)) as [E1 E2]. destruct (B I eps Hc) as [H1 H2]. by rewrite <- E1, <- E2.
Qed.

(** After a poll that Redis answers, what is cached was fetched under the version Redis has now. *)
Lemma poll_evicts_stale R s (hget : string -> option string) k eps : (forall ks, r_HMGet R RedisKeyConfigModelVersions ks = inl (map hget ks)) -> src_ok s ->
  rs_cache (checkVersion R s) !! k = Some eps ->
  rs_cache s !! k = Some eps /\ exists v, rs_lastVersions s !! k = Some v /\ v = match hget k with Some t => int_value t | None => 0 end.
Proof.
  intros Hh [_ Vs]. unfold checkVersion. assert (forall x, x ∈ KnownModelsList s <-> is_Some (rs_lastVersions s !! x)) as Kn.
  { intros x. unfold KnownModelsList. change (map fst) with (fmap (M := list) (@fst string Z)). rewrite list_elem_of_fmap. split.
    - intros ([a b] & -> & I). apply elem_of_map_to_list in I. eauto.
    - intros [v E]. exists (x, v). split; [done|]. by apply elem_of_map_to_list. }
  assert (rs_cache s !! k = Some eps -> exists v, rs_lastVersions s !! k = Some v) as Ve.
  { intros E. assert (k ∈ dom (rs_lastVersions s)) as D by (apply Vs; by eapply elem_of_dom_2). by apply elem_of_dom in D. }
  destruct (KnownModelsList s) as [|a l] eqn:Ek. { intros E. destruct (Ve E) as [v Ev]. assert (k ∈ []) as I by (apply Kn; eauto). set_solver. }
  rewrite Hh. rewrite <- Ek in *. intros E.
  assert (NoDup (KnownModelsList s)) as Nd by (unfold KnownModelsList; apply NoDup_fst_map_to_list).
  destruct (evict_spec hget (KnownModelsList s) s 0 (map hget (KnownModelsList s)) Nd ltac:(intros j x H; cbn; rewrite list_lookup_fmap, H; done) k) as [A B].
  change (imap (fun j k => ((0 + j)%nat, k)) (KnownModelsList s)) with (imap pair (KnownModelsList s)) in A, B.
  destruct (decide (k ∈ KnownModelsList s)) as [I|N].
  - destruct (B I eps E) as [H1 H2]. split; [done|]. destruct (Ve H1) as [v Ev]. exists v. split; [done|]. rewrite Ev in H2. by rewrite H2.
  - destruct (A N) as [E1 _]. rewrite E1 in E. destruct N. by apply Kn, Ve.
Qed.
