(* ===== verification/Poller.v ===== *)
(** pkg/config/http_poller.go and the provider it feeds (http_provider.go): the documents of the
    admin console, fetched with conditional requests and applied once per version.

    A request is an argument with its answer; the decoders of the three documents are
    arguments, the validation of the configuration is the one of Config.v. *)

From Stdlib Require Import Ascii.
From S2P Require Import Prelude GoFloat GoStrings GoTime GoJson Types Context Config PolicyService ApiKeys.

(** * State *)

Record HTTPGatewayProvider := mkHttpProvider {
  hp_adminURL : string; hp_syncToken : string; hp_cachedConfig : option GatewayConfig; hp_cachedPolicies : list HTTPPolicyItem;
  hp_cachedApiKeys : gmap string HTTPApiKeyItem
}.
#[global] Instance eta_http_provider : Eta HTTPGatewayProvider := fun p =>
  mkHttpProvider (hp_adminURL p) (hp_syncToken p) (hp_cachedConfig p) (hp_cachedPolicies p) (hp_cachedApiKeys p).

Definition NewHTTPGatewayProvider (adminURL syncToken : string) : HTTPGatewayProvider := mkHttpProvider adminURL syncToken None [] ∅.

Definition provider_UpdateConfig (p : HTTPGatewayProvider) (cfg : GatewayConfig) : HTTPGatewayProvider := p <| hp_cachedConfig := Some (cloneGatewayConfig cfg) |>.
Definition provider_UpdatePolicies (p : HTTPGatewayProvider) (l : list HTTPPolicyItem) : HTTPGatewayProvider := p <| hp_cachedPolicies := l |>.
Definition provider_UpdateApiKeys (p : HTTPGatewayProvider) (l : list HTTPApiKeyItem) : HTTPGatewayProvider := p <| hp_cachedApiKeys := UpdateApiKeys l |>.

Definition provider_GetConfig (p : HTTPGatewayProvider) : GatewayConfig + goerror :=
  match hp_cachedConfig p with Some c => inl (cloneGatewayConfig c) | None => inr (errorf "gateway config not loaded yet") end.
Definition provider_GetPolicies (p : HTTPGatewayProvider) : list HTTPPolicyItem + goerror := inl (hp_cachedPolicies p).

Record HTTPConfigPoller := mkPoller { po_interval : Duration; po_configETag : string; po_policiesETag : string; po_apiKeysETag : string }.
#[global] Instance eta_poller : Eta HTTPConfigPoller := fun p =>
  mkPoller (po_interval p) (po_configETag p) (po_policiesETag p) (po_apiKeysETag p).

Definition NewHTTPConfigPoller (pollInterval : Duration) : HTTPConfigPoller :=
  mkPoller (if pollInterval <=? 0 then 10 * Second else pollInterval) "" "" "".

(** A request: its URL and its headers. *)
Definition request : Type := string * list (string * string).
Definition poller_newRequest (p : HTTPGatewayProvider) (path etag : string) : request :=
  (hp_adminURL p +:+ path, ("X-Sync-Token", hp_syncToken p) :: (if is_empty etag then [] else [("If-None-Match", etag)])).

Record poll_answer := mkAnswer { an_StatusCode : Z; an_ETag : string; an_Body : string }.

(** * Polling *)

Section polls.
Context (IsPrint : list ascii -> bool) {W : Type} (Do : W -> request -> W * (poll_answer + goerror)).

(** The three methods differ in the path, the document and the callback. A URL that cannot be
    parsed is an error of [Do]. *)
Definition poll_document {A} (path : string) (decode : string -> A + goerror) (check : A -> option goerror) (store : HTTPGatewayProvider -> A -> HTTPGatewayProvider)
  (onUpdate : W -> A -> W * option goerror) (w : W) (p : HTTPGatewayProvider) (etag : string) : W * HTTPGatewayProvider * string * option goerror :=
  match Do w (poller_newRequest p path etag) with
  | (w, inr e) => (w, p, etag, Some e)
  | (w, inl resp) =>
      if an_StatusCode resp =? 304 then (w, p, etag, None)
      else if negb (an_StatusCode resp =? 200) then (w, p, etag, Some (errorf ("unexpected status: " +:+ Itoa (an_StatusCode resp))))
      else match decode (an_Body resp) with
           | inr e => (w, p, etag, Some e)
           | inl doc =>
               match check doc with
               | Some e => (w, p, etag, Some e)
               | None =>
                   let p := store p doc in
                   match onUpdate w doc with
                   | (w, Some e) => (w, p, etag, Some e)
                   | (w, None) => (w, p, an_ETag resp, None)
                   end
               end
           end
  end.

Context (decode_config : string -> GatewayConfig + goerror) (decode_policies : string -> list HTTPPolicyItem + goerror)
  (decode_keys : string -> list HTTPApiKeyItem + goerror).
Context (onConfigUpdate : W -> GatewayConfig -> W * option goerror) (onPoliciesUpdate onApiKeysUpdate : W -> W * option goerror).

Definition config_path : string := "/api/v1/gateway/config".
Definition policies_path : string := "/api/v1/gateway/policies".
Definition apikeys_path : string := "/api/v1/gateway/apikeys".

Definition poll_state : Type := W * HTTPGatewayProvider * HTTPConfigPoller.

Definition pollConfig (s : poll_state) : poll_state * option goerror :=
  let '(w, p, c) := s in
  let '(w, p, etag, err) := poll_document config_path decode_config (Config_Validate IsPrint) provider_UpdateConfig onConfigUpdate w p (po_configETag c) in
  ((w, p, c <| po_configETag := etag |>), err).

Definition pollPolicies (s : poll_state) : poll_state * option goerror :=
  let '(w, p, c) := s in
  let '(w, p, etag, err) := poll_document policies_path decode_policies (fun _ => None) provider_UpdatePolicies (fun w _ => onPoliciesUpdate w) w p (po_policiesETag c) in
  ((w, p, c <| po_policiesETag := etag |>), err).

Definition pollApiKeys (s : poll_state) : poll_state * option goerror :=
  let '(w, p, c) := s in
  let '(w, p, etag, err) := poll_document apikeys_path decode_keys (fun _ => None) provider_UpdateApiKeys (fun w _ => onApiKeysUpdate w) w p (po_apiKeysETag c) in
  ((w, p, c <| po_apiKeysETag := etag |>), err).

(** The errors are logged: one document does not hold up the others. *)
Definition pollAll (s : poll_state) : poll_state := fst (pollApiKeys (fst (pollPolicies (fst (pollConfig s))))).

(** [Start]: one poll at once and one per tick, until the context ends. *)
Definition poller_Start (s : poll_state) (ticks : nat) : poll_state := Nat.iter ticks pollAll (pollAll s).
End polls.

(** * One version, applied once *)

Section convergence.
Context (IsPrint : list ascii -> bool) {W : Type} (Do : W -> request -> W * (poll_answer + goerror)).

(** A console that answers conditional requests: nothing for the version the client has, the
    document otherwise. *)
Definition conditional (etag body sent : string) : poll_answer :=
  if negb (is_empty sent) && seqb sent etag then mkAnswer 304 etag "" else mkAnswer 200 etag body.

Definition serves (p : HTTPGatewayProvider) (path etag body : string) : Prop :=
  forall w sent, Do w (poller_newRequest p path sent) = (w, inl (conditional etag body sent)).

Context {A : Type} (path : string) (decode : string -> A + goerror) (check : A -> option goerror) (store : HTTPGatewayProvider -> A -> HTTPGatewayProvider).
Notation poll := (poll_document Do path decode check store).

(** A fresh version that decodes, passes the check and is taken by the callback is stored and its
    tag kept. *)
Lemma poll_fresh onUpdate w w' p etag body sent doc : serves p path etag body -> sent <> etag \/ sent = "" -> decode body = inl doc -> check doc = None ->
  onUpdate w doc = (w', None) -> poll onUpdate w p sent = (w', store p doc, etag, None).
Proof.
  intros S N D C U. unfold poll_document. rewrite S. unfold conditional.
  assert (negb (is_empty sent) && seqb sent etag = false) as -> by (destruct N as [N| ->]; [rewrite (proj2 (seqb_neq sent etag) N), andb_false_r|]; done).
  cbn. by rewrite D, C, U.
Qed.

Lemma poll_known onUpdate w p etag body : serves p path etag body -> etag <> "" -> poll onUpdate w p etag = (w, p, etag, None).
Proof.
  intros S N. unfold poll_document. rewrite S. unfold conditional. rewrite seqb_refl. apply seqb_neq in N. unfold is_empty. by rewrite N.
Qed.

(** A callback that fails leaves the tag: the document, which the provider already serves, is
    fetched again. *)
Lemma poll_callback_failed onUpdate w w' p etag body sent doc e : serves p path etag body -> sent <> etag \/ sent = "" -> decode body = inl doc -> check doc = None ->
  onUpdate w doc = (w', Some e) -> poll onUpdate w p sent = (w', store p doc, sent, Some e).
Proof.
  intros S N D C U. unfold poll_document. rewrite S. unfold conditional.
  assert (negb (is_empty sent) && seqb sent etag = false) as -> by (destruct N as [N| ->]; [rewrite (proj2 (seqb_neq sent etag) N), andb_false_r|]; done).
  cbn. by rewrite D, C, U.
Qed.

(** Whatever fails before the document is accepted changes nothing. *)
Lemma poll_rejected onUpdate w p sent :
  (forall w1 resp doc, Do w (poller_newRequest p path sent) = (w1, inl resp) -> an_StatusCode resp = 200 -> decode (an_Body resp) = inl doc -> check doc <> None) ->
  exists w1 err, poll onUpdate w p sent = (w1, p, sent, err).
Proof.
  intros H. unfold poll_document. destruct (Do w _) as [w1 [resp|e]] eqn:E; [|by eauto]. destruct (an_StatusCode resp =? 304); [by eauto|].
  destruct (Z.eqb_spec (an_StatusCode resp) 200) as [E2|]; [|by eauto]. cbn [negb]. destruct (decode (an_Body resp)) as [doc|e] eqn:Ed; [|by eauto].
  specialize (H w1 resp doc eq_refl E2 Ed). destruct (check doc); [by eauto|done].
Qed.
End convergence.

Section run.
Context (IsPrint : list ascii -> bool) {W : Type} (Do : W -> request -> W * (poll_answer + goerror)).
Context (decode_config : string -> GatewayConfig + goerror) (decode_policies : string -> list HTTPPolicyItem + goerror)
  (decode_keys : string -> list HTTPApiKeyItem + goerror).
Context (onConfigUpdate : W -> GatewayConfig -> W * option goerror) (onPoliciesUpdate onApiKeysUpdate : W -> W * option goerror).
Notation pollAll := (pollAll IsPrint Do decode_config decode_policies decode_keys onConfigUpdate onPoliciesUpdate onApiKeysUpdate).
Notation poller_Start := (poller_Start IsPrint Do decode_config decode_policies decode_keys onConfigUpdate onPoliciesUpdate onApiKeysUpdate).

(** C33: While the admin console serves one version of each document under a non-empty tag
    (and answers 304 to a request that carries the tag), all three valid, and the callbacks succeed: the first poll of a fresh poller stores the three documents in the
    provider and calls each callback once, in the order configuration, policies, keys; every
    later poll leaves the provider, the poller and everything the callbacks act on as they
    are. *)
Theorem polled_version_applied_once (url token : string) (every : Duration) (w w1 w2 w3 : W) (ticks : nat)
  (ce cb pe pb ke kb : string) (cfg : GatewayConfig) (ps : list HTTPPolicyItem) (ks : list HTTPApiKeyItem)
  (Hserver : forall p, hp_adminURL p = url -> hp_syncToken p = token ->
    serves Do p config_path ce cb /\ serves Do p policies_path pe pb /\ serves Do p apikeys_path ke kb)
  (Htags : ce <> "" /\ pe <> "" /\ ke <> "")
  (Hdocs : decode_config cb = inl cfg /\ Config_Validate IsPrint cfg = None /\ decode_policies pb = inl ps /\ decode_keys kb = inl ks)
  (Hcalls : onConfigUpdate w cfg = (w1, None) /\ onPoliciesUpdate w1 = (w2, None) /\ onApiKeysUpdate w2 = (w3, None)) :
  poller_Start (w, NewHTTPGatewayProvider url token, NewHTTPConfigPoller every) ticks =
    (w3, mkHttpProvider url token (Some (cloneGatewayConfig cfg)) ps (UpdateApiKeys ks),
     mkPoller (po_interval (NewHTTPConfigPoller every)) ce pe ke).
Proof.
  destruct Htags as (T1 & T2 & T3), Hdocs as (D1 & V & D2 & D3), Hcalls as (U1 & U2 & U3).
  assert (pollAll (w, NewHTTPGatewayProvider url token, NewHTTPConfigPoller every) =
    (w3, mkHttpProvider url token (Some (cloneGatewayConfig cfg)) ps (UpdateApiKeys ks), mkPoller (po_interval (NewHTTPConfigPoller every)) ce pe ke)) as First.
  { unfold Poller.pollAll, pollConfig, pollPolicies, pollApiKeys. cbn [po_configETag NewHTTPConfigPoller].
    destruct (Hserver (NewHTTPGatewayProvider url token) eq_refl eq_refl) as (S1 & _ & _).
    rewrite (poll_fresh _ _ _ _ _ _ _ _ _ _ _ _ _ S1 (or_intror eq_refl) D1 V U1). cbn [fst]. cbn [po_policiesETag update].
    set (p1 := provider_UpdateConfig _ _). destruct (Hserver p1 eq_refl eq_refl) as (_ & S2 & _).
    rewrite (poll_fresh _ _ _ (fun _ => None) _ (fun w _ => onPoliciesUpdate w) w1 w2 p1 pe pb "" ps S2 (or_intror eq_refl) D2 eq_refl U2). cbn [fst].
    set (p2 := provider_UpdatePolicies _ _). destruct (Hserver p2 eq_refl eq_refl) as (_ & _ & S3).
    by rewrite (poll_fresh _ _ _ (fun _ => None) _ (fun w _ => onApiKeysUpdate w) w2 w3 p2 ke kb "" ks S3 (or_intror eq_refl) D3 eq_refl U3). }
  unfold Poller.poller_Start. rewrite First. set (p := mkHttpProvider _ _ _ _ _). destruct (Hserver p eq_refl eq_refl) as (S1 & S2 & S3).
  assert (forall c, po_configETag c = ce -> po_policiesETag c = pe -> po_apiKeysETag c = ke -> pollAll (w3, p, c) = (w3, p, c)) as Again.
  { intros [i a b d] E1 E2 E3. cbn in E1, E2, E3. subst a b d. unfold Poller.pollAll, pollConfig, pollPolicies, pollApiKeys. cbn [po_configETag].
    rewrite (poll_known _ _ _ _ _ _ _ _ _ _ S1 T1). cbn. rewrite (poll_known _ _ _ _ _ _ _ _ _ _ S2 T2). cbn.
    by rewrite (poll_known _ _ _ _ _ _ _ _ _ _ S3 T3). }
  induction ticks as [|n IH]; [done|]. change (Nat.iter (S n) ?f ?x) with (f (Nat.iter n f x)). rewrite IH. by apply Again.
Qed.
End run.

(** A console with one version [v1] of every document; the world counts the callbacks. *)
Definition demo_Do (n : nat) (r : request) : nat * (poll_answer + goerror) :=
  (n, inl (conditional "v1" "{}" (match snd r with [_; (_, etag)] => etag | _ => "" end))).
Definition demo_empty : GatewayConfig := mkGatewayConfig ∅ ∅ ∅ None.

Lemma demo_serves p path : serves demo_Do p path "v1" "{}".
Proof. intros n sent. unfold demo_Do, poller_newRequest. cbn [snd]. destruct (is_empty sent) eqn:E; [apply seqb_eq in E as ->|]; done. Qed.

Lemma polled_version_applied_once_witness :
  fst (fst (poller_Start (fun _ => true) demo_Do (fun _ => inl demo_empty) (fun _ => inl []) (fun _ => inl []) (fun n _ => (S n, None)) (fun n => (S n, None)) (fun n => (S n, None))
    (0%nat, NewHTTPGatewayProvider "u" "t", NewHTTPConfigPoller 0) 7)) = 3%nat.
Proof.
  rewrite (polled_version_applied_once (fun _ => true) demo_Do (fun _ => inl demo_empty) (fun _ => inl []) (fun _ => inl []) (fun n _ => (S n, None)) (fun n => (S n, None)) (fun n => (S n, None))
    "u" "t" 0 0%nat 1%nat 2%nat 3%nat 7%nat "v1" "{}" "v1" "{}" "v1" "{}" demo_empty [] []); [reflexivity| | |by repeat split|by repeat split].
  - intros p _ _. split; [apply demo_serves|split; apply demo_serves].
  - by repeat split.
Defined.
