(* ===== verification/Models.v ===== *)
(** The models a caller may use and the names they go by: internal/service/model.go and alias.go,
    over the configuration of ConfigManager.v. *)

From Stdlib Require Import Ascii.
From S2P Require Import Prelude GoFloat GoStrings GoTime GoJson GoPrint Matcher Policy Types Context Http Sse Translate SmartRequest Cache ApiKeys Config ConfigManager.

(** The set commands of Redis the services use. *)
Record RedisSets := mkSets { r_SIsMember : string -> string -> cmd bool; r_SMembers : string -> list string + goerror }.

(** * model.go *)

Record ModelService := mkModelService {
  ms_rdb : bool; (** there is a Redis client *)
  ms_fallbackModels : gset string; ms_configManager : option ConfigManager; ms_redisSource : option RedisConfigSource
}.
#[global] Instance eta_model_service : Eta ModelService := fun s => mkModelService (ms_rdb s) (ms_fallbackModels s) (ms_configManager s) (ms_redisSource s).

Definition UpdateFallbackModels (s : ModelService) (models : gset string) : ModelService := s <| ms_fallbackModels := models |>.
Definition SetConfigManager (s : ModelService) (m : option ConfigManager) : ModelService := s <| ms_configManager := m |>.

Definition tenant_models_key (tenant : string) : string := "aigw:tenant:" +:+ tenant +:+ ":models".

Section models.
Context (R : Redis) (S : RedisSets).

Definition endpoints_exist (model : string) : bool := 0 <? cmd_val 0 (r_Exists R [RedisKeyConfigEndpoints model]).

(** The name behind an alias, and whether the local configuration has the model. *)
Definition local_model (s : ModelService) (model : string) : ModelService * (string * bool + goerror) :=
  match ms_configManager s with
  | Some m =>
      let '(m, target) := GetAlias R m model in
      let model := default model target in
      match GetSmartRouting R m model with
      | (m, inr e) => (s <| ms_configManager := Some m |>, inr e)
      | (m, inl _) => let '(m, has) := HasModel R m model in (s <| ms_configManager := Some m |>, inl (model, has))
      end
  | None =>
      let known := bool_decide (model ∈ ms_fallbackModels s) in
      match ms_redisSource s with
      | None => (s, inl (model, known))
      | Some src =>
          let '(src, (smart, configured, err)) := source_GetSmartRouting R src model in
          let s := s <| ms_redisSource := Some src |> in
          match err with
          | Some e => (s, inr e)
          | None => (s, inl (model, if configured : bool then bool_decide (is_Some smart) else known))
          end
      end
  end.

(** The models of a tenant. *)
Definition tenant_allows (tenant model : string) (isFallback : bool) : bool :=
  let key := tenant_models_key tenant in
  let existsCmd := r_Exists R [key] in
  let isMemberCmd := r_SIsMember S key model in
  match exec [result existsCmd; result isMemberCmd] with
  | Broken _ => isFallback
  | _ =>
      if cmd_val 0 existsCmd =? 0 then isFallback || endpoints_exist model
      else
        let isMember := cmd_val false isMemberCmd in
        if negb isMember || isFallback then isMember else endpoints_exist model
  end.

Definition ValidateModel (s : ModelService) (model tenant userID : string) : ModelService * (bool + goerror) :=
  match local_model s model with
  | (s, inr e) => (s, inr e)
  | (s, inl (model, isFallback)) =>
      (s, inl (if negb (is_empty tenant) then if ms_rdb s then tenant_allows tenant model isFallback else isFallback
               else isFallback || ms_rdb s && endpoints_exist model))
  end.

Definition ListUserModels (s : ModelService) (userID : string) : list string + goerror :=
  if is_empty userID then inr (errorf "userID is empty")
  else if negb (ms_rdb s) then inl []
  else match r_SMembers S ("aigw:user:" +:+ userID +:+ ":models") with inl l => inl l | inr _ => inl [] end.

Definition ListTenantModels (s : ModelService) (tenant : string) : list string + goerror :=
  if is_empty tenant then inr (errorf "tenant is empty")
  else if negb (ms_rdb s) then inl []
  else match r_Exists R [tenant_models_key tenant] with
       | Failed _ | Nil => inl []
       | Val n => if n =? 0 then inl ["*"] else match r_SMembers S (tenant_models_key tenant) with inl l => inl l | inr _ => inl [] end
       end.
End models.

(** * alias.go *)

Section alias.
Context {L : Type -> Type} `{!ExpirableLRU L}.

Record AliasService := mkAliasService { as_rdb : bool; as_configMgr : option ConfigManager; as_cache : ExpirableCache L string }.
#[local] Instance eta_alias : Eta AliasService := fun s => mkAliasService (as_rdb s) (as_configMgr s) (as_cache s).

Definition NewAliasService (rdb : bool) (m : option ConfigManager) : AliasService := mkAliasService rdb m (NewExpirableCache 5000 (30 * Second) 2000 (10 * Second)).
Definition Alias_PurgeCache (s : AliasService) : AliasService := s <| as_cache := cache_Purge (as_cache s) |>.

Context (R : Redis) (S : RedisSets).

Definition RedisKeyAlias (alias : string) : string := "aigw:config:alias:" +:+ alias.
Definition RedisKeyModelAliases (model : string) : string := "aigw:config:model_aliases:" +:+ model.

(** The configuration manager's answer: an alias, or another spelling of a known model. *)
Definition local_alias (m : option ConfigManager) (model : string) : option ConfigManager * option string :=
  match m with
  | None => (None, None)
  | Some m =>
      match GetAlias R m model with
      | (m, Some t) => (Some m, Some t)
      | (m, None) =>
          let '(m, n) := NormalizeModelCode R m model in
          (Some m, match n with Some n => if seqb n model then None else Some n | None => None end)
      end
  end.

Definition Alias_Resolve (s : AliasService) (now : Time) (model : string) : AliasService * (string + goerror) :=
  if is_empty model then (s, inl model)
  else
    let '(c, hit) := cache_Get (as_cache s) now model in
    let s := s <| as_cache := c |> in
    let found s code := (s <| as_cache := cache_AddValid (as_cache s) now model code |>, inl code) in
    let search s :=
      let '(m, res) := local_alias (as_configMgr s) model in
      let s := s <| as_configMgr := m |> in
      match res with
      | Some t => found s t
      | None => (s <| as_cache := cache_AddInvalid (as_cache s) now model "not an alias" |>, inl model)
      end in
    match hit with
    | Some (inr msg) => (s, inl (if is_empty msg then "" else model))
    | Some (inl code) => (s, inl code)
    | None =>
        if as_rdb s then
          match r_Get R (RedisKeyAlias model) with
          | Val code => if is_empty code then search s else found s code
          | Nil => search s
          | Failed e => (s, inr e)
          end
        else search s
    end.

Definition GetAliases (s : AliasService) (modelCode : string) : list string + goerror :=
  if is_empty modelCode then inl []
  else
    let local := match as_configMgr s with Some m => GetAliasesForModel m modelCode | None => [] end in
    if as_rdb s then match r_SMembers S (RedisKeyModelAliases modelCode) with inl l => inl l | inr e => inr e end else inl local.
End alias.
Arguments AliasService L : clear implicits.

(** * Access to models *)

(** who may use a model. With Redis answering, a model is accepted exactly when it exists - the configuration has it
    under the name behind the alias, or Redis has endpoints for it - and the tenant of the caller, if
    there is one with a set of models, has it in its set; without Redis, or when it fails, the set of the tenant cannot
    be consulted and the local configuration decides alone. *)
Theorem model_access (R : Redis) (S : RedisSets) (s s1 : ModelService) (model name tenant userID : string) (known : bool)
  (Hlocal : local_model R s model = (s1, inl (name, known))) :
  exists b, ValidateModel R S s model tenant userID = (s1, inl b) /\
    (ms_rdb s1 = true -> healthy R -> (forall k x e, r_SIsMember S k x <> Failed e) ->
       b = true <-> (known = true \/ endpoints_exist R name = true) /\
         (tenant = "" \/ cmd_val 0 (r_Exists R [tenant_models_key tenant]) = 0 \/ cmd_val false (r_SIsMember S (tenant_models_key tenant) name) = true)) /\
    (ms_rdb s1 = false -> b = known) /\
    (ms_rdb s1 = true -> tenant <> "" -> forall e, r_Exists R [tenant_models_key tenant] = Failed e -> b = known).
Proof.
  unfold ValidateModel. rewrite Hlocal. eexists. split; [done|]. unfold is_empty, seqb. split_and!.
  - intros -> (H1 & H2 & H3) Hm. case_bool_decide as E; cbn [negb].
    + rewrite orb_true_iff. cbn [andb]. naive_solver.
    + unfold tenant_allows. specialize (H3 [tenant_models_key tenant]). specialize (Hm (tenant_models_key tenant) name).
      assert (forall e, exec [result (r_Exists R [tenant_models_key tenant]); result (r_SIsMember S (tenant_models_key tenant) name)] <> Broken e) as X.
      { intros e. destruct (r_Exists R _), (r_SIsMember S _ _); cbn; try done; intros [= <-]; naive_solver. }
      destruct (exec _); [| |by edestruct X].
      all: destruct (Z.eqb_spec (cmd_val 0 (r_Exists R [tenant_models_key tenant])) 0) as [Z0|Z0]; [rewrite orb_true_iff; naive_solver|].
      all: destruct (cmd_val false _) eqn:M; cbn [negb orb]; [|naive_solver]; destruct known; naive_solver.
  - intros ->. case_bool_decide; cbn; [by rewrite orb_false_r|done].
  - intros -> Ht e Fe. rewrite bool_decide_eq_false_2 by done. unfold tenant_allows. rewrite Fe. done.
Qed.

Definition demo_sets : RedisSets := mkSets (fun _ x => Val (seqb x "small")) (fun _ => inl ["small"]).
Definition demo_tenants : Redis := mkRedis (fun _ => Nil) (fun _ _ => Nil) (fun ks => Val (if bool_decide (ks = ["aigw:tenant:t:models"]) then 1 else 0)) (fun _ ks => inl (map (fun _ => None) ks)) (fun _ => inl []).
Definition demo_models : ModelService := mkModelService true ∅ (Some (NewConfigManager (fun _ => true) (Some demo_config) (Some NewRedisConfigSource))) None.

Lemma model_access_witness :
  snd (ValidateModel demo_tenants demo_sets demo_models "small" "t" "") = inl true /\ snd (ValidateModel demo_tenants demo_sets demo_models "large" "t" "") = inl false /\
  exists b, ValidateModel demo_tenants demo_sets demo_models "large" "t" "" = (fst (local_model demo_tenants demo_models "large"), inl b) /\
    (b = true <-> (true = true \/ endpoints_exist demo_tenants "large" = true) /\
      ("t" = "" \/ cmd_val 0 (r_Exists demo_tenants [tenant_models_key "t"]) = 0 \/ cmd_val false (r_SIsMember demo_sets (tenant_models_key "t") "large") = true)).
Proof.
  split; [vm_compute; reflexivity|]. split; [vm_compute; reflexivity|].
  destruct (model_access demo_tenants demo_sets demo_models (fst (local_model demo_tenants demo_models "large")) "large" "large" "t" "" true ltac:(vm_compute; reflexivity)) as (b & E & A & _).
  exists b. split; [exact E|]. apply A; [vm_compute; reflexivity|split; [|split]; cbn; intros; discriminate|cbn; intros; discriminate].
Defined.

(** ** Aliases *)

(** A name resolves to a name: the empty one only to itself where the cache holds no empty answer. *)
Lemma find_alias_nonempty R f l : forall m m' t, find_alias R m f l = (m', Some t) -> t <> "".
Proof.
  induction l as [|[k x] l IH]; intros m m' t; cbn [find_alias]; [done|]. destruct (_ && _) eqn:E; [|apply IH]. apply andb_true_iff in E as [_ E].
  destruct (HasModel R m x) as [m1 [|]]; [|apply IH]. intros [= <- <-] ->. done.
Qed.

Lemma GetAlias_nonempty R m a m' t : GetAlias R m a = (m', Some t) -> t <> "".
Proof.
  unfold GetAlias. destruct (is_empty a); [done|]. match goal with |- context [find_alias R m ?f ?l] => destruct (find_alias R m f l) as [m1 [x|]] eqn:E end.
  - intros [= <- <-]. by apply find_alias_nonempty in E.
  - apply find_alias_nonempty.
Qed.
