(* ===== verification/Discovery.v ===== *)
(** Service discovery (pkg/core/discovery_static.go, discovery_dynamic.go,
    discovery_composite.go, discovery_assembling.go), the provider registry
    (provider_registry.go) and the engine's background tasks (engine_lifecycle.go).

    Endpoints are shared objects: static discovery hands out the pointers it stores, health
    checks write their [Healthy] field and the assembling decorator their [ProviderImpl].
    A store of cells makes the sharing explicit.  Provider instances are values of a
    type [P]. *)

From Stdlib Require Import Ascii.
From S2P Require Import Prelude GoFloat GoStrings GoTime GoJson GoPrint Matcher Policy Types Context Breaker BreakerManager Routers.

Section discovery.
Context {P : Type}.

(** * Shared endpoints *)

Definition ptr := positive.
Record cell := mkCell { c_ep : Endpoint; c_impl : option P }.

(** The endpoint as the router chain sees it. *)
Definition view (c : cell) : Endpoint := (c_ep c) <| ep_HasProviderImpl := bool_decide (is_Some (c_impl c)) |>.
Definition read (h : gmap ptr cell) (p : ptr) : option Endpoint := view <$> h !! p.
Definition new_cell (h : gmap ptr cell) (ep : Endpoint) : gmap ptr cell * ptr :=
  let p := fresh (dom h) in (<[p := mkCell ep None]> h, p).

(** * Provider registry *)

Definition ProviderFactory : Type := string -> string -> string -> list string -> P.

Record ProviderRegistry := mkRegistry { impls : gmap string P }.

Definition RegisterProviderFactory (fs : gmap string ProviderFactory) (t : string) (f : ProviderFactory) :
  go (gmap string ProviderFactory) :=
  match fs !! t with Some _ => Panic | None => Ret (<[t := f]> fs) end.

Definition provider_key (ep : Endpoint) : string :=
  ep_Provider ep +:+ "|" +:+ ep_ProviderProtocol ep +:+ "|" +:+ ep_URL ep +:+ "|" +:+ ep_APIKey ep.

(** The section under the write lock, which looks again before it creates. *)
Definition create_provider (fs : gmap string ProviderFactory) (r : ProviderRegistry) (ep : Endpoint) :
  ProviderRegistry * option P :=
  let k := provider_key ep in
  match impls r !! k with
  | Some p => (r, Some p)
  | None =>
      match fs !! ep_ProviderProtocol ep with
      | None => (r, None)
      | Some f => let p := f (ep_Provider ep) (ep_URL ep) (ep_APIKey ep) [ep_Model ep] in
                  (mkRegistry (<[k := p]> (impls r)), Some p)
      end
  end.

Definition GetOrCreateProvider (fs : gmap string ProviderFactory) (r : ProviderRegistry) (ep : Endpoint) :
  ProviderRegistry * option P :=
  if is_empty (ep_Provider ep) || is_empty (ep_ProviderProtocol ep) then (r, None)
  else match impls r !! provider_key ep with
       | Some p => (r, Some p)
       | None => create_provider fs r ep
       end.

(** Request invokers: one registration per provider type and request type. *)
Definition invoker_key (providerType requestType : string) : string := providerType +:+ ":" +:+ requestType.
Definition RegisterRequestInvoker {V} (m : gmap string V) (providerType requestType : string) (v : V) : go (gmap string V) :=
  let key := invoker_key providerType requestType in
  match m !! key with Some _ => Panic | None => Ret (<[key := v]> m) end.
Definition GetRequestInvoker {V} (m : gmap string V) (providerType requestType : string) : option V :=
  m !! invoker_key providerType requestType.

(** * Static discovery *)

Record endpointCheckState := mkCheckState { lastCheck : Time; successCount : Z }.

Record StaticDiscovery := mkStatic {
  sd_endpoints : gmap string (list ptr);
  endpointCheckStates : gmap string endpointCheckState
}.
#[global] Instance eta_static : Eta StaticDiscovery := fun s => mkStatic (sd_endpoints s) (endpointCheckStates s).

Definition NewStaticDiscovery : StaticDiscovery := mkStatic ∅ ∅.

Definition RegisterService (sd : StaticDiscovery) (model : string) (eps : list ptr) : StaticDiscovery :=
  sd <| sd_endpoints := <[model := eps]> (sd_endpoints sd) |>.

Definition Static_List (sd : StaticDiscovery) (model : string) : list ptr + goerror :=
  match sd_endpoints sd !! model with
  | Some eps => inl eps
  | None => inr (errorf ("model not found in static config: " +:+ model))
  end.

(** The pointers of every model, in the order of some iteration of the map. *)
Definition all_pointers (order : list (string * list ptr)) : list ptr := concat (map snd order).

Definition set_health (name : string) (healthy : bool) (h : gmap ptr cell) (p : ptr) : gmap ptr cell :=
  match h !! p with
  | Some c => if seqb (ep_Provider (c_ep c)) name then <[p := mkCell ((c_ep c) <| ep_Healthy := healthy |>) (c_impl c)]> h else h
  | None => h
  end.

Definition UpdateHealthAll (order : list (string * list ptr)) (h : gmap ptr cell) (name : string) (healthy : bool) : gmap ptr cell :=
  fold_left (set_health name healthy) (all_pointers order) h.

(** One entry per endpoint ID, the first one met. *)
Fixpoint dedup_IDs (h : gmap ptr cell) (seen : list string) (ps : list ptr) : list (ptr * Endpoint) :=
  match ps with
  | [] => []
  | p :: r =>
      match read h p with
      | Some ep => if bool_decide (ep_ID ep ∈ seen) then dedup_IDs h seen r else (p, ep) :: dedup_IDs h (ep_ID ep :: seen) r
      | None => dedup_IDs h seen r
      end
  end.
Definition GetAllEndpoints (order : list (string * list ptr)) (h : gmap ptr cell) : list (ptr * Endpoint) :=
  dedup_IDs h [] (all_pointers order).

(** Providers are checked in turn; [check] is what [HealthCheck] answers. *)
Definition runHealthChecks (order : list (string * list ptr)) (check : string -> option goerror) (providers : list string) (h : gmap ptr cell) : gmap ptr cell :=
  fold_left (fun h name => UpdateHealthAll order h name (match check name with None => true | Some _ => false end)) providers h.

(** ** Endpoint probes *)

Definition health_url (ep : Endpoint) : string := default "" (ep_Metadata ep !! "health_check_url").

(** The headers of a probe. *)
Definition probe_headers (ep : Endpoint) : list (string * string) :=
  if is_empty (ep_APIKey ep) then []
  else if seqb (ep_AuthType ep) "oauth_token" then
    ("Authorization", "Bearer " +:+ ep_APIKey ep) ::
    (if seqb (ep_ProviderProtocol ep) "anthropic" then [("anthropic-version", "2023-06-01")] else [])
  else if seqb (ep_ProviderProtocol ep) "openai" then [("Authorization", "Bearer " +:+ ep_APIKey ep)]
  else if seqb (ep_ProviderProtocol ep) "anthropic" then [("x-api-key", ep_APIKey ep); ("anthropic-version", "2023-06-01")]
  else [].

(** [newRequest] fails on a URL it cannot parse; [client] answers with a status or fails. *)
Definition probeEndpoint (newRequest : string -> option goerror) (client : string -> list (string * string) -> Z + goerror)
  (ep : Endpoint) : option goerror :=
  if is_empty (health_url ep) then None
  else match newRequest (health_url ep) with
       | Some e => Some e
       | None =>
           match client (health_url ep) (probe_headers ep) with
           | inr e => Some e
           | inl code => if (code <? 200) || (300 <=? code) then Some (errorf ("http status code: " +:+ Itoa code)) else None
           end
       end.

(** An endpoint is due when its last probe is old enough for the state of its breaker. *)
Definition check_interval (st : CircuitState) : Duration :=
  match st with CircuitOpen | CircuitHalfOpen => 5 * Second | CircuitClosed => 30 * Second end.

Definition check_state (sd : StaticDiscovery) (id : string) : endpointCheckState :=
  default (mkCheckState 0 0) (endpointCheckStates sd !! id).

(** One endpoint of a round: the probe to start, with the count it read. *)
Definition check_endpoint (sd : StaticDiscovery) (now : Time) (cb : CircuitBreakerManager) (ep : Endpoint) :
  CircuitBreakerManager * option (Endpoint * Z) :=
  if is_empty (health_url ep) then (cb, None)
  else
    let '(cb, st) := GetState cb (ep_ID ep) now in
    let s := check_state sd (ep_ID ep) in
    if time_Sub now (lastCheck s) <? check_interval st then (cb, None) else (cb, Some (ep, successCount s)).

Fixpoint check_endpoints (sd : StaticDiscovery) (now : Time) (cb : CircuitBreakerManager) (eps : list Endpoint) :
  CircuitBreakerManager * list (Endpoint * Z) :=
  match eps with
  | [] => (cb, [])
  | ep :: r =>
      let '(cb, p) := check_endpoint sd now cb ep in
      let '(cb, ps) := check_endpoints sd now cb r in
      (cb, match p with Some p => p :: ps | None => ps end)
  end.

Definition runEndpointHealthChecks (order : list (string * list ptr)) (h : gmap ptr cell) (sd : StaticDiscovery) (now : Time) (cb : CircuitBreakerManager) :
  CircuitBreakerManager * list (Endpoint * Z) :=
  check_endpoints sd now cb (map snd (GetAllEndpoints order h)).

(** The end of a probe that read [count]: the third success in a row closes both breakers. *)
Definition probe_done (sd : StaticDiscovery) (cb : CircuitBreakerManager) (ep : Endpoint) (count : Z) (err : option goerror) (now : Time) :
  StaticDiscovery * CircuitBreakerManager :=
  let '(cb, n) :=
    match err with
    | None => let n := wrap64 (count + 1) in
              if 3 <=? n then (Reset (Reset cb (ep_ID ep)) (service_key ep), 0) else (cb, n)
    | Some _ => (cb, 0)
    end in
  (sd <| endpointCheckStates := <[ep_ID ep := mkCheckState now n]> (endpointCheckStates sd) |>, cb).

(** * Dynamic discovery *)

Record DynamicEndpoint := mkDynamic {
  de_ID : string; de_Code : string; de_ProviderName : string; de_ProviderCode : string; de_ProviderProtocol : string;
  de_URL : string; de_APIKey : string; de_RealModel : string; de_Weight : Z; de_Priority : Z;
  de_Headers : gmap string string; de_Metadata : gmap string string; de_RequestTypes : list string;
  de_ContextLength : Z; de_MaxOutputTokens : Z;
  de_InputPrice : option float64; de_OutputPrice : option float64; de_CachedPrice : option float64; de_CacheCreationPrice : option float64
}.

Definition dynamic_ID (model : string) (i : nat) (de : DynamicEndpoint) : string :=
  if is_empty (de_ID de) then de_ProviderName de +:+ "-" +:+ model +:+ "-" +:+ Itoa (Z.of_nat i) else de_ID de.

Definition dynamic_endpoint (model : string) (i : nat) (de : DynamicEndpoint) : Endpoint :=
  mkEndpoint (dynamic_ID model i de) (de_Code de) (de_URL de) (de_ProviderName de) (de_ProviderCode de) model (de_RealModel de)
    (de_Metadata de) (de_Weight de) (de_Priority de) (de_RequestTypes de) true false (de_Headers de) (de_APIKey de) ""
    (de_ProviderProtocol de) (de_ContextLength de) (de_MaxOutputTokens de) (de_InputPrice de) (de_OutputPrice de)
    (de_CachedPrice de) (de_CacheCreationPrice de).

Fixpoint dynamic_all (model : string) (i : nat) (des : list DynamicEndpoint) : list Endpoint + goerror :=
  match des with
  | [] => inl []
  | de :: r =>
      match de_RequestTypes de with
      | [] => inr (errorf ("dynamic endpoint for model " +:+ model +:+ " (provider " +:+ de_ProviderName de +:+ ") has no request_types configured"))
      | _ => match dynamic_all model (S i) r with
             | inl eps => inl (dynamic_endpoint model i de :: eps)
             | inr e => inr e
             end
      end
  end.

(** [provider] is the dynamic endpoint provider, if one was set. *)
Definition Dynamic_List (provider : option (string -> list DynamicEndpoint)) (model : string) : list Endpoint + goerror :=
  match provider with
  | None => inr (errorf "dynamic provider not configured")
  | Some get =>
      match get model with
      | [] => inr (errorf ("no dynamic provider configured for model: " +:+ model))
      | des => dynamic_all model 0 des
      end
  end.

(** The endpoints of a dynamic list are new objects. *)
Fixpoint alloc (h : gmap ptr cell) (eps : list Endpoint) : gmap ptr cell * list ptr :=
  match eps with
  | [] => (h, [])
  | ep :: r => let '(h, p) := new_cell h ep in let '(h, ps) := alloc h r in (h, p :: ps)
  end.

(** * Composite discovery *)

(** A discovery: [List] and [Close] on a state [W]. *)
Record Discovery (W : Type) := mkDiscovery {
  d_List : W -> string -> W * (list ptr + goerror);
  d_Close : W -> W * option goerror
}.
Arguments mkDiscovery {W}.
Arguments d_List {W}.
Arguments d_Close {W}.

Fixpoint composite_loop {W} (ds : list (option (Discovery W))) (lastErr : option goerror) (w : W) (model : string) : W * (list ptr + goerror) :=
  match ds with
  | [] => (w, inr (match lastErr with Some e => e | None => errorf ("no endpoints found for model: " +:+ model) end))
  | None :: r => composite_loop r lastErr w model
  | Some d :: r =>
      match d_List d w model with
      | (w, inl []) => composite_loop r lastErr w model
      | (w, inl eps) => (w, inl eps)
      | (w, inr e) => composite_loop r (Some e) w model
      end
  end.
Definition Composite_List {W} (ds : list (option (Discovery W))) (w : W) (model : string) := composite_loop ds None w model.

(** Every discovery is closed; the first error is reported. *)
Fixpoint close_loop {W} (ds : list (option (Discovery W))) (firstErr : option goerror) (w : W) : W * option goerror :=
  match ds with
  | [] => (w, firstErr)
  | None :: r => close_loop r firstErr w
  | Some d :: r =>
      let '(w, e) := d_Close d w in
      close_loop r (match firstErr with Some _ => firstErr | None => e end) w
  end.
Definition Composite_Close {W} (ds : list (option (Discovery W))) (w : W) := close_loop ds None w.

(** * Assembling discovery *)

Definition assemble_one (fs : gmap string ProviderFactory) (hr : gmap ptr cell * ProviderRegistry) (p : ptr) : gmap ptr cell * ProviderRegistry :=
  let '(h, r) := hr in
  match h !! p with
  | Some c =>
      match c_impl c with
      | Some _ => (h, r)
      | None => let '(r, impl) := GetOrCreateProvider fs r (c_ep c) in (<[p := mkCell (c_ep c) impl]> h, r)
      end
  | None => (h, r)
  end.

Definition assemble (fs : gmap string ProviderFactory) (h : gmap ptr cell) (r : ProviderRegistry) (ps : list ptr) : gmap ptr cell * ProviderRegistry :=
  fold_left (assemble_one fs) ps (h, r).
End discovery.
Arguments mkDiscovery {W}.
Arguments d_List {W}.
Arguments d_Close {W}.

(** * Background tasks *)

(** [engineLifecycle]: the flag, the jobs in flight, and the result of the only close. *)
Record engineLifecycle := mkLifecycle { stopped : bool; jobs : nat; closeErr : option (list goerror) }.
#[global] Instance eta_lifecycle : Eta engineLifecycle := fun l => mkLifecycle (stopped l) (jobs l) (closeErr l).

Definition lc_start (l : engineLifecycle) : engineLifecycle * bool :=
  if stopped l then (l, false) else (l <| jobs := S (jobs l) |>, true).

(** What happens to it: a start, a job that ends, a stop; the wait of a stop returns when no
    job is left. *)
Inductive lc_step : engineLifecycle -> engineLifecycle -> Prop :=
| lc_started l : lc_step l (fst (lc_start l))
| lc_job_done l n : jobs l = S n -> lc_step l (l <| jobs := n |>)
| lc_stop l : lc_step l (l <| stopped := true |>).
Definition wait_returns (l : engineLifecycle) : Prop := stopped l = true /\ jobs l = 0%nat.

(** [Close] once the wait returned: queue, store and discovery in this order, each if it is
    set; a second call reports the first result. *)
Definition close_all {W} (parts : list (option (W -> W * option goerror))) (w : W) : W * list goerror :=
  fold_left (fun acc part =>
    match part with
    | None => acc
    | Some close => let '(w, e) := close (fst acc) in (w, snd acc ++ match e with Some e => [e] | None => [] end)
    end) parts (w, []).

Definition Engine_Close {W} (parts : list (option (W -> W * option goerror))) (l : engineLifecycle) (w : W) :
  engineLifecycle * W * list goerror :=
  match closeErr l with
  | Some errs => (l, w, errs)
  | None => let '(w, errs) := close_all parts w in (l <| closeErr := Some errs |> <| stopped := true |>, w, errs)
  end.

(** One round of the breaker probe: every state is computed, changes and samples reported. *)
Definition probe_key (now : Time) (m : CircuitBreakerManager) (k : string) : CircuitBreakerManager :=
  let '(m, e) := getEntry m k in
  let '(m, e) := observe m k e now in
  if metricsSet m then
    let mc := if is_empty (modelCode e) && containsColon k
              then match SplitByte k ":"%char with _ :: part1 :: _ => part1 | _ => modelCode e end else modelCode e in
    m <| notifications := notifications m ++ [NMetric k mc (state e)] |>
  else m.
Definition probeCircuitBreakerStates (keys : list string) (now : Time) (m : CircuitBreakerManager) : CircuitBreakerManager :=
  fold_left (probe_key now) keys m.

(** * The registry under concurrent calls *)

Section registry.
Context {P : Type} (fs : gmap string (@ProviderFactory P)).

(** Calls look without the write lock; a miss waits for the lock in any order. *)
Record calls := mkCalls { cs_registry : @ProviderRegistry P; cs_waiting : list Endpoint; cs_returned : list (Endpoint * option P) }.

Definition valid_endpoint (ep : Endpoint) : bool := negb (is_empty (ep_Provider ep) || is_empty (ep_ProviderProtocol ep)).

Inductive call_step : calls -> calls -> Prop :=
| call_invalid r q ret ep : valid_endpoint ep = false -> call_step (mkCalls r q ret) (mkCalls r q ((ep, None) :: ret))
| call_hit r q ret ep p : valid_endpoint ep = true -> impls r !! provider_key ep = Some p ->
    call_step (mkCalls r q ret) (mkCalls r q ((ep, Some p) :: ret))
| call_miss r q ret ep : valid_endpoint ep = true -> impls r !! provider_key ep = None ->
    call_step (mkCalls r q ret) (mkCalls r (ep :: q) ret)
| call_locked r q1 q2 ret ep :
    let c := create_provider fs r ep in
    call_step (mkCalls r (q1 ++ ep :: q2) ret) (mkCalls (fst c) (q1 ++ q2) ((ep, snd c) :: ret)).

(** Whatever a call returned is what the registry holds. *)
Definition calls_ok (c : calls) : Prop :=
  forall ep p, (ep, Some p) ∈ cs_returned c -> impls (cs_registry c) !! provider_key ep = Some p.

Lemma create_provider_keeps r ep k p : impls r !! k = Some p -> impls (fst (create_provider fs r ep)) !! k = Some p.
Proof.
  intros E. unfold create_provider. destruct (impls r !! provider_key ep) eqn:F; [done|].
  destruct (fs !! _); [|done]. cbn. rewrite lookup_insert_ne; [done|]. intros <-. by rewrite E in F.
Qed.

Lemma create_provider_returns r ep p : snd (create_provider fs r ep) = Some p ->
  impls (fst (create_provider fs r ep)) !! provider_key ep = Some p.
Proof.
  unfold create_provider. destruct (impls r !! provider_key ep) eqn:F; [intros [= <-]; done|].
  destruct (fs !! _); [|done]. cbn. intros [= <-]. apply lookup_insert_eq.
Qed.

Lemma call_step_ok c c' : calls_ok c -> call_step c c' -> calls_ok c'.
Proof.
  intros I T. destruct T as [r q ret ep V|r q ret ep p V L|r q ret ep V L|r q1 q2 ret ep cp]; intros x y; cbn; rewrite ?elem_of_cons.
  - intros [[=]|E]; [done..|]. by apply (I x y).
  - intros [[= -> ->]|E]; [done|by apply (I x y)].
  - by apply (I x y).
  - intros [[= -> E]|E]; [by apply create_provider_returns|]. apply create_provider_keeps. by apply (I x y).
Qed.
End registry.

(** concurrent first calls for the same provider, protocol, URL and key share one
    provider instance: whatever the order in which they miss, take the lock and create,
    all calls that got an instance got the same one. *)
Theorem registry_shares_providers {P : Type} (fs : gmap string (@ProviderFactory P)) (c c' : calls)
  (e1 e2 : Endpoint) (p1 p2 : P)
  (Hstart : cs_returned c = []) (Hrun : rtc (call_step fs) c c')
  (H1 : (e1, Some p1) ∈ cs_returned c') (H2 : (e2, Some p2) ∈ cs_returned c') (Hkey : provider_key e1 = provider_key e2) :
  p1 = p2.
Proof.
  assert (calls_ok c') as I.
  { assert (calls_ok c) as I by (intros x y; rewrite Hstart; intros []%not_elem_of_nil).
    clear Hstart H1 H2. induction Hrun as [|x y z T R IH]; [done|]. apply IH, (call_step_ok fs x); done. }
  pose proof (I _ _ H1). pose proof (I _ _ H2). congruence.
Qed.

(** * Assembly *)

Section assembly.
Context {P : Type} (fs : gmap string (@ProviderFactory P)).

Definition creatable (ep : Endpoint) : Prop := valid_endpoint ep = true /\ is_Some (fs !! ep_ProviderProtocol ep).

Lemma GetOrCreate_creates r ep : creatable ep -> is_Some (snd (GetOrCreateProvider fs r ep)).
Proof.
  intros [V [f F]]. unfold GetOrCreateProvider, valid_endpoint in *. destruct (_ || _); [done|].
  destruct (impls r !! _) eqn:E; [by eexists|]. unfold create_provider. cbn zeta. rewrite E. destruct (fs !! _) as [g|] eqn:G; [by eexists|by rewrite F in G].
Qed.

(** Assembly touches only missing instances. *)
Definition extends (h h' : gmap ptr (@cell P)) : Prop :=
  forall p c, h !! p = Some c -> exists c', h' !! p = Some c' /\ c_ep c' = c_ep c /\ (c_impl c <> None -> c' = c).

Lemma extends_refl h : extends h h.
Proof. intros p c E. by exists c. Qed.
Lemma extends_trans h1 h2 h3 : extends h1 h2 -> extends h2 h3 -> extends h1 h3.
Proof.
  intros A B p c E. destruct (A p c E) as (c2 & E2 & F2 & G2). destruct (B p c2 E2) as (c3 & E3 & F3 & G3).
  exists c3. split_and!; [done|congruence|]. intros N. specialize (G2 N). subst. auto.
Qed.

Lemma assemble_one_extends h r p : extends h (fst (assemble_one fs (h, r) p)).
Proof.
  unfold assemble_one. destruct (h !! p) as [c|] eqn:E; [|apply extends_refl]. destruct (c_impl c) eqn:F; [apply extends_refl|].
  destruct (GetOrCreateProvider fs r (c_ep c)) as [r' impl]. intros q d D. cbn. destruct (decide (p = q)) as [<-|N].
  - rewrite lookup_insert_eq. simplify_eq. eexists. split_and!; [done|done|]. congruence.
  - rewrite lookup_insert_ne by done. by exists d.
Qed.

Lemma assemble_extends ps : forall h r, extends h (fst (assemble fs h r ps)).
Proof.
  unfold assemble. induction ps as [|p ps IH]; intros h r; [apply extends_refl|]. cbn [fold_left].
  pose proof (assemble_one_extends h r p). destruct (assemble_one fs (h, r) p) as [h1 r1]. by apply (extends_trans h h1).
Qed.

Lemma assemble_one_impl h r p c : h !! p = Some c -> creatable (c_ep c) ->
  exists c', fst (assemble_one fs (h, r) p) !! p = Some c' /\ is_Some (c_impl c').
Proof.
  intros E C. unfold assemble_one. rewrite E. destruct (c_impl c) eqn:F; [exists c; rewrite F; by split|].
  pose proof (GetOrCreate_creates r (c_ep c) C). destruct (GetOrCreateProvider fs r (c_ep c)) as [r' impl]. cbn [fst snd] in *.
  exists (mkCell (c_ep c) impl). by rewrite lookup_insert_eq.
Qed.
End assembly.

(** a listed endpoint can be invoked: after the assembling decorator went over a list,
    every endpoint of it whose provider type has a factory carries a provider instance,
    and assembly changed nothing else of any endpoint, nor an instance that was there. *)
Theorem assembly_complete {P : Type} (fs : gmap string (@ProviderFactory P)) (h : gmap ptr cell) (r : ProviderRegistry) (ps : list ptr) :
  extends h (fst (assemble fs h r ps)) /\
  Forall (fun p => forall c, h !! p = Some c -> creatable fs (c_ep c) ->
    exists ep, read (fst (assemble fs h r ps)) p = Some ep /\ ep_HasProviderImpl ep = true /\ ep_ID ep = ep_ID (c_ep c)) ps.
Proof.
  split; [apply assemble_extends|]. unfold assemble. revert h r. induction ps as [|p ps IH]; intros h r; [constructor|].
  cbn [fold_left]. pose proof (assemble_one_extends fs h r p) as X. constructor.
  - intros c E C. destruct (assemble_one_impl fs h r p c E C) as (c1 & E1 & [i I1]). destruct (X p c E) as (c1' & E1' & F1 & _).
    assert (c1' = c1) as -> by congruence.
    destruct (assemble_one fs (h, r) p) as [h1 r1]. destruct (assemble_extends fs ps h1 r1 p c1 E1) as (c2 & E2 & F2 & G2).
    specialize (G2 ltac:(by rewrite I1)). subst c2. unfold read. change (fold_left _ ps (h1, r1)) with (assemble fs h1 r1 ps). rewrite E2.
    eexists. split; [done|]. split; [unfold view; cbn; by rewrite I1|]. unfold view. cbn. by rewrite F1.
  - destruct (assemble_one fs (h, r) p) as [h1 r1]. specialize (IH h1 r1). eapply Forall_impl; [exact IH|].
    intros q H c E C. destruct (X q c E) as (c1 & E1 & F1 & _). destruct (H c1 E1) as (ep & R & I & Q); [by rewrite F1|].
    exists ep. by rewrite Q, F1.
Qed.

(** * Health *)

(** a provider check writes exactly the endpoints of that provider: whatever the order of
    the map and however many models share an endpoint object, the registered
    endpoints of the provider end up with the checked health and nothing else of any
    endpoint changes. *)
Theorem health_update_exact {P : Type} (order : list (string * list ptr)) (h : gmap ptr (@cell P)) (name : string) (healthy : bool) (p : ptr) :
  UpdateHealthAll order h name healthy !! p =
  match h !! p with
  | Some c => Some (if bool_decide (p ∈ all_pointers order) && seqb (ep_Provider (c_ep c)) name
                    then mkCell ((c_ep c) <| ep_Healthy := healthy |>) (c_impl c) else c)
  | None => None
  end.
Proof.
  unfold UpdateHealthAll. revert h. induction (all_pointers order) as [|q qs IH]; intros h; cbn [fold_left].
  { destruct (h !! p); by rewrite ?bool_decide_eq_false_2 by apply not_elem_of_nil. }
  rewrite IH. clear IH. unfold set_health. destruct (decide (q = p)) as [->|N].
  - destruct (h !! p) as [c|] eqn:E; [|by rewrite E]. rewrite (bool_decide_eq_true_2 (p ∈ p :: qs)) by left. cbn [andb].
    destruct (seqb (ep_Provider (c_ep c)) name) eqn:F.
    + rewrite lookup_insert_eq. cbn [c_ep c_impl]. change (ep_Provider ((c_ep c) <| ep_Healthy := healthy |>)) with (ep_Provider (c_ep c)).
      rewrite F. by destruct (bool_decide (p ∈ qs)).
    + rewrite E, F. by rewrite andb_false_r.
  - assert (forall x, (match h !! q with
            | Some c => if seqb (ep_Provider (c_ep c)) name then <[q := x c]> h else h
            | None => h end) !! p = h !! p) as -> by (intros x; repeat split_match; by rewrite ?lookup_insert_ne).
    destruct (h !! p) as [c|]; [|done]. rewrite (bool_decide_ext (p ∈ q :: qs) (p ∈ qs)); [done|].
    rewrite elem_of_cons. split; [intros [->|]; done|by right].
Qed.

(** ** Probes of one endpoint *)

(** The successes at the end of a history, newest probe first. *)
Fixpoint streak (results : list bool) : Z := match results with true :: r => 1 + streak r | _ => 0 end.

(** The probes of an endpoint one after the other, newest last in time. *)
Fixpoint probes (sd : StaticDiscovery) (cb : CircuitBreakerManager) (ep : Endpoint) (e : goerror) (results : list (bool * Time)) :
  StaticDiscovery * CircuitBreakerManager :=
  match results with
  | [] => (sd, cb)
  | (ok, now) :: older =>
      let '(sd, cb) := probes sd cb ep e older in
      probe_done sd cb ep (successCount (check_state sd (ep_ID ep))) (if ok then None else Some e) now
  end.

Lemma streak_bounds rs : 0 <= streak rs <= Z.of_nat (length rs).
Proof. induction rs as [|[] rs IH]; cbn; lia. Qed.

Lemma check_state_insert sd id s : check_state (sd <| endpointCheckStates := <[id := s]> (endpointCheckStates sd) |>) id = s.
Proof. unfold check_state. cbn. by rewrite lookup_insert_eq. Qed.

Lemma probes_count sd cb ep e results : successCount (check_state sd (ep_ID ep)) = 0 ->
  successCount (check_state (fst (probes sd cb ep e results)) (ep_ID ep)) = streak (map fst results) mod 3.
Proof.
  intros Z0. induction results as [|[ok now] older IH]; [exact Z0|]. cbn [probes map fst streak].
  destruct (probes sd cb ep e older) as [sd1 cb1]. cbn [fst] in IH. rewrite IH. unfold probe_done.
  pose proof (Z.mod_pos_bound (streak (map fst older)) 3 ltac:(lia)) as B. set (k := streak (map fst older)) in *.
  destruct ok; [|cbn [fst]; by rewrite check_state_insert].
  rewrite wrap64_small by (unfold in_int64, min_int64, max_int64; lia). destruct (3 <=? k mod 3 + 1) eqn:C; cbn [fst]; rewrite check_state_insert; cbn [successCount]; zbool.
  - rewrite Z.add_mod by lia. replace (k mod 3) with 2 by lia. done.
  - rewrite Z.add_mod by lia. change (1 mod 3) with 1. rewrite (Z.mod_small (1 + k mod 3)); lia.
Qed.

(** three successful probes in a row bring an endpoint back: probes of an endpoint leave
    the breaker manager alone until the successes since the last failure reach a multiple
    of three; then the breakers of the endpoint and of its service are closed with empty
    windows and no call in flight. *)
Theorem probes_recover (sd : StaticDiscovery) (cb : CircuitBreakerManager) (ep : Endpoint) (e : goerror)
  (ok : bool) (now : Time) (older : list (bool * Time))
  (Hnew : successCount (check_state sd (ep_ID ep)) = 0) :
  let before := snd (probes sd cb ep e older) in
  let after := snd (probes sd cb ep e ((ok, now) :: older)) in
  let n := streak (map fst ((ok, now) :: older)) in
  if (0 <? n) && (n mod 3 =? 0) then closed_at after (ep_ID ep) /\ closed_at after (service_key ep) else after = before.
Proof.
  cbn zeta. pose proof (probes_count sd cb ep e older Hnew) as K. cbn [probes map fst streak].
  destruct (probes sd cb ep e older) as [sd1 cb1]. cbn [fst snd] in *. rewrite K. unfold probe_done.
  pose proof (streak_bounds (map fst older)) as S0. set (k := streak (map fst older)) in *.
  pose proof (Z.mod_pos_bound k 3 ltac:(lia)) as B. destruct ok; [|reflexivity].
  rewrite wrap64_small by (unfold in_int64, min_int64, max_int64; lia). rewrite (proj2 (Z.ltb_lt 0 (1 + k))) by lia. cbn [andb].
  assert ((1 + k) mod 3 = (1 + k mod 3) mod 3) as -> by (rewrite Z.add_mod_idemp_r; lia).
  destruct (3 <=? k mod 3 + 1) eqn:C; zbool.
  - replace (k mod 3) with 2 by lia. cbn. split; apply Reset_closes; [left; apply Reset_closes|]; by right.
  - rewrite (Z.mod_small (1 + k mod 3)) by lia. destruct (1 + k mod 3 =? 0) eqn:Q; [apply Z.eqb_eq in Q; lia|]. reflexivity.
Qed.

Lemma probes_recover_witness :
  closed_at (snd (probes NewStaticDiscovery demo_open demo_endpoint (errorf "down")
    [(true, 30); (true, 20); (true, 10); (false, 5); (true, 1)])) "ep-1".
Proof.
  pose proof (probes_recover NewStaticDiscovery demo_open demo_endpoint (errorf "down") true 30
    [(true, 20); (true, 10); (false, 5); (true, 1)] eq_refl) as H.
  cbn zeta in H. exact (proj1 H).
Defined.

(** A round probes nobody too early. *)
Lemma check_endpoint_due sd now cb ep cb' p : check_endpoint sd now cb ep = (cb', Some p) ->
  p = (ep, successCount (check_state sd (ep_ID ep))) /\ 5 * Second <= time_Sub now (lastCheck (check_state sd (ep_ID ep))).
Proof.
  unfold check_endpoint. destruct (is_empty _); [done|]. destruct (GetState cb (ep_ID ep) now) as [cb1 st].
  destruct (_ <? _) eqn:E; [done|]. intros [= <- <-]. split; [done|]. zbool. destruct st; cbn in E; unfold Second in *; lia.
Qed.

(** Two calls that both missed. *)
Definition demo_factories : gmap string (@ProviderFactory nat) := {["openai" := fun name _ _ _ => String.length name]}.
Definition demo_first := create_provider demo_factories (mkRegistry ∅) demo_endpoint.
Definition demo_second := create_provider demo_factories (fst demo_first) demo_endpoint.

Lemma registry_shares_providers_witness : default 1%nat (snd demo_first) = default 2%nat (snd demo_second).
Proof.
  refine (registry_shares_providers demo_factories (mkCalls (mkRegistry ∅) [demo_endpoint; demo_endpoint] [])
    (mkCalls (fst demo_second) [] [(demo_endpoint, snd demo_second); (demo_endpoint, snd demo_first)])
    demo_endpoint demo_endpoint _ _ eq_refl _ _ _ eq_refl).
  - eapply rtc_l; [apply (call_locked demo_factories _ [] [demo_endpoint])|].
    eapply rtc_l; [apply (call_locked demo_factories _ [] [])|apply rtc_refl].
  - right. left.
  - left.
Defined.

(** * Dynamic lists *)

Lemma Itoa_digits n : forallb is_digit (ascii_list (Itoa (Z.of_nat n))) = true.
Proof.
  destruct n as [|n]; [reflexivity|]. change (Z.of_nat (S n)) with (Zpos (Pos.of_succ_nat n)).
  destruct (Itoa_pos (Pos.of_succ_nat n)) as (d & ds & -> & H1 & H2 & _). cbn. rewrite H2.
  unfold is_digit19 in H1. apply andb_true_iff in H1 as [-> _]. done.
Qed.

Lemma digits_no_dash l : forallb is_digit l = true -> "-"%char ∉ l.
Proof. intros H E. rewrite forallb_forall in H. apply list_elem_of_In in E. specialize (H _ E). by vm_compute in H. Qed.

Lemma Itoa_inj i j : in_int64 i -> in_int64 j -> Itoa i = Itoa j -> i = j.
Proof. intros Hi Hj E. pose proof (ParseInt_Itoa i Hi) as A. rewrite E, (ParseInt_Itoa j Hj) in A. congruence. Qed.

Lemma dynamic_all_lookup model des : forall i eps k, dynamic_all model i des = inl eps ->
  eps !! k = dynamic_endpoint model (i + k) <$> des !! k.
Proof.
  induction des as [|de des IH]; intros i eps k; cbn [dynamic_all]; [by intros [= <-]|].
  destruct (de_RequestTypes de); [done|]. destruct (dynamic_all model (S i) des) as [r|] eqn:E; [|done]. intros [= <-].
  destruct k as [|k]; [cbn; by rewrite Nat.add_0_r|]. rewrite Nat.add_succ_r. exact (IH (S i) r k E).
Qed.

(** a dynamic list is complete and its generated IDs are unique: when it succeeds there
    is one healthy endpoint for every entry, in order, with the entry's data and the model
    asked for, every entry declares a request type, and two entries without an ID of their
    own get different ones, whatever their providers are called. *)
Theorem dynamic_list_faithful (get : string -> list DynamicEndpoint) (model : string) (eps : list Endpoint)
  (Hlist : Dynamic_List (Some get) model = inl eps) (Hsize : Z.of_nat (length (get model)) <= max_int64) :
  eps <> [] /\ (forall k, eps !! k = dynamic_endpoint model k <$> get model !! k) /\
  (forall i j di dj, i <> j -> get model !! i = Some di -> get model !! j = Some dj -> de_ID di = "" -> de_ID dj = "" ->
     dynamic_ID model i di <> dynamic_ID model j dj).
Proof.
  assert (dynamic_all model 0 (get model) = inl eps) as H by (cbn in Hlist; by destruct (get model)). split_and!.
  - intros ->. cbn in Hlist. destruct (get model) as [|d ds]; [done|]. cbn in H. destruct (de_RequestTypes d); [done|]. by destruct (dynamic_all model 1 ds).
  - intros k. by apply (dynamic_all_lookup model (get model) 0).
  - intros i j di dj N Ei Ej Di Dj E. apply N. unfold dynamic_ID in E. rewrite Di, Dj in E. cbn [is_empty seqb] in E.
    change (is_empty "") with true in E. cbv iota in E. apply (f_equal ascii_list) in E.
    rewrite <- !append_assoc in E. rewrite (ascii_list_app _ (Itoa (Z.of_nat i))), (ascii_list_app _ (Itoa (Z.of_nat j))), !(ascii_list_app _ "-") in E.
    rewrite <- !app_assoc in E. cbn [ascii_list app] in E.
    apply after_separator in E; [|by apply digits_no_dash, Itoa_digits..].
    apply (f_equal string_of) in E. rewrite !string_of_list in E. apply lookup_lt_Some in Ei, Ej.
    apply Itoa_inj in E; unfold in_int64, min_int64, max_int64 in *; lia.
Qed.

Definition demo_dynamic (provider : string) : DynamicEndpoint :=
  mkDynamic "" "" provider "" "openai" "http://u" "k" "m" 1 0 ∅ ∅ ["chat_completion"] 0 0 None None None None.

Lemma dynamic_list_faithful_witness :
  dynamic_ID "m" 0 (demo_dynamic "a") <> dynamic_ID "m" 1 (demo_dynamic "a-m-0").
Proof.
  refine (proj2 (proj2 (dynamic_list_faithful (fun _ => [demo_dynamic "a"; demo_dynamic "a-m-0"]) "m" _ eq_refl _))
    0%nat 1%nat _ _ _ eq_refl eq_refl eq_refl eq_refl); [by vm_compute|lia].
Defined.

(** * Composite lists *)

(** The discoveries [pre] were asked in turn and had nothing; [le] is the last error. *)
Inductive passed {W} (model : string) : list (option (Discovery W)) -> W -> option goerror -> W -> option goerror -> Prop :=
| passed_nil w le : passed model [] w le w le
| passed_none r w le w' le' : passed model r w le w' le' -> passed model (None :: r) w le w' le'
| passed_empty d r w w1 le w' le' : d_List d w model = (w1, inl []) -> passed model r w1 le w' le' -> passed model (Some d :: r) w le w' le'
| passed_error d r w w1 e le w' le' : d_List d w model = (w1, inr e) -> passed model r w1 (Some e) w' le' -> passed model (Some d :: r) w le w' le'.

(** the composite discovery answers with the first discovery, by priority, that lists
    anything: the ones before it were asked, in order, and failed or were empty, and the
    ones after it are not asked; when none lists anything the answer is the last error. *)
Theorem composite_first_match {W : Type} (ds : list (option (Discovery W))) (w : W) (model : string) :
  match Composite_List ds w model with
  | (w', inl eps) => eps <> [] /\ exists pre d post w1 le, ds = pre ++ Some d :: post /\ passed model pre w None w1 le /\ d_List d w1 model = (w', inl eps)
  | (w', inr e) => exists le, passed model ds w None w' le /\ e = default (errorf ("no endpoints found for model: " +:+ model)) le
  end.
Proof.
  unfold Composite_List. generalize (@None goerror) as le. revert w. induction ds as [|[d|] ds IH]; intros w le; cbn [composite_loop].
  - exists le. split; [constructor|by destruct le].
  - destruct (d_List d w model) as [w1 [[|p ps]|e]] eqn:D.
    + specialize (IH w1 le). destruct (composite_loop ds le w1 model) as [w' [eps|e]].
      * destruct IH as (N & pre & d' & post & w2 & le2 & -> & Q & L). split; [done|].
        exists (Some d :: pre), d', post, w2, le2. split_and!; [done|by eapply passed_empty|done].
      * destruct IH as (le2 & Q & ->). exists le2. split; [by eapply passed_empty|done].
    + split; [done|]. exists [], d, ds, w, le. split_and!; [done|constructor|done].
    + specialize (IH w1 (Some e)). destruct (composite_loop ds (Some e) w1 model) as [w' [eps|e']].
      * destruct IH as (N & pre & d' & post & w2 & le2 & -> & Q & L). split; [done|].
        exists (Some d :: pre), d', post, w2, le2. split_and!; [done|by eapply passed_error|done].
      * destruct IH as (le2 & Q & ->). exists le2. split; [by eapply passed_error|done].
  - specialize (IH w le). destruct (composite_loop ds le w model) as [w' [eps|e]].
    + destruct IH as (N & pre & d' & post & w2 & le2 & -> & Q & L). split; [done|].
      exists (None :: pre), d', post, w2, le2. split_and!; [done|by constructor|done].
    + destruct IH as (le2 & Q & ->). exists le2. split; [by constructor|done].
Qed.

(** * Shutdown *)

(** background work ends with the engine: once the wait of a stop returned, no job runs
    and none can be started any more, whatever is called afterwards; and closing again
    closes nothing twice and reports the same errors. *)
Theorem shutdown_final {W : Type} (parts : list (option (W -> W * option goerror))) (l l' : engineLifecycle) (w w2 : W)
  (Hwait : wait_returns l) (Hrun : rtc lc_step l l') :
  jobs l' = 0%nat /\ snd (lc_start l') = false /\
  let '(l1, w1, errs) := Engine_Close parts l' w in Engine_Close parts l1 w2 = (l1, w2, errs).
Proof.
  assert (wait_returns l') as [St J].
  { induction Hrun as [|x y z T R IH]; [done|]. apply IH. destruct Hwait as [St J].
    destruct T as [x|x n E|x]; [unfold lc_start; by rewrite St|congruence|by split]. }
  split_and!; [done|unfold lc_start; by rewrite St|].
  unfold Engine_Close. destruct (closeErr l') as [errs|] eqn:E; [by rewrite E|]. by destruct (close_all parts w).
Qed.

Lemma shutdown_final_witness : snd (lc_start (mkLifecycle true 0 None)) = false.
Proof.
  exact (proj1 (proj2 (shutdown_final (W := unit) [] (mkLifecycle true 0 None) (mkLifecycle true 0 None) tt tt
    (conj eq_refl eq_refl) (rtc_refl _ _)))).
Defined.

(** Keys that differ may share a cache entry: the separator can occur in the parts. *)
Lemma provider_key_collision : exists e1 e2 : Endpoint,
  ep_URL e1 <> ep_URL e2 /\ ep_APIKey e1 <> ep_APIKey e2 /\ provider_key e1 = provider_key e2.
Proof.
  exists (demo_endpoint <| ep_URL := "u|k" |> <| ep_APIKey := "x" |>), (demo_endpoint <| ep_URL := "u" |> <| ep_APIKey := "k|x" |>).
  by vm_compute.
Qed.
