(* ===== verification/Cluster.v ===== *)
(** pkg/invoker/cluster.go and attempt_observer.go: the retry loop over discovery, routers
    and balancer, the breaker lease of every attempt and the health feedback.

    The collaborators are parameters of the model: discovery, routers, balancers and the
    provider calls act on a world that holds the breaker manager, the state store and a
    rest [X] of their own.  [clock a i] is the [i]-th reading of the clock in attempt [a].
    The total timeout only bounds the Go context, which is not modelled. *)

From S2P Require Import Prelude GoFloat GoStrings GoTime Matcher Policy Types Context Store Balancers.
From S2P Require Import Breaker BreakerLease BreakerManager BalancersSpec Routers Fallback.

(** * Retry policy (pkg/policy/invocation.go) *)

Definition IsExcludeFailedEndpoint (r : RetryPolicy) : bool := default true (rp_ExcludeFailedEndpoint r).

(** [unit_rand]: [rand.Float64()]. *)
Definition CalcBackoff (unit_rand : float64) (r : RetryPolicy) (attempt : Z) : Duration :=
  if seqb (rp_BackoffType r) "fixed" || seqb (rp_BackoffType r) "" then duration_mul (rp_BaseMs r) Millisecond
  else
    let base := of_int (rp_BaseMs r) in
    let max := fmul base (of_int 100) in
    let delay := fmul base (of_int (2 ^ attempt)) in
    let delay := if flt max delay then max else delay in
    let jitter := fmul (fmul delay (fdiv (of_int 1) (of_int 5))) (fsub (fmul unit_rand (of_int 2)) (of_int 1)) in
    duration_mul (to_int64 (fadd delay jitter)) Millisecond.

(** * Candidate bookkeeping *)

Definition hasRemainingEndpoint (eps : list Endpoint) (excluded : gset string) : bool :=
  existsb (fun ep => negb (bool_decide (ep_ID ep ∈ excluded))) eps.

Fixpoint index_of (id : string) (eps : list Endpoint) (i : Z) : option Z :=
  match eps with
  | [] => None
  | ep :: r => if seqb (ep_ID ep) id then Some i else index_of id r (i + 1)
  end.

(** The first endpoint after [previousID], cyclically, whose ID is not excluded. *)
Definition nextEndpointAfter (eps : list Endpoint) (excluded : gset string) (previousID : string) : option Endpoint :=
  match eps with
  | [] => None
  | _ =>
      let start := default (-1) (index_of previousID eps 0) in
      let at_step (k : nat) := eps !! Z.to_nat ((start + Z.of_nat k) mod Z.of_nat (length eps)) in
      List.find (fun ep => negb (bool_decide (ep_ID ep ∈ excluded))) (omap at_step (seq 1 (length eps)))
  end.

(** * The world of a call *)

Record world (S X : Type) := mkWorld { w_cb : CircuitBreakerManager; w_store : S; w_ext : X }.
Arguments mkWorld {S X}.
Arguments w_cb {S X}.
Arguments w_store {S X}.
Arguments w_ext {S X}.

Section cluster.
Context {S : Type} `{StateStore S} {X : Type}.

Abbreviation W := (world S X).
Abbreviation result := (world S X * GatewayContext * option goerror)%type.

Record ClusterInvoker := mkCluster {
  ci_discovery : W -> string -> W * (list Endpoint + goerror);
  ci_routers : list (W -> GatewayContext -> list Endpoint -> W * GatewayContext * list Endpoint);
  ci_lbs : gmap string (W -> GatewayContext -> list Endpoint -> W * GatewayContext * option Endpoint);
  ci_defaultLB : string;
  ci_retry : RetryPolicy;
  ci_enableActive : bool;
  (** [Invoke] of the [ProviderInvoker] of an endpoint. *)
  ci_invoke : Endpoint -> Time -> W -> GatewayContext -> result;
  (** [MatchErrorWithReason] of a retry policy, [MatchError] of a circuit-break policy. *)
  ci_retry_match : RetryPolicy -> Z -> string -> string -> string -> bool;
  ci_cb_match : CircuitBreakPolicy -> Z -> string -> string -> string -> bool;
  (** The trace header of the response writer. *)
  ci_writer_trace : option string
}.
Context (ci : ClusterInvoker).

(** * attempt_observer.go *)

Definition outcome_context (g : GatewayContext) (errMsg : string) (now : Time) : outcome_ctx :=
  mkOutcomeCtx (p_CircuitBreakPolicies <$> gPolicy g)
    (fun p => ci_cb_match ci p (getStatusCode (UpstreamResponse g)) (content_type (UpstreamResponse g)) errMsg
                (body_bytes (UpstreamBody g)))
    (Tenant g)
    ((fun r => (header_Get (req_Header r) "X-Trace-ID", header_Get (req_Header r) "X-Request-ID")) <$> Request g)
    (ci_writer_trace ci) now.

Definition slow_step (g : GatewayContext) (now : Time) (p : option CircuitBreakPolicy) : option string :=
  match p with
  | None => None
  | Some p =>
      let limit := duration_mul (cb_SlowCallDurationThreshold p) Millisecond in
      if seqb (cb_SlowCallMetric p) "TTFT" && (0 <? TTFT g) then
        if limit <? TTFT g then Some "slow call TTFT exceeded" else None
      else if seqb (cb_SlowCallMetric p) "RTT" || seqb (cb_SlowCallMetric p) "Duration" then
        if limit <? time_Sub now (UpstreamConnect g) then Some "slow call RTT exceeded" else None
      else None
  end.

(** The first policy whose slow-call limit is exceeded. *)
Definition sequentialSlowFailure (g : GatewayContext) (now : Time) : option string :=
  match gPolicy g with
  | None => None
  | Some p => head (omap (slow_step g now) (p_CircuitBreakPolicies p))
  end.

(** [clock 6]: [time.Since]; [clock 7] and [clock 8]: the store's own readings. *)
Definition recordLatency (w : W) (g : GatewayContext) (includeTTFT : bool) (clock : nat -> Time) : W :=
  match SelectedEndpoint g with
  | None => w
  | Some ep =>
      let s := fst (RecordLatency (w_store w) (ep_ID ep) (time_Sub (clock 6%nat) (UpstreamConnect g)) (clock 7%nat)) in
      let s := if includeTTFT && (0 <? TTFT g) then fst (RecordTTFT s (ep_ID ep) (TTFT g) (clock 8%nat)) else s in
      mkWorld (w_cb w) s (w_ext w)
  end.

Definition defaultFailurePenalty : float64 := of_int 3.
Definition defaultFailureMax : Duration := 30 * Second.

Definition resolveFailurePenaltyConfig (params : option (gmap string gvalue)) : float64 * Duration :=
  match params with
  | None => (defaultFailurePenalty, defaultFailureMax)
  | Some ps =>
      (match ps !! "latency_failure_penalty" with
       | Some (VFloat64 x) => x
       | Some (VInt x) => of_int x
       | _ => defaultFailurePenalty
       end, duration_param (ps !! "latency_failure_max") defaultFailureMax)
  end.

Definition resolveLatencyConfig (params : option (gmap string gvalue)) : Duration * string :=
  match params with
  | None => (5 * Minute, "total")
  | Some ps => (duration_param (ps !! "latency_window") (5 * Minute), metric_param (ps !! "latency_metric"))
  end.

Definition writePenalty (s : S) (metric id : string) (penalty : Duration) (now : Time) : S :=
  if seqb metric "ttft" then fst (RecordTTFT s id penalty now) else fst (RecordLatency s id penalty now).

(** A failed call is recorded as a multiple of the historical average, capped.
    [clock 6]: the store's clock for the average; [clock 7]: for the sample. *)
Definition recordFailurePenalty (w : W) (g : GatewayContext) (clock : nat -> Time) : W :=
  match SelectedEndpoint g with
  | None => w
  | Some ep =>
      let params := lb_params g in
      let '(multiplier, maxPenalty) := resolveFailurePenaltyConfig params in
      if feq multiplier fzero then w
      else
        let multiplier := if flt multiplier (of_int 1) then of_int 1 else multiplier in
        let '(window, metric) := resolveLatencyConfig params in
        let '(s, (avg, err)) := queryAvg (w_store w) metric window (ep_ID ep) (clock 6%nat) in
        let penalty :=
          if bool_decide (is_Some err) || (avg <=? 0) then maxPenalty
          else let p := to_int64 (fmul (of_int avg) multiplier) in if maxPenalty <? p then maxPenalty else p in
        mkWorld (w_cb w) (writePenalty s metric (ep_ID ep) penalty (clock 7%nat)) (w_ext w)
  end.

Definition with_cb (w : W) (cb : CircuitBreakerManager) : W := mkWorld cb (w_store w) (w_ext w).

(** [sequentialOutcome] with its deferred release: the lease ends here.
    [clock 4] is read by the slow-call check, [clock 5] by the breaker. *)
Definition sequentialOutcome (w : W) (g : GatewayContext) (lease : CircuitBreakerAttempt) (err : option goerror)
  (clock : nat -> Time) : W :=
  if errors_Is err ErrClientDisconnected || isExplicitlyNonRetryable err then
    with_cb w (fst (Release (w_cb w) lease))
  else
    match err with
    | Some e =>
        let '(cb, lease) := finish (w_cb w) lease (outcome_context g (Error_text e) (clock 5%nat)) false in
        let w := recordFailurePenalty (with_cb w cb) g clock in
        with_cb w (fst (Release (w_cb w) lease))
    | None =>
        let '(cb, lease) :=
          match sequentialSlowFailure g (clock 4%nat) with
          | Some slow => finish (w_cb w) lease (outcome_context g slow (clock 5%nat)) false
          | None => finish (w_cb w) lease (outcome_context g "" (clock 5%nat)) true
          end in
        let w := recordLatency (with_cb w cb) g true clock in
        with_cb w (fst (Release (w_cb w) lease))
    end.

(** * cluster.go *)

(** The router chain stops at the first empty result. *)
Fixpoint route_chain (routers : list (W -> GatewayContext -> list Endpoint -> W * GatewayContext * list Endpoint))
  (w : W) (g : GatewayContext) (eps : list Endpoint) : W * GatewayContext * list Endpoint :=
  match routers with
  | [] => (w, g, eps)
  | r :: rest =>
      match r w g eps with
      | (w, g, []) => (w, g, [])
      | (w, g, eps) => route_chain rest w g eps
      end
  end.

(** The balancer and the strategy name it was found under; the last resort, any registered
    one, is the first in the map's own order. *)
Definition pick_lb (g : GatewayContext) :
  option (string * (W -> GatewayContext -> list Endpoint -> W * GatewayContext * option Endpoint)) :=
  let find name := (fun lb => (name, lb)) <$> ci_lbs ci !! name in
  let from_policy := match lb_policy g with Some p => find (lbp_Type p) | None => None end in
  match from_policy with
  | Some x => Some x
  | None =>
      match find (ci_defaultLB ci) with
      | Some x => Some x
      | None => match find "round_robin" with Some x => Some x | None => head (map_to_list (ci_lbs ci)) end
      end
  end.

Definition retry_policy (g : GatewayContext) : RetryPolicy :=
  default (ci_retry ci) (invocation_policy g ≫= ip_RetryPolicy).

(** The endpoint to call: under round robin a retry moves on from the previous one in
    discovery order; [inr] is the error the loop returns. *)
Definition select_endpoint (w : W) (g : GatewayContext) (eps filtered : list Endpoint) (lastSelected : string) :
  W * GatewayContext * (Endpoint + goerror) :=
  match pick_lb g with
  | None => (w, g, inr (errorf "no load balancer strategy available"))
  | Some (strategy, lb) =>
      let finish_pick (r : W * GatewayContext * option Endpoint) :=
        match r with
        | (w, g, Some ep) => (w, g, inl ep)
        | (w, g, None) => (w, g, inr (default errNoAvailableEndpoint (FatalErr g)))
        end in
      if seqb strategy "round_robin" && negb (is_empty lastSelected) then
        let unavailable : gset string :=
          list_to_set (map ep_ID eps) ∖ list_to_set (map ep_ID filtered) in
        match nextEndpointAfter eps unavailable lastSelected with
        | None => (w, g, inr errNoAvailableEndpoint)
        | Some ep => if ep_HasProviderImpl ep then (w, g, inl ep) else finish_pick (lb w g [ep])
        end
      else finish_pick (lb w g filtered)
  end.

(** How an attempt ends: the loop returns, or goes on to the next attempt. *)
Inductive verdict := Return (err : option goerror) | Again.

(** Discovery, exclusion, routers: the candidates, or the error the loop returns. *)
Definition candidates (w : W) (g : GatewayContext) (excluded : gset string) :
  W * GatewayContext * ((list Endpoint * list Endpoint) + goerror) :=
  match ci_discovery ci w (Model g) with
  | (w, inr err) => (w, g, inr err)
  | (w, inl eps) =>
      match List.filter (fun ep => negb (bool_decide (ep_ID ep ∈ excluded))) eps with
      | [] => (w, g, inr errNoAvailableEndpoint)
      | filtered =>
          match route_chain (ci_routers ci) w g filtered with
          | (w, g, []) => (w, g, inr errNoAvailableEndpoint)
          | (w, g, routed) =>
              match FatalErr g with
              | Some e => (w, g, inr e)
              | None => (w, g, inl (eps, routed))
              end
          end
      end
  end.

(** The physical call with its lease: invoke, record the attempt, feed back the outcome. *)
Definition physical_call (w : W) (g : GatewayContext) (ep : Endpoint) (lease : CircuitBreakerAttempt)
  (clock : nat -> Time) : result :=
  let '(w, g, err) := ci_invoke ci ep (clock 2%nat) w g in
  let gone := errors_Is err ErrClientDisconnected in
  let g := if bool_decide (is_Some err) && negb gone && negb (bool_decide (is_Some (UpstreamError g)))
           then g <| UpstreamError := err |> else g in
  let g := RecordAttempt g (negb (bool_decide (is_Some err)) || gone) (clock 3%nat) in
  (sequentialOutcome w g lease err clock, g, err).

(** After a failed call: return, or exclude the endpoint and go on. *)
Definition after_failure (rp : RetryPolicy) (g : GatewayContext) (eps : list Endpoint) (excluded : gset string) (lastAttempt : bool)
  (err : goerror) : gset string * verdict :=
  if isExplicitlyNonRetryable (Some err) then (excluded, Return (Some err))
  else if 0 <? TTFT g then (excluded, Return (Some err))
  else if negb (ci_retry_match ci rp (getStatusCode (UpstreamResponse g)) (content_type (UpstreamResponse g))
                  (Error_text err) (body_bytes (UpstreamBody g))) then (excluded, Return (Some err))
  else
    let excluded := if IsExcludeFailedEndpoint rp
                    then match SelectedEndpoint g with Some e => {[ep_ID e]} ∪ excluded | None => excluded end
                    else excluded in
    if lastAttempt then (excluded, Return (Some err))
    else if negb (hasRemainingEndpoint eps excluded) then (excluded, Return (Some errNoAvailableEndpoint))
    else (excluded, Again).

(** One round of the loop. *)
Definition cluster_attempt (rp : RetryPolicy) (lastAttempt : bool) (clock : nat -> Time) (w : W) (g : GatewayContext)
  (excluded : gset string) (lastSelected : string) : W * GatewayContext * gset string * string * verdict :=
  let g := ResetAttempt g in
  match candidates w g excluded with
  | (w, g, inr err) => (w, g, excluded, lastSelected, Return (Some err))
  | (w, g, inl (eps, routed)) =>
      match select_endpoint w g eps routed lastSelected with
      | (w, g, inr err) => (w, g, excluded, lastSelected, Return (Some err))
      | (w, g, inl ep) =>
          match AcquireAttempt (w_cb w) (Some ep) (ci_enableActive ci) (clock 0%nat) (clock 1%nat) with
          | (cb, inr msg) =>
              let w := with_cb w cb in
              if negb (IsExcludeFailedEndpoint rp)
              then (w, g, excluded, ep_ID ep, Return (Some (errorf msg)))
              else
                let excluded := {[ep_ID ep]} ∪ excluded in
                (w, g, excluded, ep_ID ep, if lastAttempt then Return (Some (errorf msg)) else Again)
          | (cb, inl lease) =>
              let '(w, g, err) := physical_call (with_cb w cb) g ep lease clock in
              if errors_Is err ErrClientDisconnected then (w, g, excluded, ep_ID ep, Return err)
              else
                match err with
                | None => (w, g, excluded, ep_ID ep, Return None)
                | Some e =>
                    let '(excluded, v) := after_failure rp g eps excluded lastAttempt e in
                    (w, g, excluded, ep_ID ep, v)
                end
          end
      end
  end.

(** The loop; [None] when it runs out of attempts without having returned. *)
Fixpoint cluster_loop (rp : RetryPolicy) (n attempt : nat) (clock : nat -> nat -> Time) (w : W)
  (g : GatewayContext) (excluded : gset string) (lastSelected : string) :
  W * GatewayContext * option (option goerror) :=
  match n with
  | O => (w, g, None)
  | Datatypes.S n =>
      match cluster_attempt rp (n =? 0)%nat (clock attempt) w g excluded lastSelected with
      | (w, g, _, _, Return err) => (w, g, Some err)
      | (w, g, excluded, lastSelected, Again) =>
          cluster_loop rp n (Datatypes.S attempt) clock w g excluded lastSelected
      end
  end.

Definition max_attempts (rp : RetryPolicy) : nat := Z.to_nat (Z.max 1 (wrap64 (rp_Retry rp + 1))).

Definition Cluster_Invoke (clock : nat -> nat -> Time) (w : W) (g : GatewayContext) :
  W * GatewayContext * option (option goerror) :=
  let rp := retry_policy g in cluster_loop rp (max_attempts rp) 0 clock w g ∅ "".

(** * Laws of the collaborators *)

(** Routers and balancers choose among what they are given; nobody but the loop writes
    the attempt history; a provider call records the endpoint it was made to. *)
Record cluster_laws : Prop := {
  cl_router : forall r w g eps, r ∈ ci_routers ci ->
    (forall e, e ∈ snd (r w g eps) -> e ∈ eps) /\ History (snd (fst (r w g eps))) = History g;
  cl_lb : forall name lb w g eps, ci_lbs ci !! name = Some lb ->
    (forall e, snd (lb w g eps) = Some e -> e ∈ eps) /\ History (snd (fst (lb w g eps))) = History g;
  cl_invoke : forall ep t w g,
    History (snd (fst (ci_invoke ci ep t w g))) = History g /\
    SelectedEndpoint (snd (fst (ci_invoke ci ep t w g))) = Some ep
}.
Context (L : cluster_laws).

Lemma route_chain_subset rs : (forall r, r ∈ rs -> r ∈ ci_routers ci) -> forall w g eps w' g' out,
  route_chain rs w g eps = (w', g', out) -> (forall e, e ∈ out -> e ∈ eps) /\ History g' = History g.
Proof.
  intros Hrs. induction rs as [|r rs IH]; intros w g eps w' g' out; cbn [route_chain]; [by intros [= <- <- <-]|].
  destruct (cl_router L r w g eps) as [Sub Hist]; [apply Hrs; left|].
  destruct (r w g eps) as [[w1 g1] [|e l]] eqn:E; cbn [fst snd] in *.
  - intros [= <- <- <-]. split; [by intros ? ?%elem_of_nil|done].
  - intros R. destruct (IH ltac:(intros; apply Hrs; by right) _ _ _ _ _ _ R) as [S2 H2].
    split; [auto|congruence].
Qed.

Lemma candidates_spec w g excluded w' g' eps routed :
  candidates w g excluded = (w', g', inl (eps, routed)) ->
  History g' = History g /\ (forall e, e ∈ routed -> e ∈ eps /\ ep_ID e ∉ excluded).
Proof.
  unfold candidates. destruct (ci_discovery ci w (Model g)) as [w1 [l|err]]; [|done].
  destruct (List.filter _ l) as [|x xs] eqn:F; [done|].
  destruct (route_chain (ci_routers ci) w1 g (x :: xs)) as [[w2 g2] [|y ys]] eqn:R; [done|].
  apply route_chain_subset in R as [Sub Hist]; [|done].
  destruct (FatalErr g2); [done|]. intros [= <- <- <- <-]. split; [done|].
  intros e He. apply Sub in He. rewrite <- F in He. apply list_elem_of_In, filter_In in He as [He1 He2].
  apply negb_true_iff, bool_decide_eq_false in He2. split; [by apply list_elem_of_In|done].
Qed.

Lemma candidates_history w g excluded : History (snd (fst (candidates w g excluded))) = History g.
Proof.
  unfold candidates. destruct (ci_discovery ci w (Model g)) as [w1 [l|err]]; [|done].
  destruct (List.filter _ l) as [|x xs]; [done|].
  destruct (route_chain (ci_routers ci) w1 g (x :: xs)) as [[w2 g2] out] eqn:R.
  apply route_chain_subset in R as [_ Hist]; [|done]. destruct out; [done|]. by destruct (FatalErr g2).
Qed.

Lemma pick_lb_registered g name lb : pick_lb g = Some (name, lb) -> exists n, ci_lbs ci !! n = Some lb.
Proof.
  unfold pick_lb. intros E.
  assert (forall n, (fun lb => (n, lb)) <$> ci_lbs ci !! n = Some (name, lb) -> exists n, ci_lbs ci !! n = Some lb) as F.
  { intros n Hn. apply fmap_Some in Hn as (x & Hx & [= -> ->]). eauto. }
  revert E. set (fp := match lb_policy g with Some p => _ | None => None end).
  destruct fp as [x|] eqn:P.
  - intros [= ->]. subst fp. destruct (lb_policy g); [|done]. eauto.
  - destruct (_ <$> ci_lbs ci !! ci_defaultLB ci) as [x|] eqn:D; [intros [= ->]; eauto|].
    destruct (_ <$> ci_lbs ci !! "round_robin") as [x|] eqn:Q; [intros [= ->]; eauto|].
    intros Hd. destruct (map_to_list (ci_lbs ci)) as [|y ys] eqn:M; [done|]. cbn in Hd. simplify_eq.
    exists name. apply elem_of_map_to_list. rewrite M. left.
Qed.

Lemma nextEndpointAfter_spec eps excl prev e :
  nextEndpointAfter eps excl prev = Some e -> e ∈ eps /\ ep_ID e ∉ excl.
Proof.
  unfold nextEndpointAfter. destruct eps as [|x l] eqn:E; [done|]. rewrite <- E. intros F.
  apply find_some in F as [F1 F2]. apply negb_true_iff, bool_decide_eq_false in F2. split; [|done].
  apply list_elem_of_In, list_elem_of_omap in F1 as (k & _ & Hk). by eapply list_elem_of_lookup_2.
Qed.

(** The endpoint to call is one of the routed candidates (up to its ID). *)
Lemma select_endpoint_spec w g eps routed last w' g' ep :
  (forall e, e ∈ routed -> e ∈ eps) ->
  select_endpoint w g eps routed last = (w', g', inl ep) ->
  exists e, e ∈ routed /\ ep_ID e = ep_ID ep.
Proof.
  intros Sub. unfold select_endpoint. destruct (pick_lb g) as [[name lb]|] eqn:P; [|done].
  apply pick_lb_registered in P as [n Hn]. destruct (_ && _).
  - destruct (nextEndpointAfter _ _ _) as [x|] eqn:Nx; [|done].
    apply nextEndpointAfter_spec in Nx as [Hx Hx2].
    assert (exists e, e ∈ routed /\ ep_ID e = ep_ID x) as Ex.
    { assert (ep_ID x ∈ map ep_ID routed) as M.
      { destruct (decide (ep_ID x ∈ map ep_ID routed)) as [|Nin]; [done|]. exfalso. apply Hx2.
        apply elem_of_difference. rewrite !elem_of_list_to_set. split; [apply list_elem_of_fmap; eauto|done]. }
      apply list_elem_of_fmap in M as (e & E1 & E2). eauto. }
    destruct (ep_HasProviderImpl x); [by intros [= <- <- <-]|].
    destruct (cl_lb L n lb w g [x] Hn) as [Hl _]. destruct (lb w g [x]) as [[w1 g1] [y|]]; [|done].
    intros [= <- <- <-]. specialize (Hl y eq_refl). apply list_elem_of_singleton in Hl as ->. done.
  - destruct (cl_lb L n lb w g routed Hn) as [Hl _]. destruct (lb w g routed) as [[w1 g1] [y|]]; [|done].
    intros [= <- <- <-]. exists y. split; [by apply Hl|done].
Qed.

Lemma select_endpoint_history w g eps routed last :
  History (snd (fst (select_endpoint w g eps routed last))) = History g.
Proof.
  unfold select_endpoint. destruct (pick_lb g) as [[name lb]|] eqn:P; [|done].
  apply pick_lb_registered in P as [n Hn].
  assert (forall l, History (snd (fst (lb w g l))) = History g) as Hl by (intros l; apply (cl_lb L n lb w g l Hn)).
  destruct (_ && _).
  - destruct (nextEndpointAfter _ _ _) as [x|]; [|done]. destruct (ep_HasProviderImpl x); [done|].
    specialize (Hl [x]). by destruct (lb w g [x]) as [[w1 g1] [y|]].
  - specialize (Hl routed). by destruct (lb w g routed) as [[w1 g1] [y|]].
Qed.

Lemma physical_call_spec w g ep lease clk w' g' err :
  physical_call w g ep lease clk = (w', g', err) ->
  SelectedEndpoint g' = Some ep /\
  exists r, History g' = History g ++ [r] /\ ar_EndpointID r = ep_ID ep /\
    ar_Success r = negb (bool_decide (is_Some err)) || errors_Is err ErrClientDisconnected.
Proof.
  unfold physical_call. destruct (cl_invoke L ep (clk 2%nat) w g) as [Hh Hs].
  destruct (ci_invoke ci ep (clk 2%nat) w g) as [[w1 g1] e1]. cbn [fst snd] in Hh, Hs.
  set (g2 := if _ && _ && _ then _ else g1).
  assert (History g2 = History g1 /\ SelectedEndpoint g2 = SelectedEndpoint g1) as [H2 S2]
    by (subst g2; by destruct (_ && _ && _)).
  clearbody g2. intros [= <- <- <-]. split; [cbn; congruence|].
  eexists. split; [cbn; by rewrite H2, Hh|]. cbn. by rewrite S2, Hs.
Qed.

(** One round: at most one call, to an endpoint that is not excluded; if the loop goes
    on, the call has failed, and its endpoint is excluded now where failed endpoints are. *)
Lemma cluster_attempt_spec rp lastA clk w g excl ls w' g' excl' ls' v :
  cluster_attempt rp lastA clk w g excl ls = (w', g', excl', ls', v) ->
  (lastA = true -> v <> Again) /\
  exists new, History g' = History g ++ new /\ (length new <= 1)%nat /\
    Forall (fun r => ar_EndpointID r ∉ excl) new /\
    (v = Again -> excl ⊆ excl' /\ Forall (fun r => ar_Success r = false) new /\
       (IsExcludeFailedEndpoint rp = true -> Forall (fun r => ar_EndpointID r ∈ excl') new)).
Proof.
  unfold cluster_attempt.
  assert (History (ResetAttempt g) = History g) as H0 by done. set (g0 := ResetAttempt g) in *. clearbody g0.
  assert (forall h excl2 (v2 : verdict), h = History g -> excl ⊆ excl2 -> exists new, h = History g ++ new /\
    (length new <= 1)%nat /\ Forall (fun r => ar_EndpointID r ∉ excl) new /\
    (v2 = Again -> excl ⊆ excl2 /\ Forall (fun r => ar_Success r = false) new /\
       (IsExcludeFailedEndpoint rp = true -> Forall (fun r => ar_EndpointID r ∈ excl2) new))) as Nil.
  { intros h excl2 v2 -> Hs. exists []. rewrite app_nil_r. split_and!; [done|cbn; lia|done|]. by intros _. }
  pose proof (candidates_history w g0 excl) as Hc.
  destruct (candidates w g0 excl) as [[w1 g1] [[eps routed]|e]] eqn:C; cbn [fst snd] in Hc.
  2: { intros [= <- <- <- <- <-]. split; [done|]. apply Nil; [congruence|done]. }
  apply candidates_spec in C as [_ C].
  pose proof (select_endpoint_history w1 g1 eps routed ls) as Hs.
  destruct (select_endpoint w1 g1 eps routed ls) as [[w2 g2] [ep|e]] eqn:Q; cbn [fst snd] in Hs.
  2: { intros [= <- <- <- <- <-]. split; [done|]. apply Nil; [congruence|done]. }
  apply select_endpoint_spec in Q as (x & Hx & Ex); [|intros y Hy; by apply C].
  destruct (C x Hx) as [_ Nx]. rewrite Ex in Nx.
  destruct (AcquireAttempt _ _ _ _ _) as [cb [lease|msg]].
  2: { destruct (IsExcludeFailedEndpoint rp) eqn:Hex; cbn [negb]; [destruct lastA|]; intros [= <- <- <- <- <-]; (split; [done|]);
         (apply Nil; [congruence|set_solver]). }
  destruct (physical_call (with_cb w2 cb) g2 ep lease clk) as [[w3 g3] err] eqn:P.
  apply physical_call_spec in P as (Sel & r & Hr & Er & Sr).
  assert (History g3 = History g ++ [r]) as H3 by congruence.
  assert (forall excl2 (v2 : verdict), (v2 = Again -> excl ⊆ excl2 /\ (IsExcludeFailedEndpoint rp = true -> ep_ID ep ∈ excl2) /\ ar_Success r = false) ->
    exists new, History g3 = History g ++ new /\ (length new <= 1)%nat /\
      Forall (fun r => ar_EndpointID r ∉ excl) new /\
      (v2 = Again -> excl ⊆ excl2 /\ Forall (fun r => ar_Success r = false) new /\
         (IsExcludeFailedEndpoint rp = true -> Forall (fun r => ar_EndpointID r ∈ excl2) new))) as One.
  { intros excl2 v2 Hv. exists [r]. split_and!; [done|cbn; lia|by repeat constructor; rewrite Er|].
    intros Av. destruct (Hv Av) as (? & ? & ?). split_and!; [done|by repeat constructor|]. intros Hex. repeat constructor. rewrite Er. auto. }
  destruct (errors_Is err ErrClientDisconnected) eqn:G; [intros [= <- <- <- <- <-]; split; [done|by apply One]|].
  destruct err as [e|]; [|intros [= <- <- <- <- <-]; split; [done|by apply One]].
  unfold after_failure. rewrite Sel.
  destruct (isExplicitlyNonRetryable _); [intros [= <- <- <- <- <-]; split; [done|by apply One]|].
  destruct (0 <? TTFT g3); [intros [= <- <- <- <- <-]; split; [done|by apply One]|].
  destruct (negb (ci_retry_match ci _ _ _ _ _)); [intros [= <- <- <- <- <-]; split; [done|by apply One]|].
  destruct lastA; [intros [= <- <- <- <- <-]; split; [done|by apply One]|].
  destruct (negb (hasRemainingEndpoint _ _)); intros [= <- <- <- <- <-]; (split; [done|]); apply One; [done|].
  intros _. rewrite Sr, bool_decide_true by eauto. split_and!; [destruct (IsExcludeFailedEndpoint rp); set_solver|intros ->; set_solver|done].
Qed.

Lemma cluster_loop_spec rp clock n : forall att w g excl ls w' g' res,
  cluster_loop rp n att clock w g excl ls = (w', g', res) ->
  ((0 < n)%nat -> res <> None) /\
  exists new, History g' = History g ++ new /\ (length new <= n)%nat /\
    (IsExcludeFailedEndpoint rp = true -> NoDup (map ar_EndpointID new)) /\ Forall (fun r => ar_EndpointID r ∉ excl) new /\
    Forall (fun r => ar_Success r = false) (removelast new).
Proof.
  induction n as [|n IH]; intros att w g excl ls w' g' res E; cbn [cluster_loop] in E.
  { simplify_eq. split; [lia|]. exists []. rewrite app_nil_r. split_and!; [done|cbn; lia|constructor|done|done]. }
  destruct (cluster_attempt rp (n =? 0)%nat (clock att) w g excl ls) as [[[[w1 g1] excl1] ls1] v] eqn:A.
  apply cluster_attempt_spec in A as (Last & new & Hn & Ln & Fn & Ag).
  destruct v as [err|].
  - simplify_eq. split; [done|]. exists new. destruct new as [|r [|r2 new]]; [..|cbn in Ln; lia];
      (split_and!; [done|cbn; lia|intros _|done|done]); cbn; [constructor|apply NoDup_singleton].
  - destruct (Ag eq_refl) as (Sub & Fl & Fa).
    destruct (IH _ _ _ _ _ _ _ _ E) as (Res & new2 & Hn2 & Ln2 & Nd & F2 & Fs).
    split. { destruct n; [exfalso; by apply Last|]. intros _. apply Res. lia. }
    exists (new ++ new2). rewrite Hn2, Hn, <- app_assoc. split_and!; [done|rewrite length_app; lia| | |].
    + intros Hex. specialize (Fa Hex). specialize (Nd Hex). rewrite map_app. apply NoDup_app.
      split_and!; [|intros id (r & -> & Hr)%list_elem_of_fmap (r2 & E2 & Hr2)%list_elem_of_fmap|done].
      { destruct new as [|r [|r2 new]]; cbn in *; [constructor|apply NoDup_singleton|lia]. }
      rewrite Forall_forall in Fa, F2. specialize (Fa r Hr). apply (F2 r2 Hr2). by rewrite <- E2.
    + apply Forall_app. split; [done|]. eapply Forall_impl; [exact F2|]. cbn. set_solver.
    + destruct new2 as [|r2 l2].
      * rewrite app_nil_r. destruct new as [|r [|? ?]]; [done|done|cbn in Ln; lia].
      * rewrite removelast_app by done. by apply Forall_app.
Qed.
End cluster.

(** * The routers, balancers and invokers of the program *)

(** What the balancers remember: the counters of the round-robin balancers, current weights and connections. *)
Record balancer_state := mkBalancerState { bs_rr : gmap string Z; bs_affinity : gmap string Z; bs_session : gmap string Z; bs_wrr : gmap string Z; bs_conns : gmap string Z }.
#[global] Instance eta_balancer_state : Eta balancer_state := fun b => mkBalancerState (bs_rr b) (bs_affinity b) (bs_session b) (bs_wrr b) (bs_conns b).

Inductive router_kind := CapabilityRouter | CircuitBreakerRouter | PriorityRouter | TagRouter | TenantEndpointRouter.
Inductive balancer_kind := RoundRobinLB | WeightedRRLB | LeastConnectionsLB | LeastLatencyLB | CompositeLB | CostLB | RandomLB | WeightedRandomLB | AffinityLB | SessionHashLB.

Section parts.
Context {S : Type} `{StateStore S} {X : Type}.
Abbreviation PW := (world S (balancer_state * X)).

(** What they read of the outside: the clock, random numbers, the answers of the tenant whitelist, the prices of endpoints. *)
Record cluster_env := mkClusterEnv {
  ce_now : PW -> Time; ce_active : bool; ce_intn : PW -> nat -> nat -> Z -> Z; ce_rand : PW -> Z -> option Z;
  ce_smembers : option (PW -> string -> list string + string); ce_cached : PW -> string -> option (list string + string); ce_cache : PW -> option cache_write -> PW;
  ce_costWeight : float64; ce_latencyWeight : float64; ce_Sscanf : string -> float64; ce_json : JsonLib
}.
Context (E : cluster_env).

(** A panic has no place in the type of routers and balancers; it is an empty answer here. *)
Definition router_of (k : router_kind) (w : PW) (g : GatewayContext) (eps : list Endpoint) : PW * GatewayContext * list Endpoint :=
  match k with
  | CapabilityRouter => (w, g, Capability_Route g eps)
  | PriorityRouter => (w, g, Priority_Route eps)
  | CircuitBreakerRouter => let '(m, out) := CircuitBreaker_Route (w_cb w) (ce_active E) (ce_now E w) g eps in (mkWorld m (w_store w) (w_ext w), g, out)
  | TagRouter => (w, g, match Tag_Route (ce_intn E w) g eps with Ret out => out | Panic => [] end)
  | TenantEndpointRouter => let '(wr, out) := Tenant_Route ((fun f => f w) <$> ce_smembers E) (ce_cached E w) g eps in (ce_cache E w wr, g, out)
  end.

Definition with_balancers (w : PW) (b : balancer_state) : PW := mkWorld (w_cb w) (w_store w) (b, snd (w_ext w)).
Definition with_store (w : PW) (s : S) : PW := mkWorld (w_cb w) s (w_ext w).

Definition balancer_of (k : balancer_kind) (w : PW) (g : GatewayContext) (eps : list Endpoint) : PW * GatewayContext * option Endpoint :=
  let b := fst (w_ext w) in
  match k with
  | RoundRobinLB => let '(c, e) := RoundRobin_Select (bs_rr b) (Some g) eps in (with_balancers w (b <| bs_rr := c |>), g, e)
  | WeightedRRLB => let '(c, e) := WeightedRR_Select (bs_wrr b) eps in (with_balancers w (b <| bs_wrr := c |>), g, e)
  | LeastConnectionsLB => let '(c, e) := LeastConnections_Select (bs_conns b) eps in (with_balancers w (b <| bs_conns := c |>), g, e)
  | LeastLatencyLB => let '(s, e) := LeastLatency_Select (w_store w) g eps (ce_now E w) in (with_store w s, g, e)
  | CompositeLB => let '(s, e) := Composite_Select (ce_costWeight E) (ce_latencyWeight E) (ce_Sscanf E) (w_store w) (Some g) eps (ce_now E w) in (with_store w s, g, e)
  | CostLB => (w, g, match Cost_Select (ce_Sscanf E) eps with Ret e => e | Panic => None end)
  | RandomLB => (w, g, Random_Select (ce_rand E w) eps)
  | WeightedRandomLB => (w, g, WeightedRandom_Select (ce_rand E w) eps)
  | AffinityLB => let '(c, g', e) := Affinity_Select (bs_affinity b) (Some g) eps in (with_balancers w (b <| bs_affinity := c |>), default g g', e)
  | SessionHashLB => let '(c, e) := SessionHash_Select (Some (fun c eps => RoundRobin_Select c (Some g) eps)) (bs_session b) g eps in (with_balancers w (b <| bs_session := c |>), g, e)
  end.

(** The leaf: [ProviderInvoker] over the provider of the endpoint; a panic unwinds past the loop, as a failed call here. *)
Definition invoke_of (provider : Endpoint -> option (Invoker PW)) (ep : Endpoint) (t : Time) (w : PW) (g : GatewayContext) : PW * GatewayContext * option goerror :=
  match ProviderInvoker_Invoke (ce_json E) (provider ep) ep t w g with
  | Ret r => r
  | Panic => (w, g <| SelectedEndpoint := Some ep |>, Some (errorf "panic"))
  end.

(** The cluster invoker with routers and balancers of the program. *)
Definition cluster_of (discovery : PW -> string -> PW * (list Endpoint + goerror)) (routers : list router_kind) (lbs : gmap string balancer_kind) (defaultLB : string)
  (retry : RetryPolicy) (provider : Endpoint -> option (Invoker PW)) (retry_match : RetryPolicy -> Z -> string -> string -> string -> bool)
  (cb_match : CircuitBreakPolicy -> Z -> string -> string -> string -> bool) (trace : option string) : @ClusterInvoker S (balancer_state * X) :=
  mkCluster discovery (map router_of routers) (balancer_of <$> lbs) defaultLB retry (ce_active E) (invoke_of provider) retry_match cb_match trace.

(** ** They choose among what they are given *)

Lemma fold_choice {A} (P : A -> option Endpoint) (f : A -> Endpoint -> A) (eps : list Endpoint) :
  (forall st ep, P (f st ep) = P st \/ P (f st ep) = Some ep) -> forall l st, l ⊆ eps -> (forall e, P st = Some e -> e ∈ eps) ->
  forall e, P (fold_left f l st) = Some e -> e ∈ eps.
Proof.
  intros Hf. induction l as [|x l IH]; intros st Hl Hst; [done|]. cbn [fold_left]. apply IH; [set_solver|]. intros e.
  destruct (Hf st x) as [-> | ->]; [apply Hst|]. intros [= <-]. set_solver.
Qed.

Lemma min_step_choice measure st ep : snd (min_step measure st ep) = snd st \/ snd (min_step measure st ep) = Some ep.
Proof. unfold min_step. destruct st as [m sel]. destruct (_ || _); cbn; auto. Qed.

Lemma hash_endpoint_choice sid st ep : snd (hash_endpoint sid st ep) = snd st \/ snd (hash_endpoint sid st ep) = Some ep.
Proof.
  unfold hash_endpoint. generalize (seq 0 (hash_weight ep)) as l. intros l. revert st. induction l as [|i l IH]; intros st; [by left|]. cbn [fold_left].
  destruct (IH (hash_step sid ep st i)) as [-> | ->]; [|by right]. unfold hash_step. destruct st as [m b]. destruct (_ <? _); cbn; auto.
Qed.

Lemma round_robin_choice lb g eps e : snd (RoundRobin_Select lb g eps) = Some e -> e ∈ eps.
Proof. unfold RoundRobin_Select. destruct eps; [done|]. apply list_elem_of_lookup_2. Qed.

Lemma wrr_choice ws eps e : snd (WeightedRR_Select ws eps) = Some e -> e ∈ eps.
Proof.
  unfold WeightedRR_Select. destruct eps as [|x l] eqn:El; [done|]. rewrite <- El. set (init := fold_left _ eps ws).
  pose proof (fold_choice (fun st : gmap string Z * Z * option Endpoint => snd st) wrr_step eps) as F.
  specialize (F ltac:(intros [[a b] c] ep; cbn; destruct (_ || _); cbn; auto) eps (init, -1, None) ltac:(done) ltac:(done)).
  destruct (fold_left wrr_step eps (init, -1, None)) as [[a b] [y|]]; [|done]. cbn in *. intros [= <-]. by apply F.
Qed.

Lemma conns_choice cs eps e : snd (LeastConnections_Select cs eps) = Some e -> e ∈ eps.
Proof.
  unfold LeastConnections_Select. set (cs' := fold_left _ eps cs).
  pose proof (fold_choice (fun st : Z * option Endpoint => snd st) (min_step (fun ep => default 0 (cs' !! ep_ID ep))) eps ltac:(intros; apply min_step_choice) eps (-1, None) ltac:(done) ltac:(done)) as F.
  destruct (fold_left (min_step _) eps (-1, None)) as [m [y|]]; cbn in *; [|done]. intros [= <-]. by apply F.
Qed.

Lemma latency_choice s g eps now e : snd (LeastLatency_Select (S := S) s g eps now) = Some e -> e ∈ eps.
Proof.
  unfold LeastLatency_Select. destruct eps as [|x l] eqn:El; [done|]. rewrite <- El. destruct (resolveConfig (Some g)) as [window metric].
  pose proof (fold_choice (fun st : S * (Duration * option Endpoint) => snd (snd st)) (latency_step metric window now) eps) as F.
  assert (forall st ep, snd (snd (latency_step metric window now st ep)) = snd (snd st) \/ snd (snd (latency_step metric window now st ep)) = Some ep) as Hs.
  { intros [s0 best] ep. unfold latency_step. destruct (queryAvg s0 metric window (ep_ID ep) now) as [s1 [avg [err|]]]; cbn; [by left|]. apply min_step_choice. }
  specialize (F Hs eps (s, (-1, None)) ltac:(done) ltac:(done)). destruct (fold_left _ eps _) as [s1 [m [y|]]]; cbn in *; intros [= <-]; [by apply F|subst eps; by left].
Qed.

Lemma best_score_choice rows : forall b : Endpoint * float64, fst (fold_left best_score rows b) ∈ map fst (b :: rows).
Proof.
  induction rows as [|r rows IH]; intros b; [by left|]. cbn [fold_left]. specialize (IH (best_score b r)).
  assert (best_score b r = r \/ best_score b r = b) as Hb by (unfold best_score; destruct (flt _ _); auto).
  cbn [map] in *. destruct Hb as [Hb|Hb]; rewrite Hb in *; rewrite !elem_of_cons in *; tauto.
Qed.

Lemma composite_choice cw lw scan s g eps now e : snd (Composite_Select (S := S) cw lw scan s g eps now) = Some e -> e ∈ eps.
Proof.
  unfold Composite_Select. destruct eps as [|x l] eqn:El; [done|]. rewrite <- El.
  assert (forall l (st : S * (float64 * Duration) * list (Endpoint * float64 * Duration)), l ⊆ eps -> (forall r, r ∈ snd st -> fst (fst r) ∈ eps) ->
    forall r, r ∈ snd (fold_left (collect_step scan now) l st) -> fst (fst r) ∈ eps) as C.
  { induction l0 as [|y l0 IH]; intros st Hl Hst; [done|]. cbn [fold_left]. apply IH; [set_solver|]. destruct st as [[s0 [mc ml]] rows]. unfold collect_step.
    destruct (GetAvgLatency s0 _ _ _) as [s1 [lat ?]]. cbn in *. intros r [Hr|Hr]%elem_of_app; [by apply Hst|]. apply list_elem_of_singleton in Hr as ->. cbn. set_solver. }
  specialize (C eps (s, (fzero, 0), []) ltac:(done) ltac:(cbn; set_solver)).
  destruct (fold_left (collect_step scan now) eps (s, (fzero, 0), [])) as [[s1 [mc ml]] rows]. cbn [snd] in C.
  set (cw' := match g ≫= lb_params with Some ps => default cw _ | None => cw end). set (lw' := match g ≫= lb_params with Some ps => default lw _ | None => lw end).
  destruct (map (composite_score cw' lw' mc ml) rows) as [|f rest] eqn:Em; [done|]. cbn. intros [= <-].
  pose proof (best_score_choice rest f) as Hb. rewrite <- Em in Hb. apply list_elem_of_fmap in Hb as (y & -> & Hy). apply list_elem_of_fmap in Hy as ([[ep c] lt] & -> & Hr).
  exact (C _ Hr).
Qed.

Lemma cost_choice scan eps e : Cost_Select scan eps = Ret (Some e) -> e ∈ eps.
Proof.
  unfold Cost_Select. destruct eps as [|x l] eqn:El; [done|]. rewrite <- El.
  pose proof (fold_choice (fun st : float64 * option Endpoint => snd st) (cost_step scan) eps) as F.
  specialize (F ltac:(intros [a b] ep; unfold cost_step; destruct (flt _ a); cbn; auto) eps (MaxFloat64, None) ltac:(done) ltac:(done)).
  destruct (snd (fold_left (cost_step scan) eps (MaxFloat64, None))) as [y|] eqn:Q; [|done]. intros [= <-]. by apply F.
Qed.

Lemma random_choice rand eps e : Random_Select rand eps = Some e -> e ∈ eps.
Proof. unfold Random_Select. destruct eps; [done|]. apply list_elem_of_lookup_2. Qed.

Lemma cumulative_choice r eps : forall cum e, pick_cumulative r cum eps = Some e -> e ∈ eps.
Proof. induction eps as [|x l IH]; intros cum e; cbn; [done|]. destruct (_ <? _); [intros [= <-]; by left|]. intros Q. right. by eapply IH. Qed.

Lemma weighted_random_choice rand eps e : WeightedRandom_Select rand eps = Some e -> e ∈ eps.
Proof.
  unfold WeightedRandom_Select. destruct eps as [|x l] eqn:El; [done|]. rewrite <- El. destruct (pick_cumulative _ 0 eps) eqn:C.
  - intros [= <-]. by eapply cumulative_choice.
  - intros Q. by apply last_Some_elem_of.
Qed.

Lemma affinity_choice lb g eps : (forall e, snd (Affinity_Select lb (Some g) eps) = Some e -> e ∈ eps) /\
  exists g', snd (fst (Affinity_Select lb (Some g) eps)) = Some g' /\ History g' = History g.
Proof.
  unfold Affinity_Select. destruct eps as [|x l] eqn:El; [split; [done|by eexists]|]. rewrite <- El. destruct (affinity_config (Some g)) as [[st sk] ad].
  pose proof (fun e => round_robin_choice lb (Some g) eps e) as R. destruct (RoundRobin_Select lb (Some g) eps) as [lb' e'].
  destruct (is_empty _); [split; [exact R|by eexists]|]. destruct (List.find _ eps) as [y|] eqn:F.
  - split; [|by eexists]. cbn. intros e [= <-]. apply find_some in F as [F _]. by apply list_elem_of_In.
  - destruct ad; [split; [exact R|by eexists]|]. split; [done|]. by eexists.
Qed.

Lemma session_choice f g eps (fb : gmap string Z -> list Endpoint -> gmap string Z * option Endpoint) e :
  (forall e, snd (fb f eps) = Some e -> e ∈ eps) -> snd (SessionHash_Select (Some fb) f g eps) = Some e -> e ∈ eps.
Proof.
  intros Hf. unfold SessionHash_Select. destruct eps as [|x l] eqn:El; [done|]. rewrite <- El in *. destruct (is_empty _); [apply Hf|]. cbn. unfold hash_select.
  by apply (fold_choice (fun st : Z * option Endpoint => snd st) _ eps); [intros; apply hash_endpoint_choice|..].
Qed.

Lemma filter_subset_list {A} (f : A -> bool) l (x : A) : x ∈ List.filter f l -> x ∈ l.
Proof. rewrite elem_of_filter_bool. tauto. Qed.

Lemma breaker_route_choice m act now g eps e : e ∈ snd (CircuitBreaker_Route m act now g eps) -> e ∈ eps.
Proof.
  unfold CircuitBreaker_Route. destruct eps as [|x l] eqn:El; [done|]. rewrite <- El. destruct (match gPolicy g with Some p => _ | None => _ end) as [|o l0]; [done|].
  pose proof (allow_split_subset service_key act now eps (fold_left (check_policy eps) (o :: l0) (bind_models m eps))) as A.
  destruct (allow_split _ _ _ _ _) as [m1 [passed no]]. destruct A as [A _].
  destruct passed as [|y ys] eqn:Ep; [intros He; by apply elem_of_nil in He|]. rewrite <- Ep in *. destruct (outlier_cap _) as [has pct]. destruct (eject_groups _ _ _ _ _ _ _) as [m2 ej].
  cbn. intros He%filter_subset_list. by eapply elem_of_sublist.
Qed.

Lemma router_of_laws k w g eps : (forall e, e ∈ snd (router_of k w g eps) -> e ∈ eps) /\ History (snd (fst (router_of k w g eps))) = History g.
Proof.
  destruct k; cbn [router_of].
  - split; [|done]. intros e. apply filter_subset_list.
  - pose proof (fun e => breaker_route_choice (w_cb w) (ce_active E) (ce_now E w) g eps e) as B. by destruct (CircuitBreaker_Route _ _ _ _ _).
  - split; [|done]. intros e. unfold Priority_Route. destruct eps; [done|]. apply filter_subset_list.
  - split; [|done]. destruct (Tag_Route (ce_intn E w) g eps) as [out|] eqn:T; [|intros e He; by apply elem_of_nil in He].
    intros e He. apply tag_route_never_starves in T as [Sb _]. by eapply elem_of_sublist.
  - assert (forall e, e ∈ snd (Tenant_Route ((fun f => f w) <$> ce_smembers E) (ce_cached E w) g eps) -> e ∈ eps) as B; [|by destruct (Tenant_Route _ _ _ _)].
    assert (forall al e, e ∈ tenant_filter eps al -> e ∈ eps) as Tf by (intros [|a al] e; [done|apply filter_subset_list]).
    unfold Tenant_Route. intros e. repeat case_match; cbn; auto; apply Tf.
Qed.

Lemma balancer_of_laws k w g eps : (forall e, snd (balancer_of k w g eps) = Some e -> e ∈ eps) /\ History (snd (fst (balancer_of k w g eps))) = History g.
Proof.
  destruct k; cbn [balancer_of].
  - pose proof (fun e => round_robin_choice (bs_rr (fst (w_ext w))) (Some g) eps e) as B. by destruct (RoundRobin_Select _ _ _).
  - pose proof (fun e => wrr_choice (bs_wrr (fst (w_ext w))) eps e) as B. by destruct (WeightedRR_Select _ _).
  - pose proof (fun e => conns_choice (bs_conns (fst (w_ext w))) eps e) as B. by destruct (LeastConnections_Select _ _).
  - pose proof (fun e => latency_choice (w_store w) g eps (ce_now E w) e) as B. by destruct (LeastLatency_Select _ _ _ _).
  - pose proof (fun e => composite_choice (ce_costWeight E) (ce_latencyWeight E) (ce_Sscanf E) (w_store w) (Some g) eps (ce_now E w) e) as B. by destruct (Composite_Select _ _ _ _ _ _ _).
  - split; [|done]. cbn. intros e. destruct (Cost_Select _ _) as [x|] eqn:C; [|done]. intros ->. by eapply cost_choice.
  - split; [|done]. intros e. apply random_choice.
  - split; [|done]. intros e. apply weighted_random_choice.
  - pose proof (affinity_choice (bs_affinity (fst (w_ext w))) g eps) as [B (g' & Eg & Hg)]. destruct (Affinity_Select _ _ _) as [[c gx] e]. cbn in *. subst gx. by split.
  - pose proof (fun e => session_choice (bs_session (fst (w_ext w))) g eps (fun c eps => RoundRobin_Select c (Some g) eps) e ltac:(apply round_robin_choice)) as B.
    by destruct (SessionHash_Select _ _ _ _).
Qed.

(** A provider that leaves the attempt history and the selected endpoint to its callers. *)
Definition keeps_attempt (call : Invoker PW) : Prop :=
  forall w g, History (snd (fst (call w g))) = History g /\ SelectedEndpoint (snd (fst (call w g))) = SelectedEndpoint g.

Lemma invoke_of_laws provider ep t w g : (forall call, provider ep = Some call -> keeps_attempt call) ->
  History (snd (fst (invoke_of provider ep t w g))) = History g /\ SelectedEndpoint (snd (fst (invoke_of provider ep t w g))) = Some ep.
Proof.
  intros K. unfold invoke_of, ProviderInvoker_Invoke. set (g0 := g <| SelectedInvoker := _ |> <| SelectedEndpoint := _ |> <| UpstreamConnect := _ |>).
  assert (History g0 = History g /\ SelectedEndpoint g0 = Some ep) as [H0 S0] by done. clearbody g0.
  destruct (provider ep) as [call|]; [|by split]. specialize (K call eq_refl). destruct (needs_rewrite g0 ep).
  - destruct (replaceModelInBody _ _ _) as [body|]; [|by split]. destruct (K w (g0 <| Model := EffectiveModel ep |> <| RawBody := body |>)) as [A B].
    destruct (call w _) as [[w1 g1] e1]. cbn in *. by rewrite A, B.
  - destruct (K w g0) as [A B]. destruct (call w g0) as [[w1 g1] e1]. cbn in *. by rewrite A, B.
Qed.

Lemma cluster_of_laws discovery routers lbs defaultLB retry provider rm cm trace : (forall ep call, provider ep = Some call -> keeps_attempt call) ->
  cluster_laws (cluster_of discovery routers lbs defaultLB retry provider rm cm trace).
Proof.
  intros K. split; cbn.
  - intros r w g eps Hr. apply list_elem_of_fmap in Hr as (k & -> & _). apply router_of_laws.
  - intros name lb w g eps Hl. apply lookup_fmap_Some in Hl as (k & <- & _). apply balancer_of_laws.
  - intros ep t w g. apply invoke_of_laws. eauto.
Qed.
End parts.

(** * Theorems *)

(** C3: a call of the cluster invoker, over any discovery, with any list of the routers and any table of the balancers of the program, and with
    [ProviderInvoker] as the leaf, makes at most [retry + 1] physical calls (one where that is not positive), to pairwise different
    endpoints when failed endpoints are excluded (the default), and goes on to another
    call only after a failed one: every attempt in the history but the last one is a
    failure. The providers are assumed to leave the attempt history and the selected endpoint of the context to their callers,
    as those of the program do ([provider_invoker_keeps]). A panic of a router, a balancer or a provider, which ends the request, counts as an empty choice or a failed call. *)
Theorem cluster_retries_distinct {S : Type} `{StateStore S} {X : Type} (E : cluster_env) (discovery : world S (balancer_state * X) -> string -> world S (balancer_state * X) * (list Endpoint + goerror))
  (routers : list router_kind) (lbs : gmap string balancer_kind) (defaultLB : string) (retry : RetryPolicy) (provider : Endpoint -> option (Invoker (world S (balancer_state * X))))
  (retry_match : RetryPolicy -> Z -> string -> string -> string -> bool) (cb_match : CircuitBreakPolicy -> Z -> string -> string -> string -> bool) (trace : option string)
  (clock : nat -> nat -> Time) (w w' : world S (balancer_state * X)) (g g' : GatewayContext) (res : option (option goerror))
  (Hprovider : forall ep call, provider ep = Some call -> keeps_attempt call)
  (Hrun : Cluster_Invoke (cluster_of E discovery routers lbs defaultLB retry provider retry_match cb_match trace) clock w g = (w', g', res)) :
  let rp := default retry (invocation_policy g ≫= ip_RetryPolicy) in
  exists new, History g' = History g ++ new /\ Z.of_nat (length new) <= Z.max 1 (wrap64 (rp_Retry rp + 1)) /\
    (IsExcludeFailedEndpoint rp = true -> NoDup (map ar_EndpointID new)) /\ Forall (fun r => ar_Success r = false) (removelast new).
Proof.
  intros rp. unfold Cluster_Invoke in Hrun. apply (cluster_loop_spec _ (cluster_of_laws E discovery routers lbs defaultLB retry provider retry_match cb_match trace Hprovider)) in Hrun as (_ & new & Eh & Ln & Nd & _ & Fs).
  change (retry_policy (cluster_of E discovery routers lbs defaultLB retry provider retry_match cb_match trace) g) with rp in *.
  exists new. split_and!; [done| |done|done]. unfold max_attempts in Ln. lia.
Qed.

(** A cluster over three endpoints whose provider always answers 500, with two retries. *)
Definition demo_cluster : @ClusterInvoker MemoryStateStore unit := mkCluster
  (fun w _ => (w, inl (map (fun id => mkEndpoint id id "" "p" "" "m" "" ∅ 1 0 [] true true ∅ "" "" "openai" 0 0
                                       None None None None) ["a"; "b"; "c"])))
  [] {["round_robin" := fun w g eps => (w, g, head eps)]} "round_robin"
  (mkRetryPolicy 2 "fixed" 100 [] [] None None 0 0 0 0 None 1) false
  (fun ep t w g => (w, g <| SelectedEndpoint := Some ep |> <| UpstreamConnect := t |>, Some (errorf "boom")))
  (fun _ _ _ _ _ => true) (fun _ _ _ _ _ => true) None.

Definition demo_call : GatewayContext := emptyContext <| Model := "m" |>.

(** The same pool behind the priority and breaker routers and the round-robin balancer of the program; every provider answers 500. *)
Definition demo_env : @cluster_env MemoryStateStore unit := mkClusterEnv (fun _ => 7) true (fun _ _ _ _ => 0) (fun _ _ => None) None (fun _ _ => None) (fun w _ => w)
  fzero fzero (fun _ => fzero) (mkJsonLib (fun _ => None) (fun _ => None) (fun s => s)).
Definition demo_provider_call (ep : Endpoint) : option (Invoker (world MemoryStateStore (balancer_state * unit))) := Some (fun w g => (w, g, Some (errorf "boom"))).
Definition demo_standard : @ClusterInvoker MemoryStateStore (balancer_state * unit) :=
  cluster_of demo_env
    (fun w _ => (w, inl (map (fun id => mkEndpoint id id "" "p" "" "m" "" ∅ 1 0 [] true true ∅ "" "" "openai" 0 0 None None None None) ["a"; "b"; "c"])))
    [CircuitBreakerRouter; PriorityRouter] {["round_robin" := RoundRobinLB]} "round_robin" (mkRetryPolicy 2 "fixed" 100 [] [] None None 0 0 0 0 None 1) demo_provider_call
    (fun _ _ _ _ _ => true) (fun _ _ _ _ _ => true) None.

Lemma cluster_retries_distinct_witness :
  exists new, History (snd (fst (Cluster_Invoke demo_standard (fun a i => Z.of_nat (10 * a + i) + 1)
      (mkWorld NewCircuitBreakerManager NewMemoryStateStore (mkBalancerState ∅ ∅ ∅ ∅ ∅, tt)) demo_call))) = new /\
    map ar_EndpointID new = ["a"; "b"; "c"] /\ NoDup (map ar_EndpointID new).
Proof.
  destruct (Cluster_Invoke demo_standard (fun a i => Z.of_nat (10 * a + i) + 1)
    (mkWorld NewCircuitBreakerManager NewMemoryStateStore (mkBalancerState ∅ ∅ ∅ ∅ ∅, tt)) demo_call) as [[w' g'] res] eqn:R.
  destruct (cluster_retries_distinct demo_env _ _ _ _ _ demo_provider_call _ _ _ (fun a i => Z.of_nat (10 * a + i) + 1) _ w' demo_call g' res ltac:(intros ep call Hc; unfold demo_provider_call in Hc; injection Hc as <-; by split) R) as (new & H1 & H2 & H3 & _).
  exists new. split; [exact H1|]. split; [|exact (H3 eq_refl)].
  change (History demo_call ++ new) with new in H1. subst new. vm_compute in R. injection R as _ <- _. reflexivity.
Defined.

Lemma cluster_attempt_last {S : Type} `{StateStore S} {X : Type} (ci : @ClusterInvoker S X) rp clk
  (w : world S X) g excl ls : snd (cluster_attempt ci rp true clk w g excl ls) <> Again.
Proof.
  unfold cluster_attempt. destruct (candidates _ _ _ _) as [[w1 g1] [[eps routed]|e]]; [|done].
  destruct (select_endpoint _ _ _ _ _ _) as [[w2 g2] [ep|e]]; [|done].
  destruct (AcquireAttempt _ _ _ _ _) as [cb [lease|msg]]; [|by destruct (negb _)].
  destruct (physical_call _ _ _ _ _ _) as [[w3 g3] err]. destruct (errors_Is _ _); [done|].
  destruct err as [e|]; [|done].
  assert (snd (after_failure ci rp g3 eps excl true e) <> Again) as A.
  { unfold after_failure. destruct (isExplicitlyNonRetryable _); [done|]. destruct (0 <? TTFT g3); [done|].
    by destruct (negb _). }
  by destruct (after_failure ci rp g3 eps excl true e).
Qed.

(** The retry loop always returns from inside: it never runs past its last attempt, so
    the code after the loop, which would restore the fields of the last physical call,
    is unreachable. *)
Theorem cluster_always_returns {S : Type} `{StateStore S} {X : Type} (ci : @ClusterInvoker S X)
  (clock : nat -> nat -> Time) (w : world S X) (g : GatewayContext) :
  snd (Cluster_Invoke ci clock w g) <> None.
Proof.
  unfold Cluster_Invoke. set (rp := retry_policy ci g). clearbody rp.
  assert (forall n att excl ls w g, n <> 0%nat -> snd (cluster_loop ci rp n att clock w g excl ls) <> None) as F;
    [|apply F; unfold max_attempts; lia].
  clear w g. induction n as [|n IH]; intros att excl ls w g N; [done|]. cbn [cluster_loop].
  pose proof (cluster_attempt_last ci rp (clock att) w g excl ls) as A.
  destruct n as [|n]; cbn [Nat.eqb].
  - by destruct (cluster_attempt ci rp true (clock att) w g excl ls) as [[[[w1 g1] e1] l1] [err|]].
  - destruct (cluster_attempt ci rp false (clock att) w g excl ls) as [[[[w1 g1] e1] l1] [err|]]; [done|].
    by apply IH.
Qed.

(** A physical call gives its probe permits back: after the call of an admitted
    attempt, whatever the provider returned - success, failure, slow call, non-retryable
    error, client gone - neither breaker of the endpoint counts a half-open call any
    more (provider calls do not touch the breaker manager themselves). *)
Theorem physical_call_returns_permits {S : Type} `{StateStore S} {X : Type} (ci : @ClusterInvoker S X)
  (w : world S X) (g : GatewayContext) (ep : Endpoint) (cb : CircuitBreakerManager) (lease : CircuitBreakerAttempt)
  (clock : nat -> Time) (k : string)
  (Hwf : manager_wf (w_cb w)) (Htok : tokens_left (w_cb w)) (Hkeys : service_key ep <> ep_ID ep)
  (Hacq : AcquireAttempt (w_cb w) (Some ep) (ci_enableActive ci) (clock 0%nat) (clock 1%nat) = (cb, inl lease))
  (Hcall : forall t w g, w_cb (fst (fst (ci_invoke ci ep t w g))) = w_cb w)
  (Hk : k = service_key ep \/ k = ep_ID ep) :
  active_at (w_cb (fst (fst (physical_call ci (with_cb w cb) g ep lease clock)))) k = 0.
Proof.
  pose proof (AcquireAttempt_wf (w_cb w) (Some ep) (ci_enableActive ci) (clock 0%nat) (clock 1%nat) Hwf) as W.
  rewrite Hacq in W. cbn [fst] in W.
  destruct (AcquireAttempt_settled _ _ _ _ _ _ _ Hwf Htok Hkeys Hacq) as (E & D & Se).
  unfold physical_call. specialize (Hcall (clock 2%nat) (with_cb w cb) g).
  destruct (ci_invoke ci ep (clock 2%nat) (with_cb w cb) g) as [[w1 g1] err]. cbn [fst snd] in *.
  change (w_cb (with_cb w cb)) with cb in Hcall. set (g2 := RecordAttempt _ _ _). clearbody g2.
  pose proof (fun c b => finish_settled cb lease ep c b k W Hkeys D E Se Hk) as F.
  unfold sequentialOutcome. rewrite Hcall. destruct (_ || _); [exact (proj1 (proj2 (F (outcome_context ci g2 "" 0) true)))|].
  assert (forall c b (f : world S X -> world S X), (forall x, w_cb (f x) = w_cb x) ->
    active_at (w_cb (let '(cb', l) := finish cb lease c b in
      let w2 := f (with_cb w1 cb') in with_cb w2 (fst (Release (w_cb w2) l)))) k = 0) as G.
  { intros c b f Hf. destruct (F c b) as (A & _ & Dn). destruct (finish cb lease c b) as [cb' l]. cbn [fst snd] in *.
    cbn zeta. unfold Release. rewrite Dn. cbn [fst with_cb w_cb]. by rewrite Hf. }
  destruct err as [e|].
  - apply (G _ _ (fun x => recordFailurePenalty x g2 clock)). intros x. unfold recordFailurePenalty.
    by repeat split_match.
  - destruct (sequentialSlowFailure g2 (clock 4%nat));
      apply (G _ _ (fun x => recordLatency x g2 true clock)); intros x; unfold recordLatency; by split_match.
Qed.

Lemma physical_call_returns_permits_witness :
  match snd demo_probing with
  | inl lease =>
      active_at (w_cb (fst (fst (physical_call demo_cluster
        (with_cb (mkWorld demo_open NewMemoryStateStore tt) (fst demo_probing)) emptyContext demo_endpoint lease
        (fun _ => 1000000005))))) "ep-1" = 0
  | inr _ => False
  end.
Proof.
  destruct demo_open_ok as [Hw Ht].
  refine (physical_call_returns_permits demo_cluster (mkWorld demo_open NewMemoryStateStore tt) emptyContext
    demo_endpoint (fst demo_probing) _ (fun _ => 1000000005) "ep-1" Hw Ht _ _ _ (or_intror eq_refl)).
  - discriminate.
  - vm_compute. reflexivity.
  - reflexivity.
Defined.
