(* ===== verification/Hedging.v ===== *)
(** pkg/invoker/hedging.go: two calls racing for the first byte.

    The two sub-calls and the waiting call run as goroutines; the race is a step relation
    on the shared session, one rule per critical section or channel operation, so
    that every interleaving is a run.  What a provider does between its writes is not
    known: it may change its own context in any way but for the selected endpoint.  Channels are queues with their
    capacity; the two sides of the race are [SideA] and [SideB]. *)

From S2P Require Import Prelude GoFloat GoStrings GoTime Matcher Policy Types Context Http Store Balancers.
From S2P Require Import Breaker BreakerLease BreakerManager Cluster.

(** * Choice of the endpoints *)

Section select.
Context {S : Type} `{StateStore S} {X : Type} (ci : @ClusterInvoker S X).
Abbreviation W := (world S X).

Definition hedging_lb (g : GatewayContext) : option (W -> GatewayContext -> list Endpoint -> W * GatewayContext * option Endpoint) :=
  match (lb_policy g ≫= fun p => ci_lbs ci !! lbp_Type p) with
  | Some lb => Some lb
  | None => match ci_lbs ci !! ci_defaultLB ci with Some lb => Some lb | None => ci_lbs ci !! "round_robin" end
  end.

Definition selectTwoEndpoints (w : W) (g : GatewayContext) (eps : list Endpoint) :
  W * GatewayContext * (option Endpoint * option Endpoint) :=
  match hedging_lb g with
  | None => (w, g, (None, None))
  | Some lb =>
      match lb w g eps with
      | (w, g, None) => (w, g, (None, None))
      | (w, g, Some a) =>
          match List.filter (fun ep => negb (seqb (ep_ID ep) (ep_ID a))) eps with
          | [] => (w, g, (Some a, None))
          | remaining => let '(w, g, b) := lb w g remaining in (w, g, (Some a, b))
          end
      end
  end.

Definition hedge_delay (g : GatewayContext) : Duration :=
  match invocation_policy g ≫= ip_RetryPolicy with
  | Some rp => if 0 <? rp_BaseMs rp then duration_mul (rp_BaseMs rp) Millisecond else 300 * Millisecond
  | None => 300 * Millisecond
  end.

(** How an invocation starts: it ends at once, goes to the serial invoker, or races. *)
Inductive hedging_start :=
| HedgeReturn (err : goerror)
| HedgeSerial
| HedgeRace (a b : Endpoint) (delay : Duration).

Definition no_serial (serial : bool) (err : goerror) : hedging_start := if serial then HedgeSerial else HedgeReturn err.

Definition hedging_begin (serial : bool) (w : W) (g : GatewayContext) : W * GatewayContext * hedging_start :=
  match ci_discovery ci w (Model g) with
  | (w, inr err) => (w, g, HedgeReturn err)
  | (w, inl eps) =>
      let '(w, g, eps) := route_chain (ci_routers ci) w g eps in
      match eps with
      | _ :: _ :: _ =>
          match selectTwoEndpoints w g eps with
          | (w, g, (Some a, Some b)) => (w, g, HedgeRace a b (hedge_delay g))
          | (w, g, _) => (w, g, no_serial serial (errorf "hedging failed: failed to select two endpoints"))
          end
      | _ => (w, g, no_serial serial (errorf "hedging failed: less than 2 endpoints and no fallback invoker"))
      end
  end.

(** [hedgedOutcome] with its deferred release; [clock 5]: the breaker's reading. *)
Definition hedgedOutcome (w : W) (g : GatewayContext) (lease : CircuitBreakerAttempt) (err : option goerror)
  (clock : nat -> Time) : W :=
  let '(cb, lease) :=
    match err with
    | Some e => finish (w_cb w) lease (outcome_context ci g (Error_text e) (clock 5%nat)) false
    | None => finish (w_cb w) lease (outcome_context ci g "" (clock 5%nat)) true
    end in
  let w := with_cb w cb in
  let w := match err with Some _ => w | None => recordLatency w g false clock end in
  with_cb w (fst (Release (w_cb w) lease)).
End select.

(** The context a sub-call gets. *)
Definition child_context (base : GatewayContext) (ep : Endpoint) (now : Time) : GatewayContext :=
  emptyContext <| Request := Request base |> <| GovernanceRequest := GovernanceRequest base |> <| RawBody := RawBody base |>
    <| RequestType := RequestType base |> <| OriginalModel := OriginalModel base |> <| IsStream := IsStream base |>
    <| APIKey := APIKey base |> <| Tenant := Tenant base |> <| UserTenant := UserTenant base |>
    <| WorkspaceID := WorkspaceID base |> <| Sensitive := Sensitive base |> <| MaxResponseBytes := MaxResponseBytes base |>
    <| UserID := UserID base |> <| SessionID := SessionID base |> <| Model := Model base |> <| gPolicy := gPolicy base |>
    <| Tags := Some (default ∅ (Tags base)) |> <| StartTime := StartTime base |>
    <| SelectedEndpoint := Some ep |> <| UpstreamConnect := now |>.

(** * The session *)

Inductive side := SideA | SideB.
#[global] Instance side_eq_dec : EqDecision side.
Proof. solve_decision. Defined.

Inductive sub_phase :=
| SIdle                              (* not started *)
| SRunning                           (* in the provider *)
| SWriting (p : string)              (* in the first [Write]: claimed, not signalled *)
| SEnding (failure : option goerror) (* outcome recorded, its failure not yet sent *)
| SEnded.                            (* [completed] is closed *)

(** A sub-call with its writer ([hedgingWriter]). *)
Record sub := mkSub {
  sb_ep : Endpoint;
  sb_phase : sub_phase;
  sb_isWinner : bool;
  sb_headerWritten : bool;
  sb_gctx : GatewayContext;
  sb_cancelled : bool
}.
#[global] Instance eta_sub : Eta sub := fun s =>
  mkSub (sb_ep s) (sb_phase s) (sb_isWinner s) (sb_headerWritten s) (sb_gctx s) (sb_cancelled s).

(** Where the waiting call is: it reads the terminal failure, then goes on to start B, to
    read the winner, or to count a failure it received. *)
Inductive next := NLaunch | NRead | NCount (e : goerror).
Inductive main_phase :=
| MFirst                   (* the first select *)
| MTerminal (n : next)     (* about to read the terminal failure *)
| MNext (n : next)         (* there was none *)
| MSelect                  (* the select of the loop *)
| MDrain                   (* waits for the winner to finish *)
| MDone (g : GatewayContext) (err : option goerror).

(** [hedgingSession] and the local state of [Invoke]. The winner and the failures are
    pointers to sub-call contexts, kept as sides. *)
Record hstate := mkH {
  h_main : ResponseWriter;
  h_winnerID : string;
  h_winner : option side;
  h_last : option side;
  h_terminal : option side;
  h_winnerChan : list string;
  h_failures : list goerror;
  h_A : sub;
  h_B : sub;
  h_count : Z;
  h_gone : bool;
  h_gctx : GatewayContext;
  h_phase : main_phase
}.
#[global] Instance eta_hstate : Eta hstate := fun h =>
  mkH (h_main h) (h_winnerID h) (h_winner h) (h_last h) (h_terminal h) (h_winnerChan h) (h_failures h) (h_A h) (h_B h)
    (h_count h) (h_gone h) (h_gctx h) (h_phase h).

Definition get_sub (h : hstate) (s : side) : sub := match s with SideA => h_A h | SideB => h_B h end.
Definition set_sub (h : hstate) (s : side) (x : sub) : hstate :=
  match s with SideA => h <| h_A := x |> | SideB => h <| h_B := x |> end.
Definition sub_ID (x : sub) : string := ep_ID (sb_ep x).

(** A buffered channel of capacity two; a full one drops the message (the [default] case). *)
Definition chan_send {A} (c : list A) (x : A) : list A := if (length c <? 2)%nat then c ++ [x] else c.

Definition is_done (h : hstate) : bool := match h_phase h with MDone _ _ => true | _ => false end.

(** The context of a sub-call is cancelled by itself, by the winner's side, by the end of
    [Invoke] or by the client. *)
Definition child_done (h : hstate) (s : side) : bool := sb_cancelled (get_sub h s) || h_gone h || is_done h.

(** * hedgingWriter *)

(** The values of every header once more: the embedded writer is the main writer. *)
Definition dup_headers (w : ResponseWriter) : ResponseWriter :=
  mkWriterState ((fun vv => vv ++ vv) <$> rw_Header w) (rw_sent w) (rw_body w).

Definition sse_headers (w : ResponseWriter) : ResponseWriter :=
  rw_Set "Connection" "keep-alive" (rw_Set "Cache-Control" "no-cache" (rw_Set "Content-Type" "text/event-stream" w)).

(** [WriteHeader(200)] cannot panic. *)
Definition write_ok (w : ResponseWriter) : ResponseWriter :=
  match rw_WriteHeader 200 w with Ret w => w | Panic => w end.

(** What [Write] decides in its critical section: refuse a cancelled call, forward for
    the winner, discard for the loser, or claim the race. *)
Inductive write_choice := WRefused | WForward | WDiscard | WClaim.
Definition hw_choice (h : hstate) (s : side) : write_choice :=
  let x := get_sub h s in
  if child_done h s then WRefused
  else if sb_isWinner x then WForward
  else if negb (is_empty (h_winnerID h)) && negb (seqb (h_winnerID h) (sub_ID x)) then WDiscard
  else WClaim.

Definition hw_claim (h : hstate) (s : side) (p : string) : hstate :=
  let x := get_sub h s in
  (set_sub h s (x <| sb_isWinner := true |> <| sb_phase := SWriting p |>))
    <| h_winnerID := sub_ID x |> <| h_winner := Some s |>.

Definition hw_forward (h : hstate) (p : string) : hstate := h <| h_main := rw_Write p (h_main h) |>.

(** The rest of a claiming [Write]: headers, signal, bytes. *)
Definition hw_first (h : hstate) (s : side) (p : string) : hstate :=
  let x := get_sub h s in
  let main := if sb_headerWritten x then h_main h else write_ok (sse_headers (dup_headers (h_main h))) in
  (set_sub h s (x <| sb_headerWritten := true |> <| sb_phase := SRunning |>))
    <| h_winnerChan := chan_send (h_winnerChan h) (h_winnerID h) |> <| h_main := rw_Write p main |>.

(** * invokeSub *)

Definition launch (h : hstate) (s : side) (now : Time) : hstate :=
  let x := get_sub h s in
  set_sub h s (x <| sb_phase := SRunning |> <| sb_gctx := child_context (h_gctx h) (sb_ep x) now |>).

(** The breaker refused the call. *)
Definition sub_refused (h : hstate) (s : side) (e : goerror) : hstate :=
  let x := get_sub h s in
  (set_sub h s (x <| sb_phase := SEnded |> <| sb_cancelled := true |>)) <| h_failures := chan_send (h_failures h) e |>.

Definition is_terminal (g : GatewayContext) (err : goerror) : bool :=
  Sensitive g &&
  (isExplicitlyNonRetryable (Some err) ||
   match UpstreamResponse g with
   | Some r => (400 <=? resp_StatusCode r) && (resp_StatusCode r <? 500) && negb (resp_StatusCode r =? 429)
   | None => false
   end).

Definition claimWinner (h : hstate) (s : side) : hstate :=
  if negb (is_empty (h_winnerID h)) then h
  else
    let id := match SelectedEndpoint (sb_gctx (get_sub h s)) with Some ep => ep_ID ep | None => "" end in
    h <| h_winnerID := id |> <| h_winner := Some s |> <| h_winnerChan := chan_send (h_winnerChan h) id |>.

(** The context once the provider returned. *)
Definition returned_context (g : GatewayContext) (err : option goerror) (now : Time) : GatewayContext :=
  let g := match err, UpstreamError g with Some _, None => g <| UpstreamError := err |> | _, _ => g end in
  RecordAttempt g (bool_decide (err = None)) now.

(** The provider returned: record the attempt, and the failure or the claim. *)
Definition sub_return (h : hstate) (s : side) (err : option goerror) (now : Time) : hstate :=
  let x := get_sub h s in
  let g := returned_context (sb_gctx x) err now in
  let h := set_sub h s (x <| sb_gctx := g |> <| sb_phase := SEnding err |>) in
  match err with
  | Some e =>
      let h := h <| h_last := Some s |> in
      match h_terminal h with
      | None => if is_terminal g e then h <| h_terminal := Some s |> else h
      | Some _ => h
      end
  | None => claimWinner h s
  end.

(** The failure signal, the cancellation, and the closed [completed]. *)
Definition sub_end (h : hstate) (s : side) (failure : option goerror) : hstate :=
  let x := get_sub h s in
  match failure with
  | Some e => (set_sub h s (x <| sb_phase := SEnded |> <| sb_cancelled := true |>)) <| h_failures := chan_send (h_failures h) e |>
  | None => set_sub h s (x <| sb_phase := SEnded |>)
  end.

(** * Invoke *)

Definition smartHTTPError (code : Z) : goerror :=
  mkCodeError "upstream rejected smart routing request" [] None (Some code).

(** The upstream fields of a failed sub-call on the caller's context. *)
Definition with_upstream (g f : GatewayContext) : GatewayContext :=
  g <| UpstreamResponse := UpstreamResponse f |> <| UpstreamError := UpstreamError f |> <| UpstreamBody := UpstreamBody f |>.

Definition smartTerminalError (h : hstate) : option (GatewayContext * goerror) :=
  match h_terminal h with
  | None => None
  | Some s =>
      let f := sb_gctx (get_sub h s) in
      Some (with_upstream (h_gctx h) f,
            smartHTTPError (match UpstreamResponse f with Some r => resp_StatusCode r | None => 400 end))
  end.

Definition done (h : hstate) (g : GatewayContext) (err : option goerror) : hstate := h <| h_phase := MDone g err |>.

Definition all_failed (h : hstate) (e : goerror) : hstate :=
  done h (match h_last h with Some s => with_upstream (h_gctx h) (sb_gctx (get_sub h s)) | None => h_gctx h end)
    (Some (mkError ("all hedging channels failed, last error: " +:+ Error_text e) (err_chain e) (err_Retryable e))).

(** The winner's fields on the caller's context. *)
Definition apply_winner (g w : GatewayContext) : GatewayContext :=
  g <| SelectedEndpoint := SelectedEndpoint w |> <| SelectedInvoker := SelectedInvoker w |>
    <| History := History g ++ History w |> <| AttemptCount := wrap64 (AttemptCount g + AttemptCount w) |>
    <| UpstreamConnect := UpstreamConnect w |> <| UpstreamResponse := UpstreamResponse w |>
    <| UpstreamBody := UpstreamBody w |> <| UpstreamError := UpstreamError w |> <| TTFT := TTFT w |>
    <| InputTokens := InputTokens w |> <| OutputTokens := OutputTokens w |> <| CachedTokens := CachedTokens w |>
    <| CacheCreationTokens := CacheCreationTokens w |> <| TransmittedChars := TransmittedChars w |>
    <| Cost := Cost w |> <| Response := Response w |>.

(** Cancel the loser: whoever is not the winner by ID. *)
Definition cancel_loser (h : hstate) : hstate :=
  let s := if seqb (h_winnerID h) (sub_ID (h_A h)) then SideB else SideA in
  set_sub h s ((get_sub h s) <| sb_cancelled := true |>).

(** What follows the look at the terminal failure. *)
Definition main_next (h : hstate) (n : next) (now : Time) : hstate :=
  match n with
  | NLaunch => (launch h SideB now) <| h_phase := MTerminal NRead |>
  | NRead => if is_empty (h_winnerID h) then h <| h_phase := MSelect |> else (cancel_loser h) <| h_phase := MDrain |>
  | NCount e =>
      if negb (is_empty (h_winnerID h)) then h <| h_phase := MTerminal NRead |>
      else let h := h <| h_count := h_count h + 1 |> in
           if 2 <=? h_count h then all_failed h e else h <| h_phase := MTerminal NRead |>
  end.

Definition canceled : goerror := errorf "context canceled".

(** The steps of the waiting call. *)
Inductive main_step : hstate -> hstate -> Prop :=
| main_timer h now : h_phase h = MFirst -> main_step h ((launch h SideB now) <| h_phase := MTerminal NRead |>)
| main_fast h id r : h_phase h = MFirst -> h_winnerChan h = id :: r ->
    main_step h (h <| h_winnerChan := r |> <| h_phase := MTerminal NRead |>)
| main_early h e r : h_phase h = MFirst -> h_failures h = e :: r ->
    main_step h (h <| h_failures := r |> <| h_count := h_count h + 1 |> <| h_phase := MTerminal NLaunch |>)
| main_terminal h n : h_phase h = MTerminal n ->
    main_step h (match smartTerminalError h with Some (g, e) => done h g (Some e) | None => h <| h_phase := MNext n |> end)
| main_go h n now : h_phase h = MNext n -> main_step h (main_next h n now)
| main_signal h id r : h_phase h = MSelect -> h_winnerChan h = id :: r ->
    main_step h (h <| h_winnerChan := r |> <| h_phase := MTerminal NRead |>)
| main_receive h e r : h_phase h = MSelect -> h_failures h = e :: r ->
    main_step h (h <| h_failures := r |> <| h_phase := MTerminal (NCount e) |>)
| main_finish h s : h_phase h = MDrain -> h_winner h = Some s -> sb_phase (get_sub h s) = SEnded ->
    main_step h (done h (apply_winner (h_gctx h) (sb_gctx (get_sub h s))) (UpstreamError (sb_gctx (get_sub h s))))
| main_gone h : h_gone h = true -> (h_phase h = MFirst \/ h_phase h = MSelect \/ h_phase h = MDrain) ->
    main_step h (done h (h_gctx h) (Some canceled)).

(** What a step shows: bytes a side got through to the client, a step of the waiting call,
    or neither. *)
Inductive label := LForward (s : side) (p : string) | LMain | LTau.

Inductive race_step : hstate -> label -> hstate -> Prop :=
| step_main h h' : main_step h h' -> race_step h LMain h'
| step_client h : race_step h LTau (h <| h_gone := true |>)
(* a running provider: writes, headers of the shared writer, its own context *)
| step_forward h s p : sb_phase (get_sub h s) = SRunning -> hw_choice h s = WForward -> race_step h (LForward s p) (hw_forward h p)
| step_claim h s p : sb_phase (get_sub h s) = SRunning -> hw_choice h s = WClaim -> race_step h LTau (hw_claim h s p)
| step_first h s p : sb_phase (get_sub h s) = SWriting p -> race_step h (LForward s p) (hw_first h s p)
| step_header h s k v : sb_phase (get_sub h s) = SRunning -> race_step h LTau (h <| h_main := rw_Set k v (h_main h) |>)
| step_status h s code m : sb_phase (get_sub h s) = SRunning -> rw_WriteHeader code (h_main h) = Ret m ->
    race_step h LTau (h <| h_main := m |>)
| step_work h s g : sb_phase (get_sub h s) = SRunning -> SelectedEndpoint g = SelectedEndpoint (sb_gctx (get_sub h s)) ->
    race_step h LTau (set_sub h s ((get_sub h s) <| sb_gctx := g |>))
| step_refused h s e : sb_phase (get_sub h s) = SRunning -> sb_isWinner (get_sub h s) = false -> race_step h LTau (sub_refused h s e)
| step_return h s err now : sb_phase (get_sub h s) = SRunning -> race_step h LTau (sub_return h s err now)
| step_end h s failure : sb_phase (get_sub h s) = SEnding failure -> race_step h LTau (sub_end h s failure).

(** Runs with their labels. *)
Inductive run : hstate -> list label -> hstate -> Prop :=
| run_nil h : run h [] h
| run_snoc h ls h1 l h2 : run h ls h1 -> race_step h1 l h2 -> run h (ls ++ [l]) h2.

(** The race as [Invoke] starts it: A launched, B not yet. *)
Definition race (main : ResponseWriter) (g : GatewayContext) (a b : Endpoint) (now : Time) : hstate :=
  let idle ep := mkSub ep SIdle false false emptyContext false in
  launch (mkH main "" None None None [] [] (idle a) (idle b) 0 false g MFirst) SideA now.

(** * Invariant *)

#[local] Arguments child_context : simpl never.
#[local] Arguments returned_context : simpl never.
#[local] Arguments with_upstream : simpl never.
#[local] Arguments apply_winner : simpl never.
#[local] Arguments rw_Write : simpl never.
#[local] Arguments rw_Set : simpl never.
#[local] Arguments is_terminal : simpl never.

Lemma returned_context_endpoint g err now : SelectedEndpoint (returned_context g err now) = SelectedEndpoint g.
Proof. unfold returned_context. destruct err as [e|]; [destruct (UpstreamError g)|]; reflexivity. Qed.

Lemma child_context_endpoint g ep now : SelectedEndpoint (child_context g ep now) = Some ep.
Proof. reflexivity. Qed.

Section invariant.
Context (a b : Endpoint) (Hid : ep_ID a <> ep_ID b) (Ha : ep_ID a <> "") (Hb : ep_ID b <> "").

Definition side_ep (s : side) : Endpoint := match s with SideA => a | SideB => b end.

(** A sub-call that can still send its failure, and one that sent it. *)
Definition unsent (x : sub) : nat := match sb_phase x with SEnding None | SEnded => 0 | _ => 1 end.
Definition ended (x : sub) : Z := match sb_phase x with SEnded => 1 | _ => 0 end.
(** A sub-call that is under way. *)
Definition going (x : sub) : bool := match sb_phase x with SIdle | SEnded => false | _ => true end.

(** Before B's launch; with a received failure not yet counted. *)
Definition before_B (p : main_phase) : bool := match p with MFirst | MTerminal NLaunch | MNext NLaunch => true | _ => false end.
Definition received (p : main_phase) : Z := match p with MTerminal (NCount _) | MNext (NCount _) => 1 | _ => 0 end.

(** Winner signals that are in the channel or still to come. *)
Definition writing (x : sub) : nat := match sb_phase x with SWriting _ => 1 | _ => 0 end.
Definition unsignalled (h : hstate) : nat :=
  match h_winner h with None => 1 | Some SideA => writing (h_A h) | Some SideB => writing (h_B h) end.
Definition signals (h : hstate) : nat := length (h_winnerChan h) + unsignalled h.
Definition failures_left (h : hstate) : nat := length (h_failures h) + unsent (h_A h) + unsent (h_B h).

(** What holds of one sub-call. *)
Record sub_inv (h : hstate) (s : side) : Prop := {
  si_ep : sb_ep (get_sub h s) = side_ep s;
  si_winner : h_winner h = Some s -> h_winnerID h = ep_ID (side_ep s) /\ sb_phase (get_sub h s) <> SIdle;
  si_flag : sb_isWinner (get_sub h s) = true -> h_winner h = Some s;
  si_writing : forall p, sb_phase (get_sub h s) = SWriting p -> sb_isWinner (get_sub h s) = true;
  si_running : sb_phase (get_sub h s) = SRunning -> h_winner h = Some s -> sb_isWinner (get_sub h s) = true;
  si_selected : sb_phase (get_sub h s) <> SIdle -> SelectedEndpoint (sb_gctx (get_sub h s)) = Some (side_ep s);
  si_success : h_winner h = None -> sb_phase (get_sub h s) <> SEnding None
}.

Record race_inv (h : hstate) : Prop := {
  ri_A : sub_inv h SideA;
  ri_B : sub_inv h SideB;
  ri_none : h_winner h = None -> h_winnerID h = "";
  ri_launched : sb_phase (h_A h) <> SIdle;
  ri_both : h_winner h = None -> is_done h = false -> before_B (h_phase h) = false -> sb_phase (h_B h) <> SIdle;
  ri_idle : before_B (h_phase h) = true -> sb_phase (h_B h) = SIdle;
  ri_signals : (signals h <= 1)%nat;
  ri_left : (failures_left h <= 2)%nat;
  ri_first : h_phase h = MFirst -> h_count h = 0;
  ri_count : is_done h = false -> 0 <= h_count h <= 1;
  ri_failed : h_winner h = None -> is_done h = false ->
    h_count h + received (h_phase h) + Z.of_nat (length (h_failures h)) = ended (h_A h) + ended (h_B h);
  ri_pending : h_phase h = MSelect -> h_winner h <> None -> (1 <= signals h)%nat;
  ri_drain : h_phase h = MDrain -> h_winner h <> None
}.

Lemma race_inv_start main g now : race_inv (race main g a b now).
Proof. split; try done; try (split; done); cbn; lia. Qed.

(** Split the state into its fields and decide what is left. *)
Ltac open_state h I :=
  destruct h as [? ? ? ? ? ? ? [] [] ? ? ? ?];
  destruct I as [[] [] ? ? ? ? ? ? ? ? ? ? ?].

Lemma client_inv h : race_inv h -> race_inv (h <| h_gone := true |>).
Proof. intros I. open_state h I. split; [split|split|..]; assumption. Qed.

Lemma main_writer_inv h m : race_inv h -> race_inv (h <| h_main := m |>).
Proof. intros I. open_state h I. split; [split|split|..]; assumption. Qed.

Lemma sub_invs h s : race_inv h -> sub_inv h s.
Proof. intros []. by destruct s. Qed.

(** Nobody holds the race when a first write claims it. *)
Lemma claim_free h s : race_inv h -> sb_phase (get_sub h s) = SRunning -> hw_choice h s = WClaim -> h_winner h = None.
Proof.
  intros I P. unfold hw_choice, sub_ID. rewrite (si_ep h s (sub_invs h s I)).
  destruct (h_winner h) as [t|] eqn:E; [|done].
  destruct (si_winner h t (sub_invs h t I) E) as [-> _].
  destruct (child_done h s); [done|]. destruct (sb_isWinner (get_sub h s)) eqn:F; [done|].
  assert (is_empty (ep_ID (side_ep t)) = false) as -> by (apply seqb_neq; by destruct t). cbn [negb andb].
  destruct (seqb _ _) eqn:Q; [|done]. apply seqb_eq in Q. intros _.
  assert (s = t) as -> by (destruct s, t; cbn in Q; congruence).
  pose proof (si_running h t (sub_invs h t I) P E). congruence.
Qed.

(** Use what the context gives the implications of the invariant. *)
Ltac chain :=
  repeat match goal with
  | H : ?x = ?x -> _ |- _ => specialize (H eq_refl)
  | H : ?A -> _, H' : ?A |- _ => match type of A with Prop => specialize (H H') end
  | H : _ /\ _ |- _ => destruct H
  end.
Ltac close_inv :=
  cbn in *; rewrite ?length_app in *; unfold signals, unsignalled, writing, failures_left, unsent, ended, is_done in *; cbn in *; intros; subst;
  try assumption; chain; try congruence; try lia; eauto.
Ltac inv_step h I := open_state h I; cbn in *; subst; split; [split|split|..]; close_inv.

Lemma claim_inv h s p : race_inv h -> sb_phase (get_sub h s) = SRunning -> hw_choice h s = WClaim -> race_inv (hw_claim h s p).
Proof. intros I P C. pose proof (claim_free h s I P C) as F. clear C. destruct s; inv_step h I. Qed.

Lemma first_inv h s p : race_inv h -> sb_phase (get_sub h s) = SWriting p -> race_inv (hw_first h s p).
Proof.
  intros I P. pose proof (si_flag h s (sub_invs h s I) (si_writing h s (sub_invs h s I) p P)) as F.
  assert (h_winnerChan h = []) as C.
  { pose proof (ri_signals h I) as L. unfold signals, unsignalled, writing in L. rewrite F in L.
    destruct s; cbn in P; rewrite P in L; destruct (h_winnerChan h); cbn in L; first [done|lia]. }
  destruct s; inv_step h I.
Qed.

Lemma work_inv h s g : race_inv h -> sb_phase (get_sub h s) = SRunning ->
  SelectedEndpoint g = SelectedEndpoint (sb_gctx (get_sub h s)) -> race_inv (set_sub h s ((get_sub h s) <| sb_gctx := g |>)).
Proof. intros I P C. destruct s; inv_step h I. Qed.

(** The failures channel has room for a call that did not send yet. *)
Lemma failures_room h s : race_inv h -> unsent (get_sub h s) = 1%nat -> (length (h_failures h) < 2)%nat.
Proof. intros I U. pose proof (ri_left h I) as L. unfold failures_left in L. destruct s; cbn in U; lia. Qed.

Lemma chan_send_room {A} (c : list A) x : (length c < 2)%nat -> chan_send c x = c ++ [x].
Proof. unfold chan_send. intros L. by rewrite (proj2 (Nat.ltb_lt _ _) L). Qed.

Lemma refused_inv h s e : race_inv h -> sb_phase (get_sub h s) = SRunning -> sb_isWinner (get_sub h s) = false ->
  race_inv (sub_refused h s e).
Proof.
  intros I P F. unfold sub_refused.
  rewrite chan_send_room by (apply (failures_room h s I); unfold unsent; by rewrite P).
  assert (h_winner h <> Some s) by (intros W; pose proof (si_running h s (sub_invs h s I) P W); congruence).
  destruct s; inv_step h I.
Qed.

Lemma end_inv h s f : race_inv h -> sb_phase (get_sub h s) = SEnding f -> race_inv (sub_end h s f).
Proof.
  intros I P. unfold sub_end. destruct f as [e|].
  - rewrite chan_send_room by (apply (failures_room h s I); unfold unsent; by rewrite P).
    destruct s; inv_step h I.
  - assert (h_winner h <> None) by (intros W; by apply (si_success h s (sub_invs h s I) W)).
    destruct s; inv_step h I.
Qed.

(** A success that comes first claims the race and signals it. *)
Lemma success_inv h s g : race_inv h -> sb_phase (get_sub h s) = SRunning ->
  SelectedEndpoint g = Some (side_ep s) ->
  race_inv (claimWinner (set_sub h s ((get_sub h s) <| sb_gctx := g |> <| sb_phase := SEnding None |>)) s).
Proof.
  intros I P Gs.
  unfold claimWinner. destruct (h_winner h) as [t|] eqn:W.
  - destruct (si_winner h t (sub_invs h t I) W) as [Wi _].
    replace (is_empty _) with false; [|symmetry; apply seqb_neq; destruct s; cbn; rewrite Wi; destruct t; done].
    cbn [negb]. destruct s, t; inv_step h I.
  - pose proof (ri_none h I W) as Wi. pose proof (ri_signals h I) as L. unfold signals, unsignalled in L. rewrite W in L.
    destruct (h_winnerChan h) eqn:C; cbn in L; [|lia]. clear L.
    replace (is_empty _) with true; [|symmetry; destruct s; cbn; by rewrite Wi].
    destruct s; cbn in *; rewrite Gs; inv_step h I.
Qed.

Lemma failure_inv h s g e last term : race_inv h -> sb_phase (get_sub h s) = SRunning ->
  SelectedEndpoint g = Some (side_ep s) ->
  race_inv ((set_sub h s ((get_sub h s) <| sb_gctx := g |> <| sb_phase := SEnding (Some e) |>))
    <| h_last := last |> <| h_terminal := term |>).
Proof. intros I P G. destruct s; inv_step h I. Qed.

Lemma return_inv h s err now : race_inv h -> sb_phase (get_sub h s) = SRunning -> race_inv (sub_return h s err now).
Proof.
  intros I P. unfold sub_return. pose proof (returned_context_endpoint (sb_gctx (get_sub h s)) err now) as G.
  rewrite (si_selected h s (sub_invs h s I)) in G by by rewrite P.
  set (g := returned_context _ _ _) in *. clearbody g. destruct err as [e|]; [|by apply success_inv].
  pose proof (fun t => failure_inv h s g e (Some s) t I P G) as F.
  destruct (h_terminal _) eqn:T; [specialize (F (h_terminal h))|destruct (is_terminal g e); [apply F|specialize (F (h_terminal h))]].
  all: by destruct h, s.
Qed.

Lemma done_inv h g err : race_inv h -> race_inv (done h g err).
Proof. intros I. inv_step h I. Qed.

Lemma phase_inv h n : race_inv h -> h_phase h = MTerminal n -> race_inv (h <| h_phase := MNext n |>).
Proof. intros I P. destruct n; inv_step h I. Qed.

Lemma launch_inv h now : race_inv h -> before_B (h_phase h) = true ->
  race_inv ((launch h SideB now) <| h_phase := MTerminal NRead |>).
Proof.
  intros I P. pose proof (ri_idle h I P). assert (is_done h = false) by (unfold is_done; by destruct (h_phase h)).
  assert (received (h_phase h) = 0) by by destruct (h_phase h) as [|[]|[]| | |].
  pose proof (child_context_endpoint (h_gctx h) (sb_ep (h_B h)) now).
  inv_step h I.
Qed.

Lemma winner_ID h : race_inv h -> h_winner h = None <-> h_winnerID h = "".
Proof.
  intros I. split; [apply (ri_none h I)|]. intros E. destruct (h_winner h) as [t|] eqn:W; [|done].
  destruct (si_winner h t (sub_invs h t I) W) as [Wi _]. rewrite E in Wi. by destruct t.
Qed.

Lemma cancel_inv h : race_inv h -> h_winner h <> None -> h_phase h = MNext NRead ->
  race_inv ((cancel_loser h) <| h_phase := MDrain |>).
Proof. intros I W P. unfold cancel_loser. destruct (seqb _ _); inv_step h I. Qed.

(** A second failure without a winner ends the wait, a first one goes on. *)
Lemma count_inv h e : race_inv h -> h_winner h = None -> h_phase h = MNext (NCount e) -> h_count h + 1 < 2 ->
  race_inv (h <| h_count := h_count h + 1 |> <| h_phase := MTerminal NRead |>).
Proof. intros I W P C. inv_step h I. Qed.

Lemma next_inv h n now : race_inv h -> h_phase h = MNext n -> race_inv (main_next h n now).
Proof.
  intros I P. pose proof (winner_ID h I) as W. unfold main_next. destruct n as [| |e].
  - apply launch_inv; [done|by rewrite P].
  - destruct (is_empty _) eqn:E; sbool; rewrite <- W in E; [|by apply cancel_inv]. inv_step h I.
  - destruct (is_empty _) eqn:E; cbn [negb]; sbool; rewrite <- W in E; [|inv_step h I].
    destruct (2 <=? _) eqn:C; cbn in C; zbool; [|by apply (count_inv h e)].
    unfold all_failed. cbn. inv_step h I.
Qed.

Lemma main_inv h h' : race_inv h -> main_step h h' -> race_inv h'.
Proof.
  intros I M. revert I.
  destruct M as [x now P|x id r P C|x e r P C|x n P|x n now P|x id r P C|x e r P C|x s P W E|x G P]; intros I.
  - apply launch_inv; [done|by rewrite P].
  - pose proof (ri_signals x I). pose proof (ri_idle x I). rewrite P in *. assert (h_winner x <> None) as W.
    { intros W. unfold signals, unsignalled in *. rewrite C, W in *. cbn in *. lia. }
    inv_step x I.
  - inv_step x I.
  - destruct (smartTerminalError x) as [[]|]; [by apply done_inv|by apply phase_inv].
  - by apply next_inv.
  - assert (h_winner x <> None) as W.
    { intros W. pose proof (ri_signals x I). unfold signals, unsignalled in *. rewrite C, W in *. cbn in *. lia. }
    inv_step x I.
  - inv_step x I.
  - by apply done_inv.
  - by apply done_inv.
Qed.

Lemma race_step_inv h l h' : race_inv h -> race_step h l h' -> race_inv h'.
Proof.
  intros I T. revert I. destruct T; intros I;
    eauto using main_inv, client_inv, claim_inv, first_inv, work_inv, refused_inv, return_inv, end_inv.
  all: by apply main_writer_inv.
Qed.

Lemma run_inv main g now ls h : run (race main g a b now) ls h -> race_inv h.
Proof.
  intros R. remember (race main g a b now) as h0 eqn:E. revert E.
  induction R as [h|h ls h1 l h2 R IH T]; intros ->; [apply race_inv_start|].
  apply (race_step_inv h1 l h2); [by apply IH|done].
Qed.

(** ** The winner stays the winner *)

Lemma winner_kept h l h' s : race_inv h -> race_step h l h' -> h_winner h = Some s -> h_winner h' = Some s.
Proof.
  intros I T W. revert I W.
  destruct T as [h h' M|h|h t p P C|h t p P C|h t p P|h t k v P|h t code m P Q|h t g P Q|h t e P Q|h t err now P|h t f P]; intros I W.
  all: try (by destruct t). all: try done.
  - destruct M as [h now P|h id r P C|h e r P C|h n P|h n now P|h id r P C|h e r P C|h t P Wt E|h G P]; try done.
    + by destruct (smartTerminalError h) as [[]|].
    + unfold main_next, cancel_loser, all_failed. repeat split_match; done.
  - pose proof (claim_free h t I P C). congruence.
  - unfold sub_return, claimWinner. pose proof (winner_ID h I) as N.
    destruct err as [e|]; [by destruct t; cbn; repeat split_match|].
    replace (is_empty _) with false; [by destruct t|].
    symmetry. apply seqb_neq. intros E. rewrite W in N. destruct t; cbn in E; by apply N in E.
  - unfold sub_end. by destruct t, f.
Qed.

Lemma forward_winner h s p h' : race_inv h -> race_step h (LForward s p) h' -> h_winner h' = Some s.
Proof.
  intros I T. assert (h_winner h = Some s) as W; [|by apply (winner_kept h (LForward s p) h')].
  pose proof (sub_invs h s I) as J. revert I J. inversion T as [| |h1 s1 p1 P C| |h1 s1 p1 P| | | | | |]; subst; intros I J.
  - apply (si_flag h s J). revert C. unfold hw_choice. by repeat split_match.
  - apply (si_flag h s J). by apply (si_writing h s J p).
Qed.
End invariant.

(** * What reaches the client *)

(** The bytes forwarded in a run, and whether the committed status has a body. *)
Fixpoint forwarded (ls : list label) : string :=
  match ls with [] => "" | LForward _ p :: r => p +:+ forwarded r | _ :: r => forwarded r end.
Definition accepts (w : ResponseWriter) : bool :=
  match rw_sent w with Some (code, _) => bodyAllowedForStatus code | None => true end.
Definition writer_got (start w : ResponseWriter) (data : string) : Prop :=
  rw_body w = rw_body start +:+ (if accepts w then data else "") /\ (rw_sent w = None -> data = "").

Lemma forwarded_snoc ls l : forwarded (ls ++ [l]) = forwarded ls +:+ forwarded [l].
Proof.
  induction ls as [|[s p| |] ls IH]; cbn; [done| |exact IH|exact IH].
  change ((ls ++ [l])%list) with (ls ++ [l]). rewrite IH. by rewrite append_assoc.
Qed.

Lemma got_write start w data p : writer_got start w data -> writer_got start (rw_Write p w) (data +:+ p).
Proof.
  intros [B N]. unfold writer_got, rw_Write, accepts in *. destruct (rw_sent w) as [[c hd]|]; cbn.
  - split; [|done]. rewrite B. destruct (bodyAllowedForStatus c); [by rewrite append_assoc|done].
  - split; [|done]. rewrite B, N by done. cbn. by rewrite append_nil_r.
Qed.

Lemma got_status start w data code m : rw_WriteHeader code w = Ret m -> writer_got start w data -> writer_got start m data.
Proof.
  intros E [B N]. unfold writer_got, rw_WriteHeader, accepts in *. destruct (rw_sent w) as [[c hd]|] eqn:Sw; simplify_eq.
  - by rewrite Sw.
  - rewrite (N eq_refl) in *. destruct (_ || _); [done|]. destruct (_ && _); simplify_eq; [by rewrite Sw|].
    cbn. split; [|done]. rewrite B. by destruct (bodyAllowedForStatus code).
Qed.

Lemma got_first start w data p b : writer_got start w data ->
  writer_got start (rw_Write p (if b : bool then w else write_ok (sse_headers (dup_headers w)))) (data +:+ p).
Proof.
  intros G. apply got_write. destruct b; [done|]. unfold write_ok.
  destruct (rw_WriteHeader 200 _) as [m|] eqn:E; [by apply (got_status _ _ _ _ _ E)|exact G].
Qed.

Lemma main_writer_kept h h' : main_step h h' -> h_main h' = h_main h.
Proof.
  intros M. destruct M as [h now P|h id r P C|h e r P C|h n P|h n now P|h id r P C|h e r P C|h t P Wt E|h G P]; try done.
  - by destruct (smartTerminalError h) as [[]|].
  - unfold main_next, cancel_loser, all_failed. repeat split_match; done.
Qed.

Lemma got_step start h l h' data : race_step h l h' -> writer_got start (h_main h) data ->
  writer_got start (h_main h') (data +:+ forwarded [l]).
Proof.
  intros T G. destruct T as [h h' M|h|h t p P C|h t p P C|h t p P|h t k v P|h t code m P Q|h t g P Q|h t e P Q|h t err now P|h t f P].
  all: cbn [forwarded]; rewrite ?append_nil_r.
  - by rewrite (main_writer_kept _ _ M).
  - done.
  - by apply got_write.
  - by destruct t.
  - destruct t; by apply got_first.
  - exact G.
  - by apply (got_status _ _ _ _ _ Q).
  - by destruct t.
  - by destruct t.
  - unfold sub_return, claimWinner. destruct err, t; cbn; by repeat split_match.
  - by destruct t, f.
Qed.

(** C2: in every interleaving of the two calls, the waiting call and the client, all
    bytes that reach the client come from one side, the winner of the race, and the body
    is what it was followed by exactly the winner's writes (nothing when a provider set a
    status that has no body). *)
Theorem hedging_single_winner (main : ResponseWriter) (g : GatewayContext) (a b : Endpoint) (now : Time)
  (ls : list label) (h : hstate)
  (Hid : ep_ID a <> ep_ID b) (Ha : ep_ID a <> "") (Hb : ep_ID b <> "")
  (Hrun : run (race main g a b now) ls h) :
  (forall s p, LForward s p ∈ ls -> h_winner h = Some s) /\
  rw_body (h_main h) = rw_body main +:+ (if accepts (h_main h) then forwarded ls else "").
Proof.
  remember (race main g a b now) as h0 eqn:E. revert E.
  enough (h0 = race main g a b now -> (forall s p, LForward s p ∈ ls -> h_winner h = Some s) /\ writer_got main (h_main h) (forwarded ls))
    as G by (intros E; destruct (G E) as [? []]; done).
  induction Hrun as [h|h ls h1 l h2 R IH T]; intros ->.
  { split; [intros s p []%not_elem_of_nil|]. split; cbn; [|done]. destruct (accepts _); by rewrite append_nil_r. }
  pose proof (run_inv a b Hid Ha Hb main g now ls h1 R) as I. destruct (IH eq_refl) as [F G]. split.
  - intros s p [L|<-%list_elem_of_singleton]%elem_of_app; [|by apply (forward_winner a b Hid Ha Hb h1 s p)].
    apply (winner_kept a b Hid Ha Hb h1 l h2 s I T). by apply (F s p).
  - rewrite forwarded_snoc. by apply (got_step main h1 l h2).
Qed.

(** * The wait ends *)

Section wait.
Context (a b : Endpoint) (Hid : ep_ID a <> ep_ID b) (Ha : ep_ID a <> "") (Hb : ep_ID b <> "").

(** Steps the waiting call can take before it needs another message, and in all. *)
Definition rank (p : main_phase) : nat :=
  match p with
  | MDone _ _ => 0 | MDrain | MSelect => 1 | MNext NRead => 2 | MTerminal NRead => 3
  | MFirst | MNext _ => 4 | MTerminal _ => 5
  end.
Definition budget (h : hstate) : nat := 5 * (signals h + failures_left h) + rank (h_phase h).
Definition main_steps (ls : list label) : nat := length (List.filter (fun l => match l with LMain => true | _ => false end) ls).

Lemma budget_phase h ph : (rank ph < rank (h_phase h))%nat -> (budget (h <| h_phase := ph |>) < budget h)%nat.
Proof. unfold budget. destruct h. cbn. intros. unfold signals, failures_left, unsignalled. cbn. lia. Qed.

Lemma budget_done h g err : is_done h = false -> (budget (done h g err) < budget h)%nat.
Proof.
  intros D. apply (budget_phase h (MDone g err)). unfold is_done in D. destruct (h_phase h) as [|[]|[]| | |]; cbn; lia || done.
Qed.

(** A message taken from a channel pays for the steps it causes. *)
Lemma budget_signal h id r ph : h_winnerChan h = id :: r -> (rank ph < 5 + rank (h_phase h))%nat ->
  (budget (h <| h_winnerChan := r |> <| h_phase := ph |>) < budget h)%nat.
Proof. intros C L. unfold budget, signals, failures_left, unsignalled. rewrite C. destruct h. cbn in *. lia. Qed.

Lemma budget_failure h e r c ph : h_failures h = e :: r -> (rank ph < 5 + rank (h_phase h))%nat ->
  (budget (h <| h_failures := r |> <| h_count := c |> <| h_phase := ph |>) < budget h)%nat.
Proof. intros C L. unfold budget, signals, failures_left, unsignalled. rewrite C. destruct h. cbn in *. lia. Qed.

Lemma budget_launch h now : race_inv a b h -> before_B (h_phase h) = true ->
  (budget ((launch h SideB now) <| h_phase := MTerminal NRead |>) < budget h)%nat.
Proof.
  intros I P. pose proof (ri_idle a b h I P) as B. unfold budget, signals, failures_left, unsignalled, writing, unsent. cbn. rewrite B.
  destruct (h_phase h) as [|[]|[]| | |]; try done; cbn; destruct (h_winner h) as [[]|]; lia.
Qed.

Lemma budget_main h h' : race_inv a b h -> main_step h h' -> (budget h' < budget h)%nat.
Proof.
  intros I M. revert I.
  destruct M as [h now P|h id r P C|h e r P C|h n P|h n now P|h id r P C|h e r P C|h t P W E|h G P]; intros I.
  - apply budget_launch; [done|by rewrite P].
  - apply (budget_signal h id r); [done|rewrite P; cbn; lia].
  - apply (budget_failure h e r); [done|rewrite P; cbn; lia].
  - destruct (smartTerminalError h) as [[]|]; [apply budget_done; unfold is_done; by rewrite P|].
    apply budget_phase. rewrite P. destruct n; cbn; lia.
  - unfold main_next. destruct n as [| |e]; [apply budget_launch; [done|by rewrite P]|..].
    + destruct (is_empty _); [apply budget_phase; rewrite P; cbn; lia|].
      apply (Nat.lt_le_trans _ (budget (cancel_loser h))); [apply budget_phase; unfold cancel_loser|unfold cancel_loser, budget, signals, failures_left, unsignalled, writing, unsent].
      all: destruct (seqb _ _); cbn; rewrite ?P; cbn; lia.
    + destruct (is_empty _); cbn [negb]; [|apply budget_phase; rewrite P; cbn; lia].
      change (budget h) with (budget (h <| h_count := h_count h + 1 |>)).
      destruct (2 <=? _); [apply budget_done; unfold is_done; cbn; by rewrite P|].
      apply budget_phase. cbn. rewrite P. cbn. lia.
  - apply (budget_signal h id r); [done|rewrite P; cbn; lia].
  - pose proof (budget_failure h e r (h_count h) (MTerminal (NCount e)) C) as F. rewrite P in F. destruct h. apply F. cbn. lia.
  - apply budget_done. unfold is_done. by rewrite P.
  - apply budget_done. unfold is_done. destruct P as [P|[P|P]]; by rewrite P.
Qed.

Lemma chan_send_length {A} (c : list A) x : (length (chan_send c x) <= length c + 1)%nat.
Proof. unfold chan_send. destruct (_ <? _)%nat; rewrite ?length_app; cbn; lia. Qed.

(** What the calls and the client do adds no message that was not counted. *)
Lemma budget_other h l h' : race_inv a b h -> race_step h l h' -> l <> LMain -> (budget h' <= budget h)%nat.
Proof.
  intros I T L. revert I L.
  destruct T as [h h' M|h|h t p P C|h t p P C|h t p P|h t k v P|h t code m P Q|h t g P Q|h t e P Q|h t err now P|h t f P]; intros I L.
  all: unfold budget; try done; try apply Nat.le_refl.
  - pose proof (claim_free a b Hid Ha Hb h t I P C) as W. destruct t; cbn in P.
    all: unfold signals, unsignalled, failures_left, unsent, writing; rewrite W; cbn; rewrite P; lia.
  - pose proof (si_flag a b h t (sub_invs a b h t I) (si_writing a b h t (sub_invs a b h t I) p P)) as W.
    pose proof (chan_send_length (h_winnerChan h) (h_winnerID h)).
    destruct t; cbn in P; unfold signals, unsignalled, failures_left, unsent, writing; cbn; rewrite W, P; cbn; lia.
  - destruct t; cbn in P; unfold signals, unsignalled, failures_left, unsent, writing; cbn; rewrite P; destruct (h_winner h) as [[]|]; lia.
  - pose proof (chan_send_length (h_failures h) e).
    destruct t; cbn in P; unfold signals, unsignalled, failures_left, unsent, writing; cbn; rewrite P; destruct (h_winner h) as [[]|]; lia.
  - unfold sub_return, claimWinner. pose proof (winner_ID a b Ha Hb h I) as N.
    destruct err as [e|].
    + destruct t; cbn in P; cbn; repeat split_match.
      all: unfold signals, unsignalled, failures_left, unsent, writing; cbn; rewrite P; destruct (h_winner h) as [[]|]; lia.
    + pose proof (fun id => chan_send_length (h_winnerChan h) id) as Q.
      destruct t; cbn in P; cbn [get_sub set_sub sb_gctx h_winnerID h_winnerChan]; destruct (is_empty _) eqn:E; cbn in E; sbool; rewrite <- ?N in E.
      all: unfold signals, unsignalled, failures_left, unsent, writing; cbn; rewrite ?P, ?E; cbn.
      all: try (match goal with |- context [chan_send _ ?id] => specialize (Q id) end).
      all: try destruct (h_winner h) as [[]|]; lia.
  - pose proof (fun e => chan_send_length (h_failures h) e) as Q. destruct f as [e|]; [specialize (Q e)|];
    destruct t; cbn in P; unfold sub_end, signals, unsignalled, failures_left, unsent, writing; cbn; rewrite P; destruct (h_winner h) as [[]|]; lia.
Qed.

Lemma main_steps_bound main g now ls h : run (race main g a b now) ls h -> (main_steps ls + budget h <= 19)%nat.
Proof.
  intros R. remember (race main g a b now) as h0 eqn:E. revert E. induction R as [h|h ls h1 l h2 R IH T]; intros ->; [done|].
  specialize (IH eq_refl). pose proof (run_inv a b Hid Ha Hb main g now ls h1 R) as I. unfold main_steps in *.
  rewrite List.filter_app, length_app. destruct (match l with LMain => true | _ => false end) eqn:E.
  - destruct l; try done. inversion T; subst. pose proof (budget_main h1 h2 I ltac:(done)). cbn [List.filter length] in *. lia.
  - pose proof (budget_other h1 l h2 I T ltac:(by intros ->)). destruct l; try done; cbn [List.filter length] in *; lia.
Qed.

(** Unless it has ended or a sub-call is under way, the waiting call can go on. *)
Lemma wait_progress h : race_inv a b h -> is_done h = false -> (forall s, going (get_sub h s) = false) -> exists h', main_step h h'.
Proof.
  intros I D G. pose proof (G SideA) as GA. pose proof (G SideB) as GB. cbn in GA, GB. unfold going in GA, GB.
  destruct (h_phase h) as [|n|n| | |g err] eqn:P.
  - eexists. by apply (main_timer h 0).
  - eexists. by apply (main_terminal h n).
  - eexists. by apply (main_go h n 0).
  - destruct (h_winner h) as [s|] eqn:W.
    + pose proof (ri_pending a b h I P ltac:(by rewrite W)) as L. unfold signals, unsignalled, writing in L. rewrite W in L.
      destruct (h_winnerChan h) as [|id r] eqn:C; [|eexists; by apply (main_signal h id r)].
      destruct s; repeat split_match; cbn in L; done || lia.
    + destruct (h_failures h) as [|e r] eqn:F; [|eexists; by apply (main_receive h e r)]. exfalso.
      pose proof (ri_launched a b h I). pose proof (ri_both a b h I W D ltac:(by rewrite P)).
      pose proof (ri_count a b h I D). pose proof (ri_failed a b h I W D) as Q. rewrite F, P in Q. unfold ended in Q. cbn in Q.
      destruct (sb_phase (h_A h)), (sb_phase (h_B h)); done || lia.
  - destruct (h_winner h) as [s|] eqn:W; [|by apply (ri_drain a b h I P) in W].
    eexists. apply (main_finish h s P W). specialize (G s). unfold going in G.
    pose proof (proj2 (si_winner a b h s (sub_invs a b h s I) W)). by destruct (sb_phase (get_sub h s)).
  - unfold is_done in D. by rewrite P in D.
Qed.
End wait.

(** C8: the wait of a hedged call ends. In every run the waiting call takes at most 19
    steps, and as long as it has not returned, a sub-call it started is still under way or
    it can take its next step - also when both calls failed, when the winner failed after
    its first byte, when the breaker refused a call, or when signals were dropped. *)
Theorem hedging_returns (main : ResponseWriter) (g : GatewayContext) (a b : Endpoint) (now : Time)
  (ls : list label) (h : hstate)
  (Hid : ep_ID a <> ep_ID b) (Ha : ep_ID a <> "") (Hb : ep_ID b <> "")
  (Hrun : run (race main g a b now) ls h) :
  (main_steps ls <= 19)%nat /\
  (is_done h = true \/ (exists s, going (get_sub h s) = true) \/ (exists h', main_step h h')).
Proof.
  split; [pose proof (main_steps_bound a b Hid Ha Hb main g now ls h Hrun); lia|].
  destruct (is_done h) eqn:D; [by left|right].
  destruct (going (h_A h)) eqn:GA; [left; by exists SideA|]. destruct (going (h_B h)) eqn:GB; [left; by exists SideB|]. right.
  apply (wait_progress a b h (run_inv a b Hid Ha Hb main g now ls h Hrun) D). by intros [].
Qed.

(** * A run *)

Definition hedge_ep (id : string) : Endpoint :=
  mkEndpoint id id "" "p" "" "m" "" ∅ 1 0 [] true true ∅ "" "" "openai" 0 0 None None None None.
Definition demo_start : hstate := race newResponse emptyContext (hedge_ep "a") (hedge_ep "b") 0.
Definition demo_labels : list label := [LTau; LForward SideA "hi"; LTau; LTau; LMain; LMain; LMain; LMain].

(** A wins with its first byte and B is never started. *)
Lemma demo_run : exists h, run demo_start demo_labels h /\ is_done h = true.
Proof.
  pose proof (run_nil demo_start) as R.
  eapply run_snoc in R; [|by apply (step_claim _ SideA "hi")].
  eapply run_snoc in R; [|by apply (step_first _ SideA "hi")].
  eapply run_snoc in R; [|by apply (step_return _ SideA None 1)].
  eapply run_snoc in R; [|by apply (step_end _ SideA None)].
  eapply run_snoc in R; [|by apply step_main, (main_fast _ "a" [])].
  eapply run_snoc in R; [|by apply step_main, (main_terminal _ NRead)].
  eapply run_snoc in R; [|by apply step_main, (main_go _ NRead 2)].
  eapply run_snoc in R; [|by apply step_main, (main_finish _ SideA)].
  eexists. split; [exact R|reflexivity].
Qed.

Lemma hedging_single_winner_witness :
  exists h, run demo_start demo_labels h /\ h_winner h = Some SideA /\ rw_body (h_main h) = (if accepts (h_main h) then "hi" else "").
Proof.
  destruct demo_run as (h & R & _). exists h. split; [exact R|].
  destruct (hedging_single_winner newResponse emptyContext (hedge_ep "a") (hedge_ep "b") 0 demo_labels h
    ltac:(discriminate) ltac:(discriminate) ltac:(discriminate) R) as [F B].
  split; [|exact B]. apply (F SideA "hi"). right. left.
Defined.

Lemma hedging_returns_witness : exists h, run demo_start demo_labels h /\ (main_steps demo_labels <= 19)%nat.
Proof.
  destruct demo_run as (h & R & _). exists h. split; [exact R|].
  exact (proj1 (hedging_returns newResponse emptyContext (hedge_ep "a") (hedge_ep "b") 0 demo_labels h
    ltac:(discriminate) ltac:(discriminate) ltac:(discriminate) R)).
Defined.

(** * The choice and the permits *)

(** A list balancer answers with one of its candidates. *)
Definition lb_member {S X} (lb : world S X -> GatewayContext -> list Endpoint -> world S X * GatewayContext * option Endpoint) : Prop :=
  forall w g eps ep, snd (lb w g eps) = Some ep -> ep ∈ eps.

(** a hedged call races two different candidates: when [hedging_begin] starts a race,
    both endpoints passed discovery and the router chain and their IDs differ, so that the
    two completion channels and the winner's ID identify one side. *)
Theorem hedging_races_distinct {S : Type} `{StateStore S} {X : Type} (ci : @ClusterInvoker S X) (serial : bool)
  (w : world S X) (g : GatewayContext) (w' : world S X) (g' : GatewayContext) (a b : Endpoint) (delay : Duration)
  (Hlb : forall name lb, ci_lbs ci !! name = Some lb -> lb_member lb)
  (Hstart : hedging_begin ci serial w g = (w', g', HedgeRace a b delay)) :
  ep_ID a <> ep_ID b /\ exists w1 found, ci_discovery ci w (Model g) = (w1, inl found) /\
    let eps := snd (route_chain (ci_routers ci) w1 g found) in a ∈ eps /\ b ∈ eps.
Proof.
  unfold hedging_begin in Hstart. destruct (ci_discovery ci w (Model g)) as [w1 [found|]]; [|by destruct serial].
  destruct (route_chain _ w1 g found) as [[w2 g2] eps] eqn:R. destruct eps as [|e1 [|e2 rest]]; try by destruct serial.
  destruct (selectTwoEndpoints ci w2 g2 (e1 :: e2 :: rest)) as [[w3 g3] [[x|] [y|]]] eqn:T; try by destruct serial.
  simplify_eq. revert T. set (eps := e1 :: e2 :: rest) in *. clearbody eps. unfold selectTwoEndpoints.
  destruct (hedging_lb ci g2) as [lb|] eqn:L; [|done].
  assert (lb_member lb) as M.
  { unfold hedging_lb in L. destruct (_ ≫= _) as [l|] eqn:P; [|repeat split_match; simplify_eq; eauto].
    simplify_eq. apply bind_Some in P as (p & _ & P). eauto. }
  destruct (lb w2 g2 eps) as [[w4 g4] [x|]] eqn:Sx; [|done]. pose proof (M w2 g2 eps x) as Mx. rewrite Sx in Mx. specialize (Mx eq_refl).
  destruct (List.filter _ eps) as [|r0 rs] eqn:F; [done|].
  destruct (lb w4 g4 (r0 :: rs)) as [[w5 g5] y] eqn:Sy. intros E. simplify_eq.
  pose proof (M w4 g4 (r0 :: rs) b) as My. rewrite Sy in My. specialize (My eq_refl). rewrite <- F in My.
  apply list_elem_of_In, filter_In in My as [My Ny]. split.
  - intros E. rewrite E, seqb_refl in Ny. done.
  - exists w1, found. split; [done|]. rewrite R. split; [exact Mx|by apply list_elem_of_In].
Qed.

Lemma hedging_races_distinct_witness : exists w' g' a b d,
  hedging_begin demo_cluster true (mkWorld NewCircuitBreakerManager NewMemoryStateStore tt) emptyContext = (w', g', HedgeRace a b d) /\
  ep_ID a <> ep_ID b.
Proof.
  do 5 eexists. split; [reflexivity|].
  refine (proj1 (hedging_races_distinct demo_cluster true (mkWorld NewCircuitBreakerManager NewMemoryStateStore tt) emptyContext
    _ _ _ _ _ _ eq_refl)).
  intros name lb Hl w g eps ep. cbn in Hl. apply lookup_singleton_Some in Hl as [_ <-]. cbn. apply head_Some_elem_of.
Defined.

(** the breaker permits of a hedged sub-call come back with every outcome: an admitted
    sub-call that ended - won, failed, or lost and was cancelled - leaves no half-open call
    in flight on either breaker of its endpoint. *)
Theorem hedged_call_returns_permits {S : Type} `{StateStore S} {X : Type} (ci : @ClusterInvoker S X)
  (w : world S X) (g : GatewayContext) (ep : Endpoint) (cb : CircuitBreakerManager) (lease : CircuitBreakerAttempt)
  (clock : nat -> Time) (err : option goerror) (k : string)
  (Hwf : manager_wf (w_cb w)) (Htok : tokens_left (w_cb w)) (Hkeys : service_key ep <> ep_ID ep)
  (Hacq : AcquireAttempt (w_cb w) (Some ep) (ci_enableActive ci) (clock 0%nat) (clock 1%nat) = (cb, inl lease))
  (Hk : k = service_key ep \/ k = ep_ID ep) :
  active_at (w_cb (hedgedOutcome ci (with_cb w cb) g lease err clock)) k = 0.
Proof.
  pose proof (AcquireAttempt_wf (w_cb w) (Some ep) (ci_enableActive ci) (clock 0%nat) (clock 1%nat) Hwf) as W.
  rewrite Hacq in W. cbn [fst] in W.
  destruct (AcquireAttempt_settled _ _ _ _ _ _ _ Hwf Htok Hkeys Hacq) as (E & D & Se).
  pose proof (fun c b => finish_settled cb lease ep c b k W Hkeys D E Se Hk) as F.
  unfold hedgedOutcome. destruct err as [e|]; cbn [w_cb with_cb];
    match goal with |- context [finish cb lease ?c ?b] => destruct (F c b) as (A & _ & Dn); destruct (finish cb lease c b) as [cb' l] end.
  all: cbn [fst snd] in *; unfold Release, recordLatency; rewrite Dn; cbn [fst w_cb with_cb]; by repeat split_match.
Qed.

Lemma hedged_call_returns_permits_witness :
  match snd demo_probing with
  | inl lease =>
      active_at (w_cb (hedgedOutcome demo_cluster (with_cb (mkWorld demo_open NewMemoryStateStore tt) (fst demo_probing)) emptyContext
        lease None (fun _ => 1000000005))) "ep-1" = 0
  | inr _ => False
  end.
Proof.
  destruct demo_open_ok as [Hw Ht].
  refine (hedged_call_returns_permits demo_cluster (mkWorld demo_open NewMemoryStateStore tt) emptyContext
    demo_endpoint (fst demo_probing) _ (fun _ => 1000000005) None "ep-1" Hw Ht _ _ (or_intror eq_refl)).
  - discriminate.
  - vm_compute. reflexivity.
Defined.

(** * Consequences for the response *)

(** The first write repeats every header that was set before it, since the writer the
    values are read from is the one they are added to. *)
Lemma hedged_headers_doubled h s p k vv :
  sb_headerWritten (get_sub h s) = false -> rw_Header (h_main h) !! k = Some vv ->
  k <> "Content-Type" -> k <> "Cache-Control" -> k <> "Connection" ->
  rw_Header (h_main (hw_first h s p)) !! k = Some (vv ++ vv).
Proof.
  intros Hw Hk N1 N2 N3. unfold hw_first. rewrite Hw.
  assert (rw_Header (sse_headers (dup_headers (h_main h))) !! k = Some (vv ++ vv)) as E.
  { unfold sse_headers, rw_Set, dup_headers. cbn [rw_Header].
    change (CanonicalMIMEHeaderKey "Connection") with "Connection".
    change (CanonicalMIMEHeaderKey "Cache-Control") with "Cache-Control".
    change (CanonicalMIMEHeaderKey "Content-Type") with "Content-Type".
    unfold headers in *. do 3 (etransitivity; [apply (lookup_insert_ne (M := gmap string)); congruence|]).
    etransitivity; [apply (lookup_fmap (M := gmap string))|]. by rewrite Hk. }
  cbn. unfold write_ok, rw_Write, rw_WriteHeader. destruct (rw_sent (sse_headers _)) as [[]|] eqn:Q; cbn; [rewrite Q|]; cbn; exact E.
Qed.

(** The tags a sub-call set on its context do not reach the caller's. *)
Lemma apply_winner_tags g w : Tags (apply_winner g w) = Tags g.
Proof. reflexivity. Qed.
