(* ===== verification/Builder.v ===== *)
(** pkg/invoker/builder.go with the constructors it calls (cluster.go, hedging.go) and the retry
    configuration of pkg/core/pipeline.go: from the configuration of a pipeline to its invoker. *)

From Stdlib Require Import Ascii.
From S2P Require Import Prelude GoFloat GoStrings GoTime Matcher Policy Types Context Store BreakerManager Cluster Hedging.

Record RetryConfig := mkRetryConfig {
  rc_Retry : Z; rc_BackoffType : string; rc_BaseMs : Z; rc_ErrorCodes : list string; rc_ErrorMessages : list string;
  rc_CodePolicy : option ErrorParserPolicy; rc_MessagePolicy : option ErrorParserPolicy;
  rc_ConnectTimeout : Z; rc_TtftTimeout : Z; rc_TotalTimeout : Z
}.

(** The invoker part of a pipeline's configuration. *)
Record invoker_config := mkInvokerCfg { iv_Type : string; iv_Routers : list string; iv_LoadBalancer : string; iv_Retry : option RetryConfig }.

Definition DefaultRetryStrategy : RetryPolicy := mkRetryPolicy 0 "fixed" 100 [] [] None None 0 0 0 0 None 0.

Definition knownLBStrategies : list string :=
  ["round_robin"; "weighted_rr"; "random"; "weighted_random"; "least_connections"; "least_latency"; "cost"; "session_hash"; "composite"; "endpoint_affinity"].

(** Seven of the ten fields of the configuration reach the policy. *)
Definition retry_of (cfg : option RetryConfig) : RetryPolicy :=
  match cfg with
  | None => DefaultRetryStrategy
  | Some r => mkRetryPolicy (rc_Retry r) (rc_BackoffType r) (rc_BaseMs r) (rc_ErrorCodes r) (rc_ErrorMessages r) (rc_CodePolicy r) (rc_MessagePolicy r) 0 0 0 0 None 0
  end.

Section builder.
Context {S : Type} `{StateStore S} {X : Type}.
Notation router := (world S X -> GatewayContext -> list Endpoint -> world S X * GatewayContext * list Endpoint).
Notation balancer := (world S X -> GatewayContext -> list Endpoint -> world S X * GatewayContext * option Endpoint).

(** [core.InvokerDependencyResolver], with what the model of an invoker takes besides: the call of
    an endpoint, the error rules and the trace header of the writer. *)
Record InvokerDependencyResolver := mkResolver {
  rv_Discovery : world S X -> string -> world S X * (list Endpoint + goerror);
  rv_ResolveRouters : list string -> list router;
  rv_ResolveLoadBalancer : string -> option balancer;
  rv_EnableActiveHealthCheck : bool;
  rv_invoke : Endpoint -> Time -> world S X -> GatewayContext -> world S X * GatewayContext * option goerror;
  rv_retry_match : RetryPolicy -> Z -> string -> string -> string -> bool;
  rv_cb_match : CircuitBreakPolicy -> Z -> string -> string -> string -> bool;
  rv_writer_trace : option string
}.
Context (r : InvokerDependencyResolver).

(** The balancers that the resolver knows, by the names of the list. *)
Definition resolve_lbs : gmap string balancer :=
  fold_left (fun m name => match rv_ResolveLoadBalancer r name with Some lb => <[name := lb]> m | None => m end) knownLBStrategies ∅.

Definition NewClusterInvoker (routers : list router) (lbs : gmap string balancer) (retry : option RetryPolicy) : @ClusterInvoker S X :=
  mkCluster (rv_Discovery r) routers lbs "round_robin" (default DefaultRetryStrategy retry) false (rv_invoke r) (rv_retry_match r) (rv_cb_match r) (rv_writer_trace r).

Definition SetDefaultLBStrategy (ci : @ClusterInvoker S X) (strategy : string) : @ClusterInvoker S X :=
  if is_empty strategy then ci
  else mkCluster (ci_discovery ci) (ci_routers ci) (ci_lbs ci) strategy (ci_retry ci) (ci_enableActive ci) (ci_invoke ci) (ci_retry_match ci) (ci_cb_match ci) (ci_writer_trace ci).

Definition SetEnableActive (ci : @ClusterInvoker S X) (enable : bool) : @ClusterInvoker S X :=
  mkCluster (ci_discovery ci) (ci_routers ci) (ci_lbs ci) (ci_defaultLB ci) (ci_retry ci) enable (ci_invoke ci) (ci_retry_match ci) (ci_cb_match ci) (ci_writer_trace ci).

Definition buildClusterInvoker (cfg : invoker_config) : @ClusterInvoker S X :=
  SetDefaultLBStrategy (SetEnableActive (NewClusterInvoker (rv_ResolveRouters r (iv_Routers cfg)) resolve_lbs (Some (retry_of (iv_Retry cfg)))) (rv_EnableActiveHealthCheck r))
    (iv_LoadBalancer cfg).

(** A hedging invoker shares the parts of a cluster invoker, has no retry policy of its own, and
    carries the serial invoker it falls back to. *)
Definition buildHedgingInvoker (cfg : invoker_config) : @ClusterInvoker S X * @ClusterInvoker S X :=
  (SetDefaultLBStrategy (SetEnableActive (NewClusterInvoker (rv_ResolveRouters r (iv_Routers cfg)) resolve_lbs None) (rv_EnableActiveHealthCheck r)) (iv_LoadBalancer cfg),
   buildClusterInvoker (mkInvokerCfg "cluster" (iv_Routers cfg) (iv_LoadBalancer cfg) (iv_Retry cfg))).

Inductive built := BuiltCluster (ci : @ClusterInvoker S X) | BuiltHedging (hi fallback : @ClusterInvoker S X).

(** Every type but [hedging] is a cluster invoker. *)
Definition BuildInvoker (cfg : invoker_config) : built :=
  if seqb (iv_Type cfg) "hedging" then let '(hi, fallback) := buildHedgingInvoker cfg in BuiltHedging hi fallback
  else BuiltCluster (buildClusterInvoker cfg).

(** * What an invoker is built with *)

Definition built_invokers (b : built) : list (@ClusterInvoker S X) := match b with BuiltCluster ci => [ci] | BuiltHedging hi fb => [hi; fb] end.

Lemma resolve_lbs_lookup name : resolve_lbs !! name = if bool_decide (name ∈ knownLBStrategies) then rv_ResolveLoadBalancer r name else None.
Proof.
  unfold resolve_lbs. assert (forall l m, fold_left (fun m name => match rv_ResolveLoadBalancer r name with Some lb => <[name := lb]> m | None => m end) l m !! name =
    match (if bool_decide (name ∈ l) then rv_ResolveLoadBalancer r name else None) with Some lb => Some lb | None => m !! name end) as ->.
  { induction l as [|x l IH]; intros m; [done|]. cbn [fold_left]. rewrite IH. destruct (decide (name = x)) as [->|N].
    - rewrite (bool_decide_eq_true_2 (x ∈ x :: l)) by by left. destruct (rv_ResolveLoadBalancer r x) eqn:E; [|by destruct (bool_decide _)].
      destruct (bool_decide _); [done|]. by rewrite lookup_insert_eq.
    - rewrite (bool_decide_ext (name ∈ x :: l) (name ∈ l)) by (rewrite elem_of_cons; naive_solver). destruct (if bool_decide _ then _ else _); [done|].
      destruct (rv_ResolveLoadBalancer r x); [by rewrite lookup_insert_ne|done]. }
  rewrite lookup_empty. by destruct (if bool_decide _ then _ else _).
Qed.

(** Whatever a configuration names, an invoker of a resolver that knows round robin has a
    balancer to choose with. *)
Lemma built_invoker_has_balancer cfg ci : is_Some (rv_ResolveLoadBalancer r "round_robin") -> ci ∈ built_invokers (BuildInvoker cfg) ->
  is_Some (ci_lbs ci !! "round_robin") /\ (iv_LoadBalancer cfg <> "" -> ci_defaultLB ci = iv_LoadBalancer cfg).
Proof.
  intros [lb E] I. assert (ci_lbs ci = resolve_lbs /\ (iv_LoadBalancer cfg <> "" -> ci_defaultLB ci = iv_LoadBalancer cfg)) as [L D].
  { assert (forall base, ci_lbs (SetDefaultLBStrategy base (iv_LoadBalancer cfg)) = ci_lbs base /\
      (iv_LoadBalancer cfg <> "" -> ci_defaultLB (SetDefaultLBStrategy base (iv_LoadBalancer cfg)) = iv_LoadBalancer cfg)) as K.
    { intros base. unfold SetDefaultLBStrategy. destruct (is_empty (iv_LoadBalancer cfg)) eqn:Em; [apply seqb_eq in Em|]; done. }
    unfold BuildInvoker in I. destruct (seqb _ _); cbn [buildHedgingInvoker built_invokers] in I;
      repeat (apply elem_of_cons in I as [->|I]; [apply K|]); by apply elem_of_nil in I. }
  split; [|done]. rewrite L, resolve_lbs_lookup, E, bool_decide_eq_true_2; [by eexists|by left].
Qed.

Lemma built_invoker_chooses cfg ci g : is_Some (rv_ResolveLoadBalancer r "round_robin") -> ci ∈ built_invokers (BuildInvoker cfg) ->
  is_Some (pick_lb ci g) /\ is_Some (hedging_lb ci g).
Proof.
  intros E I. destruct (built_invoker_has_balancer cfg ci E I) as [[lb L] _]. unfold pick_lb, hedging_lb. rewrite L. cbn. split.
  - repeat match goal with |- is_Some (match ?x with Some _ => _ | None => _ end) => destruct x; [by eexists|] end. by eexists.
  - destruct (lb_policy g ≫= _); [by eexists|]. destruct (ci_lbs ci !! ci_defaultLB ci); by eexists.
Qed.

(** The timeouts of a retry configuration do not reach the invoker. *)
Lemma retry_timeouts_dropped cfg : iv_Type cfg <> "hedging" ->
  exists ci, BuildInvoker cfg = BuiltCluster ci /\ rp_ConnectTimeout (ci_retry ci) = 0 /\ rp_TtftTimeout (ci_retry ci) = 0 /\ rp_TotalTimeout (ci_retry ci) = 0.
Proof.
  intros N. apply seqb_neq in N. unfold BuildInvoker. rewrite N. eexists. split; [done|]. unfold buildClusterInvoker, SetDefaultLBStrategy, retry_of.
  destruct (is_empty _), (iv_Retry cfg); done.
Qed.
End builder.
