(* ===== verification/Upstream.v ===== *)
(** pkg/llm/upstream/call.go and pkg/llm/idle_timeout_reader.go: one call of an upstream
    endpoint, from the request headers to the body handed to the caller.

    The body of a response is the bytes its reads yield and how they end.  The HTTP client,
    with the network behind it, is a parameter. *)

From Stdlib Require Import Ascii.
From S2P Require Import Prelude GoFloat GoStrings GoTime GoJson Matcher Policy Types Context Http.
From S2P Require Import Store Limiter Settlement Sse.

(** * Bodies *)

(** [b_err = None] is io.EOF; [b_joined] tells whether the end is reported by the read that
    returns the last bytes or by one of its own. *)
Record upstream_body := mkBody { b_data : bytes; b_err : option goerror; b_joined : bool }.

(** What reading through [boundedBody] with a limit yields (see [bounded_body_exact]). *)
Definition bounded_view (limit : Z) (b : upstream_body) : upstream_body :=
  if Z.of_nat (length (b_data b)) <=? limit then b
  else mkBody (take (Z.to_nat limit) (b_data b)) (Some errResponseLimit) false.

(** [bufio.Reader.ReadSlice] errors. *)
Inductive slice_err := SliceEOF | SliceFull | SliceErr (e : goerror).

Definition end_err (b : upstream_body) : slice_err := match b_err b with Some e => SliceErr e | None => SliceEOF end.

(** The first line of [l], line feed included, if it ends within [n] bytes. *)
Fixpoint take_line (n : nat) (l : bytes) : option (bytes * bytes) :=
  match n, l with
  | S n, c :: r => if bool_decide (c = LF) then Some ([c], r)
                   else match take_line n r with Some (p, q) => Some (c :: p, q) | None => None end
  | _, _ => None
  end.

Definition maxSSEProbeLineSize : Z := 4096.

(** [reader.ReadSlice('\n')] on a buffer of [maxSSEProbeLineSize] bytes. *)
Definition ReadSlice (b : upstream_body) : bytes * upstream_body * option slice_err :=
  let size := Z.to_nat maxSSEProbeLineSize in
  let n := Z.of_nat (length (b_data b)) in
  match take_line size (b_data b) with
  | Some (line, rest) => (line, mkBody rest (b_err b) (b_joined b), None)
  | None =>
      if (n <? maxSSEProbeLineSize) || ((n =? maxSSEProbeLineSize) && b_joined b)
      then (b_data b, mkBody [] (b_err b) (b_joined b), Some (end_err b))
      else (take size (b_data b), mkBody (drop size (b_data b)) (b_err b) (b_joined b), Some SliceFull)
  end.

(** * Probe of a stream without the event-stream content type *)

Definition BOM : string := string_of (map byte_of [239; 187; 191]).

Definition before_colon (s : string) : string := match SplitByte s ":" with f :: _ => f | [] => "" end.

Definition looksLikeSSELine (line : bytes) : bool :=
  let s := TrimSpace (TrimPrefix (string_of line) BOM) in
  HasPrefix s ":" || existsb (seqb (before_colon s)) ["data"; "event"; "id"; "retry"].

(** The loop of [probeSSELine]: the bytes probed so far, the rest of the body, the answer. *)
Fixpoint probe_loop (fuel : nat) (probed : bytes) (b : upstream_body) : bytes * upstream_body * bool * option slice_err :=
  match fuel with
  | O => (probed, b, false, Some SliceFull)
  | S fuel =>
      if Z.of_nat (length probed) <? maxSSEProbeLineSize then
        let '(line, b, err) := ReadSlice b in
        let probed := probed ++ line in
        if maxSSEProbeLineSize <? Z.of_nat (length probed) then (probed, b, false, Some SliceFull)
        else if looksLikeSSELine line && match err with Some (SliceErr _) => false | _ => true end then (probed, b, true, err)
        else match err with
             | Some e => (probed, b, false, Some e)
             | None => probe_loop fuel probed b
             end
      else (probed, b, false, Some SliceFull)
  end.

(** Each round consumes at least one byte. *)
Definition probeSSELine (b : upstream_body) : bytes * upstream_body * bool * option slice_err :=
  probe_loop (S (length (b_data b))) [] b.

(** * The call *)

Record upstream_Request := mkUpstreamRequest { ur_URL : string; ur_Body : string; ur_Header : headers }.

(** The request as it leaves the gateway. *)
Record http_sent := mkSent { hs_URL : string; hs_Header : headers; hs_Body : string }.

(** What [client.Do] gives under a first-byte limit: whether the timer fired before it
    returned, and the response or the error. *)
Record do_result := mkDo { do_fired : bool; do_answer : (http_Response * upstream_body) + goerror }.
Definition http_client : Type := http_sent -> Duration -> do_result.

(** What the attempt holds: the first-byte timer, its context, the body of the response.
    [None]: not created. *)
Record attempt_state := mkAttempt { at_sent : option http_sent; at_timer : option bool; at_live : option bool; at_body : option bool }.
#[global] Instance eta_attempt_state : Eta attempt_state := fun a => mkAttempt (at_sent a) (at_timer a) (at_live a) (at_body a).

Definition no_attempt : attempt_state := mkAttempt None None None None.

(** [timer.Stop()] and [singleCancel(nil)]. *)
Definition release (a : attempt_state) : attempt_state := a <| at_timer := Some false |> <| at_live := Some false |>.
Definition close_body (a : attempt_state) : attempt_state := a <| at_body := Some false |>.

(** [cancelReadCloser.Close]. *)
Definition cancel_Close (a : attempt_state) : attempt_state := release (close_body a).

Definition call_policy (g : GatewayContext) : option RetryPolicy := invocation_policy g ≫= ip_RetryPolicy.

Definition totalTimeout (g : GatewayContext) : Z :=
  match call_policy g with
  | Some rp => if 0 <? rp_TotalTimeout rp then rp_TotalTimeout rp else if IsStream g then 600000 else 60000
  | None => if IsStream g then 600000 else 60000
  end.

Definition firstByteTimeout (g : GatewayContext) : Z :=
  match call_policy g with
  | Some rp => if (0 <? rp_ConnectTimeout rp) || (0 <? rp_TtftTimeout rp) then wrap64 (rp_ConnectTimeout rp + rp_TtftTimeout rp) else totalTimeout g
  | None => totalTimeout g
  end.

Definition defaultUserAgent : string :=
  "Mozilla/5.0 (Macintosh; Intel Mac OS X 10_15_7) AppleWebKit/537.36 (KHTML, like Gecko) Chrome/120.0.0.0 Safari/537.36".

(** [h.Add] and [h.Set]. *)
Definition header_Add (h : headers) (k v : string) : headers :=
  let key := CanonicalMIMEHeaderKey k in <[key := header_values h key ++ [v]]> h.
Definition header_set (h : headers) (k v : string) : headers := <[CanonicalMIMEHeaderKey k := [v]]> h.

Section call.
(** The order in which Go ranges over a map of headers. *)
Context (order : gmap string string -> list (string * string)).
(** The same for the headers of the request: key and values. *)
Context (order_values : headers -> list (string * list string)).
(** [http.NewRequestWithContext]: why a URL is refused. *)
Context (bad_url : string -> option goerror).
(** What the reads yield through the idle-timeout reader. *)
Context (idle : Duration -> upstream_body -> upstream_body).

Definition set_all (m : gmap string string) (h : headers) : headers := fold_left (fun h kv => header_set h kv.1 kv.2) (order m) h.

Definition copy_headers (from : headers) : headers :=
  fold_left (fun h kvs => fold_left (fun h v => header_Add h kvs.1 v) kvs.2 h) (order_values from) ∅.

Definition userAgent (g : GatewayContext) : string :=
  let ua := match Request g with Some r => header_Get (req_Header r) "User-Agent" | None => "" end in
  if is_empty ua then defaultUserAgent else ua.

Definition request_headers (g : GatewayContext) (from : headers) : headers :=
  let h := header_set (copy_headers from) "User-Agent" (userAgent g) in
  let h := match SelectedEndpoint g with Some ep => set_all (ep_Headers ep) h | None => h end in
  match InjectedHeaders g with Some m => set_all m h | None => h end.

Definition isRequestBodyTooLargeResponse (body : string) : bool :=
  let message := ToLower body in Contains message "content length exceeded" && Contains message "bytes".

Definition not_a_stream (contentType : string) (body : bytes) : string :=
  "upstream stream request returned non-stream content-type: " +:+ contentType +:+ ", body: " +:+ string_of body.

(** The error for a stream request answered by something else. *)
Definition non_stream_error (contentType : string) (body : bytes) (probeErr : option slice_err) (readErr : option goerror) : goerror :=
  let text := not_a_stream contentType body in
  if isRequestBodyTooLargeResponse (string_of body) then mkCodeError text [] (Some false) (Some 413)
  else match probeErr with
       | Some (SliceErr e) => wrap_error (text +:+ ": ") e
       | Some SliceFull => errorf (text +:+ ": bufio: buffer full")
       | _ => match readErr with Some e => wrap_error (text +:+ ": ") e | None => errorf text end
       end.

Definition call_result : Type := GatewayContext * attempt_state * ((http_Response * upstream_body) + goerror).

(** The stream part of [Call]: idle limit, content type, probe. *)
Definition accept_stream (g : GatewayContext) (a : attempt_state) (resp : http_Response) (b : upstream_body) : call_result :=
  let idleTimeout := match call_policy g with Some rp => rp_IdleTimeout rp | None => 0 end in
  let b := if 0 <? idleTimeout then idle (wrap64 (idleTimeout * Millisecond)) b else b in
  let contentType := header_Get (resp_Header resp) "Content-Type" in
  if Contains (ToLower contentType) "text/event-stream" then (g, a, inl (resp, b))
  else
    let '(firstLine, rest, isSSE, probeErr) := probeSSELine b in
    if isSSE then
      (g <| UpstreamBody := Some (string_of firstLine) |>, a, inl (resp, mkBody (firstLine ++ b_data rest) (b_err rest) (b_joined rest)))
    else
      let '(more, readErr) := match probeErr with Some SliceFull => ([], None) | _ => (b_data rest, b_err rest) end in
      let body := firstLine ++ more in
      (g <| UpstreamBody := Some (string_of body) |>, release (close_body a), inr (non_stream_error contentType body probeErr readErr)).

Definition accept_response (g : GatewayContext) (a : attempt_state) (resp : http_Response) (b : upstream_body) : call_result :=
  let g := g <| UpstreamResponse := Some resp |> in
  let a := a <| at_body := Some true |> in
  let b := if 0 <? MaxResponseBytes g then bounded_view (MaxResponseBytes g) b else b in
  if 400 <=? resp_StatusCode resp then
    let text := "upstream error: status " +:+ Itoa (resp_StatusCode resp) in
    (g <| UpstreamBody := Some (string_of (b_data b)) |>, release (close_body a),
     inr (errorf (if Sensitive g then text else text +:+ ", body: " +:+ string_of (b_data b))))
  else if IsStream g then accept_stream g a resp b
  else (g, a, inl (resp, b)).

Definition Call (g : GatewayContext) (client : option http_client) (req : upstream_Request) : call_result :=
  match client with
  | None => (g, no_attempt, inr (errorf "upstream call: nil http.Client"))
  | Some do =>
      if is_empty (ur_URL req) then (g, no_attempt, inr (errorf "upstream call: empty URL"))
      else
        let limit := wrap64 (firstByteTimeout g * Millisecond) in
        let a := mkAttempt None (Some true) (Some true) None in
        let g := RegisterTTFTimer g in
        match bad_url (ur_URL req) with
        | Some e => (g, release a, inr (wrap_error "create request: " e))
        | None =>
            let sent := mkSent (ur_URL req) (request_headers g (ur_Header req)) (ur_Body req) in
            let a := a <| at_sent := Some sent |> in
            let d := do sent limit in
            match do_answer d with
            | inr e =>
                let timed_out := do_fired d && (TTFT g =? 0) in
                (g, release a, inr (wrap_error (if timed_out then "upstream request timeout (gateway policy active disconnect, first byte timeout): "
                                                else "upstream request: ") e))
            | inl (resp, b) => accept_response g a resp b
            end
        end
  end.
End call.

(** * The idle-timeout reader *)

(** The timer runs from the start of a read, and again from its end where it returned
    bytes; when it fires, the connection is cancelled. *)
Record idle_reader := mkIdle { ir_deadline : option Time; ir_timedOut : bool }.

Definition idle_error (idleTimeout : Duration) : goerror := errorf ("stream read idle timeout after " +:+ duration_String idleTimeout).

Definition idle_tick (now : Time) (r : idle_reader) : idle_reader :=
  match ir_deadline r with
  | Some t => if t <=? now then mkIdle None true else r
  | None => r
  end.

(** One read of the connection: when it was called, when it returned, its bytes and end. *)
Definition timed_read : Type := Time * Time * bytes * read_end.

Definition idle_Read (idleTimeout : Duration) (r : idle_reader) (x : timed_read) : idle_reader * (bytes * read_end) :=
  let '(start, finish, data, e) := x in
  let r := idle_tick start r in
  if ir_timedOut r then (r, ([], ReadErr (idle_error idleTimeout)))
  else
    let r := idle_tick finish (mkIdle (Some (start + idleTimeout)) false) in
    let r := match data with
             | _ :: _ => if ir_timedOut r then r else mkIdle (Some (finish + idleTimeout)) false
             | [] => r
             end in
    match e with
    | ReadMore => (r, (data, ReadMore))
    | _ => (r, (data, if ir_timedOut r then ReadErr (idle_error idleTimeout) else e))
    end.

(** [Close] stops the timer. *)
Definition idle_Close (r : idle_reader) : idle_reader := mkIdle None (ir_timedOut r).

(** The reads of a consumer until the first that ends the stream. *)
Fixpoint idle_run (idleTimeout : Duration) (r : idle_reader) (reads : list timed_read) : list (bytes * read_end) :=
  match reads with
  | [] => []
  | x :: rest =>
      let '(r, (data, e)) := idle_Read idleTimeout r x in
      match e with ReadMore => (data, e) :: idle_run idleTimeout r rest | _ => [(data, e)] end
  end.

(** * Lemmas *)

Lemma take_line_split n l p q : take_line n l = Some (p, q) -> l = p ++ q /\ p <> [] /\ (length p <= n)%nat.
Proof.
  revert l p q. induction n as [|n IH]; intros [|c r] p q; try done. cbn [take_line].
  destruct (bool_decide (c = LF)); [intros [= <- <-]; split_and!; [done|done|cbn; lia]|].
  destruct (take_line n r) as [[p' q']|] eqn:E; [|done]. intros [= <- <-].
  destruct (IH _ _ _ E) as (-> & ? & ?). split_and!; [done|done|cbn; lia].
Qed.

Lemma ReadSlice_split b : let '(line, b', err) := ReadSlice b in
  b_data b = line ++ b_data b' /\ b_err b' = b_err b /\ b_joined b' = b_joined b /\ (err = None -> line <> []) /\
  (forall e, err = Some (SliceErr e) -> b_err b = Some e /\ b_data b' = []).
Proof.
  unfold ReadSlice. destruct (take_line _ _) as [[line rest]|] eqn:E.
  - destruct (take_line_split _ _ _ _ E) as (? & ? & _). split_and!; [done..|]. discriminate.
  - destruct (_ || _); cbn [b_data b_err b_joined].
    + rewrite app_nil_r. split_and!; [done..|]. intros e. unfold end_err. destruct (b_err b); naive_solver.
    + rewrite take_drop. split_and!; try done.
Qed.

(** What the probe consumed and what it left is the body. *)
Lemma probe_loop_split fuel : forall probed b, let '(probed', b', _, _) := probe_loop fuel probed b in
  probed ++ b_data b = probed' ++ b_data b' /\ b_err b' = b_err b /\ b_joined b' = b_joined b.
Proof.
  induction fuel as [|fuel IH]; intros probed b; [done|]. cbn [probe_loop]. destruct (_ <? _); [|done].
  pose proof (ReadSlice_split b) as H. destruct (ReadSlice b) as [[line b1] err]. destruct H as (-> & <- & <- & _).
  destruct (_ <? _); [by rewrite app_assoc|]. destruct (_ && _); [by rewrite app_assoc|].
  destruct err; [by rewrite app_assoc|]. specialize (IH (probed ++ line) b1). rewrite <- app_assoc in IH. exact IH.
Qed.

(** The probe has fuel enough: more changes nothing. *)
Lemma probe_loop_fuel n m : forall probed b, (length (b_data b) < n)%nat -> (length (b_data b) < m)%nat ->
  probe_loop n probed b = probe_loop m probed b.
Proof.
  revert m. induction n as [|n IH]; intros [|m] probed b Hn Hm; try lia. cbn [probe_loop]. destruct (_ <? _); [|done].
  pose proof (ReadSlice_split b) as H. destruct (ReadSlice b) as [[line b1] err]. destruct H as (E & _ & _ & N & _).
  destruct (_ <? _); [done|]. destruct (_ && _); [done|]. destruct err; [done|].
  assert (0 < length line)%nat by (destruct line; [by destruct N|cbn; lia]). rewrite E, length_app in Hn, Hm. apply IH; lia.
Qed.

(** A probe that says yes saw a line that looks like an event within its first bytes. *)
Lemma probe_loop_sse fuel : forall probed b, let '(probed', _, isSSE, _) := probe_loop fuel probed b in
  isSSE = true -> Z.of_nat (length probed') <= maxSSEProbeLineSize /\ exists pre line, probed' = probed ++ pre ++ line /\ looksLikeSSELine line = true.
Proof.
  induction fuel as [|fuel IH]; intros probed b; [done|]. cbn [probe_loop]. destruct (_ <? _); [|done].
  destruct (ReadSlice b) as [[line b1] err]. destruct (_ <? _) eqn:L; [done|]. apply Z.ltb_ge in L.
  destruct (looksLikeSSELine line && _) eqn:S.
  - intros _. split; [done|]. exists [], line. by apply andb_true_iff in S as [-> _].
  - destruct err; [done|]. specialize (IH (probed ++ line) b1). destruct (probe_loop _ _ _) as [[[p b2] s] e].
    intros ?. destruct IH as (? & pre & l & -> & ?); [done|]. split; [done|]. exists (line ++ pre), l. by rewrite <- !app_assoc.
Qed.

(** A view of a body through a wrapper: a prefix of its bytes, and the whole where the
    reads end with io.EOF. *)
Definition honest (b b' : upstream_body) : Prop :=
  b_data b' `prefix_of` b_data b /\ (b_err b' = None -> b_data b' = b_data b /\ b_err b = None).

Lemma honest_refl b : honest b b.
Proof. by split. Qed.

Lemma honest_trans b1 b2 b3 : honest b1 b2 -> honest b2 b3 -> honest b1 b3.
Proof. intros [P1 E1] [P2 E2]. split; [by etrans|]. intros H. destruct (E2 H) as [-> H2]. by apply E1. Qed.

Lemma bounded_view_honest limit b : honest b (bounded_view limit b).
Proof.
  unfold bounded_view. destruct (_ <=? _); [apply honest_refl|]. split; [|done]. cbn. apply prefix_take.
Qed.

(** The bytes and the end of a sequence of reads; [None]: the stream does not end. *)
Fixpoint stream_of (reads : list (bytes * read_end)) : option (bytes * option goerror) :=
  match reads with
  | [] => None
  | (data, ReadMore) :: rest => (fun s => (data ++ s.1, s.2)) <$> stream_of rest
  | (data, ReadEOF) :: _ => Some (data, None)
  | (data, ReadErr e) :: _ => Some (data, Some e)
  end.

Definition untimed (x : timed_read) : bytes * read_end := let '(_, _, data, e) := x in (data, e).

(** No read waits for the limit, and the consumer comes back before it. *)
Fixpoint in_time (idleTimeout : Duration) (deadline : option Time) (reads : list timed_read) : bool :=
  match reads with
  | [] => true
  | (start, finish, data, _) :: rest =>
      (match deadline with Some t => start <? t | None => true end) && (finish <? start + idleTimeout) &&
      in_time idleTimeout (Some (match data with [] => start | _ => finish end + idleTimeout)) rest
  end.

Lemma idle_run_in_time idleTimeout reads : forall deadline, in_time idleTimeout deadline reads = true ->
  stream_of (idle_run idleTimeout (mkIdle deadline false) reads) = stream_of (map untimed reads).
Proof.
  induction reads as [|[[[start finish] data] e] rest IH]; intros deadline H; [done|]. cbn [in_time] in H. zbool.
  cbn [idle_run map untimed idle_Read].
  assert (idle_tick start (mkIdle deadline false) = mkIdle deadline false) as ->.
  { unfold idle_tick. cbn. destruct deadline as [t|]; [|done]. zbool. rewrite (proj2 (Z.leb_gt _ _)) by lia. done. }
  assert (idle_tick finish (mkIdle (Some (start + idleTimeout)) false) = mkIdle (Some (start + idleTimeout)) false) as ->.
  { unfold idle_tick. cbn [ir_deadline]. by rewrite (proj2 (Z.leb_gt _ _)) by lia. }
  cbn [ir_timedOut]. destruct data, e; cbn [ir_timedOut stream_of]; try done; by rewrite IH.
Qed.

(** The reader with the idle limit passes the stream of the connection on unchanged as long
    as every wait stays below the limit; otherwise the consumer gets a prefix of it and the
    idle error, never an early end of file. *)
Theorem idle_reader_honest (idleTimeout : Duration) (reads : list timed_read) (data : bytes) (e : option goerror)
  (Hbody : stream_of (map untimed reads) = Some (data, e)) :
  exists data' e', stream_of (idle_run idleTimeout (mkIdle None false) reads) = Some (data', e') /\
    honest (mkBody data e false) (mkBody data' e' false) /\ (e' = e \/ e' = Some (idle_error idleTimeout)) /\
    (in_time idleTimeout None reads = true -> data' = data /\ e' = e).
Proof.
  assert (forall reads r data e, stream_of (map untimed reads) = Some (data, e) ->
    exists data' e', stream_of (idle_run idleTimeout r reads) = Some (data', e') /\ data' `prefix_of` data /\ (e' = e /\ data' = data \/ e' = Some (idle_error idleTimeout))) as Run.
  { clear. induction reads as [|[[[start finish] d] e0] rest IH]; intros r data e H; [done|]. cbn [idle_run map untimed stream_of] in *. unfold idle_Read.
    destruct (ir_timedOut (idle_tick start r)).
    { exists [], (Some (idle_error idleTimeout)). split; [done|]. split; [apply prefix_nil|by right]. }
    set (r1 := match d with [] => _ | _ => _ end). clearbody r1. destruct e0 as [| |e0].
    - destruct (stream_of (map untimed rest)) as [[d1 e1]|] eqn:E; [|done]. cbn in H. injection H as <- <-.
      destruct (IH r1 _ _ eq_refl) as (d' & e' & Q & P & C). exists (d ++ d'), e'. cbn [stream_of]. rewrite Q. split; [done|].
      split; [by apply prefix_app|]. destruct C as [[-> ->]| ->]; [by left|by right].
    - injection H as <- <-. destruct (ir_timedOut r1); eexists _, _; (split; [done|]); (split; [done|]); [by right|by left].
    - injection H as <- <-. destruct (ir_timedOut r1); eexists _, _; (split; [done|]); (split; [done|]); [by right|by left]. }
  destruct (Run reads (mkIdle None false) _ _ Hbody) as (d' & e' & Q & P & C). exists d', e'. split_and!; [done|split;[done|]| |].
  - cbn. destruct C as [[-> ->]| ->]; [done|done].
  - destruct C as [[-> ->]|]; auto.
  - intros T. rewrite (idle_run_in_time _ _ _ T), Hbody in Q. by injection Q as <- <-.
Qed.

(** The time the consumer takes between two reads counts as idle time of the upstream: a
    client that is slow to take a chunk has its stream cancelled, although the next bytes
    were there. *)
Lemma slow_client_cancels_stream : exists reads, stream_of (map untimed reads) = Some (ascii_list "ab", None) /\
  Forall (fun x => let '(start, finish, _, _) := x in finish - start <= 1) reads /\
  stream_of (idle_run 10 (mkIdle None false) reads) = Some (ascii_list "a", Some (idle_error 10)).
Proof.
  exists [(0, 1, ascii_list "a", ReadMore); (20, 20, ascii_list "b", ReadMore); (20, 20, [], ReadEOF)].
  split_and!; [done|repeat constructor; lia|done].
Qed.

Section call_facts.
Context (order : gmap string string -> list (string * string)) (order_values : headers -> list (string * list string)).
Context (bad_url : string -> option goerror) (idle : Duration -> upstream_body -> upstream_body).
Context (Hidle : forall d b, honest b (idle d b)).

Definition released (a : attempt_state) : Prop := at_timer a <> Some true /\ at_live a <> Some true /\ at_body a <> Some true.

(** The body is recognised as an event stream. *)
Definition event_stream (resp : http_Response) (b : upstream_body) : Prop :=
  Contains (ToLower (header_Get (resp_Header resp) "Content-Type")) "text/event-stream" = true \/
  exists pre line rest, b_data b = pre ++ line ++ rest /\ Z.of_nat (length (pre ++ line)) <= maxSSEProbeLineSize /\ looksLikeSSELine line = true.

Lemma accept_stream_spec g a resp b g' a' res : accept_stream idle g a resp b = (g', a', res) ->
  match res with
  | inl (resp', b') => resp' = resp /\ a' = a /\ honest b b' /\ event_stream resp b' /\ UpstreamResponse g' = UpstreamResponse g
  | inr _ => a' = release (close_body a) /\ UpstreamResponse g' = UpstreamResponse g
  end.
Proof.
  unfold accept_stream. set (b1 := if _ <? _ then idle _ b else b).
  assert (honest b b1) as H1 by (subst b1; destruct (_ <? _); [apply Hidle|apply honest_refl]). clearbody b1.
  destruct (Contains _ _) eqn:C; [intros [= <- <- <-]; split_and!; [done|done|done|by left|done]|].
  pose proof (probe_loop_split (S (length (b_data b1))) [] b1) as Sp. pose proof (probe_loop_sse (S (length (b_data b1))) [] b1) as Ss.
  unfold probeSSELine. destruct (probe_loop _ _ _) as [[[first rest] isSSE] perr]. destruct Sp as (Sd & Se & Sj). cbn [app] in Sd.
  destruct isSSE.
  - intros [= <- <- <-]. assert (mkBody (first ++ b_data rest) (b_err rest) (b_joined rest) = b1) as -> by (rewrite <- Sd, Se, Sj; by destruct b1).
    split_and!; [done|done|done| |done]. right. destruct Ss as (L & pre & line & E & Q); [done|]. cbn [app] in E. exists pre, line, (b_data rest). rewrite Sd, E, <- app_assoc.
    split_and!; [done|by rewrite <- E|done].
  - destruct (match perr with Some SliceFull => _ | _ => _ end) as [more rerr]. by intros [= <- <- <-].
Qed.
End call_facts.

(** A call that fails holds nothing. *)
Lemma call_failed_released order order_values bad_url idle g client req g' a e : Call order order_values bad_url idle g client req = (g', a, inr e) -> released a.
Proof.
  unfold Call. destruct client as [do|]; [|intros [= <- <- <-]; repeat split; done].
  destruct (is_empty _); [intros [= <- <- <-]; repeat split; done|]. destruct (bad_url _); [intros [= <- <- <-]; repeat split; done|]. cbn zeta.
  destruct (do_answer _) as [[resp rb]|]; [|intros [= <- <- <-]; repeat split; done]. unfold accept_response. destruct (_ <=? _); [intros [= <- <- <-]; repeat split; done|].
  destruct (IsStream _); [|done]. unfold accept_stream. destruct (Contains _ _); [done|]. destruct (probeSSELine _) as [[[first rest] []] perr]; [done|].
  destruct (match perr with Some SliceFull => _ | _ => _ end) as [more rerr]. intros [= <- <- <-]. repeat split; done.
Qed.

Lemma call_IsStream order order_values bad_url idle g client req g' a res : Call order order_values bad_url idle g client req = (g', a, res) -> IsStream g' = IsStream g.
Proof.
  unfold Call. destruct client as [do|]; [|by intros [= <- _ _]]. destruct (is_empty _); [by intros [= <- _ _]|]. destruct (bad_url _); [by intros [= <- _ _]|]. cbn zeta.
  destruct (do_answer _) as [[resp rb]|]; [|by intros [= <- _ _]]. unfold accept_response. destruct (_ <=? _); [by intros [= <- _ _]|].
  destruct (IsStream _) eqn:S; [|by intros [= <- _ _]]. unfold accept_stream. destruct (Contains _ _); [by intros [= <- _ _]|].
  destruct (probeSSELine _) as [[[first rest] []] perr]; [by intros [= <- _ _]|]. destruct (match perr with Some SliceFull => _ | _ => _ end) as [more rerr]. by intros [= <- _ _].
Qed.

Lemma cancel_released a : released (cancel_Close a).
Proof. repeat split; done. Qed.

(** C16: one call of an upstream endpoint. A call that succeeds sent the body to the URL it was
    given, was answered with a status below 400 (and by an event stream, when one was asked
    for), and the caller reads what the endpoint sent: a prefix of its bytes, and all of them
    when the reading ends with the end of file, whatever limits and probes lie between. A
    call that fails leaves no timer running, no context to cancel and no body open; closing
    the body of one that succeeded leaves nothing either. *)
Theorem upstream_call (order : gmap string string -> list (string * string)) (order_values : headers -> list (string * list string))
  (bad_url : string -> option goerror) (idle : Duration -> upstream_body -> upstream_body) (do : http_client) (g g' : GatewayContext)
  (req : upstream_Request) (a : attempt_state) (res : (http_Response * upstream_body) + goerror)
  (Hidle : forall d b, honest b (idle d b)) (Hcall : Call order order_values bad_url idle g (Some do) req = (g', a, res)) :
  match res with
  | inl (resp, b) =>
      exists sent rb, at_sent a = Some sent /\ hs_URL sent = ur_URL req /\ hs_Body sent = ur_Body req /\
        do_answer (do sent (wrap64 (firstByteTimeout g * Millisecond))) = inl (resp, rb) /\ honest rb b /\
        resp_StatusCode resp < 400 /\ (IsStream g = true -> event_stream resp b) /\ UpstreamResponse g' = Some resp /\ released (cancel_Close a)
  | inr _ => released a
  end.
Proof.
  destruct res as [[resp b]|e]; [|by apply call_failed_released in Hcall]. revert Hcall. cbn [Call]. destruct (is_empty _); [done|].
  destruct (bad_url _); [done|]. cbn zeta. set (sent := mkSent _ _ _).
  change (IsStream (RegisterTTFTimer g)) with (IsStream g). destruct (do_answer _) as [[resp1 rb]|e] eqn:D; [|done].
  unfold accept_response. set (b1 := if _ <? _ then bounded_view _ rb else rb).
  assert (honest rb b1) as Hb by (subst b1; destruct (_ <? _); [apply bounded_view_honest|apply honest_refl]). clearbody b1.
  destruct (_ <=? _) eqn:E4; [done|]. apply Z.leb_gt in E4.
  destruct (IsStream _) eqn:ES.
  - intros H. apply accept_stream_spec in H; [|done]. destruct H as (-> & -> & Hb' & Hs & Hu). exists sent, rb. split_and!; try done. by apply (honest_trans _ _ _ Hb).
  - intros [= <- <- <- <-]. exists sent, rb. split_and!; done.
Qed.

(** A stream answered without the content type, recognised by its first lines. *)
Definition demo_client : http_client := fun _ _ =>
  mkDo false (inl (mkResponse 200 {["Content-Type" := ["text/plain"]]}, mkBody (ascii_list "" ++ [LF] ++ ascii_list "data: x" ++ [LF; LF]) None true)).
Definition demo_call : call_result :=
  Call map_to_list map_to_list (fun _ => None) (fun _ b => b) (emptyContext <| IsStream := true |>) (Some demo_client) (mkUpstreamRequest "http://a" "{}" ∅).

Lemma triple_eta {A B C} (x : A * B * C) : x = (fst (fst x), snd (fst x), snd x).
Proof. by destruct x as [[]]. Qed.

Lemma upstream_call_witness : exists resp b, snd demo_call = inl (resp, b) /\ b_data b = [LF] ++ ascii_list "data: x" ++ [LF; LF] /\ event_stream resp b /\ released (cancel_Close (snd (fst demo_call))).
Proof.
  pose proof (upstream_call map_to_list map_to_list (fun _ => None) (fun _ b => b) demo_client (emptyContext <| IsStream := true |>) (fst (fst demo_call))
    (mkUpstreamRequest "http://a" "{}" ∅) (snd (fst demo_call)) (snd demo_call) (fun _ b => honest_refl b) (triple_eta demo_call)) as H.
  assert (snd demo_call = inl (mkResponse 200 {["Content-Type" := ["text/plain"]]}, mkBody ([LF] ++ ascii_list "data: x" ++ [LF; LF]) None true)) as E by (vm_compute; reflexivity).
  rewrite E in *. eexists _, _. split; [reflexivity|]. split; [reflexivity|]. destruct H as (sent & rb & _ & _ & _ & _ & _ & _ & Hs & _ & Hr). split; [by apply Hs|exact Hr].
Defined.

(** * Headers of the request *)

Section header_facts.
Context (order : gmap string string -> list (string * string)) (Horder : forall m, order m ≡ₚ map_to_list m).
Context (order_values : headers -> list (string * list string)).

Lemma set_all_lookup m h k :
  (exists k' v, m !! k' = Some v /\ CanonicalMIMEHeaderKey k' = k /\ set_all order m h !! k = Some [v]) \/
  ((forall k' v, m !! k' = Some v -> CanonicalMIMEHeaderKey k' <> k) /\ set_all order m h !! k = h !! k).
Proof.
  unfold set_all. assert (forall l h,
    (exists x, x ∈ l /\ CanonicalMIMEHeaderKey x.1 = k /\ fold_left (fun h kv => header_set h kv.1 kv.2) l h !! k = Some [x.2]) \/
    ((forall x, x ∈ l -> CanonicalMIMEHeaderKey x.1 <> k) /\ fold_left (fun h kv => header_set h kv.1 kv.2) l h !! k = h !! k)) as F.
  { induction l as [|x l IH]; intros h1; [right; split; [set_solver|done]|]. cbn [fold_left].
    destruct (IH (header_set h1 x.1 x.2)) as [(y & Hy & Hk & E)|[N E]]; [left; exists y; split_and!; [by right|done|done]|].
    destruct (decide (CanonicalMIMEHeaderKey x.1 = k)) as [Q|Q].
    - left. exists x. split_and!; [by left|done|]. rewrite E. unfold header_set. rewrite Q. apply lookup_insert_eq.
    - right. split; [|rewrite E; by apply lookup_insert_ne]. intros y [->|Hy]%elem_of_cons; [done|by apply N]. }
  assert (forall k' v, (k', v) ∈ order m <-> m !! k' = Some v) as O by (intros; rewrite Horder; apply elem_of_map_to_list).
  destruct (F (order m) h) as [([k' v] & Hx & Hk & E)|[N E]]; [left; exists k', v; split_and!; [by apply O|done|done]|].
  right. split; [|done]. intros k' v H. apply (N (k', v)). by apply O.
Qed.

(** Which value a header of the request has: that of the tagging rules, else that of the
    endpoint, else the user agent of the client, else that of the provider. *)
Lemma request_headers_precedence g from k :
  let h := request_headers order order_values g from in
  let injected := default ∅ (InjectedHeaders g) in
  let own := match SelectedEndpoint g with Some ep => ep_Headers ep | None => ∅ end in
  (exists k' v, injected !! k' = Some v /\ CanonicalMIMEHeaderKey k' = k /\ h !! k = Some [v]) \/
  (exists k' v, own !! k' = Some v /\ CanonicalMIMEHeaderKey k' = k /\ h !! k = Some [v]) \/
  h !! k = (if seqb k "User-Agent" then Some [userAgent g] else copy_headers order_values from !! k).
Proof.
  intros h injected own. subst h. unfold request_headers. set (h0 := header_set _ _ _).
  assert (h0 !! k = if seqb k "User-Agent" then Some [userAgent g] else copy_headers order_values from !! k) as H0.
  { subst h0. unfold header_set. change (CanonicalMIMEHeaderKey "User-Agent") with "User-Agent".
    destruct (seqb k "User-Agent") eqn:E; sbool; [subst; apply lookup_insert_eq|by apply lookup_insert_ne]. }
  rewrite <- H0. clearbody h0. clear H0. subst injected own.
  destruct (SelectedEndpoint g) as [ep|]; [destruct (set_all_lookup (ep_Headers ep) h0 k) as [(k' & v & ? & ? & E)|[_ E]]; revert E; generalize (set_all order (ep_Headers ep) h0); intros h1 E|];
  (destruct (InjectedHeaders g) as [m|]; [match goal with |- context [set_all order m ?x] => destruct (set_all_lookup m x k) as [?|[_ ->]] end; [by left|]|]); right; eauto 10.
Qed.
End header_facts.
