(* ===== verification/OpenAI.v ===== *)
(** pkg/llm/providers/openai.go with openai_chat.go, openai_embedding.go and openai_image.go:
    the provider for OpenAI-compatible endpoints - the request, the relay of its event
    stream frame by frame, and complete responses.

    The response a provider leaves as a decoded document is represented by the text it was
    decoded from. *)

From Stdlib Require Import Ascii.
From S2P Require Import Prelude GoFloat GoStrings GoTime GoJson GoPrint Matcher Policy Types Context Http.
From S2P Require Import Store Limiter Settlement Sse Translate SmartRequest Upstream.

(** * Frames of a stream (completeSSEPrefixLen) *)

(** The length of the frame separator [l] starts with. *)
Definition sep_at (l : bytes) : option nat :=
  match l with
  | a :: b :: r =>
      if bool_decide (a = LF) then
        if bool_decide (b = LF) then Some 2%nat
        else match r with c :: _ => if bool_decide (b = CR) && bool_decide (c = LF) then Some 3%nat else None | [] => None end
      else if bool_decide (a = CR) then
        if bool_decide (b = CR) then Some 2%nat
        else match r with
             | c :: r =>
                 if bool_decide (b = LF) && bool_decide (c = LF) then Some 3%nat
                 else match r with
                      | d :: _ => if bool_decide (b = LF) && bool_decide (c = CR) && bool_decide (d = LF) then Some 4%nat else None
                      | [] => None
                      end
             | [] => None
             end
      else None
  | _ => None
  end.

(** The scan from position [i]; [skip] bytes belong to the separator just found, which
    ended the complete part at [completeLen]. *)
Fixpoint complete_loop (l : bytes) (i skip completeLen : nat) : nat :=
  match l with
  | [] => completeLen
  | _ :: r =>
      match skip with
      | S k => complete_loop r (S i) k completeLen
      | O => match sep_at l with
             | Some n => complete_loop r (S i) (n - 1) (i + n)
             | None => complete_loop r (S i) 0 completeLen
             end
      end
  end.

Definition completeSSEPrefixLen (data : bytes) (start : nat) : nat := complete_loop (drop start data) start 0 0.

Definition maxOpenAISSEFrameBytes : Z := 1048576.

(** * Errors inside a stream *)

(** The payload of an event, whose [data:] prefix may be doubled. *)
Definition clean_data (data : string) : string :=
  let c := TrimSpace data in if HasPrefix c "data:" then TrimSpace (TrimPrefix c "data:") else c.

Record stream_error := mkStreamError { se_Message : string; se_Type : string; se_Cause : string }.
#[global] Instance eta_stream_error : Eta stream_error := fun e => mkStreamError (se_Message e) (se_Type e) (se_Cause e).

Definition dec_stream_error : decoder (option stream_error) :=
  dec_struct [("error", dec_ptr (mkStreamError "" "" "")
    (dec_struct [("message", dec_field se_Message dec_string); ("type", dec_field se_Type dec_string);
                 ("code", fun _ e => Some e); ("cause", dec_field se_Cause dec_string)]))].

Definition dec_inner_message : decoder string := dec_struct [("error", dec_struct [("message", dec_string)])].

(** The message of an error event with its cause. *)
Definition error_message (e : stream_error) : string :=
  if is_empty (se_Cause e) then se_Message e
  else
    let cause := match Unmarshal dec_inner_message "" (se_Cause e) with
                 | Some m => if is_empty m then se_Cause e else m
                 | None => se_Cause e
                 end in
    se_Message e +:+ " (cause: " +:+ cause +:+ ")".

(** The error an event carries. *)
Definition event_error (data : string) : option stream_error :=
  if negb (Contains data (q "error")) then None
  else match Unmarshal dec_stream_error None (clean_data data) with
       | Some (Some e) => if is_empty (se_Message e) && is_empty (se_Type e) then None else Some e
       | _ => None
       end.

Definition error_event (e : stream_error) : goerror := errorf ("upstream stream returned error event: " +:+ error_message e).

Definition openAIStreamEventError (data : string) : option goerror := error_event <$> event_error data.

Definition dec_json_error : decoder (string * string) :=
  dec_struct [("error", fun j p => (fun m => (m, snd p)) <$>
                 dec_struct [("message", dec_string); ("type", fun j m => (fun _ => m) <$> dec_string j ""); ("code", fun _ m => Some m)] j (fst p));
              ("message", fun j p => (fun m => (fst p, m)) <$> dec_string j (snd p))].

(** A JSON document where a stream was expected. *)
Definition openAIJSONStreamError (data : bytes) : option goerror :=
  let trimmed := TrimSpace (string_of data) in
  if negb (HasPrefix trimmed "{") then None
  else Some (match Unmarshal dec_json_error ("", "") trimmed with
             | Some (inner, outer) =>
                 errorf ("upstream returned JSON error: " +:+ (if negb (is_empty inner) then inner else if negb (is_empty outer) then outer else trimmed))
             | None => errorf ("upstream stream returned JSON error body: " +:+ trimmed)
             end).

(** * Bookkeeping on native Responses streams *)

Definition put_tag (k v : string) (g : GatewayContext) : GatewayContext := g <| Tags := Some (<[k := v]> (default ∅ (Tags g))) |>.

Record resp_chunk := mkRespChunk { rk_ResponseID : string; rk_Response : option (string * string); rk_Model : string }.
#[global] Instance eta_resp_chunk : Eta resp_chunk := fun c => mkRespChunk (rk_ResponseID c) (rk_Response c) (rk_Model c).

Definition dec_resp_chunk : decoder resp_chunk :=
  dec_struct [("response_id", dec_field rk_ResponseID dec_string);
              ("response", dec_field rk_Response (dec_ptr ("", "") (dec_struct
                 [("id", fun j p => (fun x => (x, snd p)) <$> dec_string j (fst p)); ("model", fun j p => (fun x => (fst p, x)) <$> dec_string j (snd p))])));
              ("model", dec_field rk_Model dec_string)].

Definition response_identifier (id : string) : string :=
  if HasPrefix id "chatcmpl-" then "resp_" +:+ string_drop 9 id else if HasPrefix id "resp_" then id else "resp_" +:+ id.

(** The tags [response_id] and [response_model], until the first is known. *)
Definition note_response (g : GatewayContext) (data : string) : GatewayContext :=
  if seqb (RequestType g) RequestTypeResponses && is_empty (GetTagValue g "response_id") then
    match Unmarshal dec_resp_chunk (mkRespChunk "" None "") (clean_data data) with
    | Some c =>
        let nested (f : string * string -> string) := match rk_Response c with Some r => f r | None => "" end in
        let id := if is_empty (rk_ResponseID c) then nested fst else rk_ResponseID c in
        let model := if is_empty (rk_Model c) then nested snd else rk_Model c in
        let g := if is_empty id then g else put_tag "response_id" (response_identifier id) g in
        if is_empty model then g else put_tag "response_model" model g
    | None => g
    end
  else g.

Definition note_completed (g : GatewayContext) (data : string) : GatewayContext :=
  if seqb (RequestType g) RequestTypeResponses then
    match Unmarshal (dec_struct [("type", dec_string)]) "" (clean_data data) with
    | Some t => if seqb t "response.done" || seqb t "response.completed" then put_tag "response_completed_sent" "true" g else g
    | None => g
    end
  else g.

(** The events of complete frames, up to the first error. *)
Fixpoint sniff (g : GatewayContext) (evs : list SSEEvent) : GatewayContext * option goerror :=
  match evs with
  | [] => (g, None)
  | ev :: rest =>
      let g := note_completed (note_response g (ev_Data ev)) (ev_Data ev) in
      match openAIStreamEventError (ev_Data ev) with
      | Some e => (g, Some e)
      | None => sniff g rest
      end
  end.

(** * Relay of a stream (handleOpenAIStream) *)

Record relay := mkRelay {
  rl_g : GatewayContext; rl_rw : ResponseWriter; rl_iw : SSEInterceptWriter; rl_parser : SSEParser; rl_pending : bytes; rl_sent : bool
}.
#[global] Instance eta_relay : Eta relay := fun r => mkRelay (rl_g r) (rl_rw r) (rl_iw r) (rl_parser r) (rl_pending r) (rl_sent r).

(** [w.WriteHeader(http.StatusOK)]. *)
Definition commit_ok (w : ResponseWriter) : ResponseWriter := match rw_WriteHeader 200 w with Ret w => w | Panic => w end.
Definition stream_headers (w : ResponseWriter) : ResponseWriter :=
  rw_Set "Connection" "keep-alive" (rw_Set "Cache-Control" "no-cache" (rw_Set "Content-Type" "text/event-stream" w)).

Definition send_headers (now : Time) (r : relay) : relay :=
  let '(iw, g) := intercept_WriteHeader (rl_iw r) (rl_g r) now in
  r <| rl_g := g |> <| rl_iw := iw |> <| rl_rw := commit_ok (stream_headers (rl_rw r)) |> <| rl_sent := true |>.

Definition frame_too_long : goerror := errorf ("upstream SSE frame exceeds " +:+ Itoa maxOpenAISSEFrameBytes +:+ " bytes").

Section relay.
(** The client connection: the error of writing some bytes. *)
Context (write : bytes -> option goerror).

Definition write_frames (now : Time) (raw : bytes) (r : relay) : relay * option goerror :=
  let '(iw, g) := intercept_Write (rl_iw r) (rl_g r) raw now in
  let r := r <| rl_g := g |> <| rl_iw := iw |> in
  match write raw with
  | Some e => (r, Some e)
  | None => (r <| rl_rw := rw_Write (string_of raw) (rl_rw r) |>, None)
  end.

(** Complete frames: sniffed, then passed on. *)
Definition forward (now : Time) (raw rest : bytes) (r : relay) : relay * option goerror :=
  let '(parser, evs) := Feed (rl_parser r) raw in
  let '(g, err) := sniff (rl_g r) evs in
  let r := r <| rl_parser := parser |> <| rl_g := g |> in
  match err with
  | Some e => (r, Some e)
  | None =>
      match (if rl_sent r then None else openAIJSONStreamError raw) with
      | Some e => (r, Some e)
      | None =>
          let r := if rl_sent r then r else send_headers now r in
          let '(r, err) := write_frames now raw r in
          match err with
          | Some e => (r, Some e)
          | None =>
              (r <| rl_pending := rest |>, if maxOpenAISSEFrameBytes <? Z.of_nat (length rest) then Some frame_too_long else None)
          end
      end
  end.

(** The end of the stream with an incomplete frame. *)
Definition tail_error (pending : bytes) : goerror :=
  match openAIJSONStreamError pending with
  | Some e => e
  | None =>
      match omap (fun ev => openAIStreamEventError (ev_Data ev)) (snd (Feed NewSSEParser (pending ++ [LF; LF]))) with
      | e :: _ => e
      | [] => errorf "upstream stream closed with incomplete SSE frame"
      end
  end.

Definition client_gone (g : GatewayContext) (c : read_ctx) : bool :=
  rc_err_canceled c && bool_decide (is_Some (Request g)) && rc_request_done c.

Definition disconnected (e : goerror) : goerror := mkError ("client disconnected: " +:+ Error_text e) [ErrClientDisconnected] None.

(** The end of a read: [None]: read on; [Some err]: the result of the loop. *)
Definition at_end (c : read_ctx) (r : relay) (e : read_end) : option (option goerror) :=
  match e with
  | ReadMore => None
  | ReadEOF =>
      Some (if negb (is_empty (TrimSpace (string_of (rl_pending r)))) then Some (tail_error (rl_pending r))
            else if negb (rl_sent r) then Some (errorf "upstream stream closed before sending any data (EOF)")
            else None)
  | ReadErr err =>
      Some (if client_gone (rl_g r) c then
              if seqb (GetTagValue (rl_g r) "response_completed_sent") "true" then None else Some (disconnected err)
            else Some (wrap_error "read upstream stream: " err))
  end.

(** One round of the loop. *)
Definition relay_read (c : read_ctx) (now : Time) (r : relay) (chunk : bytes) (e : read_end) : relay * option (option goerror) :=
  let previous := length (rl_pending r) in
  let data := rl_pending r ++ chunk in
  let n := completeSSEPrefixLen data (previous - 3) in
  let r := r <| rl_pending := data |> in
  if (n =? 0)%nat then
    if maxOpenAISSEFrameBytes <? Z.of_nat (length data) then (r, Some (Some frame_too_long)) else (r, at_end c r e)
  else
    let '(r, err) := forward now (take n data) (drop n data) r in
    match err with
    | Some err => (r, Some (Some err))
    | None => (r, at_end c r e)
    end.

Fixpoint relay_loop (c : read_ctx) (clock : nat -> Time) (r : relay) (reads : list (bytes * read_end)) : option (relay * option goerror) :=
  match reads with
  | [] => None
  | (chunk, e) :: rest =>
      match relay_read c (clock (length rest)) r chunk e with
      | (r, Some err) => Some (r, err)
      | (r, None) => relay_loop c clock r rest
      end
  end.

Definition new_relay (g : GatewayContext) (rw : ResponseWriter) : relay :=
  let extractor := if seqb (RequestType g) RequestTypeResponses then Some ResponsesTokenExtractor else None in
  mkRelay g (rw_Set "X-Accel-Buffering" "no" rw) (NewSSEInterceptWriter extractor) NewSSEParser [] false.

Definition handleOpenAIStream (c : read_ctx) (clock : nat -> Time) (g : GatewayContext) (rw : ResponseWriter) (reads : list (bytes * read_end)) :
  option (relay * option goerror) :=
  match relay_loop c clock (new_relay g rw) reads with
  | Some (r, None) => Some (if rl_sent r then r else send_headers (clock 0%nat) r, None)
  | res => res
  end.
End relay.

(** * The scan for complete frames *)

(** The end of the last complete frame of [l]. *)
Fixpoint last_end (l : bytes) (skip : nat) : option nat :=
  match l with
  | [] => None
  | _ :: r =>
      match skip with
      | S k => S <$> last_end r k
      | O => match sep_at l with
             | Some n => Some (match last_end r (n - 1) with Some m => S m | None => n end)
             | None => S <$> last_end r 0
             end
      end
  end.

Lemma complete_loop_last l : forall i skip best, complete_loop l i skip best = match last_end l skip with Some n => (i + n)%nat | None => best end.
Proof.
  induction l as [|c r IH]; intros i skip best; [done|]. cbn [complete_loop last_end]. destruct skip as [|k].
  - destruct (sep_at (c :: r)) as [n|]; rewrite IH; destruct (last_end r _); cbn; lia.
  - rewrite IH. destruct (last_end r k); cbn; lia.
Qed.

Lemma sep_at_bounds l n : sep_at l = Some n -> (2 <= n <= length l)%nat.
Proof. unfold sep_at. repeat case_match; intros [= <-]; cbn; lia. Qed.

Lemma sep_at_app p l : (4 <= length p)%nat -> sep_at (p ++ l) = sep_at p.
Proof. destruct p as [|a [|b [|c [|d p]]]]; cbn [length]; [lia..|]. done. Qed.

Lemma last_end_skip l : forall k, last_end l k = Nat.add k <$> last_end (drop k l) 0.
Proof.
  induction l as [|c r IH]; intros [|k]; [done|done|by rewrite drop_0; destruct (last_end (c :: r) 0)|].
  cbn [last_end drop]. rewrite IH. by destruct (last_end (drop k r) 0).
Qed.

Lemma last_end_bound l : forall k n, last_end l k = Some n -> (0 < n <= length l)%nat.
Proof.
  induction l as [|c r IH]; intros k n; [done|]. cbn [last_end length]. destruct k as [|k].
  - destruct (sep_at (c :: r)) as [m|] eqn:S.
    + apply sep_at_bounds in S as B. cbn in B. intros [= <-]. destruct (last_end r (m - 1)) as [x|] eqn:E; [apply IH in E; lia|lia].
    + destruct (last_end r 0) as [x|] eqn:E; [|done]. intros [= <-]. apply IH in E. lia.
  - destruct (last_end r k) as [x|] eqn:E; [|done]. intros [= <-]. apply IH in E. lia.
Qed.

(** Nothing complete follows the last complete frame. *)
Lemma last_end_rest l : forall k n, last_end l k = Some n -> last_end (drop n l) 0 = None.
Proof.
  induction l as [|c r IH]; intros k n; [done|]. cbn [last_end]. destruct k as [|k].
  - destruct (sep_at (c :: r)) as [m|] eqn:S.
    + apply sep_at_bounds in S as B. destruct (last_end r (m - 1)) as [x|] eqn:E; intros [= <-]; cbn [drop]; [by eapply IH|].
      destruct m as [|m]; [lia|]. cbn [drop]. rewrite Nat.sub_1_r in E. cbn [pred] in E. rewrite last_end_skip in E. by destruct (last_end (drop m r) 0).
    + destruct (last_end r 0) as [x|] eqn:E; [|done]. intros [= <-]. cbn [drop]. by eapply IH.
  - destruct (last_end r k) as [x|] eqn:E; [|done]. intros [= <-]. cbn [drop]. by eapply IH.
Qed.

Lemma last_end_resume p : forall l, last_end p 0 = None -> last_end (p ++ l) 0 = Nat.add (length p - 3) <$> last_end (drop (length p - 3) (p ++ l)) 0.
Proof.
  induction p as [|c p IH]; intros l H; [cbn [length app Nat.sub]; rewrite drop_0; by destruct (last_end l 0)|].
  destruct (decide (length (c :: p) <= 3)%nat) as [L|L].
  { replace (length (c :: p) - 3)%nat with 0%nat by lia. rewrite drop_0. by destruct (last_end ((c :: p) ++ l) 0). }
  cbn [length] in L. cbn [last_end] in H. destruct (sep_at (c :: p)) eqn:Ep; [done|]. destruct (last_end p 0) eqn:E; [done|].
  change ((c :: p) ++ l) with (c :: (p ++ l)). cbn [last_end]. change (c :: p ++ l) with ((c :: p) ++ l). rewrite sep_at_app by (cbn; lia). rewrite Ep, IH by done.
  cbn [length]. replace (S (length p) - 3)%nat with (S (length p - 3))%nat by lia. cbn [app drop]. by destruct (last_end (drop _ _) 0).
Qed.

Lemma completeSSEPrefixLen_last data start :
  completeSSEPrefixLen data start = match last_end (drop start data) 0 with Some n => (start + n)%nat | None => 0%nat end.
Proof. apply complete_loop_last. Qed.

(** Resuming the scan three bytes before the end of the bytes already scanned finds what a
    scan of everything finds. *)
Lemma completeSSEPrefixLen_resume p l : last_end p 0 = None -> completeSSEPrefixLen (p ++ l) (length p - 3) = completeSSEPrefixLen (p ++ l) 0.
Proof.
  intros H. rewrite !completeSSEPrefixLen_last, drop_0. rewrite (last_end_resume p l H). by destruct (last_end (drop _ _) 0).
Qed.

(** ** Frames, stated on the bytes *)

(** The empty lines that end a frame. *)
Definition empty_lines : list bytes := [[LF; LF]; [LF; CR; LF]; [CR; CR]; [CR; LF; LF]; [CR; LF; CR; LF]].

Lemma sep_at_some l n : sep_at l = Some n -> take n l ∈ empty_lines.
Proof.
  unfold sep_at, empty_lines. destruct l as [|a [|b r]]; [done..|].
  repeat case_match; intros [= <-]; repeat match goal with H : _ && _ = true |- _ => apply andb_true_iff in H as [? ?] end;
    repeat match goal with H : bool_decide _ = true |- _ => apply bool_decide_eq_true in H; subst end; cbn; set_solver.
Qed.

(** Bytes that begin with an empty line have a separator there (of this line or, after a carriage return, of a longer one). *)
Lemma sep_at_empty_line e l : e ∈ empty_lines -> is_Some (sep_at (e ++ l)).
Proof.
  unfold empty_lines. rewrite !elem_of_cons. intros H. repeat destruct H as [->|H]; try (vm_compute; eauto; fail). by apply elem_of_nil in H.
Qed.

(** What is complete ends in an empty line; what is not has none. *)
Lemma last_end_some l : forall k n, last_end l k = Some n -> exists pre e, take n l = pre ++ e /\ e ∈ empty_lines.
Proof.
  induction l as [|c r IH]; intros k n; [done|]. cbn [last_end].
  assert (forall x, (exists pre e, take x r = pre ++ e /\ e ∈ empty_lines) -> exists pre e, take (S x) (c :: r) = pre ++ e /\ e ∈ empty_lines) as Step.
  { intros x (pre & e & E & He). exists (c :: pre), e. cbn. by rewrite E. }
  destruct k as [|k].
  - destruct (sep_at (c :: r)) as [m|] eqn:Sq; [|destruct (last_end r 0) eqn:E; [|done]; intros [= <-]; apply Step; by eapply IH].
    destruct (last_end r (m - 1)) as [x|] eqn:E; intros [= <-]; [apply Step; by eapply IH|]. exists [], (take m (c :: r)). split; [done|]. by apply sep_at_some.
  - destruct (last_end r k) as [x|] eqn:E; [|done]. intros [= <-]. apply Step. by eapply IH.
Qed.

Lemma last_end_none l : last_end l 0 = None -> forall pre e post, l = pre ++ e ++ post -> e ∉ empty_lines.
Proof.
  intros N pre. revert l N. induction pre as [|c pre IH]; intros l N e post -> He.
  - cbn [app] in N. destruct (sep_at_empty_line e post He) as [n Hn]. destruct (e ++ post) as [|x r]; [done|]. cbn [last_end] in N. by rewrite Hn in N.
  - cbn [app last_end] in N. destruct (sep_at _); [done|]. apply (IH (pre ++ e ++ post)) with (e := e) (post := post); [|done|done]. by destruct (last_end (pre ++ e ++ post) 0).
Qed.

(** ** White space *)

Definition white (c : ascii) : bool := existsb (Ascii.eqb c) [byte_of 9; LF; CR; byte_of 32].

Lemma strip_white c l : white c = true -> strip_space space_runes (c :: l) = Some l.
Proof. unfold white. rewrite existsb_exists. intros (x & Hx & ->%Ascii.eqb_eq). by repeat destruct Hx as [<-|Hx]. Qed.
Lemma TrimSpace_white l : forallb white l = true -> TrimSpace (string_of l) = "".
Proof.
  intros W. unfold TrimSpace. rewrite ascii_list_of. assert (forall l n, forallb white l = true -> (length l <= n)%nat -> trim_left n space_runes l = []) as T.
  { clear. induction l as [|c l IH]; intros [|n] W L; cbn [length] in L; [done|done|lia|]. cbn [forallb] in W. apply andb_true_iff in W as [Wc W].
    cbn [trim_left]. rewrite strip_white by done. apply IH; [done|lia]. }
  by rewrite T.
Qed.

Lemma trim_left_suffix n runes : forall l, trim_left n runes l `suffix_of` l.
Proof.
  assert (forall p l r, strip_prefix p l = Some r -> r `suffix_of` l) as S1.
  { induction p as [|a p IH]; intros [|c l] r; cbn; try done; [by intros [= <-]..|]. destruct (bool_decide _); [|done]. intros H%IH. by apply suffix_cons_r. }
  induction n as [|n IH]; intros l; [done|]. cbn [trim_left]. unfold strip_space. destruct (head _) as [r|] eqn:E; [|done].
  etransitivity; [apply IH|]. apply head_Some_elem_of, list_elem_of_omap in E as (p & _ & E). by eapply S1.
Qed.

(** A stream that begins like one: with a visible character before the brace. *)
Definition stream_start (c : ascii) : bool := (33 <=? byte_val c) && (byte_val c <=? 122).

Lemma stream_no_json_error c l : stream_start c = true -> openAIJSONStreamError (c :: l) = None.
Proof.
  intros W. unfold openAIJSONStreamError. assert (HasPrefix (TrimSpace (string_of (c :: l))) "{" = false) as ->; [|done].
  unfold TrimSpace. rewrite ascii_list_of. set (l1 := trim_left (length (c :: l)) space_runes (c :: l)).
  assert (l1 = c :: l) as ->.
  { subst l1. cbn [length trim_left]. assert (strip_space space_runes (c :: l) = None) as ->; [|done].
    pose proof (all_bytes (fun c => implb (stream_start c) (forallb (fun p => match p with x :: _ => negb (Ascii.eqb x c) | [] => false end) space_runes)) ltac:(vm_compute; reflexivity) c) as P.
    cbn beta in P. rewrite W in P. cbn [implb] in P. unfold strip_space. rewrite forallb_forall in P. assert (omap (fun p => strip_prefix p (c :: l)) space_runes = []) as ->; [|done].
    assert (forall rs, (forall x, In x rs -> In x space_runes) -> omap (fun p => strip_prefix p (c :: l)) rs = []) as O; [|by apply O].
    induction rs as [|x rs IH]; intros Hi; [done|]. cbn. specialize (P x (Hi x (or_introl eq_refl))). destruct x as [|y x]; [done|]. cbn. apply negb_true_iff, Ascii.eqb_neq in P. rewrite bool_decide_eq_false_2 by done.
    apply IH. intros z Hz. apply Hi. by right. }
  pose proof (trim_left_suffix (length (c :: l)) (map (@rev ascii) space_runes) (rev (c :: l))) as [k Hk]. set (t := trim_left _ _ _) in *. clearbody t.
  apply (f_equal (@rev ascii)) in Hk. rewrite rev_involutive, rev_app_distr in Hk. destruct (rev t) as [|d t']; [done|]. cbn [app] in Hk. injection Hk as <- _.
  assert (c <> "{"%char) as Nb. { intros ->. vm_compute in W. discriminate W. }
  cbn. by rewrite bool_decide_eq_false_2 by congruence.
Qed.

(** * What the client gets *)

Definition harmless (ev : SSEEvent) : Prop := openAIStreamEventError (ev_Data ev) = None.

(** The bytes of a stream up to its end, and how it ends. *)
Fixpoint stream_of (reads : list (bytes * read_end)) : bytes * read_end :=
  match reads with
  | [] => ([], ReadMore)
  | (chunk, ReadMore) :: rest => let '(data, e) := stream_of rest in (chunk ++ data, e)
  | (chunk, e) :: _ => (chunk, e)
  end.

(** The frames the response was committed for: read, complete, without an error event, and passed on unless the client did not take them. *)
Definition first_frames (write : bytes -> option goerror) (data out : bytes) : Prop :=
  exists frames, frames `prefix_of` data /\ (exists pre e, frames = pre ++ e /\ e ∈ empty_lines) /\ Forall harmless (snd (Feed NewSSEParser frames)) /\
    (frames `prefix_of` out \/ is_Some (write frames)).

Section relay_facts.
Context (write : bytes -> option goerror).

(** Of [data] the client got [out]; before the first complete frame the response is not committed. *)
Record passed (r : relay) (data out : bytes) : Prop := {
  p_body : rw_body (rl_rw r) = string_of out;
  p_harmless : Forall harmless (snd (Feed NewSSEParser out));
  p_prefix : out `prefix_of` data;
  p_sent : if rl_sent r then (exists h, rw_sent (rl_rw r) = Some (200, h)) /\ first_frames write data out else rw_sent (rl_rw r) = None /\ out = []
}.

(** Between two reads: [data] was read, [out] passed on, the rest holds no complete frame. *)
Record relay_inv (r : relay) (data out : bytes) : Prop := {
  i_passed : passed r data out;
  i_split : data = out ++ rl_pending r;
  i_pending : last_end (rl_pending r) 0 = None;
  i_parser : rl_parser r = fst (Feed NewSSEParser out);
  i_out : rl_sent r = true -> out <> []
}.

Lemma passed_frame r r' data out : passed r data out -> rl_rw r' = rl_rw r -> rl_sent r' = rl_sent r -> passed r' data out.
Proof. intros [B H P S] Ew Es. by constructor; rewrite ?Ew, ?Es. Qed.
Lemma passed_more r data more out : passed r data out -> passed r (data ++ more) out.
Proof.
  intros [B H P S]. constructor; [done|done|by apply prefix_app_r|]. destruct (rl_sent r); [|done]. destruct S as [S (fr & F1 & F2)]. split; [done|].
  exists fr. split; [by apply prefix_app_r|done].
Qed.

Lemma sniff_none evs : forall g, snd (sniff g evs) = None <-> Forall harmless evs.
Proof.
  induction evs as [|ev evs IH]; intros g; [done|]. cbn [sniff]. rewrite Forall_cons. unfold harmless at 1.
  destruct (openAIStreamEventError (ev_Data ev)) eqn:E; [|rewrite IH; tauto]. split; [done|]. by intros [? _].
Qed.

Lemma send_headers_sent now r : rw_sent (rl_rw r) = None ->
  (exists h, rw_sent (rl_rw (send_headers now r)) = Some (200, h)) /\ rw_body (rl_rw (send_headers now r)) = rw_body (rl_rw r) /\
  rl_sent (send_headers now r) = true /\ rl_parser (send_headers now r) = rl_parser r.
Proof.
  intros S. unfold send_headers. destruct (intercept_WriteHeader _ _ _) as [iw g]. cbn. unfold commit_ok, rw_WriteHeader, stream_headers, rw_Set. cbn. rewrite S. cbn. eauto.
Qed.

Lemma forward_passed now raw rest r data out r' err : passed r data out -> rl_parser r = fst (Feed NewSSEParser out) ->
  out ++ raw `prefix_of` data -> (exists pre e, raw = pre ++ e /\ e ∈ empty_lines) ->
  forward write now raw rest r = (r', err) ->
  (passed r' data out \/ passed r' data (out ++ raw)) /\
  (err = None -> passed r' data (out ++ raw) /\ rl_pending r' = rest /\ rl_parser r' = fst (Feed NewSSEParser (out ++ raw)) /\ rl_sent r' = true) /\
  ((forall x, write x = None) -> Forall harmless (snd (Feed NewSSEParser (out ++ raw))) -> (out = [] -> openAIJSONStreamError raw = None) ->
     Z.of_nat (length rest) <= maxOpenAISSEFrameBytes -> err = None).
Proof.
  intros P Hp Pd Fr. unfold forward. rewrite Hp. destruct (Feed (fst (Feed NewSSEParser out)) raw) as [parser evs] eqn:F.
  assert (Feed NewSSEParser (out ++ raw) = (parser, snd (Feed NewSSEParser out) ++ evs)) as FA by (rewrite Feed_app by done; by rewrite F).
  pose proof (sniff_none evs (rl_g r)) as Hs. destruct (sniff (rl_g r) evs) as [g e]. cbn [snd] in Hs.
  set (r1 := r <| rl_parser := parser |> <| rl_g := g |>). assert (passed r1 data out) as P1 by (by eapply passed_frame).
  destruct e as [e|].
  { intros [= <- <-]. split_and!; [by left|done|]. rewrite FA. cbn [snd]. intros _ [_ Hh]%Forall_app. by apply Hs in Hh. }
  assert (Forall harmless evs) as Hev by (by apply Hs).
  destruct (if rl_sent r1 then None else openAIJSONStreamError raw) as [e|] eqn:J.
  { intros [= <- <-]. split_and!; [by left|done|]. intros _ _ Hj. destruct P1 as [_ _ _ S1]. destruct (rl_sent r1); [done|]. destruct S1 as [_ ->]. by rewrite Hj in J. }
  set (r2 := if rl_sent r1 then r1 else send_headers now r1).
  assert (((exists h, rw_sent (rl_rw r2) = Some (200, h)) /\ rw_body (rl_rw r2) = string_of out /\ rl_sent r2 = true /\ rl_parser r2 = parser) /\
    first_frames write data (out ++ raw) /\ (is_Some (write raw) -> first_frames write data out)) as ((S2 & B2 & E2 & Q2) & Ff & Ff').
  { destruct P1 as [B1 H1 D1 S1]. subst r2. destruct (rl_sent r1) eqn:Es.
    - destruct S1 as [S1 F1]. split; [by rewrite Es|]. split; [|done]. destruct F1 as (fr & ? & ? & ? & W). exists fr. split_and!; try done. destruct W; [left; by apply prefix_app_r|by right].
    - destruct S1 as [S1 ->]. destruct (send_headers_sent now r1 S1) as (A1 & A2 & A3 & A4). split; [split_and!; [done|congruence|done|by rewrite A4]|].
      assert (Forall harmless (snd (Feed NewSSEParser raw))) as Hr by (change raw with ([] ++ raw); rewrite FA; apply Forall_app; split; [constructor|done]).
      split; [exists raw; split_and!; [done|done|done|left; done]|]. intros Wr. exists raw. split_and!; [done|done|done|by right]. }
  assert (out `prefix_of` data) as Do by apply P. assert (Forall harmless (snd (Feed NewSSEParser out))) as Ho by apply P.
  clearbody r2. clear r1 P1 J. unfold write_frames. destruct (intercept_Write _ _ _ _) as [iw g2].
  destruct (write raw) as [e|] eqn:Wr.
  { intros [= <- <-]. split_and!; [left|done|]. { constructor; cbn; [done|done|done|]. rewrite E2. split; [done|by apply Ff']. } intros Nw. by rewrite Nw in Wr. }
  set (r3 := _ <| rl_rw := _ |>). assert (passed r3 data (out ++ raw)) as P3.
  { destruct S2 as [h Sn]. constructor; cbn.
    - unfold rw_Write. rewrite Sn. cbn. by rewrite B2, string_of_app.
    - rewrite FA. by apply Forall_app.
    - done.
    - rewrite E2. unfold rw_Write. rewrite Sn. cbn. eauto. }
  intros [= <- <-]. split_and!; [right; by eapply passed_frame| |].
  - intros _. split_and!; [by eapply passed_frame|done|rewrite FA; exact Q2|exact E2].
  - intros _ _ _ Lr. destruct (Z.ltb_spec maxOpenAISSEFrameBytes (Z.of_nat (length rest))); [lia|done].
Qed.

Lemma relay_read_inv c now r chunk e data out r' res : relay_inv r data out -> relay_read write c now r chunk e = (r', res) ->
  (exists out', passed r' (data ++ chunk) out') /\
  (res = None -> e = ReadMore /\ exists out', relay_inv r' (data ++ chunk) out') /\
  (res = Some None -> exists out', relay_inv r' (data ++ chunk) out' /\
    (e = ReadEOF /\ TrimSpace (string_of (rl_pending r')) = "" /\ rl_sent r' = true \/
     (exists err, e = ReadErr err) /\ client_gone (rl_g r') c = true /\ GetTagValue (rl_g r') "response_completed_sent" = "true")) /\
  ((forall x, write x = None) -> Forall harmless (snd (Feed NewSSEParser (data ++ chunk))) -> (forall p, p `prefix_of` data ++ chunk -> p <> [] -> openAIJSONStreamError p = None) ->
     Z.of_nat (length (data ++ chunk)) <= maxOpenAISSEFrameBytes -> exists out', relay_inv r' (data ++ chunk) out' /\ res = at_end c r' e).
Proof.
  intros [P Sp Pe Pa Po]. unfold relay_read. rewrite (completeSSEPrefixLen_resume _ _ Pe), completeSSEPrefixLen_last, drop_0.
  set (r1 := r <| rl_pending := _ |>). assert (passed r1 (data ++ chunk) out) as P1 by (eapply passed_frame; [by apply passed_more|done|done]).
  assert (forall r2 out2, relay_inv r2 (data ++ chunk) out2 -> (r2, at_end c r2 e) = (r', res) ->
    (exists out', passed r' (data ++ chunk) out') /\
    (res = None -> e = ReadMore /\ exists out', relay_inv r' (data ++ chunk) out') /\
    (res = Some None -> exists out', relay_inv r' (data ++ chunk) out' /\
      (e = ReadEOF /\ TrimSpace (string_of (rl_pending r')) = "" /\ rl_sent r' = true \/
       (exists err, e = ReadErr err) /\ client_gone (rl_g r') c = true /\ GetTagValue (rl_g r') "response_completed_sent" = "true")) /\
    (exists out', relay_inv r' (data ++ chunk) out' /\ res = at_end c r' e)) as End.
  { intros r2 out2 I [= <- <-]. split; [exists out2; apply I|]. split; [|split; [|by exists out2]].
    - destruct e; cbn [at_end]; [|done|done]. intros _. split; [done|by exists out2].
    - destruct e as [| |er]; cbn [at_end]; [done| |].
      + destruct (negb (is_empty _)) eqn:E1; [done|]. destruct (rl_sent r2) eqn:E2; [|done]. intros _. exists out2. split; [done|]. left. apply negb_false_iff in E1. by sbool.
      + destruct (client_gone _ _) eqn:E1; [|done]. destruct (seqb _ _) eqn:E2; [|done]. intros _. exists out2. split; [done|]. right. sbool. eauto. }
  assert (data ++ chunk = out ++ rl_pending r ++ chunk) as Ed by (by rewrite Sp, <- app_assoc). destruct (last_end (rl_pending r ++ chunk) 0) as [n|] eqn:L.
  - cbn [Nat.add]. apply last_end_bound in L as Ln. apply last_end_some in L as Fr. destruct n as [|n]; [lia|]. cbn [Nat.eqb]. set (k := S n) in *. clearbody k.
    destruct (forward write now (take k (rl_pending r ++ chunk)) (drop k (rl_pending r ++ chunk)) r1) as [r2 err] eqn:F.
    assert (out ++ take k (rl_pending r ++ chunk) `prefix_of` data ++ chunk) as Pd. { rewrite Ed. apply prefix_app, prefix_take. }
    destruct (forward_passed _ _ _ _ _ _ _ _ P1 Pa Pd Fr F) as (Some_out & Ok & Live).
    assert (err = None -> relay_inv r2 (data ++ chunk) (out ++ take k (rl_pending r ++ chunk))) as I2.
    { intros ->. destruct (Ok eq_refl) as (P2 & Q2 & A2 & S2). constructor; [done| | |done|].
      - by rewrite Q2, <- app_assoc, take_drop.
      - rewrite Q2. by eapply last_end_rest.
      - intros _ E0. apply app_eq_nil in E0 as [_ E0]. destruct Fr as (pre & ln & Ef & Hln). rewrite E0 in Ef. symmetry in Ef. apply app_eq_nil in Ef as [_ ->]. vm_compute in Hln. set_solver. }
    destruct err as [err|].
    + intros [= <- <-]. split; [destruct Some_out; eauto|]. split; [done|]. split; [done|]. intros W Hh Hj Hl. exfalso.
      assert (Some err = None); [|done]. apply Live; [done| | |].
      * destruct Pd as [more Em]. rewrite Em in Hh. destruct (Feed NewSSEParser (out ++ take k (rl_pending r ++ chunk))) as [ps es] eqn:Fd.
        rewrite Feed_app in Hh by done. rewrite Fd in Hh. cbn [fst snd] in *. destruct (Feed ps more) as [ps2 es2]. cbn [snd] in Hh. by apply Forall_app in Hh as [Hh _].
      * intros ->. cbn [app] in *. apply Hj; [exact Pd|]. destruct Fr as (pre & ln & Ef & Hln). rewrite Ef. intros [_ ->]%app_eq_nil. vm_compute in Hln. set_solver.
      * rewrite length_drop. rewrite Ed, length_app in Hl. lia.
    + intros H. destruct (End r2 _ (I2 eq_refl) H) as (A & B & C & D). split_and!; auto.
  - cbn [Nat.eqb]. destruct (Z.ltb_spec maxOpenAISSEFrameBytes (Z.of_nat (length (rl_pending r ++ chunk)))) as [Lt|Lt].
    + intros [= <- <-]. split; [by exists out|]. split; [done|]. split; [done|]. intros _ _ _ Hl. rewrite Ed, length_app in Hl. lia.
    + intros H. assert (relay_inv r1 (data ++ chunk) out) as I1 by (by constructor). destruct (End r1 out I1 H) as (A & B & C & D). split_and!; auto.
Qed.

Lemma relay_loop_inv c clock reads : forall r data out r' err, relay_inv r data out -> relay_loop write c clock r reads = Some (r', err) ->
  let all := data ++ fst (stream_of reads) in
  (exists out', passed r' all out') /\
  (err = None -> exists out', relay_inv r' all out' /\
    (snd (stream_of reads) = ReadEOF /\ TrimSpace (string_of (rl_pending r')) = "" /\ rl_sent r' = true \/
     (exists e, snd (stream_of reads) = ReadErr e) /\ client_gone (rl_g r') c = true /\ GetTagValue (rl_g r') "response_completed_sent" = "true")) /\
  ((forall x, write x = None) -> Forall harmless (snd (Feed NewSSEParser all)) -> (forall p, p `prefix_of` all -> p <> [] -> openAIJSONStreamError p = None) ->
     Z.of_nat (length all) <= maxOpenAISSEFrameBytes -> exists out', relay_inv r' all out' /\ Some err = at_end c r' (snd (stream_of reads))).
Proof.
  induction reads as [|[chunk e] reads IH]; intros r data out r' err I H; [done|]. cbn [relay_loop] in H.
  destruct (relay_read write c (clock (length reads)) r chunk e) as [r1 res] eqn:R. destruct (relay_read_inv _ _ _ _ _ _ _ _ _ I R) as ([out1 P1] & More & Done & Live).
  destruct res as [err1|].
  - injection H as <- <-. assert (exists more, fst (stream_of ((chunk, e) :: reads)) = chunk ++ more /\ (e <> ReadMore -> more = [] /\ snd (stream_of ((chunk, e) :: reads)) = e)) as (more & Em & En).
    { cbn [stream_of]. destruct e; [destruct (stream_of reads); by eexists|exists []; by rewrite app_nil_r..]. }
    rewrite Em, app_assoc. split; [exists out1; by apply passed_more|]. split.
    + intros ->. destruct (Done eq_refl) as (out2 & I2 & W). destruct En as [-> En]; [by destruct W as [(-> & _)|([? ->] & _)]|]. rewrite En, app_nil_r. exists out2. split; [done|].
      destruct W as [(-> & W)|([x ->] & W)]; [by left|right; by split; [eexists|]].
    + intros W Hh Hj Hl. assert (exists out', relay_inv r1 (data ++ chunk) out' /\ Some err1 = at_end c r1 e) as (out2 & I2 & E2).
      { apply Live; [done| | |].
        - destruct (Feed NewSSEParser (data ++ chunk)) as [ps es] eqn:Fd. rewrite Feed_app, Fd in Hh by done. cbn [fst snd] in *. destruct (Feed ps more) as [ps2 es2]. by apply Forall_app in Hh as [Hh _].
        - intros p Hp. apply Hj. by apply prefix_app_r.
        - rewrite length_app in Hl. lia. }
      destruct En as [-> ->]; [intros ->; done|]. rewrite app_nil_r. by exists out2.
  - destruct (More eq_refl) as [-> [out2 I1]]. cbn [stream_of]. specialize (IH r1 (data ++ chunk) out2 r' err I1 H). cbn zeta in IH.
    destruct (stream_of reads) as [d en]. cbn [fst snd] in *. rewrite app_assoc. exact IH.
Qed.
End relay_facts.

(** What is left when a stream ends in an empty line and white space is white space. *)
Lemma pending_white data out pending frames e blank : data = out ++ pending -> last_end pending 0 = None -> data = frames ++ e ++ blank -> e ∈ empty_lines -> forallb white blank = true ->
  forallb white pending = true /\ (out = [] -> False).
Proof.
  intros E1 L E2 He Wb. pose proof (last_end_none pending L) as N. split.
  - assert (forall x y, e = x ++ y -> forallb white y = true) as We.
    { intros x y Ee. assert (forallb white e = true) as W by (revert He; unfold empty_lines; rewrite !elem_of_cons; intros He; repeat destruct He as [->|He]; try done; by apply elem_of_nil in He).
      rewrite Ee, forallb_app in W. by apply andb_true_iff in W as [_ W]. }
    rewrite E1 in E2. apply app_eq_app in E2 as [l [[E2 E3]|[E2 E3]]].
    + apply app_eq_app in E3 as [l' [[E3 E4]|[E3 E4]]].
      * rewrite E4, forallb_app, Wb, andb_true_r. by eapply We.
      * rewrite E4 in Wb. rewrite forallb_app in Wb. by apply andb_true_iff in Wb as [_ Wb].
    + exfalso. apply (N l e blank); done.
  - intros ->. cbn in E1. subst pending. by apply (N frames e blank).
Qed.

(** C17: the relay of an OpenAI event stream. However the network cuts the stream, the client
    gets an unaltered prefix of its bytes, in which no event is an error event: an error the
    upstream reports in the stream is returned instead of being passed on. The response is
    committed only for complete frames without an error event, which the client then gets (or refuses), so that the request can still
    be retried before - or when the client of a completed response has gone. The relay reports success only when the stream
    ended and every complete frame of it was passed on, at least one, with nothing but white space after it, or when the client left after the completion event. And it does report success
    when the client takes everything, no event of the stream is an error event, the stream begins like one, ends in an empty line and white space, and is at most as long as a frame may
    be. It returns as soon as the stream ends. *)
Theorem openai_stream_relayed (write : bytes -> option goerror) (c : read_ctx) (clock : nat -> Time) (g : GatewayContext) (rw : ResponseWriter)
  (reads : list (bytes * read_end)) (Hfresh : rw_sent rw = None /\ rw_body rw = "") (Hends : Exists (fun x => snd x <> ReadMore) reads) :
  let '(data, ended) := stream_of reads in
  exists r err out, handleOpenAIStream write c clock g rw reads = Some (r, err) /\
    rw_body (rl_rw r) = string_of out /\ out `prefix_of` data /\
    Forall harmless (snd (Feed NewSSEParser out)) /\
    (rw_sent (rl_rw r) = None -> out = []) /\
    (rw_sent (rl_rw r) <> None -> first_frames write data out \/ client_gone (rl_g r) c = true /\ err = None) /\
    (err = None -> exists pending, data = out ++ pending /\ (forall pre e post, pending = pre ++ e ++ post -> e ∉ empty_lines) /\
       (ended = ReadEOF /\ TrimSpace (string_of pending) = "" /\ out <> [] \/
        (exists e, ended = ReadErr e) /\ client_gone (rl_g r) c = true /\ GetTagValue (rl_g r) "response_completed_sent" = "true")) /\
    (ended = ReadEOF -> (forall x, write x = None) -> Forall harmless (snd (Feed NewSSEParser data)) -> Z.of_nat (length data) <= maxOpenAISSEFrameBytes ->
       (exists first rest, data = first :: rest /\ stream_start first = true) ->
       (exists frames e blank, data = frames ++ e ++ blank /\ e ∈ empty_lines /\ forallb white blank = true) -> err = None).
Proof.
  assert (forall reads r, Exists (fun x => snd x <> ReadMore) reads -> exists x, relay_loop write c clock r reads = Some x) as Ret.
  { clear. induction reads as [|[chunk e] reads IH]; intros r H; [by inversion H|]. cbn [relay_loop]. destruct (relay_read _ _ _ _ _ _) as [r1 [err|]] eqn:R; [eauto|].
    apply IH. inversion H as [? ? N|]; subst; [|done]. exfalso. apply N. cbn. revert R. unfold relay_read. destruct (_ =? _)%nat; [destruct (_ <? _); [done|]|destruct (forward _ _ _ _ _) as [? [?|]]; [done|]];
    by destruct e. }
  destruct (Ret reads (new_relay g rw) Hends) as [[r err] E]. destruct Hfresh as [F1 F2].
  assert (relay_inv write (new_relay g rw) [] []) as I by (constructor; [constructor; cbn; by auto|done|done|done|done]).
  destruct (relay_loop_inv write c clock reads _ _ _ _ _ I E) as ([out P] & D & Live). cbn [app] in *. destruct (stream_of reads) as [data ended]. cbn [fst snd] in *.
  assert (ended = ReadEOF -> (forall x, write x = None) -> Forall harmless (snd (Feed NewSSEParser data)) -> Z.of_nat (length data) <= maxOpenAISSEFrameBytes ->
       (exists first rest, data = first :: rest /\ stream_start first = true) ->
       (exists frames e blank, data = frames ++ e ++ blank /\ e ∈ empty_lines /\ forallb white blank = true) -> err = None) as Good.
  { intros -> W Hh Hl (first & rest & Ef & Hs) (fr & ln & blank & Eb & Hln & Wb). destruct Live as (out' & I' & Ee); [done|done| |done|].
    - intros p Hp Np. rewrite Ef in Hp. destruct p as [|x p]; [done|]. apply prefix_cons_inv_1 in Hp as ->. by apply stream_no_json_error.
    - destruct (pending_white data out' (rl_pending r) fr ln blank (i_split _ _ _ _ I') (i_pending _ _ _ _ I') Eb Hln Wb) as [Wp Np].
      cbn [at_end] in Ee. rewrite (TrimSpace_white _ Wp) in Ee. cbn in Ee. destruct (rl_sent r) eqn:Sr; [by injection Ee|]. exfalso. apply Np.
      pose proof (p_sent _ _ _ _ (i_passed _ _ _ _ I')) as S. rewrite Sr in S. apply S. }
  unfold handleOpenAIStream. rewrite E. destruct err as [err|].
  { exists r, (Some err), out. destruct P as [B H Pr S]. split_and!; try done.
    - intros N. destruct (rl_sent r); [destruct S as [[h S] _]; congruence|by destruct S].
    - intros N. destruct (rl_sent r); [left; by destruct S|]. by destruct S as [S _]. }
  destruct (D eq_refl) as (out' & I' & W). clear P out D. destruct I' as [P Sp Pe _ Po].
  assert (exists pending, data = out' ++ pending /\ (forall pre e post, pending = pre ++ e ++ post -> e ∉ empty_lines) /\
       (ended = ReadEOF /\ TrimSpace (string_of pending) = "" /\ out' <> [] \/
        (exists e, ended = ReadErr e) /\ client_gone (rl_g r) c = true /\ GetTagValue (rl_g r) "response_completed_sent" = "true")) as Fin.
  { exists (rl_pending r). split_and!; [done|by apply last_end_none|]. destruct W as [(W1 & W2 & W3)|W]; [left; auto|by right]. }
  destruct P as [B H Pr S]. destruct (rl_sent r) eqn:Sr.
  - destruct S as [[h S] Ff]. exists r, None, out'. split_and!; try done; [intros N; congruence|intros _; by left].
  - destruct S as [S ->]. destruct (send_headers_sent (clock 0%nat) r S) as ([h A1] & A2 & _). exists (send_headers (clock 0%nat) r), None, [].
    assert (Request (rl_g (send_headers (clock 0%nat) r)) = Request (rl_g r) /\ Tags (rl_g (send_headers (clock 0%nat) r)) = Tags (rl_g r)) as [Rq Tg].
    { unfold send_headers, intercept_WriteHeader, mark_first_byte, TriggerFirstByte. repeat case_match; simplify_eq; done. }
    assert (client_gone (rl_g (send_headers (clock 0%nat) r)) c = client_gone (rl_g r) c) as Cg by (unfold client_gone; by rewrite Rq).
    assert (GetTagValue (rl_g (send_headers (clock 0%nat) r)) "response_completed_sent" = GetTagValue (rl_g r) "response_completed_sent") as Tv by (cbn; unfold ctx_GetTagValue; by rewrite Tg).
    destruct W as [(_ & _ & W3)|W]; [done|]. split_and!; try done; [by rewrite A2| |].
    + intros _. right. rewrite Cg. by destruct W as (_ & W & _).
    + intros _. by rewrite Cg, Tv.
Qed.

Lemma harmless_all evs : forallb (fun ev => match openAIStreamEventError (ev_Data ev) with None => true | Some _ => false end) evs = true -> Forall harmless evs.
Proof. rewrite forallb_forall, Forall_forall. intros H ev He%list_elem_of_In. specialize (H ev He). unfold harmless. by destruct (openAIStreamEventError (ev_Data ev)). Qed.

(** A good answer, cut inside a line end. *)
Definition demo_reads : list (bytes * read_end) :=
  [(ascii_list (json_text "data: {'id':'a'}") ++ [CR; LF; CR], ReadMore); ([LF], ReadMore); (ascii_list "data: [DONE]" ++ [LF; LF], ReadEOF)].

Lemma openai_stream_relayed_witness : exists r,
  handleOpenAIStream (fun _ => None) (mkReadCtx false None false) (fun _ => 1) emptyContext newResponse demo_reads = Some (r, None) /\
  rw_body (rl_rw r) = string_of (concat (map fst demo_reads)).
Proof.
  pose proof (openai_stream_relayed (fun _ => None) (mkReadCtx false None false) (fun _ => 1) emptyContext newResponse demo_reads
    ltac:(split; reflexivity) ltac:(right; right; left; discriminate)) as T.
  destruct (stream_of demo_reads) as [data ended] eqn:Es. vm_compute in Es. injection Es as <- <-.
  destruct T as (r & err & out & E & B & _ & _ & _ & _ & F & G).
  assert (err = None) as ->.
  { apply G; [reflexivity|reflexivity| |vm_compute; discriminate|eexists _, _; split; reflexivity|].
    - apply harmless_all. vm_compute. reflexivity.
    - exists (ascii_list (json_text "data: {'id':'a'}") ++ [CR; LF; CR; LF] ++ ascii_list "data: [DONE]"), [LF; LF], []. split; [reflexivity|]. split; [unfold empty_lines; left|reflexivity]. }
  exists r. split; [exact E|]. revert E. vm_compute handleOpenAIStream. intros [= <-]. reflexivity.
Defined.

(** An answer whose second frame reports an error: the first is passed on, the second not. *)
Example error_frame_withheld : exists r err,
  handleOpenAIStream (fun _ => None) (mkReadCtx false None false) (fun _ => 1) emptyContext newResponse
    [(ascii_list (json_text "data: {'id':'a'}") ++ [LF; LF], ReadMore); (ascii_list (json_text "data: {'error':{'message':'boom'}}") ++ [LF; LF], ReadEOF)] = Some (r, Some err) /\
  rw_body (rl_rw r) = string_of (ascii_list (json_text "data: {'id':'a'}") ++ [LF; LF]).
Proof. eexists _, _. split; vm_compute; reflexivity. Qed.

(** * The request *)

(** [json.Marshal] of a [json.RawMessage]: its text without white space between tokens, with
    the characters escaped that are special in HTML. *)
Definition html_escape (c : ascii) : list ascii :=
  let n := byte_val c in if (n =? 60) || (n =? 62) || (n =? 38) then u_escape n else [c].

Fixpoint compact (in_string escaped : bool) (l : list ascii) : list ascii :=
  match l with
  | [] => []
  | c :: r =>
      if in_string then
        match r with
        | a :: b :: r' =>
            match line_separator c a b with
            | Some u => u_escape u ++ compact true false r'
            | None => html_escape c ++ (if escaped then compact true false r else if bool_decide (c = backslash) then compact true true r
                                        else compact (negb (bool_decide (c = quote))) false r)
            end
        | _ => html_escape c ++ (if escaped then compact true false r else if bool_decide (c = backslash) then compact true true r
                                 else compact (negb (bool_decide (c = quote))) false r)
        end
      else if is_space c then compact false false r
      else c :: compact (bool_decide (c = quote)) false r
  end.

(** The members of a [map[string]json.RawMessage]: a raw value prints as its text, the way
    the literal of a number does. *)
Definition raw_map (body : string) (m : list (string * json)) : obj :=
  fold_left (fun acc f => put (fst f) (JNum (string_of (compact false false (ascii_list (snd f))))) acc) (zip (map fst m) (raw_values body)) [].

Definition ensureStreamUsage (body : string) : go string :=
  match json_parse body with
  | Some JNull => Panic
  | Some (JObj m) =>
      let wants := match last_member "stream_options" m with
                   | Some v => match dec_struct [("include_usage", dec_ptr false dec_bool)] v None with Some (Some true) => true | _ => false end
                   | None => false
                   end in
      if wants then Ret body
      else Ret (Marshal (JObj (put "stream_options" (JObj [("include_usage", JBool true)]) (raw_map body m))))
  | _ => Ret body
  end.

Example ensure_usage_added :
  ensureStreamUsage (json_text "{ 'stream' : true, 'm':{ 'b' : 1.50, 'a':'<' } }") =
  Ret (json_text "{'m':{'b':1.50,'a':'\u003c'},'stream':true,'stream_options':{'include_usage':true}}").
Proof. vm_compute. reflexivity. Qed.

Example ensure_usage_kept : let body := json_text "{'stream_options':{'include_usage':true}, 'stream':true}" in ensureStreamUsage body = Ret body.
Proof. vm_compute. reflexivity. Qed.

(** [strings.TrimRight(s, "/")]. *)
Definition trim_slashes (s : string) : string := string_of (rev (drop_while (fun c => bool_decide (c = "/"%char)) (rev (ascii_list s)))).

Record OpenAIProvider := mkOpenAIProvider { op_name : string; op_baseURL : string; op_apiKey : string; op_models : list string }.

Definition NewOpenAIProvider (name baseURL apiKey : string) (models : list string) : OpenAIProvider :=
  mkOpenAIProvider name (trim_slashes baseURL) apiKey models.

Definition OpenAI_RequestTypes : list string :=
  [RequestTypeChatCompletion; RequestTypeEmbedding; RequestTypeImageGeneration; RequestTypeResponses; RequestTypeMessages].

(** [HealthCheck]: the status of [GET /models], or the error of the request. *)
Definition health_error (answer : Z + goerror) : option goerror :=
  match answer with
  | inr e => Some e
  | inl status => if 500 <=? status then Some (errorf ("health check failed: status " +:+ Itoa status)) else None
  end.
Definition OpenAI_HealthCheck (get : string -> headers -> Z + goerror) (p : OpenAIProvider) : option goerror :=
  health_error (get (op_baseURL p +:+ "/models") (header_set ∅ "Authorization" ("Bearer " +:+ op_apiKey p))).

(** What a provider call runs in: the HTTP client and its bodies, the connection of the
    caller, the clock, and the texts of JSON errors. *)
Record provider_env := mkEnv {
  pe_order : gmap string string -> list (string * string);
  pe_order_values : headers -> list (string * list string);
  pe_bad_url : string -> option goerror;
  pe_idle : Duration -> upstream_body -> upstream_body;
  pe_client : http_client;
  pe_reads : upstream_body -> list (bytes * read_end);
  pe_write : bytes -> option goerror;
  pe_ctx : read_ctx;
  pe_clock : nat -> Time;
  pe_json_error : string -> goerror;
  pe_num : JsonNum
}.

Definition env_Call (E : provider_env) (g : GatewayContext) (url body : string) (h : headers) : call_result :=
  Call (pe_order E) (pe_order_values E) (pe_bad_url E) (pe_idle E) g (Some (pe_client E)) (mkUpstreamRequest url body h).

(** Complete responses. *)
Definition handleOpenAINonStream (E : provider_env) (g : GatewayContext) (b : upstream_body) : GatewayContext * option goerror :=
  match b_err b with
  | Some e => (g, Some (wrap_error "read response: " e))
  | None =>
      let body := string_of (b_data b) in
      let g := (TriggerFirstByte g (pe_clock E 0)) <| UpstreamBody := Some body |> in
      match decode_map (pe_num E) body with
      | None => (g, Some (wrap_error "parse response: " (pe_json_error E body)))
      | Some m => (ApplyUsage (g <| Response := (fun _ => body) <$> m |>) (OpenAITokenExtractor body), None)
      end
  end.

(** The result of a request: the context, the client's response, what the attempt holds, and
    the error, or the response handed to a translator. [None]: the stream does not end;
    the body of a passed stream and of a complete response is closed. *)
Record exchange := mkExchange { x_g : GatewayContext; x_rw : ResponseWriter; x_attempt : attempt_state; x_err : option goerror; x_handoff : option (http_Response * upstream_body) }.

Definition officialOrTest (baseURL : string) : bool :=
  Contains baseURL "api.openai.com" || Contains baseURL "127.0.0.1" || Contains baseURL "localhost".

Definition doRequest (E : provider_env) (p : OpenAIProvider) (g : GatewayContext) (rw : ResponseWriter) (endpoint : string) : go (option exchange) :=
  let! body := if IsStream g && officialOrTest (op_baseURL p) then ensureStreamUsage (RawBody g) else Ret (RawBody g) in
  let h := header_set (header_set ∅ "Content-Type" "application/json") "Authorization" ("Bearer " +:+ op_apiKey p) in
  let handoff := IsStream g && (seqb (RequestType g) RequestTypeMessages ||
                   seqb (RequestType g) RequestTypeResponses && HasSuffix endpoint "/chat/completions") in
  let '(g, a, res) := env_Call E g endpoint body h in
  Ret (match res with
       | inr e => Some (mkExchange g rw a (Some e) None)
       | inl (resp, b) =>
           if handoff then Some (mkExchange g rw a None (Some (resp, b)))
           else if IsStream g then
             (fun '(r, err) => mkExchange (rl_g r) (rl_rw r) (cancel_Close a) err None) <$>
               handleOpenAIStream (pe_write E) (pe_ctx E) (pe_clock E) g rw (pe_reads E b)
           else let '(g, err) := handleOpenAINonStream E g b in Some (mkExchange g rw (cancel_Close a) err None)
       end).

(** The invokers of the request types that are passed on as they are. *)
Definition openai_path (requestType : string) : option string :=
  if seqb requestType RequestTypeChatCompletion then Some "/chat/completions"
  else if seqb requestType RequestTypeEmbedding then Some "/embeddings"
  else if seqb requestType RequestTypeImageGeneration then Some "/images/generations"
  else None.

Definition openai_passthrough (E : provider_env) (p : OpenAIProvider) (g : GatewayContext) (rw : ResponseWriter) : option (go (option exchange)) :=
  (fun path => doRequest E p g rw (op_baseURL p +:+ path)) <$> openai_path (RequestType g).
