(* ===== verification/VersionReport.v ===== *)
(** pkg/versionreport: the build identity a gateway reports every 30 seconds, over Redis or over
    HTTP.  UUID and URL parsing, the HTTP client and the connection to Redis are arguments; what
    the Go context and the network do during one report over Redis is a record of outcomes. *)

From Stdlib Require Import Ascii.
From S2P Require Import Prelude GoFloat GoStrings GoJson GoPrint Sse Context Compensation OpenAI.

(** * protocol.go *)

Record Node := mkNode { nd_SchemaVersion : Z; nd_Namespace : string; nd_InstanceID : string; nd_Version : string; nd_BuildKind : string }.
#[global] Instance eta_node : Eta Node := fun n =>
  mkNode (nd_SchemaVersion n) (nd_Namespace n) (nd_InstanceID n) (nd_Version n) (nd_BuildKind n).

Definition reportTTL : Duration := 180 * Second.

(** [namespacePattern]: 1 to 64 letters, digits, underscores and hyphens. *)
Definition namespace_byte (c : ascii) : bool :=
  let b := byte_val c in
  in_range 65 90 b || in_range 97 122 b || in_range 48 57 b || (b =? 95) || (b =? 45).
Definition namespace_ok (s : string) : bool :=
  let l := ascii_list s in
  (1 <=? length l)%nat && (length l <=? 64)%nat && forallb namespace_byte l.

Section protocol.
(** [uuid.Parse] and the text of its result. *)
Context (canonical_uuid : string -> option string).

Definition normalizeNode (n : Node) : Node + goerror :=
  if negb (nd_SchemaVersion n =? 1) then inr (errorf "versionreport: schema_version must be 1")
  else if negb (namespace_ok (nd_Namespace n)) then inr (errorf "versionreport: namespace must match [A-Za-z0-9_-]{1,64}")
  else if negb (String.length (nd_InstanceID n) =? 36)%nat then inr (errorf "versionreport: instance_id must be a hyphenated UUID")
  else match canonical_uuid (nd_InstanceID n) with
  | None => inr (errorf "versionreport: instance_id must be a valid UUID")
  | Some id =>
      if (128 <? String.length (nd_Version n))%nat then inr (errorf "versionreport: version exceeds 128 bytes")
      else if negb (seqb (nd_BuildKind n) "release") && negb (seqb (nd_BuildKind n) "dev")
      then inr (errorf "versionreport: build_kind must be release or dev")
      else inl (n <| nd_InstanceID := id |>)
  end.

(** [json.Marshal(node)]. *)
Definition node_Marshal (n : Node) : string :=
  string_of (json_encode (JObj [("schema_version", JNum (Itoa (nd_SchemaVersion n))); ("namespace", JStr (nd_Namespace n));
    ("instance_id", JStr (nd_InstanceID n)); ("version", JStr (nd_Version n)); ("build_kind", JStr (nd_BuildKind n))])).

(** * sender.go: Redis *)

Definition redisReportTimeout : Duration := 5 * Second.

Definition boundedRedisTimeout (timeout : Duration) : Duration :=
  if (timeout <=? 0) || (redisReportTimeout <? timeout) then redisReportTimeout else timeout.

(** The options of the client of one report that bound it. *)
Record redis_options := mkOptions {
  ro_ReadTimeout : Duration; ro_WriteTimeout : Duration; ro_DialTimeout : Duration; ro_PoolTimeout : Duration;
  ro_MaxRetries : Z; ro_DialerRetries : Z; ro_PoolSize : Z; ro_MaxActiveConns : Z; ro_MaxConcurrentDials : Z;
  ro_MinIdleConns : Z; ro_MaxIdleConns : Z
}.

Definition report_options (o : redis_options) : redis_options :=
  mkOptions (boundedRedisTimeout (ro_ReadTimeout o)) (boundedRedisTimeout (ro_WriteTimeout o))
    (boundedRedisTimeout (ro_DialTimeout o)) (boundedRedisTimeout (ro_PoolTimeout o)) (-1) 1 1 1 1 0 1.

(** The sender's slot, the connections it opened and has not closed, and the keys written with
    their time to live. *)
Record redisSender := mkRedisSender { rs_active : bool; rs_open : nat; rs_written : list (string * string * Duration) }.
#[global] Instance eta_redis_sender : Eta redisSender := fun s => mkRedisSender (rs_active s) (rs_open s) (rs_written s).

(** What happens during a report: whether the slot is had before the context ends, the error of the
    context after that, after dialling and at the end, what the dialler returns (a connection
    or none, an error or none), whether the write reached the server, and its error. *)
Record report_outcome := mkOutcome {
  oc_slot : bool; oc_ctx_slot : option goerror; oc_conn : bool; oc_dial : option goerror;
  oc_ctx_dial : option goerror; oc_stored : bool; oc_set : option goerror; oc_ctx_end : option goerror
}.

(** [defer func() { <-s.active }()] and [conn.Close()]. *)
Definition free_slot (s : redisSender) : redisSender := s <| rs_active := false |>.
Definition close_conn (s : redisSender) : redisSender := s <| rs_open := pred (rs_open s) |>.

Definition report_key (n : Node) : string :=
  "tokenlive:gateway-versions:" +:+ nd_Namespace n +:+ ":" +:+ nd_InstanceID n.

Definition ctx_error : goerror := errorf "context deadline exceeded".

Definition redis_Send (s : redisSender) (o : report_outcome) (n : Node) : redisSender * option goerror :=
  match normalizeNode n with
  | inr e => (s, Some e)
  | inl n =>
      let payload := node_Marshal n in
      if negb (oc_slot o) then (s, Some (default ctx_error (oc_ctx_slot o)))
      else
        let s := s <| rs_active := true |> in
        match oc_ctx_slot o with
        | Some e => (free_slot s, Some e)
        | None =>
            let s := if oc_conn o then s <| rs_open := S (rs_open s) |> else s in
            match oc_dial o with
            | Some e => (free_slot (if oc_conn o then close_conn s else s), Some e)
            | None =>
                if negb (oc_conn o) then (free_slot s, Some (errorf "versionreport: dialer returned no connection"))
                else match oc_ctx_dial o with
                | Some e => (free_slot (close_conn s), Some e)
                | None =>
                    let s := if oc_stored o then s <| rs_written := rs_written s ++ [(report_key n, payload, reportTTL)] |> else s in
                    (free_slot (close_conn s), match oc_ctx_end o with Some e => Some e | None => oc_set o end)
                end
            end
        end
  end.

(** * sender.go: HTTP *)

(** What [url.Parse] gives that the code reads. *)
Record parsed_url := mkURL {
  pu_Scheme : string; pu_Host : string; pu_User : bool; pu_Path : string; pu_RawQuery : string; pu_Fragment : string
}.
#[global] Instance eta_parsed_url : Eta parsed_url := fun u =>
  mkURL (pu_Scheme u) (pu_Host u) (pu_User u) (pu_Path u) (pu_RawQuery u) (pu_Fragment u).

Record httpSender := mkHTTPSender { hs_timeout : Duration; hs_endpoint : string; hs_token : string }.

Context (url_Parse : string -> option parsed_url) (url_String : parsed_url -> string).

(** [client]: the timeout of the given client, if there is one. *)
Definition NewHTTPSender (client : option Duration) (adminURL token : string) : option httpSender :=
  if is_empty (TrimSpace token) then None
  else match url_Parse adminURL with
  | None => None
  | Some base =>
      if is_empty (pu_Host base) || (negb (seqb (pu_Scheme base) "http") && negb (seqb (pu_Scheme base) "https")) ||
         pu_User base || negb (is_empty (pu_RawQuery base)) || negb (is_empty (pu_Fragment base)) then None
      else
        let timeout := default 0 client in
        let timeout := if (timeout <=? 0) || (5 * Second <? timeout) then 5 * Second else timeout in
        Some (mkHTTPSender timeout
          (url_String (base <| pu_Path := trim_slashes (pu_Path base) +:+ "/api/v1/gateway/version" |>)) token)
  end.

(** [Do]: the HTTP client, which follows no redirect; it answers with a status. [request_error]:
    the error of building the request. *)
Context {W : Type} (request_error : string -> option goerror)
  (Do : W -> string -> list (string * string) -> string -> W * (Z + goerror)).

Definition http_Send (s : httpSender) (w : W) (n : Node) : W * option goerror :=
  match normalizeNode n with
  | inr e => (w, Some e)
  | inl n =>
      match request_error (hs_endpoint s) with
      | Some e => (w, Some (wrapf "versionreport: create request: " e))
      | None =>
          match Do w (hs_endpoint s) [("Content-Type", "application/json"); ("X-Sync-Token", hs_token s)] (node_Marshal n) with
          | (w, inr e) => (w, Some (wrapf "versionreport: send request: " e))
          | (w, inl status) =>
              (w, if (status <? 200) || (300 <=? status) then Some (errorf ("versionreport: Admin returned HTTP " +:+ Itoa status)) else None)
          end
      end
  end.

Inductive Sender := SendRedis (o : redis_options) | SendHTTP (s : httpSender).

Definition newRedisSender (client : option redis_options) : option Sender := SendRedis <$> client.
(** [dialer]: whether one is given. *)
Definition NewRedisSenderWithDialer (client : option redis_options) (dialer : bool) : option Sender :=
  if dialer then newRedisSender client else None.

(** Redis when there is a client, HTTP otherwise; never one after the other. *)
Definition SelectSender (rdb : option redis_options) (client : option Duration) (adminURL token : string) : option Sender :=
  match rdb with
  | Some _ => newRedisSender rdb
  | None => SendHTTP <$> NewHTTPSender client adminURL token
  end.

(** * reporter.go *)

(** One round of [Run]: whether the context is done before it, the error of the report, whether
    the context is done after it, the clock at the check and at the warning, and whether the
    context ends during the pause. *)
Record report_round := mkRound {
  rd_stop_before : bool; rd_err : option goerror; rd_stop_after : bool; rd_check : Time; rd_warned : Time; rd_stop_pause : bool
}.

(** The rounds of the loop: how many reports were sent, and the times of the warnings. *)
Fixpoint run_rounds (rounds : list report_round) (lastWarning : Time) : nat * list Time :=
  match rounds with
  | [] => (O, [])
  | d :: rest =>
      if rd_stop_before d then (O, [])
      else if rd_stop_after d then (1%nat, [])
      else
        let warn := match rd_err d with
                    | Some _ => time_IsZero lastWarning || (60 * Second <=? time_Sub (rd_check d) lastWarning)
                    | None => false
                    end in
        let lastWarning := if warn then rd_warned d else lastWarning in
        let '(sent, warnings) := if rd_stop_pause d then (O, []) else run_rounds rest lastWarning in
        (S sent, if warn then rd_warned d :: warnings else warnings)
  end.

Definition report_Run (sender : option Sender) (rounds : list report_round) : nat * list Time :=
  match sender with None => (O, []) | Some _ => run_rounds rounds zeroTime end.
End protocol.

Arguments node_Marshal : simpl never.
Arguments report_key : simpl never.
Arguments errorf : simpl never.

(** * Properties *)

Section facts.
Context (canonical_uuid : string -> option string).

(** What [uuid] promises: the text of an identifier is its own canonical form, of 36 bytes. *)
Context (Huuid : forall s id, canonical_uuid s = Some id -> canonical_uuid id = Some id /\ String.length id = 36%nat).

(** A normalized record is valid as it is, so that the server that checks it again agrees. *)
Lemma normalizeNode_stable n n' : normalizeNode canonical_uuid n = inl n' -> normalizeNode canonical_uuid n' = inl n'.
Proof.
  unfold normalizeNode. destruct (negb _) eqn:E1; [done|]. destruct (negb (namespace_ok _)) eqn:E2; [done|].
  destruct (negb (String.length _ =? 36)%nat) eqn:E3; [done|].
  destruct (canonical_uuid (nd_InstanceID n)) as [id|] eqn:E4; [|done].
  destruct (128 <? _)%nat eqn:E5; [done|]. destruct (_ && _) eqn:E6; [done|]. intros [= <-].
  destruct (Huuid _ _ E4) as [C L]. destruct n. cbn in *. by rewrite E1, E2, L, C, E5, E6.
Qed.

(** A report over Redis leaves nothing behind, whatever happens: the slot is free again, every
    connection it opened is closed, and at most one key is written, for a valid record and with
    its time to live. *)
Lemma redis_Send_releases s o n :
  rs_active s = false ->
  let '(s', err) := redis_Send canonical_uuid s o n in
  rs_active s' = false /\ rs_open s' = rs_open s /\
  (rs_written s' = rs_written s \/
   exists n', normalizeNode canonical_uuid n = inl n' /\
     rs_written s' = rs_written s ++ [(report_key n', node_Marshal n', reportTTL)]).
Proof.
  intros A. unfold redis_Send. destruct (normalizeNode canonical_uuid n) as [n'|e]; [|auto].
  destruct o as [slot cs conn dial cd stored set ce]. cbn.
  destruct slot; cbn; [|auto]. destruct cs; cbn; [auto|]. destruct conn, dial; cbn; auto. destruct cd; cbn; [auto|].
  destruct stored; cbn; [|auto]. split_and!; auto. right. by exists n'.
Qed.
End facts.

Lemma boundedRedisTimeout_range t : 0 < boundedRedisTimeout t <= 5 * Second.
Proof. unfold boundedRedisTimeout, redisReportTimeout, Second. destruct (_ || _) eqn:E; [lia|]. zbool. lia. Qed.

(** Warnings are at least a minute apart, however often reports fail: on a clock that does not go
    back between the check and the warning, and stays after its zero. *)
Fixpoint apart (last : Time) (l : list Time) : Prop :=
  match l with [] => True | w :: r => (last = zeroTime \/ last + 60 * Second <= w) /\ apart w r end.

Lemma warnings_apart rounds last :
  Forall (fun d => rd_check d <= rd_warned d) rounds -> apart last (snd (run_rounds rounds last)).
Proof.
  intros F. revert last. induction F as [|d rounds Hd F IH]; intros last; cbn; [done|].
  destruct (rd_stop_before d), (rd_stop_after d); try done.
  set (warn := match rd_err d with Some _ => _ | None => false end).
  assert (warn = true -> last = zeroTime \/ last + 60 * Second <= rd_warned d) as Hw.
  { subst warn. destruct (rd_err d); [|done]. intros [Z|Z]%orb_true_iff.
    - left. unfold time_IsZero in Z. by apply Z.eqb_eq.
    - right. apply time_Sub_ge in Z; [lia| |]; unfold in_int64, min_int64, max_int64, Second; lia. }
  destruct (rd_stop_pause d).
  - by destruct warn; cbn; auto.
  - specialize (IH (if warn then rd_warned d else last)).
    destruct (run_rounds rounds (if warn then rd_warned d else last)) as [sent ws]. destruct warn; cbn in *; auto.
Qed.
