(* ===== verification/Engine.v ===== *)
(** pkg/core/engine.go, engine_request.go, engine_response.go, engine_builder.go,
    filter.go, error_format.go and error_matcher.go: the request pipeline from the parsed
    HTTP request to the written response.

    A request runs in a world: the response writer and the state the other
    components share.  Alias resolution, policy lookup, smart routing, filters and
    invokers are arguments with the types of their interfaces. *)

From Stdlib Require Import Ascii.
From S2P Require Import Prelude GoFloat GoStrings GoJson GoPrint Matcher Policy Types Context ErrorPolicy Http.
From S2P Require Import Store Limiter Settlement Sse Compensation Balancers Fallback.

(** * error_format.go *)

Definition anthropicErrorType (code : Z) : string :=
  if code =? 400 then "invalid_request_error"
  else if code =? 401 then "authentication_error"
  else if code =? 403 then "permission_error"
  else if code =? 404 then "not_found_error"
  else if code =? 413 then "request_too_large"
  else if code =? 429 then "rate_limit_error"
  else if code =? 529 then "overloaded_error"
  else if 500 <=? code then "api_error" else "invalid_request_error".

Inductive ErrorFormatter := openaiErrorFormatter | anthropicErrorFormatter.

Definition ErrorFormatterForRequestType (rt : string) : ErrorFormatter :=
  if seqb rt RequestTypeMessages then anthropicErrorFormatter else openaiErrorFormatter.

Definition Format (f : ErrorFormatter) (code : Z) (err : goerror) : json :=
  match f with
  | openaiErrorFormatter =>
      JObj [("error", JObj [("message", JStr (Error_text err)); ("type", JStr "gateway_error"); ("code", JNum (Itoa code))])]
  | anthropicErrorFormatter =>
      JObj [("type", JStr "error");
            ("error", JObj [("type", JStr (anthropicErrorType code)); ("message", JStr (Error_text err))])]
  end.

Definition newline : string := String LF "".
Definition dq : string := String quote "".

Definition FormatSSE (IsPrint : list ascii -> bool) (f : ErrorFormatter) (code : Z) (err : goerror) : string :=
  let message := Quote IsPrint (Error_text err) in
  match f with
  | openaiErrorFormatter =>
      json_text "data: {'error': {'message': " +:+ message +:+ json_text ", 'type': 'upstream_error'}}" +:+ newline +:+ newline
  | anthropicErrorFormatter =>
      "event: error" +:+ newline +:+
      json_text "data: {'type': 'error', 'error': {'type': 'upstream_error', 'message': " +:+ message +:+ "}}" +:+
      newline +:+ newline
  end.

(** * error_matcher.go *)

Section error_matcher.
(** [regexp.Compile] and [MatchString]. *)
Context {Regexp : Type} (compile : string -> option Regexp) (MatchString : Regexp -> string -> bool).

Record ErrorMatcher := mkErrorMatcher {
  em_StatusCodes : list Z;
  em_ErrorCodes : list string;
  em_MessagePatterns : list string;
  em_compiled : option (list Regexp)
}.

Definition em_Compile (em : ErrorMatcher) : ErrorMatcher * bool :=
  match mapM compile (em_MessagePatterns em) with
  | Some res => (mkErrorMatcher (em_StatusCodes em) (em_ErrorCodes em) (em_MessagePatterns em) (Some res), true)
  | None => (em, false)
  end.

Definition FindMatchedPattern (em : ErrorMatcher) (errMsg : string) : ErrorMatcher * (bool * string) :=
  let em := match em_compiled em, em_MessagePatterns em with None, _ :: _ => fst (em_Compile em) | _, _ => em end in
  (em, match List.find (fun p => MatchString (fst p) errMsg) (zip (default [] (em_compiled em)) (em_MessagePatterns em)) with
       | Some (_, pattern) => (true, pattern)
       | None => (false, "")
       end).

Definition em_Match (em : ErrorMatcher) (statusCode : Z) (errCode errMsg : string) : ErrorMatcher * bool :=
  if existsb (Z.eqb statusCode) (em_StatusCodes em) then (em, true)
  else if existsb (seqb errCode) (em_ErrorCodes em) then (em, true)
  else let '(em, (matched, _)) := FindMatchedPattern em errMsg in (em, matched).
End error_matcher.

(** * engine_request.go *)

Definition isGeminiGenerateContentPath (path : string) : bool :=
  Contains path "/models/" && (HasSuffix path ":generateContent" || HasSuffix path ":streamGenerateContent").

Definition isGeminiStreamPath (path : string) : bool :=
  Contains path "/models/" && HasSuffix path ":streamGenerateContent".

Definition resolveRequestType (path : string) : string :=
  if isGeminiGenerateContentPath path then RequestTypeGeminiGenerateContent
  else if HasSuffix path "/chat/completions" then RequestTypeChatCompletion
  else if HasSuffix path "/messages" then RequestTypeMessages
  else if HasSuffix path "/embeddings" then RequestTypeEmbedding
  else if HasSuffix path "/images/generations" then RequestTypeImageGeneration
  else if HasSuffix path "/responses" then RequestTypeResponses
  else RequestTypeChatCompletion.

(** The text after the last occurrence of a non-empty marker. *)
Fixpoint after_last (marker s : string) : option string :=
  match s with
  | EmptyString => None
  | String _ r =>
      match after_last marker r with
      | Some t => Some t
      | None => if HasPrefix s marker then Some (string_drop (String.length marker) s) else None
      end
  end.

(** [url.PathUnescape]; [None] for a malformed escape. *)
Fixpoint path_unescape (l : list ascii) : option (list ascii) :=
  match l with
  | [] => Some []
  | c :: r =>
      if byte_val c =? 37 then
        match r with
        | a :: b :: r' =>
            match hex_digit a, hex_digit b with
            | Some x, Some y => cons (byte_of (x * 16 + y)) <$> path_unescape r'
            | _, _ => None
            end
        | _ => None
        end
      else cons c <$> path_unescape r
  end.

Definition extractGeminiModelFromPath (path : string) : string :=
  match after_last "/models/" path with
  | None => ""
  | Some modelWithMethod =>
      let unescape s := match path_unescape (ascii_list s) with Some l => string_of l | None => s end in
      if HasSuffix modelWithMethod ":generateContent" then unescape (TrimSuffix modelWithMethod ":generateContent")
      else if HasSuffix modelWithMethod ":streamGenerateContent"
      then unescape (TrimSuffix modelWithMethod ":streamGenerateContent")
      else ""
  end.

Definition extractModel (body : string) : string := default "" (Unmarshal (dec_struct [("model", dec_string)]) "" body).
Definition extractStream (body : string) : bool := default false (Unmarshal (dec_struct [("stream", dec_bool)]) false body).

(** The request as the server hands it over: its path and its body ([None]: a nil body). *)
Record incoming := mkIncoming { in_Request : http_Request; in_Path : string; in_Body : option (string + goerror) }.

(** [strings.SplitN(s, " ", 2)]: before and after the first space. *)
Fixpoint cut_space (s : string) : option (string * string) :=
  match s with
  | EmptyString => None
  | String c r => if byte_val c =? 32 then Some ("", r) else (fun p => (String c (fst p), snd p)) <$> cut_space r
  end.

Definition bearer (auth : string) : string :=
  match cut_space auth with Some (scheme, token) => if seqb (ToLower scheme) "bearer" then token else "" | None => "" end.

Definition first_nonempty (l : list string) : string := default "" (List.find (fun s => negb (is_empty s)) l).

Definition api_key (r : http_Request) : string :=
  let h := header_Get (req_Header r) in
  first_nonempty [h "X-API-Key"; bearer (h "Authorization"); h "api-key"; h "x-api-key"; query_Get (default ∅ (req_URL r)) "api_key"].

Definition readBody (i : incoming) (g : GatewayContext) : GatewayContext + goerror :=
  match in_Body i with
  | None => inl g
  | Some (inr e) => inr e
  | Some (inl b) => inl (g <| RawBody := b |>)
  end.

Definition parseRequest (i : incoming) (g : GatewayContext) : GatewayContext * option goerror :=
  let h := header_Get (req_Header (in_Request i)) in
  let g := g <| RequestType := resolveRequestType (in_Path i) |> <| APIKey := api_key (in_Request i) |>
             <| APIKeyID := h "X-API-Key-ID" |> <| APIKeyHash := h "X-API-Key-Hash" |> <| Tenant := h "X-Tenant-ID" |>
             <| UserID := h "X-User-ID" |> <| WorkspaceID := h "X-Workspace-ID" |> <| UserTenant := h "X-User-Tenant" |> in
  match readBody i g with
  | inr e => (g, Some (wrap_error "read body: " e))
  | inl g =>
      if seqb (RequestType g) RequestTypeGeminiGenerateContent then
        let m := extractGeminiModelFromPath (in_Path i) in
        (g <| Model := m |> <| OriginalModel := m |> <| IsStream := isGeminiStreamPath (in_Path i) |>, None)
      else if is_empty (RawBody g) then (g, None)
      else
        let m := extractModel (RawBody g) in
        (g <| Model := m |> <| OriginalModel := m |> <| IsStream := extractStream (RawBody g) |>, None)
  end.

(** * engine_response.go *)

Definition scan_space (c : ascii) : bool := existsb (Z.eqb (byte_val c)) [32; 9; 11; 12; 13].

(** [fmt.Sscanf]: literal text of the format, a space of which stands for one or more. *)
Fixpoint scan_literal (fmt : list ascii) (l : list ascii) : option (list ascii) :=
  match fmt, l with
  | [], _ => Some l
  | f :: fmt, c :: r =>
      if byte_val f =? 32 then if scan_space c then scan_literal fmt (drop_while scan_space r) else None
      else if bool_decide (f = c) then scan_literal fmt r else None
  | _ :: _, [] => None
  end.

(** [%d]: optional sign and decimal digits in the range of [int]. *)
Definition scan_int (l : list ascii) : option Z :=
  let l := drop_while scan_space l in
  let '(neg, l) := match l with
                   | c :: r => if byte_val c =? 45 then (true, r) else if byte_val c =? 43 then (false, r) else (false, l)
                   | [] => (false, []) end in
  let digits := take (length l - length (drop_while is_digit l)) l in
  match digits with
  | [] => None
  | _ => ParseInt ((if neg : bool then "-" else "") +:+ string_of digits)
  end.

Definition upstream_status (msg : string) : option Z :=
  scan_literal (ascii_list "upstream error: status ") (ascii_list msg) ≫= scan_int.

Definition is_error_code (code : Z) : bool := (400 <=? code) && (code <? 600).

(** The code the text of an error stands for. *)
Definition text_code (msg : string) : Z :=
  if Contains msg "upstream error: status " then
    match upstream_status msg with Some c => if is_error_code c then c else 500 | None => 500 end
  else if Contains msg "no available endpoint" then 503
  else if Contains msg "all fallback" then 503
  else 500.

Definition getErrorCode (err : goerror) : Z :=
  match err_Code err with
  | Some code => if is_error_code code then code else text_code (Error_text err)
  | None => text_code (Error_text err)
  end.

(** The degrade configuration of the first breaker policy; a nil policy panics. *)
Definition degrade_config (g : option GatewayContext) : go (option DegradeConfig) :=
  match g ≫= gPolicy with
  | None => Ret None
  | Some p => match p_CircuitBreakPolicies p with
              | [] => Ret None
              | None :: _ => Panic
              | Some cb :: _ => Ret (cb_DegradeConfig cb)
              end
  end.

Definition write_formatted (w : ResponseWriter) (code : Z) (err : goerror) (rt : string) : go ResponseWriter :=
  let w := rw_Set "Content-Type" "application/json" w in
  let! w := rw_WriteHeader code w in
  Ret (rw_Write (Marshal (Format (ErrorFormatterForRequestType rt) code err) +:+ newline) w).

Definition write_degraded (w : ResponseWriter) (d : DegradeConfig) : go ResponseWriter :=
  let w := rw_Set "Content-Type" "application/json" w in
  let! w := rw_WriteHeader (if 0 <? dc_ResponseCode d then dc_ResponseCode d else 503) w in
  Ret (rw_Write (dc_ResponseBody d) w).

Definition writeError (w : ResponseWriter) (code : Z) (err : goerror) (g : option GatewayContext) : go ResponseWriter :=
  let code := if code =? 0 then 500 else code in
  let! degrade := degrade_config g in
  let rt := default "" (RequestType <$> g) in
  match degrade with
  | Some d => if is_empty (dc_ResponseBody d) then write_formatted w code err rt else write_degraded w d
  | None => write_formatted w code err rt
  end.

(** A complete JSON body with its length. *)
Definition write_body (data : string) (w : ResponseWriter) : go ResponseWriter :=
  let w := rw_Set "Content-Type" "application/json" w in
  let w := rw_Set "Content-Length" (Itoa (Z.of_nat (String.length data))) w in
  let! w := rw_WriteHeader 200 w in Ret (rw_Write data w).

(** [marshal]: the JSON text of the value a provider left as the response. *)
Definition writeJSON (marshal : string -> string + goerror) (w : ResponseWriter) (v : string) : go ResponseWriter :=
  match marshal v with
  | inr e => writeError w 500 e None
  | inl data => write_body data w
  end.

(** * filter.go and pipeline.go *)

Record InboundFilter (W : Type) := mkInbound {
  if_Name : string;
  if_Order : Z;
  if_OnRequest : W -> GatewayContext -> go (W * GatewayContext * option goerror)
}.
Record OutboundFilter (W : Type) := mkOutbound {
  of_Name : string;
  of_Order : Z;
  of_InboundSafe : bool;
  of_OnResponse : W -> GatewayContext -> go (W * GatewayContext * option goerror)
}.
Arguments mkInbound {W}.
Arguments if_Name {W}.
Arguments if_Order {W}.
Arguments if_OnRequest {W}.
Arguments mkOutbound {W}.
Arguments of_Name {W}.
Arguments of_Order {W}.
Arguments of_InboundSafe {W}.
Arguments of_OnResponse {W}.

(** A built pipeline: the invokers, the filters in order, the critical ones. *)
Record EnginePipeline (W : Type) := mkEnginePipeline {
  pp_Name : string;
  pp_Pipeline : Pipeline W;
  pp_InboundFilters : list (InboundFilter W);
  pp_OutboundFilters : list (OutboundFilter W);
  pp_CriticalOutboundFilters : gset string;
  pp_RequestInvoker : option (Invoker W)
}.
Arguments mkEnginePipeline {W}.
Arguments pp_Name {W}.
Arguments pp_Pipeline {W}.
Arguments pp_InboundFilters {W}.
Arguments pp_OutboundFilters {W}.
Arguments pp_CriticalOutboundFilters {W}.
Arguments pp_RequestInvoker {W}.

(** * engine_builder.go *)

Record InvokerConfig := mkInvokerConfig { ic_Type : string; ic_Routers : list string; ic_LoadBalancer : string; ic_Retry : Z }.
Record PipelineConfig := mkPipelineConfig {
  pc_Name : string;
  pc_InboundFilters : list string;
  pc_OutboundFilters : list string;
  pc_CriticalOutboundFilters : list string;
  pc_Invoker : InvokerConfig
}.

Section builder.
Context {W : Type} (IsPrint : list ascii -> bool).
(** The registry holds filters of either kind, or of both; [build] is the invoker builder. *)
Context (inbound : gmap string (InboundFilter W)) (outbound : gmap string (OutboundFilter W))
  (build : option (InvokerConfig -> Invoker W + goerror)).

Definition buildInvoker (cfg : InvokerConfig) : Invoker W + goerror :=
  match build with None => inr (errorf "invoker builder not set in engine") | Some b => b cfg end.

(** The filters a configuration names; the first unknown name is the error. *)
Fixpoint resolve_filters {F} (kind : string) (reg : gmap string F) (names : list string) : list F + goerror :=
  match names with
  | [] => inl []
  | n :: r =>
      match reg !! n with
      | None => inr (errorf (kind +:+ " filter " +:+ Quote IsPrint n +:+ " not found in registry"))
      | Some f => match resolve_filters kind reg r with inl fs => inl (f :: fs) | inr e => inr e end
      end
  end.

Definition invoker_registry (cfg : InvokerConfig) (invoker : Invoker W) : gmap string (option (Invoker W)) :=
  let t := if is_empty (ic_Type cfg) then "cluster" else ic_Type cfg in
  let base := {[t := Some invoker]} in
  if existsb (seqb t) ["cluster"; "fallback"; "failover"] then
    let reg := <["fallback" := Some invoker]> (<["failover" := Some invoker]> (<["cluster" := Some invoker]> base)) in
    match buildInvoker (mkInvokerConfig "hedging" (ic_Routers cfg) (ic_LoadBalancer cfg) (ic_Retry cfg)) with
    | inl h => <["hedging" := Some h]> reg
    | inr _ => reg
    end
  else base.

Definition buildPipeline (cfg : PipelineConfig) : EnginePipeline W + goerror :=
  match resolve_filters "inbound" inbound (pc_InboundFilters cfg) with
  | inr e => inr e
  | inl ins =>
      match resolve_filters "outbound" outbound (pc_OutboundFilters cfg) with
      | inr e => inr e
      | inl outs =>
          match buildInvoker (pc_Invoker cfg) with
          | inr e => inr (wrap_error "build invoker: " e)
          | inl invoker =>
              let p := mkPipeline invoker (invoker_registry (pc_Invoker cfg) invoker) in
              inl (mkEnginePipeline (pc_Name cfg) p (sort_by (key_lt if_Order) ins) (sort_by (key_lt of_Order) outs)
                     (list_to_set (pc_CriticalOutboundFilters cfg)) (Some (FallbackInvoker_Invoke p)))
          end
      end
  end.

(** [Init] and [UpdateConfig]: all pipelines or none. The configuration is a Go map; the list
    is the order in which it is ranged over. *)
Fixpoint build_all (cfgs : list (string * PipelineConfig)) : gmap string (EnginePipeline W) + goerror :=
  match cfgs with
  | [] => inl ∅
  | (name, cfg) :: r =>
      match buildPipeline cfg with
      | inr e => inr (wrap_error ("build pipeline " +:+ Quote IsPrint name +:+ ": ") e)
      | inl p => match build_all r with inl m => inl (<[name := p]> m) | inr e => inr e end
      end
  end.

(** The pipelines in use after a reload: the new ones, or on an error the old ones. *)
Definition UpdateConfig (pipelines : gmap string (EnginePipeline W)) (cfgs : list (string * PipelineConfig)) :
  gmap string (EnginePipeline W) * option goerror :=
  match build_all cfgs with inl m => (m, None) | inr e => (pipelines, Some e) end.
End builder.

(** A name list or the default routers; unknown names are skipped. *)
Definition resolveRouters {R} (factories : gmap string R) (names : list string) : list R :=
  omap (fun n => factories !! n) (match names with [] => ["capability"; "circuit_breaker"; "priority"] | _ => names end).

(** Without a factory for the fallback strategy the call panics. *)
Definition resolveLoadBalancer {L} (factories : gmap string L) (name : string) : go L :=
  let name := if is_empty name then "round_robin" else name in
  match factories !! name with
  | Some l => Ret l
  | None => match factories !! "round_robin" with Some l => Ret l | None => Panic end
  end.

(** * engine.go *)

Record World (S : Type) := mkWorld { wo_rw : ResponseWriter; wo_st : S }.
Arguments mkWorld {S}.
Arguments wo_rw {S}.
Arguments wo_st {S}.

(** [SmartRouter]: whether it handled the request, and the error. *)
Record SmartRouter (W : Type) := mkSmartRouter {
  sr_Prepare : W -> GatewayContext -> W * GatewayContext * option goerror;
  sr_Invoke : W -> GatewayContext -> EnginePipeline W -> W * GatewayContext * (bool * option goerror)
}.
Arguments mkSmartRouter {W}.
Arguments sr_Prepare {W}.
Arguments sr_Invoke {W}.

Record Engine (S : Type) := mkEngine {
  en_pipelines : gmap string (EnginePipeline (World S));
  en_aliasService : option (S -> string -> S * (string + goerror));
  en_smartRouter : option (SmartRouter (World S));
  en_policyProvider : option (S -> string -> string -> string -> S * (option Policy + goerror));
  (** [SettleLimits] of the registered token settlement filter *)
  en_settlement : option (World S -> GatewayContext -> World S * GatewayContext * option goerror);
  en_compQueue : option (S -> CompensationTask -> S * option goerror)
}.
Arguments mkEngine {S}.
Arguments en_pipelines {S}.
Arguments en_aliasService {S}.
Arguments en_smartRouter {S}.
Arguments en_policyProvider {S}.
Arguments en_settlement {S}.
Arguments en_compQueue {S}.

Section handle.
Context {S : Type} (IsPrint : list ascii -> bool) (marshal : string -> string + goerror).
Notation W := (World S).

Definition set_rw (w : W) (rw : ResponseWriter) : W := mkWorld rw (wo_st w).

(** Respond with an error and stop. *)
Definition fail (w : W) (code : Z) (err : goerror) (g : GatewayContext) : go (W * GatewayContext) :=
  let! rw := writeError (wo_rw w) code err (Some g) in Ret (set_rw w rw, g).

Definition matchPipeline (e : Engine S) (rt : string) : option (EnginePipeline W) :=
  match en_pipelines e !! rt with
  | Some p => Some p
  | None =>
      match (if seqb rt RequestTypeImageGeneration then en_pipelines e !! RequestTypeChatCompletion else None) with
      | Some p => Some p
      | None => en_pipelines e !! "default"
      end
  end.

(** The inbound filters, up to the first that rejects. *)
Fixpoint run_inbound (fs : list (InboundFilter W)) (w : W) (g : GatewayContext) : go (W * GatewayContext * option goerror) :=
  match fs with
  | [] => Ret (w, g, None)
  | f :: r =>
      let! res := if_OnRequest f w g in
      match res with
      | (w, g, Some err) => Ret (w, g, Some err)
      | (w, g, None) => run_inbound r w g
      end
  end.

(** After a rejection: the outbound filters that declare themselves safe. *)
Fixpoint run_safe (fs : list (OutboundFilter W)) (w : W) (g : GatewayContext) : go (W * GatewayContext) :=
  match fs with
  | [] => Ret (w, g)
  | f :: r =>
      if of_InboundSafe f then
        let! res := of_OnResponse f w g in let '(w, g, _) := res in run_safe r w g
      else run_safe r w g
  end.

Definition compensation_task (g : GatewayContext) (filter : string) (err : goerror) (now : Time) : CompensationTask :=
  mkTask (filter +:+ "-" +:+ Model g +:+ "-" +:+ Itoa (now - 62135596800 * Second)) filter
    {["model" := JStr (Model g); "api_key" := JStr (APIKey g);
      "endpoint_id" := JStr (match SelectedEndpoint g with Some ep => ep_ID ep | None => "" end);
      "error" := JStr (Error_text err)]}
    now zeroTime 0 (Error_text err).

(** An error of the queue is logged. *)
Definition enqueueCompensation (q : S -> CompensationTask -> S * option goerror) (w : W) (g : GatewayContext)
  (filter : string) (err : goerror) (now : Time) : W :=
  mkWorld (wo_rw w) (fst (q (wo_st w) (compensation_task g filter err now))).

(** All outbound filters; a failed critical one is queued for compensation. *)
Fixpoint run_outbound (e : Engine S) (critical : gset string) (fs : list (OutboundFilter W)) (now : Time) (w : W)
  (g : GatewayContext) : go (W * GatewayContext) :=
  match fs with
  | [] => Ret (w, g)
  | f :: r =>
      let! res := of_OnResponse f w g in
      match res with
      | (w, g, None) => run_outbound e critical r now w g
      | (w, g, Some err) =>
          let w := match en_compQueue e with
                   | Some q => if bool_decide (of_Name f ∈ critical) then enqueueCompensation q w g (of_Name f) err now else w
                   | None => w
                   end in
          run_outbound e critical r now w g
      end
  end.

Definition premature : goerror := errorf "upstream stream closed prematurely without completion event".

(** A stream that started and never sent its completion frame. *)
Definition check_completion (g : GatewayContext) : GatewayContext :=
  match Err g with
  | Some _ => g
  | None =>
      if IsStream g && (0 <? TTFT g) then
        let tag := if seqb (RequestType g) RequestTypeResponses then Some "response_completed_sent"
                   else if seqb (RequestType g) RequestTypeMessages then Some "message_stop_sent" else None in
        match tag with
        | Some t => if seqb (GetTagValue g t) "true" then g else g <| Err := Some premature |>
        | None => g
        end
      else g
  end.

Definition responses_event (type : string) (g : GatewayContext) (err : goerror) (now : Time) : json :=
  let id := let s := GetTagValue g "response_id" in if is_empty s then "resp_err_interrupted" else s in
  let model := let s := GetTagValue g "response_model" in if is_empty s then Model g else s in
  JObj [("type", JStr type);
        ("response", JObj [("id", JStr id); ("object", JStr "response");
           ("created_at", JNum (Itoa ((now - 62135596800 * Second) / Second))); ("status", JStr "failed");
           ("model", JStr model);
           ("error", JObj [("message", JStr (Error_text err)); ("type", JStr "upstream_error")])])].

Definition event_frame (name : string) (data : json) : string :=
  newline +:+ "event: " +:+ name +:+ newline +:+ "data: " +:+ Marshal data +:+ newline +:+ newline.

(** The frames that tell the client of a started stream that it failed. *)
Definition error_frames (g : GatewayContext) (err : goerror) (now : Time) : string :=
  if seqb (RequestType g) RequestTypeResponses then
    event_frame "response.done" (responses_event "response.done" g err now) +:+
    event_frame "response.completed" (responses_event "response.completed" g err now)
  else newline +:+ FormatSSE IsPrint (ErrorFormatterForRequestType (RequestType g)) (getErrorCode err) err.

Definition write_response (w : W) (g : GatewayContext) (now : Time) : go (W * GatewayContext) :=
  if errors_Is (Err g) ErrClientDisconnected then Ret (w, g)
  else
    let g := check_completion g in
    match Err g with
    | Some err =>
        if 0 <? TTFT g then Ret (set_rw w (rw_Write (error_frames g err now) (wo_rw w)), g)
        else fail w (getErrorCode err) err g
    | None =>
        if IsStream g then Ret (w, g)
        else match Response g with
             | Some v => let! rw := writeJSON marshal (wo_rw w) v in Ret (set_rw w rw, g)
             | None =>
                 match UpstreamBody g with
                 | Some body => let! rw := write_body body (wo_rw w) in Ret (set_rw w rw, g)
                 | None => Ret (w, g)
                 end
             end
    end.

(** Smart routing first; otherwise one pass through the request-level invoker. *)
Definition invoke (e : Engine S) (p : EnginePipeline W) (w : W) (g : GatewayContext) : W * GatewayContext * option goerror :=
  let normal w g := match pp_RequestInvoker p with Some i => i w g | None => FallbackInvoker_Invoke (pp_Pipeline p) w g end in
  match en_smartRouter e with
  | None => normal w g
  | Some sr => match sr_Invoke sr w g p with
               | (w, g, (true, err)) => (w, g, err)
               | (w, g, (false, _)) => normal w g
               end
  end.

(** A rejection by an inbound filter: settle reservations, run the safe filters, respond. *)
Definition reject (e : Engine S) (p : EnginePipeline W) (w : W) (g : GatewayContext) (err : goerror) : go (W * GatewayContext) :=
  let g := g <| Err := Some err |> in
  let '(w, g) := match TrackLimitReservations g, en_settlement e with
                 | true, Some settle => let '(w, g, _) := settle w g in (w, g)
                 | _, _ => (w, g)
                 end in
  let! wg := run_safe (pp_OutboundFilters p) w g in
  fail (fst wg) (getErrorCode err) err (snd wg).

(** From the matched pipeline on. *)
Definition run_pipeline (e : Engine S) (p : EnginePipeline W) (w : W) (g : GatewayContext) (now : Time) :
  go (W * GatewayContext) :=
  let! res := run_inbound (pp_InboundFilters p) w g in
  match res with
  | (w, g, Some err) => reject e p w g err
  | (w, g, None) =>
      let '(w, g, err) := invoke e p w g in
      let g := g <| Err := err |> in
      let! wg := run_outbound e (pp_CriticalOutboundFilters p) (pp_OutboundFilters p) now w g in
      write_response (fst wg) (snd wg) now
  end.

(** Alias resolution: the model code, or the error response. *)
Definition resolve_alias (e : Engine S) (w : W) (g : GatewayContext) : W * (GatewayContext + goerror) :=
  match en_aliasService e with
  | Some resolve =>
      if is_empty (Model g) then (w, inl g)
      else match resolve (wo_st w) (Model g) with
           | (s, inl m) => (mkWorld (wo_rw w) s, inl (g <| Model := m |>))
           | (s, inr err) => (mkWorld (wo_rw w) s, inr (wrap_error "alias resolution error: " err))
           end
  | None => (w, inl g)
  end.

Definition resolve_policy (e : Engine S) (w : W) (g : GatewayContext) : W * (GatewayContext + goerror) :=
  match en_policyProvider e with
  | Some get =>
      match get (wo_st w) (Tenant g) (UserID g) (Model g) with
      | (s, inl p) => (mkWorld (wo_rw w) s, inl (g <| gPolicy := p |>))
      | (s, inr err) => (mkWorld (wo_rw w) s, inr (wrap_error "policy resolution error: " err))
      end
  | None => (w, inl g)
  end.

Definition prepare (e : Engine S) (w : W) (g : GatewayContext) : W * GatewayContext * option goerror :=
  match en_smartRouter e with Some sr => sr_Prepare sr w g | None => (w, g, None) end.

(** Once the model is known: smart preparation, pipeline, policy, and the pipeline's run. *)
Definition handle_model (e : Engine S) (w : W) (g : GatewayContext) (now : Time) : go (W * GatewayContext) :=
  match prepare e w g with
  | (w, g, Some err) => fail w (getErrorCode err) err g
  | (w, g, None) =>
      match matchPipeline e (RequestType g) with
      | None => fail w 500 (errorf ("no pipeline matched for request type: " +:+ RequestType g)) g
      | Some p =>
          match resolve_policy e w g with
          | (w, inr err) => fail w 403 err g
          | (w, inl g) => run_pipeline e p w g now
          end
      end
  end.

Definition HandleRequest (e : Engine S) (i : incoming) (start now : Time) (w : W) : go (W * GatewayContext) :=
  let g := AcquireContext emptyContext (in_Request i) start in
  let '(g, err) := parseRequest i g in
  match err with
  | Some err => fail w 400 err g
  | None =>
      match resolve_alias e w g with
      | (w, inr err) => fail w 502 err g
      | (w, inl g) => handle_model e w g now
      end
  end.
End handle.

(** * Error responses *)

(** Every error maps to an HTTP error status: whatever the error says about itself, the code the engine
    answers with is between 400 and 599. *)
Theorem getErrorCode_range (err : goerror) : 400 <= getErrorCode err < 600.
Proof.
  assert (forall c, is_error_code c = true -> 400 <= c < 600) as R
    by (intros c; unfold is_error_code; rewrite andb_true_iff, Z.leb_le, Z.ltb_lt; done).
  assert (forall m, 400 <= text_code m < 600) as T.
  { intros m. unfold text_code. repeat case_match; try lia. by apply R. }
  unfold getErrorCode. destruct (err_Code err) as [c|]; [|apply T].
  destruct (is_error_code c) eqn:E; [by apply R|apply T].
Qed.

Lemma rw_WriteHeader_fresh code w : rw_sent w = None -> 200 <= code <= 999 ->
  rw_WriteHeader code w = Ret (mkWriterState (rw_Header w) (Some (code, rw_Header w)) (rw_body w)).
Proof.
  intros E H. unfold rw_WriteHeader. rewrite E. destruct (Z.ltb_spec code 100), (Z.ltb_spec 999 code); try lia. cbn [orb].
  destruct (Z.leb_spec code 199); [lia|done].
Qed.

Lemma body_allowed code : 400 <= code < 600 -> bodyAllowedForStatus code = true.
Proof.
  intros H. unfold bodyAllowedForStatus. destruct (Z.leb_spec 100 code), (Z.leb_spec code 199); try lia; cbn;
    destruct (Z.eqb_spec code 204), (Z.eqb_spec code 304); lia || done.
Qed.

Lemma rw_Write_error data w code h : rw_sent w = Some (code, h) -> 400 <= code < 600 ->
  rw_Write data w = mkWriterState (rw_Header w) (Some (code, h)) (rw_body w +:+ data).
Proof. intros E H. unfold rw_Write. rewrite E. cbn. by rewrite body_allowed. Qed.

(** The document a client decodes. *)
Definition error_document (rt : string) (code : Z) (err : goerror) : json :=
  if seqb rt RequestTypeMessages
  then JObj [("error", JObj [("message", JStr (Error_text err)); ("type", JStr (anthropicErrorType code))]); ("type", JStr "error")]
  else JObj [("error", JObj [("code", JNum (Itoa code)); ("message", JStr (Error_text err)); ("type", JStr "gateway_error")])].

Lemma Format_sorted rt code err : sort_keys (Format (ErrorFormatterForRequestType rt) code err) = error_document rt code err.
Proof. unfold ErrorFormatterForRequestType, error_document. by destruct (seqb rt RequestTypeMessages). Qed.

Lemma error_document_ok rt code err : utf8_valid (ascii_list (Error_text err)) = true ->
  json_ok maxNestingDepth (error_document rt code err) = true.
Proof.
  intros U. apply (json_ok_mono _ 2); [apply Nat.leb_le; vm_compute; reflexivity|]. unfold error_document.
  assert (utf8_valid (ascii_list (anthropicErrorType code)) = true) as A
    by (unfold anthropicErrorType; repeat case_match; vm_compute; reflexivity).
  destruct (seqb rt RequestTypeMessages); cbn [json_ok forallb fst snd]; rewrite U, ?A, ?number_ok_Itoa; vm_compute; reflexivity.
Qed.

(** An error response is well formed: on a connection without a response yet, with no degrade configuration, the
    status is the code, the content type is JSON, and the body is valid JSON that
    decodes to the error document of the client's protocol, with the message
    unchanged (for a message in UTF-8). *)
Theorem error_response_readable (w : ResponseWriter) (code : Z) (err : goerror) (g : GatewayContext)
  (Hfresh : rw_sent w = None /\ rw_body w = "") (Hcode : 400 <= code < 600)
  (Hplain : degrade_config (Some g) = Ret None) (Hutf8 : utf8_valid (ascii_list (Error_text err)) = true) :
  exists w' h, writeError w code err (Some g) = Ret w' /\ rw_sent w' = Some (code, h) /\
    h !! "Content-Type" = Some ["application/json"] /\
    json_parse (rw_body w') = Some (error_document (RequestType g) code err).
Proof.
  destruct Hfresh as [Hs Hb]. unfold writeError. rewrite Hplain. cbn [go_bind].
  destruct (Z.eqb_spec code 0); [lia|]. cbn [fmap option_fmap option_map default]. unfold write_formatted.
  rewrite rw_WriteHeader_fresh by (done || lia). cbn [go_bind]. rewrite (rw_Write_error _ _ code (rw_Header (rw_Set "Content-Type" "application/json" w))) by done.
  eexists _, _. split; [reflexivity|]. cbn [rw_sent rw_body rw_Set]. split; [reflexivity|]. split; [apply lookup_insert_eq|].
  rewrite Hb.
  unfold Marshal. rewrite Format_sorted. apply encode_parse_line. by apply error_document_ok.
Qed.

Lemma error_response_readable_witness :
  exists w' h, writeError newResponse 429 (httpError 429 "rate limit exceeded")
      (Some (emptyContext <| RequestType := RequestTypeMessages |>)) = Ret w' /\
    rw_sent w' = Some (429, h) /\ h !! "Content-Type" = Some ["application/json"] /\
    json_parse (rw_body w') = Some (JObj [("error", JObj [("message", JStr "rate limit exceeded"); ("type", JStr "rate_limit_error")]);
                                          ("type", JStr "error")]).
Proof.
  assert (JObj [("error", JObj [("message", JStr "rate limit exceeded"); ("type", JStr "rate_limit_error")]); ("type", JStr "error")] =
    error_document (RequestType (emptyContext <| RequestType := RequestTypeMessages |>)) 429 (httpError 429 "rate limit exceeded"))
    as -> by (vm_compute; reflexivity).
  apply (error_response_readable newResponse 429 (httpError 429 "rate limit exceeded")
    (emptyContext <| RequestType := RequestTypeMessages |>)); [split; reflexivity|lia|reflexivity|vm_compute; reflexivity].
Defined.

(** A degrade configuration with a status outside 100..999 makes the error response
    panic. *)
Lemma degrade_code_panics w d : rw_sent w = None -> 0 < dc_ResponseCode d < 100 -> write_degraded w d = Panic.
Proof.
  intros E H. unfold write_degraded. destruct (Z.ltb_spec 0 (dc_ResponseCode d)); [|lia]. unfold rw_WriteHeader.
  cbn [rw_sent rw_Set]. rewrite E. destruct (Z.ltb_spec (dc_ResponseCode d) 100); [done|lia].
Qed.

(** * Error frames of a started stream *)

(** The event name and the data of an error frame. *)
Definition sse_error (IsPrint : list ascii -> bool) (f : ErrorFormatter) (message : string) : option string * string :=
  match f with
  | openaiErrorFormatter =>
      (None, json_text "{'error': {'message': " +:+ Quote IsPrint message +:+ json_text ", 'type': 'upstream_error'}}")
  | anthropicErrorFormatter =>
      (Some "error", json_text "{'type': 'error', 'error': {'type': 'upstream_error', 'message': " +:+
                       Quote IsPrint message +:+ "}}")
  end.

Definition sse_document (f : ErrorFormatter) (message : string) : json :=
  match f with
  | openaiErrorFormatter => JObj [("error", JObj [("message", JStr message); ("type", JStr "upstream_error")])]
  | anthropicErrorFormatter =>
      JObj [("type", JStr "error"); ("error", JObj [("type", JStr "upstream_error"); ("message", JStr message)])]
  end.

Lemma FormatSSE_frame IsPrint f code err :
  ascii_list (FormatSSE IsPrint f code err) = write_frame (sse_error IsPrint f (Error_text err)).
Proof.
  destruct f; unfold FormatSSE, sse_error, write_frame, writeSSEEvent, writeSSEData; rewrite !ascii_list_app, <- !app_assoc; reflexivity.
Qed.

Lemma sse_error_json IsPrint f m : printable (ascii_list m) = true ->
  json_parse (snd (sse_error IsPrint f m)) = Some (sse_document f m).
Proof.
  intros Hp. unfold json_parse, sse_error. destruct f; cbn [snd]; rewrite !ascii_list_app.
  - assert (forall x, lex LNone (ascii_list (json_text "{'error': {'message': ") ++ x) [] =
      lex LNone x [TColon; TStr "message"; TLBrace; TColon; TStr "error"; TLBrace]) as -> by reflexivity.
    rewrite lex_quoted by done. reflexivity.
  - assert (forall x, lex LNone (ascii_list (json_text "{'type': 'error', 'error': {'type': 'upstream_error', 'message': ") ++ x) [] =
      lex LNone x [TColon; TStr "message"; TComma; TStr "upstream_error"; TColon; TStr "type"; TLBrace; TColon; TStr "error";
                   TComma; TStr "error"; TColon; TStr "type"; TLBrace]) as -> by reflexivity.
    rewrite lex_quoted by done. reflexivity.
Qed.

Lemma printable_line_safe s : printable (ascii_list s) = true -> line_safe s.
Proof.
  unfold printable, line_safe. rewrite forallb_forall. intros H. apply Forall_forall. intros c Hc.
  apply list_elem_of_In, H, in_range_spec in Hc. destruct Hc as [Hc _]. split; intros ->; by apply Hc.
Qed.

Lemma sse_error_safe IsPrint f m : printable (ascii_list m) = true -> frame_safe (sse_error IsPrint f m).
Proof.
  intros Hp. destruct (quote_body_printable IsPrint _ Hp) as (_ & _ & P).
  assert (line_safe (Quote IsPrint m)) as Q.
  { apply printable_line_safe. unfold Quote. rewrite ascii_list_of. unfold printable in *. by rewrite !forallb_app, P. }
  assert (forall s, printable (ascii_list s) = true -> line_safe s) as A by exact printable_line_safe.
  destruct f; (split; [cbn [fst sse_error]; [done || by apply A]|cbn [snd sse_error]]);
    repeat apply line_safe_app; try done; apply A; vm_compute; reflexivity.
Qed.

(** The error that ends a started stream reaches the client: for a message of printable text, the frame the
    engine appends is read by an SSE parser as one event, whose data is valid JSON that
    carries the message, in the client's protocol. *)
Theorem sse_error_roundtrip (IsPrint : list ascii -> bool) (f : ErrorFormatter) (code : Z) (err : goerror)
  (Hprint : printable (ascii_list (Error_text err)) = true) :
  exists ev, snd (Feed NewSSEParser (ascii_list (FormatSSE IsPrint f code err))) = [ev] /\
    json_parse (ev_Data ev) = Some (sse_document f (Error_text err)).
Proof.
  pose proof (sse_error_safe IsPrint f _ Hprint) as Hs. rewrite FormatSSE_frame, Feed_blocks.
  cbn [snd NewSSEParser buf skipLeadingLF app]. rewrite strip_lf_false, normalize_no_cr by (by apply write_frame_no_cr).
  assert (write_frame (sse_error IsPrint f (Error_text err)) = concat (map write_frame [sse_error IsPrint f (Error_text err)]))
    as -> by (cbn [map concat]; by rewrite app_nil_r).
  rewrite blocks_frames by (by constructor). cbn [fst map omap list_omap].
  destruct (parse_frame _ Hs) as (ev & -> & Hd). exists ev. split; [done|]. rewrite Hd. by apply sse_error_json.
Qed.

Lemma sse_error_roundtrip_witness :
  exists ev, snd (Feed NewSSEParser (ascii_list (FormatSSE (fun _ => false) anthropicErrorFormatter 500 (errorf "reset by peer")))) = [ev] /\
    json_parse (ev_Data ev) = Some (sse_document anthropicErrorFormatter "reset by peer").
Proof. apply (sse_error_roundtrip (fun _ => false) anthropicErrorFormatter 500 (errorf "reset by peer")). vm_compute. reflexivity. Defined.

(** A control character in the message makes the frame invalid JSON: the verb [%q] escapes it in
    Go's way. *)
Lemma sse_error_control_char IsPrint code :
  json_parse (snd (sse_error IsPrint openaiErrorFormatter (String (byte_of 7) ""))) = None /\
  ascii_list (FormatSSE IsPrint openaiErrorFormatter code (errorf (String (byte_of 7) ""))) =
  write_frame (sse_error IsPrint openaiErrorFormatter (String (byte_of 7) "")).
Proof. split; [vm_compute; reflexivity|apply FormatSSE_frame]. Qed.

(** * Filter order *)

Lemma resolve_filters_spec {F} IsPrint kind (reg : gmap string F) names fs :
  resolve_filters IsPrint kind reg names = inl fs -> map (fun n => reg !! n) names = map Some fs.
Proof.
  revert fs. induction names as [|n names IH]; intros fs; cbn [resolve_filters]; [by intros [= <-]|].
  destruct (reg !! n) as [f|] eqn:E; [|done]. destruct (resolve_filters IsPrint kind reg names) as [gs|]; [|done].
  intros [= <-]. cbn [map]. by rewrite E, (IH gs eq_refl).
Qed.

(** A built pipeline runs its filters in the declared order: both lists are ascending in [Order], filters of the
    same order keep the sequence of the configuration, and nothing is lost or added:
    they are exactly the registered filters the configuration names. *)
Theorem pipeline_filter_order {W : Type} (IsPrint : list ascii -> bool) (inbound : gmap string (InboundFilter W))
  (outbound : gmap string (OutboundFilter W)) (build : option (InvokerConfig -> Invoker W + goerror))
  (cfg : PipelineConfig) (p : EnginePipeline W)
  (Hbuild : buildPipeline IsPrint inbound outbound build cfg = inl p) :
  exists ins outs,
    map (fun n => inbound !! n) (pc_InboundFilters cfg) = map Some ins /\
    map (fun n => outbound !! n) (pc_OutboundFilters cfg) = map Some outs /\
    pp_InboundFilters p ≡ₚ ins /\ pp_OutboundFilters p ≡ₚ outs /\
    StronglySorted (fun a b => if_Order a <= if_Order b) (pp_InboundFilters p) /\
    StronglySorted (fun a b => of_Order a <= of_Order b) (pp_OutboundFilters p) /\
    forall k, List.filter (fun f => if_Order f =? k) (pp_InboundFilters p) = List.filter (fun f => if_Order f =? k) ins.
Proof.
  unfold buildPipeline in Hbuild. destruct (resolve_filters _ _ inbound _) as [ins|] eqn:E1; [|done].
  destruct (resolve_filters _ _ outbound _) as [outs|] eqn:E2; [|done].
  destruct (buildInvoker build (pc_Invoker cfg)) as [i|]; [|done]. injection Hbuild as <-.
  exists ins, outs. cbn [pp_InboundFilters pp_OutboundFilters].
  split_and!; [exact (resolve_filters_spec _ _ _ _ _ E1)|exact (resolve_filters_spec _ _ _ _ _ E2)|apply sort_by_perm|apply sort_by_perm|
    apply (sort_by_sorted if_Order)|apply (sort_by_sorted of_Order)|intros k; apply (sort_by_stable if_Order)].
Qed.

Definition demo_inbound (name : string) (order : Z) : InboundFilter unit := mkInbound name order (fun w g => Ret (w, g, None)).
Definition demo_registry : gmap string (InboundFilter unit) :=
  {["rate_limit" := demo_inbound "rate_limit" 20; "auth" := demo_inbound "auth" 10]}.
Definition demo_config : PipelineConfig :=
  mkPipelineConfig "chat" ["rate_limit"; "auth"] [] [] (mkInvokerConfig "" [] "" 0).

Lemma pipeline_filter_order_witness :
  exists p, buildPipeline (fun _ => true) demo_registry ∅ (Some (fun _ => inl demo_none)) demo_config = inl p /\
    map if_Name (pp_InboundFilters p) = ["auth"; "rate_limit"] /\
    StronglySorted (fun a b => if_Order a <= if_Order b) (pp_InboundFilters p).
Proof.
  eexists. split; [vm_compute; reflexivity|]. split; [reflexivity|].
  destruct (pipeline_filter_order (fun _ => true) demo_registry ∅ (Some (fun _ => inl demo_none)) demo_config
    (mkEnginePipeline "chat" (mkPipeline demo_none (invoker_registry (Some (fun _ => inl demo_none)) (pc_Invoker demo_config) demo_none))
       [demo_inbound "auth" 10; demo_inbound "rate_limit" 20] [] ∅
       (Some (FallbackInvoker_Invoke (mkPipeline demo_none (invoker_registry (Some (fun _ => inl demo_none)) (pc_Invoker demo_config) demo_none))))))
    as (ins & outs & _ & _ & _ & _ & S & _); [vm_compute; reflexivity|exact S].
Defined.

(** * How a request is answered *)

(** What the client has received: the final status, once it is sent, and the bytes after it. *)
Definition received (rw : ResponseWriter) : option Z * string := (fst <$> rw_sent rw, rw_body rw).

(** A reply on top of it: its status counts only while none is sent (one below 200, apart
    from 101, announces the 200 that follows), its body only where the status allows one. *)
Definition reply (code : Z) (data : string) (c : option Z * string) : option Z * string :=
  let status := default (if (100 <=? code) && (code <=? 199) && negb (code =? 101) then 200 else code) (fst c) in
  (Some status, snd c +:+ (if bodyAllowedForStatus status then data else "")).

(** The substitute answer that a policy's first breaker configures for failures, if its body
    is not empty. *)
Definition substitute (g : GatewayContext) : option (Z * string) :=
  match p_CircuitBreakPolicies <$> gPolicy g with
  | Some (Some cb :: _) =>
      match cb_DegradeConfig cb with
      | Some d => if is_empty (dc_ResponseBody d) then None
                  else Some (if 0 <? dc_ResponseCode d then dc_ResponseCode d else 503, dc_ResponseBody d)
      | None => None
      end
  | _ => None
  end.

(** The answer to a failure: the substitute, or the error in the client's protocol. *)
Definition error_reply (code : Z) (err : goerror) (g : GatewayContext) : option Z * string -> option Z * string :=
  match substitute g with
  | Some (status, body) => reply status body
  | None => reply code (Marshal (Format (ErrorFormatterForRequestType (RequestType g)) code err) +:+ newline)
  end.

(** The tag that marks a stream of the protocol as complete. *)
Definition completion_tag (rt : string) : option string :=
  if seqb rt RequestTypeResponses then Some "response_completed_sent"
  else if seqb rt RequestTypeMessages then Some "message_stop_sent" else None.

(** How the call ended: its error, or that a started stream never completed. *)
Definition failure (g : GatewayContext) : option goerror :=
  match Err g, completion_tag (RequestType g) with
  | None, Some t => if IsStream g && (0 <? TTFT g) && negb (seqb (GetTagValue g t) "true") then Some premature else None
  | err, _ => err
  end.

(** A request is refused before the model is called, with a status and an error, or runs to
    its end, leaving the client with what the call has streamed. *)
Inductive outcome :=
  | Refused (code : Z) (err : goerror) (g : GatewayContext)
  | Finished (streamed : option Z * string) (g : GatewayContext).

Section answered.
Context {S : Type} (IsPrint : list ascii -> bool) (marshal : string -> string + goerror) (e : Engine S).
Notation W := (World S).

(** The client's answer, and the error the context ends with. *)
Definition response_to (now : Time) (o : outcome) : (option Z * string) * GatewayContext :=
  match o with
  | Refused code err g => (error_reply code err g (None, ""), g)
  | Finished c g =>
      if errors_Is (Err g) ErrClientDisconnected then (c, g)
      else (match failure g with
            | Some err => if 0 <? TTFT g then reply 200 (error_frames IsPrint g err now) c
                          else error_reply (getErrorCode err) err g c
            | None =>
                if IsStream g then c
                else match Response g, UpstreamBody g with
                     | Some v, _ => match marshal v with
                                    | inl data => reply 200 data c
                                    | inr err => reply 500 (Marshal (Format (ErrorFormatterForRequestType "") 500 err) +:+ newline) c
                                    end
                     | None, Some body => reply 200 body c
                     | None, None => c
                     end
            end, g <| Err := failure g |>)
  end.

(** The stages a request gets through, from its arrival in the world [w0]. *)
Section stages.
Context (i : incoming) (start now : Time) (w0 : W).

Definition named (w : W) (g : GatewayContext) : Prop :=
  exists g0, parseRequest i (AcquireContext emptyContext (in_Request i) start) = (g0, None) /\ resolve_alias e w0 g0 = (w, inl g).
Definition prepared (w : W) (g : GatewayContext) : Prop :=
  exists w1 g1, named w1 g1 /\ prepare e w1 g1 = (w, g, None).
Definition routed (p : EnginePipeline W) (w : W) (g : GatewayContext) : Prop :=
  exists w1 g1, prepared w1 g1 /\ matchPipeline e (RequestType g1) = Some p /\ resolve_policy e w1 g1 = (w, inl g).

(** The reservations of a refused request given back, where they are tracked. *)
Definition given_back (w : W) (g : GatewayContext) (w' : W) (g' : GatewayContext) : Prop :=
  match en_settlement e with
  | Some settle => if TrackLimitReservations g then (w', g') = fst (settle w g) else (w', g') = (w, g)
  | None => (w', g') = (w, g)
  end.

Inductive course : outcome -> Prop :=
  | bad_request g err :
      parseRequest i (AcquireContext emptyContext (in_Request i) start) = (g, Some err) -> course (Refused 400 err g)
  | unknown_model g w err :
      parseRequest i (AcquireContext emptyContext (in_Request i) start) = (g, None) ->
      resolve_alias e w0 g = (w, inr err) -> course (Refused 502 err g)
  | not_prepared w g w' g' err :
      named w g -> prepare e w g = (w', g', Some err) -> course (Refused (getErrorCode err) err g')
  | no_pipeline w g :
      prepared w g -> matchPipeline e (RequestType g) = None ->
      course (Refused 500 (errorf ("no pipeline matched for request type: " +:+ RequestType g)) g)
  | no_policy p w g w' err :
      prepared w g -> matchPipeline e (RequestType g) = Some p -> resolve_policy e w g = (w', inr err) -> course (Refused 403 err g)
  | not_admitted p w g w1 g1 err w2 g2 w3 g3 :
      routed p w g -> run_inbound (pp_InboundFilters p) w g = Ret (w1, g1, Some err) ->
      given_back w1 (g1 <| Err := Some err |>) w2 g2 -> run_safe (pp_OutboundFilters p) w2 g2 = Ret (w3, g3) ->
      course (Refused (getErrorCode err) err g3)
  | called p w g w1 g1 w2 g2 err w3 g3 :
      routed p w g -> run_inbound (pp_InboundFilters p) w g = Ret (w1, g1, None) -> invoke e p w1 g1 = (w2, g2, err) ->
      run_outbound e (pp_CriticalOutboundFilters p) (pp_OutboundFilters p) now w2 (g2 <| Err := err |>) = Ret (w3, g3) ->
      course (Finished (received (wo_rw w2)) g3).
End stages.

(** The filters, the settlement and the preparation of smart routing send nothing to the
    client; the invokers are free to. *)
Definition silent (r : go (W * GatewayContext * option goerror)) (w : W) : Prop :=
  match r with Ret (w', _, _) => received (wo_rw w') = received (wo_rw w) | Panic => True end.
Definition silent_filters (p : EnginePipeline W) : Prop :=
  Forall (fun f => forall w g, silent (if_OnRequest f w g) w) (pp_InboundFilters p) /\
  Forall (fun f => forall w g, silent (of_OnResponse f w g) w) (pp_OutboundFilters p).
Definition silent_engine : Prop :=
  (forall w g, silent (Ret (prepare e w g)) w) /\
  (forall settle w g, en_settlement e = Some settle -> silent (Ret (settle w g)) w) /\
  forall rt p, matchPipeline e rt = Some p -> silent_filters p.

Lemma rw_Write_received data w : received (rw_Write data w) = reply 200 data (received w).
Proof. unfold received, reply, rw_Write. destruct (rw_sent w) as [[c h]|]; cbn; [|done]. destruct (bodyAllowedForStatus c); [done|]. by rewrite append_nil_r. Qed.

Lemma rw_Set_received k v w : received (rw_Set k v w) = received w.
Proof. done. Qed.

(** A status followed by a body. *)
Lemma respond_received code data w w' : (let! w := rw_WriteHeader code w in Ret (rw_Write data w)) = Ret w' ->
  received w' = reply code data (received w).
Proof.
  intros (w1 & E & [= <-])%go_bind_Ret. rewrite rw_Write_received. revert E. unfold rw_WriteHeader, received, reply.
  destruct (rw_sent w) as [[c h]|] eqn:Es; [intros [= <-]; by rewrite Es|].
  destruct (Z.ltb_spec code 100), (Z.ltb_spec 999 code); cbn [orb]; try done.
  destruct (Z.leb_spec 100 code); [|lia]. cbn [andb]. destruct ((code <=? 199) && negb (code =? 101)); intros [= <-]; cbn; [by rewrite Es|done].
Qed.

Lemma writeError_received rw code err g rw' : code <> 0 -> writeError rw code err (Some g) = Ret rw' ->
  received rw' = error_reply code err g (received rw).
Proof.
  intros Hc. unfold writeError, error_reply, substitute. destruct (Z.eqb_spec code 0); [done|]. cbn [default fmap option_fmap option_map].
  intros (d & Ed & R)%go_bind_Ret. revert Ed R. unfold degrade_config. cbn [mbind option_bind]. 
  assert (forall rt, write_formatted rw code err rt = Ret rw' ->
    received rw' = reply code (Marshal (Format (ErrorFormatterForRequestType rt) code err) +:+ newline) (received rw)) as A.
  { intros rt R. apply respond_received in R. by rewrite R. }
  destruct (gPolicy g) as [p|]; cbn [fmap option_fmap option_map]; [|intros [= <-]; apply A].
  destruct (p_CircuitBreakPolicies p) as [|[cb|] l]; [intros [= <-]; apply A| |done].
  intros [= <-]. destruct (cb_DegradeConfig cb) as [d|]; [|apply A]. destruct (is_empty (dc_ResponseBody d)); [apply A|].
  unfold write_degraded. intros R%respond_received. by rewrite R.
Qed.

Lemma fail_received (w : W) code err g w' g' : code <> 0 -> fail w code err g = Ret (w', g') ->
  received (wo_rw w') = error_reply code err g (received (wo_rw w)) /\ g' = g.
Proof. intros Hc. unfold fail. intros (rw & E & [= <- <-])%go_bind_Ret. by apply writeError_received in E. Qed.

Lemma run_inbound_silent fs : Forall (fun f : InboundFilter W => forall w g, silent (if_OnRequest f w g) w) fs ->
  forall w g, silent (run_inbound fs w g) w.
Proof.
  induction 1 as [|f fs Hf _ IH]; intros w g; cbn [run_inbound]; [done|]. specialize (Hf w g).
  destruct (if_OnRequest f w g) as [[[w1 g1] [e1|]]|]; cbn [go_bind]; try done. specialize (IH w1 g1).
  unfold silent in *. destruct (run_inbound fs w1 g1) as [[[w2 g2] e2]|]; [congruence|done].
Qed.

Lemma run_safe_silent fs : Forall (fun f : OutboundFilter W => forall w g, silent (of_OnResponse f w g) w) fs ->
  forall w g w' g', run_safe fs w g = Ret (w', g') -> received (wo_rw w') = received (wo_rw w).
Proof.
  induction 1 as [|f fs Hf _ IH]; intros w g w' g'; cbn [run_safe]; [by intros [= <- <-]|].
  destruct (of_InboundSafe f); [|apply IH]. intros ([[w1 g1] e1] & E & R)%go_bind_Ret. specialize (Hf w g). rewrite E in Hf.
  apply IH in R. cbn in Hf. congruence.
Qed.

Lemma run_outbound_silent critical now fs : Forall (fun f : OutboundFilter W => forall w g, silent (of_OnResponse f w g) w) fs ->
  forall w g w' g', run_outbound e critical fs now w g = Ret (w', g') -> received (wo_rw w') = received (wo_rw w).
Proof.
  induction 1 as [|f fs Hf _ IH]; intros w g w' g'; cbn [run_outbound]; [by intros [= <- <-]|].
  intros ([[w1 g1] [e1|]] & E & R)%go_bind_Ret; specialize (Hf w g); rewrite E in Hf; cbn in Hf; apply IH in R; [|congruence].
  rewrite R, <- Hf. destruct (en_compQueue e); [|done]. by destruct (bool_decide _).
Qed.

Lemma check_completion_failure g : check_completion g = g <| Err := failure g |>.
Proof.
  unfold check_completion, failure, completion_tag. destruct (Err g) eqn:Ee; [destruct g; cbn in *; by subst|].
  assert (g = g <| Err := None |>) as Eg by (destruct g; cbn in *; by subst).
  destruct (seqb (RequestType g) RequestTypeResponses); [|destruct (seqb (RequestType g) RequestTypeMessages)];
    destruct (IsStream g && (0 <? TTFT g)); cbn [andb]; try exact Eg; destruct (seqb (GetTagValue g _) "true"); cbn [negb]; done.
Qed.

Lemma write_response_received (w : W) g now w' g' c : received (wo_rw w) = c ->
  write_response IsPrint marshal w g now = Ret (w', g') -> (received (wo_rw w'), g') = response_to now (Finished c g).
Proof.
  intros <-. unfold write_response, response_to. destruct (errors_Is (Err g) ErrClientDisconnected); [by intros [= <- <-]|].
  rewrite check_completion_failure. set (h := g <| Err := failure g |>).
  change (Err h) with (failure g). change (TTFT h) with (TTFT g). change (IsStream h) with (IsStream g).
  change (Response h) with (Response g). change (UpstreamBody h) with (UpstreamBody g).
  destruct (failure g) as [err|].
  - destruct (0 <? TTFT g).
    + intros [= <- <-]. cbn [wo_rw set_rw]. by rewrite rw_Write_received.
    + intros [E ->]%fail_received; [by rewrite E|pose proof (getErrorCode_range err); lia].
  - destruct (IsStream g); [by intros [= <- <-]|]. destruct (Response g) as [v|].
    + intros (rw & E & [= <- <-])%go_bind_Ret. cbn [wo_rw set_rw]. unfold writeJSON in E. destruct (marshal v) as [d|er].
      * apply respond_received in E. by rewrite E.
      * apply respond_received in E. by rewrite E.
    + destruct (UpstreamBody g) as [b|]; [|by intros [= <- <-]].
      intros (rw & E & [= <- <-])%go_bind_Ret. cbn [wo_rw set_rw]. apply respond_received in E. by rewrite E.
Qed.

Section run.
Context (i : incoming) (start now : Time) (w0 : W) (Hs : silent_engine) (H0 : received (wo_rw w0) = (None, "")).
Notation course := (course i start now w0).

Lemma refused_answered (w : W) code err g w' g' : received (wo_rw w) = (None, "") -> code <> 0 -> course (Refused code err g) ->
  fail w code err g = Ret (w', g') -> exists o, course o /\ (received (wo_rw w'), g') = response_to now o.
Proof. intros Hw Hc Co [E ->]%fail_received; [|done]. exists (Refused code err g). split; [done|]. by rewrite E, Hw. Qed.

Lemma code_nonzero err : getErrorCode err <> 0.
Proof. pose proof (getErrorCode_range err). lia. Qed.

Lemma run_pipeline_answered p (w : W) g w' g' : silent_filters p -> received (wo_rw w) = (None, "") -> routed i start w0 p w g ->
  run_pipeline IsPrint marshal e p w g now = Ret (w', g') -> exists o, course o /\ (received (wo_rw w'), g') = response_to now o.
Proof.
  intros [Fi Fo] Hw R. unfold run_pipeline. intros ([[w1 g1] [err|]] & E & Q)%go_bind_Ret.
  all: pose proof (run_inbound_silent _ Fi w g) as S1; rewrite E in S1; cbn in S1.
  - assert (forall w2 g2, given_back w1 (g1 <| Err := Some err |>) w2 g2 -> received (wo_rw w2) = received (wo_rw w1) ->
      (let! wg := run_safe (pp_OutboundFilters p) w2 g2 in fail (fst wg) (getErrorCode err) err (snd wg)) = Ret (w', g') ->
      exists o, course o /\ (received (wo_rw w'), g') = response_to now o) as A.
    { intros w2 g2 G S2 ([w3 g3] & E3 & F)%go_bind_Ret. pose proof (run_safe_silent _ Fo _ _ _ _ E3) as S3. cbn [fst snd] in F.
      eapply refused_answered; [|apply code_nonzero|by eapply not_admitted|exact F]. congruence. }
    revert Q. unfold reject. unfold given_back in A. set (ge := g1 <| Err := Some err |>) in *. clearbody ge.
    destruct Hs as (_ & Hset & _). destruct (en_settlement e) as [settle|]; [|destruct (TrackLimitReservations ge); by apply A].
    destruct (TrackLimitReservations ge); [|by apply A]. specialize (Hset settle w1 ge eq_refl).
    destruct (settle w1 ge) as [[w2 g2] er]. by apply A.
  - destruct (invoke e p w1 g1) as [[w2 g2] er] eqn:Ei. apply go_bind_Ret in Q as ([w3 g3] & E3 & Q).
    pose proof (run_outbound_silent _ _ _ Fo _ _ _ _ E3) as S3. cbn [fst snd] in Q.
    exists (Finished (received (wo_rw w2)) g3). split; [by eapply called|]. by eapply write_response_received.
Qed.

Lemma handle_model_answered (w : W) g w' g' : received (wo_rw w) = (None, "") -> named i start w0 w g ->
  handle_model IsPrint marshal e w g now = Ret (w', g') -> exists o, course o /\ (received (wo_rw w'), g') = response_to now o.
Proof.
  intros Hw N. pose proof Hs as (Hp & _ & Hm). unfold handle_model. specialize (Hp w g).
  destruct (prepare e w g) as [[w1 g1] [er|]] eqn:Ep; cbn in Hp; rewrite Hw in Hp.
  { apply refused_answered; [done|apply code_nonzero|by eapply not_prepared]. }
  assert (prepared i start w0 w1 g1) as P by (by eexists _, _).
  destruct (matchPipeline e (RequestType g1)) as [p|] eqn:Em; [|apply refused_answered; [done|done|by eapply no_pipeline]].
  destruct (resolve_policy e w1 g1) as [w2 [g2|er]] eqn:Er.
  - apply run_pipeline_answered; [by eapply Hm| |by eexists _, _]. revert Er Hp. clear. unfold resolve_policy.
    destruct (en_policyProvider e) as [get|]; [|by intros [= <- <-]].
    destruct (get _ _ _ _) as [s [q|er]]; [|done]. by intros [= <- <-].
  - apply refused_answered; [|done|by eapply no_policy]. revert Er Hp. clear. unfold resolve_policy.
    destruct (en_policyProvider e) as [get|]; [|done]. destruct (get _ _ _ _) as [s [q|er']]; [done|]. by intros [= <- <-].
Qed.

Lemma HandleRequest_answered w' g' : HandleRequest IsPrint marshal e i start now w0 = Ret (w', g') ->
  exists o, course o /\ (received (wo_rw w'), g') = response_to now o.
Proof.
  unfold HandleRequest. destruct (parseRequest i _) as [g [err|]] eqn:Ep; [by apply refused_answered; [| |eapply bad_request]|].
  destruct (resolve_alias e w0 g) as [w1 [g1|er]] eqn:Ea.
  - apply handle_model_answered; [|by exists g]. revert Ea H0. clear. unfold resolve_alias.
    destruct (en_aliasService e) as [resolve|]; [|by intros [= <- <-]]. destruct (is_empty _); [by intros [= <- <-]|].
    destruct (resolve _ _) as [s [m|er]]; [|done]. by intros [= <- <-].
  - apply refused_answered; [|done|by eapply unknown_model]. revert Ea H0. clear. unfold resolve_alias.
    destruct (en_aliasService e) as [resolve|]; [|done]. destruct (is_empty _); [done|].
    destruct (resolve _ _) as [s [m|er']]; [done|]. by intros [= <- <-].
Qed.
End run.
End answered.

(** C25: every request that is handled is answered, and by what became of it. A refusal -
    an unreadable body 400, an unknown model 502, no policy 403, no pipeline 500, a
    rejection by smart routing or a filter its own code - reaches the client with that
    status and the error in its protocol, or as the configured substitute. A call that fails
    before its first byte does the same with the error's code; one that fails later, a stream
    without its completion mark included, adds the error frames to the stream and keeps the
    status. A success that is not streamed is answered 200 with the response or the upstream
    body, unchanged, or 500 if the response cannot be encoded; to a complete stream, and to a
    client that is gone, nothing is added. Filters, settlement and smart preparation are
    taken not to write to the client; the invokers may. *)
Theorem request_answered {S : Type} (IsPrint : list ascii -> bool) (marshal : string -> string + goerror) (e : Engine S)
  (i : incoming) (start now : Time) (s : S) (w' : World S) (g' : GatewayContext)
  (Hsilent : silent_engine e) (Hrun : HandleRequest IsPrint marshal e i start now (mkWorld newResponse s) = Ret (w', g')) :
  exists o, course e i start now (mkWorld newResponse s) o /\ (received (wo_rw w'), g') = response_to IsPrint marshal now o.
Proof. by eapply HandleRequest_answered. Qed.

(** An engine with one pipeline, whose filter sets a header and whose invoker leaves a body to
    write or, for a stream, sends a frame and fails. *)
Definition demo_pipeline : EnginePipeline (World unit) :=
  let call : Invoker (World unit) := fun w g =>
    if IsStream g then (mkWorld (rw_Write "data: x" (wo_rw w)) tt, g <| TTFT := 3 |>, Some (errorf "reset by peer"))
    else (w, g <| UpstreamBody := Some "{}" |>, None) in
  mkEnginePipeline "chat" (mkPipeline call ∅)
    [mkInbound "tagging" 12 (fun w g => Ret (mkWorld (rw_Set "X-Tag" "a" (wo_rw w)) tt, g, None))] [] ∅ (Some call).
Definition demo_engine : Engine unit := mkEngine {["chat_completion" := demo_pipeline]} None None None None None.
Definition demo_request (body : string) : incoming :=
  mkIncoming (mkRequest {["X-User-Id" := ["u1"]]} None []) "/v1/chat/completions" (Some (inl (json_text body))).

Lemma demo_engine_silent : silent_engine demo_engine.
Proof.
  split_and!; [done|done|]. intros rt p Hp. assert (p = demo_pipeline) as ->.
  { unfold matchPipeline in Hp. cbn [en_pipelines demo_engine] in Hp.
    assert (forall k q, ({["chat_completion" := demo_pipeline]} : gmap string _) !! k = Some q -> q = demo_pipeline) as A
      by (intros k q [_ <-]%lookup_singleton_Some; done).
    destruct (_ !! rt) eqn:E1 in Hp; [injection Hp as <-; by eapply A|].
    destruct (if seqb rt _ then _ else _) eqn:E2 in Hp; [|by eapply A].
    injection Hp as <-. destruct (seqb rt RequestTypeImageGeneration); [by eapply A|done]. }
  split; repeat constructor.
Qed.

(** A stream that breaks: the client has its status and the frame, then the error frame. *)
Lemma request_answered_witness :
  let i := demo_request "{'model':'m','stream':true}" in
  exists w' g' o, HandleRequest (fun _ => true) (fun v => inl v) demo_engine i 5 9 (mkWorld newResponse tt) = Ret (w', g') /\
    course demo_engine i 5 9 (mkWorld newResponse tt) o /\
    (received (wo_rw w'), g') = response_to (fun _ => true) (fun v => inl v) 9 o /\
    received (wo_rw w') = (Some 200, "data: x" +:+ newline +:+ FormatSSE (fun _ => true) openaiErrorFormatter 500 (errorf "reset by peer")).
Proof.
  intros i.
  destruct (HandleRequest (fun _ => true) (fun v => inl v) demo_engine i 5 9 (mkWorld newResponse tt)) as [[w' g']|] eqn:E;
    [|vm_compute in E; discriminate].
  destruct (request_answered (fun _ => true) (fun v => inl v) demo_engine i 5 9 tt w' g' demo_engine_silent E) as (o & C & A).
  exists w', g', o. split; [reflexivity|]. split; [exact C|]. split; [exact A|].
  revert E. clear. vm_compute HandleRequest. intros [= <- _]. vm_compute. reflexivity.
Defined.

Example body_answered : exists w' g',
  HandleRequest (fun _ => true) (fun v => inl v) demo_engine (demo_request "{'model':'m'}") 5 9 (mkWorld newResponse tt) = Ret (w', g') /\
  received (wo_rw w') = (Some 200, "{}") /\ UserID g' = "u1" /\ Model g' = "m".
Proof. eexists _, _. split_and!; vm_compute; reflexivity. Qed.

(** * Streams *)

(** A started stream is never overwritten: once the first byte is out, the engine adds nothing to a stream that
    completed, and to a failed one only the error frames at its end; the status
    and headers the client already has stay, and there is no JSON error body. *)
Theorem started_stream_kept {S : Type} (IsPrint : list ascii -> bool) (marshal : string -> string + goerror)
  (w w' : World S) (g g' : GatewayContext) (now : Time) (code : Z) (h : headers)
  (Hsent : rw_sent (wo_rw w) = Some (code, h)) (Hbody : bodyAllowedForStatus code = true)
  (Hstarted : IsStream g = true /\ 0 < TTFT g)
  (Hrun : write_response IsPrint marshal w g now = Ret (w', g')) :
  rw_sent (wo_rw w') = Some (code, h) /\ wo_st w' = wo_st w /\
  match Err (check_completion g) with
  | Some err => rw_body (wo_rw w') = rw_body (wo_rw w) +:+
      (if errors_Is (Err g) ErrClientDisconnected then "" else error_frames IsPrint (check_completion g) err now)
  | None => rw_body (wo_rw w') = rw_body (wo_rw w)
  end.
Proof.
  destruct Hstarted as [Hst Ht]. unfold write_response in Hrun.
  assert (IsStream (check_completion g) = true /\ 0 < TTFT (check_completion g)) as [Hst' Ht'].
  { unfold check_completion. destruct (Err g); [done|]. destruct (IsStream g && (0 <? TTFT g)); [|done].
    destruct (if seqb _ _ then _ else _); [|done]. by destruct (seqb _ "true"). }
  destruct (errors_Is (Err g) ErrClientDisconnected) eqn:Ed.
  { injection Hrun as <- <-. unfold check_completion. destruct (Err g) as [e|] eqn:Ee; [|done].
    rewrite ?Ee. by rewrite append_nil_r. }
  revert Hrun. destruct (Err (check_completion g)) as [err|].
  - destruct (Z.ltb_spec 0 (TTFT (check_completion g))); [|lia]. intros [= <- <-]. unfold set_rw, rw_Write. cbn [wo_rw wo_st].
    rewrite Hsent. cbn. by rewrite Hbody.
  - rewrite Hst'. by intros [= <- <-].
Qed.

Lemma started_stream_kept_witness :
  let g := emptyContext <| IsStream := true |> <| TTFT := 3 |> <| RequestType := RequestTypeMessages |>
             <| Tags := Some {["message_stop_sent" := "true"]} |> in
  let w := mkWorld (rw_Write "data: x" newResponse) tt in
  exists w' g', write_response (fun _ => true) (fun v => inl v) w g 9 = Ret (w', g') /\
    rw_sent (wo_rw w') = Some (200, ∅) /\ rw_body (wo_rw w') = "data: x".
Proof.
  intros g w. eexists _, _. split; [vm_compute; reflexivity|].
  destruct (started_stream_kept (fun _ => true) (fun v => inl v) w w g g 9 200 ∅) as (A & _ & B);
    [reflexivity|reflexivity|split; [reflexivity|vm_compute; reflexivity]|vm_compute; reflexivity|].
  split; [exact A|vm_compute; reflexivity].
Defined.
