(* ===== verification/Providers.v ===== *)
(** pkg/llm/providers: the invokers that translate between protocols (openai_messages.go,
    openai_responses.go, anthropic_responses.go), the Anthropic and Gemini providers
    (anthropic.go, anthropic_messages.go, gemini.go), and the local answer to connectivity
    probes (pkg/llm/probe.go). *)

From Stdlib Require Import Ascii.
From S2P Require Import Prelude GoFloat GoStrings GoTime GoJson GoPrint Matcher Policy Types Context Http.
From S2P Require Import Translate TranslateWire TranslateStream TranslateMessages TranslateResponses TranslateResponsesMessages TranslateResponsesStream.
From S2P Require Import Store Limiter Settlement Sse SmartRequest Upstream OpenAI.
From S2P Require Import Compensation Balancers Fallback Engine.

(** * Shared parts *)

Definition unix_nano (now : Time) : Z := now - 62135596800 * Second.
Definition unix_seconds (now : Time) : Z := unix_nano now / Second.

(** The model name the client knows. *)
Definition responsesReplyModel (g : GatewayContext) : string := if is_empty (OriginalModel g) then Model g else OriginalModel g.

(** The version header of an Anthropic client. *)
Definition client_version (g : GatewayContext) : string :=
  match Request g with Some r => header_Get (req_Header r) "anthropic-version" | None => "" end.
Definition forward_version (g : GatewayContext) (rw : ResponseWriter) : ResponseWriter :=
  if is_empty (client_version g) then rw else rw_Set "anthropic-version" (client_version g) rw.

Definition context_usage (g : GatewayContext) : TokenUsage := mkUsage (InputTokens g) (OutputTokens g) (CachedTokens g) (CacheCreationTokens g).
Definition usage_counts (u : TokenUsage) : usage4 := (tu_Input u, tu_Output u, tu_Cached u, tu_Created u).
Definition meta_counts (m : StreamChunkMeta) : usage4 := (sm_InputTokens m, sm_OutputTokens m, sm_CachedTokens m, sm_CacheCreationTokens m).

(** A frame written to the client. *)
Definition frame_out (write : bytes -> option goerror) (rw : ResponseWriter) (frame : bytes) : ResponseWriter * option goerror :=
  match write frame with Some e => (rw, Some e) | None => (rw_Write (string_of frame) rw, None) end.

Definition doc_text (j : json) : string := string_of (json_encode j).
Definition messages_frame (e : MessagesStreamEvent) : bytes := writeSSEEvent (me_Event e) (doc_text (me_Data e)).
Definition responses_frame (e : ResponsesStreamEvent) : bytes := writeSSEEvent (re_Event e) (doc_text (re_Data e)).

(** * Connectivity probes (probe.go) *)

Definition alnum (c : ascii) : bool := let n := byte_val c in in_range 97 122 n || in_range 65 90 n || in_range 48 57 n.

Definition normalizeAnthropicID (id : string) : string :=
  if is_empty id then "msg_mockprobe1234567890"
  else
    let orig := if HasPrefix id "chatcmpl-" then string_drop 9 id else if HasPrefix id "msg_" then string_drop 4 id else id in
    let res := "msg_" +:+ string_of (List.filter alnum (ascii_list orig)) in
    if (String.length res <=? 4)%nat then "msg_mockprobe1234567890" else res.

(** One message "." with a limit of one token. *)
Definition is_probe (N : JsonNum) (payload : obj) : bool :=
  match as_float N (get "max_tokens" payload), as_list (get "messages" payload) with
  | Some x, Some [JObj m] => feq x (of_int 1) && bool_decide (as_string (get "content" m) = Some ".")
  | _, _ => false
  end.

Definition probe_usage : json := JObj [("input_tokens", num 5); ("output_tokens", num 1)].

Definition probe_events (msgID model : string) : list (string * json) :=
  [("message_start", JObj [("type", JStr "message_start"); ("message", JObj [("id", JStr msgID); ("type", JStr "message"); ("role", JStr "assistant");
      ("content", JArr []); ("model", JStr model); ("stop_reason", JNull); ("stop_sequence", JNull); ("usage", probe_usage)])]);
   ("content_block_start", JObj [("type", JStr "content_block_start"); ("index", num 0); ("content_block", JObj [("type", JStr "text"); ("text", JStr "")])]);
   ("content_block_delta", JObj [("type", JStr "content_block_delta"); ("index", num 0); ("delta", JObj [("type", JStr "text_delta"); ("text", JStr ".")])]);
   ("content_block_stop", JObj [("type", JStr "content_block_stop"); ("index", num 0)]);
   ("message_delta", JObj [("type", JStr "message_delta"); ("delta", JObj [("stop_reason", JStr "max_tokens"); ("stop_sequence", JNull)]);
      ("usage", JObj [("output_tokens", num 1)])]);
   ("message_stop", JObj [("type", JStr "message_stop")])].

Definition probe_response (msgID model : string) : json :=
  JObj [("id", JStr msgID); ("type", JStr "message"); ("role", JStr "assistant"); ("model", JStr model);
        ("content", JArr [JObj [("type", JStr "text"); ("text", JStr ".")]]); ("stop_reason", JStr "max_tokens"); ("stop_sequence", JNull); ("usage", probe_usage)].

Fixpoint write_probe (write : bytes -> option goerror) (rw : ResponseWriter) (es : list (string * json)) : ResponseWriter * option goerror :=
  match es with
  | [] => (rw, None)
  | (event, doc) :: r =>
      match frame_out write rw (writeSSEEvent event (doc_text doc)) with
      | (rw, Some e) => (rw, Some e)
      | (rw, None) => write_probe write rw r
      end
  end.

Definition probe_counts (g : GatewayContext) (now : Time) : GatewayContext := TriggerFirstByte (g <| InputTokens := 5 |> <| OutputTokens := 1 |>) now.

(** [None]: not a probe. *)
Definition TryMockMessagesProbe (N : JsonNum) (write : bytes -> option goerror) (g : GatewayContext) (rw : ResponseWriter) (now : Time) :
  option (GatewayContext * ResponseWriter * option goerror) :=
  if is_empty (RawBody g) then None
  else match decode_map N (RawBody g) with
  | None => None
  | Some payload =>
      if negb (is_probe N (default [] payload)) then None
      else
        let rw := match Request g with
                  | Some _ => rw_Set "anthropic-version" (if is_empty (client_version g) then "2023-06-01" else client_version g) rw
                  | None => rw
                  end in
        let msgID := normalizeAnthropicID ("probe" +:+ Itoa (unix_nano now)) in
        if IsStream g then
          let rw := commit_ok (rw_Set "X-Accel-Buffering" "no" (stream_headers rw)) in
          match write_probe write rw (probe_events msgID (responsesReplyModel g)) with
          | (rw, Some e) => Some (g, rw, Some e)
          | (rw, None) => Some (probe_counts g now, rw, None)
          end
        else
          let body := Marshal (probe_response msgID (responsesReplyModel g)) in
          Some (probe_counts (g <| UpstreamBody := Some body |> <| Response := Some body |>) now, rw, None)
  end.

(** * OpenAI: Messages requests (openai_messages.go) *)

Definition markMessagesStreamCompleted (g : GatewayContext) : GatewayContext := put_tag "message_stop_sent" "true" g.
Definition setStreamDiagTag (k v : string) (g : GatewayContext) : GatewayContext := if is_empty v then g else put_tag k v g.

Fixpoint write_messages (write : bytes -> option goerror) (g : GatewayContext) (rw : ResponseWriter) (es : list MessagesStreamEvent) :
  GatewayContext * ResponseWriter * option goerror :=
  match es with
  | [] => (g, rw, None)
  | e :: r =>
      match frame_out write rw (messages_frame e) with
      | (rw, Some err) => (g, rw, Some err)
      | (rw, None) => write_messages write (g <| TransmittedChars := wrap64 (TransmittedChars g + me_TransmittedChars e) |>) rw r
      end
  end.

Record messages_relay := mkMessagesRelay {
  mv_g : GatewayContext; mv_rw : ResponseWriter; mv_parser : SSEParser; mv_stream : ChatToMessagesStream; mv_firstRead : bool
}.
#[global] Instance eta_messages_relay : Eta messages_relay := fun r => mkMessagesRelay (mv_g r) (mv_rw r) (mv_parser r) (mv_stream r) (mv_firstRead r).

(** Only positive input and output counts are taken over. *)
Definition take_counts (m : StreamChunkMeta) (g : GatewayContext) : GatewayContext :=
  let g := if 0 <? sm_InputTokens m then g <| InputTokens := sm_InputTokens m |> else g in
  if 0 <? sm_OutputTokens m then g <| OutputTokens := sm_OutputTokens m |> else g.

Fixpoint feed_messages (write : bytes -> option goerror) (r : messages_relay) (evs : list SSEEvent) : messages_relay * option goerror :=
  match evs with
  | [] => (r, None)
  | ev :: rest =>
      let '(s, es, meta) := C2M_FeedJSON (mv_stream r) (if ev_Done ev then "[DONE]" else ev_Data ev) in
      match write_messages write (take_counts meta (mv_g r)) (mv_rw r) es with
      | (g, rw, Some e) => (r <| mv_g := g |> <| mv_rw := rw |> <| mv_stream := s |>, Some e)
      | (g, rw, None) => feed_messages write (r <| mv_g := g |> <| mv_rw := rw |> <| mv_stream := s |>) rest
      end
  end.

Definition is_html (chunk : bytes) : bool :=
  let t := TrimSpace (string_of chunk) in HasPrefix t "<!DOCTYPE" || HasPrefix t "<html" || HasPrefix t "<HTML".

(** One read of the loop; [Some None]: the end of the stream. *)
Definition messages_read (write : bytes -> option goerror) (now : Time) (r : messages_relay) (chunk : bytes) (e : read_end) :
  messages_relay * option (option goerror) :=
  let after (r : messages_relay) := match e with
    | ReadMore => None
    | ReadEOF => Some None
    | ReadErr err => Some (Some (wrap_error "read upstream stream: " err))
    end in
  match chunk with
  | [] => (r, after r)
  | _ =>
      if mv_firstRead r && is_html chunk
      then (r <| mv_firstRead := false |>, Some (Some (errorf "upstream returned HTML error response instead of SSE stream")))
      else
        let '(parser, evs) := Feed (mv_parser r) chunk in
        let r := r <| mv_firstRead := false |> <| mv_g := TriggerFirstByte (mv_g r) now |> <| mv_parser := parser |> in
        match feed_messages write r evs with
        | (r, Some err) => (r, Some (Some err))
        | (r, None) => (r, after r)
        end
  end.

Fixpoint messages_loop (write : bytes -> option goerror) (clock : nat -> Time) (r : messages_relay) (reads : list (bytes * read_end)) :
  option (messages_relay * option goerror) :=
  match reads with
  | [] => None
  | (chunk, e) :: rest =>
      match messages_read write (clock (length rest)) r chunk e with
      | (r, Some err) => Some (r, err)
      | (r, None) => messages_loop write clock r rest
      end
  end.

(** After the end of the stream. *)
Definition finish_messages (write : bytes -> option goerror) (r : messages_relay) : GatewayContext * ResponseWriter * option goerror :=
  let '(_, es, meta) := C2M_Finish (mv_stream r) (context_usage (mv_g r)) in
  if negb (is_empty (sm_ErrorMessage meta)) then
    let '(g, rw, _) := write_messages write (mv_g r) (mv_rw r) es in (g, rw, Some (errorf (sm_ErrorMessage meta)))
  else
    match write_messages write (mv_g r) (mv_rw r) es with
    | (g, rw, Some e) => (g, rw, Some e)
    | (g, rw, None) =>
        if sm_Completed meta then
          let g := markMessagesStreamCompleted g in
          let g := setStreamDiagTag "upstream_finish_reason" (sm_FinishReason meta) g in
          let g := setStreamDiagTag "anthropic_stop_reason" (sm_StopReason meta) g in
          let g := setStreamDiagTag "stream_saw_done" (if sm_SawDone meta then "true" else "false") g in
          let g := setStreamDiagTag "transmitted_chars" (Itoa (TransmittedChars g)) g in
          let g := setStreamDiagTag "text_chars" (Itoa (sm_TextChars meta)) g in
          let g := setStreamDiagTag "thinking_chars" (Itoa (sm_ThinkingChars meta)) g in
          (g, rw, None)
        else (g, rw, None)
    end.

Definition messages_headers (g : GatewayContext) (rw : ResponseWriter) : ResponseWriter :=
  commit_ok (forward_version g (rw_Set "X-Accel-Buffering" "no" (stream_headers rw))).

Definition api_error (message : string) : json :=
  JObj [("type", JStr "error"); ("error", JObj [("type", JStr "api_error"); ("message", JStr message)])].

(** An answer below 400 that is not 200. *)
Definition messages_bad_status (g : GatewayContext) (rw : ResponseWriter) (status : Z) (body : string) : go (GatewayContext * ResponseWriter * option goerror) :=
  let! rw := rw_WriteHeader status (forward_version g (rw_Set "Content-Type" "application/json; charset=utf-8" rw)) in
  let text := Itoa status +:+ ": " +:+ body in
  Ret (g <| UpstreamBody := Some body |>, rw_Write (Marshal (api_error ("Upstream API returned status " +:+ text))) rw, Some (errorf ("upstream returned status " +:+ text))).

Definition handleMessagesStream (E : provider_env) (g : GatewayContext) (rw : ResponseWriter) (resp : http_Response) (b : upstream_body) :
  go (option (GatewayContext * ResponseWriter * option goerror)) :=
  if negb (resp_StatusCode resp =? 200) then let! x := messages_bad_status g rw (resp_StatusCode resp) (string_of (b_data b)) in Ret (Some x)
  else
    let r := mkMessagesRelay g (messages_headers g rw) NewSSEParser (NewChatToMessagesStream (responsesReplyModel g) (context_usage g)) true in
    Ret (match messages_loop (pe_write E) (pe_clock E) r (pe_reads E b) with
         | None => None
         | Some (r, Some e) => Some (mv_g r, mv_rw r, Some e)
         | Some (r, None) => Some (finish_messages (pe_write E) r)
         end).

(** [translateNonStreamResponse]. *)
Definition translateNonStreamResponse (E : provider_env) (g : GatewayContext) (rw : ResponseWriter) : GatewayContext * ResponseWriter * option goerror :=
  match ChatCompletionToMessages (pe_num E) (body_bytes (UpstreamBody g)) (responsesReplyModel g) with
  | inr e => (g, rw, Some e)
  | inl (body, u) =>
      let rw := forward_version g rw in
      let g := g <| UpstreamBody := Some body |> in
      match decode_map (pe_num E) body with
      | None => (g, rw, Some (pe_json_error E body))
      | Some _ => (g <| Response := Some body |> <| InputTokens := tu_Input u |> <| OutputTokens := tu_Output u |>, rw, None)
      end
  end.

Definition closed_exchange (x : GatewayContext * ResponseWriter * option goerror) (a : attempt_state) : exchange :=
  let '(g, rw, err) := x in mkExchange g rw a err None.

Definition openai_messages (E : provider_env) (p : OpenAIProvider) (g : GatewayContext) (rw : ResponseWriter) : go (option exchange) :=
  match decode_map (pe_num E) (RawBody g) with
  | None => Ret (Some (mkExchange g rw no_attempt (Some (wrap_error "parse raw body: " (pe_json_error E (RawBody g)))) None))
  | Some _ =>
      match TryMockMessagesProbe (pe_num E) (pe_write E) g rw (pe_clock E 0) with
      | Some x => Ret (Some (closed_exchange x no_attempt))
      | None =>
          let! res := MessagesRequestToChat (pe_num E) (RawBody g) (IsOfficialOrTestBaseURL (op_baseURL p)) in
          match res with
          | inr e => Ret (Some (mkExchange g rw no_attempt (Some e) None))
          | inl body =>
              let! x := doRequest E p (g <| RawBody := body |>) rw (op_baseURL p +:+ "/chat/completions") in
              match x with
              | None => Ret None
              | Some x =>
                  match x_err x, x_handoff x with
                  | Some _, _ => Ret (Some x)
                  | None, Some (resp, b) =>
                      let! y := handleMessagesStream E (x_g x) (x_rw x) resp b in
                      Ret ((fun y => closed_exchange y (cancel_Close (x_attempt x))) <$> y)
                  | None, None =>
                      let '(g, rw, err) := translateNonStreamResponse E (x_g x) (x_rw x) in
                      Ret (Some (mkExchange g rw (x_attempt x) (wrap_error "translate response: " <$> err) None))
                  end
              end
          end
      end
  end.

(** * OpenAI: Responses requests (openai_responses.go) *)

Definition applyChatResponsesMeta (m : StreamChunkMeta) (g : GatewayContext) : GatewayContext :=
  let g := ApplyUsage g (meta_counts m) in
  let g := if is_empty (sm_ResponseID m) then g else put_tag "response_id" (sm_ResponseID m) g in
  if is_empty (sm_ResponseModel m) then g else put_tag "response_model" (sm_ResponseModel m) g.

Fixpoint write_responses (write : bytes -> option goerror) (count : bool) (g : GatewayContext) (rw : ResponseWriter) (es : list ResponsesStreamEvent) :
  GatewayContext * ResponseWriter * option goerror :=
  match es with
  | [] => (g, rw, None)
  | e :: r =>
      match frame_out write rw (responses_frame e) with
      | (rw, Some err) => (g, rw, Some err)
      | (rw, None) => write_responses write count (if count then g <| TransmittedChars := wrap64 (TransmittedChars g + re_TransmittedChars e) |> else g) rw r
      end
  end.

(** A frame with a finish reason ends the turn. *)
Definition frame_finishes (data : string) : bool :=
  Contains data (q "finish_reason") &&
  match Unmarshal dec_finish_chunk [] (clean_data data) with
  | Some l => existsb (fun r => match r with Some _ => true | None => false end) l
  | None => false
  end.

(** The first pass over the events of a read: errors after the end of the turn are ignored. *)
Fixpoint sniff_turn (completed : bool) (evs : list SSEEvent) : bool * option goerror :=
  match evs with
  | [] => (completed, None)
  | ev :: rest =>
      let completed := completed || frame_finishes (ev_Data ev) in
      match event_error (ev_Data ev) with
      | Some e => if completed then sniff_turn completed rest else (completed, Some (error_event e))
      | None => sniff_turn completed rest
      end
  end.

Record responses_relay := mkResponsesRelay {
  rv_g : GatewayContext; rv_rw : ResponseWriter; rv_parser : SSEParser; rv_stream : ChatToResponsesStream; rv_completed : bool; rv_sent : bool
}.
#[global] Instance eta_responses_relay : Eta responses_relay := fun r =>
  mkResponsesRelay (rv_g r) (rv_rw r) (rv_parser r) (rv_stream r) (rv_completed r) (rv_sent r).

Definition responses_headers (now : Time) (r : responses_relay) : responses_relay :=
  r <| rv_rw := commit_ok (stream_headers (rv_rw r)) |> <| rv_g := TriggerFirstByte (rv_g r) now |> <| rv_sent := true |>.

(** The second pass; [true]: the end marker was seen. *)
Fixpoint feed_responses (write : bytes -> option goerror) (now : Z) (r : responses_relay) (evs : list SSEEvent) : responses_relay * (bool + goerror) :=
  match evs with
  | [] => (r, inl false)
  | ev :: rest =>
      let '(s, es, meta) := C2R_FeedJSON (rv_stream r) (ev_Data ev) now in
      let r := r <| rv_stream := s |> in
      if ev_Done ev then (r, inl true)
      else match write_responses write true (applyChatResponsesMeta meta (rv_g r)) (rv_rw r) es with
           | (g, rw, Some e) => (r <| rv_g := g |> <| rv_rw := rw |>, inr e)
           | (g, rw, None) => feed_responses write now (r <| rv_g := g |> <| rv_rw := rw |>) rest
           end
  end.

Definition responses_end (c : read_ctx) (r : responses_relay) (e : read_end) : option (option goerror) :=
  match e with
  | ReadMore => None
  | ReadEOF => Some (if rv_sent r then None else Some (errorf "upstream stream closed before sending any data (EOF)"))
  | ReadErr err =>
      Some (if client_gone (rv_g r) c then if rv_completed r then None else Some (disconnected err)
            else Some (wrap_error "read upstream stream: " err))
  end.

Definition responses_read (write : bytes -> option goerror) (c : read_ctx) (now : Time) (r : responses_relay) (chunk : bytes) (e : read_end) :
  responses_relay * option (option goerror) :=
  match chunk with
  | [] => (r, responses_end c r e)
  | _ =>
      let '(parser, evs) := Feed (rv_parser r) chunk in
      let '(completed, err) := sniff_turn (rv_completed r) evs in
      let r := r <| rv_parser := parser |> <| rv_completed := completed |> in
      match err with
      | Some e => (r, Some (Some e))
      | None =>
          match (if rv_sent r then None else openAIJSONStreamError chunk) with
          | Some e => (r, Some (Some e))
          | None =>
              let r := if rv_sent r then r else responses_headers now r in
              match feed_responses write (unix_seconds now) r evs with
              | (r, inr err) => (r, Some (Some err))
              | (r, inl true) => (r, Some None)
              | (r, inl false) => (r, responses_end c r e)
              end
          end
      end
  end.

Fixpoint responses_loop (write : bytes -> option goerror) (c : read_ctx) (clock : nat -> Time) (r : responses_relay) (reads : list (bytes * read_end)) :
  option (responses_relay * option goerror) :=
  match reads with
  | [] => None
  | (chunk, e) :: rest =>
      match responses_read write c (clock (length rest)) r chunk e with
      | (r, Some err) => Some (r, err)
      | (r, None) => responses_loop write c clock r rest
      end
  end.

Definition finish_responses (N : JsonNum) (write : bytes -> option goerror) (now : Time) (r : responses_relay) : GatewayContext * ResponseWriter * option goerror :=
  let r := if rv_sent r then r else responses_headers now r in
  let '(_, es, meta) := C2R_Finish N (rv_stream r) (context_usage (rv_g r)) (unix_seconds now) in
  match write_responses write false (applyChatResponsesMeta meta (rv_g r)) (rv_rw r) es with
  | (g, rw, Some e) => (g, rw, Some e)
  | (g, rw, None) =>
      let g := if sm_Completed meta then put_tag "response_completed_sent" "true" g else g in
      let rw := if sm_EmitDone meta then fst (frame_out write rw (writeSSEData "[DONE]")) else rw in
      (g, rw, None)
  end.

Definition new_responses_relay (g : GatewayContext) (rw : ResponseWriter) (mapper : ToolNameMapper) : responses_relay :=
  mkResponsesRelay g rw NewSSEParser (NewChatToResponsesStream (Model g) (Some mapper) (context_usage g)) false false.

Definition handleResponsesStream (E : provider_env) (g : GatewayContext) (rw : ResponseWriter) (b : upstream_body) (mapper : ToolNameMapper) :
  option (GatewayContext * ResponseWriter * option goerror) :=
  match responses_loop (pe_write E) (pe_ctx E) (pe_clock E) (new_responses_relay g rw mapper) (pe_reads E b) with
  | None => None
  | Some (r, Some e) => Some (rv_g r, rv_rw r, Some e)
  | Some (r, None) => Some (finish_responses (pe_num E) (pe_write E) (pe_clock E 0) r)
  end.

Definition translateResponsesNonStreamResponse (E : provider_env) (g : GatewayContext) (mapper : ToolNameMapper) : GatewayContext * option goerror :=
  match ChatCompletionToResponses (pe_num E) (body_bytes (UpstreamBody g)) (Model g) (Some mapper) (unix_seconds (pe_clock E 0)) with
  | inr e => (g, Some e)
  | inl (body, u) =>
      let g := g <| UpstreamBody := Some body |> in
      match decode_map (pe_num E) body with
      | None => (g, Some (pe_json_error E body))
      | Some _ => (ApplyUsage (g <| Response := Some body |>) (tu_Input u, tu_Output u, 0, 0), None)
      end
  end.

Definition has_responses (g : GatewayContext) : bool :=
  match SelectedEndpoint g with Some ep => existsb (fun c => seqb c RequestTypeResponses) (ep_RequestTypes ep) | None => false end.

Definition openai_responses (E : provider_env) (p : OpenAIProvider) (g : GatewayContext) (rw : ResponseWriter) : go (option exchange) :=
  if has_responses g then
    doRequest E p (g <| RawBody := fst (StripToolSearchDescription (pe_num E) (RawBody g)) |>) rw (op_baseURL p +:+ "/responses")
  else
    let! res := ResponsesRequestToChat (pe_num E) (RawBody g) in
    match res with
    | inr e => Ret (Some (mkExchange g rw no_attempt (Some e) None))
    | inl (body, mapper) =>
        let! x := doRequest E p (g <| RawBody := body |>) rw (op_baseURL p +:+ "/chat/completions") in
        match x with
        | None => Ret None
        | Some x =>
            match x_err x, x_handoff x with
            | Some _, _ => Ret (Some x)
            | None, Some (_, b) => Ret ((fun y => closed_exchange y (cancel_Close (x_attempt x))) <$> handleResponsesStream E (x_g x) (x_rw x) b mapper)
            | None, None =>
                let '(g, err) := translateResponsesNonStreamResponse E (x_g x) mapper in
                Ret (Some (mkExchange g (x_rw x) (x_attempt x) (wrap_error "translate response: " <$> err) None))
            end
        end
    end.

(** [OpenAIProvider.Invoke]: the invoker registered for the request type. *)
Definition OpenAI_Invoke (E : provider_env) (p : OpenAIProvider) (g : GatewayContext) (rw : ResponseWriter) : go (option exchange) :=
  if seqb (RequestType g) RequestTypeMessages then openai_messages E p g rw
  else if seqb (RequestType g) RequestTypeResponses then openai_responses E p g rw
  else match openai_passthrough E p g rw with
       | Some x => x
       | None => Ret (Some (mkExchange g rw no_attempt (Some (errorf ("unsupported request type: " +:+ RequestType g))) None))
       end.

(** * Anthropic (anthropic.go, anthropic_messages.go, anthropic_responses.go) *)

Record AnthropicProvider := mkAnthropicProvider { ap_name : string; ap_baseURL : string; ap_apiKey : string }.

Definition NewAnthropicProvider (name baseURL apiKey : string) : AnthropicProvider := mkAnthropicProvider name (trim_slashes baseURL) apiKey.
Definition Anthropic_RequestTypes : list string := [RequestTypeMessages; RequestTypeResponses].

Definition anthropic_ping : string := json_text "{'model':'claude-sonnet-4-20250514','max_tokens':1,'messages':[{'role':'user','content':'ping'}]}".
Definition Anthropic_HealthCheck (post : string -> headers -> string -> Z + goerror) (p : AnthropicProvider) : option goerror :=
  let h := header_set (header_set (header_set ∅ "Content-Type" "application/json") "x-api-key" (ap_apiKey p)) "anthropic-version" "2023-06-01" in
  let h := if negb (is_empty (ap_apiKey p)) && negb (Contains (ap_baseURL p) "anthropic.com") then header_set h "Authorization" ("Bearer " +:+ ap_apiKey p) else h in
  health_error (post (ap_baseURL p +:+ "/messages") h anthropic_ping).

(** The headers both invokers send. *)
Definition anthropic_auth (p : AnthropicProvider) (g : GatewayContext) : headers :=
  let h := header_set (header_set ∅ "Content-Type" "application/json") "Authorization" ("Bearer " +:+ ap_apiKey p) in
  let isOAuth := match SelectedEndpoint g with Some ep => seqb (ep_AuthType ep) "oauth_token" | None => false end in
  if isOAuth then h else header_set h "x-api-key" (ap_apiKey p).

Definition handleMessagesNonStream (E : provider_env) (extract : string -> usage4) (g : GatewayContext) (b : upstream_body) : GatewayContext * option goerror :=
  match b_err b with
  | Some e => (g, Some (wrap_error "read response: " e))
  | None =>
      let body := string_of (b_data b) in
      (ApplyUsage ((TriggerFirstByte g (pe_clock E 0)) <| UpstreamBody := Some body |>) (extract body), None)
  end.

(** A stream passed through as it is; the first chunk commits the response. *)
Definition pass_stream (E : provider_env) (extract : string -> usage4) (g : GatewayContext) (rw : ResponseWriter) (b : upstream_body) :
  option (GatewayContext * ResponseWriter * option goerror) :=
  let rw := rw_Set "X-Accel-Buffering" "no" (stream_headers (rw_Set "X-Accel-Buffering" "no" rw)) in
  match PassthroughStream (pe_write E) (pe_ctx E) (pe_reads E b) (pe_clock E) (NewSSEInterceptWriter (Some extract)) g [] with
  | Some (_, g, out, err) => Some (g, match out with [] => rw | _ => rw_Write (string_of out) rw end, err)
  | None => None
  end.

(** A native answer: a stream passed through or a complete response. *)
Definition native_answer (E : provider_env) (extract : string -> usage4) (rw : ResponseWriter) (c : call_result) : option exchange :=
  let '(g, a, res) := c in
  match res with
  | inr e => Some (mkExchange g rw a (Some e) None)
  | inl (_, b) =>
      if IsStream g then (fun y => closed_exchange y (cancel_Close a)) <$> pass_stream E extract g rw b
      else let '(g, err) := handleMessagesNonStream E extract g b in Some (mkExchange g rw (cancel_Close a) err None)
  end.

Definition anthropic_messages (E : provider_env) (p : AnthropicProvider) (g : GatewayContext) (rw : ResponseWriter) : option exchange :=
  match TryMockMessagesProbe (pe_num E) (pe_write E) g rw (pe_clock E 0) with
  | Some x => Some (closed_exchange x no_attempt)
  | None =>
      let h := anthropic_auth p g in
      let beta := match Request g with Some r => header_Get (req_Header r) "anthropic-beta" | None => "" end in
      let h := if is_empty beta then h else header_set h "anthropic-beta" beta in
      let h := header_set h "anthropic-version" (if is_empty (client_version g) then "2023-06-01" else client_version g) in
      native_answer E AnthropicTokenExtractor rw (env_Call E g (ap_baseURL p +:+ "/messages") (RawBody g) h)
  end.

(** [enrichAnthropicError]: the upstream error in the envelope of the Responses protocol. *)
Definition enrichAnthropicError (err : goerror) (upstreamBody : option string) : goerror :=
  if is_empty (body_bytes upstreamBody) then err
  else match MessagesErrorToResponses (body_bytes upstreamBody), upstream_status (Error_text err) with
       | Some converted, Some status =>
           if status =? 0 then err else errorf ("upstream error: status " +:+ Itoa status +:+ ", body: " +:+ converted)
       | _, _ => err
       end.

Record anthropic_relay := mkAnthropicRelay { av_g : GatewayContext; av_rw : ResponseWriter; av_parser : SSEParser; av_stream : MessagesToResponsesStream }.
#[global] Instance eta_anthropic_relay : Eta anthropic_relay := fun r => mkAnthropicRelay (av_g r) (av_rw r) (av_parser r) (av_stream r).

(** The tags of the response, each set once. *)
Definition anthropic_tags (s : MessagesToResponsesStream) (g : GatewayContext) : GatewayContext :=
  let g := g <| Tags := Some (default ∅ (Tags g)) |> in
  let g := if is_empty (GetTagValue g "response_id") && negb (is_empty (mr_respID s)) then put_tag "response_id" (mr_respID s) g else g in
  if is_empty (GetTagValue g "response_model") then put_tag "response_model" (responsesReplyModel g) g else g.

(** The events of a read; [true]: the stream was completed. *)
Fixpoint feed_anthropic (N : JsonNum) (write : bytes -> option goerror) (r : anthropic_relay) (evs : list SSEEvent) : anthropic_relay * (bool + goerror) :=
  match evs with
  | [] => (r, inl false)
  | ev :: rest =>
      if ev_Done ev then feed_anthropic N write r rest
      else
        let '(s, es, meta) := M2R_FeedJSON N (av_stream r) (ev_Data ev) in
        let g := ApplyUsage (av_g r) (meta_counts meta) in
        let g := anthropic_tags s (g <| TransmittedChars := wrap64 (TransmittedChars g + sm_TransmittedChars meta) |>) in
        match write_responses write false g (av_rw r) es with
        | (g, rw, Some e) => (r <| av_stream := s |> <| av_g := g |> <| av_rw := rw |>, inr e)
        | (g, rw, None) =>
            if sm_EmitDone meta then
              (r <| av_stream := s |> <| av_g := put_tag "response_completed_sent" "true" g |>
                 <| av_rw := fst (frame_out write rw (writeSSEData "[DONE]")) |>, inl true)
            else feed_anthropic N write (r <| av_stream := s |> <| av_g := g |> <| av_rw := rw |>) rest
        end
  end.

Fixpoint anthropic_loop (N : JsonNum) (write : bytes -> option goerror) (clock : nat -> Time) (r : anthropic_relay) (reads : list (bytes * read_end)) :
  option (anthropic_relay * option goerror) :=
  match reads with
  | [] => None
  | (chunk, e) :: rest =>
      let '(r, res) := match chunk with
        | [] => (r, inl false)
        | _ => let '(parser, evs) := Feed (av_parser r) chunk in
               feed_anthropic N write (r <| av_parser := parser |> <| av_g := TriggerFirstByte (av_g r) (clock (length rest)) |>) evs
        end in
      match res, e with
      | inr err, _ => Some (r, Some err)
      | inl true, _ => Some (r, None)
      | inl false, ReadMore => anthropic_loop N write clock r rest
      | inl false, ReadEOF => Some (r, None)
      | inl false, ReadErr err => Some (r, Some (wrap_error "read upstream stream: " err))
      end
  end.

Definition handleAnthropicResponsesStream (E : provider_env) (g : GatewayContext) (rw : ResponseWriter) (b : upstream_body) :
  option (GatewayContext * ResponseWriter * option goerror) :=
  let s := NewMessagesToResponsesStream (responsesReplyModel g) (unix_seconds (pe_clock E 0)) in
  (fun '(r, err) => (av_g r, av_rw r, err)) <$>
    anthropic_loop (pe_num E) (pe_write E) (pe_clock E) (mkAnthropicRelay g (commit_ok (stream_headers rw)) NewSSEParser s) (pe_reads E b).

Definition anthropic_complete (E : provider_env) (g : GatewayContext) (b : upstream_body) : GatewayContext * option goerror :=
  match b_err b with
  | Some e => (g, Some (wrap_error "read response: " e))
  | None =>
      let g := TriggerFirstByte g (pe_clock E 0) in
      match MessagesResponseToResponses (pe_num E) (string_of (b_data b)) (responsesReplyModel g) (unix_seconds (pe_clock E 0)) with
      | inr e => (g, Some (wrap_error "translate messages response: " e))
      | inl (body, u) =>
          let g := g <| UpstreamBody := Some body |> in
          match decode_map (pe_num E) body with
          | None => (g, Some (wrap_error "parse translated response: " (pe_json_error E body)))
          | Some _ => (ApplyUsage (g <| Response := Some body |>) (usage_counts u), None)
          end
      end
  end.

Definition anthropic_responses (IsPrint : list ascii -> bool) (E : provider_env) (p : AnthropicProvider) (g : GatewayContext) (rw : ResponseWriter) : option exchange :=
  let limit := Some (match SelectedEndpoint g with Some ep => ep_MaxOutputTokens ep | None => 0 end) in
  match ResponsesRequestToMessages IsPrint (pe_num E) (RawBody g) (Model g) limit with
  | inr e => Some (mkExchange g rw no_attempt (Some (wrap_error "translate responses request: " e)) None)
  | inl (body, _, _) =>
      let h := header_set (anthropic_auth p g) "anthropic-version" "2023-06-01" in
      let '(g, a, res) := env_Call E (g <| RawBody := body |>) (ap_baseURL p +:+ "/messages") body h in
      match res with
      | inr e => Some (mkExchange g rw a (Some (enrichAnthropicError e (UpstreamBody g))) None)
      | inl (_, b) =>
          if IsStream g then (fun y => closed_exchange y (cancel_Close a)) <$> handleAnthropicResponsesStream E g rw b
          else let '(g, err) := anthropic_complete E g b in Some (mkExchange g rw (cancel_Close a) err None)
      end
  end.

Definition Anthropic_Invoke (IsPrint : list ascii -> bool) (E : provider_env) (p : AnthropicProvider) (g : GatewayContext) (rw : ResponseWriter) : option exchange :=
  if seqb (RequestType g) RequestTypeMessages then anthropic_messages E p g rw
  else if seqb (RequestType g) RequestTypeResponses then anthropic_responses IsPrint E p g rw
  else Some (mkExchange g rw no_attempt (Some (errorf ("unsupported request type: " +:+ RequestType g))) None).

(** * Gemini (gemini.go) *)

Record GeminiProvider := mkGeminiProvider { gp_name : string; gp_baseURL : string; gp_apiKey : string; gp_models : list string }.

Definition NewGeminiProvider (name baseURL apiKey : string) (models : list string) : GeminiProvider := mkGeminiProvider name (trim_slashes baseURL) apiKey models.

(** [url.PathEscape]. *)
Definition path_byte (c : ascii) : bool := alnum c || existsb (Z.eqb (byte_val c)) [45; 95; 46; 126; 36; 38; 43; 58; 61; 64].
Definition upper_hex (n : Z) : ascii := byte_of (if n <? 10 then 48 + n else 55 + n).
Definition PathEscape (s : string) : string :=
  string_of (concat (map (fun c => if path_byte c then [c] else [byte_of 37; upper_hex (byte_val c / 16); upper_hex (byte_val c mod 16)]) (ascii_list s))).

Definition generateContentURL (p : GeminiProvider) (model : string) (stream : bool) : string :=
  let u := gp_baseURL p +:+ "/models/" +:+ PathEscape model +:+ ":" +:+ (if stream then "streamGenerateContent" else "generateContent") in
  if stream then u +:+ "?alt=sse" else u.

Definition gemini_ping : string := json_text "{'contents':[{'parts':[{'text':'ping'}]}],'generationConfig':{'maxOutputTokens':1}}".
Definition Gemini_HealthCheck (post : string -> headers -> string -> Z + goerror) (p : GeminiProvider) : option goerror :=
  let model := match gp_models p with m :: _ => if is_empty m then "gemini-2.5-flash" else m | [] => "gemini-2.5-flash" end in
  let h := header_set (header_set ∅ "Content-Type" "application/json") "x-goog-api-key" (gp_apiKey p) in
  health_error (post (generateContentURL p model false) h gemini_ping).

Definition doGenerateContent (E : provider_env) (p : GeminiProvider) (g : GatewayContext) (rw : ResponseWriter) : option exchange :=
  let model := match SelectedEndpoint g with Some ep => if is_empty (EffectiveModel ep) then Model g else EffectiveModel ep | None => Model g end in
  let h := header_set (header_set ∅ "Content-Type" "application/json") "x-goog-api-key" (gp_apiKey p) in
  native_answer E GeminiTokenExtractor rw (env_Call E g (generateContentURL p model (IsStream g)) (RawBody g) h).

Definition Gemini_Invoke (E : provider_env) (p : GeminiProvider) (g : GatewayContext) (rw : ResponseWriter) : option exchange :=
  if seqb (RequestType g) RequestTypeGeminiGenerateContent then doGenerateContent E p g rw
  else Some (mkExchange g rw no_attempt (Some (errorf ("unsupported request type: " +:+ RequestType g))) None).

(** * What a Messages client receives *)

Lemma frame_out_spec write rw frame rw' err h : rw_sent rw = Some (200, h) -> frame_out write rw frame = (rw', err) ->
  rw_sent rw' = Some (200, h) /\ rw_body rw' = match err with Some _ => rw_body rw | None => rw_body rw +:+ string_of frame end.
Proof. intros S. unfold frame_out. destruct (write frame); intros [= <- <-]; [done|]. unfold rw_Write. by rewrite S. Qed.

(** The client has received the events [es]. *)
Definition received (rw : ResponseWriter) (es : list MessagesStreamEvent) : Prop :=
  (exists h, rw_sent rw = Some (200, h)) /\ rw_body rw = string_of (concat (map messages_frame es)).

Lemma write_messages_spec write es : forall g rw g' rw' err sent, received rw sent -> write_messages write g rw es = (g', rw', err) ->
  exists es1 es2, es = es1 ++ es2 /\ received rw' (sent ++ es1) /\ (err = None -> es2 = []) /\ (err <> None -> es2 <> []) /\ Tags g' = Tags g.
Proof.
  induction es as [|e es IH]; intros g rw g' rw' err sent R; cbn [write_messages].
  - intros [= <- <- <-]. exists [], []. split_and!; [done|by rewrite app_nil_r|done|by intros []|done].
  - destruct R as [[h S] B]. destruct (frame_out write rw (messages_frame e)) as [rw1 [e1|]] eqn:F; destruct (frame_out_spec _ _ _ _ _ _ S F) as [S1 B1].
    + intros [= <- <- <-]. exists [], (e :: es). rewrite app_nil_r. split_and!; try done. split; [by exists h|by rewrite B1].
    + intros H. destruct (IH _ _ _ _ _ (sent ++ [e]) ltac:(split; [by exists h|]; rewrite B1, B, map_app, concat_app, string_of_app; cbn; by rewrite app_nil_r) H) as (es1 & es2 & -> & R & N & N' & T).
      exists (e :: es1), es2. rewrite <- app_assoc in R. by split_and!.
Qed.

Lemma accept_prefix p es es' q : accept_all p (es ++ es') = Some q -> exists p', accept_all p es = Some p'.
Proof. rewrite accept_all_app. destruct (accept_all p es); [eauto|done]. Qed.

(** Between two events: the machine and the client agree. *)
Record messages_inv (r : messages_relay) (es : list MessagesStreamEvent) : Prop := {
  mi_received : received (mv_rw r) es;
  mi_machine : c2m_inv (mv_stream r);
  mi_running : cm_finished (mv_stream r) = false;
  mi_accept : accept_all PNone es = Some (phase_of (mv_stream r))
}.

(** The stream broke off: what was received is the beginning of a message, not its end. *)
Definition broken (rw : ResponseWriter) : Prop := exists es p, received rw es /\ accept_all PNone es = Some p /\ p <> PStop.

Lemma not_stopped s : phase_of s <> PStop.
Proof. unfold phase_of. by destruct (cm_started s). Qed.

(** A prefix that something follows is not complete. *)
Lemma accept_more p es es' q : accept_all p (es ++ es') = Some q -> es' <> [] -> exists p', accept_all p es = Some p' /\ p' <> PStop.
Proof.
  rewrite accept_all_app. destruct (accept_all p es) as [p'|]; [|done]. intros H N. exists p'. split; [done|]. intros ->. destruct es'; [done|]. by cbn in H.
Qed.

Lemma feed_messages_inv write evs : forall r es r' err, messages_inv r es -> feed_messages write r evs = (r', err) ->
  match err with None => exists es', messages_inv r' es' | Some _ => broken (mv_rw r') end.
Proof.
  induction evs as [|ev evs IH]; intros r es r' err I; cbn [feed_messages]; [intros [= <- <-]; eauto|].
  set (d := if ev_Done ev then _ else _). destruct I as [R M F A]. pose proof (feed_sound (mv_stream r) d M) as Sd. pose proof (c2m_not_finished [d] (mv_stream r) F) as Fd.
  cbn [c2m_feed_all] in Fd. destruct (C2M_FeedJSON (mv_stream r) d) as [[s es1] meta]. cbn [fst] in Fd. destruct Sd as [M1 A1]. cbn [fst snd] in M1, A1.
  destruct (write_messages write _ (mv_rw r) es1) as [[g rw] [e|]] eqn:W; destruct (write_messages_spec _ _ _ _ _ _ _ _ R W) as (w1 & w2 & -> & R1 & N & N' & _).
  - intros [= <- <-]. assert (accept_all PNone ((es ++ w1) ++ w2) = Some (phase_of s)) as Q by (rewrite <- app_assoc, accept_all_app, A; exact A1).
    destruct (accept_more _ _ _ _ Q (N' ltac:(done))) as (p & ? & ?). exists (es ++ w1), p. by split_and!.
  - rewrite (N eq_refl), app_nil_r in A1. apply IH with (es := es ++ w1). constructor; try done. by rewrite accept_all_app, A.
Qed.

Lemma messages_inv_broken r es : messages_inv r es -> broken (mv_rw r).
Proof. intros [R _ _ A]. exists es, (phase_of (mv_stream r)). split_and!; [done|done|apply not_stopped]. Qed.

Lemma messages_read_inv write now r es chunk e r' res : messages_inv r es -> messages_read write now r chunk e = (r', res) ->
  match res with Some (Some _) => broken (mv_rw r') | _ => exists es', messages_inv r' es' end /\ (res = None -> e = ReadMore).
Proof.
  intros I. unfold messages_read. destruct chunk as [|c chunk].
  - intros [= <- <-]. destruct e; (split; [|done]); eauto using messages_inv_broken.
  - destruct (_ && _); [intros [= <- <-]; split; [|done]; by eapply (messages_inv_broken r)|].
    destruct (Feed _ _) as [parser evs]. set (r1 := r <| mv_firstRead := _ |> <| mv_g := _ |> <| mv_parser := _ |>).
    assert (messages_inv r1 es) as I1 by (destruct I; by constructor). destruct (feed_messages write r1 evs) as [r2 [err|]] eqn:F; pose proof (feed_messages_inv _ _ _ _ _ _ I1 F) as Q.
    + intros [= <- <-]. by split.
    + intros [= <- <-]. destruct Q as [es' Q]. destruct e; (split; [|done]); eauto using messages_inv_broken.
Qed.

Lemma messages_loop_inv write clock reads : forall r es r' err, messages_inv r es -> messages_loop write clock r reads = Some (r', err) ->
  match err with Some _ => broken (mv_rw r') | None => exists es', messages_inv r' es' end.
Proof.
  induction reads as [|[chunk e] reads IH]; intros r es r' err I; [done|]. cbn [messages_loop].
  destruct (messages_read write (clock (length reads)) r chunk e) as [r1 [err1|]] eqn:R; destruct (messages_read_inv _ _ _ _ _ _ _ _ I R) as [Q _].
  - intros [= <- <-]. by destruct err1.
  - destruct Q as [es' Q]. by apply IH with (es := es').
Qed.

Lemma tag_kept k v k' g : k <> k' -> GetTagValue (setStreamDiagTag k v g) k' = GetTagValue g k'.
Proof.
  intros N. unfold setStreamDiagTag. destruct (is_empty v); [done|]. cbn. unfold ctx_GetTagValue. cbn. rewrite lookup_insert_ne by done. destruct (Tags g); reflexivity.
Qed.

Lemma delivered_run (E : provider_env) (g g' : GatewayContext) (rw rw' : ResponseWriter) (resp : http_Response) (b : upstream_body) (err : option goerror)
  (Hfresh : rw_sent rw = None /\ rw_body rw = "") (Hok : resp_StatusCode resp = 200)
  (Hrun : handleMessagesStream E g rw resp b = Ret (Some (g', rw', err))) :
  exists es p, received rw' es /\ accept_all PNone es = Some p /\ (err = None <-> p = PStop) /\
    (err = None -> GetTagValue g' "message_stop_sent" = "true").
Proof.
  unfold handleMessagesStream in Hrun. rewrite Hok in Hrun. cbn [negb Z.eqb Pos.eqb] in Hrun. injection Hrun as Hrun.
  set (r0 := mkMessagesRelay _ _ _ _ _) in Hrun. assert (messages_inv r0 []) as I0.
  { constructor; [|apply new_inv|done|done]. destruct Hfresh as [F1 F2]. unfold received. subst r0. cbn [mv_rw]. unfold messages_headers, forward_version.
    destruct (is_empty _); unfold commit_ok, rw_WriteHeader, rw_Set; cbn; rewrite F1; cbn; eauto. }
  assert (forall rw, broken rw -> forall e : goerror, exists es p, received rw es /\ accept_all PNone es = Some p /\ (Some e = None <-> p = PStop) /\ (Some e = None -> GetTagValue g' "message_stop_sent" = "true")) as Br
    by (intros rw1 (es & p & ? & ? & ?) e; exists es, p; split_and!; [done|done|split; done|done]).
  destruct (messages_loop _ _ r0 _) as [[r [e|]]|] eqn:L; [| |done].
  - injection Hrun as <- <- <-. apply Br. by apply (messages_loop_inv _ _ _ _ _ _ _ I0 L).
  - injection Hrun as Hrun. destruct (messages_loop_inv _ _ _ _ _ _ _ I0 L) as [es [R M F A]]. revert Hrun. unfold finish_messages.
    pose proof (finish_accepted (mv_stream r) (context_usage (mv_g r)) M F) as Fi. destruct (C2M_Finish _ _) as [[s es'] meta]. destruct Fi as (p & Ap & C).
    assert (accept_all PNone (es ++ es') = Some p) as At by (rewrite accept_all_app, A; exact Ap).
    destruct (write_messages (pe_write E) (mv_g r) (mv_rw r) es') as [[g1 rw1] werr] eqn:W. destruct (write_messages_spec _ _ _ _ _ _ _ _ R W) as (w1 & w2 & -> & R1 & N & N' & _).
    assert (p <> PStop \/ w2 <> [] -> broken rw1) as Bw.
    { rewrite app_assoc in At. intros H. destruct (decide (w2 = [])) as [->|Nw]; [rewrite app_nil_r in At; exists (es ++ w1), p; split_and!; naive_solver|].
      destruct (accept_more _ _ _ _ At Nw) as (p' & ? & ?). exists (es ++ w1), p'. by split_and!. }
    destruct (sm_Completed meta).
    + destruct C as [-> ->]. change (negb (is_empty "")) with false. destruct werr as [e|].
      * intros [= <- <- <-]. apply Br, Bw. right. by apply N'.
      * rewrite (N eq_refl), app_nil_r in At. intros [= <- <- <-]. exists (es ++ w1), PStop. split_and!; [done|done|done|]. intros _. rewrite !tag_kept by done.
        cbn. unfold ctx_GetTagValue. cbn. by rewrite lookup_insert_eq.
    + destruct C as [C Em]. assert (negb (is_empty (sm_ErrorMessage meta)) = true) as -> by (apply negb_true_iff; by apply seqb_neq).
      intros [= <- <- <-]. apply Br, Bw. left. destruct C as [->|[n ->]]; done.
Qed.

(** The loop returns once the body ends. *)
Lemma messages_loop_returns write clock reads : Exists (fun x => snd x <> ReadMore) reads -> forall r, exists x, messages_loop write clock r reads = Some x.
Proof.
  induction 1 as [[chunk e] reads N|[chunk e] reads _ IH]; intros r; cbn [messages_loop];
    destruct (messages_read write (clock (length reads)) r chunk e) as [r1 [err1|]] eqn:R; eauto.
  exfalso. cbn in N. revert R. unfold messages_read. destruct chunk as [|c chunk]; [by destruct e|].
  destruct (_ && _); [done|]. destruct (Feed _ _) as [parser evs]. destruct (feed_messages _ _ _) as [r2 [err2|]]; [done|by destruct e].
Qed.

(** C18: what a Messages client gets of a Chat upstream. However the upstream's stream is cut,
    whatever it contains and wherever it or the client breaks off, the bytes the client
    receives are frames of a well-formed Messages stream, or of the beginning of one; the
    call is reported as successful exactly when the message was delivered to its end, and
    is then marked as completed for the engine. The call returns once the upstream's body
    ends. (For an upstream that answered with status 200, on a connection to which nothing
    was sent before; a failed write is taken to have written nothing.) *)
Theorem messages_stream_delivered (E : provider_env) (g : GatewayContext) (rw : ResponseWriter) (resp : http_Response) (b : upstream_body)
  (Hfresh : rw_sent rw = None /\ rw_body rw = "") (Hok : resp_StatusCode resp = 200) (Hends : Exists (fun x => snd x <> ReadMore) (pe_reads E b)) :
  exists g' rw' err es p, handleMessagesStream E g rw resp b = Ret (Some (g', rw', err)) /\
    received rw' es /\ accept_all PNone es = Some p /\ (err = None <-> p = PStop) /\
    (err = None -> GetTagValue g' "message_stop_sent" = "true").
Proof.
  assert (exists g' rw' err, handleMessagesStream E g rw resp b = Ret (Some (g', rw', err))) as (g' & rw' & err & R).
  { unfold handleMessagesStream. rewrite Hok. cbn [negb Z.eqb Pos.eqb].
    match goal with |- context [messages_loop ?w ?c ?r ?l] => destruct (messages_loop_returns w c l Hends r) as [[r1 [e|]] ->]; [eauto|] end.
    destruct (finish_messages _ _) as [[? ?] ?]. eauto. }
  destruct (delivered_run _ _ _ _ _ _ _ _ Hfresh Hok R) as (es & p & H). exists g', rw', err, es, p. by split.
Qed.

(** * Witnesses *)

Definition demo_env (reads : list (bytes * read_end)) : provider_env :=
  mkEnv map_to_list map_to_list (fun _ => None) (fun _ b => b)
    (fun _ _ => mkDo false (inl (mkResponse 200 {["Content-Type" := ["text/event-stream"]]}, mkBody [] None false)))
    (fun _ => reads) (fun _ => None) (mkReadCtx false None false) (fun _ => 62135596800 * Second + 1) (fun _ => json_error) exact_num.

Definition demo_chunk (finish : string) : bytes :=
  ascii_list (json_text ("data: {'id':'c','model':'m','choices':[{'delta':{'content':'hi'},'finish_reason':" +:+ finish +:+ "}]}")) ++ [LF; LF].

Definition demo_run (reads : list (bytes * read_end)) : go (option (GatewayContext * ResponseWriter * option goerror)) :=
  handleMessagesStream (demo_env reads) (emptyContext <| Model := "m" |>) newResponse (mkResponse 200 ∅) (mkBody [] None false).
Definition run_result (x : go (option (GatewayContext * ResponseWriter * option goerror))) : GatewayContext * ResponseWriter * option goerror :=
  match x with Ret (Some y) => y | _ => (emptyContext, newResponse, None) end.

Definition demo_complete : list (bytes * read_end) := [(demo_chunk (json_text "'stop'"), ReadMore); ([], ReadEOF)].

Lemma messages_stream_delivered_witness : exists es, received (snd (fst (run_result (demo_run demo_complete)))) es /\ accept_all PNone es = Some PStop.
Proof.
  destruct (messages_stream_delivered (demo_env demo_complete) (emptyContext <| Model := "m" |>) newResponse (mkResponse 200 ∅) (mkBody [] None false)
    ltac:(split; reflexivity) ltac:(reflexivity) ltac:(right; left; discriminate)) as (g & rw & err & es & p & E & R & A & I & _).
  assert (run_result (demo_run demo_complete) = (g, rw, err)) as Q by (unfold demo_run, run_result; rewrite E; reflexivity).
  assert (snd (run_result (demo_run demo_complete)) = None) as N by (vm_compute; reflexivity). rewrite Q in N |- *.
  exists es. split; [exact R|]. rewrite A. f_equal. apply I. exact N.
Defined.

(** * Places where the code does not do what it means to *)

(** Numbers that are integer literals. *)
Definition demo_num : JsonNum := mkJsonNum Some (fun l => of_int (default 0 (ParseInt l))).

(** The streamed answer to a probe is complete, but the engine is not told: it takes the
    stream for one that broke off and appends an error frame. *)
Lemma probe_stream_flagged : exists g rw g' rw', TryMockMessagesProbe demo_num (fun _ => None) g rw 1 = Some (g', rw', None) /\
  Contains (rw_body rw') "message_stop" = true /\ Err (check_completion g') = Some premature.
Proof.
  exists (emptyContext <| IsStream := true |> <| RequestType := RequestTypeMessages |> <| RawBody := json_text "{'max_tokens':1,'messages':[{'role':'user','content':'.'}]}" |>), newResponse.
  eexists _, _. split; [vm_compute; reflexivity|]. split; vm_compute; reflexivity.
Qed.

(** An HTML page in place of the stream is an error, but the status 200 was sent before it was read. *)
Lemma html_error_after_commit : let '(_, rw, err) := run_result (demo_run [(ascii_list "<html>", ReadEOF)]) in
  err = Some (errorf "upstream returned HTML error response instead of SSE stream") /\ fst <$> rw_sent rw = Some 200.
Proof. vm_compute. split; reflexivity. Qed.

(** An error event of the upstream is not looked at on a Messages request: its message is lost. *)
Lemma messages_error_event_lost : let '(_, _, err) := run_result (demo_run [(ascii_list (json_text "data: {'error':{'message':'boom'}}") ++ [LF; LF], ReadEOF)]) in
  Error_text <$> err = Some "empty upstream stream: no content or completion signal received".
Proof. vm_compute. reflexivity. Qed.

(** A Chat stream that ends without a finish reason and without the end marker is reported as
    completed to a Responses client. *)
Lemma truncated_response_completed : let '(g, rw, err) := default (emptyContext, newResponse, None)
    (handleResponsesStream (demo_env [(demo_chunk "null", ReadEOF)]) (emptyContext <| Model := "m" |>) newResponse (mkBody [] None false) NewToolNameMapper) in
  err = None /\ Contains (rw_body rw) "response.completed" = true /\ GetTagValue g "response_completed_sent" = "true".
Proof. vm_compute. split_and!; reflexivity. Qed.
