(* ===== verification/JoyCode.v ===== *)
(** pkg/llm/providers/joycode.go: the JoyCode provider. Its event streams may arrive wrapped
    a second time (every line behind another data: prefix); the reader that restores them is
    modelled line by line. *)

From Stdlib Require Import Ascii.
From S2P Require Import Prelude GoFloat GoStrings GoTime GoJson GoPrint Matcher Policy Types Context Http.
From S2P Require Import Translate TranslateWire TranslateStream TranslateMessages TranslateResponses TranslateResponsesMessages TranslateResponsesStream.
From S2P Require Import Store Limiter Settlement Sse SmartRequest Upstream OpenAI Providers.

(** * The reader of wrapped streams (joycodeResponsesUnwrapReader) *)

Inductive unwrap_mode := UnwrapUnknown | UnwrapWrapped | UnwrapPassthrough.

(** [uw_lines], [uw_tail]: the lines the underlying reader still has, and the text behind the
    last of them, which comes with the end ([uw_err]; [None]: end of file). *)
Record unwrap_reader := mkUnwrap {
  uw_mode : unwrap_mode; uw_pendEvent : string; uw_buf : string; uw_lines : list string; uw_tail : string; uw_err : option goerror
}.
#[global] Instance eta_unwrap : Eta unwrap_reader := fun r => mkUnwrap (uw_mode r) (uw_pendEvent r) (uw_buf r) (uw_lines r) (uw_tail r) (uw_err r).

Definition nl : string := String LF "".
Definition write_buf (s : string) (r : unwrap_reader) : unwrap_reader := r <| uw_buf := uw_buf r +:+ s |>.
Definition with_newline (line : string) : string := if HasSuffix line nl then line else line +:+ nl.

(** A line without its trailing line ends is empty. *)
Definition blank (line : string) : bool := forallb (fun c => bool_decide (c = CR) || bool_decide (c = LF)) (ascii_list line).

Definition eventPrefix : string := "data: event:".
Definition dataPrefix : string := "data: data:".

(** An event line that is not followed by its data is passed on alone. *)
Definition flush_event (r : unwrap_reader) : unwrap_reader :=
  if is_empty (uw_pendEvent r) then r else write_buf (uw_pendEvent r +:+ nl) r.

Definition unwrap_line (line : string) (r : unwrap_reader) : unwrap_reader :=
  if HasPrefix line eventPrefix then (flush_event r) <| uw_pendEvent := with_newline ("event:" +:+ TrimPrefix line eventPrefix) |>
  else if HasPrefix line dataPrefix then
    write_buf (with_newline ("data:" +:+ TrimPrefix line dataPrefix) +:+ nl) ((write_buf (uw_pendEvent r) r) <| uw_pendEvent := "" |>)
  else r.

Definition processLine (line : string) (r : unwrap_reader) : unwrap_reader :=
  match uw_mode r with
  | UnwrapWrapped => unwrap_line line r
  | UnwrapPassthrough => write_buf line r
  | UnwrapUnknown =>
      if blank line then r
      else if HasPrefix line eventPrefix || HasPrefix line dataPrefix then unwrap_line line (r <| uw_mode := UnwrapWrapped |>)
      else write_buf line (r <| uw_mode := UnwrapPassthrough |>)
  end.

(** What the end of the underlying reader adds. *)
Definition at_eof (r : unwrap_reader) : unwrap_reader :=
  let r := (if is_empty (uw_tail r) then r else processLine (uw_tail r) r) <| uw_tail := "" |> in
  (flush_event r) <| uw_pendEvent := "" |>.

(** The loop of [Read]: lines are taken until there is something to return. *)
Fixpoint fill (lines : list string) (r : unwrap_reader) : unwrap_reader * option read_end :=
  if negb (is_empty (uw_buf r)) then (r <| uw_lines := lines |>, None)
  else match lines with
       | line :: rest => fill rest (processLine line r)
       | [] =>
           let r := at_eof (r <| uw_lines := [] |>) in
           (r, if is_empty (uw_buf r) then Some (match uw_err r with Some e => ReadErr e | None => ReadEOF end) else None)
       end.

Definition unwrap_Read (n : nat) (r : unwrap_reader) : unwrap_reader * (bytes * read_end) :=
  match fill (uw_lines r) r with
  | (r, Some e) => (r, ([], e))
  | (r, None) => (r <| uw_buf := string_drop n (uw_buf r) |>, (ascii_list (string_take n (uw_buf r)), ReadMore))
  end.

(** The lines [ReadString] gives, and the rest it returns with the end. *)
Fixpoint read_lines (l : bytes) : list string * string :=
  match l with
  | [] => ([], "")
  | c :: r =>
      let '(ls, tail) := read_lines r in
      if bool_decide (c = LF) then (nl :: ls, tail)
      else match ls with l :: ls => (String c l :: ls, tail) | [] => ([], String c tail) end
  end.

Definition newUnwrapReader (data : bytes) (err : option goerror) : unwrap_reader :=
  let '(ls, tail) := read_lines data in mkUnwrap UnwrapUnknown "" "" ls tail err.

(** Reading with the given buffer sizes up to the end. *)
Fixpoint unwrap_reads (sizes : list nat) (r : unwrap_reader) : bytes * read_end :=
  match sizes with
  | [] => ([], ReadMore)
  | n :: sizes =>
      match unwrap_Read n r with
      | (r, (chunk, ReadMore)) => let '(data, e) := unwrap_reads sizes r in (chunk ++ data, e)
      | (_, x) => x
      end
  end.

(** All that can be read. *)
Definition unwrap_all (r : unwrap_reader) : string := uw_buf (at_eof (fold_left (fun r line => processLine line r) (uw_lines r) (r <| uw_lines := [] |>))).
Definition unwrap_body (b : upstream_body) : upstream_body := mkBody (ascii_list (unwrap_all (newUnwrapReader (b_data b) (b_err b)))) (b_err b) false.

(** * Requests *)

(** The process environment, HMAC-SHA256 in hexadecimal, and fresh request identifiers. *)
Record joy_env := mkJoyEnv { je_Getenv : string -> string; je_hmac : string -> string -> string; je_uuid : string }.

Record JoyCodeProvider := mkJoyCode { jp_name : string; jp_baseURL : string; jp_apiKey : string; jp_models : list string }.

Definition NewJoyCodeProvider (name baseURL apiKey : string) (models : list string) : JoyCodeProvider :=
  let baseURL := if is_empty baseURL || seqb baseURL "http://joycode-api-saas.jd.com" then "https://api-ai.jd.com" else baseURL in
  mkJoyCode name (trim_slashes baseURL) apiKey models.

Definition JoyCode_RequestTypes : list string := [RequestTypeChatCompletion; RequestTypeResponses; RequestTypeMessages].

Definition getLoginTypeForPtKey (ptKey : string) : string := if HasPrefix ptKey "BJ." then "ERP" else "N_PIN_PC".

(** The identifier and the key a URL is signed with. *)
Definition sign_keys (J : joy_env) (baseURL : string) : (string * string) + goerror :=
  let appID := je_Getenv J "JOYCODE_APPID" in
  let signKey := je_Getenv J "JOYCODE_SIGN_KEY" in
  if is_empty appID && is_empty signKey then
    if Contains baseURL "api-ai.jd.com" then inl ("joycode_ide", "0691a3f0b37b4a85aeb63ad0fc7db3ed")
    else inr (errorf "JOYCODE_APPID environment variable is missing")
  else if is_empty appID then inr (errorf "JOYCODE_APPID environment variable is missing")
  else if is_empty signKey then inr (errorf "JOYCODE_SIGN_KEY environment variable is missing")
  else inl (appID, signKey).

Definition signJoyCodeGatewayURL (J : joy_env) (now : Time) (baseURL functionID : string) : string + goerror :=
  let baseURL := TrimSuffix (TrimSpace baseURL) "/" in
  let t := Itoa (Z.quot (unix_nano now) Millisecond) in
  match sign_keys J baseURL with
  | inr e => inr e
  | inl (appID, signKey) =>
      let sign := je_hmac J signKey (appID +:+ "&" +:+ functionID +:+ "&" +:+ t) in
      inl (baseURL +:+ "/api?appid=" +:+ appID +:+ "&functionId=" +:+ functionID +:+ "&t=" +:+ t +:+ "&sign=" +:+ sign)
  end.

(** The address of a function: signed on the public gateway, a path of its own elsewhere. *)
Definition joy_url (J : joy_env) (now : Time) (p : JoyCodeProvider) (functionID path : string) : string + goerror :=
  if HasPrefix (jp_baseURL p) "https://" then signJoyCodeGatewayURL J now (jp_baseURL p) functionID else inl (jp_baseURL p +:+ path).

Definition getEffectiveAPIKey (p : JoyCodeProvider) (g : GatewayContext) : string :=
  match SelectedEndpoint g with Some ep => if is_empty (ep_APIKey ep) then jp_apiKey p else ep_APIKey ep | None => jp_apiKey p end.

Definition client_headers (J : joy_env) (apiKey : string) (h : headers) : headers :=
  let h := header_set (header_set h "ptKey" apiKey) "loginType" (getLoginTypeForPtKey apiKey) in
  header_set (header_set (header_set h "x-ms-client-request-id" (je_uuid J)) "client" "JoyCodeIDE") "clientVersion" "3.8.61".

Definition JoyCode_HealthCheck (J : joy_env) (now : Time) (post : string -> headers -> string -> Z + goerror) (p : JoyCodeProvider) : option goerror :=
  match joy_url J now p "modelList" "/api/saas/models/v2/modelList" with
  | inr e => Some e
  | inl url => health_error (post url (client_headers J (jp_apiKey p) (header_set ∅ "Content-Type" "application/json; charset=UTF-8")) "{}")
  end.

Definition joyCodeAuthHeaders (J : joy_env) (g : GatewayContext) (apiKey : string) (isAnthropic : bool) : headers :=
  let h := header_set (client_headers J apiKey ∅) "Content-Type" "application/json; charset=UTF-8" in
  if isAnthropic then
    let beta := match Request g with Some r => header_Get (req_Header r) "anthropic-beta" | None => "" end in
    let h := if is_empty beta then h else header_set h "anthropic-beta" beta in
    header_set h "anthropic-version" (if is_empty (client_version g) then "2023-06-01" else client_version g)
  else h.

Definition isAnthropicModel (model : string) (g : GatewayContext) : bool :=
  Contains (ToLower model) "claude" ||
  match SelectedEndpoint g with Some ep => bool_decide (ep_Metadata ep !! "adapter" = Some "anthropic") | None => false end.

Definition endpointDeclaresRequestType (ep : option Endpoint) (requestType : string) : bool :=
  match ep with Some ep => existsb (fun c => seqb c requestType) (ep_RequestTypes ep) | None => false end.

(** ** Request bodies *)

(** Enabled thinking becomes adaptive, with the effort set to high. *)
Definition adapt_thinking (thinking m : obj) : obj :=
  if seqb (get_str "type" thinking) "enabled" then
    put "output_config" (JObj [("effort", JStr "high")]) (put "thinking" (JObj (del "budget_tokens" (put "type" (JStr "adaptive") thinking))) m)
  else m.
Definition adaptThinkingBehavior (N : JsonNum) (body : string) : string :=
  match decode_map N body with
  | Some (Some m) => match as_map (get "thinking" m) with Some thinking => Marshal (JObj (adapt_thinking thinking m)) | None => body end
  | _ => body
  end.

Definition thinking_block (b : json) : bool := match b with JObj m => seqb (get_str "type" m) "thinking" | _ => false end.

(** A message without its thinking blocks ([None]: it has none); the slice of the blocks that
    stay is nil when there are none. *)
Definition clean_message (msg : json) : option json :=
  match msg with
  | JObj m =>
      match as_list (get "content" m) with
      | Some blocks => if existsb thinking_block blocks then Some (JObj (put "content" (slice (List.filter (fun b => negb (thinking_block b)) blocks)) m)) else None
      | None => None
      end
  | _ => None
  end.
Definition cleanThinkingInHistory (N : JsonNum) (body : string) : string :=
  match decode_map N body with
  | Some (Some m) =>
      match as_list (get "messages" m) with
      | Some msgs =>
          if existsb (fun x => bool_decide (is_Some (clean_message x))) msgs
          then Marshal (JObj (put "messages" (JArr (map (fun x => default x (clean_message x)) msgs)) m))
          else body
      | None => body
      end
  | _ => body
  end.

(** The document [null] gives a nil map, which cannot be written to. *)
Definition injectJoyCodePayload (N : JsonNum) (rawBody : string) : go string :=
  match decode_map N rawBody with
  | None => Ret rawBody
  | Some None => Panic
  | Some (Some m) => Ret (Marshal (JObj (EnsureChatReasoningHistory (put "clientVersion" (JStr "3.8.61") (put "client" (JStr "JoyCodeIDE") m)))))
  end.

(** ** Calls *)

Definition failed (g : GatewayContext) (rw : ResponseWriter) (a : attempt_state) (e : goerror) : exchange := mkExchange g rw a (Some e) None.

Definition callAnthropic (J : joy_env) (E : provider_env) (p : JoyCodeProvider) (g : GatewayContext) (body : string) : call_result :=
  match joy_url J (pe_clock E 0) p "anthropic_completions" "/api/saas/anthropic/v1/messages" with
  | inr e => (g, no_attempt, inr e)
  | inl url => env_Call E g url body (joyCodeAuthHeaders J g (getEffectiveAPIKey p g) true)
  end.

(** A complete body, which closes the attempt. *)
Definition whole_body (b : upstream_body) : string + goerror :=
  match b_err b with Some e => inr (wrap_error "read response body: " e) | None => inl (string_of (b_data b)) end.

(** A stream is left to the caller, with the body it reads. *)
Definition doOpenAIRequest (J : joy_env) (E : provider_env) (p : JoyCodeProvider) (g : GatewayContext) (rw : ResponseWriter) (functionID : string) : go exchange :=
  let path := if seqb functionID "responses_completions" then "/api/saas/openai/v2/responses/completions" else "/api/saas/openai/v2/chat/completions" in
  match joy_url J (pe_clock E 0) p functionID path with
  | inr e => Ret (failed g rw no_attempt e)
  | inl url =>
      let! body := injectJoyCodePayload (pe_num E) (RawBody g) in
      let '(g, a, res) := env_Call E g url body (joyCodeAuthHeaders J g (getEffectiveAPIKey p g) false) in
      Ret (match res with
           | inr e => failed g rw a e
           | inl (resp, b) =>
               if IsStream g then mkExchange g rw a None (Some (resp, b))
               else match whole_body b with
                    | inr e => failed g rw (cancel_Close a) e
                    | inl body => mkExchange (TriggerFirstByte (g <| UpstreamBody := Some body |>) (pe_clock E 0)) rw (cancel_Close a) None None
                    end
           end)
  end.

(** A stream of the Chat protocol, passed on. *)
Definition relay_stream (E : provider_env) (x : exchange) (b : upstream_body) : option exchange :=
  (fun '(r, err) => mkExchange (rl_g r) (rl_rw r) (cancel_Close (x_attempt x)) err None) <$>
    handleOpenAIStream (pe_write E) (pe_ctx E) (pe_clock E) (x_g x) (x_rw x) (pe_reads E b).

Definition count_usage (extract : string -> usage4) (g : GatewayContext) : GatewayContext := ApplyUsage g (extract (body_bytes (UpstreamBody g))).

Definition invokeOpenAI (J : joy_env) (E : provider_env) (p : JoyCodeProvider) (g : GatewayContext) (rw : ResponseWriter) : go (option exchange) :=
  let! x := doOpenAIRequest J E p g rw "chat_completions" in
  Ret (match x_err x, x_handoff x with
       | Some _, _ => Some x
       | None, Some (_, b) => relay_stream E x b
       | None, None => Some (mkExchange (count_usage OpenAITokenExtractor (x_g x)) (x_rw x) (x_attempt x) None None)
       end).

Definition invokeNativeResponses (J : joy_env) (E : provider_env) (p : JoyCodeProvider) (g : GatewayContext) (rw : ResponseWriter) : go (option exchange) :=
  let! x := doOpenAIRequest J E p g rw "responses_completions" in
  Ret (match x_err x, x_handoff x with
       | Some _, _ => Some x
       | None, Some (_, b) => relay_stream E x (unwrap_body b)
       | None, None =>
           let g := x_g x in
           let g := match decode_map (pe_num E) (body_bytes (UpstreamBody g)) with Some m => g <| Response := m ≫= fun _ => UpstreamBody g |> | None => g end in
           Some (mkExchange (count_usage ResponsesTokenExtractor g) (x_rw x) (x_attempt x) None None)
       end).

(** ** Messages streams for Chat clients (handleAnthropicStreamToOpenAI) *)

Record chat_relay := mkChatRelay { cy_g : GatewayContext; cy_rw : ResponseWriter; cy_parser : SSEParser; cy_stream : MessagesToChatStream }.
#[global] Instance eta_chat_relay : Eta chat_relay := fun r => mkChatRelay (cy_g r) (cy_rw r) (cy_parser r) (cy_stream r).

(** Errors of writing are ignored. *)
Definition data_out (write : bytes -> option goerror) (data : string) (rw : ResponseWriter) : ResponseWriter := fst (frame_out write rw (writeSSEData data)).

Definition chat_counts (m : StreamChunkMeta) (g : GatewayContext) : GatewayContext :=
  let g := if 0 <? sm_CachedTokens m then g <| CachedTokens := sm_CachedTokens m |> else g in
  let g := if 0 <? sm_CacheCreationTokens m then g <| CacheCreationTokens := sm_CacheCreationTokens m |> else g in
  let g := if 0 <? sm_InputTokens m then g <| InputTokens := wrap64 (wrap64 (sm_InputTokens m + sm_CachedTokens m) + sm_CacheCreationTokens m) |> else g in
  let g := if 0 <? sm_OutputTokens m then g <| OutputTokens := sm_OutputTokens m |> else g in
  if 0 <? sm_TransmittedChars m then g <| TransmittedChars := wrap64 (TransmittedChars g + sm_TransmittedChars m) |> else g.

(** The events of a read; [true]: the stream was completed. *)
Fixpoint feed_chat (N : JsonNum) (write : bytes -> option goerror) (now : Time) (r : chat_relay) (evs : list SSEEvent) : chat_relay * bool :=
  match evs with
  | [] => (r, false)
  | ev :: rest =>
      let g := TriggerFirstByte (cy_g r) now in
      if ev_Done ev then (r <| cy_g := g |> <| cy_rw := data_out write "[DONE]" (cy_rw r) |>, true)
      else
        let '(s, chunks, meta) := M2C_FeedJSON N (cy_stream r) (ev_Data ev) in
        let rw := fold_left (fun rw c => data_out write (Marshal c) rw) chunks (cy_rw r) in
        let r := r <| cy_g := chat_counts meta g |> <| cy_stream := s |> in
        if sm_EmitDone meta then (r <| cy_rw := data_out write "[DONE]" rw |>, true)
        else feed_chat N write now (r <| cy_rw := rw |>) rest
  end.

Fixpoint chat_loop (N : JsonNum) (write : bytes -> option goerror) (clock : nat -> Time) (r : chat_relay) (reads : list (bytes * read_end)) : option (chat_relay * option goerror) :=
  match reads with
  | [] => None
  | (chunk, e) :: rest =>
      let '(r, completed) := match chunk with
        | [] => (r, false)
        | _ => let '(parser, evs) := Feed (cy_parser r) chunk in feed_chat N write (clock (length rest)) (r <| cy_parser := parser |>) evs
        end in
      if completed then Some (r, None)
      else match e with
           | ReadMore => chat_loop N write clock r rest
           | ReadEOF => Some (r, None)
           | ReadErr err => Some (r, Some (wrap_error "read upstream stream: " err))
           end
  end.

Definition chat_headers (rw : ResponseWriter) : ResponseWriter :=
  commit_ok (rw_Set "X-Accel-Buffering" "no" (rw_Set "Connection" "keep-alive" (rw_Set "Cache-Control" "no-cache" (rw_Set "Content-Type" "text/event-stream; charset=utf-8" rw)))).

Definition handleAnthropicStreamToOpenAI (E : provider_env) (g : GatewayContext) (rw : ResponseWriter) (b : upstream_body) : option (GatewayContext * ResponseWriter * option goerror) :=
  (fun '(r, err) => (cy_g r, cy_rw r, err)) <$>
    chat_loop (pe_num E) (pe_write E) (pe_clock E) (mkChatRelay g (chat_headers rw) NewSSEParser (NewMessagesToChatStream (Model g) (unix_seconds (pe_clock E 0)))) (pe_reads E b).

(** ** Invokers *)

Definition output_limit (g : GatewayContext) : option Z := Some (match SelectedEndpoint g with Some ep => ep_MaxOutputTokens ep | None => 0 end).

Definition invokeAnthropic (J : joy_env) (E : provider_env) (p : JoyCodeProvider) (g : GatewayContext) (rw : ResponseWriter) (model : string) : go (option exchange) :=
  match ChatRequestToMessages (pe_num E) (RawBody g) model (output_limit g) with
  | inr e => Ret (Some (failed g rw no_attempt (wrap_error "translate openAI to anthropic request: " e)))
  | inl body =>
      let! body := injectJoyCodePayload (pe_num E) (adaptThinkingBehavior (pe_num E) body) in
      let '(g, a, res) := callAnthropic J E p g body in
      Ret (match res with
           | inr e => Some (failed g rw a e)
           | inl (_, b) =>
               if IsStream g then (fun y => closed_exchange y (cancel_Close a)) <$> handleAnthropicStreamToOpenAI E g rw b
               else Some (match whole_body b with
                    | inr e => failed g rw (cancel_Close a) e
                    | inl body =>
                        match MessagesToChatCompletion (pe_num E) body model (unix_seconds (pe_clock E 0)) with
                        | inr e => failed g rw (cancel_Close a) (wrap_error "translate anthropic response: " e)
                        | inl (body, u) =>
                            mkExchange (ApplyUsage (TriggerFirstByte (g <| UpstreamBody := Some body |>) (pe_clock E 0)) (usage_counts u)) rw (cancel_Close a) None None
                        end
                    end)
           end)
  end.

(** A Messages request for a Messages upstream; the passthrough leaves the body open. *)
Definition doAnthropicMessagesDirect (J : joy_env) (E : provider_env) (p : JoyCodeProvider) (g : GatewayContext) (rw : ResponseWriter) : go (option exchange) :=
  let rawBody := match CorrectNativeMessagesRequest (pe_num E) (RawBody g) with inl corrected => corrected | inr _ => RawBody g end in
  let! body := injectJoyCodePayload (pe_num E) (adaptThinkingBehavior (pe_num E) (cleanThinkingInHistory (pe_num E) rawBody)) in
  let '(g, a, res) := callAnthropic J E p g body in
  Ret (match res with
       | inr e => Some (failed g rw a e)
       | inl (resp, b) =>
           if IsStream g then
             let contentType := header_Get (resp_Header resp) "Content-Type" in
             if Contains (ToLower contentType) "text/event-stream" then (fun y => closed_exchange y a) <$> pass_stream E AnthropicTokenExtractor g rw b
             else let body := string_of (b_data b) in
                  Some (failed (g <| UpstreamBody := Some body |>) rw (cancel_Close a) (errorf (not_a_stream contentType (b_data b))))
           else Some (match whole_body b with
                | inr e => failed g rw (cancel_Close a) e
                | inl body =>
                    mkExchange (count_usage AnthropicTokenExtractor (TriggerFirstByte (g <| UpstreamBody := Some body |>) (pe_clock E 0))) rw (cancel_Close a) None None
                end)
       end).

Definition invokeAnthropicResponses (IsPrint : list ascii -> bool) (J : joy_env) (E : provider_env) (p : JoyCodeProvider) (g : GatewayContext) (rw : ResponseWriter) (model : string) : go (option exchange) :=
  match ResponsesRequestToMessages IsPrint (pe_num E) (RawBody g) model (output_limit g) with
  | inr e => Ret (Some (failed g rw no_attempt (wrap_error "translate responses to messages: " e)))
  | inl (body, _, _) =>
      let! body := injectJoyCodePayload (pe_num E) (adaptThinkingBehavior (pe_num E) body) in
      let '(g, a, res) := callAnthropic J E p (g <| RawBody := body |>) body in
      Ret (match res with
           | inr e => Some (failed g rw a (enrichAnthropicError e (UpstreamBody g)))
           | inl (_, b) =>
               if IsStream g then (fun y => closed_exchange y (cancel_Close a)) <$> handleAnthropicResponsesStream E g rw (unwrap_body b)
               else Some (match whole_body b with
                    | inr e => failed g rw (cancel_Close a) e
                    | inl _ => let '(g, err) := anthropic_complete E g b in mkExchange g rw (cancel_Close a) err None
                    end)
           end)
  end.

Definition joycode_model (fallback : string) (g : GatewayContext) : string := if is_empty (Model g) then fallback else Model g.

Definition joycode_chat (J : joy_env) (E : provider_env) (p : JoyCodeProvider) (g : GatewayContext) (rw : ResponseWriter) : go (option exchange) :=
  let model := joycode_model "Kimi-K2.6" g in
  if isAnthropicModel model g then invokeAnthropic J E p g rw model else invokeOpenAI J E p g rw.

Definition joycode_responses (IsPrint : list ascii -> bool) (J : joy_env) (E : provider_env) (p : JoyCodeProvider) (g : GatewayContext) (rw : ResponseWriter) : go (option exchange) :=
  let model := joycode_model "Kimi-K2.6" g in
  if isAnthropicModel model g then invokeAnthropicResponses IsPrint J E p g rw model
  else if endpointDeclaresRequestType (SelectedEndpoint g) RequestTypeChatCompletion && negb (endpointDeclaresRequestType (SelectedEndpoint g) RequestTypeResponses) then
    let! res := ResponsesRequestToChat (pe_num E) (RawBody g) in
    match res with
    | inr e => Ret (Some (failed g rw no_attempt (wrap_error "translate responses to chat completion: " e)))
    | inl (body, mapper) =>
        let! x := doOpenAIRequest J E p (g <| RawBody := body |>) rw "chat_completions" in
        Ret (match x_err x, x_handoff x with
             | Some _, _ => Some x
             | None, Some (_, b) => (fun y => closed_exchange y (cancel_Close (x_attempt x))) <$> handleResponsesStream E (x_g x) (x_rw x) b mapper
             | None, None =>
                 let '(g, err) := translateResponsesNonStreamResponse E (x_g x) mapper in
                 Some (mkExchange g (x_rw x) (x_attempt x) (wrap_error "translate response: " <$> err) None)
             end)
    end
  else invokeNativeResponses J E p g rw.

Definition joycode_messages (J : joy_env) (E : provider_env) (p : JoyCodeProvider) (g : GatewayContext) (rw : ResponseWriter) : go (option exchange) :=
  match TryMockMessagesProbe (pe_num E) (pe_write E) g rw (pe_clock E 0) with
  | Some x => Ret (Some (closed_exchange x no_attempt))
  | None =>
      if isAnthropicModel (joycode_model "claude-3-5-sonnet-v2" g) g then doAnthropicMessagesDirect J E p g rw
      else
        let! res := MessagesRequestToChat (pe_num E) (RawBody g) (IsOfficialOrTestBaseURL (jp_baseURL p)) in
        match res with
        | inr e => Ret (Some (failed g rw no_attempt e))
        | inl body =>
            let! x := doOpenAIRequest J E p (g <| RawBody := body |>) rw "chat_completions" in
            match x_err x, x_handoff x with
            | Some _, _ => Ret (Some x)
            | None, Some (resp, b) =>
                let! y := handleMessagesStream E (x_g x) (x_rw x) resp b in
                Ret ((fun y => closed_exchange y (cancel_Close (x_attempt x))) <$> y)
            | None, None =>
                let '(g, rw, err) := translateNonStreamResponse E (x_g x) (x_rw x) in
                Ret (Some (mkExchange g rw (x_attempt x) (wrap_error "translate response: " <$> err) None))
            end
        end
  end.

Definition JoyCode_Invoke (IsPrint : list ascii -> bool) (J : joy_env) (E : provider_env) (p : JoyCodeProvider) (g : GatewayContext) (rw : ResponseWriter) : go (option exchange) :=
  if seqb (RequestType g) RequestTypeChatCompletion then joycode_chat J E p g rw
  else if seqb (RequestType g) RequestTypeResponses then joycode_responses IsPrint J E p g rw
  else if seqb (RequestType g) RequestTypeMessages then joycode_messages J E p g rw
  else Ret (Some (failed g rw no_attempt (errorf ("unsupported request type: " +:+ RequestType g)))).

(** * Reading a wrapped stream *)

Definition end_of (r : unwrap_reader) : read_end := match uw_err r with Some e => ReadErr e | None => ReadEOF end.

(** What is in the buffer stays in front of what a line adds. *)
Definition with_front (s : string) (r : unwrap_reader) : unwrap_reader := r <| uw_buf := s +:+ uw_buf r |>.

Lemma processLine_front line s r : processLine line (with_front s r) = with_front s (processLine line r).
Proof.
  destruct r as [[] p b ls t e]; unfold processLine, unwrap_line, flush_event, write_buf, with_front; cbn;
    repeat case_match; cbn; rewrite ?append_assoc; reflexivity.
Qed.

Lemma at_eof_front s r : at_eof (with_front s r) = with_front s (at_eof r).
Proof.
  unfold at_eof. cbn [with_front uw_tail]. change (uw_tail (with_front s r)) with (uw_tail r). rewrite processLine_front.
  destruct (is_empty (uw_tail r)); unfold flush_event, with_front, write_buf; cbn; repeat case_match; cbn; rewrite ?append_assoc; reflexivity.
Qed.

Lemma lines_front lines s : forall r, fold_left (fun r line => processLine line r) lines (with_front s r) = with_front s (fold_left (fun r line => processLine line r) lines r).
Proof. induction lines as [|l lines IH]; intros r; [done|]. cbn [fold_left]. by rewrite processLine_front, IH. Qed.

Lemma processLine_rest line r : uw_lines (processLine line r) = uw_lines r /\ uw_tail (processLine line r) = uw_tail r /\ uw_err (processLine line r) = uw_err r.
Proof. destruct r as [[] p b ls t e]; unfold processLine, unwrap_line, flush_event, write_buf; cbn; repeat case_match; done. Qed.

Lemma at_eof_rest r : uw_lines (at_eof r) = uw_lines r /\ uw_tail (at_eof r) = "" /\ uw_pendEvent (at_eof r) = "" /\ uw_err (at_eof r) = uw_err r.
Proof.
  unfold at_eof, flush_event, write_buf. destruct (processLine_rest (uw_tail r) r) as (L & T & E). by repeat case_match.
Qed.

Lemma unwrap_drained r : uw_lines r = [] -> uw_tail r = "" -> uw_pendEvent r = "" -> unwrap_all r = uw_buf r.
Proof. destruct r as [m p b ls t e]. cbn. by intros -> -> ->. Qed.

(** The loop of a read loses nothing, and stops with something to return or at the end. *)
Lemma fill_spec lines : forall r r' e, fill lines r = (r', e) -> uw_err r' = uw_err r /\
  match e with
  | None => uw_buf r' <> "" /\ unwrap_all r' = unwrap_all (r <| uw_lines := lines |>)
  | Some e => e = end_of r /\ unwrap_all (r <| uw_lines := lines |>) = ""
  end.
Proof.
  induction lines as [|line lines IH]; intros r r' e; cbn [fill]; destruct (is_empty (uw_buf r)) eqn:B; cbn [negb].
  2, 4: intros [= <- <-]; (split; [done|]); split; [|done]; by apply seqb_neq.
  - set (r1 := at_eof _). destruct (at_eof_rest (r <| uw_lines := [] |>)) as (L & T & P & E). fold r1 in L, T, P, E.
    assert (unwrap_all r1 = uw_buf r1) as U by (by apply unwrap_drained).
    assert (unwrap_all (r <| uw_lines := [] |>) = uw_buf r1) as U1 by done. clearbody r1. cbn in E. rewrite U1.
    destruct (is_empty (uw_buf r1)) eqn:B1; intros [= <- <-]; (split; [done|]).
    + split; [unfold end_of; by rewrite E|]. by apply seqb_eq.
    + split; [by apply seqb_neq|done].
  - intros F. destruct (processLine_rest line r) as (L & T & E). destruct (IH _ _ _ F) as [E1 S]. rewrite E1, E. split; [done|].
    unfold end_of in *. rewrite E in S.
    assert (unwrap_all ((processLine line r) <| uw_lines := lines |>) = unwrap_all (r <| uw_lines := line :: lines |>)) as <-; [|done].
    unfold unwrap_all. cbn [fold_left uw_lines]. f_equal. f_equal.
    destruct r as [[] p b ls t er]; unfold processLine, unwrap_line, flush_event, write_buf; cbn; repeat case_match; reflexivity.
Qed.

Lemma unwrap_all_front s r : unwrap_all (with_front s r) = s +:+ unwrap_all r.
Proof.
  unfold unwrap_all. change (uw_lines (with_front s r)) with (uw_lines r).
  change ((with_front s r) <| uw_lines := [] |>) with (with_front s (r <| uw_lines := [] |>)). by rewrite lines_front, at_eof_front.
Qed.

(** A read returns a piece of what is left, or the end when nothing is. *)
Lemma unwrap_Read_spec n r r' chunk e : (0 < n)%nat -> unwrap_Read n r = (r', (chunk, e)) -> uw_err r' = uw_err r /\
  match e with
  | ReadMore => chunk <> [] /\ unwrap_all r = string_of chunk +:+ unwrap_all r'
  | _ => chunk = [] /\ e = end_of r /\ unwrap_all r = ""
  end.
Proof.
  intros Hn. unfold unwrap_Read. destruct (fill (uw_lines r) r) as [r1 [e1|]] eqn:F; destruct (fill_spec _ _ _ _ F) as [E S].
  - intros [= <- <- <-]. split; [done|]. destruct S as [-> S]. unfold end_of. destruct r; cbn in *. by destruct uw_err0.
  - intros [= <- <- <-]. split; [done|]. destruct S as [B U]. rewrite string_of_list. split.
    + destruct n as [|n]; [lia|]. destruct (uw_buf r1); [done|]. cbn. discriminate.
    + rewrite <- unwrap_all_front. transitivity (unwrap_all r1); [rewrite U; by destruct r|]. f_equal.
      unfold with_front. destruct r1. cbn. by rewrite string_take_drop.
Qed.

(** However the caller reads, it gets exactly [unwrap_all], and then the end. *)
Lemma unwrap_reads_exact sizes : forall r, Forall (lt 0) sizes -> (String.length (unwrap_all r) < length sizes)%nat ->
  unwrap_reads sizes r = (ascii_list (unwrap_all r), end_of r).
Proof.
  induction sizes as [|n sizes IH]; intros r P L; [cbn in L; lia|]. apply Forall_cons in P as [Pn P]. cbn [unwrap_reads].
  destruct (unwrap_Read n r) as [r1 [chunk e]] eqn:R. destruct (unwrap_Read_spec _ _ _ _ _ Pn R) as [E S]. destruct e.
  2, 3: destruct S as (-> & <- & ->); done.
  destruct S as [C U]. rewrite U in *. rewrite IH; [|done|].
  - unfold end_of. by rewrite E, ascii_list_app, ascii_list_of.
  - destruct chunk as [|c chunk]; [done|]. rewrite length_append in L. cbn [length string_of String.length] in L. lia.
Qed.

(** ** Frames *)

(** A frame of a standard stream, and the same behind another data: prefix; the texts are
    what follows the colon. *)
Definition standard_frame (f : option string * string) : bytes :=
  (match fst f with Some e => ascii_list ("event:" +:+ e) ++ [LF] | None => [] end) ++ ascii_list ("data:" +:+ snd f) ++ [LF; LF].
Definition wrapped_frame (f : option string * string) : bytes :=
  (match fst f with Some e => ascii_list (eventPrefix +:+ e) ++ [LF; LF] | None => [] end) ++ ascii_list (dataPrefix +:+ snd f) ++ [LF; LF].
Definition one_line (s : string) : Prop := LF ∉ ascii_list s.
Definition frame_lines (f : option string * string) : Prop := match fst f with Some e => one_line e | None => True end /\ one_line (snd f).

Lemma one_line_dec s : bool_decide (LF ∈ ascii_list s) = false -> one_line s.
Proof. by intros H%bool_decide_eq_false. Qed.

Lemma length_ascii_list s : length (ascii_list s) = String.length s.
Proof. induction s as [|c s IH]; [done|]. cbn. by rewrite <- IH. Qed.

Lemma read_lines_line s rest : one_line s -> read_lines (ascii_list s ++ LF :: rest) = ((s +:+ nl) :: fst (read_lines rest), snd (read_lines rest)).
Proof.
  unfold one_line. induction s as [|c s IH]; intros N; cbn [ascii_list app read_lines].
  - destruct (read_lines rest) as [ls t]. by rewrite bool_decide_true by done.
  - cbn in N. apply not_elem_of_cons in N as [Nc N]. fold (ascii_list s) in *. rewrite (IH N). rewrite bool_decide_false by congruence. done.
Qed.

Lemma with_newline_nl s : with_newline (s +:+ nl) = s +:+ nl.
Proof. unfold with_newline. assert (HasSuffix (s +:+ nl) nl = true) as -> by (apply HasSuffix_spec; eauto). done. Qed.

Definition run_lines (ls : list string) (r : unwrap_reader) : unwrap_reader := fold_left (fun r line => processLine line r) ls r.

Lemma string_of_LF l : string_of (LF :: l) = nl +:+ string_of l.
Proof. done. Qed.

Lemma blank_skipped r : uw_mode r <> UnwrapPassthrough -> processLine nl r = r.
Proof. unfold processLine. by destruct (uw_mode r). Qed.

Lemma TrimPrefix_app p s : TrimPrefix (p +:+ s) p = s.
Proof. unfold TrimPrefix. assert (HasPrefix (p +:+ s) p = true) as -> by (apply HasPrefix_spec; eauto). apply string_drop_append. Qed.

Lemma wrapped_line line r : uw_mode r <> UnwrapPassthrough -> blank line = false -> HasPrefix line eventPrefix || HasPrefix line dataPrefix = true ->
  processLine line r = unwrap_line line (r <| uw_mode := UnwrapWrapped |>).
Proof. intros M B P. unfold processLine. destruct (uw_mode r) eqn:E; [by rewrite B, P|destruct r; cbn in E; by subst|done]. Qed.

Lemma event_kept r e : uw_mode r <> UnwrapPassthrough -> uw_pendEvent r = "" ->
  processLine ((eventPrefix +:+ e) +:+ nl) r = r <| uw_mode := UnwrapWrapped |> <| uw_pendEvent := ("event:" +:+ e) +:+ nl |>.
Proof.
  intros M P. rewrite append_assoc, wrapped_line by done. unfold unwrap_line. change (HasPrefix (eventPrefix +:+ (e +:+ nl)) eventPrefix) with true. cbn iota.
  rewrite TrimPrefix_app, <- append_assoc, with_newline_nl. destruct r. cbn in P. by subst.
Qed.

Lemma data_paired r d : uw_mode r <> UnwrapPassthrough ->
  processLine ((dataPrefix +:+ d) +:+ nl) r = r <| uw_mode := UnwrapWrapped |> <| uw_pendEvent := "" |> <| uw_buf := uw_buf r +:+ uw_pendEvent r +:+ ("data:" +:+ d) +:+ nl +:+ nl |>.
Proof.
  intros M. rewrite append_assoc, wrapped_line by done. unfold unwrap_line. change (HasPrefix (dataPrefix +:+ (d +:+ nl)) eventPrefix) with false.
  change (HasPrefix (dataPrefix +:+ (d +:+ nl)) dataPrefix) with true. cbn iota.
  rewrite TrimPrefix_app, <- append_assoc, with_newline_nl. unfold write_buf. generalize ("data:" +:+ d) as x. intros x. destruct r. cbn. by rewrite !append_assoc.
Qed.

(** The lines of wrapped frames, read by a reader that has not met anything else. *)
Lemma frames_run frames er : forall m b, Forall frame_lines frames -> m <> UnwrapPassthrough ->
  snd (read_lines (concat (map wrapped_frame frames))) = "" /\
  exists m', run_lines (fst (read_lines (concat (map wrapped_frame frames)))) (mkUnwrap m "" b [] "" er) =
    mkUnwrap m' "" (b +:+ string_of (concat (map standard_frame frames))) [] "" er.
Proof.
  induction frames as [|[ev d] frames IH]; intros m b F M; [cbn; rewrite append_nil_r; eauto|].
  apply Forall_cons in F as [[Fe Fd] F]. cbn [fst snd] in Fe, Fd.
  assert (forall e, one_line e -> one_line (eventPrefix +:+ e)) as Pe by (intros e He; unfold one_line; rewrite ascii_list_app; set_solver by done).
  assert (forall e, one_line e -> one_line (dataPrefix +:+ e)) as Pd by (intros e He; unfold one_line; rewrite ascii_list_app; set_solver by done).
  assert (forall rest, read_lines (LF :: rest) = (nl :: fst (read_lines rest), snd (read_lines rest))) as Rl by (intros rest; apply (read_lines_line "" rest); unfold one_line; set_solver).
  assert (forall ls r, run_lines (((dataPrefix +:+ d) +:+ nl) :: nl :: ls) r = run_lines ls (processLine nl (processLine ((dataPrefix +:+ d) +:+ nl) r))) as Rd by done.
  assert (forall e ls r, run_lines (((eventPrefix +:+ e) +:+ nl) :: nl :: ls) r = run_lines ls (processLine nl (processLine ((eventPrefix +:+ e) +:+ nl) r))) as Re by done.
  cbn [map concat]. unfold wrapped_frame at 1 3. unfold standard_frame at 1. cbn [fst snd]. rewrite <- !app_assoc. cbn [app]. set (rest := concat (map wrapped_frame frames)) in *.
  destruct ev as [e|]; rewrite <- ?app_assoc; cbn [app].
  - rewrite (read_lines_line _ _ (Pe _ Fe)), Rl, (read_lines_line _ _ (Pd _ Fd)), Rl. cbn [fst snd].
    rewrite Re, event_kept, blank_skipped by done. rewrite Rd, data_paired, blank_skipped by done.
    destruct (IH UnwrapWrapped (b +:+ (("event:" +:+ e) +:+ nl) +:+ ("data:" +:+ d) +:+ nl +:+ nl)) as [T [m' R]]; [done|done|]. split; [exact T|]. exists m'. etransitivity; [exact R|]. f_equal.
    repeat rewrite ?string_of_app, ?string_of_LF, ?string_of_list, ?append_assoc. reflexivity.
  - rewrite (read_lines_line _ _ (Pd _ Fd)), Rl. cbn [fst snd].
    rewrite Rd, data_paired, blank_skipped by done.
    destruct (IH UnwrapWrapped (b +:+ "" +:+ ("data:" +:+ d) +:+ nl +:+ nl)) as [T [m' R]]; [done|done|]. split; [exact T|]. exists m'. etransitivity; [exact R|]. f_equal.
    repeat rewrite ?string_of_app, ?string_of_LF, ?string_of_list, ?append_assoc. reflexivity.
Qed.

Lemma unwrap_frames frames err : Forall frame_lines frames ->
  unwrap_all (newUnwrapReader (concat (map wrapped_frame frames)) err) = string_of (concat (map standard_frame frames)).
Proof.
  intros F. destruct (frames_run frames err UnwrapUnknown "" F ltac:(done)) as [T [m' R]]. unfold newUnwrapReader.
  destruct (read_lines _) as [ls t]. cbn [fst snd] in *. subst t. unfold unwrap_all. cbn [uw_lines].
  change (fold_left _ ls _) with (run_lines ls (mkUnwrap UnwrapUnknown "" "" [] "" err)). by rewrite R.
Qed.

Lemma read_lines_concat l : ascii_list (cat (fst (read_lines l)) +:+ snd (read_lines l)) = l.
Proof.
  induction l as [|c l IH]; [done|]. cbn [read_lines]. destruct (read_lines l) as [ls t]. cbn [fst snd] in IH. case_bool_decide as C; cbn [fst snd cat].
  - subst c. rewrite append_assoc, ascii_list_app, IH. done.
  - destruct ls as [|l1 ls]; cbn [fst snd cat] in *.
    + change ("" +:+ String c t) with (String c t). cbn. f_equal. exact IH.
    + rewrite !append_assoc in *. change (String c l1 +:+ (cat ls +:+ t)) with (String c (l1 +:+ (cat ls +:+ t))). cbn [ascii_list]. f_equal. exact IH.
Qed.

Lemma passthrough_run ls : forall r, uw_mode r = UnwrapPassthrough -> run_lines ls r = r <| uw_buf := uw_buf r +:+ cat ls |>.
Proof.
  induction ls as [|l ls IH]; intros r M; cbn [run_lines fold_left cat]; [destruct r; cbn; by rewrite append_nil_r|].
  change (fold_left _ ls ?x) with (run_lines ls x). assert (processLine l r = write_buf l r) as -> by (unfold processLine; by rewrite M).
  rewrite IH by done. unfold write_buf. destruct r. cbn. by rewrite append_assoc.
Qed.

(** A stream that does not begin with a wrapped line is passed on as it is. *)
Lemma unwrap_passthrough data err l ls t : read_lines data = (l :: ls, t) -> blank l = false -> HasPrefix l eventPrefix = false -> HasPrefix l dataPrefix = false ->
  unwrap_all (newUnwrapReader data err) = string_of data.
Proof.
  intros R B P1 P2. pose proof (read_lines_concat data) as C. rewrite R in C. rewrite <- C at 2. rewrite string_of_list. unfold newUnwrapReader. rewrite R. unfold unwrap_all. cbn [uw_lines fold_left fst snd cat].
  change (fold_left _ ls ?x) with (run_lines ls x). assert (forall t, processLine l (mkUnwrap UnwrapUnknown "" "" [] t err) = mkUnwrap UnwrapPassthrough "" l [] t err) as Pl
    by (intros t'; unfold processLine; cbn [uw_mode]; by rewrite B, P1, P2).
  match goal with |- context [processLine l ?x] => change x with (mkUnwrap UnwrapUnknown "" "" [] t err) end. rewrite Pl, passthrough_run by done. unfold at_eof. cbn. destruct (is_empty t) eqn:T; cbn; [|by rewrite append_assoc].
  apply seqb_eq in T as ->. by rewrite append_nil_r.
Qed.

(** The stream of an upstream that wraps it or not; a standard stream must not look wrapped. *)
Definition upstream_frames (wrapped : bool) (frames : list (option string * string)) : bytes :=
  concat (map (if wrapped then wrapped_frame else standard_frame) frames).
Definition looks_standard (frames : list (option string * string)) : bool :=
  match frames with (None, d) :: _ => negb (HasPrefix d " event:") && negb (HasPrefix d " data:") | _ => true end.

Lemma HasPrefix_nl d : forall p, one_line p -> HasPrefix (d +:+ nl) p = HasPrefix d p.
Proof.
  unfold one_line. induction d as [|c d IH]; intros [|c' p] N; [done| |done|].
  - change (bool_decide (c' = LF) && HasPrefix "" p = false). cbn in N. by rewrite bool_decide_false by set_solver.
  - change (bool_decide (c' = c) && HasPrefix (d +:+ nl) p = bool_decide (c' = c) && HasPrefix d p). f_equal. apply IH. cbn in N. set_solver.
Qed.

Lemma standard_first frames : frames <> [] -> Forall frame_lines frames -> looks_standard frames = true ->
  exists l ls t, read_lines (concat (map standard_frame frames)) = (l :: ls, t) /\ blank l = false /\ HasPrefix l eventPrefix = false /\ HasPrefix l dataPrefix = false.
Proof.
  destruct frames as [|[[e|] d] frames]; [done| |]; intros _ [[Fe Fd] _]%Forall_cons; cbn [fst snd] in Fe, Fd; cbn [map concat]; unfold standard_frame at 1; cbn [fst snd];
    rewrite <- !app_assoc; cbn [app]; intros S.
  - rewrite read_lines_line by (unfold one_line; rewrite ascii_list_app; set_solver by done). by eexists _, _, _.
  - rewrite read_lines_line by (unfold one_line; rewrite ascii_list_app; set_solver by done). eexists _, _, _. split; [done|]. split; [done|].
    apply andb_true_iff in S as [S1%negb_true_iff S2%negb_true_iff].
    assert (one_line " event:" /\ one_line " data:") as [L1 L2] by (split; apply one_line_dec; reflexivity).
    rewrite <- (HasPrefix_nl d _ L1) in S1. rewrite <- (HasPrefix_nl d _ L2) in S2. split; [exact S1|exact S2].
Qed.

(** C20: the streams of JoyCode. Whether the upstream sends the frames of a stream as they are or
    wraps every line of them behind another data: prefix, the reader gives the translators
    the same standard stream, frame by frame and followed by the end of the upstream's
    body, in whatever pieces it is read. (Frames of an optional event line and one data line;
    a stream that is not wrapped must not begin like a wrapped one, with data that reads
    as an event or data line.) *)
Theorem joycode_unwrap_roundtrip (wrapped : bool) (frames : list (option string * string)) (err : option goerror) (sizes : list nat)
  (Hframes : frames <> [] /\ Forall frame_lines frames) (Hplain : wrapped = false -> looks_standard frames = true)
  (Hsizes : Forall (lt 0) sizes) (Henough : (length (concat (map standard_frame frames)) < length sizes)%nat) :
  unwrap_reads sizes (newUnwrapReader (upstream_frames wrapped frames) err) =
    (concat (map standard_frame frames), match err with Some e => ReadErr e | None => ReadEOF end).
Proof.
  destruct Hframes as [Ne F]. assert (unwrap_all (newUnwrapReader (upstream_frames wrapped frames) err) = string_of (concat (map standard_frame frames))) as U.
  { unfold upstream_frames. destruct wrapped; [by apply unwrap_frames|]. destruct (standard_first frames Ne F (Hplain eq_refl)) as (l & ls & t & R & B & P1 & P2).
    exact (unwrap_passthrough _ _ _ _ _ R B P1 P2). }
  rewrite unwrap_reads_exact, U, ascii_list_of by (try done; by rewrite U, <- (length_ascii_list (string_of _)), ascii_list_of).
  f_equal. unfold end_of, newUnwrapReader. by destruct (read_lines _).
Qed.

Definition demo_stream : list (option string * string) := [(Some " response.created", " {}"); (None, " [DONE]")].

Lemma joycode_unwrap_roundtrip_witness :
  unwrap_reads (repeat 7%nat 60) (newUnwrapReader (upstream_frames true demo_stream) None) = (concat (map standard_frame demo_stream), ReadEOF).
Proof.
  apply (joycode_unwrap_roundtrip true demo_stream None (repeat 7%nat 60)).
  - split; [discriminate|]. repeat constructor; apply one_line_dec; reflexivity.
  - discriminate.
  - repeat constructor; apply Nat.lt_0_succ.
  - apply Nat.ltb_lt. vm_compute. reflexivity.
Defined.
