(* ===== verification/ProviderFactory.v ===== *)
(** pkg/llm/factory.go and the interface core.Provider: the four providers behind one type, and
    what every call of one of them leaves behind. *)

From Stdlib Require Import Ascii.
From S2P Require Import Prelude GoFloat GoStrings GoTime GoJson GoPrint Matcher Policy Types Context Http.
From S2P Require Import Translate TranslateWire TranslateStream TranslateMessages TranslateResponses TranslateResponsesMessages TranslateResponsesStream.
From S2P Require Import Store Limiter Settlement Sse SmartRequest Upstream OpenAI Providers JoyCode.

Inductive llm_provider :=
| LlmOpenAI (p : OpenAIProvider)
| LlmAnthropic (p : AnthropicProvider)
| LlmGemini (p : GeminiProvider)
| LlmJoyCode (p : JoyCodeProvider).

Record llm_ProviderConfig := mkLlmConfig { lc_Name : string; lc_BaseURL : string; lc_APIKey : string; lc_Models : list string }.

(** [NewProvider], with the factories the init functions register. *)
Definition NewProvider (IsPrint : list ascii -> bool) (providerType : string) (cfg : llm_ProviderConfig) : llm_provider + goerror :=
  let '(mkLlmConfig name url key models) := cfg in
  if is_empty url then inr (errorf ("provider " +:+ Quote IsPrint name +:+ ": base_url is required"))
  else if seqb providerType "openai" then inl (LlmOpenAI (NewOpenAIProvider name url key models))
  else if seqb providerType "anthropic" then inl (LlmAnthropic (NewAnthropicProvider name url key))
  else if seqb providerType "gemini" then inl (LlmGemini (NewGeminiProvider name url key models))
  else if seqb providerType "joycode" then inl (LlmJoyCode (NewJoyCodeProvider name url key models))
  else inr (errorf ("unsupported provider type: " +:+ providerType)).

(** [Provider.Invoke]. *)
Definition provider_Invoke (IsPrint : list ascii -> bool) (J : joy_env) (E : provider_env) (p : llm_provider) (g : GatewayContext) (rw : ResponseWriter) : go (option exchange) :=
  match p with
  | LlmOpenAI p => OpenAI_Invoke E p g rw
  | LlmAnthropic p => Ret (Anthropic_Invoke IsPrint E p g rw)
  | LlmGemini p => Ret (Gemini_Invoke E p g rw)
  | LlmJoyCode p => JoyCode_Invoke IsPrint J E p g rw
  end.

(** * What a call leaves behind *)

(** Nothing is left open, and nothing is left to be read. *)
Definition clean (x : exchange) : Prop := x_handoff x = None /\ released (x_attempt x).

Lemma no_attempt_released : released no_attempt.
Proof. repeat split; done. Qed.

Lemma env_Call_failed E g url body h g' a e : env_Call E g url body h = (g', a, inr e) -> released a.
Proof. apply call_failed_released. Qed.

#[local] Hint Resolve no_attempt_released cancel_released env_Call_failed : gw.

(** Whether a stream is handed to a translator. *)
Definition hands_off (g : GatewayContext) (endpoint : string) : bool :=
  IsStream g && (seqb (RequestType g) RequestTypeMessages || seqb (RequestType g) RequestTypeResponses && HasSuffix endpoint "/chat/completions").

Lemma doRequest_clean E p g rw endpoint x : doRequest E p g rw endpoint = Ret (Some x) ->
  clean x \/ x_err x = None /\ is_Some (x_handoff x) /\ hands_off g endpoint = true.
Proof.
  unfold doRequest. destruct (if IsStream g && _ then _ else _) as [body|]; [|done]. cbn [go_bind]. fold (hands_off g endpoint).
  destruct (env_Call _ _ _ _ _) as [[g1 a] [[resp b]|e]] eqn:C; [|intros [= <-]; left; split; eauto with gw].
  destruct (hands_off g endpoint); [intros [= <-]; eauto|]. destruct (IsStream g1).
  - destruct (handleOpenAIStream _ _ _ _ _ _) as [[r err]|]; [|done]. intros [= <-]. left. split; eauto with gw.
  - destruct (handleOpenAINonStream _ _ _) as [g2 err]. intros [= <-]. left. split; eauto with gw.
Qed.

Lemma clean_Some y x : clean y -> Some y = Some x -> clean x.
Proof. intros C H. injection H as <-. exact C. Qed.
Lemma clean_Ret y x : clean y -> Ret (Some y) = Ret (Some x) -> clean x.
Proof. intros C H. injection H as <-. exact C. Qed.

(** Everything an invoker builds from a closed attempt is clean. *)
Ltac clean_leaf := cbn [go_bind]; match goal with
  | |- Ret (Some _) = Ret (Some _) -> _ => apply clean_Ret
  | |- Some _ = Some _ -> _ => apply clean_Some
  | |- _ <$> ?o = Some _ -> _ => let y := fresh in destruct o as [y|]; [|done]; apply clean_Some; destruct y as [[] ]
  | |- Ret (_ <$> ?o) = Ret (Some _) -> _ => let y := fresh in destruct o as [y|]; [|done]; apply clean_Ret; destruct y as [[] ]
  end; split; [reflexivity|cbn [x_attempt closed_exchange failed]; eauto with gw].

Lemma openai_messages_clean E p g rw x : openai_messages E p g rw = Ret (Some x) -> clean x.
Proof.
  unfold openai_messages. destruct (decode_map _ _); [|clean_leaf]. destruct (TryMockMessagesProbe _ _ _ _ _) as [[[]]|]; [clean_leaf|].
  destruct (MessagesRequestToChat _ _ _) as [[body|e]|]; [|clean_leaf|done]. cbn [go_bind].
  destruct (doRequest _ _ _ _ _) as [[y|]|] eqn:D; [|done|done]. cbn [go_bind]. destruct (doRequest_clean _ _ _ _ _ _ D) as [[H R]|(-> & [[resp b] ->] & _)].
  - rewrite H. destruct (x_err y); [intros [= <-]; by split|]. destruct (translateNonStreamResponse _ _ _) as [[]]. clean_leaf.
  - destruct (handleMessagesStream _ _ _ _ _) as [z|]; [|done]. clean_leaf.
Qed.

Lemma native_path base : HasSuffix (base +:+ "/responses") "/chat/completions" = true -> False.
Proof.
  intros [r Q]%HasSuffix_spec. apply (f_equal (fun s => rev (ascii_list s))) in Q. rewrite !ascii_list_app, !rev_app_distr in Q. cbn in Q. discriminate.
Qed.

Lemma openai_responses_clean E p g rw x : seqb (RequestType g) RequestTypeMessages = false -> openai_responses E p g rw = Ret (Some x) -> clean x.
Proof.
  intros M. unfold openai_responses. destruct (has_responses g).
  - intros D. destruct (doRequest_clean _ _ _ _ _ _ D) as [?|(_ & _ & H)]; [done|]. exfalso. revert H. unfold hands_off. cbn [RequestType IsStream].
    rewrite andb_true_iff, orb_true_iff, andb_true_iff. intros [_ [Q|[_ Q]]]; [|by apply native_path in Q].
    assert (seqb (RequestType g) RequestTypeMessages = true) by exact Q. congruence.
  - destruct (ResponsesRequestToChat _ _) as [[[body mapper]|e]|]; [|clean_leaf|done]. cbn [go_bind].
    destruct (doRequest _ _ _ _ _) as [[y|]|] eqn:D; [|done|done]. cbn [go_bind]. destruct (doRequest_clean _ _ _ _ _ _ D) as [[H R]|(-> & [[resp b] ->] & _)].
    + rewrite H. destruct (x_err y); [intros [= <-]; by split|]. destruct (translateResponsesNonStreamResponse _ _ _). clean_leaf.
    + clean_leaf.
Qed.

Lemma OpenAI_clean E p g rw x : OpenAI_Invoke E p g rw = Ret (Some x) -> clean x.
Proof.
  unfold OpenAI_Invoke. destruct (seqb _ RequestTypeMessages) eqn:M; [apply openai_messages_clean|].
  destruct (seqb _ RequestTypeResponses) eqn:R; [by apply openai_responses_clean|]. unfold openai_passthrough. destruct (openai_path _); cbn; [|clean_leaf]. intros D. destruct (doRequest_clean _ _ _ _ _ _ D) as [?|(_ & _ & H)]; [done|]. exfalso. unfold hands_off in H. rewrite M, R, andb_false_r in H. done.
Qed.

Lemma native_clean E extract rw g url body h x : native_answer E extract rw (env_Call E g url body h) = Some x -> clean x.
Proof.
  unfold native_answer. destruct (env_Call _ _ _ _ _) as [[g1 a] [[resp b]|e]] eqn:C; [|clean_leaf]. destruct (IsStream g1); [clean_leaf|].
  destruct (handleMessagesNonStream _ _ _ _). clean_leaf.
Qed.

Lemma Anthropic_clean IsPrint E p g rw x : Anthropic_Invoke IsPrint E p g rw = Some x -> clean x.
Proof.
  unfold Anthropic_Invoke. destruct (seqb _ _).
  - unfold anthropic_messages. destruct (TryMockMessagesProbe _ _ _ _ _) as [[[]]|]; [clean_leaf|apply native_clean].
  - destruct (seqb _ _); [|clean_leaf]. unfold anthropic_responses. destruct (ResponsesRequestToMessages _ _ _ _ _) as [[[body adapted] warnings]|e]; [|clean_leaf].
    destruct (env_Call _ _ _ _ _) as [[g1 a] [[resp b]|e]] eqn:C; [|clean_leaf]. destruct (IsStream g1); [clean_leaf|]. destruct (anthropic_complete _ _ _). clean_leaf.
Qed.

Lemma Gemini_clean E p g rw x : Gemini_Invoke E p g rw = Some x -> clean x.
Proof. unfold Gemini_Invoke. destruct (seqb _ _); [apply native_clean|clean_leaf]. Qed.

Lemma doOpenAIRequest_clean J E p g rw id x : doOpenAIRequest J E p g rw id = Ret x -> clean x \/ x_err x = None /\ is_Some (x_handoff x).
Proof.
  unfold doOpenAIRequest. destruct (joy_url _ _ _ _ _) as [url|e]; [|intros [= <-]; left; split; eauto with gw].
  destruct (injectJoyCodePayload _ _) as [body|]; [|done]. cbn [go_bind].
  destruct (env_Call _ _ _ _ _) as [[g1 a] [[resp b]|e]] eqn:C; [|intros [= <-]; left; split; cbn; eauto with gw].
  destruct (IsStream g1); [intros [= <-]; right; cbn; eauto|]. destruct (whole_body b); intros [= <-]; left; split; cbn; eauto with gw.
Qed.

Lemma callAnthropic_failed J E p g body g' a e : callAnthropic J E p g body = (g', a, inr e) -> released a.
Proof. unfold callAnthropic. destruct (joy_url _ _ _ _ _); [apply env_Call_failed|]. intros [= <- <- <-]. apply no_attempt_released. Qed.

Lemma callAnthropic_IsStream J E p g body g' a res : callAnthropic J E p g body = (g', a, res) -> IsStream g' = IsStream g.
Proof. unfold callAnthropic. destruct (joy_url _ _ _ _ _); [apply call_IsStream|]. by intros [= <- _ _]. Qed.

#[local] Hint Resolve callAnthropic_failed : gw.

(** The requests whose stream JoyCode passes through without closing the body. *)
Definition passed_unclosed (p : llm_provider) (g : GatewayContext) : bool :=
  match p with
  | LlmJoyCode _ => IsStream g && seqb (RequestType g) RequestTypeMessages && isAnthropicModel (joycode_model "claude-3-5-sonnet-v2" g) g
  | _ => false
  end.

Lemma joycode_chat_clean J E p g rw x : joycode_chat J E p g rw = Ret (Some x) -> clean x.
Proof.
  unfold joycode_chat. destruct (isAnthropicModel _ _).
  - unfold invokeAnthropic. destruct (ChatRequestToMessages _ _ _ _); [|clean_leaf]. destruct (injectJoyCodePayload _ _) as [body|]; [|done]. cbn [go_bind].
    destruct (callAnthropic _ _ _ _ _) as [[g1 a] [[resp b]|e]] eqn:C; [|clean_leaf]. destruct (IsStream g1); [clean_leaf|]. destruct (whole_body b); [|clean_leaf].
    destruct (MessagesToChatCompletion _ _ _ _) as [[]|]; clean_leaf.
  - unfold invokeOpenAI. destruct (doOpenAIRequest _ _ _ _ _ _) as [y|] eqn:D; [|done]. cbn [go_bind]. destruct (doOpenAIRequest_clean _ _ _ _ _ _ _ D) as [[H R]|(-> & [[resp b] ->])].
    + rewrite H. destruct (x_err y); intros [= <-]; by split.
    + unfold relay_stream. destruct (handleOpenAIStream _ _ _ _ _ _) as [[]|]; [|done]. clean_leaf.
Qed.

Lemma joycode_responses_clean IsPrint J E p g rw x : joycode_responses IsPrint J E p g rw = Ret (Some x) -> clean x.
Proof.
  unfold joycode_responses. destruct (isAnthropicModel _ _); [|destruct (_ && _)].
  - unfold invokeAnthropicResponses. destruct (ResponsesRequestToMessages _ _ _ _ _) as [[[body adapted] warnings]|e]; [|clean_leaf].
    destruct (injectJoyCodePayload _ _) as [body'|]; [|done]. cbn [go_bind]. destruct (callAnthropic _ _ _ _ _) as [[g1 a] [[resp b]|e]] eqn:C; [|clean_leaf].
    destruct (IsStream g1); [clean_leaf|]. destruct (whole_body b); [|clean_leaf]. destruct (anthropic_complete _ _ _). clean_leaf.
  - destruct (ResponsesRequestToChat _ _) as [[[body mapper]|e]|]; [|clean_leaf|done]. cbn [go_bind].
    destruct (doOpenAIRequest _ _ _ _ _ _) as [y|] eqn:D; [|done]. cbn [go_bind]. destruct (doOpenAIRequest_clean _ _ _ _ _ _ _ D) as [[H R]|(-> & [[resp b] ->])].
    + rewrite H. destruct (x_err y); [apply clean_Ret; by split|]. destruct (translateResponsesNonStreamResponse _ _ _). clean_leaf.
    + clean_leaf.
  - unfold invokeNativeResponses. destruct (doOpenAIRequest _ _ _ _ _ _) as [y|] eqn:D; [|done]. cbn [go_bind].
    destruct (doOpenAIRequest_clean _ _ _ _ _ _ _ D) as [[H R]|(-> & [[resp b] ->])].
    + rewrite H. destruct (x_err y); [apply clean_Ret; by split|]. clean_leaf.
    + unfold relay_stream. destruct (handleOpenAIStream _ _ _ _ _ _) as [[]|]; [|done]. clean_leaf.
Qed.

Lemma joycode_direct_clean J E p g rw x : IsStream g = false -> doAnthropicMessagesDirect J E p g rw = Ret (Some x) -> clean x.
Proof.
  intros S. unfold doAnthropicMessagesDirect. destruct (injectJoyCodePayload _ _) as [body|]; [|done]. cbn [go_bind].
  destruct (callAnthropic _ _ _ _ _) as [[g1 a] [[resp b]|e]] eqn:C; [|clean_leaf].
  assert (IsStream g1 = false) as ->; [|destruct (whole_body b); clean_leaf].
  rewrite <- S. by apply callAnthropic_IsStream in C.
Qed.

Lemma joycode_messages_clean J E p g rw x : seqb (RequestType g) RequestTypeMessages = true -> passed_unclosed (LlmJoyCode p) g = false -> joycode_messages J E p g rw = Ret (Some x) -> clean x.
Proof.
  intros T P. unfold joycode_messages. destruct (TryMockMessagesProbe _ _ _ _ _) as [[[]]|]; [clean_leaf|]. destruct (isAnthropicModel _ _) eqn:A.
  - apply joycode_direct_clean. cbn [passed_unclosed] in P. rewrite T, A, !andb_true_r in P. exact P.
  - destruct (MessagesRequestToChat _ _ _) as [[body|e]|]; [|clean_leaf|done]. cbn [go_bind].
    destruct (doOpenAIRequest _ _ _ _ _ _) as [y|] eqn:D; [|done]. cbn [go_bind]. destruct (doOpenAIRequest_clean _ _ _ _ _ _ _ D) as [[H R]|(-> & [[resp b] ->])].
    + rewrite H. destruct (x_err y); [apply clean_Ret; by split|]. destruct (translateNonStreamResponse _ _ _) as [[]]. clean_leaf.
    + destruct (handleMessagesStream _ _ _ _ _) as [z|]; [|done]. clean_leaf.
Qed.

(** C19: what a provider call holds. When a call of any of the four providers returns, whatever
    the request, the answer of the upstream and the place it broke off, its timer is
    stopped, its context cancelled and the upstream's body closed, and no response is left
    for another part to read; the only exception is a Messages stream JoyCode passes
    through. *)
Theorem provider_calls_released (IsPrint : list ascii -> bool) (J : joy_env) (E : provider_env) (p : llm_provider) (g : GatewayContext) (rw : ResponseWriter) (x : exchange)
  (Hrun : provider_Invoke IsPrint J E p g rw = Ret (Some x)) (Hexcept : passed_unclosed p g = false) :
  x_handoff x = None /\ released (x_attempt x).
Proof.
  change (clean x). destruct p as [p|p|p|p]; cbn [provider_Invoke] in Hrun.
  - by apply OpenAI_clean in Hrun.
  - injection Hrun as Hrun. by apply Anthropic_clean in Hrun.
  - injection Hrun as Hrun. by apply Gemini_clean in Hrun.
  - revert Hrun. unfold JoyCode_Invoke. destruct (seqb _ RequestTypeChatCompletion); [apply joycode_chat_clean|].
    destruct (seqb _ RequestTypeResponses); [apply joycode_responses_clean|]. destruct (seqb _ RequestTypeMessages) eqn:T; [by apply joycode_messages_clean|clean_leaf].
Qed.

(** A Gemini request answered by a connection error. *)
Definition demo_failing : provider_env :=
  mkEnv map_to_list map_to_list (fun _ => None) (fun _ b => b) (fun _ _ => mkDo false (inr (errorf "connection refused")))
    (fun _ => []) (fun _ => None) (mkReadCtx false None false) (fun _ => 0) (fun _ => json_error) exact_num.
Definition demo_joy : joy_env := mkJoyEnv (fun _ => "") (fun _ _ => "00") "id".
Definition demo_gemini : llm_provider := LlmGemini (NewGeminiProvider "g" "http://u/" "k" []).
Definition demo_exchange : exchange :=
  match provider_Invoke (fun _ => true) demo_joy demo_failing demo_gemini (emptyContext <| RequestType := RequestTypeGeminiGenerateContent |>) newResponse with
  | Ret (Some x) => x
  | _ => failed emptyContext newResponse (mkAttempt None (Some true) None None) json_error
  end.

Lemma provider_calls_released_witness : x_handoff demo_exchange = None /\ released (x_attempt demo_exchange).
Proof.
  apply (provider_calls_released (fun _ => true) demo_joy demo_failing demo_gemini (emptyContext <| RequestType := RequestTypeGeminiGenerateContent |>) newResponse).
  - vm_compute. reflexivity.
  - reflexivity.
Defined.

(** * Places where the code does not do what it means to *)

Definition demo_joycode : JoyCodeProvider := NewJoyCodeProvider "j" "http://u" "k" [].
Definition claude_stream : GatewayContext :=
  emptyContext <| IsStream := true |> <| RequestType := RequestTypeMessages |> <| Model := "claude" |> <| RawBody := json_text "{'messages':[]}" |>.
Definition stream_env (contentType : string) : provider_env :=
  mkEnv map_to_list map_to_list (fun _ => None) (fun _ b => b)
    (fun _ _ => mkDo false (inl (mkResponse 200 {["Content-Type" := [contentType]]}, mkBody (ascii_list "data: {}" ++ [LF; LF]) None false)))
    (fun b => [(b_data b, ReadEOF)]) (fun _ => None) (mkReadCtx false None false) (fun _ => 62135596800 * Second + 1) (fun _ => json_error) exact_num.
Definition direct_run (contentType : string) : option exchange :=
  match provider_Invoke (fun _ => true) demo_joy (stream_env contentType) (LlmJoyCode demo_joycode) claude_stream newResponse with Ret x => x | Panic => None end.

(** The Messages stream of JoyCode that is passed through: the body stays open and the
    attempt's context and timer stay behind, although the stream was passed on to its end. *)
Lemma direct_stream_left_open : exists x, direct_run "text/event-stream" = Some x /\ x_err x = None /\ at_live (x_attempt x) = Some true /\ at_body (x_attempt x) = Some true.
Proof. eexists. split; [vm_compute; reflexivity|]. repeat split. Qed.

(** A stream the call recognised by its first line is rejected for its content type. *)
Lemma recognised_stream_rejected : exists x, direct_run "text/plain" = Some x /\ is_Some (x_err x) /\ UpstreamResponse (x_g x) <> None.
Proof. eexists. split; [vm_compute; reflexivity|]. split; [eexists; reflexivity|discriminate]. Qed.

(** A message that consists of thinking only is sent with the content null. *)
Lemma thinking_only_content_null : cleanThinkingInHistory exact_num (json_text "{'messages':[{'role':'assistant','content':[{'type':'thinking','thinking':'t'}]}]}") =
  json_text "{'messages':[{'content':null,'role':'assistant'}]}".
Proof. vm_compute. reflexivity. Qed.

(** The Messages streams of JoyCode may come wrapped, but only the Responses path restores
    them: a Chat client gets an empty stream, reported as a success. *)
Definition wrapped_answer : list (bytes * read_end) :=
  [(upstream_frames true [(None, json_text " {'type':'content_block_delta','index':0,'delta':{'type':'text_delta','text':'hi'}}"); (None, json_text " {'type':'message_stop'}")], ReadEOF)].
Lemma wrapped_chat_stream_lost :
  let E := mkEnv map_to_list map_to_list (fun _ => None) (fun _ b => b) (fun _ _ => mkDo false (inr json_error)) (fun _ => wrapped_answer)
             (fun _ => None) (mkReadCtx false None false) (fun _ => 62135596800 * Second + 1) (fun _ => json_error) exact_num in
  exists g rw, handleAnthropicStreamToOpenAI E (emptyContext <| Model := "claude" |>) newResponse (mkBody [] None false) = Some (g, rw, None) /\ rw_body rw = "".
Proof. eexists _, _. split; [vm_compute; reflexivity|]. reflexivity. Qed.
