(* ===== verification/ProviderAttempt.v ===== *)
(** The providers leave the record of attempts alone: neither the history nor the selected
    endpoint of the context is changed by a call of a provider, as the cluster invoker relies
    on ([keeps_attempt] in Cluster). *)

From Stdlib Require Import Ascii.
From S2P Require Import Prelude GoFloat GoStrings GoTime GoJson GoPrint Matcher Policy Types Context Http.
From S2P Require Import Translate TranslateWire TranslateStream TranslateMessages TranslateResponses TranslateResponsesMessages TranslateResponsesStream.
From S2P Require Import Store Limiter Settlement Sse SmartRequest Upstream OpenAI Providers JoyCode ProviderFactory.
From S2P Require Import Fallback Cluster.

(** The record of attempts. *)
Definition attempts (g : GatewayContext) : list AttemptRecord * option Endpoint := (History g, SelectedEndpoint g).

(** ** Bookkeeping *)

Lemma ApplyUsage_attempts g u : attempts (ApplyUsage g u) = attempts g.
Proof. destruct u as [[[a b] c] d]. unfold ApplyUsage. by repeat case_match. Qed.
Lemma TriggerFirstByte_attempts g t : attempts (TriggerFirstByte g t) = attempts g.
Proof. unfold TriggerFirstByte. by case_match. Qed.
Lemma put_tag_attempts k v g : attempts (put_tag k v g) = attempts g.
Proof. reflexivity. Qed.

Lemma note_response_attempts g d : attempts (note_response g d) = attempts g.
Proof. unfold note_response. by repeat case_match. Qed.
Lemma note_completed_attempts g d : attempts (note_completed g d) = attempts g.
Proof. unfold note_completed. by repeat case_match. Qed.

Lemma on_event_attempts x g ev : attempts (on_event x g ev) = attempts g.
Proof.
  unfold on_event. set (u := match x with Some _ => _ | None => _ end). clearbody u. pose proof (ApplyUsage_attempts g u) as A.
  set (h := ApplyUsage g u) in *. clearbody h. rewrite <- A. by case_match.
Qed.

Lemma mark_first_byte_attempts iw g t : attempts (snd (mark_first_byte iw g t)) = attempts g.
Proof. unfold mark_first_byte. case_match; [done|]. apply TriggerFirstByte_attempts. Qed.

Lemma intercept_Write_attempts iw g p t : attempts (snd (intercept_Write iw g p t)) = attempts g.
Proof.
  unfold intercept_Write. pose proof (mark_first_byte_attempts iw g t) as A. destruct (mark_first_byte iw g t) as [w h]. cbn [snd] in A.
  destruct (Feed _ _) as [parser evs]. cbn [snd]. rewrite <- A. clear A. revert h. induction evs as [|ev evs IH]; intros h; [done|].
  cbn [fold_left]. rewrite IH. apply on_event_attempts.
Qed.

Lemma take_counts_attempts m g : attempts (take_counts m g) = attempts g.
Proof. unfold take_counts. by repeat case_match. Qed.
Lemma setStreamDiagTag_attempts k v g : attempts (setStreamDiagTag k v g) = attempts g.
Proof. unfold setStreamDiagTag. by case_match. Qed.
Lemma applyChatResponsesMeta_attempts m g : attempts (applyChatResponsesMeta m g) = attempts g.
Proof. unfold applyChatResponsesMeta. by repeat case_match; rewrite ?put_tag_attempts, ApplyUsage_attempts. Qed.
Lemma anthropic_tags_attempts s g : attempts (anthropic_tags s g) = attempts g.
Proof. unfold anthropic_tags. by repeat case_match. Qed.
Lemma chat_counts_attempts m g : attempts (chat_counts m g) = attempts g.
Proof. unfold chat_counts. by repeat case_match. Qed.
Lemma probe_counts_attempts g t : attempts (probe_counts g t) = attempts g.
Proof. unfold probe_counts. by rewrite TriggerFirstByte_attempts. Qed.

(** ** The upstream call *)

Lemma env_Call_attempts E g url body h : attempts (fst (fst (env_Call E g url body h))) = attempts g.
Proof.
  unfold env_Call, Call. destruct (is_empty _); [done|]. destruct (pe_bad_url E _); [done|].
  destruct (do_answer _) as [[resp b]|e]; [|done]. unfold accept_response. destruct (400 <=? _); [done|].
  destruct (IsStream _); [|done]. unfold accept_stream. destruct (Contains _ _); [done|].
  destruct (probeSSELine _) as [[[a b'] c] d]. destruct c; [done|]. by destruct d as [[]|].
Qed.

Lemma callAnthropic_attempts J E p g body : attempts (fst (fst (callAnthropic J E p g body))) = attempts g.
Proof. unfold callAnthropic. destruct (joy_url _ _ _ _ _); [|done]. apply env_Call_attempts. Qed.

(** ** Streams *)

Lemma sniff_attempts evs : forall g, attempts (fst (sniff g evs)) = attempts g.
Proof.
  induction evs as [|ev evs IH]; intros g; [done|]. cbn [sniff]. destruct (openAIStreamEventError _); [|rewrite IH]; cbn [fst];
    by rewrite note_completed_attempts, note_response_attempts.
Qed.

Lemma send_headers_attempts t r : attempts (rl_g (send_headers t r)) = attempts (rl_g r).
Proof.
  unfold send_headers, intercept_WriteHeader. pose proof (mark_first_byte_attempts (rl_iw r) (rl_g r) t) as A.
  by destruct (mark_first_byte _ _ _).
Qed.

Lemma write_frames_attempts write t raw r : attempts (rl_g (fst (write_frames write t raw r))) = attempts (rl_g r).
Proof.
  unfold write_frames. pose proof (intercept_Write_attempts (rl_iw r) (rl_g r) raw t) as A. destruct (intercept_Write _ _ _ _).
  by destruct (write raw).
Qed.

Lemma forward_attempts write t raw rest r : attempts (rl_g (fst (forward write t raw rest r))) = attempts (rl_g r).
Proof.
  unfold forward. destruct (Feed _ _) as [parser evs]. pose proof (sniff_attempts evs (rl_g r)) as A. destruct (sniff _ _) as [g [e|]]; [done|].
  cbn [fst] in A. set (r1 := r <| rl_parser := _ |> <| rl_g := g |>). destruct (if rl_sent r1 then _ else _); [done|].
  set (r2 := if rl_sent r1 then r1 else _). assert (attempts (rl_g r2) = attempts (rl_g r)) as B.
  { unfold r2. destruct (rl_sent r1); [done|]. by rewrite send_headers_attempts. }
  pose proof (write_frames_attempts write t raw r2) as C. destruct (write_frames write t raw r2) as [r3 [e|]]; cbn in *; congruence.
Qed.

Lemma relay_read_attempts write c t r chunk e : attempts (rl_g (fst (relay_read write c t r chunk e))) = attempts (rl_g r).
Proof.
  unfold relay_read. set (data := rl_pending r ++ chunk). destruct (_ =? 0)%nat; [by destruct (_ <? _)|].
  pose proof (forward_attempts write t (take (completeSSEPrefixLen data (length (rl_pending r) - 3)) data)
    (drop (completeSSEPrefixLen data (length (rl_pending r) - 3)) data) (r <| rl_pending := data |>)) as A.
  by destruct (forward _ _ _ _ _) as [r1 [err|]].
Qed.

Lemma relay_loop_attempts write c clock reads : forall r r' err, relay_loop write c clock r reads = Some (r', err) -> attempts (rl_g r') = attempts (rl_g r).
Proof.
  induction reads as [|[chunk e] reads IH]; intros r r' err; cbn [relay_loop]; [done|].
  pose proof (relay_read_attempts write c (clock (length reads)) r chunk e) as A. destruct (relay_read _ _ _ _ _ _) as [r1 [err1|]]; cbn [fst] in A.
  - by intros [= <- <-].
  - intros H%IH. congruence.
Qed.

Lemma handleOpenAIStream_attempts write c clock g rw reads r err :
  handleOpenAIStream write c clock g rw reads = Some (r, err) -> attempts (rl_g r) = attempts g.
Proof.
  unfold handleOpenAIStream. destruct (relay_loop _ _ _ _ _) as [[r1 e1]|] eqn:E; [|done]. apply relay_loop_attempts in E.
  destruct e1; intros [= <- <-]; [exact E|]. destruct (rl_sent r1); [exact E|]. by rewrite send_headers_attempts.
Qed.

Lemma write_messages_attempts write es : forall g rw, attempts (fst (fst (write_messages write g rw es))) = attempts g.
Proof. induction es as [|e es IH]; intros g rw; [done|]. cbn [write_messages]. destruct (frame_out _ _ _) as [rw1 [err|]]; [done|]. by rewrite IH. Qed.

Lemma feed_messages_attempts write evs : forall r, attempts (mv_g (fst (feed_messages write r evs))) = attempts (mv_g r).
Proof.
  induction evs as [|ev evs IH]; intros r; [done|]. cbn [feed_messages]. destruct (C2M_FeedJSON _ _) as [[s es] meta].
  pose proof (write_messages_attempts write es (take_counts meta (mv_g r)) (mv_rw r)) as A. rewrite take_counts_attempts in A.
  destruct (write_messages _ _ _ _) as [[g rw] [err|]]; [done|]. by rewrite IH.
Qed.

Lemma messages_read_attempts write t r chunk e : attempts (mv_g (fst (messages_read write t r chunk e))) = attempts (mv_g r).
Proof.
  unfold messages_read. destruct chunk as [|c0 chunk0]; [done|]. destruct (mv_firstRead r && _); [done|]. destruct (Feed _ _) as [parser evs].
  set (r1 := r <| mv_firstRead := false |> <| mv_g := _ |> <| mv_parser := _ |>). pose proof (feed_messages_attempts write evs r1) as A.
  change (mv_g r1) with (TriggerFirstByte (mv_g r) t) in A. rewrite TriggerFirstByte_attempts in A.
  by destruct (feed_messages write r1 evs) as [r2 [err|]].
Qed.

Lemma messages_loop_attempts write clock reads : forall r r' err, messages_loop write clock r reads = Some (r', err) -> attempts (mv_g r') = attempts (mv_g r).
Proof.
  induction reads as [|[chunk e] reads IH]; intros r r' err; cbn [messages_loop]; [done|].
  pose proof (messages_read_attempts write (clock (length reads)) r chunk e) as A. destruct (messages_read _ _ _ _ _) as [r1 [err1|]]; cbn [fst] in A.
  - by intros [= <- <-].
  - intros H%IH. congruence.
Qed.

Lemma finish_messages_attempts write r : attempts (fst (fst (finish_messages write r))) = attempts (mv_g r).
Proof.
  unfold finish_messages. destruct (C2M_Finish _ _) as [[s es] meta]. pose proof (write_messages_attempts write es (mv_g r) (mv_rw r)) as A.
  destruct (write_messages _ _ _ _) as [[g rw] err]. cbn [fst] in A. destruct (negb _); [done|]. destruct err; [done|].
  destruct (sm_Completed meta); [|done]. cbn [fst]. by rewrite !setStreamDiagTag_attempts.
Qed.

Lemma handleMessagesStream_attempts E g rw resp b x : handleMessagesStream E g rw resp b = Ret (Some x) -> attempts (fst (fst x)) = attempts g.
Proof.
  unfold handleMessagesStream. destruct (negb _).
  - intros (y & H & [= <-])%go_bind_Ret. revert H. unfold messages_bad_status. by intros (rw1 & _ & [= <-])%go_bind_Ret.
  - destruct (messages_loop _ _ _ _) as [[r [e|]]|] eqn:L; [| |done]; apply messages_loop_attempts in L; intros [= <-]; [done|].
    by rewrite finish_messages_attempts.
Qed.

Lemma write_responses_attempts write count es : forall g rw, attempts (fst (fst (write_responses write count g rw es))) = attempts g.
Proof.
  induction es as [|e es IH]; intros g rw; [done|]. cbn [write_responses]. destruct (frame_out _ _ _) as [rw1 [err|]]; [done|]. rewrite IH. by destruct count.
Qed.

Lemma responses_headers_attempts t r : attempts (rv_g (responses_headers t r)) = attempts (rv_g r).
Proof. apply TriggerFirstByte_attempts. Qed.

Lemma feed_responses_attempts write now evs : forall r, attempts (rv_g (fst (feed_responses write now r evs))) = attempts (rv_g r).
Proof.
  induction evs as [|ev evs IH]; intros r; [done|]. cbn [feed_responses]. destruct (C2R_FeedJSON _ _ _) as [[s es] meta]. destruct (ev_Done ev); [done|].
  set (r1 := r <| rv_stream := s |>). pose proof (write_responses_attempts write true es (applyChatResponsesMeta meta (rv_g r1)) (rv_rw r1)) as A.
  rewrite applyChatResponsesMeta_attempts in A. destruct (write_responses _ _ _ _ _) as [[g rw] [err|]]; [done|]. by rewrite IH.
Qed.

Lemma responses_read_attempts write c t r chunk e : attempts (rv_g (fst (responses_read write c t r chunk e))) = attempts (rv_g r).
Proof.
  unfold responses_read. destruct chunk as [|c0 chunk0]; [done|]. destruct (Feed _ _) as [parser evs]. destruct (sniff_turn _ _) as [completed [err|]]; [done|].
  set (r1 := r <| rv_parser := parser |> <| rv_completed := completed |>). destruct (if rv_sent r1 then _ else _); [done|].
  set (r2 := if rv_sent r1 then r1 else _). assert (attempts (rv_g r2) = attempts (rv_g r)) as B.
  { unfold r2. destruct (rv_sent r1); [done|]. by rewrite responses_headers_attempts. }
  pose proof (feed_responses_attempts write (unix_seconds t) evs r2) as C. rewrite B in C. by destruct (feed_responses _ _ _ _) as [r3 [[]|err]].
Qed.

Lemma responses_loop_attempts write c clock reads : forall r r' err,
  responses_loop write c clock r reads = Some (r', err) -> attempts (rv_g r') = attempts (rv_g r).
Proof.
  induction reads as [|[chunk e] reads IH]; intros r r' err; cbn [responses_loop]; [done|].
  pose proof (responses_read_attempts write c (clock (length reads)) r chunk e) as A. destruct (responses_read _ _ _ _ _ _) as [r1 [err1|]]; cbn [fst] in A.
  - by intros [= <- <-].
  - intros H%IH. congruence.
Qed.

Lemma handleResponsesStream_attempts E g rw b mapper x : handleResponsesStream E g rw b mapper = Some x -> attempts (fst (fst x)) = attempts g.
Proof.
  unfold handleResponsesStream. destruct (responses_loop _ _ _ _ _) as [[r [e|]]|] eqn:L; [| |done]; apply responses_loop_attempts in L; intros [= <-]; [done|].
  transitivity (attempts (rv_g r)); [|exact L]. clear L. unfold finish_responses. set (r2 := if rv_sent r then r else _). assert (attempts (rv_g r2) = attempts (rv_g r)) as B.
  { unfold r2. destruct (rv_sent r); [done|]. apply responses_headers_attempts. }
  destruct (C2R_Finish _ _ _ _) as [[s es] meta].
  pose proof (write_responses_attempts (pe_write E) false es (applyChatResponsesMeta meta (rv_g r2)) (rv_rw r2)) as A.
  rewrite applyChatResponsesMeta_attempts, B in A. destruct (write_responses _ _ _ _ _) as [[h rw'] [err|]]; [done|]. by destruct (sm_Completed meta).
Qed.

Lemma PassthroughStream_attempts write c reads clock : forall iw g out iw' g' out' err,
  PassthroughStream write c reads clock iw g out = Some (iw', g', out', err) -> attempts g' = attempts g.
Proof.
  induction reads as [|[chunk e] reads IH]; intros iw g out iw' g' out' err; cbn [PassthroughStream]; [done|].
  assert (attempts (snd (match chunk with [] => (iw, g) | _ => intercept_Write iw g chunk (clock (length reads)) end)) = attempts g) as A
    by (destruct chunk; [done|apply intercept_Write_attempts]).
  destruct (match chunk with [] => (iw, g) | _ => _ end) as [iw1 g1]. cbn [snd] in A. destruct (match chunk with [] => None | _ => _ end); [by intros [= <- <- <- <-]|].
  destruct e; [|by intros [= <- <- <- <-]..]. intros H%IH. congruence.
Qed.

Lemma pass_stream_attempts E x g rw b y : pass_stream E x g rw b = Some y -> attempts (fst (fst y)) = attempts g.
Proof.
  unfold pass_stream. destruct (PassthroughStream _ _ _ _ _ _ _) as [[[[iw h] out] err]|] eqn:P; [|done]. intros [= <-]. by apply PassthroughStream_attempts in P.
Qed.

Lemma feed_anthropic_attempts N write evs : forall r, attempts (av_g (fst (feed_anthropic N write r evs))) = attempts (av_g r).
Proof.
  induction evs as [|ev evs IH]; intros r; [done|]. cbn [feed_anthropic]. destruct (ev_Done ev); [apply IH|].
  destruct (M2R_FeedJSON _ _ _) as [[s es] meta]. set (g1 := ApplyUsage _ _). set (g2 := anthropic_tags s _).
  assert (attempts g2 = attempts (av_g r)) as B by (unfold g2, g1; rewrite anthropic_tags_attempts; apply ApplyUsage_attempts).
  pose proof (write_responses_attempts write false es g2 (av_rw r)) as A. rewrite B in A.
  destruct (write_responses _ _ _ _ _) as [[g rw] [err|]]; [done|]. destruct (sm_EmitDone meta); [done|]. by rewrite IH.
Qed.

Lemma anthropic_loop_attempts N write clock reads : forall r r' err,
  anthropic_loop N write clock r reads = Some (r', err) -> attempts (av_g r') = attempts (av_g r).
Proof.
  induction reads as [|[chunk e] reads IH]; intros r r' err; cbn [anthropic_loop]; [done|]. set (y := match chunk with [] => _ | _ => _ end).
  assert (attempts (av_g (fst y)) = attempts (av_g r)) as A.
  { unfold y. destruct chunk; [done|]. destruct (Feed _ _). rewrite feed_anthropic_attempts. apply TriggerFirstByte_attempts. }
  destruct y as [r1 [[]|err1]]; cbn [fst] in A; [by intros [= <- <-]| |by intros [= <- <-]]. destruct e; [|by intros [= <- <-]..]. intros H%IH. congruence.
Qed.

Lemma handleAnthropicResponsesStream_attempts E g rw b x : handleAnthropicResponsesStream E g rw b = Some x -> attempts (fst (fst x)) = attempts g.
Proof.
  unfold handleAnthropicResponsesStream. destruct (anthropic_loop _ _ _ _ _) as [[r err]|] eqn:L; [|done]. intros [= <-]. by apply anthropic_loop_attempts in L.
Qed.

Lemma feed_chat_attempts N write t evs : forall r, attempts (cy_g (fst (feed_chat N write t r evs))) = attempts (cy_g r).
Proof.
  induction evs as [|ev evs IH]; intros r; [done|]. cbn [feed_chat]. destruct (ev_Done ev); [apply TriggerFirstByte_attempts|].
  destruct (M2C_FeedJSON _ _ _) as [[s cs] meta]. assert (attempts (chat_counts meta (TriggerFirstByte (cy_g r) t)) = attempts (cy_g r)) as A
    by (by rewrite chat_counts_attempts, TriggerFirstByte_attempts).
  destruct (sm_EmitDone meta); [exact A|]. by rewrite IH.
Qed.

Lemma chat_loop_attempts N write clock reads : forall r r' err, chat_loop N write clock r reads = Some (r', err) -> attempts (cy_g r') = attempts (cy_g r).
Proof.
  induction reads as [|[chunk e] reads IH]; intros r r' err; cbn [chat_loop]; [done|]. set (y := match chunk with [] => _ | _ => _ end).
  assert (attempts (cy_g (fst y)) = attempts (cy_g r)) as A.
  { unfold y. destruct chunk; [done|]. destruct (Feed _ _). by rewrite feed_chat_attempts. }
  destruct y as [r1 []]; cbn [fst] in A; [by intros [= <- <-]|]. destruct e; [|by intros [= <- <-]..]. intros H%IH. congruence.
Qed.

Lemma handleAnthropicStreamToOpenAI_attempts E g rw b x : handleAnthropicStreamToOpenAI E g rw b = Some x -> attempts (fst (fst x)) = attempts g.
Proof.
  unfold handleAnthropicStreamToOpenAI. destruct (chat_loop _ _ _ _ _) as [[r err]|] eqn:L; [|done]. intros [= <-]. by apply chat_loop_attempts in L.
Qed.

(** ** Complete responses *)

Lemma handleOpenAINonStream_attempts E g b : attempts (fst (handleOpenAINonStream E g b)) = attempts g.
Proof.
  unfold handleOpenAINonStream. destruct (b_err b); [done|]. pose proof (TriggerFirstByte_attempts g (pe_clock E 0)) as A.
  destruct (decode_map _ _); [|exact A]. cbn [fst]. rewrite ApplyUsage_attempts. exact A.
Qed.

Lemma handleMessagesNonStream_attempts E x g b : attempts (fst (handleMessagesNonStream E x g b)) = attempts g.
Proof. unfold handleMessagesNonStream. destruct (b_err b); [done|]. cbn [fst]. rewrite ApplyUsage_attempts. apply TriggerFirstByte_attempts. Qed.

Lemma anthropic_complete_attempts E g b : attempts (fst (anthropic_complete E g b)) = attempts g.
Proof.
  unfold anthropic_complete. destruct (b_err b); [done|]. pose proof (TriggerFirstByte_attempts g (pe_clock E 0)) as A.
  destruct (MessagesResponseToResponses _ _ _ _) as [[body u]|]; [|exact A]. destruct (decode_map _ _); [|exact A].
  cbn [fst]. rewrite ApplyUsage_attempts. exact A.
Qed.

Lemma translateNonStreamResponse_attempts E g rw : attempts (fst (fst (translateNonStreamResponse E g rw))) = attempts g.
Proof. unfold translateNonStreamResponse. destruct (ChatCompletionToMessages _ _ _) as [[body u]|]; [|done]. by destruct (decode_map _ _). Qed.

Lemma translateResponsesNonStreamResponse_attempts E g mapper : attempts (fst (translateResponsesNonStreamResponse E g mapper)) = attempts g.
Proof.
  unfold translateResponsesNonStreamResponse. destruct (ChatCompletionToResponses _ _ _ _ _) as [[body u]|]; [|done]. destruct (decode_map _ _); [|done].
  cbn [fst]. by rewrite ApplyUsage_attempts.
Qed.

Lemma TryMockMessagesProbe_attempts N write g rw t x : TryMockMessagesProbe N write g rw t = Some x -> attempts (fst (fst x)) = attempts g.
Proof.
  unfold TryMockMessagesProbe. destruct (is_empty _); [done|]. destruct (decode_map _ _); [|done]. destruct (negb _); [done|].
  destruct (IsStream g); [|intros [= <-]; cbn [fst]; by rewrite probe_counts_attempts].
  destruct (write_probe _ _ _) as [rw1 [e|]]; intros [= <-]; [done|apply probe_counts_attempts].
Qed.

(** ** Exchanges *)

Lemma Ret_inj {A} (x y : A) : Ret x = Ret y -> x = y.
Proof. congruence. Qed.

Lemma closed_exchange_g y a : x_g (closed_exchange y a) = fst (fst y).
Proof. by destruct y as [[g rw] err]. Qed.

(** A stream handler applied to the answer of a call. *)
Lemma closed_attempts {A} (h : option (GatewayContext * ResponseWriter * option goerror)) (a : attempt_state) x (k : A) :
  (fun y => closed_exchange y a) <$> h = Some x -> exists y, h = Some y /\ x_g x = fst (fst y).
Proof. destruct h as [y|]; [|done]. intros [= <-]. exists y. by rewrite closed_exchange_g. Qed.

Lemma native_answer_attempts E x rw c y : native_answer E x rw c = Some y -> attempts (x_g y) = attempts (fst (fst c)).
Proof.
  destruct c as [[g a] [[resp b]|e]]; cbn; [|by intros [= <-]]. destruct (IsStream g).
  - intros (z & Hz & ->)%(closed_attempts _ _ _ tt). by apply pass_stream_attempts in Hz.
  - pose proof (handleMessagesNonStream_attempts E x g b) as A. destruct (handleMessagesNonStream _ _ _ _). by intros [= <-].
Qed.

Lemma doRequest_attempts E p g rw endpoint x : doRequest E p g rw endpoint = Ret (Some x) -> attempts (x_g x) = attempts g.
Proof.
  unfold doRequest. intros (body & _ & H)%go_bind_Ret. revert H. set (h := header_set _ _ _). clearbody h.
  pose proof (env_Call_attempts E g endpoint body h) as A. destruct (env_Call _ _ _ _ _) as [[g1 a] [[resp b]|e]]; cbn [fst] in A; intros [= H].
  2: by subst x. revert H. case_match; [by intros [= <-]|]. destruct (IsStream g1).
  - destruct (handleOpenAIStream _ _ _ _ _ _) as [[r err]|] eqn:S; [|done]. apply handleOpenAIStream_attempts in S. intros [= <-]. cbn [x_g]. congruence.
  - pose proof (handleOpenAINonStream_attempts E g1 b) as B. destruct (handleOpenAINonStream _ _ _). intros [= <-]. cbn [x_g]. cbn in B. congruence.
Qed.

Lemma openai_messages_attempts E p g rw x : openai_messages E p g rw = Ret (Some x) -> attempts (x_g x) = attempts g.
Proof.
  unfold openai_messages. destruct (decode_map _ _); [|by intros [= <-]]. destruct (TryMockMessagesProbe _ _ _ _ _) as [y|] eqn:T.
  { intros [= <-]. rewrite closed_exchange_g. by apply TryMockMessagesProbe_attempts in T. }
  intros (res & _ & H)%go_bind_Ret. destruct res as [body|e]; [|by injection H as <-]. apply go_bind_Ret in H as ([y|] & D & H); [|done].
  apply doRequest_attempts in D. change (attempts (g <| RawBody := body |>)) with (attempts g) in D.
  destruct (x_err y); [by injection H as <-|]. destruct (x_handoff y) as [[resp b]|].
  - apply go_bind_Ret in H as ([z|] & S & H); [|done]. apply handleMessagesStream_attempts in S. injection H as <-. rewrite closed_exchange_g. congruence.
  - pose proof (translateNonStreamResponse_attempts E (x_g y) (x_rw y)) as B. destruct (translateNonStreamResponse _ _ _) as [[g1 rw1] err]. injection H as <-.
    cbn in *. congruence.
Qed.

Lemma openai_responses_attempts E p g rw x : openai_responses E p g rw = Ret (Some x) -> attempts (x_g x) = attempts g.
Proof.
  unfold openai_responses. destruct (has_responses g); [by intros D%doRequest_attempts|].
  intros (res & _ & H)%go_bind_Ret. destruct res as [[body mapper]|e]; [|by injection H as <-]. apply go_bind_Ret in H as ([y|] & D & H); [|done].
  apply doRequest_attempts in D. change (attempts (g <| RawBody := body |>)) with (attempts g) in D.
  destruct (x_err y); [by injection H as <-|]. destruct (x_handoff y) as [[resp b]|].
  - injection H as H. apply (closed_attempts _ _ _ tt) in H as (z & S & ->). apply handleResponsesStream_attempts in S. congruence.
  - pose proof (translateResponsesNonStreamResponse_attempts E (x_g y) mapper) as B. destruct (translateResponsesNonStreamResponse _ _ _). injection H as <-.
    cbn in *. congruence.
Qed.

Lemma OpenAI_Invoke_attempts E p g rw x : OpenAI_Invoke E p g rw = Ret (Some x) -> attempts (x_g x) = attempts g.
Proof.
  unfold OpenAI_Invoke. destruct (seqb _ _); [apply openai_messages_attempts|]. destruct (seqb _ _); [apply openai_responses_attempts|].
  unfold openai_passthrough. destruct (openai_path _); [apply doRequest_attempts|by intros [= <-]].
Qed.

Lemma Anthropic_Invoke_attempts IsPrint E p g rw x : Anthropic_Invoke IsPrint E p g rw = Some x -> attempts (x_g x) = attempts g.
Proof.
  unfold Anthropic_Invoke. destruct (seqb _ _).
  { unfold anthropic_messages. destruct (TryMockMessagesProbe _ _ _ _ _) as [y|] eqn:T.
    - intros [= <-]. rewrite closed_exchange_g. by apply TryMockMessagesProbe_attempts in T.
    - intros H%native_answer_attempts. rewrite H. apply env_Call_attempts. }
  destruct (seqb _ _); [|by intros [= <-]]. unfold anthropic_responses. destruct (ResponsesRequestToMessages _ _ _ _ _) as [[[body m1] m2]|e]; [|by intros [= <-]].
  set (h := header_set _ _ _). clearbody h. pose proof (env_Call_attempts E (g <| RawBody := body |>) (ap_baseURL p +:+ "/messages") body h) as A.
  change (attempts (g <| RawBody := body |>)) with (attempts g) in A. destruct (env_Call _ _ _ _ _) as [[g1 a] [[resp b]|e]]; cbn [fst] in A; [|by intros [= <-]].
  destruct (IsStream g1).
  - intros (z & S & ->)%(closed_attempts _ _ _ tt). apply handleAnthropicResponsesStream_attempts in S. congruence.
  - pose proof (anthropic_complete_attempts E g1 b) as B. destruct (anthropic_complete _ _ _). intros [= <-]. cbn in *. congruence.
Qed.

Lemma Gemini_Invoke_attempts E p g rw x : Gemini_Invoke E p g rw = Some x -> attempts (x_g x) = attempts g.
Proof.
  unfold Gemini_Invoke. destruct (seqb _ _); [|by intros [= <-]]. unfold doGenerateContent. intros H%native_answer_attempts. rewrite H. apply env_Call_attempts.
Qed.

(** ** JoyCode *)

Lemma doOpenAIRequest_attempts J E p g rw f x : doOpenAIRequest J E p g rw f = Ret x -> attempts (x_g x) = attempts g.
Proof.
  unfold doOpenAIRequest. destruct (joy_url _ _ _ _ _) as [url|e]; [|by intros [= <-]]. intros (body & _ & H)%go_bind_Ret. revert H.
  set (h := joyCodeAuthHeaders _ _ _ _). clearbody h. pose proof (env_Call_attempts E g url body h) as A.
  destruct (env_Call _ _ _ _ _) as [[g1 a] [[resp b]|e]]; cbn [fst] in A; [|by intros [= <-]]. destruct (IsStream g1); [by intros [= <-]|].
  destruct (whole_body b); intros [= <-]; cbn [x_g failed]; [|done]. by rewrite TriggerFirstByte_attempts.
Qed.

Lemma relay_stream_attempts E y b x : relay_stream E y b = Some x -> attempts (x_g x) = attempts (x_g y).
Proof.
  unfold relay_stream. destruct (handleOpenAIStream _ _ _ _ _ _) as [[r err]|] eqn:S; [|done]. apply handleOpenAIStream_attempts in S. by intros [= <-].
Qed.

Lemma invokeOpenAI_attempts J E p g rw x : invokeOpenAI J E p g rw = Ret (Some x) -> attempts (x_g x) = attempts g.
Proof.
  unfold invokeOpenAI. intros (y & D & [= H])%go_bind_Ret. apply doOpenAIRequest_attempts in D. revert H.
  destruct (x_err y); [by intros [= <-]|]. destruct (x_handoff y) as [[resp b]|]; [intros H%relay_stream_attempts; congruence|].
  intros [= <-]. cbn [x_g]. unfold count_usage. by rewrite ApplyUsage_attempts.
Qed.

Lemma invokeNativeResponses_attempts J E p g rw x : invokeNativeResponses J E p g rw = Ret (Some x) -> attempts (x_g x) = attempts g.
Proof.
  unfold invokeNativeResponses. intros (y & D & [= H])%go_bind_Ret. apply doOpenAIRequest_attempts in D. revert H.
  destruct (x_err y); [by intros [= <-]|]. destruct (x_handoff y) as [[resp b]|]; [intros H%relay_stream_attempts; congruence|].
  intros [= <-]. cbn [x_g]. unfold count_usage. rewrite ApplyUsage_attempts. by destruct (decode_map _ _).
Qed.

Lemma invokeAnthropic_attempts J E p g rw m x : invokeAnthropic J E p g rw m = Ret (Some x) -> attempts (x_g x) = attempts g.
Proof.
  unfold invokeAnthropic. destruct (ChatRequestToMessages _ _ _ _) as [body|e]; [|by intros [= <-]]. intros (b1 & _ & H)%go_bind_Ret. revert H.
  pose proof (callAnthropic_attempts J E p g b1) as A. destruct (callAnthropic _ _ _ _ _) as [[g1 a] [[resp b]|e]]; cbn [fst] in A; [|by intros [= <-]].
  intros H%Ret_inj. revert H. destruct (IsStream g1).
  - intros (z & S & ->)%(closed_attempts _ _ _ tt). apply handleAnthropicStreamToOpenAI_attempts in S. congruence.
  - intros <-%(inj Some). destruct (whole_body b); [|done]. destruct (MessagesToChatCompletion _ _ _ _) as [[b2 u]|]; [|done]. cbn [x_g].
    by rewrite ApplyUsage_attempts, TriggerFirstByte_attempts.
Qed.

Lemma doAnthropicMessagesDirect_attempts J E p g rw x : doAnthropicMessagesDirect J E p g rw = Ret (Some x) -> attempts (x_g x) = attempts g.
Proof.
  unfold doAnthropicMessagesDirect. intros (b1 & _ & H)%go_bind_Ret. revert H.
  pose proof (callAnthropic_attempts J E p g b1) as A. destruct (callAnthropic _ _ _ _ _) as [[g1 a] [[resp b]|e]]; cbn [fst] in A; [|by intros [= <-]].
  intros H%Ret_inj. revert H. destruct (IsStream g1).
  - destruct (Contains _ _); [|by intros [= <-]]. intros (z & S & ->)%(closed_attempts _ _ _ tt). apply pass_stream_attempts in S. congruence.
  - intros <-%(inj Some). destruct (whole_body b); [|done]. cbn [x_g]. unfold count_usage. by rewrite ApplyUsage_attempts, TriggerFirstByte_attempts.
Qed.

Lemma invokeAnthropicResponses_attempts IsPrint J E p g rw m x : invokeAnthropicResponses IsPrint J E p g rw m = Ret (Some x) -> attempts (x_g x) = attempts g.
Proof.
  unfold invokeAnthropicResponses. destruct (ResponsesRequestToMessages _ _ _ _ _) as [[[body m1] m2]|e]; [|by intros [= <-]]. intros (b1 & _ & H)%go_bind_Ret.
  revert H. pose proof (callAnthropic_attempts J E p (g <| RawBody := b1 |>) b1) as A. change (attempts (g <| RawBody := b1 |>)) with (attempts g) in A.
  destruct (callAnthropic _ _ _ _ _) as [[g1 a] [[resp b]|e]]; cbn [fst] in A; [|by intros [= <-]]. intros H%Ret_inj. revert H. destruct (IsStream g1).
  - intros (z & S & ->)%(closed_attempts _ _ _ tt). apply handleAnthropicResponsesStream_attempts in S. congruence.
  - intros <-%(inj Some). destruct (whole_body b); [|done]. pose proof (anthropic_complete_attempts E g1 b) as B. destruct (anthropic_complete _ _ _). cbn in *. congruence.
Qed.

Lemma joycode_responses_attempts IsPrint J E p g rw x : joycode_responses IsPrint J E p g rw = Ret (Some x) -> attempts (x_g x) = attempts g.
Proof.
  unfold joycode_responses. destruct (isAnthropicModel _ _); [apply invokeAnthropicResponses_attempts|]. destruct (_ && _); [|apply invokeNativeResponses_attempts].
  intros ([[body mapper]|e] & _ & H)%go_bind_Ret; [|by injection H as <-]. apply go_bind_Ret in H as (y & D & H). apply doOpenAIRequest_attempts in D.
  change (attempts (g <| RawBody := body |>)) with (attempts g) in D. apply Ret_inj in H. revert H. destruct (x_err y); [by intros [= <-]|].
  destruct (x_handoff y) as [[resp b]|].
  - intros (z & S & ->)%(closed_attempts _ _ _ tt). apply handleResponsesStream_attempts in S. congruence.
  - pose proof (translateResponsesNonStreamResponse_attempts E (x_g y) mapper) as B. destruct (translateResponsesNonStreamResponse _ _ _). intros [= <-].
    cbn in *. congruence.
Qed.

Lemma joycode_messages_attempts J E p g rw x : joycode_messages J E p g rw = Ret (Some x) -> attempts (x_g x) = attempts g.
Proof.
  unfold joycode_messages. destruct (TryMockMessagesProbe _ _ _ _ _) as [y|] eqn:T.
  { intros [= <-]. rewrite closed_exchange_g. by apply TryMockMessagesProbe_attempts in T. }
  destruct (isAnthropicModel _ _); [apply doAnthropicMessagesDirect_attempts|].
  intros ([body|e] & _ & H)%go_bind_Ret; [|by injection H as <-]. apply go_bind_Ret in H as (y & D & H). apply doOpenAIRequest_attempts in D.
  change (attempts (g <| RawBody := body |>)) with (attempts g) in D. destruct (x_err y); [by injection H as <-|]. destruct (x_handoff y) as [[resp b]|].
  - apply go_bind_Ret in H as ([z|] & S & H); [|done]. apply handleMessagesStream_attempts in S. injection H as <-. rewrite closed_exchange_g. congruence.
  - pose proof (translateNonStreamResponse_attempts E (x_g y) (x_rw y)) as B. destruct (translateNonStreamResponse _ _ _) as [[g1 rw1] err]. injection H as <-.
    cbn in *. congruence.
Qed.

(** Whatever the provider and whatever the upstream does, a call that returns leaves the
    history of attempts and the selected endpoint as they were. *)
Theorem provider_keeps_attempts (IsPrint : list ascii -> bool) (J : joy_env) (E : provider_env) (p : llm_provider) (g : GatewayContext) (rw : ResponseWriter)
  (x : exchange) (Hrun : provider_Invoke IsPrint J E p g rw = Ret (Some x)) :
  History (x_g x) = History g /\ SelectedEndpoint (x_g x) = SelectedEndpoint g.
Proof.
  assert (attempts (x_g x) = attempts g) as A; [|by injection A].
  destruct p as [p|p|p|p]; cbn [provider_Invoke] in Hrun.
  - by eapply OpenAI_Invoke_attempts.
  - injection Hrun as H. by eapply Anthropic_Invoke_attempts.
  - injection Hrun as H. by eapply Gemini_Invoke_attempts.
  - revert Hrun. unfold JoyCode_Invoke. destruct (seqb _ _).
    + unfold joycode_chat. destruct (isAnthropicModel _ _); [apply invokeAnthropic_attempts|apply invokeOpenAI_attempts].
    + destruct (seqb _ _); [apply joycode_responses_attempts|]. destruct (seqb _ _); [apply joycode_messages_attempts|by intros [= <-]].
Qed.

(** A provider behind the interface of the cluster invoker, over a world that holds the client's
    connection; a call that panics or never ends counts as a failed one. *)
Definition provider_invoker {S X : Type} (IsPrint : list ascii -> bool) (J : joy_env) (env : world S (balancer_state * X) -> provider_env)
  (connection : world S (balancer_state * X) -> ResponseWriter) (connected : ResponseWriter -> world S (balancer_state * X) -> world S (balancer_state * X))
  (p : llm_provider) : Invoker (world S (balancer_state * X)) := fun w g =>
  match provider_Invoke IsPrint J (env w) p g (connection w) with
  | Ret (Some x) => (connected (x_rw x) w, x_g x, x_err x)
  | _ => (w, g, Some (errorf "no answer"))
  end.

(** What the theorem on cluster retries asks of providers holds of those of the program. *)
Lemma provider_invoker_keeps {S X : Type} IsPrint J env connection connected p :
  keeps_attempt (provider_invoker (S := S) (X := X) IsPrint J env connection connected p).
Proof.
  intros w g. unfold provider_invoker. destruct (provider_Invoke _ _ _ _ _ _) as [[x|]|] eqn:H; [|done..]. by eapply provider_keeps_attempts.
Qed.
