(* ===== verification/WebSocket.v ===== *)
(** pkg/core/engine_websocket.go, ws_session.go and safe_conn.go: the WebSocket front of the
    Responses protocol - the handshake with its dial loop, the turns of a session, and their
    settlement when the upstream reports the end of a turn or when the session ends.

    A turn is a shared object: the tracker maps identifiers to addresses, the heap holds the
    turns.  The two relaying goroutines and the handler interleave at the critical sections
    of the tracker; [ws_step] is the step relation. *)

From Stdlib Require Import Ascii.
From S2P Require Import Prelude GoFloat GoStrings GoTime GoJson GoPrint Matcher Policy Types Context Http.
From S2P Require Import Store Limiter Settlement Sse Upstream Compensation Balancers Fallback Engine.

(** * Turns (ws_session.go) *)

Record ActiveTurn := mkTurn {
  tn_ResponseID : string; tn_TempID : string; tn_Tenant : string; tn_UserID : string; tn_Model : string; tn_PrePaidAmount : float64;
  tn_StartTime : Time; tn_SentTextTokens : Z; tn_IsSettled : bool; tn_Gctx : option GatewayContext
}.
#[global] Instance eta_turn : Eta ActiveTurn := fun t =>
  mkTurn (tn_ResponseID t) (tn_TempID t) (tn_Tenant t) (tn_UserID t) (tn_Model t) (tn_PrePaidAmount t) (tn_StartTime t) (tn_SentTextTokens t)
    (tn_IsSettled t) (tn_Gctx t).

Abbreviation address := nat (only parsing).

(** The tracker and the turns it points to. *)
Record WSSessionTracker := mkTracker { tk_turns : gmap string address; tk_heap : gmap address ActiveTurn }.
#[global] Instance eta_tracker : Eta WSSessionTracker := fun t => mkTracker (tk_turns t) (tk_heap t).

Definition NewWSSessionTracker : WSSessionTracker := mkTracker ∅ ∅.

Definition AddTurn (t : WSSessionTracker) (key : string) (p : address) (turn : ActiveTurn) : WSSessionTracker :=
  mkTracker (<[key := p]> (tk_turns t)) (<[p := turn]> (tk_heap t)).

Definition GetTurn (t : WSSessionTracker) (key : string) : option address := tk_turns t !! key.

Definition set_turn (t : WSSessionTracker) (p : address) (f : ActiveTurn -> ActiveTurn) : WSSessionTracker :=
  t <| tk_heap := alter f p (tk_heap t) |>.

Definition is_temp (key : string) : bool := HasPrefix key "temp_turn_".

(** [delete(turns, from)], then [turns[to] = turn]. *)
Definition rebind (t : WSSessionTracker) (from to : string) (p : address) : WSSessionTracker :=
  set_turn (t <| tk_turns := <[to := p]> (delete from (tk_turns t)) |>) p (fun turn => turn <| tn_ResponseID := to |>).

Definition AssociateOfficialID (t : WSSessionTracker) (tempID officialID : string) : WSSessionTracker * option address :=
  match tk_turns t !! tempID with
  | Some p => (rebind t tempID officialID p, Some p)
  | None => (t, None)
  end.

Definition start_of (t : WSSessionTracker) (p : address) : Time := match tk_heap t !! p with Some turn => tn_StartTime turn | None => zeroTime end.

Section order.
(** The order in which Go ranges over the turns. *)
Context (order : gmap string address -> list (string * address)).

(** The temporary identifier with the earliest start. *)
Definition earliest (t : WSSessionTracker) : option (string * address) :=
  fold_left (fun best kp =>
      if is_temp kp.1 then
        match best with
        | Some b => if start_of t kp.2 <? start_of t b.2 then Some kp else best
        | None => Some kp
        end
      else best) (order (tk_turns t)) None.

Definition AssociateLatestTempID (t : WSSessionTracker) (officialID : string) : WSSessionTracker * option address :=
  match earliest t with
  | Some (key, p) => (rebind t key officialID p, Some p)
  | None => (t, None)
  end.

Definition RemoveTurn (t : WSSessionTracker) (key : string) : WSSessionTracker * option address :=
  match tk_turns t !! key with
  | Some p => (t <| tk_turns := delete key (tk_turns t) |>, Some p)
  | None => (t, None)
  end.

(** The turns that are not settled, taken out of the tracker. *)
Definition GetUnsettledTurns (t : WSSessionTracker) : WSSessionTracker * list address :=
  (t <| tk_turns := ∅ |>,
   List.filter (fun p => match tk_heap t !! p with Some turn => negb (tn_IsSettled turn) | None => false end) (map snd (order (tk_turns t)))).
End order.

(** * Frames of the client (handleClientEvent) *)

Definition tempID (nanos counter : Z) : string := "temp_turn_" +:+ Itoa nanos +:+ "_" +:+ Itoa counter.

(** The state of a session: the world of the filters, the tracker, the next free address
    and the process-wide counter of temporary identifiers. *)
Record ws_session (W : Type) := mkSession { ss_world : W; ss_tracker : WSSessionTracker; ss_next : address; ss_counter : Z }.
Arguments mkSession {W}.
Arguments ss_world {W}.
Arguments ss_tracker {W}.
Arguments ss_next {W}.
Arguments ss_counter {W}.

(** The context of a turn. *)
Definition turn_context (parent : GatewayContext) (payload : string) (now : Time) : GatewayContext :=
  let g := AcquireContext emptyContext (default (mkRequest ∅ None []) (Request parent)) now in
  g <| Tenant := Tenant parent |> <| UserID := UserID parent |> <| UserTenant := UserTenant parent |> <| gPolicy := gPolicy parent |>
    <| Model := Model parent |> <| RequestType := RequestTypeResponses |> <| RawBody := payload |>.

Section session.
Context {W : Type} (order : gmap string address -> list (string * address)).

Fixpoint turn_inbound (fs : list (InboundFilter W)) (w : W) (g : GatewayContext) : go (W * GatewayContext * option goerror) :=
  match fs with
  | [] => Ret (w, g, None)
  | f :: r =>
      let! res := if_OnRequest f w g in
      match res with
      | (w, g, Some err) => Ret (w, g, Some err)
      | (w, g, None) => turn_inbound r w g
      end
  end.

(** The outbound filters on the context of a turn; their errors are ignored. *)
Fixpoint turn_outbound (fs : list (OutboundFilter W)) (w : W) (g : GatewayContext) : go (W * GatewayContext) :=
  match fs with
  | [] => Ret (w, g)
  | f :: r => let! res := of_OnResponse f w g in let '(w, g, _) := res in turn_outbound r w g
  end.

(** [true]: the frame is not forwarded. *)
Definition handleClientEvent (p : EnginePipeline W) (parent : GatewayContext) (payload : string) (now : Time) (s : ws_session W) :
  go (ws_session W * bool * option goerror) :=
  match Unmarshal (dec_struct [("type", dec_string)]) "" payload with
  | None => Ret (s, false, None)
  | Some t =>
      if seqb t "response.create" then
        let! res := turn_inbound (pp_InboundFilters p) (ss_world s) (turn_context parent payload now) in
        let '(w, g, err) := res in
        match err with
        | Some e => Ret (mkSession w (ss_tracker s) (ss_next s) (ss_counter s), true, Some e)
        | None =>
            let counter := wrap64 (ss_counter s + 1) in
            let key := tempID (now - 62135596800 * Second) counter in
            let turn := mkTurn "" key (Tenant g) (UserID g) (Model g) (Cost g) now 0 false (Some g) in
            Ret (mkSession w (AddTurn (ss_tracker s) key (ss_next s) turn) (S (ss_next s)) counter, false, None)
        end
      else Ret (s, false, None)
  end.

Definition client_error (e : goerror) : string :=
  Marshal (JObj [("type", JStr "error"); ("error", JObj [("type", JStr "invalid_request_error"); ("message", JStr (Error_text e))])]).

(** One message from the client: what goes to the upstream and what goes back. *)
Definition client_message (p : EnginePipeline W) (parent : GatewayContext) (payload : string) (now : Time) (s : ws_session W) :
  go (ws_session W * option string * option string) :=
  let! res := handleClientEvent p parent payload now s in
  let '(s, intercepted, err) := res in
  Ret (match err with
       | Some e => (s, None, Some (client_error e))
       | None => (s, if intercepted : bool then None else Some payload, None)
       end).

(** * Frames of the upstream (handleUpstreamEvent) *)

Record ws_event := mkWsEvent {
  we_Type : string; we_ResponseID : string; we_ID : string; we_Model : string; we_Input : Z; we_Output : Z; we_Delta : string; we_PartDelta : string
}.
#[global] Instance eta_ws_event : Eta ws_event := fun e =>
  mkWsEvent (we_Type e) (we_ResponseID e) (we_ID e) (we_Model e) (we_Input e) (we_Output e) (we_Delta e) (we_PartDelta e).

Definition dec_ws_event : decoder ws_event :=
  dec_struct [("type", dec_field we_Type dec_string); ("response_id", dec_field we_ResponseID dec_string);
              ("response", dec_struct [("id", dec_field we_ID dec_string); ("model", dec_field we_Model dec_string);
                 ("usage", dec_struct [("input_tokens", dec_field we_Input dec_int); ("output_tokens", dec_field we_Output dec_int)])]);
              ("delta", dec_field we_Delta dec_string); ("part", dec_struct [("delta", dec_field we_PartDelta dec_string)])].

Definition bind_created (ev : ws_event) (t : WSSessionTracker) : WSSessionTracker :=
  if seqb (we_Type ev) "response.created" && negb (is_empty (we_ID ev)) then fst (AssociateLatestTempID order t (we_ID ev)) else t.

Definition count_delta (ev : ws_event) (t : WSSessionTracker) : WSSessionTracker :=
  if Contains (we_Type ev) ".delta" then
    let text := if is_empty (we_Delta ev) then we_PartDelta ev else we_Delta ev in
    let id := if is_empty (we_ResponseID ev) then we_ID ev else we_ResponseID ev in
    if negb (is_empty id) && negb (is_empty text) then
      match GetTurn t id with
      | Some p => let n := text_length text in
                  set_turn t p (fun turn => turn <| tn_SentTextTokens := wrap64 (tn_SentTextTokens turn + n) |>
                    <| tn_Gctx := (fun g => g <| TransmittedChars := wrap64 (TransmittedChars g + n) |>) <$> tn_Gctx turn |>)
      | None => t
      end
    else t
  else t.

(** The turn a [response.done] ends, taken out of the tracker. *)
Definition take_done (ev : ws_event) (t : WSSessionTracker) : WSSessionTracker * option address :=
  if seqb (we_Type ev) "response.done" then
    let id := if is_empty (we_ID ev) then we_ResponseID ev else we_ID ev in
    if is_empty id then (t, None) else RemoveTurn t id
  else (t, None).

(** The settlement of a turn with a prepared context. *)
Definition settle_turn (fs : list (OutboundFilter W)) (prepare : ActiveTurn -> GatewayContext -> GatewayContext) (p : address) (s : ws_session W) : go (ws_session W) :=
  match tk_heap (ss_tracker s) !! p with
  | None => Panic
  | Some turn =>
      match tn_Gctx turn with
      | None => Ret s
      | Some g =>
          let! res := turn_outbound fs (ss_world s) (prepare turn g) in
          let '(w, g) := res in
          Ret (mkSession w (set_turn (ss_tracker s) p (fun turn => turn <| tn_Gctx := Some (ReleaseContext g) |>)) (ss_next s) (ss_counter s))
      end
  end.

Definition handleUpstreamEvent (p : EnginePipeline W) (payload : string) (s : ws_session W) : go (ws_session W) :=
  match Unmarshal dec_ws_event (mkWsEvent "" "" "" "" 0 0 "" "") payload with
  | None => Ret s
  | Some ev =>
      let '(t, done) := take_done ev (count_delta ev (bind_created ev (ss_tracker s))) in
      match done with
      | None => Ret (mkSession (ss_world s) t (ss_next s) (ss_counter s))
      | Some q =>
          let t := set_turn t q (fun turn => turn <| tn_IsSettled := true |>) in
          settle_turn (pp_OutboundFilters p) (fun _ g => g <| InputTokens := we_Input ev |> <| OutputTokens := we_Output ev |>) q
            (mkSession (ss_world s) t (ss_next s) (ss_counter s))
      end
  end.

(** One message from the upstream is passed on whatever it says. *)
Definition upstream_message (p : EnginePipeline W) (payload : string) (s : ws_session W) : go (ws_session W * string) :=
  let! s := handleUpstreamEvent p payload s in Ret (s, payload).

(** * The end of the session *)

Fixpoint settle_turns (fs : list (OutboundFilter W)) (ps : list address) (s : ws_session W) : go (ws_session W) :=
  match ps with
  | [] => Ret s
  | p :: r =>
      let! s := settle_turn fs (fun turn g => g <| IsStream := true |> <| TransmittedChars := tn_SentTextTokens turn |>) p s in
      settle_turns fs r s
  end.

Definition end_session (p : EnginePipeline W) (s : ws_session W) : go (ws_session W) :=
  let '(t, ps) := GetUnsettledTurns order (ss_tracker s) in
  settle_turns (pp_OutboundFilters p) ps (mkSession (ss_world s) t (ss_next s) (ss_counter s)).
End session.

(** * The handshake *)

Definition convertHTTPToWS (httpURL model : string) : string :=
  let ws := if HasPrefix httpURL "https://" then "wss://" +:+ string_drop 8 httpURL
            else if HasPrefix httpURL "http://" then "ws://" +:+ string_drop 7 httpURL else httpURL in
  TrimSuffix ws "/" +:+ "/responses?model=" +:+ model.

(** What the dial loop calls: discovery, the routers and the balancer of the pipeline, the
    dialer. A balancer may be missing, and may return no invoker or one without endpoint. *)
Record dial_env (W : Type) := mkDialEnv {
  de_List : W -> string -> W * (list Endpoint + goerror);
  de_routers : list (W -> GatewayContext -> list Endpoint -> W * list Endpoint);
  de_lbName : string;
  de_lb : option (W -> GatewayContext -> list Endpoint -> W * option (option Endpoint));
  de_dial : W -> string -> headers -> W * option goerror
}.
Arguments mkDialEnv {W}.
Arguments de_List {W}.
Arguments de_routers {W}.
Arguments de_lbName {W}.
Arguments de_lb {W}.
Arguments de_dial {W}.

(** [routerNames] and [lbStrategy]: the configuration of the pipeline over the defaults. *)
Definition ws_routers (cfg : option PipelineConfig) : list string :=
  match cfg with Some c => match ic_Routers (pc_Invoker c) with [] => ["capability"; "circuit_breaker"] | l => l end | None => ["capability"; "circuit_breaker"] end.
Definition ws_balancer (cfg : option PipelineConfig) : string :=
  match cfg with Some c => if is_empty (ic_LoadBalancer (pc_Invoker c)) then "round_robin" else ic_LoadBalancer (pc_Invoker c) | None => "round_robin" end.

Definition max_retries (g : GatewayContext) : Z := match call_policy g with Some rp => rp_Retry rp | None => 2 end.

Section dial.
Context {W : Type} (D : dial_env W).

Fixpoint ws_route_chain (rs : list (W -> GatewayContext -> list Endpoint -> W * list Endpoint)) (w : W) (g : GatewayContext) (eps : list Endpoint) : W * list Endpoint :=
  match rs with
  | [] => (w, eps)
  | r :: rs => let '(w, eps) := r w g eps in match eps with [] => (w, []) | _ => ws_route_chain rs w g eps end
  end.

(** What one attempt comes to: connected, give up, or try again, with the endpoint to avoid. *)
Inductive dial_result := Connected (ep : Endpoint) | GiveUp (e : goerror) | Again (e : goerror) (failed : option string).

Definition dial_headers (ep : Endpoint) : headers :=
  if is_empty (ep_APIKey ep) then ∅ else header_set ∅ "Authorization" ("Bearer " +:+ ep_APIKey ep).

Definition dial_attempt (w : W) (g : GatewayContext) (excluded : gset string) : W * dial_result :=
  match de_List D w (Model g) with
  | (w, inr e) => (w, Again e None)
  | (w, inl []) => (w, Again (errorf "no available endpoint") None)
  | (w, inl eps) =>
      let '(w, eps) := ws_route_chain (de_routers D) w g eps in
      match List.filter (fun ep => negb (bool_decide (ep_ID ep ∈ excluded))) eps with
      | [] => (w, Again (errorf "all endpoints filtered out") None)
      | filtered =>
          match de_lb D with
          | None => (w, GiveUp (errorf ("no load balancer strategy " +:+ q (de_lbName D) +:+ " available")))
          | Some select =>
              match select w g filtered with
              | (w, None) => (w, Again (errorf "load balancer selected nil") None)
              | (w, Some None) => (w, Again (errorf "load balancer selected invoker with nil endpoint") None)
              | (w, Some (Some ep)) =>
                  match de_dial D w (convertHTTPToWS (ep_URL ep) (ep_Model ep)) (dial_headers ep) with
                  | (w, Some e) => (w, Again e (Some (ep_ID ep)))
                  | (w, None) => (w, Connected ep)
                  end
              end
          end
      end
  end.

(** The attempts that are left, the last error, and the endpoints dialled without success. *)
Fixpoint dial_loop (attempts : nat) (w : W) (g : GatewayContext) (excluded : gset string) (lastErr : option goerror) (dialled : list string) :
  W * GatewayContext * (Endpoint + goerror) * list string :=
  match attempts with
  | O => (w, g, inr (match lastErr with
                     | Some e => wrap_error "ws handshake failed after retries: " e
                     | None => errorf "ws handshake failed after retries: %!w(<nil>)"
                     end), dialled)
  | S n =>
      let g := ResetAttempt g in
      match dial_attempt w g excluded with
      | (w, Connected ep) => (w, g <| SelectedEndpoint := Some ep |>, inl ep, dialled ++ [ep_ID ep])
      | (w, GiveUp e) => (w, g, inr e, dialled)
      | (w, Again e failed) =>
          dial_loop n w g (match failed with Some id => {[id]} ∪ excluded | None => excluded end) (Some e)
            (match failed with Some id => dialled ++ [id] | None => dialled end)
      end
  end.

Definition selectEndpointAndConnect (w : W) (g : GatewayContext) : W * GatewayContext * (Endpoint + goerror) * list string :=
  dial_loop (Z.to_nat (max_retries g + 1)) w g ∅ None [].

(** The filters of the handshake: only the one named auth. *)
Fixpoint auth_only (fs : list (InboundFilter W)) (w : W) (g : GatewayContext) : go (W * GatewayContext * option goerror) :=
  match fs with
  | [] => Ret (w, g, None)
  | f :: r =>
      if seqb (if_Name f) "auth" then
        let! res := if_OnRequest f w g in
        match res with
        | (w, g, Some err) => Ret (w, g, Some err)
        | (w, g, None) => auth_only r w g
        end
      else auth_only r w g
  end.

(** The identity: values of the request context, else headers. *)
Definition ws_identity (values : string -> option string) (r : http_Request) (g : GatewayContext) : GatewayContext :=
  let from key header := match values key with Some v => v | None => header_Get (req_Header r) header end in
  g <| Tenant := from "tenant" "X-Tenant-Id" |> <| UserID := from "user_id" "X-User-Id" |> <| UserTenant := from "user_tenant" "X-User-Tenant" |>.

(** Everything before the connection of the client is upgraded: the status and text of a
    refusal, or the context of the session and the endpoint it talks to. *)
Definition ws_handshake (pipeline : option (EnginePipeline W)) (policy : option (W -> string -> string -> string -> W * (option Policy + goerror)))
  (values : string -> option string) (r : http_Request) (now : Time) (w : W) : go (W * ((GatewayContext * Endpoint) + Z * string)) :=
  let model := match req_URL r with Some query => query_Get query "model" | None => "" end in
  if is_empty model then Ret (w, inr (400, "missing model query parameter"))
  else
    let g := (AcquireContext emptyContext r now) <| RequestType := RequestTypeResponses |> <| Model := model |> <| OriginalModel := model |> in
    let g := ws_identity values r g in
    match pipeline with
    | None => Ret (w, inr (500, "no pipeline matched"))
    | Some p =>
        let '(w, resolved) := match policy with
          | Some get => match get w (Tenant g) (UserID g) (Model g) with
                        | (w, inl pol) => (w, Some (g <| gPolicy := pol |>))
                        | (w, inr _) => (w, None)
                        end
          | None => (w, Some g)
          end in
        match resolved with
        | None => Ret (w, inr (403, "policy resolution failed"))
        | Some g =>
            let! res := auth_only (pp_InboundFilters p) w g in
            let '(w, g, err) := res in
            match err with
            | Some e => Ret (w, inr (403, Error_text e))
            | None =>
                match selectEndpointAndConnect w g with
                | (w, _, inr e, _) => Ret (w, inr (502, "failed to connect to upstream: " +:+ Error_text e))
                | (w, g, inl ep, _) => Ret (w, inl (g, ep))
                end
            end
        end
    end.
End dial.

(** * Interleavings *)

(** The session as its three threads see it: the tracker; the turn the upstream thread has
    taken out and not yet settled; the turns the handler took out when the session ended;
    the turns that were settled, in order; those admitted too late; the identifiers the
    upstream announced. *)
Record ws_state := mkWs {
  w_tracker : WSSessionTracker; w_next : address; w_counter : Z; w_upstream : option address; w_ended : bool; w_main : list address;
  w_settled : list address; w_late : list address; w_announced : list string
}.
#[global] Instance eta_ws : Eta ws_state := fun s =>
  mkWs (w_tracker s) (w_next s) (w_counter s) (w_upstream s) (w_ended s) (w_main s) (w_settled s) (w_late s) (w_announced s).

Definition ws_init (counter : Z) : ws_state := mkWs NewWSSessionTracker 0 counter None false [] [] [] [].

Section steps.
Context (order : gmap string address -> list (string * address)).

Inductive ws_step : ws_state -> ws_state -> Prop :=
| WAdmit s nanos turn : w_counter s < max_int64 -> tn_IsSettled turn = false ->
    ws_step s (s <| w_tracker := AddTurn (w_tracker s) (tempID nanos (w_counter s + 1)) (w_next s) turn |> <| w_next := S (w_next s) |>
                 <| w_counter := w_counter s + 1 |> <| w_late := if w_ended s then w_next s :: w_late s else w_late s |>)
| WOther s k : 0 < k -> w_counter s + k <= max_int64 -> ws_step s (s <| w_counter := w_counter s + k |>)
| WCreated s id : w_upstream s = None ->
    ws_step s (s <| w_tracker := fst (AssociateLatestTempID order (w_tracker s) id) |> <| w_announced := id :: w_announced s |>)
| WDelta s ev : w_upstream s = None -> ws_step s (s <| w_tracker := count_delta ev (w_tracker s) |>)
| WDone s ev t p : w_upstream s = None -> take_done ev (w_tracker s) = (t, Some p) ->
    ws_step s (s <| w_tracker := set_turn t p (fun turn => turn <| tn_IsSettled := true |>) |> <| w_upstream := Some p |>)
| WSettle s p : w_upstream s = Some p -> ws_step s (s <| w_upstream := None |> <| w_settled := p :: w_settled s |>)
| WEnd s t ps : w_ended s = false -> GetUnsettledTurns order (w_tracker s) = (t, ps) ->
    ws_step s (s <| w_tracker := t |> <| w_ended := true |> <| w_main := ps |>)
| WSettleMain s p ps : w_main s = p :: ps -> ws_step s (s <| w_main := ps |> <| w_settled := p :: w_settled s |>).
End steps.

(** * Temporary identifiers *)

Definition no_underscore (s : string) : Prop := "_"%char ∉ ascii_list s.

Lemma Itoa_no_underscore z : no_underscore (Itoa z).
Proof. by intros [H|H]%Itoa_chars. Qed.

Lemma suffix_after {A} (c : A) (l1 l2 r1 r2 : list A) : c ∉ r1 -> c ∉ r2 -> l1 ++ c :: r1 = l2 ++ c :: r2 -> r1 = r2.
Proof.
  revert l2. induction l1 as [|x l1 IH]; intros [|y l2] N1 N2; cbn.
  - by intros [= ->].
  - intros [= -> ->]. exfalso. apply N1. set_solver.
  - intros [= -> <-]. exfalso. apply N2. set_solver.
  - intros [= _ H]. by apply (IH l2).
Qed.

Lemma tempID_counter a n b m : tempID a n = tempID b m -> n = m.
Proof.
  unfold tempID. intros H. apply (f_equal ascii_list) in H. rewrite !ascii_list_app in H. change (ascii_list "_") with ["_"%char] in H.
  rewrite !(app_assoc (ascii_list "temp_turn_")) in H. cbn [app] in H. apply suffix_after in H; [|apply Itoa_no_underscore..].
  apply (f_equal string_of) in H. rewrite !string_of_list in H. by apply (inj pretty.pretty) in H.
Qed.

Lemma tempID_temp a n : is_temp (tempID a n) = true.
Proof. apply HasPrefix_spec. by eexists. Qed.

(** * Every turn is settled once *)

(** What has left the tracker. *)
Definition gone (s : ws_state) : list address := option_list (w_upstream s) ++ w_main s ++ w_settled s.
Definition tracked (s : ws_state) (p : address) : Prop := exists k, tk_turns (w_tracker s) !! k = Some p.

(** The upstream announces every response once, and not under a name of the gateway. *)
Definition announced_once (s : ws_state) : Prop := NoDup (w_announced s) /\ Forall (fun id => is_temp id = false) (w_announced s).

Record ws_inv (s : ws_state) : Prop := {
  wi_inj : forall k k' p, tk_turns (w_tracker s) !! k = Some p -> tk_turns (w_tracker s) !! k' = Some p -> k = k';
  wi_apart : forall p, tracked s p -> p ∉ gone s;
  wi_nodup : NoDup (gone s);
  wi_bound : forall p, tracked s p \/ p ∈ gone s -> (p < w_next s)%nat;
  wi_open : forall p, tracked s p -> exists turn, tk_heap (w_tracker s) !! p = Some turn /\ tn_IsSettled turn = false;
  wi_keys : forall k p, tk_turns (w_tracker s) !! k = Some p -> (exists a n, k = tempID a n /\ n <= w_counter s) \/ k ∈ w_announced s;
  wi_all : announced_once s -> forall p, (p < w_next s)%nat -> tracked s p \/ p ∈ gone s;
  wi_late : if w_ended s then forall p, tracked s p -> p ∈ w_late s else w_main s = [] /\ w_late s = []
}.

Lemma ws_inv_init c : ws_inv (ws_init c).
Proof.
  assert (forall p, ~ tracked (ws_init c) p) as N by (intros p [k H]; cbn in H; by rewrite lookup_empty in H).
  constructor; cbn.
  - intros k k' p H. by rewrite lookup_empty in H.
  - intros p H. by apply N in H.
  - constructor.
  - intros p [H|H]; [by apply N in H|by apply not_elem_of_nil in H].
  - intros p H. by apply N in H.
  - intros k p H. by rewrite lookup_empty in H.
  - intros _ p H. lia.
  - done.
Qed.

(** A step that leaves the map of the tracker alone and settles no turn of it. *)
Lemma ws_inv_heap s t : ws_inv s -> tk_turns t = tk_turns (w_tracker s) ->
  (forall p turn, tk_heap (w_tracker s) !! p = Some turn -> tn_IsSettled turn = false -> exists turn', tk_heap t !! p = Some turn' /\ tn_IsSettled turn' = false) ->
  ws_inv (s <| w_tracker := t |>).
Proof.
  intros [I A N B O K C L] E H. assert (forall p, tracked (s <| w_tracker := t |>) p <-> tracked s p) as T by (intros p; unfold tracked; cbn; by rewrite E).
  constructor; cbn; rewrite ?E; try done.
  - intros p Hp%T. by apply A.
  - intros p Hp. rewrite T in Hp. by apply B.
  - intros p Hp%T. destruct (O p Hp) as (turn & ? & ?). by eapply H.
  - intros F p Hp. rewrite T. by apply C.
  - destruct (w_ended s); [|done]. intros p Hp%T. by apply L.
Qed.

Lemma alter_open (f : ActiveTurn -> ActiveTurn) (h : gmap address ActiveTurn) q p turn : (forall x, tn_IsSettled (f x) = tn_IsSettled x) ->
  h !! p = Some turn -> tn_IsSettled turn = false -> exists turn', alter f q h !! p = Some turn' /\ tn_IsSettled turn' = false.
Proof.
  intros F H S. destruct (decide (q = p)) as [->|N]; [|rewrite lookup_alter_ne by done; eauto].
  rewrite lookup_alter_eq, H. cbn. eexists. split; [done|]. by rewrite F.
Qed.

(** Moving a turn out of the tracker. *)
Lemma ws_inv_take s t k p : ws_inv s -> tk_turns (w_tracker s) !! k = Some p -> w_upstream s = None -> tk_turns t = delete k (tk_turns (w_tracker s)) ->
  (forall q, q <> p -> tk_heap t !! q = tk_heap (w_tracker s) !! q) -> ws_inv (s <| w_tracker := t |> <| w_upstream := Some p |>).
Proof.
  intros [I A N B O K C L] Hk Hu E H. set (s' := s <| w_tracker := t |> <| w_upstream := Some p |>).
  assert (gone s' = p :: gone s) as G by (unfold gone, s'; cbn; by rewrite Hu).
  assert (forall q, tracked s' q <-> tracked s q /\ q <> p) as T.
  { intros q. unfold tracked, s'. cbn. rewrite E. split.
    - intros [k' Hq]. apply lookup_delete_Some in Hq as [Nk Hq]. split; [eauto|]. intros ->. apply Nk. by eapply I.
    - intros [[k' Hq] Nq]. exists k'. rewrite lookup_delete_ne; [done|]. intros <-. congruence. }
  constructor; try rewrite G.
  - cbn. rewrite E. intros k1 k2 q H1 H2. apply lookup_delete_Some in H1 as [_ H1]. apply lookup_delete_Some in H2 as [_ H2]. by eapply I.
  - intros q [Hq Nq]%T. rewrite not_elem_of_cons. split; [done|by apply A].
  - apply NoDup_cons. split; [|done]. apply A. by exists k.
  - cbn [w_next]. intros q. rewrite T, elem_of_cons. intros [[Hq _]|[->|Hq]]; apply B; [by left|left; by exists k|by right].
  - intros q [Hq Nq]%T. cbn. rewrite H by done. by apply O.
  - cbn. rewrite E. intros k1 q H1. apply lookup_delete_Some in H1 as [_ H1]. by eapply K.
  - cbn [w_next]. intros F q Hq. rewrite T, elem_of_cons. destruct (C F q Hq) as [Tq|Tq]; [|by right; right]. destruct (decide (q = p)); [right; by left|by left].
  - cbn. destruct (w_ended s); [|done]. intros q [Hq _]%T. by apply L.
Qed.

(** Moving a turn among what has left the tracker. *)
Lemma ws_inv_perm s s' : ws_inv s -> w_tracker s' = w_tracker s -> w_next s' = w_next s -> w_counter s' = w_counter s -> w_announced s' = w_announced s ->
  w_ended s' = w_ended s -> w_late s' = w_late s -> (w_ended s = false -> w_main s' = w_main s) -> gone s' ≡ₚ gone s -> ws_inv s'.
Proof.
  intros [I A N B O K C L] E1 E2 E3 E4 E5 E6 E7 P. assert (forall q, tracked s' q <-> tracked s q) as T by (intros q; unfold tracked; by rewrite E1).
  assert (announced_once s' -> announced_once s) as Fa by (unfold announced_once; by rewrite E4).
  constructor.
  - by rewrite E1.
  - intros p Hp%T. rewrite P. by apply A.
  - by rewrite P.
  - intros p. rewrite T, P, E2. apply B.
  - intros p Hp%T. rewrite E1. by apply O.
  - rewrite E1, E3, E4. apply K.
  - intros F%Fa p. rewrite E2, T, P. by apply C.
  - rewrite E5, E6. destruct (w_ended s); [intros p Hp%T; by apply L|]. by rewrite E7.
Qed.

(** The turn bound to a new response is one that waits, and none started before it. *)
Lemma earliest_spec order t : (forall m, order m ≡ₚ map_to_list m) ->
  match earliest order t with
  | Some (k, p) => tk_turns t !! k = Some p /\ is_temp k = true /\ forall k' p', tk_turns t !! k' = Some p' -> is_temp k' = true -> start_of t p <= start_of t p'
  | None => forall k p, tk_turns t !! k = Some p -> is_temp k = false
  end.
Proof.
  intros Horder. unfold earliest. set (step := fun best kp => _).
  assert (forall l best, match fold_left step l best with
    | Some (k, p) => ((k, p) ∈ l /\ is_temp k = true \/ best = Some (k, p)) /\ (forall k' p', (k', p') ∈ l -> is_temp k' = true -> start_of t p <= start_of t p') /\
        (forall b, best = Some b -> start_of t p <= start_of t b.2)
    | None => best = None /\ forall k p, (k, p) ∈ l -> is_temp k = false
    end) as F.
  { induction l as [|[k p] l IH]; intros best; cbn [fold_left].
    - destruct best as [[k p]|]; [|by split; [|intros ? ? ?%elem_of_nil]]. split_and!; [by right|by intros ? ? ?%elem_of_nil|]. intros b [= <-]. done.
    - specialize (IH (step best (k, p))). revert IH. generalize (fold_left step l (step best (k, p))). intros r. unfold step. cbn [fst snd].
      destruct r as [[k1 p1]|].
      + destruct (is_temp k) eqn:T.
        * destruct best as [[kb pb]|].
          -- cbn [fst snd]. destruct (start_of t p <? start_of t pb) eqn:C; zbool; intros (H1 & H2 & H3); cbn [snd] in *.
             ++ specialize (H3 _ eq_refl). cbn in H3. split_and!.
                ** destruct H1 as [[H1 ?]|[= -> ->]]; left; (split; [|done]); set_solver.
                ** intros k' p' [[= -> ->]|H]%elem_of_cons T'; [lia|by apply H2 with k'].
                ** intros b [= <-]. cbn. lia.
             ++ specialize (H3 _ eq_refl). cbn in H3. split_and!.
                ** destruct H1 as [[H1 ?]|[= -> ->]]; [left; split; [set_solver|done]|by right].
                ** intros k' p' [[= -> ->]|H]%elem_of_cons T'; [lia|by apply H2 with k'].
                ** intros b [= <-]. cbn. lia.
          -- intros (H1 & H2 & H3). specialize (H3 _ eq_refl). cbn in H3. split_and!; [|intros k' p' [[= -> ->]|H]%elem_of_cons T'; [lia|by apply H2 with k']|done].
             destruct H1 as [[H1 ?]|[= -> ->]]; left; (split; [|done]); set_solver.
        * intros (H1 & H2 & H3). split_and!; [|intros k' p' [[= -> ->]|H]%elem_of_cons T'; [congruence|by apply H2 with k']|done].
          destruct H1 as [[H1 ?]|H1]; [left; split; [set_solver|done]|by right].
      + destruct (is_temp k) eqn:T.
        * destruct best as [[kb pb]|]; [destruct (_ <? _)|]; by intros [? _].
        * intros [-> H]. split; [done|]. intros k' p' [[= -> ->]|H']%elem_of_cons; [done|by apply (H k' p')]. }
  specialize (F (order (tk_turns t)) None).
  assert (forall k p, (k, p) ∈ order (tk_turns t) <-> tk_turns t !! k = Some p) as O by (intros; rewrite Horder; apply elem_of_map_to_list).
  destruct (fold_left step _ None) as [[k p]|].
  - destruct F as ([[H1 H2]|?] & H3 & _); [|done]. split_and!; [by apply O|done|]. intros k' p' H T. apply (H3 k'); [by apply O|done].
  - destruct F as [_ H]. intros k p E. by apply (H k p), O.
Qed.

Section settled_once.
Context (order : gmap string address -> list (string * address)) (Horder : forall m, order m ≡ₚ map_to_list m).

Lemma admit_inv s nanos turn : ws_inv s -> w_counter s < max_int64 -> tn_IsSettled turn = false ->
  ws_inv (s <| w_tracker := AddTurn (w_tracker s) (tempID nanos (w_counter s + 1)) (w_next s) turn |> <| w_next := S (w_next s) |>
            <| w_counter := w_counter s + 1 |> <| w_late := if w_ended s then w_next s :: w_late s else w_late s |>).
Proof.
  intros [I A N B O K C L] _ St. set (key := tempID nanos _). set (s' := _ <| w_late := _ |>).
  assert (forall q, tracked s q -> q <> w_next s) as Old by (intros q Hq ->; assert (w_next s < w_next s)%nat by (apply B; by left); lia).
  assert (forall k q, tk_turns (w_tracker s') !! k = Some q <-> k = key /\ q = w_next s \/ k <> key /\ tk_turns (w_tracker s) !! k = Some q) as T.
  { intros k q. cbn. rewrite lookup_insert_Some. naive_solver. }
  assert (forall q, tracked s' q -> q = w_next s \/ tracked s q) as T1 by (intros q [k [[_ ->]|[_ H]]%T]; [by left|right; by exists k]).
  assert (gone s' = gone s) as G by done.
  constructor; try rewrite G; try done.
  - intros k k' q [[-> ->]|[Nk H]]%T [[-> E]|[Nk' H']]%T; [done|exfalso; by apply (Old (w_next s)); [exists k'|]|exfalso; subst; by apply (Old (w_next s)); [exists k|]|by eapply I].
  - intros q [->|Hq]%T1; [|by apply A]. intros Hg. assert (w_next s < w_next s)%nat by (apply B; by right). lia.
  - intros q Hq. cbn. assert (q = w_next s \/ (q < w_next s)%nat) as [->|?]; [|lia|lia]. destruct Hq as [[->|Hq]%T1|Hq]; [by left|right; apply B; by left|right; apply B; by right].
  - intros q Hq. cbn. destruct (decide (q = w_next s)) as [->|Nq]; [rewrite lookup_insert_eq; eauto|]. rewrite lookup_insert_ne by done. apply T1 in Hq as [->|Hq]; [done|by apply O].
  - intros k q [[-> ->]|[_ H]]%T; [left; exists nanos, (w_counter s + 1); cbn; split; [done|lia]|]. destruct (K _ _ H) as [(a & n & -> & ?)|?]; [left; exists a, n; cbn; split; [done|lia]|by right].
  - intros F q Hq. cbn in Hq. destruct (decide (q = w_next s)) as [->|Nq]; [left; exists key; apply T; by left|].
    destruct (C F q ltac:(lia)) as [[k Hk]|?]; [|by right]. left. exists k. apply T. right. split; [|done]. intros ->.
    destruct (K _ _ Hk) as [(a & n & E & ?)|E]; [apply tempID_counter in E; lia|]. destruct F as [_ F]. rewrite Forall_forall in F. apply F in E. subst key. by rewrite tempID_temp in E.
  - cbn. destruct (w_ended s); [|done]. intros q [->|Hq]%T1; [by left|right; by apply L].
Qed.

Lemma created_inv s id : ws_inv s -> ws_inv (s <| w_tracker := fst (AssociateLatestTempID order (w_tracker s) id) |> <| w_announced := id :: w_announced s |>).
Proof.
  intros [I A N B O K C L]. unfold AssociateLatestTempID. pose proof (earliest_spec order (w_tracker s) Horder) as Sp. set (s' := _ <| w_announced := _ |>).
  assert (announced_once s' -> announced_once s /\ id ∉ w_announced s /\ is_temp id = false) as Fa.
  { intros [F1 F2]. cbn in F1, F2. apply NoDup_cons in F1 as [? ?]. apply Forall_cons in F2 as [? ?]. by split_and!. }
  destruct (earliest order (w_tracker s)) as [[key p]|].
  2: { constructor; try done; cbn.
       - intros k q H. destruct (K k q H) as [?|?]; [by left|right; by right].
       - intros F. by apply C, Fa. }
  destruct Sp as (Hk & Ht & _). assert (gone s' = gone s) as G by done.
  assert (forall k q, tk_turns (w_tracker s') !! k = Some q <-> k = id /\ q = p \/ k <> id /\ k <> key /\ tk_turns (w_tracker s) !! k = Some q) as T.
  { intros k q. cbn. rewrite lookup_insert_Some, lookup_delete_Some. naive_solver. }
  assert (forall q, tracked s' q -> tracked s q) as T1 by (intros q [k [[_ ->]|(_ & _ & H)]%T]; [by exists key|by exists k]).
  constructor; try rewrite G; try done.
  - intros k k' q [[-> ->]|(N1 & N2 & H)]%T [[-> E]|(N1' & N2' & H')]%T; [done|exfalso; by apply N2', (I _ _ p)|subst; exfalso; by apply N2, (I _ _ p)|by eapply I].
  - intros q Hq%T1. by apply A.
  - intros q [Hq%T1|Hq]; apply B; auto.
  - intros q Hq%T1. destruct (O q Hq) as (turn & ? & ?). cbn. by apply alter_open with turn.
  - intros k q [[-> ->]|(_ & _ & H)]%T; [right; by left|]. destruct (K _ _ H) as [?|?]; [by left|right; by right].
  - intros F q Hq. destruct (Fa F) as (F' & Nid & Tid). destruct (C F' q Hq) as [[k H]|?]; [|by right]. left.
    destruct (decide (k = key)) as [->|Nk]; [exists id; apply T; left; split; [done|congruence]|]. exists k. apply T. right. split_and!; [|done|done]. intros ->.
    destruct (K _ _ H) as [(a & n & -> & _)|?]; [by rewrite tempID_temp in Tid|done].
  - cbn. destruct (w_ended s); [|done]. intros q Hq%T1. by apply L.
Qed.

Lemma ws_end_inv s t ps : ws_inv s -> w_ended s = false -> GetUnsettledTurns order (w_tracker s) = (t, ps) -> ws_inv (s <| w_tracker := t |> <| w_ended := true |> <| w_main := ps |>).
Proof.
  intros [I A N B O K C L] He [= <- <-]. rewrite He in L. destruct L as [Lm Ll]. set (ps := List.filter _ _). set (s' := _ <| w_main := _ |>).
  assert (forall p, p ∈ ps <-> tracked s p) as P.
  { intros p. subst ps. rewrite list_elem_of_In, filter_In, <- list_elem_of_In, list_elem_of_fmap. split.
    - intros [([k q] & -> & H) _]. rewrite Horder, elem_of_map_to_list in H. by exists k.
    - intros [k H]. split; [exists (k, p); split; [done|]; by rewrite Horder, elem_of_map_to_list|]. destruct (O p) as (turn & -> & ->); [by exists k|done]. }
  assert (NoDup ps) as Np.
  { subst ps. apply NoDup_ListNoDup, List.NoDup_filter, NoDup_ListNoDup. apply NoDup_fmap_2_strong.
    - intros [k1 p1] [k2 p2] H1 H2 E. cbn in E. subst p2. rewrite Horder, elem_of_map_to_list in H1, H2. f_equal. by eapply I.
    - rewrite Horder. apply NoDup_map_to_list. }
  assert (forall p, ~ tracked s' p) as Nt by (intros p [k H]; cbn in H; by rewrite lookup_empty in H).
  assert (gone s' ≡ₚ ps ++ gone s) as G by (unfold gone; cbn; rewrite Lm; cbn; solve_Permutation).
  constructor.
  - intros k k' p H. cbn in H. by rewrite lookup_empty in H.
  - intros p Hp. by apply Nt in Hp.
  - rewrite G. apply NoDup_app. split_and!; [done| |done]. intros p Hp%P. by apply A.
  - intros p [Hp|Hp]; [by apply Nt in Hp|]. rewrite G, elem_of_app, P in Hp. cbn. by apply B.
  - intros p Hp. by apply Nt in Hp.
  - intros k p H. cbn in H. by rewrite lookup_empty in H.
  - intros F p Hp. right. rewrite G, elem_of_app, P. by apply C.
  - intros p Hp. by apply Nt in Hp.
Qed.

Lemma ws_step_inv s s' : ws_inv s -> ws_step order s s' -> ws_inv s'.
Proof.
  intros I H. destruct H as [s nanos turn Hc St|s k Hk Hc|s id Hu|s ev Hu|s ev t p Hu Hd|s p Hu|s t ps He Ht|s p ps Hm].
  - by apply admit_inv.
  - destruct I as [I A N B O K C L]. constructor; try done. intros k' p H. destruct (K k' p H) as [(a & n & -> & ?)|?]; [left; exists a, n; cbn; split; [done|lia]|by right].
  - by apply created_inv.
  - apply ws_inv_heap; [done|unfold count_delta; by repeat case_match|]. intros p turn Hp St. unfold count_delta.
    repeat case_match; (by exists turn) || (cbn; by apply alter_open with turn).
  - unfold take_done in Hd. destruct (seqb _ _); [|done]. destruct (is_empty _); [done|]. unfold RemoveTurn in Hd. set (id := if is_empty _ then _ else _) in *. clearbody id.
    destruct (tk_turns (w_tracker s) !! id) as [q|] eqn:E; [|done]. injection Hd as <- ->. apply ws_inv_take with id; [done|done|done|done|]. intros q Nq. cbn. by rewrite lookup_alter_ne.
  - apply ws_inv_perm with s; try done. unfold gone. cbn. rewrite Hu. cbn. solve_Permutation.
  - by apply ws_end_inv.
  - apply ws_inv_perm with s; try done; [|unfold gone; cbn; rewrite Hm; cbn; solve_Permutation]. intros He. pose proof (wi_late _ I) as L. rewrite He, Hm in L. by destruct L.
Qed.
End settled_once.

(** C21: the turns of a WebSocket session. However the frames of the client, the frames of the
    upstream and the end of the session interleave, no turn is settled twice; and once the
    session has ended and its threads have finished, every turn that was admitted before the
    end has been settled, provided the upstream announced each response once. *)
Theorem ws_turns_settled_once (order : gmap string nat -> list (string * nat)) (counter : Z) (s : ws_state)
  (Horder : forall m, order m ≡ₚ map_to_list m) (Hreach : rtc (ws_step order) (ws_init counter) s) :
  NoDup (w_settled s) /\
  (w_ended s = true -> w_main s = [] -> w_upstream s = None -> announced_once s ->
   forall p, (p < w_next s)%nat -> p ∈ w_settled s \/ p ∈ w_late s).
Proof.
  assert (ws_inv s) as [I A N B O K C L].
  { revert Hreach. generalize (ws_inv_init counter). generalize (ws_init counter). intros s0 I0. induction 1 as [|x y z Hstep _ IH]; [done|]. by apply IH, (ws_step_inv order Horder x). }
  split; [unfold gone in N; by apply NoDup_app in N as (_ & _ & (_ & _ & N)%NoDup_app)|].
  intros He Hm Hu F p Hp. rewrite He in L. destruct (C F p Hp) as [T|G]; [right; by apply L|left]. unfold gone in G. by rewrite Hu, Hm in G.
Qed.

(** Two turns; the first is ended by the upstream, the session ends, the second is settled by
    the handler. *)
Definition demo_turn : ActiveTurn := mkTurn "" "" "" "" "" fzero 0 0 false None.
Definition demo_done : ws_event := mkWsEvent "response.done" "" "r1" "" 0 0 "" "".
Definition demo_end : ws_state :=
  let t1 := AddTurn (AddTurn NewWSSessionTracker (tempID 0 1) 0 demo_turn) (tempID 0 2) 1 (demo_turn <| tn_StartTime := 1 |>) in
  let t2 := fst (AssociateLatestTempID map_to_list t1 "r1") in
  let t3 := set_turn (fst (take_done demo_done t2)) 0 (fun turn => turn <| tn_IsSettled := true |>) in
  mkWs (fst (GetUnsettledTurns map_to_list t3)) 2 2 None true [] [1; 0]%nat [] ["r1"].

Lemma demo_session : rtc (ws_step map_to_list) (ws_init 0) demo_end.
Proof.
  eapply rtc_l. { apply (WAdmit _ (ws_init 0) 0 demo_turn); done. }
  eapply rtc_l. { eapply (WAdmit _ _ 0 (demo_turn <| tn_StartTime := 1 |>)); done. }
  eapply rtc_l. { eapply (WCreated _ _ "r1"). done. }
  eapply rtc_l. { eapply (WDone _ _ demo_done _ 0%nat); [done|]. vm_compute. reflexivity. }
  eapply rtc_l. { eapply (WSettle _ _ 0%nat). done. }
  eapply rtc_l. { eapply (WEnd _ _ _ [1%nat]); [done|]. vm_compute. reflexivity. }
  eapply rtc_l. { eapply (WSettleMain _ _ 1%nat []). done. }
  match goal with |- rtc _ ?x demo_end => assert (x = demo_end) as -> by (vm_compute; reflexivity) end. apply rtc_refl.
Qed.

Lemma ws_turns_settled_once_witness : NoDup (w_settled demo_end) /\ forall p, (p < 2)%nat -> p ∈ w_settled demo_end \/ p ∈ w_late demo_end.
Proof.
  destruct (ws_turns_settled_once map_to_list 0 demo_end ltac:(reflexivity) demo_session) as [N H]. split; [exact N|]. apply H; try reflexivity.
  split; [apply NoDup_singleton|]. repeat constructor.
Defined.

(** * The gate for turns *)

(** a turn request reaches the upstream only when every inbound filter admitted it, and is
    then tracked for settlement; one that a filter rejects is answered with the error, is
    not forwarded and leaves no turn behind. *)
Theorem ws_turn_gate {W : Type} (p : EnginePipeline W) (parent : GatewayContext) (payload : string) (now : Time) (s s' : ws_session W) (up back : option string)
  (Htype : Unmarshal (dec_struct [("type", dec_string)]) "" payload = Some "response.create")
  (Hrun : client_message p parent payload now s = Ret (s', up, back)) :
  exists w g err, turn_inbound (pp_InboundFilters p) (ss_world s) (turn_context parent payload now) = Ret (w, g, err) /\ ss_world s' = w /\
    match err with
    | Some e => up = None /\ back = Some (client_error e) /\ ss_tracker s' = ss_tracker s
    | None => up = Some payload /\ back = None /\
        exists key turn, tk_turns (ss_tracker s') !! key = Some (ss_next s) /\ tk_heap (ss_tracker s') !! ss_next s = Some turn /\
          tn_Gctx turn = Some g /\ tn_IsSettled turn = false
    end.
Proof.
  revert Hrun. unfold client_message, handleClientEvent. rewrite Htype. change (seqb "response.create" "response.create") with true. cbn iota.
  destruct (turn_inbound _ _ _) as [[[w g] err]|]; [|done]. cbn [go_bind]. exists w, g, err. split; [done|]. revert Hrun.
  destruct err as [e|]; cbn [go_bind]; intros [= <- <- <-]; (split; [done|]); [done|]. split_and!; [done|done|]. eexists _, _. cbn. rewrite !lookup_insert_eq. by split_and!.
Qed.

Definition demo_filter (err : option goerror) : InboundFilter unit := mkInbound "limit" 0 (fun w g => Ret (w, g, err)).
Definition demo_pipeline (err : option goerror) : EnginePipeline unit := mkEnginePipeline "ws" (mkPipeline (fun w g => (w, g, None)) ∅) [demo_filter err] [] ∅ None.
Definition demo_session_state : ws_session unit := mkSession tt NewWSSessionTracker 0 0.
Definition create_frame : string := json_text "{'type':'response.create'}".

Lemma ws_turn_gate_witness : exists w g err, turn_inbound (pp_InboundFilters (demo_pipeline (Some (errorf "no")))) tt (turn_context emptyContext create_frame 5) = Ret (w, g, err) /\
  ss_tracker demo_session_state = NewWSSessionTracker /\ err <> None.
Proof.
  destruct (ws_turn_gate (demo_pipeline (Some (errorf "no"))) emptyContext create_frame 5 demo_session_state demo_session_state None (Some (client_error (errorf "no")))
    ltac:(vm_compute; reflexivity) ltac:(vm_compute; reflexivity)) as (w & g & err & E & _ & H).
  exists w, g, err. split; [exact E|]. split; [reflexivity|]. intros ->. destruct H as [H _]. discriminate.
Defined.

(** A member by its exact name, the first one. *)
Definition get_member (k text : string) : option json :=
  match json_parse text with Some (JObj m) => snd <$> List.find (fun f => seqb (fst f) k) m | _ => None end.

(** The type of a frame is read with Go's rules for member names, which ignore case and let
    the last one win: a frame that is a turn request for the upstream passes ungoverned. *)
Lemma gate_bypassed {W} (p : EnginePipeline W) parent now s :
  let frame := json_text "{'type':'response.create','Type':'x'}" in
  get_member "type" frame = Some (JStr "response.create") /\ client_message p parent frame now s = Ret (s, Some frame, None).
Proof.
  intros frame. split; [vm_compute; reflexivity|]. unfold client_message, handleClientEvent.
  assert (Unmarshal (dec_struct [("type", dec_string)]) "" frame = Some "x") as -> by (vm_compute; reflexivity). reflexivity.
Qed.

(** The context of a turn does not carry the key of the caller, so the credits filters work
    on the empty key. *)
Lemma turn_without_key parent payload now : APIKey (turn_context parent payload now) = "" /\ APIKeyID (turn_context parent payload now) = "".
Proof. done. Qed.

(** A turn admitted while the session is being cleaned up is never settled. *)
Lemma late_turn_unsettled : exists s, rtc (ws_step map_to_list) (ws_init 0) s /\ w_ended s = true /\ w_main s = [] /\ w_upstream s = None /\ announced_once s /\
  w_next s = 1%nat /\ w_settled s = [].
Proof.
  eexists. split.
  - eapply rtc_l. { eapply (WEnd _ (ws_init 0) _ []); [done|]. vm_compute. reflexivity. }
    eapply rtc_l. { eapply (WAdmit _ _ 0 demo_turn); done. } apply rtc_refl.
  - split_and!; try done. split; constructor.
Qed.

(** A response announced twice replaces the turn that was bound to it: that one is lost. *)
Lemma repeated_announcement_loses_turn : exists s, rtc (ws_step map_to_list) (ws_init 0) s /\ w_next s = 2%nat /\ map snd (map_to_list (tk_turns (w_tracker s))) = [1%nat] /\ gone s = [].
Proof.
  eexists. split.
  - eapply rtc_l. { apply (WAdmit _ (ws_init 0) 0 demo_turn); done. }
    eapply rtc_l. { eapply (WAdmit _ _ 0 (demo_turn <| tn_StartTime := 1 |>)); done. }
    eapply rtc_l. { eapply (WCreated _ _ "r1"). done. }
    eapply rtc_l. { eapply (WCreated _ _ "r1"). done. } apply rtc_refl.
  - split_and!; vm_compute; reflexivity.
Qed.

(** * The dial loop *)

Section dial_facts.
Context {W : Type} (D : dial_env W).

(** The balancer picks one of the endpoints it is given. *)
Definition picks_candidate : Prop := forall select w g eps w' ep, de_lb D = Some select -> select w g eps = (w', Some (Some ep)) -> ep ∈ eps.

Lemma dial_attempt_fresh w g excluded w' : picks_candidate ->
  (forall ep, dial_attempt D w g excluded = (w', Connected ep) -> ep_ID ep ∉ excluded) /\
  (forall e id, dial_attempt D w g excluded = (w', Again e (Some id)) -> id ∉ excluded).
Proof.
  intros P. unfold dial_attempt. destruct (de_List D w (Model g)) as [w1 [[|x eps]|e]]; [split; discriminate| |split; discriminate].
  destruct (ws_route_chain _ _ _ _) as [w2 eps2]. destruct (List.filter _ eps2) as [|y filtered] eqn:Ef; [split; discriminate|].
  destruct (de_lb D) as [select|] eqn:El; [|split; discriminate]. destruct (select w2 g (y :: filtered)) as [w3 [[ep1|]|]] eqn:Es; [|split; discriminate..].
  pose proof (P _ _ _ _ _ _ El Es) as H. rewrite <- Ef in H. apply list_elem_of_In, filter_In in H as [_ H]. apply negb_true_iff, bool_decide_eq_false in H.
  destruct (de_dial D w3 _ _) as [w4 [e|]]; split; try discriminate; [by intros e1 id [= <- <- <-]|by intros ep [= <- <-]].
Qed.

Lemma dial_loop_spec n : forall w g excluded lastErr dialled w' g' res dialled', picks_candidate ->
  (forall id, id ∈ dialled -> id ∈ excluded) -> NoDup dialled -> dial_loop D n w g excluded lastErr dialled = (w', g', res, dialled') ->
  NoDup dialled' /\ (length dialled' <= length dialled + n)%nat /\
  match res with inl ep => last dialled' = Some (ep_ID ep) /\ SelectedEndpoint g' = Some ep | inr _ => True end.
Proof.
  induction n as [|n IH]; intros w g excluded lastErr dialled w' g' res dialled' P Sub Nd; cbn [dial_loop].
  - intros [= <- <- <- <-]. split_and!; [done|lia|done].
  - destruct (dial_attempt D w (ResetAttempt g) excluded) as [w1 r] eqn:E. destruct r as [ep|e|e failed].
    + destruct (dial_attempt_fresh w (ResetAttempt g) excluded w1 P) as [F _]. specialize (F _ E). intros [= <- <- <- <-]. split_and!; [|rewrite length_app; cbn; lia|by rewrite last_snoc|done].
      apply NoDup_app. split_and!; [done|set_solver|apply NoDup_singleton].
    + intros [= <- <- <- <-]. split_and!; [done|lia|done].
    + intros H. destruct failed as [id|].
      * assert (id ∉ excluded) as F by (eapply (dial_attempt_fresh w (ResetAttempt g) excluded w1 P); exact E).
        apply IH in H as (H1 & H2 & H3); [|done|set_solver|apply NoDup_app; split_and!; [done|set_solver|apply NoDup_singleton]].
        split_and!; [done|rewrite length_app in H2; cbn in H2; lia|done].
      * apply IH in H as (H1 & H2 & H3); [|done|done|done]. split_and!; [done|lia|done].
Qed.
End dial_facts.

(** The handshake dials no endpoint twice, at most one more than the retries of the policy,
    and the session talks to the endpoint dialled last. *)
Theorem ws_dials_distinct {W : Type} (D : dial_env W) (w w' : W) (g g' : GatewayContext) (res : Endpoint + goerror) (dialled : list string)
  (Hlb : picks_candidate D) (Hrun : selectEndpointAndConnect D w g = (w', g', res, dialled)) :
  NoDup dialled /\ Z.of_nat (length dialled) <= Z.max 0 (max_retries g + 1) /\
  match res with inl ep => last dialled = Some (ep_ID ep) /\ SelectedEndpoint g' = Some ep | inr _ => True end.
Proof.
  apply dial_loop_spec in Hrun as (H1 & H2 & H3); [|done|by intros ? ?%not_elem_of_nil|constructor]. split_and!; [done|cbn in H2; lia|done].
Qed.
