(* ===== verification/FrontEnd.v ===== *)
(** The HTTP front end: the authentication middleware (internal/middleware/auth.go) with the headers the engine
    takes the identity of a caller from, and the list of models (internal/handler/llm_handler.go). *)

From Stdlib Require Import Ascii.
From S2P Require Import Prelude GoFloat GoStrings GoTime GoJson GoPrint Matcher Policy Types Context ErrorPolicy Http.
From S2P Require Import Store Limiter Settlement Sse Compensation Balancers Translate SmartRequest Cache ApiKeys Config ConfigManager Models Engine.

(** * auth.go *)

Definition header_Set (h : headers) (key value : string) : headers := <[CanonicalMIMEHeaderKey key := [value]]> h.

Definition extractAPIKey (r : http_Request) : string :=
  let h := header_Get (req_Header r) in
  match (let auth := h "Authorization" in if is_empty auth then None else cut_space auth) with
  | Some (scheme, token) => if seqb (ToLower scheme) "bearer" then token else first_nonempty [h "api-key"; h "x-api-key"; query_Get (default ∅ (req_URL r)) "api_key"]
  | None => first_nonempty [h "api-key"; h "x-api-key"; query_Get (default ∅ (req_URL r)) "api_key"]
  end.

(** The identity as headers and as keys of the gin context: empty parts are skipped. *)
Definition identity_parts (i : key_identity) (apiKey : string) : list (string * string * string) :=
  List.filter (fun '(_, _, v) => negb (is_empty v))
    [("X-Tenant-ID", "tenant", id_Tenant i); ("X-User-ID", "user_id", id_User i); ("X-Workspace-ID", "workspace_id", id_Workspace i);
     ("X-User-Tenant", "user_tenant", id_UserTenant i); ("X-API-Key-ID", "api_key_id", id_KeyID i); ("X-API-Key-Hash", "api_key_hash", id_KeyHash i)] ++
  [("X-API-Key", "api_key", apiKey)].

Definition inject (r : http_Request) (parts : list (string * string * string)) : http_Request :=
  mkRequest (fold_left (fun h '(k, _, v) => header_Set h k v) parts (req_Header r)) (req_URL r) (req_Cookies r).

(** The answer of the middleware: a status and a message, or the request and the context keys for the next handler. *)
Inductive auth_outcome := Unauthorized (message : string) | Passed (r : http_Request) (keys : gmap string string).

(** [verify]: [VerifyKey] of the validator. *)
Definition auth_middleware {W} (verify : W -> string -> go (W * (key_identity + goerror))) (w : W) (r : http_Request) : go (W * auth_outcome) :=
  let apiKey := extractAPIKey r in
  if is_empty apiKey then Ret (w, Unauthorized "Missing API key")
  else
    go_bind (verify w apiKey) (fun '(w, res) =>
      match res with
      | inr e => Ret (w, Unauthorized (Error_text e))
      | inl i => let parts := identity_parts i apiKey in Ret (w, Passed (inject r parts) (list_to_map (map (fun '(_, k, v) => (k, v)) parts)))
      end).

(** * llm_handler.go *)

Record listed_model := mkListed { lm_id : string; lm_owned_by : string; lm_context_length : Z; lm_max_output_tokens : Z }.

Section handler.
Context {L : Type -> Type} `{!ExpirableLRU L} (decode : string -> option (list ResolvedEndpoint)) (R : Redis) (S : RedisSets).

Definition list_entry (aliases : option (AliasService L)) (m : ConfigManager) (id : string) : ConfigManager * list listed_model :=
  let '(m, owner) := OwnerOf decode R m id in
  let owner := if is_empty owner then "github.com/tokenlive/tokenlive-gateway" else owner in
  let '(m, (ctx, out)) := ModelCapacityOf decode R m id in
  (m, mkListed id owner ctx out ::
      match aliases with
      | Some a => match GetAliases S a id with inl l => map (fun x => mkListed x owner ctx out) l | inr _ => [] end
      | None => []
      end).

Fixpoint list_entries (aliases : option (AliasService L)) (m : ConfigManager) (ids : list string) : ConfigManager * list listed_model :=
  match ids with
  | [] => (m, [])
  | id :: r => let '(m, l) := list_entry aliases m id in let '(m, k) := list_entries aliases m r in (m, l ++ k)
  end.

(** The models of the caller; no list without one. *)
Definition ListModels (ms : ModelService) (aliases : option (AliasService L)) (m : ConfigManager) (tenant userID : string) : ConfigManager * option (list listed_model) :=
  if is_empty tenant && is_empty userID then (m, None)
  else
    let all m := let '(m, known) := AllKnownModels R m in (m, elements known) in
    let '(m, ids) := if is_empty tenant then all m else (m, match ListTenantModels R S ms tenant with inl l => l | inr _ => [] end) in
    let '(m, ids) := match ids with [x] => if seqb x "*" then all m else (m, ids) | _ => (m, ids) end in
    let '(m, l) := list_entries aliases m ids in (m, Some l).
End handler.

(** * The identity of a request *)

Lemma header_Get_Set h k v k' : header_Get (header_Set h k v) k' = if seqb (CanonicalMIMEHeaderKey k) (CanonicalMIMEHeaderKey k') then v else header_Get h k'.
Proof.
  unfold header_Get, header_Set, header_values, seqb, headers in *. case_bool_decide as E; [rewrite E; by rewrite lookup_insert_eq|by rewrite lookup_insert_ne].
Qed.

(** What the engine reads from a header after the parts are set: the last part for it. *)
Lemma inject_Get k' (parts : list (string * string * string)) : forall h, header_Get (fold_left (fun h '(k, _, v) => header_Set h k v) parts h) k' =
  fold_left (fun acc '(k, _, v) => if seqb (CanonicalMIMEHeaderKey k) (CanonicalMIMEHeaderKey k') then v else acc) parts (header_Get h k').
Proof. induction parts as [|[[k n] v] parts IH]; intros h; [done|]. cbn [fold_left]. by rewrite IH, header_Get_Set. Qed.

Definition own_or (mine theirs : string) : string := if is_empty mine then theirs else mine.

Section identity.
Context (i : key_identity) (apiKey : string) (r : http_Request).
#[local] Abbreviation client := (header_Get (req_Header r)).
#[local] Abbreviation seen := (header_Get (req_Header (inject r (identity_parts i apiKey)))).

Lemma seen_headers : seen "X-Tenant-ID" = own_or (id_Tenant i) (client "X-Tenant-ID") /\ seen "X-User-ID" = own_or (id_User i) (client "X-User-ID") /\
  seen "X-Workspace-ID" = own_or (id_Workspace i) (client "X-Workspace-ID") /\ seen "X-User-Tenant" = own_or (id_UserTenant i) (client "X-User-Tenant") /\
  seen "X-API-Key-ID" = own_or (id_KeyID i) (client "X-API-Key-ID") /\ seen "X-API-Key-Hash" = own_or (id_KeyHash i) (client "X-API-Key-Hash") /\ seen "X-API-Key" = apiKey.
Proof.
  unfold inject, identity_parts, own_or. cbn [req_Header]. rewrite !inject_Get. cbn [List.filter].
  destruct (is_empty (id_Tenant i)), (is_empty (id_User i)), (is_empty (id_Workspace i)), (is_empty (id_UserTenant i)), (is_empty (id_KeyID i)), (is_empty (id_KeyHash i)); cbn [negb app fold_left].
  all: repeat match goal with |- context [seqb ?a ?b] => match eval vm_compute in (seqb a b) with true => change (seqb a b) with true | false => change (seqb a b) with false end end; done.
Qed.
End identity.

(** C34: the identity the engine works with. A request the middleware lets pass carries the key that was verified, and of
    the tenant, user, workspace and key identifiers those of the record of the key, wherever the record has them;
    for an identifier the record lacks, the header the client sent is taken. *)
Theorem authenticated_identity {W : Type} (verify : W -> string -> go (W * (key_identity + goerror))) (w w' : W) (r r' : http_Request) (keys : gmap string string) (path : string)
  (body : option (string + goerror)) (g g' : GatewayContext) (err : option goerror)
  (Hauth : auth_middleware verify w r = Ret (w', Passed r' keys)) (Hparse : parseRequest (mkIncoming r' path body) g = (g', err)) :
  exists i, verify w (extractAPIKey r) = Ret (w', inl i) /\ extractAPIKey r <> "" /\ APIKey g' = extractAPIKey r /\
    let client := header_Get (req_Header r) in
    Tenant g' = own_or (id_Tenant i) (client "X-Tenant-ID") /\ UserID g' = own_or (id_User i) (client "X-User-ID") /\
    WorkspaceID g' = own_or (id_Workspace i) (client "X-Workspace-ID") /\ UserTenant g' = own_or (id_UserTenant i) (client "X-User-Tenant") /\
    APIKeyID g' = own_or (id_KeyID i) (client "X-API-Key-ID") /\ APIKeyHash g' = own_or (id_KeyHash i) (client "X-API-Key-Hash").
Proof.
  unfold auth_middleware in Hauth. destruct (is_empty (extractAPIKey r)) eqn:Ek; [done|]. assert (extractAPIKey r <> "") as Nk by (intros Q; by rewrite Q in Ek).
  destruct (verify w (extractAPIKey r)) as [[w1 [i|e]]|]; [|done|done]. cbn [go_bind] in Hauth. injection Hauth as -> <- _. exists i. split; [done|]. split; [done|].
  destruct (seen_headers i (extractAPIKey r) r) as (H1 & H2 & H3 & H4 & H5 & H6 & H7). set (r' := inject r (identity_parts i (extractAPIKey r))) in *. clearbody r'.
  assert (api_key r' = extractAPIKey r) as Ea. { unfold api_key, first_nonempty. cbn [List.find]. rewrite H7, Ek. done. }
  cbv zeta. rewrite <- H1, <- H2, <- H3, <- H4, <- H5, <- H6, <- Ea. revert Hparse. unfold parseRequest, readBody. cbn [in_Request in_Path in_Body].
  destruct body as [[b|e]|]; repeat (match goal with |- context [if ?b then _ else _] => destruct b end); intros [= <- <-]; done.
Qed.

(** A personal key (no tenant), and a client that names a tenant itself. *)
Definition demo_verify (w : unit) (k : string) : go (unit * (key_identity + goerror)) :=
  Ret (w, if seqb k "sk-alice" then inl (mkIdentity "alice" "" "" "" "k1" "") else inr (errorf "invalid API key")).
Definition demo_client (tenant : string) : http_Request :=
  mkRequest (header_Set (header_Set ∅ "Authorization" "Bearer sk-alice") "X-Tenant-ID" tenant) None [].
Definition demo_parsed (tenant : string) : option GatewayContext :=
  match auth_middleware demo_verify tt (demo_client tenant) with
  | Ret (_, Passed r' _) => Some (fst (parseRequest (mkIncoming r' "/v1/chat/completions" None) emptyContext))
  | _ => None
  end.

Lemma authenticated_identity_witness : exists r' keys g' err,
  auth_middleware demo_verify tt (demo_client "acme") = Ret (tt, Passed r' keys) /\ parseRequest (mkIncoming r' "/v1/chat/completions" None) emptyContext = (g', err) /\
  UserID g' = "alice" /\ APIKey g' = "sk-alice".
Proof.
  eexists _, _, _, _. split; [reflexivity|]. split; [apply surjective_pairing|].
  destruct (authenticated_identity demo_verify tt tt (demo_client "acme") _ _ "/v1/chat/completions" None emptyContext _ _ eq_refl (surjective_pairing _)) as (i & V & _ & K & _ & U & _).
  vm_compute in V. injection V as <-. split; [rewrite U|rewrite K]; vm_compute; reflexivity.
Defined.

(** The client of a personal key chooses the tenant whose limits, policies and models apply to its request. *)
Theorem tenant_header_spoofed (tenant : string) : Tenant <$> demo_parsed tenant = Some tenant.
Proof. vm_compute. reflexivity. Qed.

(** * The list of models *)

Lemma list_entries_ids {L : Type -> Type} `{!ExpirableLRU L} decode R S ids : forall m, map lm_id (snd (list_entries (L := L) decode R S None m ids)) = ids.
Proof.
  induction ids as [|id ids IH]; intros m; [done|]. cbn [list_entries]. unfold list_entry. destruct (OwnerOf decode R m id) as [m1 owner]. destruct (ModelCapacityOf decode R m1 id) as [m2 [ctx out]].
  specialize (IH m2). destruct (list_entries _ _ _ None m2 ids) as [m3 k]. cbn in *. by f_equal.
Qed.

(** A tenant with a set of models is shown that set, in the order Redis gives it. *)
Lemma tenant_list_exact {L : Type -> Type} `{!ExpirableLRU L} decode R S ms m tenant userID ids : tenant <> "" -> ListTenantModels R S ms tenant = inl ids -> ids <> ["*"] ->
  exists l, snd (ListModels (L := L) decode R S ms None m tenant userID) = Some l /\ map lm_id l = ids.
Proof.
  intros Ht Hl Hs. unfold ListModels. assert (is_empty tenant = false) as -> by (unfold is_empty, seqb; by apply bool_decide_eq_false). cbn [andb]. rewrite Hl.
  assert ((match ids with [x] => if seqb x "*" then let '(m1, known) := AllKnownModels R m in (m1, elements known) else (m, ids) | _ => (m, ids) end) = (m, ids)) as ->.
  { destruct ids as [|x [|]]; [done| |done]. unfold seqb. rewrite bool_decide_eq_false_2; [done|]. congruence. }
  pose proof (list_entries_ids (L := L) decode R S ids m) as E. destruct (list_entries _ _ _ None m ids) as [m1 l]. by exists l.
Qed.
