(* ===== verification/Gateway.v ===== *)
(** The engine with its inbound filters: what the composition guarantees. *)

From Stdlib Require Import Ascii.
From S2P Require Import Prelude GoFloat GoStrings GoJson GoPrint Matcher Policy Types Context Http Filters.
From S2P Require Import Compensation Balancers Fallback Sse Hedging Engine.

Section filters.
Context {S : Type}.
Notation W := (World S).

(** The filters as the registry holds them, with their names and orders. *)
Definition pure_filter (name : string) (order : Z) (f : GatewayContext -> option goerror) : InboundFilter W :=
  mkInbound name order (fun w g => Ret (w, g, f g)).

Definition auth_filter : InboundFilter W := pure_filter "auth" 10 Auth_OnRequest.
Definition credits_filter (check : string -> option goerror) : InboundFilter W :=
  pure_filter "credits_check" 15 (CreditsCheck_OnRequest check).
Definition validate_filter (validate : string -> string -> string -> bool + goerror) : InboundFilter W :=
  pure_filter "validate" 30 (Validate_OnRequest validate).
Definition session_filter (header : string) : InboundFilter W :=
  mkInbound "session_reader" 15 (fun w g => let! g := SessionReader_OnRequest header g in Ret (w, g, None)).
Definition tagging_filter (L : TagLibs) : InboundFilter W :=
  mkInbound "tagging" 12 (fun w g => let! r := Tagging_OnRequest L (wo_rw w) g in Ret (mkWorld (fst r) (wo_st w), snd r, None)).

(** What authorization reads. *)
Definition identity (g : GatewayContext) : string * string * string * option Policy :=
  (UserID g, Tenant g, Model g, gPolicy g).

(** A filter that does not change it. *)
Definition keeps_identity (f : InboundFilter W) : Prop :=
  forall w g w' g', if_OnRequest f w g = Ret (w', g', None) -> identity g' = identity g.

Lemma tagging_keeps_identity L : keeps_identity (tagging_filter L).
Proof.
  intros w g w' g' ([rw g1] & E & [= _ <-])%go_bind_Ret. cbn [snd].
  assert (tag_scope (wo_rw w) rw g g1) as (U & _).
  { revert E. unfold Tagging_OnRequest. destruct (gPolicy g); [apply Process_scope|by intros [= <- <-]]. }
  change (identity (untagged g1) = identity (untagged g)). by rewrite U.
Qed.

Lemma pure_keeps_identity name order f : keeps_identity (pure_filter name order f).
Proof. intros w g w' g' [= _ <- _]. done. Qed.

Lemma session_keeps_identity header : keeps_identity (session_filter header).
Proof.
  intros w g w' g' (g1 & E & [= _ <-])%go_bind_Ret. revert E. unfold SessionReader_OnRequest.
  destruct (Request g); [|done]. intros [= <-]. by repeat case_match.
Qed.

(** None of them writes to the client, as [silent_filters] asks: tagging sets headers only. *)
Lemma inbound_filters_silent (check : string -> option goerror) (validate : string -> string -> string -> bool + goerror)
  (header : string) (L : TagLibs) :
  Forall (fun f : InboundFilter W => forall w g, silent (if_OnRequest f w g) w)
    [auth_filter; credits_filter check; validate_filter validate; session_filter header; tagging_filter L].
Proof.
  repeat constructor; intros w g; cbn.
  - destruct (SessionReader_OnRequest header g); by cbn.
  - destruct (Tagging_OnRequest L (wo_rw w) g) as [[rw g1]|] eqn:E; [|done]. cbn.
    assert (tag_scope (wo_rw w) rw g g1) as (_ & _ & A & B).
    { revert E. unfold Tagging_OnRequest. destruct (gPolicy g); [apply Process_scope|by intros [= <- <-]]. }
    unfold received. by rewrite A, B.
Qed.

Lemma Auth_identity g g' : identity g' = identity g -> Auth_OnRequest g' = Auth_OnRequest g.
Proof. unfold identity. intros [= E1 E2 E3 E4]. unfold Auth_OnRequest. by rewrite E1, E2, E3, E4. Qed.

Lemma run_inbound_denied pre post : Forall keeps_identity pre -> forall w g, Auth_OnRequest g <> None ->
  match run_inbound (pre ++ auth_filter :: post) w g with Ret (_, _, None) => False | _ => True end.
Proof.
  induction 1 as [|f pre Hf _ IH]; intros w g Hd; cbn [app run_inbound].
  - cbn. by destruct (Auth_OnRequest g).
  - destruct (if_OnRequest f w g) as [[[w1 g1] [e1|]]|] eqn:E; cbn [go_bind]; [done| |done].
    apply IH. by rewrite (Auth_identity g g1) by (by eapply Hf).
Qed.
End filters.

(** No request reaches a model without authorization: in a pipeline with the authorization filter after filters that do not touch the identity
    (tagging, session and validation do not), a request the filter denies is handled
    the same way whatever the invokers are: they are not called. *)
Theorem auth_gate {S : Type} (IsPrint : list ascii -> bool) (marshal : string -> string + goerror) (e : Engine S)
  (p p' : EnginePipeline (World S)) (pre post : list (InboundFilter (World S))) (w : World S) (g : GatewayContext) (now : Time)
  (Hfilters : pp_InboundFilters p = pre ++ auth_filter :: post) (Hpre : Forall keeps_identity pre)
  (Hsame : pp_InboundFilters p' = pp_InboundFilters p /\ pp_OutboundFilters p' = pp_OutboundFilters p)
  (Hdenied : Auth_OnRequest g <> None) :
  run_pipeline IsPrint marshal e p w g now = run_pipeline IsPrint marshal e p' w g now /\
  (forall w1 g1, run_inbound (pp_InboundFilters p) w g <> Ret (w1, g1, None)).
Proof.
  destruct Hsame as [E1 E2]. pose proof (run_inbound_denied pre post Hpre w g Hdenied) as D. rewrite <- Hfilters in D. split.
  - unfold run_pipeline. rewrite E1. destruct (run_inbound (pp_InboundFilters p) w g) as [[[w1 g1] [err|]]|]; cbn [go_bind]; [|done|done].
    unfold reject. by rewrite E2.
  - intros w1 g1 E. by rewrite E in D.
Qed.

Lemma auth_gate_witness :
  let p := mkEnginePipeline "chat" (mkPipeline (fun w g => (w, g, None)) ∅) [tagging_filter demo_libs; auth_filter] [] ∅ None in
  let p' := mkEnginePipeline "chat" (mkPipeline (fun w g => (w, g <| Model := "stolen" |>, None)) ∅) [tagging_filter demo_libs; auth_filter] [] ∅ None in
  run_pipeline (fun _ => true) (fun v => inl v) demo_engine p (mkWorld newResponse tt) demo_tagged 9 =
  run_pipeline (fun _ => true) (fun v => inl v) demo_engine p' (mkWorld newResponse tt) demo_tagged 9.
Proof.
  intros p p'. refine (proj1 (auth_gate (fun _ => true) (fun v => inl v) demo_engine p p' [tagging_filter demo_libs] [] _ _ 9 _ _ _ _)).
  - reflexivity.
  - constructor; [apply tagging_keeps_identity|constructor].
  - split; reflexivity.
  - vm_compute. discriminate.
Defined.

(** * Hedged streams *)

Section winner.
Context (g w : GatewayContext).
Lemma aw_Err : Err (apply_winner g w) = Err g.
Proof. reflexivity. Qed.
Lemma aw_IsStream : IsStream (apply_winner g w) = IsStream g.
Proof. reflexivity. Qed.
Lemma aw_TTFT : TTFT (apply_winner g w) = TTFT w.
Proof. reflexivity. Qed.
Lemma aw_RequestType : RequestType (apply_winner g w) = RequestType g.
Proof. reflexivity. Qed.
Lemma aw_GetTagValue k : GetTagValue (apply_winner g w) k = GetTagValue g k.
Proof. cbn [GetTagValue gctx_RequestContext]. unfold ctx_GetTagValue. by rewrite apply_winner_tags. Qed.
End winner.

(** The completion tag of a hedged Messages stream stays on the winner's own context, so the
    engine takes a complete stream for an interrupted one. *)
Lemma hedged_stream_premature g w :
  Err g = None -> IsStream g = true -> RequestType g = RequestTypeMessages -> 0 < TTFT w ->
  GetTagValue w "message_stop_sent" = "true" -> GetTagValue g "message_stop_sent" <> "true" ->
  Err (check_completion (apply_winner g w)) = Some premature.
Proof.
  intros E St Rt T _ N. unfold check_completion. rewrite aw_Err, aw_IsStream, aw_TTFT, aw_RequestType.
  rewrite E, St, Rt, (proj2 (Z.ltb_lt _ _) T). change (seqb RequestTypeMessages RequestTypeResponses) with false.
  rewrite seqb_refl. cbn [andb]. rewrite aw_GetTagValue. by rewrite (proj2 (seqb_neq _ _) N).
Qed.
